(* ===== verification/_CoqProject ===== *)
-Q . S2P
Prelude.v
Mm.v
MmPages.v
MmBoot.v
MmHeap.v
MmAlloc.v
MmProps.v
Ports.v
Interrupts.v
Ps2.v
LineEdit.v
Vga.v
Display.v
TtyProps.v
FsTypes.v
Ramfs.v
RamfsTree.v
RamfsPath.v
RamfsData.v
RamfsOps.v
RamfsProps.v
FsPath.v
Vfs.v
RamfsDriver.v
Pseudo.v
FsCore.v
FsLinks.v
FsCoreProps.v
Fd.v
FdInv.v
FdProc.v
FdSteps.v
FdLife.v
FdProps.v
FdView.v
Sprg.v
SprgRead.v
SprgProps.v
Block.v
Fat12Name.v
Fat12.v
Fat12Driver.v
Fat12Table.v
Fat12Data.v
Fat12Dir.v
Fat12Write.v
Fat12Props.v
Iso9660.v
IsoVolume.v
IsoDriver.v
IsoProps.v
BootMedia.v
Fdc.v
Machine.v
Paging.v
Paging64.v
PagingWalk.v
PagingProps.v
Usermode.v
Usermode64.v
UserStack.v
UsermodeProps.v
Syscall.v
SyscallProps.v
Modules.v
ModulesProps.v
ModulesEarly.v
MshParse.v
MshRun.v
MshLine.v
MshEdit.v
MshProps.v
MshKernel.v
KShell.v
KShellLine.v
KShellProps.v
AdaText.v
AdaTextProps.v
Programs.v
Boot.v
