(* ===== verification/Prelude.v ===== *)
(** * System/1: a verification of the kernel, its shells and its programs

    System/1 is a small operating system in C: a kernel with a memory manager, a
    keyboard and a text console, a line-reading terminal, a file-system layer with
    several file systems, processes with POSIX descriptors, and a loader for its own
    executable format.  This library translates the C code into Rocq functions and
    proves what the parts promise to each other, up to the shell that users see.  Paths
    below are relative to [src/kernel], or to [src] for [lib] and [userland].

    ** How the parts interact

    The boot code hands the Multiboot2 information to the memory manager
    ([core/mm]).  The keyboard interrupt ([drivers/pc/ps2_core.c]) puts keys into a
    ring buffer; the terminal ([core/tty]) takes them, edits a line and echoes through
    the display switch to the console ([drivers/pc/vga_text.c]).  The file-system front
    end ([core/fs/fs_core.c]) normalises paths, follows links and calls either the
    pseudo file systems ([/dev], [/proc]) or the root driver through a table of
    operations ([core/fs/vfs_core.h]): RAMFS, FAT12 or ISO9660, the last two on a block
    device made of the boot medium.
    Processes ([core/process]) own tables of descriptors ([core/posix/fd_core.c]) that
    share open file descriptions, and the loader ([core/sprg]) reads programs through
    the front end into memory.  A program reaches all of it through system calls
    ([core/syscall], [core/posix/posix.c]); the shell ([userland/smu/shell]) is such a
    program, and what it executes is another.

    ** How the code is modelled

    - Integers are [Z]; every operation that can leave the range of its C type is
      wrapped by [u8], [u16], [u32] or [u64] of this file.  A C string is the list of
      its bytes before the terminator; [char_at] reads a byte, 0 past the end.
    - The static variables of a C file are a record, its functions are functions on
      that record.  Fallible functions of the file-system layer are in the monad [M] of
      [Vfs]: the result is a code ([inl]) or a value ([inr]) with the new state, and
      [None] stands for a loop that exhausts its fuel.
    - The kernel's tables are records beside the memory of programs.  The kernel does not
      check the pointers of system calls, so this is the machine of the code as long as no
      call is given a result buffer inside the kernel; the theorems on isolated programs
      say so ([SyscallProps.careful]).
    - Hardware and code outside the repository are parameters: [port_io] for ports,
      [block_device] for disks, [text_display] for the console the terminal needs, the
      kernel services of device files, and memory as a function from addresses.

    ** Files

    Each file holds a module of its name; [Ports] also holds [Keys], [Interrupts] holds
    [InterruptsProps] and [PcDrivers] with [PcDriversProps], [Ps2] holds
    [Ps2Props], [Vga] holds [VgaProps], [FsPath] holds [FsPathProps], [Vfs] holds [VfsWp]
    and [VfsLens], [FsLinks] holds [FsReader], [Fd] holds [FdOps], [FdInv] holds [FdTables],
    [SprgRead] holds [SprgLoad], [Display] holds
    [Tty], [Fat12Table] holds [Fat12Chain], [Fat12Data] holds [Fat12File], [Fat12Dir] holds
    [Fat12Entry], [IsoVolume] holds [IsoFormat], [BootMedia] holds [BootMediaProps], [Fdc] holds [FdcProps], [Machine]
    holds [MachineProps], [Paging] holds the layout [I386] and [Paging64] the layout [X64], [PagingWalk] holds
    [PagingX64], [Usermode64] holds [Usermode64Props], [UserStack] holds
    [UsermodeExec], [Syscall] holds [Unistd], [MshParse] holds [MshParseProps], [Programs]
    holds [ProgramsProps], and [Boot] holds [Klog] and [BootProps].

    - [Prelude]: machine integers, C arrays, tactics, shared list and option lemmas.
    - Memory, [core/mm/mm_core.c].  [Mm] is the model (bitmap, Multiboot2 tags, heap);
      [MmPages], [MmBoot], [MmHeap], [MmAlloc] the lemmas; [MmProps] and [MmBoot] the
      theorems: [kmalloc_core] and [kfree_core] refine an abstract allocator, reachable
      heaps are safe, start-up frees no page of the kernel or the boot data and ends.
    - Keyboard, console and terminal.  [Ports], [Keys]; [Ps2] and [Ps2Props]
      ([drivers/pc/ps2_core.c]: keys arrive in order, also when the interrupt falls
      inside a read); [LineEdit], the abstract line editor; [Vga] and [VgaProps]
      ([drivers/pc/vga_text.c]); [Display] ([core/tty/display_core.c]); [Tty] and
      [TtyProps] ([core/tty/tty_core.c]: the line reader implements the editor on every
      console that honours [text_display], for keys that no hook of the caller takes).
    - RAMFS, [core/fs/ramfs_core.c].  [FsTypes] the shared declarations; [Ramfs] the
      model; [RamfsTree], [RamfsPath], [RamfsData], [RamfsOps] the lemmas; [RamfsProps]
      the theorems (the node table stays a tree, files are byte sequences).
    - Front end, [core/fs/fs_core.c] and the pseudo file systems.  [FsPath] and
      [FsPathProps] (path normalisation is a fold over the components); [Vfs], the
      driver table with the contracts [file_driver] and [file_reader]; [VfsWp], a
      weakest-precondition calculus; [RamfsDriver], the instances for RAMFS; [Pseudo];
      [FsCore], the operations; [FsLinks], [FsReader], lemmas against the contracts;
      [FsCoreProps], theorems about links and the working directory.
    - Processes and descriptors, [core/process/process_core.c] and
      [core/posix/fd_core.c].  [Fd] and [FdOps] the model; [FdInv], [FdTables],
      [FdProc], [FdSteps], [FdLife] the lemmas; [FdProps] the theorems (reference counts
      are exact after every sequence of calls, a child leaves no trace); [FdView] the
      open files as one process sees them.
    - Program loader, [core/sprg/sprg_core.c].  [Sprg], [SprgRead], [SprgLoad];
      [SprgProps]: the accepted programs and the memory after a load.
    - Disks and FAT12.  [Block] ([core/fs/block_core.c]) with the contract
      [plain_device] and its instance [disk]; [Fat12Name], [Fat12], [Fat12Driver] the
      model of [core/fs/fat12_core.c]; [Fat12Table], [Fat12Chain], [Fat12Data],
      [Fat12File], [Fat12Dir], [Fat12Entry], [Fat12Write] the lemmas; [Fat12Props] the
      theorems (table updates are exact, a written file reads back).
    - ISO9660, [core/fs/iso9660_core.c].  [Iso9660] the model, [IsoVolume] volumes and
      (module [IsoFormat]) the records and names of the format, independent of the
      driver; [IsoDriver] the instance of the driver table, [IsoProps] the
      theorems (a directory is its list of records, files read back, no path leaves the
      volume).
    - Boot media, the device part of [core/fs/fs_core.c] and
      [core/fs/floppy_controller_core.c].  [BootMedia], [BootMediaProps] (the cached
      floppy is its medium); [VfsLens] embeds a driver into a larger state; [Machine]
      joins every driver behind the front end and [MachineProps] boots it.
    - Floppy disk controller, [drivers/pc/floppy_fdc.c].  [Fdc] the driver; [FdcProps] what
      the controller and the DMA chip promise (the class [controller_82077], without any
      promise of time), that the driver transfers the sectors of the disk, and that with a
      controller that gets ready in time it is a [plain_drive] for [BootMedia].
    - Page tables, [arch/x86/paging_x86.c].  [Paging] and [Paging64] the two layouts;
      [PagingWalk] the walk of the processor; [PagingX64], [PagingProps]: the tables map
      every address to itself and exactly the requested ranges are open to programs.
    - User programs on i386, [arch/i386/modules/usermode/usermode.c].  [Usermode] the
      model; [UserStack] the initial stack and (module [UsermodeExec]) the run of a
      program; [UsermodeProps] the theorems.  [Usermode64] is the file of x86-64
      ([arch/x86_64/modules/usermode/usermode.c]), with its task descriptor and what
      becomes of the arguments of 32-bit programs.
    - Interrupts, [core/interrupts], [drivers/pc/pic_pit.c] and
      [arch/i386/modules/interrupts/interrupts.c].  [Interrupts] the model;
      [InterruptsProps]: interrupt lines follow their handlers, the interrupt table.
      [PcDrivers] is the clock and the serial port ([modules/pc/cmos.c] and [com1.c]);
      [PcDriversProps]: the clock is read as it is set, in each of its four formats.
    - Kernel modules, [core/module].  [Modules] the registry and the loader,
      [ModulesEarly] the modules of the boot loader; [ModulesProps]: the accepted
      format, registrations are atomic, the images in the arena lie one behind the other.
    - System calls, [core/syscall/syscall_core.c] and [core/posix/posix.c], and
      [lib/user/unistd.c].  [Syscall] the dispatch, the calls behind it and (module
      [Unistd]) the library functions programs make them with; [SyscallProps]: whatever a
      program asks for with buffers of user programs, other processes keep what is theirs,
      and a caller of execve finds its descriptors as it left them.
    - The command-line shell, [userland/smu/shell].  [MshParse] tokens and wildcards (module
      [MshParseProps]: every list of words can be typed, wildcards are exact); [MshRun]
      redirections, commands and operators; [MshLine] the configuration, the history,
      completion, the line editor and the main loop.  The system below is the class
      [shell_os]; the shell relies on the laws of the classes [MshProps.shell_files] and
      [MshEdit.shell_keys].  [MshProps]: operators mean what they say, redirections are
      undone; [MshEdit]: the line editor, completion and the history; [MshKernel]
      instantiates the class with the system calls of the modelled kernel, proves the laws
      and runs commands on the whole machine.
    - The kernel shell, [core/shell/shell_core.c].  [KShell] the whole shell; [KShellLine]:
      splitting a line against a grammar of quotes and escapes, replacing a token;
      [KShellProps]: commands leave the descriptors as they were, the variables stay well
      formed.
    - The editor, [userland/smu/editor/adatext.c].  [AdaText] the program; [AdaTextProps]: it
      edits a list of lines, and what a failed open does to the text.
    - The other programs, [userland/smu/fs], [core] and [system].  [Programs] one [main]
      each; [ProgramsProps]: what [rm] removes, what [write] stores, which shells [kconfig]
      offers and (for a store with the laws of [config_store]) what it writes.
    - Start of the system, [core/bootstrap/bootstrap.c], and the log,
      [core/klog/klog_core.c].  [Boot]; [BootProps]: the pseudo file systems answer on every
      root, the shell chosen with [kconfig] is the one that is started.

    ** Fuel and bounds

    Loops over data recurse on the data.  The others take fuel that is shown to be
    enough, or are bounded by the code itself: [normalize_loop] gets one turn per
    character of the path and one more; link resolution has the code's own limit of 8;
    the loops of the loader get the size of what they read; [write_clusters] and
    [read_chain] one turn per byte, since each turn moves at least one; chain walks of
    FAT12 get [CHAIN_FUEL], more turns than there are 12-bit cluster numbers, so that
    only a cyclic chain exhausts them; the tag loops of the memory manager are fuelled
    by the size of the boot information, and [mm_mark_mb2_usable_hangs] shows the one
    input on which the C loop does not advance.  [TAG_FUEL] covers the 65536
    bytes of boot information the search for the boot image accepts, eight to a tag;
    [early_loop] has the code's own limit of 128 tags; strings of a program are
    read with one turn per byte of the address space; [parse_line] gets one turn per
    character and one more, [execute_tokens] one turn per token and one more; the line
    editor of the shell takes one turn per key; the loops over configuration files get one
    turn per character.  [copy_out] of [cat] and [interactive_menu] of [kconfig] run as long
    as their input lasts and take fuel as an argument; [menu_never_ends] shows that the
    second does not end when the input does.

    ** Not modelled

    Assembly and the code that only drives hardware or tables of the processor (the
    interrupt table of x86-64, the halt of the processor); the thin wrappers that forward
    to modelled functions; the drivers built as loadable modules that repeat the built-in
    ones; [true] and [false].  The
    [fat12_core_*_in_image] functions repeat the device versions on a buffer and nothing
    calls them.  Machine code is a parameter: the program a process runs and the entry point
    of a module. *)

From stdpp Require Import base decidable list list_numbers gmap strings option numbers.
From Stdlib Require Import ZArith Lia ZifyBool.

Open Scope Z_scope.
Set Default Proof Using "Type".

(** * Machine integers

    The C code is compiled for i386 and x86-64: [uint8_t], [uint16_t],
    [uint32_t] and [uint64_t] are kept as [Z] and every operation that can leave
    the range is wrapped explicitly with one of the functions below. *)

Definition u8 (z : Z) : Z := z mod 2 ^ 8.
Definition u16 (z : Z) : Z := z mod 2 ^ 16.
Definition u32 (z : Z) : Z := z mod 2 ^ 32.
Definition u64 (z : Z) : Z := z mod 2 ^ 64.

(** A conversion of an unsigned 32-bit value to [int]. *)
Definition i32 (z : Z) : Z := (z + 2 ^ 31) mod 2 ^ 32 - 2 ^ 31.

Lemma u32_small z : 0 <= z < 2 ^ 32 -> u32 z = z.
Proof. apply Z.mod_small. Qed.

Lemma u16_small z : 0 <= z < 2 ^ 16 -> u16 z = z.
Proof. apply Z.mod_small. Qed.

Lemma u8_small z : 0 <= z < 2 ^ 8 -> u8 z = z.
Proof. apply Z.mod_small. Qed.

Lemma u64_small z : 0 <= z < 2 ^ 64 -> u64 z = z.
Proof. apply Z.mod_small. Qed.

Lemma i32_small z : - 2 ^ 31 <= z < 2 ^ 31 -> i32 z = z.
Proof. intros H. unfold i32. rewrite Z.mod_small; lia. Qed.

Lemma u32_range z : 0 <= u32 z < 2 ^ 32.
Proof. apply Z.mod_pos_bound. lia. Qed.

Lemma u8_range z : 0 <= u8 z < 2 ^ 8.
Proof. apply Z.mod_pos_bound. lia. Qed.

Lemma u16_range z : 0 <= u16 z < 2 ^ 16.
Proof. apply Z.mod_pos_bound. lia. Qed.

(** Clearing the low [k] bits, the C idiom [x & ~(2^k - 1)]. *)
Lemma land_lnot_ones x k :
  0 <= k -> Z.land x (Z.lnot (Z.ones k)) = x - x mod 2 ^ k.
Proof.
  intros Hk. rewrite <- Z.land_ones by lia.
  rewrite <- Z.ldiff_land.
  pose proof (Z.add_nocarry_lxor (Z.ldiff x (Z.ones k)) (Z.land x (Z.ones k))) as H.
  assert (Z.land (Z.ldiff x (Z.ones k)) (Z.land x (Z.ones k)) = 0) as Hz.
  { apply Z.bits_inj'. intros n Hn.
    rewrite !Z.land_spec, Z.ldiff_spec, Z.bits_0.
    destruct (Z.testbit x n), (Z.testbit (Z.ones k) n); reflexivity. }
  specialize (H Hz).
  assert (Z.lxor (Z.ldiff x (Z.ones k)) (Z.land x (Z.ones k)) = x) as Hx.
  { apply Z.bits_inj'. intros n Hn.
    rewrite Z.lxor_spec, Z.land_spec, Z.ldiff_spec.
    destruct (Z.testbit x n), (Z.testbit (Z.ones k) n); reflexivity. }
  lia.
Qed.

(** The same on 32-bit integers, where the mask wraps. *)
Lemma land_mask32 x k :
  0 <= k <= 32 -> 0 <= x < 2 ^ 32 -> Z.land x (u32 (Z.lnot (Z.ones k))) = x - x mod 2 ^ k.
Proof.
  intros Hk Hx. unfold u32. rewrite <- Z.land_ones, (Z.land_comm (Z.lnot _)), Z.land_assoc by lia.
  by rewrite Z.land_ones, Z.mod_small, land_lnot_ones by lia.
Qed.

(** The bytes of a little-endian integer. *)
Definition le16 (v : Z) : list Z := [v mod 256; v / 256 mod 256].
Definition le32 (v : Z) : list Z := [v mod 256; v / 256 mod 256; v / 65536 mod 256; v / 16777216 mod 256].

(** Packing fields that do not overlap. *)
Lemma lor_shiftl a b k : 0 <= k -> 0 <= a < 2 ^ k -> Z.lor a (Z.shiftl b k) = a + b * 2 ^ k.
Proof.
  intros Hk Ha. rewrite <- Z.shiftl_mul_pow2 by lia.
  assert (Z.land a (Z.shiftl b k) = 0) as Hz.
  { apply Z.bits_inj'. intros n Hn. rewrite Z.land_spec, Z.bits_0.
    destruct (decide (n < k)).
    - rewrite Z.shiftl_spec_low by lia. apply andb_false_r.
    - destruct (decide (a = 0)) as [->|]; [by rewrite Z.bits_0|].
      rewrite (Z.bits_above_log2 a); [done|lia|]. apply Z.log2_lt_pow2; [lia|].
      apply (Z.lt_le_trans _ (2 ^ k)); [lia|]. apply Z.pow_le_mono_r; lia. }
  pose proof (Z.add_lor_land a (Z.shiftl b k)). lia.
Qed.

(** The C idiom that reads a little-endian integer from bytes. *)
Lemma lor_bytes2 a b : 0 <= a < 256 -> Z.lor a (Z.shiftl b 8) = a + b * 2 ^ 8.
Proof. intros Ha. apply lor_shiftl; lia. Qed.

Lemma lor_bytes4 a b c d :
  0 <= a < 256 -> 0 <= b < 256 -> 0 <= c < 256 ->
  Z.lor (Z.lor (Z.lor a (Z.shiftl b 8)) (Z.shiftl c 16)) (Z.shiftl d 24) = a + b * 2 ^ 8 + c * 2 ^ 16 + d * 2 ^ 24.
Proof. intros Ha Hb Hc. rewrite (lor_shiftl a b 8), (lor_shiftl _ c 16), lor_shiftl by lia. done. Qed.

Lemma le16_bytes a b : 0 <= a < 256 -> 0 <= b < 256 -> le16 (a + b * 2 ^ 8) = [a; b].
Proof.
  intros Ha Hb. unfold le16. change 256 with (2 ^ 8). rewrite Z.div_add, Z.mod_add, (Z.div_small a) by lia.
  by rewrite !Z.mod_small by lia.
Qed.

Lemma le32_bytes a b c d :
  0 <= a < 256 -> 0 <= b < 256 -> 0 <= c < 256 -> 0 <= d < 256 ->
  le32 (a + b * 2 ^ 8 + c * 2 ^ 16 + d * 2 ^ 24) = [a; b; c; d].
Proof.
  intros Ha Hb Hc Hd. unfold le32. set (v := a + b * 2 ^ 8 + c * 2 ^ 16 + d * 2 ^ 24).
  assert (v = a + (b + (c + d * 256) * 256) * 256) as Ev by (unfold v; lia).
  assert (v / 256 = b + (c + d * 256) * 256) as E1 by (rewrite Ev, Z.div_add, Z.div_small by lia; lia).
  assert (v / 65536 = c + d * 256) as E2.
  { change 65536 with (256 * 256). rewrite <- Zdiv.Zdiv_Zdiv, E1, Z.div_add, Z.div_small by lia. lia. }
  assert (v / 16777216 = d) as E3.
  { change 16777216 with (65536 * 256). rewrite <- Zdiv.Zdiv_Zdiv, E2, Z.div_add, Z.div_small by lia. lia. }
  rewrite E1, E2, E3, Ev, !Z.mod_add, !Z.mod_small by lia. done.
Qed.

Lemma le32_sum v : 0 <= v < 2 ^ 32 ->
  v mod 256 + v / 256 mod 256 * 2 ^ 8 + v / 65536 mod 256 * 2 ^ 16 + v / 16777216 mod 256 * 2 ^ 24 = v.
Proof.
  intros Hv. replace (v / 65536) with (v / 256 / 256) by (rewrite Zdiv.Zdiv_Zdiv by lia; done).
  replace (v / 16777216) with (v / 256 / 256 / 256) by (rewrite !Zdiv.Zdiv_Zdiv by lia; done).
  pose proof (Z.div_mod v 256 ltac:(lia)). pose proof (Z.div_mod (v / 256) 256 ltac:(lia)).
  pose proof (Z.div_mod (v / 256 / 256) 256 ltac:(lia)).
  rewrite (Z.mod_small (v / 256 / 256 / 256)); [lia|].
  rewrite !Zdiv.Zdiv_Zdiv by lia. split; [apply Z.div_pos; lia|apply Z.div_lt_upper_bound; lia].
Qed.

(** A disjunction of numbers of [n] bits has [n] bits. *)
Lemma lor_range a b n :
  0 <= n -> 0 <= a < 2 ^ n -> 0 <= b < 2 ^ n -> 0 <= Z.lor a b < 2 ^ n.
Proof.
  intros Hn Ha Hb. split; [apply Z.lor_nonneg; lia|].
  assert (Z.shiftr (Z.lor a b) n = 0) as Hz.
  { rewrite Z.shiftr_lor, !Z.shiftr_div_pow2, !Z.div_small by lia. done. }
  rewrite Z.shiftr_div_pow2 in Hz by lia. apply Z.div_small_iff in Hz; lia.
Qed.

(** * Tactics and hints *)

Create HintDb machine.
#[export] Hint Resolve u8_range u16_range u32_range : machine.

(** Case analysis on the boolean tests of a goal or a hypothesis. *)
Ltac case_bool :=
  match goal with
  | |- context [if ?b then _ else _] => destruct b eqn:?
  | H : context [if ?b then _ else _] |- _ => destruct b eqn:?
  end.

(** Turn boolean comparisons into propositions and call [lia]. *)
Ltac zify_bools :=
  repeat match goal with
  | H : (_ && _)%bool = true |- _ => apply andb_true_iff in H as [? ?]
  | H : (_ && _)%bool = false |- _ => apply andb_false_iff in H
  | H : (_ || _)%bool = true |- _ => apply orb_true_iff in H
  | H : (_ || _)%bool = false |- _ => apply orb_false_iff in H as [? ?]
  | H : negb _ = true |- _ => apply negb_true_iff in H
  | H : negb _ = false |- _ => apply negb_false_iff in H
  | H : (_ =? _) = true |- _ => apply Z.eqb_eq in H
  | H : (_ =? _) = false |- _ => apply Z.eqb_neq in H
  | H : (_ <? _) = true |- _ => apply Z.ltb_lt in H
  | H : (_ <? _) = false |- _ => apply Z.ltb_ge in H
  | H : (_ <=? _) = true |- _ => apply Z.leb_le in H
  | H : (_ <=? _) = false |- _ => apply Z.leb_gt in H
  end.

Ltac blia := zify_bools; lia.

(** Remove the wrap-around of values that [lia] shows to be in range. *)
Ltac unwrap :=
  repeat match goal with
  | |- context [u32 ?x] => rewrite (u32_small x) by lia
  | H : context [u32 ?x] |- _ => rewrite (u32_small x) in H by lia
  | |- context [u16 ?x] => rewrite (u16_small x) by lia
  | H : context [u16 ?x] |- _ => rewrite (u16_small x) in H by lia
  | |- context [u8 ?x] => rewrite (u8_small x) by lia
  | H : context [u8 ?x] |- _ => rewrite (u8_small x) in H by lia
  end.
