(* ===== verification/Mm.v ===== *)
(** * Physical page allocator and kernel heap

    Model of [src/src/kernel/core/mm/mm_core.c] (and of the thin wrappers of
    [mm.c]).  The page bitmap [g_page_used] is the list of its bytes, the kernel
    heap is the doubly linked list of block headers the C code threads through
    memory: [heap_mem] maps the address of a header to its contents, pointers are
    addresses and 0 is the null pointer.  A read of a header that no code has
    written yields [None], so "the result is [Some _]" is memory safety. *)

From S2P Require Import Prelude.
From stdpp Require Import base list gmap option.
From Stdlib Require Import ZArith Lia ZifyBool.

Open Scope Z_scope.

Module Mm.

(** ** Target and constants *)

(** The two targets: [sizeof(uintptr_t)] and [sizeof(heap_block_t)]. *)
Inductive arch := I386 | X86_64.

Definition sizeof_ptr (A : arch) : Z := match A with I386 => 4 | X86_64 => 8 end.
Definition sizeof_block (A : arch) : Z := match A with I386 => 16 | X86_64 => 24 end.
Definition uptr (A : arch) (z : Z) : Z := match A with I386 => u32 z | X86_64 => u64 z end.

Definition MM_MB2_BOOTLOADER_MAGIC : Z := 0x36D76289.
Definition MM_FLOPPY_MAGIC : Z := 0x53314D47.
Definition MM_PAGE_SIZE : Z := 4096.
Definition MM_LOW_MEMORY_LIMIT : Z := 0x00100000.
Definition MM_MAX_PAGES : Z := 0x04000000 / MM_PAGE_SIZE.

(** ** State *)

Record heap_block := HeapBlock {
  hb_size : Z;
  hb_free : Z;
  hb_next : Z;
  hb_prev : Z
}.

Record mm_state := MmState {
  g_page_used : list Z;
  g_total_pages : Z;
  g_used_pages : Z;
  g_initialized : Z;
  g_heap_head : Z;
  g_heap_tail : Z;
  g_heap_total_bytes : Z;
  heap_mem : gmap Z heap_block
}.

Definition set_pages (st : mm_state) (pages : list Z) (used : Z) : mm_state :=
  {| g_page_used := pages; g_total_pages := g_total_pages st; g_used_pages := used;
     g_initialized := g_initialized st; g_heap_head := g_heap_head st;
     g_heap_tail := g_heap_tail st; g_heap_total_bytes := g_heap_total_bytes st;
     heap_mem := heap_mem st |}.

Definition set_heap (st : mm_state) (head tail total : Z) (mem : gmap Z heap_block) : mm_state :=
  {| g_page_used := g_page_used st; g_total_pages := g_total_pages st;
     g_used_pages := g_used_pages st; g_initialized := g_initialized st;
     g_heap_head := head; g_heap_tail := tail; g_heap_total_bytes := total;
     heap_mem := mem |}.

(** The zero-initialised globals of the C program. *)
Definition mm_boot_state : mm_state :=
  {| g_page_used := replicate (Z.to_nat MM_MAX_PAGES) 0; g_total_pages := 0;
     g_used_pages := 0; g_initialized := 0; g_heap_head := 0; g_heap_tail := 0;
     g_heap_total_bytes := 0; heap_mem := ∅ |}.

(** ** Alignment *)

Definition mm_align_up_u32 (value align : Z) : Z :=
  Z.land (u32 (value + align - 1)) (Z.lnot (align - 1)).

Definition mm_align_down_u32 (value align : Z) : Z :=
  Z.land value (Z.lnot (align - 1)).

Definition mm_align_alloc_size (A : arch) (size : Z) : Z :=
  mm_align_up_u32 size (sizeof_ptr A).

Definition mm_mb2_align8 (value : Z) : Z := Z.land (u32 (value + 7)) (Z.lnot 7).

(** ** Page bitmap *)

Definition mm_clear_pages (st : mm_state) : mm_state :=
  {| g_page_used := replicate (Z.to_nat MM_MAX_PAGES) 1; g_total_pages := 0;
     g_used_pages := MM_MAX_PAGES; g_initialized := g_initialized st;
     g_heap_head := g_heap_head st; g_heap_tail := g_heap_tail st;
     g_heap_total_bytes := g_heap_total_bytes st; heap_mem := heap_mem st |}.

Definition page_at (st : mm_state) (page : Z) : Z :=
  default 0 (g_page_used st !! Z.to_nat page).

Definition mm_set_page_used (st : mm_state) (page used : Z) : mm_state :=
  if MM_MAX_PAGES <=? page then st
  else if page_at st page =? used then st
  else set_pages st (<[Z.to_nat page := used]> (g_page_used st))
         (if negb (used =? 0) then u32 (g_used_pages st + 1)
          else u32 (g_used_pages st - 1)).

(** [for (addr = start; addr < end; addr += MM_PAGE_SIZE)
       mm_set_page_used(addr / MM_PAGE_SIZE, used);]
    run [n] times. *)
Fixpoint mark_loop (n : nat) (st : mm_state) (addr used : Z) : mm_state :=
  match n with
  | O => st
  | S n' => mark_loop n' (mm_set_page_used st (addr / MM_PAGE_SIZE) used)
                      (addr + MM_PAGE_SIZE) used
  end.

Definition loop_count (start stop : Z) : nat :=
  Z.to_nat ((stop - start + MM_PAGE_SIZE - 1) / MM_PAGE_SIZE).

(** [limit] is the result of [paging_identity_limit()]. *)
Definition mm_mark_range_free (limit : Z) (st : mm_state) (start stop : Z) : mm_state :=
  if limit <=? start then st
  else
    let stop := if limit <? stop then limit else stop in
    let start := mm_align_up_u32 start MM_PAGE_SIZE in
    let stop := mm_align_down_u32 stop MM_PAGE_SIZE in
    if stop <=? start then st
    else mark_loop (loop_count start stop) st start 0.

Definition mm_mark_range_used (limit : Z) (st : mm_state) (start stop : Z) : mm_state :=
  if limit <=? start then st
  else
    let stop := if limit <? stop then limit else stop in
    let start := mm_align_down_u32 start MM_PAGE_SIZE in
    let stop := mm_align_up_u32 stop MM_PAGE_SIZE in
    if stop <=? start then st
    else mark_loop (loop_count start stop) st start 1.

Fixpoint count_free (pages : list Z) : Z :=
  match pages with
  | [] => 0
  | p :: ps => (if p =? 0 then 1 else 0) + count_free ps
  end.

Definition mm_count_total_pages (st : mm_state) : mm_state :=
  {| g_page_used := g_page_used st;
     g_total_pages := u32 (count_free (g_page_used st) + g_used_pages st);
     g_used_pages := g_used_pages st; g_initialized := g_initialized st;
     g_heap_head := g_heap_head st; g_heap_tail := g_heap_tail st;
     g_heap_total_bytes := g_heap_total_bytes st; heap_mem := heap_mem st |}.

(** ** Multiboot2 boot information

    [byte_at] is the physical memory the boot loader filled in. *)

Definition rd32 (byte_at : Z -> Z) (p : Z) : Z :=
  byte_at p + 2 ^ 8 * byte_at (p + 1) + 2 ^ 16 * byte_at (p + 2) + 2 ^ 24 * byte_at (p + 3).

Definition rd64 (byte_at : Z -> Z) (p : Z) : Z :=
  rd32 byte_at p + 2 ^ 32 * rd32 byte_at (p + 4).

(** The body of the memory-map entry loop for one entry at [p]. *)
Definition mmap_entry (byte_at : Z -> Z) (limit : Z) (st : mm_state) (p : Z) : mm_state :=
  let addr := rd64 byte_at p in
  let len := rd64 byte_at (p + 8) in
  let type := rd32 byte_at (p + 16) in
  if (type =? 1) && (addr <? 0x100000000) then
    let end64 := u64 (addr + len) in
    let end64 := if 0x100000000 <? end64 then 0x100000000 else end64 in
    mm_mark_range_free limit st (u32 addr) (u32 end64)
  else st.

(** Pointers have the width of the machine ([uptr]). *)
Fixpoint mmap_loop (A : arch) (fuel : nat) (byte_at : Z -> Z) (limit : Z) (st : mm_state)
    (entry_ptr mmap_end entry_size : Z) : option mm_state :=
  match fuel with
  | O => None
  | S f =>
      if uptr A (entry_ptr + 24) <=? mmap_end then
        mmap_loop A f byte_at limit (mmap_entry byte_at limit st entry_ptr)
          (uptr A (entry_ptr + entry_size)) mmap_end entry_size
      else Some st
  end.

(** The tag loop; [None] is "the loop is still running". *)
Fixpoint mark_tags (A : arch) (fuel : nat) (byte_at : Z -> Z) (limit : Z) (st : mm_state)
    (tag stop : Z) : option mm_state :=
  match fuel with
  | O => None
  | S f =>
      if tag <? stop then
        let type := rd32 byte_at tag in
        let size := rd32 byte_at (tag + 4) in
        if type =? 0 then Some st
        else if size <? 8 then Some st
        else if type =? 6 then
          let entry_size := rd32 byte_at (tag + 8) in
          if entry_size <? 24 then Some st
          else
            st ← mmap_loop A f byte_at limit st (uptr A (tag + 16)) (uptr A (tag + size)) entry_size;
            mark_tags A f byte_at limit st (uptr A (tag + mm_mb2_align8 size)) stop
        else mark_tags A f byte_at limit st (uptr A (tag + mm_mb2_align8 size)) stop
      else Some st
  end.

Definition mm_mark_mb2_usable (A : arch) (fuel : nat) (byte_at : Z -> Z) (limit : Z)
    (st : mm_state) (boot_info_ptr : Z) : option mm_state :=
  mark_tags A fuel byte_at limit st (uptr A (boot_info_ptr + 8))
            (uptr A (boot_info_ptr + rd32 byte_at boot_info_ptr)).

Fixpoint reserve_tags (A : arch) (fuel : nat) (byte_at : Z -> Z) (limit : Z) (st : mm_state)
    (tag stop : Z) : option mm_state :=
  match fuel with
  | O => None
  | S f =>
      if tag <? stop then
        let type := rd32 byte_at tag in
        let size := rd32 byte_at (tag + 4) in
        if type =? 0 then Some st
        else if size <? 8 then Some st
        else
          let st :=
            if (type =? 3) && (16 <=? size) then
              let mod_start := rd32 byte_at (tag + 8) in
              let mod_end := rd32 byte_at (tag + 12) in
              if mod_start <? mod_end then mm_mark_range_used limit st mod_start mod_end
              else st
            else st in
          reserve_tags A f byte_at limit st (uptr A (tag + mm_mb2_align8 size)) stop
      else Some st
  end.

Definition mm_reserve_mb2_regions (A : arch) (fuel : nat) (byte_at : Z -> Z) (limit : Z)
    (st : mm_state) (boot_info_ptr : Z) : option mm_state :=
  let total_size := rd32 byte_at boot_info_ptr in
  let st := mm_mark_range_used limit st boot_info_ptr (u32 (boot_info_ptr + total_size)) in
  reserve_tags A fuel byte_at limit st (uptr A (boot_info_ptr + 8)) (uptr A (boot_info_ptr + total_size)).

(** [kstart], [kend] are the linker symbols [__kernel_start], [__kernel_end]. *)
Definition mm_reserve_common (A : arch) (fuel : nat) (byte_at : Z -> Z) (limit kstart kend : Z)
    (st : mm_state) (boot_magic boot_info_ptr : Z) : option mm_state :=
  let st := mm_mark_range_used limit st 0 MM_LOW_MEMORY_LIMIT in
  let st := mm_mark_range_used limit st (u32 kstart) (u32 kend) in
  if (boot_magic =? MM_MB2_BOOTLOADER_MAGIC) && negb (boot_info_ptr =? 0) then
    mm_reserve_mb2_regions A fuel byte_at limit st boot_info_ptr
  else if (boot_magic =? MM_FLOPPY_MAGIC) && negb (boot_info_ptr =? 0) then
    Some (mm_mark_range_used limit st boot_info_ptr (u32 (boot_info_ptr + MM_PAGE_SIZE)))
  else Some st.

(** ** Page runs *)

(** The scan of [mm_alloc_pages]: [i] is the page index, [run] and [start] the
    locals of the C function. *)
Fixpoint alloc_scan (pages : list Z) (i run start count : Z) : option Z :=
  match pages with
  | [] => None
  | p :: ps =>
      if p =? 0 then
        let start := if run =? 0 then i else start in
        let run := run + 1 in
        if run =? count then Some start else alloc_scan ps (i + 1) run start count
      else alloc_scan ps (i + 1) 0 start count
  end.

Fixpoint set_run (n : nat) (st : mm_state) (page used : Z) : mm_state :=
  match n with
  | O => st
  | S n' => set_run n' (mm_set_page_used st page used) (page + 1) used
  end.

Definition mm_alloc_pages (st : mm_state) (count : Z) : Z * mm_state :=
  if count =? 0 then (0, st)
  else match alloc_scan (g_page_used st) 0 0 0 count with
       | Some start => (u32 (start * MM_PAGE_SIZE), set_run (Z.to_nat count) st start 1)
       | None => (0, st)
       end.

Definition mm_free_pages (st : mm_state) (addr count : Z) : mm_state :=
  if (addr =? 0) || (count =? 0) || negb (Z.land addr (MM_PAGE_SIZE - 1) =? 0) then st
  else
    let page := u32 (addr / MM_PAGE_SIZE) in
    set_run (Z.to_nat (Z.min count (MM_MAX_PAGES - page))) st page 0.

(** ** Heap blocks *)

Fixpoint find_loop (fuel : nat) (mem : gmap Z heap_block) (block size : Z) : option Z :=
  match fuel with
  | O => None
  | S f =>
      if block =? 0 then Some 0
      else
        b ← mem !! block;
        if negb (hb_free b =? 0) && (size <=? hb_size b) then Some block
        else find_loop f mem (hb_next b) size
  end.

(** Every list operation needs at most one step per header in memory. *)
Definition heap_fuel (st : mm_state) : nat := S (base.size (heap_mem st)).

Definition mm_find_free_block (st : mm_state) (size : Z) : option Z :=
  find_loop (heap_fuel st) (heap_mem st) (g_heap_head st) size.

Definition mm_split_block (A : arch) (st : mm_state) (block size : Z) : option mm_state :=
  let min_split := u32 (sizeof_block A + sizeof_ptr A) in
  if block =? 0 then Some st
  else
    b ← heap_mem st !! block;
    if hb_size b <? u32 (size + min_split) then Some st
    else
      let split := uptr A (block + sizeof_block A + size) in
      let mem := <[split := {| hb_size := u32 (hb_size b - size - sizeof_block A);
                               hb_free := 1; hb_next := hb_next b; hb_prev := block |}]>
                   (heap_mem st) in
      '(mem, tail) ←
        (if negb (hb_next b =? 0) then
           n ← mem !! hb_next b;
           Some (<[hb_next b := {| hb_size := hb_size n; hb_free := hb_free n;
                                   hb_next := hb_next n; hb_prev := split |}]> mem,
                 g_heap_tail st)
         else Some (mem, split));
      b ← mem !! block;
      Some (set_heap st (g_heap_head st) tail (g_heap_total_bytes st)
              (<[block := {| hb_size := size; hb_free := hb_free b;
                             hb_next := split; hb_prev := hb_prev b |}]> mem)).

Definition mm_blocks_adjacent (A : arch) (st : mm_state) (left right : Z) : option bool :=
  if (left =? 0) || (right =? 0) then Some false
  else
    l ← heap_mem st !! left;
    Some (uptr A (left + sizeof_block A + hb_size l) =? right).

(** First half of [mm_coalesce_block]: absorb a free, adjacent successor. *)
Definition merge_next (A : arch) (st : mm_state) (block : Z) : option mm_state :=
  b ← heap_mem st !! block;
  if hb_next b =? 0 then Some st
  else
    n ← heap_mem st !! hb_next b;
    if hb_free n =? 0 then Some st
    else
      adj ← mm_blocks_adjacent A st block (hb_next b);
      if negb adj then Some st
      else
        let mem := <[block := {| hb_size := u32 (hb_size b + sizeof_block A + hb_size n);
                                 hb_free := hb_free b; hb_next := hb_next n;
                                 hb_prev := hb_prev b |}]> (heap_mem st) in
        if negb (hb_next n =? 0) then
          nn ← mem !! hb_next n;
          Some (set_heap st (g_heap_head st) (g_heap_tail st) (g_heap_total_bytes st)
                  (<[hb_next n := {| hb_size := hb_size nn; hb_free := hb_free nn;
                                     hb_next := hb_next nn; hb_prev := block |}]> mem))
        else Some (set_heap st (g_heap_head st) block (g_heap_total_bytes st) mem).

Fixpoint mm_coalesce_block (fuel : nat) (A : arch) (st : mm_state) (block : Z)
    : option mm_state :=
  match fuel with
  | O => None
  | S f =>
      if block =? 0 then Some st
      else
        st ← merge_next A st block;
        b ← heap_mem st !! block;
        if hb_prev b =? 0 then Some st
        else
          p ← heap_mem st !! hb_prev b;
          if hb_free p =? 0 then Some st
          else
            adj ← mm_blocks_adjacent A st (hb_prev b) block;
            if (adj : bool) then mm_coalesce_block f A st (hb_prev b) else Some st
  end.

(** Second part of [mm_grow_heap]: initialise the header at [block] and append
    it to the list. *)
Definition grow_link (A : arch) (st : mm_state) (block pages : Z) : option mm_state :=
  let mem := <[block := {| hb_size := u32 (pages * MM_PAGE_SIZE - sizeof_block A);
                           hb_free := 1; hb_next := 0; hb_prev := g_heap_tail st |}]>
               (heap_mem st) in
  '(mem, head) ←
    (if negb (g_heap_tail st =? 0) then
       t ← mem !! g_heap_tail st;
       Some (<[g_heap_tail st := {| hb_size := hb_size t; hb_free := hb_free t;
                                    hb_next := block; hb_prev := hb_prev t |}]> mem,
             g_heap_head st)
     else Some (mem, block));
  Some (set_heap st head block (u32 (g_heap_total_bytes st + pages * MM_PAGE_SIZE)) mem).

(** Third part: coalesce with the previous tail and return the block to use. *)
Definition grow_finish (A : arch) (st : mm_state) (block : Z) : option (Z * mm_state) :=
  b ← heap_mem st !! block;
  if hb_prev b =? 0 then Some (block, st)
  else
    p ← heap_mem st !! hb_prev b;
    if hb_free p =? 0 then Some (block, st)
    else
      adj ← mm_blocks_adjacent A st (hb_prev b) block;
      if (adj : bool) then
        st ← mm_coalesce_block (heap_fuel st) A st (hb_prev b);
        b ← heap_mem st !! block;
        Some (hb_prev b, st)
      else Some (block, st).

Definition mm_grow_heap (A : arch) (st : mm_state) (size : Z) : option (Z * mm_state) :=
  let total := u32 (size + sizeof_block A) in
  let pages := u32 (total + MM_PAGE_SIZE - 1) / MM_PAGE_SIZE in
  let '(block, st) := mm_alloc_pages st pages in
  if block =? 0 then Some (0, st)
  else
    st ← grow_link A st block pages;
    grow_finish A st block.

(** ** Public operations *)

Definition mm_core_init (A : arch) (fuel : nat) (byte_at : Z -> Z) (paging_enabled limit kstart kend : Z)
    (st : mm_state) (boot_magic boot_info_ptr : Z) : option (Z * mm_state) :=
  if negb (g_initialized st =? 0) then Some (0, st)
  else if (paging_enabled =? 0) || (limit <? MM_PAGE_SIZE) then Some (-1, st)
  else
    let st := mm_clear_pages st in
    st ← (if (boot_magic =? MM_MB2_BOOTLOADER_MAGIC) && negb (boot_info_ptr =? 0)
          then mm_mark_mb2_usable A fuel byte_at limit st boot_info_ptr
          else Some (mm_mark_range_free limit st MM_LOW_MEMORY_LIMIT (u32 limit)));
    st ← mm_reserve_common A fuel byte_at limit kstart kend st boot_magic boot_info_ptr;
    let st := mm_count_total_pages st in
    Some (0, {| g_page_used := g_page_used st; g_total_pages := g_total_pages st;
                g_used_pages := g_used_pages st; g_initialized := 1; g_heap_head := 0;
                g_heap_tail := 0; g_heap_total_bytes := 0; heap_mem := heap_mem st |}).

Definition kmalloc_core (A : arch) (st : mm_state) (size : Z) : option (Z * mm_state) :=
  if (g_initialized st =? 0) || (size =? 0) then Some (0, st)
  else
    let size := mm_align_alloc_size A size in
    block ← mm_find_free_block st size;
    '(block, st) ← (if block =? 0 then mm_grow_heap A st size else Some (block, st));
    if block =? 0 then Some (0, st)
    else
      st ← mm_split_block A st block size;
      b ← heap_mem st !! block;
      Some (uptr A (block + sizeof_block A),
            set_heap st (g_heap_head st) (g_heap_tail st) (g_heap_total_bytes st)
              (<[block := {| hb_size := hb_size b; hb_free := 0;
                             hb_next := hb_next b; hb_prev := hb_prev b |}]> (heap_mem st))).

Definition kfree_core (A : arch) (st : mm_state) (ptr : Z) : option mm_state :=
  if ptr =? 0 then Some st
  else
    let block := uptr A (ptr - sizeof_block A) in
    b ← heap_mem st !! block;
    let st := set_heap st (g_heap_head st) (g_heap_tail st) (g_heap_total_bytes st)
                (<[block := {| hb_size := hb_size b; hb_free := 1;
                               hb_next := hb_next b; hb_prev := hb_prev b |}]>
                   (heap_mem st)) in
    mm_coalesce_block (heap_fuel st) A st block.

Definition mm_core_alloc_page (st : mm_state) : Z * mm_state :=
  if g_initialized st =? 0 then (0, st) else mm_alloc_pages st 1.

Definition mm_core_free_page (st : mm_state) (page : Z) : mm_state :=
  if g_initialized st =? 0 then st else mm_free_pages st page 1.

Record mm_stats := MmStats {
  total_pages : Z; used_pages : Z; free_pages : Z;
  heap_total_bytes : Z; heap_used_bytes : Z; heap_free_bytes : Z;
  heap_largest_free_bytes : Z
}.

Fixpoint stats_loop (fuel : nat) (mem : gmap Z heap_block) (block : Z)
    (used free largest : Z) : option (Z * Z * Z) :=
  match fuel with
  | O => None
  | S f =>
      if block =? 0 then Some (used, free, largest)
      else
        b ← mem !! block;
        if negb (hb_free b =? 0) then
          stats_loop f mem (hb_next b) used (u32 (free + hb_size b))
            (if largest <? hb_size b then hb_size b else largest)
        else stats_loop f mem (hb_next b) (u32 (used + hb_size b)) free largest
  end.

Definition mm_core_get_stats (st : mm_state) : option mm_stats :=
  '(used, free, largest) ← stats_loop (heap_fuel st) (heap_mem st) (g_heap_head st) 0 0 0;
  Some {| total_pages := g_total_pages st; used_pages := g_used_pages st;
          free_pages := if g_used_pages st <=? g_total_pages st
                        then g_total_pages st - g_used_pages st else 0;
          heap_total_bytes := g_heap_total_bytes st; heap_used_bytes := used;
          heap_free_bytes := free; heap_largest_free_bytes := largest |}.

End Mm.
