(* ===== verification/MmPages.v ===== *)
(** * Correctness of the page allocator

    The bitmap invariant [pages_ok] (every byte is 0 or 1 and [g_used_pages]
    counts the used ones), its preservation by every operation of [mm_core.c]
    that touches the bitmap, and the functional behaviour of [mm_alloc_pages]:
    it is exactly first fit. *)

From S2P Require Import Prelude Mm.
From stdpp Require Import base list gmap option.
From Stdlib Require Import ZArith Lia ZifyBool.
Open Scope Z_scope.

Module MmPages.
Import Mm.

(** ** The bitmap invariant *)

Record pages_ok (st : mm_state) : Prop := {
  po_len : length (g_page_used st) = Z.to_nat MM_MAX_PAGES;
  po_bit : Forall (fun p => p = 0 \/ p = 1) (g_page_used st);
  po_cnt : g_used_pages st = MM_MAX_PAGES - count_free (g_page_used st)
}.

Lemma max_pages_val : MM_MAX_PAGES = 16384.
Proof. reflexivity. Qed.

Lemma count_free_bound l : 0 <= count_free l <= Z.of_nat (length l).
Proof. induction l as [|p l IH]; simpl; [lia|]. case_bool; lia. Qed.

Lemma count_free_insert l i p q :
  l !! i = Some p ->
  count_free (<[i := q]> l) =
  count_free l - (if p =? 0 then 1 else 0) + (if q =? 0 then 1 else 0).
Proof.
  revert i. induction l as [|x l IH]; intros [|i] H; simplify_eq/=; [lia|].
  rewrite (IH i H). lia.
Qed.

Lemma count_free_replicate n x :
  count_free (replicate n x) = if x =? 0 then Z.of_nat n else 0.
Proof. induction n as [|n IH]; [by case_bool | cbn [replicate count_free]; rewrite IH; case_bool; lia]. Qed.

Lemma page_lookup st page :
  pages_ok st -> 0 <= page < MM_MAX_PAGES ->
  g_page_used st !! Z.to_nat page = Some (page_at st page) /\
  (page_at st page = 0 \/ page_at st page = 1).
Proof.
  intros [Hl Hb _] Hp. unfold page_at.
  destruct (g_page_used st !! Z.to_nat page) as [p|] eqn:E.
  - split; [done|]. simpl. by eapply (Forall_lookup_1 _ _ _ _ Hb).
  - apply lookup_ge_None in E. rewrite Hl in E. lia.
Qed.

Lemma set_pages_heap st pages used :
  g_heap_head (set_pages st pages used) = g_heap_head st /\
  g_heap_tail (set_pages st pages used) = g_heap_tail st /\
  g_heap_total_bytes (set_pages st pages used) = g_heap_total_bytes st /\
  g_initialized (set_pages st pages used) = g_initialized st /\
  g_total_pages (set_pages st pages used) = g_total_pages st /\
  heap_mem (set_pages st pages used) = heap_mem st.
Proof. done. Qed.

(** [same_heap] relates states that differ in the bitmap only. *)
Definition same_heap (st st' : mm_state) : Prop :=
  g_heap_head st' = g_heap_head st /\ g_heap_tail st' = g_heap_tail st /\
  g_heap_total_bytes st' = g_heap_total_bytes st /\
  g_initialized st' = g_initialized st /\ g_total_pages st' = g_total_pages st /\
  heap_mem st' = heap_mem st.

#[export] Instance same_heap_refl : Reflexive same_heap.
Proof. by intros st. Qed.

#[export] Instance same_heap_trans : Transitive same_heap.
Proof. intros a b c H1 H2. unfold same_heap in *. intuition congruence. Qed.

Lemma set_page_used_spec st page used :
  pages_ok st -> 0 <= page -> used = 0 \/ used = 1 ->
  pages_ok (mm_set_page_used st page used) /\
  same_heap st (mm_set_page_used st page used) /\
  forall q, 0 <= q < MM_MAX_PAGES ->
    page_at (mm_set_page_used st page used) q =
    if q =? page then used else page_at st q.
Proof.
  intros Hok Hp Hu. unfold mm_set_page_used.
  destruct (Z.leb_spec MM_MAX_PAGES page) as [Hge|Hlt].
  { repeat split; try apply Hok. intros q Hq. case_bool; blia. }
  destruct (Z.eqb_spec (page_at st page) used) as [He|Hne].
  { repeat split; try apply Hok. intros q Hq. case_bool; zify_bools; congruence. }
  destruct (page_lookup st page Hok ltac:(lia)) as [Hlk Hbit].
  destruct Hok as [Hl Hb Hc]. split; [split|split].
  - simpl. by rewrite length_insert.
  - simpl. by apply Forall_insert.
  - simpl. rewrite (count_free_insert _ _ _ _ Hlk).
    pose proof (count_free_bound (g_page_used st)) as Hbd. rewrite Hl in Hbd.
    pose proof (count_free_bound (<[Z.to_nat page := used]> (g_page_used st))) as Hbd'.
    rewrite (count_free_insert _ _ _ _ Hlk), length_insert, Hl in Hbd'.
    rewrite max_pages_val in *.
    destruct Hu as [->| ->], Hbit as [Hpg|Hpg]; rewrite Hpg in *; simpl in *;
      try congruence; unwrap; lia.
  - by apply set_pages_heap.
  - intros q Hq. unfold page_at. simpl.
    destruct (Z.eqb_spec q page) as [->|Hqp].
    + rewrite list_lookup_insert_eq by (rewrite Hl; lia). done.
    + rewrite list_lookup_insert_ne by lia. done.
Qed.

(** The two loops over pages write the same value to consecutive pages. *)
Lemma set_run_spec n st page used :
  pages_ok st -> 0 <= page -> used = 0 \/ used = 1 ->
  pages_ok (set_run n st page used) /\
  same_heap st (set_run n st page used) /\
  forall q, 0 <= q < MM_MAX_PAGES ->
    page_at (set_run n st page used) q =
    if (page <=? q) && (q <? page + Z.of_nat n) then used else page_at st q.
Proof.
  revert st page. induction n as [|n IH]; intros st page Hok Hp Hu; cbn [set_run].
  { split; [done|]. split; [done|]. intros q Hq. case_bool; blia. }
  destruct (set_page_used_spec st page used Hok Hp Hu) as (Hok' & Hh & Hq').
  destruct (IH _ (page + 1) Hok' ltac:(lia) Hu) as (Hok'' & Hh' & Hq'').
  split; [done|]. split; [by etrans|]. intros q Hq. rewrite Hq'' by done.
  rewrite Hq' by done. repeat case_bool; try done; lia.
Qed.

Lemma mark_loop_run n st page used :
  0 <= page -> mark_loop n st (page * MM_PAGE_SIZE) used = set_run n st page used.
Proof.
  unfold MM_PAGE_SIZE. revert st page. induction n as [|n IH]; intros st page Hp; [done|].
  cbn [mark_loop set_run]. unfold MM_PAGE_SIZE in *. rewrite Z.div_mul by lia.
  replace (page * 4096 + 4096) with ((page + 1) * 4096) by lia. apply IH. lia.
Qed.

Lemma align_down_val x :
  mm_align_down_u32 x MM_PAGE_SIZE = x / MM_PAGE_SIZE * MM_PAGE_SIZE.
Proof.
  unfold mm_align_down_u32, MM_PAGE_SIZE.
  change (4096 - 1) with (Z.ones 12). rewrite land_lnot_ones by lia.
  pose proof (Z.div_mod x (2 ^ 12)). change (2 ^ 12) with 4096 in *. lia.
Qed.

Lemma align_up_val x :
  mm_align_up_u32 x MM_PAGE_SIZE =
  u32 (x + MM_PAGE_SIZE - 1) / MM_PAGE_SIZE * MM_PAGE_SIZE.
Proof. unfold mm_align_up_u32. apply align_down_val. Qed.

Lemma mark_loop_aligned n st a used :
  0 <= a -> a mod MM_PAGE_SIZE = 0 ->
  mark_loop n st a used = set_run n st (a / MM_PAGE_SIZE) used.
Proof.
  intros Ha Hm. rewrite <- mark_loop_run by (apply Z.div_pos; unfold MM_PAGE_SIZE; lia).
  f_equal. rewrite (Z.div_mod a MM_PAGE_SIZE) at 1 by (unfold MM_PAGE_SIZE; lia). lia.
Qed.

(** ** Marking ranges *)

Lemma mark_range_free_spec limit st start stop :
  pages_ok st -> 0 <= start -> 0 <= stop -> limit <= 2 ^ 32 - MM_PAGE_SIZE ->
  pages_ok (mm_mark_range_free limit st start stop) /\
  same_heap st (mm_mark_range_free limit st start stop) /\
  forall q, 0 <= q < MM_MAX_PAGES ->
    page_at (mm_mark_range_free limit st start stop) q =
    if (start <=? q * MM_PAGE_SIZE) && ((q + 1) * MM_PAGE_SIZE <=? Z.min stop limit)
    then 0 else page_at st q.
Proof.
  intros Hok Hs He Hlim. unfold mm_mark_range_free.
  destruct (Z.leb_spec limit start) as [Hl|Hl].
  { split; [done|]. split; [done|]. intros q Hq. unfold MM_PAGE_SIZE. case_bool; [|done]. zify_bools. lia. }
  set (stop' := if limit <? stop then limit else stop).
  assert (stop' = Z.min stop limit) as Hst by (unfold stop'; case_bool; blia).
  rewrite <- Hst. rewrite align_up_val, align_down_val.
  rewrite u32_small by (unfold MM_PAGE_SIZE in *; lia).
  unfold loop_count. unfold MM_PAGE_SIZE in *.
  set (s := (start + 4096 - 1) / 4096). set (e := stop' / 4096).
  assert (start <= s * 4096 < start + 4096) as Hsb
    by (unfold s; pose proof (Z.div_mod (start + 4096 - 1) 4096);
        pose proof (Z.mod_pos_bound (start + 4096 - 1) 4096); lia).
  assert (e * 4096 <= stop' < e * 4096 + 4096) as Heb
    by (unfold e; pose proof (Z.div_mod stop' 4096);
        pose proof (Z.mod_pos_bound stop' 4096); lia).
  destruct (Z.leb_spec (e * 4096) (s * 4096)) as [Hes|Hes].
  { split; [done|]. split; [done|]. intros q Hq. case_bool; [|done]. zify_bools. lia. }
  assert (0 <= s) by lia.
  rewrite (mark_loop_run _ st s 0) by done.
  replace (e * 4096 - s * 4096 + 4096 - 1) with (4095 + (e - s) * 4096) by lia.
  rewrite Z.div_add by lia. change (4095 / 4096) with 0.
  destruct (set_run_spec (Z.to_nat (0 + (e - s))) st s 0 Hok ltac:(lia) ltac:(lia))
    as (H1 & H2 & H3).
  split; [done|]. split; [done|]. intros q Hq. rewrite H3 by done.
  repeat case_bool; try done; blia.
Qed.

Lemma mark_range_used_spec limit st start stop :
  pages_ok st -> 0 <= start -> 0 <= stop -> limit <= 2 ^ 32 - MM_PAGE_SIZE ->
  pages_ok (mm_mark_range_used limit st start stop) /\
  same_heap st (mm_mark_range_used limit st start stop) /\
  forall q, 0 <= q < MM_MAX_PAGES ->
    page_at (mm_mark_range_used limit st start stop) q =
    if (start <? (q + 1) * MM_PAGE_SIZE) && (q * MM_PAGE_SIZE <? Z.min stop limit)
       && (start <? limit) && (start / MM_PAGE_SIZE * MM_PAGE_SIZE <? stop)
    then 1 else page_at st q.
Proof.
  intros Hok Hs He Hlim. unfold mm_mark_range_used.
  destruct (Z.leb_spec limit start) as [Hl|Hl].
  { split; [done|]. split; [done|]. intros q Hq. case_bool; [|done]. zify_bools. lia. }
  set (stop' := if limit <? stop then limit else stop).
  assert (stop' = Z.min stop limit) as Hst by (unfold stop'; case_bool; blia).
  rewrite <- Hst. rewrite align_up_val, align_down_val.
  rewrite u32_small by (unfold MM_PAGE_SIZE in *; lia).
  unfold loop_count. unfold MM_PAGE_SIZE in *.
  set (e := (stop' + 4096 - 1) / 4096). set (s := start / 4096).
  assert (stop' <= e * 4096 < stop' + 4096) as Heb
    by (unfold e; pose proof (Z.div_mod (stop' + 4096 - 1) 4096);
        pose proof (Z.mod_pos_bound (stop' + 4096 - 1) 4096); lia).
  assert (s * 4096 <= start < s * 4096 + 4096) as Hsb
    by (unfold s; pose proof (Z.div_mod start 4096);
        pose proof (Z.mod_pos_bound start 4096); lia).
  destruct (Z.leb_spec (e * 4096) (s * 4096)) as [Hes|Hes].
  { split; [done|]. split; [done|]. intros q Hq. case_bool; [|done]. zify_bools. lia. }
  assert (0 <= s) by lia.
  rewrite (mark_loop_run _ st s 1) by done.
  replace (e * 4096 - s * 4096 + 4096 - 1) with (4095 + (e - s) * 4096) by lia.
  rewrite Z.div_add by lia. change (4095 / 4096) with 0.
  destruct (set_run_spec (Z.to_nat (0 + (e - s))) st s 1 Hok ltac:(lia) ltac:(lia))
    as (H1 & H2 & H3).
  split; [done|]. split; [done|]. intros q Hq. rewrite H3 by done.
  repeat case_bool; try done; blia.
Qed.

(** ** Allocating a run of pages *)

(** [n] free pages starting at page [s]. *)
Definition run_free (pages : list Z) (s n : Z) : Prop :=
  0 <= s /\ forall k, s <= k < s + n -> pages !! Z.to_nat k = Some 0.

(** The loop invariant of the scan at page [i]. *)
Record scan_inv (full : list Z) (i run start count : Z) : Prop := {
  si_run : 0 <= run <= i;
  si_cnt : run < count;
  si_start : 0 < run -> start = i - run;
  si_free : forall k, i - run <= k < i -> full !! Z.to_nat k = Some 0;
  si_max : i - run = 0 \/ full !! Z.to_nat (i - run - 1) <> Some 0;
  si_none : forall s, run_free full s count -> i < s + count
}.

Lemma scan_inv_used full i run start count :
  0 <= i -> 0 < count -> scan_inv full i run start count ->
  full !! Z.to_nat i <> Some 0 -> scan_inv full (i + 1) 0 start count.
Proof.
  intros Hi Hc [Hr Hcnt Hst Hfr Hmx Hno] Hu. split; try lia.
  - right. replace (i + 1 - 0 - 1) with i by lia. done.
  - intros s Hs. pose proof (Hno s Hs).
    destruct (decide (s + count = i + 1)) as [He|]; [|lia].
    destruct Hs as [Hs0 Hs]. exfalso. apply Hu, Hs. lia.
Qed.

Lemma scan_inv_free full i run start count :
  0 <= i -> scan_inv full i run start count -> full !! Z.to_nat i = Some 0 ->
  run + 1 <> count ->
  scan_inv full (i + 1) (run + 1) (if run =? 0 then i else start) count.
Proof.
  intros Hi [Hr Hcnt Hst Hfr Hmx Hno] Hu Hne. split; try lia.
  - intros _. case_bool; [lia|]. rewrite Hst by lia. lia.
  - intros k Hk. destruct (decide (k = i)) as [->|]; [done|]. apply Hfr. lia.
  - destruct Hmx as [Hmx|Hmx]; [left; lia|right].
    replace (i + 1 - (run + 1) - 1) with (i - run - 1) by lia. done.
  - intros s Hs. pose proof (Hno s Hs).
    destruct (decide (s + count = i + 1)) as [He|]; [|lia].
    destruct Hs as [Hs0 Hs]. exfalso. destruct Hmx as [Hmx|Hmx]; [lia|].
    apply Hmx, Hs. lia.
Qed.

Lemma alloc_scan_spec full ps i run start count :
  ps = drop (Z.to_nat i) full -> 0 <= i -> 0 < count ->
  scan_inv full i run start count ->
  match alloc_scan ps i run start count with
  | Some s => run_free full s count /\ forall s', run_free full s' count -> s <= s'
  | None => forall s', ~ run_free full s' count
  end.
Proof.
  revert i run start. induction ps as [|p ps IH]; intros i run start Hps Hi Hc Hinv;
    cbn [alloc_scan].
  - intros s' [Hs0 Hs]. pose proof (si_none _ _ _ _ _ Hinv s' (conj Hs0 Hs)).
    specialize (Hs (s' + count - 1) ltac:(lia)).
    apply (lookup_lt_Some full) in Hs. symmetry in Hps. apply drop_nil_inv in Hps. lia.
  - assert (full !! Z.to_nat i = Some p /\ ps = drop (Z.to_nat (i + 1)) full) as [Hp Hdr].
    { replace (Z.to_nat (i + 1)) with (S (Z.to_nat i)) by lia. split.
      - pose proof (lookup_drop full (Z.to_nat i) 0) as H. rewrite <- Hps in H. simpl in H.
        by rewrite Nat.add_0_r in H.
      - replace (S (Z.to_nat i)) with (Z.to_nat i + 1)%nat by lia.
        rewrite <- drop_drop, <- Hps. done. }
    destruct (Z.eqb_spec p 0) as [->|Hp0].
    + destruct (Z.eqb_spec (run + 1) count) as [Hrc|Hrc].
      * destruct Hinv as [Hr Hcnt Hst Hfr Hmx Hno].
        replace (if run =? 0 then i else start) with (i - run)
          by (case_bool; [blia|rewrite Hst; blia]).
        split.
        -- split; [lia|]. intros k Hk. destruct (decide (k = i)) as [->|]; [done|].
           apply Hfr. lia.
        -- intros s' Hs'. pose proof (Hno s' Hs'). lia.
      * apply IH; try lia; [done|]. by apply scan_inv_free.
    + apply IH; try lia; [done|]. eapply scan_inv_used; try done. rewrite Hp. congruence.
Qed.

Lemma alloc_scan_first full count :
  0 < count ->
  match alloc_scan full 0 0 0 count with
  | Some s => run_free full s count /\ forall s', run_free full s' count -> s <= s'
  | None => forall s', ~ run_free full s' count
  end.
Proof.
  intros Hc. apply alloc_scan_spec; try lia; [done|]. split; try lia.
  intros s [Hs _]. lia.
Qed.

Lemma run_free_bound st s n :
  pages_ok st -> 0 < n -> run_free (g_page_used st) s n -> s + n <= MM_MAX_PAGES.
Proof.
  intros [Hl _ _] Hn [Hs0 Hs]. specialize (Hs (s + n - 1) ltac:(lia)).
  apply (lookup_lt_Some (g_page_used st)) in Hs. lia.
Qed.

(** What a successful allocation does, shared by the callers of
    [mm_alloc_pages]; page 0 is never free, so address 0 is never a result. *)
Record alloc_result (st st' : mm_state) (a count : Z) : Prop := {
  ar_page : exists s, a = s * MM_PAGE_SIZE /\ 0 < s /\ s + count <= MM_MAX_PAGES /\
      run_free (g_page_used st) s count /\
      (forall s', run_free (g_page_used st) s' count -> s <= s') /\
      (forall q, 0 <= q < MM_MAX_PAGES ->
         page_at st' q = if (s <=? q) && (q <? s + count) then 1 else page_at st q);
  ar_ok : pages_ok st';
  ar_heap : same_heap st st'
}.

Lemma alloc_pages_spec st count :
  pages_ok st -> page_at st 0 = 1 -> 0 < count ->
  let '(a, st') := mm_alloc_pages st count in
  (a = 0 /\ st' = st /\ forall s, ~ run_free (g_page_used st) s count) \/
  (a <> 0 /\ alloc_result st st' a count).
Proof.
  intros Hok H0 Hc. unfold mm_alloc_pages.
  destruct (Z.eqb_spec count 0) as [|_]; [lia|].
  pose proof (alloc_scan_first (g_page_used st) count Hc) as Hsc.
  destruct (alloc_scan (g_page_used st) 0 0 0 count) as [s|]; [|by left].
  right. destruct Hsc as [Hrun Hfirst].
  pose proof (run_free_bound st s count Hok Hc Hrun) as Hb.
  assert (0 < s) as Hs.
  { destruct Hrun as [Hs0 Hs]. destruct (decide (s = 0)) as [->|]; [|lia].
    specialize (Hs 0 ltac:(lia)). unfold page_at in H0.
    change (Z.to_nat 0) with 0%nat in *.
    destruct (g_page_used st !! 0%nat) eqn:E; simpl in H0; congruence. }
  destruct (set_run_spec (Z.to_nat count) st s 1 Hok ltac:(lia) ltac:(lia)) as (H1 & H2 & H3).
  rewrite u32_small by (rewrite max_pages_val in Hb; unfold MM_PAGE_SIZE; lia).
  split; [unfold MM_PAGE_SIZE; lia|]. split; [|done..]. exists s.
  repeat split; try lia; try apply Hrun; try done.
  intros q Hq. rewrite H3 by done.
  by replace (Z.of_nat (Z.to_nat count)) with count by lia.
Qed.

(** The counter after marking a run of free pages. *)
Lemma set_run_used n st page :
  pages_ok st -> 0 <= page ->
  page + Z.of_nat n <= MM_MAX_PAGES /\
  (forall k, page <= k < page + Z.of_nat n -> g_page_used st !! Z.to_nat k = Some 0) ->
  g_used_pages (set_run n st page 1) = g_used_pages st + Z.of_nat n.
Proof.
  revert st page. induction n as [|n IH]; intros st page Hok Hp [Hle Hf]; [simpl; lia|].
  cbn [set_run].
  destruct (set_page_used_spec st page 1 Hok Hp ltac:(by right)) as (Hok' & _ & Hpg).
  rewrite IH; [|done|lia|].
  - unfold mm_set_page_used. destruct (Z.leb_spec MM_MAX_PAGES page); [lia|].
    unfold page_at. rewrite (Hf page) by lia. cbn -[u32].
    destruct Hok as [Hl _ Hc]. pose proof (count_free_bound (g_page_used st)) as Hb.
    rewrite Hl in Hb. rewrite max_pages_val in *. rewrite u32_small by lia. lia.
  - split; [lia|]. intros k Hk. specialize (Hf k ltac:(lia)).
    destruct (page_lookup _ k Hok' ltac:(lia)) as [-> _].
    rewrite Hpg by lia. case_bool; [lia|]. unfold page_at. by rewrite Hf.
Qed.

(** Two consistent states that agree on every page and on the heap are equal. *)
Lemma mm_state_eq st st' :
  pages_ok st -> pages_ok st' -> same_heap st st' ->
  (forall q, 0 <= q < MM_MAX_PAGES -> page_at st' q = page_at st q) -> st' = st.
Proof.
  intros Hok Hok' (E1 & E2 & E3 & E4 & E5 & E6) Hpg.
  assert (g_page_used st' = g_page_used st) as Hp.
  { apply list_eq_same_length with (n := Z.to_nat MM_MAX_PAGES); [apply Hok|apply Hok'|].
    intros i x y Hi Hx Hy. specialize (Hpg (Z.of_nat i) ltac:(lia)). unfold page_at in Hpg.
    rewrite Nat2Z.id, Hx, Hy in Hpg. done. }
  pose proof (po_cnt _ Hok) as C. pose proof (po_cnt _ Hok') as C'. rewrite Hp in C'.
  destruct st, st'. simpl in *. congruence.
Qed.

Lemma page_mask s : Z.land (s * MM_PAGE_SIZE) (MM_PAGE_SIZE - 1) = 0.
Proof.
  unfold MM_PAGE_SIZE. change (4096 - 1) with (Z.ones 12). rewrite Z.land_ones by lia.
  change (2 ^ 12) with 4096. by apply Z.mod_mul.
Qed.

Lemma free_run_spec st s count :
  pages_ok st -> 0 < s -> 0 < count -> s + count <= MM_MAX_PAGES ->
  mm_free_pages st (s * MM_PAGE_SIZE) count = set_run (Z.to_nat count) st s 0.
Proof.
  intros Hok Hs Hc Hle. unfold mm_free_pages. rewrite page_mask.
  rewrite max_pages_val in *. unfold MM_PAGE_SIZE.
  destruct (Z.eqb_spec (s * 4096) 0); [lia|]. destruct (Z.eqb_spec count 0); [lia|].
  cbn [orb negb Z.eqb]. rewrite Z.div_mul by lia. rewrite u32_small by lia.
  f_equal. lia.
Qed.

End MmPages.
