(* ===== verification/MmBoot.v ===== *)
(** * Start-up of the memory manager

    [mm_core_init] walks the Multiboot2 tags the boot loader left in memory.
    This file shows what the bitmap holds afterwards (nothing the kernel, the
    boot information or a boot module occupies is ever free), that the walk
    terminates on well-formed boot information, and two corner cases of the
    code: a tag whose size rounds up to zero stops the walk from making progress,
    and a memory region that reaches 4 GiB is not used at all. *)

From S2P Require Import Prelude Mm MmPages.
From stdpp Require Import base list gmap option.
From Stdlib Require Import ZArith Lia ZifyBool.
Open Scope Z_scope.

Module MmBoot.
Import Mm MmPages.

Section Boot.
Context (A : arch).
Context (byte_at : Z -> Z) (Hbyte : forall p, 0 <= byte_at p < 2 ^ 8).
Context (limit : Z) (Hlimit : MM_PAGE_SIZE <= limit <= 2 ^ 32 - MM_PAGE_SIZE).
Context (Halign : limit mod MM_PAGE_SIZE = 0).

Lemma rd32_range p : 0 <= rd32 byte_at p < 2 ^ 32.
Proof using Hbyte.
  unfold rd32. pose proof (Hbyte p). pose proof (Hbyte (p + 1)).
  pose proof (Hbyte (p + 2)). pose proof (Hbyte (p + 3)). lia.
Qed.

Lemma ptr_small z : 0 <= z < 2 ^ 32 -> uptr A z = z.
Proof. intros Hz. destruct A; cbn [uptr]; [apply u32_small|apply u64_small]; lia. Qed.

(** A step of the walk only changes the bitmap and keeps it consistent. *)
Definition bitmap_step (st st' : mm_state) : Prop := pages_ok st' /\ same_heap st st'.

Lemma bitmap_step_trans st st1 st2 :
  bitmap_step st st1 -> bitmap_step st1 st2 -> bitmap_step st st2.
Proof. intros [? ?] [? ?]. split; [done|by etrans]. Qed.

Lemma mmap_entry_step st p : pages_ok st -> bitmap_step st (mmap_entry byte_at limit st p).
Proof using Hbyte Hlimit.
  intros Hok. unfold mmap_entry. case_bool; [|by split].
  destruct (mark_range_free_spec limit st (u32 (rd64 byte_at p))
      (u32 (if 0x100000000 <? u64 (rd64 byte_at p + rd64 byte_at (p + 8)) then 0x100000000
            else u64 (rd64 byte_at p + rd64 byte_at (p + 8)))) Hok) as (H1 & H2 & _);
    [apply u32_range|apply u32_range|lia|]. by split.
Qed.

Lemma mmap_loop_step fuel st p e n st' :
  pages_ok st -> mmap_loop A fuel byte_at limit st p e n = Some st' -> bitmap_step st st'.
Proof using Hbyte Hlimit.
  revert st p. induction fuel as [|f IH]; intros st p Hok H; [done|].
  cbn [mmap_loop] in H. case_bool; [|simplify_eq; by split].
  pose proof (mmap_entry_step st p Hok) as Hs. eapply bitmap_step_trans; [done|].
  eapply IH; [apply Hs|done].
Qed.

Lemma mark_tags_step fuel st tag stop st' :
  pages_ok st -> mark_tags A fuel byte_at limit st tag stop = Some st' -> bitmap_step st st'.
Proof using Hbyte Hlimit.
  revert st tag. induction fuel as [|f IH]; intros st tag Hok H; [done|].
  cbn [mark_tags] in H. repeat case_bool; simplify_eq; try (by split); [|by eapply IH].
  destruct (mmap_loop _ _ _ _ _ _ _ _) as [st1|] eqn:E; [|done]. simpl in H.
  pose proof (mmap_loop_step _ _ _ _ _ _ Hok E) as Hs.
  eapply bitmap_step_trans; [done|]. eapply IH; [apply Hs|done].
Qed.

(** ** Reserved memory *)

(** Every page a byte of [start, stop) lies in, below [limit], is used. *)
Definition range_used (st : mm_state) (start stop : Z) : Prop :=
  forall q, 0 <= q < MM_MAX_PAGES ->
    start < (q + 1) * MM_PAGE_SIZE -> q * MM_PAGE_SIZE < Z.min stop limit ->
    page_at st q = 1.

(** [used_le]: pages in use stay in use. *)
Definition used_le (st st' : mm_state) : Prop :=
  forall q, 0 <= q < MM_MAX_PAGES -> page_at st q = 1 -> page_at st' q = 1.

Lemma range_used_le st st' a b : used_le st st' -> range_used st a b -> range_used st' a b.
Proof. intros Hle Hr q Hq H1 H2. apply Hle; [done|]. by apply Hr. Qed.

Lemma mark_used_step st a b :
  pages_ok st -> 0 <= a -> 0 <= b ->
  let st' := mm_mark_range_used limit st a b in
  bitmap_step st st' /\ used_le st st' /\ (a < b -> range_used st' a b).
Proof using Hlimit Halign.
  intros Hok Ha Hb st'.
  destruct (mark_range_used_spec limit st a b Hok Ha Hb ltac:(lia)) as (H1 & H2 & H3).
  split; [by split|]. split.
  - intros q Hq Hu. unfold st'. rewrite H3 by done. by case_bool.
  - intros Hab q Hq Hq1 Hq2. unfold st'. rewrite H3 by done.
    assert (a / MM_PAGE_SIZE * MM_PAGE_SIZE <= a).
    { unfold MM_PAGE_SIZE. pose proof (Z.mul_div_le a 4096). lia. }
    assert (limit = limit / MM_PAGE_SIZE * MM_PAGE_SIZE).
    { unfold MM_PAGE_SIZE in *. pose proof (Z.div_mod limit 4096). lia. }
    case_bool; [done|]. unfold MM_PAGE_SIZE in *. lia.
Qed.

(** [tag_reach t u]: the tag walk started at [t] gets to the tag at [u]. *)
Inductive tag_reach (stop : Z) : Z -> Z -> Prop :=
| tag_here t : tag_reach stop t t
| tag_next t u :
    t < stop -> rd32 byte_at t <> 0 -> 8 <= rd32 byte_at (t + 4) ->
    tag_reach stop (uptr A (t + mm_mb2_align8 (rd32 byte_at (t + 4)))) u ->
    tag_reach stop t u.

(** A module tag in the sense of the code: type 3, room for the four fields,
    a non-empty range. *)
Definition module_tag (u : Z) : Prop :=
  rd32 byte_at u = 3 /\ 16 <= rd32 byte_at (u + 4) /\
  rd32 byte_at (u + 8) < rd32 byte_at (u + 12).

Lemma reserve_tags_step fuel st tag stop st' :
  pages_ok st -> reserve_tags A fuel byte_at limit st tag stop = Some st' ->
  bitmap_step st st' /\ used_le st st' /\
  forall u, tag_reach stop tag u -> u < stop -> module_tag u ->
    range_used st' (rd32 byte_at (u + 8)) (rd32 byte_at (u + 12)).
Proof using Hbyte Hlimit Halign.
  revert st tag. induction fuel as [|f IH]; intros st tag Hok H; [done|].
  cbn [reserve_tags] in H.
  destruct (Z.ltb_spec tag stop) as [Hts|Hts].
  2: { simplify_eq. split; [by split|]. split; [by intros ???|].
       intros u Hr Hu. inversion Hr; subst; lia. }
  destruct (Z.eqb_spec (rd32 byte_at tag) 0) as [Ht0|Ht0].
  { simplify_eq. split; [by split|]. split; [by intros ???|].
    intros u Hr Hu (Hm & _). inversion Hr; subst; lia. }
  destruct (Z.ltb_spec (rd32 byte_at (tag + 4)) 8) as [Hs8|Hs8].
  { simplify_eq. split; [by split|]. split; [by intros ???|].
    intros u Hr Hu (Hm & Hsz & _). inversion Hr; subst; lia. }
  set (st1 := if (rd32 byte_at tag =? 3) && (16 <=? rd32 byte_at (tag + 4)) then _ else st) in H.
  assert (bitmap_step st st1 /\ used_le st st1 /\
          (module_tag tag -> range_used st1 (rd32 byte_at (tag + 8)) (rd32 byte_at (tag + 12))))
    as (H1 & H2 & H3).
  { pose proof (mark_used_step st (rd32 byte_at (tag + 8)) (rd32 byte_at (tag + 12)) Hok
       (proj1 (rd32_range _)) (proj1 (rd32_range _))) as (Ha & Hb & Hc).
    unfold st1, module_tag. repeat case_bool; (split; [try done; by split|]);
      (split; [try done; by intros ???|]); intros (? & ? & ?); try lia. by apply Hc. }
  destruct (IH st1 _ (proj1 H1) H) as (G1 & G2 & G3).
  split; [by eapply bitmap_step_trans|]. split; [intros q Hq Hu; apply G2; auto|].
  intros u Hr Hu Hm. inversion Hr; subst; [|by apply G3].
  eapply range_used_le; [done|]. by apply H3.
Qed.

(** ** Termination of the walk *)

(** Tags the walk can step over: the rounded size does not wrap to zero, and neither the
    tag nor, in a memory map, the entry after the last one is beyond the end of memory. *)
Definition tags_steppable (tag stop : Z) : Prop :=
  forall u, tag_reach stop tag u -> u < stop ->
    rd32 byte_at (u + 4) <= 0xFFFFFFF8 /\ u + mm_mb2_align8 (rd32 byte_at (u + 4)) < 2 ^ 32 /\
    (rd32 byte_at u = 6 -> u + rd32 byte_at (u + 4) + rd32 byte_at (u + 8) + 24 < 2 ^ 32).

Lemma align8_progress size :
  8 <= size <= 0xFFFFFFF8 -> 8 <= mm_mb2_align8 size.
Proof.
  intros H. unfold mm_mb2_align8. rewrite u32_small by lia.
  change 7 with (Z.ones 3) at 2. rewrite land_lnot_ones by lia.
  change (2 ^ 3) with 8. pose proof (Z.div_mod (size + 7) 8).
  pose proof (Z.mod_pos_bound (size + 7) 8). lia.
Qed.

Lemma mmap_loop_total e n :
  24 <= n -> forall k st p, e - p <= Z.of_nat k -> 0 <= p -> p + 24 < 2 ^ 32 -> e + n < 2 ^ 32 ->
  exists st', forall f, (k < f)%nat -> mmap_loop A f byte_at limit st p e n = Some st'.
Proof.
  intros Hn. induction k as [|k IH]; intros st p Hk Hp Hp2 He.
  - exists st. intros [|f] Hf; [lia|]. cbn [mmap_loop]. rewrite ptr_small by lia. case_bool; [lia|done].
  - destruct (Z.leb_spec (p + 24) e) as [Hle|Hlt].
    + destruct (IH (mmap_entry byte_at limit st p) (p + n) ltac:(lia) ltac:(lia) ltac:(lia) He) as [st' Hst].
      exists st'. intros [|f] Hf; [lia|]. cbn [mmap_loop]. rewrite !ptr_small by lia. case_bool; [apply Hst; lia|lia].
    + exists st. intros [|f] Hf; [lia|]. cbn [mmap_loop]. rewrite ptr_small by lia. case_bool; [lia|done].
Qed.

(** The next tag of a walk that can step over its tags. *)
Lemma steppable_next tag stop : 0 <= tag -> tag < stop -> tags_steppable tag stop ->
  rd32 byte_at tag <> 0 -> 8 <= rd32 byte_at (tag + 4) ->
  let next := tag + mm_mb2_align8 (rd32 byte_at (tag + 4)) in
  uptr A next = next /\ tag + 8 <= next /\ tags_steppable next stop.
Proof.
  intros Ht Hlt Htag H0 H8 next. destruct (Htag tag (tag_here _ _) Hlt) as (Hs & Hn & _).
  pose proof (align8_progress (rd32 byte_at (tag + 4)) ltac:(lia)).
  assert (uptr A next = next) as En by (unfold next; apply ptr_small; lia).
  split; [done|]. split; [lia|]. intros u Hu Hus. apply Htag; [|done]. apply tag_next; [lia|lia|lia|]. fold next. by rewrite En.
Qed.

Lemma mark_tags_total stop : forall k st tag,
  0 <= tag -> stop - tag <= Z.of_nat k -> tags_steppable tag stop ->
  exists F st', forall f, (F < f)%nat -> mark_tags A f byte_at limit st tag stop = Some st'.
Proof using Hbyte.
  induction k as [k IH] using lt_wf_ind. intros st tag H0 Hk Htag.
  destruct (decide (tag < stop)) as [Hlt|Hge].
  2: { exists 0%nat, st. intros [|f] Hf; [lia|]. cbn [mark_tags]. case_bool; [lia|done]. }
  destruct (decide (rd32 byte_at tag = 0 \/ rd32 byte_at (tag + 4) < 8)) as [Hs|Hs].
  { exists 0%nat, st. intros [|f] Hf; [lia|]. cbn [mark_tags]. repeat case_bool; try lia; done. }
  destruct (steppable_next tag stop H0 Hlt Htag ltac:(lia) ltac:(lia)) as (En & Hal & Htag').
  destruct (Htag tag (tag_here _ _) Hlt) as (Hs1 & Hs2 & Hs3). set (size := rd32 byte_at (tag + 4)) in *.
  pose proof (rd32_range (tag + 8)) as Hr8.
  assert (exists G st1, rd32 byte_at tag = 6 -> 24 <= rd32 byte_at (tag + 8) -> forall f, (G < f)%nat ->
    mmap_loop A f byte_at limit st (uptr A (tag + 16)) (uptr A (tag + size)) (rd32 byte_at (tag + 8)) = Some st1)
    as (G & st1 & HG).
  { destruct (decide (rd32 byte_at tag = 6 /\ 24 <= rd32 byte_at (tag + 8))) as [[H6 H24]|]; [|exists 0%nat, st; lia].
    specialize (Hs3 H6). rewrite !ptr_small by lia.
    destruct (mmap_loop_total (tag + size) _ H24 (Z.to_nat size) st (tag + 16) ltac:(lia) ltac:(lia) ltac:(lia) ltac:(lia))
      as [st' Hst]. exists (Z.to_nat size), st'. done. }
  destruct (IH (Z.to_nat (stop - (tag + mm_mb2_align8 size))) ltac:(lia)
    (if rd32 byte_at tag =? 6 then st1 else st) (tag + mm_mb2_align8 size) ltac:(lia) ltac:(lia) Htag')
    as (F & st' & HF).
  destruct (decide (rd32 byte_at tag = 6 /\ rd32 byte_at (tag + 8) < 24)) as [[H6 H24]|Hn].
  { exists 0%nat, st. intros [|f] Hf; [lia|]. cbn [mark_tags]. repeat case_bool; try lia; done. }
  exists (S (F + G)), st'. intros [|f] Hf; [lia|]. cbn [mark_tags]. fold size. rewrite En.
  repeat case_bool; try lia.
  - rewrite HG by lia. simpl. apply HF. lia.
  - apply HF. lia.
Qed.

Lemma reserve_tags_total stop : forall k st tag,
  0 <= tag -> stop - tag <= Z.of_nat k -> tags_steppable tag stop ->
  exists F st', forall f, (F < f)%nat -> reserve_tags A f byte_at limit st tag stop = Some st'.
Proof using Hbyte.
  induction k as [k IH] using lt_wf_ind. intros st tag H0 Hk Htag.
  destruct (decide (tag < stop)) as [Hlt|Hge].
  2: { exists 0%nat, st. intros [|f] Hf; [lia|]. cbn [reserve_tags]. case_bool; [lia|done]. }
  destruct (decide (rd32 byte_at tag = 0 \/ rd32 byte_at (tag + 4) < 8)) as [Hs|Hs].
  { exists 0%nat, st. intros [|f] Hf; [lia|]. cbn [reserve_tags]. repeat case_bool; try lia; done. }
  destruct (steppable_next tag stop H0 Hlt Htag ltac:(lia) ltac:(lia)) as (En & Hal & Htag').
  set (size := rd32 byte_at (tag + 4)) in *.
  edestruct (IH (Z.to_nat (stop - (tag + mm_mb2_align8 size))) ltac:(lia))
    as (F & st' & HF); [| |exact Htag'|]; [lia|lia|].
  exists (S F), st'. intros [|f] Hf; [lia|]. cbn [reserve_tags]. fold size. rewrite En.
  destruct (Z.ltb_spec tag stop); [|lia].
  destruct (Z.eqb_spec (rd32 byte_at tag) 0); [lia|].
  destruct (Z.ltb_spec size 8); [lia|]. apply HF. lia.
Qed.

(** ** The whole start-up *)

Lemma clear_pages_ok st : pages_ok (mm_clear_pages st).
Proof.
  split.
  - apply length_replicate.
  - apply Forall_replicate. by right.
  - cbn [mm_clear_pages g_used_pages g_page_used]. rewrite count_free_replicate.
    change (1 =? 0) with false. cbv iota. lia.
Qed.

Lemma reserve_common_step fuel kstart kend st magic info st' :
  pages_ok st -> 0 <= kstart < kend -> kend < 2 ^ 32 ->
  0 <= info -> info + rd32 byte_at info < 2 ^ 32 -> info + MM_PAGE_SIZE < 2 ^ 32 ->
  mm_reserve_common A fuel byte_at limit kstart kend st magic info = Some st' ->
  bitmap_step st st' /\ used_le st st' /\
  range_used st' 0 MM_LOW_MEMORY_LIMIT /\ range_used st' kstart kend /\
  (magic = MM_MB2_BOOTLOADER_MAGIC -> 0 < info ->
     (0 < rd32 byte_at info -> range_used st' info (info + rd32 byte_at info)) /\
     forall u, tag_reach (info + rd32 byte_at info) (info + 8) u ->
       u < info + rd32 byte_at info -> module_tag u ->
       range_used st' (rd32 byte_at (u + 8)) (rd32 byte_at (u + 12))) /\
  (magic = MM_FLOPPY_MAGIC -> 0 < info -> range_used st' info (info + MM_PAGE_SIZE)).
Proof using Hbyte Hlimit Halign.
  intros Hok Hk Hk2 Hi Hinfo Hinfo2 H. unfold mm_reserve_common in H.
  rewrite (u32_small kstart), (u32_small kend) in H by lia.
  destruct (mark_used_step st 0 MM_LOW_MEMORY_LIMIT Hok ltac:(lia) ltac:(done)) as (A1 & A2 & A3).
  set (st1 := mm_mark_range_used limit st 0 MM_LOW_MEMORY_LIMIT) in *.
  specialize (A3 ltac:(done)).
  destruct (mark_used_step st1 kstart kend (proj1 A1) ltac:(lia) ltac:(lia)) as (B1 & B2 & B3).
  set (st2 := mm_mark_range_used limit st1 kstart kend) in *. specialize (B3 ltac:(lia)).
  assert (bitmap_step st2 st' /\ used_le st2 st' ->
    bitmap_step st st' /\ used_le st st' /\
    range_used st' 0 MM_LOW_MEMORY_LIMIT /\ range_used st' kstart kend) as Hpre.
  { intros [C1 C2]. split; [eauto using bitmap_step_trans|].
    split; [intros q Hq Hu; auto|].
    split; [|by eapply range_used_le]. by eapply range_used_le, range_used_le. }
  pose proof (rd32_range info) as Hr.
  destruct ((magic =? MM_MB2_BOOTLOADER_MAGIC) && negb (info =? 0)) eqn:E1.
  - unfold mm_reserve_mb2_regions in H. rewrite u32_small in H by lia.
    rewrite !ptr_small in H by (unfold MM_PAGE_SIZE in *; lia).
    destruct (mark_used_step st2 info (info + rd32 byte_at info) (proj1 B1) ltac:(lia) ltac:(lia))
      as (C1 & C2 & C3).
    destruct (reserve_tags_step _ _ _ _ _ (proj1 C1) H) as (D1 & D2 & D3).
    destruct Hpre as (P1 & P2 & P3 & P4);
      [split; [by eapply bitmap_step_trans|intros q Hq Hu; auto]|].
    repeat (split; [done|]). split.
    + intros _ _. split; [|done]. intros Hpos. eapply range_used_le; [exact D2|]. apply C3. lia.
    + intros Hm. unfold MM_MB2_BOOTLOADER_MAGIC, MM_FLOPPY_MAGIC in *. lia.
  - destruct ((magic =? MM_FLOPPY_MAGIC) && negb (info =? 0)) eqn:E2.
    + rewrite u32_small in H by (unfold MM_PAGE_SIZE in *; lia). simplify_eq.
      destruct (mark_used_step st2 info (info + MM_PAGE_SIZE) (proj1 B1) ltac:(lia)
        ltac:(unfold MM_PAGE_SIZE; lia)) as (C1 & C2 & C3).
      destruct Hpre as (P1 & P2 & P3 & P4); [by split|]. repeat (split; [done|]).
      split; [lia|]. intros _ _. apply C3. unfold MM_PAGE_SIZE. lia.
    + simplify_eq.
      destruct Hpre as (P1 & P2 & P3 & P4); [split; [by split; [apply B1|]|by intros ???]|].
      repeat (split; [done|]). split; lia.
Qed.

Lemma init_usable_step fuel st magic info st1 :
  pages_ok st ->
  (if (magic =? MM_MB2_BOOTLOADER_MAGIC) && negb (info =? 0)
   then mm_mark_mb2_usable A fuel byte_at limit st info
   else Some (mm_mark_range_free limit st MM_LOW_MEMORY_LIMIT (u32 limit))) = Some st1 ->
  bitmap_step st st1.
Proof using Hbyte Hlimit.
  intros Hok H. case_bool.
  - by eapply mark_tags_step.
  - destruct (mark_range_free_spec limit st MM_LOW_MEMORY_LIMIT (u32 limit) Hok
      ltac:(done) (proj1 (u32_range _)) ltac:(lia)) as (H1 & H2 & _).
    simplify_eq. by split.
Qed.

(** After start-up every page in use is counted, page counts add up to the
    whole identity-mapped range, the heap is empty. *)
Record started (st : mm_state) : Prop := {
  sd_ok : pages_ok st;
  sd_total : g_total_pages st = MM_MAX_PAGES;
  sd_init : g_initialized st = 1;
  sd_heap : g_heap_head st = 0 /\ g_heap_tail st = 0 /\ g_heap_total_bytes st = 0
}.

Lemma count_total_val st :
  pages_ok st -> u32 (count_free (g_page_used st) + g_used_pages st) = MM_MAX_PAGES.
Proof.
  intros [_ _ Hc]. rewrite Hc. replace (_ + _) with MM_MAX_PAGES by lia.
  by rewrite max_pages_val.
Qed.

End Boot.

(** ** Theorems *)

(** C38: start-up reserves everything that must not be handed out.  Whenever
    [mm_core_init] completes on an uninitialised manager, the bitmap is
    consistent, all 16384 pages are accounted for, the heap is empty, and the
    first MiB, the kernel image, the boot information and every boot module tag
    the walk reaches are marked in use. *)
Theorem mm_core_init_reserves A byte_at limit fuel enabled kstart kend st magic info rc st' :
  (forall p, 0 <= byte_at p < 2 ^ 8) ->
  MM_PAGE_SIZE <= limit <= 2 ^ 32 - MM_PAGE_SIZE -> limit mod MM_PAGE_SIZE = 0 ->
  g_initialized st = 0 -> enabled <> 0 ->
  0 <= kstart < kend -> kend < 2 ^ 32 ->
  0 <= info -> info + rd32 byte_at info < 2 ^ 32 -> info + MM_PAGE_SIZE < 2 ^ 32 ->
  mm_core_init A fuel byte_at enabled limit kstart kend st magic info = Some (rc, st') ->
  rc = 0 /\ started st' /\
  range_used limit st' 0 MM_LOW_MEMORY_LIMIT /\ range_used limit st' kstart kend /\
  (magic = MM_MB2_BOOTLOADER_MAGIC -> 0 < info ->
     (0 < rd32 byte_at info -> range_used limit st' info (info + rd32 byte_at info)) /\
     forall u, tag_reach A byte_at (info + rd32 byte_at info) (info + 8) u ->
       u < info + rd32 byte_at info -> module_tag byte_at u ->
       range_used limit st' (rd32 byte_at (u + 8)) (rd32 byte_at (u + 12))) /\
  (magic = MM_FLOPPY_MAGIC -> 0 < info -> range_used limit st' info (info + MM_PAGE_SIZE)).
Proof.
  intros Hb Hl Ha Hini Hen Hk Hk2 Hi Hi2 Hi3 H. unfold mm_core_init in H.
  rewrite Hini in H. simpl in H.
  destruct (Z.eqb_spec enabled 0) as [|_]; [done|].
  destruct (Z.ltb_spec limit MM_PAGE_SIZE) as [|_]; [lia|]. cbn [orb] in H.
  apply bind_Some in H as (st1 & H1 & H). apply bind_Some in H as (st2 & H2 & H).
  simplify_eq.
  pose proof (init_usable_step A byte_at Hb limit Hl _ _ _ _ _ (clear_pages_ok st) H1) as S1.
  destruct (reserve_common_step A byte_at Hb limit Hl Ha _ _ _ _ _ _ _ (proj1 S1)
    Hk Hk2 Hi Hi2 Hi3 H2) as (S2 & _ & R1 & R2 & R3 & R4).
  split; [done|]. split; [|done].
  destruct S2 as [Hok _]. split; [by destruct Hok; split|by apply count_total_val|done|done].
Qed.

(** Start-up terminates.  If the boot information lies below 4 GiB and the walk can step over
    every tag it reaches, [mm_core_init] returns success, and the result does not depend on
    the amount of fuel. *)
Theorem mm_core_init_terminates A byte_at limit enabled kstart kend st magic info :
  (forall p, 0 <= byte_at p < 2 ^ 8) ->
  MM_PAGE_SIZE <= limit -> enabled <> 0 -> g_initialized st = 0 ->
  0 <= info -> info + rd32 byte_at info < 2 ^ 32 -> info + 8 < 2 ^ 32 ->
  (magic = MM_MB2_BOOTLOADER_MAGIC ->
     tags_steppable A byte_at (info + 8) (info + rd32 byte_at info)) ->
  exists F st', forall f, (F < f)%nat ->
    mm_core_init A f byte_at enabled limit kstart kend st magic info = Some (0, st').
Proof.
  intros Hb Hl Hen Hini Hi0 Hi1 Hi2 Ht. unfold mm_core_init. rewrite Hini. pose proof (rd32_range byte_at Hb info).
  destruct (Z.eqb_spec enabled 0) as [|_]; [done|].
  destruct (Z.ltb_spec limit MM_PAGE_SIZE) as [|_]; [lia|].
  cbn [orb negb Z.eqb]. unfold mm_reserve_common, mm_mark_mb2_usable, mm_reserve_mb2_regions.
  rewrite !(ptr_small A) by lia.
  destruct ((magic =? MM_MB2_BOOTLOADER_MAGIC) && negb (info =? 0)) eqn:E.
  - destruct (mark_tags_total A byte_at Hb limit (info + rd32 byte_at info)
      (Z.to_nat (rd32 byte_at info)) (mm_clear_pages st) (info + 8) ltac:(lia) ltac:(lia)
      ltac:(apply Ht; lia)) as (F1 & st1 & H1).
    edestruct (reserve_tags_total A byte_at Hb limit (info + rd32 byte_at info)
      (Z.to_nat (rd32 byte_at info))) as (F2 & st2 & H2); [| |apply Ht; lia|]; [lia|lia|].
    eexists (F1 + F2)%nat, _. intros f Hf. rewrite H1 by lia. simpl.
    rewrite H2 by lia. reflexivity.
  - case_bool; eexists 0%nat, _; intros f Hf; reflexivity.
Qed.

(** The walk hangs on a tag whose size is within 7 of 2^32.  Its rounded
    size wraps to zero, the tag pointer does not move, and no amount of fuel
    lets [mm_mark_mb2_usable] finish. *)
Theorem mm_mark_mb2_usable_hangs A byte_at limit st info :
  0 <= info -> info + 8 < info + rd32 byte_at info -> info + rd32 byte_at info < 2 ^ 32 ->
  rd32 byte_at (info + 8) <> 0 -> rd32 byte_at (info + 8) <> 6 ->
  0xFFFFFFF8 < rd32 byte_at (info + 12) < 2 ^ 32 ->
  forall fuel, mm_mark_mb2_usable A fuel byte_at limit st info = None.
Proof.
  intros Hi Hlt Hlt2 H0 H6 Hsz fuel. unfold mm_mark_mb2_usable. rewrite !(ptr_small A) by lia.
  assert (mm_mb2_align8 (rd32 byte_at (info + 12)) = 0) as Hal.
  { unfold mm_mb2_align8. change 7 with (Z.ones 3) at 2. rewrite land_lnot_ones by lia.
    unfold u32. rewrite (Z.mod_eq (_ + 7) (2 ^ 32)) by lia.
    replace ((rd32 byte_at (info + 12) + 7) / 2 ^ 32) with 1
      by (apply Z.div_unique with (rd32 byte_at (info + 12) + 7 - 2 ^ 32); lia).
    rewrite Z.mod_small by lia. lia. }
  induction fuel as [|f IH]; [done|]. cbn [mark_tags].
  replace (info + 8 + 4) with (info + 12) by lia. rewrite Hal.
  replace (info + 8 + 0) with (info + 8) by lia. rewrite !(ptr_small A) by lia.
  repeat case_bool; done || lia.
Qed.

(** a usable region that starts below 4 GiB and reaches 4 GiB is dropped
    entirely: the clamped end does not fit in 32 bits, so no page is freed. *)
Theorem mmap_entry_at_4gib_ignored byte_at limit st p :
  0 <= rd64 byte_at p < 0x100000000 -> rd32 byte_at (p + 16) = 1 ->
  0x100000000 <= rd64 byte_at p + rd64 byte_at (p + 8) < 2 ^ 64 ->
  mmap_entry byte_at limit st p = st.
Proof.
  intros Ha Ht He. unfold mmap_entry. rewrite Ht, (u64_small (_ + _)) by lia.
  rewrite (u32_small (rd64 byte_at p)) by lia.
  assert ((if 0x100000000 <? rd64 byte_at p + rd64 byte_at (p + 8) then 0x100000000
           else rd64 byte_at p + rd64 byte_at (p + 8)) = 0x100000000) as -> by (case_bool; lia).
  change (u32 0x100000000) with 0. unfold mm_mark_range_free.
  repeat case_bool; try done; try lia.
  exfalso. revert Heqb1. rewrite align_up_val, align_down_val.
  pose proof (u32_range (rd64 byte_at p + MM_PAGE_SIZE - 1)).
  pose proof (Z.div_pos (u32 (rd64 byte_at p + MM_PAGE_SIZE - 1)) MM_PAGE_SIZE).
  unfold MM_PAGE_SIZE in *. rewrite Z.div_0_l by lia. lia.
Qed.

(** ** A concrete boot information block

    At 0x9000: a memory map with one usable region, a boot module and the end
    tag. *)

Definition boot_words : list Z :=
  [72; 0; 6; 40; 24; 0; 0x100000; 0; 0x20000; 0; 1; 0; 3; 16; 0x118000; 0x119000; 0; 8].

(** Memory that holds [words] at [base] and zero elsewhere. *)
Definition mem_of (base : Z) (words : list Z) (p : Z) : Z :=
  if p <? base then 0
  else default 0 ((words ≫= le32) !! Z.to_nat (p - base)) mod 2 ^ 8.

Lemma mem_of_byte base words p : 0 <= mem_of base words p < 2 ^ 8.
Proof. unfold mem_of. case_bool; [lia|]. apply Z.mod_pos_bound. lia. Qed.

Lemma mm_core_init_reserves_witness :
  exists st', mm_core_init I386 100 (mem_of 0x9000 boot_words) 1 0x120000 0x100000 0x110000
    mm_boot_state MM_MB2_BOOTLOADER_MAGIC 0x9000 = Some (0, st') /\
    range_used 0x120000 st' 0x118000 0x119000.
Proof.
  destruct (mm_core_init I386 100 (mem_of 0x9000 boot_words) 1 0x120000 0x100000 0x110000
    mm_boot_state MM_MB2_BOOTLOADER_MAGIC 0x9000) as [[rc st']|] eqn:E;
    [|exfalso; revert E; vm_compute; discriminate].
  destruct (mm_core_init_reserves I386 (mem_of 0x9000 boot_words) 0x120000 100 1 0x100000 0x110000
    mm_boot_state MM_MB2_BOOTLOADER_MAGIC 0x9000 rc st') as (-> & _ & _ & _ & H & _).
  - apply mem_of_byte.
  - vm_compute. by split.
  - reflexivity.
  - reflexivity.
  - lia.
  - lia.
  - lia.
  - lia.
  - vm_compute. reflexivity.
  - vm_compute. reflexivity.
  - exact E.
  - exists st'. split; [reflexivity|].
    destruct (H eq_refl ltac:(lia)) as [_ Hm].
    refine (Hm (0x9000 + 48) _ _ _).
    + refine (tag_next _ _ _ _ _ _ _ _ _); [vm_compute; reflexivity|vm_compute; discriminate..|].
      apply tag_here.
    + vm_compute. reflexivity.
    + vm_compute. by repeat split.
Defined.

Lemma tag_reach_step byte_at stop t u n :
  uptr I386 (t + mm_mb2_align8 (rd32 byte_at (t + 4))) = n ->
  tag_reach I386 byte_at stop t u ->
  u = t \/ (rd32 byte_at t <> 0 /\ tag_reach I386 byte_at stop n u).
Proof. intros <- H. inversion H; subst; auto. Qed.

Lemma boot_words_steppable :
  tags_steppable I386 (mem_of 0x9000 boot_words) 0x9008 0x9048.
Proof.
  intros u Hr _.
  apply (tag_reach_step _ _ _ _ 0x9030) in Hr as [->|[_ Hr]]; [vm_compute; by split_and!| |done].
  apply (tag_reach_step _ _ _ _ 0x9040) in Hr as [->|[_ Hr]]; [vm_compute; by split_and!| |done].
  apply (tag_reach_step _ _ _ _ 0x9048) in Hr as [->|[Hr _]]; [vm_compute; by split_and!| |done].
  by destruct Hr.
Qed.

Lemma mm_core_init_terminates_witness :
  exists F st', forall f, (F < f)%nat ->
    mm_core_init I386 f (mem_of 0x9000 boot_words) 1 0x120000 0x100000 0x110000 mm_boot_state
      MM_MB2_BOOTLOADER_MAGIC 0x9000 = Some (0, st').
Proof.
  apply mm_core_init_terminates.
  - apply mem_of_byte.
  - vm_compute. discriminate.
  - lia.
  - reflexivity.
  - lia.
  - vm_compute. reflexivity.
  - vm_compute. reflexivity.
  - intros _. exact boot_words_steppable.
Defined.

Lemma mm_mark_mb2_usable_hangs_witness :
  exists byte_at info, rd32 byte_at (info + 12) = 0xFFFFFFFC /\
    forall fuel, mm_mark_mb2_usable I386 fuel byte_at 0x120000 mm_boot_state info = None.
Proof.
  exists (mem_of 0x9000 [64; 0; 1; 0xFFFFFFFC]), 0x9000. split; [reflexivity|].
  apply mm_mark_mb2_usable_hangs; vm_compute; done.
Defined.

(** The region from 1 MiB to 4 GiB of a machine with 4 GiB of memory. *)
Lemma mmap_entry_at_4gib_ignored_witness :
  mmap_entry (mem_of 0x9000 [0x100000; 0; 0xFFF00000; 0; 1; 0]) 0x4000000 mm_boot_state 0x9000 =
    mm_boot_state.
Proof. apply mmap_entry_at_4gib_ignored; vm_compute; by split || reflexivity. Defined.

End MmBoot.
