(* ===== verification/MmAlloc.v ===== *)
(** * kmalloc and kfree refine an abstract allocator

    On top of the list-level lemmas of [MmHeap]: coalescing, growing the heap
    and the two public operations. *)

From S2P Require Import Prelude Mm MmPages MmHeap.
From stdpp Require Import base list gmap option list_numbers.
From Stdlib Require Import ZArith Lia ZifyBool.
Open Scope Z_scope.

Module MmAlloc.
Import Mm MmPages MmHeap.

(** The blocks handed out and not yet freed. *)
Definition live (l : list blk) : list blk := filter (fun b => bf b = 0) l.

Lemma live_app l1 l2 : live (l1 ++ l2) = live l1 ++ live l2.
Proof. apply list.filter_app. Qed.

Lemma live_cons_free b l : bf b <> 0 -> live (b :: l) = live l.
Proof. intros H. unfold live. by rewrite filter_cons_False. Qed.

Lemma live_cons_used b l : bf b = 0 -> live (b :: l) = b :: live l.
Proof. intros H. unfold live. by rewrite filter_cons_True. Qed.

Section Alloc.
Context (A : arch).

(** What no step of the heap code changes. *)
Definition same_pages (st st' : mm_state) : Prop :=
  g_page_used st' = g_page_used st /\ g_initialized st' = g_initialized st.

(** ** Coalescing *)

(** The look at the predecessor after the merge with the successor. *)
Definition step_back (f : nat) (st : mm_state) (block : Z) : option mm_state :=
  b ← heap_mem st !! block;
  if hb_prev b =? 0 then Some st
  else
    p ← heap_mem st !! hb_prev b;
    if hb_free p =? 0 then Some st
    else
      adj ← mm_blocks_adjacent A st (hb_prev b) block;
      if (adj : bool) then mm_coalesce_block f A st (hb_prev b) else Some st.

Lemma step_back_first f st b l2 :
  core_inv A st (b :: l2) -> step_back f st (ba b) = Some st.
Proof.
  intros H. unfold step_back. by rewrite (core_header A st [] b l2 H).
Qed.

Lemma step_back_spec f st l1 p b l2 :
  core_inv A st ((l1 ++ [p]) ++ b :: l2) ->
  step_back f st (ba b) =
  if negb (bf p =? 0) && (bend A p =? ba b) then mm_coalesce_block f A st (ba p) else Some st.
Proof.
  intros H. unfold step_back, mm_blocks_adjacent.
  pose proof (core_header A st _ _ _ H) as Hb. pose proof (core_blk A st _ _ _ H) as Kb.
  rewrite <- app_assoc in H. cbn [app] in H.
  pose proof (core_header A st _ _ _ H) as Hp. pose proof (core_blk A st _ _ _ H) as Kp.
  pose proof (blk_ok_bound A _ _ Kb). pose proof (blk_ok_bound A _ _ Kp) as (P1 & P2 & P3).
  pose proof (sizeof_block_pos A).
  rewrite last_addr_app in Hb. cbn [last_addr] in Hb.
  rewrite Hb. cbn -[lookup uptr mm_coalesce_block].
  destruct (Z.eqb_spec (ba p) 0) as [|_]; [lia|].
  rewrite Hp. cbn -[lookup uptr mm_coalesce_block].
  destruct (Z.eqb_spec (bf p) 0) as [|_]; [done|]. cbn -[lookup uptr mm_coalesce_block].
  destruct (Z.eqb_spec (ba b) 0) as [|_]; [lia|]. cbn -[lookup uptr mm_coalesce_block].
  rewrite uptr_small by (unfold bend in *; lia). done.
Qed.

Lemma coalesce_unfold f st block :
  mm_coalesce_block (S f) A st block =
  if block =? 0 then Some st
  else st' ← merge_next A st block; step_back f st' block.
Proof. done. Qed.

(** Merging the successor, as a case analysis on the list. *)
Lemma merge_next_cases st l1 b l2 :
  core_inv A st (l1 ++ b :: l2) -> bf b = 1 -> coalesced A l2 ->
  exists st' b' l2', merge_next A st (ba b) = Some st' /\
    core_inv A st' (l1 ++ b' :: l2') /\ ba b' = ba b /\ bf b' = 1 /\
    coalesced A (b' :: l2') /\ live (b' :: l2') = live (b :: l2) /\ same_pages st st'.
Proof.
  intros H Hf Hco.
  destruct l2 as [|c l2].
  { exists st, b, []. rewrite (merge_next_skip A st l1 b []) by done. done. }
  destruct (decide (bf c = 1 /\ bend A b = ba c)) as [[Hc He]|Hn].
  - destruct (merge_next_spec A st l1 b c l2 H Hc He) as (st' & Hm & Hi & _ & Hp & Hg).
    exists st', (merged A b c), l2. split; [done|]. split; [done|]. split; [done|].
    split; [done|]. split; [|split; [|done]].
    + destruct l2 as [|d l2]; [done|]. destruct Hco as [Hcd Hco]. split; [|done].
      cbn [merged bf]. rewrite (proj1 (proj2 (merged_geometry A st b c
        (core_blk A st _ _ _ H)
        ltac:(apply (core_blk A st (l1 ++ [b]) c (d :: l2)); by rewrite <- app_assoc) He))).
      rewrite Hf. intros (_ & Hd & Hcd'). by apply Hcd.
    + rewrite !live_cons_free; [done| | |]; cbn; lia.
  - rewrite (merge_next_skip A st l1 b (c :: l2) H).
    + exists st, b, (c :: l2). split; [done|]. split; [done|]. split; [done|]. split; [done|].
      split; [|done]. split; [|done]. intros (_ & ? & ?). by apply Hn.
    + intros d [= <-].
      destruct (core_blk A st (l1 ++ [b]) c l2 ltac:(by rewrite <- app_assoc)) as [_ _ _ _ _ Hfl _].
      destruct Hfl as [|Hfl]; [by left|]. right. intros He. by apply Hn.
Qed.

Lemma coalesce_spec st l1 b l2 fuel :
  core_inv A st (l1 ++ b :: l2) -> bf b = 1 -> coalesced A l1 -> coalesced A l2 ->
  (length l1 < fuel)%nat ->
  exists st' l', mm_coalesce_block fuel A st (ba b) = Some st' /\
    heap_inv A st' l' /\ live l' = live (l1 ++ b :: l2) /\ same_pages st st'.
Proof.
  revert st b l2 fuel. induction l1 as [|p l1 IH] using rev_ind;
    intros st b l2 [|f] H Hf Hc1 Hc2 Hfuel; try lia.
  - pose proof (blk_ok_bound A _ _ (core_blk A st [] b l2 H)).
    destruct (merge_next_cases st [] b l2 H Hf Hc2)
      as (st' & b' & l2' & Hm & Hi & Ha & Hf' & Hco & Hl & Hp).
    rewrite coalesce_unfold. destruct (Z.eqb_spec (ba b) 0) as [|_]; [lia|].
    rewrite Hm. simpl. rewrite <- Ha, step_back_first with (l2 := l2') by done.
    exists st', (b' :: l2'). done.
  - pose proof (blk_ok_bound A _ _ (core_blk A st (l1 ++ [p]) b l2 H)).
    destruct (merge_next_cases st _ b l2 H Hf Hc2)
      as (st' & b' & l2' & Hm & Hi & Ha & Hf' & Hco & Hl & Hp).
    rewrite coalesce_unfold. destruct (Z.eqb_spec (ba b) 0) as [|_]; [lia|].
    rewrite Hm. simpl. rewrite <- Ha, step_back_spec with (1 := Hi).
    pose proof Hc1 as Hc1'. apply coalesced_app in Hc1' as (Hc3 & _ & _).
    assert (live ((l1 ++ [p]) ++ b' :: l2') = live ((l1 ++ [p]) ++ b :: l2)) as Hlive
      by (by rewrite !(live_app (l1 ++ [p])), Hl).
    destruct (negb (bf p =? 0) && (bend A p =? ba b')) eqn:E.
    + assert (bf p = 1) as Hp1.
      { destruct (core_blk A st' l1 p (b' :: l2') ltac:(by rewrite <- app_assoc in Hi)) as [_ _ _ _ _ K _]. lia. }
      rewrite <- app_assoc in Hi, Hlive. cbn [app] in Hi, Hlive.
      rewrite length_app in Hfuel. simpl in Hfuel.
      destruct (IH st' p (b' :: l2') f Hi Hp1 Hc3 Hco ltac:(lia)) as (st2 & l' & G1 & G2 & G3 & G4).
      exists st2, l'. split; [done|]. split; [done|]. split; [congruence|].
      destruct Hp, G4. split; congruence.
    + exists st', ((l1 ++ [p]) ++ b' :: l2'). split; [done|]. split; [|done]. split; [done|].
      apply coalesced_app. split; [done|]. split; [done|].
      intros x y Hx Hy. rewrite last_snoc in Hx. simplify_eq/=. intros (? & ? & ?). lia.
Qed.

(** ** Growing the heap *)

Lemma chain_set_next m p l t a :
  NoDup (map ba (l ++ [t])) -> chain m p (l ++ [t]) 0 ->
  chain (<[ba t := HeapBlock (bs t) (bf t) a (last_addr l p)]> m) p (l ++ [t]) a.
Proof.
  intros Hnd Hc. rewrite map_app in Hnd. apply NoDup_app in Hnd as (_ & Hnd & _).
  apply chain_app in Hc as [Hc1 [Hc2 _]]. apply chain_app. split.
  - apply chain_insert_fresh; [|done]. intros Hin. by apply (Hnd _ Hin), elem_of_cons; left.
  - split; [by rewrite lookup_insert_eq|done].
Qed.

(** A run of free pages is disjoint from every block. *)
Lemma fresh_run_dj st b s n :
  pages_ok st -> blk_ok A st b -> 0 < n -> run_free (g_page_used st) s n ->
  bend A b <= s * MM_PAGE_SIZE \/ (s + n) * MM_PAGE_SIZE <= ba b.
Proof.
  intros Hp [K1 K2 K3 _ _ _ K7] Hn Hrun. pose proof (sizeof_block_pos A).
  pose proof (run_free_bound st s n Hp Hn Hrun) as Hb. destruct Hrun as [Hs Hrun].
  destruct (decide (bend A b <= s * MM_PAGE_SIZE)) as [|N1]; [by left|right].
  destruct (decide ((s + n) * MM_PAGE_SIZE <= ba b)) as [|N2]; [done|exfalso].
  set (q := Z.max s (ba b / MM_PAGE_SIZE)).
  assert (ba b / MM_PAGE_SIZE * MM_PAGE_SIZE <= ba b <
          (ba b / MM_PAGE_SIZE + 1) * MM_PAGE_SIZE) as Hd.
  { unfold MM_PAGE_SIZE. pose proof (Z.div_mod (ba b) 4096).
    pose proof (Z.mod_pos_bound (ba b) 4096). lia. }
  unfold MM_PAGE_SIZE in *. unfold bend in *.
  assert (s <= q < s + n) as Hq by (unfold q; lia).
  assert (page_at st q = 1) as Hu by (apply K7; unfold q; lia).
  unfold page_at in Hu. rewrite Hrun in Hu by lia. done.
Qed.

Lemma blk_ok_mono st st' l :
  (forall q, 0 <= q < MM_MAX_PAGES -> page_at st q = 1 -> page_at st' q = 1) ->
  Forall (blk_ok A st) l -> Forall (blk_ok A st') l.
Proof.
  intros Hm Hf. eapply Forall_impl; [exact Hf|]. intros b [? ? ? ? ? ? ?]. split; try done.
  intros q Hq H1 H2. auto.
Qed.

(** Pages handed out by the page allocator do not disturb the heap. *)
Lemma core_alloc st st' l a n :
  core_inv A st l -> alloc_result st st' a n -> core_inv A st' l.
Proof.
  intros [K1 K2 K3 K4 K5 K6 K7 K8]
    [(s & -> & Hs0 & _ & _ & _ & Hpg) Hok (E1 & E2 & E3 & E4 & E5 & E6)].
  split; try congruence.
  - rewrite Hpg by (rewrite max_pages_val; lia). by case_bool.
  - eapply blk_ok_mono; [|exact K6]. intros q Hq Hu. rewrite Hpg by done. by case_bool.
Qed.

(** Appending the new block [nb] to the list, as [mm_grow_heap] does. *)
Definition append_block (st : mm_state) (l : list blk) (nb : blk) : mm_state :=
  set_heap st (hd_addr (l ++ [nb]) 0) (ba nb) (total A (l ++ [nb]))
    match last l with
    | None => <[ba nb := HeapBlock (bs nb) (bf nb) 0 0]> (heap_mem st)
    | Some t =>
        <[ba t := HeapBlock (bs t) (bf t) (ba nb) (last_addr (removelast l) 0)]>
          (<[ba nb := HeapBlock (bs nb) (bf nb) 0 (ba t)]> (heap_mem st))
    end.

Lemma append_core st l nb :
  core_inv A st l -> blk_ok A st nb -> Forall (dj A nb) l ->
  core_inv A (append_block st l nb) (l ++ [nb]).
Proof.
  intros H Hnb Hdj.
  assert (disj A (l ++ [nb])) as Hd.
  { apply disj_app. split; [apply H|]. split; [by split|]. rewrite Forall_forall in Hdj.
    intros b c Hb ->%list_elem_of_singleton. symmetry. auto. }
  assert (Forall (blk_ok A st) (l ++ [nb])) as Hf
    by (apply Forall_app; split; [apply H|by constructor]).
  assert (NoDup (map ba (l ++ [nb]))) as Hnd.
  { apply (disj_nodup A); [|done]. eapply Forall_impl; [exact Hf|]. intros b K. apply K. }
  unfold append_block. split; try done.
  - apply pages_ok_set_heap, H.
  - apply H.
  - cbn [set_heap heap_mem]. destruct (decide (l = [])) as [->|Hl].
    { simpl. split; [by apply lookup_insert_eq|done]. }
    destruct (exists_last Hl) as (l0 & t & ->). rewrite last_snoc, removelast_last.
    pose proof (hi_chain _ _ _ H) as Hc.
    rewrite map_app in Hnd. apply NoDup_app in Hnd as (N1 & N2 & _).
    assert (ba nb ∉ map ba (l0 ++ [t])) as Hfr.
    { intros Hin. by apply (N2 _ Hin), elem_of_cons; left. }
    apply chain_app. split.
    + apply chain_set_next; [done|]. by apply chain_insert_fresh.
    + rewrite last_addr_app. simpl. split; [|done].
      rewrite lookup_insert_ne; [by apply lookup_insert_eq|].
      rewrite map_app in Hfr. set_solver.
  - cbn. by rewrite last_addr_app.
  - by apply blk_ok_set_heap.
Qed.

Lemma grow_pages size :
  0 <= size -> size + sizeof_block A + MM_PAGE_SIZE < 2 ^ 32 ->
  let pages := (size + sizeof_block A + MM_PAGE_SIZE - 1) / MM_PAGE_SIZE in
  0 < pages /\ size + sizeof_block A <= pages * MM_PAGE_SIZE.
Proof.
  intros Hs Hb. pose proof (sizeof_block_pos A). unfold MM_PAGE_SIZE in *.
  pose proof (Z.div_mod (size + sizeof_block A + 4096 - 1) 4096).
  pose proof (Z.mod_pos_bound (size + sizeof_block A + 4096 - 1) 4096). lia.
Qed.

(** The state in which [mm_grow_heap] decides whether to coalesce. *)
Lemma grow_core st l size a st1 :
  heap_inv A st l -> 0 <= size -> size + sizeof_block A + MM_PAGE_SIZE < 2 ^ 32 ->
  let pages := (size + sizeof_block A + MM_PAGE_SIZE - 1) / MM_PAGE_SIZE in
  alloc_result st st1 a pages ->
  let nb := Blk a (pages * MM_PAGE_SIZE - sizeof_block A) 1 in
  core_inv A (append_block st1 l nb) (l ++ [nb]) /\
  u32 (pages * MM_PAGE_SIZE - sizeof_block A) = bs nb /\
  u32 (total A l + pages * MM_PAGE_SIZE) = total A (l ++ [nb]) /\
  4096 <= a /\ a ∉ map ba l.
Proof.
  intros [H Hco] Hs Hb pages Hres nb.
  pose proof Hres as [(s & -> & Hs0 & Hsn & Hrun & _ & Hpg) Hok Hh].
  destruct (grow_pages size Hs Hb) as [Hp0 Hple]. fold pages in Hp0, Hple.
  pose proof (sizeof_block_pos A) as Hsb.
  assert (bend A nb = (s + pages) * MM_PAGE_SIZE) as Hend by (unfold bend; simpl; lia).
  assert (forall b, b ∈ l -> dj A nb b) as Hdj.
  { intros b Hbl. pose proof (hi_blk _ _ _ H) as Hf. rewrite Forall_forall in Hf.
    destruct (fresh_run_dj st b s pages (hi_pages _ _ _ H) (Hf b Hbl) Hp0 Hrun);
      unfold dj; rewrite Hend; cbn [ba nb]; lia. }
  assert (blk_ok A st1 nb) as Hnb.
  { split; cbn [ba bs bf nb]; try (by right); try (rewrite Hend); try (unfold MM_PAGE_SIZE in *; lia).
    - unfold MM_PAGE_SIZE. destruct A; cbn [sizeof_ptr];
        [apply (Z.mod_divide _ 4)|apply (Z.mod_divide _ 8)]; try lia;
        [exists (s * 1024)|exists (s * 512)]; lia.
    - unfold MM_PAGE_SIZE. destruct A; cbn [sizeof_ptr sizeof_block];
        [apply (Z.mod_divide _ 4)|apply (Z.mod_divide _ 8)]; try lia;
        [exists (pages * 1024 - 4)|exists (pages * 512 - 3)]; lia.
    - intros q Hq Hq1 Hq2. cbn [ba nb] in Hq2.
      rewrite Hpg by done. case_bool; [done|]. unfold MM_PAGE_SIZE in *. lia. }
  assert (core_inv A st1 l) as H1 by (by eapply core_alloc).
  assert (core_inv A (append_block st1 l nb) (l ++ [nb])) as Hc
    by (apply append_core; [done..|by apply Forall_forall]).
  pose proof (core_total A _ _ Hc) as Htb. rewrite total_app in Htb. simpl in Htb.
  rewrite max_pages_val in *. unfold MM_PAGE_SIZE in *.
  split; [done|]. split; [apply u32_small; cbn [bs nb]; lia|]. split.
  - pose proof (core_total A _ _ H). rewrite max_pages_val in *. unfold MM_PAGE_SIZE in *.
    rewrite u32_small by lia. rewrite total_app. simpl. lia.
  - split; [lia|]. intros (b & Hba & Hbl)%list_elem_of_fmap.
    pose proof (hi_blk _ _ _ H) as Hf. rewrite Forall_forall in Hf.
    pose proof (ok_size _ _ _ (Hf b Hbl)).
    specialize (Hdj b Hbl). unfold dj, bend in Hdj. cbn [ba bs nb] in Hdj. lia.
Qed.

(** The merge of the old tail with the new block, when they touch. *)
Lemma grow_merge st l0 t nb fuel :
  core_inv A st (l0 ++ [t; nb]) -> coalesced A (l0 ++ [t]) ->
  bf t = 1 -> bf nb = 1 -> bend A t = ba nb ->
  exists st', mm_coalesce_block (S fuel) A st (ba t) = Some st' /\
    heap_inv A st' (l0 ++ [merged A t nb]) /\
    heap_mem st' !! ba nb = heap_mem st !! ba nb /\ same_pages st st'.
Proof.
  intros H Hco Ht Hn He.
  destruct (merge_next_spec A st l0 t nb [] H Hn He) as (st' & Hm & Hi & Hk & Hp & Hg).
  exists st'. pose proof (blk_ok_bound A _ _ (core_blk A st l0 t [nb] H)).
  rewrite coalesce_unfold. destruct (Z.eqb_spec (ba t) 0) as [|_]; [lia|].
  rewrite Hm. simpl. split; [|split; [split; [done|]|done]].
  - change (ba t) with (ba (merged A t nb)).
    destruct (decide (l0 = [])) as [->|Hl]; [by eapply step_back_first|].
    destruct (exists_last Hl) as (l1 & p & ->).
    rewrite (step_back_spec _ _ _ _ _ _ Hi).
    apply coalesced_app in Hco as (_ & _ & Hco).
    specialize (Hco p t ltac:(by rewrite last_snoc) eq_refl).
    destruct (core_blk A st' l1 p [merged A t nb] ltac:(by rewrite <- app_assoc in Hi))
      as [_ _ _ _ _ K _].
    case_bool; [|done]. cbn [merged ba] in *. exfalso. apply Hco. lia.
  - apply coalesced_app in Hco as (C1 & _ & C2). apply coalesced_app.
    split; [done|]. split; [done|]. intros b c Hb Hc. simplify_eq/=. by apply C2.
Qed.

Lemma append_header st l nb :
  ba nb ∉ map ba l ->
  heap_mem (append_block st l nb) !! ba nb =
    Some (HeapBlock (bs nb) (bf nb) 0 (last_addr l 0)).
Proof.
  intros Hf. unfold append_block. cbn [set_heap heap_mem].
  destruct (decide (l = [])) as [->|Hl]; [apply lookup_insert_eq|].
  destruct (exists_last Hl) as (l0 & t & ->). rewrite last_snoc, last_addr_app.
  cbn [last_addr]. rewrite lookup_insert_ne; [apply lookup_insert_eq|].
  rewrite map_app in Hf. set_solver.
Qed.

(** Linking the new block appends it to the abstract list. *)
Lemma grow_link_spec st st1 l a pages :
  core_inv A st l -> same_heap st st1 -> a ∉ map ba l ->
  let nb := Blk a (pages * MM_PAGE_SIZE - sizeof_block A) 1 in
  u32 (pages * MM_PAGE_SIZE - sizeof_block A) = bs nb ->
  u32 (total A l + pages * MM_PAGE_SIZE) = total A (l ++ [nb]) ->
  grow_link A st1 a pages = Some (append_block st1 l nb).
Proof.
  intros Hcore (E1 & E2 & E3 & _ & _ & E6) Hfr nb Hbs Htot. unfold grow_link, append_block.
  rewrite E1, E2, E3, E6, (hi_tail _ _ _ Hcore), (hi_head _ _ _ Hcore), (hi_total _ _ _ Hcore).
  rewrite Hbs, Htot. cbn [ba bs bf nb].
  destruct (decide (l = [])) as [->|Hl]; [done|].
  destruct (exists_last Hl) as (l0 & t & ->). rewrite last_snoc, removelast_last.
  pose proof (blk_ok_bound A _ _ (core_blk A st l0 t [] Hcore)).
  rewrite last_addr_app. cbn [last_addr].
  destruct (Z.eqb_spec (ba t) 0) as [|_]; [lia|]. cbn -[lookup insert].
  rewrite lookup_insert_ne by (rewrite map_app in Hfr; set_solver).
  rewrite (core_header A st l0 t [] Hcore). cbn -[lookup insert].
  by rewrite !hd_addr_app.
Qed.

Definition grown (st st' : mm_state) (l l' : list blk) (b : blk) (size : Z) : Prop :=
  heap_inv A st' l' /\ (exists l1, l' = l1 ++ [b]) /\ bf b = 1 /\ size <= bs b /\
  live l' = live l /\ g_initialized st' = g_initialized st.

Lemma live_snoc_free l b : bf b = 1 -> live (l ++ [b]) = live l.
Proof. intros H. rewrite live_app, live_cons_free by lia. by rewrite app_nil_r. Qed.

Lemma grow_finish_spec st l nb size :
  core_inv A st (l ++ [nb]) -> coalesced A l -> bf nb = 1 -> 0 <= size <= bs nb ->
  exists st' l' b, grow_finish A st (ba nb) = Some (ba b, st') /\ grown st st' l l' b size.
Proof.
  intros Hc Hco Hfn Hs. pose proof (core_header A st l nb [] Hc) as Hhd.
  pose proof (sizeof_block_pos A). cbn [hd_addr] in Hhd.
  assert (coalesced A (l ++ [nb]) -> grown st st l (l ++ [nb]) nb size) as Hkeep.
  { intros Hcc. split; [by split|]. split; [by eexists|]. split; [done|]. split; [lia|].
    by rewrite live_snoc_free. }
  unfold grow_finish. rewrite Hhd. cbn -[lookup mm_coalesce_block mm_blocks_adjacent heap_fuel].
  destruct (decide (l = [])) as [->|Hl].
  { exists st, [nb], nb. cbn. split; [done|]. by apply Hkeep. }
  destruct (exists_last Hl) as (l0 & t & ->). rewrite <- app_assoc in Hc. cbn [app] in Hc.
  pose proof (core_blk A st l0 t [nb] Hc) as Kt.
  pose proof (blk_ok_bound A _ _ Kt) as (T1 & T2 & T3).
  pose proof (core_blk A st (l0 ++ [t]) nb [] ltac:(by rewrite <- app_assoc)) as Kn.
  pose proof (blk_ok_bound A _ _ Kn).
  rewrite last_addr_app in Hhd |- *. cbn [last_addr] in Hhd |- *.
  destruct (Z.eqb_spec (ba t) 0) as [|_]; [lia|].
  rewrite (core_header A st l0 t [nb] Hc).
  cbn -[lookup mm_coalesce_block mm_blocks_adjacent heap_fuel].
  assert (bend A t <> ba nb \/ bf t = 0 -> coalesced A ((l0 ++ [t]) ++ [nb])) as Hcc.
  { intros Hor. apply coalesced_app. split; [done|]. split; [done|].
    intros x y Hx Hy. rewrite last_snoc in Hx. simplify_eq/=. lia. }
  destruct (Z.eqb_spec (bf t) 0) as [Hft|Hft]; [eexists _, _, nb; split; [reflexivity|]; auto|].
  assert (bf t = 1) as Hf1 by (destruct (ok_flag _ _ _ Kt); lia).
  unfold mm_blocks_adjacent. destruct (Z.eqb_spec (ba t) 0); [lia|].
  destruct (Z.eqb_spec (ba nb) 0); [lia|]. cbn [orb].
  rewrite (core_header A _ l0 t [nb] Hc). cbn -[uptr mm_coalesce_block heap_fuel].
  rewrite uptr_small by (unfold bend in T3; lia).
  destruct (Z.eqb_spec (ba t + sizeof_block A + bs t) (ba nb)) as [He|He].
  2: { eexists _, _, nb. split; [reflexivity|]. auto. }
  destruct (grow_merge st l0 t nb (base.size (heap_mem st)) Hc Hco Hf1 Hfn He)
    as (st' & Hm & Hi & Hk & _ & Hg).
  unfold heap_fuel. rewrite Hm. cbn [mbind option_bind]. rewrite Hk, Hhd. simpl.
  exists st', (l0 ++ [merged A t nb]), (merged A t nb). split; [done|].
  split; [done|]. split; [by eexists|]. split; [done|]. split; [cbn [merged bs]; lia|].
  split; [|done]. by rewrite !live_snoc_free.
Qed.

Lemma grow_heap_spec st l size :
  heap_inv A st l -> 0 <= size -> size + sizeof_block A + MM_PAGE_SIZE < 2 ^ 32 ->
  let pages := (size + sizeof_block A + MM_PAGE_SIZE - 1) / MM_PAGE_SIZE in
  (mm_grow_heap A st size = Some (0, st) /\
   forall s, ~ run_free (g_page_used st) s pages) \/
  exists st' l' b, mm_grow_heap A st size = Some (ba b, st') /\ grown st st' l l' b size.
Proof.
  intros Hinv Hs Hb pages. destruct (grow_pages size Hs Hb) as [Hp0 Hple].
  fold pages in Hp0, Hple. pose proof (sizeof_block_pos A) as Hsb.
  pose proof Hinv as [Hcore Hco].
  unfold mm_grow_heap. unfold MM_PAGE_SIZE in Hb.
  rewrite (u32_small (size + sizeof_block A)) by lia.
  rewrite (u32_small (size + sizeof_block A + MM_PAGE_SIZE - 1)) by (unfold MM_PAGE_SIZE; lia).
  fold pages.
  pose proof (alloc_pages_spec st pages (hi_pages _ _ _ Hcore) (hi_page0 _ _ _ Hcore) Hp0) as Hal.
  destruct (mm_alloc_pages st pages) as [a st1].
  destruct Hal as [(-> & -> & Hno)|(Ha & Hres)]; [by left|right].
  destruct (Z.eqb_spec a 0) as [|_]; [done|].
  destruct (grow_core st l size a st1 Hinv Hs ltac:(unfold MM_PAGE_SIZE; lia) Hres)
    as (Hc & Hbs & Htot & Ha4 & Hfr). fold pages in Hc, Hbs, Htot.
  set (nb := Blk a (pages * MM_PAGE_SIZE - sizeof_block A) 1) in *.
  pose proof (ar_heap _ _ _ _ Hres) as Hsh.
  rewrite (grow_link_spec st st1 l a pages Hcore Hsh Hfr Hbs Htot). cbn [mbind option_bind].
  destruct (grow_finish_spec _ l nb size Hc Hco eq_refl ltac:(cbn [bs nb]; lia))
    as (st' & l' & b & H1 & G1 & G2 & G3 & G4 & G5 & G6).
  exists st', l', b. split; [done|]. repeat split; try done; try apply G1.
  rewrite G6. apply Hsh.
Qed.

(** ** The public operations *)

Lemma align_alloc_size_spec size :
  0 < size <= 2 ^ 32 - 8192 ->
  let n := mm_align_alloc_size A size in
  size <= n < size + sizeof_ptr A /\ n mod sizeof_ptr A = 0.
Proof.
  intros Hs n. unfold n, mm_align_alloc_size, mm_align_up_u32.
  destruct (sizeof_ptr_pos A) as [Hp|Hp]; rewrite Hp; rewrite u32_small by lia.
  - change (4 - 1) with (Z.ones 2). rewrite land_lnot_ones by lia. change (2 ^ 2) with 4.
    pose proof (Z.mod_pos_bound (size + 4 - 1) 4). split; [lia|].
    apply Z.mod_divide; [lia|]. exists ((size + 4 - 1) / 4).
    pose proof (Z.div_mod (size + 4 - 1) 4). lia.
  - change (8 - 1) with (Z.ones 3). rewrite land_lnot_ones by lia. change (2 ^ 3) with 8.
    pose proof (Z.mod_pos_bound (size + 8 - 1) 8). split; [lia|].
    apply Z.mod_divide; [lia|]. exists ((size + 8 - 1) / 8).
    pose proof (Z.div_mod (size + 8 - 1) 8). lia.
Qed.

(** The address handed to the caller. *)
Definition payload (b : blk) : Z := ba b + sizeof_block A.

(** Splitting a free block and taking its first part. *)
Lemma coalesced_flag l1 b l2 : coalesced A (l1 ++ b :: l2) -> bf b = 0 ->
  forall b', bf b' = 0 -> coalesced A (l1 ++ b' :: l2).
Proof.
  intros Hc Hb b' Hb'. apply coalesced_app in Hc as (C1 & C2 & C3).
  apply coalesced_app. split; [done|]. split.
  - destruct l2; [done|]. destruct C2. split; [lia|done].
  - intros x y Hx Hy. simplify_eq/=. lia.
Qed.

Lemma take_block_coalesced l1 b l2 size :
  coalesced A (l1 ++ b :: l2) -> bf b = 1 ->
  let b1 := Blk (ba b) size 0 in
  let b2 := Blk (ba b + sizeof_block A + size) (bs b - size - sizeof_block A) 1 in
  coalesced A (l1 ++ Blk (ba b) (bs b) 0 :: l2) /\ coalesced A (l1 ++ b1 :: b2 :: l2).
Proof.
  intros Hc Hb b1 b2. apply coalesced_app in Hc as (C1 & C2 & C3).
  assert (bend A b2 = bend A b) as He by (unfold bend, b2; simpl; lia).
  split; apply coalesced_app; (split; [done|]); split.
  - destruct l2; [done|]. destruct C2. split; [cbn [bf]; lia|done].
  - intros x y Hx Hy. simplify_eq/=. lia.
  - split; [cbn [bf b1]; lia|]. destruct l2 as [|c l2]; [done|]. destruct C2 as [C2 C4].
    split; [|done]. rewrite He. cbn [bf b2]. rewrite Hb in C2. done.
  - intros x y Hx Hy. simplify_eq/=. lia.
Qed.

Definition take_block (st : mm_state) (block size : Z) : option (Z * mm_state) :=
  st ← mm_split_block A st block size;
  b ← heap_mem st !! block;
  Some (uptr A (block + sizeof_block A),
        set_heap st (g_heap_head st) (g_heap_tail st) (g_heap_total_bytes st)
          (<[block := {| hb_size := hb_size b; hb_free := 0;
                         hb_next := hb_next b; hb_prev := hb_prev b |}]> (heap_mem st))).

Lemma take_block_spec st l1 b l2 size :
  heap_inv A st (l1 ++ b :: l2) -> bf b = 1 -> 0 <= size <= bs b ->
  size mod sizeof_ptr A = 0 ->
  exists st' l' b', take_block st (ba b) size = Some (payload b', st') /\
    heap_inv A st' l' /\ bf b' = 0 /\ size <= bs b' /\ payload b' = payload b /\
    live l' ≡ₚ b' :: live (l1 ++ b :: l2) /\ g_initialized st' = g_initialized st.
Proof.
  intros [Hc Hco] Hb Hs Hm. unfold take_block.
  pose proof (blk_ok_bound A _ _ (core_blk A st l1 b l2 Hc)) as (B1 & B2 & B3).
  pose proof (sizeof_block_pos A).
  destruct (split_block_spec A st l1 b l2 size Hc Hs Hm) as (st1 & -> & Hc1 & Hg).
  cbn [mbind option_bind].
  destruct (take_block_coalesced l1 b l2 size Hco Hb) as [Hk1 Hk2].
  rewrite uptr_small by (unfold bend in B3; lia). unfold split_list in Hc1.
  destruct (bs b <? size + (sizeof_block A + sizeof_ptr A)).
  - rewrite (core_header A st1 l1 b l2 Hc1). cbn [mbind option_bind].
    pose proof (core_set_flag A st1 l1 b l2 0 Hc1 ltac:(by left)) as Hc2.
    eexists _, _, (Blk (ba b) (bs b) 0). split; [reflexivity|]. split; [by split|].
    split; [done|]. split; [cbn; lia|]. split; [done|]. split; [|done].
    rewrite !live_app, live_cons_used, live_cons_free by (cbn; lia).
    symmetry. apply Permutation_middle.
  - set (b1 := Blk (ba b) size (bf b)) in *.
    pose proof (core_header A st1 l1 b1 _ Hc1) as Hh. cbn [ba b1] in Hh.
    rewrite Hh. cbn [mbind option_bind].
    pose proof (core_set_flag A st1 l1 b1 _ 0 Hc1 ltac:(by left)) as Hc2.
    eexists _, _, (Blk (ba b) size 0). split; [reflexivity|]. split; [by split|].
    split; [done|]. split; [cbn; lia|]. split; [done|]. split; [|done].
    rewrite !live_app, live_cons_used, !live_cons_free by (cbn; lia).
    symmetry. apply Permutation_middle.
Qed.

(** The abstract allocator: its state is the multiset of live blocks. *)
Definition alloc_spec (L L' : list blk) (size p : Z) : Prop :=
  exists b, L' ≡ₚ b :: L /\ p = payload b /\ size <= bs b /\ Forall (dj A b) L.

Definition free_spec (L L' : list blk) (p : Z) : Prop :=
  exists b, L ≡ₚ b :: L' /\ p = payload b.

Lemma live_disj l b L : disj A l -> live l ≡ₚ b :: L -> Forall (dj A b) L.
Proof.
  intros Hd Hp.
  assert (disj A (live l)) as Hdl.
  { clear Hp. induction l as [|c l IH]; [done|]. destruct Hd as [H1 H2]. unfold live.
    rewrite filter_cons. case_decide; [|by apply IH]. split; [|by apply IH].
    rewrite Forall_forall in *. intros x Hx. apply H1. by apply list_elem_of_filter in Hx as [_ ?]. }
  assert (b ∈ live l) as Hin by (rewrite Hp; set_solver).
  apply list_elem_of_split in Hin as (k1 & k2 & Hk). rewrite Hk in Hp, Hdl.
  apply disj_app in Hdl as (_ & [D1 _] & D2).
  assert (k1 ++ k2 ≡ₚ L) as HL.
  { apply (Permutation_cons_inv (a := b)). rewrite <- Hp. apply Permutation_middle. }
  rewrite <- HL. apply Forall_app. split; [|done]. apply Forall_forall.
  intros c Hc. symmetry. apply D2; set_solver.
Qed.

Lemma kmalloc_spec st l size :
  heap_inv A st l -> g_initialized st <> 0 -> 0 < size <= 2 ^ 32 - 8192 ->
  let n := mm_align_alloc_size A size in
  (kmalloc_core A st size = Some (0, st) /\ Forall (fun b => ~ fits n b) l /\
   forall s, ~ run_free (g_page_used st) s ((n + sizeof_block A + MM_PAGE_SIZE - 1) / MM_PAGE_SIZE)) \/
  exists p st' l', kmalloc_core A st size = Some (p, st') /\ p <> 0 /\
    heap_inv A st' l' /\ alloc_spec (live l) (live l') size p /\
    g_initialized st' = g_initialized st.
Proof.
  intros Hi Hg Hs n. destruct (align_alloc_size_spec size Hs) as [Hn1 Hn2]. fold n in Hn1, Hn2.
  pose proof (sizeof_block_pos A). pose proof (sizeof_ptr_pos A).
  assert (forall st1 l1 b l2, heap_inv A st1 (l1 ++ b :: l2) -> fits n b ->
    live (l1 ++ b :: l2) = live l -> g_initialized st1 = g_initialized st ->
    exists p st' l', take_block st1 (ba b) n = Some (p, st') /\ p <> 0 /\ heap_inv A st' l' /\
    alloc_spec (live l) (live l') size p /\ g_initialized st' = g_initialized st) as Htake.
  { intros st1 l1 b l2 H1 [Hf1 Hf2] Hl Hg1.
    pose proof (core_blk A st1 l1 b l2 (proj1 H1)) as Kb.
    pose proof (blk_ok_bound A _ _ Kb).
    destruct (take_block_spec st1 l1 b l2 n H1 ltac:(destruct (ok_flag _ _ _ Kb); lia)
      ltac:(lia) Hn2) as (st' & l' & b' & G1 & G2 & G3 & G4 & G5 & G6 & G7).
    exists (payload b'), st', l'. split; [done|]. split; [rewrite G5; unfold payload; lia|].
    split; [done|]. split; [|congruence]. exists b'. rewrite Hl in G6. split; [done|].
    split; [done|]. split; [lia|]. eapply live_disj; [apply G2|done]. }
  unfold kmalloc_core. destruct (Z.eqb_spec (g_initialized st) 0) as [|_]; [done|].
  destruct (Z.eqb_spec size 0) as [|_]; [lia|]. cbn [orb]. fold n.
  destruct (find_free_block_spec A st l n (proj1 Hi)) as [[-> Hno]|(l1 & b & l2 & -> & Hfit & _ & ->)];
    cbn [mbind option_bind].
  - cbn [Z.eqb].
    destruct (grow_heap_spec st l n Hi ltac:(lia) ltac:(unfold MM_PAGE_SIZE; lia))
      as [[-> Hrun]|(st1 & l' & b & -> & G1 & (l1 & ->) & G3 & G4 & G5 & G6)];
      cbn [mbind option_bind]; [left; by cbn|right].
    pose proof (blk_ok_bound A _ _ (core_blk A st1 l1 b [] (proj1 G1))).
    destruct (Z.eqb_spec (ba b) 0) as [|_]; [lia|].
    apply (Htake st1 l1 b []); try done. split; lia.
  - right. pose proof (blk_ok_bound A _ _ (core_blk A st l1 b l2 (proj1 Hi))).
    destruct (Z.eqb_spec (ba b) 0) as [|_]; [lia|]. cbn [mbind option_bind].
    destruct (Z.eqb_spec (ba b) 0) as [|_]; [lia|]. by apply (Htake st l1 b l2).
Qed.

Lemma kfree_spec st l b :
  heap_inv A st l -> b ∈ live l ->
  exists st' l', kfree_core A st (payload b) = Some st' /\ heap_inv A st' l' /\
    live l ≡ₚ b :: live l' /\ g_initialized st' = g_initialized st.
Proof.
  intros [Hc Hco] Hb. apply list_elem_of_filter in Hb as [Hf Hb].
  apply list_elem_of_split in Hb as (l1 & l2 & ->).
  pose proof (blk_ok_bound A _ _ (core_blk A st l1 b l2 Hc)) as (B1 & B2 & B3).
  pose proof (sizeof_block_pos A). unfold kfree_core, payload.
  destruct (Z.eqb_spec (ba b + sizeof_block A) 0) as [|_]; [lia|].
  replace (ba b + sizeof_block A - sizeof_block A) with (ba b) by lia.
  rewrite uptr_small by (unfold bend in B3; lia).
  rewrite (core_header A st l1 b l2 Hc). cbn [mbind option_bind].
  cbn [hb_size hb_next hb_prev].
  pose proof (core_set_flag A st l1 b l2 1 Hc ltac:(by right)) as Hc1.
  set (st1 := set_heap st _ _ _ _) in *.
  apply coalesced_app in Hco as (C1 & C2 & _).
  assert (coalesced A l2) as C2' by (destruct l2; [done|apply C2]).
  destruct (coalesce_spec st1 l1 (Blk (ba b) (bs b) 1) l2 (heap_fuel st1) Hc1 eq_refl C1 C2')
    as (st' & l' & G1 & G2 & G3 & G4).
  { unfold heap_fuel. pose proof (chain_length _ _ _ _ (core_nodup A _ _ Hc1) (hi_chain _ _ _ Hc1)) as Hl.
    rewrite length_app in Hl. cbn [length] in Hl. lia. }
  exists st', l'. split; [done|]. split; [done|]. split; [|apply G4].
  rewrite G3, !live_app, live_cons_used, live_cons_free by (done || cbn; lia).
  symmetry. apply Permutation_middle.
Qed.

End Alloc.
End MmAlloc.
