(* ===== verification/MmProps.v ===== *)
(** * The promises of the memory manager

    The statements clients rely on: [kmalloc_core] and [kfree_core] as
    refinements of the abstract allocator, memory safety and non-overlap over
    every sequence of calls, the page allocator, the statistics, and the
    behaviour on sizes close to 2^32. *)

From S2P Require Import Prelude Mm MmPages MmBoot MmHeap MmAlloc.
From stdpp Require Import base list gmap option list_numbers.
From Stdlib Require Import ZArith Lia ZifyBool.
Open Scope Z_scope.

Module MmProps.
Import Mm MmPages MmBoot MmHeap MmAlloc.

(** ** Sequences of calls *)

(** States reachable from start-up by calls of the allocator; the second
    component records the live allocations as (pointer, requested size). *)
Inductive reach (A : arch) : mm_state -> list (Z * Z) -> Prop :=
| reach_init st :
    started st -> page_at st 0 = 1 -> reach A st []
| reach_alloc st L size p st' :
    reach A st L -> 0 < size <= 2 ^ 32 - 8192 ->
    kmalloc_core A st size = Some (p, st') ->
    reach A st' (if p =? 0 then L else (p, size) :: L)
| reach_free st L1 p size L2 st' :
    reach A st (L1 ++ (p, size) :: L2) -> kfree_core A st p = Some st' ->
    reach A st' (L1 ++ L2)
| reach_page st L :
    reach A st L -> reach A (snd (mm_core_alloc_page st)) L.

(** The record of an allocation describes a live block. *)
Definition describes (A : arch) (e : Z * Z) (b : blk) : Prop :=
  e.1 = payload A b /\ 0 < e.2 <= bs b.

Definition sim (A : arch) (st : mm_state) (L : list (Z * Z)) : Prop :=
  exists l bl, heap_inv A st l /\ g_initialized st <> 0 /\ live l ≡ₚ bl /\
    Forall2 (describes A) L bl.

Lemma started_heap_inv A st : started st -> page_at st 0 = 1 -> heap_inv A st [].
Proof. intros [Hok _ _ (H1 & H2 & H3)] H0. by split; [split|]. Qed.

Lemma reach_sim A st L : reach A st L -> sim A st L.
Proof.
  induction 1 as [st Hs H0|st L size p st' _ (l & bl & Hi & Hg & Hp & Hd) Hsz Hk
                 |st L1 p size L2 st' _ (l & bl & Hi & Hg & Hp & Hd) Hk
                 |st L _ (l & bl & Hi & Hg & Hp & Hd)].
  - exists [], []. split; [by apply started_heap_inv|]. rewrite (sd_init _ Hs).
    split; [lia|]. by split; [|constructor].
  - destruct (kmalloc_spec A st l size Hi Hg Hsz)
      as [(H1 & _)|(p' & st2 & l' & H1 & Hnz & Hi' & (b & Hb & Hpb & Hle & _) & Hg')];
      rewrite H1 in Hk; simplify_eq.
    + exists l, bl. done.
    + destruct (Z.eqb_spec (payload A b) 0) as [|_]; [done|]. exists l', (b :: bl).
      split; [done|]. split; [congruence|]. split; [by rewrite Hb, Hp|].
      constructor; [split; [done|simpl; lia]|done].
  - apply Forall2_app_inv_l in Hd as (k1 & k2 & Hd1 & Hd2 & ->).
    inversion Hd2 as [|? b ? k3 [Hpay Hsz] Hd3]; subst. simpl in *.
    assert (b ∈ live l) as Hin by (rewrite Hp; set_solver).
    destruct (kfree_spec A st l b Hi Hin) as (st2 & l' & H1 & Hi' & Hl & Hg').
    rewrite Hpay, H1 in Hk. simplify_eq. exists l', (k1 ++ k3).
    split; [done|]. split; [congruence|]. split; [|by apply Forall2_app].
    apply (Permutation_cons_inv (a := b)). rewrite <- Hl, Hp. symmetry. apply Permutation_middle.
  - exists l, bl. unfold mm_core_alloc_page.
    destruct (Z.eqb_spec (g_initialized st) 0) as [|_]; [done|].
    pose proof (alloc_pages_spec st 1 (hi_pages _ _ _ (proj1 Hi)) (hi_page0 _ _ _ (proj1 Hi))
      ltac:(lia)) as Hal.
    destruct (mm_alloc_pages st 1) as [a st']. destruct Hal as [(_ & -> & _)|(_ & Hr)]; [done|].
    split; [split; [by eapply core_alloc, Hr; apply Hi|apply Hi]|].
    destruct Hr as [_ _ (_ & _ & _ & Hr & _)]. cbn [snd]. by rewrite Hr.
Qed.

Lemma disj_perm A l l' : l ≡ₚ l' -> disj A l -> disj A l'.
Proof.
  induction 1 as [|b l l' Hp IH|b c l|l1 l2 l3 H1 IH1 H2 IH2]; simpl; try tauto.
  - intros [H1 H2]. split; [by rewrite <- Hp|by apply IH].
  - rewrite !Forall_cons. intros ([H1 H2] & H3 & H4). by repeat split; [symmetry|..].
Qed.

Lemma disj_filter A l : disj A l -> disj A (live l).
Proof.
  induction l as [|c l IH]; [done|]. intros [H1 H2]. unfold live. rewrite filter_cons.
  case_decide; [|by apply IH]. split; [|by apply IH]. rewrite Forall_forall in *.
  intros x Hx. apply H1. by apply list_elem_of_filter in Hx as [_ ?].
Qed.

Lemma disj_lookup A l i j b c :
  disj A l -> i <> j -> l !! i = Some b -> l !! j = Some c -> dj A b c.
Proof.
  revert i j. induction l as [|d l IH]; intros i j Hd Hne Hb Hc; [done|].
  destruct Hd as [H1 H2]. rewrite Forall_forall in H1.
  destruct i as [|i], j as [|j]; simplify_eq/=; try done.
  - apply H1. by eapply list_elem_of_lookup_2.
  - symmetry. apply H1. by eapply list_elem_of_lookup_2.
  - apply (IH i j); try done. lia.
Qed.

(** ** Statistics *)

Definition sum_sizes (l : list blk) : Z := foldr (fun b n => bs b + n) 0 l.
Definition freed (l : list blk) : list blk := filter (fun b => bf b <> 0) l.

Lemma total_split A l :
  total A l = sum_sizes (live l) + sum_sizes (freed l) + sizeof_block A * Z.of_nat (length l).
Proof.
  induction l as [|b l IH]; [simpl; lia|]. cbn [total length]. rewrite IH.
  unfold live, freed. rewrite !filter_cons. repeat case_decide; simpl; lia.
Qed.

Lemma sum_sizes_nonneg l : Forall (fun b => 0 <= bs b) l -> 0 <= sum_sizes l.
Proof. induction 1 as [|b l Hb _ IH]; simpl; lia. Qed.

Lemma stats_loop_spec m l fuel p used free largest M :
  Forall (fun b => ba b <> 0 /\ 0 <= bs b) l -> chain m p l 0 -> (length l < fuel)%nat ->
  0 <= used -> 0 <= free -> M < 2 ^ 32 ->
  used + sum_sizes (live l) <= M -> free + sum_sizes (freed l) <= M ->
  stats_loop fuel m (hd_addr l 0) used free largest =
    Some (used + sum_sizes (live l), free + sum_sizes (freed l),
          foldr (fun b n => Z.max (bs b) n) largest (reverse (freed l))).
Proof.
  revert fuel p used free largest.
  induction l as [|b l IH]; intros [|f] p used free largest Hf Hc Hl Hu Hfr HM H1 H2;
    simpl in Hl; try lia.
  { simpl. by rewrite !Z.add_0_r. }
  apply Forall_cons in Hf as [[Hnz Hs] Hf]. destruct Hc as [Hb Hc].
  assert (0 <= sum_sizes (live l) /\ 0 <= sum_sizes (freed l)) as [S1 S2].
  { split; apply sum_sizes_nonneg, Forall_forall; intros c [_ Hc']%list_elem_of_filter;
      rewrite Forall_forall in Hf; by apply Hf. }
  cbn [stats_loop hd_addr]. destruct (Z.eqb_spec (ba b) 0) as [|_]; [done|].
  rewrite Hb. cbn -[u32 live freed]. unfold live, freed in *. rewrite !filter_cons in *.
  destruct (Z.eqb_spec (bf b) 0) as [He|He]; cbn [negb].
  - rewrite decide_True in * by done. rewrite decide_False in * by (intros ?; done).
    simpl in H1. rewrite u32_small by lia.
    rewrite (IH f (ba b)); try done; try lia. simpl. do 2 f_equal. f_equal. lia.
  - rewrite decide_False in * by done. rewrite (decide_True (P := bf b <> 0)) in * by done.
    simpl in H2. rewrite u32_small by lia.
    rewrite (IH f (ba b)); try done; try lia. simpl. rewrite reverse_cons, foldr_app. simpl.
    do 2 f_equal; [f_equal; lia|]. f_equal. case_bool; lia.
Qed.

Lemma foldr_max_spec l x :
  Forall (fun b => 0 <= bs b) l -> 0 <= x ->
  Forall (fun b => bs b <= foldr (fun b n => Z.max (bs b) n) x l) l /\
  x <= foldr (fun b n => Z.max (bs b) n) x l /\
  (foldr (fun b n => Z.max (bs b) n) x l = x \/
   exists b, b ∈ l /\ bs b = foldr (fun b n => Z.max (bs b) n) x l).
Proof.
  induction 1 as [|b l Hb _ IH]; intros Hx; simpl; [by split; [|split; [|left]]|].
  destruct (IH Hx) as (H1 & H2 & H3). set (m := foldr _ _ _) in *.
  split; [|split; [lia|]].
  - constructor; [lia|]. eapply Forall_impl; [exact H1|]. simpl. lia.
  - destruct (decide (m <= bs b)).
    + right. exists b. split; [set_solver|lia].
    + replace (Z.max (bs b) m) with m by lia.
      destruct H3 as [H3|(c & Hc & H3)]; [by left|right]. exists c. split; [set_solver|done].
Qed.

(** A successful page allocation adds its pages to the counter. *)
Lemma alloc_pages_used st count a st' :
  pages_ok st -> 0 < count -> mm_alloc_pages st count = (a, st') -> a <> 0 ->
  g_used_pages st' = g_used_pages st + count.
Proof.
  intros H1 H3 Hm Hnz. unfold mm_alloc_pages in Hm. case_bool; [lia|].
  destruct (alloc_scan _ _ _ _ _) as [s|] eqn:E; [|congruence]. injection Hm as _ <-.
  pose proof (alloc_scan_first (g_page_used st) count H3) as Hrun. rewrite E in Hrun.
  destruct Hrun as [Hrun _]. pose proof (run_free_bound st s count H1 H3 Hrun).
  destruct Hrun as [Hs0 Hrun]. rewrite set_run_used; [lia|done|lia|].
  split; [lia|]. intros k Hk. apply Hrun. lia.
Qed.

(** ** A concrete booted machine

    288 identity-mapped pages, the kernel at 1 MiB, 16 free pages above it. *)

Definition demo_limit : Z := 0x00120000.

Definition demo_state : mm_state :=
  match mm_core_init I386 10 (fun _ => 0) 1 demo_limit 0x100000 0x110000 mm_boot_state 0 0 with
  | Some (_, st) => st
  | None => mm_boot_state
  end.

Lemma demo_started : started demo_state.
Proof.
  split; [split| | |].
  - vm_compute. reflexivity.
  - apply (bool_decide_unpack _). vm_compute. exact I.
  - vm_compute. reflexivity.
  - vm_compute. reflexivity.
  - vm_compute. reflexivity.
  - vm_compute. done.
Qed.

Lemma demo_page0 : page_at demo_state 0 = 1.
Proof. vm_compute. reflexivity. Qed.

Lemma demo_heap A : heap_inv A demo_state [].
Proof. apply started_heap_inv; [apply demo_started|apply demo_page0]. Qed.

(** ** Theorems *)

(** C1: [kmalloc_core] refines the abstract allocator.  On a well-formed heap
    and for any size up to 2^32 - 8192 it never touches memory that is not a
    block header.  Either it returns null with the state unchanged, and then no
    free block fits and no run of free pages is long enough; or it returns the
    payload address of a new live block of at least the requested size that is
    disjoint from every other live block, all other live blocks are unchanged
    and the heap is well formed again. *)
Theorem kmalloc_core_refines A st l size :
  heap_inv A st l -> g_initialized st <> 0 -> 0 < size <= 2 ^ 32 - 8192 ->
  let n := mm_align_alloc_size A size in
  (kmalloc_core A st size = Some (0, st) /\ Forall (fun b => ~ fits n b) l /\
   forall s, ~ run_free (g_page_used st) s
                 ((n + sizeof_block A + MM_PAGE_SIZE - 1) / MM_PAGE_SIZE)) \/
  exists p st' l', kmalloc_core A st size = Some (p, st') /\ p <> 0 /\
    heap_inv A st' l' /\ alloc_spec A (live l) (live l') size p.
Proof.
  intros H1 H2 H3 n. destruct (kmalloc_spec A st l size H1 H2 H3)
    as [Hl|(p & st' & l' & K1 & K2 & K3 & K4 & _)]; [by left|right]. by exists p, st', l'.
Qed.

Lemma kmalloc_core_refines_witness :
  exists p st' l', kmalloc_core I386 demo_state 100 = Some (p, st') /\ p <> 0 /\
    heap_inv I386 st' l' /\ alloc_spec I386 (live []) (live l') 100 p.
Proof.
  destruct (kmalloc_core_refines I386 demo_state [] 100) as [[H _]|H].
  - apply demo_heap.
  - vm_compute. discriminate.
  - lia.
  - exfalso. revert H. vm_compute. discriminate.
  - exact H.
Defined.

(** C29: [kfree_core] refines the abstract allocator.  Freeing the payload
    address of a live block never faults, removes exactly that block from the
    live blocks and leaves a well-formed, fully coalesced heap. *)
Theorem kfree_core_refines A st l b :
  heap_inv A st l -> b ∈ live l ->
  exists st' l', kfree_core A st (payload A b) = Some st' /\ heap_inv A st' l' /\
    free_spec A (live l) (live l') (payload A b).
Proof.
  intros H1 H2. destruct (kfree_spec A st l b H1 H2) as (st' & l' & K1 & K2 & K3 & _).
  exists st', l'. split; [done|]. split; [done|]. by exists b.
Qed.

Lemma kfree_core_refines_witness :
  exists st l b, heap_inv I386 st l /\ b ∈ live l /\
    exists st' l', kfree_core I386 st (payload I386 b) = Some st' /\ heap_inv I386 st' l' /\
      free_spec I386 (live l) (live l') (payload I386 b).
Proof.
  destruct (kmalloc_spec I386 demo_state [] 100 (demo_heap I386)) as [(H & _)|H].
  - vm_compute. discriminate.
  - lia.
  - exfalso. revert H. vm_compute. discriminate.
  - destruct H as (p & st & l & _ & _ & Hi & (b & Hb & _) & _).
    assert (b ∈ live l) as Hin by (rewrite Hb; set_solver).
    exists st, l, b. split; [done|]. split; [done|]. by apply kfree_core_refines.
Defined.

(** C27: every sequence of allocator calls is safe.  In every state reachable
    from start-up by [kmalloc_core], [kfree_core] of live pointers and
    [mm_core_alloc_page], both operations run without touching memory that is not
    a block header, all live allocations lie inside the identity-mapped range and
    no two of them overlap. *)
Theorem heap_reachable_safe A st L :
  reach A st L ->
  (forall size, 0 < size <= 2 ^ 32 - 8192 -> is_Some (kmalloc_core A st size)) /\
  (forall p n, (p, n) ∈ L -> is_Some (kfree_core A st p)) /\
  (forall i j p n q m, i <> j -> L !! i = Some (p, n) -> L !! j = Some (q, m) ->
     p + n <= q \/ q + m <= p) /\
  Forall (fun e => MM_PAGE_SIZE < e.1 /\ e.1 + e.2 <= MM_MAX_PAGES * MM_PAGE_SIZE) L.
Proof.
  intros (l & bl & Hi & Hg & Hp & Hd)%reach_sim. pose proof (sizeof_block_pos A).
  assert (disj A bl) as Hdj by (eapply disj_perm; [exact Hp|]; apply disj_filter, Hi).
  assert (forall b, b ∈ bl -> b ∈ live l) as Hin by (intros b; by rewrite Hp).
  split; [|split; [|split]].
  - intros size Hs. destruct (kmalloc_spec A st l size Hi Hg Hs) as [(-> & _)|(p & st' & l' & -> & _)]; done.
  - intros p n He. apply list_elem_of_lookup in He as (i & He).
    destruct (Forall2_lookup_l _ _ _ _ _ Hd He) as (b & Hb & [Hpay _]).
    destruct (kfree_spec A st l b Hi) as (st' & l' & Hk & _);
      [apply Hin; by eapply list_elem_of_lookup_2|]. simpl in Hpay. by rewrite Hpay, Hk.
  - intros i j p n q m Hij H1 H2.
    destruct (Forall2_lookup_l _ _ _ _ _ Hd H1) as (b & Hb & [Hpb Hnb]).
    destruct (Forall2_lookup_l _ _ _ _ _ Hd H2) as (c & Hc & [Hqc Hmc]). simpl in *.
    pose proof (disj_lookup A bl i j b c Hdj Hij Hb Hc) as K.
    unfold dj, bend, payload in *. lia.
  - apply Forall_forall. intros e (i & He)%list_elem_of_lookup.
    destruct (Forall2_lookup_l _ _ _ _ _ Hd He) as (b & Hb & [Hpb Hnb]).
    assert (blk_ok A st b) as [K1 K2 K3 _ _ _ _].
    { assert (b ∈ live l) as Hbl by (apply Hin; by eapply list_elem_of_lookup_2).
      apply list_elem_of_filter in Hbl as [_ Hbl]. pose proof (hi_blk _ _ _ (proj1 Hi)) as Hf.
      rewrite Forall_forall in Hf. by apply Hf. }
    unfold bend, payload in *. lia.
Qed.

Lemma heap_reachable_safe_witness :
  reach I386 demo_state [] /\ is_Some (kmalloc_core I386 demo_state 64).
Proof.
  assert (reach I386 demo_state []) as Hr
    by (apply reach_init; [apply demo_started|apply demo_page0]).
  split; [exact Hr|]. destruct (heap_reachable_safe I386 demo_state [] Hr) as (H & _).
  apply H. lia.
Defined.

(** [mm_alloc_pages] is first fit.  On a consistent bitmap with page 0 in
    use, a request for [count] pages either fails, and then there is no run of
    [count] free pages; or returns the address of the lowest such run, marks
    exactly those pages used and keeps the bitmap and its counter consistent. *)
Theorem mm_alloc_pages_first_fit st count a st' :
  pages_ok st -> page_at st 0 = 1 -> 0 < count -> mm_alloc_pages st count = (a, st') ->
  (a = 0 /\ st' = st /\ forall s, ~ run_free (g_page_used st) s count) \/
  (a <> 0 /\ alloc_result st st' a count /\ g_used_pages st' = g_used_pages st + count).
Proof.
  intros H1 H2 H3 H. pose proof (alloc_pages_spec st count H1 H2 H3) as Hs. rewrite H in Hs.
  destruct Hs as [Hs|[Hnz Hs]]; [by left|right]. split; [done|]. split; [done|].
  by eapply alloc_pages_used.
Qed.

Lemma mm_alloc_pages_first_fit_witness :
  let r := mm_alloc_pages demo_state 3 in
  r.1 = 0x110000 /\ alloc_result demo_state r.2 r.1 3 /\
  g_used_pages r.2 = g_used_pages demo_state + 3.
Proof.
  intros r. assert (r.1 = 0x110000) as Hr by (vm_compute; reflexivity).
  split; [exact Hr|].
  destruct (mm_alloc_pages_first_fit demo_state 3 r.1 r.2) as [(H & _)|(_ & H)].
  - apply demo_started.
  - apply demo_page0.
  - lia.
  - unfold r. by destruct (mm_alloc_pages demo_state 3).
  - congruence.
  - exact H.
Defined.

(** freeing undoes allocating.  Releasing a run of pages right after
    [mm_alloc_pages] handed it out restores the whole state of the manager, the
    bitmap and the used-page counter included. *)
Theorem mm_free_pages_undoes_alloc st count a st' :
  pages_ok st -> page_at st 0 = 1 -> 0 < count ->
  mm_alloc_pages st count = (a, st') -> a <> 0 ->
  mm_free_pages st' a count = st.
Proof.
  intros H1 H2 H3 H Ha. pose proof (alloc_pages_spec st count H1 H2 H3) as Hs. rewrite H in Hs.
  destruct Hs as [(-> & _)|(_ & [(s & -> & Hs0 & Hle & Hrun & _ & Hpg) Hok Hh])]; [done|].
  rewrite free_run_spec by done.
  destruct (set_run_spec (Z.to_nat count) st' s 0 Hok ltac:(lia) ltac:(by left)) as (K1 & K2 & K3).
  apply mm_state_eq; [done|done|by etrans|]. intros q Hq. rewrite K3, Hpg by done.
  destruct Hrun as [_ Hrun]. unfold page_at.
  repeat case_bool; try done; try lia. by rewrite Hrun by lia.
Qed.

Lemma mm_free_pages_undoes_alloc_witness :
  let r := mm_alloc_pages demo_state 3 in
  r.1 <> 0 /\ mm_free_pages r.2 r.1 3 = demo_state.
Proof.
  intros r. assert (r.1 <> 0) as Hr by (vm_compute; discriminate). split; [exact Hr|].
  apply (mm_free_pages_undoes_alloc demo_state 3 r.1 r.2).
  - apply demo_started.
  - apply demo_page0.
  - lia.
  - unfold r. by destruct (mm_alloc_pages demo_state 3).
  - exact Hr.
Defined.

(** the heap statistics are exact.  On a well-formed heap
    [mm_core_get_stats] returns the sum of the live block sizes, the sum of the
    free block sizes and the largest free block; used, free and header bytes add
    up to the bytes taken from the page allocator. *)
Theorem mm_core_get_stats_exact A st l :
  heap_inv A st l ->
  exists s, mm_core_get_stats st = Some s /\
    heap_used_bytes s = sum_sizes (live l) /\ heap_free_bytes s = sum_sizes (freed l) /\
    heap_used_bytes s + heap_free_bytes s + sizeof_block A * Z.of_nat (length l) =
      heap_total_bytes s /\
    Forall (fun b => bs b <= heap_largest_free_bytes s) (freed l) /\
    (heap_largest_free_bytes s = 0 \/
     exists b, b ∈ freed l /\ bs b = heap_largest_free_bytes s).
Proof.
  intros [H _]. pose proof (sizeof_block_pos A).
  pose proof (core_total A _ _ H) as Ht. rewrite total_split in Ht.
  rewrite max_pages_val in Ht. unfold MM_PAGE_SIZE in Ht.
  assert (Forall (fun b => ba b <> 0 /\ 0 <= bs b) l) as Hf.
  { eapply Forall_impl; [apply H|]. intros b Hb. pose proof (blk_ok_bound A _ _ Hb). lia. }
  assert (Forall (fun b => 0 <= bs b) (live l) /\ Forall (fun b => 0 <= bs b) (freed l)) as [F1 F2].
  { split; apply Forall_forall; intros c [_ Hc]%list_elem_of_filter;
      rewrite Forall_forall in Hf; by apply Hf. }
  pose proof (sum_sizes_nonneg _ F1). pose proof (sum_sizes_nonneg _ F2).
  unfold mm_core_get_stats. rewrite (hi_head _ _ _ H).
  rewrite (stats_loop_spec _ l (heap_fuel st) 0 0 0 0 67108864); try done; try lia; try apply H.
  2: { unfold heap_fuel.
       pose proof (chain_length _ _ _ _ (core_nodup A _ _ H) (hi_chain _ _ _ H)). lia. }
  cbn [mbind option_bind]. eexists. split; [reflexivity|]. cbn -[live freed Z.mul].
  split; [done|]. split; [done|]. split; [rewrite (hi_total _ _ _ H), total_split; lia|].
  destruct (foldr_max_spec (reverse (freed l)) 0) as (M1 & _ & M3); [by apply Forall_reverse|done|].
  split; [by apply Forall_reverse|].
  destruct M3 as [M3|(b & Hb & M3)]; [by left|right]. exists b.
  split; [by apply elem_of_reverse|done].
Qed.

Lemma mm_core_get_stats_exact_witness :
  exists st l s, heap_inv I386 st l /\ length l <> 0%nat /\ mm_core_get_stats st = Some s /\
    heap_used_bytes s = sum_sizes (live l).
Proof.
  destruct (kmalloc_spec I386 demo_state [] 100 (demo_heap I386)) as [(H & _)|H].
  - vm_compute. discriminate.
  - lia.
  - exfalso. revert H. vm_compute. discriminate.
  - destruct H as (p & st & l & _ & _ & Hi & (b & Hb & _) & _).
    destruct (mm_core_get_stats_exact I386 st l Hi) as (s & H1 & H2 & _).
    exists st, l, s. split; [exact Hi|]. split; [|by split].
    intros Hl. apply nil_length_inv in Hl. subst l. exact (Permutation_nil_cons Hb).
Defined.

(** Sizes close to 2^32 overflow.  On an empty i386 heap with a free page,
    [kmalloc_core(0xFFFFFFF4)] succeeds: the header size added to the request
    wraps, one page is allocated for a block that claims 0xFFFFFFF4 bytes, and the
    split writes the next header 4 bytes into the header of the block itself. *)
Theorem kmalloc_core_size_overflow st :
  heap_inv I386 st [] -> g_initialized st <> 0 -> (exists s, run_free (g_page_used st) s 1) ->
  exists p st' b, kmalloc_core I386 st 0xFFFFFFF4 = Some (p, st') /\ p <> 0 /\
    g_used_pages st' = g_used_pages st + 1 /\
    heap_mem st' !! (p - sizeof_block I386) = Some b /\ hb_size b = 0xFFFFFFF4 /\
    hb_next b = p - sizeof_block I386 + 4.
Proof.
  intros [Hi _] Hg (s0 & Hrun).
  pose proof (alloc_pages_spec st 1 (hi_pages _ _ _ Hi) (hi_page0 _ _ _ Hi) ltac:(lia)) as Hal.
  pose proof (alloc_pages_used st 1) as Hff.
  unfold kmalloc_core. destruct (Z.eqb_spec (g_initialized st) 0) as [|_]; [done|].
  unfold mm_find_free_block. rewrite (hi_head _ _ _ Hi).
  change (mm_align_alloc_size I386 0xFFFFFFF4) with 0xFFFFFFF4.
  cbn [orb Z.eqb hd_addr find_loop heap_fuel mbind option_bind].
  unfold mm_grow_heap. change (u32 (u32 (0xFFFFFFF4 + sizeof_block I386) + MM_PAGE_SIZE - 1) / MM_PAGE_SIZE) with 1.
  destruct (mm_alloc_pages st 1) as [a st1].
  specialize (Hff a st1 (hi_pages _ _ _ Hi) ltac:(lia) eq_refl).
  destruct Hal as [(_ & _ & Hno)|(Ha & [(s & -> & Hs & Hle & _) _ (E1 & E2 & E3 & _ & _ & E6)])];
    [by destruct (Hno s0)|].
  pose proof (Hff Ha) as Hu.
  destruct (Z.eqb_spec (s * MM_PAGE_SIZE) 0) as [|_]; [done|].
  set (a := s * MM_PAGE_SIZE) in *.
  assert (4096 <= a < 2 ^ 26) as Hab by (unfold a; rewrite max_pages_val in Hle; unfold MM_PAGE_SIZE; lia).
  unfold grow_link, grow_finish. rewrite E1, E2, (hi_tail _ _ _ Hi), (hi_head _ _ _ Hi).
  cbn -[lookup insert u32 uptr Z.mul Z.sub Z.add mm_coalesce_block].
  rewrite lookup_insert_eq. cbn -[lookup insert u32 uptr Z.mul Z.sub Z.add].
  destruct (Z.eqb_spec a 0) as [|_]; [done|].
  unfold mm_split_block. destruct (Z.eqb_spec a 0) as [|_]; [done|].
  cbn -[lookup insert u32 uptr Z.mul Z.sub Z.add]. rewrite lookup_insert_eq.
  cbn -[lookup insert u32 uptr Z.mul Z.sub Z.add].
  change (u32 (1 * MM_PAGE_SIZE - 16)) with 4080.
  change (u32 (4294967284 + u32 (16 + 4))) with 8.
  cbn -[lookup insert u32 uptr Z.mul Z.sub Z.add].
  assert (uptr I386 (a + 16 + 4294967284) = a + 4) as ->.
  { simpl. unfold u32. replace (a + 16 + 4294967284) with (a + 4 + 1 * 2 ^ 32) by lia.
    rewrite Z.mod_add by lia. apply Z.mod_small. lia. }
  rewrite lookup_insert_ne by lia. rewrite lookup_insert_eq.
  cbn -[lookup insert u32 uptr Z.mul Z.sub Z.add]. rewrite lookup_insert_eq.
  cbn -[lookup insert u32 uptr Z.mul Z.sub Z.add]. rewrite uptr_small by lia.
  eexists _, _, _. split; [reflexivity|]. split; [lia|]. split; [exact Hu|].
  replace (a + 16 - 16) with a by lia. cbn -[lookup insert u32 uptr Z.mul Z.sub Z.add].
  rewrite lookup_insert_eq. done.
Qed.

Lemma kmalloc_core_size_overflow_witness :
  exists p st' b, kmalloc_core I386 demo_state 0xFFFFFFF4 = Some (p, st') /\ p <> 0 /\
    g_used_pages st' = g_used_pages demo_state + 1 /\
    heap_mem st' !! (p - sizeof_block I386) = Some b /\ hb_size b = 0xFFFFFFF4 /\
    hb_next b = p - sizeof_block I386 + 4.
Proof.
  apply kmalloc_core_size_overflow.
  - apply demo_heap.
  - vm_compute. discriminate.
  - exists 0x110. split; [lia|]. intros k Hk. assert (k = 0x110) as -> by lia.
    vm_compute. reflexivity.
Defined.

End MmProps.
