(* ===== verification/Ports.v ===== *)
(** * Port input and output

    The x86 [in]/[out] instructions the PC drivers wrap in [inb] and [outb].
    What answers is hardware: the models take it as an instance of [port_io]. *)

From Stdlib Require Import ZArith.
Open Scope Z_scope.

Module Ports.

(** What a driver needs of the machine: byte-wide port input and output. *)
Class port_io (dev : Type) := PortIO {
  inb : dev -> Z -> Z * dev;
  outb : dev -> Z -> Z -> dev
}.

(** Ports with no device behind them. *)
#[export] Instance null_io : port_io unit := PortIO _ (fun d _ => (0, d)) (fun d _ _ => d).

(** A device that records the bytes written, newest first, and answers 0. *)
#[export] Instance log_io : port_io (list (Z * Z)) :=
  PortIO _ (fun d _ => (0, d)) (fun d port v => cons (port, v) d).

End Ports.

(** * Key codes

    [core/input/input.h]: the codes of the keys that have no character, shared by the
    keyboard driver, the line reader and the terminal requests. *)

Module Keys.

Definition KEY_NONE : Z := 0.
Definition KEY_LEFT : Z := 0x80.
Definition KEY_RIGHT : Z := 0x81.
Definition KEY_INSERT : Z := 0x82.
Definition KEY_DELETE : Z := 0x83.
Definition KEY_UP : Z := 0x84.
Definition KEY_DOWN : Z := 0x85.
Definition KEY_CTRL_ALT_DEL : Z := 0x86.

End Keys.
