(* ===== verification/Interrupts.v ===== *)
(** * Interrupts and the timer

    [core/interrupts/interrupts_common.c] and [irq_chip_core.c], the built-in driver of the
    two 8259 interrupt controllers and the 8253 timer in [drivers/pc/pic_pit.c], and the
    interrupt table of [arch/i386/modules/interrupts/interrupts.c].  A handler is the
    timer's own or one of another component, which works on the rest of the machine. *)

From S2P Require Import Prelude Ports.
From stdpp Require Import base list option list_numbers relations.
From Stdlib Require Import ZArith Lia ZifyBool.
Import Ports.
Open Scope Z_scope.

Module Interrupts.

Definition PIC1_CMD : Z := 0x20.
Definition PIC1_DATA : Z := 0x21.
Definition PIC2_CMD : Z := 0xA0.
Definition PIC2_DATA : Z := 0xA1.
Definition PIC_EOI : Z := 0x20.
Definition PIT_CMD : Z := 0x43.
Definition PIT_CH0_DATA : Z := 0x40.
Definition PIT_HZ : Z := 100.
Definition PIT_BASE_HZ : Z := 1193182.
Definition IDT_SIZE : Z := 256.
Definition IRQ_COUNT : Z := 16.

(** ** [pic_pit.c] *)

Section Pic.
Context {D : Type} `{!port_io D}.

Definition io_wait (d : D) : D := outb d 0x80 0.

Definition pic_send_eoi (irq : Z) (d : D) : D :=
  let d := if 8 <=? irq then outb d PIC2_CMD PIC_EOI else d in
  outb d PIC1_CMD PIC_EOI.

Definition pic_set_mask (irq : Z) (masked : bool) (d : D) : D :=
  let port := if irq <? 8 then PIC1_DATA else PIC2_DATA in
  let bit := if irq <? 8 then irq else u8 (irq - 8) in
  let '(value, d) := inb d port in
  let value := if masked then u8 (Z.lor value (u8 (Z.shiftl 1 bit))) else u8 (Z.land value (u8 (Z.lnot (Z.shiftl 1 bit)))) in
  outb d port value.

(** [outb] and [io_wait] for each. *)
Fixpoint slow_writes (writes : list (Z * Z)) (d : D) : D :=
  match writes with [] => d | (port, v) :: rest => slow_writes rest (io_wait (outb d port v)) end.

Definition pc_pic_remap (offset1 offset2 : Z) (d : D) : D :=
  let '(master_mask, d) := inb d PIC1_DATA in
  let '(slave_mask, d) := inb d PIC2_DATA in
  let d := slow_writes [(PIC1_CMD, 0x11); (PIC2_CMD, 0x11); (PIC1_DATA, offset1); (PIC2_DATA, offset2);
                        (PIC1_DATA, 4); (PIC2_DATA, 2); (PIC1_DATA, 0x01); (PIC2_DATA, 0x01)] d in
  outb (outb d PIC1_DATA master_mask) PIC2_DATA slave_mask.

Definition pc_pic_set_default_masks (d : D) : D := outb (outb d PIC1_DATA 0xF8) PIC2_DATA 0xFF.

Definition pc_pit_init (hz : Z) (d : D) : D :=
  let hz := if hz =? 0 then PIT_HZ else hz in
  let divisor := u16 (PIT_BASE_HZ / hz) in
  outb (outb (outb d PIT_CMD 0x36) PIT_CH0_DATA (u8 (Z.land divisor 0xFF))) PIT_CH0_DATA (u8 (Z.land (Z.shiftr divisor 8) 0xFF)).

End Pic.

(** [system_irq_chip_ops_t]. *)
Record irq_chip_ops (D : Type) := IrqChip {
  abi : Z; remap : Z -> Z -> D -> D; set_default_masks : D -> D; mask_irq : Z -> bool -> D -> D;
  send_eoi : Z -> D -> D; init_timer : Z -> D -> D
}.
Arguments IrqChip {D}. Arguments abi {D}. Arguments remap {D}. Arguments set_default_masks {D}.
Arguments mask_irq {D}. Arguments send_eoi {D}. Arguments init_timer {D}.

Definition SYSTEM_IRQ_CHIP_ABI : Z := 1.

Definition pc_irq_chip {D} `{!port_io D} : irq_chip_ops D :=
  IrqChip SYSTEM_IRQ_CHIP_ABI pc_pic_remap pc_pic_set_default_masks pic_set_mask pic_send_eoi pc_pit_init.

(** A gate of the interrupt table. *)
Record idt_entry := IdtEntry { offset_low : Z; selector : Z; zero : Z; type_attr : Z; offset_high : Z }.
Definition no_gate : idt_entry := IdtEntry 0 0 0 0 0.

Section Interrupts.
Context {D H : Type} `{!port_io D}.
(** The handlers of other components. *)
Variable run : H -> D -> D.

Inductive handler := TIMER | OTHER (h : H).

(** [g_interrupts_state], [active_irq_chip], [g_idt], what [lidt] loaded, the interrupt
    flag of the processor, and the rest of the machine. *)
Record interrupts := Intr {
  irq_handlers : list (option handler); timer_ticks : Z; active_irq_chip : option (irq_chip_ops D);
  g_idt : list idt_entry; idtr : Z * Z; iflag : bool; rest : D
}.

Definition set_rest d s := Intr (irq_handlers s) (timer_ticks s) (active_irq_chip s) (g_idt s) (idtr s) (iflag s) d.
Definition set_state h t s := Intr h t (active_irq_chip s) (g_idt s) (idtr s) (iflag s) (rest s).
Definition set_chip c s := Intr (irq_handlers s) (timer_ticks s) c (g_idt s) (idtr s) (iflag s) (rest s).
Definition set_idt i s := Intr (irq_handlers s) (timer_ticks s) (active_irq_chip s) i (idtr s) (iflag s) (rest s).
Definition set_idtr r s := Intr (irq_handlers s) (timer_ticks s) (active_irq_chip s) (g_idt s) r (iflag s) (rest s).
Definition set_iflag b s := Intr (irq_handlers s) (timer_ticks s) (active_irq_chip s) (g_idt s) (idtr s) b (rest s).

(** *** [irq_chip_core.c] *)

Definition irq_chip_has_driver (s : interrupts) : bool := match active_irq_chip s with None => false | Some _ => true end.

(** The functions of the table are never null here. *)
Definition irq_chip_register (ops : option (irq_chip_ops D)) (s : interrupts) : Z * interrupts :=
  match ops with
  | None => (-1, s)
  | Some o => if negb (abi o =? SYSTEM_IRQ_CHIP_ABI) then (-1, s) else (0, set_chip (Some o) s)
  end.

Definition on_chip (f : irq_chip_ops D -> D -> D) (s : interrupts) : interrupts :=
  match active_irq_chip s with None => s | Some c => set_rest (f c (rest s)) s end.
Definition irq_chip_remap (first second : Z) : interrupts -> interrupts := on_chip (fun c => remap c first second).
Definition irq_chip_set_default_masks : interrupts -> interrupts := on_chip set_default_masks.
Definition irq_chip_mask_irq (irq : Z) (masked : bool) : interrupts -> interrupts := on_chip (fun c => mask_irq c irq masked).
Definition irq_chip_send_eoi (irq : Z) : interrupts -> interrupts := on_chip (fun c => send_eoi c irq).
Definition irq_chip_init_timer (hz : Z) : interrupts -> interrupts := on_chip (fun c => init_timer c hz).

Definition irq_chip_platform_init (s : interrupts) : interrupts :=
  if negb (irq_chip_has_driver s) then (irq_chip_register (Some pc_irq_chip) s).2 else s.

(** *** [interrupts_common.c] *)

Definition interrupts_common_state_reset (s : interrupts) : interrupts := set_state (replicate (Z.to_nat IRQ_COUNT) None) 0 s.

Definition interrupts_common_timer_irq (s : interrupts) : interrupts := set_state (irq_handlers s) (u64 (timer_ticks s + 1)) s.

Definition call_handler (h : handler) (s : interrupts) : interrupts :=
  match h with TIMER => interrupts_common_timer_irq s | OTHER h => set_rest (run h (rest s)) s end.

Definition handler_of (irq : Z) (s : interrupts) : option handler := default None (irq_handlers s !! Z.to_nat irq).

Definition interrupts_common_dispatch (vector : Z) (s : interrupts) : interrupts :=
  if (vector <? 32) || (48 <=? vector) then s
  else
    let irq := u8 (vector - 32) in
    let s := match handler_of irq s with Some h => call_handler h s | None => s end in
    irq_chip_send_eoi irq s.

(** The loop over the lines of the second controller. *)
Definition has_slave_handler (s : interrupts) : bool :=
  existsb (fun i => match handler_of i s with Some _ => true | None => false end) (seqZ 8 8).

Definition interrupts_common_irq_register_handler (irq : Z) (h : option handler) (s : interrupts) : Z * interrupts :=
  if IRQ_COUNT <=? irq then (-1, s)
  else
    let s := set_state (<[Z.to_nat irq := h]> (irq_handlers s)) (timer_ticks s) s in
    match h with
    | Some _ =>
        let s := irq_chip_mask_irq irq false s in
        (0, if 8 <=? irq then irq_chip_mask_irq 2 false s else s)
    | None =>
        let s := irq_chip_mask_irq irq true s in
        (0, if (8 <=? irq) && negb (has_slave_handler s) then irq_chip_mask_irq 2 true s else s)
    end.

Definition interrupts_common_timer_ticks_get_raw (s : interrupts) : Z := timer_ticks s.

(** *** [arch/i386/modules/interrupts/interrupts.c] *)

(** The assembly stubs, the selector of the running code and where the table is. *)
Variable isr_stub : Z -> Z.
Variables syscall_entry code_selector idt_addr : Z.

Definition idt_gate (handler_addr selector type_attr : Z) : idt_entry :=
  IdtEntry (u16 (Z.land handler_addr 0xFFFF)) selector 0 type_attr (u16 (Z.land (Z.shiftr handler_addr 16) 0xFFFF)).
Definition idt_set_gate (vector handler_addr selector type_attr : Z) (s : interrupts) : interrupts :=
  set_idt (<[Z.to_nat vector := idt_gate handler_addr selector type_attr]> (g_idt s)) s.

Fixpoint set_stubs (n : nat) (i : Z) (s : interrupts) : interrupts :=
  match n with O => s | S n => set_stubs n (i + 1) (idt_set_gate (u8 i) (u32 (isr_stub i)) code_selector 0x8E s) end.

Definition irq_register_handler : Z -> option handler -> interrupts -> Z * interrupts := interrupts_common_irq_register_handler.

Definition interrupts_init (s : interrupts) : interrupts :=
  let s := set_iflag false s in
  let s := set_idt (replicate (Z.to_nat IDT_SIZE) no_gate) s in
  let s := set_stubs 48 0 s in
  let s := idt_set_gate 0x80 (u32 syscall_entry) code_selector 0xEE s in
  let s := set_idtr (u16 (IDT_SIZE * 8 - 1), u32 idt_addr) s in
  let s := interrupts_common_state_reset s in
  let s := irq_chip_remap 0x20 0x28 s in
  let s := irq_chip_set_default_masks s in
  let s := irq_chip_init_timer 100 s in
  (irq_register_handler 0 (Some TIMER) s).2.

(** [None] when the page fault ends the system. *)
Definition interrupts_dispatch (vector : Z) (s : interrupts) : option interrupts :=
  if vector =? 14 then None else Some (interrupts_common_dispatch vector s).

Definition interrupts_enable (s : interrupts) : interrupts := set_iflag true s.
Definition interrupts_disable (s : interrupts) : interrupts := set_iflag false s.

(** The flag is cleared, and set again when it was set. *)
Definition timer_ticks_get (s : interrupts) : Z * interrupts :=
  let flags := iflag s in
  let s := interrupts_disable s in
  let ticks := interrupts_common_timer_ticks_get_raw s in
  (ticks, if flags then interrupts_enable s else s).

End Interrupts.
Arguments handler : clear implicits. Arguments interrupts : clear implicits.
Arguments TIMER {H}. Arguments OTHER {H}.

End Interrupts.

(** * Interrupt lines follow their handlers

    What the 8259 promises, and the state of the lines in every reachable state. *)

Module InterruptsProps.
Import Interrupts.

(** ** The hardware *)

(** The mask register, the position in the initialisation sequence, the first vector, and
    the lines in service. *)
Record pic8259 := Pic { p_imr : Z; p_step : nat; p_base : Z; p_isr : Z }.

(** The start of the sequence, and the end of the interrupt with the highest priority. *)
Definition pic_command (v : Z) (p : pic8259) : pic8259 :=
  if v =? 0x11 then Pic 0 1 (p_base p) 0
  else if v =? 0x20 then Pic (p_imr p) (p_step p) (p_base p) (Z.land (p_isr p) (p_isr p - 1))
  else p.
Definition pic_data (v : Z) (p : pic8259) : pic8259 :=
  match p_step p with
  | O => Pic v 0 (p_base p) (p_isr p)
  | 1%nat => Pic (p_imr p) 2 v (p_isr p)
  | 2%nat => Pic (p_imr p) 3 (p_base p) (p_isr p)
  | _ => Pic (p_imr p) 0 (p_base p) (p_isr p)
  end.

Notation pics := (pic8259 * pic8259)%type.

Definition pics_out (port v : Z) (ps : pics) : pics :=
  if port =? PIC1_CMD then (pic_command v ps.1, ps.2) else if port =? PIC1_DATA then (pic_data v ps.1, ps.2)
  else if port =? PIC2_CMD then (ps.1, pic_command v ps.2) else if port =? PIC2_DATA then (ps.1, pic_data v ps.2)
  else ps.

(** A machine with the two controllers at their ports. *)
Class pic_hardware (D : Type) `{!port_io D} := PicHardware {
  pics_of : D -> pics;
  law_pic_out d port v : pics_of (outb d port v) = pics_out port v (pics_of d);
  law_pic_in d port : pics_of (inb d port).2 = pics_of d;
  law_pic_mask1 d : p_step (pics_of d).1 = O -> (inb d PIC1_DATA).1 = p_imr (pics_of d).1;
  law_pic_mask2 d : p_step (pics_of d).2 = O -> (inb d PIC2_DATA).1 = p_imr (pics_of d).2
}.

(** Whether a line is masked. *)
Definition masked_in (ps : pics) (i : Z) : bool := if i <? 8 then Z.testbit (p_imr ps.1) i else Z.testbit (p_imr ps.2) (i - 8).

(** Initialised as the kernel wants it, and nothing in service. *)
Definition ready (ps : pics) : Prop :=
  p_step ps.1 = O /\ p_step ps.2 = O /\ p_base ps.1 = 32 /\ p_base ps.2 = 40 /\ p_isr ps.1 = 0 /\ p_isr ps.2 = 0.

(** A line is in service, with the second controller on line 2 of the first. *)
Definition in_service (p : pic8259) (i : Z) : pic8259 := Pic (p_imr p) (p_step p) (p_base p) (2 ^ i).
Definition deliver (i : Z) (ps : pics) : pics :=
  if i <? 8 then (in_service ps.1 i, ps.2) else (in_service ps.1 2, in_service ps.2 (i - 8)).

(** The vector the processor gets. *)
Definition vector_of (i : Z) (ps : pics) : Z := if i <? 8 then p_base ps.1 + i else p_base ps.2 + (i - 8).

Section Proofs.
Context {D H : Type} `{!port_io D} `{!pic_hardware D}.
Context (run : H -> D -> D) (Hrun : forall h d, pics_of (run h d) = pics_of d).
#[local] Notation interrupts := (interrupts D H).

(** ** The driver *)

Lemma masked_bit_write value bit (b : bool) j : 0 <= bit < 8 -> 0 <= j < 8 ->
  Z.testbit (if b then u8 (Z.lor value (u8 (Z.shiftl 1 bit))) else u8 (Z.land value (u8 (Z.lnot (Z.shiftl 1 bit))))) j =
  if j =? bit then b else Z.testbit value j.
Proof.
  intros Hb Hj. assert (Z.testbit (Z.shiftl 1 bit) j = (j =? bit)) as Hs.
  { rewrite Z.shiftl_1_l, Z.pow2_bits_eqb by lia. apply Z.eqb_sym. }
  unfold u8. destruct b; rewrite Z.mod_pow2_bits_low by lia.
  - rewrite Z.lor_spec, Z.mod_pow2_bits_low, Hs by lia. by destruct (j =? bit), (Z.testbit value j).
  - rewrite Z.land_spec, Z.mod_pow2_bits_low, Z.lnot_spec, Hs by lia. by destruct (j =? bit), (Z.testbit value j).
Qed.

Lemma set_mask_exact irq b d : 0 <= irq < 16 -> ready (pics_of d) ->
  ready (pics_of (pic_set_mask irq b d)) /\
  forall j, 0 <= j < 16 -> masked_in (pics_of (pic_set_mask irq b d)) j = if j =? irq then b else masked_in (pics_of d) j.
Proof using.
  intros Hi (S1 & S2 & R1 & R2 & R3 & R4). unfold pic_set_mask. pose proof (law_pic_mask1 d S1) as M1. pose proof (law_pic_mask2 d S2) as M2.
  destruct (Z.ltb_spec irq 8) as [Hlt|Hge].
  - pose proof (law_pic_in d PIC1_DATA) as L. destruct (inb d PIC1_DATA) as [v d1]. cbn [fst snd] in *. rewrite law_pic_out, L. subst v.
    cbn [pics_out Z.eqb]. unfold pics_out, pic_data. cbn. rewrite S1. split; [by split_and!|]. intros j Hj. unfold masked_in. cbn [fst snd p_imr].
    destruct (Z.ltb_spec j 8); [apply masked_bit_write; lia|]. by destruct (Z.eqb_spec j irq); [lia|].
  - rewrite (u8_small (irq - 8)) by lia. pose proof (law_pic_in d PIC2_DATA) as L. destruct (inb d PIC2_DATA) as [v d1]. cbn [fst snd] in *. rewrite law_pic_out, L. subst v.
    unfold pics_out, pic_data. cbn. rewrite S2. split; [by split_and!|]. intros j Hj. unfold masked_in. cbn [fst snd p_imr].
    destruct (Z.ltb_spec j 8); [by destruct (Z.eqb_spec j irq); [lia|]|]. rewrite masked_bit_write by lia.
    destruct (Z.eqb_spec (j - 8) (irq - 8)), (Z.eqb_spec j irq); (done || lia).
Qed.

Lemma wait_same d : pics_of (io_wait d) = pics_of d.
Proof using. unfold io_wait. by rewrite law_pic_out. Qed.

Lemma slow_writes_pics ws : forall d, pics_of (slow_writes ws d) = fold_left (fun ps w => pics_out w.1 w.2 ps) ws (pics_of d).
Proof using. induction ws as [|[port v] ws IH]; intros d; [done|]. cbn [slow_writes fold_left fst snd]. by rewrite IH, wait_same, law_pic_out. Qed.

(** After the sequence both controllers have their vectors, and the first three lines of the
    first are open. *)
Lemma init_chip_exact d : let ps := pics_of (pc_pit_init 100 (pc_pic_set_default_masks (pc_pic_remap 0x20 0x28 d))) in
  ready ps /\ p_imr ps.1 = 0xF8 /\ p_imr ps.2 = 0xFF.
Proof using.
  unfold pc_pit_init, pc_pic_set_default_masks, pc_pic_remap. pose proof (law_pic_in d PIC1_DATA) as L1. destruct (inb d PIC1_DATA) as [v1 d1].
  cbn [snd] in L1. pose proof (law_pic_in d1 PIC2_DATA) as L2. destruct (inb d1 PIC2_DATA) as [v2 d2]. cbn [snd] in L2.
  cbv zeta. rewrite !law_pic_out, slow_writes_pics. destruct (pics_of d2) as [[m1 s1 b1 i1] [m2 s2 b2 i2]]. cbn. by split_and!.
Qed.

Lemma eoi_exact i ps d : 0 <= i < 16 -> ready ps -> pics_of d = deliver i ps -> pics_of (pic_send_eoi i d) = ps.
Proof using.
  intros Hi (S1 & S2 & B1 & B2 & I1 & I2) Hd. destruct ps as [[m1 s1 b1 i1] [m2 s2 b2 i2]]. cbn in *. subst.
  assert (forall k, 0 <= k -> Z.land (2 ^ k) (2 ^ k - 1) = 0) as Hk.
  { intros k Hk. replace (2 ^ k - 1) with (Z.ones k) by (rewrite Z.ones_equiv; lia).
    rewrite Z.land_ones by lia. apply Z.mod_same. pose proof (Z.pow_pos_nonneg 2 k ltac:(lia) Hk). lia. }
  unfold pic_send_eoi, deliver in *. destruct (Z.ltb_spec i 8), (Z.leb_spec 8 i); try lia.
  - rewrite law_pic_out, Hd. unfold pics_out, pic_command. cbn -[Z.land Z.pow Z.sub]. by rewrite Hk by lia.
  - rewrite !law_pic_out, Hd. unfold pics_out, pic_command. cbn -[Z.land Z.pow Z.sub]. rewrite !Hk by lia. done.
Qed.

(** ** The lines *)

Definition masked (s : interrupts) (i : Z) : bool := masked_in (pics_of (rest s)) i.

(** A line with a handler is open; line 3 and the following are open only with a handler; the
    line the second controller hangs on is open when that has a handler. *)
Record lines_ok (s : interrupts) : Prop := LinesOk {
  lo_chip : active_irq_chip s = Some pc_irq_chip;
  lo_len : length (irq_handlers s) = 16%nat;
  lo_ready : ready (pics_of (rest s));
  lo_open i : 0 <= i < 16 -> i <> 2 -> handler_of i s <> None -> masked s i = false;
  lo_closed i : 3 <= i < 16 -> masked s i = false -> handler_of i s <> None;
  lo_cascade i : 8 <= i < 16 -> handler_of i s <> None -> masked s 2 = false
}.

Lemma mask_step irq b (s : interrupts) : 0 <= irq < 16 -> active_irq_chip s = Some pc_irq_chip -> ready (pics_of (rest s)) ->
  exists d, irq_chip_mask_irq irq b s = set_rest d s /\ ready (pics_of d) /\
    forall j, 0 <= j < 16 -> masked_in (pics_of d) j = if j =? irq then b else masked s j.
Proof using.
  intros Hi Hc Hr. exists (pic_set_mask irq b (rest s)). split; [unfold irq_chip_mask_irq, on_chip; by rewrite Hc|]. by apply set_mask_exact.
Qed.

Lemma handler_of_insert irq h ticks j (s : interrupts) : length (irq_handlers s) = 16%nat -> 0 <= irq < 16 -> 0 <= j ->
  handler_of j (set_state (<[Z.to_nat irq := h]> (irq_handlers s)) ticks s) = if j =? irq then h else handler_of j s.
Proof.
  intros Hl Hi Hj. unfold handler_of. cbn [irq_handlers set_state]. destruct (Z.eqb_spec j irq) as [->|Hne].
  - by rewrite list_lookup_insert_eq by lia.
  - by rewrite list_lookup_insert_ne by lia.
Qed.

Lemma no_slave_handler (s : interrupts) i : has_slave_handler s = false -> 8 <= i < 16 -> handler_of i s = None.
Proof.
  intros Hs Hi. unfold has_slave_handler in Hs. destruct (handler_of i s) eqn:E; [|done]. exfalso.
  assert (existsb (fun i => match handler_of i s with Some _ => true | None => false end) (seqZ 8 8) = true) as Ht; [|congruence].
  apply existsb_exists. exists i. rewrite E. split; [|done]. apply list_elem_of_In, elem_of_seqZ. lia.
Qed.

(** The lines after handler [irq] became [h] and line 2 got the mask [m2]. *)
Lemma relines irq h m2 (s : interrupts) d :
  lines_ok s -> 0 <= irq < 16 -> irq <> 2 -> ready (pics_of d) -> let s1 := set_state (<[Z.to_nat irq := h]> (irq_handlers s)) (timer_ticks s) s in
  (forall j, 0 <= j < 16 -> masked_in (pics_of d) j = if j =? irq then match h with None => true | Some _ => false end else if j =? 2 then m2 else masked s j) ->
  (forall i, 8 <= i < 16 -> handler_of i s1 <> None -> m2 = false) -> lines_ok (set_rest d s1).
Proof using.
  intros [Hc Hl Hr Ho Hcl Hca] Hi H2 Hrd s1 M Hm2.
  assert (forall j, 0 <= j -> handler_of j s1 = if j =? irq then h else handler_of j s) as Hh by (intros j Hj; by apply handler_of_insert).
  split; [done|cbn; by rewrite length_insert|done|intros i Hi' Hi2 Hx|intros i Hi' Hx|intros i Hi' Hx]; unfold masked in *; cbn [rest set_rest] in *;
    change (handler_of i (set_rest d s1)) with (handler_of i s1) in *.
  - rewrite Hh in Hx by lia. rewrite M by lia. destruct (i =? irq); [by destruct h|]. destruct (Z.eqb_spec i 2); [done|]. by apply Ho.
  - rewrite Hh by lia. rewrite M in Hx by lia. destruct (i =? irq); [by destruct h|]. destruct (Z.eqb_spec i 2); [lia|]. by apply Hcl.
  - rewrite M by lia. destruct (Z.eqb_spec 2 irq); [lia|]. by apply (Hm2 i).
Qed.

Lemma register_ok irq h s : 0 <= irq < 16 -> irq <> 2 -> lines_ok s -> lines_ok (irq_register_handler irq h s).2.
Proof using.
  intros Hi H2 HL. pose proof HL as [Hc Hl Hr Ho Hcl Hca]. unfold irq_register_handler, interrupts_common_irq_register_handler.
  destruct (Z.leb_spec IRQ_COUNT irq) as [Hx|_]; [unfold IRQ_COUNT in Hx; lia|]. cbv zeta. set (s1 := set_state _ _ s).
  assert (forall i, 8 <= i < 16 -> irq < 8 \/ h = None -> handler_of i s1 <> None -> masked s 2 = false) as keep.
  { intros i Hi' Hq. unfold s1. rewrite handler_of_insert by (done || lia). destruct (Z.eqb_spec i irq); [destruct Hq; [lia|by subst h]|]. by apply Hca. }
  assert (forall b d, (forall j, 0 <= j < 16 -> masked_in (pics_of d) j = if j =? irq then b else masked s j) ->
    forall j, 0 <= j < 16 -> masked_in (pics_of d) j = if j =? irq then b else if j =? 2 then masked s 2 else masked s j) as same.
  { intros b d M j Hj. rewrite M by done. destruct (j =? irq); [done|]. by destruct (Z.eqb_spec j 2) as [->|]. }
  assert (forall b d m d2, (forall j, 0 <= j < 16 -> masked_in (pics_of d) j = if j =? irq then b else masked s j) ->
    (forall j, 0 <= j < 16 -> masked_in (pics_of d2) j = if j =? 2 then m else masked_in (pics_of d) j) ->
    forall j, 0 <= j < 16 -> masked_in (pics_of d2) j = if j =? irq then b else if j =? 2 then m else masked s j) as both.
  { intros b d m d2 M M2 j Hj. rewrite M2 by done. destruct (Z.eqb_spec j 2) as [->|]; [by destruct (Z.eqb_spec 2 irq); [lia|]|]. by apply M. }
  destruct h as [h|].
  - destruct (mask_step irq false s1 Hi Hc Hr) as (d & -> & R1 & M1). destruct (Z.leb_spec 8 irq) as [H8|H8]; cbn [snd].
    + destruct (mask_step 2 false (set_rest d s1)) as (d2 & -> & R2 & M2); [lia|done|done|].
      apply (relines irq (Some h) false s d2); try done. by apply (both false d false d2).
    + apply (relines irq (Some h) (masked s 2) s d); try done; [by apply same|]. intros i Hi'. apply keep; [done|by left].
  - destruct (mask_step irq true s1 Hi Hc Hr) as (d & -> & R1 & M1). destruct ((8 <=? irq) && negb (has_slave_handler (set_rest d s1))) eqn:Es; cbn [snd].
    + apply andb_true_iff in Es as [H8 Hs]. apply negb_true_iff in Hs.
      destruct (mask_step 2 true (set_rest d s1)) as (d2 & -> & R2 & M2); [lia|done|done|].
      apply (relines irq None true s d2); try done; [by apply (both true d true d2)|]. intros i Hi' Hx. destruct Hx. exact (no_slave_handler _ i Hs Hi').
    + apply (relines irq None (masked s 2) s d); try done; [by apply same|]. intros i Hi'. apply keep; [done|by right].
Qed.

(** ** Reachable states *)

Context (isr_stub : Z -> Z) (syscall_entry code_selector idt_addr : Z).
#[local] Notation init := (interrupts_init isr_stub syscall_entry code_selector idt_addr).

Lemma default_masks i : 3 <= i < 16 -> (if i <? 8 then Z.testbit 0xF8 i else Z.testbit 0xFF (i - 8)) = true.
Proof.
  intros Hi. assert (i = 3 \/ i = 4 \/ i = 5 \/ i = 6 \/ i = 7 \/ i = 8 \/ i = 9 \/ i = 10 \/ i = 11 \/ i = 12 \/ i = 13 \/ i = 14 \/ i = 15) as Hx by lia.
  by destruct_or! Hx; subst i.
Qed.

Lemma set_stubs_idt n : forall i (s : interrupts), exists t, set_stubs isr_stub code_selector n i s = set_idt t s.
Proof. induction n as [|n IH]; intros i s; [exists (g_idt s); by destruct s|]. cbn [set_stubs]. destruct (IH (i + 1) (idt_set_gate (u8 i) (u32 (isr_stub i)) code_selector 142 s)) as [t ->]. by exists t. Qed.

Lemma lines_init_ok s : active_irq_chip s = Some pc_irq_chip -> lines_ok (init s).
Proof using.
  intros Hc. unfold interrupts_init. cbv zeta. destruct (set_stubs_idt 48 0 (set_idt (replicate (Z.to_nat IDT_SIZE) no_gate) (set_iflag false s))) as [t ->].
  apply register_ok; [lia|lia|]. destruct s as [hs ticks c idt r f d]. cbn [active_irq_chip] in Hc. subst c.
  destruct (init_chip_exact d) as (R & M1 & M2). set (s := irq_chip_init_timer _ _).
  assert (rest s = pc_pit_init 100 (pc_pic_set_default_masks (pc_pic_remap 0x20 0x28 d))) as Hs by reflexivity. rewrite <- Hs in R, M1, M2.
  assert (forall i, handler_of i s = None) as Hn.
  { intros i. change (handler_of i s) with (default None (replicate (A := option (handler H)) (Z.to_nat IRQ_COUNT) None !! Z.to_nat i)).
    destruct (replicate _ _ !! _) eqn:E; [|done]. by apply lookup_replicate in E as [-> _]. }
  split; [reflexivity|reflexivity|exact R|intros i Hi Hi2 Hx; destruct Hx; exact (Hn i)|intros i Hi Hx|intros i Hi Hx; destruct Hx; exact (Hn i)].
  exfalso. unfold masked, masked_in in Hx. rewrite M1, M2, default_masks in Hx by done. done.
Qed.

(** What happens after the start: handlers come and go, an open line interrupts while
    interrupts are enabled, and everything else, which leaves the controllers alone. *)
Inductive step (s : interrupts) : interrupts -> Prop :=
| step_register irq h : 0 <= irq < 16 -> irq <> 2 -> step s (irq_register_handler irq h s).2
| step_irq i d s' : 0 <= i < 16 -> i <> 2 -> iflag s = true -> masked s i = false -> (8 <= i -> masked s 2 = false) ->
    pics_of d = deliver i (pics_of (rest s)) -> interrupts_dispatch run (vector_of i (pics_of (rest s))) (set_rest d s) = Some s' -> step s s'
| step_flag b : step s (set_iflag b s)
| step_other d : pics_of d = pics_of (rest s) -> step s (set_rest d s).

Lemma dispatch_exact i d s : lines_ok s -> 0 <= i < 16 -> pics_of d = deliver i (pics_of (rest s)) ->
  exists d', interrupts_dispatch run (vector_of i (pics_of (rest s))) (set_rest d s) =
      Some (set_rest d' (match handler_of i s with Some TIMER => interrupts_common_timer_irq s | _ => s end)) /\
    pics_of d' = pics_of (rest s) /\ d' = pic_send_eoi i (match handler_of i s with Some (OTHER h) => run h d | _ => d end).
Proof using Hrun.
  intros [Hc Hl Hr _ _ _] Hi Hd. assert (vector_of i (pics_of (rest s)) = 32 + i) as ->.
  { unfold vector_of. destruct Hr as (_ & _ & -> & -> & _). destruct (i <? 8); lia. }
  eexists. split_and!; [| |reflexivity].
  - unfold interrupts_dispatch, interrupts_common_dispatch. destruct (Z.eqb_spec (32 + i) 14); [lia|].
    destruct (Z.ltb_spec (32 + i) 32), (Z.leb_spec 48 (32 + i)); try lia. cbn [orb]. cbv zeta. replace (32 + i - 32) with i by lia. rewrite u8_small by lia.
    change (handler_of i (set_rest d s)) with (handler_of i s). unfold irq_chip_send_eoi, on_chip.
    destruct (handler_of i s) as [[|h]|]; cbn; by rewrite Hc.
  - apply eoi_exact; [done|done|]. destruct (handler_of i s) as [[|h]|]; [done| |done]. by rewrite Hrun.
Qed.

Lemma lines_ok_frame s s' : lines_ok s -> active_irq_chip s' = active_irq_chip s -> irq_handlers s' = irq_handlers s ->
  pics_of (rest s') = pics_of (rest s) -> lines_ok s'.
Proof using.
  intros [Hc Hl Hr Ho Hcl Hca] E1 E2 E3.
  split; unfold masked, handler_of in *; rewrite ?E1, ?E2, ?E3; auto.
Qed.

Lemma step_ok s s' : step s s' -> lines_ok s -> lines_ok s'.
Proof using Hrun.
  intros Hs HL. destruct Hs as [irq h Hi H2|i d s' Hi H2 _ _ _ Hd E|b|d Hd].
  - by apply register_ok.
  - destruct (dispatch_exact i d s HL Hi Hd) as (d' & E' & P' & _). rewrite E in E'. injection E' as ->.
    apply (lines_ok_frame s); [done|..|done]; by destruct (handler_of i s) as [[]|].
  - by apply (lines_ok_frame s).
  - by apply (lines_ok_frame s).
Qed.

(** C33: interrupt lines follow their handlers.  Start the interrupts on a machine with two
    8259 controllers; let then handlers be set and removed, on any line but 2, and open
    lines interrupt.  In every state reached, a line with a handler is open; of the lines
    from 3 on, those without a handler are masked; line 2 is open whenever a line of the
    second controller has a handler; and nothing is left in service.  When line [i]
    interrupts, the processor gets vector 32 + [i], its handler and no other runs, once, and
    the interrupt is acknowledged at the controllers it came through. *)
Theorem irq_lines_follow_handlers s0 s :
  active_irq_chip s0 = Some pc_irq_chip -> rtc step (init s0) s ->
  (forall i, 0 <= i < 16 -> i <> 2 -> handler_of i s <> None -> masked s i = false) /\
  (forall i, 3 <= i < 16 -> masked s i = false -> handler_of i s <> None) /\
  (forall i, 8 <= i < 16 -> handler_of i s <> None -> masked s 2 = false) /\
  p_isr (pics_of (rest s)).1 = 0 /\ p_isr (pics_of (rest s)).2 = 0 /\
  forall i d, 0 <= i < 16 -> pics_of d = deliver i (pics_of (rest s)) ->
    exists s', interrupts_dispatch run (32 + i) (set_rest d s) = Some s' /\ vector_of i (pics_of (rest s)) = 32 + i /\
      pics_of (rest s') = pics_of (rest s) /\ irq_handlers s' = irq_handlers s /\
      timer_ticks s' = (match handler_of i s with Some TIMER => u64 (timer_ticks s + 1) | _ => timer_ticks s end) /\
      rest s' = pic_send_eoi i (match handler_of i s with Some (OTHER h) => run h d | _ => d end).
Proof using Hrun.
  intros Hc Hs. assert (lines_ok s) as HL.
  { pose proof (lines_init_ok s0 Hc) as H0. induction Hs as [s|s s1 s2 H1 _ IH]; [done|]. by apply IH, (step_ok s). }
  pose proof HL as [_ _ Hr Ho Hcl Hca]. split_and!; [done|done|done|by destruct Hr as (_ & _ & _ & _ & ? & _)|by destruct Hr as (_ & _ & _ & _ & _ & ?)|].
  intros i d Hi Hd. destruct (dispatch_exact i d s HL Hi Hd) as (d' & E & P & ->).
  assert (vector_of i (pics_of (rest s)) = 32 + i) as Hv by (unfold vector_of; destruct Hr as (_ & _ & -> & -> & _); destruct (i <? 8); lia).
  rewrite Hv in E. eexists. split; [exact E|]. split_and!; [done|done|..|done]; by destruct (handler_of i s) as [[]|].
Qed.

(** ** The interrupt table *)

(** The address a gate leads to. *)
Definition gate_offset (e : idt_entry) : Z := offset_low e + 65536 * offset_high e.

Lemma gate_offset_exact a sel attr : 0 <= a < 2 ^ 32 -> gate_offset (idt_gate a sel attr) = a.
Proof.
  intros Ha. unfold gate_offset, idt_gate. cbn [offset_low offset_high]. change 0xFFFF with (Z.ones 16). rewrite !Z.land_ones, Z.shiftr_div_pow2 by lia.
  unfold u16. change (2 ^ 16) with 65536. rewrite !Z.mod_mod by lia. rewrite (Z.mod_small (a / 65536)); [pose proof (Z.div_mod a 65536 ltac:(lia)); lia|].
  split; [apply Z.div_pos; lia|apply Z.div_lt_upper_bound; lia].
Qed.

Lemma set_stubs_gates n : forall i (s : interrupts) v, 0 <= i -> i + Z.of_nat n <= 256 -> 0 <= v -> length (g_idt s) = 256%nat ->
  g_idt (set_stubs isr_stub code_selector n i s) !! Z.to_nat v =
    if (i <=? v) && (v <? i + Z.of_nat n) then Some (idt_gate (u32 (isr_stub v)) code_selector 0x8E) else g_idt s !! Z.to_nat v.
Proof.
  induction n as [|n IH]; intros i s v Hi Hn Hv Hl; cbn [set_stubs]; [by destruct (Z.leb_spec i v), (Z.ltb_spec v (i + Z.of_nat 0)); try lia|].
  rewrite IH; [|lia|lia|lia|cbn; by rewrite length_insert]. cbn [idt_set_gate set_idt g_idt]. rewrite u8_small by lia.
  destruct (Z.eq_dec v i) as [->|Hne].
  - destruct (Z.leb_spec (i + 1) i), (Z.leb_spec i i), (Z.ltb_spec i (i + Z.of_nat (S n))); try lia. cbn [andb]. by rewrite list_lookup_insert_eq by lia.
  - rewrite list_lookup_insert_ne by lia. destruct (Z.leb_spec (i + 1) v), (Z.leb_spec i v), (Z.ltb_spec v (i + 1 + Z.of_nat n)), (Z.ltb_spec v (i + Z.of_nat (S n))); (done || lia).
Qed.

Lemma set_stubs_length n : forall i (s : interrupts), length (g_idt (set_stubs isr_stub code_selector n i s)) = length (g_idt s).
Proof. induction n as [|n IH]; intros i s; [done|]. cbn [set_stubs]. rewrite IH. cbn. by rewrite length_insert. Qed.

Lemma on_chip_idt (f : irq_chip_ops D -> D -> D) (s : interrupts) : g_idt (on_chip f s) = g_idt s.
Proof. unfold on_chip. by destruct (active_irq_chip s). Qed.

Lemma register_idt irq h (s : interrupts) : g_idt (irq_register_handler irq h s).2 = g_idt s.
Proof.
  unfold irq_register_handler, interrupts_common_irq_register_handler. destruct (_ <=? irq); [done|].
  destruct h; cbn [snd]; case_match; unfold irq_chip_mask_irq; by rewrite ?on_chip_idt.
Qed.

(** The first 48 vectors lead to the stubs and only kernel code may raise them, 0x80 leads to
    the system calls and programs may raise it, and no other vector is present. *)
Lemma interrupt_table_exact (s : interrupts) v : 0 <= v < 256 ->
  g_idt (init s) !! Z.to_nat v = Some (if v <? 48 then idt_gate (u32 (isr_stub v)) code_selector 0x8E
                                       else if v =? 0x80 then idt_gate (u32 syscall_entry) code_selector 0xEE else no_gate).
Proof.
  intros Hv. unfold interrupts_init. cbv zeta. rewrite register_idt. unfold irq_chip_init_timer, irq_chip_set_default_masks, irq_chip_remap.
  rewrite !on_chip_idt. set (s1 := set_idt _ (set_iflag false s)). cbn [interrupts_common_state_reset set_state set_idtr g_idt idt_set_gate set_idt].
  assert (length (g_idt s1) = 256%nat) as Hl by apply length_replicate.
  assert (length (g_idt (set_stubs isr_stub code_selector 48 0 s1)) = 256%nat) as Hl2 by (by rewrite set_stubs_length).
  destruct (Z.eqb_spec v 0x80) as [->|Hne]; [by rewrite list_lookup_insert_eq by lia|]. rewrite list_lookup_insert_ne by lia.
  rewrite set_stubs_gates by (done || lia). change (0 + Z.of_nat 48) with 48. destruct (Z.leb_spec 0 v); [|lia]. cbn [andb].
  destruct (v <? 48); [done|]. unfold s1. cbn [g_idt set_idt]. apply lookup_replicate. split; [done|]. unfold IDT_SIZE. lia.
Qed.

End Proofs.

(** ** Two controllers and nothing else *)

#[local] Instance bare_io : port_io pics := PortIO _
  (fun d port => (if port =? PIC1_DATA then p_imr d.1 else if port =? PIC2_DATA then p_imr d.2 else 0, d))
  (fun d port v => pics_out port v d).

#[local, program] Instance bare_pics : pic_hardware pics := {| pics_of d := d |}.
Next Obligation. done. Qed.
Next Obligation. done. Qed.
Next Obligation. done. Qed.
Next Obligation. done. Qed.

#[local] Notation cold := (Intr (H := unit) [] 0 (Some pc_irq_chip) [] (0, 0) true (Pic 0 0 0 0, Pic 0 0 0 0)).
#[local] Notation warm := (interrupts_init (fun i => 0x1000 + i) 0x2000 8 0x3000 cold).
#[local] Notation with_mouse := (irq_register_handler 12 (Some (OTHER tt)) warm).2.

(** With a handler on line 12. *)
Lemma irq_lines_follow_handlers_witness : masked with_mouse 12 = false /\ masked with_mouse 2 = false /\ masked with_mouse 11 = true.
Proof.
  destruct (irq_lines_follow_handlers (fun (_ : unit) d => d) (fun _ _ => eq_refl) (fun i => 0x1000 + i) 0x2000 8 0x3000 cold with_mouse)
    as (Ho & _ & Hc & _).
  - reflexivity.
  - apply rtc_once. apply step_register; lia.
  - split_and!; [apply Ho; [lia|lia|discriminate]|apply (Hc 12); [lia|discriminate]|reflexivity].
Defined.

End InterruptsProps.

(** * The clock and the serial port

    [modules/pc/cmos.c] and [modules/pc/com1.c], the two drivers that exist only as loadable
    modules.  The hardware answers port accesses ([port_io]); the entry points get the
    registration function of the module interface. *)

Import Ports.

Module PcDrivers.

(** [smod_clock_time_t]. *)
Record clock_time := ClockTime { year : Z; month : Z; day : Z; hour : Z; minute : Z; second : Z }.

Definition CMOS_TRIES : nat := Z.to_nat 100000.
Definition UART_TRIES : nat := Z.to_nat 50000.
Definition COM1 : Z := 0x3F8.

Section Drivers.
Context {D : Type} `{!port_io D}.

(** ** [cmos.c] *)

Definition cmos_reg (index : Z) (d : D) : Z * D := inb (outb d 0x70 index) 0x71.

Definition cmos_decimal (n : Z) : Z := u8 (Z.land n 0x0F + Z.shiftr n 4 * 10).

(** Whether the update ended in time. *)
Fixpoint cmos_wait (tries : nat) (d : D) : bool * D :=
  match tries with
  | O => (false, d)
  | S tries => let '(a, d) := cmos_reg 0x0A d in if Z.land a 0x80 =? 0 then (true, d) else cmos_wait tries d
  end.

(** The hour in a clock of 24 hours. *)
Definition full_hour (hour : Z) : Z :=
  let pm := u8 (Z.land hour 0x80) in
  let hour := u8 (Z.land hour 0x7F) in
  let hour := if hour =? 12 then 0 else hour in
  if negb (pm =? 0) then u8 (hour + 12) else hour.

Definition cmos_read_clock (d : D) : option clock_time * D :=
  let '(ready, d) := cmos_wait CMOS_TRIES d in
  if negb ready then (None, d)
  else
    let '(sec, d) := cmos_reg 0 d in
    let '(min, d) := cmos_reg 2 d in
    let '(hour, d) := cmos_reg 4 d in
    let '(day, d) := cmos_reg 7 d in
    let '(month, d) := cmos_reg 8 d in
    let '(year, d) := cmos_reg 9 d in
    let '(century, d) := cmos_reg 0x32 d in
    let '(status, d) := cmos_reg 0x0B d in
    let '(a, d) := cmos_reg 0x0A d in
    if negb (Z.land a 0x80 =? 0) then (None, d)
    else
      let decimal n := if Z.land status 4 =? 0 then cmos_decimal n else n in
      let sec := decimal sec in
      let min := decimal min in
      let hour := if Z.land status 4 =? 0 then u8 (Z.lor (Z.land hour 0x80) (cmos_decimal (u8 (Z.land hour 0x7F)))) else hour in
      let day := decimal day in
      let month := decimal month in
      let year := decimal year in
      let century := decimal century in
      let hour := if Z.land status 2 =? 0 then full_hour hour else hour in
      if (59 <? sec) || (59 <? min) || (23 <? hour) || (day =? 0) || (31 <? day) || (month =? 0) || (12 <? month) then (None, d)
      else (Some (ClockTime (u16 ((if (19 <=? century) && (century <=? 21) then century * 100 else 2000) + year)) month day hour min sec), d).

(** The part of [smod_api_v3_t] an entry point uses: the version and the registration
    function, each pointer possibly null. *)
Record smod_api := SmodApi { abi_version : Z; register_driver : option (D -> Z * D) }.

(** The function to register with, when the interface is of version 3 ([SMOD_API_VERSION]). *)
Definition usable_api (api : option smod_api) : option (D -> Z * D) :=
  match api with
  | None => None
  | Some a => if negb (abi_version a =? 3) then None else register_driver a
  end.

(** [smod_entry] of [cmos.c]. *)
Definition cmos_entry (api : option smod_api) (d : D) : Z * D :=
  match usable_api api with
  | None => (-1, d)
  | Some register_rtc =>
      let '(now, d) := cmos_read_clock d in
      match now with None => (-1, d) | Some _ => register_rtc d end
  end.

(** ** [com1.c] *)

Fixpoint uart_send (tries : nat) (byte : Z) (d : D) : D :=
  match tries with
  | O => d
  | S tries =>
      let '(lsr, d) := inb d (COM1 + 5) in
      if negb (Z.land lsr 0x20 =? 0) then outb d COM1 (u8 byte) else uart_send tries byte d
  end.

Definition uart_write_byte (byte : Z) (d : D) : D :=
  let d := if byte =? 10 then uart_send UART_TRIES 13 d else d in
  uart_send UART_TRIES byte d.

(** [smod_entry] of [com1.c]. *)
Definition com1_entry (api : option smod_api) (d : D) : Z * D :=
  match usable_api api with
  | None => (-1, d)
  | Some register_uart =>
      let '(saved, d) := inb d (COM1 + 7) in
      let d := outb d (COM1 + 7) 0x5A in
      let '(probe, d) := inb d (COM1 + 7) in
      if negb (probe =? 0x5A) then (-1, outb d (COM1 + 7) saved)
      else
        let d := outb d (COM1 + 7) saved in
        let d := outb d (COM1 + 1) 0 in
        let d := outb d (COM1 + 3) 0x80 in
        let d := outb d (COM1 + 0) 3 in
        let d := outb d (COM1 + 1) 0 in
        let d := outb d (COM1 + 3) 3 in
        let d := outb d (COM1 + 2) 7 in
        let d := outb d (COM1 + 4) 3 in
        let '(rc, d) := register_uart d in
        (if negb (rc =? 0) then -1 else 0, d)
  end.

End Drivers.

End PcDrivers.

(** * The clock is read as it is set

    Against the format of the MC146818: decimal digits or binary numbers, 12 or 24 hours. *)

Module PcDriversProps.
Import PcDrivers.

(** ** The hardware *)

(** The date and time, how they are shown, the register selected by the last write, and how
    often the update bit is still seen. *)
Record rtc := Rtc { r_time : clock_time; r_binary : bool; r_24 : bool; r_index : Z; r_busy : nat }.

Definition valid_time (t : clock_time) : Prop :=
  1900 <= year t < 2200 /\ 1 <= month t <= 12 /\ 1 <= day t <= 31 /\ 0 <= hour t < 24 /\ 0 <= minute t < 60 /\ 0 <= second t < 60.

(** Two decimal digits. *)
Definition bcd (n : Z) : Z := n / 10 * 16 + n mod 10.
Definition shown (c : rtc) (n : Z) : Z := if r_binary c then n else bcd n.

(** The hour; with 12 hours they are 12, 1, ..., 11, and bit 7 says that it is afternoon. *)
Definition shown_hour (c : rtc) : Z :=
  let h := hour (r_time c) in
  if r_24 c then shown c h
  else shown c (if h mod 12 =? 0 then 12 else h mod 12) + (if h <? 12 then 0 else 0x80).

Definition register_of (c : rtc) (i : Z) : Z :=
  let t := r_time c in
  if i =? 0 then shown c (second t) else if i =? 2 then shown c (minute t) else if i =? 4 then shown_hour c
  else if i =? 7 then shown c (day t) else if i =? 8 then shown c (month t) else if i =? 9 then shown c (year t mod 100)
  else if i =? 0x32 then shown c (year t / 100)
  else if i =? 0x0B then (if r_binary c then 4 else 0) + (if r_24 c then 2 else 0)
  else 0.

Definition select (i : Z) (c : rtc) : rtc := Rtc (r_time c) (r_binary c) (r_24 c) i (r_busy c).

(** A machine with such a clock, whose updates end while the driver waits. *)
Class mc146818 (D : Type) `{!port_io D} := Mc146818 {
  rtc_of : D -> rtc;
  law_select d i : rtc_of (outb d 0x70 i) = select i (rtc_of d);
  law_register d : r_index (rtc_of d) <> 0x0A -> (inb d 0x71).1 = register_of (rtc_of d) (r_index (rtc_of d)) /\ rtc_of (inb d 0x71).2 = rtc_of d;
  law_status d : r_index (rtc_of d) = 0x0A ->
    match r_busy (rtc_of d) with
    | O => Z.land (inb d 0x71).1 0x80 = 0 /\ rtc_of (inb d 0x71).2 = rtc_of d
    | S n => Z.land (inb d 0x71).1 0x80 <> 0 /\
             rtc_of (inb d 0x71).2 = Rtc (r_time (rtc_of d)) (r_binary (rtc_of d)) (r_24 (rtc_of d)) 0x0A n
    end
}.

Section Proofs.
Context {D : Type} `{!port_io D} `{!mc146818 D}.

Lemma decimal_bcd n : 0 <= n < 100 -> cmos_decimal (bcd n) = n.
Proof.
  intros Hn. unfold cmos_decimal, bcd. change 0x0F with (Z.ones 4). rewrite Z.land_ones, Z.shiftr_div_pow2 by lia. change (2 ^ 4) with 16.
  rewrite u8_small; Z.to_euclidean_division_equations; lia.
Qed.

Lemma bcd_range n : 0 <= n < 100 -> 0 <= bcd n < 160.
Proof. intros Hn. unfold bcd. Z.to_euclidean_division_equations; lia. Qed.

(** Everything but the selected register is that of [c]. *)
Definition same_clock (c : rtc) (d : D) : Prop := exists i, rtc_of d = select i c.

Lemma cmos_reg_value c d i : same_clock c d -> i <> 0x0A ->
  exists d', cmos_reg i d = (register_of c i, d') /\ same_clock c d'.
Proof.
  intros [j Hj] Hi. unfold cmos_reg. destruct (law_register (outb d 0x70 i)) as [H1 H2]; rewrite law_select, Hj in *; [exact Hi|].
  destruct (inb (outb d 0x70 i) 0x71) as [v d']. exists d'. cbn [fst snd] in *. subst v. split; [reflexivity|]. now exists i.
Qed.

(** The wait ends when the update ends; afterwards the bit stays clear. *)
Lemma cmos_wait_ends tries d : (r_busy (rtc_of d) < tries)%nat ->
  exists d', cmos_wait tries d = (true, d') /\
    rtc_of d' = Rtc (r_time (rtc_of d)) (r_binary (rtc_of d)) (r_24 (rtc_of d)) 0x0A 0.
Proof.
  revert d. induction tries as [|tries IH]; intros d Hb; [lia|]. cbn [cmos_wait]. unfold cmos_reg.
  pose proof (law_status (outb d 0x70 0x0A)) as H. rewrite law_select in H. specialize (H eq_refl).
  cbn [select r_busy r_time r_binary r_24] in H. destruct (inb (outb d 0x70 0x0A) 0x71) as [v d']. cbn [fst snd] in H.
  destruct (r_busy (rtc_of d)) as [|n] eqn:E; destruct H as [Hv Hd].
  - rewrite Hv. exists d'. rewrite Hd. unfold select. now rewrite E.
  - rewrite (proj2 (Z.eqb_neq _ _) Hv). destruct (IH d') as (d2 & H2 & R2); [rewrite Hd; cbn; lia|].
    exists d2. rewrite H2, R2, Hd. now split.
Qed.

Lemma cmos_idle c d : same_clock c d -> r_busy c = 0%nat ->
  exists a d', cmos_reg 0x0A d = (a, d') /\ Z.land a 0x80 = 0.
Proof.
  intros [j Hj] Hb. unfold cmos_reg. pose proof (law_status (outb d 0x70 0x0A)) as H. rewrite law_select, Hj in H. specialize (H eq_refl).
  cbn [select r_busy] in H. rewrite Hb in H. destruct (inb (outb d 0x70 0x0A) 0x71) as [v d']. exists v, d'. split; [reflexivity|]. apply H.
Qed.

(** The status byte says how the numbers are shown. *)
Lemma status_bits c : let s := register_of c 0x0B in
  (Z.land s 4 =? 0) = negb (r_binary c) /\ (Z.land s 2 =? 0) = negb (r_24 c).
Proof. unfold register_of. cbn. now destruct (r_binary c), (r_24 c). Qed.

Lemma shown_back c n : 0 <= n < 100 -> (if negb (r_binary c) then cmos_decimal (shown c n) else shown c n) = n.
Proof. intros Hn. unfold shown. destruct (r_binary c); cbn [negb]; [reflexivity|]. now apply decimal_bcd. Qed.

Lemma hour_back c : 0 <= hour (r_time c) < 24 ->
  let h := shown_hour c in
  let h := if negb (r_binary c) then u8 (Z.lor (Z.land h 0x80) (cmos_decimal (u8 (Z.land h 0x7F)))) else h in
  (if negb (r_24 c) then full_hour h else h) = hour (r_time c).
Proof.
  unfold shown_hour, shown. generalize (hour (r_time c)). intros h Hh.
  assert (Hin : In h (seqZ 0 24)) by (apply list_elem_of_In, elem_of_seqZ; lia).
  clear Hh. revert h Hin. apply List.Forall_forall. destruct (r_binary c), (r_24 c); repeat constructor.
Qed.

Ltac read_register H :=
  let R := fresh "S" in
  match goal with
  | |- context [let '(_, _) := cmos_reg ?i ?x in _] =>
      destruct (cmos_reg_value _ x i H) as (? & -> & R); [lia|]; clear H; rename R into H
  end.

(** Whatever the format, the clock is read as it is set, when its update ends within the tries. *)
Theorem clock_read_as_set d : valid_time (r_time (rtc_of d)) -> (r_busy (rtc_of d) < CMOS_TRIES)%nat ->
  (cmos_read_clock d).1 = Some (r_time (rtc_of d)).
Proof.
  intros Hv Hb. unfold cmos_read_clock. destruct (cmos_wait_ends CMOS_TRIES d Hb) as (d0 & -> & R0). cbn [negb].
  pose proof (f_equal r_busy R0) as B0. pose proof (f_equal r_time R0) as T0. cbn in B0, T0. rewrite <- T0 in *. clear T0 Hb R0 d.
  remember (rtc_of d0) as c eqn:Hc. assert (S : same_clock c d0) by (exists (r_index c); rewrite <- Hc; now destruct c). clear Hc.
  do 8 read_register S. destruct (cmos_idle _ _ S B0) as (a & d' & -> & ->). cbn [negb Z.eqb].
  destruct (status_bits c) as [-> ->]. destruct Hv as (Hy & Hmo & Hd & Hh & Hmi & Hs).
  pose proof (hour_back c Hh) as EH. cbv zeta in EH. unfold register_of; cbn [Z.eqb Pos.eqb]. rewrite EH.
  rewrite !shown_back by (Z.to_euclidean_division_equations; lia).
  destruct (r_time c) as [y mo dd hh mi ss]; cbn [year month day hour minute second] in *.
  repeat match goal with |- context [?x <? ?y] => rewrite (proj2 (Z.ltb_ge x y)) by lia end.
  rewrite !(proj2 (Z.eqb_neq _ _)) by lia. cbn [orb fst].
  rewrite !(proj2 (Z.leb_le _ _)) by (Z.to_euclidean_division_equations; lia). cbn [andb].
  rewrite u16_small; f_equal; [f_equal|]; Z.to_euclidean_division_equations; lia.
Qed.
End Proofs.

(** ** A clock alone is such a machine *)

#[local] Instance clock_ports : port_io rtc := {|
  inb c _ := if r_index c =? 0x0A
             then match r_busy c with O => (0, c) | S n => (0x80, Rtc (r_time c) (r_binary c) (r_24 c) 0x0A n) end
             else (register_of c (r_index c), c);
  outb c port v := if port =? 0x70 then select v c else c
|}.

#[local] Instance clock_is_mc146818 : mc146818 rtc.
Proof.
  refine (Mc146818 rtc _ (fun c => c) _ _ _).
  - reflexivity.
  - intros c Hi. cbn. now rewrite (proj2 (Z.eqb_neq _ _) Hi).
  - intros c Hi. cbn. rewrite (proj2 (Z.eqb_eq _ _) Hi). destruct (r_busy c); [now split|]. now split.
Defined.

(** Half past eleven in the evening of a leap day, in decimal digits and 12 hours, after two
    reads that still see the update. *)
Example late_evening : (cmos_read_clock (Rtc (ClockTime 2024 2 29 23 30 5) false false 0 2)).1 = Some (ClockTime 2024 2 29 23 30 5).
Proof.
  refine (clock_read_as_set (D := rtc) (Rtc (ClockTime 2024 2 29 23 30 5) false false 0 2) _ _).
  - unfold valid_time. cbn. lia.
  - unfold CMOS_TRIES. cbn [rtc_of clock_is_mc146818 r_busy]. lia.
Qed.
End PcDriversProps.
