(* ===== verification/Ps2.v ===== *)
(** * The PS/2 keyboard driver

    [drivers/pc/ps2_core.c]: the ring buffer between the interrupt handler and
    the readers, the LED protocol, and the scancode state machine.  The two I/O
    ports are hardware and enter as an instance of [port_io]. *)

From S2P Require Import Prelude Ports.
From stdpp Require Import base list option list_numbers.
From Stdlib Require Import ZArith Lia ZifyBool.
Open Scope Z_scope.

Module Ps2.
Import Ports.
Export Keys.

(** ** Constants *)

Definition KEY_BUFFER_SIZE : Z := 64.
Definition KBD_DATA_PORT : Z := 0x60.
Definition KBD_STATUS_PORT : Z := 0x64.
Definition KBD_STATUS_IBF : Z := 0x02.
Definition KBD_STATUS_OBF : Z := 0x01.
Definition KBD_CMD_SET_LEDS : Z := 0xED.
Definition KBD_ACK : Z := 0xFA.
Definition KBD_IO_TIMEOUT : Z := 65535.

(** ** State *)

(** The key queue: [key_buffer], [key_head], [key_tail]. *)
Record queue := Queue { key_buffer : list Z; key_head : Z; key_tail : Z }.

Record ps2 := MkPs2 {
  q : queue;
  shift_pressed : Z;
  ctrl_pressed : Z;
  alt_pressed : Z;
  capslock_on : Z;
  numlock_on : Z;
  extended_prefix : Z;
  poll_fallback_enabled : Z
}.

Definition set_q (v : queue) (s : ps2) : ps2 :=
  MkPs2 v (shift_pressed s) (ctrl_pressed s) (alt_pressed s) (capslock_on s) (numlock_on s)
    (extended_prefix s) (poll_fallback_enabled s).
Definition set_shift (v : Z) (s : ps2) : ps2 :=
  MkPs2 (q s) v (ctrl_pressed s) (alt_pressed s) (capslock_on s) (numlock_on s)
    (extended_prefix s) (poll_fallback_enabled s).
Definition set_ctrl (v : Z) (s : ps2) : ps2 :=
  MkPs2 (q s) (shift_pressed s) v (alt_pressed s) (capslock_on s) (numlock_on s)
    (extended_prefix s) (poll_fallback_enabled s).
Definition set_alt (v : Z) (s : ps2) : ps2 :=
  MkPs2 (q s) (shift_pressed s) (ctrl_pressed s) v (capslock_on s) (numlock_on s)
    (extended_prefix s) (poll_fallback_enabled s).
Definition set_caps (v : Z) (s : ps2) : ps2 :=
  MkPs2 (q s) (shift_pressed s) (ctrl_pressed s) (alt_pressed s) v (numlock_on s)
    (extended_prefix s) (poll_fallback_enabled s).
Definition set_num (v : Z) (s : ps2) : ps2 :=
  MkPs2 (q s) (shift_pressed s) (ctrl_pressed s) (alt_pressed s) (capslock_on s) v
    (extended_prefix s) (poll_fallback_enabled s).
Definition set_ext (v : Z) (s : ps2) : ps2 :=
  MkPs2 (q s) (shift_pressed s) (ctrl_pressed s) (alt_pressed s) (capslock_on s) (numlock_on s)
    v (poll_fallback_enabled s).
Definition set_poll (v : Z) (s : ps2) : ps2 :=
  MkPs2 (q s) (shift_pressed s) (ctrl_pressed s) (alt_pressed s) (capslock_on s) (numlock_on s)
    (extended_prefix s) v.

(** ** The ring buffer *)

Definition next_index (i : Z) : Z := u8 (Z.land (i + 1) (KEY_BUFFER_SIZE - 1)).

Definition queue_push (key : Z) (k : queue) : queue :=
  let next := next_index (key_head k) in
  if next =? key_tail k then k
  else Queue (<[Z.to_nat (key_head k) := key]> (key_buffer k)) next (key_tail k).

(** [queue_pop] in the two halves an interrupt can separate: reading the slot
    and advancing the tail. *)
Definition pop_read (k : queue) : option Z :=
  if key_head k =? key_tail k then None
  else Some (default 0 (key_buffer k !! Z.to_nat (key_tail k))).

Definition pop_commit (k : queue) : queue :=
  Queue (key_buffer k) (key_head k) (next_index (key_tail k)).

Definition queue_pop (k : queue) : Z * queue :=
  match pop_read k with
  | None => (KEY_NONE, k)
  | Some key => (key, pop_commit k)
  end.

Definition queue_peek (k : queue) : Z := default KEY_NONE (pop_read k).

(** ** Characters *)

Definition is_ascii_alpha (c : Z) : bool :=
  ((97 <=? c) && (c <=? 122)) || ((65 <=? c) && (c <=? 90)).

Definition ascii_to_upper (c : Z) : Z := if (97 <=? c) && (c <=? 122) then c - (97 - 65) else c.
Definition ascii_to_lower (c : Z) : Z := if (65 <=? c) && (c <=? 90) then c + (97 - 65) else c.

Definition ascii_to_ctrl (c : Z) : Z :=
  let lower := ascii_to_lower c in
  if (97 <=? lower) && (lower <=? 122) then lower - 97 + 1 else 0.

(** The rows of the two tables, from scancode 0x00 on; a scancode with no entry
    is 0. *)
Definition base_map : list Z :=
  [0; 0; 49; 50; 51; 52; 53; 54; 55; 56; 57; 48; 45; 61; 8; 9;
   113; 119; 101; 114; 116; 121; 117; 105; 111; 112; 91; 93; 10; 0; 97; 115;
   100; 102; 103; 104; 106; 107; 108; 59; 39; 96; 0; 92; 122; 120; 99; 118;
   98; 110; 109; 44; 46; 47; 0; 0; 0; 32] ++ replicate 70 0.

Definition shift_map : list Z :=
  [0; 0; 33; 64; 35; 36; 37; 94; 38; 42; 40; 41; 95; 43; 8; 9;
   81; 87; 69; 82; 84; 89; 85; 73; 79; 80; 123; 125; 10; 0; 65; 83;
   68; 70; 71; 72; 74; 75; 76; 58; 34; 126; 0; 124; 90; 88; 67; 86;
   66; 78; 77; 60; 62; 63; 0; 0; 0; 32] ++ replicate 70 0.

Definition truthy (v : Z) : bool := negb (v =? 0).

Definition translate_scancode (s : ps2) (scancode : Z) : Z :=
  if 128 <=? scancode then 0
  else
    let table := if truthy (shift_pressed s) then shift_map else base_map in
    let translated := default 0 (table !! Z.to_nat scancode) in
    if (translated =? 0) || negb (is_ascii_alpha translated) then translated
    else if xorb (truthy (shift_pressed s)) (truthy (capslock_on s))
    then ascii_to_upper translated else ascii_to_lower translated.

(** ** The LED protocol *)

Section Driver.
Context {dev : Type} `{port_io dev}.

(** [for (i = 0; i < KBD_IO_TIMEOUT; ++i) if (test(inb(port))) return 1;] *)
Fixpoint wait_loop (n : nat) (test : Z -> bool) (d : dev) : bool * dev :=
  match n with
  | O => (false, d)
  | S n' =>
      let '(v, d) := inb d KBD_STATUS_PORT in
      if test v then (true, d) else wait_loop n' test d
  end.

Definition keyboard_wait_input_clear (d : dev) : bool * dev :=
  wait_loop (Z.to_nat KBD_IO_TIMEOUT) (fun v => Z.land v KBD_STATUS_IBF =? 0) d.

Definition keyboard_wait_output_full (d : dev) : bool * dev :=
  wait_loop (Z.to_nat KBD_IO_TIMEOUT) (fun v => negb (Z.land v KBD_STATUS_OBF =? 0)) d.

Definition keyboard_send_led_mask (leds : Z) (d : dev) : bool * dev :=
  let '(ok, d) := keyboard_wait_input_clear d in
  if negb ok then (false, d)
  else
    let d := outb d KBD_DATA_PORT KBD_CMD_SET_LEDS in
    let '(ok, d) := keyboard_wait_output_full d in
    if negb ok then (false, d)
    else
      let '(ack, d) := inb d KBD_DATA_PORT in
      if negb (ack =? KBD_ACK) then (false, d)
      else
        let '(ok, d) := keyboard_wait_input_clear d in
        if negb ok then (false, d)
        else
          let d := outb d KBD_DATA_PORT leds in
          let '(ok, d) := keyboard_wait_output_full d in
          if negb ok then (false, d)
          else
            let '(ack, d) := inb d KBD_DATA_PORT in
            (ack =? KBD_ACK, d).

Definition led_mask (s : ps2) : Z :=
  let leds := 0 in
  let leds := if truthy (numlock_on s) then Z.lor leds 0x02 else leds in
  if truthy (capslock_on s) then Z.lor leds 0x04 else leds.

Definition keyboard_sync_leds (s : ps2) (d : dev) : dev :=
  let '(ok, d) := keyboard_send_led_mask (led_mask s) d in
  if ok then d else (keyboard_send_led_mask (led_mask s) d).2.

(** ** The scancode state machine *)

Definition push (key : Z) (s : ps2) : ps2 := set_q (queue_push key (q s)) s.

(** The branch taken after an 0xE0 prefix. *)
Definition process_extended (s : ps2) (scancode : Z) : ps2 :=
  let is_break := Z.land scancode 0x80 in
  let code := Z.land scancode 0x7F in
  if code =? 0x1D then set_ext 0 (set_ctrl (if truthy is_break then 0 else 1) s)
  else if code =? 0x38 then set_ext 0 (set_alt (if truthy is_break then 0 else 1) s)
  else
    set_ext 0
      (if is_break =? 0 then
         if code =? 0x4B then push KEY_LEFT s
         else if code =? 0x48 then push KEY_UP s
         else if code =? 0x4D then push KEY_RIGHT s
         else if code =? 0x50 then push KEY_DOWN s
         else if code =? 0x52 then push KEY_INSERT s
         else if code =? 0x53 then
           if truthy (ctrl_pressed s) && truthy (alt_pressed s) then push KEY_CTRL_ALT_DEL s
           else push KEY_DELETE s
         else if code =? 0x1C then push 10 s
         else if code =? 0x35 then push 47 s
         else s
       else s).

(** The keypad [switch]; every scancode of 0x47..0x53 has a case. *)
Definition process_keypad (s : ps2) (scancode : Z) : ps2 :=
  let number_mode := xorb (truthy (numlock_on s)) (truthy (shift_pressed s)) in
  let digit c := if number_mode then push c s else s in
  if scancode =? 0x47 then digit 55
  else if scancode =? 0x48 then push (if number_mode then 56 else KEY_UP) s
  else if scancode =? 0x49 then digit 57
  else if scancode =? 0x4A then push 45 s
  else if scancode =? 0x4B then push (if number_mode then 52 else KEY_LEFT) s
  else if scancode =? 0x4C then digit 53
  else if scancode =? 0x4D then push (if number_mode then 54 else KEY_RIGHT) s
  else if scancode =? 0x4E then push 43 s
  else if scancode =? 0x4F then digit 49
  else if scancode =? 0x50 then push (if number_mode then 50 else KEY_DOWN) s
  else if scancode =? 0x51 then digit 51
  else if scancode =? 0x52 then push (if number_mode then 48 else KEY_INSERT) s
  else push 46 s.

Definition keyboard_process_scancode (s : ps2) (d : dev) (scancode : Z) : ps2 * dev :=
  if scancode =? 0xE0 then (set_ext 1 s, d)
  else if truthy (extended_prefix s) then (process_extended s scancode, d)
  else if (scancode =? 0x2A) || (scancode =? 0x36) then (set_shift 1 s, d)
  else if (scancode =? 0xAA) || (scancode =? 0xB6) then (set_shift 0 s, d)
  else if scancode =? 0x1D then (set_ctrl 1 s, d)
  else if scancode =? 0x9D then (set_ctrl 0 s, d)
  else if scancode =? 0x38 then (set_alt 1 s, d)
  else if scancode =? 0xB8 then (set_alt 0 s, d)
  else if scancode =? 0x3A then
    let s := set_caps (if truthy (capslock_on s) then 0 else 1) s in
    (s, keyboard_sync_leds s d)
  else if scancode =? 0x45 then
    let s := set_num (if truthy (numlock_on s) then 0 else 1) s in
    (s, keyboard_sync_leds s d)
  else if negb (Z.land scancode 0x80 =? 0) then (s, d)
  else if (0x47 <=? scancode) && (scancode <=? 0x53) then (process_keypad s scancode, d)
  else if scancode =? 0x37 then (push 42 s, d)
  else
    let translated := translate_scancode s scancode in
    if negb (translated =? 0) then
      if negb (ctrl_pressed s =? 0) && negb (ascii_to_ctrl translated =? 0)
      then (push (ascii_to_ctrl translated) s, d)
      else (push translated s, d)
    else (s, d).

(** ** The driver's entry points *)

(** [ps2_init] resets everything but the contents of the buffer. *)
Definition ps2_init (s : ps2) (d : dev) : ps2 * dev :=
  let s := MkPs2 (Queue (key_buffer (q s)) 0 0) 0 0 0 0 0 0 0 in
  (s, keyboard_sync_leds s d).

Definition ps2_set_poll_fallback (enabled : Z) (s : ps2) : ps2 :=
  set_poll (if truthy enabled then 1 else 0) s.

Definition ps2_poll (s : ps2) (d : dev) : ps2 * dev :=
  if poll_fallback_enabled s =? 0 then (s, d)
  else
    let '(status, d) := inb d 0x64 in
    if Z.land status 0x01 =? 0 then (s, d)
    else let '(code, d) := inb d 0x60 in keyboard_process_scancode s d code.

Definition ps2_irq_handler (s : ps2) (d : dev) : ps2 * dev :=
  let '(code, d) := inb d 0x60 in keyboard_process_scancode s d code.

Definition char_of_key (key : Z) : Z := if (0 <? key) && (key <? 128) then key else 0.

Definition ps2_last_char (s : ps2) : Z := char_of_key (queue_peek (q s)).

Definition ps2_take_char (s : ps2) : Z * ps2 :=
  let '(key, k) := queue_pop (q s) in (char_of_key key, set_q k s).

Definition ps2_take_key (s : ps2) : Z * ps2 :=
  let '(key, k) := queue_pop (q s) in (key, set_q k s).

End Driver.

(** The zero-initialised driver state. *)
Definition ps2_boot : ps2 := MkPs2 (Queue (replicate 64 0) 0 0) 0 0 0 0 0 0 0.

End Ps2.

(** * Correctness of the PS/2 keyboard driver

    The ring buffer is a FIFO of at most 63 keys, also when an interrupt falls
    between the two halves of [queue_pop]; the readers get exactly the keys the
    scancode state machine decodes, in order, as long as the buffer has room. *)

Module Ps2Props.
Import Ports Ps2.

(** ** The ring buffer as a list *)

Record queue_ok (k : queue) : Prop := {
  qk_len : length (key_buffer k) = 64%nat;
  qk_head : 0 <= key_head k < 64;
  qk_tail : 0 <= key_tail k < 64
}.

Definition pending (k : queue) : nat := Z.to_nat ((key_head k - key_tail k) mod 64).

Definition slot (k : queue) (i : nat) : Z :=
  default 0 (key_buffer k !! Z.to_nat ((key_tail k + Z.of_nat i) mod 64)).

(** The keys waiting in the buffer, oldest first. *)
Definition contents (k : queue) : list Z := slot k <$> seq 0 (pending k).

Lemma contents_length k : length (contents k) = pending k.
Proof. unfold contents. by rewrite length_fmap, length_seq. Qed.

Lemma next_index_val i : 0 <= i < 64 -> next_index i = (i + 1) mod 64.
Proof.
  intros H. unfold next_index. change (KEY_BUFFER_SIZE - 1) with (Z.ones 6).
  rewrite Z.land_ones by lia. change (2 ^ 6) with 64.
  rewrite u8_small; [done|]. pose proof (Z.mod_pos_bound (i + 1) 64). lia.
Qed.

(** Arithmetic of indices modulo 64. *)
Ltac mod64 := Z.to_euclidean_division_equations; lia.

Lemma queue_push_ok key k : queue_ok k -> queue_ok (queue_push key k).
Proof.
  intros [H1 H2 H3]. unfold queue_push. case_bool; [done|]. rewrite next_index_val by done.
  split; simpl; [by rewrite length_insert|mod64|done].
Qed.

Lemma pop_commit_ok k : queue_ok k -> queue_ok (pop_commit k).
Proof.
  intros [H1 H2 H3]. unfold pop_commit. rewrite next_index_val by done.
  split; simpl; [done|done|mod64].
Qed.

(** The full test compares the next head with the tail: 63 keys fit. *)
Lemma queue_push_contents key k :
  queue_ok k ->
  contents (queue_push key k) =
    if (pending k <? 63)%nat then contents k ++ [key] else contents k.
Proof.
  intros [H1 H2 H3]. unfold queue_push. rewrite next_index_val by done.
  assert ((pending k < 63)%nat <-> (key_head k + 1) mod 64 <> key_tail k) as Hfull.
  { unfold pending. mod64. }
  destruct (Z.eqb_spec ((key_head k + 1) mod 64) (key_tail k)) as [He|He].
  { destruct (Nat.ltb_spec (pending k) 63) as [Hlt|]; [by apply Hfull in Hlt|done]. }
  destruct (Nat.ltb_spec (pending k) 63) as [Hlt|Hge]; [|apply Hfull in He; lia].
  unfold contents.
  assert (pending (Queue (<[Z.to_nat (key_head k):=key]> (key_buffer k))
    ((key_head k + 1) mod 64) (key_tail k)) = S (pending k)) as ->.
  { unfold pending in *. simpl. mod64. }
  rewrite seq_S, fmap_app. simpl. f_equal.
  - apply list_fmap_ext. intros i x [-> Hi]%lookup_seq. unfold slot. simpl.
    rewrite list_lookup_insert_ne; [done|]. unfold pending in *. mod64.
  - unfold slot. simpl.
    replace ((key_tail k + Z.of_nat (pending k)) mod 64) with (key_head k)
      by (unfold pending in *; mod64).
    by rewrite list_lookup_insert_eq by lia.
Qed.

Lemma pop_read_contents k : queue_ok k -> pop_read k = head (contents k).
Proof.
  intros [H1 H2 H3]. unfold pop_read, contents.
  destruct (Z.eqb_spec (key_head k) (key_tail k)) as [He|He].
  - unfold pending. rewrite He, Z.sub_diag. done.
  - destruct (pending k) as [|n] eqn:E; [unfold pending in E; mod64|].
    simpl. unfold slot. do 3 f_equal. mod64.
Qed.

Lemma pop_commit_contents k :
  queue_ok k -> contents k <> [] -> contents (pop_commit k) = tail (contents k).
Proof.
  intros [H1 H2 H3] Hne. unfold contents in *.
  destruct (pending k) as [|n] eqn:E; [done|].
  assert (pending (pop_commit k) = n) as ->.
  { unfold pending, pop_commit in *. simpl. rewrite next_index_val by done. mod64. }
  cbn [seq fmap list_fmap tail]. rewrite <- fmap_S_seq, <- list_fmap_compose.
  apply list_fmap_ext. intros i x [-> Hi]%lookup_seq. unfold slot, pop_commit. simpl.
  rewrite next_index_val by done. do 3 f_equal. unfold pending in E. mod64.
Qed.

Lemma queue_pop_contents k :
  queue_ok k ->
  match contents k with
  | [] => queue_pop k = (KEY_NONE, k)
  | key :: ks => (queue_pop k).1 = key /\ contents (queue_pop k).2 = ks /\ queue_ok (queue_pop k).2
  end.
Proof.
  intros Hk. unfold queue_pop. rewrite (pop_read_contents k Hk).
  destruct (contents k) as [|key ks] eqn:E; [done|]. simpl. split; [done|].
  split; [|by apply pop_commit_ok]. by rewrite pop_commit_contents, E by (done || by rewrite E).
Qed.

Definition pushes (keys : list Z) (k : queue) : queue := foldl (fun k key => queue_push key k) k keys.

Lemma pushes_spec keys k :
  queue_ok k ->
  queue_ok (pushes keys k) /\
  contents (pushes keys k) = contents k ++ take (63 - pending k) keys.
Proof.
  revert k. induction keys as [|key keys IH]; intros k Hk.
  { split; [done|]. by rewrite firstn_nil, app_nil_r. }
  destruct (IH _ (queue_push_ok key k Hk)) as [H1 H2]. split; [done|]. change (pushes (key :: keys) k) with (pushes keys (queue_push key k)).
  pose proof (queue_push_contents key k Hk) as Hc.
  pose proof (contents_length (queue_push key k)) as Hl. rewrite Hc in Hl.
  rewrite H2, Hc. destruct (Nat.ltb_spec (pending k) 63).
  - rewrite length_app, contents_length in Hl. simpl in Hl.
    rewrite <- app_assoc. f_equal.
    replace (63 - pending k)%nat with (S (63 - pending (queue_push key k))) by lia. done.
  - rewrite contents_length in Hl.
    replace (63 - pending (queue_push key k))%nat with 0%nat by lia.
    replace (63 - pending k)%nat with 0%nat by lia. done.
Qed.

(** ** The state machine decodes independently of the queue *)

Lemma table_range b i : 0 <= default 0 ((if b : bool then shift_map else base_map) !! i) < 127.
Proof.
  assert (Forall (fun c => 0 <= c < 127) shift_map /\ Forall (fun c => 0 <= c < 127) base_map)
    as [H1 H2] by (split; apply (bool_decide_unpack _); vm_compute; exact I).
  destruct ((if b then _ else _) !! i) as [c|] eqn:E; simpl; [|lia].
  destruct b; [exact (Forall_lookup_1 _ _ _ _ H1 E)|exact (Forall_lookup_1 _ _ _ _ H2 E)].
Qed.

Lemma translate_range s c : 0 <= translate_scancode s c < 127.
Proof.
  unfold translate_scancode. case_bool; [lia|].
  pose proof (table_range (truthy (shift_pressed s)) (Z.to_nat c)) as Hr.
  unfold is_ascii_alpha, ascii_to_upper, ascii_to_lower. repeat case_bool; lia.
Qed.

Lemma ctrl_range c : 0 <= ascii_to_ctrl c < 27.
Proof. unfold ascii_to_ctrl, ascii_to_lower. repeat case_bool; lia. Qed.

Definition valid_key (key : Z) : Prop := 0 < key <= KEY_CTRL_ALT_DEL.

(** Two runs of the state machine that differ in the queue only take the same
    branches: they end with the same modifiers and push the same keys. *)
Definition same_keys (s1 s2 : ps2) (k1 k2 : queue) : Prop :=
  exists mods keys, Forall valid_key keys /\ (length keys <= 1)%nat /\
    s1 = set_q (pushes keys k1) mods /\ s2 = set_q (pushes keys k2) mods.

Lemma same_keys_push key s k1 k2 f :
  valid_key key -> (forall k v, f (set_q k v) = set_q k (f v)) ->
  same_keys (f (push key (set_q k1 s))) (f (push key (set_q k2 s))) k1 k2.
Proof.
  intros Hv Hf. exists (f s), [key]. split; [by apply Forall_singleton|]. split; [simpl; lia|].
  split; exact (Hf (queue_push key _) s).
Qed.

Lemma same_keys_none f s k1 k2 :
  (forall k v, f (set_q k v) = set_q k (f v)) -> same_keys (f (set_q k1 s)) (f (set_q k2 s)) k1 k2.
Proof.
  intros Hf. exists (f s), []. split; [constructor|]. split; [simpl; lia|]. by rewrite !Hf.
Qed.

Ltac same_push f :=
  apply (same_keys_push _ _ _ _ f);
    [first [split; [reflexivity|discriminate] | unfold valid_key, KEY_CTRL_ALT_DEL; lia]|done].
Ltac same_none f := by apply (same_keys_none f).

Lemma extended_same s k1 k2 code :
  same_keys (process_extended (set_q k1 s) code) (process_extended (set_q k2 s) code) k1 k2.
Proof.
  unfold process_extended. cbn [ctrl_pressed alt_pressed set_q].
  repeat case_bool; first
    [ same_push (set_ext 0) | same_none (set_ext 0)
    | same_none (fun v => set_ext 0 (set_ctrl 0 v)) | same_none (fun v => set_ext 0 (set_ctrl 1 v))
    | same_none (fun v => set_ext 0 (set_alt 0 v)) | same_none (fun v => set_ext 0 (set_alt 1 v)) ].
Qed.

Lemma keypad_same s k1 k2 code :
  same_keys (process_keypad (set_q k1 s) code) (process_keypad (set_q k2 s) code) k1 k2.
Proof.
  unfold process_keypad. cbn [numlock_on shift_pressed set_q].
  repeat case_bool; first [same_push (fun v : ps2 => v) | same_none (fun v : ps2 => v)].
Qed.

Lemma process_same {dev1 dev2} `{port_io dev1} `{port_io dev2} s k1 k2 (d1 : dev1) (d2 : dev2) code :
  same_keys (keyboard_process_scancode (set_q k1 s) d1 code).1
            (keyboard_process_scancode (set_q k2 s) d2 code).1 k1 k2.
Proof.
  pose proof (extended_same s k1 k2 code). pose proof (keypad_same s k1 k2 code).
  pose proof (translate_range s code) as Ht. pose proof (ctrl_range (translate_scancode s code)) as Hc.
  unfold keyboard_process_scancode.
  change (translate_scancode (set_q k1 s) code) with (translate_scancode s code).
  change (translate_scancode (set_q k2 s) code) with (translate_scancode s code).
  cbn [extended_prefix capslock_on numlock_on ctrl_pressed set_q].
  repeat case_bool; cbn [fst]; try done; first
    [ same_push (fun v : ps2 => v) | same_none (fun v : ps2 => v) | same_none (set_ext 1)
    | same_none (set_shift 0) | same_none (set_shift 1) | same_none (set_ctrl 0)
    | same_none (set_ctrl 1) | same_none (set_alt 0) | same_none (set_alt 1)
    | same_none (set_caps 0) | same_none (set_caps 1) | same_none (set_num 0)
    | same_none (set_num 1) ].
Qed.

(** ** Decoding without a queue *)

Lemma set_q_q s : set_q (q s) s = s.
Proof. by destruct s. Qed.

Definition empty_q : queue := Queue (replicate 64 0) 0 0.

(** The keys one scancode stands for in state [s], and the state after it. *)
Definition decode (s : ps2) (code : Z) : ps2 * list Z :=
  let s' := (keyboard_process_scancode (set_q empty_q s) tt code).1 in (s', contents (q s')).

Definition decode_all (s : ps2) (codes : list Z) : ps2 * list Z :=
  foldl (fun '(s, ks) c => let '(s', k) := decode s c in (s', ks ++ k)) (s, []) codes.

Lemma decode_all_snoc s cs c :
  decode_all s (cs ++ [c]) =
    ((decode (decode_all s cs).1 c).1, (decode_all s cs).2 ++ (decode (decode_all s cs).1 c).2).
Proof. unfold decode_all. rewrite foldl_app. simpl. by destruct (foldl _ _ _). Qed.

Lemma empty_q_ok : queue_ok empty_q.
Proof. by split. Qed.

Lemma contents_nil k : pending k = 0%nat -> contents k = [].
Proof. intros H. apply nil_length_inv. by rewrite contents_length. Qed.

(** The driver pushes what [decode] says, whatever the queue and the device. *)
Lemma process_decode {dev} `{port_io dev} s m (d : dev) code :
  set_q empty_q s = set_q empty_q m -> queue_ok (q s) -> (pending (q s) < 63)%nat ->
  let s' := (keyboard_process_scancode s d code).1 in
  queue_ok (q s') /\ set_q empty_q s' = set_q empty_q (decode m code).1 /\
  contents (q s') = contents (q s) ++ (decode m code).2 /\ Forall valid_key (decode m code).2.
Proof.
  intros Hm Hok Hp s'. unfold decode, s'. rewrite <- Hm. cbn [fst snd].
  destruct (process_same s (q s) empty_q d tt code) as (mods & keys & Hv & Hl & H1 & H2).
  rewrite set_q_q in H1. rewrite H1, H2. cbn [q set_q].
  destruct (pushes_spec keys (q s) Hok) as [K1 K2].
  destruct (pushes_spec keys empty_q empty_q_ok) as [_ K4].
  split; [done|]. split; [done|]. rewrite K2, K4, (contents_nil empty_q eq_refl).
  change (pending empty_q) with 0%nat. by rewrite !(take_ge keys) by lia.
Qed.

(** ** Runs of the driver *)

(** [run s0 codes keys s]: from [s0], the interrupt handler took in [codes], each
    while the buffer had room, and the readers got [keys]. *)
Inductive run (s0 : ps2) : list Z -> list Z -> ps2 -> Prop :=
| run_start : run s0 [] [] s0
| run_code dev (io : port_io dev) (d : dev) cs ks s c :
    run s0 cs ks s -> (pending (q s) < 63)%nat ->
    run s0 (cs ++ [c]) ks (keyboard_process_scancode s d c).1
| run_take cs ks s key s' :
    run s0 cs ks s -> ps2_take_key s = (key, s') ->
    run s0 cs (if key =? KEY_NONE then ks else ks ++ [key]) s'.

Record run_inv (s0 : ps2) (cs ks : list Z) (s : ps2) : Prop := {
  ri_ok : queue_ok (q s);
  ri_mods : set_q empty_q s = set_q empty_q (decode_all s0 cs).1;
  ri_keys : ks ++ contents (q s) = (decode_all s0 cs).2;
  ri_valid : Forall valid_key (contents (q s))
}.

Lemma run_run_inv s0 cs ks s :
  queue_ok (q s0) -> contents (q s0) = [] -> run s0 cs ks s -> run_inv s0 cs ks s.
Proof.
  intros H1 H2 Hr.
  induction Hr as [|dev io d cs ks s c _ [I1 I2 I3 I4] Hp|cs ks s key s' _ [I1 I2 I3 I4] Ht].
  - split; [done|done|by rewrite H2|by rewrite H2].
  - destruct (process_decode s _ d c I2 I1 Hp) as (K1 & K2 & K3 & K4).
    split; [done| | |]; rewrite ?decode_all_snoc; cbn [fst snd]; [done| |].
    + by rewrite K3, app_assoc, I3.
    + rewrite K3. by apply Forall_app.
  - unfold ps2_take_key in Ht. pose proof (queue_pop_contents (q s) I1) as Hq.
    destruct (contents (q s)) as [|k0 rest] eqn:E.
    + rewrite Hq in Ht. injection Ht as <- <-. rewrite set_q_q. split; [done|done|by rewrite E|by rewrite E].
    + destruct (queue_pop (q s)) as [k1 q1]. simpl in Hq. destruct Hq as (-> & <- & Hok). injection Ht as <- <-.
      apply Forall_cons in I4 as [[Hv _] I4]. destruct (Z.eqb_spec k0 KEY_NONE) as [->|_]; [done|].
      split; [done|done|by rewrite <- I3, <- app_assoc|done].
Qed.

(** ** Theorems *)

(** C31: the keyboard loses and reorders nothing.  For every interleaving of
    scancodes taken in by the handler while the buffer has room, and of reads
    with [ps2_take_key], the keys returned so far followed by the keys still
    buffered are exactly what the scancode state machine decodes from the
    scancodes, whatever the device answered in between; every key is a valid key
    code, so that [KEY_NONE] always means an empty buffer. *)
Theorem keyboard_delivers_in_order s0 cs ks s :
  queue_ok (q s0) -> contents (q s0) = [] -> run s0 cs ks s ->
  ks ++ contents (q s) = (decode_all s0 cs).2 /\
  set_q empty_q s = set_q empty_q (decode_all s0 cs).1 /\
  ((ps2_take_key s).1 = KEY_NONE <-> contents (q s) = []).
Proof.
  intros H1 H2 Hr. destruct (run_run_inv s0 cs ks s H1 H2 Hr) as [I1 I2 I3 I4].
  split; [done|]. split; [done|]. unfold ps2_take_key.
  pose proof (queue_pop_contents (q s) I1) as Hq.
  destruct (contents (q s)) as [|k0 rest]; [by rewrite Hq|].
  destruct (queue_pop (q s)) as [k1 q1]. destruct Hq as (Hk & _). simpl in *. subst k1.
  apply Forall_cons in I4 as [[Hv _] _]. split; [|done]. unfold KEY_NONE. intros ->. lia.
Qed.

(** Shift, the A key, release of shift, the A key again. *)
Definition demo_typed : ps2 :=
  foldl (fun s c => (keyboard_process_scancode s tt c).1) ps2_boot [0x2A; 0x1E; 0xAA; 0x1E].

Lemma demo_run : run ps2_boot [0x2A; 0x1E; 0xAA; 0x1E] [65] (ps2_take_key demo_typed).2.
Proof.
  apply (run_take _ _ [] demo_typed 65); [|vm_compute; reflexivity].
  apply (run_code _ _ null_io tt [0x2A; 0x1E; 0xAA]); [|vm_compute; lia].
  apply (run_code _ _ null_io tt [0x2A; 0x1E]); [|vm_compute; lia].
  apply (run_code _ _ null_io tt [0x2A]); [|vm_compute; lia].
  apply (run_code _ _ null_io tt []); [constructor|vm_compute; lia].
Qed.

Lemma keyboard_delivers_in_order_witness :
  [65] ++ contents (q (ps2_take_key demo_typed).2) = [65; 97].
Proof.
  destruct (keyboard_delivers_in_order ps2_boot _ _ _ empty_q_ok eq_refl demo_run) as (-> & _).
  vm_compute. reflexivity.
Defined.

(** [queue_pop] may be interrupted.  If the interrupt handler pushes any
    number of keys between the read of the oldest key and the update of the tail,
    the key read is still the oldest one, nothing that was waiting is lost or
    duplicated, and the keys pushed meanwhile are appended in order up to the 63
    the buffer holds. *)
Theorem queue_pop_interrupted k key keys :
  queue_ok k -> pop_read k = Some key ->
  exists rest, contents k = key :: rest /\
    contents (pop_commit (pushes keys k)) = rest ++ take (63 - pending k) keys /\
    queue_ok (pop_commit (pushes keys k)).
Proof.
  intros Hk Hr. rewrite (pop_read_contents k Hk) in Hr.
  destruct (contents k) as [|k0 rest] eqn:E; simplify_eq/=.
  destruct (pushes_spec keys k Hk) as [H1 H2]. exists rest. split; [done|].
  split; [|by apply pop_commit_ok]. rewrite pop_commit_contents, H2, E; [done|done|].
  by rewrite H2, E.
Qed.

Lemma queue_pop_interrupted_witness :
  let k := queue_push 98 (queue_push 97 empty_q) in
  contents (pop_commit (pushes [99; 100] k)) = [98; 99; 100].
Proof.
  intros k.
  destruct (queue_pop_interrupted k 97 [99; 100]) as (rest & H1 & H2 & _).
  - apply queue_push_ok, queue_push_ok, empty_q_ok.
  - reflexivity.
  - injection H1 as <-. exact H2.
Defined.

(** letters follow shift and caps lock.  For every scancode whose key is a
    letter, [translate_scancode] returns that letter in upper case exactly when
    one of shift and caps lock is active, in lower case otherwise; the two
    tables agree on which keys are letters. *)
Theorem translate_letters s code c :
  base_map !! Z.to_nat code = Some c -> 0 <= code -> is_ascii_alpha c = true ->
  translate_scancode s code =
    if xorb (truthy (shift_pressed s)) (truthy (capslock_on s))
    then ascii_to_upper c else ascii_to_lower c.
Proof.
  intros Hc H0 Ha. unfold translate_scancode.
  assert (Z.to_nat code < 128)%nat as Hlt by (by apply lookup_lt_Some in Hc).
  destruct (Z.leb_spec 128 code) as [|_]; [lia|].
  assert (Forall2 (fun b u => is_ascii_alpha b = true ->
    is_ascii_alpha u = true /\ u <> 0 /\ b <> 0 /\ ascii_to_upper u = ascii_to_upper b /\
    ascii_to_lower u = ascii_to_lower b) base_map shift_map) as HF.
  { apply (bool_decide_unpack _). vm_compute. exact I. }
  destruct (Forall2_lookup_l _ _ _ _ _ HF Hc) as (u & Hu & HP).
  destruct (HP Ha) as (Hua & Hu0 & Hb0 & Hup & Hlo).
  destruct (truthy (shift_pressed s)); rewrite ?Hc, ?Hu; simpl.
  - rewrite Hua, (proj2 (Z.eqb_neq u 0) Hu0). simpl. by rewrite Hup, Hlo.
  - by rewrite Ha, (proj2 (Z.eqb_neq c 0) Hb0).
Qed.

Lemma translate_letters_witness :
  translate_scancode (set_caps 1 ps2_boot) 0x2C = 90.
Proof.
  rewrite (translate_letters (set_caps 1 ps2_boot) 0x2C 122); [reflexivity|reflexivity|lia|reflexivity].
Defined.

End Ps2Props.
