(* ===== verification/LineEdit.v ===== *)
(** * Line editing on C arrays

    The shift loops that [tty_core.c] and [vga_text.c] both use on their
    character arrays, and the abstract line editor they implement: a text, a
    cursor and an insert flag.  An array access outside the array is [None]. *)

From S2P Require Import Prelude.
From stdpp Require Import base list option list_numbers.
From Stdlib Require Import ZArith Lia ZifyBool.
Open Scope Z_scope.

Module LineEdit.

(** ** Arrays with checked accesses *)

Definition aget (a : list Z) (i : Z) : option Z :=
  if i <? 0 then None else a !! Z.to_nat i.

Definition aset (a : list Z) (i v : Z) : option (list Z) :=
  if (0 <=? i) && (i <? Z.of_nat (length a)) then Some (<[Z.to_nat i := v]> a) else None.

Lemma aget_nat a i : aget a (Z.of_nat i) = a !! i.
Proof. unfold aget. case_bool; [lia|]. by rewrite Nat2Z.id. Qed.

Lemma aset_nat a i v : (i < length a)%nat -> aset a (Z.of_nat i) v = Some (<[i := v]> a).
Proof. intros H. unfold aset. rewrite Nat2Z.id. case_bool; [done|lia]. Qed.

Lemma aset_Some a i v a' :
  aset a i v = Some a' -> a' = <[Z.to_nat i := v]> a /\ 0 <= i < Z.of_nat (length a).
Proof. unfold aset. intros H. case_bool; [|done]. simplify_eq. split; [done|lia]. Qed.

(** ** The shift loops *)

(** [for (i = len; i > cursor; --i) a[i] = a[i - 1];] run [n = len - cursor] times. *)
Fixpoint shift_up (n : nat) (i : Z) (a : list Z) : option (list Z) :=
  match n with
  | O => Some a
  | S n' => v ← aget a (i - 1); a ← aset a i v; shift_up n' (i - 1) a
  end.

(** [for (i = from; i < len; ++i) a[i - 1] = a[i];] run [n = len - from] times. *)
Fixpoint shift_down (n : nat) (i : Z) (a : list Z) : option (list Z) :=
  match n with
  | O => Some a
  | S n' => v ← aget a i; a ← aset a (i - 1) v; shift_down n' (i + 1) a
  end.

Lemma shift_up_spec n c a :
  (c + n < length a)%nat ->
  exists a', shift_up n (Z.of_nat (c + n)) a = Some a' /\ length a' = length a /\
    forall j, a' !! j = if decide (c < j <= c + n)%nat then a !! (j - 1)%nat else a !! j.
Proof.
  revert a. induction n as [|n IH]; intros a Hl.
  { exists a. split; [done|]. split; [done|]. intros j. case_decide; [lia|done]. }
  cbn [shift_up]. replace (Z.of_nat (c + S n) - 1) with (Z.of_nat (c + n)) by lia.
  rewrite aget_nat. destruct (lookup_lt_is_Some_2 a (c + n) ltac:(lia)) as [v Hv].
  rewrite Hv. cbn [mbind option_bind]. rewrite aset_nat by lia. cbn [mbind option_bind].
  destruct (IH (<[(c + S n)%nat := v]> a)) as (a' & H1 & H2 & H3); [rewrite length_insert; lia|].
  exists a'. rewrite length_insert in H2. split; [done|]. split; [done|].
  intros j. rewrite H3. repeat case_decide; try lia.
  - by rewrite list_lookup_insert_ne by lia.
  - assert (j = c + S n)%nat as -> by lia. rewrite list_lookup_insert_eq by lia.
    rewrite <- Hv. f_equal. lia.
  - by rewrite list_lookup_insert_ne by lia.
Qed.

Lemma shift_down_spec n i a :
  (0 < i)%nat -> (i + n <= length a)%nat ->
  exists a', shift_down n (Z.of_nat i) a = Some a' /\ length a' = length a /\
    forall j, a' !! j = if decide (i - 1 <= j < i + n - 1)%nat then a !! (j + 1)%nat else a !! j.
Proof.
  revert i a. induction n as [|n IH]; intros i a Hi Hl.
  { exists a. split; [done|]. split; [done|]. intros j. case_decide; [lia|done]. }
  cbn [shift_down]. rewrite aget_nat.
  destruct (lookup_lt_is_Some_2 a i ltac:(lia)) as [v Hv]. rewrite Hv. cbn [mbind option_bind].
  replace (Z.of_nat i - 1) with (Z.of_nat (i - 1)) by lia. rewrite aset_nat by lia.
  cbn [mbind option_bind]. replace (Z.of_nat i + 1) with (Z.of_nat (S i)) by lia.
  destruct (IH (S i) (<[(i - 1)%nat := v]> a)) as (a' & H1 & H2 & H3);
    [lia|rewrite length_insert; lia|].
  exists a'. rewrite length_insert in H2. split; [done|]. split; [done|].
  intros j. rewrite H3. repeat case_decide; try lia.
  - by rewrite list_lookup_insert_ne by lia.
  - assert (j = i - 1)%nat as -> by lia. rewrite list_lookup_insert_eq by lia.
    rewrite <- Hv. f_equal. lia.
  - by rewrite list_lookup_insert_ne by lia.
Qed.

(** ** The abstract editor *)

Record editor := Ed { text : list Z; cur : nat; ins : bool }.

Definition ed_ok (limit : nat) (e : editor) : Prop :=
  (cur e <= length (text e) <= limit)%nat.

(** Typing a character; [limit] is the room for text. *)
Definition ed_type (limit : nat) (c : Z) (e : editor) : editor :=
  if (limit <=? length (text e))%nat then e
  else if negb (ins e) && (cur e <? length (text e))%nat
  then Ed (<[cur e := c]> (text e)) (S (cur e)) (ins e)
  else Ed (take (cur e) (text e) ++ c :: drop (cur e) (text e)) (S (cur e)) (ins e).

Definition ed_backspace (e : editor) : editor :=
  match cur e with
  | O => e
  | S n => Ed (take n (text e) ++ drop (S n) (text e)) n (ins e)
  end.

Definition ed_delete (e : editor) : editor :=
  Ed (take (cur e) (text e) ++ drop (S (cur e)) (text e)) (cur e) (ins e).

Definition ed_left (e : editor) : editor := Ed (text e) (cur e - 1) (ins e).
Definition ed_right (e : editor) : editor :=
  Ed (text e) (if (cur e <? length (text e))%nat then S (cur e) else cur e) (ins e).
Definition ed_toggle (e : editor) : editor := Ed (text e) (cur e) (negb (ins e)).

Lemma ed_type_ok limit c e : ed_ok limit e -> ed_ok limit (ed_type limit c e).
Proof.
  unfold ed_ok, ed_type. intros H. repeat case_bool; simpl; try lia.
  - rewrite length_insert. lia.
  - rewrite length_app, length_take, length_cons, length_drop. lia.
Qed.

Lemma ed_backspace_ok limit e : ed_ok limit e -> ed_ok limit (ed_backspace e).
Proof.
  unfold ed_ok, ed_backspace. intros H. destruct (cur e) eqn:E; simpl; [lia|].
  rewrite length_app, length_take, length_drop. lia.
Qed.

Lemma ed_delete_ok limit e : ed_ok limit e -> ed_ok limit (ed_delete e).
Proof.
  unfold ed_ok, ed_delete. intros H. simpl. rewrite length_app, length_take, length_drop. lia.
Qed.

Lemma ed_left_ok limit e : ed_ok limit e -> ed_ok limit (ed_left e).
Proof. unfold ed_ok. simpl. lia. Qed.

Lemma ed_right_ok limit e : ed_ok limit e -> ed_ok limit (ed_right e).
Proof. unfold ed_ok. simpl. intros H. case_bool; lia. Qed.

#[export] Hint Resolve ed_type_ok ed_backspace_ok ed_delete_ok ed_left_ok ed_right_ok : machine.

(** ** What the loops do to the text *)

(** The first [n] bytes of the array are the text. *)
Definition holds (a : list Z) (t : list Z) : Prop :=
  (length t <= length a)%nat /\ take (length t) a = t.

Lemma holds_lookup a t i : holds a t -> (i < length t)%nat -> a !! i = t !! i.
Proof. intros [_ H] Hi. rewrite <- (lookup_take_lt a (length t)) by lia. by rewrite H. Qed.

Lemma holds_intro a t :
  (length t <= length a)%nat -> (forall i, (i < length t)%nat -> a !! i = t !! i) -> holds a t.
Proof.
  intros Hl H. split; [done|]. apply list_eq. intros i.
  destruct (decide (i < length t)%nat).
  - rewrite lookup_take_lt by lia. by apply H.
  - rewrite lookup_take_ge by lia. symmetry. apply lookup_ge_None. lia.
Qed.

Lemma holds_insert a t i v : holds a t -> (i < length t)%nat -> holds (<[i := v]> a) (<[i := v]> t).
Proof.
  intros [H1 H2] Hi. apply holds_intro; [by rewrite !length_insert|]. intros j Hj.
  rewrite length_insert in Hj. rewrite !list_lookup_insert.
  repeat case_decide; try done; try lia. by apply holds_lookup.
Qed.

Lemma shift_up_insert a t c v :
  holds a t -> (c <= length t < length a)%nat ->
  exists a', shift_up (length t - c) (Z.of_nat (length t)) a = Some a' /\
    length a' = length a /\ holds (<[c := v]> a') (take c t ++ v :: drop c t).
Proof.
  intros Ht Hc. destruct (shift_up_spec (length t - c) c a) as (a' & H1 & H2 & H3); [lia|].
  replace (c + (length t - c))%nat with (length t) in * by lia.
  exists a'. split; [done|]. split; [done|].
  apply holds_intro.
  - rewrite length_insert, length_app, length_take, length_cons, length_drop. lia.
  - intros i Hi. rewrite length_app, length_take, length_cons, length_drop in Hi.
    rewrite list_lookup_insert, H3. rewrite lookup_app, lookup_take.
    destruct (decide (i = c)) as [->|Hne].
    + rewrite decide_True by lia. rewrite decide_False by lia.
      by replace (c - length (take c t))%nat with 0%nat by (rewrite length_take; lia).
    + rewrite decide_False by lia. destruct (decide (i < c)%nat).
      * rewrite decide_False by lia. rewrite (holds_lookup a t i) by (done || lia).
        destruct (lookup_lt_is_Some_2 t i ltac:(lia)) as [x ->]. done.
      * rewrite decide_True by lia. rewrite (holds_lookup a t) by (done || lia).
        rewrite length_take. replace (i - c `min` length t)%nat with (S (i - c - 1)) by lia.
        simpl. rewrite lookup_drop. f_equal. lia.
Qed.

Lemma shift_down_remove a t c :
  holds a t -> (c < length t)%nat ->
  exists a', shift_down (length t - S c) (Z.of_nat (S c)) a = Some a' /\
    length a' = length a /\ holds a' (take c t ++ drop (S c) t).
Proof.
  intros Ht Hc. pose proof (proj1 Ht).
  destruct (shift_down_spec (length t - S c) (S c) a) as (a' & H1 & H2 & H3); [lia|lia|].
  exists a'. split; [done|]. split; [done|]. apply holds_intro.
  - rewrite length_app, length_take, length_drop. lia.
  - intros i Hi. rewrite length_app, length_take, length_drop in Hi. rewrite H3, lookup_app, lookup_take.
    destruct (decide (i < c)%nat).
    + rewrite decide_False by lia. rewrite (holds_lookup a t i) by (done || lia).
      destruct (lookup_lt_is_Some_2 t i ltac:(lia)) as [x ->]. done.
    + rewrite decide_True by lia. rewrite (holds_lookup a t) by (done || lia).
      rewrite length_take, lookup_drop. f_equal. lia.
Qed.

(** ** Writing a string into an array *)

(** [w] put at [i]. *)
Definition written (a : list Z) (i : nat) (w : list Z) : list Z := take i a ++ w ++ drop (i + length w) a.

Lemma written_nil a i : written a i [] = a.
Proof. unfold written. cbn. rewrite Nat.add_0_r. apply take_drop. Qed.

Lemma written_cons a i c w : (i < length a)%nat -> written (<[i := c]> a) (S i) w = written a i (c :: w).
Proof.
  intros H. unfold written. rewrite drop_insert_lt by lia.
  rewrite (take_S_r _ _ c) by (by apply list_lookup_insert_eq). rewrite take_insert_ge by lia.
  rewrite <- app_assoc. cbn. by replace (S (i + length w)) with (i + S (length w))%nat by lia.
Qed.

Lemma written_length a i w : (i + length w <= length a)%nat -> length (written a i w) = length a.
Proof. intros H. unfold written. rewrite !length_app, length_take, length_drop. lia. Qed.

End LineEdit.
