(* ===== verification/Vga.v ===== *)
(** * The VGA text console

    [drivers/pc/vga_text.c]: the 80x25 screen with its cursor and scrolling, and
    the editable text line the console keeps for the line reader.  The screen
    memory at 0xB8000 is the list [cells]; an access outside one of the arrays is
    [None]. *)

From S2P Require Import Prelude Ports LineEdit.
From stdpp Require Import base list option list_numbers sets.
From Stdlib Require Import ZArith Lia ZifyBool.
Open Scope Z_scope.

Module Vga.
Import Ports LineEdit.

Definition VGA_WIDTH : Z := 80.
Definition VGA_HEIGHT : Z := 25.
Definition VGA_TEXT_PATH_MAX : Z := VGA_WIDTH * VGA_HEIGHT.

(** The screen: memory, cursor, attribute and the CRT controller's ports. *)
Record screen (dev : Type) := Screen {
  cells : list Z;
  row : Z;
  col : Z;
  color : Z;
  port : dev
}.
Arguments Screen {dev}. Arguments cells {dev}. Arguments row {dev}. Arguments col {dev}.
Arguments color {dev}. Arguments port {dev}.

(** The text line: [text_data], [text_path], [text_len], [text_cursor],
    [text_insert_mode]. *)
Record txt := Txt {
  text_data : list Z;
  text_path : list Z;
  text_len : Z;
  text_cursor : Z;
  text_insert_mode : Z
}.

Definition vga (dev : Type) : Type := screen dev * txt.

Section Vga.
Context {dev : Type} `{port_io dev}.

(** ** Screen *)

Definition vga_hw_cursor_enable (start stop : Z) (s : screen dev) : screen dev :=
  let d := outb (port s) 0x3D4 0x0A in
  let '(v, d) := inb d 0x3D5 in
  let d := outb d 0x3D5 (u8 (Z.lor (Z.land v 0xC0) (Z.land start 0x1F))) in
  let d := outb d 0x3D4 0x0B in
  let '(v, d) := inb d 0x3D5 in
  let d := outb d 0x3D5 (u8 (Z.lor (Z.land v 0xE0) (Z.land stop 0x1F))) in
  Screen (cells s) (row s) (col s) (color s) d.

Definition vga_cursor_pos_get (s : screen dev) : Z := u16 (row s * VGA_WIDTH + col s).

Definition vga_hw_cursor_update (s : screen dev) : screen dev :=
  let pos := u16 (row s * VGA_WIDTH + col s) in
  let d := outb (port s) 0x3D4 0x0F in
  let d := outb d 0x3D5 (u8 (Z.land pos 0xFF)) in
  let d := outb d 0x3D4 0x0E in
  let d := outb d 0x3D5 (u8 (Z.land (Z.shiftr pos 8) 0xFF)) in
  Screen (cells s) (row s) (col s) (color s) d.

(** A cell: attribute in the high byte, character in the low byte. *)
Definition cell (color c : Z) : Z := Z.lor (Z.shiftl color 8) (u8 c).

Definition poke (s : screen dev) (i v : Z) : option (screen dev) :=
  cs ← aset (cells s) i v; Some (Screen cs (row s) (col s) (color s) (port s)).

(** [for (; c < VGA_WIDTH; ++c) VGA[(r - 1) * VGA_WIDTH + c] = VGA[r * VGA_WIDTH + c];] *)
Fixpoint scroll_cols (n : nat) (r c : Z) (cs : list Z) : option (list Z) :=
  match n with
  | O => Some cs
  | S n' =>
      v ← aget cs (r * VGA_WIDTH + c);
      cs ← aset cs ((r - 1) * VGA_WIDTH + c) v;
      scroll_cols n' r (c + 1) cs
  end.

Fixpoint scroll_rows (n : nat) (r : Z) (cs : list Z) : option (list Z) :=
  match n with
  | O => Some cs
  | S n' => cs ← scroll_cols (Z.to_nat VGA_WIDTH) r 0 cs; scroll_rows n' (r + 1) cs
  end.

(** [for (i = from; i < from + n; ++i) VGA[i] = v;] *)
Fixpoint fill (n : nat) (from v : Z) (cs : list Z) : option (list Z) :=
  match n with
  | O => Some cs
  | S n' => cs ← aset cs from v; fill n' (from + 1) v cs
  end.

Definition vga_scroll_up (s : screen dev) : option (screen dev) :=
  cs ← scroll_rows (Z.to_nat (VGA_HEIGHT - 1)) 1 (cells s);
  cs ← fill (Z.to_nat VGA_WIDTH) ((VGA_HEIGHT - 1) * VGA_WIDTH) (cell (color s) 32) cs;
  Some (Screen cs (row s) (col s) (color s) (port s)).

Definition vga_ensure_row_visible (s : screen dev) : option (screen dev) :=
  if VGA_HEIGHT <=? row s then
    s ← vga_scroll_up s;
    Some (Screen (cells s) (u16 (VGA_HEIGHT - 1)) (col s) (color s) (port s))
  else Some s.

Definition vga_cursor_pos_set (pos : Z) (s : screen dev) : screen dev :=
  vga_hw_cursor_update
    (Screen (cells s) (u16 (pos / VGA_WIDTH)) (u16 (pos mod VGA_WIDTH)) (color s) (port s)).

Definition pc_vga_set_color (new_color : Z) (s : screen dev) : screen dev :=
  Screen (cells s) (row s) (col s) (u8 (Z.land new_color 0x0F)) (port s).

Definition pc_vga_set_cursor (new_row new_col : Z) (s : screen dev) : screen dev :=
  vga_hw_cursor_update
    (Screen (cells s) (u16 (new_row mod VGA_HEIGHT)) (u16 (new_col mod VGA_WIDTH))
       (color s) (port s)).

Definition pc_vga_get_cursor (s : screen dev) : Z * Z := (row s, col s).

Definition pc_vga_putc_at (at_row at_col c : Z) (s : screen dev) : option (screen dev) :=
  let r := u16 (at_row mod VGA_HEIGHT) in
  let ccol := u16 (at_col mod VGA_WIDTH) in
  poke s (r * VGA_WIDTH + ccol) (cell (color s) c).

Definition pc_vga_getc_at (at_row at_col : Z) (s : screen dev) : option Z :=
  let r := u16 (at_row mod VGA_HEIGHT) in
  let ccol := u16 (at_col mod VGA_WIDTH) in
  v ← aget (cells s) (r * VGA_WIDTH + ccol); Some (Z.land v 0xFF).

Definition pc_vga_putc (c : Z) (s : screen dev) : option (screen dev) :=
  if c =? 10 then
    s ← vga_ensure_row_visible (Screen (cells s) (u16 (row s + 1)) 0 (color s) (port s));
    Some (vga_hw_cursor_update s)
  else
    s ← poke s (row s * VGA_WIDTH + col s) (cell (color s) c);
    let col' := u16 (col s + 1) in
    let s := if VGA_WIDTH <=? col'
             then Screen (cells s) (u16 (row s + 1)) 0 (color s) (port s)
             else Screen (cells s) (row s) col' (color s) (port s) in
    s ← vga_ensure_row_visible s;
    Some (vga_hw_cursor_update s).

Fixpoint pc_vga_puts (str : list Z) (s : screen dev) : option (screen dev) :=
  match str with
  | [] => Some s
  | c :: str' => s ← pc_vga_putc c s; pc_vga_puts str' s
  end.

Definition hex_digits : list Z := [48; 49; 50; 51; 52; 53; 54; 55; 56; 57; 65; 66; 67; 68; 69; 70].

Definition hex_digit (value : Z) (i : Z) : Z :=
  default 0 (hex_digits !! Z.to_nat (Z.land (Z.shiftr value (i * 4)) 0xF)).

Definition pc_vga_hex_u32 (value : Z) (s : screen dev) : option (screen dev) :=
  s ← pc_vga_puts [48; 120] s;
  pc_vga_puts (hex_digit value <$> [7; 6; 5; 4; 3; 2; 1; 0]) s.

(** ** The text line *)

(** [for (; pos < VGA_WIDTH * VGA_HEIGHT; ++pos) pc_vga_putc_at(...)] *)
Fixpoint clear_from (n : nat) (pos : Z) (s : screen dev) : option (screen dev) :=
  match n with
  | O => Some s
  | S n' =>
      s ← pc_vga_putc_at (u16 (pos / VGA_WIDTH)) (u16 (pos mod VGA_WIDTH)) 32 s;
      clear_from n' (pos + 1) s
  end.

(** [for (i = 0; i < text_len; ++i)]: print and record the position after. *)
Fixpoint render (n : nat) (i : Z) (data : list Z) (path : list Z) (s : screen dev)
    : option (list Z * screen dev) :=
  match n with
  | O => Some (path, s)
  | S n' =>
      c ← aget data i;
      s ← pc_vga_putc c s;
      path ← aset path (i + 1) (vga_cursor_pos_get s);
      render n' (i + 1) data path s
  end.

Definition vga_text_rerender (v : vga dev) : option (vga dev) :=
  let '(s, t) := v in
  p0 ← aget (text_path t) 0;
  s ← clear_from (Z.to_nat (VGA_WIDTH * VGA_HEIGHT - p0)) p0 s;
  let s := vga_cursor_pos_set p0 s in
  path ← aset (text_path t) 0 (vga_cursor_pos_get s);
  '(path, s) ← render (Z.to_nat (text_len t)) 0 (text_data t) path s;
  p ← aget path (text_cursor t);
  Some (vga_cursor_pos_set p s,
        Txt (text_data t) path (text_len t) (text_cursor t) (text_insert_mode t)).

Definition pc_vga_init (v : vga dev) : option (vga dev) :=
  let '(s, t) := v in
  let s := vga_hw_cursor_enable 14 15 (Screen (cells s) 0 0 (color s) (port s)) in
  cs ← fill (Z.to_nat (VGA_WIDTH * VGA_HEIGHT)) 0 (cell (color s) 32) (cells s);
  path ← aset (text_path t) 0 0;
  Some (vga_hw_cursor_update (Screen cs (row s) (col s) (color s) (port s)),
        Txt (text_data t) path 0 0 1).

Definition pc_vga_text_begin (start_row start_col : Z) (v : vga dev) : option (vga dev) :=
  let '(s, t) := v in
  let s := pc_vga_set_cursor start_row start_col s in
  path ← aset (text_path t) 0 (vga_cursor_pos_get s);
  vga_text_rerender (s, Txt (text_data t) path 0 0 1).

Definition pc_vga_text_putc (c : Z) (v : vga dev) : option (vga dev) :=
  let '(s, t) := v in
  if VGA_TEXT_PATH_MAX <=? text_len t then Some v
  else if (text_insert_mode t =? 0) && (text_cursor t <? text_len t) then
    data ← aset (text_data t) (text_cursor t) c;
    vga_text_rerender
      (s, Txt data (text_path t) (text_len t) (u16 (text_cursor t + 1)) (text_insert_mode t))
  else
    data ← shift_up (Z.to_nat (text_len t - text_cursor t)) (text_len t) (text_data t);
    data ← aset data (text_cursor t) c;
    vga_text_rerender
      (s, Txt data (text_path t) (u16 (text_len t + 1)) (u16 (text_cursor t + 1))
            (text_insert_mode t)).

Definition pc_vga_text_backspace (v : vga dev) : option (vga dev) :=
  let '(s, t) := v in
  if text_cursor t =? 0 then Some v
  else
    data ← shift_down (Z.to_nat (text_len t - text_cursor t)) (text_cursor t) (text_data t);
    vga_text_rerender
      (s, Txt data (text_path t) (u16 (text_len t - 1)) (u16 (text_cursor t - 1))
            (text_insert_mode t)).

Definition pc_vga_text_left (v : vga dev) : option (vga dev) :=
  let '(s, t) := v in
  if 0 <? text_cursor t then
    let cursor := u16 (text_cursor t - 1) in
    p ← aget (text_path t) cursor;
    Some (vga_cursor_pos_set p s,
          Txt (text_data t) (text_path t) (text_len t) cursor (text_insert_mode t))
  else Some v.

Definition pc_vga_text_right (v : vga dev) : option (vga dev) :=
  let '(s, t) := v in
  if text_cursor t <? text_len t then
    let cursor := u16 (text_cursor t + 1) in
    p ← aget (text_path t) cursor;
    Some (vga_cursor_pos_set p s,
          Txt (text_data t) (text_path t) (text_len t) cursor (text_insert_mode t))
  else Some v.

Definition pc_vga_text_delete (v : vga dev) : option (vga dev) :=
  let '(s, t) := v in
  if text_len t <=? text_cursor t then Some v
  else
    data ← shift_down (Z.to_nat (text_len t - u16 (text_cursor t + 1)))
             (u16 (text_cursor t + 1)) (text_data t);
    vga_text_rerender
      (s, Txt data (text_path t) (u16 (text_len t - 1)) (text_cursor t) (text_insert_mode t)).

Definition pc_vga_text_toggle_insert (v : vga dev) : option (vga dev) :=
  let '(s, t) := v in
  Some (s, Txt (text_data t) (text_path t) (text_len t) (text_cursor t)
             (if negb (text_insert_mode t =? 0) then 0 else 1)).

End Vga.

(** The zero-initialised statics; [color] starts at 7. *)
Definition vga_boot {dev} (d : dev) : vga dev :=
  (Screen (replicate 2000 0) 0 0 7 d, Txt (replicate 2000 0) (replicate 2001 0) 0 0 0).

End Vga.

(** * Correctness of the VGA text console

    Every operation stays inside its arrays and keeps the cursor on the screen;
    scrolling moves the screen up by one line; the text line implements the
    abstract editor; what is rendered is the text, as long as it does not reach
    the end of the screen. *)

Module VgaProps.
Import Ports LineEdit Vga.

Section Props.
Context {dev : Type} `{port_io dev}.
Implicit Types (s : screen dev) (t : txt).

(** ** Screen memory *)

Lemma fill_spec n from v cs :
  (from + n <= length cs)%nat ->
  exists cs', fill n (Z.of_nat from) v cs = Some cs' /\ length cs' = length cs /\
    forall j, cs' !! j = if decide (from <= j < from + n)%nat then Some v else cs !! j.
Proof.
  revert from cs. induction n as [|n IH]; intros from cs Hl.
  { exists cs. split; [done|]. split; [done|]. intros j. case_decide; [lia|done]. }
  cbn [fill]. rewrite aset_nat by lia. cbn [mbind option_bind].
  replace (Z.of_nat from + 1) with (Z.of_nat (S from)) by lia.
  destruct (IH (S from) (<[from := v]> cs)) as (cs' & H1 & H2 & H3); [rewrite length_insert; lia|].
  exists cs'. rewrite length_insert in H2. split; [done|]. split; [done|]. intros j.
  rewrite H3. repeat case_decide; try done; try lia.
  - assert (j = from) as -> by lia. by rewrite list_lookup_insert_eq by lia.
  - by rewrite list_lookup_insert_ne by lia.
Qed.

Lemma scroll_cols_spec n r c cs :
  1 <= r -> 0 <= c -> c + Z.of_nat n <= 80 -> r * 80 + c + Z.of_nat n <= Z.of_nat (length cs) ->
  exists cs', scroll_cols n r c cs = Some cs' /\ length cs' = length cs /\
    forall j, cs' !! j = if decide ((r - 1) * 80 + c <= Z.of_nat j < (r - 1) * 80 + c + Z.of_nat n)
                         then cs !! (j + 80)%nat else cs !! j.
Proof.
  revert c cs. induction n as [|n IH]; intros c cs Hr Hc Hn Hl.
  { exists cs. split; [done|]. split; [done|]. intros j. case_decide; [lia|done]. }
  cbn [scroll_cols]. unfold VGA_WIDTH. set (p := Z.to_nat ((r - 1) * 80 + c)).
  replace (r * 80 + c) with (Z.of_nat (p + 80)) by lia.
  replace ((r - 1) * 80 + c) with (Z.of_nat p) by lia. rewrite aget_nat.
  destruct (lookup_lt_is_Some_2 cs (p + 80) ltac:(lia)) as [v Hv]. rewrite Hv.
  cbn [mbind option_bind]. rewrite aset_nat by lia. cbn [mbind option_bind].
  destruct (IH (c + 1) (<[p := v]> cs)) as (cs' & H1 & H2 & H3);
    [lia|lia|lia|rewrite length_insert; lia|].
  exists cs'. rewrite length_insert in H2. split; [done|]. split; [done|]. intros j.
  rewrite H3. repeat case_decide; try lia.
  - by rewrite list_lookup_insert_ne by lia.
  - assert (j = p) as -> by lia. by rewrite list_lookup_insert_eq by lia.
  - by rewrite list_lookup_insert_ne by lia.
Qed.

Lemma scroll_rows_spec n r cs :
  1 <= r -> (r + Z.of_nat n) * 80 <= Z.of_nat (length cs) ->
  exists cs', scroll_rows n r cs = Some cs' /\ length cs' = length cs /\
    forall j, cs' !! j = if decide ((r - 1) * 80 <= Z.of_nat j < (r - 1 + Z.of_nat n) * 80)
                         then cs !! (j + 80)%nat else cs !! j.
Proof.
  revert r cs. induction n as [|n IH]; intros r cs Hr Hl.
  { exists cs. split; [done|]. split; [done|]. intros j. case_decide; [lia|done]. }
  cbn [scroll_rows].
  destruct (scroll_cols_spec (Z.to_nat VGA_WIDTH) r 0 cs) as (c1 & H1 & H2 & H3);
    [lia|lia|unfold VGA_WIDTH; lia|unfold VGA_WIDTH; lia|].
  rewrite H1. cbn [mbind option_bind]. change (Z.of_nat (Z.to_nat VGA_WIDTH)) with 80 in H3.
  destruct (IH (r + 1) c1) as (c2 & K1 & K2 & K3); [lia|rewrite H2; lia|].
  exists c2. split; [done|]. split; [congruence|]. intros j. rewrite K3, !H3.
  repeat case_decide; done || lia.
Qed.

(** One line up, a blank line below. *)
Definition scrolled (blank : Z) (cs : list Z) : list Z := drop 80 cs ++ replicate 80 blank.

Lemma vga_scroll_up_val s :
  length (cells s) = 2000%nat ->
  vga_scroll_up s =
    Some (Screen (scrolled (cell (color s) 32) (cells s)) (row s) (col s) (color s) (port s)).
Proof.
  intros Hl. unfold vga_scroll_up.
  destruct (scroll_rows_spec 24 1 (cells s)) as (c1 & H1 & H2 & H3); [lia|lia|].
  change (Z.to_nat (VGA_HEIGHT - 1)) with 24%nat. rewrite H1. cbn [mbind option_bind].
  destruct (fill_spec 80 1920 (cell (color s) 32) c1) as (c2 & K1 & K2 & K3); [lia|].
  change (Z.to_nat VGA_WIDTH) with 80%nat.
  change ((VGA_HEIGHT - 1) * VGA_WIDTH) with (Z.of_nat 1920). rewrite K1. cbn [mbind option_bind].
  do 2 f_equal. apply list_eq. intros j. rewrite K3, H3. unfold scrolled. rewrite lookup_app, lookup_drop.
  destruct (decide (j < 1920)%nat).
  - rewrite decide_False, decide_True by lia. replace (80 + j)%nat with (j + 80)%nat by lia.
    by destruct (lookup_lt_is_Some_2 (cells s) (j + 80) ltac:(lia)) as [x ->].
  - rewrite (lookup_ge_None_2 _ (80 + j)) by lia. rewrite length_drop.
    repeat case_decide; try lia.
    + symmetry. apply lookup_replicate_2. lia.
    + rewrite (lookup_ge_None_2 (cells s)) by lia. symmetry. apply lookup_ge_None.
      rewrite length_replicate. lia.
Qed.

Record screen_ok s : Prop := {
  so_cells : length (cells s) = 2000%nat;
  so_row : 0 <= row s < 25;
  so_col : 0 <= col s < 80
}.

Lemma scrolled_length b cs : length cs = 2000%nat -> length (scrolled b cs) = 2000%nat.
Proof. intros Hl. unfold scrolled. rewrite length_app, length_drop, length_replicate. lia. Qed.

Lemma hw_update_ok s : screen_ok s -> screen_ok (vga_hw_cursor_update s).
Proof. by intros [? ? ?]. Qed.

Lemma ensure_visible_ok s :
  length (cells s) = 2000%nat -> 0 <= row s <= 25 -> 0 <= col s < 80 ->
  exists s', vga_ensure_row_visible s = Some s' /\ screen_ok s' /\ color s' = color s.
Proof.
  intros H1 H2 H3. unfold vga_ensure_row_visible. unfold VGA_HEIGHT at 1.
  destruct (Z.leb_spec 25 (row s)).
  - rewrite vga_scroll_up_val by done. cbn -[scrolled]. eexists. split; [reflexivity|].
    split; [|done]. split; cbn -[scrolled]; [by apply scrolled_length|vm_compute; by split|done].
  - exists s. split; [done|]. split; [|done]. split; lia || done.
Qed.

Lemma putc_ok c s :
  screen_ok s -> exists s', pc_vga_putc c s = Some s' /\ screen_ok s' /\ color s' = color s.
Proof.
  intros [H1 H2 H3]. unfold pc_vga_putc, poke. case_bool.
  - destruct (ensure_visible_ok (Screen (cells s) (u16 (row s + 1)) 0 (color s) (port s)))
      as (s' & -> & Hs & Hc); cbn; [done|unwrap; lia|lia|].
    eexists. split; [reflexivity|]. split; [by apply hw_update_ok|done].
  - replace (row s * VGA_WIDTH + col s) with (Z.of_nat (Z.to_nat (row s * 80 + col s)))
      by (unfold VGA_WIDTH; lia).
    rewrite aset_nat by lia. cbn [mbind option_bind cells row col color port].
    set (s1 := if _ <=? _ then _ else _).
    assert (length (cells s1) = 2000%nat /\ 0 <= row s1 <= 25 /\ 0 <= col s1 < 80 /\
            color s1 = color s) as (K1 & K2 & K3 & K4).
    { unfold s1, VGA_WIDTH. unwrap. case_bool; cbn; rewrite length_insert; repeat split; lia. }
    destruct (ensure_visible_ok s1 K1 K2 K3) as (s' & -> & Hs & Hc).
    eexists. split; [reflexivity|]. split; [by apply hw_update_ok|]. cbn. congruence.
Qed.

Lemma puts_ok str s :
  screen_ok s -> exists s', pc_vga_puts str s = Some s' /\ screen_ok s' /\ color s' = color s.
Proof.
  revert s. induction str as [|c str IH]; intros s Hs; [by exists s|].
  cbn [pc_vga_puts]. destruct (putc_ok c s Hs) as (s1 & -> & H1 & Hc).
  destruct (IH s1 H1) as (s2 & K & H2 & Hc2). exists s2. cbn. by rewrite K, Hc2.
Qed.

Lemma pos_get_range s : screen_ok s -> 0 <= vga_cursor_pos_get s < 2000.
Proof. intros [_ H1 H2]. unfold vga_cursor_pos_get, VGA_WIDTH. unwrap. lia. Qed.

Lemma pos_bounds p : 0 <= p < 2000 -> 0 <= p / 80 < 25 /\ 0 <= p mod 80 < 80 /\ p / 80 * 80 + p mod 80 = p.
Proof. intros Hp. Z.to_euclidean_division_equations. lia. Qed.

Lemma pos_set_ok p s : 0 <= p < 2000 -> screen_ok s -> screen_ok (vga_cursor_pos_set p s).
Proof.
  intros Hp [H1 H2 H3]. apply hw_update_ok. destruct (pos_bounds p Hp) as (K1 & K2 & _).
  split; cbn [cells row col]; [done| |]; unfold VGA_WIDTH; rewrite u16_small; lia.
Qed.

Lemma pos_get_set p s : 0 <= p < 2000 -> vga_cursor_pos_get (vga_cursor_pos_set p s) = p.
Proof.
  intros Hp. destruct (pos_bounds p Hp) as (K1 & K2 & K3).
  unfold vga_cursor_pos_get, vga_cursor_pos_set, vga_hw_cursor_update, VGA_WIDTH.
  cbn [cells row col]. rewrite (u16_small (p / 80)), (u16_small (p mod 80)), u16_small by lia. done.
Qed.

(** ** Rendering *)

Lemma clear_from_ok n p s :
  screen_ok s -> 0 <= p -> p + Z.of_nat n = 2000 ->
  exists s', clear_from n p s = Some s' /\ screen_ok s' /\ color s' = color s /\
    (forall j, cells s' !! j =
       if decide (p <= Z.of_nat j < 2000) then Some (cell (color s) 32) else cells s !! j).
Proof.
  revert p s. induction n as [|n IH]; intros p s Hs H0 Hp.
  { exists s. split; [done|]. split; [done|]. split; [done|]. intros j. case_decide; [lia|done]. }
  cbn [clear_from]. destruct (pos_bounds p ltac:(lia)) as (K1 & K2 & K3).
  unfold pc_vga_putc_at, poke, VGA_WIDTH, VGA_HEIGHT.
  rewrite (u16_small (p / 80)), (u16_small (p mod 80)) by lia.
  rewrite (Z.mod_small (p / 80)), (Z.mod_small (p mod 80)) by lia.
  rewrite (u16_small (p / 80)), (u16_small (p mod 80)), K3 by lia.
  pose proof (so_cells _ Hs) as Hl. set (i := Z.to_nat p).
  replace p with (Z.of_nat i) by lia. rewrite aset_nat by lia. cbn [mbind option_bind].
  destruct (IH (Z.of_nat i + 1) (Screen (<[i := cell (color s) 32]> (cells s)) (row s) (col s)
    (color s) (port s))) as (s' & H1 & H2 & H3 & H4).
  { destruct Hs. split; cbn; [by rewrite length_insert|done|done]. }
  { lia. } { lia. }
  exists s'. split; [done|]. split; [done|]. split; [done|]. intros j. rewrite H4. cbn [cells color].
  repeat case_decide; try done; try lia.
  - assert (j = i) as -> by lia. by rewrite list_lookup_insert_eq by lia.
  - by rewrite list_lookup_insert_ne by lia.
Qed.

Record txt_ok t : Prop := {
  to_data : length (text_data t) = 2000%nat;
  to_path : length (text_path t) = 2001%nat;
  to_pos : Forall (fun p => 0 <= p < 2000) (text_path t);
  to_cur : 0 <= text_cursor t <= text_len t;
  to_len : text_len t <= 2000
}.

Lemma path_get path i :
  Forall (fun p => 0 <= p < 2000) path -> 0 <= i < Z.of_nat (length path) ->
  exists p, aget path i = Some p /\ 0 <= p < 2000.
Proof.
  intros Hf Hi. replace i with (Z.of_nat (Z.to_nat i)) by lia. rewrite aget_nat.
  destruct (lookup_lt_is_Some_2 path (Z.to_nat i) ltac:(lia)) as [p Hp].
  exists p. split; [done|]. by apply (Forall_lookup_1 _ _ _ _ Hf Hp).
Qed.

Lemma render_ok n i data path s :
  screen_ok s -> Forall (fun p => 0 <= p < 2000) path -> length path = 2001%nat ->
  length data = 2000%nat -> 0 <= i -> i + Z.of_nat n <= 2000 ->
  exists path' s', render n i data path s = Some (path', s') /\ screen_ok s' /\
    color s' = color s /\ Forall (fun p => 0 <= p < 2000) path' /\ length path' = 2001%nat.
Proof.
  revert i path s. induction n as [|n IH]; intros i path s Hs Hf Hl Hd Hi Hn; [by exists path, s|].
  cbn [render]. set (k := Z.to_nat i). replace i with (Z.of_nat k) by lia. rewrite aget_nat.
  destruct (lookup_lt_is_Some_2 data k ltac:(lia)) as [c Hc]. rewrite Hc. cbn [mbind option_bind].
  destruct (putc_ok c s Hs) as (s1 & -> & Hs1 & Hc1). cbn [mbind option_bind].
  replace (Z.of_nat k + 1) with (Z.of_nat (S k)) by lia. rewrite aset_nat by lia.
  cbn [mbind option_bind]. rewrite <- Hc1. apply IH; rewrite ?length_insert; try done; try lia.
  apply Forall_insert; [done|by apply pos_get_range].
Qed.

(** Rendering changes the screen and the recorded positions only. *)
Lemma rerender_ok s t :
  screen_ok s -> txt_ok t ->
  exists s' path, vga_text_rerender (s, t) =
      Some (s', Txt (text_data t) path (text_len t) (text_cursor t) (text_insert_mode t)) /\
    screen_ok s' /\ color s' = color s /\ length path = 2001%nat /\
    Forall (fun p => 0 <= p < 2000) path.
Proof.
  intros Hs [H1 H2 H3 H4 H5]. unfold vga_text_rerender.
  destruct (path_get (text_path t) 0 H3 ltac:(lia)) as (p0 & -> & Hp0). cbn [mbind option_bind].
  change (VGA_WIDTH * VGA_HEIGHT) with 2000.
  destruct (clear_from_ok (Z.to_nat (2000 - p0)) p0 s Hs) as (s1 & -> & Hs1 & Hc1 & _); [lia|lia|].
  cbn [mbind option_bind]. rewrite pos_get_set by done.
  rewrite (aset_nat (text_path t) 0) by lia. cbn [mbind option_bind].
  destruct (render_ok (Z.to_nat (text_len t)) 0 (text_data t) (<[0%nat := p0]> (text_path t))
    (vga_cursor_pos_set p0 s1)) as (path & s2 & -> & Hs2 & Hc2 & Hf & Hl);
    rewrite ?length_insert; try done; try lia; [by apply pos_set_ok|by apply Forall_insert|].
  cbn [mbind option_bind].
  destruct (path_get path (text_cursor t) Hf ltac:(lia)) as (p & -> & Hp). cbn [mbind option_bind].
  eexists _, path. split; [reflexivity|]. split; [by apply pos_set_ok|].
  split; [|done]. cbn. by rewrite Hc2.
Qed.

(** Without a newline and before the last cell, a character moves the cursor by
    one cell and does not scroll. *)
Lemma putc_advance c s p :
  screen_ok s -> vga_cursor_pos_get s = p -> p < 1999 -> c <> 10 ->
  exists s', pc_vga_putc c s = Some s' /\ screen_ok s' /\ color s' = color s /\
    cells s' = <[Z.to_nat p := cell (color s) c]> (cells s) /\ vga_cursor_pos_get s' = p + 1.
Proof.
  intros Hs Hp Hlt Hc. destruct (putc_ok c s Hs) as (s' & Hput & Hs' & Hcol).
  exists s'. split; [done|]. split; [done|]. split; [done|]. destruct Hs as [H1 H2 H3].
  unfold vga_cursor_pos_get, VGA_WIDTH in Hp. rewrite u16_small in Hp by lia.
  revert Hput. unfold pc_vga_putc, poke, vga_ensure_row_visible.
  destruct (Z.eqb_spec c 10) as [|_]; [done|].
  replace (row s * VGA_WIDTH + col s) with (Z.of_nat (Z.to_nat p)) by (unfold VGA_WIDTH; lia).
  rewrite aset_nat by lia. cbn [mbind option_bind cells row col color port].
  change VGA_WIDTH with 80. change VGA_HEIGHT with 25. rewrite (u16_small (col s + 1)) by lia.
  destruct (Z.leb_spec 80 (col s + 1)); cbn [row col cells color port mbind option_bind].
  - rewrite u16_small by lia. destruct (Z.leb_spec 25 (row s + 1)); [lia|].
    cbn [mbind option_bind]. intros [= <-]. split; [done|].
    unfold vga_cursor_pos_get, VGA_WIDTH. cbn [row col vga_hw_cursor_update]. rewrite u16_small; lia.
  - destruct (Z.leb_spec 25 (row s)); [lia|]. cbn [mbind option_bind]. intros [= <-]. split; [done|].
    unfold vga_cursor_pos_get, VGA_WIDTH. cbn [row col vga_hw_cursor_update]. rewrite u16_small; lia.
Qed.

Lemma render_shows l : forall i data path s p,
  screen_ok s -> vga_cursor_pos_get s = p -> p + Z.of_nat (length l) < 2000 -> 10 ∉ l ->
  (forall k, (k < length l)%nat -> data !! (i + k)%nat = l !! k) ->
  (i + length l < length path)%nat ->
  exists path' s', render (length l) (Z.of_nat i) data path s = Some (path', s') /\
    screen_ok s' /\ color s' = color s /\ vga_cursor_pos_get s' = p + Z.of_nat (length l) /\
    length path' = length path /\
    (forall j, path' !! j = if decide (i < j <= i + length l)%nat
                            then Some (p + Z.of_nat (j - i)) else path !! j) /\
    (forall j, cells s' !! j = if decide (p <= Z.of_nat j < p + Z.of_nat (length l))
                               then cell (color s) <$> l !! (j - Z.to_nat p)%nat else cells s !! j).
Proof.
  induction l as [|c l IH]; intros i data path s p Hs Hp Hlt Hnl Hd Hl; cbn [length render].
  { exists path, s. split; [done|]. split; [done|]. split; [done|]. split; [simpl; lia|].
    split; [done|]. split; intros j; case_decide; done || lia. }
  cbn [length] in *. pose proof (pos_get_range s Hs) as Hr. rewrite Hp in Hr.
  rewrite aget_nat. pose proof (Hd 0%nat ltac:(lia)) as H0. rewrite Nat.add_0_r in H0. rewrite H0.
  cbn [mbind option_bind lookup list_lookup].
  destruct (putc_advance c s p Hs Hp ltac:(lia) ltac:(set_solver)) as (s1 & -> & Hs1 & Hc1 & Hce & Hp1).
  cbn [mbind option_bind]. replace (Z.of_nat i + 1) with (Z.of_nat (S i)) by lia.
  rewrite aset_nat by lia. cbn [mbind option_bind].
  destruct (IH (S i) data (<[S i := vga_cursor_pos_get s1]> path) s1 (p + 1))
    as (path' & s' & H1 & H2 & H3 & Hpp & Hll & H4 & H5); rewrite ?length_insert in *; try done; try lia;
    [set_solver| |].
  { intros k Hk. replace (S i + k)%nat with (i + S k)%nat by lia. by rewrite Hd by lia. }
  exists path', s'. split; [done|]. split; [done|]. split; [congruence|]. split; [lia|].
  split; [done|]. split.
  - intros j. rewrite H4, Hp1. repeat case_decide; try lia.
    + f_equal. lia.
    + assert (j = S i) as -> by lia. rewrite list_lookup_insert_eq by lia. f_equal. lia.
    + by rewrite list_lookup_insert_ne by lia.
  - intros j. rewrite H5, Hce, Hc1. pose proof (so_cells _ Hs). repeat case_decide; try lia.
    + by replace (j - Z.to_nat p)%nat with (S (j - Z.to_nat (p + 1))) by lia.
    + assert (j = Z.to_nat p) as -> by lia. rewrite list_lookup_insert_eq by lia.
      by rewrite Nat.sub_diag.
    + by rewrite list_lookup_insert_ne by lia.
Qed.

(** ** The text line implements the abstract editor *)

Record txt_rep t (e : editor) : Prop := {
  tr_text : holds (text_data t) (text e);
  tr_len : text_len t = Z.of_nat (length (text e));
  tr_cur : text_cursor t = Z.of_nat (cur e);
  tr_ins : negb (text_insert_mode t =? 0) = ins e
}.

Record good (v : vga dev) (e : editor) : Prop := {
  gd_screen : screen_ok v.1;
  gd_txt : txt_ok v.2;
  gd_rep : txt_rep v.2 e
}.

(** The screen shows the text from cell [p0] on, blank cells after it, the old
    contents before it, and the cursor at its place in the text. *)
Record shown (old : list Z) (p0 : Z) (e : editor) s : Prop := {
  sh_pos : vga_cursor_pos_get s = p0 + Z.of_nat (cur e);
  sh_cells j : cells s !! j =
    if decide (p0 <= Z.of_nat j < 2000)
    then Some (cell (color s) (default 32 (text e !! (j - Z.to_nat p0)%nat)))
    else old !! j
}.

Definition home t : Z := default 0 (text_path t !! 0%nat).

Lemma rerender_good s t e :
  screen_ok s -> txt_ok t -> txt_rep t e ->
  exists v', vga_text_rerender (s, t) = Some v' /\ good v' e.
Proof.
  intros Hs Ht He. destruct (rerender_ok s t Hs Ht) as (s' & path & H1 & H2 & _ & H4 & H5).
  eexists. split; [exact H1|]. destruct Ht, He. split; [done|by split|by split].
Qed.

Lemma rerender_shows s t e :
  screen_ok s -> txt_ok t -> txt_rep t e -> (cur e <= length (text e))%nat -> 10 ∉ text e ->
  home t + Z.of_nat (length (text e)) < 2000 ->
  exists s' t', vga_text_rerender (s, t) = Some (s', t') /\ color s' = color s /\
    home t' = home t /\ shown (cells s) (home t) e s'.
Proof.
  intros Hs [H1 H2 H3 H4 H5] [R1 R2 R3 R4] Hcur Hnl Hfit. unfold vga_text_rerender.
  destruct (path_get (text_path t) 0 H3 ltac:(lia)) as (p0 & Hg & Hp0).
  assert (home t = p0) as Hh by (unfold home; by rewrite <- (aget_nat (text_path t) 0), (Hg : aget _ (Z.of_nat 0) = _)).
  rewrite Hg, Hh in *. cbn [mbind option_bind]. change (VGA_WIDTH * VGA_HEIGHT) with 2000.
  destruct (clear_from_ok (Z.to_nat (2000 - p0)) p0 s Hs) as (s1 & -> & Hs1 & Hc1 & Hcl); [lia|lia|].
  cbn [mbind option_bind]. rewrite pos_get_set by done.
  rewrite (aset_nat (text_path t) 0) by lia. cbn [mbind option_bind].
  destruct (render_shows (text e) 0 (text_data t) (<[0%nat := p0]> (text_path t))
    (vga_cursor_pos_set p0 s1) p0) as (path & s2 & Hr & Hs2 & Hc2 & _ & _ & Hpa & Hce);
    rewrite ?length_insert; try done; try lia; [by apply pos_set_ok|by apply pos_get_set| |].
  { intros k Hk. by apply holds_lookup. }
  change (Z.of_nat 0) with 0 in Hr. rewrite R2, Nat2Z.id, Hr. cbn [mbind option_bind]. rewrite R3, aget_nat, Hpa.
  assert ((if decide (0 < cur e <= 0 + length (text e))%nat then Some (p0 + Z.of_nat (cur e - 0))
    else <[0%nat:=p0]> (text_path t) !! cur e) = Some (p0 + Z.of_nat (cur e))) as ->.
  { case_decide; [f_equal; lia|]. replace (cur e) with 0%nat by lia.
    rewrite list_lookup_insert_eq by lia. f_equal. lia. }
  cbn [mbind option_bind]. eexists _, _. split; [reflexivity|]. split; [cbn; by rewrite Hc2|].
  split; [unfold home; cbn [text_path]; rewrite Hpa; case_decide; [lia|]; by rewrite list_lookup_insert_eq by lia|].
  split; [apply pos_get_set; lia|]. intros j. cbn [cells color vga_cursor_pos_set vga_hw_cursor_update].
  rewrite Hce, Hc2. cbn [color cells vga_cursor_pos_set vga_hw_cursor_update]. rewrite Hcl, Hc1.
  destruct (decide (p0 <= Z.of_nat j < p0 + Z.of_nat (length (text e)))).
  - rewrite decide_True by lia.
    by destruct (lookup_lt_is_Some_2 (text e) (j - Z.to_nat p0) ltac:(lia)) as [x ->].
  - destruct (decide (p0 <= Z.of_nat j < 2000)); [|done].
    by rewrite (lookup_ge_None_2 (text e)) by lia.
Qed.

Lemma good_ed_ok v e : good v e -> ed_ok 2000 e.
Proof. intros [_ [_ _ _ H1 H2] [_ R2 R3 _]]. rewrite R2, R3 in *. unfold ed_ok. lia. Qed.

(** The arguments of a text operation's final rendering, as a state that
    represents the edited text. *)
Definition edited v e (t : txt) (e' : editor) : Prop :=
  length (text_data t) = 2000%nat /\ text_path t = text_path v.2 /\
  text_insert_mode t = text_insert_mode v.2 /\ txt_rep t e' /\ ed_ok 2000 e' /\ good v e.

Lemma edited_ok v e t e' : edited v e t e' -> txt_ok t.
Proof.
  intros (H1 & H2 & _ & [_ R2 R3 _] & H5 & [_ [_ K2 K3 _ _] _]). unfold ed_ok in H5.
  rewrite <- H2 in *. split; done || lia.
Qed.

Lemma edited_good v e t e' :
  edited v e t e' -> exists v', vga_text_rerender (v.1, t) = Some v' /\ good v' e'.
Proof.
  intros H'. apply rerender_good; [apply H'|by eapply edited_ok|apply H'].
Qed.

Lemma text_putc_edited c v e :
  good v e -> (length (text e) < 2000)%nat ->
  exists t, pc_vga_text_putc c v = vga_text_rerender (v.1, t) /\ edited v e t (ed_type 2000 c e).
Proof.
  intros Hg Hlt. pose proof (good_ed_ok v e Hg) as Hok. pose proof Hg as [Hs [D1 D2 D3 D4 D5] [R1 R2 R3 R4]].
  destruct v as [s t]. cbn [fst snd] in *. unfold pc_vga_text_putc, edited. cbn [fst snd].
  destruct (Z.leb_spec VGA_TEXT_PATH_MAX (text_len t)) as [Hb|_];
    [change VGA_TEXT_PATH_MAX with 2000 in Hb; lia|].
  pose proof (ed_type_ok 2000 c e Hok) as Hok'. unfold ed_type in *. unfold ed_ok in Hok.
  destruct (Nat.leb_spec 2000 (length (text e))); [lia|].
  assert ((text_insert_mode t =? 0) && (text_cursor t <? text_len t) =
    negb (ins e) && (cur e <? length (text e))%nat) as ->.
  { rewrite <- R4, negb_involutive. f_equal. lia. }
  destruct (negb (ins e) && (cur e <? length (text e))%nat) eqn:E.
  - rewrite R3, aset_nat by lia. cbn [mbind option_bind]. eexists. split; [reflexivity|].
    cbn. rewrite length_insert. split; [done|]. split; [done|]. split; [done|].
    split; [|done]. split; cbn; rewrite ?length_insert; try done.
    + apply holds_insert; [done|lia].
    + unwrap. lia.
  - destruct (shift_up_insert (text_data t) (text e) (cur e) c R1) as (a' & H1 & H2 & H3); [lia|].
    rewrite R2, R3. replace (Z.to_nat _) with (length (text e) - cur e)%nat by lia.
    rewrite H1. cbn [mbind option_bind]. rewrite aset_nat by lia. cbn [mbind option_bind].
    eexists. split; [reflexivity|]. cbn. rewrite length_insert. split; [lia|]. split; [done|].
    split; [done|]. split; [|done]. split; cbn; try done.
    + rewrite length_app, length_take, length_cons, length_drop. unwrap. lia.
    + unwrap. lia.
Qed.

Lemma text_backspace_edited v e :
  good v e -> (0 < cur e)%nat ->
  exists t, pc_vga_text_backspace v = vga_text_rerender (v.1, t) /\ edited v e t (ed_backspace e).
Proof.
  intros Hg Hlt. pose proof (good_ed_ok v e Hg) as Hok. pose proof Hg as [Hs [D1 D2 D3 D4 D5] [R1 R2 R3 R4]].
  destruct v as [s t]. cbn [fst snd] in *. unfold pc_vga_text_backspace, edited. cbn [fst snd].
  pose proof (ed_backspace_ok 2000 e Hok) as Hok'. unfold ed_backspace in *. unfold ed_ok in Hok.
  destruct (cur e) as [|n] eqn:E; [lia|]. destruct (Z.eqb_spec (text_cursor t) 0); [lia|].
  destruct (shift_down_remove (text_data t) (text e) n R1) as (a' & H1 & H2 & H3); [lia|].
  rewrite R2, R3. replace (Z.to_nat _) with (length (text e) - S n)%nat by lia. rewrite H1.
  cbn [mbind option_bind]. eexists. split; [reflexivity|]. cbn. split; [lia|]. split; [done|].
  split; [done|]. split; [|done]. split; cbn; try done.
  - rewrite length_app, length_take, length_drop. unwrap. lia.
  - unwrap. lia.
Qed.

Lemma text_delete_edited v e :
  good v e -> (cur e < length (text e))%nat ->
  exists t, pc_vga_text_delete v = vga_text_rerender (v.1, t) /\ edited v e t (ed_delete e).
Proof.
  intros Hg Hlt. pose proof (good_ed_ok v e Hg) as Hok. pose proof Hg as [Hs [D1 D2 D3 D4 D5] [R1 R2 R3 R4]].
  destruct v as [s t]. cbn [fst snd] in *. unfold pc_vga_text_delete, edited. cbn [fst snd].
  pose proof (ed_delete_ok 2000 e Hok) as Hok'. unfold ed_ok in Hok.
  destruct (Z.leb_spec (text_len t) (text_cursor t)); [lia|].
  destruct (shift_down_remove (text_data t) (text e) (cur e) R1) as (a' & H1 & H2 & H3); [lia|].
  rewrite R2, R3, (u16_small (Z.of_nat (cur e) + 1)) by lia.
  replace (Z.to_nat _) with (length (text e) - S (cur e))%nat by lia.
  replace (Z.of_nat (cur e) + 1) with (Z.of_nat (S (cur e))) by lia. rewrite H1.
  cbn [mbind option_bind]. eexists. split; [reflexivity|]. cbn. split; [lia|]. split; [done|].
  split; [done|]. split; [|done]. split; cbn; try done.
  rewrite length_app, length_take, length_drop. unwrap. lia.
Qed.

Lemma text_putc_good c v e :
  good v e -> exists v', pc_vga_text_putc c v = Some v' /\ good v' (ed_type 2000 c e).
Proof.
  intros Hg. destruct (decide (length (text e) < 2000)%nat) as [Hlt|Hge].
  - destruct (text_putc_edited c v e Hg Hlt) as (t & -> & Ht). by apply (edited_good v e).
  - exists v. pose proof Hg as [_ _ [_ R2 _ _]]. destruct v as [s t]. unfold pc_vga_text_putc, ed_type.
    cbn [snd] in R2. change VGA_TEXT_PATH_MAX with 2000.
    destruct (Z.leb_spec 2000 (text_len t)); [|lia].
    by destruct (Nat.leb_spec 2000 (length (text e))); [|lia].
Qed.

Lemma text_backspace_good v e :
  good v e -> exists v', pc_vga_text_backspace v = Some v' /\ good v' (ed_backspace e).
Proof.
  intros Hg. destruct (cur e) as [|n] eqn:E.
  - exists v. pose proof Hg as [_ _ [_ _ R3 _]]. destruct v as [s t]. unfold pc_vga_text_backspace, ed_backspace.
    cbn [snd] in R3. by rewrite E, R3, E.
  - destruct (text_backspace_edited v e Hg ltac:(lia)) as (t & -> & Ht). by apply (edited_good v e).
Qed.

Lemma text_delete_good v e :
  good v e -> (cur e < length (text e))%nat ->
  exists v', pc_vga_text_delete v = Some v' /\ good v' (ed_delete e).
Proof.
  intros Hg Hlt. destruct (text_delete_edited v e Hg Hlt) as (t & -> & Ht). by apply (edited_good v e).
Qed.

(** Moving the cursor. *)
Lemma move_good v e n :
  good v e -> (n <= length (text e))%nat ->
  exists p, aget (text_path v.2) (Z.of_nat n) = Some p /\
    good (vga_cursor_pos_set p v.1, Txt (text_data v.2) (text_path v.2) (text_len v.2) (Z.of_nat n)
            (text_insert_mode v.2)) (Ed (text e) n (ins e)).
Proof.
  intros Hg Hn. pose proof (good_ed_ok v e Hg) as [_ Hl].
  destruct Hg as [Hs [D1 D2 D3 D4 D5] [R1 R2 R3 R4]].
  destruct (path_get (text_path v.2) (Z.of_nat n) D3 ltac:(lia)) as (p & Hp & Hr). exists p.
  split; [done|]. split; cbn; [by apply pos_set_ok|split; cbn; done || lia|by split].
Qed.

Lemma text_left_good v e :
  good v e -> exists v', pc_vga_text_left v = Some v' /\ good v' (ed_left e).
Proof.
  intros Hg. pose proof (good_ed_ok v e Hg) as Hok. unfold ed_ok in Hok.
  destruct (move_good v e (cur e - 1) Hg ltac:(lia)) as (p & Hp & Hm).
  pose proof Hg as [_ _ [_ R2 R3 _]]. destruct v as [s t]. unfold pc_vga_text_left. cbn [fst snd] in *.
  destruct (Z.ltb_spec 0 (text_cursor t)).
  - rewrite R3, u16_small by lia. replace (Z.of_nat (cur e) - 1) with (Z.of_nat (cur e - 1)) by lia.
    rewrite Hp. cbn [mbind option_bind]. by eexists.
  - exists (s, t). split; [done|]. unfold ed_left. replace (cur e - 1)%nat with (cur e) by lia.
    by destruct e.
Qed.

Lemma text_right_good v e :
  good v e -> exists v', pc_vga_text_right v = Some v' /\ good v' (ed_right e).
Proof.
  intros Hg. pose proof (good_ed_ok v e Hg) as Hok. unfold ed_ok in Hok.
  unfold ed_right. destruct (Nat.ltb_spec (cur e) (length (text e))) as [Hlt|Hge].
  - destruct (move_good v e (S (cur e)) Hg ltac:(lia)) as (p & Hp & Hm).
    pose proof Hg as [_ _ [_ R2 R3 _]]. destruct v as [s t]. unfold pc_vga_text_right. cbn [fst snd] in *.
    destruct (Z.ltb_spec (text_cursor t) (text_len t)); [|lia].
    rewrite R3, u16_small by lia. replace (Z.of_nat (cur e) + 1) with (Z.of_nat (S (cur e))) by lia.
    rewrite Hp. cbn [mbind option_bind]. by eexists.
  - exists v. pose proof Hg as [_ _ [_ R2 R3 _]]. destruct v as [s t]. unfold pc_vga_text_right.
    cbn [snd] in *. destruct (Z.ltb_spec (text_cursor t) (text_len t)); [lia|]. split; [done|].
    by destruct e.
Qed.

Lemma text_toggle_good v e :
  good v e -> exists v', pc_vga_text_toggle_insert v = Some v' /\ good v' (ed_toggle e).
Proof.
  intros [Hs [D1 D2 D3 D4 D5] [R1 R2 R3 R4]]. destruct v as [s t]. eexists. split; [reflexivity|].
  split; cbn in *; [done|by split|split; cbn; try done]. rewrite <- R4. by destruct (text_insert_mode t =? 0).
Qed.

Lemma text_begin_good r c v :
  0 <= r -> 0 <= c -> screen_ok v.1 -> txt_ok v.2 ->
  exists v', pc_vga_text_begin r c v = Some v' /\ good v' (Ed [] 0 true).
Proof.
  intros Hr Hc Hs [D1 D2 D3 D4 D5]. destruct v as [s t]. unfold pc_vga_text_begin. cbn [fst snd] in *.
  assert (screen_ok (pc_vga_set_cursor r c s)) as Hs'.
  { apply hw_update_ok. pose proof (Z.mod_pos_bound r 25). pose proof (Z.mod_pos_bound c 80).
    split; cbn [cells row col]; [apply Hs| |]; unfold VGA_HEIGHT, VGA_WIDTH; rewrite u16_small; lia. }
  rewrite (aset_nat (text_path t) 0) by lia. cbn [mbind option_bind]. apply rerender_good; [done| |].
  - split; cbn; rewrite ?length_insert; try done.
    apply Forall_insert; [done|by apply pos_get_range].
  - split; cbn; try done. split; [simpl; lia|done].
Qed.

Lemma init_ok v :
  screen_ok v.1 -> txt_ok v.2 ->
  exists v', pc_vga_init v = Some v' /\ screen_ok v'.1 /\ txt_ok v'.2.
Proof.
  intros [H1 H2 H3] [D1 D2 D3 D4 D5]. destruct v as [s t]. cbn [fst snd] in *.
  unfold pc_vga_init. set (s1 := vga_hw_cursor_enable 14 15 _).
  assert (cells s1 = cells s /\ row s1 = 0 /\ col s1 = 0) as (E1 & E2 & E3).
  { unfold s1, vga_hw_cursor_enable. by repeat destruct (inb _ _). }
  destruct (fill_spec 2000 0 (cell (color s1) 32) (cells s1)) as (cs & Hf & Hl & _);
    [rewrite E1, H1; lia|].
  change (Z.to_nat (VGA_WIDTH * VGA_HEIGHT)) with 2000%nat. change (Z.of_nat 0) with 0 in Hf.
  rewrite Hf. cbn [mbind option_bind]. rewrite (aset_nat (text_path t) 0) by lia.
  cbn [mbind option_bind]. eexists. split; [reflexivity|]. rewrite E1, H1 in Hl.
  split; split; cbn; rewrite ?length_insert; try done; try lia.
  apply Forall_insert; [done|lia].
Qed.

(** ** Rendering past the end of the screen *)

(** The last cell of the screen: the character is stored and everything moves up. *)
Lemma putc_last c s :
  screen_ok s -> vga_cursor_pos_get s = 1999 -> c <> 10 ->
  exists s', pc_vga_putc c s = Some s' /\ screen_ok s' /\ color s' = color s /\
    cells s' = scrolled (cell (color s) 32) (<[1999%nat := cell (color s) c]> (cells s)) /\
    vga_cursor_pos_get s' = 1920.
Proof.
  intros Hs Hp Hc. destruct (putc_ok c s Hs) as (s' & Hput & Hs' & Hcol).
  exists s'. split; [done|]. split; [done|]. split; [done|]. destruct Hs as [H1 H2 H3].
  unfold vga_cursor_pos_get, VGA_WIDTH in Hp. rewrite u16_small in Hp by lia.
  assert (row s = 24 /\ col s = 79) as [Er Ec] by lia.
  revert Hput. unfold pc_vga_putc, poke, vga_ensure_row_visible.
  destruct (Z.eqb_spec c 10) as [|_]; [done|]. rewrite Er, Ec.
  change (24 * VGA_WIDTH + 79) with (Z.of_nat 1999). rewrite aset_nat by lia.
  cbn [mbind option_bind cells row col color port].
  change (VGA_WIDTH <=? u16 (79 + 1)) with true. cbv iota. cbn [row].
  change (VGA_HEIGHT <=? u16 (24 + 1)) with true. cbv iota.
  rewrite vga_scroll_up_val by (cbn [cells]; by rewrite length_insert).
  cbn [mbind option_bind cells row col color port]. intros [= <-]. done.
Qed.

Lemma render_app n1 n2 i data path s :
  render (n1 + n2) i data path s =
    '(path', s') ← render n1 i data path s; render n2 (i + Z.of_nat n1) data path' s'.
Proof.
  revert i path s. induction n1 as [|n1 IH]; intros i path s.
  { cbn [Nat.add render mbind option_bind]. by rewrite Z.add_0_r. }
  cbn [Nat.add render]. destruct (aget data i) as [c|]; [|done]. cbn [mbind option_bind].
  destruct (pc_vga_putc c s) as [s1|]; [|done]. cbn [mbind option_bind].
  destruct (aset path (i + 1) (vga_cursor_pos_get s1)) as [path1|]; [|done]. cbn [mbind option_bind].
  rewrite IH. by replace (i + 1 + Z.of_nat n1) with (i + Z.of_nat (S n1)) by lia.
Qed.

(** A text that runs over the end by less than a line scrolls once. *)
Lemma render_scrolls l1 c l2 data path s p :
  screen_ok s -> vga_cursor_pos_get s = p -> p + Z.of_nat (length l1) = 1999 ->
  (length l2 < 80)%nat -> 10 ∉ l1 ++ c :: l2 -> holds data (l1 ++ c :: l2) ->
  (length (l1 ++ c :: l2) < length path)%nat ->
  exists path' s', render (length (l1 ++ c :: l2)) 0 data path s = Some (path', s') /\
    (forall j, (Z.of_nat j < p - 80) -> cells s' !! j = cells s !! (j + 80)%nat) /\
    path' !! 0%nat = path !! 0%nat.
Proof.
  intros Hs Hp Hend Hl2 Hnl Hd Hl.
  assert (forall k, (k < length (l1 ++ c :: l2))%nat -> data !! k = (l1 ++ c :: l2) !! k) as Hk
    by (intros k Hk; by apply holds_lookup).
  rewrite length_app in *. cbn [length] in *.
  replace (length l1 + S (length l2))%nat with (length l1 + (1 + length l2))%nat by lia.
  rewrite render_app.
  destruct (render_shows l1 0 data path s p) as (p1 & s1 & Hr1 & Hs1 & Hc1 & Hp1 & Hl1 & Hpa1 & Hce1);
    [done|done|lia|set_solver| |lia|].
  { intros k Hlt. rewrite Hk by lia. by rewrite lookup_app_l by lia. }
  change (Z.of_nat 0) with 0 in Hr1. rewrite Hr1. cbn [mbind option_bind]. rewrite render_app.
  cbn [render]. rewrite Z.add_0_l, aget_nat, Hk by lia. rewrite list_lookup_middle by done.
  cbn [mbind option_bind].
  destruct (putc_last c s1 Hs1 ltac:(lia) ltac:(set_solver)) as (s2 & -> & Hs2 & Hc2 & Hce2 & Hp2).
  cbn [mbind option_bind]. replace (Z.of_nat (length l1) + 1) with (Z.of_nat (S (length l1))) by lia.
  rewrite aset_nat by lia. cbn [mbind option_bind].
  destruct (render_shows l2 (S (length l1)) data (<[S (length l1) := vga_cursor_pos_get s2]> p1) s2 1920)
    as (p3 & s3 & Hr3 & _ & _ & _ & _ & Hpa3 & Hce3); [done|done|lia|set_solver| |rewrite length_insert; lia|].
  { intros k Hlt. rewrite Hk by lia. rewrite lookup_app_r by lia.
    by replace (S (length l1) + k - length l1)%nat with (S k) by lia. }
  replace (Z.of_nat (length l1) + Z.of_nat 1) with (Z.of_nat (S (length l1))) by lia.
  exists p3, s3. split; [exact Hr3|]. split.
  - intros j Hj. rewrite Hce3, decide_False by lia. rewrite Hce2. unfold scrolled.
    pose proof (so_cells _ Hs1). rewrite lookup_app_l by (rewrite length_drop, length_insert; lia).
    rewrite lookup_drop, list_lookup_insert_ne, Hce1, decide_False by lia. f_equal. lia.
  - rewrite Hpa3, decide_False by lia. rewrite list_lookup_insert_ne, Hpa1, decide_False by lia. done.
Qed.

Lemma rerender_scrolls s t e :
  screen_ok s -> txt_ok t -> txt_rep t e -> 10 ∉ text e ->
  2000 <= home t + Z.of_nat (length (text e)) < 2080 ->
  exists s' t', vga_text_rerender (s, t) = Some (s', t') /\ home t' = home t /\
    forall j, Z.of_nat j < home t - 80 -> cells s' !! j = cells s !! (j + 80)%nat.
Proof.
  intros Hs Ht He Hnl Hfit. pose proof Ht as [H1 H2 H3 H4 H5]. pose proof He as [R1 R2 R3 R4].
  destruct (rerender_ok s t Hs Ht) as (s' & path' & Hok & _).
  unfold vga_text_rerender in *.
  destruct (path_get (text_path t) 0 H3 ltac:(lia)) as (p0 & Hg & Hp0).
  assert (home t = p0) as Hh
    by (unfold home; by rewrite <- (aget_nat (text_path t) 0), (Hg : aget _ (Z.of_nat 0) = _)).
  rewrite Hg, Hh in *. cbn [mbind option_bind] in *. change (VGA_WIDTH * VGA_HEIGHT) with 2000 in *.
  destruct (clear_from_ok (Z.to_nat (2000 - p0)) p0 s Hs) as (s1 & Hcf & Hs1 & Hc1 & Hcl); [lia|lia|].
  rewrite Hcf in *. cbn [mbind option_bind] in *. rewrite pos_get_set in * by done.
  rewrite (aset_nat (text_path t) 0) in * by lia. cbn [mbind option_bind] in *.
  destruct (drop (Z.to_nat (1999 - p0)) (text e)) as [|c l2] eqn:Ed.
  { apply (f_equal length) in Ed. rewrite length_drop in Ed. simpl in Ed. lia. }
  assert (text e = take (Z.to_nat (1999 - p0)) (text e) ++ c :: l2) as Et by (by rewrite <- Ed, take_drop).
  assert (length (take (Z.to_nat (1999 - p0)) (text e)) = Z.to_nat (1999 - p0)) as Htl
    by (rewrite length_take; lia).
  assert (length (text e) = Z.to_nat (1999 - p0) + S (length l2))%nat as Hlen.
  { rewrite Et at 1. by rewrite length_app, Htl. }
  destruct (render_scrolls (take (Z.to_nat (1999 - p0)) (text e)) c l2 (text_data t)
    (<[0%nat := p0]> (text_path t)) (vga_cursor_pos_set p0 s1) p0) as (path & s2 & Hr & Hce & Hpa);
    rewrite <- ?Et, ?length_insert; try done; try lia; [by apply pos_set_ok|by apply pos_get_set|].
  rewrite <- Et in Hr. replace (length (text e)) with (Z.to_nat (text_len t)) in Hr by lia.
  rewrite Hr in *. cbn [mbind option_bind] in *.
  destruct (aget path (text_cursor t)) as [p|]; [|done]. cbn [mbind option_bind].
  eexists _, _. split; [reflexivity|]. split.
  - unfold home. cbn [text_path]. rewrite Hpa, list_lookup_insert_eq by lia. done.
  - intros j Hj. cbn [cells vga_cursor_pos_set vga_hw_cursor_update]. rewrite Hce by done.
    cbn [cells vga_cursor_pos_set vga_hw_cursor_update]. rewrite Hcl, decide_False by lia. done.
Qed.

(** The start of the line after [pc_vga_text_begin]. *)
Lemma text_begin_home r c v v' :
  0 <= r < 25 -> 0 <= c < 80 -> screen_ok v.1 -> txt_ok v.2 ->
  pc_vga_text_begin r c v = Some v' -> home v'.2 = r * 80 + c.
Proof.
  intros Hr Hc Hs [D1 D2 D3 D4 D5] Hb. destruct v as [s t]. cbn [fst snd] in *.
  unfold pc_vga_text_begin in Hb.
  assert (row (pc_vga_set_cursor r c s) = r /\ col (pc_vga_set_cursor r c s) = c) as [Er Ec].
  { unfold pc_vga_set_cursor, vga_hw_cursor_update, VGA_HEIGHT, VGA_WIDTH. cbn [row col].
    rewrite !Z.mod_small, !u16_small by lia. done. }
  assert (screen_ok (pc_vga_set_cursor r c s)) as Hs' by (split; [apply Hs|lia|lia]).
  assert (vga_cursor_pos_get (pc_vga_set_cursor r c s) = r * 80 + c) as Hp.
  { unfold vga_cursor_pos_get. rewrite Er, Ec. unfold VGA_WIDTH. rewrite u16_small; lia. }
  rewrite (aset_nat (text_path t) 0), Hp in Hb by lia. cbn [mbind option_bind] in Hb.
  destruct (rerender_shows (pc_vga_set_cursor r c s)
    (Txt (text_data t) (<[0%nat := r * 80 + c]> (text_path t)) 0 0 1) (Ed [] 0 true))
    as (s2 & t2 & Hr2 & _ & Hh & _); cbn; try done; try set_solver.
  - split; cbn; rewrite ?length_insert; try done. apply Forall_insert; [done|lia].
  - split; cbn; try done. split; [simpl; lia|done].
  - unfold home. cbn. rewrite list_lookup_insert_eq by lia. simpl. lia.
  - rewrite Hr2 in Hb. injection Hb as <-. cbn [snd]. rewrite Hh. unfold home. cbn.
    by rewrite list_lookup_insert_eq by lia.
Qed.

End Props.

(** ** Theorems *)

(** What is typed is what the screen shows.  As long as the edited text ends
    before the last cell of the screen, [pc_vga_text_putc] leaves on the screen
    exactly the edited text from the start position on, blanks after it, the old
    contents before it, and puts the cursor at its place in the text. *)
Theorem vga_typed_text_shown {dev} `{port_io dev} (v : vga dev) e c :
  good v e -> (length (text e) < 2000)%nat ->
  let e' := ed_type 2000 c e in
  10 ∉ text e' -> home v.2 + Z.of_nat (length (text e')) < 2000 ->
  exists s' t', pc_vga_text_putc c v = Some (s', t') /\ good (s', t') e' /\
    home t' = home v.2 /\ shown (cells v.1) (home v.2) e' s'.
Proof.
  intros Hg Hlt e' Hnl Hfit. destruct (text_putc_edited c v e Hg Hlt) as (t & Hp & He).
  assert (home t = home v.2) as Hh by (unfold home; by rewrite (proj1 (proj2 He))).
  destruct (edited_good v e t _ He) as (v' & Hv & Hg'). fold e' in Hg'.
  destruct (rerender_shows v.1 t e') as (s' & t' & Hr & _ & Hh' & Hsh).
  - apply Hg.
  - by eapply edited_ok.
  - apply He.
  - apply (good_ed_ok v' e' Hg').
  - done.
  - by rewrite Hh.
  - exists s', t'. rewrite Hp, Hr. rewrite Hr in Hv. injection Hv as <-. rewrite <- Hh. done.
Qed.

(** The console after [pc_vga_init], with the line starting at row 5. *)
Definition demo_vga : vga unit :=
  default (vga_boot tt) (v ← pc_vga_init (vga_boot tt); pc_vga_text_begin 5 10 v).

Lemma vga_boot_screen_ok : screen_ok (vga_boot tt).1 /\ txt_ok (vga_boot tt).2.
Proof.
  split; split; cbn -[replicate Z.lt Z.le]; rewrite ?length_replicate; try done; try lia.
  apply Forall_replicate. lia.
Qed.

Lemma demo_vga_good : good demo_vga (Ed [] 0 true).
Proof.
  destruct vga_boot_screen_ok as [H1 H2].
  destruct (init_ok (vga_boot tt) H1 H2) as (v & Hi & Hs & Ht).
  destruct (text_begin_good 5 10 v ltac:(lia) ltac:(lia) Hs Ht) as (v' & Hv & Hg).
  unfold demo_vga. rewrite Hi. cbn [mbind option_bind]. by rewrite Hv.
Qed.

Lemma demo_vga_home : home demo_vga.2 = 410.
Proof.
  destruct vga_boot_screen_ok as [H1 H2].
  destruct (init_ok (vga_boot tt) H1 H2) as (v & Hi & Hs & Ht).
  destruct (text_begin_good 5 10 v ltac:(lia) ltac:(lia) Hs Ht) as (v' & Hv & _).
  unfold demo_vga. rewrite Hi. cbn [mbind option_bind]. rewrite Hv.
  exact (text_begin_home 5 10 v v' ltac:(lia) ltac:(lia) Hs Ht Hv).
Qed.

Lemma vga_typed_text_shown_witness :
  exists s' t', pc_vga_text_putc 97 demo_vga = Some (s', t') /\
    good (s', t') (ed_type 2000 97 (Ed [] 0 true)) /\
    home t' = home demo_vga.2 /\
    shown (cells demo_vga.1) (home demo_vga.2) (ed_type 2000 97 (Ed [] 0 true)) s'.
Proof.
  apply (vga_typed_text_shown demo_vga (Ed [] 0 true) 97).
  - exact demo_vga_good.
  - simpl. lia.
  - simpl. intros [Hx|Hx]%elem_of_cons; [discriminate Hx|]. by apply not_elem_of_nil in Hx.
  - rewrite demo_vga_home. simpl. lia.
Defined.

(** a line that reaches the end of the screen scrolls at every key.  The start
    cell recorded in [text_path] is not adjusted when [pc_vga_putc] scrolls, so
    each rendering starts at the old cell and scrolls again: typing any character
    into a text that ends within the line after the last cell moves everything
    above the text up by one row, and leaves the recorded start where it was. *)
Theorem vga_line_at_end_scrolls_per_key {dev} `{port_io dev} (v : vga dev) e c :
  good v e -> (length (text e) < 2000)%nat ->
  let e' := ed_type 2000 c e in
  10 ∉ text e' -> 2000 <= home v.2 + Z.of_nat (length (text e')) < 2080 ->
  exists s' t', pc_vga_text_putc c v = Some (s', t') /\ home t' = home v.2 /\
    forall j, Z.of_nat j < home v.2 - 80 -> cells s' !! j = cells v.1 !! (j + 80)%nat.
Proof.
  intros Hg Hlt e' Hnl Hfit. destruct (text_putc_edited c v e Hg Hlt) as (t & Hp & He).
  assert (home t = home v.2) as Hh by (unfold home; by rewrite (proj1 (proj2 He))).
  rewrite <- Hh in *. rewrite Hp.
  apply (rerender_scrolls v.1 t e'); [apply Hg|by eapply edited_ok|apply He|done|done].
Qed.

(** A line started in the last cell of the screen. *)
Definition demo_end_vga : vga unit :=
  default (vga_boot tt) (v ← pc_vga_init (vga_boot tt); pc_vga_text_begin 24 79 v).

Lemma demo_end_good : good demo_end_vga (Ed [] 0 true) /\ home demo_end_vga.2 = 1999.
Proof.
  destruct vga_boot_screen_ok as [H1 H2].
  destruct (init_ok (vga_boot tt) H1 H2) as (v & Hi & Hs & Ht).
  destruct (text_begin_good 24 79 v ltac:(lia) ltac:(lia) Hs Ht) as (v' & Hv & Hg).
  unfold demo_end_vga. rewrite Hi. cbn [mbind option_bind]. rewrite Hv.
  split; [exact Hg|]. exact (text_begin_home 24 79 v v' ltac:(lia) ltac:(lia) Hs Ht Hv).
Qed.

Lemma vga_line_at_end_scrolls_per_key_witness :
  exists s' t', pc_vga_text_putc 97 demo_end_vga = Some (s', t') /\ home t' = home demo_end_vga.2 /\
    forall j, Z.of_nat j < home demo_end_vga.2 - 80 -> cells s' !! j = cells demo_end_vga.1 !! (j + 80)%nat.
Proof.
  apply (vga_line_at_end_scrolls_per_key demo_end_vga (Ed [] 0 true) 97).
  - apply demo_end_good.
  - simpl. lia.
  - simpl. intros [Hx|Hx]%elem_of_cons; [discriminate Hx|]. by apply not_elem_of_nil in Hx.
  - rewrite (proj2 demo_end_good). simpl. lia.
Defined.

End VgaProps.
