(* ===== verification/Display.v ===== *)
(** * The display switch

    [core/display/display_core.c]: the registered console driver behind a table
    of operations, with every character also sent to the serial line.  The table
    is the class [display_ops]; the theorems about clients hold for every
    instance, and the VGA console is one. *)

From S2P Require Import Prelude Ports LineEdit Vga Ps2.
From stdpp Require Import base list option list_numbers.
From Stdlib Require Import ZArith Lia ZifyBool.
Open Scope Z_scope.

Module Display.
Import Ports LineEdit Vga.

(** [system_display_ops_t]; [None] is an access outside the driver's arrays.
    [puts] and [hex_u32] of the table are never called by the switch. *)
Class display_ops (D : Type) := DisplayOps {
  op_init : D -> option D;
  op_set_color : Z -> D -> option D;
  op_get_cursor : D -> Z * Z;
  op_putc : Z -> D -> option D;
  op_text_begin : Z -> Z -> D -> option D;
  op_text_putc : Z -> D -> option D;
  op_text_backspace : D -> option D;
  op_text_left : D -> option D;
  op_text_right : D -> option D;
  op_text_delete : D -> option D;
  op_text_toggle_insert : D -> option D
}.

(** The VGA console's table. *)
#[export] Instance vga_display_ops {dev} `{port_io dev} : display_ops (vga dev) := {
  op_init := pc_vga_init;
  op_set_color c v := Some (pc_vga_set_color c v.1, v.2);
  op_get_cursor v := pc_vga_get_cursor v.1;
  op_putc c v := s ← pc_vga_putc c v.1; Some (s, v.2);
  op_text_begin := pc_vga_text_begin;
  op_text_putc := pc_vga_text_putc;
  op_text_backspace := pc_vga_text_backspace;
  op_text_left := pc_vga_text_left;
  op_text_right := pc_vga_text_right;
  op_text_delete := pc_vga_text_delete;
  op_text_toggle_insert := pc_vga_text_toggle_insert
}.

(** [active_display], and what [smod_serial_write] was given, newest first. *)
Record display (D : Type) := Disp { active_display : option D; serial : list Z }.
Arguments Disp {D}. Arguments active_display {D}. Arguments serial {D}.

Section Display.
Context {D : Type} `{display_ops D}.

(** [if (active_display) active_display->op(...);] *)
Definition with_active (f : D -> option D) (s : display D) : option (display D) :=
  match active_display s with
  | None => Some s
  | Some d => d ← f d; Some (Disp (Some d) (serial s))
  end.

Definition display_init : display D -> option (display D) := with_active op_init.
Definition display_set_color (c : Z) : display D -> option (display D) :=
  with_active (op_set_color c).

Definition display_get_cursor (s : display D) : Z * Z :=
  match active_display s with Some d => op_get_cursor d | None => (0, 0) end.

Definition display_putc (c : Z) (s : display D) : option (display D) :=
  s ← with_active (op_putc c) s; Some (Disp (active_display s) (c :: serial s)).

Fixpoint display_puts (str : list Z) (s : display D) : option (display D) :=
  match str with
  | [] => Some s
  | c :: str' => s ← display_putc c s; display_puts str' s
  end.

Definition display_hex_u32 (n : Z) (s : display D) : option (display D) :=
  s ← display_puts [48; 120] s; display_puts (hex_digit n <$> [7; 6; 5; 4; 3; 2; 1; 0]) s.

Definition display_text_begin (r c : Z) : display D -> option (display D) :=
  with_active (op_text_begin r c).
Definition display_text_putc (c : Z) : display D -> option (display D) :=
  with_active (op_text_putc c).
Definition display_text_backspace : display D -> option (display D) :=
  with_active op_text_backspace.
Definition display_text_left : display D -> option (display D) := with_active op_text_left.
Definition display_text_right : display D -> option (display D) := with_active op_text_right.
Definition display_text_delete : display D -> option (display D) := with_active op_text_delete.
Definition display_text_toggle_insert : display D -> option (display D) :=
  with_active op_text_toggle_insert.

End Display.

End Display.

(** * The terminal

    [core/tty/tty_core.c]: character output with tab stops and the line reader.
    The line reader is one [key_step] per key taken from the input driver; the
    history and completion hooks of the shell are parameters. *)

Module Tty.
Import LineEdit Display Ps2.

Definition TTY_TAB_WIDTH : Z := 8.

Section Tty.
Context {D : Type} `{display_ops D}.

Definition tty_core_init : display D -> option (display D) := display_init.
Definition tty_core_clear : display D -> option (display D) := display_init.

Definition tty_core_putc (c : Z) (s : display D) : option (display D) :=
  if c =? 9 then
    let col := (display_get_cursor s).2 in
    let spaces := u16 (TTY_TAB_WIDTH - col mod TTY_TAB_WIDTH) in
    let spaces := if spaces =? 0 then TTY_TAB_WIDTH else spaces in
    display_puts (replicate (Z.to_nat spaces) 32) s
  else display_putc c s.

(** ** The edit operations on the caller's buffer *)

(** The variables of [tty_core_readline_ex]. *)
Record line := Line { buf : list Z; len : Z; cursor : Z; insert_mode : Z }.

(** Returns whether the character was taken. *)
Definition tty_insert_char (cap c : Z) (l : line) : option (bool * line) :=
  if (cap =? 0) || (u32 (cap - 1) <=? len l) then Some (false, l)
  else if (insert_mode l =? 0) && (cursor l <? len l) then
    b ← aset (buf l) (cursor l) c;
    Some (true, Line b (len l) (u32 (cursor l + 1)) (insert_mode l))
  else
    b ← shift_up (Z.to_nat (len l - cursor l)) (len l) (buf l);
    b ← aset b (cursor l) c;
    Some (true, Line b (u32 (len l + 1)) (u32 (cursor l + 1)) (insert_mode l)).

Definition tty_delete_left (l : line) : option line :=
  if cursor l =? 0 then Some l
  else
    b ← shift_down (Z.to_nat (len l - cursor l)) (cursor l) (buf l);
    Some (Line b (u32 (len l - 1)) (u32 (cursor l - 1)) (insert_mode l)).

Definition tty_delete_at_cursor (l : line) : option line :=
  if len l <=? cursor l then Some l
  else
    b ← shift_down (Z.to_nat (len l - u32 (cursor l + 1))) (u32 (cursor l + 1)) (buf l);
    Some (Line b (u32 (len l - 1)) (cursor l) (insert_mode l)).

Fixpoint put_all (n : nat) (i : Z) (b : list Z) (s : display D) : option (display D) :=
  match n with
  | O => Some s
  | S n' => c ← aget b i; s ← display_text_putc c s; put_all n' (i + 1) b s
  end.

Fixpoint lefts (n : nat) (s : display D) : option (display D) :=
  match n with
  | O => Some s
  | S n' => s ← display_text_left s; lefts n' s
  end.

Definition tty_redraw_line (l : line) (row col : Z) (s : display D) : option (display D) :=
  s ← display_text_begin row col s;
  s ← put_all (Z.to_nat (len l)) 0 (buf l) s;
  lefts (Z.to_nat (len l - cursor l)) s.

(** ** The line reader *)

(** The shell's hooks on the line, [None] where the pointer is null. *)
Record hooks := Hooks {
  history_hook : option (Z -> Z -> line -> Z * line);
  tab_hook : option (Z -> line -> line)
}.

Definition no_hooks : hooks := Hooks None None.

(** One turn of the loop ends with the loop going on, [HW_RESET] raised, or the
    function returning. *)
Inductive outcome :=
| Continue (l : line) (s : display D)
| Reset (l : line) (s : display D)
| Return (value : Z) (l : line) (s : display D).

Definition call_history (hk : hooks) (dir cap row col : Z) (l : line) (s : display D)
    : option outcome :=
  match history_hook hk with
  | None => Some (Continue l s)
  | Some f =>
      let '(r, l) := f dir cap l in
      if negb (r =? 0) then s ← tty_redraw_line l row col s; Some (Continue l s)
      else Some (Continue l s)
  end.

(** [for (i = 0; i < 4; ++i) { if (tty_insert_char(...) == 0) break; display_text_putc(' '); }] *)
Fixpoint insert_spaces (n : nat) (cap : Z) (l : line) (s : display D)
    : option (line * display D) :=
  match n with
  | O => Some (l, s)
  | S n' =>
      '(ok, l) ← tty_insert_char cap 32 l;
      if (ok : bool) then s ← display_text_putc 32 s; insert_spaces n' cap l s
      else Some (l, s)
  end.

Definition key_step (hk : hooks) (cap row col : Z) (key : Z) (l : line) (s : display D)
    : option outcome :=
  if key =? KEY_NONE then Some (Continue l s)
  else if key =? KEY_CTRL_ALT_DEL then Some (Reset l s)
  else if key =? 3 then
    b ← aset (buf l) 0 0;
    s ← display_puts [94; 67; 10] s;
    Some (Return 0 (Line b (len l) (cursor l) (insert_mode l)) s)
  else if key =? 10 then
    b ← aset (buf l) (len l) 0;
    s ← display_putc 10 s;
    Some (Return (i32 (len l)) (Line b (len l) (cursor l) (insert_mode l)) s)
  else if key =? 8 then
    if 0 <? cursor l then
      l ← tty_delete_left l; s ← display_text_backspace s; Some (Continue l s)
    else Some (Continue l s)
  else if key =? KEY_LEFT then
    if 0 <? cursor l then
      s ← display_text_left s;
      Some (Continue (Line (buf l) (len l) (u32 (cursor l - 1)) (insert_mode l)) s)
    else Some (Continue l s)
  else if key =? KEY_RIGHT then
    if cursor l <? len l then
      s ← display_text_right s;
      Some (Continue (Line (buf l) (len l) (u32 (cursor l + 1)) (insert_mode l)) s)
    else Some (Continue l s)
  else if key =? KEY_DELETE then
    if cursor l <? len l then
      l ← tty_delete_at_cursor l; s ← display_text_delete s; Some (Continue l s)
    else Some (Continue l s)
  else if key =? KEY_INSERT then
    s ← display_text_toggle_insert s;
    Some (Continue (Line (buf l) (len l) (cursor l)
                      (if negb (insert_mode l =? 0) then 0 else 1)) s)
  else if key =? KEY_UP then call_history hk (-1) cap row col l s
  else if key =? KEY_DOWN then call_history hk 1 cap row col l s
  else if key =? 9 then
    match tab_hook hk with
    | Some f =>
        let l := f cap l in
        s ← tty_redraw_line l row col s; Some (Continue l s)
    | None => '(l, s) ← insert_spaces 4 cap l s; Some (Continue l s)
    end
  else if (0 <? key) && (key <? 128) then
    '(ok, l) ← tty_insert_char cap key l;
    if (ok : bool) then s ← display_text_putc key s; Some (Continue l s)
    else Some (Continue l s)
  else Some (Continue l s).

(** The loop over the keys [input_take_key] returns, after the prologue. *)
Fixpoint readline_loop (hk : hooks) (cap row col : Z) (keys : list Z) (l : line) (s : display D)
    : option outcome :=
  match keys with
  | [] => Some (Continue l s)
  | key :: keys' =>
      o ← key_step hk cap row col key l s;
      match o with
      | Continue l s | Reset l s => readline_loop hk cap row col keys' l s
      | Return v l s => Some (Return v l s)
      end
  end.

(** [buf = 0] in the C code is the empty list. *)
Definition tty_core_readline_ex (hk : hooks) (b : list Z) (cap : Z) (keys : list Z)
    (s : display D) : option outcome :=
  if (length b =? 0)%nat || (cap =? 0) then Some (Return 0 (Line b 0 0 1) s)
  else
    b ← aset b 0 0;
    let '(row, col) := display_get_cursor s in
    s ← display_text_begin row col s;
    readline_loop hk cap row col keys (Line b 0 0 1) s.

End Tty.
Arguments outcome : clear implicits.

End Tty.
