(* ===== verification/TtyProps.v ===== *)
(** * Correctness of the line reader

    What a console must do for the line reader is the class [text_display]; the
    VGA console is an instance.  Against that interface the line reader is shown
    to stay inside the caller's buffer, to implement the abstract editor, and to
    keep the console showing the text it will return. *)

From S2P Require Import Prelude Ports LineEdit Vga Display Ps2.
From stdpp Require Import base list option sets list_numbers.
From Stdlib Require Import ZArith Lia ZifyBool.
Open Scope Z_scope.

Module TtyProps.
Import Ports LineEdit Vga VgaProps Display Ps2 Tty.

(** ** The interface of the console *)

(** [shows d e]: the console's text line is [e]. *)
Class text_display (D : Type) `{display_ops D} := {
  limit : nat;
  usable : D -> Prop;
  shows : D -> editor -> Prop;
  shows_usable d e : shows d e -> usable d;
  shows_begin r c d : 0 <= r -> 0 <= c -> usable d ->
    exists d', op_text_begin r c d = Some d' /\ shows d' (Ed [] 0 true);
  shows_cursor d : usable d -> 0 <= (op_get_cursor d).1 /\ 0 <= (op_get_cursor d).2;
  shows_putc c d e : shows d e -> exists d', op_putc c d = Some d' /\ shows d' e;
  shows_text_putc c d e : shows d e ->
    exists d', op_text_putc c d = Some d' /\ shows d' (ed_type limit c e);
  shows_backspace d e : shows d e ->
    exists d', op_text_backspace d = Some d' /\ shows d' (ed_backspace e);
  shows_left d e : shows d e -> exists d', op_text_left d = Some d' /\ shows d' (ed_left e);
  shows_right d e : shows d e -> exists d', op_text_right d = Some d' /\ shows d' (ed_right e);
  shows_delete d e : shows d e -> (cur e < length (text e))%nat ->
    exists d', op_text_delete d = Some d' /\ shows d' (ed_delete e);
  shows_toggle d e : shows d e ->
    exists d', op_text_toggle_insert d = Some d' /\ shows d' (ed_toggle e)
}.

#[export] Program Instance vga_text_display {dev} `{port_io dev} : text_display (vga dev) := {
  limit := 2000;
  usable v := screen_ok v.1 /\ txt_ok v.2;
  shows := good
}.
Next Obligation. intros dev io d e [H1 H2 _]. done. Qed.
Next Obligation. intros dev io r c d Hr Hc [H1 H2]. by apply text_begin_good. Qed.
Next Obligation. intros dev io d [[_ H1 H2] _]. cbn. lia. Qed.
Next Obligation.
  intros dev io c [s t] e [H1 H2 H3]. destruct (putc_ok c s H1) as (s' & Hp & Hs & _).
  exists (s', t). cbn in *. rewrite Hp. split; [done|]. by split.
Qed.
Next Obligation. intros. by apply text_putc_good. Qed.
Next Obligation. intros. by apply text_backspace_good. Qed.
Next Obligation. intros. by apply text_left_good. Qed.
Next Obligation. intros. by apply text_right_good. Qed.
Next Obligation. intros. by apply text_delete_good. Qed.
Next Obligation. intros. by apply text_toggle_good. Qed.

Section Tty.
Context {D : Type} `{text_display D}.

(** The switch passes the driver's promises on. *)
Definition on_screen (s : display D) (e : editor) : Prop :=
  match active_display s with Some d => shows d e | None => True end.

Lemma with_active_shows f (s : display D) e e' :
  (forall d, shows d e -> exists d', f d = Some d' /\ shows d' e') -> on_screen s e ->
  exists s', with_active f s = Some s' /\ on_screen s' e'.
Proof.
  intros Hf Hs. unfold with_active, on_screen in *. destruct (active_display s) as [d|] eqn:E.
  - destruct (Hf d Hs) as (d' & -> & Hd). by eexists.
  - exists s. split; [done|]. by rewrite E.
Qed.

Lemma display_putc_shows c s e :
  on_screen s e -> exists s', display_putc c s = Some s' /\ on_screen s' e.
Proof.
  intros Hs. unfold display_putc.
  destruct (with_active_shows (op_putc c) s e e) as (s1 & -> & H1);
    [intros; by apply shows_putc|done|]. by eexists.
Qed.

Lemma display_puts_shows str s e :
  on_screen s e -> exists s', display_puts str s = Some s' /\ on_screen s' e.
Proof.
  revert s. induction str as [|c str IH]; intros s Hs; [by exists s|]. cbn [display_puts].
  destruct (display_putc_shows c s e Hs) as (s1 & -> & H1). cbn [mbind option_bind]. by apply IH.
Qed.

(** ** The caller's buffer *)

(** [l] holds the editor state [e] in a buffer of [cap] bytes, with room for the
    terminator. *)
Record line_rep (cap : Z) (l : line) (e : editor) : Prop := {
  lr_cap : Z.of_nat (length (buf l)) = cap;
  lr_text : holds (buf l) (text e);
  lr_len : len l = Z.of_nat (length (text e));
  lr_cur : cursor l = Z.of_nat (cur e);
  lr_ins : negb (insert_mode l =? 0) = ins e;
  lr_ok : ed_ok (Z.to_nat (cap - 1)) e
}.

Lemma tty_insert_char_rep cap c l e :
  0 < cap < 2 ^ 31 -> line_rep cap l e ->
  exists l', tty_insert_char cap c l =
      Some ((length (text e) <? Z.to_nat (cap - 1))%nat, l') /\
    line_rep cap l' (ed_type (Z.to_nat (cap - 1)) c e).
Proof.
  intros Hcap [H1 R1 R2 R3 R4 Hok]. pose proof (ed_type_ok _ c e Hok) as Hok'.
  unfold tty_insert_char. rewrite u32_small by lia. unfold ed_type in *. unfold ed_ok in Hok.
  destruct (Z.eqb_spec cap 0); [lia|]. cbn [orb].
  destruct (Nat.leb_spec (Z.to_nat (cap - 1)) (length (text e))) as [Hf|Hr].
  { destruct (Z.leb_spec (cap - 1) (len l)); [|lia]. exists l. split; [|by split].
    by destruct (Nat.ltb_spec (length (text e)) (Z.to_nat (cap - 1))); [lia|]. }
  destruct (Z.leb_spec (cap - 1) (len l)); [lia|].
  destruct (Nat.ltb_spec (length (text e)) (Z.to_nat (cap - 1))); [|lia].
  assert ((insert_mode l =? 0) && (cursor l <? len l) =
    negb (ins e) && (cur e <? length (text e))%nat) as ->.
  { rewrite <- R4, negb_involutive. f_equal. lia. }
  destruct (negb (ins e) && (cur e <? length (text e))%nat) eqn:E.
  - rewrite R3, aset_nat by lia. cbn [mbind option_bind]. eexists. split; [reflexivity|].
    split; cbn; rewrite ?length_insert; try done.
    + apply holds_insert; [done|lia].
    + unwrap. lia.
  - destruct (shift_up_insert (buf l) (text e) (cur e) c R1) as (a' & K1 & K2 & K3); [lia|].
    rewrite R2, R3. replace (Z.to_nat (_ - Z.of_nat _)) with (length (text e) - cur e)%nat by lia.
    rewrite K1. cbn [mbind option_bind]. rewrite aset_nat by lia. cbn [mbind option_bind].
    eexists. split; [reflexivity|]. split; cbn; rewrite ?length_insert; try done; try lia.
    + rewrite length_app, length_take, length_cons, length_drop. unwrap. lia.
    + unwrap. lia.
Qed.

Lemma tty_delete_left_rep cap l e :
  0 < cap < 2 ^ 31 -> line_rep cap l e -> (0 < cur e)%nat ->
  exists l', tty_delete_left l = Some l' /\ line_rep cap l' (ed_backspace e).
Proof.
  intros Hcap [H1 R1 R2 R3 R4 Hok] Hc. pose proof (ed_backspace_ok _ e Hok) as Hok'.
  unfold tty_delete_left. unfold ed_backspace in *. unfold ed_ok in Hok.
  destruct (cur e) as [|n] eqn:E; [lia|]. destruct (Z.eqb_spec (cursor l) 0); [lia|].
  destruct (shift_down_remove (buf l) (text e) n R1) as (a' & K1 & K2 & K3); [lia|].
  rewrite R2, R3. replace (Z.to_nat (_ - _)) with (length (text e) - S n)%nat by lia. rewrite K1.
  cbn [mbind option_bind]. eexists. split; [reflexivity|].
  split; cbn; try done; try lia; [|unwrap; lia].
  rewrite length_app, length_take, length_drop. unwrap. lia.
Qed.

Lemma tty_delete_at_cursor_rep cap l e :
  0 < cap < 2 ^ 31 -> line_rep cap l e -> (cur e < length (text e))%nat ->
  exists l', tty_delete_at_cursor l = Some l' /\ line_rep cap l' (ed_delete e).
Proof.
  intros Hcap [H1 R1 R2 R3 R4 Hok] Hc. pose proof (ed_delete_ok _ e Hok) as Hok'.
  unfold tty_delete_at_cursor. unfold ed_ok in Hok.
  destruct (Z.leb_spec (len l) (cursor l)); [lia|].
  destruct (shift_down_remove (buf l) (text e) (cur e) R1) as (a' & K1 & K2 & K3); [lia|].
  rewrite R2, R3, (u32_small (Z.of_nat (cur e) + 1)) by lia.
  replace (Z.to_nat _) with (length (text e) - S (cur e))%nat by lia.
  replace (Z.of_nat (cur e) + 1) with (Z.of_nat (S (cur e))) by lia. rewrite K1.
  cbn [mbind option_bind]. eexists. split; [reflexivity|]. split; cbn; try done; try lia.
  rewrite length_app, length_take, length_drop. unwrap. lia.
Qed.

(** ** The abstract line reader *)

Inductive reading := Editing (e : editor) | Done (t : list Z) | Cancelled.

(** What a key does to the line; [room] is the most text the buffer takes. *)
Definition ed_key (room : nat) (key : Z) (e : editor) : reading :=
  if key =? 3 then Cancelled
  else if key =? 10 then Done (text e)
  else Editing
    (if key =? 8 then ed_backspace e
     else if key =? KEY_LEFT then ed_left e
     else if key =? KEY_RIGHT then ed_right e
     else if key =? KEY_DELETE then
       if (cur e <? length (text e))%nat then ed_delete e else e
     else if key =? KEY_INSERT then ed_toggle e
     else if key =? 9 then Nat.iter 4 (ed_type room 32) e
     else if (0 <? key) && (key <? 128) then ed_type room key e
     else e).

Fixpoint ed_read (room : nat) (keys : list Z) (e : editor) : reading :=
  match keys with
  | [] => Editing e
  | key :: keys' =>
      match ed_key room key e with
      | Editing e' => ed_read room keys' e'
      | r => r
      end
  end.

(** The state of the line reader that stands for an abstract result. *)
Definition implements (cap : Z) (o : outcome D) (r : reading) : Prop :=
  match r, o with
  | Editing e, Continue l s | Editing e, Reset l s => line_rep cap l e /\ on_screen s e
  | Done t, Return n l s => n = Z.of_nat (length t) /\ holds (buf l) (t ++ [0]) /\
      Z.of_nat (length (buf l)) = cap
  | Cancelled, Return n l s => n = 0 /\ holds (buf l) [0] /\ Z.of_nat (length (buf l)) = cap
  | _, _ => False
  end.

Lemma type_both cap c l s e :
  0 < cap < 2 ^ 31 -> (Z.to_nat (cap - 1) <= limit)%nat -> line_rep cap l e -> on_screen s e ->
  (length (text e) < Z.to_nat (cap - 1))%nat ->
  exists s', display_text_putc c s = Some s' /\ on_screen s' (ed_type (Z.to_nat (cap - 1)) c e).
Proof.
  intros Hcap Hlim Hl Hs Hlt.
  destruct (with_active_shows (op_text_putc c) s e (ed_type limit c e)) as (s' & H1 & H2);
    [intros; by apply shows_text_putc|done|]. exists s'. split; [done|].
  replace (ed_type (Z.to_nat (cap - 1)) c e) with (ed_type limit c e); [done|].
  unfold ed_type. destruct (Nat.leb_spec limit (length (text e))); [lia|].
  by destruct (Nat.leb_spec (Z.to_nat (cap - 1)) (length (text e))); [lia|].
Qed.

Lemma iter_full room c n e :
  (room <= length (text e))%nat -> Nat.iter n (ed_type room c) e = e.
Proof.
  intros Hf. induction n as [|n IH]; [done|]. simpl. rewrite IH. unfold ed_type.
  by destruct (Nat.leb_spec room (length (text e))); [|lia].
Qed.

Lemma insert_spaces_rep n cap l s e :
  0 < cap < 2 ^ 31 -> (Z.to_nat (cap - 1) <= limit)%nat -> line_rep cap l e -> on_screen s e ->
  exists l' s', insert_spaces n cap l s = Some (l', s') /\
    line_rep cap l' (Nat.iter n (ed_type (Z.to_nat (cap - 1)) 32) e) /\
    on_screen s' (Nat.iter n (ed_type (Z.to_nat (cap - 1)) 32) e).
Proof.
  intros Hcap Hlim. revert l s e. induction n as [|n IH]; intros l s e Hl Hs; [by exists l, s|].
  cbn [insert_spaces]. rewrite Nat.iter_succ_r.
  destruct (tty_insert_char_rep cap 32 l e Hcap Hl) as (l1 & -> & Hl1). cbn [mbind option_bind].
  destruct (Nat.ltb_spec (length (text e)) (Z.to_nat (cap - 1))) as [Hlt|Hf].
  - destruct (type_both cap 32 l s e Hcap Hlim Hl Hs Hlt) as (s1 & -> & Hs1). cbn [mbind option_bind].
    by apply IH.
  - assert (ed_type (Z.to_nat (cap - 1)) 32 e = e) as He by (apply (iter_full _ _ 1); lia).
    rewrite He in *. exists l1, s. rewrite iter_full by lia. done.
Qed.

Lemma terminate cap l (t : list Z) :
  Z.of_nat (length (buf l)) = cap -> holds (buf l) t -> Z.of_nat (length t) < cap ->
  aset (buf l) (Z.of_nat (length t)) 0 = Some (<[length t := 0]> (buf l)) /\
  holds (<[length t := 0]> (buf l)) (t ++ [0]).
Proof.
  intros Hc Ht Hlt. split; [apply aset_nat; lia|]. apply holds_intro.
  - rewrite length_insert, length_app. simpl. lia.
  - intros i Hi. rewrite length_app in Hi. simpl in Hi. rewrite list_lookup_insert.
    destruct (decide (i = length t)) as [->|Hne].
    + rewrite decide_True by lia. by rewrite lookup_app_r, Nat.sub_diag by lia.
    + rewrite decide_False by lia. rewrite lookup_app_l by lia. apply holds_lookup; [done|lia].
Qed.

Lemma terminate_first cap l :
  Z.of_nat (length (buf l)) = cap -> 0 < cap ->
  aset (buf l) 0 0 = Some (<[0%nat := 0]> (buf l)) /\ holds (<[0%nat := 0]> (buf l)) [0].
Proof.
  intros Hc Hpos. assert (holds (buf l) []) as Hh by (split; simpl; [lia|done]).
  apply (terminate cap l [] Hc Hh). simpl. lia.
Qed.

(** ** One key *)

Section Key.
Context (cap : Z) (l : line) (s : display D) (e : editor).
Hypothesis Hcap : 0 < cap < 2 ^ 31.
Hypothesis Hlim : (Z.to_nat (cap - 1) <= limit)%nat.
Hypothesis Hl : line_rep cap l e.
Hypothesis Hs : on_screen s e.

(** A console operation next to a change of the line. *)
Lemma step_both f l' e' :
  (forall d, shows d e -> exists d', f d = Some d' /\ shows d' e') -> line_rep cap l' e' ->
  exists o, (s' ← with_active f s; Some (Continue l' s')) = Some o /\
    implements cap o (Editing e').
Proof using Hs.
  intros Hf Hl'. destruct (with_active_shows f s e e' Hf Hs) as (s' & -> & Hs'). by eexists.
Qed.

Lemma step_backspace :
  exists o, (if 0 <? cursor l
             then l' ← tty_delete_left l; s' ← display_text_backspace s; Some (Continue l' s')
             else Some (Continue l s)) = Some o /\
    implements cap o (Editing (ed_backspace e)).
Proof using Hcap Hlim Hl Hs.
  pose proof (lr_cur _ _ _ Hl). destruct (Z.ltb_spec 0 (cursor l)).
  - destruct (tty_delete_left_rep cap l e Hcap Hl ltac:(lia)) as (l' & -> & Hl').
    apply step_both; [intros; by apply shows_backspace|done].
  - eexists. split; [reflexivity|]. unfold ed_backspace. by replace (cur e) with 0%nat by lia.
Qed.

Lemma step_left :
  exists o, (if 0 <? cursor l
             then s' ← display_text_left s;
                  Some (Continue (Line (buf l) (len l) (u32 (cursor l - 1)) (insert_mode l)) s')
             else Some (Continue l s)) = Some o /\
    implements cap o (Editing (ed_left e)).
Proof using Hcap Hlim Hl Hs.
  pose proof Hl as [H1 R1 R2 R3 R4 Hok]. unfold ed_ok in Hok. destruct (Z.ltb_spec 0 (cursor l)).
  - apply step_both; [intros; by apply shows_left|].
    split; cbn; try done; [unwrap; lia|unfold ed_ok; cbn; lia].
  - eexists. split; [reflexivity|]. unfold ed_left. replace (cur e - 1)%nat with (cur e) by lia.
    by destruct e.
Qed.

Lemma step_right :
  exists o, (if cursor l <? len l
             then s' ← display_text_right s;
                  Some (Continue (Line (buf l) (len l) (u32 (cursor l + 1)) (insert_mode l)) s')
             else Some (Continue l s)) = Some o /\
    implements cap o (Editing (ed_right e)).
Proof using Hcap Hlim Hl Hs.
  pose proof Hl as [H1 R1 R2 R3 R4 Hok]. unfold ed_ok in Hok. destruct (Z.ltb_spec (cursor l) (len l)).
  - apply step_both; [intros; by apply shows_right|]. unfold ed_right.
    destruct (Nat.ltb_spec (cur e) (length (text e))); [|lia].
    split; cbn; try done; [unwrap; lia|unfold ed_ok; cbn; lia].
  - eexists. split; [reflexivity|]. unfold ed_right.
    destruct (Nat.ltb_spec (cur e) (length (text e))); [lia|]. by destruct e.
Qed.

Lemma step_delete :
  exists o, (if cursor l <? len l
             then l' ← tty_delete_at_cursor l; s' ← display_text_delete s; Some (Continue l' s')
             else Some (Continue l s)) = Some o /\
    implements cap o (Editing (if (cur e <? length (text e))%nat then ed_delete e else e)).
Proof using Hcap Hlim Hl Hs.
  pose proof (lr_cur _ _ _ Hl). pose proof (lr_len _ _ _ Hl).
  destruct (Z.ltb_spec (cursor l) (len l)), (Nat.ltb_spec (cur e) (length (text e))); try lia;
    [|by eexists].
  destruct (tty_delete_at_cursor_rep cap l e Hcap Hl ltac:(lia)) as (l' & -> & Hl').
  apply step_both; [intros; by apply shows_delete|done].
Qed.

Lemma step_insert :
  exists o, (s' ← display_text_toggle_insert s;
             Some (Continue (Line (buf l) (len l) (cursor l)
                               (if negb (insert_mode l =? 0) then 0 else 1)) s')) = Some o /\
    implements cap o (Editing (ed_toggle e)).
Proof using Hcap Hlim Hl Hs.
  apply step_both; [intros; by apply shows_toggle|]. destruct Hl as [H1 R1 R2 R3 R4 Hok].
  split; cbn; try done. rewrite <- R4. by destruct (insert_mode l =? 0).
Qed.

Lemma step_type key :
  exists o, ('(ok, l') ← tty_insert_char cap key l;
             if (ok : bool) then s' ← display_text_putc key s; Some (Continue l' s')
             else Some (Continue l' s)) = Some o /\
    implements cap o (Editing (ed_type (Z.to_nat (cap - 1)) key e)).
Proof using Hcap Hlim Hl Hs.
  destruct (tty_insert_char_rep cap key l e Hcap Hl) as (l1 & -> & Hl1). cbn [mbind option_bind].
  destruct (Nat.ltb_spec (length (text e)) (Z.to_nat (cap - 1))) as [Hlt|Hf].
  - destruct (type_both cap key l s e Hcap Hlim Hl Hs Hlt) as (s1 & -> & Hs1). by eexists.
  - eexists. split; [reflexivity|]. split; [done|].
    by rewrite (iter_full _ _ 1 e Hf : ed_type _ _ _ = _).
Qed.

Lemma step_tab :
  exists o, ('(l', s') ← insert_spaces 4 cap l s; Some (Continue l' s')) = Some o /\
    implements cap o (Editing (Nat.iter 4 (ed_type (Z.to_nat (cap - 1)) 32) e)).
Proof using Hcap Hlim Hl Hs.
  destruct (insert_spaces_rep 4 cap l s e Hcap Hlim Hl Hs) as (l' & s' & -> & H1 & H2). by eexists.
Qed.

Lemma step_cancel :
  exists o, (b ← aset (buf l) 0 0; s' ← display_puts [94; 67; 10] s;
             Some (Return 0 (Line b (len l) (cursor l) (insert_mode l)) s')) = Some o /\
    implements cap o Cancelled.
Proof using Hcap Hlim Hl Hs.
  destruct (terminate_first cap l (lr_cap _ _ _ Hl) ltac:(lia)) as [-> Hh]. cbn [mbind option_bind].
  destruct (display_puts_shows [94; 67; 10] s e Hs) as (s' & -> & _).
  eexists. split; [reflexivity|]. cbn. rewrite length_insert. by destruct Hl.
Qed.

Lemma step_enter :
  exists o, (b ← aset (buf l) (len l) 0; s' ← display_putc 10 s;
             Some (Return (i32 (len l)) (Line b (len l) (cursor l) (insert_mode l)) s')) = Some o /\
    implements cap o (Done (text e)).
Proof using Hcap Hlim Hl Hs.
  pose proof Hl as [H1 R1 R2 _ _ Hok]. unfold ed_ok in Hok.
  rewrite R2. destruct (terminate cap l (text e) H1 R1 ltac:(lia)) as [-> Hh]. cbn [mbind option_bind].
  destruct (display_putc_shows 10 s e Hs) as (s' & -> & _). eexists. split; [reflexivity|].
  cbn. rewrite length_insert, i32_small by lia. done.
Qed.

(** A key that calls no hook: without hooks every key, with hooks any but Up, Down and Tab. *)
Definition unhooked (hk : hooks) (key : Z) : Prop :=
  (key = KEY_UP \/ key = KEY_DOWN -> history_hook hk = None) /\ (key = 9 -> tab_hook hk = None).

Lemma key_step_implements hk r c key : unhooked hk key ->
  exists o, key_step hk cap r c key l s = Some o /\
    implements cap o (ed_key (Z.to_nat (cap - 1)) key e).
Proof using Hcap Hlim Hl Hs.
  intros [Hh Ht]. unfold key_step, ed_key, call_history.
  destruct (Z.eqb_spec key KEY_NONE) as [->|]; [by eexists|].
  destruct (Z.eqb_spec key KEY_CTRL_ALT_DEL) as [->|]; [by eexists|].
  destruct (Z.eqb_spec key 3); [by apply step_cancel|].
  destruct (Z.eqb_spec key 10); [by apply step_enter|].
  destruct (Z.eqb_spec key 8); [by apply step_backspace|].
  destruct (Z.eqb_spec key KEY_LEFT); [by apply step_left|].
  destruct (Z.eqb_spec key KEY_RIGHT); [by apply step_right|].
  destruct (Z.eqb_spec key KEY_DELETE); [by apply step_delete|].
  destruct (Z.eqb_spec key KEY_INSERT); [by apply step_insert|].
  destruct (Z.eqb_spec key KEY_UP) as [->|]; [rewrite Hh by (by left); by eexists|].
  destruct (Z.eqb_spec key KEY_DOWN) as [->|]; [rewrite Hh by (by right); by eexists|].
  destruct (Z.eqb_spec key 9); [rewrite Ht by done; by apply step_tab|].
  destruct ((0 <? key) && (key <? 128)); [by apply step_type|by eexists].
Qed.

End Key.

Lemma readline_loop_implements hk cap r c keys l s e : Forall (unhooked hk) keys ->
  0 < cap < 2 ^ 31 -> (Z.to_nat (cap - 1) <= limit)%nat -> line_rep cap l e -> on_screen s e ->
  exists o, readline_loop hk cap r c keys l s = Some o /\
    implements cap o (ed_read (Z.to_nat (cap - 1)) keys e).
Proof.
  intros Hk Hcap Hlim. revert l s e. induction Hk as [|key keys Hk _ IH]; intros l s e Hl Hs; [by eexists|].
  cbn [readline_loop ed_read].
  destruct (key_step_implements cap l s e Hcap Hlim Hl Hs hk r c key Hk) as (o & -> & Ho).
  cbn [mbind option_bind].
  destruct (ed_key _ key e) as [e'|t|], o as [l' s'|l' s'|n l' s']; cbn in Ho; try done;
    [by apply IH; apply Ho|by apply IH; apply Ho|by eexists|by eexists].
Qed.

(** ** Theorems *)

(** C28: the line reader implements the abstract editor, on every key sequence that calls
    no hook: every sequence when there are no hooks, as in [tty_core_readline], by which
    programs and devices read, and with the hooks of the kernel shell every sequence
    without Up, Down and Tab.  With a buffer of [cap] bytes (and a console whose line
    holds at least [cap - 1] characters) [tty_core_readline_ex] never leaves the buffer
    or the console's arrays.  On Enter it returns the length of the edited text, which is
    in the buffer followed by the terminator; on Ctrl-C it returns 0 with an empty
    string; before that the buffer and the console hold the same text, cursor and
    insert mode. *)
Theorem readline_implements_editor hk b cap keys (s : display D) :
  Forall (unhooked hk) keys ->
  Z.of_nat (length b) = cap -> 0 < cap < 2 ^ 31 -> (Z.to_nat (cap - 1) <= limit)%nat ->
  match active_display s with Some d => usable d | None => True end ->
  exists o, tty_core_readline_ex hk b cap keys s = Some o /\
    implements cap o (ed_read (Z.to_nat (cap - 1)) keys (Ed [] 0 true)).
Proof.
  intros Hk Hb Hcap Hlim Hu. unfold tty_core_readline_ex.
  destruct (Nat.eqb_spec (length b) 0); [lia|]. destruct (Z.eqb_spec cap 0); [lia|]. cbn [orb].
  rewrite (aset_nat b 0) by lia. cbn [mbind option_bind].
  destruct (display_get_cursor s) as [r c] eqn:Ec.
  assert (exists s', display_text_begin r c s = Some s' /\ on_screen s' (Ed [] 0 true)) as (s' & -> & Hs).
  { unfold display_text_begin, with_active, on_screen, display_get_cursor in *.
    destruct (active_display s) as [d|] eqn:E; [|exists s; by rewrite E].
    pose proof (shows_cursor d Hu) as Hc. rewrite Ec in Hc. cbn in Hc.
    destruct (shows_begin r c d) as (d' & -> & Hd); [lia|lia|done|]. by eexists. }
  apply readline_loop_implements; try done.
  split; cbn; try done; [by rewrite length_insert|by split; [simpl; lia|]|unfold ed_ok; simpl; lia].
Qed.

End Tty.

(** "hi", left, "e", Enter. *)
Lemma readline_implements_editor_witness :
  exists o, tty_core_readline_ex no_hooks (replicate 16 0) 16 [104; 105; KEY_LEFT; 101; 10]
      (Disp (Some demo_vga) []) = Some o /\ implements 16 o (Done [104; 101; 105]).
Proof.
  apply (readline_implements_editor no_hooks (replicate 16 0) 16 [104; 105; KEY_LEFT; 101; 10]).
  - repeat constructor.
  - reflexivity.
  - lia.
  - vm_compute. lia.
  - split; apply demo_vga_good.
Defined.

(** A history with the single entry "ab". *)
Definition demo_history (dir cap : Z) (l : line) : Z * line :=
  (1, Line (<[1%nat := 98]> (<[0%nat := 97]> (buf l))) 2 2 (insert_mode l)).

(** The branches of [key_step] for the keys of the example. *)
Section Branches.
Context {D : Type} `{display_ops D} (hk : hooks) (cap r c : Z) (l : line) (s : display D).

Lemma key_step_insert :
  key_step hk cap r c KEY_INSERT l s =
    s' ← display_text_toggle_insert s;
    Some (Continue (Line (buf l) (len l) (cursor l) (if negb (insert_mode l =? 0) then 0 else 1)) s').
Proof. reflexivity. Qed.

Lemma key_step_up : key_step hk cap r c KEY_UP l s = call_history hk (-1) cap r c l s.
Proof. reflexivity. Qed.

Lemma key_step_left :
  key_step hk cap r c KEY_LEFT l s =
    if 0 <? cursor l then
      s' ← display_text_left s;
      Some (Continue (Line (buf l) (len l) (u32 (cursor l - 1)) (insert_mode l)) s')
    else Some (Continue l s).
Proof. reflexivity. Qed.

Lemma key_step_x :
  key_step hk cap r c 120 l s =
    '(ok, l') ← tty_insert_char cap 120 l;
    if (ok : bool) then s' ← display_text_putc 120 s; Some (Continue l' s')
    else Some (Continue l' s).
Proof. reflexivity. Qed.

End Branches.

(** The buffer after the history entry, and after overwriting its second byte. *)
Definition demo_buf : list Z := 97 :: 98 :: replicate 14 0.
Definition demo_buf' : list Z := 97 :: 120 :: replicate 14 0.

Lemma demo_overwrite : tty_insert_char 16 120 (Line demo_buf 2 1 0) = Some (true, Line demo_buf' 2 2 0).
Proof. reflexivity. Qed.

Lemma demo_recall dir : demo_history dir 16 (Line (replicate 16 0) 0 0 0) = (1, Line demo_buf 2 2 0).
Proof. reflexivity. Qed.

Lemma demo_put_all {D} `{display_ops D} (s : display D) :
  put_all 2 0 demo_buf s = s1 ← display_text_putc 97 s; s2 ← display_text_putc 98 s1; Some s2.
Proof. reflexivity. Qed.

(** Recalling a history entry loses overwrite mode on the console only.
    [tty_redraw_line] restarts the console's line, which resets its insert flag,
    while the line reader keeps its own.  On every console that keeps the promises
    of [text_display], after Insert, Up, Left and "x" the buffer is "ax" and the
    console shows "axb". *)
Theorem readline_history_desync {D} `{text_display D} (d : D) :
  usable d -> (3 <= limit)%nat ->
  exists l s, tty_core_readline_ex (Hooks (Some demo_history) None) (replicate 16 0) 16
      [KEY_INSERT; KEY_UP; KEY_LEFT; 120] (Disp (Some d) []) = Some (Continue l s) /\
    take 3 (buf l) = [97; 120; 0] /\ len l = 2 /\ cursor l = 2 /\
    on_screen s (Ed [97; 120; 98] 2 true).
Proof.
  intros Hu Hlim. pose proof (shows_cursor d Hu) as Hc. unfold tty_core_readline_ex.
  change ((length (replicate 16 0) =? 0)%nat || (16 =? 0)) with false. cbv iota.
  change (aset (replicate 16 0) 0 0) with (Some (replicate 16 0)). cbn [mbind option_bind].
  unfold display_get_cursor. cbn [active_display]. destruct (op_get_cursor d) as [r c].
  cbn [fst snd] in Hc. unfold display_text_begin, with_active. cbn [active_display].
  destruct (shows_begin r c d) as (d1 & -> & S1); [lia|lia|done|].
  cbn [mbind option_bind readline_loop serial]. rewrite key_step_insert.
  unfold display_text_toggle_insert, with_active. cbn [active_display].
  destruct (shows_toggle d1 _ S1) as (d2 & -> & S2). cbn [mbind option_bind serial buf len cursor insert_mode].
  change (negb (1 =? 0)) with true. cbv iota. rewrite key_step_up. unfold call_history. cbn [history_hook].
  rewrite demo_recall. change (negb (1 =? 0)) with true. cbv iota.
  unfold tty_redraw_line, display_text_begin, with_active. cbn [active_display].
  destruct (shows_begin r c d2) as (d3 & -> & S3); [lia|lia|by eapply shows_usable|].
  cbn [mbind option_bind serial buf len cursor insert_mode]. change (Z.to_nat 2) with 2%nat.
  rewrite demo_put_all. unfold display_text_putc, with_active. cbn [active_display].
  destruct (shows_text_putc 97 d3 _ S3) as (d4 & -> & S4). cbn [mbind option_bind active_display serial].
  destruct (shows_text_putc 98 d4 _ S4) as (d5 & -> & S5). cbn [mbind option_bind active_display serial].
  change (Z.to_nat (2 - 2)) with 0%nat. cbn [lefts mbind option_bind]. rewrite key_step_left.
  cbn [buf len cursor insert_mode]. change (0 <? 2) with true. cbv iota.
  unfold display_text_left, with_active. cbn [active_display].
  destruct (shows_left d5 _ S5) as (d6 & -> & S6). cbn [mbind option_bind serial].
  change (u32 (2 - 1)) with 1. rewrite key_step_x, demo_overwrite. cbn [mbind option_bind].
  unfold display_text_putc, with_active. cbn [active_display].
  destruct (shows_text_putc 120 d6 _ S6) as (d7 & -> & S7). cbn [mbind option_bind].
  eexists _, _. split; [reflexivity|]. split; [reflexivity|]. split; [reflexivity|].
  split; [reflexivity|]. unfold on_screen. cbn [active_display].
  replace (Ed [97; 120; 98] 2 true) with
    (ed_type limit 120 (ed_left (ed_type limit 98 (ed_type limit 97 (Ed [] 0 true))))); [done|].
  destruct limit as [|[|[|m]]]; [lia..|reflexivity].
Qed.

Lemma readline_history_desync_witness :
  exists l s, tty_core_readline_ex (Hooks (Some demo_history) None) (replicate 16 0) 16
      [KEY_INSERT; KEY_UP; KEY_LEFT; 120] (Disp (Some demo_vga) []) = Some (Continue l s) /\
    take 3 (buf l) = [97; 120; 0] /\ len l = 2 /\ cursor l = 2 /\
    on_screen s (Ed [97; 120; 98] 2 true).
Proof.
  apply (readline_history_desync demo_vga).
  - split; apply demo_vga_good.
  - simpl. lia.
Defined.

End TtyProps.
