(* ===== verification/FsTypes.v ===== *)
(** * Shared declarations of the file-system layer

    [fs_core.h] and [vfs_core.h]: limits, node types, error codes, flags, and the
    C-string conventions of the models.  A C string is the list of its bytes up
    to, and without, the terminating NUL; reading at or past the end gives 0. *)

From S2P Require Import Prelude.
From stdpp Require Import base list option list_numbers strings.
From Stdlib Require Import ZArith Lia ZifyBool.
Open Scope Z_scope.

Module FsTypes.

Definition FS_NAME_CAP : Z := 24.
Definition FS_PATH_CAP : Z := 128.

Definition FS_NODE_DIR : Z := 1.
Definition FS_NODE_FILE : Z := 2.
Definition FS_NODE_SYMLINK : Z := 3.

Definition FS_MODE_CHAR : Z := 0x2000.
Definition FS_MODE_DIR : Z := 0x4000.
Definition FS_MODE_FILE : Z := 0x8000.
Definition FS_MODE_SYMLINK : Z := 0xA000.

Definition FS_OK : Z := 0.
Definition FS_ERR_NOT_FOUND : Z := -1.
Definition FS_ERR_EXISTS : Z := -2.
Definition FS_ERR_NOT_DIR : Z := -3.
Definition FS_ERR_INVALID : Z := -4.
Definition FS_ERR_NO_SPACE : Z := -5.
Definition FS_ERR_READ_ONLY : Z := -6.
Definition FS_ERR_IS_DIR : Z := -7.
Definition FS_ERR_NOT_EMPTY : Z := -8.

Definition FS_O_RDONLY : Z := 0x0001.
Definition FS_O_WRONLY : Z := 0x0002.
Definition FS_O_RDWR : Z := 0x0003.
Definition FS_O_CREAT : Z := 0x0100.
Definition FS_O_TRUNC : Z := 0x0200.
Definition FS_O_APPEND : Z := 0x0400.

(** [fs_stat_t]. *)
Record fs_stat := FsStat { st_mode : Z; st_size : Z }.

(** The bytes of a string literal. *)
Fixpoint cstr (s : String.string) : list Z :=
  match s with
  | String.EmptyString => []
  | String.String a s' => Z.of_N (Ascii.N_of_ascii a) :: cstr s'
  end.

(** A character of a C string. *)
Definition char_at (s : list Z) (i : nat) : Z := default 0 (s !! i).

Definition slash : Z := 47.
Definition dot : list Z := [46].
Definition dotdot : list Z := [46; 46].

(** Skip the leading slashes. *)
Fixpoint skip_slashes (p : list Z) : list Z :=
  match p with
  | c :: r => if c =? slash then skip_slashes r else p
  | [] => []
  end.

Lemma skip_slashes_length p : (length (skip_slashes p) <= length p)%nat.
Proof. induction p as [|c p IH]; simpl; [lia|]. case_bool; simpl; lia. Qed.

Lemma skip_slashes_head p c r : skip_slashes p = c :: r -> c <> slash.
Proof. induction p as [|d p IH]; simpl; [done|]. case_bool; [done|]. intros [= -> ->]. blia. Qed.

Lemma skip_slashes_first p : char_at (skip_slashes p) 0 <> slash.
Proof.
  pose proof (skip_slashes_head p) as H. destruct (skip_slashes p) as [|c r]; [done|]. by apply (H c r).
Qed.

(** ** Components of a path *)

(** The parts between slashes, empty parts included. *)
Fixpoint split_slash (p : list Z) : list (list Z) :=
  match p with
  | [] => [[]]
  | c :: r =>
      if c =? slash then [] :: split_slash r
      else match split_slash r with
           | s :: ss => (c :: s) :: ss
           | [] => [[c]]
           end
  end.

Definition components (p : list Z) : list (list Z) := filter (fun s => s <> []) (split_slash p).

(** The part up to the first slash, and the rest from that slash on. *)
Fixpoint span (p : list Z) : list Z * list Z :=
  match p with
  | [] => ([], [])
  | c :: r => if c =? slash then ([], p) else let '(s, rest) := span r in (c :: s, rest)
  end.

Lemma span_app p : (span p).1 ++ (span p).2 = p.
Proof.
  induction p as [|c p IH]; [done|]. simpl. case_bool; [done|].
  destruct (span p) as [s rest]. simpl in *. by rewrite IH.
Qed.

Lemma span_head c p : c <> slash -> (span (c :: p)).1 <> [].
Proof. intros Hc. simpl. destruct (Z.eqb_spec c slash); [done|]. by destruct (span p). Qed.

Lemma span_no_slash p : Forall (fun c => c <> slash) (span p).1.
Proof.
  induction p as [|c p IH]; [constructor|]. simpl. case_bool; [constructor|].
  destruct (span p) as [s rest]. simpl in *. constructor; [blia|done].
Qed.

Lemma span_rest p : (span p).2 = [] \/ exists r, (span p).2 = slash :: r.
Proof.
  induction p as [|c p IH]; [by left|]. simpl. case_bool.
  - right. exists p. simpl. f_equal. blia.
  - by destruct (span p) as [s rest].
Qed.

Lemma split_slash_span p :
  split_slash p = (span p).1 :: match (span p).2 with [] => [] | _ :: r => split_slash r end.
Proof.
  induction p as [|c p IH]; [done|]. simpl. case_bool; [done|]. rewrite IH. by destruct (span p).
Qed.

Lemma components_nil : components [] = [].
Proof. done. Qed.

Lemma components_slash p : components (slash :: p) = components p.
Proof. unfold components. simpl. rewrite filter_cons_False; [done|]. by intros []. Qed.

Lemma components_skip p : components (skip_slashes p) = components p.
Proof.
  induction p as [|c p IH]; [done|]. simpl. destruct (Z.eqb_spec c slash) as [->|]; [|done].
  by rewrite IH, components_slash.
Qed.

Lemma components_span p :
  (span p).1 <> [] -> components p = (span p).1 :: components (span p).2.
Proof.
  intros Hne. unfold components at 1. rewrite split_slash_span.
  rewrite filter_cons_True by done. f_equal.
  destruct (span_rest p) as [->|[r ->]]; [done|]. by rewrite components_slash.
Qed.

(** A path that does not start with a slash starts with a component. *)
Lemma span_nonempty c r : c <> slash -> (span (c :: r)).1 <> [].
Proof. intros H. simpl. rewrite (proj2 (Z.eqb_neq c slash) H). by destruct (span r). Qed.

Lemma skip_slashes_nil p : skip_slashes p = [] -> components p = [].
Proof. intros H. by rewrite <- components_skip, H. Qed.

Lemma span_app_slash s q :
  Forall (fun c => c <> slash) s -> span (s ++ slash :: q) = (s, slash :: q).
Proof.
  induction 1 as [|c s Hc _ IH]; [done|]. simpl. rewrite (proj2 (Z.eqb_neq c slash) Hc).
  by rewrite IH.
Qed.

Lemma span_all s : Forall (fun c => c <> slash) s -> span s = (s, []).
Proof.
  induction 1 as [|c s Hc _ IH]; [done|]. simpl. rewrite (proj2 (Z.eqb_neq c slash) Hc). by rewrite IH.
Qed.

Lemma components_cons_slash s q :
  Forall (fun c => c <> slash) s -> s <> [] -> components (s ++ slash :: q) = s :: components q.
Proof.
  intros Hs Hne. rewrite components_span; rewrite span_app_slash by done; [|done].
  cbn [fst snd]. by rewrite components_slash.
Qed.

Lemma components_single s :
  Forall (fun c => c <> slash) s -> s <> [] -> components s = [s].
Proof. intros Hs Hne. rewrite components_span; rewrite span_all by done; done. Qed.

Lemma components_no_slash p :
  Forall (fun s => s <> [] /\ Forall (fun c => c <> slash) s) (components p).
Proof.
  unfold components. assert (Forall (Forall (fun c => c <> slash)) (split_slash p)) as H.
  { induction p as [|c p IH]; simpl; [repeat constructor|]. case_bool; [by constructor|].
    destruct (split_slash p) as [|s ss]; [repeat constructor; blia|].
    apply Forall_cons in IH as [H1 H2]. constructor; [|done]. constructor; [blia|done]. }
  apply Forall_forall. intros s [Hs Hin]%list_elem_of_filter. split; [done|].
  rewrite Forall_forall in H. by apply H.
Qed.

End FsTypes.
