(* ===== verification/Ramfs.v ===== *)
(** * RAMFS

    [core/fs/ramfs_core.c]: 64 nodes, 4 data slots of 4096 bytes, path
    resolution and the operations of the driver table.  A [fs_node_t*] into
    [g_nodes] is the index of the node, the null pointer is [None].  The array
    [children] with its [child_count] is the list [kids] of its first
    [child_count] entries. *)

From S2P Require Import Prelude FsTypes.
From stdpp Require Import base list option list_numbers.
From Stdlib Require Import ZArith Lia ZifyBool.
Open Scope Z_scope.

Module Ramfs.
Import FsTypes.

Definition FS_MAX_NODES : Z := 64.
Definition FS_MAX_CHILDREN : Z := 16.
Definition RAMFS_DATA_SLOT_CAP : Z := 4.
Definition RAMFS_DATA_SLOT_SIZE : Z := 4096.
Definition RAMFS_NO_DATA_SLOT : Z := 0xFFFFFFFF.

(** ** State *)

Record fs_node := Node {
  used : Z;
  type : Z;
  name : list Z;
  parent : option nat;
  kids : list nat;
  data_slot : Z;
  size : Z
}.

Record ramfs_slot := Slot { slot_used : Z; slot_data : list Z }.

Record ramfs := Ramfs {
  g_nodes : list fs_node;
  g_data_slots : list ramfs_slot;
  g_root : option nat;
  g_cwd : option nat;
  g_dirty : Z
}.

(** What [fs_memzero] leaves. *)
Definition zero_node : fs_node := Node 0 0 [] None [] 0 0.
Definition zero_slot : ramfs_slot := Slot 0 (replicate (Z.to_nat RAMFS_DATA_SLOT_SIZE) 0).

Definition node_at (st : ramfs) (i : nat) : fs_node := default zero_node (g_nodes st !! i).
Definition slot_at (st : ramfs) (i : Z) : ramfs_slot :=
  default zero_slot (g_data_slots st !! Z.to_nat i).

Definition put_node (st : ramfs) (i : nat) (n : fs_node) : ramfs :=
  Ramfs (<[i := n]> (g_nodes st)) (g_data_slots st) (g_root st) (g_cwd st) (g_dirty st).
Definition put_slot (st : ramfs) (i : Z) (s : ramfs_slot) : ramfs :=
  Ramfs (g_nodes st) (<[Z.to_nat i := s]> (g_data_slots st)) (g_root st) (g_cwd st) (g_dirty st).
Definition set_cwd (st : ramfs) (c : option nat) : ramfs :=
  Ramfs (g_nodes st) (g_data_slots st) (g_root st) c (g_dirty st).
Definition set_dirty (st : ramfs) : ramfs :=
  Ramfs (g_nodes st) (g_data_slots st) (g_root st) (g_cwd st) 1.

Definition set_used (n : fs_node) (v : Z) : fs_node :=
  Node v (type n) (name n) (parent n) (kids n) (data_slot n) (size n).
Definition set_type (n : fs_node) (v : Z) : fs_node :=
  Node (used n) v (name n) (parent n) (kids n) (data_slot n) (size n).
Definition set_name (n : fs_node) (v : list Z) : fs_node :=
  Node (used n) (type n) v (parent n) (kids n) (data_slot n) (size n).
Definition set_parent (n : fs_node) (v : option nat) : fs_node :=
  Node (used n) (type n) (name n) v (kids n) (data_slot n) (size n).
Definition set_kids (n : fs_node) (v : list nat) : fs_node :=
  Node (used n) (type n) (name n) (parent n) v (data_slot n) (size n).
Definition set_slot (n : fs_node) (v : Z) : fs_node :=
  Node (used n) (type n) (name n) (parent n) (kids n) v (size n).
Definition set_size (n : fs_node) (v : Z) : fs_node :=
  Node (used n) (type n) (name n) (parent n) (kids n) (data_slot n) v.

(** The zero-initialised statics. *)
Definition ramfs_boot : ramfs :=
  Ramfs (replicate (Z.to_nat FS_MAX_NODES) zero_node)
        (replicate (Z.to_nat RAMFS_DATA_SLOT_CAP) zero_slot) None None 0.

(** ** Names *)

Fixpoint fs_streq (a b : list Z) : bool :=
  match a, b with
  | [], [] => true
  | x :: a', y :: b' => if negb (x =? y) then false else fs_streq a' b'
  | _, _ => false
  end.

Definition fs_lower (c : Z) : Z := if (65 <=? c) && (c <=? 90) then c + (97 - 65) else c.

(** The first loop of [fs_name_eq]: both strings end where it stops. *)
Fixpoint same_ci (a b : list Z) : bool :=
  match a, b with
  | [], [] => true
  | x :: a', y :: b' => if negb (fs_lower x =? fs_lower y) then false else same_ci a' b'
  | _, _ => false
  end.

Definition tilde : Z := 126.

(** [while (stored[alias_len] != 0 && stored[alias_len] != '~') ++alias_len;] *)
Fixpoint alias_length (stored : list Z) : nat :=
  match stored with
  | c :: r => if c =? tilde then O else S (alias_length r)
  | [] => O
  end.

Definition is_digit (c : Z) : bool := (48 <=? c) && (c <=? 57).

(** A stored short name [PREFIX~<digits>] stands for every name that starts with
    the prefix. *)
Definition fs_name_eq (stored requested : list Z) : bool :=
  if same_ci stored requested then true
  else
    let alias_len := alias_length stored in
    if negb (char_at stored alias_len =? tilde) || (alias_len =? 0)%nat
       || (char_at requested alias_len =? 0) then false
    else if negb (forallb is_digit (drop (S alias_len) stored)) then false
    else forallb (fun i => fs_lower (char_at stored i) =? fs_lower (char_at requested i))
           (seq 0 alias_len).

(** The copy loop: the result code and what was copied before it ended. *)
Fixpoint name_copy_loop (i : Z) (src : list Z) : Z * list Z :=
  match src with
  | [] => (FS_OK, [])
  | c :: r =>
      if c =? slash then (FS_ERR_INVALID, [])
      else if FS_NAME_CAP <=? i + 1 then (FS_ERR_INVALID, [])
      else let '(rc, d) := name_copy_loop (i + 1) r in (rc, c :: d)
  end.

Definition fs_name_copy (src : list Z) : Z * list Z :=
  if (length src =? 0)%nat then (FS_ERR_INVALID, []) else name_copy_loop 0 src.

(** ** Nodes and data slots *)

Fixpoint first_free_node (l : list fs_node) (i : nat) : option nat :=
  match l with
  | [] => None
  | n :: l' => if used n =? 0 then Some i else first_free_node l' (S i)
  end.

Definition fs_alloc_node (st : ramfs) : option (nat * ramfs) :=
  i ← first_free_node (g_nodes st) 0;
  Some (i, put_node st i (set_slot (set_used zero_node 1) RAMFS_NO_DATA_SLOT)).

Definition ramfs_clear_data_slots (st : ramfs) : ramfs :=
  Ramfs (g_nodes st) (replicate (Z.to_nat RAMFS_DATA_SLOT_CAP) zero_slot)
        (g_root st) (g_cwd st) (g_dirty st).

Fixpoint first_free_slot (l : list ramfs_slot) (i : Z) : Z :=
  match l with
  | [] => RAMFS_NO_DATA_SLOT
  | s :: l' => if slot_used s =? 0 then i else first_free_slot l' (i + 1)
  end.

Definition ramfs_alloc_data_slot (st : ramfs) : Z * ramfs :=
  let i := first_free_slot (g_data_slots st) 0 in
  if i =? RAMFS_NO_DATA_SLOT then (i, st)
  else (i, put_slot st i (Slot 1 (slot_data zero_slot))).

Definition ramfs_free_data_slot (st : ramfs) (slot : Z) : ramfs :=
  if RAMFS_DATA_SLOT_CAP <=? slot then st else put_slot st slot zero_slot.

(** Whether the node has data: [ramfs_node_data] is not null. *)
Definition has_data (st : ramfs) (i : nat) : bool :=
  if RAMFS_DATA_SLOT_CAP <=? data_slot (node_at st i) then false
  else negb (slot_used (slot_at st (data_slot (node_at st i))) =? 0).

Definition ramfs_node_data (st : ramfs) (i : nat) : option (list Z) :=
  if has_data st i then Some (slot_data (slot_at st (data_slot (node_at st i)))) else None.

Definition ramfs_ensure_data_slot (st : ramfs) (i : nat) : Z * ramfs :=
  if negb (type (node_at st i) =? FS_NODE_FILE) then (FS_ERR_INVALID, st)
  else if has_data st i then (FS_OK, st)
  else
    let '(slot, st) := ramfs_alloc_data_slot st in
    if slot =? RAMFS_NO_DATA_SLOT then (FS_ERR_NO_SPACE, st)
    else (FS_OK, put_node st i (set_slot (node_at st i) slot)).

(** Node identifiers are indices plus one; 0 is no node. *)
Definition fs_node_id (i : option nat) : Z :=
  match i with None => 0 | Some i => Z.of_nat i + 1 end.

Definition fs_node_from_id (st : ramfs) (node_id : Z) : option nat :=
  if node_id =? 0 then None
  else
    let index := u32 (node_id - 1) in
    if FS_MAX_NODES <=? index then None
    else if used (node_at st (Z.to_nat index)) =? 0 then None
    else Some (Z.to_nat index).

(** ** Directories *)

Fixpoint find_kid (st : ramfs) (ks : list nat) (nm : list Z) : option nat :=
  match ks with
  | [] => None
  | k :: ks' => if fs_name_eq (name (node_at st k)) nm then Some k else find_kid st ks' nm
  end.

Definition fs_find_child (st : ramfs) (dir : option nat) (nm : list Z) : option nat :=
  d ← dir;
  if negb (type (node_at st d) =? FS_NODE_DIR) then None
  else find_kid st (kids (node_at st d)) nm.

Definition fs_attach_child (st : ramfs) (p c : nat) : Z * ramfs :=
  if negb (type (node_at st p) =? FS_NODE_DIR) then (FS_ERR_INVALID, st)
  else if FS_MAX_CHILDREN <=? Z.of_nat (length (kids (node_at st p))) then (FS_ERR_NO_SPACE, st)
  else
    let st := put_node st p (set_kids (node_at st p) (kids (node_at st p) ++ [c])) in
    (FS_OK, put_node st c (set_parent (node_at st c) (Some p))).

(** Result code, the new node ([out_node]) and the state. *)
Definition fs_create_node (st : ramfs) (parent : option nat) (nm : list Z) (ty : Z)
    : Z * option nat * ramfs :=
  match parent with
  | None => (FS_ERR_NOT_DIR, None, st)
  | Some p =>
      if negb (type (node_at st p) =? FS_NODE_DIR) then (FS_ERR_NOT_DIR, None, st)
      else if bool_decide (is_Some (fs_find_child st parent nm)) then (FS_ERR_EXISTS, None, st)
      else
        match fs_alloc_node st with
        | None => (FS_ERR_NO_SPACE, None, st)
        | Some (i, st) =>
            let '(rc, copied) := fs_name_copy nm in
            let st := put_node st i (set_name (node_at st i) copied) in
            if negb (rc =? FS_OK) then (rc, None, put_node st i (set_used (node_at st i) 0))
            else
              let st := put_node st i (set_type (node_at st i) ty) in
              let '(rc, st) := fs_attach_child st p i in
              if negb (rc =? FS_OK) then (rc, None, put_node st i (set_used (node_at st i) 0))
              else (FS_OK, Some i, st)
        end
  end.

(** ** Paths *)

(** The second loop of [fs_next_segment]; [None] is [FS_ERR_INVALID]. *)
Fixpoint take_segment (len : Z) (p : list Z) : option (list Z * list Z) :=
  match p with
  | [] => Some ([], [])
  | c :: r =>
      if c =? slash then Some ([], p)
      else if FS_NAME_CAP <=? len + 1 then None
      else '(seg, rest) ← take_segment (len + 1) r; Some (c :: seg, rest)
  end.

(** Status (1: a segment, 0: end, negative: error), the rest of the path and the
    segment. *)
Definition fs_next_segment (path : list Z) : Z * list Z * list Z :=
  match skip_slashes path with
  | [] => (0, [], [])
  | p => match take_segment 0 p with
         | None => (FS_ERR_INVALID, path, [])
         | Some (seg, rest) => (1, rest, seg)
         end
  end.

(** [if (current->parent != 0) current = current->parent;] *)
Definition up (st : ramfs) (cur : nat) : nat := default cur (parent (node_at st cur)).

(** The loop of [fs_resolve_path_from]; [None] is "still running". *)
Fixpoint resolve_loop (fuel : nat) (st : ramfs) (cur : nat) (path : list Z)
    : option (Z * option nat) :=
  match fuel with
  | O => None
  | S f =>
      let '(status, rest, seg) := fs_next_segment path in
      if status <? 0 then Some (status, None)
      else if status =? 0 then Some (FS_OK, Some cur)
      else if fs_streq seg dot then resolve_loop f st cur rest
      else if fs_streq seg dotdot then resolve_loop f st (up st cur) rest
      else if negb (type (node_at st cur) =? FS_NODE_DIR) then Some (FS_ERR_NOT_DIR, None)
      else match fs_find_child st (Some cur) seg with
           | None => Some (FS_ERR_NOT_FOUND, None)
           | Some c => resolve_loop f st c rest
           end
  end.

(** Every turn consumes a character, so [length path + 1] turns are enough. *)
Definition fs_resolve_path_from (st : ramfs) (start : option nat) (path : list Z)
    : Z * option nat :=
  match (if char_at path 0 =? slash then g_root st else start) with
  | None => (FS_ERR_INVALID, None)
  | Some cur =>
      if (length path =? 0)%nat then (FS_OK, Some cur)
      else default (FS_ERR_INVALID, None) (resolve_loop (S (length path)) st cur path)
  end.

Definition fs_resolve_path (st : ramfs) (path : list Z) : Z * option nat :=
  fs_resolve_path_from st (g_cwd st) path.

Fixpoint parent_loop (fuel : nat) (st : ramfs) (cur : nat) (path : list Z)
    : option (Z * option nat * list Z) :=
  match fuel with
  | O => None
  | S f =>
      let '(status, rest, seg) := fs_next_segment path in
      if status <=? 0 then Some (FS_ERR_INVALID, None, [])
      else
        match skip_slashes rest with
        | [] =>
            if fs_streq seg dot || fs_streq seg dotdot then Some (FS_ERR_INVALID, None, [])
            else let '(rc, nm) := fs_name_copy seg in Some (rc, Some cur, nm)
        | _ =>
            if fs_streq seg dot then parent_loop f st cur rest
            else if fs_streq seg dotdot then parent_loop f st (up st cur) rest
            else match fs_find_child st (Some cur) seg with
                 | None => Some (FS_ERR_NOT_FOUND, None, [])
                 | Some c =>
                     if negb (type (node_at st c) =? FS_NODE_DIR)
                     then Some (FS_ERR_NOT_DIR, None, [])
                     else parent_loop f st c rest
                 end
        end
  end.

(** Result code, parent directory and last component.  Before the first
    [ramfs_core_reset_empty] the root and the working directory are null. *)
Definition fs_resolve_parent (st : ramfs) (path : list Z) : Z * option nat * list Z :=
  match (if char_at path 0 =? slash then g_root st else g_cwd st) with
  | None => (FS_ERR_INVALID, None, [])
  | Some cur => default (FS_ERR_INVALID, None, []) (parent_loop (S (length path)) st cur path)
  end.

(** ** Operations *)

Definition ramfs_core_reset_empty (st : ramfs) : Z * ramfs :=
  let st := Ramfs (replicate (Z.to_nat FS_MAX_NODES) zero_node) (g_data_slots st) (g_root st)
              (g_cwd st) (g_dirty st) in
  let st := ramfs_clear_data_slots st in
  let st := Ramfs (g_nodes st) (g_data_slots st) (g_root st) (g_cwd st) 0 in
  match fs_alloc_node st with
  | None => (FS_ERR_NO_SPACE, Ramfs (g_nodes st) (g_data_slots st) None (g_cwd st) (g_dirty st))
  | Some (r, st) =>
      let st := put_node st r (set_parent (set_name (set_type (node_at st r) FS_NODE_DIR) []) None) in
      (FS_OK, Ramfs (g_nodes st) (g_data_slots st) (Some r) (Some r) (g_dirty st))
  end.

Definition ramfs_core_init (st : ramfs) : Z * ramfs := ramfs_core_reset_empty st.

Definition ramfs_core_import_node (st : ramfs) (path : list Z) (ty : Z) : Z * ramfs :=
  if negb (char_at path 0 =? slash) then (FS_ERR_INVALID, st)
  else if char_at path 1 =? 0 then
    ((if ty =? FS_NODE_DIR then FS_OK else FS_ERR_INVALID), st)
  else
    let '(rc, par, nm) := fs_resolve_parent st path in
    if negb (rc =? FS_OK) then (rc, st)
    else match fs_find_child st par nm with
         | Some e => ((if type (node_at st e) =? ty then FS_OK else FS_ERR_EXISTS), st)
         | None => let '(rc, _, st) := fs_create_node st par nm ty in (rc, st)
         end.

Definition ramfs_core_import_dir (st : ramfs) (path : list Z) : Z * ramfs :=
  ramfs_core_import_node st path FS_NODE_DIR.
Definition ramfs_core_import_file (st : ramfs) (path : list Z) : Z * ramfs :=
  ramfs_core_import_node st path FS_NODE_FILE.

Definition ramfs_core_clear_dirty (st : ramfs) : ramfs :=
  Ramfs (g_nodes st) (g_data_slots st) (g_root st) (g_cwd st) 0.

(** [ramfs_stats_t], without the constant fields. *)
Record ramfs_stats := Stats {
  node_used : Z; dir_nodes : Z; file_nodes : Z; used_file_bytes : Z;
  data_slot_used : Z; reserved_file_bytes : Z
}.

Definition stats_node (acc : ramfs_stats) (n : fs_node) : ramfs_stats :=
  if used n =? 0 then acc
  else if type n =? FS_NODE_DIR then
    Stats (u32 (node_used acc + 1)) (u32 (dir_nodes acc + 1)) (file_nodes acc)
      (used_file_bytes acc) 0 0
  else if type n =? FS_NODE_FILE then
    Stats (u32 (node_used acc + 1)) (dir_nodes acc) (u32 (file_nodes acc + 1))
      (u32 (used_file_bytes acc + size n)) 0 0
  else Stats (u32 (node_used acc + 1)) (dir_nodes acc) (file_nodes acc) (used_file_bytes acc) 0 0.

Definition ramfs_core_get_stats (st : ramfs) : ramfs_stats :=
  let s := foldl stats_node (Stats 0 0 0 0 0 0) (g_nodes st) in
  let n := foldl (fun k d => if slot_used d =? 0 then k else u32 (k + 1)) 0 (g_data_slots st) in
  Stats (node_used s) (dir_nodes s) (file_nodes s) (used_file_bytes s) n
    (u32 (n * RAMFS_DATA_SLOT_SIZE)).

(** [chain]: the nodes from the working directory up to the root, at most
    [FS_PATH_CAP / 2]; [None] is a null parent dereferenced. *)
Fixpoint cwd_chain (n : nat) (st : ramfs) (cur : nat) : option (list nat) :=
  match n with
  | O => Some []
  | S n' =>
      if bool_decide (Some cur = g_root st) then Some [cur]
      else match n' with
           | O => Some [cur]
           | _ => p ← parent (node_at st cur); l ← cwd_chain n' st p; Some (cur :: l)
           end
  end.

(** [buf] is what is in [g_path_buf] so far. *)
Fixpoint append_name (nm buf : list Z) : list Z :=
  match nm with
  | [] => buf
  | c :: nm' => if FS_PATH_CAP <=? Z.of_nat (length buf) + 1 then buf
                else append_name nm' (buf ++ [c])
  end.

Fixpoint append_nodes (st : ramfs) (chain : list nat) (buf : list Z) : list Z :=
  match chain with
  | [] => buf
  | n :: chain' =>
      if bool_decide (Some n = g_root st) then append_nodes st chain' buf
      else if FS_PATH_CAP <=? Z.of_nat (length buf) + 1 then buf
      else append_nodes st chain' (append_name (name (node_at st n)) (buf ++ [slash]))
  end.

Definition ramfs_core_get_cwd_path (st : ramfs) : option (list Z) :=
  match g_cwd st with
  | None => Some [slash]
  | Some c =>
      if bool_decide (g_cwd st = g_root st) then Some [slash]
      else
        chain ← cwd_chain (Z.to_nat (FS_PATH_CAP / 2)) st c;
        let buf := append_nodes st (reverse chain) [] in
        Some (if (length buf =? 0)%nat then [slash] else buf)
  end.

Definition ramfs_core_change_dir (st : ramfs) (path : list Z) : Z * ramfs :=
  match fs_resolve_path st path with
  | (rc, Some n) =>
      if negb (rc =? FS_OK) then (rc, st)
      else if negb (type (node_at st n) =? FS_NODE_DIR) then (FS_ERR_NOT_DIR, st)
      else (FS_OK, set_cwd st (Some n))
  | (rc, None) => (rc, st)
  end.

Definition ramfs_core_make_dir (st : ramfs) (path : list Z) : Z * ramfs :=
  let '(rc, par, nm) := fs_resolve_parent st path in
  if negb (rc =? FS_OK) then (rc, st)
  else
    let '(rc, _, st) := fs_create_node st par nm FS_NODE_DIR in
    (rc, if rc =? FS_OK then set_dirty st else st).

(** Result code, [*out_count] and the entries. *)
Definition ramfs_core_list_dir (st : ramfs) (path : list Z) (cap : Z)
    : Z * Z * list (list Z * Z) :=
  match fs_resolve_path st path with
  | (rc, Some d) =>
      if negb (rc =? FS_OK) then (rc, 0, [])
      else if negb (type (node_at st d) =? FS_NODE_DIR) then (FS_ERR_NOT_DIR, 0, [])
      else
        let is_root := bool_decide (Some d = g_root st) in
        let special := if is_root then 0 else 2 in
        let count := Z.of_nat (length (kids (node_at st d))) + special in
        if cap <? count then (FS_ERR_NO_SPACE, count, [])
        else (FS_OK, count,
              (if is_root then [] else [(dot, FS_NODE_DIR); (dotdot, FS_NODE_DIR)]) ++
              ((fun k => (name (node_at st k), type (node_at st k))) <$> kids (node_at st d)))
  | (rc, None) => (rc, 0, [])
  end.

(** Result code, [*out_size] and the bytes stored in the buffer. *)
Definition ramfs_core_read_file (st : ramfs) (path : list Z) (cap : Z) : Z * Z * list Z :=
  match fs_resolve_path st path with
  | (rc, Some n) =>
      if negb (rc =? FS_OK) then (rc, 0, [])
      else if negb (type (node_at st n) =? FS_NODE_FILE) then (FS_ERR_NOT_DIR, 0, [])
      else
        let sz := size (node_at st n) in
        if cap <? sz then (FS_ERR_NO_SPACE, sz, [])
        else match ramfs_node_data st n with
             | None => if 0 <? sz then (FS_ERR_INVALID, sz, []) else (FS_OK, sz, [])
             | Some data => (FS_OK, sz, take (Z.to_nat sz) data)
             end
  | (rc, None) => (rc, 0, [])
  end.

(** The part of [ramfs_core_open] after the node is known. *)
Definition open_node (st : ramfs) (n : nat) (flags : Z) : Z * Z * ramfs :=
  if negb (type (node_at st n) =? FS_NODE_FILE) then (FS_ERR_NOT_DIR, 0, st)
  else if negb (Z.land flags FS_O_TRUNC =? 0) then
    if Z.land flags FS_O_WRONLY =? 0 then (FS_ERR_INVALID, 0, st)
    else
      let st := if negb (data_slot (node_at st n) =? RAMFS_NO_DATA_SLOT) then
                  let st := ramfs_free_data_slot st (data_slot (node_at st n)) in
                  put_node st n (set_slot (node_at st n) RAMFS_NO_DATA_SLOT)
                else st in
      let st := put_node st n (set_size (node_at st n) 0) in
      (FS_OK, fs_node_id (Some n), set_dirty st)
  else (FS_OK, fs_node_id (Some n), st).

(** Result code, [*out_node_id] and the state. *)
Definition ramfs_core_open (st : ramfs) (path : list Z) (flags : Z) : Z * Z * ramfs :=
  let '(rc, n) := fs_resolve_path st path in
  if (rc =? FS_ERR_NOT_FOUND) && negb (Z.land flags FS_O_CREAT =? 0) then
    let '(rc, par, nm) := fs_resolve_parent st path in
    if negb (rc =? FS_OK) then (rc, 0, st)
    else
      match fs_create_node st par nm FS_NODE_FILE with
      | (rc, Some n, st) => open_node (set_dirty st) n flags
      | (rc, None, st) => (rc, 0, st)
      end
  else
    match n with
    | Some n => if negb (rc =? FS_OK) then (rc, 0, st) else open_node st n flags
    | None => (rc, 0, st)
    end.

(** Result code, [*out_size] and the bytes stored in the buffer. *)
Definition ramfs_core_read (st : ramfs) (node_id offset cap : Z) : Z * Z * list Z :=
  match fs_node_from_id st node_id with
  | None => (FS_ERR_INVALID, 0, [])
  | Some n =>
      if negb (type (node_at st n) =? FS_NODE_FILE) then (FS_ERR_NOT_DIR, 0, [])
      else if size (node_at st n) <=? offset then (FS_OK, 0, [])
      else
        let available := size (node_at st n) - offset in
        let count := if available <? cap then available else cap in
        match ramfs_node_data st n with
        | None => (FS_ERR_INVALID, 0, [])
        | Some data => (FS_OK, count, take (Z.to_nat count) (drop (Z.to_nat offset) data))
        end
  end.

(** [for (i = 0; i < size; ++i) data[offset + i] = buffer[i];] *)
Fixpoint store_bytes (data : list Z) (off : nat) (bytes : list Z) : list Z :=
  match bytes with
  | [] => data
  | b :: bytes' => store_bytes (<[off := b]> data) (S off) bytes'
  end.

(** Result code, [*out_written] and the state; [bytes] is the [size] bytes at
    [buffer]. *)
Definition ramfs_core_write (st : ramfs) (node_id offset : Z) (bytes : list Z)
    : Z * Z * ramfs :=
  let sz := Z.of_nat (length bytes) in
  match fs_node_from_id st node_id with
  | None => (FS_ERR_INVALID, 0, st)
  | Some n =>
      if negb (type (node_at st n) =? FS_NODE_FILE) then (FS_ERR_NOT_DIR, 0, st)
      else if (RAMFS_DATA_SLOT_SIZE <? offset) || (RAMFS_DATA_SLOT_SIZE - offset <? sz)
      then (FS_ERR_NO_SPACE, 0, st)
      else if sz =? 0 then (FS_OK, 0, st)
      else
        let '(rc, st) := ramfs_ensure_data_slot st n in
        if negb (rc =? FS_OK) then (rc, 0, st)
        else
          match ramfs_node_data st n with
          | None => (FS_ERR_INVALID, 0, st)
          | Some data =>
              let slot := data_slot (node_at st n) in
              let st := put_slot st slot
                          (Slot (slot_used (slot_at st slot))
                             (store_bytes data (Z.to_nat offset) bytes)) in
              let st := if size (node_at st n) <? offset + sz
                        then put_node st n (set_size (node_at st n) (offset + sz)) else st in
              (FS_OK, sz, set_dirty st)
          end
  end.

Definition ramfs_core_size (st : ramfs) (node_id : Z) : Z * Z :=
  match fs_node_from_id st node_id with
  | None => (FS_ERR_INVALID, 0)
  | Some n => if negb (type (node_at st n) =? FS_NODE_FILE) then (FS_ERR_NOT_DIR, 0)
              else (FS_OK, size (node_at st n))
  end.

Definition ramfs_core_close (st : ramfs) (node_id : Z) : Z :=
  match fs_node_from_id st node_id with None => FS_ERR_INVALID | Some _ => FS_OK end.

Definition ramfs_fill_stat (st : ramfs) (n : option nat) : Z * option fs_stat :=
  match n with
  | None => (FS_ERR_INVALID, None)
  | Some n =>
      let d := node_at st n in
      (FS_OK, Some (FsStat (if type d =? FS_NODE_DIR then FS_MODE_DIR else FS_MODE_FILE)
                           (if type d =? FS_NODE_FILE then size d else 0)))
  end.

Definition ramfs_core_stat (st : ramfs) (path : list Z) : Z * option fs_stat :=
  let '(rc, n) := fs_resolve_path st path in
  if negb (rc =? FS_OK) then (rc, None) else ramfs_fill_stat st n.

Definition ramfs_core_fstat (st : ramfs) (node_id : Z) : Z * option fs_stat :=
  ramfs_fill_stat st (fs_node_from_id st node_id).

(** The removal loop: drop the first entry that is [n]; [None] if there is none. *)
Fixpoint remove_kid (ks : list nat) (n : nat) : option (list nat) :=
  match ks with
  | [] => None
  | k :: ks' => if (k =? n)%nat then Some ks' else l ← remove_kid ks' n; Some (k :: l)
  end.

Definition ramfs_core_unlink (st : ramfs) (path : list Z) : Z * ramfs :=
  match fs_resolve_path st path with
  | (rc, Some n) =>
      if negb (rc =? FS_OK) then (rc, st)
      else if bool_decide (Some n = g_root st) || (type (node_at st n) =? FS_NODE_DIR)
      then (FS_ERR_IS_DIR, st)
      else
        match parent (node_at st n) with
        | None => (FS_ERR_INVALID, st)
        | Some p =>
            if negb (type (node_at st p) =? FS_NODE_DIR) then (FS_ERR_INVALID, st)
            else
              match remove_kid (kids (node_at st p)) n with
              | None => (FS_ERR_INVALID, st)
              | Some ks =>
                  let st := put_node st p (set_kids (node_at st p) ks) in
                  let slot := data_slot (node_at st n) in
                  let st := if negb (slot =? RAMFS_NO_DATA_SLOT)
                            then ramfs_free_data_slot st slot else st in
                  (FS_OK, set_dirty (put_node st n zero_node))
              end
        end
  | (rc, None) => (rc, st)
  end.

Definition ramfs_core_rmdir (st : ramfs) (path : list Z) : Z * ramfs :=
  match fs_resolve_path st path with
  | (rc, Some n) =>
      if negb (rc =? FS_OK) then (rc, st)
      else if bool_decide (Some n = g_root st) || bool_decide (Some n = g_cwd st)
              || negb (type (node_at st n) =? FS_NODE_DIR) then (FS_ERR_INVALID, st)
      else if negb (length (kids (node_at st n)) =? 0)%nat then (FS_ERR_NOT_EMPTY, st)
      else
        match parent (node_at st n) with
        | None => (FS_ERR_INVALID, st)
        | Some p =>
            match remove_kid (kids (node_at st p)) n with
            | None => (FS_ERR_INVALID, st)
            | Some ks =>
                let st := put_node st p (set_kids (node_at st p) ks) in
                (FS_OK, set_dirty (put_node st n zero_node))
            end
        end
  | (rc, None) => (rc, st)
  end.

Definition ramfs_core_driver_init (st : ramfs) : Z :=
  match g_root st with None => FS_ERR_INVALID | Some _ => FS_OK end.

End Ramfs.
