(* ===== verification/RamfsTree.v ===== *)
(** * The directory tree of RAMFS

    The well-formedness of the node table (a rooted tree with consistent parent
    and child links and distinct names), what creating and removing a node do to
    it, and path resolution as a walk in the tree. *)

From S2P Require Import Prelude FsTypes Ramfs.
From stdpp Require Import base list option sets list_numbers.
From Stdlib Require Import ZArith Lia ZifyBool.
Open Scope Z_scope.

Module RamfsTree.
Import FsTypes Ramfs.

(** ** Node table lookups *)

Definition live (st : ramfs) (i : nat) : Prop := used (node_at st i) <> 0.

Lemma live_lt st i : length (g_nodes st) = 64%nat -> live st i -> (i < 64)%nat.
Proof.
  intros Hl Hi. destruct (decide (i < 64)%nat) as [|Hge]; [done|]. destruct Hi.
  unfold node_at. by rewrite (lookup_ge_None_2 (g_nodes st)) by lia.
Qed.

Lemma node_at_put st i n j :
  (i < length (g_nodes st))%nat ->
  node_at (put_node st i n) j = if decide (j = i) then n else node_at st j.
Proof.
  intros Hi. unfold node_at, put_node. simpl. case_decide as E.
  - subst. by rewrite list_lookup_insert_eq.
  - by rewrite list_lookup_insert_ne.
Qed.

Lemma length_put st i n : length (g_nodes (put_node st i n)) = length (g_nodes st).
Proof. apply length_insert. Qed.

Lemma node_at_put_slot st i s j : node_at (put_slot st i s) j = node_at st j.
Proof. done. Qed.

Lemma node_at_dirty st j : node_at (set_dirty st) j = node_at st j.
Proof. done. Qed.

(** ** Well-formed trees *)

(** A stored name: not empty, shorter than [FS_NAME_CAP], no slash, no NUL. *)
Record name_ok (nm : list Z) : Prop := {
  nk_len : 0 < Z.of_nat (length nm) < FS_NAME_CAP;
  nk_chars : Forall (fun c => c <> slash /\ c <> 0) nm
}.

(** No entry hides a later one from [fs_find_child]. *)
Fixpoint distinct_names (st : ramfs) (ks : list nat) : Prop :=
  match ks with
  | [] => True
  | k :: ks' =>
      Forall (fun j => fs_name_eq (name (node_at st k)) (name (node_at st j)) = false) ks' /\
      distinct_names st ks'
  end.

Record dir_ok (st : ramfs) (p : nat) : Prop := {
  do_nodup : NoDup (kids (node_at st p));
  do_kids : Forall (fun k => live st k /\ parent (node_at st k) = Some p) (kids (node_at st p));
  do_names : distinct_names st (kids (node_at st p));
  do_cap : Z.of_nat (length (kids (node_at st p))) <= FS_MAX_CHILDREN
}.

Record child_ok (st : ramfs) (i : nat) : Prop := {
  co_parent : exists p, parent (node_at st i) = Some p /\ live st p /\
    type (node_at st p) = FS_NODE_DIR /\ i ∈ kids (node_at st p);
  co_name : name_ok (name (node_at st i))
}.

Record tree (st : ramfs) (r : nat) : Prop := {
  tr_len : length (g_nodes st) = 64%nat;
  tr_root : g_root st = Some r;
  tr_root_dir : live st r /\ type (node_at st r) = FS_NODE_DIR /\ parent (node_at st r) = None;
  tr_cwd : exists c, g_cwd st = Some c /\ live st c /\ type (node_at st c) = FS_NODE_DIR;
  tr_type i : live st i -> type (node_at st i) = FS_NODE_DIR \/
                           type (node_at st i) = FS_NODE_FILE /\ kids (node_at st i) = [];
  tr_child i : live st i -> i <> r -> child_ok st i;
  tr_dir i : live st i -> type (node_at st i) = FS_NODE_DIR -> dir_ok st i;
  tr_rank : exists rank : nat -> nat, forall i p,
    live st i -> parent (node_at st i) = Some p -> (rank p < rank i)%nat
}.

(** States with the same live nodes; dead nodes may differ. *)
Record same_live (st st' : ramfs) : Prop := {
  sl_len : length (g_nodes st') = length (g_nodes st);
  sl_root : g_root st' = g_root st;
  sl_cwd : g_cwd st' = g_cwd st;
  sl_slots : g_data_slots st' = g_data_slots st;
  sl_used i : used (node_at st' i) = used (node_at st i);
  sl_node i : live st i -> node_at st' i = node_at st i
}.

Lemma distinct_names_ext st st' ks :
  Forall (fun k => name (node_at st' k) = name (node_at st k)) ks ->
  distinct_names st ks -> distinct_names st' ks.
Proof.
  induction 1 as [|k ks Hk Hks IH]; [done|]. intros [H1 H2]. split; [|by apply IH].
  rewrite Forall_forall in *. intros j Hj. rewrite Hk, (Hks j Hj). by apply H1.
Qed.

Lemma dir_ok_kid_live st p k : dir_ok st p -> k ∈ kids (node_at st p) -> live st k.
Proof. intros [_ H _ _] Hk. rewrite Forall_forall in H. by apply H. Qed.

(** A directory whose node and children keep their fields stays well formed. *)
Lemma dir_ok_frame st st' p :
  kids (node_at st' p) = kids (node_at st p) ->
  (forall k, k ∈ kids (node_at st p) ->
     (live st k -> live st' k) /\ name (node_at st' k) = name (node_at st k) /\
     parent (node_at st' k) = parent (node_at st k)) ->
  dir_ok st p -> dir_ok st' p.
Proof.
  intros Hk Hf [H1 H2 H3 H4]. split; rewrite Hk; try done.
  - rewrite Forall_forall in *. intros k Hin. destruct (Hf k Hin) as (F1 & _ & ->).
    destruct (H2 k Hin). split; [by apply F1|done].
  - eapply distinct_names_ext; [|done]. rewrite Forall_forall. intros k Hin. by apply Hf.
Qed.

Lemma same_live_live st st' i : same_live st st' -> live st' i <-> live st i.
Proof. intros H. unfold live. by rewrite (sl_used _ _ H). Qed.

Lemma same_live_tree st st' r : same_live st st' -> tree st r -> tree st' r.
Proof.
  intros H [T1 T2 T3 T4 T5 T6 T7 T8].
  assert (forall i, live st' i -> live st i /\ node_at st' i = node_at st i) as Hn.
  { intros i Hi. apply (same_live_live st st') in Hi; [|done]. split; [done|by apply H]. }
  assert (forall i, live st i -> live st' i) as Hl by (intros i; by apply same_live_live).
  split.
  - by rewrite (sl_len _ _ H).
  - by rewrite (sl_root _ _ H).
  - destruct T3 as (L & T3). rewrite (sl_node _ _ H r L). auto.
  - destruct T4 as (c & Hc & L & Ht). exists c. rewrite (sl_cwd _ _ H), (sl_node _ _ H c L). auto.
  - intros i Hi. destruct (Hn i Hi) as [L ->]. auto.
  - intros i Hi Hr. destruct (Hn i Hi) as [L E]. destruct (T6 i L Hr) as [(p & P1 & P2 & P3 & P4) P5].
    split; rewrite E; [|done]. exists p. rewrite (sl_node _ _ H p P2). auto.
  - intros i Hi. destruct (Hn i Hi) as [L E]. rewrite E. intros Hd. pose proof (T7 i L Hd) as Hdo.
    apply (dir_ok_frame st); [by rewrite E| |done]. intros k Hk.
    pose proof (dir_ok_kid_live st i k Hdo Hk) as Lk. rewrite (sl_node _ _ H k Lk). auto.
  - destruct T8 as [rank T8]. exists rank. intros i p Hi. destruct (Hn i Hi) as [L ->]. by apply T8.
Qed.

(** ** Creating a node *)

Lemma first_free_node_spec l k :
  match first_free_node l k with
  | Some i => (k <= i < k + length l)%nat /\ used (default zero_node (l !! (i - k)%nat)) = 0
  | None => Forall (fun n => used n <> 0) l
  end.
Proof.
  revert k. induction l as [|n l IH]; intros k; simpl; [constructor|].
  destruct (Z.eqb_spec (used n) 0) as [He|He].
  - split; [lia|]. by rewrite Nat.sub_diag.
  - specialize (IH (S k)). destruct (first_free_node l (S k)) as [i|]; [|by constructor].
    destruct IH as [H1 H2]. split; [lia|].
    by replace (i - k)%nat with (S (i - S k)) by lia.
Qed.

Lemma name_copy_loop_ok i nm :
  0 <= i -> (name_copy_loop i nm).1 = FS_OK ->
  (name_copy_loop i nm).2 = nm /\ Forall (fun c => c <> slash) nm /\
  (nm <> [] -> i + Z.of_nat (length nm) < FS_NAME_CAP).
Proof.
  revert i. induction nm as [|c nm IH]; intros i Hi; simpl; [done|].
  destruct (Z.eqb_spec c slash); [done|]. destruct (Z.leb_spec FS_NAME_CAP (i + 1)); [done|].
  specialize (IH (i + 1) ltac:(lia)). destruct (name_copy_loop (i + 1) nm) as [rc d]. simpl in *.
  intros Hrc. destruct (IH Hrc) as (-> & H2 & H3). split; [done|]. split; [by constructor|].
  intros _. destruct nm as [|c' nm]; [simpl; lia|]. specialize (H3 ltac:(done)).
  cbn [length] in *. lia.
Qed.

Lemma fs_name_copy_ok nm :
  (fs_name_copy nm).1 = FS_OK ->
  (fs_name_copy nm).2 = nm /\ Forall (fun c => c <> slash) nm /\
  0 < Z.of_nat (length nm) < FS_NAME_CAP.
Proof.
  unfold fs_name_copy. destruct (Nat.eqb_spec (length nm) 0); [done|].
  intros H. destruct (name_copy_loop_ok 0 nm ltac:(lia) H) as (H1 & H2 & H3).
  split; [done|]. split; [done|]. destruct nm; [done|]. specialize (H3 ltac:(done)). lia.
Qed.

(** The table after a successful creation of [i] as the last child of [p]. *)
Record created (st st' : ramfs) (p i : nat) (nm : list Z) (ty : Z) : Prop := {
  cr_fresh : (i < 64)%nat /\ used (node_at st i) = 0;
  cr_len : length (g_nodes st') = length (g_nodes st);
  cr_frame : g_root st' = g_root st /\ g_cwd st' = g_cwd st /\ g_data_slots st' = g_data_slots st /\
    g_dirty st' = g_dirty st;
  cr_node : node_at st' i = Node 1 ty nm (Some p) [] RAMFS_NO_DATA_SLOT 0;
  cr_parent : node_at st' p = set_kids (node_at st p) (kids (node_at st p) ++ [i]);
  cr_other j : j <> i -> j <> p -> node_at st' j = node_at st j;
  cr_room : Z.of_nat (length (kids (node_at st p))) < FS_MAX_CHILDREN;
  cr_none : fs_find_child st (Some p) nm = None;
  cr_name : Forall (fun c => c <> slash) nm /\ 0 < Z.of_nat (length nm) < FS_NAME_CAP
}.

(** Evaluate a chain of updates of the node table. *)
Ltac nodes :=
  repeat (rewrite node_at_put by (rewrite ?length_put; lia));
  repeat case_decide; try congruence; try done.

(** Updates of one dead node that leave it dead. *)
Lemma dead_update st st' i :
  used (node_at st i) = 0 -> length (g_nodes st') = length (g_nodes st) ->
  g_root st' = g_root st -> g_cwd st' = g_cwd st -> g_data_slots st' = g_data_slots st ->
  used (node_at st' i) = 0 -> (forall j, j <> i -> node_at st' j = node_at st j) ->
  same_live st st'.
Proof.
  intros Hu E1 E2 E3 E4 E5 E6. split; try done.
  - intros j. destruct (decide (j = i)) as [->|Hj]; [congruence|by rewrite E6].
  - intros j Lj. apply E6. intros ->. by apply Lj.
Qed.

(** The part of [fs_create_node] after the node was allocated. *)
Lemma fill_node_spec st p nm ty i :
  length (g_nodes st) = 64%nat -> live st p -> type (node_at st p) = FS_NODE_DIR ->
  fs_find_child st (Some p) nm = None -> (i < 64)%nat -> used (node_at st i) = 0 ->
  let st1 := put_node st i (set_slot (set_used zero_node 1) RAMFS_NO_DATA_SLOT) in
  let '(rc, out, st') :=
    let '(rc, copied) := fs_name_copy nm in
    let st := put_node st1 i (set_name (node_at st1 i) copied) in
    if negb (rc =? FS_OK) then (rc, None, put_node st i (set_used (node_at st i) 0))
    else
      let st := put_node st i (set_type (node_at st i) ty) in
      let '(rc, st) := fs_attach_child st p i in
      if negb (rc =? FS_OK) then (rc, None, put_node st i (set_used (node_at st i) 0))
      else (FS_OK, Some i, st) in
  (rc = FS_OK /\ exists i, out = Some i /\ created st st' p i nm ty) \/
  (rc <> FS_OK /\ out = None /\ same_live st st').
Proof.
  intros Hlen Hp Ht Hnone Hi Hu st1. assert (i <> p) as Hip by (intros ->; by apply Hp).
  pose proof (live_lt st p Hlen Hp) as Hplt.
  pose proof (fs_name_copy_ok nm) as Hnc. destruct (fs_name_copy nm) as [rc copied].
  cbn [fst snd] in Hnc. destruct (Z.eqb_spec rc FS_OK) as [->|Hrc]; cbn [negb].
  2: { right. split; [done|]. split; [done|]. apply (dead_update _ _ i); try done; unfold st1.
       - by rewrite !length_put.
       - nodes.
       - intros j Hj. nodes. }
  destruct (Hnc eq_refl) as (-> & Hns & Hnl). unfold fs_attach_child.
  set (st2 := put_node (put_node st1 i _) i _).
  assert (node_at st2 p = node_at st p) as -> by (unfold st2, st1; nodes).
  rewrite Ht. cbn [negb Z.eqb FS_NODE_DIR Pos.eqb].
  destruct (Z.leb_spec FS_MAX_CHILDREN (Z.of_nat (length (kids (node_at st p))))) as [Hfull|Hroom].
  - right. split; [done|]. split; [done|]. apply (dead_update _ _ i); try done; unfold st2, st1.
    + by rewrite !length_put.
    + nodes.
    + intros j Hj. nodes.
  - left. split; [done|]. exists i. split; [done|]. split; try done; unfold st2, st1.
    + by rewrite !length_put.
    + nodes.
    + nodes.
    + intros j Hj Hjp. nodes.
Qed.

(** [fs_create_node] creates the node, or fails and leaves the live nodes alone. *)
Lemma create_node_spec st p nm ty :
  length (g_nodes st) = 64%nat -> live st p -> type (node_at st p) = FS_NODE_DIR ->
  let '(rc, out, st') := fs_create_node st (Some p) nm ty in
  (rc = FS_OK /\ exists i, out = Some i /\ created st st' p i nm ty) \/
  (rc <> FS_OK /\ out = None /\ same_live st st').
Proof.
  intros Hlen Hp Ht. unfold fs_create_node. rewrite Ht. cbn [negb Z.eqb FS_NODE_DIR Pos.eqb].
  destruct (bool_decide_reflect (is_Some (fs_find_child st (Some p) nm))) as [Hs|Hs].
  { right. split; [done|]. by split. }
  unfold fs_alloc_node. pose proof (first_free_node_spec (g_nodes st) 0) as Hf.
  destruct (first_free_node (g_nodes st) 0) as [i|]; cbn [mbind option_bind].
  2: { right. split; [done|]. by split. }
  destruct Hf as [Hi Hu]. rewrite Nat.sub_0_r in Hu.
  apply fill_node_spec; try done; [by apply eq_None_not_Some|lia].
Qed.

Lemma find_kid_None st ks nm :
  find_kid st ks nm = None <-> Forall (fun k => fs_name_eq (name (node_at st k)) nm = false) ks.
Proof.
  induction ks as [|k ks IH]; simpl; [done|]. rewrite Forall_cons.
  destruct (fs_name_eq _ _); [|tauto]. split; [done|]. by intros [? _].
Qed.

Lemma find_kid_Some st ks nm k :
  find_kid st ks nm = Some k -> k ∈ ks /\ fs_name_eq (name (node_at st k)) nm = true.
Proof.
  induction ks as [|j ks IH]; simpl; [done|]. destruct (fs_name_eq (name (node_at st j)) nm) eqn:E.
  - intros [= ->]. split; [left|done].
  - intros H. destruct (IH H). split; [by right|done].
Qed.

Lemma distinct_names_app st ks ks' :
  distinct_names st (ks ++ ks') <->
  distinct_names st ks /\ distinct_names st ks' /\
  Forall (fun k => Forall (fun j => fs_name_eq (name (node_at st k)) (name (node_at st j)) = false) ks') ks.
Proof.
  induction ks as [|k ks IH]; simpl; [split; [by intros|tauto]|].
  rewrite IH, Forall_app, Forall_cons. tauto.
Qed.

Lemma find_dir_child st p nm :
  type (node_at st p) = FS_NODE_DIR -> fs_find_child st (Some p) nm = find_kid st (kids (node_at st p)) nm.
Proof. intros H. unfold fs_find_child. simpl. by rewrite H. Qed.

(** The tree after adding the leaf [i] under [p]. *)
Section Created.
Context (st st' : ramfs) (r p i : nat) (nm : list Z) (ty : Z).
Hypothesis HT : tree st r.
Hypothesis HC : created st st' p i nm ty.
Hypothesis Hp : live st p.
Hypothesis Hpd : type (node_at st p) = FS_NODE_DIR.
Hypothesis Hty : ty = FS_NODE_DIR \/ ty = FS_NODE_FILE.
Hypothesis Hnz : Forall (fun c => c <> 0) nm.

Lemma created_neq j : live st j -> j <> i.
Proof using HC. intros Hj ->. apply Hj. apply HC. Qed.

Lemma created_old j : live st j ->
  live st' j /\ type (node_at st' j) = type (node_at st j) /\ name (node_at st' j) = name (node_at st j) /\
  parent (node_at st' j) = parent (node_at st j) /\
  kids (node_at st' j) = (if decide (j = p) then kids (node_at st p) ++ [i] else kids (node_at st j)) /\
  data_slot (node_at st' j) = data_slot (node_at st j) /\ size (node_at st' j) = size (node_at st j).
Proof using HC.
  intros Hj. pose proof (created_neq j Hj). unfold live in *. destruct (decide (j = p)) as [->|Hne].
  - by rewrite (cr_parent _ _ _ _ _ _ HC).
  - by rewrite (cr_other _ _ _ _ _ _ HC).
Qed.

Lemma created_live j : live st' j -> j = i \/ live st j.
Proof using HC.
  intros Hj. destruct (decide (j = i)) as [->|Hne]; [by left|right]. unfold live in *.
  destruct (decide (j = p)) as [->|Hnp].
  - by rewrite (cr_parent _ _ _ _ _ _ HC) in Hj.
  - by rewrite (cr_other _ _ _ _ _ _ HC) in Hj.
Qed.

Lemma created_dir_ok : dir_ok st' p.
Proof using HT HC Hp Hpd.
  destruct (tr_dir _ _ HT p Hp Hpd) as [D1 D2 D3 D4].
  destruct (created_old p Hp) as (_ & _ & _ & _ & K & _). rewrite decide_True in K by done.
  rewrite Forall_forall in D2. split; rewrite K.
  - apply NoDup_app. split; [done|]. split; [|apply NoDup_singleton].
    intros k Hk ->%list_elem_of_singleton. by destruct (created_neq i (proj1 (D2 i Hk))).
  - apply Forall_app. split.
    + apply Forall_forall. intros k Hk. destruct (D2 k Hk) as [Lk Pk].
      destruct (created_old k Lk) as (L' & _ & _ & -> & _). done.
    + apply Forall_singleton. unfold live. by rewrite (cr_node _ _ _ _ _ _ HC).
  - apply distinct_names_app. split; [|split; [by split|]].
    + eapply distinct_names_ext; [|done]. apply Forall_forall. intros k Hk. apply created_old, D2, Hk.
    + pose proof (cr_none _ _ _ _ _ _ HC) as Hn. rewrite find_dir_child in Hn by done.
      apply find_kid_None in Hn. rewrite Forall_forall in Hn. apply Forall_forall. intros k Hk.
      apply Forall_singleton. rewrite (cr_node _ _ _ _ _ _ HC). cbn [name].
      destruct (created_old k (proj1 (D2 k Hk))) as (_ & _ & -> & _). by apply Hn.
  - rewrite length_app. pose proof (cr_room _ _ _ _ _ _ HC). simpl. lia.
Qed.

Lemma created_tree : tree st' r.
Proof using HT HC Hp Hpd Hty Hnz.
  pose proof HT as [T1 T2 T3 T4 T5 T6 T7 T8]. destruct (cr_frame _ _ _ _ _ _ HC) as (F1 & F2 & _ & _).
  split.
  - by rewrite (cr_len _ _ _ _ _ _ HC).
  - by rewrite F1.
  - destruct T3 as (L & T3 & T3'). destruct (created_old r L) as (L' & -> & _ & -> & _). done.
  - destruct T4 as (c & Hc & L & Ht). destruct (created_old c L) as (L' & E & _). exists c.
    by rewrite F2, E.
  - intros j [->|Lj]%created_live; [rewrite (cr_node _ _ _ _ _ _ HC); cbn; tauto|].
    destruct (created_old j Lj) as (_ & -> & _ & _ & -> & _).
    destruct (T5 j Lj) as [|[Hf Hk]]; [by left|right]. split; [done|].
    case_decide; [|done]. subst. by rewrite Hf in Hpd.
  - intros j [->|Lj]%created_live Hr.
    + split; rewrite (cr_node _ _ _ _ _ _ HC); cbn [parent name].
      * exists p. destruct (created_old p Hp) as (L' & -> & _ & _ & -> & _).
        rewrite decide_True by done. split; [done|]. split; [done|]. split; [done|]. set_solver.
      * destruct (cr_name _ _ _ _ _ _ HC) as [N1 N2]. split; [done|].
        rewrite Forall_forall in *. intros c Hc. split; auto.
    + destruct (T6 j Lj Hr) as [(q & Q1 & Q2 & Q3 & Q4) Q5].
      destruct (created_old j Lj) as (_ & _ & N & P & _). split; rewrite ?N, ?P; [|done].
      exists q. destruct (created_old q Q2) as (L' & -> & _ & _ & -> & _).
      split; [done|]. split; [done|]. split; [done|]. case_decide; subst; set_solver.
  - intros j [->|Lj]%created_live Hd.
    + split; rewrite (cr_node _ _ _ _ _ _ HC); cbn [kids]; [constructor|constructor|exact I|].
      unfold FS_MAX_CHILDREN. simpl. lia.
    + destruct (decide (j = p)) as [->|Hne]; [by apply created_dir_ok|].
      destruct (created_old j Lj) as (_ & E & _ & _ & K & _). rewrite decide_False in K by done.
      rewrite E in Hd. apply (dir_ok_frame st); [done| |by apply T7]. intros k Hk.
      pose proof (dir_ok_kid_live st j k (T7 j Lj Hd) Hk) as Lk.
      destruct (created_old k Lk) as (L' & _ & -> & -> & _). done.
  - destruct T8 as [rank T8]. exists (fun j => if decide (j = i) then S (rank p) else rank j).
    intros j q [->|Lj]%created_live.
    + rewrite (cr_node _ _ _ _ _ _ HC). intros [= <-]. pose proof (created_neq p Hp).
      repeat case_decide; try congruence. lia.
    + destruct (created_old j Lj) as (_ & _ & _ & -> & _). intros Hq.
      assert (live st q) as Lq.
      { destruct (decide (j = r)) as [->|Hjr]; [destruct T3 as (_ & _ & T3); congruence|].
        destruct (T6 j Lj Hjr) as [(q' & Q1 & Q2 & _) _]. congruence. }
      pose proof (created_neq q Lq). pose proof (created_neq j Lj).
      repeat case_decide; try congruence. by apply T8.
Qed.

End Created.

(** ** Removing a leaf *)

Lemma remove_kid_spec ks n l :
  remove_kid ks n = Some l -> exists l1 l2, ks = l1 ++ n :: l2 /\ l = l1 ++ l2.
Proof.
  revert l. induction ks as [|k ks IH]; simpl; [done|]. intros l.
  destruct (Nat.eqb_spec k n) as [->|Hne].
  - intros [= ->]. by exists [], l.
  - intros (l' & Hl & [= <-])%bind_Some. destruct (IH l' Hl) as (l1 & l2 & -> & ->).
    by exists (k :: l1), l2.
Qed.

Lemma remove_kid_in ks n : n ∈ ks -> is_Some (remove_kid ks n).
Proof.
  induction ks as [|k ks IH]; [set_solver|]. intros [->|Hin]%elem_of_cons; simpl;
    [by rewrite Nat.eqb_refl|]. case_bool; [done|]. destruct (IH Hin) as [l ->]. by eexists.
Qed.

(** The table after removing [n] from the children [ks] of [p]. *)
Record removed (st st' : ramfs) (p n : nat) : Prop := {
  rm_len : length (g_nodes st') = length (g_nodes st);
  rm_frame : g_root st' = g_root st /\ g_cwd st' = g_cwd st;
  rm_node : node_at st' n = zero_node;
  rm_parent : exists l1 l2, kids (node_at st p) = l1 ++ n :: l2 /\
    node_at st' p = set_kids (node_at st p) (l1 ++ l2);
  rm_other j : j <> n -> j <> p -> node_at st' j = node_at st j
}.

Section Removed.
Context (st st' : ramfs) (r p n : nat).
Hypothesis HT : tree st r.
Hypothesis HR : removed st st' p n.
Hypothesis Hn : live st n.
Hypothesis Hnp : parent (node_at st n) = Some p.
Hypothesis Hnk : kids (node_at st n) = [].
Hypothesis Hnr : n <> r.
Hypothesis Hnc : g_cwd st <> Some n.

Lemma removed_parent : live st p /\ type (node_at st p) = FS_NODE_DIR /\ p <> n.
Proof using HT HR Hn Hnp Hnr.
  destruct (tr_child _ _ HT n Hn Hnr) as [(q & Q1 & Q2 & Q3 & Q4) _].
  assert (q = p) as -> by congruence. split; [done|]. split; [done|]. intros ->.
  destruct (tr_rank _ _ HT) as [rank Hr]. specialize (Hr n n Hn Hnp). lia.
Qed.

Lemma removed_old j : live st j -> j <> n ->
  live st' j /\ type (node_at st' j) = type (node_at st j) /\ name (node_at st' j) = name (node_at st j) /\
  parent (node_at st' j) = parent (node_at st j) /\
  (j <> p -> kids (node_at st' j) = kids (node_at st j)) /\
  data_slot (node_at st' j) = data_slot (node_at st j) /\ size (node_at st' j) = size (node_at st j).
Proof using HR.
  intros Hj Hne. unfold live in *. destruct (decide (j = p)) as [->|Hjp].
  - destruct (rm_parent _ _ _ _ HR) as (l1 & l2 & _ & ->). cbn. done.
  - by rewrite (rm_other _ _ _ _ HR).
Qed.

Lemma removed_live j : live st' j -> live st j /\ j <> n.
Proof using HR.
  intros Hj. assert (j <> n) as Hne by (intros ->; apply Hj; by rewrite (rm_node _ _ _ _ HR)).
  split; [|done]. unfold live in *. destruct (decide (j = p)) as [->|Hjp].
  - destruct (rm_parent _ _ _ _ HR) as (l1 & l2 & _ & E). by rewrite E in Hj.
  - by rewrite (rm_other _ _ _ _ HR) in Hj.
Qed.

(** Only [p] had [n] as a child. *)
Lemma removed_kid j k : live st j -> type (node_at st j) = FS_NODE_DIR -> j <> p ->
  k ∈ kids (node_at st j) -> k <> n.
Proof using HT Hnp.
  intros Lj Dj Hj Hk ->. destruct (tr_dir _ _ HT j Lj Dj) as [_ D2 _ _].
  rewrite Forall_forall in D2. destruct (D2 n Hk) as [_ E]. congruence.
Qed.

Lemma removed_dir_ok : dir_ok st' p.
Proof using HT HR Hn Hnp Hnr.
  destruct removed_parent as (Lp & Dp & _). destruct (tr_dir _ _ HT p Lp Dp) as [D1 D2 D3 D4].
  destruct (rm_parent _ _ _ _ HR) as (l1 & l2 & K & E). rewrite K in *.
  apply NoDup_app in D1 as (N1 & N2 & N3). apply NoDup_cons in N3 as [N3 N4].
  apply Forall_app in D2 as [D2 [_ D2']%Forall_cons].
  apply distinct_names_app in D3 as (M1 & [_ M3] & M4).
  assert (forall k, k ∈ l1 ++ l2 -> live st k /\ parent (node_at st k) = Some p /\ k <> n) as Hk.
  { rewrite Forall_forall in D2, D2'. intros k [Hk|Hk]%elem_of_app.
    - destruct (D2 k Hk). split; [done|]. split; [done|]. intros ->. by apply (N2 n Hk); left.
    - destruct (D2' k Hk). split; [done|]. split; [done|]. by intros ->. }
  split; rewrite E; cbn [kids set_kids].
  - apply NoDup_app. split; [done|]. split; [|done]. intros x Hx Hx2. apply (N2 x Hx). by right.
  - apply Forall_forall. intros k Hin. destruct (Hk k Hin) as (Lk & Pk & Hkn).
    destruct (removed_old k Lk Hkn) as (L' & _ & _ & -> & _). done.
  - apply (distinct_names_ext st).
    { apply Forall_forall. intros k Hin. destruct (Hk k Hin) as (Lk & _ & Hkn). by apply removed_old. }
    apply distinct_names_app. split; [done|]. split; [done|].
    eapply Forall_impl; [exact M4|]. intros k. by intros [_ ?]%Forall_cons.
  - rewrite !length_app in *. simpl in D4. lia.
Qed.

Lemma removed_tree : tree st' r.
Proof using HT HR Hn Hnp Hnr Hnc Hnk.
  pose proof HT as [T1 T2 T3 T4 T5 T6 T7 T8]. destruct (rm_frame _ _ _ _ HR) as (F1 & F2).
  destruct removed_parent as (Lp & Dp & Hpn). split.
  - by rewrite (rm_len _ _ _ _ HR).
  - by rewrite F1.
  - destruct T3 as (L & T3 & T3'). destruct (removed_old r L ltac:(congruence)) as (L' & -> & _ & -> & _). done.
  - destruct T4 as (c & Hc & L & Ht). destruct (removed_old c L ltac:(congruence)) as (L' & E & _).
    exists c. by rewrite F2, E.
  - intros j [Lj Hj]%removed_live. destruct (removed_old j Lj Hj) as (_ & -> & _ & _ & K & _).
    destruct (T5 j Lj) as [|[Hf Hk]]; [by left|right]. split; [done|].
    rewrite K; [done|]. intros ->. by rewrite Hf in Dp.
  - intros j [Lj Hj]%removed_live Hr. destruct (T6 j Lj Hr) as [(q & Q1 & Q2 & Q3 & Q4) Q5].
    destruct (removed_old j Lj Hj) as (_ & _ & N & P & _). split; rewrite ?N, ?P; [|done].
    assert (q <> n) as Hqn by (intros ->; rewrite Hnk in Q4; set_solver).
    destruct (removed_old q Q2 Hqn) as (L' & T' & _ & _ & K & _). exists q. rewrite T'.
    split; [done|]. split; [done|]. split; [done|]. destruct (decide (q = p)) as [->|Hqp].
    + destruct (rm_parent _ _ _ _ HR) as (l1 & l2 & K' & E). rewrite E. cbn. rewrite K' in Q4. set_solver.
    + by rewrite K.
  - intros j [Lj Hj]%removed_live Hd. destruct (decide (j = p)) as [->|Hne]; [by apply removed_dir_ok|].
    destruct (removed_old j Lj Hj) as (_ & E & _ & _ & K & _). rewrite E in Hd.
    apply (dir_ok_frame st); [by apply K| |by apply T7]. intros k Hk.
    pose proof (dir_ok_kid_live st j k (T7 j Lj Hd) Hk) as Lk.
    destruct (removed_old k Lk (removed_kid j k Lj Hd Hne Hk)) as (L' & _ & -> & -> & _). done.
  - destruct T8 as [rank T8]. exists rank. intros j q [Lj Hj]%removed_live.
    destruct (removed_old j Lj Hj) as (_ & _ & _ & -> & _). by apply T8.
Qed.

End Removed.

End RamfsTree.
