(* ===== verification/RamfsPath.v ===== *)
(** * Path resolution of RAMFS as a walk

    [fs_resolve_path_from] and [fs_resolve_parent] parse the path while they walk
    the tree.  Here both are shown to be a walk along the components of the path,
    and the loops to end within their fuel. *)

From S2P Require Import Prelude FsTypes Ramfs RamfsTree.
From stdpp Require Import base list option sets list_numbers.
From Stdlib Require Import ZArith Lia ZifyBool.
Open Scope Z_scope.

Module RamfsPath.
Import FsTypes Ramfs RamfsTree.

Lemma fs_streq_eq a b : fs_streq a b = bool_decide (a = b).
Proof.
  revert b. induction a as [|x a IH]; intros [|y b]; try done. simpl.
  destruct (Z.eqb_spec x y) as [->|Hne]; simpl.
  - rewrite IH. apply bool_decide_ext. naive_solver.
  - symmetry. apply bool_decide_eq_false. naive_solver.
Qed.

Lemma take_segment_span len p :
  0 <= len < FS_NAME_CAP ->
  take_segment len p =
    if len + Z.of_nat (length (span p).1) <? FS_NAME_CAP then Some (span p) else None.
Proof.
  revert len. unfold FS_NAME_CAP. induction p as [|c p IH]; intros len Hl; simpl.
  { case_bool; [done|lia]. }
  destruct (c =? slash) eqn:E; simpl; [case_bool; [done|lia]|].
  unfold FS_NAME_CAP. destruct (span p) as [s rest]. simpl in *.
  destruct (Z.leb_spec 24 (len + 1)).
  - case_bool; [lia|done].
  - rewrite IH by lia. repeat case_bool; done || lia.
Qed.

(** ** The walk *)

(** Follow the components from [cur]. *)
Fixpoint walk (st : ramfs) (cur : nat) (cs : list (list Z)) : Z * option nat :=
  match cs with
  | [] => (FS_OK, Some cur)
  | s :: cs' =>
      if FS_NAME_CAP <=? Z.of_nat (length s) then (FS_ERR_INVALID, None)
      else if bool_decide (s = dot) then walk st cur cs'
      else if bool_decide (s = dotdot) then walk st (up st cur) cs'
      else if negb (type (node_at st cur) =? FS_NODE_DIR) then (FS_ERR_NOT_DIR, None)
      else match fs_find_child st (Some cur) s with
           | None => (FS_ERR_NOT_FOUND, None)
           | Some c => walk st c cs'
           end
  end.

(** What one call of [fs_next_segment] yields. *)
Lemma next_segment_spec path :
  match components path with
  | [] => fs_next_segment path = (0, [], [])
  | s :: cs =>
      if FS_NAME_CAP <=? Z.of_nat (length s) then (fs_next_segment path).1.1 = FS_ERR_INVALID
      else exists rest, fs_next_segment path = (1, rest, s) /\ components rest = cs /\
             (length rest < length path)%nat
  end.
Proof.
  rewrite <- components_skip. unfold fs_next_segment.
  pose proof (skip_slashes_length path) as Hlen.
  destruct (skip_slashes path) as [|c r] eqn:E; [done|].
  pose proof (span_nonempty c r (skip_slashes_head path c r E)) as Hne.
  rewrite components_span by done. rewrite take_segment_span by (unfold FS_NAME_CAP; lia).
  set (s := (span (c :: r)).1) in *. set (rest := (span (c :: r)).2).
  rewrite Z.add_0_l. destruct (Z.leb_spec FS_NAME_CAP (Z.of_nat (length s))).
  - by destruct (Z.ltb_spec (Z.of_nat (length s)) FS_NAME_CAP); [lia|].
  - destruct (Z.ltb_spec (Z.of_nat (length s)) FS_NAME_CAP); [|lia].
    exists rest. split; [unfold s, rest; by destruct (span (c :: r))|].
    split; [done|]. pose proof (span_app (c :: r)) as Ha. fold s rest in Ha.
    assert (length (s ++ rest) = length (c :: r)) as Hl by (by rewrite Ha).
    rewrite length_app in Hl. destruct s; [done|]. simpl in *. fold rest. lia.
Qed.

Lemma resolve_loop_walk fuel st cur path :
  (length path < fuel)%nat -> resolve_loop fuel st cur path = Some (walk st cur (components path)).
Proof.
  revert cur path. induction fuel as [|f IH]; intros cur path Hf; [lia|]. cbn [resolve_loop].
  pose proof (next_segment_spec path) as Hn. destruct (components path) as [|s cs]; cbn [walk].
  { by rewrite Hn. }
  destruct (FS_NAME_CAP <=? Z.of_nat (length s)).
  { destruct (fs_next_segment path) as [[status rest] seg]. simpl in Hn. by subst status. }
  destruct Hn as (rest & -> & <- & Hl). cbn [Z.ltb Z.compare Z.eqb].
  rewrite !fs_streq_eq. repeat case_bool; try done; try (apply IH; lia).
  destruct (fs_find_child st (Some cur) s) as [c|]; [apply IH; lia|done].
Qed.

Lemma resolve_path_walk st start path cur :
  (if char_at path 0 =? slash then g_root st else start) = Some cur ->
  fs_resolve_path_from st start path = walk st cur (components path).
Proof.
  intros Hs. unfold fs_resolve_path_from. rewrite Hs.
  destruct (Nat.eqb_spec (length path) 0) as [He|He].
  - destruct path; [done|done].
  - by rewrite resolve_loop_walk by lia.
Qed.

(** The walk to the parent directory, and the last component. *)
Fixpoint walk_parent (st : ramfs) (cur : nat) (cs : list (list Z)) : Z * option nat * list Z :=
  match cs with
  | [] => (FS_ERR_INVALID, None, [])
  | s :: cs' =>
      if FS_NAME_CAP <=? Z.of_nat (length s) then (FS_ERR_INVALID, None, [])
      else match cs' with
      | [] => if bool_decide (s = dot) || bool_decide (s = dotdot) then (FS_ERR_INVALID, None, [])
              else (FS_OK, Some cur, s)
      | _ =>
          if bool_decide (s = dot) then walk_parent st cur cs'
          else if bool_decide (s = dotdot) then walk_parent st (up st cur) cs'
          else match fs_find_child st (Some cur) s with
               | None => (FS_ERR_NOT_FOUND, None, [])
               | Some c => if negb (type (node_at st c) =? FS_NODE_DIR)
                           then (FS_ERR_NOT_DIR, None, []) else walk_parent st c cs'
               end
      end
  end.

Lemma name_copy_loop_total i nm :
  0 <= i -> i + Z.of_nat (length nm) < FS_NAME_CAP -> Forall (fun c => c <> slash) nm ->
  name_copy_loop i nm = (FS_OK, nm).
Proof.
  revert i. induction nm as [|c nm IH]; intros i Hi Hl Hs; [done|].
  apply Forall_cons in Hs as [Hc Hs]. cbn [name_copy_loop length] in *.
  rewrite (proj2 (Z.eqb_neq c slash) Hc). destruct (Z.leb_spec FS_NAME_CAP (i + 1)); [lia|].
  by rewrite IH by (done || lia).
Qed.

Lemma fs_name_copy_total nm :
  nm <> [] -> Z.of_nat (length nm) < FS_NAME_CAP -> Forall (fun c => c <> slash) nm ->
  fs_name_copy nm = (FS_OK, nm).
Proof.
  intros Hne Hl Hs. unfold fs_name_copy. destruct nm; [done|]. by apply name_copy_loop_total.
Qed.

Lemma skip_components_nil p : components p = [] -> skip_slashes p = [].
Proof.
  rewrite <- components_skip. destruct (skip_slashes p) as [|c r] eqn:E; [done|].
  rewrite components_span by (eapply span_nonempty, skip_slashes_head; eauto). done.
Qed.

Lemma parent_loop_walk fuel st cur path :
  (length path < fuel)%nat ->
  parent_loop fuel st cur path = Some (walk_parent st cur (components path)).
Proof.
  revert cur path. induction fuel as [|f IH]; intros cur path Hf; [lia|]. cbn [parent_loop].
  pose proof (next_segment_spec path) as Hn. pose proof (components_no_slash path) as Hns.
  destruct (components path) as [|s cs]; cbn [walk_parent]; [by rewrite Hn|].
  destruct (FS_NAME_CAP <=? Z.of_nat (length s)) eqn:El.
  { destruct (fs_next_segment path) as [[status rest] seg]. simpl in Hn. by subst status. }
  destruct Hn as (rest & -> & <- & Hl). cbn [Z.leb Z.compare]. rewrite !fs_streq_eq.
  apply Forall_cons in Hns as [[Hne Hs] _].
  destruct (skip_slashes rest) as [|c r] eqn:Ek.
  - rewrite (skip_slashes_nil rest Ek). case_bool; [done|].
    by rewrite fs_name_copy_total by (done || lia).
  - destruct (components rest) as [|s' cs'] eqn:Ec.
    { apply skip_components_nil in Ec. congruence. }
    rewrite <- Ec. repeat case_bool; try done; try (apply IH; lia).
    destruct (fs_find_child st (Some cur) s) as [c'|]; [|done].
    case_bool; [done|]. apply IH. lia.
Qed.

Lemma resolve_parent_walk st path cur :
  (if char_at path 0 =? slash then g_root st else g_cwd st) = Some cur ->
  fs_resolve_parent st path = walk_parent st cur (components path).
Proof. intros Hs. unfold fs_resolve_parent. rewrite Hs. by rewrite parent_loop_walk by lia. Qed.

(** ** Walks stay in the tree *)

Lemma up_live st r cur :
  tree st r -> live st cur -> live st (up st cur) /\
  (type (node_at st cur) = FS_NODE_DIR -> type (node_at st (up st cur)) = FS_NODE_DIR).
Proof.
  intros HT Hc. unfold up. destruct (parent (node_at st cur)) as [p|] eqn:E; [|done]. simpl.
  destruct (decide (cur = r)) as [->|Hne].
  { destruct (tr_root_dir _ _ HT) as (_ & _ & E'). congruence. }
  destruct (tr_child _ _ HT cur Hc Hne) as [(q & Q1 & Q2 & Q3 & _) _].
  assert (q = p) as -> by congruence. done.
Qed.

Lemma find_child_live st r cur nm c :
  tree st r -> live st cur -> fs_find_child st (Some cur) nm = Some c ->
  live st c /\ parent (node_at st c) = Some cur /\ type (node_at st cur) = FS_NODE_DIR.
Proof.
  intros HT Hc H. unfold fs_find_child in H. cbn [mbind option_bind] in H.
  destruct (Z.eqb_spec (type (node_at st cur)) FS_NODE_DIR) as [Hd|]; [|done]. cbn [negb] in H.
  apply find_kid_Some in H as [Hin _]. destruct (tr_dir _ _ HT cur Hc Hd) as [_ D _ _].
  rewrite Forall_forall in D. destruct (D c Hin). done.
Qed.

Lemma walk_live st r cur cs :
  tree st r -> live st cur ->
  match walk st cur cs with
  | (rc, Some n) => rc = FS_OK /\ live st n
  | (rc, None) => rc <> FS_OK
  end.
Proof.
  intros HT. revert cur. induction cs as [|s cs IH]; intros cur Hc; cbn [walk]; [done|].
  repeat case_bool; try done.
  - by apply IH.
  - apply IH. by apply (up_live st r).
  - destruct (fs_find_child st (Some cur) s) as [c|] eqn:E; [|done].
    apply IH. by eapply find_child_live.
Qed.

Lemma walk_parent_live st r cur cs :
  tree st r -> live st cur -> type (node_at st cur) = FS_NODE_DIR ->
  match walk_parent st cur cs with
  | (rc, Some p, nm) => rc = FS_OK /\ live st p /\ type (node_at st p) = FS_NODE_DIR
  | (rc, None, _) => rc <> FS_OK
  end.
Proof.
  intros HT. revert cur. induction cs as [|s cs IH]; intros cur Hc Hd; cbn [walk_parent]; [done|].
  destruct (FS_NAME_CAP <=? Z.of_nat (length s)); [done|].
  destruct cs as [|s' cs'].
  { by case_bool. }
  destruct (bool_decide (s = dot)); [by apply IH|].
  destruct (bool_decide (s = dotdot)).
  { destruct (up_live st r cur HT Hc) as [H1 H2]. apply IH; auto. }
  destruct (fs_find_child st (Some cur) s) as [c|] eqn:E; [|done].
  destruct (Z.eqb_spec (type (node_at st c)) FS_NODE_DIR); [|done]. cbn [negb].
  apply IH; [|done]. by eapply find_child_live.
Qed.

Lemma find_child_dir st cur nm c :
  fs_find_child st (Some cur) nm = Some c -> type (node_at st cur) = FS_NODE_DIR.
Proof. unfold fs_find_child. simpl. destruct (Z.eqb_spec (type (node_at st cur)) FS_NODE_DIR); done. Qed.

(** A successful parent walk is a walk to the parent followed by one component. *)
Lemma walk_parent_spec st cur cs p nm :
  walk_parent st cur cs = (FS_OK, Some p, nm) ->
  exists cs', cs = cs' ++ [nm] /\ walk st cur cs' = (FS_OK, Some p) /\
    Z.of_nat (length nm) < FS_NAME_CAP /\ nm <> dot /\ nm <> dotdot.
Proof.
  revert cur. induction cs as [|s cs IH]; intros cur; cbn [walk_parent]; [done|].
  destruct (Z.leb_spec FS_NAME_CAP (Z.of_nat (length s))) as [|Hlen]; [done|].
  destruct cs as [|s' cs'].
  { case_bool; [done|]. zify_bools. intros [= -> ->]. exists []. split; [done|]. split; [done|].
    split; [done|]. by rewrite <- !(bool_decide_eq_false (_ = _)). }
  assert (forall c, walk_parent st c (s' :: cs') = (FS_OK, Some p, nm) ->
    (forall cs1, walk st cur (s :: cs1) = walk st c cs1) ->
    exists cs1, s :: s' :: cs' = cs1 ++ [nm] /\ walk st cur cs1 = (FS_OK, Some p) /\
    Z.of_nat (length nm) < FS_NAME_CAP /\ nm <> dot /\ nm <> dotdot) as Hstep.
  { intros c Hw Heq. destruct (IH c Hw) as (cs1 & E & W & R). exists (s :: cs1).
    rewrite E, Heq. done. }
  assert ((FS_NAME_CAP <=? Z.of_nat (length s)) = false) as El by lia.
  destruct (bool_decide (s = dot)) eqn:E1.
  { intros Hw. apply (Hstep cur Hw). intros cs1. cbn [walk]. by rewrite El, E1. }
  destruct (bool_decide (s = dotdot)) eqn:E2.
  { intros Hw. apply (Hstep _ Hw). intros cs1. cbn [walk]. by rewrite El, E1, E2. }
  destruct (fs_find_child st (Some cur) s) as [c|] eqn:E; [|done].
  destruct (Z.eqb_spec (type (node_at st c)) FS_NODE_DIR); [|done]. cbn [negb]. intros Hw.
  apply (Hstep c Hw). intros cs1. cbn [walk].
  by rewrite El, E1, E2, E, (find_child_dir st cur s c E).
Qed.

(** ** Walks in a tree with one more leaf *)

Lemma fs_name_eq_refl nm : fs_name_eq nm nm = true.
Proof.
  unfold fs_name_eq. assert (same_ci nm nm = true) as ->; [|done].
  induction nm as [|c nm IH]; [done|]. simpl. by rewrite Z.eqb_refl.
Qed.

Lemma find_kid_app st ks ks' nm :
  find_kid st (ks ++ ks') nm =
    match find_kid st ks nm with Some k => Some k | None => find_kid st ks' nm end.
Proof. induction ks as [|k ks IH]; [done|]. simpl. case_bool; done. Qed.

Lemma find_kid_ext st st' ks nm :
  Forall (fun k => name (node_at st' k) = name (node_at st k)) ks ->
  find_kid st' ks nm = find_kid st ks nm.
Proof. induction 1 as [|k ks Hk _ IH]; [done|]. simpl. by rewrite Hk, IH. Qed.

Section Created.
Context (st st' : ramfs) (r p i : nat) (nm : list Z) (ty : Z).
Hypothesis HT : tree st r.
Hypothesis HC : created st st' p i nm ty.
Hypothesis Hp : live st p.
Hypothesis Hpd : type (node_at st p) = FS_NODE_DIR.

Lemma created_find cur s c :
  live st cur -> fs_find_child st (Some cur) s = Some c -> fs_find_child st' (Some cur) s = Some c.
Proof using HT HC Hpd.
  intros Hc H. pose proof (find_child_dir st cur s c H) as Hd. rewrite find_dir_child in H by done.
  destruct (created_old st st' p i nm ty HC cur Hc) as (_ & T & _ & _ & K & _).
  rewrite find_dir_child by congruence. rewrite K.
  assert (find_kid st' (kids (node_at st cur)) s = Some c) as Hf.
  { rewrite <- H. apply find_kid_ext, Forall_forall. intros k Hk.
    apply (created_old st st' p i nm ty HC k). by apply (dir_ok_kid_live st cur k (tr_dir _ _ HT cur Hc Hd)). }
  case_decide; [|done]. subst. by rewrite find_kid_app, Hf.
Qed.

Lemma created_walk cur cs n :
  live st cur -> walk st cur cs = (FS_OK, Some n) -> walk st' cur cs = (FS_OK, Some n).
Proof using HT HC Hpd.
  revert cur. induction cs as [|s cs IH]; intros cur Hc; cbn [walk]; [done|].
  destruct (created_old st st' p i nm ty HC cur Hc) as (_ & T & _ & P & _).
  unfold up. rewrite T, P. repeat case_bool; try done.
  - by apply IH.
  - apply IH. by apply (up_live st r).
  - destruct (fs_find_child st (Some cur) s) as [c|] eqn:E; [|done].
    rewrite (created_find cur s c Hc E). apply IH. by eapply find_child_live.
Qed.

Lemma created_lookup : fs_find_child st' (Some p) nm = Some i.
Proof using HT HC Hp Hpd.
  destruct (created_old st st' p i nm ty HC p Hp) as (_ & T & _ & _ & K & _).
  rewrite find_dir_child by congruence. rewrite K, decide_True by done. rewrite find_kid_app.
  assert (find_kid st' (kids (node_at st p)) nm = None) as ->.
  { rewrite (find_kid_ext st); [rewrite <- find_dir_child by done; apply HC|].
    apply Forall_forall. intros k Hk. apply (created_old st st' p i nm ty HC k).
    by apply (dir_ok_kid_live st p k (tr_dir _ _ HT p Hp Hpd)). }
  simpl. by rewrite (cr_node _ _ _ _ _ _ HC), fs_name_eq_refl.
Qed.

Lemma walk_app st0 cur cs1 cs2 n :
  walk st0 cur cs1 = (FS_OK, Some n) -> walk st0 cur (cs1 ++ cs2) = walk st0 n cs2.
Proof.
  revert cur. induction cs1 as [|s cs1 IH]; intros cur; cbn [walk app]; [by intros [= ->]|].
  repeat case_bool; try done; auto. destruct (fs_find_child st0 (Some cur) s); [auto|done].
Qed.

(** The new node is what its path resolves to. *)
Lemma created_resolves cur cs :
  live st cur -> walk_parent st cur cs = (FS_OK, Some p, nm) -> walk st' cur cs = (FS_OK, Some i).
Proof using HT HC Hp Hpd.
  intros Hc Hw. destruct (walk_parent_spec st cur cs p nm Hw) as (cs' & -> & W & Hl & N1 & N2).
  rewrite (walk_app st' cur cs' [nm] p) by (by apply created_walk). cbn [walk].
  destruct (created_old st st' p i nm ty HC p Hp) as (_ & T & _).
  destruct (Z.leb_spec FS_NAME_CAP (Z.of_nat (length nm))); [lia|].
  rewrite !bool_decide_eq_false_2 by done. rewrite T, Hpd, created_lookup. done.
Qed.

End Created.

End RamfsPath.
