(* ===== verification/RamfsData.v ===== *)
(** * File contents of RAMFS

    The data slots: which node owns which slot, the contents of a file as a list
    of bytes, and what reading, writing, truncating and removing do to them. *)

From S2P Require Import Prelude FsTypes Ramfs RamfsTree.
From stdpp Require Import base list option sets list_numbers.
From Stdlib Require Import ZArith Lia ZifyBool.
Open Scope Z_scope.

Module RamfsData.
Import FsTypes Ramfs RamfsTree.

(** ** The invariant of the slots *)

(** A file without a slot is empty; one with a slot fits in it, and the slot is
    zero behind the end of the file. *)
Definition file_ok (st : ramfs) (i : nat) : Prop :=
  let n := node_at st i in
  (data_slot n = RAMFS_NO_DATA_SLOT /\ size n = 0) \/
  (0 <= data_slot n < RAMFS_DATA_SLOT_CAP /\ slot_used (slot_at st (data_slot n)) <> 0 /\
   0 <= size n <= RAMFS_DATA_SLOT_SIZE /\
   Forall (fun b => b = 0) (drop (Z.to_nat (size n)) (slot_data (slot_at st (data_slot n))))).

Record data_ok (st : ramfs) : Prop := {
  dk_slots : length (g_data_slots st) = 4%nat;
  dk_bytes : Forall (fun s => length (slot_data s) = 4096%nat) (g_data_slots st);
  dk_file i : live st i -> type (node_at st i) = FS_NODE_FILE -> file_ok st i;
  dk_dir i : live st i -> type (node_at st i) <> FS_NODE_FILE ->
    data_slot (node_at st i) = RAMFS_NO_DATA_SLOT;
  dk_inj i j : live st i -> live st j -> data_slot (node_at st i) = data_slot (node_at st j) ->
    data_slot (node_at st i) <> RAMFS_NO_DATA_SLOT -> i = j;
  dk_owned s : 0 <= s < RAMFS_DATA_SLOT_CAP -> slot_used (slot_at st s) <> 0 ->
    exists i, live st i /\ data_slot (node_at st i) = s
}.

(** The bytes of a file. *)
Definition content (st : ramfs) (i : nat) : list Z :=
  if data_slot (node_at st i) =? RAMFS_NO_DATA_SLOT then []
  else take (Z.to_nat (size (node_at st i))) (slot_data (slot_at st (data_slot (node_at st i)))).

Lemma slot_at_length st s : data_ok st -> 0 <= s < RAMFS_DATA_SLOT_CAP ->
  length (slot_data (slot_at st s)) = 4096%nat.
Proof.
  intros H Hs. unfold slot_at, RAMFS_DATA_SLOT_CAP in *.
  destruct (lookup_lt_is_Some_2 (g_data_slots st) (Z.to_nat s)) as [x Hx];
    [rewrite (dk_slots _ H); lia|]. rewrite Hx.
  exact (Forall_lookup_1 _ _ _ _ (dk_bytes _ H) Hx).
Qed.

Lemma content_length st i :
  data_ok st -> live st i -> type (node_at st i) = FS_NODE_FILE ->
  Z.of_nat (length (content st i)) = size (node_at st i).
Proof.
  intros H Li Ti. unfold content. destruct (dk_file _ H i Li Ti) as [[-> ->]|(H1 & H2 & H3 & _)].
  - done.
  - unfold RAMFS_DATA_SLOT_CAP, RAMFS_NO_DATA_SLOT, RAMFS_DATA_SLOT_SIZE in *.
    destruct (Z.eqb_spec (data_slot (node_at st i)) 4294967295); [lia|].
    rewrite length_take, (slot_at_length st) by done. lia.
Qed.

Lemma slot_at_put st s v j :
  length (g_data_slots st) = 4%nat -> 0 <= s < 4 -> 0 <= j ->
  slot_at (put_slot st s v) j = if decide (j = s) then v else slot_at st j.
Proof.
  intros Hl Hs Hj. unfold slot_at, put_slot. simpl. case_decide.
  - subst. by rewrite list_lookup_insert_eq by lia.
  - by rewrite list_lookup_insert_ne by lia.
Qed.

Lemma has_data_iff st i :
  data_ok st -> live st i -> type (node_at st i) = FS_NODE_FILE ->
  has_data st i = negb (data_slot (node_at st i) =? RAMFS_NO_DATA_SLOT).
Proof.
  intros H Li Ti. unfold has_data. destruct (dk_file _ H i Li Ti) as [[-> _]|(H1 & H2 & _)].
  - done.
  - unfold RAMFS_DATA_SLOT_CAP, RAMFS_NO_DATA_SLOT in *.
    destruct (Z.leb_spec 4 (data_slot (node_at st i))); lia.
Qed.

(** ** Reading *)

Lemma node_from_id_spec st id n :
  length (g_nodes st) = 64%nat -> fs_node_from_id st id = Some n -> live st n.
Proof.
  intros Hl. unfold fs_node_from_id. repeat case_bool; try done. intros [= <-].
  unfold live. zify_bools. done.
Qed.

Lemma node_from_id_of st n :
  length (g_nodes st) = 64%nat -> live st n -> fs_node_from_id st (fs_node_id (Some n)) = Some n.
Proof.
  intros Hl Hn. pose proof (live_lt st n Hl Hn). unfold fs_node_from_id, fs_node_id, FS_MAX_NODES.
  destruct (Z.eqb_spec (Z.of_nat n + 1) 0); [lia|].
  replace (Z.of_nat n + 1 - 1) with (Z.of_nat n) by lia. rewrite u32_small, Nat2Z.id by lia.
  destruct (Z.leb_spec 64 (Z.of_nat n)); [lia|]. unfold live in Hn.
  by destruct (Z.eqb_spec (used (node_at st n)) 0).
Qed.

Lemma read_spec st id n offset cap :
  data_ok st -> fs_node_from_id st id = Some n -> live st n ->
  type (node_at st n) = FS_NODE_FILE -> 0 <= offset -> 0 <= cap ->
  let bytes := take (Z.to_nat cap) (drop (Z.to_nat offset) (content st n)) in
  ramfs_core_read st id offset cap = (FS_OK, Z.of_nat (length bytes), bytes).
Proof.
  intros H Hid Ln Tn Ho Hc bytes. unfold ramfs_core_read. rewrite Hid, Tn. cbn [negb Z.eqb FS_NODE_FILE Pos.eqb].
  pose proof (content_length st n H Ln Tn) as Hlen. unfold bytes.
  rewrite length_take, length_drop.
  destruct (Z.leb_spec (size (node_at st n)) offset) as [Hge|Hlt].
  - rewrite (drop_ge (content st n)) by lia. rewrite firstn_nil. do 2 f_equal. lia.
  - unfold ramfs_node_data. rewrite has_data_iff by done. unfold content in *.
    destruct (data_slot (node_at st n) =? RAMFS_NO_DATA_SLOT); cbn [negb]; [simpl in Hlen; lia|].
    rewrite length_take in Hlen. rewrite length_take.
    set (data := slot_data _) in *. set (sz := size (node_at st n)) in *.
    assert (forall k, (k <= Z.to_nat sz - Z.to_nat offset)%nat ->
      take k (drop (Z.to_nat offset) (take (Z.to_nat sz) data)) = take k (drop (Z.to_nat offset) data)) as Ht.
    { intros k Hk. rewrite skipn_firstn_comm, firstn_firstn. f_equal. lia. }
    destruct (Z.ltb_spec (sz - offset) cap).
    + rewrite (take_ge (drop _ (take _ _))) by (rewrite length_drop, length_take; lia).
      rewrite <- (Ht (Z.to_nat (sz - offset))) by lia.
      rewrite (take_ge (drop _ (take _ _))) by (rewrite length_drop, length_take; lia).
      f_equal. f_equal. lia.
    + rewrite Ht by lia. f_equal. f_equal. lia.
Qed.

(** ** Writing *)

(** [bytes] stored at [off] in a file, the gap filled with zeros. *)
Definition splice (old : list Z) (off : nat) (bytes : list Z) : list Z :=
  take off (old ++ replicate (off - length old) 0) ++ bytes ++ drop (off + length bytes) old.

Lemma store_bytes_val data off bytes :
  (off + length bytes <= length data)%nat ->
  store_bytes data off bytes = take off data ++ bytes ++ drop (off + length bytes) data.
Proof.
  revert data off. induction bytes as [|b bytes IH]; intros data off Hl; simpl in *.
  { rewrite Nat.add_0_r. by rewrite take_drop. }
  rewrite IH by (rewrite length_insert; lia).
  rewrite (take_S_r _ _ b) by (apply list_lookup_insert_eq; lia).
  rewrite take_insert_ge by lia. rewrite <- app_assoc. simpl. do 3 f_equal.
  rewrite drop_insert_lt by lia. f_equal. lia.
Qed.

(** Storing in a slot that is zero behind the end of the file. *)
Lemma splice_slot data sz off bytes :
  (sz <= length data)%nat -> (off + length bytes <= length data)%nat ->
  Forall (fun b => b = 0) (drop sz data) ->
  let data' := take off data ++ bytes ++ drop (off + length bytes) data in
  take (sz `max` (off + length bytes)) data' = splice (take sz data) off bytes /\
  Forall (fun b => b = 0) (drop (sz `max` (off + length bytes)) data').
Proof.
  intros Hsz Hoff Hz data'.
  assert (drop sz data = replicate (length data - sz) 0) as Hd.
  { symmetry. apply replicate_as_Forall_2; [by rewrite length_drop|]. eapply Forall_impl; [done|]. naive_solver. }
  assert (length data' = length data) as Hl.
  { unfold data'. rewrite !length_app, length_take, length_drop. lia. }
  assert (take off data = take off (take sz data ++ replicate (off - sz) 0)) as Ht.
  { destruct (decide (off <= sz)%nat).
    - rewrite take_app_le by (rewrite length_take; lia). by rewrite firstn_firstn, min_l by lia.
    - rewrite <- (take_drop sz data) at 1. rewrite Hd. rewrite !take_app, !length_take, !min_l by lia.
      f_equal. rewrite !take_replicate. f_equal. lia. }
  split.
  - unfold data', splice. rewrite length_take, min_l by lia. rewrite <- Ht.
    rewrite !take_app, length_take, min_l by lia. f_equal.
    { rewrite firstn_firstn. f_equal. lia. }
    f_equal; [apply take_ge; lia|]. rewrite skipn_firstn_comm. f_equal. lia.
  - unfold data'. rewrite !drop_app, length_take, min_l by lia.
    rewrite (drop_ge (take off data)) by (rewrite length_take; lia).
    rewrite (drop_ge bytes) by lia. simpl. rewrite drop_drop.
    replace (off + length bytes + _)%nat with (sz + (sz `max` (off + length bytes) - sz))%nat by lia.
    rewrite <- drop_drop. by apply Forall_drop.
Qed.

(** The fields of a node the data invariant is about. *)
Definition same_data (a b : fs_node) : Prop :=
  used a = used b /\ type a = type b /\ data_slot a = data_slot b /\ size a = size b.

Lemma NO_SLOT_big s : 0 <= s < RAMFS_DATA_SLOT_CAP -> s <> RAMFS_NO_DATA_SLOT.
Proof. unfold RAMFS_DATA_SLOT_CAP, RAMFS_NO_DATA_SLOT. lia. Qed.

(** A live node with a slot is a file whose slot is in range and used. *)
Lemma slot_of_live st j s :
  data_ok st -> live st j -> data_slot (node_at st j) = s -> s <> RAMFS_NO_DATA_SLOT ->
  type (node_at st j) = FS_NODE_FILE /\ 0 <= s < RAMFS_DATA_SLOT_CAP /\ slot_used (slot_at st s) <> 0.
Proof.
  intros H Lj <- Hs. destruct (decide (type (node_at st j) = FS_NODE_FILE)) as [Hf|Hf].
  - destruct (dk_file _ H j Lj Hf) as [[? _]|(H1 & H2 & _)]; [done|]. done.
  - by rewrite (dk_dir _ H j Lj Hf) in Hs.
Qed.

(** A change of node [n] and of slot [s], which no other node uses. *)
Section Update.
Context (st st' : ramfs) (n : nat) (s : Z) (v : ramfs_slot).
Hypothesis HD : data_ok st.
Hypothesis Hs : 0 <= s < RAMFS_DATA_SLOT_CAP.
Hypothesis Hslots : g_data_slots st' = <[Z.to_nat s := v]> (g_data_slots st).
Hypothesis Hlen : length (slot_data v) = 4096%nat.
Hypothesis Hother : forall j, j <> n -> same_data (node_at st' j) (node_at st j).
Hypothesis Hmine : forall j, live st j -> data_slot (node_at st j) = s -> j = n.

Lemma update_slot_at j : 0 <= j -> slot_at st' j = if decide (j = s) then v else slot_at st j.
Proof using HD Hs Hslots Hlen Hother Hmine.
  intros Hj. unfold RAMFS_DATA_SLOT_CAP in Hs.
  rewrite <- (slot_at_put st s v j (dk_slots _ HD) Hs Hj). unfold slot_at. by rewrite Hslots.
Qed.

Lemma update_other_live j : j <> n -> live st' j <-> live st j.
Proof using Hother. intros Hj. unfold live. by rewrite (proj1 (Hother j Hj)). Qed.

Lemma update_other_slot j : j <> n -> live st j -> data_slot (node_at st j) <> RAMFS_NO_DATA_SLOT ->
  slot_at st' (data_slot (node_at st j)) = slot_at st (data_slot (node_at st j)).
Proof using HD Hs Hslots Hlen Hother Hmine.
  intros Hj Lj Hno. destruct (slot_of_live st j _ HD Lj eq_refl Hno) as (_ & Hr & _).
  rewrite update_slot_at by lia. case_decide as E; [|done]. by destruct Hj; apply Hmine.
Qed.

Lemma update_frame j : j <> n -> live st j -> content st' j = content st j.
Proof using HD Hs Hslots Hlen Hother Hmine.
  intros Hj Lj. unfold content. destruct (Hother j Hj) as (_ & _ & -> & ->).
  destruct (Z.eqb_spec (data_slot (node_at st j)) RAMFS_NO_DATA_SLOT); [done|].
  by rewrite update_other_slot.
Qed.

(** The invariant holds again if it holds of [n], and slot [s] is used exactly
    when [n] owns it. *)
Lemma update_data_ok :
  (live st' n -> type (node_at st' n) = FS_NODE_FILE /\ file_ok st' n /\
     (data_slot (node_at st' n) = RAMFS_NO_DATA_SLOT \/ data_slot (node_at st' n) = s)) ->
  (slot_used v <> 0 -> live st' n /\ data_slot (node_at st' n) = s) ->
  (forall t, t <> s -> live st n -> data_slot (node_at st n) = t -> t = RAMFS_NO_DATA_SLOT) ->
  data_ok st'.
Proof using HD Hs Hslots Hlen Hother Hmine.
  intros Hn Hv Ho. split.
  - by rewrite Hslots, length_insert, (dk_slots _ HD).
  - rewrite Hslots. apply Forall_insert; [apply HD|done].
  - intros j Lj Tj. destruct (decide (j = n)) as [->|Hj]; [by apply Hn|].
    pose proof (proj1 (update_other_live j Hj) Lj) as L. destruct (Hother j Hj) as (_ & E2 & E3 & E4).
    rewrite E2 in Tj. destruct (dk_file _ HD j L Tj) as [K|K]; unfold file_ok; rewrite E3, E4; [by left|].
    right. rewrite update_other_slot; [done|done|done|]. apply NO_SLOT_big. apply K.
  - intros j Lj Tj. destruct (decide (j = n)) as [->|Hj]; [by destruct (Hn Lj)|].
    pose proof (proj1 (update_other_live j Hj) Lj) as L. destruct (Hother j Hj) as (_ & E2 & E3 & _).
    rewrite E3. rewrite E2 in Tj. by apply (dk_dir _ HD).
  - assert (forall j, j <> n -> live st' n -> live st' j ->
      data_slot (node_at st' n) = data_slot (node_at st' j) ->
      data_slot (node_at st' n) <> RAMFS_NO_DATA_SLOT -> False) as Hx.
    { intros j Hj Ln Lj E Hno. destruct (Hn Ln) as (_ & _ & [?|En]); [done|].
      apply Hj, Hmine; [by apply update_other_live|].
      destruct (Hother j Hj) as (_ & _ & E3 & _). congruence. }
    intros i j Li Lj E Hno.
    destruct (decide (i = n)) as [->|Hi], (decide (j = n)) as [->|Hj]; [done|by destruct (Hx j)| |].
    + destruct (Hx i); congruence.
    + destruct (Hother i Hi) as (_ & _ & E3 & _). destruct (Hother j Hj) as (_ & _ & F3 & _).
      rewrite E3, F3 in *. apply (dk_inj _ HD); try done; by apply update_other_live.
  - intros t Ht Hu. rewrite update_slot_at in Hu by lia. case_decide as E.
    + subst. destruct (Hv Hu). by exists n.
    + destruct (dk_owned _ HD t Ht Hu) as (i & Li & Hi).
      destruct (decide (i = n)) as [->|Hin].
      { destruct (NO_SLOT_big t Ht). by apply (Ho t E Li Hi). }
      exists i. destruct (Hother i Hin) as (_ & _ & E3 & _). rewrite E3.
      split; [by apply update_other_live|done].
Qed.

End Update.

(** ** The tree does not depend on data *)

Record same_shape (st st' : ramfs) : Prop := {
  ss_len : length (g_nodes st') = length (g_nodes st);
  ss_root : g_root st' = g_root st;
  ss_cwd : g_cwd st' = g_cwd st;
  ss_node i : used (node_at st' i) = used (node_at st i) /\ type (node_at st' i) = type (node_at st i) /\
    name (node_at st' i) = name (node_at st i) /\ parent (node_at st' i) = parent (node_at st i) /\
    kids (node_at st' i) = kids (node_at st i)
}.

#[export] Instance same_shape_refl : Reflexive same_shape.
Proof. intros st. by split. Qed.

#[export] Instance same_shape_trans : Transitive same_shape.
Proof.
  intros a b c [A1 A2 A3 A4] [B1 B2 B3 B4]. split; try congruence. intros i.
  destruct (A4 i) as (<- & <- & <- & <- & <-). apply B4.
Qed.

(** A table with the same links is a tree, whatever directory is current. *)
Lemma same_links_tree st st' r c :
  length (g_nodes st') = length (g_nodes st) -> g_root st' = g_root st ->
  (forall i, used (node_at st' i) = used (node_at st i) /\ type (node_at st' i) = type (node_at st i) /\
    name (node_at st' i) = name (node_at st i) /\ parent (node_at st' i) = parent (node_at st i) /\
    kids (node_at st' i) = kids (node_at st i)) ->
  g_cwd st' = Some c -> live st c -> type (node_at st c) = FS_NODE_DIR ->
  tree st r -> tree st' r.
Proof.
  intros S1 S2 S4 Hc Lc Dc [T1 T2 T3 T4 T5 T6 T7 T8].
  assert (forall i, live st' i <-> live st i) as HL by (intros i; unfold live; by destruct (S4 i) as (-> & _)).
  split.
  - congruence.
  - congruence.
  - destruct (S4 r) as (_ & -> & _ & -> & _). by rewrite HL.
  - exists c. destruct (S4 c) as (_ & -> & _). by rewrite HL.
  - intros i Li%HL. destruct (S4 i) as (_ & -> & _ & _ & ->). auto.
  - intros i Li%HL Hr. destruct (T6 i Li Hr) as [(p & P1 & P2 & P3 & P4) P5].
    destruct (S4 i) as (_ & _ & N & P & _). split; rewrite ?N, ?P; [|done]. exists p.
    destruct (S4 p) as (_ & -> & _ & _ & ->). by rewrite HL.
  - intros i Li%HL. destruct (S4 i) as (_ & -> & _ & _ & K). intros Hd.
    apply (dir_ok_frame st); [done| |by apply T7]. intros k _.
    destruct (S4 k) as (_ & _ & -> & -> & _). by rewrite HL.
  - destruct T8 as [rank T8]. exists rank. intros i p Li%HL. destruct (S4 i) as (_ & _ & _ & -> & _). auto.
Qed.

Lemma same_shape_tree st st' r : same_shape st st' -> tree st r -> tree st' r.
Proof.
  intros [S1 S2 S3 S4] HT. destruct (tr_cwd _ _ HT) as (c & Hc & Lc & Dc).
  apply (same_links_tree st st' r c); congruence || done.
Qed.

Lemma put_node_shape st n v :
  (n < length (g_nodes st))%nat -> used v = used (node_at st n) -> type v = type (node_at st n) ->
  name v = name (node_at st n) -> parent v = parent (node_at st n) -> kids v = kids (node_at st n) ->
  same_shape st (put_node st n v).
Proof.
  intros Hn E1 E2 E3 E4 E5. split; [apply length_put|done|done|]. intros i.
  rewrite node_at_put by done. case_decide; [subst|]; done.
Qed.

End RamfsData.
