(* ===== verification/RamfsOps.v ===== *)
(** * The operations of RAMFS keep its invariant

    The invariant [wf] (tree and data), and what each operation does to it: writing,
    truncating, creating, opening and removing. *)

From S2P Require Import Prelude FsTypes Ramfs RamfsTree RamfsPath RamfsData.
From stdpp Require Import base list option sets list_numbers.
From Stdlib Require Import ZArith Lia ZifyBool.
Open Scope Z_scope.

Module RamfsOps.
Import FsTypes Ramfs RamfsTree RamfsPath RamfsData.

Record wf (st : ramfs) (r : nat) : Prop := { wf_tree : tree st r; wf_data : data_ok st }.

Definition is_file (st : ramfs) (n : nat) : Prop := live st n /\ type (node_at st n) = FS_NODE_FILE.

Lemma zero_slot_bytes :
  length (slot_data zero_slot) = 4096%nat /\ slot_used zero_slot = 0 /\
  Forall (fun b => b = 0) (slot_data zero_slot).
Proof. split; [done|]. split; [done|]. by apply Forall_replicate. Qed.

#[local] Opaque zero_slot.

(** ** Writing *)

Lemma first_free_slot_spec l k :
  (first_free_slot l k = RAMFS_NO_DATA_SLOT /\ Forall (fun s => slot_used s <> 0) l) \/
  (k <= first_free_slot l k < k + Z.of_nat (length l) /\
   slot_used (default zero_slot (l !! Z.to_nat (first_free_slot l k - k))) = 0).
Proof.
  revert k. induction l as [|s l IH]; intros k; cbn [first_free_slot length]; [by left|].
  destruct (Z.eqb_spec (slot_used s) 0) as [He|He].
  - right. split; [lia|]. by rewrite Z.sub_diag.
  - destruct (IH (k + 1)) as [[-> H]|[H1 H2]]; [left; split; [done|by constructor]|right].
    set (f := first_free_slot l (k + 1)) in *. split; [lia|].
    by replace (Z.to_nat (f - k)) with (S (Z.to_nat (f - (k + 1)))) by lia.
Qed.

(** The state with slot [s], holding [d], in use by file [n]. *)
Record slotted (st st1 : ramfs) (n : nat) (s u : Z) (d : list Z) : Prop := {
  sd_shape : length (g_nodes st1) = length (g_nodes st) /\ g_root st1 = g_root st /\ g_cwd st1 = g_cwd st;
  sd_range : 0 <= s < RAMFS_DATA_SLOT_CAP;
  sd_nodes j : node_at st1 j = if decide (j = n) then set_slot (node_at st n) s else node_at st j;
  sd_slots : g_data_slots st1 = <[Z.to_nat s := Slot u d]> (g_data_slots st);
  sd_used : u <> 0;
  sd_bytes : length d = 4096%nat;
  sd_content : take (Z.to_nat (size (node_at st n))) d = content st n;
  sd_zero : Forall (fun b => b = 0) (drop (Z.to_nat (size (node_at st n))) d);
  sd_mine j : live st j -> data_slot (node_at st j) = s -> j = n;
  sd_mine' : data_slot (node_at st n) = s \/ data_slot (node_at st n) = RAMFS_NO_DATA_SLOT
}.

Lemma slot_at_lookup st s :
  length (g_data_slots st) = 4%nat -> 0 <= s < RAMFS_DATA_SLOT_CAP ->
  g_data_slots st !! Z.to_nat s = Some (slot_at st s).
Proof.
  unfold RAMFS_DATA_SLOT_CAP. intros Hl Hs. unfold slot_at.
  by destruct (lookup_lt_is_Some_2 (g_data_slots st) (Z.to_nat s) ltac:(lia)) as [x ->].
Qed.

Lemma ensure_spec st r n :
  wf st r -> is_file st n ->
  let '(rc, st1) := ramfs_ensure_data_slot st n in
  (rc = FS_OK /\ exists s u d, slotted st st1 n s u d) \/
  (rc = FS_ERR_NO_SPACE /\ st1 = st /\ content st n = [] /\
   Forall (fun s => slot_used s <> 0) (g_data_slots st)).
Proof.
  intros [HT HD] [Ln Tn]. unfold ramfs_ensure_data_slot. rewrite Tn.
  cbn [negb Z.eqb FS_NODE_FILE Pos.eqb]. rewrite has_data_iff by done.
  pose proof (live_lt st n (tr_len _ _ HT) Ln) as Hlt. pose proof (dk_file _ HD n Ln Tn) as Hf.
  destruct (Z.eqb_spec (data_slot (node_at st n)) RAMFS_NO_DATA_SLOT) as [Hno|Hs]; cbn [negb].
  - unfold ramfs_alloc_data_slot.
    pose proof (first_free_slot_spec (g_data_slots st) 0) as Hff.
    set (s := first_free_slot (g_data_slots st) 0) in *.
    assert (content st n = []) as Hc by (unfold content; by rewrite Hno).
    destruct Hff as [[-> Hall]|[Hr Hu]]; [by right|]. rewrite (dk_slots _ HD) in Hr.
    rewrite Z.sub_0_r in Hu. change (default _ _) with (slot_at st s) in Hu.
    assert (size (node_at st n) = 0) as Hsz.
    { destruct Hf as [[_ ?]|(H1 & _)]; [done|]. by destruct (NO_SLOT_big _ H1). }
    destruct (Z.eqb_spec s RAMFS_NO_DATA_SLOT) as [E|_].
    { unfold RAMFS_NO_DATA_SLOT in E. lia. }
    destruct (Z.eqb_spec s RAMFS_NO_DATA_SLOT) as [E|_].
    { unfold RAMFS_NO_DATA_SLOT in E. lia. }
    left. split; [done|]. exists s, 1, (slot_data zero_slot). split; try done.
    + by rewrite length_put.
    + intros j. rewrite node_at_put by (cbn; rewrite (tr_len _ _ HT); lia). by rewrite node_at_put_slot.
    + by rewrite Hc, Hsz.
    + rewrite Hsz. apply zero_slot_bytes.
    + intros j Lj Ej. destruct (slot_of_live st j s HD Lj Ej) as (_ & _ & Hu'); [|done].
      unfold RAMFS_NO_DATA_SLOT. lia.
    + by right.
  - destruct (slot_of_live st n _ HD Ln eq_refl Hs) as (_ & Hr & Hu).
    left. split; [done|]. set (s := data_slot (node_at st n)) in *.
    exists s, (slot_used (slot_at st s)), (slot_data (slot_at st s)).
    destruct Hf as [[? _]|(_ & _ & Hsz & Hz)]; [done|]. fold s in Hz. split; try done.
    + intros j. case_decide; [subst|done]. unfold s. by destruct (node_at st n).
    + symmetry. apply list_insert_id. rewrite (slot_at_lookup st s) by (done || apply HD).
      by destruct (slot_at st s).
    + by apply slot_at_length.
    + unfold content. fold s. by destruct (Z.eqb_spec s RAMFS_NO_DATA_SLOT).
    + intros j Lj Ej. apply (dk_inj _ HD); try done. congruence.
    + by left.
Qed.

(** Filling the slot and growing the file. *)
Lemma fill_slot st r st1 st2 n s u d d' z :
  wf st r -> is_file st n -> slotted st st1 n s u d ->
  length d' = 4096%nat -> 0 <= z <= RAMFS_DATA_SLOT_SIZE ->
  Forall (fun b => b = 0) (drop (Z.to_nat z) d') ->
  g_data_slots st2 = <[Z.to_nat s := Slot u d']> (g_data_slots st1) ->
  length (g_nodes st2) = length (g_nodes st1) -> g_root st2 = g_root st1 -> g_cwd st2 = g_cwd st1 ->
  (forall j, node_at st2 j = if decide (j = n) then set_size (node_at st1 n) z else node_at st1 j) ->
  wf st2 r /\ content st2 n = take (Z.to_nat z) d' /\ same_shape st st2 /\
  forall j, j <> n -> live st j -> content st2 j = content st j.
Proof.
  intros [HT HD] [Ln Tn] [(S1 & S2 & S3) S4 S5 S6 S7 S8 S9 S10 S11 S12] Hd' Hz Hzero E1 E2 E3 E4 E5.
  assert (forall j, node_at st2 j =
    if decide (j = n) then set_size (set_slot (node_at st n) s) z else node_at st j) as Hn.
  { intros j. rewrite E5, !S5. rewrite (decide_True (P := n = n)) by done. by repeat case_decide. }
  assert (g_data_slots st2 = <[Z.to_nat s := Slot u d']> (g_data_slots st)) as Hslots.
  { rewrite E1, S6. apply list_insert_insert_eq. }
  assert (forall j, j <> n -> same_data (node_at st2 j) (node_at st j)) as Hother.
  { intros j Hj. rewrite Hn, decide_False by done. by repeat split. }
  assert (node_at st2 n = set_size (set_slot (node_at st n) s) z) as Hnn by (by rewrite Hn, decide_True).
  pose proof (NO_SLOT_big s S4) as Hsno.
  assert (slot_at st2 s = Slot u d') as Hslot.
  { rewrite (update_slot_at st st2 n s (Slot u d')) by (done || lia). by rewrite decide_True. }
  assert (same_shape st st2) as Hshape.
  { split; [congruence|congruence|congruence|]. intros j. rewrite Hn. case_decide; [subst|]; done. }
  split; [split|].
  - by apply (same_shape_tree st).
  - apply (update_data_ok st st2 n s (Slot u d')); try done.
    + intros _. rewrite Hnn. cbn. split; [done|]. split; [|by right]. right. rewrite Hnn. cbn.
      rewrite Hslot. done.
    + intros _. unfold live. rewrite Hnn. done.
    + intros t Ht _ Et. destruct S12; congruence.
  - split; [|split; [done|]].
    + unfold content. rewrite Hnn. cbn. rewrite Hslot. by destruct (Z.eqb_spec s RAMFS_NO_DATA_SLOT).
    + intros j Hj Lj. by apply (update_frame st st2 n s (Slot u d')).
Qed.

Lemma write_spec st r id n off bytes :
  wf st r -> fs_node_from_id st id = Some n -> is_file st n -> 0 <= off ->
  let '(rc, w, st') := ramfs_core_write st id off bytes in
  (rc = FS_OK /\ w = Z.of_nat (length bytes) /\ wf st' r /\ same_shape st st' /\
   content st' n = (if (length bytes =? 0)%nat then content st n
                    else splice (content st n) (Z.to_nat off) bytes) /\
   forall j, j <> n -> live st j -> content st' j = content st j) \/
  (rc = FS_ERR_NO_SPACE /\ w = 0 /\ st' = st /\
   (RAMFS_DATA_SLOT_SIZE < off + Z.of_nat (length bytes) \/
    content st n = [] /\ Forall (fun s => slot_used s <> 0) (g_data_slots st))).
Proof.
  intros Hwf Hid Hfile Ho. unfold ramfs_core_write. rewrite Hid.
  pose proof Hfile as [Ln Tn]. rewrite Tn. cbn [negb Z.eqb FS_NODE_FILE Pos.eqb].
  set (sz := Z.of_nat (length bytes)).
  destruct ((RAMFS_DATA_SLOT_SIZE <? off) || (RAMFS_DATA_SLOT_SIZE - off <? sz)) eqn:Efit.
  { right. split; [done|]. split; [done|]. split; [done|]. left. blia. }
  assert (off + sz <= 4096) as Hfit by (unfold RAMFS_DATA_SLOT_SIZE in Efit; blia).
  destruct (Z.eqb_spec sz 0) as [Hz|Hz].
  { left. split; [done|]. split; [lia|]. split; [done|]. split; [done|].
    by destruct (Nat.eqb_spec (length bytes) 0); [|lia]. }
  pose proof (ensure_spec st r n Hwf Hfile) as He.
  destruct (ramfs_ensure_data_slot st n) as [rc st1].
  destruct He as [[-> (s & u & d & Hs)]|(-> & -> & Hc & Hall)]; [|right; cbn; tauto].
  cbn [negb Z.eqb FS_OK]. pose proof (sd_nodes _ _ _ _ _ _ Hs n) as Hn1. rewrite decide_True in Hn1 by done.
  pose proof (sd_range _ _ _ _ _ _ Hs) as Hr.
  assert (slot_at st1 s = Slot u d) as Hs1.
  { unfold slot_at. rewrite (sd_slots _ _ _ _ _ _ Hs), list_lookup_insert_eq; [done|].
    rewrite (dk_slots _ (wf_data _ _ Hwf)). unfold RAMFS_DATA_SLOT_CAP in Hr. lia. }
  unfold ramfs_node_data, has_data. rewrite Hn1. cbn [data_slot set_slot]. rewrite Hs1. cbn [slot_used slot_data].
  destruct (Z.leb_spec RAMFS_DATA_SLOT_CAP s); [lia|].
  destruct (Z.eqb_spec u 0) as [|_]; [by destruct (sd_used _ _ _ _ _ _ Hs)|]. cbn [negb].
  rewrite node_at_put_slot, Hn1. cbn [size set_slot].
  pose proof (content_length st n (wf_data _ _ Hwf) Ln Tn) as Hcl.
  pose proof (sd_bytes _ _ _ _ _ _ Hs) as Hdl. rewrite store_bytes_val by (unfold sz in *; lia).
  set (d' := take _ d ++ _). set (z := size (node_at st n) `max` (off + sz)).
  destruct (splice_slot d (Z.to_nat (size (node_at st n))) (Z.to_nat off) bytes) as [Hsp Hzero].
  { rewrite <- (sd_content _ _ _ _ _ _ Hs), length_take in Hcl. lia. }
  { unfold sz in *. lia. }
  { apply Hs. }
  replace (Z.to_nat (size (node_at st n)) `max` (Z.to_nat off + length bytes))%nat
    with (Z.to_nat z) in * by (unfold z, sz; lia). fold d' in Hsp, Hzero.
  rewrite (sd_content _ _ _ _ _ _ Hs) in Hsp.
  left. split; [done|]. split; [done|].
  destruct (Nat.eqb_spec (length bytes) 0) as [|_]; [lia|]. rewrite <- Hsp.
  set (st2 := if size (node_at st n) <? off + sz then _ else _).
  assert (forall j, node_at st2 j = if decide (j = n) then set_size (node_at st1 n) z else node_at st1 j) as Hn2.
  { assert (n < length (g_nodes st1))%nat.
    { rewrite (proj1 (sd_shape _ _ _ _ _ _ Hs)). rewrite (tr_len _ _ (wf_tree _ _ Hwf)).
      by apply (live_lt st n (tr_len _ _ (wf_tree _ _ Hwf))). }
    intros j. unfold st2. destruct (Z.ltb_spec (size (node_at st n)) (off + sz)).
    - rewrite node_at_put by done. rewrite !node_at_put_slot. case_decide; [|done].
      rewrite Hn1. unfold z. by rewrite Z.max_r by lia.
    - rewrite node_at_put_slot. case_decide; [|done]. subst. unfold z. rewrite Z.max_l by lia.
      rewrite Hn1. by destruct (node_at st n). }
  destruct (fill_slot st r st1 (set_dirty st2) n s u d d' z Hwf Hfile Hs) as (F1 & F2 & F3 & F4);
    try done; unfold st2; try (by case_bool).
  - unfold d'. rewrite !length_app, length_take, length_drop. unfold sz in *. lia.
  - unfold z, RAMFS_DATA_SLOT_SIZE. rewrite <- (sd_content _ _ _ _ _ _ Hs), length_take in Hcl. lia.
  - case_bool; [cbn; apply length_insert|done].
Qed.

(** ** Changes that keep every slot *)

Lemma data_frame st st' :
  data_ok st -> g_data_slots st' = g_data_slots st ->
  (forall j, live st' j -> (live st j /\ same_data (node_at st' j) (node_at st j)) \/
     (data_slot (node_at st' j) = RAMFS_NO_DATA_SLOT /\ size (node_at st' j) = 0)) ->
  (forall j, live st j -> data_slot (node_at st j) <> RAMFS_NO_DATA_SLOT ->
     live st' j /\ same_data (node_at st' j) (node_at st j)) ->
  data_ok st' /\
  (forall j, live st j -> same_data (node_at st' j) (node_at st j) -> content st' j = content st j).
Proof.
  intros HD Hs Hnew Hold. assert (forall s, slot_at st' s = slot_at st s) as Hsl
    by (intros s; unfold slot_at; by rewrite Hs).
  split; [split|].
  - rewrite Hs. apply HD.
  - rewrite Hs. apply HD.
  - intros i Li Ti. destruct (Hnew i Li) as [[L (_ & E2 & E3 & E4)]|]; [|by left].
    rewrite E2 in Ti. unfold file_ok. rewrite E3, E4, Hsl. by apply (dk_file _ HD).
  - intros i Li Ti. destruct (Hnew i Li) as [[L (_ & E2 & E3 & E4)]|[? _]]; [|done].
    rewrite E2 in Ti. rewrite E3. by apply (dk_dir _ HD).
  - intros i j Li Lj E Hno.
    destruct (Hnew i Li) as [[L (_ & _ & E3 & _)]|[? _]]; [|done].
    destruct (Hnew j Lj) as [[L' (_ & _ & F3 & _)]|[? _]]; [|congruence].
    apply (dk_inj _ HD); congruence.
  - intros s Hr Hu. rewrite Hsl in Hu. destruct (dk_owned _ HD s Hr Hu) as (i & Li & Hi).
    destruct (Hold i Li) as (L & _ & _ & E3 & _); [rewrite Hi; by apply NO_SLOT_big|].
    exists i. by rewrite E3.
  - intros j Lj (_ & _ & E3 & E4). unfold content. by rewrite E3, E4, Hsl.
Qed.

(** ** Creating *)

Lemma created_wf st st' r p i nm ty :
  wf st r -> created st st' p i nm ty -> live st p -> type (node_at st p) = FS_NODE_DIR ->
  ty = FS_NODE_DIR \/ ty = FS_NODE_FILE -> Forall (fun c => c <> 0) nm ->
  wf st' r /\ content st' i = [] /\ forall j, live st j -> content st' j = content st j.
Proof.
  intros [HT HD] HC Hp Hpd Hty Hnz.
  assert (forall j, live st j -> live st' j /\ same_data (node_at st' j) (node_at st j)) as Hold.
  { intros j Lj. destruct (decide (j = i)) as [->|Hj]; [by destruct (created_neq st st' p i nm ty HC i Lj)|].
    unfold live in *. destruct (decide (j = p)) as [->|Hjp].
    - by rewrite (cr_parent _ _ _ _ _ _ HC).
    - by rewrite (cr_other _ _ _ _ _ _ HC). }
  destruct (data_frame st st') as [HD' Hc]; [done|apply HC| |by auto|].
  { intros j [->|Lj]%(created_live st st' p i nm ty HC).
    - right. by rewrite (cr_node _ _ _ _ _ _ HC).
    - left. split; [done|]. by apply Hold. }
  split; [split; [by eapply created_tree|done]|]. split.
  - unfold content. by rewrite (cr_node _ _ _ _ _ _ HC).
  - intros j Lj. by apply Hc, Hold.
Qed.

Lemma same_live_wf st st' r :
  wf st r -> same_live st st' -> wf st' r /\ forall j, live st j -> content st' j = content st j.
Proof.
  intros [HT HD] HS.
  assert (forall j, live st j -> live st' j /\ same_data (node_at st' j) (node_at st j)) as Hold.
  { intros j Lj. split; [by apply (same_live_live st)|]. by rewrite (sl_node _ _ HS). }
  destruct (data_frame st st') as [HD' Hc]; [done|apply HS| |by auto|].
  - intros j Lj%(same_live_live st st'); [|done]. left. split; [done|]. by apply Hold.
  - split; [split; [by apply (same_live_tree st)|done]|]. intros j Lj. by apply Hc, Hold.
Qed.

(** ** Truncating and removing *)

Lemma free_slot_range st s :
  s < RAMFS_DATA_SLOT_CAP -> ramfs_free_data_slot st s = put_slot st s zero_slot.
Proof. intros Hs. unfold ramfs_free_data_slot. by destruct (Z.leb_spec RAMFS_DATA_SLOT_CAP s); [lia|]. Qed.

(** [n] gives its slot back: it is dead afterwards, or an empty file. *)
Lemma release_data st st' n :
  data_ok st -> live st n ->
  g_data_slots st' = (if data_slot (node_at st n) =? RAMFS_NO_DATA_SLOT then g_data_slots st
                      else <[Z.to_nat (data_slot (node_at st n)) := zero_slot]> (g_data_slots st)) ->
  (forall j, j <> n -> same_data (node_at st' j) (node_at st j)) ->
  (live st' n -> type (node_at st' n) = FS_NODE_FILE /\
     data_slot (node_at st' n) = RAMFS_NO_DATA_SLOT /\ size (node_at st' n) = 0) ->
  data_ok st' /\ forall j, j <> n -> live st j -> content st' j = content st j.
Proof.
  intros HD Ln Hs Hother Hn.
  destruct (Z.eqb_spec (data_slot (node_at st n)) RAMFS_NO_DATA_SLOT) as [Hno|Hsl].
  - destruct (data_frame st st' HD Hs) as [HD' Hc].
    + intros j Lj. destruct (decide (j = n)) as [->|Hj]; [right; by apply Hn|left].
      split; [|by apply Hother]. unfold live in *. by rewrite <- (proj1 (Hother j Hj)).
    + intros j Lj Hj. assert (j <> n) as Hjn by congruence. split; [|by apply Hother].
      unfold live in *. by rewrite (proj1 (Hother j Hjn)).
    + split; [done|]. intros j Hj Lj. apply Hc; [done|by apply Hother].
  - destruct (slot_of_live st n _ HD Ln eq_refl Hsl) as (_ & Hr & _).
    destruct zero_slot_bytes as (Z1 & Z2 & _).
    assert (forall j, live st j -> data_slot (node_at st j) = data_slot (node_at st n) -> j = n) as Hm.
    { intros j Lj E. apply (dk_inj _ HD); [done|done|done|congruence]. }
    split.
    + apply (update_data_ok st st' n (data_slot (node_at st n)) zero_slot); try done.
      intros L. destruct (Hn L) as (H1 & H2 & H3). split; [done|]. split; [by left|by left].
    + intros j Hj Lj. by apply (update_frame st st' n (data_slot (node_at st n)) zero_slot).
Qed.

Lemma open_node_spec st r n flags :
  wf st r -> live st n ->
  let '(rc, id, st') := open_node st n flags in
  wf st' r /\ same_shape st st' /\ (forall j, j <> n -> live st j -> content st' j = content st j) /\
  (rc = FS_OK -> type (node_at st n) = FS_NODE_FILE /\ id = fs_node_id (Some n) /\
     content st' n = (if Z.land flags FS_O_TRUNC =? 0 then content st n else [])) /\
  (rc <> FS_OK -> st' = st).
Proof.
  intros [HT HD] Ln. unfold open_node.
  destruct (Z.eqb_spec (type (node_at st n)) FS_NODE_FILE) as [Tn|]; cbn [negb]; [|done].
  destruct (Z.eqb_spec (Z.land flags FS_O_TRUNC) 0) as [Ht|Ht]; cbn [negb]; [done|].
  destruct (Z.land flags FS_O_WRONLY =? 0); [done|].
  pose proof (live_lt st n (tr_len _ _ HT) Ln) as Hlt.
  pose proof (tr_len _ _ HT) as Hlen.
  set (st1 := if negb _ then _ else st). set (st' := set_dirty _).
  assert (length (g_nodes st1) = 64%nat) as Hl1.
  { unfold st1. case_bool; [|done]. rewrite length_put. unfold ramfs_free_data_slot. by case_bool. }
  assert (forall j, node_at st' j =
    if decide (j = n) then set_size (set_slot (node_at st n) RAMFS_NO_DATA_SLOT) 0 else node_at st j) as Hn.
  { intros j. unfold st'. rewrite node_at_dirty, node_at_put by lia. unfold st1.
    destruct (Z.eqb_spec (data_slot (node_at st n)) RAMFS_NO_DATA_SLOT) as [E|E]; cbn [negb].
    - case_decide; [|done]. rewrite <- E. by destruct (node_at st n).
    - assert (forall k, node_at (ramfs_free_data_slot st (data_slot (node_at st n))) k = node_at st k) as Hk
        by (intros k; unfold ramfs_free_data_slot; by case_bool).
      rewrite !node_at_put by (unfold ramfs_free_data_slot; case_bool; cbn; lia).
      rewrite !Hk. rewrite (decide_True (P := n = n)) by done. by repeat case_decide. }
  assert (same_shape st st') as Hsh.
  { split; [unfold st'; cbn; by rewrite length_insert, Hl1, Hlen| | |].
    - unfold st', st1, ramfs_free_data_slot. by repeat case_bool.
    - unfold st', st1, ramfs_free_data_slot. by repeat case_bool.
    - intros j. rewrite Hn. case_decide; [subst|]; done. }
  destruct (release_data st st' n HD Ln) as [HD' Hc].
  - unfold st', st1. cbn. destruct (Z.eqb_spec (data_slot (node_at st n)) RAMFS_NO_DATA_SLOT) as [E|E]; [done|].
    cbn. destruct (slot_of_live st n _ HD Ln eq_refl E) as (_ & Hr & _). by rewrite free_slot_range by lia.
  - intros j Hj. rewrite Hn, decide_False by done. by repeat split.
  - intros _. rewrite Hn, decide_True by done. done.
  - split; [split; [by apply (same_shape_tree st)|done]|]. split; [done|]. split; [done|].
    split; [|done]. intros _. split; [done|]. split; [done|]. unfold content.
    rewrite Hn, decide_True by done. done.
Qed.

(** ** Operations on paths *)

(** A C string: no NUL inside. *)
Definition cstring (p : list Z) : Prop := Forall (fun c => c <> 0) p.

Lemma components_cstring p : cstring p -> Forall cstring (components p).
Proof.
  unfold components. intros Hp. apply Forall_forall. intros s [_ Hs]%list_elem_of_filter.
  revert s Hs. rewrite <- Forall_forall. unfold cstring in *.
  induction Hp as [|c p Hc Hp IH]; simpl; [repeat constructor|]. case_bool; [by constructor|].
  destruct (split_slash p) as [|s ss]; [by repeat constructor|].
  apply Forall_cons in IH as [H1 H2]. constructor; [by constructor|done].
Qed.

Lemma start_dir st r path :
  wf st r -> exists cur, (if char_at path 0 =? slash then g_root st else g_cwd st) = Some cur /\
    live st cur /\ type (node_at st cur) = FS_NODE_DIR.
Proof.
  intros [HT _]. case_bool.
  - exists r. split; [apply HT|]. by destruct (tr_root_dir _ _ HT) as (? & ? & _).
  - destruct (tr_cwd _ _ HT) as (c & ? & ?). by exists c.
Qed.

Lemma resolve_spec st r path :
  wf st r ->
  match fs_resolve_path st path with
  | (rc, Some n) => rc = FS_OK /\ live st n
  | (rc, None) => rc <> FS_OK
  end.
Proof.
  intros Hwf. destruct (start_dir st r path Hwf) as (cur & Hs & Lc & _). unfold fs_resolve_path.
  rewrite (resolve_path_walk _ _ _ cur Hs). apply (walk_live st r); [apply Hwf|done].
Qed.

Lemma resolve_parent_spec st r path :
  wf st r -> cstring path ->
  match fs_resolve_parent st path with
  | (rc, Some p, nm) => rc = FS_OK /\ live st p /\ type (node_at st p) = FS_NODE_DIR /\ cstring nm
  | (rc, None, _) => rc <> FS_OK
  end.
Proof.
  intros Hwf Hp. destruct (start_dir st r path Hwf) as (cur & Hs & Lc & Dc).
  rewrite (resolve_parent_walk _ _ cur Hs).
  pose proof (walk_parent_live st r cur (components path) (wf_tree _ _ Hwf) Lc Dc) as Hw.
  pose proof (walk_parent_spec st cur (components path)) as Hs'.
  destruct (walk_parent st cur (components path)) as [[rc [p|]] nm]; [|done].
  destruct Hw as (-> & L & D). destruct (Hs' p nm eq_refl) as (cs & E & _).
  split; [done|]. split; [done|]. split; [done|].
  pose proof (components_cstring path Hp) as Hc. rewrite E in Hc. apply Forall_app in Hc as [_ Hc].
  by rewrite Forall_singleton in Hc.
Qed.

(** The live files keep their contents. *)
Definition keeps (st st' : ramfs) : Prop := forall j, live st j -> content st' j = content st j.

Lemma create_wf st r p nm ty :
  wf st r -> live st p -> type (node_at st p) = FS_NODE_DIR -> cstring nm ->
  ty = FS_NODE_DIR \/ ty = FS_NODE_FILE ->
  let '(rc, out, st') := fs_create_node st (Some p) nm ty in
  wf st' r /\ keeps st st' /\
  match out with
  | Some i => rc = FS_OK /\ created st st' p i nm ty /\ content st' i = []
  | None => rc <> FS_OK
  end.
Proof.
  intros Hwf Lp Dp Hnm Hty. pose proof (create_node_spec st p nm ty (tr_len _ _ (wf_tree _ _ Hwf)) Lp Dp) as Hc.
  destruct (fs_create_node st (Some p) nm ty) as [[rc out] st'].
  destruct Hc as [(-> & i & -> & HC)|(Hrc & -> & HS)].
  - destruct (created_wf st st' r p i nm ty Hwf HC Lp Dp Hty Hnm) as (H1 & H2 & H3). done.
  - destruct (same_live_wf st st' r Hwf HS) as [H1 H2]. done.
Qed.

Lemma set_dirty_wf st r : wf st r -> wf (set_dirty st) r.
Proof. intros [HT HD]. split; [by apply (same_shape_tree st)|by destruct HD]. Qed.

Lemma make_dir_wf st r path :
  wf st r -> cstring path ->
  let '(rc, st') := ramfs_core_make_dir st path in wf st' r /\ keeps st st'.
Proof.
  intros Hwf Hp. unfold ramfs_core_make_dir. pose proof (resolve_parent_spec st r path Hwf Hp) as Hr.
  destruct (fs_resolve_parent st path) as [[rc [p|]] nm].
  - destruct Hr as (-> & Lp & Dp & Hnm). cbn [negb Z.eqb FS_OK].
    pose proof (create_wf st r p nm FS_NODE_DIR Hwf Lp Dp Hnm (or_introl eq_refl)) as Hc.
    destruct (fs_create_node st (Some p) nm FS_NODE_DIR) as [[rc out] st'].
    destruct Hc as (H1 & H2 & _). case_bool; [|done]. split; [by apply set_dirty_wf|done].
  - by destruct (Z.eqb_spec rc FS_OK).
Qed.

Lemma import_wf st r path ty :
  wf st r -> cstring path -> ty = FS_NODE_DIR \/ ty = FS_NODE_FILE ->
  let '(rc, st') := ramfs_core_import_node st path ty in wf st' r /\ keeps st st'.
Proof.
  intros Hwf Hp Hty. unfold ramfs_core_import_node. repeat (case_bool; [done|]).
  pose proof (resolve_parent_spec st r path Hwf Hp) as Hr.
  destruct (fs_resolve_parent st path) as [[rc [p|]] nm].
  - destruct Hr as (-> & Lp & Dp & Hnm). cbn [negb Z.eqb FS_OK].
    destruct (fs_find_child st (Some p) nm); [done|].
    pose proof (create_wf st r p nm ty Hwf Lp Dp Hnm Hty) as Hc.
    destruct (fs_create_node st (Some p) nm ty) as [[rc out] st']. by destruct Hc as (H1 & H2 & _).
  - by destruct (Z.eqb_spec rc FS_OK).
Qed.

Lemma change_dir_wf st r path :
  wf st r -> let '(rc, st') := ramfs_core_change_dir st path in wf st' r /\ keeps st st'.
Proof.
  intros Hwf. unfold ramfs_core_change_dir. pose proof (resolve_spec st r path Hwf) as Hr.
  destruct (fs_resolve_path st path) as [rc [n|]]; [|done]. destruct Hr as [-> Ln].
  cbn [negb Z.eqb FS_OK]. destruct (Z.eqb_spec (type (node_at st n)) FS_NODE_DIR) as [Dn|]; [|done].
  cbn [negb]. split; [|done]. destruct Hwf as [HT HD].
  split; [by apply (same_links_tree st _ r n)|by destruct HD].
Qed.

(** What [ramfs_core_open] returns when it creates the file. *)
Definition opens_new (st st' : ramfs) (path : list Z) (id : Z) : Prop :=
  exists i, id = fs_node_id (Some i) /\ used (node_at st i) = 0 /\ is_file st' i /\
    content st' i = [] /\ fs_resolve_path st' path = (FS_OK, Some i).

Lemma same_shape_find st st' cur nm :
  same_shape st st' -> fs_find_child st' (Some cur) nm = fs_find_child st (Some cur) nm.
Proof.
  intros [_ _ _ S]. unfold fs_find_child. cbn [mbind option_bind].
  destruct (S cur) as (_ & -> & _ & _ & ->). case_bool; [done|]. apply find_kid_ext, Forall_forall.
  intros k _. by destruct (S k) as (_ & _ & -> & _).
Qed.

Lemma same_shape_walk st st' cur cs : same_shape st st' -> walk st' cur cs = walk st cur cs.
Proof.
  intros HS. revert cur. induction cs as [|c cs IH]; intros cur; [done|]. cbn [walk].
  unfold up. destruct (ss_node _ _ HS cur) as (_ & -> & _ & -> & _).
  rewrite !IH, (same_shape_find st st' cur c HS). repeat case_bool; try done.
  by destruct (fs_find_child st (Some cur) c).
Qed.

Lemma open_spec st r path flags :
  wf st r -> cstring path ->
  let '(rc, id, st') := ramfs_core_open st path flags in
  wf st' r /\
  (rc = FS_OK ->
     (exists n, fs_resolve_path st path = (FS_OK, Some n) /\ id = fs_node_id (Some n) /\ is_file st' n /\
        content st' n = (if Z.land flags FS_O_TRUNC =? 0 then content st n else []) /\
        forall j, j <> n -> live st j -> content st' j = content st j) \/
     (fs_resolve_path st path = (FS_ERR_NOT_FOUND, None) /\ Z.land flags FS_O_CREAT <> 0 /\
        opens_new st st' path id /\ keeps st st')).
Proof.
  intros Hwf Hp. unfold ramfs_core_open. pose proof (resolve_spec st r path Hwf) as Hr.
  destruct (fs_resolve_path st path) as [rc n] eqn:Eres.
  destruct ((rc =? FS_ERR_NOT_FOUND) && negb (Z.land flags FS_O_CREAT =? 0)) eqn:Ec.
  2: { destruct n as [n|]; [|by split]. destruct Hr as [-> Ln]. cbn [negb Z.eqb FS_OK].
       pose proof (open_node_spec st r n flags Hwf Ln) as Ho.
       destruct (open_node st n flags) as [[rc id] st']. destruct Ho as (O1 & O2 & O3 & O4 & _).
       split; [done|]. intros Hrc. left. destruct (O4 Hrc) as (Tn & Hid & Hc). exists n.
       destruct (ss_node _ _ O2 n) as (U & T & _). split; [done|]. split; [done|].
       split; [|done]. split; [unfold live; by rewrite U|congruence]. }
  assert (rc = FS_ERR_NOT_FOUND /\ Z.land flags FS_O_CREAT <> 0) as [-> Hcr] by blia.
  assert (n = None) as -> by (destruct n; [by destruct Hr|done]).
  destruct (start_dir st r path Hwf) as (cur & Hs & Lc & Dc).
  pose proof (resolve_parent_spec st r path Hwf Hp) as Hrp.
  destruct (fs_resolve_parent st path) as [[rc [p|]] nm] eqn:Epar; [|by destruct (Z.eqb_spec rc FS_OK)].
  destruct Hrp as (-> & Lp & Dp & Hnm). cbn [negb Z.eqb FS_OK].
  pose proof (create_wf st r p nm FS_NODE_FILE Hwf Lp Dp Hnm (or_intror eq_refl)) as Hc.
  destruct (fs_create_node st (Some p) nm FS_NODE_FILE) as [[rc out] st1].
  destruct Hc as (W1 & K1 & Hout). destruct out as [i|]; [|by split].
  destruct Hout as (-> & HC & Hci).
  assert (live (set_dirty st1) i) as Li by (unfold live; by rewrite node_at_dirty, (cr_node _ _ _ _ _ _ HC)).
  pose proof (open_node_spec (set_dirty st1) r i flags (set_dirty_wf _ _ W1) Li) as Ho.
  destruct (open_node (set_dirty st1) i flags) as [[rc id] st']. destruct Ho as (O1 & O2 & O3 & O4 & _).
  split; [done|]. intros Hrc. right. split; [done|]. split; [done|]. destruct (O4 Hrc) as (Ti & Hid & Hct).
  split.
  - exists i. split; [done|]. split; [apply HC|]. destruct (ss_node _ _ O2 i) as (U & T & _).
    split; [split; [unfold live; by rewrite U|congruence]|].
    split; [rewrite Hct; case_bool; [exact Hci|done]|].
    unfold fs_resolve_path. rewrite (resolve_path_walk st' _ path cur).
    + rewrite (same_shape_walk _ _ _ _ O2), (same_shape_walk st1 (set_dirty st1)) by (by split).
      rewrite (resolve_parent_walk st path cur Hs) in Epar.
      exact (created_resolves st st1 r p i nm FS_NODE_FILE (wf_tree _ _ Hwf) HC Lp Dp cur _ Lc Epar).
    + rewrite (ss_root _ _ O2), (ss_cwd _ _ O2). cbn.
      destruct (cr_frame _ _ _ _ _ _ HC) as (-> & -> & _). done.
  - intros j Lj. rewrite O3; [by apply K1| |].
    + by apply (created_neq st st1 p i nm FS_NODE_FILE HC).
    + unfold live. rewrite node_at_dirty.
      apply (proj1 (created_old st st1 p i nm FS_NODE_FILE HC j Lj)).
Qed.

(** ** Unlinking *)

(** Taking the leaf [n] out of its parent and clearing its node. *)
Lemma removed_put st st1 p n l1 l2 :
  length (g_nodes st) = 64%nat -> live st n -> live st p -> p <> n ->
  kids (node_at st p) = l1 ++ n :: l2 ->
  length (g_nodes st1) = 64%nat -> g_root st1 = g_root st -> g_cwd st1 = g_cwd st ->
  (forall j, node_at st1 j = node_at (put_node st p (set_kids (node_at st p) (l1 ++ l2))) j) ->
  removed st (set_dirty (put_node st1 n zero_node)) p n.
Proof.
  intros Hl Ln Lp Hpn Hk Hl1 E1 E2 E3.
  pose proof (live_lt st n Hl Ln). pose proof (live_lt st p Hl Lp).
  assert (forall j, node_at (set_dirty (put_node st1 n zero_node)) j =
    if decide (j = n) then zero_node else
    if decide (j = p) then set_kids (node_at st p) (l1 ++ l2) else node_at st j) as Hn.
  { intros j. rewrite node_at_dirty, node_at_put by lia. case_decide; [done|].
    by rewrite E3, node_at_put by lia. }
  split.
  - cbn. rewrite length_insert. lia.
  - done.
  - by rewrite Hn, decide_True.
  - exists l1, l2. split; [done|]. by rewrite Hn, decide_False, decide_True.
  - intros j Hj Hjp. by rewrite Hn, !decide_False.
Qed.

(** [n] is gone; every other node keeps its place and its contents. *)
Record gone (st st' : ramfs) (n : nat) : Prop := {
  gn_dead : ~ live st' n;
  gn_other j : j <> n -> live st j ->
    live st' j /\ type (node_at st' j) = type (node_at st j) /\ name (node_at st' j) = name (node_at st j) /\
    parent (node_at st' j) = parent (node_at st j) /\ content st' j = content st j
}.

Lemma removed_wf st st' r p n :
  wf st r -> removed st st' p n -> live st n -> parent (node_at st n) = Some p ->
  kids (node_at st n) = [] -> n <> r -> g_cwd st <> Some n ->
  g_data_slots st' = (if data_slot (node_at st n) =? RAMFS_NO_DATA_SLOT then g_data_slots st
                      else <[Z.to_nat (data_slot (node_at st n)) := zero_slot]> (g_data_slots st)) ->
  wf st' r /\ gone st st' n.
Proof.
  intros [HT HD] HR Ln Hp Hk Hr Hc Hs.
  assert (~ live st' n) as Hdead by (unfold live; rewrite (rm_node _ _ _ _ HR); tauto).
  destruct (release_data st st' n HD Ln Hs) as [HD' Hcont]; [|done|].
  { intros j Hj. destruct (decide (j = p)) as [->|Hjp].
    - destruct (rm_parent _ _ _ _ HR) as (l1 & l2 & _ & ->). done.
    - rewrite (rm_other _ _ _ _ HR) by done. by repeat split. }
  split; [split; [by eapply removed_tree|done]|]. split; [done|].
  intros j Hj Lj. destruct (removed_old st st' p n HR j Lj Hj) as (L & -> & -> & -> & _).
  by rewrite Hcont.
Qed.

Lemma cwd_not_file st r n : tree st r -> type (node_at st n) = FS_NODE_FILE -> g_cwd st <> Some n.
Proof.
  intros HT Tn E. destruct (tr_cwd _ _ HT) as (c & Hc & _ & Dc). simplify_eq.
  by rewrite Tn in Dc.
Qed.

Lemma unlink_spec st r path :
  wf st r ->
  let '(rc, st') := ramfs_core_unlink st path in
  match fs_resolve_path st path with
  | (_, Some n) =>
      if type (node_at st n) =? FS_NODE_FILE then rc = FS_OK /\ wf st' r /\ gone st st' n
      else rc = FS_ERR_IS_DIR /\ st' = st
  | (e, None) => rc = e /\ st' = st
  end.
Proof.
  intros Hwf. unfold ramfs_core_unlink. pose proof (resolve_spec st r path Hwf) as Hr.
  destruct (fs_resolve_path st path) as [rc [n|]]; [|done]. destruct Hr as [-> Ln].
  cbn [negb Z.eqb FS_OK]. pose proof Hwf as [HT HD].
  destruct (tr_type _ _ HT n Ln) as [Dn|[Fn Kn]].
  { rewrite Dn. rewrite orb_true_r. done. }
  rewrite Fn. rewrite (tr_root _ _ HT). assert (n <> r) as Hnr.
  { intros ->. destruct (tr_root_dir _ _ HT) as (_ & D & _). by rewrite Fn in D. }
  rewrite bool_decide_eq_false_2 by congruence. cbn [orb Z.eqb FS_NODE_FILE FS_NODE_DIR Pos.eqb].
  destruct (tr_child _ _ HT n Ln Hnr) as [(p & Pn & Lp & Dp & Hin) _]. rewrite Pn, Dp.
  cbn [negb Z.eqb FS_NODE_DIR Pos.eqb].
  assert (p <> n) as Hpn by (intros ->; by rewrite Fn in Dp).
  destruct (remove_kid_in _ _ Hin) as [ks Eks]. rewrite Eks.
  destruct (remove_kid_spec _ _ _ Eks) as (l1 & l2 & El & ->). split; [done|].
  pose proof (tr_len _ _ HT) as Hlen. pose proof (live_lt st p Hlen Lp) as Hpl.
  assert (node_at (put_node st p (set_kids (node_at st p) (l1 ++ l2))) n = node_at st n) as ->.
  { rewrite node_at_put by lia. by rewrite decide_False. }
  set (st1 := if negb _ then _ else _).
  apply (removed_wf st _ r p n); try done; [| by apply (cwd_not_file st r)|].
  - apply (removed_put st st1 p n l1 l2); try done; unfold st1, ramfs_free_data_slot; repeat case_bool;
      cbn; rewrite ?length_insert; done.
  - cbn. unfold st1. destruct (Z.eqb_spec (data_slot (node_at st n)) RAMFS_NO_DATA_SLOT) as [E|E]; [done|].
    destruct (slot_of_live st n _ HD Ln eq_refl E) as (_ & Hr & _). cbn [negb].
    by rewrite free_slot_range by lia.
Qed.

Lemma rmdir_spec st r path :
  wf st r ->
  let '(rc, st') := ramfs_core_rmdir st path in
  match fs_resolve_path st path with
  | (_, Some n) =>
      if bool_decide (n = r) || bool_decide (g_cwd st = Some n) || (type (node_at st n) =? FS_NODE_FILE)
      then rc = FS_ERR_INVALID /\ st' = st
      else if (length (kids (node_at st n)) =? 0)%nat then rc = FS_OK /\ wf st' r /\ gone st st' n
      else rc = FS_ERR_NOT_EMPTY /\ st' = st
  | (e, None) => rc = e /\ st' = st
  end.
Proof.
  intros Hwf. unfold ramfs_core_rmdir. pose proof (resolve_spec st r path Hwf) as Hr.
  destruct (fs_resolve_path st path) as [rc [n|]]; [|done]. destruct Hr as [-> Ln].
  cbn [negb Z.eqb FS_OK]. pose proof Hwf as [HT HD]. rewrite (tr_root _ _ HT).
  assert (negb (type (node_at st n) =? FS_NODE_DIR) = (type (node_at st n) =? FS_NODE_FILE)) as ->.
  { destruct (tr_type _ _ HT n Ln) as [->|[-> _]]; done. }
  rewrite (bool_decide_ext (Some n = Some r) (n = r)) by naive_solver.
  rewrite (bool_decide_ext (Some n = g_cwd st) (g_cwd st = Some n)) by naive_solver.
  destruct (bool_decide_reflect (n = r)) as [|Hnr]; [done|].
  destruct (bool_decide_reflect (g_cwd st = Some n)) as [|Hnc]; [done|].
  destruct (Z.eqb_spec (type (node_at st n)) FS_NODE_FILE) as [|Tn]; [done|]. cbn [orb].
  destruct (Nat.eqb_spec (length (kids (node_at st n))) 0) as [Hk|Hk]; cbn [negb]; [|done].
  apply nil_length_inv in Hk.
  destruct (tr_child _ _ HT n Ln Hnr) as [(p & Pn & Lp & Dp & Hin) _]. rewrite Pn.
  assert (p <> n) as Hpn by (intros ->; rewrite Hk in Hin; set_solver).
  destruct (remove_kid_in _ _ Hin) as [ks Eks]. rewrite Eks.
  destruct (remove_kid_spec _ _ _ Eks) as (l1 & l2 & El & ->). split; [done|].
  apply (removed_wf st _ r p n); try done.
  - apply (removed_put st _ p n l1 l2); try done; [apply HT|].
    rewrite length_put. apply HT.
  - by rewrite (dk_dir _ HD n Ln Tn).
Qed.

End RamfsOps.
