(* ===== verification/RamfsProps.v ===== *)
(** * The promises of RAMFS

    The invariant over every sequence of operations, files as byte sequences for
    reading and writing, creation, removal and path resolution, and what happens
    to an identifier whose node is reused. *)

From S2P Require Import Prelude FsTypes Ramfs RamfsTree RamfsPath RamfsData RamfsOps.
From stdpp Require Import base list option sets list_numbers.
From Stdlib Require Import ZArith Lia ZifyBool.
Open Scope Z_scope.

Module RamfsProps.
Import FsTypes Ramfs RamfsTree RamfsPath RamfsData RamfsOps.

(** ** Sequences of operations *)

Inductive fs_op :=
| OpMakeDir (path : list Z)
| OpImport (path : list Z) (ty : Z)
| OpChangeDir (path : list Z)
| OpOpen (path : list Z) (flags : Z)
| OpWrite (node_id offset : Z) (bytes : list Z)
| OpUnlink (path : list Z)
| OpRmdir (path : list Z)
| OpClearDirty.

Definition fs_step (st : ramfs) (o : fs_op) : ramfs :=
  match o with
  | OpMakeDir p => (ramfs_core_make_dir st p).2
  | OpImport p ty => (ramfs_core_import_node st p ty).2
  | OpChangeDir p => (ramfs_core_change_dir st p).2
  | OpOpen p flags => (ramfs_core_open st p flags).2
  | OpWrite id off bytes => (ramfs_core_write st id off bytes).2
  | OpUnlink p => (ramfs_core_unlink st p).2
  | OpRmdir p => (ramfs_core_rmdir st p).2
  | OpClearDirty => ramfs_core_clear_dirty st
  end.

(** Arguments of C types: strings end at the first NUL, offsets are unsigned, and
    [ramfs_core_import_node] is called for directories and files. *)
Definition op_ok (o : fs_op) : Prop :=
  match o with
  | OpMakeDir p | OpOpen p _ => cstring p
  | OpImport p ty => cstring p /\ (ty = FS_NODE_DIR \/ ty = FS_NODE_FILE)
  | OpWrite _ off _ => 0 <= off
  | _ => True
  end.

Lemma write_wf st r id off bytes : wf st r -> 0 <= off -> wf (ramfs_core_write st id off bytes).2 r.
Proof.
  intros Hwf Ho. destruct (fs_node_from_id st id) as [n|] eqn:E.
  - pose proof (node_from_id_spec st id n (tr_len _ _ (wf_tree _ _ Hwf)) E) as Ln.
    destruct (decide (type (node_at st n) = FS_NODE_FILE)) as [Tn|Tn].
    + pose proof (write_spec st r id n off bytes Hwf E (conj Ln Tn) Ho) as Hw.
      destruct (ramfs_core_write st id off bytes) as [[rc w] st'].
      destruct Hw as [(_ & _ & H & _)|(_ & _ & -> & _)]; done.
    + unfold ramfs_core_write. rewrite E. by destruct (Z.eqb_spec (type (node_at st n)) FS_NODE_FILE).
  - unfold ramfs_core_write. by rewrite E.
Qed.

Lemma unlink_wf st r path : wf st r -> wf (ramfs_core_unlink st path).2 r.
Proof.
  intros Hwf. pose proof (unlink_spec st r path Hwf) as H.
  destruct (ramfs_core_unlink st path) as [rc st']. destruct (fs_resolve_path st path) as [e [n|]].
  - case_bool; destruct H as [_ H]; [by destruct H|by subst].
  - by destruct H as [_ ->].
Qed.

Lemma rmdir_wf st r path : wf st r -> wf (ramfs_core_rmdir st path).2 r.
Proof.
  intros Hwf. pose proof (rmdir_spec st r path Hwf) as H.
  destruct (ramfs_core_rmdir st path) as [rc st']. destruct (fs_resolve_path st path) as [e [n|]].
  - repeat case_bool; destruct H as [_ H]; [by subst|by destruct H|by subst].
  - by destruct H as [_ ->].
Qed.

Lemma fs_step_wf st r o : wf st r -> op_ok o -> wf (fs_step st o) r.
Proof.
  intros Hwf Ho. destruct o as [p|p ty|p|p flags|id off bytes|p|p|]; simpl in *.
  - pose proof (make_dir_wf st r p Hwf Ho) as H. by destruct (ramfs_core_make_dir st p) as [? ?]; destruct H.
  - pose proof (import_wf st r p ty Hwf (proj1 Ho) (proj2 Ho)) as H.
    by destruct (ramfs_core_import_node st p ty) as [? ?]; destruct H.
  - pose proof (change_dir_wf st r p Hwf) as H. by destruct (ramfs_core_change_dir st p) as [? ?]; destruct H.
  - pose proof (open_spec st r p flags Hwf Ho) as H.
    by destruct (ramfs_core_open st p flags) as [[? ?] ?]; destruct H.
  - by apply write_wf.
  - by apply unlink_wf.
  - by apply rmdir_wf.
  - destruct Hwf as [HT HD]. split; [by apply (same_shape_tree st)|by destruct HD].
Qed.

(** ** The empty file system *)

Lemma node_at_replicate k j st :
  g_nodes st = replicate k zero_node -> node_at st j = zero_node.
Proof.
  intros E. unfold node_at. rewrite E. destruct (replicate k zero_node !! j) as [x|] eqn:Ex; [|done].
  apply lookup_replicate in Ex as [-> _]. done.
Qed.

Lemma reset_node st j :
  node_at (ramfs_core_reset_empty st).2 j =
    if decide (j = 0%nat) then Node 1 FS_NODE_DIR [] None [] RAMFS_NO_DATA_SLOT 0 else zero_node.
Proof. destruct j as [|j]; [done|]. do 64 (destruct j as [|j]; [done|]). done. Qed.

Lemma reset_wf st : wf (ramfs_core_reset_empty st).2 0.
Proof.
  set (s0 := (ramfs_core_reset_empty st).2).
  assert (forall j, live s0 j -> j = 0%nat) as Hl.
  { intros j. unfold live, s0. rewrite reset_node. by case_decide. }
  assert (node_at s0 0 = Node 1 FS_NODE_DIR [] None [] RAMFS_NO_DATA_SLOT 0) as E0 by (unfold s0; by rewrite reset_node).
  assert (live s0 0) as L0 by (unfold live; by rewrite E0).
  assert (forall s, slot_used (slot_at s0 s) = 0) as Hsl.
  { intros s. unfold slot_at. destruct (g_data_slots s0 !! Z.to_nat s) as [x|] eqn:E; [|done].
    change (g_data_slots s0) with (replicate 4 zero_slot) in E. apply lookup_replicate in E as [-> _]. done. }
  split; split.
  - done.
  - done.
  - rewrite E0. done.
  - exists 0%nat. rewrite E0. done.
  - intros i ->%Hl. rewrite E0. by left.
  - intros i ->%Hl. done.
  - intros i ->%Hl _. split; rewrite E0; cbn; [constructor|constructor|done|done].
  - exists (fun _ => 0%nat). intros i p ->%Hl. by rewrite E0.
  - done.
  - by repeat constructor.
  - intros i ->%Hl. by rewrite E0.
  - intros i ->%Hl. by rewrite E0.
  - intros i j ->%Hl ->%Hl. done.
  - intros s _ []. apply Hsl.
Qed.

Definition empty_fs : ramfs := (ramfs_core_reset_empty ramfs_boot).2.

(** ** Theorems *)

(** C2: the file system is always well formed.  After [ramfs_core_reset_empty] and
    any sequence of operations, the live nodes form a tree under the root with
    consistent parent and child links and names of which none hides another, the
    working directory is a live directory, every data slot in use belongs to
    exactly one file, and every file fits in its slot with zeros behind its end. *)
Theorem ramfs_always_well_formed st ops :
  Forall op_ok ops -> wf (foldl fs_step (ramfs_core_reset_empty st).2 ops) 0.
Proof.
  intros Hops. assert (wf (ramfs_core_reset_empty st).2 0) as Hwf by apply reset_wf.
  revert Hwf. generalize ((ramfs_core_reset_empty st).2) as s.
  induction Hops as [|o ops Ho _ IH]; intros s Hwf; [done|]. simpl. apply IH. by apply fs_step_wf.
Qed.

(** "/d", "/d/f" with three bytes, and back. *)
Definition demo_ops : list fs_op :=
  [OpMakeDir [47; 100]; OpOpen [47; 100; 47; 102] FS_O_CREAT; OpWrite 3 2 [7; 8; 9];
   OpUnlink [47; 100; 47; 102]; OpRmdir [47; 100]].

Lemma demo_ops_ok : Forall op_ok demo_ops.
Proof. repeat constructor; done. Qed.

Lemma ramfs_always_well_formed_witness : wf (foldl fs_step empty_fs demo_ops) 0.
Proof. apply (ramfs_always_well_formed ramfs_boot demo_ops). exact demo_ops_ok. Defined.

(** C30: files are byte sequences.  A write of [bytes] at [offset] to a file either
    succeeds completely or changes nothing: it fails only when it would pass 4096
    bytes or the file has no slot and none is free.  After a successful write every
    read returns the part of the old contents with [bytes] put at [offset] (a gap
    reads as zeros) that it asks for, and no other file has changed. *)
Theorem ramfs_write_then_read st r id n offset bytes :
  wf st r -> fs_node_from_id st id = Some n -> is_file st n -> 0 <= offset ->
  let '(rc, written, st') := ramfs_core_write st id offset bytes in
  (rc = FS_OK /\ written = Z.of_nat (length bytes) /\
   (forall o cap, 0 <= o -> 0 <= cap ->
      let new := if (length bytes =? 0)%nat then content st n
                 else splice (content st n) (Z.to_nat offset) bytes in
      let part := take (Z.to_nat cap) (drop (Z.to_nat o) new) in
      ramfs_core_read st' id o cap = (FS_OK, Z.of_nat (length part), part)) /\
   forall j, j <> n -> live st j -> content st' j = content st j) \/
  (rc = FS_ERR_NO_SPACE /\ st' = st /\
   (RAMFS_DATA_SLOT_SIZE < offset + Z.of_nat (length bytes) \/
    content st n = [] /\ Forall (fun s => slot_used s <> 0) (g_data_slots st))).
Proof.
  intros Hwf Hid Hf Ho. pose proof (write_spec st r id n offset bytes Hwf Hid Hf Ho) as Hw.
  destruct (ramfs_core_write st id offset bytes) as [[rc w] st'].
  destruct Hw as [(-> & -> & Hwf' & Hsh & Hc & Hfr)|(-> & -> & -> & H)]; [left|by right].
  split; [done|]. split; [done|]. split; [|done]. intros o cap Hoo Hcap new part.
  destruct Hf as [Ln Tn]. destruct (ss_node _ _ Hsh n) as (U & T & _).
  unfold part, new. rewrite <- Hc. apply (read_spec st' id n); try done; [apply Hwf'| | |congruence].
  - revert Hid. unfold fs_node_from_id. repeat case_bool; try done; intros [= <-];
      rewrite U in *; congruence.
  - unfold live. by rewrite U.
Qed.

Definition demo_file : ramfs := foldl fs_step empty_fs (take 2 demo_ops).

Lemma demo_file_wf : wf demo_file 0.
Proof.
  assert (Forall op_ok (take 2 demo_ops)) as H by (apply Forall_take, demo_ops_ok).
  unfold demo_file. revert H. generalize (take 2 demo_ops) as l. assert (wf empty_fs 0) as Hwf by apply reset_wf.
  revert Hwf. generalize empty_fs as s. intros s Hwf l H. revert s Hwf.
  induction H as [|o l Ho _ IH]; intros s Hwf; [done|]. simpl. apply IH. by apply fs_step_wf.
Qed.

(** Three bytes at offset 2 of an empty file, all read back. *)
Lemma ramfs_write_then_read_witness :
  ramfs_core_read (ramfs_core_write demo_file 3 2 [7; 8; 9]).2 3 0 10 = (FS_OK, 5, [0; 0; 7; 8; 9]).
Proof.
  assert ((ramfs_core_write demo_file 3 2 [7; 8; 9]).1.1 = FS_OK) as Hok by (vm_compute; reflexivity).
  pose proof (ramfs_write_then_read demo_file 0 3 2 2 [7; 8; 9]) as H.
  destruct (ramfs_core_write demo_file 3 2 [7; 8; 9]) as [[rc w] st']. cbn [fst] in Hok.
  destruct H as [(_ & _ & H & _)|(Hrc & _)].
  - exact demo_file_wf.
  - vm_compute. reflexivity.
  - split; vm_compute; [discriminate|reflexivity].
  - lia.
  - cbn [snd]. rewrite H by lia. vm_compute. reflexivity.
  - exfalso. rewrite Hok in Hrc. discriminate Hrc.
Defined.

(** Opening with [FS_O_CREAT] creates what the path then names.  If the path
    is not found, a successful [ramfs_core_open] makes a new empty file in a node
    that was free, the path resolves to it afterwards, the identifier returned is
    its own, and all other files keep their contents; if the path names a file, that
    file is opened, emptied exactly when [FS_O_TRUNC] is given. *)
Theorem ramfs_open_creates st r path flags :
  wf st r -> cstring path ->
  let '(rc, id, st') := ramfs_core_open st path flags in
  rc = FS_OK ->
  (exists n, fs_resolve_path st path = (FS_OK, Some n) /\ id = fs_node_id (Some n) /\ is_file st' n /\
     content st' n = (if Z.land flags FS_O_TRUNC =? 0 then content st n else []) /\
     forall j, j <> n -> live st j -> content st' j = content st j) \/
  (fs_resolve_path st path = (FS_ERR_NOT_FOUND, None) /\ Z.land flags FS_O_CREAT <> 0 /\
     opens_new st st' path id /\ keeps st st').
Proof.
  intros Hwf Hp. pose proof (open_spec st r path flags Hwf Hp) as H.
  destruct (ramfs_core_open st path flags) as [[rc id] st']. by destruct H.
Qed.

Lemma ramfs_open_creates_witness :
  opens_new empty_fs (ramfs_core_open empty_fs [47; 120] FS_O_CREAT).2 [47; 120] 2.
Proof.
  assert ((ramfs_core_open empty_fs [47; 120] FS_O_CREAT).1 = (FS_OK, 2)) as E by (vm_compute; reflexivity).
  pose proof (ramfs_open_creates empty_fs 0 [47; 120] FS_O_CREAT) as H.
  destruct (ramfs_core_open empty_fs [47; 120] FS_O_CREAT) as [[rc id] st'].
  cbn [fst] in E. injection E as -> ->.
  destruct H as [(n & Hn & _)|(_ & _ & H & _)].
  - apply reset_wf.
  - repeat constructor; done.
  - reflexivity.
  - exfalso. revert Hn. vm_compute. discriminate.
  - exact H.
Defined.

(** [ramfs_core_unlink] removes exactly the named file.  A path that names a
    file is always removed: its node is free afterwards, the data slot is given
    back, and every other node keeps its name, its parent and its contents; a
    directory gives [FS_ERR_IS_DIR], an unresolved path its error, both with no
    change. *)
Theorem ramfs_unlink_removes st r path :
  wf st r ->
  let '(rc, st') := ramfs_core_unlink st path in
  match fs_resolve_path st path with
  | (_, Some n) =>
      if type (node_at st n) =? FS_NODE_FILE then rc = FS_OK /\ wf st' r /\ gone st st' n
      else rc = FS_ERR_IS_DIR /\ st' = st
  | (e, None) => rc = e /\ st' = st
  end.
Proof. apply unlink_spec. Qed.

Lemma ramfs_unlink_removes_witness :
  (ramfs_core_unlink demo_file [47; 100; 47; 102]).1 = FS_OK /\
  gone demo_file (ramfs_core_unlink demo_file [47; 100; 47; 102]).2 2.
Proof.
  pose proof (ramfs_unlink_removes demo_file 0 [47; 100; 47; 102] demo_file_wf) as H.
  destruct (ramfs_core_unlink demo_file [47; 100; 47; 102]) as [rc st'].
  assert (fs_resolve_path demo_file [47; 100; 47; 102] = (FS_OK, Some 2%nat)) as E by (vm_compute; reflexivity).
  rewrite E in H. assert ((type (node_at demo_file 2) =? FS_NODE_FILE) = true) as E2 by (vm_compute; reflexivity).
  rewrite E2 in H. destruct H as (H1 & _ & H2). split; [exact H1|exact H2].
Defined.

(** [ramfs_core_rmdir] removes only empty directories, never the root or the
    working directory, and leaves everything else in place. *)
Theorem ramfs_rmdir_removes st r path :
  wf st r ->
  let '(rc, st') := ramfs_core_rmdir st path in
  match fs_resolve_path st path with
  | (_, Some n) =>
      if bool_decide (n = r) || bool_decide (g_cwd st = Some n) || (type (node_at st n) =? FS_NODE_FILE)
      then rc = FS_ERR_INVALID /\ st' = st
      else if (length (kids (node_at st n)) =? 0)%nat then rc = FS_OK /\ wf st' r /\ gone st st' n
      else rc = FS_ERR_NOT_EMPTY /\ st' = st
  | (e, None) => rc = e /\ st' = st
  end.
Proof. apply rmdir_spec. Qed.

Lemma ramfs_rmdir_removes_witness : (ramfs_core_rmdir demo_file [47; 100]).1 = FS_ERR_NOT_EMPTY.
Proof.
  pose proof (ramfs_rmdir_removes demo_file 0 [47; 100] demo_file_wf) as H.
  destruct (ramfs_core_rmdir demo_file [47; 100]) as [rc st'].
  assert (fs_resolve_path demo_file [47; 100] = (FS_OK, Some 1%nat)) as E by (vm_compute; reflexivity).
  rewrite E in H. revert H. vm_compute (bool_decide _). vm_compute (length _ =? 0)%nat.
  vm_compute (type _ =? _). cbn [orb]. intros [H _]. exact H.
Defined.

(** Path resolution is the walk along the components.  From a given start,
    [fs_resolve_path_from] returns what following the non-empty components one by
    one gives ("." stays, ".." goes up and stays at the root, a component of 24
    characters or more is invalid); the parsing loop ends within its bound. *)
Theorem ramfs_resolve_is_walk st start path cur :
  (if char_at path 0 =? slash then g_root st else start) = Some cur ->
  fs_resolve_path_from st start path = walk st cur (components path) /\
  is_Some (resolve_loop (S (length path)) st cur path).
Proof.
  intros H. split; [by apply resolve_path_walk|]. rewrite resolve_loop_walk by lia. by eexists.
Qed.

(** "//d/./../d//f" *)
Lemma ramfs_resolve_is_walk_witness :
  fs_resolve_path_from demo_file None [47; 47; 100; 47; 46; 47; 46; 46; 47; 100; 47; 47; 102] =
    (FS_OK, Some 2%nat).
Proof.
  destruct (ramfs_resolve_is_walk demo_file None
    [47; 47; 100; 47; 46; 47; 46; 46; 47; 100; 47; 47; 102] 0) as [H _].
  - vm_compute. reflexivity.
  - rewrite H. vm_compute. reflexivity.
Defined.

(** An identifier outlives its file.  [ramfs_core_unlink] frees the node of a
    file that is still open, and the next creation reuses it: the identifier
    obtained for "/a" then reads, and would overwrite, the contents of "/b". *)
Theorem ramfs_unlinked_id_reads_other_file :
  let create st p := ramfs_core_open st p (Z.lor FS_O_CREAT FS_O_RDWR) in
  let '(_, id_a, st1) := create empty_fs [47; 97] in
  let '(_, st2) := ramfs_core_unlink st1 [47; 97] in
  let '(_, id_b, st3) := create st2 [47; 98] in
  let '(_, _, st4) := ramfs_core_write st3 id_b 0 [115; 101; 99] in
  id_a = id_b /\ ramfs_core_read st4 id_a 0 16 = (FS_OK, 3, [115; 101; 99]).
Proof. vm_compute. by split. Qed.

End RamfsProps.
