(* ===== verification/FsPath.v ===== *)
(** * Path strings of the file-system front end

    The string functions of [src/kernel/core/fs/fs_core.c]: [fs_copy_name],
    [fs_streq_local], [fs_core_normalize_path] and [fs_parent_path], and the
    translation of result codes to errno values. *)

From S2P Require Import Prelude FsTypes.
From stdpp Require Import base list option list_numbers.
From Stdlib Require Import ZArith Lia ZifyBool.
Import FsTypes.
Open Scope Z_scope.

Module FsPath.

(** [posix_errno.h], the values [fs_core.c] and [fd_core.c] use. *)
Definition POSIX_OK : Z := 0.
Definition POSIX_ENOENT : Z := 2.
Definition POSIX_EIO : Z := 5.
Definition POSIX_EBADF : Z := 9.
Definition POSIX_EACCES : Z := 13.
Definition POSIX_EEXIST : Z := 17.
Definition POSIX_ENOTDIR : Z := 20.
Definition POSIX_EISDIR : Z := 21.
Definition POSIX_EINVAL : Z := 22.
Definition POSIX_ENOTTY : Z := 25.
Definition POSIX_ENOSPC : Z := 28.
Definition POSIX_EROFS : Z := 30.
Definition POSIX_ENOTEMPTY : Z := 39.

Definition fs_core_to_errno (rc : Z) : Z :=
  if rc =? FS_OK then POSIX_OK
  else if rc =? FS_ERR_NOT_FOUND then POSIX_ENOENT
  else if rc =? FS_ERR_EXISTS then POSIX_EEXIST
  else if rc =? FS_ERR_NOT_DIR then POSIX_ENOTDIR
  else if rc =? FS_ERR_INVALID then POSIX_EINVAL
  else if rc =? FS_ERR_NO_SPACE then POSIX_ENOSPC
  else if rc =? FS_ERR_READ_ONLY then POSIX_EROFS
  else if rc =? FS_ERR_IS_DIR then POSIX_EISDIR
  else if rc =? FS_ERR_NOT_EMPTY then POSIX_ENOTEMPTY
  else POSIX_EIO.

(** The copy loop: at most [cap - 1] characters. *)
Fixpoint copy_name_loop (i cap : Z) (src : list Z) : list Z :=
  match src with
  | [] => []
  | c :: r => if i + 1 <? cap then c :: copy_name_loop (i + 1) cap r else []
  end.

(** The string left in [dst]; nothing is stored when [cap] is 0. *)
Definition fs_copy_name (cap : Z) (src : option (list Z)) : list Z :=
  match src with None => [] | Some src => copy_name_loop 0 cap src end.

Fixpoint fs_streq_local (a b : list Z) : bool :=
  match a, b with
  | x :: a', y :: b' => if x =? y then fs_streq_local a' b' else false
  | [], [] => true
  | _, _ => false
  end.

(** ** [fs_core_normalize_path] *)

(** The loop that copies one component into [comp]; [None] is the return of
    [FS_ERR_INVALID]. *)
Fixpoint take_comp (comp_len : Z) (cursor : list Z) : option (list Z * list Z) :=
  match cursor with
  | [] => Some ([], [])
  | c :: r =>
      if c =? slash then Some ([], cursor)
      else if FS_NAME_CAP <=? comp_len + 1 then None
      else '(comp, rest) ← take_comp (comp_len + 1) r; Some (c :: comp, rest)
  end.

(** [while (len > 1 && temp[len - 1] != '/') --len;] *)
Fixpoint back_to_slash (temp : list Z) (len : nat) : nat :=
  match len with
  | S (S _ as len') =>
      if char_at temp len' =? slash then len else back_to_slash temp len'
  | _ => len
  end.

(** The branch for [..]. *)
Definition drop_component (temp : list Z) : list Z :=
  let len := back_to_slash temp (length temp) in
  take (if (1 <? len)%nat then (len - 1)%nat else len) temp.

(** [if (len + 1 >= FS_PATH_CAP) return FS_ERR_INVALID; temp[len++] = c;] *)
Definition push_char (c : Z) (temp : list Z) : option (list Z) :=
  if FS_PATH_CAP <=? Z.of_nat (length temp) + 1 then None else Some (temp ++ [c]).

(** The separator before a new component. *)
Definition push_separator (temp : list Z) : option (list Z) :=
  if (length temp =? 0)%nat then push_char slash temp
  else if (length temp =? 1)%nat && (char_at temp 0 =? slash) then Some temp
  else push_char slash temp.

Fixpoint push_chars (comp temp : list Z) : option (list Z) :=
  match comp with
  | [] => Some temp
  | c :: r => temp ← push_char c temp; push_chars r temp
  end.

(** The main loop over the components.  The outer [None] is "still running", the
    inner one the return of [FS_ERR_INVALID]. *)
Fixpoint normalize_loop (fuel : nat) (temp cursor : list Z) : option (option (list Z)) :=
  match fuel with
  | O => None
  | S f =>
      match cursor with
      | [] => Some (Some temp)
      | _ =>
          match take_comp 0 cursor with
          | None => Some None
          | Some (comp, rest) =>
              let rest := skip_slashes rest in
              if (length comp =? 0)%nat || fs_streq_local comp dot then normalize_loop f temp rest
              else if fs_streq_local comp dotdot then
                normalize_loop f (drop_component temp) rest
              else match (temp ← push_separator temp; push_chars comp temp) with
                   | None => Some None
                   | Some temp => normalize_loop f temp rest
                   end
          end
      end
  end.

(** The error code, or the string stored in [out].  A null pointer is [None].
    Every turn of the loop consumes a character of [path]. *)
Definition fs_core_normalize_path (cwd path : option (list Z)) (out_cap : Z) : Z + list Z :=
  match path with
  | None | Some [] => inl FS_ERR_INVALID
  | Some path =>
      if out_cap <? 2 then inl FS_ERR_INVALID
      else
        let '(temp, cursor) :=
          if char_at path 0 =? slash then ([], skip_slashes path)
          else (fs_copy_name FS_PATH_CAP
                  (match cwd with None | Some [] => Some [slash] | _ => cwd end), path) in
        match normalize_loop (S (length path)) temp cursor with
        | Some (Some []) => inr [slash]
        | Some (Some temp) =>
            if out_cap <? Z.of_nat (length temp) + 1 then inl FS_ERR_INVALID
            else inr (fs_copy_name out_cap (Some temp))
        | Some None | None => inl FS_ERR_INVALID
        end
  end.

(** ** [fs_parent_path] *)

Definition fs_parent_path (path : list Z) (cap : Z) : Z + list Z :=
  if (cap <? 2) || negb (char_at path 0 =? slash) then inl FS_ERR_INVALID
  else if (length path <=? 1)%nat then inr [slash]
  else
    let cut := back_to_slash path (length path) in
    if (cut <=? 1)%nat then inr [slash]
    else
      let cut := (cut - 1)%nat in
      if cap <? Z.of_nat cut + 1 then inl FS_ERR_NO_SPACE else inr (take cut path).

End FsPath.

(** * Normalised paths

    The function [fs_core_normalize_path] computes on strings is a fold over the
    components of its argument: [resolve_dots].  Its results are canonical paths,
    and a canonical path is the rendering of its list of components. *)

Import FsTypes FsPath.

Module FsPathProps.

(** ** The abstract view of a path *)

(** A component that can stand in a canonical path. *)
Definition good_comp (c : list Z) : Prop :=
  c <> [] /\ Forall (fun ch => ch <> slash) c /\ c <> dot /\ c <> dotdot /\
  Z.of_nat (length c) < FS_NAME_CAP.

Definition joined (cs : list (list Z)) : list Z := concat (cons slash <$> cs).
Definition render (cs : list (list Z)) : list Z :=
  match cs with [] => [slash] | _ => joined cs end.

(** The components of a canonical path: each is legal and the string fits. *)
Definition canonical (cs : list (list Z)) : Prop :=
  Forall good_comp cs /\ Z.of_nat (length (render cs)) < FS_PATH_CAP.

(** [cs] followed by the components [ps], [.] and [..] removed; [None] when a
    component is too long or the path does not fit. *)
Fixpoint resolve_dots (cs ps : list (list Z)) : option (list (list Z)) :=
  match ps with
  | [] => Some cs
  | p :: ps' =>
      if FS_NAME_CAP <=? Z.of_nat (length p) then None
      else if bool_decide (p = dot) then resolve_dots cs ps'
      else if bool_decide (p = dotdot) then resolve_dots (removelast cs) ps'
      else if FS_PATH_CAP <=? Z.of_nat (length (render (cs ++ [p]))) then None
      else resolve_dots (cs ++ [p]) ps'
  end.

(** The whole function, on components. *)
Definition normalized (cs : list (list Z)) (path : list Z) : option (list (list Z)) :=
  resolve_dots (if char_at path 0 =? slash then [] else cs) (components path).

(** ** Joining *)

Lemma joined_app cs ds : joined (cs ++ ds) = joined cs ++ joined ds.
Proof. unfold joined. by rewrite fmap_app, concat_app. Qed.

Lemma joined_snoc cs c : joined (cs ++ [c]) = joined cs ++ slash :: c.
Proof. rewrite joined_app. unfold joined at 2. simpl. by rewrite app_nil_r. Qed.

Lemma render_snoc cs c : render (cs ++ [c]) = joined cs ++ slash :: c.
Proof. rewrite <- joined_snoc. by destruct cs. Qed.

Lemma render_joined cs : cs <> [] -> render cs = joined cs.
Proof. by destruct cs. Qed.

Lemma joined_length_cons cs : cs <> [] -> (1 <= length (joined cs))%nat.
Proof. destruct cs; [done|]. intros _. unfold joined. simpl. lia. Qed.

Lemma joined_length cs : Forall good_comp cs -> cs <> [] -> (2 <= length (joined cs))%nat.
Proof.
  intros H Hne. destruct cs as [|c cs]; [done|].
  apply Forall_cons in H as [(Hc & _) _]. unfold joined. simpl. destruct c; simpl; [done|lia].
Qed.

Lemma render_nonempty cs : exists r, render cs = slash :: r.
Proof. destruct cs as [|c cs]; [by exists []|]. unfold render, joined. simpl. by eexists. Qed.

(** ** The string operations on rendered paths *)

Lemma fs_streq_local_eq a b : fs_streq_local a b = bool_decide (a = b).
Proof.
  revert b. induction a as [|x a IH]; intros [|y b]; simpl; try done.
  destruct (Z.eqb_spec x y) as [->|Hne].
  - rewrite IH. apply bool_decide_ext. split; [by intros ->|by intros [= ->]].
  - symmetry. apply bool_decide_eq_false. congruence.
Qed.

Lemma copy_name_loop_short i cap src :
  i + Z.of_nat (length src) < cap -> copy_name_loop i cap src = src.
Proof.
  revert i. induction src as [|c src IH]; intros i H; simpl in *; [done|].
  case_bool; [|blia]. rewrite IH; [done|lia].
Qed.

Lemma take_comp_span n p :
  0 <= n -> n < FS_NAME_CAP ->
  take_comp n p = (if FS_NAME_CAP <=? n + Z.of_nat (length (span p).1) then None else Some (span p)).
Proof.
  revert n. induction p as [|c p IH]; intros n H0 Hn; simpl.
  - case_bool; [blia|done].
  - destruct (c =? slash); simpl; [case_bool; [blia|done]|].
    destruct (span p) as [s rest] eqn:Hs. simpl in *.
    case_bool.
    + case_bool; [done|blia].
    + rewrite IH by blia. repeat case_bool; try blia; done.
Qed.

(** Going back over a component without slashes. *)
Lemma back_to_slash_app a c k :
  Forall (fun ch => ch <> slash) c -> (k <= length c)%nat ->
  back_to_slash (a ++ slash :: c) (S (length a + k)) = S (length a).
Proof.
  intros Hc. induction k as [|k IH]; intros Hk.
  - rewrite Nat.add_0_r. destruct a as [|x a]; [done|]. simpl length.
    cbn [back_to_slash].
    unfold char_at. rewrite lookup_app_r by (simpl; lia). simpl.
    by rewrite Nat.sub_diag.
  - replace (S (length a + S k)) with (S (S (length a + k))) by lia. cbn [back_to_slash].
    unfold char_at. rewrite lookup_app_r by lia.
    replace (S (length a + k) - length a)%nat with (S k) by lia.
    change ((slash :: c) !! S k) with (c !! k).
    destruct (lookup_lt_is_Some_2 c k) as [x Hx]; [lia|]. rewrite Hx. simpl.
    rewrite Forall_lookup in Hc. specialize (Hc _ _ Hx).
    rewrite (proj2 (Z.eqb_neq x slash) Hc). apply IH. lia.
Qed.

Lemma back_to_slash_last a c :
  Forall (fun ch => ch <> slash) c ->
  back_to_slash (a ++ slash :: c) (length (a ++ slash :: c)) = S (length a).
Proof.
  intros Hc. rewrite <- (back_to_slash_app a c (length c)) by (done || lia).
  f_equal. rewrite length_app. simpl. lia.
Qed.

Lemma drop_component_last a c :
  Forall (fun ch => ch <> slash) c ->
  drop_component (a ++ slash :: c) = match a with [] => [slash] | _ => a end.
Proof.
  intros Hc. unfold drop_component. rewrite back_to_slash_last by done.
  destruct a as [|x a]; [done|].
  assert ((1 <? S (length (x :: a)))%nat = true) as -> by (apply Nat.ltb_lt; simpl; lia).
  apply take_app_length'. simpl; lia.
Qed.

(** [temp] represents [cs]: it is its rendering, or empty before the first push. *)
Definition represents (temp : list Z) (cs : list (list Z)) : Prop :=
  temp = joined cs \/ temp = render cs.

Lemma drop_component_represents temp cs :
  Forall good_comp cs -> represents temp cs -> represents (drop_component temp) (removelast cs).
Proof.
  intros Hg Hr. destruct cs as [|c cs _] using rev_ind.
  { destruct Hr as [->| ->]; [by left|by right]. }
  assert (temp = joined cs ++ slash :: c) as ->.
  { destruct Hr as [->| ->]; [apply joined_snoc|apply render_snoc]. }
  rewrite removelast_last. apply Forall_app in Hg as [_ [Hg _]%Forall_cons].
  rewrite drop_component_last by apply Hg.
  destruct cs as [|d cs]; [by right|]. by left.
Qed.

Lemma push_chars_spec comp temp :
  Z.of_nat (length temp) < FS_PATH_CAP ->
  push_chars comp temp =
    (if FS_PATH_CAP <=? Z.of_nat (length (temp ++ comp)) then None else Some (temp ++ comp)).
Proof.
  revert temp. induction comp as [|c comp IH]; intros temp Hl; simpl.
  - rewrite app_nil_r. case_bool; [blia|done].
  - unfold push_char. rewrite length_app. simpl length. case_bool; simpl.
    + case_bool; [done|blia].
    + rewrite IH by (rewrite length_app; simpl; blia). rewrite <- app_assoc, !length_app.
      cbn [length app]. repeat case_bool; try blia; done.
Qed.

Lemma push_separator_spec temp cs :
  Forall good_comp cs -> represents temp cs ->
  push_separator temp =
    (if FS_PATH_CAP <=? Z.of_nat (length (joined cs ++ [slash])) then None
     else Some (joined cs ++ [slash])).
Proof.
  intros Hg Hr. destruct (decide (cs = [])) as [->|Hne].
  - by destruct Hr as [->| ->].
  - assert (temp = joined cs) as ->.
    { destruct Hr as [->| ->]; [done|by apply render_joined]. }
    pose proof (joined_length cs Hg Hne) as H2. unfold push_separator.
    destruct (length (joined cs)) as [|[|n]] eqn:Hl; [lia|lia|]. simpl.
    unfold push_char. rewrite length_app, Hl. simpl length. repeat case_bool; try blia; done.
Qed.

Lemma push_component_spec temp cs c :
  Forall good_comp cs -> represents temp cs ->
  (temp ← push_separator temp; push_chars c temp) =
    (if FS_PATH_CAP <=? Z.of_nat (length (render (cs ++ [c]))) then None
     else Some (render (cs ++ [c]))).
Proof.
  intros Hg Hr. rewrite (push_separator_spec temp cs Hg Hr), render_snoc.
  case_bool; simpl.
  - rewrite length_app in *. simpl in *. case_bool; [done|blia].
  - rewrite push_chars_spec by blia. by rewrite <- app_assoc.
Qed.

(** ** The loop *)

Lemma normalize_loop_resolve fuel temp cs cursor :
  (length cursor < fuel)%nat -> Forall good_comp cs -> represents temp cs ->
  match normalize_loop fuel temp cursor, resolve_dots cs (components cursor) with
  | Some None, None => True
  | Some (Some t), Some ds => Forall good_comp ds /\ represents t ds
  | _, _ => False
  end.
Proof.
  revert temp cs cursor. induction fuel as [|f IH]; intros temp cs cursor Hf Hg Hr; [lia|].
  cbn [normalize_loop]. destruct cursor as [|ch cur]; [done|].
  rewrite take_comp_span by (unfold FS_NAME_CAP; lia). rewrite Z.add_0_l.
  destruct (Z.eqb_spec ch slash) as [->|Hch].
  { change (span (slash :: cur)) with (@nil Z, slash :: cur).
    cbn -[normalize_loop components skip_slashes FS_NAME_CAP].
    change (FS_NAME_CAP <=? 0) with false. cbn [orb].
    rewrite <- (components_skip (slash :: cur)). apply IH; [|done..].
    pose proof (skip_slashes_length cur) as Hl. simpl in *. lia. }
  pose proof (span_nonempty ch cur Hch) as Hne. pose proof (span_app (ch :: cur)) as Happ.
  pose proof (span_no_slash (ch :: cur)) as Hns.
  rewrite (components_span (ch :: cur)) by done.
  destruct (span (ch :: cur)) as [s rest]. cbn [fst snd] in *. cbn [resolve_dots].
  destruct (Z.leb_spec FS_NAME_CAP (Z.of_nat (length s))) as [|Hs]; [done|].
  assert (length (skip_slashes rest) < f)%nat as Hf'.
  { pose proof (skip_slashes_length rest). apply (f_equal length) in Happ.
    rewrite length_app in Happ. destruct s; [done|]. simpl in *. lia. }
  rewrite !fs_streq_local_eq, <- (components_skip rest).
  assert ((length s =? 0)%nat = false) as -> by (by destruct s). cbn [orb].
  case_bool_decide; [by apply IH|].
  case_bool_decide.
  { apply IH; [done| |by apply drop_component_represents].
    destruct cs as [|c cs _] using rev_ind; [done|]. rewrite removelast_last.
    by apply Forall_app in Hg as [? _]. }
  rewrite (push_component_spec temp cs s Hg Hr).
  case_bool; [done|]. apply IH; [done| |by right].
  apply Forall_app. split; [done|]. by repeat constructor.
Qed.

Lemma resolve_dots_fits cs ps ds :
  Z.of_nat (length (render cs)) < FS_PATH_CAP -> resolve_dots cs ps = Some ds ->
  Z.of_nat (length (render ds)) < FS_PATH_CAP.
Proof.
  revert cs. induction ps as [|p ps IH]; intros cs Hl; simpl; [by intros [= <-]|].
  case_bool; [done|]. case_bool_decide; [by apply IH|]. case_bool_decide.
  - apply IH. destruct cs as [|c cs _] using rev_ind; [done|].
    rewrite removelast_last. rewrite render_snoc, length_app in Hl.
    destruct cs; [done|]. rewrite render_joined by done. lia.
  - case_bool; [done|]. apply IH. blia.
Qed.

(** What the function computes, on components. *)
Lemma normalize_path_resolve cs path out_cap :
  canonical cs ->
  fs_core_normalize_path (Some (render cs)) (Some path) out_cap =
    (if (length path =? 0)%nat || (out_cap <? 2) then inl FS_ERR_INVALID
     else match normalized cs path with
          | Some ds => if out_cap <=? Z.of_nat (length (render ds)) then inl FS_ERR_INVALID
                       else inr (render ds)
          | None => inl FS_ERR_INVALID
          end).
Proof.
  intros [Hg Hl]. unfold fs_core_normalize_path, normalized.
  destruct path as [|ch path]; [done|]. set (p := ch :: path) in *.
  change ((length p =? 0)%nat) with false. cbn [orb].
  destruct (Z.ltb_spec out_cap 2) as [|H2]; [done|].
  destruct (render_nonempty cs) as [r Hr].
  assert (match (Some (render cs)) with None | Some [] => Some [slash] | _ => Some (render cs) end
          = Some (render cs)) as -> by (by rewrite Hr).
  unfold fs_copy_name at 1. rewrite copy_name_loop_short by lia.
  set (cs0 := if char_at p 0 =? slash then [] else cs).
  set (start := if char_at p 0 =? slash then _ else _).
  assert (Forall good_comp cs0 /\ represents start.1 cs0 /\ components start.2 = components p /\
          (length start.2 <= length p)%nat) as (Hg0 & Hrep & Hcomp & Hlen).
  { subst start cs0. destruct (char_at p 0 =? slash); cbn [fst snd].
    - split_and!; [done|by left|apply components_skip|apply skip_slashes_length].
    - split_and!; [done|by right|done|lia]. }
  destruct start as [temp cursor]. cbn [fst snd] in *.
  pose proof (normalize_loop_resolve (S (length p)) temp cs0 cursor) as H.
  rewrite Hcomp in H. specialize (H ltac:(lia) Hg0 Hrep).
  destruct (normalize_loop (S (length p)) temp cursor) as [[t|]|]; [| |done];
    destruct (resolve_dots cs0 (components p)) as [ds|]; try done.
  destruct H as [Hgd Ht]. destruct (decide (ds = [])) as [->|Hne].
  - destruct Ht as [->| ->].
    + cbn. case_bool; [blia|done].
    + cbn -[fs_copy_name]. repeat case_bool; try blia. unfold fs_copy_name.
      by rewrite copy_name_loop_short by (simpl; lia).
  - assert (t = render ds) as ->. { destruct Ht as [->| ->]; [by rewrite render_joined|done]. }
    destruct (render_nonempty ds) as [r' Hr']. rewrite Hr', <- Hr'.
    repeat case_bool; try blia; [done|]. unfold fs_copy_name.
    by rewrite copy_name_loop_short by blia.
Qed.

(** ** Canonical paths *)

Lemma components_joined cs : Forall good_comp cs -> components (joined cs) = cs.
Proof.
  induction 1 as [|c cs (Hc & Hs & _) _ IH]; [done|].
  unfold joined in *. simpl. rewrite components_slash.
  destruct cs as [|d cs]; [simpl; rewrite app_nil_r; by apply components_single|].
  simpl in *. rewrite components_cons_slash by done. f_equal. by rewrite components_slash in IH.
Qed.

Lemma components_render cs : Forall good_comp cs -> components (render cs) = cs.
Proof. intros H. destruct cs; [done|]. by apply components_joined. Qed.

Lemma render_inj cs ds :
  Forall good_comp cs -> Forall good_comp ds -> render cs = render ds -> cs = ds.
Proof. intros Hc Hd H. by rewrite <- (components_render cs), H, components_render. Qed.

Lemma resolve_dots_good cs ps ds :
  Forall good_comp cs -> Forall (fun s => s <> [] /\ Forall (fun c => c <> slash) s) ps ->
  resolve_dots cs ps = Some ds -> Forall good_comp ds.
Proof.
  intros Hc Hp. revert cs Hc. induction Hp as [|p ps [Hp1 Hp2] _ IH]; intros cs Hc; simpl.
  { by intros [= <-]. }
  case_bool; [done|]. case_bool_decide; [by apply IH|]. case_bool_decide.
  - apply IH. destruct cs as [|c cs _] using rev_ind; [done|]. rewrite removelast_last.
    by apply Forall_app in Hc as [? _].
  - case_bool; [done|]. apply IH. apply Forall_app. split; [done|].
    repeat constructor; try done. blia.
Qed.

Lemma canonical_nil : canonical [].
Proof. split; [constructor|done]. Qed.

(** Normalising from a canonical directory gives a canonical path. *)
Lemma normalized_canonical cs path ds :
  canonical cs -> normalized cs path = Some ds -> canonical ds.
Proof.
  intros Hc Hn. unfold normalized in Hn.
  assert (canonical (if char_at path 0 =? slash then [] else cs)) as [Hg Hl].
  { destruct (char_at path 0 =? slash); [apply canonical_nil|done]. }
  split; [|by eapply resolve_dots_fits].
  eapply resolve_dots_good; [done|apply components_no_slash|done].
Qed.

Lemma resolve_dots_canonical cs ds :
  canonical (cs ++ ds) -> resolve_dots cs ds = Some (cs ++ ds).
Proof.
  revert cs. induction ds as [|d ds IH]; intros cs [Hg Hl]; [by rewrite app_nil_r|].
  assert (good_comp d) as (_ & _ & Hd & Hdd & Hlen).
  { apply Forall_app in Hg as [_ Hg]. by apply Forall_cons in Hg as [? _]. }
  rewrite (cons_middle d cs ds), app_assoc in *. simpl.
  case_bool; [blia|]. rewrite !bool_decide_eq_false_2 by done.
  case_bool; [|by apply IH].
  exfalso. rewrite render_joined in Hl by (by destruct cs).
  rewrite joined_app, length_app in Hl. rewrite render_joined in * by (by destruct cs). blia.
Qed.

Lemma normalized_render cs ds : canonical ds -> normalized cs (render ds) = Some ds.
Proof.
  intros Hd. unfold normalized. destruct (render_nonempty ds) as [r Hr].
  assert (char_at (render ds) 0 =? slash = true) as -> by (by rewrite Hr).
  rewrite components_render by apply Hd. by apply resolve_dots_canonical.
Qed.

Lemma canonical_app cs ds : canonical (cs ++ ds) -> canonical cs.
Proof.
  intros [Hg Hl]. apply Forall_app in Hg as [Hg _]. split; [done|].
  destruct cs as [|c cs]; [done|]. change (render ((c :: cs) ++ ds)) with (joined ((c :: cs) ++ ds)) in Hl.
  rewrite joined_app, length_app in Hl. change (render (c :: cs)) with (joined (c :: cs)). lia.
Qed.

(** The successful results: the rendering of a canonical list, within [out_cap]. *)
Lemma normalize_path_ok cs path out_cap out :
  canonical cs ->
  fs_core_normalize_path (Some (render cs)) (Some path) out_cap = inr out ->
  exists ds, normalized cs path = Some ds /\ canonical ds /\ out = render ds /\
             Z.of_nat (length out) < out_cap.
Proof.
  intros Hc. rewrite normalize_path_resolve by done.
  case_bool; [done|]. destruct (normalized cs path) as [ds|] eqn:Hn; [|done].
  case_bool; [done|]. intros [= <-]. exists ds. split_and!; try done; [|blia].
  by eapply normalized_canonical.
Qed.

(** A canonical path normalises to itself. *)
Lemma normalize_path_render cs ds :
  canonical cs -> canonical ds ->
  fs_core_normalize_path (Some (render cs)) (Some (render ds)) FS_PATH_CAP = inr (render ds).
Proof.
  intros Hc Hd. rewrite normalize_path_resolve by done. rewrite normalized_render by done.
  destruct (render_nonempty ds) as [r Hr]. destruct Hd as [_ Hl].
  rewrite (Hr : render ds = slash :: r) at 1. change (FS_PATH_CAP <? 2) with false.
  cbn [length Nat.eqb orb]. case_bool; [blia|done].
Qed.

(** [fs_parent_path] drops the last component of a canonical path. *)
Lemma fs_parent_path_render cs :
  canonical cs -> fs_parent_path (render cs) FS_PATH_CAP = inr (render (removelast cs)).
Proof.
  intros Hc. destruct cs as [|c cs _] using rev_ind; [done|].
  rewrite removelast_last. pose proof (canonical_app _ _ Hc) as [_ Hl].
  destruct Hc as [[_ Hg]%Forall_app _]. apply Forall_cons in Hg as [(Hne & Hs & _) _].
  unfold fs_parent_path. rewrite render_snoc.
  assert (char_at (joined cs ++ slash :: c) 0 = slash) as ->.
  { destruct cs as [|d cs]; [done|]. done. }
  rewrite back_to_slash_last by done. change (FS_PATH_CAP <? 2) with false. cbn [orb negb Z.eqb].
  change (negb (slash =? slash)) with false. cbn [orb].
  destruct (Nat.leb_spec (length (joined cs ++ slash :: c)) 1) as [H1|H1].
  { rewrite length_app in H1. destruct c; [done|]. simpl in H1. lia. }
  destruct cs as [|d cs]; [done|].
  assert (render (d :: cs) = joined (d :: cs)) as Hrj by done. rewrite Hrj in *.
  pose proof (joined_length_cons (d :: cs) ltac:(done)).
  destruct (Nat.leb_spec (S (length (joined (d :: cs)))) 1); [lia|].
  rewrite Nat.sub_succ, Nat.sub_0_r. case_bool; [blia|].
  by rewrite take_app_length.
Qed.

(** ** Theorems *)

(** C21: on a canonical working directory [fs_core_normalize_path] computes the fold
    of the components of its argument: [.] is skipped, [..] removes the last component
    and stops at the root, a leading slash starts from the root; it fails exactly when
    the argument is empty, a component has 24 or more characters, a prefix of the result
    reaches 128 characters, or the result does not fit the output buffer. *)
Theorem normalize_path_is_fold cs path out_cap :
  canonical cs ->
  fs_core_normalize_path (Some (render cs)) (Some path) out_cap =
    (if (length path =? 0)%nat || (out_cap <? 2) then inl FS_ERR_INVALID
     else match normalized cs path with
          | Some ds => if out_cap <=? Z.of_nat (length (render ds)) then inl FS_ERR_INVALID
                       else inr (render ds)
          | None => inl FS_ERR_INVALID
          end).
Proof. apply normalize_path_resolve. Qed.

(** The characters of [/usr/bin] and of [../lib/./x]. *)
Definition usr_bin : list (list Z) := [[117; 115; 114]; [98; 105; 110]].
Definition up_lib_x : list Z := [46; 46; 47; 108; 105; 98; 47; 46; 47; 120].

Lemma usr_bin_canonical : canonical usr_bin.
Proof.
  split; [|vm_compute; reflexivity].
  repeat constructor; try done; unfold slash, dot, dotdot; lia.
Qed.

Lemma normalize_path_is_fold_witness :
  canonical usr_bin /\
  fs_core_normalize_path (Some (render usr_bin)) (Some up_lib_x) FS_PATH_CAP =
    inr (render [[117; 115; 114]; [108; 105; 98]; [120]]).
Proof.
  split; [apply usr_bin_canonical|].
  rewrite (normalize_path_is_fold usr_bin up_lib_x FS_PATH_CAP usr_bin_canonical).
  reflexivity.
Defined.

(** a successful normalisation yields a canonical path: it starts with a slash,
    its components are non-empty, shorter than 24 characters, contain no slash and are
    neither [.] nor [..], it is shorter than 128 characters, and normalising it again,
    from any canonical directory, gives it back unchanged. *)
Theorem normalize_path_canonical cs path out ds :
  canonical cs -> canonical ds ->
  fs_core_normalize_path (Some (render cs)) (Some path) FS_PATH_CAP = inr out ->
  out = render (components out) /\ canonical (components out) /\
  fs_core_normalize_path (Some (render ds)) (Some out) FS_PATH_CAP = inr out.
Proof.
  intros Hc Hd H. destruct (normalize_path_ok _ _ _ _ Hc H) as (es & _ & He & -> & _).
  rewrite components_render by apply He. split_and!; [done..|by apply normalize_path_render].
Qed.

Lemma normalize_path_canonical_witness :
  exists out, out = render (components out) /\ canonical (components out) /\
  fs_core_normalize_path (Some (render [])) (Some out) FS_PATH_CAP = inr out.
Proof.
  exists (render [[117; 115; 114]; [108; 105; 98]; [120]]).
  apply (normalize_path_canonical usr_bin up_lib_x);
    [apply usr_bin_canonical|apply canonical_nil|reflexivity].
Defined.

End FsPathProps.
