(* ===== verification/Vfs.v ===== *)
(** * The driver interface of the file-system layer

    [vfs_driver_t] of [core/fs/vfs_core.h] as a record of operations over a store,
    the result monad of the layer, the kernel services its device files use, and
    RAMFS as a driver. *)

From S2P Require Import Prelude FsTypes Ramfs.
From stdpp Require Import base list option list_numbers.
From Stdlib Require Import ZArith Lia ZifyBool.
Import FsTypes.
Open Scope Z_scope.

Module Vfs.

(** ** Results

    A fallible operation on a state: an error code or a value, and the new state.
    The outer [None] is a call that does not return: the console waits for a key
    that does not come, or the display driver leaves its arrays. *)

Definition M (S A : Type) : Type := S -> option ((Z + A) * S).

Section Monad.
Context {S : Type}.

Definition ret {A} (a : A) : M S A := fun s => Some (inr a, s).
Definition fail {A} (rc : Z) : M S A := fun s => Some (inl rc, s).

(** [rc = m(); if (rc != FS_OK) return rc;] *)
Definition bind {A B} (m : M S A) (k : A -> M S B) : M S B := fun s =>
  match m s with
  | None => None
  | Some (inl rc, s) => Some (inl rc, s)
  | Some (inr a, s) => k a s
  end.

(** [rc = m();], the code inspected by what follows. *)
Definition attempt {A} (m : M S A) : M S (Z + A) := fun s =>
  match m s with None => None | Some (r, s) => Some (inr r, s) end.

Definition lift {A} (r : Z + A) : M S A := fun s => Some (r, s).
Definition get : M S S := fun s => Some (inr s, s).

(** [if (f == 0) return rc;] for a function pointer [f]. *)
Definition need {A} (f : option A) (rc : Z) : M S A :=
  match f with Some a => ret a | None => fail rc end.

Definition guard (b : bool) (rc : Z) : M S unit := if b then ret tt else fail rc.

End Monad.

Declare Scope vfs_scope.
Delimit Scope vfs_scope with vfs.
Notation "x <- m ;; k" := (bind m (fun x => k))
  (at level 100, m at next level, right associativity) : vfs_scope.
Notation "m ;;; k" := (bind m (fun _ => k)) (at level 100, right associativity) : vfs_scope.

(** The C convention [int f(..., out)]: code 0 and the output, or an error code. *)
Definition of_rc {A} (rc : Z) (a : A) : Z + A := if rc =? FS_OK then inr a else inl rc.

(** ** Directory entries and drivers *)

Definition fs_dirent : Type := list Z * Z.

(** [vfs_driver_t]; [None] is a null function pointer.  A read returns the bytes it
    stored in the caller's buffer, a write takes the bytes to write. *)
Record vfs_driver (S : Type) := Driver {
  d_init : option (M S unit);
  d_get_cwd_path : option (M S (list Z));
  d_change_dir : option (list Z -> M S unit);
  d_make_dir : option (list Z -> M S unit);
  d_list_dir : option (list Z -> Z -> M S (list fs_dirent));
  d_read_file : option (list Z -> Z -> M S (list Z));
  d_open : option (list Z -> Z -> M S Z);
  d_read : option (Z -> Z -> Z -> M S (list Z));
  d_write : option (Z -> Z -> list Z -> M S Z);
  d_size : option (Z -> M S Z);
  d_close : option (Z -> M S unit);
  d_stat : option (list Z -> M S fs_stat);
  d_fstat : option (Z -> M S fs_stat);
  d_unlink : option (list Z -> M S unit);
  d_rmdir : option (list Z -> M S unit)
}.
Arguments Driver {S}. Arguments d_init {S}. Arguments d_get_cwd_path {S}.
Arguments d_change_dir {S}. Arguments d_make_dir {S}. Arguments d_list_dir {S}.
Arguments d_read_file {S}. Arguments d_open {S}. Arguments d_read {S}. Arguments d_write {S}.
Arguments d_size {S}. Arguments d_close {S}. Arguments d_stat {S}. Arguments d_fstat {S}.
Arguments d_unlink {S}. Arguments d_rmdir {S}.

(** ** What the front end relies on

    The contract of a driver with writable files, against which the symbolic links
    of the front end are verified: a path names a file with some contents or it does
    not; [stat] and [read_file] report it and change nothing; creating a file and
    writing it from the start makes the path name those bytes.  A path is a string
    without NUL. *)
Class file_driver {S : Type} (d : vfs_driver S) := FileDriver {
  fd_ok : S -> Prop;
  file_at : S -> list Z -> option (list Z);
  fd_stat s p :
    fd_ok s -> exists stat r, d_stat d = Some stat /\ stat p s = Some (r, s) /\
    match file_at s p with
    | Some b => exists m, r = inr (FsStat m (Z.of_nat (length b))) /\ Z.land m FS_MODE_FILE <> 0
    | None => match r with inr st => Z.land (st_mode st) FS_MODE_FILE = 0 | inl _ => True end
    end;
  fd_read_file s p cap :
    fd_ok s -> 0 <= cap ->
    exists read_file r, d_read_file d = Some read_file /\ read_file p cap s = Some (r, s) /\
    match file_at s p with
    | Some b => r = if cap <? Z.of_nat (length b) then inl FS_ERR_NO_SPACE else inr b
    | None => True
    end;
  fd_replace open write s s1 s2 p id b w :
    d_open d = Some open -> d_write d = Some write ->
    fd_ok s -> Forall (fun c => c <> 0) p -> b <> [] ->
    open p (Z.lor FS_O_CREAT (Z.lor FS_O_TRUNC FS_O_WRONLY)) s = Some (inr id, s1) ->
    write id 0 b s1 = Some (inr w, s2) ->
    fd_ok s2 /\ w = Z.of_nat (length b) /\ file_at s2 p = Some b /\
    exists close r, d_close d = Some close /\ close id s2 = Some (r, s2)
}.

(** What a reader of a whole file relies on: an open identifier stands for the
    contents of its file, reading changes nothing, closing gives the handle back.
    [fr_room] says that a handle is free; [2 ^ 31] is the tag of the pseudo files. *)
Class file_reader {S : Type} (d : vfs_driver S) `{!file_driver d} := FileReader {
  fr_room : S -> Prop;
  open_file : S -> Z -> list Z -> Prop;
  fr_open s p b :
    fd_ok s -> fr_room s -> file_at s p = Some b ->
    exists open id s', d_open d = Some open /\ open p FS_O_RDONLY s = Some (inr id, s') /\
      0 <= id < 2 ^ 31 /\ fd_ok s' /\ open_file s' id b /\ forall q, file_at s' q = file_at s q;
  fr_read s id b off cap :
    fd_ok s -> open_file s id b -> 0 <= off -> 0 <= cap ->
    exists read, d_read d = Some read /\
      read id off cap s = Some (inr (take (Z.to_nat cap) (drop (Z.to_nat off) b)), s);
  fr_close s id b :
    fd_ok s -> open_file s id b ->
    exists close r s', d_close d = Some close /\ close id s = Some (r, s') /\
      fd_ok s' /\ fr_room s' /\ forall q, file_at s' q = file_at s q
}.

(** ** RAMFS as a driver

    The table [g_ramfs_driver] over the RAMFS state. *)

Section Ramfs.
Import Ramfs.

Definition upd (r : Z * ramfs) : option ((Z + unit) * ramfs) := Some (of_rc r.1 tt, r.2).
Definition upd_out {A} (r : Z * A * ramfs) : option ((Z + A) * ramfs) :=
  Some (of_rc r.1.1 r.1.2, r.2).
Definition stat_out (r : Z * option fs_stat) : Z + fs_stat :=
  match r.2 with Some st => of_rc r.1 st | None => inl r.1 end.

Definition ramfs_driver : vfs_driver ramfs := {|
  d_init := Some (fun s => Some (of_rc (ramfs_core_driver_init s) tt, s));
  d_get_cwd_path := Some (fun s => match ramfs_core_get_cwd_path s with
                                   | Some p => Some (inr p, s) | None => None end);
  d_change_dir := Some (fun p s => upd (ramfs_core_change_dir s p));
  d_make_dir := Some (fun p s => upd (ramfs_core_make_dir s p));
  d_list_dir := Some (fun p cap s => let '(rc, _, l) := ramfs_core_list_dir s p cap in
                                     Some (of_rc rc l, s));
  d_read_file := Some (fun p cap s => let '(rc, _, b) := ramfs_core_read_file s p cap in
                                      Some (of_rc rc b, s));
  d_open := Some (fun p flags s => upd_out (ramfs_core_open s p flags));
  d_read := Some (fun id off cap s => let '(rc, _, b) := ramfs_core_read s id off cap in
                                      Some (of_rc rc b, s));
  d_write := Some (fun id off b s => upd_out (ramfs_core_write s id off b));
  d_size := Some (fun id s => let '(rc, n) := ramfs_core_size s id in Some (of_rc rc n, s));
  d_close := Some (fun id s => Some (of_rc (ramfs_core_close s id) tt, s));
  d_stat := Some (fun p s => Some (stat_out (ramfs_core_stat s p), s));
  d_fstat := Some (fun id s => Some (stat_out (ramfs_core_fstat s id), s));
  d_unlink := Some (fun p s => upd (ramfs_core_unlink s p));
  d_rmdir := Some (fun p s => upd (ramfs_core_rmdir s p))
|}.

End Ramfs.

(** ** Kernel services

    What the device files, [/proc] and the descriptor layer use of the rest of the
    kernel.  [None] as in [M].  [input_keys] is what the next calls of
    [input_take_key] return, [signal_reset] is [signal_raise(HW_RESET)]. *)
Record mm_view := MmView { total_pages : Z; free_pages : Z; heap_used_bytes : Z }.

Class services (W : Type) := Services {
  tty_readline : Z -> W -> option (Z * list Z * W);
  tty_putc : Z -> W -> option W;
  tty_set_color : Z -> W -> option W;
  tty_clear : W -> option W;
  tty_get_cursor : W -> Z * Z;
  tty_text_begin : Z -> Z -> W -> option W;
  tty_line_redraw : list Z -> Z -> Z -> Z -> W -> option W;
  input_keys : W -> list Z;
  set_input_keys : list Z -> W -> W;
  signal_reset : W -> W;
  smod_serial_write : Z -> W -> W;
  klog_info : list Z -> list Z -> W -> option W;
  timer_ticks_get : W -> Z;
  mm_get_stats : W -> mm_view;
  smod_module_count : W -> Z;
  smod_module_name : W -> Z -> option (list Z)
}.

End Vfs.

(** * Running fallible operations

    A weakest-precondition calculus for the result monad of [Vfs]: [wp m s Q] says that
    [m] started in [s] returns, and that its result and final state satisfy [Q].
    An operation that does not return satisfies no postcondition. *)

Import FsTypes Vfs.

Module VfsWp.

Section Wp.
Context {S : Type}.

Definition wp {A} (m : M S A) (s : S) (Q : Z + A -> S -> Prop) : Prop :=
  match m s with None => False | Some (r, s') => Q r s' end.

Lemma wp_intro {A} (m : M S A) s r s' (Q : Z + A -> S -> Prop) :
  m s = Some (r, s') -> Q r s' -> wp m s Q.
Proof. intros E. unfold wp. by rewrite E. Qed.

Lemma wp_elim {A} (m : M S A) s (Q : Z + A -> S -> Prop) :
  wp m s Q -> exists r s', m s = Some (r, s') /\ Q r s'.
Proof. unfold wp. destruct (m s) as [[r s']|]; [|done]. intros HQ. by exists r, s'. Qed.

Lemma wp_mono {A} (m : M S A) s (P Q : Z + A -> S -> Prop) :
  wp m s P -> (forall r s', P r s' -> Q r s') -> wp m s Q.
Proof. unfold wp. destruct (m s) as [[r s']|]; auto. Qed.

Lemma wp_bind {A B} (m : M S A) (k : A -> M S B) s Q :
  wp m s (fun r s' => match r with inl rc => Q (inl rc) s' | inr a => wp (k a) s' Q end) ->
  wp (bind m k) s Q.
Proof. unfold wp, bind. by destruct (m s) as [[[rc|a] s']|]. Qed.

Lemma wp_bind_inv {A B} (m : M S A) (k : A -> M S B) s Q :
  wp (bind m k) s Q ->
  wp m s (fun r s' => match r with inl rc => Q (inl rc) s' | inr a => wp (k a) s' Q end).
Proof. unfold wp, bind. by destruct (m s) as [[[rc|a] s']|]. Qed.

Lemma wp_attempt {A} (m : M S A) s Q :
  wp m s (fun r s' => Q (inr r) s') -> wp (attempt m) s Q.
Proof. unfold wp, attempt. by destruct (m s) as [[r s']|]. Qed.

Lemma wp_guard (b : bool) rc s Q :
  (if b then Q (inr tt) s else Q (inl rc) s) -> wp (guard b rc) s Q.
Proof. by destruct b. Qed.

(** The next step of a sequence, by its specification. *)
Lemma wp_seq {A B} (m : M S A) (k : A -> M S B) s (P : Z + A -> S -> Prop) Q :
  wp m s P ->
  (forall rc s', P (inl rc) s' -> Q (inl rc) s') ->
  (forall a s', P (inr a) s' -> wp (k a) s' Q) ->
  wp (bind m k) s Q.
Proof. intros Hm Hl Hr. apply wp_bind, (wp_mono _ _ _ _ Hm). intros [rc|a] s'; auto. Qed.

Lemma wp_guard_seq {B} (b : bool) rc (k : unit -> M S B) s Q :
  (b = false -> Q (inl rc) s) -> (b = true -> wp (k tt) s Q) -> wp (bind (guard b rc) k) s Q.
Proof. destruct b; intros Hf Ht; [exact (Ht eq_refl)|exact (Hf eq_refl)]. Qed.

End Wp.

End VfsWp.

(** * Drivers of a part of the state

    A driver works on the variables of its own file.  In a machine with several file
    systems it works on one part of the state: [via_driver] carries it, and its
    contract, over a pair of functions that read and replace that part. *)

Import FsTypes Vfs.

Module VfsLens.

Class lens {S T : Type} (get : T -> S) (put : S -> T -> T) : Prop := Lens {
  get_put s t : get (put s t) = s;
  put_get t : put (get t) t = t
}.

Section Via.
Context {S T : Type} (get : T -> S) (put : S -> T -> T).

Definition via {A} (m : M S A) : M T A := fun t =>
  match m (get t) with None => None | Some (r, s) => Some (r, put s t) end.

Definition via_driver (d : vfs_driver S) : vfs_driver T := {|
  d_init := via <$> d_init d;
  d_get_cwd_path := via <$> d_get_cwd_path d;
  d_change_dir := (fun op p => via (op p)) <$> d_change_dir d;
  d_make_dir := (fun op p => via (op p)) <$> d_make_dir d;
  d_list_dir := (fun op p cap => via (op p cap)) <$> d_list_dir d;
  d_read_file := (fun op p cap => via (op p cap)) <$> d_read_file d;
  d_open := (fun op p flags => via (op p flags)) <$> d_open d;
  d_read := (fun op id off cap => via (op id off cap)) <$> d_read d;
  d_write := (fun op id off b => via (op id off b)) <$> d_write d;
  d_size := (fun op id => via (op id)) <$> d_size d;
  d_close := (fun op id => via (op id)) <$> d_close d;
  d_stat := (fun op p => via (op p)) <$> d_stat d;
  d_fstat := (fun op id => via (op id)) <$> d_fstat d;
  d_unlink := (fun op p => via (op p)) <$> d_unlink d;
  d_rmdir := (fun op p => via (op p)) <$> d_rmdir d
|}.

Context {L : lens get put}.

Lemma get_of_put s t : get (put s t) = s.
Proof. by destruct L. Qed.

Lemma via_same {A} (m : M S A) t r : m (get t) = Some (r, get t) -> via m t = Some (r, t).
Proof. intros E. unfold via. by rewrite E, put_get. Qed.

Lemma via_some {A} (m : M S A) t r s : m (get t) = Some (r, s) -> via m t = Some (r, put s t).
Proof. intros E. unfold via. by rewrite E. Qed.

Lemma via_inv {A} (m : M S A) t r t' :
  via m t = Some (r, t') -> exists s, m (get t) = Some (r, s) /\ t' = put s t.
Proof. unfold via. destruct (m (get t)) as [[r' s]|]; [|done]. intros [= -> <-]. by exists s. Qed.

Context (d : vfs_driver S) `{!file_driver d}.

#[export, program] Instance via_file_driver : file_driver (via_driver d) := {|
  fd_ok t := fd_ok (get t);
  file_at t := file_at (get t)
|}.
Next Obligation.
  intros t p Hok. destruct (fd_stat (get t) p Hok) as (op & r & Hop & E & Hr). cbn. rewrite Hop.
  do 2 eexists. split; [done|]. split; [by apply via_same|done].
Qed.
Next Obligation.
  intros t p cap Hok Hc. destruct (fd_read_file (get t) p cap Hok Hc) as (op & r & Hop & E & Hr). cbn. rewrite Hop.
  do 2 eexists. split; [done|]. split; [by apply via_same|done].
Qed.
Next Obligation.
  intros open write t t1 t2 p id b w Ho Hw Hok Hp Hb E1 E2. cbn in Ho, Hw.
  destruct (d_open d) as [op|] eqn:Eop; [|done]. destruct (d_write d) as [wr|] eqn:Ewr; [|done].
  injection Ho as <-. injection Hw as <-. apply via_inv in E1 as (s1 & E1 & ->).
  apply via_inv in E2 as (s2 & E2 & ->). rewrite get_of_put in E2. cbn beta. rewrite !get_of_put.
  destruct (fd_replace op wr (get t) s1 s2 p id b w Eop Ewr Hok Hp Hb E1 E2) as (H1 & H2 & H3 & cl & r & Hcl & Ecl).
  split_and!; [done..|]. cbn. rewrite Hcl. do 2 eexists. split; [done|]. apply via_same. by rewrite get_of_put.
Qed.

Context `{!file_reader d}.

#[export, program] Instance via_file_reader : file_reader (via_driver d) := {|
  fr_room t := fr_room (get t);
  open_file t := open_file (get t)
|}.
Next Obligation.
  intros t p b Hok Hroom Hb. destruct (fr_open (get t) p b Hok Hroom Hb) as (op & id & s & Hop & E & Hid & H1 & H2 & H3).
  cbn. rewrite Hop. exists (fun p flags => via (op p flags)), id, (put s t). rewrite !get_of_put.
  split; [done|]. split; [by apply via_some|done].
Qed.
Next Obligation.
  intros t id b off cap Hok Ho H1 H2. destruct (fr_read (get t) id b off cap Hok Ho H1 H2) as (rd & Hrd & E).
  cbn. rewrite Hrd. eexists. split; [done|]. by apply via_same.
Qed.
Next Obligation.
  intros t id b Hok Ho. destruct (fr_close (get t) id b Hok Ho) as (cl & r & s & Hcl & E & H1 & H2 & H3).
  cbn. rewrite Hcl. exists (fun id => via (cl id)), r, (put s t). rewrite !get_of_put.
  split; [done|]. split; [by apply via_some|done].
Qed.

End Via.

End VfsLens.
