(* ===== verification/RamfsDriver.v ===== *)
(** * RAMFS honours the driver contract

    The instances of [file_driver] and [file_reader] for the RAMFS table. *)

From S2P Require Import Prelude FsTypes Ramfs RamfsTree RamfsPath RamfsData RamfsOps RamfsProps Vfs.
From stdpp Require Import base list option sets list_numbers.
From Stdlib Require Import ZArith Lia ZifyBool.
Open Scope Z_scope.

Module RamfsDriver.
Import FsTypes Ramfs RamfsTree RamfsPath RamfsData RamfsOps RamfsProps Vfs.

(** The contents of the file a path names. *)
Definition ramfs_file_at (st : ramfs) (path : list Z) : option (list Z) :=
  match fs_resolve_path st path with
  | (_, Some n) => if type (node_at st n) =? FS_NODE_FILE then Some (content st n) else None
  | (_, None) => None
  end.

Definition ramfs_ok (st : ramfs) : Prop := exists r, wf st r.

Lemma of_rc_ok {A} (a : A) : of_rc FS_OK a = inr a.
Proof. done. Qed.

Lemma of_rc_err {A} rc (a : A) : rc <> FS_OK -> of_rc rc a = inl rc.
Proof. intros Hrc. unfold of_rc. by destruct (Z.eqb_spec rc FS_OK). Qed.

Lemma of_rc_inr {A} rc (a b : A) : of_rc rc a = inr b -> rc = FS_OK /\ a = b.
Proof. unfold of_rc. destruct (Z.eqb_spec rc FS_OK); [by intros [= ->]|done]. Qed.

(** After a successful open the path names the file the identifier stands for. *)
Lemma open_names_file st r path flags id st' :
  wf st r -> cstring path -> Z.land flags FS_O_TRUNC <> 0 ->
  ramfs_core_open st path flags = (FS_OK, id, st') ->
  exists n, wf st' r /\ id = fs_node_id (Some n) /\ is_file st' n /\ content st' n = [] /\
    fs_resolve_path st' path = (FS_OK, Some n).
Proof.
  intros Hwf Hp Ht E. pose proof (open_spec st r path flags Hwf Hp) as Ho. rewrite E in Ho.
  destruct Ho as [Hwf' Ho]. specialize (Ho eq_refl).
  destruct Ho as [(n & Hn & -> & Hf & Hc & _)|(_ & _ & (i & -> & _ & Hf & Hc & Hr) & _)].
  - exists n. rewrite (proj2 (Z.eqb_neq _ _) Ht) in Hc. split_and!; try done.
    unfold ramfs_core_open in E. rewrite Hn in E. cbn [Z.eqb FS_OK andb negb FS_ERR_NOT_FOUND] in E.
    pose proof (resolve_spec st r path Hwf) as Hl. rewrite Hn in Hl.
    pose proof (open_node_spec st r n flags Hwf (proj2 Hl)) as Hs. rewrite E in Hs.
    destruct Hs as (_ & Hsh & _). destruct (start_dir st r path Hwf) as (cur & Hcur & _).
    unfold fs_resolve_path in *. rewrite (resolve_path_walk _ _ _ cur Hcur) in Hn.
    rewrite (resolve_path_walk st' _ _ cur).
    + by rewrite (same_shape_walk st st').
    + destruct Hsh as [_ R C _]. by rewrite R, C.
  - exists i. by split_and!.
Qed.

Lemma same_shape_resolve st st' r path :
  wf st r -> same_shape st st' -> fs_resolve_path st' path = fs_resolve_path st path.
Proof.
  intros Hwf HS. destruct (start_dir st r path Hwf) as (cur & Hcur & _). unfold fs_resolve_path.
  rewrite (resolve_path_walk _ _ _ cur Hcur), (resolve_path_walk st' _ _ cur).
  - by apply same_shape_walk.
  - destruct HS as [_ R C _]. by rewrite R, C.
Qed.

Lemma splice_empty bytes : splice [] 0 bytes = bytes.
Proof. unfold splice. simpl. by rewrite drop_nil, app_nil_r. Qed.

Lemma write_names_file st r path n bytes st' w :
  wf st r -> is_file st n -> content st n = [] -> bytes <> [] ->
  fs_resolve_path st path = (FS_OK, Some n) ->
  ramfs_core_write st (fs_node_id (Some n)) 0 bytes = (FS_OK, w, st') ->
  wf st' r /\ w = Z.of_nat (length bytes) /\ ramfs_file_at st' path = Some bytes.
Proof.
  intros Hwf Hf Hc Hb Hr E. pose proof (tr_len _ _ (wf_tree _ _ Hwf)) as Hlen.
  pose proof (write_spec st r (fs_node_id (Some n)) n 0 bytes Hwf
                (node_from_id_of st n Hlen (proj1 Hf)) Hf ltac:(lia)) as Hw.
  rewrite E in Hw. destruct Hw as [(_ & -> & Hwf' & Hsh & Hc' & _)|(Hx & _)]; [|done].
  split_and!; [done..|]. unfold ramfs_file_at. rewrite (same_shape_resolve st st' r path Hwf Hsh), Hr.
  destruct (ss_node _ _ Hsh n) as (_ & -> & _). rewrite (proj2 Hf). cbn [Z.eqb FS_NODE_FILE Pos.eqb].
  rewrite Hc', Hc. destruct bytes; [done|]. cbn [length Nat.eqb]. by rewrite splice_empty.
Qed.

Lemma ramfs_stat_ok st p :
  ramfs_ok st -> exists stat r, d_stat ramfs_driver = Some stat /\ stat p st = Some (r, st) /\
  match ramfs_file_at st p with
  | Some b => exists m, r = inr (FsStat m (Z.of_nat (length b))) /\ Z.land m FS_MODE_FILE <> 0
  | None => match r with inr s => Z.land (st_mode s) FS_MODE_FILE = 0 | inl _ => True end
  end.
Proof.
  intros [r Hwf]. do 2 eexists. split_and!; [reflexivity..|].
  pose proof (resolve_spec st r p Hwf) as Hr. unfold ramfs_file_at, stat_out, ramfs_core_stat.
  destruct (fs_resolve_path st p) as [rc [n|]].
  - destruct Hr as [-> Ln]. cbn [negb Z.eqb FS_OK ramfs_fill_stat snd fst]. rewrite of_rc_ok.
    destruct (Z.eqb_spec (type (node_at st n)) FS_NODE_FILE) as [Tn|Tn].
    + rewrite Tn. cbn [Z.eqb FS_NODE_FILE FS_NODE_DIR Pos.eqb]. exists FS_MODE_FILE.
      split; [|done]. by rewrite (content_length st n (wf_data _ _ Hwf) Ln Tn).
    + by destruct (tr_type _ _ (wf_tree _ _ Hwf) n Ln) as [->|[? _]].
  - unfold negb. by destruct (Z.eqb_spec rc FS_OK).
Qed.

Lemma ramfs_read_file_ok st p cap :
  ramfs_ok st -> 0 <= cap ->
  exists rf r, d_read_file ramfs_driver = Some rf /\ rf p cap st = Some (r, st) /\
  match ramfs_file_at st p with
  | Some b => r = if cap <? Z.of_nat (length b) then inl FS_ERR_NO_SPACE else inr b
  | None => True
  end.
Proof.
  intros [r Hwf] Hcap. destruct (ramfs_core_read_file st p cap) as [[rc sz] b] eqn:E.
  eexists _, (of_rc rc b). split_and!; [reflexivity|cbn beta; by rewrite E|].
  pose proof (resolve_spec st r p Hwf) as Hr. unfold ramfs_file_at, ramfs_core_read_file in *.
  destruct (fs_resolve_path st p) as [e [n|]]; [|done]. destruct Hr as [-> Ln].
  destruct (Z.eqb_spec (type (node_at st n)) FS_NODE_FILE) as [Tn|Tn]; [|done].
  pose proof (content_length st n (wf_data _ _ Hwf) Ln Tn) as Hl.
  cbn [negb Z.eqb FS_OK] in E. rewrite Hl. destruct (cap <? size (node_at st n)).
  { by injection E as <- <- <-. }
  unfold ramfs_node_data in E. rewrite has_data_iff in E by (done || apply Hwf).
  unfold content in *. destruct (data_slot (node_at st n) =? RAMFS_NO_DATA_SLOT); cbn [negb] in E.
  - simpl in Hl. rewrite <- Hl in E. by injection E as <- <- <-.
  - by injection E as <- <- <-.
Qed.

Lemma ramfs_replace_ok open write st st1 st2 p id b w :
  d_open ramfs_driver = Some open -> d_write ramfs_driver = Some write ->
  ramfs_ok st -> Forall (fun c => c <> 0) p -> b <> [] ->
  open p (Z.lor FS_O_CREAT (Z.lor FS_O_TRUNC FS_O_WRONLY)) st = Some (inr id, st1) ->
  write id 0 b st1 = Some (inr w, st2) ->
  ramfs_ok st2 /\ w = Z.of_nat (length b) /\ ramfs_file_at st2 p = Some b /\
  exists close r, d_close ramfs_driver = Some close /\ close id st2 = Some (r, st2).
Proof.
  intros Eo Ew [r Hwf] Hp Hb Ho Hw. injection Eo as <-. injection Ew as <-.
  unfold upd_out in *.
  destruct (ramfs_core_open st p _) as [[rc1 id1] s1] eqn:E1. cbn [fst snd] in Ho.
  injection Ho as Ho ->. apply of_rc_inr in Ho as [-> ->].
  destruct (ramfs_core_write st1 id 0 b) as [[rc2 w2] s2] eqn:E2. cbn [fst snd] in Hw.
  injection Hw as Hw ->. apply of_rc_inr in Hw as [-> ->].
  apply (open_names_file st r) in E1 as (n & Hwf1 & -> & Hf & Hc & Hr); [|done..].
  destruct (write_names_file st1 r p n b st2 w Hwf1 Hf Hc Hb Hr E2) as (Hwf2 & -> & Hfile).
  split_and!; [by exists r|done|done|]. by do 2 eexists.
Qed.

#[export] Instance ramfs_file_driver : file_driver ramfs_driver := {|
  fd_ok := ramfs_ok;
  file_at := ramfs_file_at;
  fd_stat := ramfs_stat_ok;
  fd_read_file := ramfs_read_file_ok;
  fd_replace := ramfs_replace_ok
|}.

(** ** Open identifiers *)

Definition ramfs_open_file (st : ramfs) (id : Z) (b : list Z) : Prop :=
  exists n, id = fs_node_id (Some n) /\ is_file st n /\ content st n = b.

Lemma ramfs_open_ok st p b :
  ramfs_ok st -> True -> ramfs_file_at st p = Some b ->
  exists open id st', d_open ramfs_driver = Some open /\
    open p FS_O_RDONLY st = Some (inr id, st') /\ 0 <= id < 2 ^ 31 /\ ramfs_ok st' /\
    ramfs_open_file st' id b /\ forall q, ramfs_file_at st' q = ramfs_file_at st q.
Proof.
  intros [r Hwf] _ Hb. pose proof (resolve_spec st r p Hwf) as Hr.
  unfold ramfs_file_at in Hb at 1. destruct (fs_resolve_path st p) as [rc [n|]] eqn:En; [|done].
  destruct Hr as [-> Ln]. destruct (Z.eqb_spec (type (node_at st n)) FS_NODE_FILE) as [Tn|]; [|done].
  injection Hb as <-. eexists _, (fs_node_id (Some n)), st. split; [reflexivity|].
  assert (ramfs_core_open st p FS_O_RDONLY = (FS_OK, fs_node_id (Some n), st)) as E.
  { unfold ramfs_core_open, open_node. by rewrite En, Tn. }
  cbn beta. rewrite E. split; [done|].
  pose proof (live_lt st n (tr_len _ _ (wf_tree _ _ Hwf)) Ln) as Hn.
  split; [unfold fs_node_id; simpl; lia|].
  split; [by exists r|]. split; [by exists n|done].
Qed.

Lemma ramfs_read_ok st id b off cap :
  ramfs_ok st -> ramfs_open_file st id b -> 0 <= off -> 0 <= cap ->
  exists read, d_read ramfs_driver = Some read /\
    read id off cap st = Some (inr (take (Z.to_nat cap) (drop (Z.to_nat off) b)), st).
Proof.
  intros [r Hwf] (n & -> & Hf & <-) Ho Hc. eexists. split; [reflexivity|]. cbn beta.
  pose proof (tr_len _ _ (wf_tree _ _ Hwf)) as Hlen.
  by rewrite (read_spec st _ n off cap (wf_data _ _ Hwf)
                (node_from_id_of st n Hlen (proj1 Hf)) (proj1 Hf) (proj2 Hf) Ho Hc).
Qed.

Lemma ramfs_close_ok st id b :
  ramfs_ok st -> ramfs_open_file st id b ->
  exists close r st', d_close ramfs_driver = Some close /\ close id st = Some (r, st') /\
    ramfs_ok st' /\ True /\ forall q, ramfs_file_at st' q = ramfs_file_at st q.
Proof. intros Hok _. by do 3 eexists. Qed.

#[export] Instance ramfs_file_reader : file_reader ramfs_driver := {|
  fr_room := fun _ => True;
  open_file := ramfs_open_file;
  fr_open := ramfs_open_ok;
  fr_read := ramfs_read_ok;
  fr_close := ramfs_close_ok
|}.

End RamfsDriver.
