(* ===== verification/Pseudo.v ===== *)
(** * The pseudo file systems

    [core/fs/pseudo_core.c], [core/fs/devfs_core.c] and [core/fs/procfs_core.c]:
    the fixed trees [/dev] and [/proc], served by the kernel itself.  Their state
    is that of the services they use. *)

From S2P Require Import Prelude FsTypes FsPath Vfs.
From stdpp Require Import base list option list_numbers strings.
From Stdlib Require Import ZArith Lia ZifyBool.
Import FsTypes FsPath Vfs.
Open Scope Z_scope.

Module Pseudo.

Definition PSEUDO_FD_TAG : Z := 0x80000000.
Definition PSEUDO_IS_FD (id : Z) : bool := negb (Z.land id PSEUDO_FD_TAG =? 0).
(** [id & ~PSEUDO_FD_TAG]. *)
Definition pseudo_index (id : Z) : Z := Z.land id 0x7FFFFFFF.

Definition dev_names : list (list Z) :=
  [cstr "null"; cstr "zero"; cstr "tty"; cstr "console"; cstr "ttyS0"; cstr "kmsg"].
Definition proc_names : list (list Z) :=
  [cstr "version"; cstr "uptime"; cstr "meminfo"; cstr "modules"].

Fixpoint same (a b : list Z) : bool :=
  match a, b with
  | x :: a', y :: b' => if x =? y then same a' b' else false
  | [], [] => true
  | _, _ => false
  end.

(** 1: under [/dev], 2: under [/proc], 0: neither. *)
Definition mount (p : list Z) : Z :=
  if negb (char_at p 0 =? slash) then 0
  else if (char_at p 1 =? 100) && (char_at p 2 =? 101) && (char_at p 3 =? 118) &&
          ((char_at p 4 =? 0) || (char_at p 4 =? slash)) then 1
  else if (char_at p 1 =? 112) && (char_at p 2 =? 114) && (char_at p 3 =? 111) &&
          (char_at p 4 =? 99) && ((char_at p 5 =? 0) || (char_at p 5 =? slash)) then 2
  else 0.

Definition pseudo_fs_is_path (path : list Z) : bool := negb (mount path =? 0).

(** The index of the first name equal to [s]. *)
Fixpoint find_name (i : Z) (names : list (list Z)) (s : list Z) : option Z :=
  match names with
  | [] => None
  | n :: names' => if same s n then Some i else find_name (i + 1) names' s
  end.

Definition lookup (path : list Z) : Z :=
  let kind := mount path in
  if kind =? 1 then
    if same path (cstr "/dev") then -2
    else default (-1) (find_name 0 dev_names (drop 5 path))
  else if kind =? 2 then
    if same path (cstr "/proc") then -3
    else default (-1) (find_name 6 proc_names (drop 6 path))
  else -1.

Definition pseudo_fs_change_dir (path : list Z) : Z + unit :=
  let n := lookup path in
  if (n =? -2) || (n =? -3) then inr tt
  else inl (if n =? -1 then FS_ERR_NOT_FOUND else FS_ERR_NOT_DIR).

Definition pseudo_fs_list_dir (path : list Z) (cap : Z) : Z + list fs_dirent :=
  let id := lookup path in
  if negb (id =? -2) && negb (id =? -3)
  then inl (if id <? 0 then FS_ERR_NOT_FOUND else FS_ERR_NOT_DIR)
  else if cap <? (if id =? -2 then 8 else 6) then inl FS_ERR_NO_SPACE
  else inr ((dot, FS_NODE_DIR) :: (dotdot, FS_NODE_DIR) ::
            ((fun n => (n, FS_NODE_FILE)) <$> (if id =? -2 then dev_names else proc_names))).

Definition has_entry (name : list Z) (entries : list fs_dirent) : bool :=
  existsb (fun e => same e.1 name) entries.

Definition pseudo_fs_append_root (entries : list fs_dirent) (cap : Z) : Z + list fs_dirent :=
  let count := Z.of_nat (length entries) in
  if cap <? count then inl FS_ERR_INVALID
  else
    let has_dev := has_entry (cstr "dev") entries in
    let has_proc := has_entry (cstr "proc") entries in
    if cap <? count + Z.b2z (negb has_dev) + Z.b2z (negb has_proc) then inl FS_ERR_NO_SPACE
    else inr (entries ++ (if has_dev then [] else [(cstr "dev", FS_NODE_DIR)])
                      ++ (if has_proc then [] else [(cstr "proc", FS_NODE_DIR)])).

(** ** [/proc] *)

Definition PROC_BUF_SIZE : Z := 480.

(** The text written so far; a character that does not fit is dropped. *)
Definition proc_char (cap ch : Z) (w : list Z) : list Z :=
  if Z.of_nat (length w) + 1 <? cap then w ++ [ch] else w.

Fixpoint proc_text (cap : Z) (str : list Z) (w : list Z) : list Z :=
  match str with [] => w | c :: r => proc_text cap r (proc_char cap c w) end.

(** The digits, most significant first, of at most [count] turns of the loop. *)
Fixpoint proc_digits (count : nat) (n : Z) : list Z :=
  match count with
  | O => []
  | S c => (if n / 10 =? 0 then [] else proc_digits c (n / 10)) ++ [48 + n mod 10]
  end.

Definition proc_num (cap n : Z) (w : list Z) : list Z := proc_text cap (proc_digits 11 n) w.

Section Services.
Context {W : Type} `{services W}.

(** The loop over the loaded modules, from module [i] on. *)
Fixpoint proc_modules (count : nat) (i cap : Z) (s : W) (w : list Z) : list Z :=
  match count with
  | O => w
  | S c =>
      proc_modules c (i + 1) cap s
        (match smod_module_name s i with
         | Some name => proc_char cap 10 (proc_text cap name w)
         | None => w
         end)
  end.

Definition proc_build (which cap : Z) (s : W) : list Z :=
  if which =? 0 then
    proc_char cap 10 (proc_text cap (cstr "System/1 (Adava Software) SMOD ABI 3") [])
  else if which =? 1 then
    let ticks := u32 (timer_ticks_get s) in
    let w := proc_num cap (ticks / 100) [] in
    let w := proc_char cap 46 w in
    let w := proc_char cap (48 + (ticks mod 100) / 10) w in
    let w := proc_char cap (48 + ticks mod 10) w in
    proc_char cap 10 w
  else if which =? 2 then
    let st := mm_get_stats s in
    let line name value unit w :=
      proc_char cap 10 (proc_text cap unit (proc_num cap value (proc_text cap name w))) in
    let w := line (cstr "MemTotal: ") (u32 (total_pages st * 4)) (cstr " kB") [] in
    let w := line (cstr "MemFree: ") (u32 (free_pages st * 4)) (cstr " kB") w in
    line (cstr "HeapUsed: ") (heap_used_bytes st) (cstr " B") w
  else if which =? 3 then proc_modules (Z.to_nat (smod_module_count s)) 0 cap s []
  else [].

Definition procfs_read (which offset cap : Z) (s : W) : Z + list Z :=
  if 4 <=? which then inl FS_ERR_INVALID
  else
    let snapshot := proc_build which PROC_BUF_SIZE s in
    let n := Z.of_nat (length snapshot) in
    if n <=? offset then inr []
    else
      let cap := if n - offset <? cap then n - offset else cap in
      inr (take (Z.to_nat cap) (drop (Z.to_nat offset) snapshot)).

Definition procfs_size (which : Z) (s : W) : Z + Z :=
  if 4 <=? which then inl FS_ERR_INVALID
  else inr (Z.of_nat (length (proc_build which PROC_BUF_SIZE s))).

(** ** [/dev] *)

Definition devfs_read (which cap : Z) : M W (list Z) := fun s =>
  if which =? 0 then Some (inr [], s)
  else if which =? 1 then Some (inr (replicate (Z.to_nat cap) 0), s)
  else if (which =? 2) || (which =? 3) then
    '(rc, line, s) ← tty_readline cap s;
    if rc <? 0 then Some (inl FS_ERR_INVALID, s)
    else Some (inr (take (Z.to_nat rc) line), s)
  else if (which =? 4) || (which =? 5) then Some (inr [], s)
  else Some (inl FS_ERR_NOT_FOUND, s).

Fixpoint put_bytes (data : list Z) (s : W) : option W :=
  match data with [] => Some s | c :: r => s ← tty_putc c s; put_bytes r s end.

Fixpoint serial_bytes (data : list Z) (s : W) : W :=
  match data with [] => s | c :: r => serial_bytes r (smod_serial_write c s) end.

(** One line for the log: up to a line end or the 95 characters the buffer holds. *)
Fixpoint kmsg_line (n : Z) (data : list Z) : list Z * list Z :=
  match data with
  | [] => ([], [])
  | ch :: r =>
      if negb (n + 1 <? 96) then ([], data)
      else if (ch =? 10) || (ch =? 13) then ([], r)
      else let '(line, rest) := kmsg_line (n + 1) r in (ch :: line, rest)
  end.

(** Every turn consumes a byte, so [length data] turns are enough. *)
Fixpoint kmsg_loop (fuel : nat) (data : list Z) (s : W) : option W :=
  match fuel, data with
  | _, [] => Some s
  | O, _ => None
  | S f, _ =>
      let '(line, rest) := kmsg_line 0 data in
      s ← (if (length line =? 0)%nat then Some s else klog_info (cstr "kmsg") line s);
      kmsg_loop f rest s
  end.

(** Returns [*written]. *)
Definition devfs_write (which : Z) (data : list Z) : M W Z := fun s =>
  let len := Z.of_nat (length data) in
  if (which =? 0) || (which =? 1) then Some (inr len, s)
  else if (which =? 2) || (which =? 3) then s ← put_bytes data s; Some (inr len, s)
  else if which =? 4 then Some (inr len, serial_bytes data s)
  else if which =? 5 then s ← kmsg_loop (length data) data s; Some (inr len, s)
  else Some (inl FS_ERR_NOT_FOUND, s).

(** ** The common entry points *)

Definition stat_id (id : Z) (s : W) : Z + fs_stat :=
  if (id =? -2) || (id =? -3) then inr (FsStat FS_MODE_DIR 0)
  else if (id <? 0) || (10 <=? id) then inl FS_ERR_NOT_FOUND
  else if id <? 6 then inr (FsStat FS_MODE_CHAR 0)
  else match procfs_size (id - 6) s with
       | inl rc => inl rc
       | inr n => inr (FsStat FS_MODE_FILE n)
       end.

Definition pseudo_fs_stat (path : list Z) (s : W) : Z + fs_stat := stat_id (lookup path) s.

Definition pseudo_fs_open (path : list Z) (flags : Z) : Z + Z :=
  let id := lookup path in
  if (id =? -2) || (id =? -3) then inl FS_ERR_IS_DIR
  else if id <? 0 then inl FS_ERR_NOT_FOUND
  else if (6 <=? id) &&
          negb (Z.land flags (Z.lor FS_O_WRONLY (Z.lor FS_O_CREAT FS_O_TRUNC)) =? 0)
  then inl FS_ERR_READ_ONLY
  else inr (Z.lor PSEUDO_FD_TAG id).

Definition pseudo_fs_read (id offset cap : Z) : M W (list Z) := fun s =>
  let id := pseudo_index id in
  if id <? 6 then devfs_read id cap s
  else Some (if id <? 10 then procfs_read (id - 6) offset cap s else inl FS_ERR_INVALID, s).

Definition pseudo_fs_write (id : Z) (data : list Z) : M W Z :=
  let id := pseudo_index id in
  if id <? 6 then devfs_write id data else fail FS_ERR_READ_ONLY.

Definition pseudo_fs_size (id : Z) (s : W) : Z + Z :=
  let id := pseudo_index id in
  if 10 <=? id then inl FS_ERR_INVALID
  else if id <? 6 then inr 0
  else procfs_size (id - 6) s.

Definition pseudo_fs_fstat (id : Z) (s : W) : Z + fs_stat := stat_id (pseudo_index id) s.

Definition pseudo_fs_close (id : Z) : Z + unit :=
  if pseudo_index id <? 10 then inr tt else inl FS_ERR_INVALID.

Definition pseudo_fs_read_file (path : list Z) (cap : Z) : M W (list Z) := fun s =>
  match pseudo_fs_open path FS_O_RDONLY with
  | inl rc => Some (inl rc, s)
  | inr id => pseudo_fs_read id 0 cap s
  end.

End Services.

End Pseudo.
