(* ===== verification/FsCore.v ===== *)
(** * The file-system front end

    [core/fs/fs_core.c]: mounting, path resolution with symbolic links, and the
    dispatch of every operation to the pseudo file systems or to the root driver. *)

From S2P Require Import Prelude FsTypes FsPath Ramfs Vfs Pseudo.
From stdpp Require Import base list option list_numbers strings.
From Stdlib Require Import ZArith Lia ZifyBool.
Import FsTypes FsPath Vfs Pseudo.
Open Scope Z_scope.
Open Scope vfs_scope.

Module FsCore.

Definition FS_SYMLINK_PREFIX : list Z := cstr "S1SYMLINK:".
Definition FS_SYMLINK_PREFIX_LEN : Z := 10.
Definition FS_SYMLINK_MAX_DEPTH : nat := 8.
(** [sizeof(g_symlink_buffer)]. *)
Definition SYMLINK_BUFFER : Z := FS_PATH_CAP + 16.

Definition FS_MEDIA_NONE : Z := 0.
Definition FS_MEDIA_FAT12 : Z := 1.
Definition FS_MEDIA_ISO9660 : Z := 2.

(** The three driver tables a driver pointer can point to. *)
Inductive driver := RAMFS_DRIVER | FAT12_DRIVER | ISO9660_DRIVER.

#[export] Instance driver_eq : EqDecision driver.
Proof. solve_decision. Defined.

(** What the front end uses of the file systems below it: their driver tables, and
    the functions it calls by name. *)
Class storage (S : Type) := Storage {
  driver_ops : driver -> vfs_driver S;
  ramfs_core_init : S -> Z * S;
  ramfs_core_clear_dirty : S -> S;
  fs_install_bootmedia_device : S -> option S;
  block_core_has_root_device : S -> bool;
  fat12_core_mount : M S unit;
  iso9660_core_mount : M S unit;
  fat12_core_buffer_bytes : S -> Z;
  ramfs_core_get_stats : S -> Ramfs.ramfs_stats
}.

Section FsCore.
Context {S W : Type} `{storage S} `{services W}.

(** The variables of the file, the store and the services it works on, and the
    [cwd] field of the current process, which it reads and sets. *)
Record fs := Fs {
  g_root_driver : option driver;
  g_media_driver : option driver;
  g_media_kind : Z;
  store : S;
  env : W;
  cwd : list Z
}.

Definition set_store (s : S) (f : fs) : fs :=
  Fs (g_root_driver f) (g_media_driver f) (g_media_kind f) s (env f) (cwd f).
Definition set_env (w : W) (f : fs) : fs :=
  Fs (g_root_driver f) (g_media_driver f) (g_media_kind f) (store f) w (cwd f).
Definition set_cwd (c : list Z) (f : fs) : fs :=
  Fs (g_root_driver f) (g_media_driver f) (g_media_kind f) (store f) (env f) c.
Definition set_root (d : option driver) (f : fs) : fs :=
  Fs d (g_media_driver f) (g_media_kind f) (store f) (env f) (cwd f).
Definition set_media (d : option driver) (k : Z) (f : fs) : fs :=
  Fs (g_root_driver f) d k (store f) (env f) (cwd f).

Definition on_store {A} (m : M S A) : M fs A := fun f =>
  match m (store f) with None => None | Some (r, s) => Some (r, set_store s f) end.
Definition on_env {A} (m : M W A) : M fs A := fun f =>
  match m (env f) with None => None | Some (r, w) => Some (r, set_env w f) end.
(** An operation that only reads the services. *)
Definition view_env {A} (m : W -> Z + A) : M fs A := fun f => Some (m (env f), f).

(** [g_root_driver->op], or [rc] when either pointer is null. *)
Definition root_op {X} (op : vfs_driver S -> option X) (rc : Z) : M fs X := fun f =>
  Some (match g_root_driver f with
        | None => inl rc
        | Some d => match op (driver_ops d) with None => inl rc | Some x => inr x end
        end, f).

(** ** The working directory *)

(** [process_copy_string] of [process_core.c]. *)
Fixpoint process_copy_string (i cap : Z) (src : list Z) : list Z :=
  match src with
  | [] => []
  | c :: r => if i + 1 <? cap then c :: process_copy_string (i + 1) cap r else []
  end.

(** [process_core_set_cwd(process_core_current(), path)]. *)
Definition process_set_cwd (path : list Z) : M fs unit := fun f =>
  Some (inr tt, set_cwd (process_copy_string 0 FS_PATH_CAP path) f).

Definition fs_core_get_cwd_path : M fs (list Z) := fun f =>
  if negb (length (cwd f) =? 0)%nat then Some (inr (cwd f), f)
  else match g_root_driver f ≫= (fun d => d_get_cwd_path (driver_ops d)) with
       | None => Some (inr [slash], f)
       | Some op => on_store op f
       end.

(** [fs_core_normalize_path(fs_core_get_cwd_path(), path, full_path, FS_PATH_CAP)]. *)
Definition full_path_of (path : option (list Z)) : M fs (list Z) :=
  c <- fs_core_get_cwd_path ;;
  lift (fs_core_normalize_path (Some c) path FS_PATH_CAP).

(** ** Symbolic links: files whose content is the prefix and the target *)

(** The copy loop: up to a line end or a NUL. *)
Fixpoint link_text (s : list Z) : list Z :=
  match s with
  | [] => []
  | ch :: r => if (ch =? 10) || (ch =? 13) || (ch =? 0) then [] else ch :: link_text r
  end.

Definition fs_raw_readlink (full_path : list Z) (cap : Z) : M fs (list Z) :=
  guard (negb (cap =? 0)) FS_ERR_INVALID ;;;
  stat <- root_op d_stat FS_ERR_INVALID ;;
  read_file <- root_op d_read_file FS_ERR_INVALID ;;
  st <- on_store (stat full_path) ;;
  guard (negb ((Z.land (st_mode st) FS_MODE_FILE =? 0) ||
               (st_size st <=? FS_SYMLINK_PREFIX_LEN) ||
               (SYMLINK_BUFFER <=? st_size st))) FS_ERR_INVALID ;;;
  bytes <- on_store (read_file full_path SYMLINK_BUFFER) ;;
  let size := Z.of_nat (length bytes) in
  guard (negb (size <=? FS_SYMLINK_PREFIX_LEN)) FS_ERR_INVALID ;;;
  guard (fs_streq_local (take (Z.to_nat FS_SYMLINK_PREFIX_LEN) bytes) FS_SYMLINK_PREFIX)
        FS_ERR_INVALID ;;;
  guard (negb (cap <? size - FS_SYMLINK_PREFIX_LEN + 1)) FS_ERR_NO_SPACE ;;;
  ret (link_text (drop (Z.to_nat FS_SYMLINK_PREFIX_LEN) bytes)).

(** Where a link at [current] with text [target] points to. *)
Definition link_target (current target : list Z) : Z + list Z :=
  if char_at target 0 =? slash
  then fs_core_normalize_path (Some [slash]) (Some target) FS_PATH_CAP
  else match fs_parent_path current FS_PATH_CAP with
       | inl rc => inl rc
       | inr parent => fs_core_normalize_path (Some parent) (Some target) FS_PATH_CAP
       end.

(** The loop, with [depth] turns left. *)
Fixpoint resolve_loop (depth : nat) (current : list Z) (cap : Z) : M fs (list Z) :=
  match depth with
  | O => fail FS_ERR_INVALID
  | Datatypes.S depth =>
      r <- attempt (fs_raw_readlink current FS_PATH_CAP) ;;
      match r with
      | inl _ => ret (fs_copy_name cap (Some current))
      | inr target =>
          if (length target =? 0)%nat then fail FS_ERR_INVALID
          else next <- lift (link_target current target) ;; resolve_loop depth next cap
      end
  end.

Definition fs_resolve_final_symlink (full_path : list Z) (cap : Z) : M fs (list Z) :=
  resolve_loop FS_SYMLINK_MAX_DEPTH (fs_copy_name FS_PATH_CAP (Some full_path)) cap.

(** ** Mounting *)

Definition fs_core_init_ramfs : M fs unit := fun f =>
  let f := set_media None FS_MEDIA_NONE (set_root None f) in
  let '(rc, s) := ramfs_core_init (store f) in
  let f := set_store s f in
  if negb (rc =? FS_OK) then Some (inl rc, f)
  else Some (inr tt, set_store (ramfs_core_clear_dirty (store f))
                       (set_root (Some RAMFS_DRIVER) f)).

Definition fs_mount_media_driver (d : driver) : M fs unit := fun f =>
  match d_init (driver_ops d) with
  | None => Some (inl FS_ERR_INVALID, f)
  | Some init =>
      (on_store init ;;;
       fun f => Some (inr tt, set_media (Some d) (g_media_kind f) f)) f
  end.

(** One probe: the mount function, then the driver's [init]; [None] when the mount
    function refused the device. *)
Definition fs_probe_one (mount : M S unit) (d : driver) (kind : Z) : M fs (option unit) :=
  r <- attempt (on_store mount) ;;
  match r with
  | inr _ =>
      fs_mount_media_driver d ;;;
      fun f => Some (inr (Some tt), set_media (g_media_driver f) kind f)
  | inl _ => ret None
  end.

Definition fs_probe_block_root : M fs unit := fun f =>
  let f := set_media None FS_MEDIA_NONE f in
  if negb (block_core_has_root_device (store f)) then Some (inl FS_ERR_NOT_FOUND, f)
  else
    (r <- fs_probe_one fat12_core_mount FAT12_DRIVER FS_MEDIA_FAT12 ;;
     match r with
     | Some _ => ret tt
     | None =>
         r <- fs_probe_one iso9660_core_mount ISO9660_DRIVER FS_MEDIA_ISO9660 ;;
         match r with Some _ => ret tt | None => fail FS_ERR_NOT_FOUND end
     end) f.

Definition fs_core_mount_boot_media : M fs unit := fun f =>
  if negb (bool_decide (g_root_driver f = Some RAMFS_DRIVER)) then Some (inl FS_ERR_INVALID, f)
  else
    s ← fs_install_bootmedia_device (store f);
    match fs_probe_block_root (set_store s f) with
    | None => None
    | Some (inl _, f) => Some (inl FS_ERR_NOT_FOUND, set_media None FS_MEDIA_NONE f)
    | Some (inr _, f) => process_set_cwd [slash] (set_root (g_media_driver f) f)
    end.

Definition fs_core_init : M fs unit :=
  fs_core_init_ramfs ;;; (_ <- attempt fs_core_mount_boot_media ;; ret tt).

(** ** Operations on paths *)

Definition fs_core_change_dir (path : option (list Z)) : M fs unit :=
  change_dir <- root_op d_change_dir FS_ERR_INVALID ;;
  full_path <- full_path_of path ;;
  resolved <- fs_resolve_final_symlink full_path FS_PATH_CAP ;;
  (if pseudo_fs_is_path resolved then lift (pseudo_fs_change_dir resolved)
   else on_store (change_dir resolved)) ;;;
  process_set_cwd resolved.

Definition fs_core_make_dir (path : option (list Z)) : M fs unit :=
  make_dir <- root_op d_make_dir FS_ERR_READ_ONLY ;;
  full_path <- full_path_of path ;;
  if pseudo_fs_is_path full_path then fail FS_ERR_READ_ONLY
  else on_store (make_dir full_path).

(** The path of an entry of the directory [full_path]. *)
Definition child_path (full_path name : list Z) : list Z :=
  let base_len := length full_path in
  full_path ++ (if (base_len =? 0)%nat || negb (char_at full_path (base_len - 1) =? slash)
                then [slash] else []) ++ name.

(** The loop that turns the entries that are links into [FS_NODE_SYMLINK]. *)
Fixpoint mark_links (full_path : list Z) (entries : list fs_dirent) : M fs (list fs_dirent) :=
  match entries with
  | [] => ret []
  | (name, type) :: rest =>
      type <- (if FS_PATH_CAP <=? Z.of_nat (length full_path) + Z.of_nat (length name) + 2
               then ret type
               else r <- attempt (fs_raw_readlink (child_path full_path name) FS_PATH_CAP) ;;
                    ret (match r with inr _ => FS_NODE_SYMLINK | inl _ => type end)) ;;
      rest <- mark_links full_path rest ;;
      ret ((name, type) :: rest)
  end.

Definition fs_core_list_dir (path : option (list Z)) (cap : Z) : M fs (list fs_dirent) :=
  list_dir <- root_op d_list_dir FS_ERR_INVALID ;;
  full_path <- full_path_of (match path with None | Some [] => Some dot | _ => path end) ;;
  if pseudo_fs_is_path full_path then lift (pseudo_fs_list_dir full_path cap)
  else
    entries <- on_store (list_dir full_path cap) ;;
    entries <- mark_links full_path entries ;;
    if fs_streq_local full_path [slash] then lift (pseudo_fs_append_root entries cap)
    else ret entries.

Definition fs_core_read_file (path : option (list Z)) (cap : Z) : M fs (list Z) :=
  full_path <- full_path_of path ;;
  if pseudo_fs_is_path full_path then on_env (pseudo_fs_read_file full_path cap)
  else
    read_file <- root_op d_read_file FS_ERR_INVALID ;;
    resolved <- fs_resolve_final_symlink full_path FS_PATH_CAP ;;
    on_store (read_file resolved cap).

(** Returns [*out_node_id]. *)
Definition fs_core_open (path : option (list Z)) (flags : Z) : M fs Z :=
  full_path <- full_path_of path ;;
  if pseudo_fs_is_path full_path then lift (pseudo_fs_open full_path flags)
  else
    open <- root_op d_open FS_ERR_INVALID ;;
    if negb (Z.land flags FS_O_CREAT =? 0) then on_store (open full_path flags)
    else
      resolved <- fs_resolve_final_symlink full_path FS_PATH_CAP ;;
      on_store (open resolved flags).

Definition fs_core_stat (path : option (list Z)) : M fs fs_stat :=
  full_path <- full_path_of path ;;
  if pseudo_fs_is_path full_path then view_env (pseudo_fs_stat full_path)
  else
    stat <- root_op d_stat FS_ERR_INVALID ;;
    resolved <- fs_resolve_final_symlink full_path FS_PATH_CAP ;;
    on_store (stat resolved).

Definition fs_core_unlink (path : option (list Z)) : M fs unit :=
  full_path <- full_path_of path ;;
  if pseudo_fs_is_path full_path then fail FS_ERR_READ_ONLY
  else
    unlink <- root_op d_unlink FS_ERR_READ_ONLY ;;
    on_store (unlink full_path).

Definition fs_core_rmdir (path : option (list Z)) : M fs unit :=
  guard (match path with None => false | Some _ => true end) FS_ERR_READ_ONLY ;;;
  rmdir <- root_op d_rmdir FS_ERR_READ_ONLY ;;
  full_path <- full_path_of path ;;
  if fs_streq_local full_path [slash] then fail FS_ERR_INVALID
  else if pseudo_fs_is_path full_path then fail FS_ERR_READ_ONLY
  else on_store (rmdir full_path).

Definition fs_core_readlink (path : option (list Z)) (cap : Z) : M fs (list Z) :=
  full_path <- full_path_of path ;;
  fs_raw_readlink full_path cap.

(** A call through a null pointer does not return. *)
Definition call_close (id : Z) : M fs unit := fun f =>
  match g_root_driver f ≫= (fun d => d_close (driver_ops d)) with
  | None => None
  | Some close => on_store (close id) f
  end.

Definition fs_core_symlink (target linkpath : option (list Z)) : M fs unit :=
  match target, linkpath with
  | Some ((_ :: _) as target), Some ((_ :: _) as linkpath) =>
      let target_len := Z.of_nat (length target) in
      guard (target_len - 1 + FS_SYMLINK_PREFIX_LEN + 1 <? SYMLINK_BUFFER) FS_ERR_NO_SPACE ;;;
      full_path <- full_path_of (Some linkpath) ;;
      open <- root_op d_open FS_ERR_READ_ONLY ;;
      write <- root_op d_write FS_ERR_READ_ONLY ;;
      node_id <- on_store (open full_path
                             (Z.lor FS_O_CREAT (Z.lor FS_O_TRUNC FS_O_WRONLY))) ;;
      rc <- attempt (on_store (write node_id 0 (FS_SYMLINK_PREFIX ++ target))) ;;
      _ <- attempt (call_close node_id) ;;
      written <- lift rc ;;
      if written =? FS_SYMLINK_PREFIX_LEN + target_len then ret tt else fail FS_ERR_INVALID
  | _, _ => fail FS_ERR_INVALID
  end.

(** ** Operations on open files *)

Definition fs_core_read (id offset cap : Z) : M fs (list Z) :=
  if PSEUDO_IS_FD id then on_env (pseudo_fs_read id offset cap)
  else read <- root_op d_read FS_ERR_INVALID ;; on_store (read id offset cap).

Definition fs_core_write (id offset : Z) (bytes : list Z) : M fs Z :=
  if PSEUDO_IS_FD id then on_env (pseudo_fs_write id bytes)
  else write <- root_op d_write FS_ERR_READ_ONLY ;; on_store (write id offset bytes).

Definition fs_core_size (id : Z) : M fs Z :=
  if PSEUDO_IS_FD id then view_env (pseudo_fs_size id)
  else size <- root_op d_size FS_ERR_INVALID ;; on_store (size id).

Definition fs_core_close (id : Z) : M fs unit :=
  if PSEUDO_IS_FD id then lift (pseudo_fs_close id)
  else fun f => match g_root_driver f ≫= (fun d => d_close (driver_ops d)) with
                | None => Some (inr tt, f)
                | Some close => on_store (close id) f
                end.

Definition fs_core_fstat (id : Z) : M fs fs_stat :=
  if PSEUDO_IS_FD id then view_env (pseudo_fs_fstat id)
  else fstat <- root_op d_fstat FS_ERR_INVALID ;; on_store (fstat id).

(** ** Statistics *)

Record fs_core_stats := FsStats {
  stats_ramfs : Ramfs.ramfs_stats; boot_media_kind : Z; block_cache_bytes : Z;
  largest_fs_scratch_bytes : Z
}.

Definition fs_core_get_stats (f : fs) : fs_core_stats :=
  let bytes := if g_media_kind f =? FS_MEDIA_FAT12 then fat12_core_buffer_bytes (store f) else 0 in
  FsStats (ramfs_core_get_stats (store f)) (g_media_kind f) bytes bytes.

Definition fs_core_is_writable (f : fs) : Z :=
  match g_root_driver f with
  | None => 0
  | Some _ => if g_media_kind f =? FS_MEDIA_ISO9660 then 0 else 1
  end.

End FsCore.
Arguments fs : clear implicits.

End FsCore.
