(* ===== verification/FsLinks.v ===== *)
(** * Symbolic links and the working directory

    What the front end does with links, for any root driver that honours
    [file_driver]: reading a link, the bounded resolution of the last component,
    creating links and reading them back, and the working directory. *)

From S2P Require Import Prelude FsTypes FsPath Vfs Pseudo FsCore.
From stdpp Require Import base list option list_numbers.
From Stdlib Require Import ZArith Lia ZifyBool.
Import FsTypes FsPath FsPathProps Vfs Pseudo FsCore.
Open Scope Z_scope.

Module FsLinks.

(** ** Link files *)

(** The contents of a link file that fits the buffer of the reader. *)
Definition is_link (b : list Z) : bool :=
  (FS_SYMLINK_PREFIX_LEN <? Z.of_nat (length b)) && (Z.of_nat (length b) <? SYMLINK_BUFFER) &&
  fs_streq_local (take (Z.to_nat FS_SYMLINK_PREFIX_LEN) b) FS_SYMLINK_PREFIX.

Definition link_of (b : list Z) : list Z := link_text (drop (Z.to_nat FS_SYMLINK_PREFIX_LEN) b).

(** A target that survives the round trip: no line end, no NUL. *)
Definition plain_text (t : list Z) : Prop := Forall (fun c => c <> 10 /\ c <> 13 /\ c <> 0) t.

Lemma link_text_plain t : plain_text t -> link_text t = t.
Proof.
  induction 1 as [|c t (H1 & H2 & H3) _ IH]; [done|]. simpl.
  apply Z.eqb_neq in H1, H2, H3. by rewrite H1, H2, H3, IH.
Qed.

Lemma link_of_prefix t : plain_text t -> link_of (FS_SYMLINK_PREFIX ++ t) = t.
Proof. intros Ht. by apply link_text_plain. Qed.

Lemma is_link_prefix t :
  t <> [] -> FS_SYMLINK_PREFIX_LEN + Z.of_nat (length t) < SYMLINK_BUFFER ->
  is_link (FS_SYMLINK_PREFIX ++ t) = true.
Proof.
  intros Hne Hl. unfold is_link. rewrite length_app.
  change (length FS_SYMLINK_PREFIX) with 10%nat. unfold FS_SYMLINK_PREFIX_LEN in *.
  assert (1 <= length t)%nat by (destruct t; [done|simpl; lia]).
  destruct (Z.ltb_spec 10 (Z.of_nat (10 + length t))); [|lia].
  by destruct (Z.ltb_spec (Z.of_nat (10 + length t)) SYMLINK_BUFFER); [|lia].
Qed.

Section Links.
Context {S W : Type} `{!storage S} `{!services W}.
Context (d : driver) `{!file_driver (driver_ops d)}.

#[local] Notation fs := (fs S W).

(** The root driver is [d], its store is well formed and the working directory is a
    canonical path without NUL. *)
Record ready (f : fs) (cs : list (list Z)) : Prop := {
  rd_root : g_root_driver f = Some d;
  rd_store : fd_ok (store f);
  rd_cwd : cwd f = render cs;
  rd_canonical : canonical cs
}.

(** The text of the link at [p], as far as a buffer of [cap] bytes takes it. *)
Definition link_at (s : S) (p : list Z) (cap : Z) : option (list Z) :=
  match file_at s p with
  | Some b => if is_link b && (Z.of_nat (length b) - FS_SYMLINK_PREFIX_LEN <? cap)
              then Some (link_of b) else None
  | None => None
  end.

Lemma set_store_same (f : fs) : set_store (store f) f = f.
Proof. by destruct f. Qed.

Lemma on_store_same {A} (m : M S A) r (f : fs) :
  m (store f) = Some (r, store f) -> on_store m f = Some (r, f).
Proof. intros E. unfold on_store. by rewrite E, set_store_same. Qed.

Lemma root_op_some {X} (op : vfs_driver S -> option X) rc x (f : fs) :
  g_root_driver f = Some d -> op (driver_ops d) = Some x -> root_op op rc f = Some (inr x, f).
Proof. intros Hr Hx. unfold root_op. by rewrite Hr, Hx. Qed.

Lemma bind_inr {A B} (m : M fs A) (k : A -> M fs B) f a f' :
  m f = Some (inr a, f') -> bind m k f = k a f'.
Proof. intros E. unfold bind. by rewrite E. Qed.

Lemma bind_inl {A B} (m : M fs A) (k : A -> M fs B) f e f' :
  m f = Some (inl e, f') -> bind m k f = Some (inl e, f').
Proof. intros E. unfold bind. by rewrite E. Qed.

Lemma bind_success {A B} (m : M fs A) (k : A -> M fs B) f b f' :
  bind m k f = Some (inr b, f') -> exists a f1, m f = Some (inr a, f1) /\ k a f1 = Some (inr b, f').
Proof. unfold bind. destruct (m f) as [[[e|a] f1]|]; [done| |done]. intros E. by exists a, f1. Qed.

(** Reading a link changes nothing and returns its text, or an error: the code is
    [FS_ERR_NO_SPACE] when the file is a link that does not fit. *)
Lemma raw_readlink_spec p cap (f : fs) :
  g_root_driver f = Some d -> fd_ok (store f) -> cap <> 0 ->
  exists r, fs_raw_readlink p cap f = Some (r, f) /\
  match file_at (store f) p with
  | Some b => if is_link b then
                r = if Z.of_nat (length b) - FS_SYMLINK_PREFIX_LEN <? cap
                    then inr (link_of b) else inl FS_ERR_NO_SPACE
              else exists e, r = inl e
  | None => exists e, r = inl e
  end.
Proof.
  intros Hroot Hok Hcap. unfold fs_raw_readlink. apply Z.eqb_neq in Hcap. rewrite Hcap.
  destruct (fd_stat (store f) p Hok) as (stat & r & Hs & Est & Hst).
  destruct (fd_read_file (store f) p SYMLINK_BUFFER Hok ltac:(done)) as (rf & r2 & Hrf & Erf & Hf).
  rewrite (bind_inr _ _ f tt f) by done.
  rewrite (bind_inr _ _ f stat f) by (by apply root_op_some).
  rewrite (bind_inr _ _ f rf f) by (by apply root_op_some).
  destruct r as [e|st].
  { rewrite (bind_inl _ _ f e f) by (by apply on_store_same). eexists. split; [done|].
    destruct (file_at (store f) p); [|by eexists]. by destruct Hst as (m & ? & _). }
  rewrite (bind_inr _ _ f st f) by (by apply on_store_same).
  destruct (file_at (store f) p) as [b|].
  2: { rewrite Hst. cbn. eexists. split; [done|]. by eexists. }
  destruct Hst as (m & [= ->] & Hm). cbn [st_mode st_size]. apply Z.eqb_neq in Hm. rewrite Hm.
  unfold is_link. cbn [orb].
  destruct (Z.leb_spec (Z.of_nat (length b)) FS_SYMLINK_PREFIX_LEN) as [H1|H1];
    destruct (Z.ltb_spec FS_SYMLINK_PREFIX_LEN (Z.of_nat (length b))) as [H2|H2]; try lia;
    cbn [orb andb negb guard]; [by eexists; split; [|eexists]|].
  destruct (Z.leb_spec SYMLINK_BUFFER (Z.of_nat (length b))) as [H3|H3];
    destruct (Z.ltb_spec (Z.of_nat (length b)) SYMLINK_BUFFER) as [H4|H4]; try lia;
    cbn [orb andb negb guard]; [by eexists; split; [|eexists]|].
  rewrite (bind_inr _ _ f tt f) by done.
  destruct (Z.ltb_spec SYMLINK_BUFFER (Z.of_nat (length b))); [lia|]. subst r2.
  rewrite (bind_inr _ _ f b f) by (by apply on_store_same). cbv zeta.
  destruct (Z.leb_spec (Z.of_nat (length b)) FS_SYMLINK_PREFIX_LEN); [lia|].
  rewrite (bind_inr _ _ f tt f) by done.
  destruct (fs_streq_local _ _); [|by eexists; split; [|eexists]].
  rewrite (bind_inr _ _ f tt f) by done.
  destruct (Z.ltb_spec cap (Z.of_nat (length b) - FS_SYMLINK_PREFIX_LEN + 1));
    destruct (Z.ltb_spec (Z.of_nat (length b) - FS_SYMLINK_PREFIX_LEN) cap); try lia;
    by eexists.
Qed.

(** The same, by [link_at]. *)
Lemma raw_readlink_link_at p cap (f : fs) :
  g_root_driver f = Some d -> fd_ok (store f) -> cap <> 0 ->
  exists r, fs_raw_readlink p cap f = Some (r, f) /\
  match link_at (store f) p cap with Some t => r = inr t | None => exists e, r = inl e end.
Proof.
  intros Hroot Hok Hcap. destruct (raw_readlink_spec p cap f Hroot Hok Hcap) as (r & E & Hr).
  exists r. split; [done|]. unfold link_at. destruct (file_at (store f) p) as [b|]; [|done].
  destruct (is_link b); [|done]. cbn [andb]. subst r.
  destruct (Z.of_nat (length b) - FS_SYMLINK_PREFIX_LEN <? cap); [done|by eexists].
Qed.

(** ** Resolution *)

(** [n] links lead from [p] to [q]. *)
Inductive follows (s : S) : nat -> list Z -> list Z -> Prop :=
| follows_here p : follows s 0 p p
| follows_link n p t q r :
    link_at s p FS_PATH_CAP = Some t -> t <> [] -> link_target p t = inr q ->
    follows s n q r -> follows s (Datatypes.S n) p r.

(** From a link, a path that is not one is reached through the link's target. *)
Lemma follows_inv s n p t r :
  follows s n p r -> link_at s p FS_PATH_CAP = Some t -> link_at s r FS_PATH_CAP = None ->
  t <> [] /\ exists m q, n = Datatypes.S m /\ link_target p t = inr q /\ follows s m q r.
Proof.
  intros Hf Hp Hr. destruct Hf as [p|n p t' q r Hl Ht Hq Hf]; [congruence|].
  assert (t' = t) as -> by congruence. split; [done|]. by exists n, q.
Qed.

Lemma link_target_canonical cs t q :
  canonical cs -> link_target (render cs) t = inr q -> exists ds, canonical ds /\ q = render ds.
Proof.
  intros Hc. unfold link_target. destruct (char_at t 0 =? slash).
  - change [slash] with (render []). intros E.
    destruct (normalize_path_ok [] t _ q canonical_nil E) as (ds & _ & ? & -> & _). by exists ds.
  - rewrite fs_parent_path_render by done. intros E.
    assert (canonical (removelast cs)) as Hr.
    { destruct cs as [|c cs _] using rev_ind; [done|]. rewrite removelast_last.
      by apply canonical_app in Hc. }
    destruct (normalize_path_ok _ t _ q Hr E) as (ds & _ & ? & -> & _). by exists ds.
Qed.

Lemma follows_canonical s n p q cs :
  follows s n p q -> p = render cs -> canonical cs -> exists ds, canonical ds /\ q = render ds.
Proof.
  intros Hf. revert cs. induction Hf as [p|n p t q r Hl Ht Hq _ IH]; intros cs -> Hc.
  - by exists cs.
  - destruct (link_target_canonical cs t q Hc Hq) as (ds & Hd & ->). by apply (IH ds).
Qed.

(** The result of the loop, with [depth] turns left. *)
Lemma resolve_loop_spec depth cs (f : fs) :
  g_root_driver f = Some d -> fd_ok (store f) -> canonical cs ->
  exists r, resolve_loop depth (render cs) FS_PATH_CAP f = Some (r, f) /\
  forall q, r = inr q <->
    exists n, (n < depth)%nat /\ follows (store f) n (render cs) q /\
              link_at (store f) q FS_PATH_CAP = None.
Proof.
  intros Hroot Hok. revert cs. induction depth as [|k IH]; intros cs Hc.
  { exists (inl FS_ERR_INVALID). split; [done|]. intros q. split; [done|]. by intros (n & ? & _); lia. }
  cbn [resolve_loop]. unfold attempt at 1, bind at 1.
  destruct (raw_readlink_link_at (render cs) FS_PATH_CAP f Hroot Hok ltac:(done)) as (r & -> & Hr).
  destruct (link_at (store f) (render cs) FS_PATH_CAP) as [t|] eqn:El.
  - subst r. destruct t as [|c t'] eqn:Et; rewrite <- ?Et in *.
    { exists (inl FS_ERR_INVALID). rewrite Et. split; [done|]. intros q. split; [done|].
      intros (n & _ & Hf & Hq). by destruct (follows_inv _ _ _ _ _ Hf El Hq) as [[] _]. }
    assert ((length t =? 0)%nat = false) as -> by (by rewrite Et).
    unfold lift at 1, bind at 1. destruct (link_target (render cs) t) as [e|next] eqn:En.
    { exists (inl e). split; [done|]. intros q. split; [done|].
      intros (n & _ & Hf & Hq). destruct (follows_inv _ _ _ _ _ Hf El Hq) as (_ & m & q' & _ & ? & _).
      congruence. }
    destruct (link_target_canonical cs t next Hc En) as (ds & Hd & ->).
    destruct (IH ds Hd) as (r & -> & Hr). exists r. split; [done|]. intros q. rewrite Hr. split.
    + intros (n & Hn & Hf & Hq). exists (Datatypes.S n). split_and!; [lia| |done].
      econstructor; [done| |done|done]. by rewrite Et.
    + intros (n & Hn & Hf & Hq). destruct (follows_inv _ _ _ _ _ Hf El Hq) as (_ & m & q' & -> & ? & ?).
      assert (q' = render ds) as -> by congruence. exists m. split_and!; [lia|done|done].
  - destruct Hr as [e ->]. eexists. split; [done|]. unfold fs_copy_name.
    rewrite copy_name_loop_short by (destruct Hc; lia). intros q. split.
    + intros [= <-]. exists 0%nat. split_and!; [lia|constructor|done].
    + intros (n & Hn & Hf & Hq). by destruct Hf as [p|]; [|congruence].
Qed.

Lemma resolve_symlink_spec cs (f : fs) :
  g_root_driver f = Some d -> fd_ok (store f) -> canonical cs ->
  exists r, fs_resolve_final_symlink (render cs) FS_PATH_CAP f = Some (r, f) /\
  forall q, r = inr q <->
    exists n, (n < FS_SYMLINK_MAX_DEPTH)%nat /\ follows (store f) n (render cs) q /\
              link_at (store f) q FS_PATH_CAP = None.
Proof.
  intros Hroot Hok Hc. unfold fs_resolve_final_symlink, fs_copy_name.
  rewrite copy_name_loop_short by (destruct Hc; lia). by apply resolve_loop_spec.
Qed.

(** ** Absolute and relative arguments *)

Lemma full_path_spec path cs (f : fs) :
  ready f cs ->
  full_path_of path f = Some (fs_core_normalize_path (Some (render cs)) path FS_PATH_CAP, f).
Proof.
  intros [_ _ Hcwd _]. unfold full_path_of, fs_core_get_cwd_path, bind, lift. rewrite Hcwd.
  by destruct (render_nonempty cs) as [r ->].
Qed.

Lemma full_path_ok path cs (f : fs) ds :
  ready f cs -> normalized cs path = Some ds -> path <> [] ->
  full_path_of (Some path) f = Some (inr (render ds), f).
Proof.
  intros Hr Hn Hne. rewrite (full_path_spec (Some path) cs f Hr).
  rewrite normalize_path_resolve by apply Hr. rewrite Hn.
  destruct (normalized_canonical cs path ds (rd_canonical _ _ Hr) Hn) as [_ Hl].
  destruct path; [done|]. cbn [length Nat.eqb orb]. change (FS_PATH_CAP <? 2) with false.
  cbn [orb]. destruct (Z.leb_spec FS_PATH_CAP (Z.of_nat (length (render ds)))); [lia|done].
Qed.

(** ** Creating links *)

(** A successful [fs_core_symlink]: the store, the path and the contents written. *)
Lemma symlink_spec target link cs (f f' : fs) ds :
  ready f cs -> normalized cs link = Some ds -> Forall (fun c => c <> 0) (render ds) ->
  fs_core_symlink (Some target) (Some link) f = Some (inr tt, f') ->
  FS_SYMLINK_PREFIX_LEN + Z.of_nat (length target) < SYMLINK_BUFFER /\ target <> [] /\
  ready f' cs /\ file_at (store f') (render ds) = Some (FS_SYMLINK_PREFIX ++ target).
Proof.
  intros Hr Hn Hnz. unfold fs_core_symlink. destruct target as [|c t] eqn:Et; [done|].
  destruct link as [|l ls] eqn:El; [done|]. rewrite <- Et, <- El in *. cbv zeta.
  intros E. apply bind_success in E as (? & f0 & E0 & E).
  unfold guard in E0.
  destruct (Z.ltb_spec (Z.of_nat (length target) - 1 + FS_SYMLINK_PREFIX_LEN + 1) SYMLINK_BUFFER)
    as [Hl|]; [|done].
  injection E0 as _ <-.
  rewrite (bind_inr _ _ f (render ds) f) in E by (apply (full_path_ok link cs); [done|done|by rewrite El]).
  apply bind_success in E as (open & f1 & E1 & E). unfold root_op in E1.
  rewrite (rd_root _ _ Hr) in E1. destruct (d_open (driver_ops d)) as [open'|] eqn:Eo; [|done].
  injection E1 as -> <-.
  apply bind_success in E as (write & f1 & E1 & E). unfold root_op in E1.
  rewrite (rd_root _ _ Hr) in E1. destruct (d_write (driver_ops d)) as [write'|] eqn:Ew; [|done].
  injection E1 as -> <-.
  apply bind_success in E as (id & f1 & E1 & E). unfold on_store in E1.
  destruct (open (render ds) _ (store f)) as [[r s1]|] eqn:E2; [|done]. injection E1 as -> <-.
  unfold attempt at 1, bind at 1, on_store at 1 in E. cbn [store set_store] in E.
  destruct (write id 0 (FS_SYMLINK_PREFIX ++ target) s1) as [[r2 s2]|] eqn:E3; [|done].
  apply bind_success in E as (rc & f2 & Ec & E).
  apply bind_success in E as (w & f3 & E4 & E). unfold lift in E4. injection E4 as -> <-.
  destruct (fd_replace open write (store f) s1 s2 (render ds) id (FS_SYMLINK_PREFIX ++ target) w)
    as (Hok2 & Hw & Hfile & close & rcl & Hcl & Ecl); try done.
  { apply Hr. }
  assert (f2 = set_store s2 f) as ->.
  { unfold attempt, call_close, on_store in Ec. cbn [g_root_driver set_store store] in Ec.
    rewrite (rd_root _ _ Hr) in Ec. cbn [mbind option_bind] in Ec. rewrite Hcl, Ecl in Ec.
    by injection Ec as _ <-. }
  assert (f' = set_store s2 f) as -> by (destruct (w =? _); [by injection E as <-|done]).
  split_and!; [lia|by rewrite Et| |done].
  destruct Hr as [H1 H2 H3 H4]. by split.
Qed.

End Links.

End FsLinks.

(** * Reading files through the front end

    What [fs_core_stat], [fs_core_open], [fs_core_read] and [fs_core_close] do for a
    path that leads to a file, for any root driver that honours [file_driver] and
    [file_reader]: the interface the program loader is verified against. *)

Import FsTypes FsPath FsPathProps Vfs VfsWp Pseudo FsCore FsLinks.

Module FsReader.

(** An identifier below [2 ^ 31] does not carry the tag of the pseudo files. *)
Lemma real_id id : 0 <= id < 2 ^ 31 -> PSEUDO_IS_FD id = false.
Proof.
  intros Hid. unfold PSEUDO_IS_FD, PSEUDO_FD_TAG. change 0x80000000 with (2 ^ 31).
  replace (Z.land id (2 ^ 31)) with 0; [done|]. symmetry. apply Z.bits_inj'. intros n Hn.
  rewrite Z.land_spec, Z.pow2_bits_eqb, Z.bits_0 by lia.
  destruct (Z.eqb_spec 31 n) as [<-|]; [|apply andb_false_r].
  destruct (decide (id = 0)) as [->|]; [done|].
  rewrite Z.bits_above_log2; [done|lia|]. apply Z.log2_lt_pow2; lia.
Qed.

Section Reader.
Context {S W : Type} `{!storage S} `{!services W}.
Context (d : driver) `{!file_driver (driver_ops d)} `{!file_reader (driver_ops d)}.

#[local] Notation fs := (fs S W).

(** The path, resolved in the working directory and along links, names a file of the
    root file system with contents [b]. *)
Definition located (f : fs) (path : list Z) (b : list Z) : Prop :=
  exists cs ds q n, ready d f cs /\ path <> [] /\ normalized cs path = Some ds /\
    pseudo_fs_is_path (render ds) = false /\
    (n < FS_SYMLINK_MAX_DEPTH)%nat /\ follows d (store f) n (render ds) q /\
    link_at d (store f) q FS_PATH_CAP = None /\ file_at (store f) q = Some b.

(** The file is there and a handle is free, and the file is open. *)
Definition readable (f : fs) (path b : list Z) : Prop := located f path b /\ fr_room (store f).
Definition opened (f : fs) (path b : list Z) (id : Z) : Prop :=
  located f path b /\ open_file (store f) id b /\ 0 <= id < 2 ^ 31.

Lemma follows_ext s s' n p q :
  (forall p, file_at s' p = file_at s p) -> follows d s n p q -> follows d s' n p q.
Proof.
  intros E. induction 1 as [p|n p t q r Hl Ht Hq _ IH]; [constructor|].
  apply (follows_link d s' n p t q r); try done. unfold link_at in *. by rewrite E.
Qed.

Lemma located_store f s path b :
  fd_ok s -> (forall p, file_at s p = file_at (store f) p) ->
  located f path b -> located (set_store s f) path b.
Proof.
  intros Hs E (cs & ds & q & n & [R1 R2 R3 R4] & Hne & Hn & Hp & Hd & Hf & Hl & Hb).
  exists cs, ds, q, n. split_and!; try done.
  - by apply (follows_ext (store f)).
  - unfold link_at in *. by rewrite E.
  - simpl. by rewrite E.
Qed.

Lemma located_resolved f path b :
  located f path b -> exists full q,
    full_path_of (Some path) f = Some (inr full, f) /\ pseudo_fs_is_path full = false /\
    fs_resolve_final_symlink full FS_PATH_CAP f = Some (inr q, f) /\
    g_root_driver f = Some d /\ fd_ok (store f) /\ file_at (store f) q = Some b.
Proof.
  intros (cs & ds & q & n & Hr & Hne & Hn & Hp & Hd & Hf & Hl & Hb).
  exists (render ds), q.
  pose proof (normalized_canonical cs path ds (rd_canonical _ _ _ Hr) Hn) as Hc.
  destruct (resolve_symlink_spec d ds f (rd_root _ _ _ Hr) (rd_store _ _ _ Hr) Hc) as (r & Er & Hr2).
  assert (r = inr q) as -> by (apply Hr2; by exists n).
  split_and!; try done; [by apply (full_path_ok d path cs)|apply Hr..].
Qed.

Lemma stat_located f path b :
  located f path b ->
  exists m, fs_core_stat (Some path) f = Some (inr (FsStat m (Z.of_nat (length b))), f) /\
            Z.land m FS_MODE_FILE <> 0.
Proof.
  intros Hl. destruct (located_resolved f path b Hl) as (full & q & E1 & E2 & E3 & Hr & Hok & Hb).
  destruct (fd_stat (store f) q Hok) as (stat & r & Hs & Est & Hst). rewrite Hb in Hst.
  destruct Hst as (m & -> & Hm). exists m. split; [|done]. unfold fs_core_stat.
  rewrite (bind_inr _ _ _ _ _ E1), E2, (bind_inr _ _ _ _ _ (root_op_some d _ _ _ _ Hr Hs)).
  rewrite (bind_inr _ _ _ _ _ E3). by apply on_store_same.
Qed.

Lemma open_readable f path b :
  readable f path b ->
  exists id f', fs_core_open (Some path) FS_O_RDONLY f = Some (inr id, f') /\ opened f' path b id.
Proof.
  intros [Hl Hroom]. destruct (located_resolved f path b Hl) as (full & q & E1 & E2 & E3 & Hr & Hok & Hb).
  destruct (fr_open (store f) q b Hok Hroom Hb) as (op & id & s & Ho & Eo & Hid & Hs & Hopen & Hsame).
  exists id, (set_store s f). split; [|split; [by apply located_store|done]].
  unfold fs_core_open. rewrite (bind_inr _ _ _ _ _ E1), E2.
  rewrite (bind_inr _ _ _ _ _ (root_op_some d _ _ _ _ Hr Ho)). cbn [Z.land FS_O_CREAT].
  change (negb (Z.land FS_O_RDONLY FS_O_CREAT =? 0)) with false. cbn iota.
  rewrite (bind_inr _ _ _ _ _ E3). unfold on_store. by rewrite Eo.
Qed.

Lemma opened_root f path b id :
  opened f path b id -> g_root_driver f = Some d /\ fd_ok (store f) /\ PSEUDO_IS_FD id = false.
Proof.
  intros ((cs & ds & q & n & Hr & _) & _ & Hid).
  split_and!; [by destruct Hr|by destruct Hr|by apply real_id].
Qed.

Lemma read_opened f path b id off cap :
  opened f path b id -> 0 <= off -> 0 <= cap ->
  fs_core_read id off cap f = Some (inr (take (Z.to_nat cap) (drop (Z.to_nat off) b)), f).
Proof.
  intros Ho H1 H2. destruct (opened_root _ _ _ _ Ho) as (Hr & Hok & Hid). destruct Ho as (_ & Ho & _).
  destruct (fr_read (store f) id b off cap Hok Ho H1 H2) as (rd & Hrd & Erd).
  unfold fs_core_read. rewrite Hid, (bind_inr _ _ _ _ _ (root_op_some d _ _ _ _ Hr Hrd)).
  by apply on_store_same.
Qed.

Lemma close_opened f path b id :
  opened f path b id ->
  exists r f', fs_core_close id f = Some (r, f') /\ readable f' path b.
Proof.
  intros Ho. destruct (opened_root _ _ _ _ Ho) as (Hr & Hok & Hid). destruct Ho as (Hl & Ho & _).
  destruct (fr_close (store f) id b Hok Ho) as (cl & r & s & Hc & Ec & Hs & Hroom & Hsame).
  exists r, (set_store s f). split; [|split; [by apply located_store|done]].
  unfold fs_core_close. rewrite Hid, Hr. cbn [mbind option_bind]. rewrite Hc.
  unfold on_store. by rewrite Ec.
Qed.

End Reader.

End FsReader.
