(* ===== verification/FsCoreProps.v ===== *)
(** * The promises of the file-system front end

    Theorems about symbolic links, the working directory and opening, for every
    driver that honours the contract, and their instances on a machine that booted
    without media, where RAMFS is the root. *)

From S2P Require Import Prelude FsTypes FsPath Ramfs RamfsProps Vfs RamfsDriver Pseudo FsCore FsLinks.
From stdpp Require Import base list option list_numbers strings.
From Stdlib Require Import ZArith Lia ZifyBool.
Import FsTypes FsPath FsPathProps Vfs RamfsDriver Pseudo FsCore FsLinks.
Open Scope Z_scope.

Module FsCoreProps.

(** ** A machine without media *)

Definition no_driver {S} : vfs_driver S :=
  Driver None None None None None None None None None None None None None None None.

(** No block device is found, so only RAMFS is ever mounted. *)
#[export] Instance diskless : storage Ramfs.ramfs := {|
  driver_ops d := match d with RAMFS_DRIVER => ramfs_driver | _ => no_driver end;
  ramfs_core_init := Ramfs.ramfs_core_init;
  ramfs_core_clear_dirty := Ramfs.ramfs_core_clear_dirty;
  fs_install_bootmedia_device := Some;
  block_core_has_root_device _ := false;
  fat12_core_mount := fail FS_ERR_NOT_FOUND;
  iso9660_core_mount := fail FS_ERR_NOT_FOUND;
  fat12_core_buffer_bytes _ := 0;
  ramfs_core_get_stats := Ramfs.ramfs_core_get_stats
|}.

#[export] Instance diskless_files : file_driver (driver_ops RAMFS_DRIVER) := ramfs_file_driver.

(** A console that records its output and has some lines of input waiting; every
    other service is at rest. *)
Record console := Console { out : list Z; lines : list (list Z) }.

#[export] Instance line_console : services console := {|
  tty_readline cap w :=
    match lines w with
    | [] => None
    | l :: ls => let l := take (Z.to_nat (cap - 1)) l in
                 Some (Z.of_nat (length l), l, Console (out w) ls)
    end;
  tty_putc c w := Some (Console (out w ++ [c]) (lines w));
  tty_set_color _ w := Some w;
  tty_clear w := Some (Console [] (lines w));
  tty_get_cursor _ := (0, 0);
  tty_text_begin _ _ w := Some w;
  tty_line_redraw _ _ _ _ w := Some w;
  input_keys _ := [];
  set_input_keys _ w := w;
  signal_reset w := w;
  smod_serial_write _ w := w;
  klog_info _ _ w := Some w;
  timer_ticks_get _ := 0;
  mm_get_stats _ := MmView 0 0 0;
  smod_module_count _ := 0;
  smod_module_name _ _ := None
|}.

(** The state after [fs_core_init] on that machine. *)
Definition boot_fs : fs Ramfs.ramfs console :=
  Fs (Some RAMFS_DRIVER) None FS_MEDIA_NONE RamfsProps.empty_fs (Console [] []) [slash].

Lemma boot_fs_init :
  fs_core_init (Fs None None 0 Ramfs.ramfs_boot (Console [] []) [slash]) = Some (inr tt, boot_fs).
Proof. reflexivity. Qed.

Lemma boot_ready : ready RAMFS_DRIVER boot_fs [].
Proof. split; [done|exists 0%nat; apply RamfsProps.reset_wf|done|apply canonical_nil]. Qed.

(** ** Theorems *)

Section Theorems.
Context {S W : Type} `{!storage S} `{!services W}.
Context (d : driver) `{!file_driver (driver_ops d)}.

(** C22: resolving the last component follows links and always ends.  The call returns
    without changing anything; it succeeds with a path exactly when fewer than eight
    links lead there from the start and it is not a link itself (so a cycle is an error),
    and the path is again canonical. *)
Theorem symlink_resolution cs (f : fs S W) :
  g_root_driver f = Some d -> fd_ok (store f) -> canonical cs ->
  exists r, fs_resolve_final_symlink (render cs) FS_PATH_CAP f = Some (r, f) /\
  (forall q, r = inr q <->
     exists n, (n < 8)%nat /\ follows d (store f) n (render cs) q /\
               link_at d (store f) q FS_PATH_CAP = None) /\
  (forall q, r = inr q -> exists ds, canonical ds /\ q = render ds).
Proof.
  intros Hroot Hok Hc. destruct (resolve_symlink_spec d cs f Hroot Hok Hc) as (r & E & Hr).
  exists r. split_and!; [done|done|]. intros q (n & _ & Hf & _)%Hr.
  by eapply follows_canonical.
Qed.

(** A link reads back as it was made.  After a successful [fs_core_symlink] with a
    target of at most 127 characters without line ends, [fs_core_readlink] of the link
    returns exactly the target, and resolution goes on at the path the target denotes,
    relative to the directory of the link. *)
Theorem symlink_roundtrip target link cs ds (f f' : fs S W) :
  ready d f cs -> normalized cs link = Some ds -> Forall (fun c => c <> 0) (render ds) ->
  plain_text target -> Z.of_nat (length target) < FS_PATH_CAP ->
  fs_core_symlink (Some target) (Some link) f = Some (inr tt, f') ->
  fs_core_readlink (Some link) FS_PATH_CAP f' = Some (inr target, f') /\
  forall q, link_target (render ds) target = inr q -> follows d (store f') 1 (render ds) q.
Proof.
  intros Hr Hn Hnz Ht Hl E.
  destruct (symlink_spec d target link cs f f' ds Hr Hn Hnz E) as (Hb & Hne & Hr' & Hf).
  assert (is_link (FS_SYMLINK_PREFIX ++ target) = true) as Hlink by (by apply is_link_prefix).
  assert (Z.of_nat (length (FS_SYMLINK_PREFIX ++ target)) - FS_SYMLINK_PREFIX_LEN <? FS_PATH_CAP = true)
    as Hfit.
  { rewrite length_app. change (length FS_SYMLINK_PREFIX) with 10%nat.
    unfold FS_SYMLINK_PREFIX_LEN. apply Z.ltb_lt. lia. }
  assert (link <> []) as Hlne by (intros ->; by destruct target). split.
  - unfold fs_core_readlink. rewrite (bind_inr _ _ f' (render ds) f') by (by apply (full_path_ok d link cs)).
    destruct (raw_readlink_spec d (render ds) FS_PATH_CAP f') as (r & -> & H); [apply Hr'|apply Hr'|done|].
    rewrite Hf, Hlink, Hfit, link_of_prefix in H by done. by subst r.
  - intros q Hq. apply (follows_link d _ 0 _ target q); [|done|done|constructor].
    unfold link_at. rewrite Hf, Hlink, Hfit. cbn [andb]. by rewrite link_of_prefix.
Qed.

(** [fs_core_symlink] accepts targets that cannot be followed.  It allows up to 133
    characters, but with 128 or more the link cannot be read ([FS_ERR_NO_SPACE]), and
    resolution silently stops at the link file as if it were an ordinary file. *)
Theorem long_symlink_not_followed target link cs ds (f f' : fs S W) :
  ready d f cs -> normalized cs link = Some ds -> Forall (fun c => c <> 0) (render ds) ->
  FS_PATH_CAP <= Z.of_nat (length target) ->
  fs_core_symlink (Some target) (Some link) f = Some (inr tt, f') ->
  fs_core_readlink (Some link) FS_PATH_CAP f' = Some (inl FS_ERR_NO_SPACE, f') /\
  fs_resolve_final_symlink (render ds) FS_PATH_CAP f' = Some (inr (render ds), f').
Proof.
  intros Hr Hn Hnz Hl E.
  destruct (symlink_spec d target link cs f f' ds Hr Hn Hnz E) as (Hb & Hne & Hr' & Hf).
  assert (is_link (FS_SYMLINK_PREFIX ++ target) = true) as Hlink by (by apply is_link_prefix).
  assert (Z.of_nat (length (FS_SYMLINK_PREFIX ++ target)) - FS_SYMLINK_PREFIX_LEN <? FS_PATH_CAP = false)
    as Hfit.
  { rewrite length_app. change (length FS_SYMLINK_PREFIX) with 10%nat.
    unfold FS_SYMLINK_PREFIX_LEN. apply Z.ltb_ge. lia. }
  assert (link <> []) as Hlne by (intros ->; by destruct target). split.
  - unfold fs_core_readlink. rewrite (bind_inr _ _ f' (render ds) f') by (by apply (full_path_ok d link cs)).
    destruct (raw_readlink_spec d (render ds) FS_PATH_CAP f') as (r & -> & H); [apply Hr'|apply Hr'|done|].
    rewrite Hf, Hlink, Hfit in H. by subst r.
  - destruct (resolve_symlink_spec d ds f') as (r & -> & H); [apply Hr'|apply Hr'| |].
    { eapply normalized_canonical; [|done]. apply Hr. }
    do 2 f_equal. apply H. exists 0%nat. split_and!; [unfold FS_SYMLINK_MAX_DEPTH; lia|constructor|].
    unfold link_at. by rewrite Hf, Hlink, Hfit.
Qed.

(** The working directory is always the canonical path of a directory.  A call of
    [fs_core_change_dir] that fails leaves it as it was; one that succeeds sets it to
    the canonical path that the links of its argument lead to, which the pseudo file
    system or the root driver has accepted as a directory. *)
Theorem change_dir_canonical path cs (f f' : fs S W) r :
  ready d f cs -> fs_core_change_dir (Some path) f = Some (r, f') ->
  match r with
  | inl _ => cwd f' = render cs
  | inr _ => exists ds es n, normalized cs path = Some ds /\ (n < 8)%nat /\
      follows d (store f) n (render ds) (render es) /\ canonical es /\ cwd f' = render es /\
      (pseudo_fs_change_dir (render es) = inr tt \/
       exists op s', d_change_dir (driver_ops d) = Some op /\
                     op (render es) (store f) = Some (inr tt, s'))
  end.
Proof.
  intros Hr. unfold fs_core_change_dir. unfold bind at 1, root_op. rewrite (rd_root _ _ _ Hr).
  pose proof (rd_cwd _ _ _ Hr) as Hcwd.
  destruct (d_change_dir (driver_ops d)) as [op|]; [|by intros [= <- <-]].
  unfold bind at 1. rewrite (full_path_spec d (Some path) cs f Hr).
  destruct (fs_core_normalize_path _ _ _) as [e|full] eqn:En; [by intros [= <- <-]|].
  destruct (normalize_path_ok cs path _ full (rd_canonical _ _ _ Hr) En) as (ds & Hn & Hd & -> & _).
  unfold bind at 1. destruct (resolve_symlink_spec d ds f) as (r' & -> & Hres); [apply Hr|apply Hr|done|].
  destruct r' as [e|q]; [by intros [= <- <-]|].
  destruct (proj1 (Hres q) eq_refl) as (n & Hn8 & Hf & _).
  destruct (follows_canonical d _ _ _ _ ds Hf eq_refl Hd) as (es & He & ->).
  assert (process_copy_string 0 FS_PATH_CAP (render es) = render es) as Hcopy.
  { change process_copy_string with copy_name_loop. apply copy_name_loop_short. destruct He. lia. }
  unfold process_set_cwd. destruct (pseudo_fs_is_path (render es)).
  - unfold bind, lift. destruct (pseudo_fs_change_dir (render es)) as [e|[]] eqn:Ep; intros [= <- <-]; [done|].
    exists ds, es, n. rewrite Hcopy. split_and!; try done. by left.
  - unfold bind, on_store. destruct (op (render es) (store f)) as [[[e|[]] s']|] eqn:Eop; [| |done];
      intros [= <- <-]; [done|].
    exists ds, es, n. rewrite Hcopy. split_and!; try done. right. by exists op, s'.
Qed.

(** A link to a device does not open the device.  Whether a path belongs to a pseudo
    file system is decided before links are followed: opening a link whose target is
    under [/dev] or [/proc] asks the root driver for that path, although opening the same
    path directly reaches the pseudo file system. *)
Theorem link_to_device_misses path flags cs ds n q (f : fs S W) open :
  ready d f cs -> normalized cs path = Some ds -> path <> [] ->
  pseudo_fs_is_path (render ds) = false -> Z.land flags FS_O_CREAT = 0 ->
  (n < 8)%nat -> follows d (store f) n (render ds) q -> link_at d (store f) q FS_PATH_CAP = None ->
  pseudo_fs_is_path q = true -> d_open (driver_ops d) = Some open ->
  fs_core_open (Some path) flags f = on_store (open q flags) f /\
  fs_core_open (Some q) flags f = Some (pseudo_fs_open q flags, f).
Proof.
  intros Hr Hn Hne Hp Hfl Hn8 Hf Hq Hpq Ho.
  pose proof (normalized_canonical cs path ds (rd_canonical _ _ _ Hr) Hn) as Hd. split.
  - unfold fs_core_open. rewrite (bind_inr _ _ f (render ds) f) by (by apply (full_path_ok d path cs)).
    rewrite Hp. rewrite (bind_inr _ _ f open f) by (apply (root_op_some d); [apply Hr|done]).
    rewrite Hfl. cbn [Z.eqb negb].
    destruct (resolve_symlink_spec d ds f) as (r & E & H); [apply Hr|apply Hr|done|].
    assert (r = inr q) as -> by (apply H; by exists n).
    by rewrite (bind_inr _ _ f q f).
  - destruct (follows_canonical d _ _ _ _ ds Hf eq_refl Hd) as (es & He & ->).
    unfold fs_core_open. rewrite (bind_inr _ _ f (render es) f).
    + by rewrite Hpq.
    + apply (full_path_ok d (render es) cs); [done|by apply normalized_render|].
      by destruct (render_nonempty es) as [r ->].
Qed.

End Theorems.

(** ** Instances on the machine without media *)

Definition slash_l : list Z := cstr "/l".
Definition link_dir : list (list Z) := [cstr "l"].

(** The machine after [ln -s target /l]. *)
Definition linked (target : list Z) : fs Ramfs.ramfs console :=
  match fs_core_symlink (Some target) (Some slash_l) boot_fs with
  | Some (_, f) => f
  | None => boot_fs
  end.

Lemma linked_ok target :
  match fs_core_symlink (Some target) (Some slash_l) boot_fs with
  | Some (inr _, _) => true | _ => false
  end = true ->
  fs_core_symlink (Some target) (Some slash_l) boot_fs = Some (inr tt, linked target).
Proof.
  unfold linked. destruct (fs_core_symlink _ _ boot_fs) as [[[e|[]] f]|]; [done|done|done].
Qed.

Lemma slash_l_normal : normalized [] slash_l = Some link_dir /\ Forall (fun c => c <> 0) (render link_dir).
Proof. split; [reflexivity|repeat constructor; done]. Qed.

Lemma slash_l_file target :
  match fs_core_symlink (Some target) (Some slash_l) boot_fs with
  | Some (inr _, _) => true | _ => false
  end = true ->
  ready RAMFS_DRIVER (linked target) [] /\
  file_at (store (linked target)) (render link_dir) = Some (FS_SYMLINK_PREFIX ++ target).
Proof.
  intros E%linked_ok. destruct slash_l_normal as [Hn Hz].
  by destruct (symlink_spec RAMFS_DRIVER target slash_l [] boot_fs _ link_dir boot_ready Hn Hz E) as (_ & _ & ?).
Qed.

Lemma symlink_resolution_witness :
  exists r, fs_resolve_final_symlink (render link_dir) FS_PATH_CAP boot_fs = Some (r, boot_fs) /\
            forall q, r = inr q -> exists ds, canonical ds /\ q = render ds.
Proof.
  destruct (symlink_resolution RAMFS_DRIVER link_dir boot_fs) as (r & E & _ & H).
  - reflexivity.
  - apply boot_ready.
  - apply (normalized_canonical [] slash_l); [apply canonical_nil|apply slash_l_normal].
  - exists r. split; [exact E|exact H].
Defined.

(** [ln -s /t /l; readlink /l]. *)
Lemma symlink_roundtrip_witness :
  fs_core_readlink (Some slash_l) FS_PATH_CAP (linked (cstr "/t")) =
    Some (inr (cstr "/t"), linked (cstr "/t")).
Proof.
  destruct (symlink_roundtrip RAMFS_DRIVER (cstr "/t") slash_l [] link_dir boot_fs (linked (cstr "/t")))
    as [H _].
  - apply boot_ready.
  - apply slash_l_normal.
  - apply slash_l_normal.
  - repeat constructor; done.
  - reflexivity.
  - apply linked_ok. vm_compute. reflexivity.
  - exact H.
Defined.

(** A target of 130 characters. *)
Lemma long_symlink_not_followed_witness :
  fs_core_readlink (Some slash_l) FS_PATH_CAP (linked (replicate 130 116)) =
    Some (inl FS_ERR_NO_SPACE, linked (replicate 130 116)).
Proof.
  destruct (long_symlink_not_followed RAMFS_DRIVER (replicate 130 116) slash_l [] link_dir boot_fs
              (linked (replicate 130 116))) as [H _].
  - apply boot_ready.
  - apply slash_l_normal.
  - apply slash_l_normal.
  - vm_compute. discriminate.
  - apply linked_ok. vm_compute. reflexivity.
  - exact H.
Defined.

(** [cd /dev]. *)
Lemma change_dir_canonical_witness :
  exists es, canonical es /\ cwd (set_cwd (cstr "/dev") boot_fs) = render es.
Proof.
  destruct (change_dir_canonical RAMFS_DRIVER (cstr "/dev") [] boot_fs (set_cwd (cstr "/dev") boot_fs) (inr tt))
    as (ds & es & n & _ & _ & _ & Hc & He & _).
  - apply boot_ready.
  - vm_compute. reflexivity.
  - exists es. split; [exact Hc|exact He].
Defined.

(** [ln -s /dev/null /l]: opening [/l] fails, opening [/dev/null] gives the device. *)
Lemma link_to_device_misses_witness :
  let f := linked (cstr "/dev/null") in
  (fst <$> fs_core_open (Some slash_l) FS_O_RDWR f) = Some (inl FS_ERR_NOT_FOUND) /\
  (fst <$> fs_core_open (Some (cstr "/dev/null")) FS_O_RDWR f) = Some (inr PSEUDO_FD_TAG).
Proof.
  cbv zeta. destruct (slash_l_file (cstr "/dev/null")) as [Hr Hf]; [vm_compute; reflexivity|].
  set (f := linked (cstr "/dev/null")) in *.
  destruct (link_to_device_misses RAMFS_DRIVER slash_l FS_O_RDWR [] link_dir 1 (cstr "/dev/null") f
    (fun p flags s => upd_out (Ramfs.ramfs_core_open s p flags))) as [H1 H2].
  - exact Hr.
  - apply slash_l_normal.
  - discriminate.
  - reflexivity.
  - reflexivity.
  - lia.
  - apply (follows_link RAMFS_DRIVER _ 0 _ (cstr "/dev/null") (cstr "/dev/null"));
      [unfold link_at; rewrite Hf; reflexivity|discriminate|reflexivity|constructor].
  - vm_compute. reflexivity.
  - reflexivity.
  - reflexivity.
  - rewrite H1, H2. split; vm_compute; reflexivity.
Defined.

End FsCoreProps.
