(* ===== verification/Fd.v ===== *)
(** * Processes and file descriptors

    [core/process/process_core.c] and [core/posix/fd_core.c].  The two files call each
    other (a process owns a descriptor table, the descriptor calls work on the table
    of the current process), so they share one state: the table of open file
    descriptions, the process table and the file system below. *)

From S2P Require Import Prelude Ports FsTypes FsPath Vfs Pseudo FsCore.
From stdpp Require Import base list option list_numbers strings.
From Stdlib Require Import ZArith Lia ZifyBool.
Import FsTypes FsPath Vfs Pseudo FsCore.
Open Scope Z_scope.

Module Fd.
Export Keys.

Definition POSIX_FD_CAP : Z := 32.
Definition POSIX_OFD_CAP : Z := 32.
Definition POSIX_STDERR_FILENO : Z := 2.
Definition PROCESS_MAX : Z := 16.
Definition PROCESS_NAME_CAP : Z := 24.

Definition FS_SEEK_SET : Z := 0.
Definition FS_SEEK_CUR : Z := 1.
Definition FS_SEEK_END : Z := 2.

Definition TTY_RED : Z := 4.
Definition TTY_WHITE : Z := 15.

Inductive fd_kind := FD_KIND_UNUSED | FD_KIND_TTY_IN | FD_KIND_TTY_OUT | FD_KIND_VFS.

#[export] Instance fd_kind_eq : EqDecision fd_kind.
Proof. solve_decision. Defined.

Inductive process_state := UNUSED | RUNNABLE | RUNNING | BLOCKED | ZOMBIE.

#[export] Instance process_state_eq : EqDecision process_state.
Proof. solve_decision. Defined.

(** [fd_description_t]. *)
Record description := Desc {
  used : Z; refs : Z; kind : fd_kind; node_id : Z; offset : Z; flags : Z
}.

(** [fd_entry_t]: [used] and [description_index]. *)
Record entry := Entry { e_used : Z; e_index : Z }.

(** [process_t], its [fd_table] in place. *)
Record process := Process {
  pid : Z; ppid : Z; state : process_state; exit_status : Z; pcwd : list Z;
  entries : list entry; initialized : Z;
  address_space : Z; entry_ip : Z; user_sp : Z; kernel_stack : Z;
  image_arch : Z; image_segment_count : Z; image_file_size : Z; pname : list Z
}.

Definition zero_desc : description := Desc 0 0 FD_KIND_UNUSED 0 0 0.
Definition zero_entry : entry := Entry 0 0.
Definition no_entries : list entry := replicate (Z.to_nat POSIX_FD_CAP) zero_entry.
(** [process_clear], which also resets the table. *)
Definition clear_process : process :=
  Process 0 0 UNUSED 0 [] no_entries 0 0 0 0 0 0 0 0 [].

Section Fd.
Context {S W : Type} `{!storage S} `{!services W}.

(** The static variables of both files, and the file system. *)
Record kernel := Kernel {
  g_descriptions : list description;
  g_descriptions_initialized : Z;
  g_tty_line_row : Z;
  g_tty_line_col : Z;
  g_processes : list process;
  g_current_process : option nat;
  g_next_pid : Z;
  fsys : fs S W
}.

Definition set_descs (v : list description) (k : kernel) : kernel :=
  Kernel v (g_descriptions_initialized k) (g_tty_line_row k) (g_tty_line_col k) (g_processes k)
    (g_current_process k) (g_next_pid k) (fsys k).
Definition set_desc_init (v : Z) (k : kernel) : kernel :=
  Kernel (g_descriptions k) v (g_tty_line_row k) (g_tty_line_col k) (g_processes k)
    (g_current_process k) (g_next_pid k) (fsys k).
Definition set_tty_line (r c : Z) (k : kernel) : kernel :=
  Kernel (g_descriptions k) (g_descriptions_initialized k) r c (g_processes k)
    (g_current_process k) (g_next_pid k) (fsys k).
Definition set_procs (v : list process) (k : kernel) : kernel :=
  Kernel (g_descriptions k) (g_descriptions_initialized k) (g_tty_line_row k) (g_tty_line_col k) v
    (g_current_process k) (g_next_pid k) (fsys k).
Definition set_current (v : option nat) (k : kernel) : kernel :=
  Kernel (g_descriptions k) (g_descriptions_initialized k) (g_tty_line_row k) (g_tty_line_col k)
    (g_processes k) v (g_next_pid k) (fsys k).
Definition set_next_pid (v : Z) (k : kernel) : kernel :=
  Kernel (g_descriptions k) (g_descriptions_initialized k) (g_tty_line_row k) (g_tty_line_col k)
    (g_processes k) (g_current_process k) v (fsys k).
Definition set_fsys (v : fs S W) (k : kernel) : kernel :=
  Kernel (g_descriptions k) (g_descriptions_initialized k) (g_tty_line_row k) (g_tty_line_col k)
    (g_processes k) (g_current_process k) (g_next_pid k) v.

Definition desc_at (k : kernel) (i : nat) : description := default zero_desc (g_descriptions k !! i).
Definition put_desc (i : nat) (d : description) (k : kernel) : kernel :=
  set_descs (<[i := d]> (g_descriptions k)) k.
Definition proc_at (k : kernel) (p : nat) : process := default clear_process (g_processes k !! p).
Definition put_proc (p : nat) (v : process) (k : kernel) : kernel :=
  set_procs (<[p := v]> (g_processes k)) k.

Definition set_table (es : list entry) (init : Z) (v : process) : process :=
  Process (pid v) (ppid v) (state v) (exit_status v) (pcwd v) es init (address_space v) (entry_ip v)
    (user_sp v) (kernel_stack v) (image_arch v) (image_segment_count v) (image_file_size v) (pname v).
Definition set_state (s : process_state) (v : process) : process :=
  Process (pid v) (ppid v) s (exit_status v) (pcwd v) (entries v) (initialized v) (address_space v)
    (entry_ip v) (user_sp v) (kernel_stack v) (image_arch v) (image_segment_count v)
    (image_file_size v) (pname v).
Definition set_exit_status (e : Z) (v : process) : process :=
  Process (pid v) (ppid v) (state v) e (pcwd v) (entries v) (initialized v) (address_space v)
    (entry_ip v) (user_sp v) (kernel_stack v) (image_arch v) (image_segment_count v)
    (image_file_size v) (pname v).
Definition set_pcwd (c : list Z) (v : process) : process :=
  Process (pid v) (ppid v) (state v) (exit_status v) c (entries v) (initialized v) (address_space v)
    (entry_ip v) (user_sp v) (kernel_stack v) (image_arch v) (image_segment_count v)
    (image_file_size v) (pname v).
Definition set_image (path : list Z) (arch ip segments size : Z) (v : process) : process :=
  Process (pid v) (ppid v) (state v) (exit_status v) (pcwd v) (entries v) (initialized v)
    (address_space v) ip (user_sp v) (kernel_stack v) arch segments size path.

(** The entries and the flag of the table of process [p]. *)
Definition entry_at (k : kernel) (p fd : nat) : entry :=
  default zero_entry (entries (proc_at k p) !! fd).
Definition put_entry (p fd : nat) (e : entry) (k : kernel) : kernel :=
  let v := proc_at k p in
  put_proc p (set_table (<[fd := e]> (entries v)) (initialized v) v) k.
Definition set_initialized (p : nat) (b : Z) (k : kernel) : kernel :=
  put_proc p (set_table (entries (proc_at k p)) b (proc_at k p)) k.

(** A call of the file system, on behalf of the current process: it reads and sets
    the [cwd] of that process. *)
Definition on_fs {A} (m : M (fs S W) A) (k : kernel) : option ((Z + A) * kernel) :=
  match g_current_process k with
  | None => '(r, f) ← m (fsys k); Some (r, set_fsys f k)
  | Some p =>
      '(r, f) ← m (FsCore.set_cwd (pcwd (proc_at k p)) (fsys k));
      Some (r, put_proc p (set_pcwd (cwd f) (proc_at k p)) (set_fsys f k))
  end.

(** A call of a console service. *)
Definition on_tty (m : W -> option W) (k : kernel) : option kernel :=
  w ← m (env (fsys k)); Some (set_fsys (set_env w (fsys k)) k).

(** [fd_to_errno], and the same translation at the end of [fd_release_entry]. *)
Definition fd_to_errno (rc : Z) : Z :=
  if rc =? FS_OK then 0
  else let err := fs_core_to_errno rc in - (if negb (err =? 0) then err else POSIX_EIO).

(** ** Descriptions *)

Definition fd_descriptions_ensure_init (k : kernel) : kernel :=
  if negb (g_descriptions_initialized k =? 0) then k
  else set_desc_init 1 (set_descs (replicate (Z.to_nat POSIX_OFD_CAP) zero_desc) k).

Fixpoint first_free_desc (l : list description) (i : nat) : option nat :=
  match l with
  | [] => None
  | d :: l' => if used d =? 0 then Some i else first_free_desc l' (Datatypes.S i)
  end.

(** The index, or [None] for -1. *)
Definition fd_alloc_description (kd : fd_kind) (node fl off : Z) (k : kernel)
    : option nat * kernel :=
  let k := fd_descriptions_ensure_init k in
  match first_free_desc (g_descriptions k) 0 with
  | Some i => (Some i, put_desc i (Desc 1 1 kd node off fl) k)
  | None => (None, k)
  end.

Definition fd_in_range (fd : Z) : bool := (0 <=? fd) && (fd <? POSIX_FD_CAP).

(** The index of the description of [fd] in the table of [p]; [None] is null. *)
Definition fd_description (k : kernel) (p : nat) (fd : Z) : option nat :=
  if negb (fd_in_range fd) then None
  else
    let e := entry_at k p (Z.to_nat fd) in
    if e_used e =? 0 then None
    else if (POSIX_OFD_CAP <=? e_index e) || (used (desc_at k (Z.to_nat (e_index e))) =? 0) then None
    else Some (Z.to_nat (e_index e)).

(** ** Tables *)

Definition fd_core_table_reset (p : nat) (k : kernel) : kernel :=
  put_proc p (set_table no_entries 0 (proc_at k p)) k.

Definition fd_assign_new_description (p : nat) (fd : Z) (kd : fd_kind) (node fl off : Z)
    (k : kernel) : Z * kernel :=
  if negb (fd_in_range fd) then (- POSIX_EBADF, k)
  else match fd_alloc_description kd node fl off k with
       | (None, k) => (- POSIX_ENOSPC, k)
       | (Some i, k) => (0, put_entry p (Z.to_nat fd) (Entry 1 (u8 (Z.of_nat i))) k)
       end.

Definition set_refs (v : Z) (d : description) : description :=
  Desc (used d) v (kind d) (node_id d) (offset d) (flags d).
Definition set_offset (v : Z) (d : description) : description :=
  Desc (used d) (refs d) (kind d) (node_id d) v (flags d).

(** [++desc->refs] on a [uint16_t]. *)
Definition add_ref (i : nat) (k : kernel) : kernel :=
  put_desc i (set_refs (u16 (refs (desc_at k i) + 1)) (desc_at k i)) k.

Definition fd_release_entry (p : nat) (fd : Z) (k : kernel) : option (Z * kernel) :=
  match fd_description k p fd with
  | None => Some (- POSIX_EBADF, k)
  | Some i =>
      let k := put_entry p (Z.to_nat fd) zero_entry k in
      let d := desc_at k i in
      let k := put_desc i (set_refs (if 0 <? refs d then refs d - 1 else refs d) d) k in
      if negb (refs (desc_at k i) =? 0) then Some (0, k)
      else
        '(rc, k) ← (if decide (kind d = FD_KIND_VFS)
                    then '(r, k) ← on_fs (fs_core_close (node_id d)) k;
                         Some (match r with inl rc => rc | inr _ => FS_OK end, k)
                    else Some (0, k));
        Some (fd_to_errno rc, put_desc i zero_desc k)
  end.

(** The loop of [fd_core_table_destroy], from descriptor [i] on. *)
Fixpoint destroy_loop (n : nat) (i : nat) (p : nat) (k : kernel) : option kernel :=
  match n with
  | O => Some k
  | Datatypes.S n' =>
      if e_used (entry_at k p i) =? 0 then destroy_loop n' (Datatypes.S i) p k
      else '(_, k) ← fd_release_entry p (Z.of_nat i) k; destroy_loop n' (Datatypes.S i) p k
  end.

Definition fd_core_table_destroy (p : nat) (k : kernel) : option kernel :=
  k ← destroy_loop (Z.to_nat POSIX_FD_CAP) 0 p k; Some (fd_core_table_reset p k).

Definition fd_core_table_init (p : nat) (k : kernel) : option kernel :=
  let k := fd_core_table_reset p (fd_descriptions_ensure_init k) in
  let '(rc, k) := fd_assign_new_description p 0 FD_KIND_TTY_IN 0 0 0 k in
  if rc <? 0 then fd_core_table_destroy p k
  else
    let '(rc, k) := fd_assign_new_description p 1 FD_KIND_TTY_OUT 0 0 0 k in
    if rc <? 0 then fd_core_table_destroy p k
    else
      let '(rc, k) := fd_assign_new_description p 2 FD_KIND_TTY_OUT 0 0 0 k in
      if rc <? 0 then fd_core_table_destroy p k
      else Some (set_initialized p 1 k).

(** The loop of [fd_core_table_clone]. *)
Fixpoint clone_loop (n : nat) (i : nat) (dst src : nat) (k : kernel) : option (Z * kernel) :=
  match n with
  | O => Some (0, set_initialized dst 1 k)
  | Datatypes.S n' =>
      let e := entry_at k src i in
      if e_used e =? 0 then clone_loop n' (Datatypes.S i) dst src k
      else if (POSIX_OFD_CAP <=? e_index e) || (used (desc_at k (Z.to_nat (e_index e))) =? 0) then
        k ← fd_core_table_destroy dst k; Some (- POSIX_EBADF, k)
      else
        clone_loop n' (Datatypes.S i) dst src
          (add_ref (Z.to_nat (e_index e)) (put_entry dst i e k))
  end.

Definition fd_core_table_clone (dst src : nat) (k : kernel) : option (Z * kernel) :=
  if initialized (proc_at k src) =? 0 then Some (- POSIX_EINVAL, k)
  else clone_loop (Z.to_nat POSIX_FD_CAP) 0 dst src (fd_core_table_reset dst k).

(** ** Processes *)

Definition process_core_init (k : kernel) : option kernel :=
  let k := set_procs (replicate (Z.to_nat PROCESS_MAX) clear_process) (set_next_pid 1 k) in
  let v := proc_at k 0 in
  let k := put_proc 0
    (Process (g_next_pid k) 0 RUNNING (exit_status v)
       (process_copy_string 0 FS_PATH_CAP [slash]) (entries v) (initialized v) (address_space v)
       (entry_ip v) (user_sp v) (kernel_stack v) (image_arch v) (image_segment_count v)
       (image_file_size v) (pname v)) (set_next_pid (u32 (g_next_pid k + 1)) k) in
  k ← fd_core_table_init 0 k;
  let v := proc_at k 0 in
  let k := put_proc 0
    (set_image (process_copy_string 0 PROCESS_NAME_CAP (cstr "kernel-shell"))
       (image_arch v) (entry_ip v) (image_segment_count v) (image_file_size v) v) k in
  Some (set_current (Some 0%nat) k).

(** The current process, set up on first use. *)
Definition process_core_current (k : kernel) : option (nat * kernel) :=
  match g_current_process k with
  | Some p => Some (p, k)
  | None => k ← process_core_init k; p ← g_current_process k; Some (p, k)
  end.

Definition process_core_record_exec_image (p : nat) (path : list Z) (arch ip segments size : Z)
    (k : kernel) : kernel :=
  put_proc p (set_image (process_copy_string 0 PROCESS_NAME_CAP path) arch ip segments size
                (proc_at k p)) k.

(** The first process that is in use and has this pid. *)
Fixpoint find_pid (l : list process) (i : nat) (n : Z) : option nat :=
  match l with
  | [] => None
  | v :: l' => if negb (bool_decide (state v = UNUSED)) && (pid v =? n) then Some i
               else find_pid l' (Datatypes.S i) n
  end.

Definition process_find_pid (n : Z) (k : kernel) : option nat := find_pid (g_processes k) 0 n.

Fixpoint first_unused (l : list process) (i : nat) : option nat :=
  match l with
  | [] => None
  | v :: l' => if decide (state v = UNUSED) then Some i else first_unused l' (Datatypes.S i)
  end.

(** The slot of the child, or [None] for null. *)
Definition process_core_spawn_exec (path : list Z) (arch ip segments size sp : Z) (k : kernel)
    : option (option nat * kernel) :=
  '(parent, k) ← process_core_current k;
  match first_unused (g_processes k) 0 with
  | None => Some (None, k)
  | Some child =>
      let k := put_proc child clear_process k in
      let k := put_proc child
        (Process (g_next_pid k) (pid (proc_at k parent)) RUNNING 0 [] no_entries 0 0 0 sp 0 0 0 0 [])
        (set_next_pid (u32 (g_next_pid k + 1)) k) in
      let k := put_proc child
        (set_pcwd (process_copy_string 0 FS_PATH_CAP (pcwd (proc_at k parent))) (proc_at k child)) k in
      '(rc, k) ← fd_core_table_clone child parent k;
      if rc <? 0 then Some (None, put_proc child clear_process k)
      else
        Some (Some child,
              set_current (Some child)
                (process_core_record_exec_image child path arch ip segments size k))
  end.

Definition process_core_exit_current (status : Z) (k : kernel) : option kernel :=
  '(c, k) ← process_core_current k;
  let k := put_proc c (set_state ZOMBIE (set_exit_status status (proc_at k c))) k in
  match process_find_pid (ppid (proc_at k c)) k with
  | None => Some k
  | Some p => Some (set_current (Some p) (put_proc p (set_state RUNNING (proc_at k p)) k))
  end.

Definition process_core_reap (p : nat) (k : kernel) : option kernel :=
  if negb (bool_decide (state (proc_at k p) = ZOMBIE)) then Some k
  else k ← fd_core_table_destroy p k; Some (put_proc p clear_process k).

End Fd.
Arguments kernel : clear implicits.

End Fd.

(** * The descriptor calls

    The entry points of [core/posix/fd_core.c] that the system calls reach.  Each works
    on the table of the current process; results are values or negated errno codes. *)

Import FsTypes FsPath Vfs Pseudo FsCore Fd.

Module FdOps.

(** [fd_tty_line_t], read through the pointer of the request. *)
Record tty_line := TtyLine { l_buffer : option (list Z); l_len : Z; l_cursor : Z }.

Section Ops.
Context {S W : Type} `{!storage S} `{!services W}.
#[local] Notation kernel := (kernel S W).

Definition fd_core_init (k : kernel) : option kernel :=
  '(p, k) ← process_core_current k;
  if initialized (proc_at k p) =? 0 then fd_core_table_init p k else Some k.

(** [fd_core_ensure_init(); table = fd_current_table();] *)
Definition current_table (k : kernel) : option (nat * kernel) :=
  k ← fd_core_init k; process_core_current k.

Fixpoint find_free (l : list entry) (i : Z) : option Z :=
  match l with
  | [] => None
  | e :: l' => if e_used e =? 0 then Some i else find_free l' (i + 1)
  end.

(** The first unused descriptor from [start] on; [None] for -1. *)
Definition fd_find_free (k : kernel) (p : nat) (start : Z) : option Z :=
  find_free (drop (Z.to_nat start) (entries (proc_at k p))) start.

(** Close the node again and fail. *)
Definition open_failed (node err : Z) (k : kernel) : option (Z * kernel) :=
  '(_, k) ← on_fs (fs_core_close node) k; Some (err, k).

Definition fd_core_open (path : option (list Z)) (fl : Z) (k : kernel) : option (Z * kernel) :=
  '(p, k) ← current_table k;
  '(r, k) ← on_fs (fs_core_open path fl) k;
  match r with
  | inl rc => Some (fd_to_errno rc, k)
  | inr node =>
      '(r, k) ← (if negb (Z.land fl FS_O_APPEND =? 0) then on_fs (fs_core_size node) k
                 else Some (inr 0, k));
      match r with
      | inl rc => open_failed node (fd_to_errno rc) k
      | inr off =>
          match fd_find_free k p 0 with
          | None => open_failed node (- POSIX_ENOSPC) k
          | Some fd =>
              match fd_alloc_description FD_KIND_VFS node fl off k with
              | (None, k) => open_failed node (- POSIX_ENOSPC) k
              | (Some i, k) => Some (fd, put_entry p (Z.to_nat fd) (Entry 1 (u8 (Z.of_nat i))) k)
              end
          end
      end
  end.

Definition fd_core_close (fd : Z) (k : kernel) : option (Z * kernel) :=
  '(p, k) ← current_table k;
  match fd_description k p fd with
  | None => Some (- POSIX_EBADF, k)
  | Some _ => fd_release_entry p fd k
  end.

(** The result, and the bytes stored in the buffer; [buffer] says whether the pointer
    is not null. *)
Definition fd_core_read (fd : Z) (buffer : bool) (count : Z) (k : kernel)
    : option (Z * list Z * kernel) :=
  '(p, k) ← current_table k;
  match fd_description k p fd with
  | None => Some (- POSIX_EBADF, [], k)
  | Some i =>
      let d := desc_at k i in
      if negb buffer then Some (- POSIX_EBADF, [], k)
      else if count =? 0 then Some (0, [], k)
      else if decide (kind d = FD_KIND_TTY_IN) then
        '(rc, line, w) ← tty_readline count (env (fsys k));
        Some (rc, line, set_fsys (set_env w (fsys k)) k)
      else if decide (kind d <> FD_KIND_VFS) then Some (- POSIX_EBADF, [], k)
      else if Z.land (flags d) FS_O_RDWR =? FS_O_WRONLY then Some (- POSIX_EBADF, [], k)
      else
        '(r, k) ← on_fs (fs_core_read (node_id d) (offset d) count) k;
        match r with
        | inl rc => Some (fd_to_errno rc, [], k)
        | inr bytes =>
            let size := Z.of_nat (length bytes) in
            let d := desc_at k i in
            Some (i32 size, bytes, put_desc i (set_offset (u32 (offset d + size)) d) k)
        end
  end.

(** [buffer] holds the [count] bytes to write, or is null. *)
Definition fd_core_write (fd : Z) (buffer : option (list Z)) (k : kernel) : option (Z * kernel) :=
  '(p, k) ← current_table k;
  match fd_description k p fd, buffer with
  | None, _ | _, None => Some (- POSIX_EBADF, k)
  | Some i, Some bytes =>
      let d := desc_at k i in
      let count := Z.of_nat (length bytes) in
      if count =? 0 then Some (0, k)
      else if decide (kind d = FD_KIND_TTY_OUT) then
        k ← on_tty (tty_set_color (if fd =? POSIX_STDERR_FILENO then TTY_RED else TTY_WHITE)) k;
        k ← on_tty (put_bytes bytes) k;
        k ← on_tty (tty_set_color TTY_WHITE) k;
        Some (i32 count, k)
      else if decide (kind d <> FD_KIND_VFS) then Some (- POSIX_EBADF, k)
      else if Z.land (flags d) FS_O_RDWR =? FS_O_RDONLY then Some (- POSIX_EBADF, k)
      else
        '(r, k) ← (if negb (Z.land (flags d) FS_O_APPEND =? 0) then
                     '(r, k) ← on_fs (fs_core_size (node_id d)) k;
                     Some (match r with inl rc => (inl rc, k)
                           | inr size => (inr tt, put_desc i (set_offset size (desc_at k i)) k)
                           end)
                   else Some (inr tt, k));
        match r with
        | inl rc => Some (fd_to_errno rc, k)
        | inr _ =>
            '(r, k) ← on_fs (fs_core_write (node_id d) (offset (desc_at k i)) bytes) k;
            match r with
            | inl rc => Some (fd_to_errno rc, k)
            | inr written =>
                let d := desc_at k i in
                Some (i32 written, put_desc i (set_offset (u32 (offset d + written)) d) k)
            end
        end
  end.

(** [base + offset] overflows [int] silently, as the compiled code does. *)
Definition fd_core_lseek (fd off whence : Z) (k : kernel) : option (Z * kernel) :=
  '(p, k) ← current_table k;
  match fd_description k p fd with
  | None => Some (- POSIX_EBADF, k)
  | Some i =>
      let d := desc_at k i in
      if decide (kind d <> FD_KIND_VFS) then Some (- POSIX_EBADF, k)
      else
        '(r, k) ← (if whence =? FS_SEEK_SET then Some (inr 0, k)
                   else if whence =? FS_SEEK_CUR then Some (inr (i32 (offset d)), k)
                   else if whence =? FS_SEEK_END then
                     '(r, k) ← on_fs (fs_core_size (node_id d)) k;
                     Some (match r with inl rc => inl (fd_to_errno rc) | inr n => inr (i32 n) end, k)
                   else Some (inl (- POSIX_EINVAL), k));
        match r with
        | inl e => Some (e, k)
        | inr base =>
            let next := i32 (base + off) in
            if next <? 0 then Some (- POSIX_EINVAL, k)
            else Some (next, put_desc i (set_offset (u32 next) (desc_at k i)) k)
        end
  end.

(** The result and [*out_stat]. *)
Definition fd_core_fstat (fd : Z) (k : kernel) : option (Z * option fs_stat * kernel) :=
  '(p, k) ← current_table k;
  match fd_description k p fd with
  | None => Some (- POSIX_EBADF, None, k)
  | Some i =>
      let d := desc_at k i in
      match kind d with
      | FD_KIND_TTY_IN | FD_KIND_TTY_OUT => Some (0, Some (FsStat FS_MODE_CHAR 0), k)
      | FD_KIND_UNUSED => Some (- POSIX_EBADF, None, k)
      | FD_KIND_VFS =>
          '(r, k) ← on_fs (fs_core_fstat (node_id d)) k;
          Some (match r with inl rc => (fd_to_errno rc, None) | inr st => (0, Some st) end, k)
      end
  end.

Definition fd_core_dup (oldfd : Z) (k : kernel) : option (Z * kernel) :=
  '(p, k) ← current_table k;
  match fd_description k p oldfd with
  | None => Some (- POSIX_EBADF, k)
  | Some i =>
      match fd_find_free k p 0 with
      | None => Some (- POSIX_ENOSPC, k)
      | Some newfd =>
          Some (newfd, add_ref i (put_entry p (Z.to_nat newfd) (entry_at k p (Z.to_nat oldfd)) k))
      end
  end.

Definition fd_core_dup2 (oldfd newfd : Z) (k : kernel) : option (Z * kernel) :=
  '(p, k) ← current_table k;
  match fd_description k p oldfd with
  | None => Some (- POSIX_EBADF, k)
  | Some i =>
      if negb (fd_in_range newfd) then Some (- POSIX_EBADF, k)
      else if oldfd =? newfd then Some (newfd, k)
      else
        '(rc, k) ← (if negb (e_used (entry_at k p (Z.to_nat newfd)) =? 0)
                    then fd_release_entry p newfd k else Some (0, k));
        if rc <? 0 then Some (rc, k)
        else Some (newfd, add_ref i (put_entry p (Z.to_nat newfd) (entry_at k p (Z.to_nat oldfd)) k))
  end.

(** ** Terminals *)

Definition fd_is_terminal (d : description) : bool :=
  match kind d with
  | FD_KIND_TTY_IN | FD_KIND_TTY_OUT => true
  | FD_KIND_UNUSED => false
  | FD_KIND_VFS =>
      if negb (PSEUDO_IS_FD (node_id d)) then false
      else let id := pseudo_index (node_id d) in (id =? 2) || (id =? 3)
  end.

Definition fd_terminal_input (d : description) : bool :=
  match kind d with
  | FD_KIND_TTY_IN => true
  | FD_KIND_VFS => fd_is_terminal d
  | _ => false
  end.

Definition fd_core_isatty (fd : Z) (k : kernel) : option (Z * kernel) :=
  '(p, k) ← current_table k;
  match fd_description k p fd with
  | None => Some (- POSIX_EBADF, k)
  | Some i => Some (Z.b2z (fd_is_terminal (desc_at k i)), k)
  end.

(** The loop that waits for a key, over what the keyboard delivers; [None] while it
    delivers nothing. *)
Fixpoint wait_key (keys : list Z) (w : W) : option (Z * W) :=
  match keys with
  | [] => None
  | key :: rest =>
      if key =? KEY_NONE then wait_key rest w
      else if key =? KEY_CTRL_ALT_DEL then wait_key rest (signal_reset w)
      else Some (key, set_input_keys rest w)
  end.

(** [line] is what [arg] points to, [None] when it is null. *)
Definition fd_core_ioctl (fd request arg : Z) (line : option tty_line) (k : kernel)
    : option (Z * kernel) :=
  '(p, k) ← current_table k;
  match fd_description k p fd with
  | None => Some (- POSIX_EBADF, k)
  | Some i =>
      let d := desc_at k i in
      if negb (fd_is_terminal d) then Some (- POSIX_ENOTTY, k)
      else if request =? 0x5301 then
        if TTY_WHITE <? arg then Some (- POSIX_EINVAL, k)
        else k ← on_tty (tty_set_color arg) k; Some (0, k)
      else if request =? 0x5302 then
        if negb (fd_terminal_input d) then Some (- POSIX_ENOTTY, k)
        else
          '(key, w) ← wait_key (input_keys (env (fsys k))) (env (fsys k));
          Some (key, set_fsys (set_env w (fsys k)) k)
      else if request =? 0x5303 then
        if negb (fd_terminal_input d) then Some (- POSIX_ENOTTY, k)
        else
          let '(r, c) := tty_get_cursor (env (fsys k)) in
          let k := set_tty_line r c k in
          k ← on_tty (tty_text_begin r c) k; Some (0, k)
      else if request =? 0x5304 then
        match line with
        | Some (TtyLine (Some buf) len cur) =>
            if negb (fd_terminal_input d) then Some (- POSIX_EINVAL, k)
            else if len <? cur then Some (- POSIX_EINVAL, k)
            else
              k ← on_tty (tty_line_redraw (take (Z.to_nat len) buf) cur
                            (g_tty_line_row k) (g_tty_line_col k)) k;
              Some (0, k)
        | _ => Some (- POSIX_EINVAL, k)
        end
      else if request =? 0x5305 then
        if decide (kind d <> FD_KIND_TTY_OUT) then Some (- POSIX_ENOTTY, k)
        else
          k ← on_tty tty_clear k;
          k ← on_tty (tty_set_color TTY_WHITE) k; Some (0, k)
      else Some (- POSIX_ENOTTY, k)
  end.

End Ops.

End FdOps.
