(* ===== verification/FdInv.v ===== *)
(** * Reference counts of open files

    The invariant that ties the descriptor tables of all processes to the table of
    open file descriptions, and its preservation by the internal operations. *)

From S2P Require Import Prelude FsTypes FsPath Vfs Pseudo FsCore Fd.
From stdpp Require Import base list option list_numbers strings.
From Stdlib Require Import ZArith Lia ZifyBool.
Import FsTypes FsPath Vfs Pseudo FsCore Fd.
Open Scope Z_scope.

Module FdInv.

(** ** Counting *)

(** Whether an entry refers to description [i]. *)
Definition hit (i : nat) (e : entry) : nat :=
  if e_used e =? 0 then 0%nat else if e_index e =? Z.of_nat i then 1%nat else 0%nat.

(** The sum of [f] over a list. *)
Fixpoint sumf {A} (f : A -> nat) (l : list A) : nat :=
  match l with [] => 0%nat | x :: l' => (f x + sumf f l')%nat end.

Definition table_refs (es : list entry) (i : nat) : nat := sumf (hit i) es.

(** A descriptor table, and whether its process slot is in use. *)
Record tab := Tab { t_entries : list entry; t_live : bool }.
Definition tab_refs (i : nat) (t : tab) : nat := table_refs (t_entries t) i.
Definition total_refs (ts : list tab) (i : nat) : nat := sumf (tab_refs i) ts.

Lemma sumf_insert {A} (f : A -> nat) (l : list A) n x y :
  l !! n = Some x -> (sumf f (<[n := y]> l) + f x = sumf f l + f y)%nat.
Proof.
  revert n. induction l as [|a l IH]; intros [|n]; simpl; try done.
  - intros [= ->]. lia.
  - intros Hx. specialize (IH n Hx). lia.
Qed.

Lemma sumf_zero {A} (f : A -> nat) (l : list A) :
  Forall (fun x => f x = 0%nat) l -> sumf f l = 0%nat.
Proof. induction 1 as [|x l Hx _ IH]; [done|]. simpl. by rewrite Hx, IH. Qed.

Lemma sumf_member {A} (f : A -> nat) (l : list A) n x :
  l !! n = Some x -> (f x <= sumf f l)%nat.
Proof.
  revert n. induction l as [|a l IH]; intros [|n]; simpl; try done.
  - intros [= ->]. lia.
  - intros Hx. specialize (IH n Hx). lia.
Qed.

Lemma sumf_two {A} (f : A -> nat) (l : list A) m n x y :
  m <> n -> l !! m = Some x -> l !! n = Some y -> (f x + f y <= sumf f l)%nat.
Proof.
  revert m n. induction l as [|a l IH]; intros [|m] [|n] Hne; cbn; try done.
  - intros [= ->] Hy. pose proof (sumf_member f l n y Hy). lia.
  - intros Hx [= ->]. pose proof (sumf_member f l m x Hx). lia.
  - intros Hx Hy. pose proof (IH m n ltac:(lia) Hx Hy). lia.
Qed.

Lemma sumf_bound {A} (f : A -> nat) (l : list A) c :
  Forall (fun x => f x <= c)%nat l -> (sumf f l <= c * length l)%nat.
Proof. induction 1 as [|x l Hx _ IH]; simpl; lia. Qed.

Lemma hit_le i e : (hit i e <= 1)%nat.
Proof. unfold hit. repeat case_match; lia. Qed.

Lemma hit_unused i e : e_used e = 0 -> hit i e = 0%nat.
Proof. intros E. unfold hit. by rewrite E. Qed.

Lemma hit_zero_entry i : hit i zero_entry = 0%nat.
Proof. done. Qed.

(** ** The invariant *)

Definition entry_ok (e : entry) : Prop := e_used e = 0 \/ 0 <= e_index e < POSIX_OFD_CAP.

(** A description in use is referred to exactly [refs] times, a free one never. *)
Definition desc_ok (d : description) (n : nat) : Prop :=
  (d = zero_desc /\ n = 0%nat) \/
  (used d = 1 /\ refs d = Z.of_nat n /\ (1 <= n)%nat /\ kind d <> FD_KIND_UNUSED).

Definition tab_ok (t : tab) : Prop :=
  length (t_entries t) = 32%nat /\ Forall entry_ok (t_entries t) /\
  (t_live t = false -> Forall (fun e => e_used e = 0) (t_entries t)).

Record inv_core (ds : list description) (init : Z) (ts : list tab) (cur : option nat) : Prop := {
  ic_descs : length ds = 32%nat;
  ic_procs : length ts = 16%nat;
  ic_tabs : Forall tab_ok ts;
  ic_refs i : (i < 32)%nat -> desc_ok (default zero_desc (ds !! i)) (total_refs ts i);
  ic_init : init = 0 -> Forall (fun d => d = zero_desc) ds;
  ic_current p : cur = Some p -> exists es, ts !! p = Some (Tab es true)
}.

Lemma total_refs_bound ts i :
  length ts = 16%nat -> Forall tab_ok ts -> (total_refs ts i <= 512)%nat.
Proof.
  intros Hl Ht. unfold total_refs.
  pose proof (sumf_bound (tab_refs i) ts 32) as H. rewrite Hl in H.
  apply H. eapply Forall_impl; [exact Ht|]. intros t (Hlen & _ & _). unfold tab_refs, table_refs.
  rewrite <- (Nat.mul_1_l 32), <- Hlen. apply sumf_bound, Forall_true. apply hit_le.
Qed.

(** Replacing one entry. *)
Lemma total_refs_entry ts p es b fd e e' i :
  ts !! p = Some (Tab es b) -> es !! fd = Some e ->
  (total_refs (<[p := Tab (<[fd := e']> es) b]> ts) i + hit i e = total_refs ts i + hit i e')%nat.
Proof.
  intros Hp He. unfold total_refs.
  pose proof (sumf_insert (tab_refs i) ts p (Tab es b) (Tab (<[fd := e']> es) b) Hp) as H1.
  pose proof (sumf_insert (hit i) es fd e e' He) as H2. unfold total_refs.
  change (tab_refs i (Tab es b)) with (sumf (hit i) es) in H1.
  change (tab_refs i (Tab (<[fd:=e']> es) b)) with (sumf (hit i) (<[fd:=e']> es)) in H1. lia.
Qed.

Lemma entry_used_desc ds init ts cur p es b fd e :
  inv_core ds init ts cur -> ts !! p = Some (Tab es b) -> es !! fd = Some e -> e_used e <> 0 ->
  0 <= e_index e < POSIX_OFD_CAP /\ used (default zero_desc (ds !! Z.to_nat (e_index e))) = 1 /\
  b = true.
Proof.
  intros HI Hp He Hu. pose proof (ic_tabs _ _ _ _ HI) as Ht. rewrite Forall_lookup in Ht.
  destruct (Ht p _ Hp) as (_ & Hok & Hb). cbn [t_entries t_live] in *. rewrite Forall_lookup in Hok.
  destruct (Hok fd e He) as [?|Hr]; [done|]. unfold POSIX_OFD_CAP in *.
  assert (1 <= total_refs ts (Z.to_nat (e_index e)))%nat as Hn.
  { pose proof (sumf_member (tab_refs (Z.to_nat (e_index e))) ts p _ Hp) as H1.
    pose proof (sumf_member (hit (Z.to_nat (e_index e))) es fd e He) as H2.
    unfold tab_refs at 1 in H1. cbn [t_entries] in H1. unfold hit at 1 in H2. apply Z.eqb_neq in Hu. rewrite Hu in H2.
    rewrite Z2Nat.id, Z.eqb_refl in H2 by lia. unfold total_refs, table_refs in *. lia. }
  split_and!; [lia|lia| |].
  - destruct (ic_refs _ _ _ _ HI (Z.to_nat (e_index e))) as [[_ ?]|[? _]]; [lia|lia|done].
  - destruct b; [done|]. specialize (Hb eq_refl). rewrite Forall_lookup in Hb.
    by destruct (Hu (Hb fd e He)).
Qed.

(** The master lemma: one entry and one description change together. *)
Lemma inv_core_update ds init ts cur p es b fd e e' j d' :
  inv_core ds init ts cur -> ts !! p = Some (Tab es b) -> es !! fd = Some e -> entry_ok e' ->
  (e_used e' = 0 \/ b = true) -> init <> 0 -> (j < 32)%nat ->
  (forall i, i <> j -> hit i e = hit i e') ->
  desc_ok d' (total_refs (<[p := Tab (<[fd := e']> es) b]> ts) j) ->
  inv_core (<[j := d']> ds) init (<[p := Tab (<[fd := e']> es) b]> ts) cur.
Proof.
  intros HI Hp He Hok Hb Hinit Hj Hother Hd. pose proof HI as [H1 H2 H3 H4 H5 H6]. split.
  - by rewrite length_insert.
  - by rewrite length_insert.
  - apply Forall_insert; [done|]. rewrite Forall_lookup in H3.
    destruct (H3 p _ Hp) as (Ha & Hc & Hf). cbn [t_entries t_live] in *. split_and!; cbn [t_entries t_live].
    + by rewrite length_insert.
    + by apply Forall_insert.
    + intros ->. apply Forall_insert; [by apply Hf|]. by destruct Hb.
  - intros i Hi. destruct (decide (i = j)) as [->|Hne].
    + rewrite list_lookup_insert_eq by lia. done.
    + rewrite list_lookup_insert_ne by done.
      pose proof (total_refs_entry ts p es b fd e e' i Hp He) as Ht. rewrite (Hother i Hne) in Ht.
      replace (total_refs (<[p := Tab (<[fd := e']> es) b]> ts) i) with (total_refs ts i) by lia.
      by apply H4.
  - done.
  - intros q Hq. destruct (H6 q Hq) as [es' Hes]. destruct (decide (q = p)) as [->|Hne].
    + rewrite Hp in Hes. injection Hes as -> ->. eexists. apply list_lookup_insert_eq.
      by eapply lookup_lt_Some.
    + rewrite list_lookup_insert_ne by done. by eexists.
Qed.

(** ** The invariant on the kernel *)

Section Kernel.
Context {S W : Type} `{!storage S} `{!services W}.
#[local] Notation kernel := (kernel S W).

Definition tab_of (v : process) : tab := Tab (entries v) (negb (bool_decide (state v = UNUSED))).
Definition tabs (k : kernel) : list tab := tab_of <$> g_processes k.

(** What the tables and the current process say together. *)
Definition inv (k : kernel) : Prop :=
  inv_core (g_descriptions k) (g_descriptions_initialized k) (tabs k) (g_current_process k).

Lemma inv_intro (k k' : kernel) ds ts :
  inv_core ds (g_descriptions_initialized k) ts (g_current_process k) ->
  g_descriptions k' = ds -> g_descriptions_initialized k' = g_descriptions_initialized k ->
  tabs k' = ts -> g_current_process k' = g_current_process k -> inv k'.
Proof. intros H <- E1 <- E2. unfold inv. by rewrite E1, E2. Qed.

Lemma procs_length (k : kernel) : inv k -> length (g_processes k) = 16%nat.
Proof. intros HI. pose proof (ic_procs _ _ _ _ HI) as H. unfold tabs in H. by rewrite length_fmap in H. Qed.

Lemma tabs_lookup (k : kernel) p :
  inv k -> (p < 16)%nat ->
  g_processes k !! p = Some (proc_at k p) /\ tabs k !! p = Some (tab_of (proc_at k p)).
Proof.
  intros HI Hp. pose proof (procs_length k HI) as Hl.
  destruct (lookup_lt_is_Some_2 (g_processes k) p) as [v Hv]; [lia|].
  unfold tabs, proc_at. rewrite list_lookup_fmap, Hv. done.
Qed.

Lemma current_live (k : kernel) p :
  inv k -> g_current_process k = Some p -> (p < 16)%nat /\ state (proc_at k p) <> UNUSED.
Proof.
  intros HI Hc. destruct (ic_current _ _ _ _ HI p Hc) as [es Hes].
  assert (p < 16)%nat as Hp.
  { rewrite <- (ic_procs _ _ _ _ HI). by eapply lookup_lt_Some. }
  split; [done|]. destruct (tabs_lookup k p HI Hp) as [_ Ht]. rewrite Hes in Ht.
  injection Ht as _ Ht. intros E. by rewrite E in Ht.
Qed.

Lemma entry_lookup (k : kernel) p fd :
  inv k -> (p < 16)%nat -> (fd < 32)%nat -> entries (proc_at k p) !! fd = Some (entry_at k p fd).
Proof.
  intros HI Hp Hfd. destruct (tabs_lookup k p HI Hp) as [_ Ht].
  pose proof (ic_tabs _ _ _ _ HI) as H. rewrite Forall_lookup in H.
  destruct (H p _ Ht) as (Hl & _). cbn [t_entries tab_of] in Hl. unfold entry_at.
  by destruct (lookup_lt_is_Some_2 (entries (proc_at k p)) fd) as [e ->]; [lia|].
Qed.

Lemma tabs_put_proc p v (k : kernel) : tabs (put_proc p v k) = <[p := tab_of v]> (tabs k).
Proof. unfold tabs, put_proc. cbn. apply list_fmap_insert. Qed.

(** Changing a process but not its table or whether it is in use. *)
Lemma tabs_put_same p v (k : kernel) :
  (p < length (g_processes k))%nat -> tab_of v = tab_of (proc_at k p) -> tabs (put_proc p v k) = tabs k.
Proof.
  intros Hp E. rewrite tabs_put_proc, E. apply list_insert_id. unfold tabs, proc_at.
  rewrite list_lookup_fmap. by destruct (lookup_lt_is_Some_2 (g_processes k) p Hp) as [v' ->].
Qed.

Lemma proc_at_put p v (k : kernel) q :
  proc_at (put_proc p v k) q =
    if decide (q = p /\ (p < length (g_processes k))%nat) then v else proc_at k q.
Proof.
  unfold proc_at, put_proc. cbn. case_decide as Hd.
  - destruct Hd as [-> Hl]. by rewrite list_lookup_insert_eq.
  - destruct (decide (q = p)) as [->|Hne]; [|by rewrite list_lookup_insert_ne].
    rewrite list_insert_ge by lia. done.
Qed.

Lemma inv_put_proc p v (k : kernel) :
  inv k -> (p < 16)%nat -> tab_of v = tab_of (proc_at k p) -> inv (put_proc p v k).
Proof.
  intros HI Hp E. apply (inv_intro k _ _ _ HI); try done.
  apply tabs_put_same; [by rewrite (procs_length k HI)|done].
Qed.

(** A call of the file system leaves both tables alone. *)
Lemma on_fs_frame {A} (m : M (fs S W) A) (k : kernel) r k' :
  (forall p, g_current_process k = Some p -> (p < length (g_processes k))%nat) ->
  on_fs m k = Some (r, k') ->
  tabs k' = tabs k /\ g_descriptions k' = g_descriptions k /\
  g_descriptions_initialized k' = g_descriptions_initialized k /\
  g_current_process k' = g_current_process k /\ g_next_pid k' = g_next_pid k.
Proof.
  intros HI. unfold on_fs. destruct (g_current_process k) as [p|] eqn:Ep.
  - destruct (m _) as [[r0 f]|]; [|done]. cbn [mbind option_bind]. intros [= -> <-].
    split_and!; try done. apply (tabs_put_same p _ (set_fsys f k)); [|done]. by apply HI.
  - destruct (m _) as [[r0 f]|]; [|done]. cbn [mbind option_bind]. by intros [= -> <-].
Qed.

Lemma current_in_range (k : kernel) :
  inv k -> forall p, g_current_process k = Some p -> (p < length (g_processes k))%nat.
Proof. intros HI p Hp. rewrite (procs_length k HI). by apply (current_live k p HI). Qed.

Lemma on_fs_inv {A} (m : M (fs S W) A) k r k' : inv k -> on_fs m k = Some (r, k') -> inv k'.
Proof.
  intros HI E. destruct (on_fs_frame m k r k' (current_in_range k HI) E) as (H1 & H2 & H3 & H4 & _).
  by apply (inv_intro k _ _ _ HI).
Qed.

End Kernel.

End FdInv.

(** * Descriptor tables keep the counts exact

    Allocation and release of descriptions, and the table operations [init],
    [destroy] and [clone]. *)

Import FsTypes FsPath Vfs Pseudo FsCore Fd FdInv.

Module FdTables.

Section Tables.
Context {S W : Type} `{!storage S} `{!services W}.
#[local] Notation kernel := (kernel S W).

(** ** Entries *)

Definition live_at (k : kernel) (p : nat) : Prop := (p < 16)%nat /\ state (proc_at k p) <> UNUSED.

Lemma tabs_put_entry p fd e (k : kernel) :
  tabs (put_entry p fd e k) =
    <[p := Tab (<[fd := e]> (entries (proc_at k p))) (t_live (tab_of (proc_at k p)))]> (tabs k).
Proof. unfold put_entry. rewrite tabs_put_proc. done. Qed.

Lemma entry_at_put p fd e (k : kernel) q fd' :
  inv k -> (p < 16)%nat -> (fd < 32)%nat ->
  entry_at (put_entry p fd e k) q fd' = if decide (q = p /\ fd' = fd) then e else entry_at k q fd'.
Proof.
  intros HI Hp Hfd. unfold entry_at, put_entry. rewrite proc_at_put, (procs_length k HI).
  destruct (decide (q = p)) as [->|Hq].
  - rewrite decide_True by lia. cbn [entries set_table].
    pose proof (lookup_lt_Some _ _ _ (entry_lookup k p fd HI Hp Hfd)) as Hl.
    destruct (decide (fd' = fd)) as [->|Hf].
    + rewrite decide_True by done. by rewrite list_lookup_insert_eq.
    + rewrite decide_False by naive_solver. by rewrite list_lookup_insert_ne.
  - rewrite !decide_False by naive_solver. done.
Qed.

Lemma desc_at_put i d (k : kernel) :
  (i < length (g_descriptions k))%nat -> desc_at (put_desc i d k) i = d.
Proof. intros Hi. unfold desc_at, put_desc. cbn. by rewrite list_lookup_insert_eq. Qed.

(** In a well-formed kernel a descriptor is open exactly when its entry is in use. *)
Lemma fd_description_spec (k : kernel) p fd :
  inv k -> (p < 16)%nat ->
  fd_description k p fd =
    (if fd_in_range fd && negb (e_used (entry_at k p (Z.to_nat fd)) =? 0)
     then Some (Z.to_nat (e_index (entry_at k p (Z.to_nat fd)))) else None).
Proof.
  intros HI Hp. unfold fd_description. destruct (fd_in_range fd) eqn:Hr; [|done]. cbn [negb andb].
  destruct (Z.eqb_spec (e_used (entry_at k p (Z.to_nat fd))) 0) as [|Hu]; [done|]. cbn [negb].
  unfold fd_in_range, POSIX_FD_CAP in Hr.
  destruct (tabs_lookup k p HI Hp) as [_ Ht].
  destruct (entry_used_desc _ _ _ _ p _ _ (Z.to_nat fd) _ HI Ht (entry_lookup k p (Z.to_nat fd) HI Hp ltac:(lia)) Hu)
    as (H1 & H2 & _).
  unfold desc_at. rewrite H2. destruct (Z.leb_spec POSIX_OFD_CAP (e_index (entry_at k p (Z.to_nat fd)))); [lia|done].
Qed.

(** The description of a descriptor depends on its entry alone. *)
Lemma description_ext (k k' : kernel) p fd :
  inv k -> inv k' -> (p < 16)%nat -> entry_at k' p (Z.to_nat fd) = entry_at k p (Z.to_nat fd) ->
  fd_description k' p fd = fd_description k p fd.
Proof. intros H H' Hp E. rewrite !fd_description_spec by done. by rewrite E. Qed.

(** ** Allocation *)

Lemma ensure_init_spec (k : kernel) :
  inv k ->
  let k' := fd_descriptions_ensure_init k in
  inv k' /\ g_descriptions_initialized k' <> 0 /\ g_processes k' = g_processes k /\
  g_current_process k' = g_current_process k /\ fsys k' = fsys k /\ g_next_pid k' = g_next_pid k /\
  g_descriptions k' = g_descriptions k.
Proof.
  intros HI. cbv zeta. unfold fd_descriptions_ensure_init.
  destruct (Z.eqb_spec (g_descriptions_initialized k) 0) as [E|E]; cbn [negb]; [|done].
  pose proof (ic_init _ _ _ _ HI E) as Hz. pose proof (ic_descs _ _ _ _ HI) as Hl.
  assert (replicate (Z.to_nat POSIX_OFD_CAP) zero_desc = g_descriptions k) as Hd.
  { apply replicate_as_Forall. split; [done|]. eapply Forall_impl; [exact Hz|]. by intros d ->. }
  split_and!; try done. destruct HI as [H1 H2 H3 H4 H5 H6].
  split; cbn; rewrite ?Hd; done.
Qed.

Lemma first_free_desc_spec (l : list description) j i :
  first_free_desc l j = Some i ->
  exists d, l !! (i - j)%nat = Some d /\ used d = 0 /\ (j <= i < j + length l)%nat.
Proof.
  revert j. induction l as [|d l IH]; intros j; simpl; [done|].
  destruct (Z.eqb_spec (used d) 0) as [E|E].
  - intros [= ->]. exists d. rewrite Nat.sub_diag. split_and!; [done|done|lia|lia].
  - intros Hf. destruct (IH _ Hf) as (d' & H1 & H2 & H3). exists d'.
    replace (i - j)%nat with (Datatypes.S (i - Datatypes.S j)) by lia. split_and!; [done|done|lia|lia].
Qed.

(** A new description for an unused descriptor. *)
Lemma alloc_entry_spec kd node fl off (k : kernel) p fd i k1 :
  inv k -> live_at k p -> (fd < 32)%nat -> e_used (entry_at k p fd) = 0 -> kd <> FD_KIND_UNUSED ->
  fd_alloc_description kd node fl off k = (Some i, k1) ->
  inv (put_entry p fd (Entry 1 (u8 (Z.of_nat i))) k1) /\ (i < 32)%nat /\ u8 (Z.of_nat i) = Z.of_nat i /\
  g_processes k1 = g_processes k /\ g_current_process k1 = g_current_process k /\
  g_descriptions k !! i = Some zero_desc /\
  g_descriptions k1 = <[i := Desc 1 1 kd node off fl]> (g_descriptions k).
Proof.
  intros HI [Hp Hlive] Hfd He Hk. unfold fd_alloc_description.
  destruct (ensure_init_spec k HI) as (HI' & Hin & Ep & Ec & _ & _ & Ed).
  set (k0 := fd_descriptions_ensure_init k) in *.
  destruct (first_free_desc (g_descriptions k0) 0) as [j|] eqn:Ef; [|done]. intros [= -> <-].
  destruct (first_free_desc_spec _ _ _ Ef) as (d & Hd & Hu & _ & Hi). rewrite Nat.sub_0_r in Hd.
  pose proof (ic_descs _ _ _ _ HI') as Hl. rewrite Hl in Hi. simpl in Hi.
  destruct (ic_refs _ _ _ _ HI' i Hi) as [[Hz Ht]|[Hx _]]; rewrite Hd in *; cbn in *; [|lia]. subst d.
  rewrite u8_small by lia. split_and!; try done; try congruence.
  assert (entry_at k0 p fd = entry_at k p fd) as He0 by (unfold entry_at, proc_at; by rewrite Ep).
  assert (proc_at k0 p = proc_at k p) as Hp0 by (unfold proc_at; by rewrite Ep).
  apply (inv_intro k0 _ (<[i := Desc 1 1 kd node off fl]> (g_descriptions k0))
           (<[p := Tab (<[fd := Entry 1 (Z.of_nat i)]> (entries (proc_at k0 p)))
                       (t_live (tab_of (proc_at k0 p)))]> (tabs k0)));
    [|done|done|apply (tabs_put_entry p fd _ k0)|done].
  destruct (tabs_lookup k0 p HI' Hp) as [_ Htab].
  pose proof (entry_lookup k0 p fd HI' Hp Hfd) as Hent.
  eapply inv_core_update; [exact HI'|exact Htab|exact Hent| | |done|done| |].
  - right. cbn. unfold POSIX_OFD_CAP. lia.
  - right. cbn. rewrite Hp0. by rewrite bool_decide_eq_false_2.
  - intros j Hj. rewrite He0, hit_unused by done. unfold hit. cbn.
    by destruct (Z.eqb_spec (Z.of_nat i) (Z.of_nat j)); [lia|].
  - pose proof (total_refs_entry (tabs k0) p _ _ fd _ (Entry 1 (Z.of_nat i)) i Htab Hent) as Hc.
    rewrite He0, (hit_unused i (entry_at k p fd) He), Ht in Hc.
    replace (hit i (Entry 1 (Z.of_nat i))) with 1%nat in Hc by (unfold hit; cbn; by rewrite Z.eqb_refl).
    right. cbn. split_and!; [done|lia|lia|done].
Qed.

Lemma alloc_none_spec kd node fl off (k k1 : kernel) :
  inv k -> fd_alloc_description kd node fl off k = (None, k1) ->
  inv k1 /\ g_processes k1 = g_processes k /\ g_current_process k1 = g_current_process k /\
  g_descriptions k1 = g_descriptions k.
Proof.
  intros HI. unfold fd_alloc_description.
  destruct (ensure_init_spec k HI) as (HI' & _ & Ep & Ec & _ & _ & Ed).
  destruct (first_free_desc _ 0); [done|]. by intros [= <-].
Qed.

(** ** Release *)

(** The description after one of [refs d] descriptors is closed. *)
Definition dropped (d : description) : description :=
  if refs d =? 1 then zero_desc else set_refs (refs d - 1) d.

Record released (k k' : kernel) (p fd i : nat) : Prop := {
  rl_inv : inv k';
  rl_descs : g_descriptions k' = <[i := dropped (desc_at k i)]> (g_descriptions k);
  rl_tabs : tabs k' = <[p := Tab (<[fd := zero_entry]> (entries (proc_at k p)))
                                 (t_live (tab_of (proc_at k p)))]> (tabs k);
  rl_current : g_current_process k' = g_current_process k;
  rl_init : g_descriptions_initialized k' = g_descriptions_initialized k
}.

(** What [inv] says about the description of an open descriptor. *)
Lemma open_desc (k : kernel) p fd i :
  inv k -> (p < 16)%nat -> fd_description k p fd = Some i ->
  0 <= fd < 32 /\ (i < 32)%nat /\ used (desc_at k i) = 1 /\ kind (desc_at k i) <> FD_KIND_UNUSED /\
  e_used (entry_at k p (Z.to_nat fd)) <> 0 /\ e_index (entry_at k p (Z.to_nat fd)) = Z.of_nat i /\
  refs (desc_at k i) = Z.of_nat (total_refs (tabs k) i) /\ 1 <= refs (desc_at k i) <= 512 /\
  g_descriptions_initialized k <> 0.
Proof.
  intros HI Hp. rewrite fd_description_spec by done.
  destruct (fd_in_range fd) eqn:Hr; [|done]. unfold fd_in_range, POSIX_FD_CAP in Hr.
  destruct (Z.eqb_spec (e_used (entry_at k p (Z.to_nat fd))) 0) as [|Hu]; [done|]. intros [= <-].
  destruct (tabs_lookup k p HI Hp) as [_ Ht].
  destruct (entry_used_desc _ _ _ _ p _ _ (Z.to_nat fd) _ HI Ht (entry_lookup k p (Z.to_nat fd) HI Hp ltac:(lia)) Hu)
    as (H1 & H2 & _). unfold POSIX_OFD_CAP in H1. fold (desc_at k (Z.to_nat (e_index (entry_at k p (Z.to_nat fd))))) in H2.
  set (i := Z.to_nat (e_index (entry_at k p (Z.to_nat fd)))) in *.
  pose proof (ic_refs _ _ _ _ HI i ltac:(lia)) as Hd. fold (desc_at k i) in Hd.
  destruct Hd as [[Hz _]|(_ & Hrf & Hge & Hk)]; [by rewrite Hz in H2|].
  pose proof (total_refs_bound (tabs k) i (ic_procs _ _ _ _ HI) (ic_tabs _ _ _ _ HI)) as Hb.
  split_and!; try done; try lia. intros E. pose proof (ic_init _ _ _ _ HI E) as Hz.
  rewrite Forall_lookup in Hz.
  destruct (lookup_lt_is_Some_2 (g_descriptions k) i) as [d Hdl]; [rewrite (ic_descs _ _ _ _ HI); lia|].
  unfold desc_at in H2. rewrite Hdl, (Hz i d Hdl) in H2. done.
Qed.

Lemma released_core (k : kernel) p fd i :
  inv k -> (p < 16)%nat -> fd_description k p fd = Some i ->
  inv_core (<[i := dropped (desc_at k i)]> (g_descriptions k)) (g_descriptions_initialized k)
    (<[p := Tab (<[Z.to_nat fd := zero_entry]> (entries (proc_at k p)))
                (t_live (tab_of (proc_at k p)))]> (tabs k)) (g_current_process k).
Proof.
  intros HI Hp Hd. destruct (open_desc k p fd i HI Hp Hd) as (Hfd & Hi & Hu & Hk & He & Hx & Hr & Hb & Hin).
  destruct (tabs_lookup k p HI Hp) as [_ Htab].
  pose proof (entry_lookup k p (Z.to_nat fd) HI Hp ltac:(lia)) as Hent.
  assert (hit i (entry_at k p (Z.to_nat fd)) = 1%nat) as Hhit.
  { unfold hit. apply Z.eqb_neq in He. by rewrite He, Hx, Z.eqb_refl. }
  eapply inv_core_update; [exact HI|exact Htab|exact Hent|by left|by left|done|done| |].
  - intros j Hj. rewrite hit_zero_entry. unfold hit. apply Z.eqb_neq in He. rewrite He, Hx.
    by destruct (Z.eqb_spec (Z.of_nat i) (Z.of_nat j)); [lia|].
  - pose proof (total_refs_entry (tabs k) p _ _ (Z.to_nat fd) _ zero_entry i Htab Hent) as Hc.
    rewrite Hhit, hit_zero_entry in Hc. unfold dropped.
    destruct (Z.eqb_spec (refs (desc_at k i)) 1) as [E|E]; [left; split; [done|]|right].
    { rewrite E in Hr. cbn [tab_of t_live t_entries] in *. lia. }
    cbn [tab_of t_live t_entries set_refs used refs kind] in *. split_and!; [done|lia|lia|done].
Qed.

(** Closing one of several descriptors touches only the count. *)
Definition shared_release (k : kernel) (p : nat) (fd : Z) (i : nat) : kernel :=
  put_desc i (dropped (desc_at k i)) (put_entry p (Z.to_nat fd) zero_entry k).

Lemma fd_release_shared (k : kernel) p fd i :
  inv k -> (p < 16)%nat -> fd_description k p fd = Some i -> refs (desc_at k i) <> 1 ->
  fd_release_entry p fd k = Some (0, shared_release k p fd i).
Proof.
  intros HI Hp Hd Hne. destruct (open_desc k p fd i HI Hp Hd) as (_ & Hi & _ & _ & _ & _ & _ & Hb & _).
  unfold fd_release_entry, shared_release, dropped. rewrite Hd.
  change (desc_at (put_entry p (Z.to_nat fd) zero_entry k) i) with (desc_at k i).
  destruct (Z.ltb_spec 0 (refs (desc_at k i))); [|lia].
  rewrite desc_at_put by (change (i < length (g_descriptions k))%nat; rewrite (ic_descs _ _ _ _ HI); lia).
  cbn [set_refs refs]. destruct (Z.eqb_spec (refs (desc_at k i)) 1); [done|].
  by destruct (Z.eqb_spec (refs (desc_at k i) - 1) 0); [lia|].
Qed.

(** Closing the last descriptor of a description: the file system closes the node, and
    the description is free. *)
Lemma fd_release_last (k : kernel) p fd i :
  inv k -> (p < 16)%nat -> fd_description k p fd = Some i -> refs (desc_at k i) = 1 ->
  let d := desc_at k i in
  let k1 := put_desc i (set_refs 0 d) (put_entry p (Z.to_nat fd) zero_entry k) in
  fd_release_entry p fd k =
    if decide (kind d = FD_KIND_VFS)
    then '(r, k2) ← on_fs (fs_core_close (node_id d)) k1;
         Some (match r with inl rc => fd_to_errno rc | inr _ => 0 end, put_desc i zero_desc k2)
    else Some (0, put_desc i zero_desc k1).
Proof.
  intros HI Hp Hd He d k1. destruct (open_desc k p fd i HI Hp Hd) as (_ & Hi & _ & _ & _ & _ & _ & Hb & _).
  unfold fd_release_entry. rewrite Hd.
  change (desc_at (put_entry p (Z.to_nat fd) zero_entry k) i) with d. unfold d in *. rewrite He.
  change (if 0 <? 1 then 1 - 1 else 1) with 0. fold k1.
  assert (refs (desc_at k1 i) = 0) as ->.
  { unfold k1. rewrite desc_at_put; [done|]. change (i < length (g_descriptions k))%nat.
    rewrite (ic_descs _ _ _ _ HI). lia. }
  cbn [negb Z.eqb]. case_decide; [|done].
  destruct (on_fs _ k1) as [[[rc|[]] k2]|]; done.
Qed.

Lemma fd_release_spec (k : kernel) p fd i rc k' :
  inv k -> (p < 16)%nat -> fd_description k p fd = Some i ->
  fd_release_entry p fd k = Some (rc, k') -> released k k' p (Z.to_nat fd) i.
Proof.
  intros HI Hp Hd E. pose proof (released_core k p fd i HI Hp Hd) as HC.
  assert (g_descriptions k' = <[i := dropped (desc_at k i)]> (g_descriptions k) /\
          tabs k' = <[p := Tab (<[Z.to_nat fd := zero_entry]> (entries (proc_at k p)))
                              (t_live (tab_of (proc_at k p)))]> (tabs k) /\
          g_current_process k' = g_current_process k /\
          g_descriptions_initialized k' = g_descriptions_initialized k) as (E1 & E2 & E3 & E4).
  { destruct (decide (refs (desc_at k i) = 1)) as [H1|H1].
    - rewrite (fd_release_last k p fd i HI Hp Hd H1) in E. cbv zeta in E. unfold dropped. rewrite H1.
      cbn [Z.eqb Pos.eqb]. set (k1 := put_desc i _ _) in *.
      assert (tabs k1 = <[p := Tab (<[Z.to_nat fd := zero_entry]> (entries (proc_at k p)))
                              (t_live (tab_of (proc_at k p)))]> (tabs k)) as Ht by apply tabs_put_entry.
      case_decide.
      + destruct (on_fs _ k1) as [[r k2]|] eqn:Eo; [|done]. cbn [mbind option_bind] in E.
        assert (k' = put_desc i zero_desc k2) as -> by (by destruct r; injection E as <- <-).
        destruct (on_fs_frame (fs_core_close (node_id (desc_at k i))) k1 r k2) as (F1 & F2 & F3 & F4 & _); [|exact Eo|].
        { intros q Hq. unfold k1. cbn. rewrite length_insert. by apply (current_in_range k HI). }
        cbn. unfold tabs in *. cbn. rewrite F1, F2, F3, F4, Ht. split_and!; try done.
        unfold k1. cbn. by rewrite list_insert_insert_eq.
      + injection E as <- <-. cbn. split_and!; try done. by rewrite list_insert_insert_eq.
    - rewrite (fd_release_shared k p fd i HI Hp Hd H1) in E. injection E as <- <-.
      unfold shared_release. split_and!; try done. apply tabs_put_entry. }
  split; try done. by apply (inv_intro k _ _ _ HC).
Qed.

End Tables.

End FdTables.
