(* ===== verification/FdProc.v ===== *)
(** * Tables of processes

    Sharing a description (duplication and inheritance), destroying and setting up a
    table, and the process operations. *)

From S2P Require Import Prelude FsTypes FsPath Vfs Pseudo FsCore Fd FdInv.
From stdpp Require Import base list option list_numbers strings.
From Stdlib Require Import ZArith Lia ZifyBool.
Import FsTypes FsPath Vfs Pseudo FsCore Fd FdInv FdTables.
Open Scope Z_scope.

Module FdProc.

(** The same open file, whatever the count. *)
Definition same_file (d d' : description) : Prop :=
  used d = used d' /\ kind d = kind d' /\ node_id d = node_id d' /\ offset d = offset d' /\
  flags d = flags d'.

#[export] Instance same_file_equiv : Equivalence same_file.
Proof.
  split.
  - intros d. by unfold same_file.
  - intros d d' (H1 & H2 & H3 & H4 & H5). by unfold same_file.
  - intros d d' d'' (H1 & H2 & H3 & H4 & H5) (G1 & G2 & G3 & G4 & G5). unfold same_file. by split_and!; etrans.
Qed.

Lemma same_file_refs d d' : same_file d d' -> refs d = refs d' -> d = d'.
Proof. destruct d, d'. unfold same_file. cbn. by intros (-> & -> & -> & -> & ->) ->. Qed.

(** The same open file, wherever its offset is. *)
Definition same_node (d d' : description) : Prop :=
  used d = used d' /\ kind d = kind d' /\ node_id d = node_id d' /\ flags d = flags d'.

#[export] Instance same_node_equiv : Equivalence same_node.
Proof.
  split.
  - intros d. by unfold same_node.
  - intros d d' (H1 & H2 & H3 & H4). by unfold same_node.
  - intros d d' d'' (H1 & H2 & H3 & H4) (G1 & G2 & G3 & G4). unfold same_node. by split_and!; etrans.
Qed.

Lemma same_file_node d d' : same_file d d' -> same_node d d'.
Proof. by intros (H1 & H2 & H3 & _ & H5). Qed.

Section Proc.
Context {S W : Type} `{!storage S} `{!services W}.
#[local] Notation kernel := (kernel S W).

(** ** Sharing *)

(** A second descriptor for an open description. *)
Lemma link_entry_inv (k : kernel) p fd i e :
  inv k -> live_at k p -> (fd < 32)%nat -> e_used (entry_at k p fd) = 0 ->
  e_used e <> 0 -> e_index e = Z.of_nat i -> (i < 32)%nat -> used (desc_at k i) = 1 ->
  inv (add_ref i (put_entry p fd e k)) /\ same_file (desc_at (add_ref i (put_entry p fd e k)) i) (desc_at k i).
Proof.
  intros HI [Hp Hl] Hfd He Hu Hx Hi Hd.
  destruct (tabs_lookup k p HI Hp) as [_ Htab].
  pose proof (entry_lookup k p fd HI Hp Hfd) as Hent.
  pose proof (ic_refs _ _ _ _ HI i Hi) as Hr. fold (desc_at k i) in Hr.
  destruct Hr as [[Hz _]|(_ & Hr & Hge & Hk)]; [by rewrite Hz in Hd|].
  pose proof (total_refs_bound (tabs k) i (ic_procs _ _ _ _ HI) (ic_tabs _ _ _ _ HI)) as Hb.
  assert (hit i e = 1%nat) as Hh.
  { unfold hit. apply Z.eqb_neq in Hu. by rewrite Hu, Hx, Z.eqb_refl. }
  unfold add_ref. change (desc_at (put_entry p fd e k) i) with (desc_at k i).
  rewrite u16_small by lia. split.
  2: { rewrite desc_at_put; [done|]. change (i < length (g_descriptions k))%nat.
       rewrite (ic_descs _ _ _ _ HI). lia. }
  eapply (inv_intro k); [|done|done|apply tabs_put_entry|done].
  eapply inv_core_update; [exact HI|exact Htab|exact Hent| | | |done| |].
  - right. rewrite Hx. unfold POSIX_OFD_CAP. lia.
  - right. cbn. by rewrite bool_decide_eq_false_2.
  - intros E. pose proof (ic_init _ _ _ _ HI E) as Hz. rewrite Forall_lookup in Hz.
    destruct (lookup_lt_is_Some_2 (g_descriptions k) i) as [d Hdl]; [rewrite (ic_descs _ _ _ _ HI); lia|].
    unfold desc_at in Hd. by rewrite Hdl, (Hz i d Hdl) in Hd.
  - intros j Hj. rewrite hit_unused by done. unfold hit. rewrite Hx.
    destruct (Z.eqb_spec (Z.of_nat i) (Z.of_nat j)); [lia|]. by case_match.
  - pose proof (total_refs_entry (tabs k) p _ _ fd _ e i Htab Hent) as Hc.
    rewrite Hh, (hit_unused i _ He) in Hc. right.
    cbn [tab_of t_live t_entries set_refs used refs kind] in *. split_and!; [done|lia|lia|done].
Qed.

(** ** Resetting an unused table *)

Lemma table_refs_unused es i : Forall (fun e => e_used e = 0) es -> table_refs es i = 0%nat.
Proof.
  intros H. apply sumf_zero. eapply Forall_impl; [exact H|]. intros e He. by apply hit_unused.
Qed.

Lemma no_entries_unused : Forall (fun e => e_used e = 0) no_entries.
Proof. by apply Forall_replicate. Qed.

(** Replacing a table without open descriptors by another one. *)
Lemma inv_replace_tab (k : kernel) p v :
  inv k -> (p < 16)%nat -> Forall (fun e => e_used e = 0) (entries (proc_at k p)) ->
  entries v = no_entries -> (g_current_process k = Some p -> state v <> UNUSED) ->
  inv (put_proc p v k).
Proof.
  intros HI Hp Hold Hnew Hcur. destruct (tabs_lookup k p HI Hp) as [_ Htab].
  pose proof HI as [H1 H2 H3 H4 H5 H6]. apply (inv_intro k _ (g_descriptions k) (<[p := tab_of v]> (tabs k)));
    [|done|done|apply tabs_put_proc|done]. split.
  - done.
  - by rewrite length_insert.
  - apply Forall_insert; [done|]. unfold tab_ok. cbn [tab_of t_entries t_live]. rewrite Hnew.
    split_and!; [done| |intros _; apply no_entries_unused].
    eapply Forall_impl; [apply no_entries_unused|]. intros e He. by left.
  - intros i Hi. pose proof (sumf_insert (tab_refs i) (tabs k) p _ (tab_of v) Htab) as Hs.
    assert (tab_refs i (tab_of (proc_at k p)) = 0%nat) as E1 by (by apply table_refs_unused).
    assert (tab_refs i (tab_of v) = 0%nat) as E2.
    { unfold tab_refs. cbn. rewrite Hnew. apply table_refs_unused, no_entries_unused. }
    unfold total_refs in *. replace (sumf (tab_refs i) (<[p := tab_of v]> (tabs k))) with (sumf (tab_refs i) (tabs k)) by lia.
    by apply H4.
  - done.
  - intros q Hq. destruct (decide (q = p)) as [->|Hne]; [|by rewrite list_lookup_insert_ne; auto].
    eexists. rewrite list_lookup_insert_eq by (by eapply lookup_lt_Some). unfold tab_of.
    by rewrite bool_decide_eq_false_2 by auto.
Qed.

(** ** Destroying a table *)

(** [k'] is [k] with the descriptors of [p] from [i] on closed. *)
Record closed_from (k k' : kernel) (p i : nat) : Prop := {
  cf_inv : inv k';
  cf_current : g_current_process k' = g_current_process k;
  cf_init : g_descriptions_initialized k' = g_descriptions_initialized k;
  cf_others q : q <> p -> tabs k' !! q = tabs k !! q;
  cf_live : t_live (tab_of (proc_at k' p)) = t_live (tab_of (proc_at k p));
  cf_closed fd : (i <= fd < 32)%nat -> e_used (entry_at k' p fd) = 0;
  cf_kept fd : (fd < i)%nat -> entry_at k' p fd = entry_at k p fd;
  cf_files j : (1 <= total_refs (tabs k') j)%nat -> same_file (desc_at k' j) (desc_at k j)
}.

Lemma released_entry (k k' : kernel) p fd i q fd' :
  inv k -> (p < 16)%nat -> (fd < 32)%nat -> released k k' p fd i -> (q < 16)%nat ->
  entry_at k' q fd' = if decide (q = p /\ fd' = fd) then zero_entry else entry_at k q fd'.
Proof.
  intros HI Hp Hfd HR Hq. rewrite <- (entry_at_put p fd zero_entry k q fd') by done.
  pose proof (rl_tabs _ _ _ _ _ HR) as Ht. rewrite <- tabs_put_entry in Ht.
  assert (tabs k' !! q = tabs (put_entry p fd zero_entry k) !! q) as E by (by rewrite Ht).
  destruct (tabs_lookup k' q (rl_inv _ _ _ _ _ HR) Hq) as [_ E1]. rewrite E1 in E.
  unfold tabs in E. rewrite list_lookup_fmap in E. unfold entry_at, proc_at at 2.
  destruct (g_processes (put_entry p fd zero_entry k) !! q) as [v|]; [|done].
  cbn in E. injection E as E _. by rewrite E.
Qed.

Lemma closed_skip (k k' : kernel) p i :
  e_used (entry_at k p i) = 0 -> closed_from k k' p (Datatypes.S i) -> closed_from k k' p i.
Proof.
  intros Hu [H1 H2 H3 H4 H5 H6 H7 H8]. split; try done.
  - intros fd Hfd. destruct (decide (fd = i)) as [->|]; [rewrite H7 by lia; done|]. apply H6. lia.
  - intros fd Hfd. apply H7. lia.
Qed.

Lemma closed_release (k k1 k' : kernel) p i j :
  inv k -> (p < 16)%nat -> (i < 32)%nat -> (j < 32)%nat ->
  released k k1 p i j -> closed_from k1 k' p (Datatypes.S i) -> closed_from k k' p i.
Proof.
  intros HI Hp Hi Hj HR [H1 H2 H3 H4 H5 H6 H7 H8].
  assert (p < length (tabs k))%nat as Hpl by (rewrite (ic_procs _ _ _ _ HI); lia).
  pose proof (rl_tabs _ _ _ _ _ HR) as Ht. split.
  - done.
  - by rewrite H2, (rl_current _ _ _ _ _ HR).
  - by rewrite H3, (rl_init _ _ _ _ _ HR).
  - intros q Hq. by rewrite H4, Ht, list_lookup_insert_ne.
  - rewrite H5. destruct (tabs_lookup k1 p (rl_inv _ _ _ _ _ HR) Hp) as [_ E].
    rewrite Ht, list_lookup_insert_eq in E by done. by injection E.
  - intros fd Hfd. destruct (decide (fd = i)) as [->|]; [|apply H6; lia].
    rewrite H7 by lia. rewrite (released_entry k k1 p i j p i) by done. by rewrite decide_True.
  - intros fd Hfd. rewrite H7 by lia. rewrite (released_entry k k1 p i j p fd) by done.
    by rewrite decide_False by lia.
  - intros n Hn. rewrite (H8 n Hn). unfold desc_at. rewrite (rl_descs _ _ _ _ _ HR).
    destruct (decide (n = j)) as [->|Hne]; [|by rewrite list_lookup_insert_ne].
    rewrite list_lookup_insert_eq by (rewrite (ic_descs _ _ _ _ HI); lia). cbn [default].
    unfold dropped. fold (desc_at k j). case_match eqn:E1; [|done]. exfalso.
    pose proof (H8 j Hn) as (Hu & _). destruct (ic_refs _ _ _ _ H1 j ltac:(lia)) as [[_ Hz]|(Hu' & _)]; [lia|].
    fold (desc_at k' j) in Hu'. rewrite Hu' in Hu. unfold desc_at in Hu.
    rewrite (rl_descs _ _ _ _ _ HR), list_lookup_insert_eq in Hu by (rewrite (ic_descs _ _ _ _ HI); lia).
    unfold dropped in Hu. fold (desc_at k j) in Hu. by rewrite E1 in Hu.
Qed.

Lemma entry_description (k : kernel) p i :
  inv k -> (p < 16)%nat -> (i < 32)%nat -> e_used (entry_at k p i) <> 0 ->
  fd_description k p (Z.of_nat i) = Some (Z.to_nat (e_index (entry_at k p i))).
Proof.
  intros HI Hp Hi Hu. rewrite fd_description_spec by done. rewrite Nat2Z.id. apply Z.eqb_neq in Hu.
  rewrite Hu. unfold fd_in_range, POSIX_FD_CAP.
  destruct (Z.leb_spec 0 (Z.of_nat i)); [|lia]. destruct (Z.ltb_spec (Z.of_nat i) 32); [done|lia].
Qed.

Lemma destroy_loop_spec n i (k k' : kernel) p :
  inv k -> (p < 16)%nat -> (i + n = 32)%nat -> destroy_loop n i p k = Some k' -> closed_from k k' p i.
Proof.
  revert i k. induction n as [|n IH]; intros i k HI Hp Hn; cbn [destroy_loop].
  { intros [= <-]. split; try done. intros fd Hfd. lia. }
  destruct (Z.eqb_spec (e_used (entry_at k p i)) 0) as [Hu|Hu].
  { intros E. apply closed_skip; [done|]. apply IH; [done|done|lia|done]. }
  pose proof (entry_description k p i HI Hp ltac:(lia) Hu) as Hd.
  destruct (fd_release_entry p (Z.of_nat i) k) as [[rc k1]|] eqn:E1; [|done].
  cbn [mbind option_bind]. intros E.
  pose proof (fd_release_spec k p _ _ rc k1 HI Hp Hd E1) as HR. rewrite Nat2Z.id in HR.
  destruct (open_desc k p _ _ HI Hp Hd) as (_ & Hj & _).
  eapply (closed_release k k1); [done|done|lia|exact Hj|done|].
  apply IH; [apply HR|done|lia|done].
Qed.

Lemma all_unused (k : kernel) p :
  inv k -> (p < 16)%nat -> (forall fd, (fd < 32)%nat -> e_used (entry_at k p fd) = 0) ->
  Forall (fun e => e_used e = 0) (entries (proc_at k p)).
Proof.
  intros HI Hp H. apply Forall_lookup. intros fd e He. destruct (tabs_lookup k p HI Hp) as [_ Ht].
  pose proof (ic_tabs _ _ _ _ HI) as HT. rewrite Forall_lookup in HT.
  destruct (HT p _ Ht) as (Hl & _). cbn in Hl. pose proof (lookup_lt_Some _ _ _ He) as Hlt.
  specialize (H fd ltac:(lia)). unfold entry_at in H. by rewrite He in H.
Qed.

Lemma table_destroy_spec (k k' : kernel) p :
  inv k -> (p < 16)%nat -> fd_core_table_destroy p k = Some k' ->
  exists k1, closed_from k k1 p 0 /\ k' = fd_core_table_reset p k1 /\ inv k'.
Proof.
  intros HI Hp. unfold fd_core_table_destroy.
  destruct (destroy_loop _ 0 p k) as [k1|] eqn:E; [|done]. cbn [mbind option_bind]. intros [= <-].
  pose proof (destroy_loop_spec (Z.to_nat POSIX_FD_CAP) 0 k k1 p HI Hp eq_refl E) as HC.
  exists k1. split_and!; [done|done|]. apply inv_replace_tab; [apply HC|done| |done|].
  - apply all_unused; [apply HC|done|]. intros fd Hfd. apply (cf_closed _ _ _ _ HC). lia.
  - intros Hc. cbn. by apply (current_live k1 p (cf_inv _ _ _ _ HC)).
Qed.

(** ** Inheriting a table *)

(** [k'] is [k] with the descriptors of [src] from [i] on copied to [dst]. *)
Record cloned (k k' : kernel) (dst src i : nat) : Prop := {
  cl_inv : inv k';
  cl_rest : g_current_process k' = g_current_process k /\ g_next_pid k' = g_next_pid k /\
            fsys k' = fsys k;
  cl_others q : q <> dst -> proc_at k' q = proc_at k q;
  cl_dst : exists es, proc_at k' dst = set_table es 1 (proc_at k dst);
  cl_copied fd : (i <= fd < 32)%nat ->
    entry_at k' dst fd = entry_at k src fd \/
    e_used (entry_at k src fd) = 0 /\ e_used (entry_at k' dst fd) = 0;
  cl_kept fd : (fd < i)%nat -> entry_at k' dst fd = entry_at k dst fd;
  cl_files j : same_file (desc_at k' j) (desc_at k j)
}.

Lemma set_initialized_inv (k : kernel) p b : inv k -> (p < 16)%nat -> inv (set_initialized p b k).
Proof. intros HI Hp. by apply inv_put_proc. Qed.

Lemma proc_at_entry (k : kernel) p fd e q :
  inv k -> (p < 16)%nat ->
  proc_at (put_entry p fd e k) q =
    if decide (q = p) then set_table (<[fd := e]> (entries (proc_at k p))) (initialized (proc_at k p)) (proc_at k p)
    else proc_at k q.
Proof.
  intros HI Hp. unfold put_entry. rewrite proc_at_put, (procs_length k HI).
  destruct (decide (q = p)) as [->|]; [by rewrite decide_True by lia|by rewrite decide_False by naive_solver].
Qed.

Lemma clone_done (k : kernel) dst src : inv k -> live_at k dst -> dst <> src -> cloned k (set_initialized dst 1 k) dst src 32.
Proof.
  intros HI [Hd _] Hne. unfold set_initialized. pose proof (procs_length k HI) as Hl. split; try done.
  - by apply set_initialized_inv.
  - intros q Hq. rewrite proc_at_put. by rewrite decide_False by naive_solver.
  - eexists. rewrite proc_at_put. by rewrite decide_True by lia.
  - intros fd Hfd. lia.
  - intros fd Hfd. unfold entry_at. rewrite proc_at_put. by rewrite decide_True by lia.
Qed.

Lemma same_file_add_ref (k : kernel) p fd e i j :
  inv k -> (i < 32)%nat -> same_file (desc_at (add_ref i (put_entry p fd e k)) i) (desc_at k i) ->
  same_file (desc_at (add_ref i (put_entry p fd e k)) j) (desc_at k j).
Proof.
  intros HI Hi H. destruct (decide (j = i)) as [->|Hne]; [done|].
  unfold desc_at, add_ref. cbn. by rewrite list_lookup_insert_ne.
Qed.

Lemma clone_step (k k' : kernel) dst src i j :
  inv k -> live_at k dst -> (src < 16)%nat -> dst <> src -> (i < 32)%nat ->
  e_used (entry_at k dst i) = 0 -> e_used (entry_at k src i) <> 0 ->
  Z.to_nat (e_index (entry_at k src i)) = j -> 0 <= e_index (entry_at k src i) < 32 ->
  used (desc_at k j) = 1 ->
  let k1 := add_ref j (put_entry dst i (entry_at k src i) k) in
  inv k1 /\ live_at k1 dst /\ (cloned k1 k' dst src (Datatypes.S i) -> cloned k k' dst src i).
Proof.
  intros HI [Hd Hl] Hs Hne Hi He Hu Hj Hx Hdu k1.
  destruct (link_entry_inv k dst i j (entry_at k src i)) as [HI1 Hsf]; [done|done|done|done|done|lia|lia|done|].
  fold k1 in HI1, Hsf.
  assert (forall q, proc_at k1 q = proc_at (put_entry dst i (entry_at k src i) k) q) as Hpr by done.
  assert (forall q fd, entry_at k1 q fd = entry_at (put_entry dst i (entry_at k src i) k) q fd) as Hen by done.
  split_and!; [done|split; [done|]; rewrite Hpr, proc_at_entry by done; by rewrite decide_True|].
  intros [C1 C2 C3 [es C4] C5 C6 C7]. split; try done.
  - intros q Hq. by rewrite C3, Hpr, proc_at_entry, decide_False.
  - exists es. rewrite C4, Hpr, proc_at_entry by done. by rewrite decide_True.
  - intros fd Hfd. destruct (decide (fd = i)) as [->|Hf].
    + left. rewrite C6 by lia. rewrite Hen, entry_at_put by done. by rewrite decide_True.
    + destruct (C5 fd ltac:(lia)) as [E|[E1 E2]]; [left|right];
        rewrite ?E; rewrite Hen, entry_at_put in * by done; rewrite decide_False in * by naive_solver; done.
  - intros fd Hfd. rewrite C6 by lia. rewrite Hen, entry_at_put by done.
    by rewrite decide_False by lia.
  - intros n. rewrite (C7 n). apply same_file_add_ref; [done|lia|done].
Qed.

Lemma clone_loop_spec n i (k : kernel) dst src :
  inv k -> live_at k dst -> (src < 16)%nat -> dst <> src -> (i + n = 32)%nat ->
  (forall fd, (i <= fd < 32)%nat -> e_used (entry_at k dst fd) = 0) ->
  exists k', clone_loop n i dst src k = Some (0, k') /\ cloned k k' dst src i.
Proof.
  revert i k. induction n as [|n IH]; intros i k HI Hl Hs Hne Hn Hz; cbn [clone_loop].
  { eexists. split; [done|]. replace i with 32%nat by lia. by apply clone_done. }
  destruct (Z.eqb_spec (e_used (entry_at k src i)) 0) as [Hu|Hu].
  { destruct (IH (Datatypes.S i) k) as (k' & E & [C1 C2 C3 C4 C5 C6 C7]); [done|done|done|done|lia|intros; apply Hz; lia|].
    exists k'. split; [done|]. split; try done.
    - intros fd Hfd. destruct (decide (fd = i)) as [->|]; [|apply C5; lia].
      right. split; [done|]. rewrite C6 by lia. apply Hz. lia.
    - intros fd Hfd. apply C6. lia. }
  destruct (tabs_lookup k src HI Hs) as [_ Ht].
  destruct (entry_used_desc _ _ _ _ src _ _ i _ HI Ht (entry_lookup k src i HI Hs ltac:(lia)) Hu) as (Hx & Hd & _).
  fold (desc_at k (Z.to_nat (e_index (entry_at k src i)))) in Hd. rewrite Hd.
  destruct (Z.leb_spec POSIX_OFD_CAP (e_index (entry_at k src i))); [lia|]. cbn [orb Z.eqb].
  unfold POSIX_OFD_CAP in Hx.
  destruct (clone_step k k dst src i _ HI Hl Hs Hne ltac:(lia) (Hz i ltac:(lia)) Hu eq_refl Hx Hd) as (HI1 & Hl1 & _).
  destruct (IH (Datatypes.S i) _ HI1 Hl1 Hs Hne ltac:(lia)) as (k' & E & HC).
  { intros fd Hfd. change (entry_at (add_ref ?a ?b) ?c ?d) with (entry_at b c d).
    rewrite entry_at_put by (apply Hl || done || lia). rewrite decide_False by lia. apply Hz. lia. }
  exists k'. split; [done|].
  by apply (clone_step k k' dst src i _ HI Hl Hs Hne ltac:(lia) (Hz i ltac:(lia)) Hu eq_refl Hx Hd).
Qed.

End Proc.

End FdProc.
