(* ===== verification/FdSteps.v ===== *)
(** * Every call keeps the counts exact

    Preservation of the invariant by the descriptor calls and the process
    operations, from the state after boot. *)

From S2P Require Import Prelude FsTypes FsPath Vfs Pseudo FsCore Fd FdInv FdProc.
From stdpp Require Import base list option list_numbers strings.
From Stdlib Require Import ZArith Lia ZifyBool.
Import FsTypes FsPath Vfs Pseudo FsCore Fd FdOps FdInv FdTables FdProc.
Open Scope Z_scope.

Module FdSteps.

Section Steps.
Context {S W : Type} `{!storage S} `{!services W}.
#[local] Notation kernel := (kernel S W).

(** ** Initialised tables *)

(** Every process in use has a table that was set up. *)
Definition proc_init (v : process) : Prop := state v <> UNUSED -> initialized v <> 0.
Definition all_init (k : kernel) : Prop := Forall proc_init (g_processes k).

(** The state between two calls. *)
Record booted (k : kernel) : Prop := {
  bt_inv : inv k;
  bt_init : all_init k;
  bt_current : exists p, g_current_process k = Some p
}.

Lemma all_init_at (k : kernel) p : all_init k -> proc_init (proc_at k p).
Proof.
  intros H. unfold proc_at. destruct (g_processes k !! p) as [v|] eqn:E; [|by intros []].
  unfold all_init in H. rewrite Forall_lookup in H. by apply (H p).
Qed.

Lemma all_init_put p v (k : kernel) : all_init k -> proc_init v -> all_init (put_proc p v k).
Proof. intros H Hv. by apply Forall_insert. Qed.

Lemma all_init_entry p fd e (k : kernel) : all_init k -> all_init (put_entry p fd e k).
Proof. intros H. apply all_init_put; [done|]. by apply (all_init_at k p). Qed.

Lemma all_init_fs {A} (m : M (fs S W) A) (k : kernel) r k' :
  all_init k -> on_fs m k = Some (r, k') -> all_init k'.
Proof.
  intros H. unfold on_fs. destruct (g_current_process k) as [p|].
  - destruct (m _) as [[r0 f]|]; [|done]. cbn [mbind option_bind]. intros [= -> <-].
    apply all_init_put; [done|]. by apply (all_init_at k p).
  - destruct (m _) as [[r0 f]|]; [|done]. cbn [mbind option_bind]. by intros [= -> <-].
Qed.

Lemma all_init_release p fd (k : kernel) rc k' :
  all_init k -> fd_release_entry p fd k = Some (rc, k') -> all_init k'.
Proof.
  intros H. unfold fd_release_entry. destruct (fd_description k p fd) as [i|]; [|by intros [= <- <-]].
  pose proof (all_init_entry p (Z.to_nat fd) zero_entry k H) as H1.
  set (k1 := put_entry p (Z.to_nat fd) zero_entry k) in *. set (k2 := put_desc i _ k1).
  destruct (negb (refs (desc_at k2 i) =? 0)); [by intros [= <- <-]|].
  case_decide; cbn [mbind option_bind]; [|by intros [= <- <-]].
  destruct (on_fs (fs_core_close (node_id (desc_at k1 i))) k2) as [[r k3]|] eqn:E; [|done].
  cbn [mbind option_bind]. intros [= <- <-]. apply (all_init_fs _ k2 r k3 H1 E).
Qed.

Lemma all_init_destroy n i p (k k' : kernel) :
  all_init k -> destroy_loop n i p k = Some k' -> all_init k'.
Proof.
  revert i k. induction n as [|n IH]; intros i k H; cbn [destroy_loop]; [by intros [= <-]|].
  case_match; [by apply IH|]. destruct (fd_release_entry _ _ k) as [[rc k1]|] eqn:E; [|done].
  cbn [mbind option_bind]. apply IH. by eapply all_init_release.
Qed.

Lemma booted_fs {A} (m : M (fs S W) A) (k : kernel) r k' :
  booted k -> on_fs m k = Some (r, k') -> booted k'.
Proof.
  intros [H1 H2 H3] E. split; [by eapply on_fs_inv|by eapply all_init_fs|].
  destruct (on_fs_frame m k r k' (current_in_range k H1) E) as (_ & _ & _ & -> & _). done.
Qed.

Lemma fs_current {A} (m : M (fs S W) A) (k : kernel) r k' :
  booted k -> on_fs m k = Some (r, k') -> g_current_process k' = g_current_process k.
Proof. intros [H1 _ _] E. by destruct (on_fs_frame m k r k' (current_in_range k H1) E) as (_ & _ & _ & ? & _). Qed.

(** ** What a call leaves alone

    A call works on the table of the current process.  Every other process keeps its
    record, and the files it has open stay open; only their offsets may move. *)

Definition identity (v : process) : Z * Z * process_state := (pid v, ppid v, state v).

Record own (k k' : kernel) : Prop := {
  ow_booted : booted k';
  ow_current : g_current_process k' = g_current_process k;
  ow_pid : g_next_pid k <= g_next_pid k';
  ow_self c : g_current_process k = Some c -> identity (proc_at k' c) = identity (proc_at k c);
  ow_others q : g_current_process k <> Some q -> state (proc_at k q) <> UNUSED -> proc_at k' q = proc_at k q;
  ow_unused q : state (proc_at k q) = UNUSED -> state (proc_at k' q) = UNUSED;
  ow_files q fd i : g_current_process k <> Some q -> (q < 16)%nat -> fd_description k q fd = Some i ->
                    same_node (desc_at k' i) (desc_at k i)
}.

Lemma own_refl (k : kernel) : booted k -> own k k.
Proof. intros H. by split. Qed.

Lemma description_live (k : kernel) q fd i :
  inv k -> (q < 16)%nat -> fd_description k q fd = Some i -> state (proc_at k q) <> UNUSED.
Proof.
  intros HI Hq Hd Hs. destruct (open_desc k q fd i HI Hq Hd) as (Hfd & _ & _ & _ & Hu & _). apply Hu.
  destruct (tabs_lookup k q HI Hq) as [_ Ht]. pose proof (ic_tabs _ _ _ _ HI) as HT.
  rewrite Forall_lookup in HT. destruct (HT q _ Ht) as (_ & _ & H).
  unfold tab_of in H. cbn in H. rewrite bool_decide_eq_true_2 in H by done. specialize (H eq_refl). rewrite Forall_lookup in H.
  apply (H (Z.to_nat fd)), entry_lookup; [done|done|lia].
Qed.

Lemma own_trans (k k1 k2 : kernel) : booted k -> own k k1 -> own k1 k2 -> own k k2.
Proof.
  intros HB [B1 C1 P1 S1 O1 U1 F1] [B2 C2 P2 S2 O2 U2 F2]. split; try done; [congruence|lia|..].
  - intros c Hc. rewrite S2 by congruence. by apply S1.
  - intros q Hq Hs. rewrite O2; [by apply O1|congruence|by rewrite O1].
  - intros q Hs. apply U2, U1, Hs.
  - intros q fd i Hq Hlt Hd. pose proof (description_live k q fd i (bt_inv _ HB) Hlt Hd) as Hs.
    etrans; [|by apply (F1 q fd)]. apply (F2 q fd); [congruence|done|]. rewrite <- Hd.
    apply description_ext; [apply HB|apply B1|done|]. unfold entry_at. by rewrite O1.
Qed.

(** The process table after a step of [p] that is not about processes. *)
Definition procs_own (p : nat) (k k' : kernel) : Prop :=
  (forall q, q <> p -> proc_at k' q = proc_at k q) /\ identity (proc_at k' p) = identity (proc_at k p) /\
  g_next_pid k' = g_next_pid k.

Lemma procs_own_trans p (k k1 k2 : kernel) : procs_own p k k1 -> procs_own p k1 k2 -> procs_own p k k2.
Proof.
  intros (H1 & H2 & H3) (G1 & G2 & G3). split_and!; [|congruence|congruence]. intros q Hq. rewrite G1 by done. by apply H1.
Qed.

Lemma procs_own_put p v (k : kernel) : identity v = identity (proc_at k p) -> procs_own p k (put_proc p v k).
Proof.
  intros Hv. split_and!; [| |done]; intros; rewrite proc_at_put; [by rewrite decide_False by naive_solver|]. by case_decide.
Qed.

Lemma procs_own_entry p fd e (k : kernel) : procs_own p k (put_entry p fd e k).
Proof. by apply procs_own_put. Qed.

Lemma procs_own_fs {A} p (m : M (fs S W) A) (k : kernel) r k' :
  g_current_process k = Some p -> on_fs m k = Some (r, k') -> procs_own p k k'.
Proof.
  intros Hp. unfold on_fs. rewrite Hp. destruct (m _) as [[r0 f]|]; [|done]. cbn [mbind option_bind].
  intros [= -> <-]. by apply (procs_own_put p _ (set_fsys f k)).
Qed.

Lemma procs_own_release p fd (k : kernel) rc k' :
  g_current_process k = Some p -> fd_release_entry p fd k = Some (rc, k') -> procs_own p k k'.
Proof.
  intros Hp. unfold fd_release_entry. destruct (fd_description k p fd) as [i|]; [|by intros [= <- <-]].
  pose proof (procs_own_entry p (Z.to_nat fd) zero_entry k) as H1.
  set (k1 := put_entry p (Z.to_nat fd) zero_entry k) in *. set (k2 := put_desc i _ k1).
  destruct (negb (refs (desc_at k2 i) =? 0)); [by intros [= <- <-]|].
  case_decide; cbn [mbind option_bind]; [|by intros [= <- <-]].
  destruct (on_fs (fs_core_close (node_id (desc_at k1 i))) k2) as [[r k3]|] eqn:E; [|done].
  cbn [mbind option_bind]. intros [= <- <-]. apply (procs_own_trans p k k1); [done|].
  by apply (procs_own_fs p (fs_core_close (node_id (desc_at k1 i))) k2 r k3).
Qed.

Lemma own_intro p (k k' : kernel) :
  booted k -> booted k' -> g_current_process k = Some p -> g_current_process k' = Some p -> procs_own p k k' ->
  (forall q fd i, q <> p -> (q < 16)%nat -> fd_description k q fd = Some i -> same_node (desc_at k' i) (desc_at k i)) ->
  own k k'.
Proof.
  intros HB HB' Hp Hp' (H1 & H2 & H3) Hf. split; [done|congruence|lia|..].
  - intros c Hc. rewrite Hp in Hc. by injection Hc as <-.
  - intros q Hq _. apply H1. congruence.
  - intros q Hs. destruct (decide (q = p)) as [->|Hq]; [|by rewrite H1].
    by destruct (current_live k p (bt_inv _ HB) Hp) as [_ []].
  - intros q fd i Hq. apply Hf. congruence.
Qed.

Lemma own_fs {A} (m : M (fs S W) A) (k : kernel) r k' : booted k -> on_fs m k = Some (r, k') -> own k k'.
Proof.
  intros HB E. destruct (bt_current _ HB) as [p Hp].
  destruct (on_fs_frame m k r k' (current_in_range k (bt_inv _ HB)) E) as (_ & Hd & _ & Hc & _).
  apply (own_intro p); try done; [by eapply booted_fs|congruence|by eapply procs_own_fs|].
  intros. unfold desc_at. by rewrite Hd.
Qed.

Lemma own_fsys f (k : kernel) : booted k -> own k (set_fsys f k).
Proof. intros HB. split; try done. by destruct HB. Qed.

Lemma own_tty_line r c (k : kernel) : booted k -> own k (set_tty_line r c k).
Proof. intros HB. split; try done. by destruct HB. Qed.

Lemma own_tty (m : W -> option W) (k k' : kernel) : booted k -> on_tty m k = Some k' -> own k k'.
Proof.
  intros H. unfold on_tty. destruct (m _); [|done]. cbn [mbind option_bind]. intros [= <-].
  by apply own_fsys.
Qed.

(** ** Open files *)

Definition open_at (k : kernel) (i : nat) : Prop := (i < 32)%nat /\ used (desc_at k i) = 1.

Lemma open_at_fs {A} (m : M (fs S W) A) (k : kernel) r k' i :
  inv k -> on_fs m k = Some (r, k') -> open_at k i -> open_at k' i.
Proof.
  intros HI E. destruct (on_fs_frame m k r k' (current_in_range k HI) E) as (_ & Hd & _).
  unfold open_at, desc_at. by rewrite Hd.
Qed.

(** Moving the offset of an open file. *)
Lemma booted_offset i off (k : kernel) :
  booted k -> open_at k i -> booted (put_desc i (set_offset off (desc_at k i)) k).
Proof.
  intros [H1 H2 H3] [Hi Hu]. split; [|done|done]. pose proof H1 as [I1 I2 I3 I4 I5 I6].
  apply (inv_intro k _ (<[i := set_offset off (desc_at k i)]> (g_descriptions k)) (tabs k)); try done.
  split; try done.
  - by rewrite length_insert.
  - intros j Hj. destruct (decide (j = i)) as [->|Hne]; [|rewrite list_lookup_insert_ne by done; by apply I4].
    rewrite list_lookup_insert_eq by (rewrite I1; lia). cbn [default id].
    destruct (I4 i Hj) as [[Hz Ht]|(_ & Hr & Hn & Hk)]; fold (desc_at k i) in *; [by rewrite Hz in Hu|].
    right. by split_and!.
  - intros E. specialize (I5 E). rewrite Forall_lookup in I5.
    destruct (lookup_lt_is_Some_2 (g_descriptions k) i) as [d Hd]; [lia|].
    unfold desc_at in Hu. by rewrite Hd, (I5 i d Hd) in Hu.
Qed.

Lemma desc_at_insert i d (k : kernel) j : (i < length (g_descriptions k))%nat ->
  desc_at (put_desc i d k) j = if decide (j = i) then d else desc_at k j.
Proof.
  intros Hi. destruct (decide (j = i)) as [->|Hj]; [by apply desc_at_put|].
  unfold desc_at. cbn. by rewrite list_lookup_insert_ne.
Qed.

(** A change of one description that is still the same file. *)
Lemma own_desc i d (k : kernel) :
  booted k -> booted (put_desc i d k) -> same_node d (desc_at k i) -> own k (put_desc i d k).
Proof.
  intros HB HB' Hd. destruct (bt_current _ HB) as [p Hp]. apply (own_intro p); try done.
  intros q fd j _ Hq Hj. destruct (open_desc k q fd j (bt_inv _ HB) Hq Hj) as (_ & Hlt & _).
  destruct (decide (i < length (g_descriptions k))%nat).
  - rewrite desc_at_insert by done. by case_decide; subst.
  - unfold desc_at, put_desc. cbn. by rewrite list_insert_ge by lia.
Qed.

Lemma own_offset i off (k : kernel) :
  booted k -> open_at k i -> own k (put_desc i (set_offset off (desc_at k i)) k).
Proof. intros HB Ho. apply own_desc; [done|by apply booted_offset|done]. Qed.

Lemma current_table_booted (k : kernel) :
  booted k -> exists p, g_current_process k = Some p /\ live_at k p /\ current_table k = Some (p, k).
Proof.
  intros [H1 H2 [p Hp]]. exists p. destruct (current_live k p H1 Hp) as [Hlt Hl].
  split_and!; [done|done|]. unfold current_table, fd_core_init, process_core_current. rewrite Hp.
  cbn [mbind option_bind]. pose proof (all_init_at k p H2 Hl) as Hi. apply Z.eqb_neq in Hi. rewrite Hi.
  cbn [mbind option_bind]. by rewrite Hp.
Qed.

Lemma description_open (k : kernel) p fd i :
  inv k -> (p < 16)%nat -> fd_description k p fd = Some i -> open_at k i.
Proof. intros HI Hp Hd. by destruct (open_desc k p fd i HI Hp Hd) as (_ & ? & ? & _). Qed.

Lemma booted_release p fd (k k' : kernel) rc :
  booted k -> (p < 16)%nat -> fd_release_entry p fd k = Some (rc, k') -> booted k'.
Proof.
  intros [H1 H2 H3] Hp E. destruct (fd_description k p fd) as [i|] eqn:Ed.
  - pose proof (fd_release_spec k p fd i rc k' H1 Hp Ed E) as HR.
    split; [apply HR|by eapply all_init_release|]. by rewrite (rl_current _ _ _ _ _ HR).
  - unfold fd_release_entry in E. rewrite Ed in E. by injection E as <- <-.
Qed.

(** A description that two processes have open is referred to twice. *)
Lemma shared_refs (k : kernel) p q fd fd' i :
  inv k -> (p < 16)%nat -> (q < 16)%nat -> p <> q ->
  fd_description k p fd = Some i -> fd_description k q fd' = Some i -> 2 <= refs (desc_at k i).
Proof.
  intros HI Hp Hq Hne Hd Hd'.
  destruct (open_desc k p fd i HI Hp Hd) as (Hf & _ & _ & _ & Hu & Hx & Hr & _).
  destruct (open_desc k q fd' i HI Hq Hd') as (Hf' & _ & _ & _ & Hu' & Hx' & _).
  destruct (tabs_lookup k p HI Hp) as [_ Ht1]. destruct (tabs_lookup k q HI Hq) as [_ Ht2].
  pose proof (sumf_two (tab_refs i) (tabs k) p q _ _ Hne Ht1 Ht2) as H2.
  pose proof (sumf_member (hit i) _ _ _ (entry_lookup k p (Z.to_nat fd) HI Hp ltac:(lia))) as M1.
  pose proof (sumf_member (hit i) _ _ _ (entry_lookup k q (Z.to_nat fd') HI Hq ltac:(lia))) as M2.
  assert (forall e, e_used e <> 0 -> e_index e = Z.of_nat i -> hit i e = 1%nat) as Hh.
  { intros e He Hi. unfold hit. apply Z.eqb_neq in He. by rewrite He, Hi, Z.eqb_refl. }
  rewrite Hh in M1, M2 by done. unfold tab_refs, table_refs in H2. cbn [tab_of t_entries] in H2.
  unfold total_refs, tab_refs, table_refs in Hr. cbn in Hr. lia.
Qed.

Lemma own_release p fd (k k' : kernel) rc :
  booted k -> g_current_process k = Some p -> fd_release_entry p fd k = Some (rc, k') -> own k k'.
Proof.
  intros HB Hp E. pose proof (bt_inv _ HB) as HI. destruct (current_live k p HI Hp) as [Hlt _].
  destruct (fd_description k p fd) as [i|] eqn:Ed.
  2: { unfold fd_release_entry in E. rewrite Ed in E. injection E as <- <-. by apply own_refl. }
  pose proof (fd_release_spec k p fd i rc k' HI Hlt Ed E) as HR.
  apply (own_intro p); try done; [by eapply booted_release|by rewrite (rl_current _ _ _ _ _ HR)|by eapply procs_own_release|].
  intros q fd' j Hq Hql Hj. destruct (open_desc k q fd' j HI Hql Hj) as (_ & Hjl & _).
  unfold desc_at at 1. rewrite (rl_descs _ _ _ _ _ HR). destruct (decide (j = i)) as [->|Hne].
  - rewrite list_lookup_insert_eq by (rewrite (ic_descs _ _ _ _ HI); done). cbn [default id]. unfold dropped.
    pose proof (shared_refs k p q fd fd' i HI Hlt Hql ltac:(done) Ed Hj).
    by destruct (Z.eqb_spec (refs (desc_at k i)) 1); [lia|].
  - by rewrite list_lookup_insert_ne.
Qed.

(** The first unused descriptor. *)
Lemma find_free_spec (l : list entry) j fd :
  find_free l j = Some fd ->
  exists e, l !! Z.to_nat (fd - j) = Some e /\ e_used e = 0 /\ j <= fd /\
    forall n e', (n < Z.to_nat (fd - j))%nat -> l !! n = Some e' -> e_used e' <> 0.
Proof.
  revert j. induction l as [|e l IH]; intros j; cbn [find_free]; [done|].
  destruct (Z.eqb_spec (e_used e) 0) as [E|E].
  - intros [= ->]. exists e. rewrite Z.sub_diag. split_and!; [done|done|lia|]. intros n e' Hn. simpl in Hn. lia.
  - intros H. destruct (IH _ H) as (e' & H1 & H2 & H3 & H4). exists e'.
    replace (Z.to_nat (fd - j)) with (Datatypes.S (Z.to_nat (fd - (j + 1)))) by lia.
    split_and!; [done|done|lia|]. intros [|n] e'' Hn; cbn; [by intros [= <-]|]. apply H4. lia.
Qed.

Lemma fd_find_free_spec (k : kernel) p fd :
  inv k -> (p < 16)%nat -> fd_find_free k p 0 = Some fd ->
  0 <= fd < 32 /\ e_used (entry_at k p (Z.to_nat fd)) = 0 /\
  forall n, 0 <= n < fd -> e_used (entry_at k p (Z.to_nat n)) <> 0.
Proof.
  intros HI Hp E. unfold fd_find_free in E. destruct (find_free_spec _ _ _ E) as (e & H1 & H2 & H3 & H4).
  rewrite Z.sub_0_r in *. change (drop (Z.to_nat 0) (entries (proc_at k p))) with (entries (proc_at k p)) in *.
  destruct (tabs_lookup k p HI Hp) as [_ Ht]. pose proof (ic_tabs _ _ _ _ HI) as HT.
  rewrite Forall_lookup in HT. destruct (HT p _ Ht) as (Hl & _). cbn in Hl.
  pose proof (lookup_lt_Some _ _ _ H1) as Hlt. split_and!; [lia|lia| |].
  - unfold entry_at. by rewrite H1.
  - intros n Hn. apply (H4 (Z.to_nat n)); [lia|]. apply entry_lookup; [done|done|lia].
Qed.

(** Sharing an open description with a free descriptor of the current process. *)
Lemma booted_link p fd fd' i (k : kernel) :
  booted k -> live_at k p -> 0 <= fd' < 32 -> e_used (entry_at k p (Z.to_nat fd')) = 0 ->
  fd_description k p fd = Some i ->
  booted (add_ref i (put_entry p (Z.to_nat fd') (entry_at k p (Z.to_nat fd)) k)).
Proof.
  intros [H1 H2 H3] Hl Hfd He Hd.
  destruct (open_desc k p fd i H1 (proj1 Hl) Hd) as (_ & Hi & Hu & _ & Heu & Hx & _).
  destruct (link_entry_inv k p (Z.to_nat fd') i (entry_at k p (Z.to_nat fd))) as [HI _]; try done; [lia|].
  split; [done|by apply (all_init_entry p)|done].
Qed.

Lemma own_link p fd fd' i (k : kernel) :
  booted k -> g_current_process k = Some p -> 0 <= fd' < 32 -> e_used (entry_at k p (Z.to_nat fd')) = 0 ->
  fd_description k p fd = Some i ->
  own k (add_ref i (put_entry p (Z.to_nat fd') (entry_at k p (Z.to_nat fd)) k)).
Proof.
  intros HB Hp Hfd He Hd. pose proof (current_live k p (bt_inv _ HB) Hp) as Hl.
  pose proof (booted_link p fd fd' i k HB Hl Hfd He Hd) as HB'.
  apply (own_intro p); try done; [apply procs_own_entry|]. intros q fd0 j _ Hq Hj.
  destruct (open_desc k q fd0 j (bt_inv _ HB) Hq Hj) as (_ & Hlt & _).
  destruct (open_desc k p fd i (bt_inv _ HB) (proj1 Hl) Hd) as (_ & Hi & _).
  unfold add_ref. rewrite desc_at_insert by (change (i < length (g_descriptions k))%nat; rewrite (ic_descs _ _ _ _ (bt_inv _ HB)); lia).
  by case_decide; subst.
Qed.

(** ** Descriptor calls *)

Lemma own_open_failed node err (k k' : kernel) r :
  booted k -> open_failed node err k = Some (r, k') -> own k k'.
Proof.
  intros H. unfold open_failed. destruct (on_fs _ k) as [[r0 k1]|] eqn:E; [|done].
  cbn [mbind option_bind]. intros [= <- <-]. by eapply own_fs.
Qed.

Lemma booted_alloc p fd kd node fl off (k k1 : kernel) i :
  booted k -> live_at k p -> 0 <= fd < 32 -> e_used (entry_at k p (Z.to_nat fd)) = 0 ->
  kd <> FD_KIND_UNUSED -> fd_alloc_description kd node fl off k = (Some i, k1) ->
  booted (put_entry p (Z.to_nat fd) (Entry 1 (u8 (Z.of_nat i))) k1).
Proof.
  intros [H1 H2 H3] Hl Hfd He Hk E.
  destruct (alloc_entry_spec kd node fl off k p (Z.to_nat fd) i k1 H1 Hl ltac:(lia) He Hk E)
    as (HI & _ & _ & Ep & Ec & _).
  split; [done| |].
  - apply all_init_entry. unfold all_init. by rewrite Ep.
  - destruct H3 as [q Hq]. exists q. cbn. congruence.
Qed.

Lemma alloc_pid kd node fl off (k k1 : kernel) i :
  fd_alloc_description kd node fl off k = (i, k1) -> g_next_pid k1 = g_next_pid k.
Proof.
  unfold fd_alloc_description, fd_descriptions_ensure_init. intros H. repeat case_match; by injection H as <- <-.
Qed.

(** A free description is nobody's. *)
Lemma own_alloc p fd kd node fl off (k k1 : kernel) i :
  booted k -> g_current_process k = Some p -> 0 <= fd < 32 -> e_used (entry_at k p (Z.to_nat fd)) = 0 ->
  kd <> FD_KIND_UNUSED -> fd_alloc_description kd node fl off k = (Some i, k1) ->
  own k (put_entry p (Z.to_nat fd) (Entry 1 (u8 (Z.of_nat i))) k1).
Proof.
  intros HB Hp Hfd He Hk E. pose proof (bt_inv _ HB) as HI. pose proof (current_live k p HI Hp) as Hl.
  pose proof (booted_alloc p fd kd node fl off k k1 i HB Hl Hfd He Hk E) as HB'.
  destruct (alloc_entry_spec kd node fl off k p (Z.to_nat fd) i k1 HI Hl ltac:(lia) He Hk E)
    as (_ & _ & _ & Ep & Ec & Hz & Hds).
  apply (own_intro p); try done; [cbn; congruence| |].
  - apply (procs_own_trans p k k1); [|apply procs_own_entry]. unfold procs_own, proc_at. rewrite Ep.
    by rewrite (alloc_pid _ _ _ _ _ _ _ E).
  - intros q fd' j _ Hq Hj. destruct (open_desc k q fd' j HI Hq Hj) as (_ & _ & Hu & _).
    change (same_node (desc_at k1 j) (desc_at k j)). unfold desc_at at 1. rewrite Hds.
    rewrite list_lookup_insert_ne; [done|]. intros <-. unfold desc_at in Hu. by rewrite Hz in Hu.
Qed.

Lemma own_alloc_none kd node fl off (k k1 : kernel) :
  booted k -> fd_alloc_description kd node fl off k = (None, k1) -> own k k1.
Proof.
  intros HB E. destruct (alloc_none_spec _ _ _ _ k k1 (bt_inv _ HB) E) as (HI & Ep & Ec & Ed).
  destruct (bt_current _ HB) as [p Hp]. apply (own_intro p); try done; [|congruence|..].
  - split; [done|unfold all_init; rewrite Ep; apply HB|rewrite Ec; apply HB].
  - unfold procs_own, proc_at. rewrite Ep. by rewrite (alloc_pid _ _ _ _ _ _ _ E).
  - intros. unfold desc_at. by rewrite Ed.
Qed.

Lemma fd_core_open_own path fl (k k' : kernel) r :
  booted k -> fd_core_open path fl k = Some (r, k') -> own k k'.
Proof.
  intros H. destruct (current_table_booted k H) as (p & Hp & Hl & E). unfold fd_core_open.
  rewrite E. cbn [mbind option_bind]. destruct (on_fs (fs_core_open path fl) k) as [[r1 k1]|] eqn:E1; [|done].
  cbn [mbind option_bind]. pose proof (own_fs _ k r1 k1 H E1) as O1.
  destruct r1 as [rc|node]; [by intros [= <- <-]|].
  set (sz := if negb _ then _ else _). destruct sz as [[r2 k2]|] eqn:E2; [|done]. subst sz.
  assert (own k k2) as O2.
  { destruct (negb _); [|by injection E2 as _ <-]. eapply own_trans; [done|exact O1|].
    eapply own_fs; [apply O1|exact E2]. }
  clear O1 E1 E2. cbn [mbind option_bind]. pose proof (ow_booted _ _ O2) as B2.
  assert (forall node err k3 k4 r, own k k3 -> open_failed node err k3 = Some (r, k4) -> own k k4) as Hfail.
  { intros n e k3 k4 r' O3 E3. eapply own_trans; [done|exact O3|]. eapply own_open_failed; [apply O3|exact E3]. }
  destruct r2 as [rc|off]; [by apply Hfail|].
  assert (g_current_process k2 = Some p) as Hp2 by (rewrite (ow_current _ _ O2); done).
  destruct (current_live k2 p (bt_inv _ B2) Hp2) as [Hlt _].
  destruct (fd_find_free k2 p 0) as [fd|] eqn:Ef; [|by apply Hfail].
  destruct (fd_find_free_spec k2 p fd (bt_inv _ B2) Hlt Ef) as (Hfd & He & _).
  destruct (fd_alloc_description FD_KIND_VFS node fl off k2) as [[i|] k3] eqn:Ea.
  - intros [= <- <-]. eapply own_trans; [done|exact O2|]. by apply (own_alloc p fd FD_KIND_VFS node fl off k2).
  - apply Hfail. eapply own_trans; [done|exact O2|]. by eapply own_alloc_none.
Qed.

Ltac open_table H :=
  destruct (current_table_booted _ H) as (p & Hp & Hl & E); rewrite E; cbn [mbind option_bind].
Ltac nothing := by intros [= <- <-]; apply own_refl.

Lemma fd_core_close_own fd (k k' : kernel) r :
  booted k -> fd_core_close fd k = Some (r, k') -> own k k'.
Proof.
  intros H. unfold fd_core_close. open_table H. destruct (fd_description k p fd); [|nothing].
  by eapply own_release.
Qed.

Lemma fd_core_read_own fd b count (k k' : kernel) r :
  booted k -> fd_core_read fd b count k = Some (r, k') -> own k k'.
Proof.
  intros H. unfold fd_core_read. open_table H.
  destruct (fd_description k p fd) as [i|] eqn:Ed; [|nothing].
  destruct (negb b); [nothing|]. destruct (count =? 0); [nothing|].
  case_decide.
  { destruct (tty_readline count _) as [[[rc line] w]|]; [|done]. cbn [mbind option_bind].
    intros [= <- <-]. by apply own_fsys. }
  case_decide; [nothing|]. case_match; [nothing|].
  destruct (on_fs _ k) as [[r1 k1]|] eqn:E1; [|done]. cbn [mbind option_bind].
  pose proof (own_fs _ k r1 k1 H E1) as O1.
  destruct r1 as [rc|bytes]; intros [= <- <-]; [done|]. eapply own_trans; [done|exact O1|].
  apply own_offset; [apply O1|]. eapply open_at_fs; [apply H|exact E1|]. by eapply (description_open k p fd); [apply H|apply Hl|].
Qed.

Lemma fd_core_write_own fd b (k k' : kernel) r :
  booted k -> fd_core_write fd b k = Some (r, k') -> own k k'.
Proof.
  intros H. unfold fd_core_write. open_table H.
  destruct (fd_description k p fd) as [i|] eqn:Ed; [|nothing].
  destruct b as [bytes|]; [|nothing]. cbv zeta.
  case_match; [nothing|]. case_decide.
  { destruct (on_tty _ k) as [k1|] eqn:E1; [|done]. cbn [mbind option_bind].
    destruct (on_tty (put_bytes bytes) k1) as [k2|] eqn:E2; [|done]. cbn [mbind option_bind].
    destruct (on_tty _ k2) as [k3|] eqn:E3; [|done]. cbn [mbind option_bind]. intros [= <- <-].
    pose proof (own_tty _ k k1 H E1) as O1. pose proof (own_tty _ k1 k2 (ow_booted _ _ O1) E2) as O2.
    pose proof (own_tty _ k2 k3 (ow_booted _ _ O2) E3) as O3.
    exact (own_trans _ _ _ H O1 (own_trans _ _ _ (ow_booted _ _ O1) O2 O3)). }
  case_decide; [nothing|]. case_match; [nothing|].
  pose proof (description_open k p fd i (bt_inv _ H) (proj1 Hl) Ed) as Hop.
  set (app := if negb _ then _ else _). destruct app as [[r1 k1]|] eqn:E1; [|done]. subst app.
  assert (own k k1 /\ open_at k1 i) as [B1 O1].
  { destruct (negb _); [|injection E1 as _ <-; split; [by apply own_refl|done]].
    destruct (on_fs (fs_core_size (node_id (desc_at k i))) k) as [[r2 k2]|] eqn:E2; [|done].
    cbn [mbind option_bind] in E1. pose proof (own_fs _ k r2 k2 H E2) as B2.
    pose proof (open_at_fs _ k r2 k2 i (bt_inv _ H) E2 Hop) as O2.
    destruct r2 as [rc|size]; injection E1 as _ <-; [done|].
    split; [eapply own_trans; [done|exact B2|by apply own_offset; [apply B2|]]|].
    split; [apply O2|]. rewrite desc_at_put; [apply O2|].
    rewrite (ic_descs _ _ _ _ (bt_inv _ (ow_booted _ _ B2))). apply O2. }
  cbn [mbind option_bind]. destruct r1 as [rc|u]; [by intros [= <- <-]|].
  destruct (on_fs _ k1) as [[r2 k2]|] eqn:E2; [|done]. cbn [mbind option_bind].
  pose proof (own_trans _ _ _ H B1 (own_fs _ k1 r2 k2 (ow_booted _ _ B1) E2)) as B2.
  destruct r2 as [rc|w]; intros [= <- <-]; [done|]. eapply own_trans; [done|exact B2|].
  apply own_offset; [apply B2|]. by eapply open_at_fs; [apply B1|exact E2|].
Qed.

Lemma fd_core_lseek_own fd off whence (k k' : kernel) r :
  booted k -> fd_core_lseek fd off whence k = Some (r, k') -> own k k'.
Proof.
  intros H. unfold fd_core_lseek. open_table H.
  destruct (fd_description k p fd) as [i|] eqn:Ed; [|nothing].
  case_decide; [nothing|].
  pose proof (description_open k p fd i (bt_inv _ H) (proj1 Hl) Ed) as Hop.
  set (base := if whence =? FS_SEEK_SET then _ else _). destruct base as [[r1 k1]|] eqn:E1; [|done].
  assert (own k k1 /\ open_at k1 i) as [B1 O1].
  { subst base. repeat case_match; try (injection E1 as _ <-; split; [by apply own_refl|done]).
    destruct (on_fs _ k) as [[r2 k2]|] eqn:E2; [|done]. cbn [mbind option_bind] in E1.
    injection E1 as _ <-. split; [by eapply own_fs|by eapply open_at_fs; [apply H|exact E2|]]. }
  cbn [mbind option_bind]. destruct r1 as [e|base']; [by intros [= <- <-]|].
  case_match; intros [= <- <-]; [done|]. eapply own_trans; [done|exact B1|]. apply own_offset; [apply B1|done].
Qed.

Lemma fd_core_fstat_own fd (k k' : kernel) r :
  booted k -> fd_core_fstat fd k = Some (r, k') -> own k k'.
Proof.
  intros H. unfold fd_core_fstat. open_table H.
  destruct (fd_description k p fd) as [i|] eqn:Ed; [|nothing].
  case_match; try (nothing).
  destruct (on_fs _ k) as [[r1 k1]|] eqn:E1; [|done]. cbn [mbind option_bind]. intros [= <- <-].
  by eapply own_fs.
Qed.

Lemma fd_core_dup_own fd (k k' : kernel) r :
  booted k -> fd_core_dup fd k = Some (r, k') -> own k k'.
Proof.
  intros H. unfold fd_core_dup. open_table H.
  destruct (fd_description k p fd) as [i|] eqn:Ed; [|nothing].
  destruct (fd_find_free k p 0) as [newfd|] eqn:Ef; intros [= <- <-]; [|by apply own_refl].
  destruct (fd_find_free_spec k p newfd (bt_inv _ H) (proj1 Hl) Ef) as (Hfd & He & _).
  by apply own_link.
Qed.

(** After the release of another descriptor, [oldfd] still has its description. *)
Lemma released_description (k k1 : kernel) p oldfd newfd i j :
  inv k -> (p < 16)%nat -> fd_description k p oldfd = Some i -> 0 <= newfd < 32 -> oldfd <> newfd ->
  released k k1 p (Z.to_nat newfd) j ->
  fd_description k1 p oldfd = Some i /\ e_used (entry_at k1 p (Z.to_nat newfd)) = 0 /\
  entry_at k1 p (Z.to_nat oldfd) = entry_at k p (Z.to_nat oldfd).
Proof.
  intros HI Hp Hd Hn Hne HR. destruct (open_desc k p oldfd i HI Hp Hd) as (Ho & _).
  assert (entry_at k1 p (Z.to_nat oldfd) = entry_at k p (Z.to_nat oldfd)) as E.
  { rewrite (released_entry k k1 p (Z.to_nat newfd) j p (Z.to_nat oldfd)) by (done || lia).
    by rewrite decide_False by lia. }
  rewrite (fd_description_spec k p oldfd HI Hp) in Hd.
  rewrite (fd_description_spec k1 p oldfd (rl_inv _ _ _ _ _ HR) Hp), E. split_and!; [done| |done].
  rewrite (released_entry k k1 p (Z.to_nat newfd) j p (Z.to_nat newfd)) by (done || lia).
  by rewrite decide_True.
Qed.

Lemma fd_core_dup2_own oldfd newfd (k k' : kernel) r :
  booted k -> fd_core_dup2 oldfd newfd k = Some (r, k') -> own k k'.
Proof.
  intros H. unfold fd_core_dup2. open_table H.
  destruct (fd_description k p oldfd) as [i|] eqn:Ed; [|nothing].
  destruct (fd_in_range newfd) eqn:Hr; cbn [negb]; [|nothing].
  unfold fd_in_range, POSIX_FD_CAP in Hr.
  destruct (Z.eqb_spec oldfd newfd) as [|Hne]; [nothing|].
  destruct (Z.eqb_spec (e_used (entry_at k p (Z.to_nat newfd))) 0) as [He|He]; cbn [negb].
  { cbn [mbind option_bind Z.ltb Z.compare]. intros [= <- <-]. apply own_link; try done. lia. }
  destruct (fd_release_entry p newfd k) as [[rc k1]|] eqn:E1; [|done]. cbn [mbind option_bind].
  pose proof (own_release p newfd k k1 rc H Hp E1) as B1.
  case_match; intros [= <- <-]; [done|].
  pose proof (entry_description k p (Z.to_nat newfd) (bt_inv _ H) (proj1 Hl) ltac:(lia) He) as Hdn.
  rewrite Z2Nat.id in Hdn by lia.
  pose proof (fd_release_spec k p newfd _ rc k1 (bt_inv _ H) (proj1 Hl) Hdn E1) as HR.
  destruct (released_description k k1 p oldfd newfd i _ (bt_inv _ H) (proj1 Hl) Ed ltac:(lia) Hne HR) as (Hd1 & He1 & _).
  eapply own_trans; [done|exact B1|]. apply own_link; try done; [apply B1| |lia].
  by rewrite (rl_current _ _ _ _ _ HR).
Qed.

Lemma fd_core_isatty_own fd (k k' : kernel) r :
  booted k -> fd_core_isatty fd k = Some (r, k') -> own k k'.
Proof.
  intros H. unfold fd_core_isatty. open_table H. destruct (fd_description k p fd); nothing.
Qed.

Lemma fd_core_ioctl_own fd req arg line (k k' : kernel) r :
  booted k -> fd_core_ioctl fd req arg line k = Some (r, k') -> own k k'.
Proof.
  intros H. unfold fd_core_ioctl. open_table H.
  destruct (fd_description k p fd) as [i|]; [|nothing].
  assert (forall m kk k1, own k kk -> on_tty m kk ≫= (fun k => Some (0, k)) = Some (r, k1) -> own k k1) as Htty.
  { intros m kk k1 B. destruct (on_tty m kk) as [k2|] eqn:E2; [|done]. cbn [mbind option_bind].
    intros [= <- <-]. eapply own_trans; [done|exact B|]. by eapply own_tty; [apply B|]. }
  cbv zeta. case_match; [nothing|]. case_match.
  { case_match; [nothing|]. by apply Htty, own_refl. }
  case_match.
  { case_match; [nothing|]. destruct (wait_key _ _) as [[key w]|]; [|done].
    cbn [mbind option_bind]. intros [= <- <-]. by apply own_fsys. }
  case_match.
  { case_match; [nothing|]. destruct (tty_get_cursor _) as [row col]. apply Htty.
    by apply own_tty_line. }
  case_match.
  { destruct line as [[[buf|] len cur]|]; try (nothing).
    case_match; [nothing|]. case_match; [nothing|]. by apply Htty, own_refl. }
  case_match; [|nothing]. case_decide; [nothing|].
  destruct (on_tty tty_clear k) as [k1|] eqn:E1; [|done]. cbn [mbind option_bind].
  apply Htty. by eapply own_tty.
Qed.

End Steps.

End FdSteps.
