(* ===== verification/FdLife.v ===== *)
(** * Processes come and go

    The process operations keep the invariant, and a child that is started, exits and
    is reaped leaves the table of open files as it was. *)

From S2P Require Import Prelude FsTypes FsPath Vfs Pseudo FsCore Fd FdInv FdProc FdSteps.
From stdpp Require Import base list option list_numbers strings.
From Stdlib Require Import ZArith Lia ZifyBool.
Import FsTypes FsPath Vfs Pseudo FsCore Fd FdOps FdInv FdTables FdProc FdSteps.
Open Scope Z_scope.

Module FdLife.

Section Life.
Context {S W : Type} `{!storage S} `{!services W}.
#[local] Notation kernel := (kernel S W).

(** ** Searching the process table *)

Lemma first_unused_spec (l : list process) j i :
  first_unused l j = Some i -> exists v, l !! (i - j)%nat = Some v /\ state v = UNUSED /\ (j <= i)%nat.
Proof.
  revert j. induction l as [|v l IH]; intros j; cbn [first_unused]; [done|]. case_decide as Hs.
  - intros [= ->]. exists v. by rewrite Nat.sub_diag.
  - intros H. destruct (IH _ H) as (v' & H1 & H2 & H3). exists v'.
    replace (i - j)%nat with (Datatypes.S (i - Datatypes.S j)) by lia. split_and!; [done|done|lia].
Qed.

Lemma find_pid_spec (l : list process) j n i :
  find_pid l j n = Some i ->
  exists v, l !! (i - j)%nat = Some v /\ state v <> UNUSED /\ pid v = n /\ (j <= i)%nat.
Proof.
  revert j. induction l as [|v l IH]; intros j; cbn [find_pid]; [done|].
  destruct (bool_decide (state v = UNUSED)) eqn:Hs; cbn [negb andb].
  2: destruct (Z.eqb_spec (pid v) n) as [Hn|Hn].
  2: { intros [= ->]. exists v. rewrite Nat.sub_diag. split_and!; try done. by apply bool_decide_eq_false in Hs. }
  all: intros H; destruct (IH _ H) as (v' & H1 & H2 & H3 & H4); exists v';
    replace (i - j)%nat with (Datatypes.S (i - Datatypes.S j)) by lia; split_and!; [done|done|done|lia].
Qed.

Lemma unused_entries (k : kernel) c :
  inv k -> (c < 16)%nat -> state (proc_at k c) = UNUSED ->
  Forall (fun e => e_used e = 0) (entries (proc_at k c)).
Proof.
  intros HI Hc Hs. destruct (tabs_lookup k c HI Hc) as [_ Ht]. pose proof (ic_tabs _ _ _ _ HI) as HT.
  rewrite Forall_lookup in HT. destruct (HT c _ Ht) as (_ & _ & H). apply H. cbn.
  by rewrite bool_decide_eq_true_2.
Qed.

(** ** Starting a program *)

Record spawned (k k' : kernel) (p c : nat) : Prop := {
  sp_booted : booted k';
  sp_current : g_current_process k' = Some c;
  sp_slot : (c < 16)%nat /\ c <> p /\ state (proc_at k c) = UNUSED;
  sp_others q : q <> c -> proc_at k' q = proc_at k q;
  sp_child : state (proc_at k' c) = RUNNING /\ ppid (proc_at k' c) = pid (proc_at k p) /\
             pid (proc_at k' c) = g_next_pid k /\
             pcwd (proc_at k' c) = process_copy_string 0 FS_PATH_CAP (pcwd (proc_at k p));
  sp_entries fd : (fd < 32)%nat ->
    entry_at k' c fd = entry_at k p fd \/
    e_used (entry_at k p fd) = 0 /\ e_used (entry_at k' c fd) = 0;
  sp_files j : same_file (desc_at k' j) (desc_at k j);
  sp_fsys : fsys k' = fsys k;
  sp_next : g_next_pid k' = u32 (g_next_pid k + 1)
}.

(** The child slot before its table is filled in. *)
Lemma fresh_child (k : kernel) c v :
  inv k -> g_current_process k <> Some c -> (c < 16)%nat -> state (proc_at k c) = UNUSED ->
  entries v = no_entries -> inv (put_proc c v k).
Proof. intros HI Hc Hlt Hs Hv. apply inv_replace_tab; try done. by apply unused_entries. Qed.

Lemma spawn_clone (k : kernel) p c v :
  booted k -> g_current_process k = Some p -> (c < 16)%nat -> state (proc_at k c) = UNUSED ->
  entries v = no_entries -> state v <> UNUSED ->
  exists k', fd_core_table_clone c p (put_proc c v k) = Some (0, k') /\
             cloned (put_proc c (set_table no_entries 0 v) k) k' c p 0.
Proof.
  intros [HI Hin _] Hcur Hc Hs Hv Hvs.
  destruct (current_live k p HI Hcur) as [Hp Hpl]. assert (c <> p) as Hcp by (intros ->; done).
  pose proof (procs_length k HI) as Hlen.
  assert (inv (put_proc c (set_table no_entries 0 v) k)) as HI1 by (apply fresh_child; try done; congruence).
  unfold fd_core_table_clone. rewrite (proc_at_put c v k p), decide_False by naive_solver.
  pose proof (all_init_at k p Hin Hpl) as Hi. apply Z.eqb_neq in Hi. rewrite Hi.
  assert (fd_core_table_reset c (put_proc c v k) = put_proc c (set_table no_entries 0 v) k) as ->.
  { unfold fd_core_table_reset. rewrite proc_at_put, decide_True by lia.
    unfold put_proc, set_procs. cbn. by rewrite list_insert_insert_eq. }
  destruct (clone_loop_spec (Z.to_nat POSIX_FD_CAP) 0 (put_proc c (set_table no_entries 0 v) k) c p)
    as (k' & E & HC); [done| |done|done|done| |by exists k'].
  - split; [done|]. rewrite proc_at_put, decide_True by lia. done.
  - intros fd Hfd. unfold entry_at. rewrite proc_at_put, decide_True by lia. cbn [entries set_table].
    unfold no_entries. rewrite lookup_replicate_2; [done|]. unfold POSIX_FD_CAP. lia.
Qed.

(** The record of the child before its descriptors are inherited. *)
Definition child_of (k : kernel) (p : nat) (sp : Z) : process :=
  Process (g_next_pid k) (pid (proc_at k p)) RUNNING 0
    (process_copy_string 0 FS_PATH_CAP (pcwd (proc_at k p))) no_entries 0 0 0 sp 0 0 0 0 [].

Lemma spawn_unfold path arch ip segments size sp (k : kernel) p c :
  booted k -> g_current_process k = Some p -> first_unused (g_processes k) 0 = Some c ->
  (c < 16)%nat -> c <> p ->
  process_core_spawn_exec path arch ip segments size sp k =
    ('(rc, k') ← fd_core_table_clone c p
                   (put_proc c (child_of k p sp) (set_next_pid (u32 (g_next_pid k + 1)) k));
     if rc <? 0 then Some (None, put_proc c clear_process k')
     else Some (Some c, set_current (Some c)
                 (process_core_record_exec_image c path arch ip segments size k'))).
Proof.
  intros [HI _ _] Hcur Hf Hc Hcp. pose proof (procs_length k HI) as Hlen.
  unfold process_core_spawn_exec, process_core_current. rewrite Hcur. cbn [mbind option_bind].
  rewrite Hf.
  assert (forall v (k0 : kernel), length (g_processes k0) = 16%nat -> proc_at (put_proc c v k0) c = v) as Hsame.
  { intros v k0 Hl. by rewrite proc_at_put, decide_True by lia. }
  assert (forall v (k0 : kernel), proc_at (put_proc c v k0) p = proc_at k0 p) as Hother.
  { intros v k0. by rewrite proc_at_put, decide_False by naive_solver. }
  rewrite !Hother. change (proc_at (set_next_pid ?n ?x) p) with (proc_at x p). rewrite !Hother.
  rewrite Hsame by (cbn; by rewrite length_insert).
  do 2 f_equal. unfold put_proc, set_procs. cbn. rewrite !list_insert_insert_eq. done.
Qed.

(** The child's record is in place, its descriptors are copied, and it becomes current. *)
Section Child.
Context (k k1 : kernel) (p c : nat) (sp : Z) (img : process).
Hypothesis HB : booted k.
Hypothesis Hcur : g_current_process k = Some p.
Hypothesis Hc : (c < 16)%nat.
Hypothesis Hs : state (proc_at k c) = UNUSED.
Let k0 : kernel := set_next_pid (u32 (g_next_pid k + 1)) k.
Hypothesis HC : cloned (put_proc c (set_table no_entries 0 (child_of k p sp)) k0) k1 c p 0.
Hypothesis Himg : exists es, img = set_image (pname img) (image_arch img) (entry_ip img)
  (image_segment_count img) (image_file_size img) (set_table es 1 (child_of k p sp)) /\
  entries (proc_at k1 c) = es.

Lemma child_at q : proc_at (put_proc c img k1) q = if decide (q = c) then img else proc_at k1 q.
Proof using HC Hc.
  clear Himg. rewrite proc_at_put, (procs_length k1 (cl_inv _ _ _ _ _ HC)). destruct (decide (q = c)) as [->|];
    [by rewrite decide_True by lia|by rewrite decide_False by naive_solver].
Qed.

Lemma others_at q : q <> c -> proc_at (put_proc c img k1) q = proc_at k q.
Proof using HC Hc.
  clear Himg. intros Hq. rewrite child_at, decide_False by done. rewrite (cl_others _ _ _ _ _ HC) by done.
  by rewrite proc_at_put, decide_False by naive_solver.
Qed.

Lemma child_inv : inv (set_current (Some c) (put_proc c img k1)).
Proof using HB HC Hc Himg.
  destruct Himg as (es & Ei & Ee).
  assert (tab_of img = tab_of (proc_at k1 c)) as Ht.
  { destruct (cl_dst _ _ _ _ _ HC) as [es' E]. unfold tab_of. rewrite Ee, Ei. cbn. rewrite E. cbn.
    rewrite proc_at_put. case_decide as Hd; [done|]. destruct Hd. split; [done|].
    pose proof (procs_length k1 (cl_inv _ _ _ _ _ HC)) as Hl.
    change (length (g_processes k0)) with (length (g_processes k)).
    by rewrite (procs_length k (bt_inv _ HB)). }
  pose proof (inv_put_proc c img k1 (cl_inv _ _ _ _ _ HC) Hc Ht) as HI.
  pose proof HI as [I1 I2 I3 I4 I5 I6]. split; try done. intros q [= <-].
  destruct (tabs_lookup (put_proc c img k1) c HI Hc) as [_ Htab].
  exists es. change (tabs (put_proc c img k1) !! c = Some (Tab es true)).
  rewrite Htab, child_at, decide_True by done. unfold tab_of. by rewrite Ei.
Qed.

Lemma child_booted : booted (set_current (Some c) (put_proc c img k1)).
Proof using HB HC Hc Himg.
  split; [apply child_inv| |by exists c].
  apply Forall_lookup. intros q v Hq.
  assert (v = proc_at (put_proc c img k1) q) as ->.
  { unfold proc_at. change (g_processes (set_current (Some c) (put_proc c img k1)))
      with (g_processes (put_proc c img k1)) in Hq. by rewrite Hq. }
  destruct (decide (q = c)) as [->|Hne].
  - rewrite child_at, decide_True by done. destruct Himg as (es & -> & _). by intros _.
  - rewrite others_at by done. apply all_init_at, HB.
Qed.

Lemma child_spawned : spawned k (set_current (Some c) (put_proc c img k1)) p c.
Proof using HB HC Hc Hcur Himg Hs.
  destruct (current_live k p (bt_inv _ HB) Hcur) as [Hp Hpl].
  assert (c <> p) as Hcp by (intros ->; done). split; try done.
  - apply child_booted.
  - intros q Hq. by apply others_at.
  - change (proc_at (set_current ?x ?y) c) with (proc_at y c). rewrite child_at, decide_True by done.
    by destruct Himg as (es & -> & _).
  - intros fd Hfd. change (entry_at (set_current ?x ?y) c fd) with (entry_at y c fd).
    assert (entry_at (put_proc c img k1) c fd = entry_at k1 c fd) as ->.
    { unfold entry_at. rewrite child_at, decide_True by done. destruct Himg as (es & -> & <-). done. }
    destruct (cl_copied _ _ _ _ _ HC fd ltac:(lia)) as [E7|[E7 E8]]; [left|right]; rewrite ?E7, ?E8;
      unfold entry_at in *; rewrite proc_at_put, decide_False in * by naive_solver; done.
  - intros j. apply (cl_files _ _ _ _ _ HC).
  - by destruct (cl_rest _ _ _ _ _ HC) as (_ & _ & ?).
  - by destruct (cl_rest _ _ _ _ _ HC) as (_ & ? & _).
Qed.

End Child.

Lemma spawn_spec path arch ip segments size sp (k : kernel) p :
  booted k -> g_current_process k = Some p ->
  match first_unused (g_processes k) 0 with
  | None => process_core_spawn_exec path arch ip segments size sp k = Some (None, k)
  | Some c => exists k', process_core_spawn_exec path arch ip segments size sp k = Some (Some c, k') /\
                         spawned k k' p c
  end.
Proof.
  intros HB Hcur. pose proof (bt_inv _ HB) as HI. pose proof (procs_length k HI) as Hlen.
  destruct (current_live k p HI Hcur) as [Hp Hpl].
  destruct (first_unused (g_processes k) 0) as [c|] eqn:Ef.
  2: { unfold process_core_spawn_exec, process_core_current. rewrite Hcur. cbn [mbind option_bind]. by rewrite Ef. }
  destruct (first_unused_spec _ _ _ Ef) as (v & Hv & Hs & _). rewrite Nat.sub_0_r in Hv.
  pose proof (lookup_lt_Some _ _ _ Hv) as Hc. rewrite Hlen in Hc.
  assert (state (proc_at k c) = UNUSED) as Hsc by (unfold proc_at; by rewrite Hv).
  assert (c <> p) as Hcp by (intros ->; done).
  rewrite (spawn_unfold path arch ip segments size sp k p c HB Hcur Ef Hc Hcp).
  set (k0 := set_next_pid (u32 (g_next_pid k + 1)) k).
  assert (booted k0) as HB0 by (by destruct HB).
  destruct (spawn_clone k0 p c (child_of k p sp) HB0 Hcur Hc Hsc eq_refl ltac:(done)) as (k1 & E & HC).
  rewrite E. cbn [mbind option_bind Z.ltb Z.compare]. eexists. split; [done|].
  apply (child_spawned k k1 p c sp); try done.
  destruct (cl_dst _ _ _ _ _ HC) as [es Ees]. exists es. cbn.
  rewrite proc_at_put, decide_True in Ees by (cbn; lia). by rewrite Ees.
Qed.

Lemma spawn_booted path arch ip segments size sp (k k' : kernel) r :
  booted k -> process_core_spawn_exec path arch ip segments size sp k = Some (r, k') -> booted k'.
Proof.
  intros HB E. destruct (bt_current _ HB) as [p Hp].
  pose proof (spawn_spec path arch ip segments size sp k p HB Hp) as H.
  destruct (first_unused (g_processes k) 0) as [c|].
  - destruct H as (k1 & E1 & HS). rewrite E1 in E. injection E as <- <-. apply HS.
  - rewrite H in E. by injection E as <- <-.
Qed.

(** ** Exit *)

Lemma live_index_lt (k : kernel) q : inv k -> state (proc_at k q) <> UNUSED -> (q < 16)%nat.
Proof.
  intros HI Hs. destruct (decide (q < 16)%nat) as [|Hge]; [done|]. exfalso. apply Hs.
  unfold proc_at. rewrite lookup_ge_None_2; [done|]. rewrite (procs_length k HI). lia.
Qed.

Lemma booted_put_proc p v (k : kernel) :
  booted k -> (p < 16)%nat -> tab_of v = tab_of (proc_at k p) -> initialized v = initialized (proc_at k p) ->
  booted (put_proc p v k).
Proof.
  intros [H1 H2 H3] Hp Ht Hi. split; [by apply inv_put_proc| |done].
  apply all_init_put; [done|]. unfold proc_init. rewrite Hi. intros Hs. apply (all_init_at k p H2).
  injection Ht as _ Ht. intros E. rewrite E in Ht. by rewrite bool_decide_eq_false_2 in Ht.
Qed.

Lemma booted_set_current q (k : kernel) :
  booted k -> state (proc_at k q) <> UNUSED -> booted (set_current (Some q) k).
Proof.
  intros [H1 H2 H3] Hs. split; [|done|by exists q]. pose proof H1 as [I1 I2 I3 I4 I5 I6].
  split; try done. intros q' [= <-]. exists (entries (proc_at k q)).
  destruct (tabs_lookup k q H1 (live_index_lt k q H1 Hs)) as [_ Ht]. change (tabs k !! q = Some (Tab (entries (proc_at k q)) true)).
  rewrite Ht. unfold tab_of. by rewrite bool_decide_eq_false_2.
Qed.

(** The current process becomes a zombie and its parent current, if it is there. *)
Definition zombie (status : Z) (c : nat) (k : kernel) : kernel :=
  put_proc c (set_state ZOMBIE (set_exit_status status (proc_at k c))) k.

Lemma zombie_booted status c (k : kernel) :
  booted k -> (c < 16)%nat -> state (proc_at k c) <> UNUSED -> booted (zombie status c k).
Proof.
  intros HB Hc Hs. apply booted_put_proc; try done. unfold tab_of. cbn. by rewrite !bool_decide_eq_false_2.
Qed.

Lemma exit_booted status (k k' : kernel) :
  booted k -> process_core_exit_current status k = Some k' -> booted k'.
Proof.
  intros HB. destruct (bt_current _ HB) as [c Hc]. destruct (current_live k c (bt_inv _ HB) Hc) as [Hlt Hs].
  unfold process_core_exit_current, process_core_current. rewrite Hc. cbn [mbind option_bind].
  fold (zombie status c k). pose proof (zombie_booted status c k HB Hlt Hs) as HZ.
  destruct (process_find_pid _ (zombie status c k)) as [q|] eqn:Ef; intros [= <-]; [|done].
  destruct (find_pid_spec _ _ _ _ Ef) as (v & Hv & Hvs & _). rewrite Nat.sub_0_r in Hv.
  assert (proc_at (zombie status c k) q = v) as Hq by (unfold proc_at; by rewrite Hv).
  pose proof (bt_inv _ HZ) as HI. pose proof (lookup_lt_Some _ _ _ Hv) as Hl. rewrite (procs_length _ HI) in Hl.
  assert (booted (put_proc q (set_state RUNNING (proc_at (zombie status c k) q)) (zombie status c k))) as HB2.
  { apply booted_put_proc; try done. unfold tab_of. cbn. rewrite Hq. by rewrite !bool_decide_eq_false_2. }
  apply booted_set_current; [done|]. rewrite proc_at_put, (procs_length _ HI), decide_True by lia. done.
Qed.

(** ** Reap *)

Lemma clear_booted p (k k1 : kernel) :
  booted k -> closed_from k k1 p 0 -> all_init k1 -> (p < 16)%nat -> g_current_process k <> Some p ->
  booted (put_proc p clear_process (fd_core_table_reset p k1)).
Proof.
  intros HB HC Hin Hp Hcur. pose proof (cf_inv _ _ _ _ HC) as HI1.
  assert (put_proc p clear_process (fd_core_table_reset p k1) = put_proc p clear_process k1) as ->.
  { unfold fd_core_table_reset, put_proc, set_procs. cbn. by rewrite list_insert_insert_eq. }
  split.
  - apply inv_replace_tab; try done; [|rewrite (cf_current _ _ _ _ HC); done].
    apply all_unused; [done|done|]. intros fd Hfd. apply (cf_closed _ _ _ _ HC). lia.
  - apply all_init_put; [done|]. by intros [].
  - cbn. rewrite (cf_current _ _ _ _ HC). apply HB.
Qed.

Lemma reap_booted p (k k' : kernel) :
  booted k -> g_current_process k <> Some p -> process_core_reap p k = Some k' -> booted k'.
Proof.
  intros HB Hcur. unfold process_core_reap.
  destruct (bool_decide (state (proc_at k p) = ZOMBIE)) eqn:Hz; cbn [negb]; [|by intros [= <-]].
  apply bool_decide_eq_true in Hz. pose proof (bt_inv _ HB) as HI.
  assert (p < 16)%nat as Hp by (apply (live_index_lt k); [done|by rewrite Hz]).
  unfold fd_core_table_destroy. destruct (destroy_loop _ 0 p k) as [k1|] eqn:E; [|done].
  cbn [mbind option_bind]. intros [= <-].
  apply (clear_booted p k); try done; [|by eapply all_init_destroy, E; apply HB].
  by apply (destroy_loop_spec (Z.to_nat POSIX_FD_CAP) 0 k k1 p HI Hp eq_refl).
Qed.

(** ** A table whose files are all open elsewhere *)

(** Every descriptor of [p] from [i] on is also a descriptor of [q]. *)
Definition covered (k : kernel) (p q i : nat) : Prop :=
  forall fd, (i <= fd < 32)%nat -> e_used (entry_at k p fd) <> 0 -> entry_at k q fd = entry_at k p fd.

Lemma covered_refs (k : kernel) p q i j :
  inv k -> (p < 16)%nat -> (q < 16)%nat -> p <> q -> (i < 32)%nat -> covered k p q i ->
  e_used (entry_at k p i) <> 0 -> fd_description k p (Z.of_nat i) = Some j -> refs (desc_at k j) <> 1.
Proof.
  intros HI Hp Hq Hne Hi Hcov Hu Hd.
  destruct (open_desc k p _ j HI Hp Hd) as (_ & _ & _ & _ & _ & Hx & Hr & _). rewrite Nat2Z.id in Hx.
  destruct (tabs_lookup k p HI Hp) as [_ Ht1]. destruct (tabs_lookup k q HI Hq) as [_ Ht2].
  pose proof (sumf_two (tab_refs j) (tabs k) p q _ _ Hne Ht1 Ht2) as H2.
  pose proof (sumf_member (hit j) _ i _ (entry_lookup k p i HI Hp Hi)) as M1.
  pose proof (sumf_member (hit j) _ i _ (entry_lookup k q i HI Hq Hi)) as M2.
  rewrite (Hcov i ltac:(lia) Hu) in M2.
  assert (hit j (entry_at k p i) = 1%nat) as Hh.
  { unfold hit. apply Z.eqb_neq in Hu. by rewrite Hu, Hx, Z.eqb_refl. }
  unfold tab_refs, table_refs in H2. cbn [tab_of t_entries] in H2. unfold total_refs, tab_refs, table_refs in Hr. cbn in Hr. lia.
Qed.

Lemma destroy_covered n i (k : kernel) p q :
  inv k -> (p < 16)%nat -> (q < 16)%nat -> p <> q -> (i + n = 32)%nat -> covered k p q i ->
  exists k', destroy_loop n i p k = Some k' /\ fsys k' = fsys k /\ g_next_pid k' = g_next_pid k /\
             forall r, r <> p -> proc_at k' r = proc_at k r.
Proof.
  revert i k. induction n as [|n IH]; intros i k HI Hp Hq Hne Hn Hcov; cbn [destroy_loop]; [by eexists|].
  destruct (Z.eqb_spec (e_used (entry_at k p i)) 0) as [Hu|Hu].
  { apply IH; try done; [lia|]. intros fd Hfd. apply Hcov. lia. }
  pose proof (entry_description k p i HI Hp ltac:(lia) Hu) as Hd.
  pose proof (covered_refs k p q i _ HI Hp Hq Hne ltac:(lia) Hcov Hu Hd) as Hr.
  pose proof (fd_release_shared k p _ _ HI Hp Hd Hr) as Er. rewrite Er. cbn [mbind option_bind].
  pose proof (fd_release_spec k p _ _ _ _ HI Hp Hd Er) as HR. rewrite Nat2Z.id in HR.
  set (k1 := shared_release k p (Z.of_nat i) _) in *.
  assert (forall r, r <> p -> proc_at k1 r = proc_at k r) as Hproc.
  { intros r Hr'. unfold k1, shared_release. change (proc_at (put_desc ?a ?b ?x) r) with (proc_at x r).
    by rewrite proc_at_entry, decide_False. }
  destruct (IH (Datatypes.S i) k1) as (k' & E & F1 & F2 & F3); [apply HR|done|done|done|lia| |].
  - intros fd Hfd. rewrite (released_entry k k1 p i _ p fd) by (done || lia).
    rewrite decide_False by lia. intros Hu'. rewrite (released_entry k k1 p i _ q fd) by (done || lia).
    rewrite decide_False by naive_solver. apply Hcov; [lia|done].
  - exists k'. split_and!; [done|by rewrite F1|by rewrite F2|]. intros r Hr'. by rewrite F3, Hproc.
Qed.

(** ** A child that opens and closes nothing *)

Definition matches (n : Z) (v : process) : bool := negb (bool_decide (state v = UNUSED)) && (pid v =? n).

Lemma find_pid_ext (l l' : list process) j n :
  Forall2 (fun v v' => matches n v = matches n v') l l' -> find_pid l j n = find_pid l' j n.
Proof.
  intros H. revert j. induction H as [|v v' l l' E _ IH]; intros j; [done|]. cbn [find_pid].
  unfold matches in E. rewrite E. by rewrite IH.
Qed.

Lemma total_refs_ext (ts ts' : list tab) j :
  Forall2 (fun t t' => tab_refs j t = tab_refs j t') ts ts' -> total_refs ts j = total_refs ts' j.
Proof. unfold total_refs. induction 1 as [|t t' ts ts' E _ IH]; [done|]. cbn. lia. Qed.

(** Relations between two process tables, slot by slot. *)
Lemma procs_Forall2 (R : process -> process -> Prop) (k k' : kernel) :
  length (g_processes k) = 16%nat -> length (g_processes k') = 16%nat ->
  (forall q, (q < 16)%nat -> R (proc_at k q) (proc_at k' q)) -> Forall2 R (g_processes k) (g_processes k').
Proof.
  intros H H' HR. apply Forall2_same_length_lookup_2; [congruence|]. intros q v v' Hv Hv'.
  pose proof (lookup_lt_Some _ _ _ Hv) as Hq. specialize (HR q ltac:(lia)). unfold proc_at in HR.
  by rewrite Hv, Hv' in HR.
Qed.

(** Two tables of descriptions with the same counts and the same open files. *)
Lemma descriptions_eq (k k' : kernel) :
  inv k -> inv k' ->
  (forall j, total_refs (tabs k') j = total_refs (tabs k) j) ->
  (forall j, (1 <= total_refs (tabs k') j)%nat -> same_file (desc_at k' j) (desc_at k j)) ->
  g_descriptions k' = g_descriptions k.
Proof.
  intros HI HI' Ht Hf. apply list_eq_same_length with (n := 32%nat); [apply HI|apply HI'|].
  intros j d' d Hj Hd' Hd. pose proof (ic_refs _ _ _ _ HI j Hj) as H. pose proof (ic_refs _ _ _ _ HI' j Hj) as H'.
  specialize (Hf j). unfold desc_at in Hf. rewrite Hd in *. rewrite Hd' in *. cbn [default id] in *.
  rewrite Ht in *. destruct H as [[-> Hz]|(Hu & Hr & Hn & _)], H' as [[-> Hz']|(Hu' & Hr' & Hn' & _)];
    try done; try lia. apply same_file_refs; [by apply Hf|congruence].
Qed.

Section Roundtrip.
Context (k k1 : kernel) (p c : nat) (status : Z).
Hypothesis HB : booted k.
Hypothesis Hcur : g_current_process k = Some p.
Hypothesis HS : spawned k k1 p c.
Hypothesis Hpid : process_find_pid (pid (proc_at k p)) k = Some p.
Hypothesis Hnew : g_next_pid k <> pid (proc_at k p).

Let kz : kernel := zombie status c k1.
(** After exit: the child is a zombie, the parent runs. *)
Definition exited : kernel := set_current (Some p) (put_proc p (set_state RUNNING (proc_at kz p)) kz).

Lemma rt_lengths : length (g_processes k) = 16%nat /\ length (g_processes k1) = 16%nat.
Proof using All. split; apply procs_length; [apply HB|apply (sp_booted _ _ _ _ HS)]. Qed.

Lemma rt_find : process_find_pid (ppid (proc_at kz c)) kz = Some p.
Proof using All.
  destruct rt_lengths as [L L1]. destruct (sp_slot _ _ _ _ HS) as (Hc & Hcp & Hsc).
  destruct (sp_child _ _ _ _ HS) as (_ & Hpp & Hpid' & _).
  assert (forall q, proc_at kz q = if decide (q = c) then set_state ZOMBIE (set_exit_status status (proc_at k1 c)) else proc_at k1 q) as Hz.
  { intros q. unfold kz, zombie. rewrite proc_at_put, L1.
    destruct (decide (q = c)); [by rewrite decide_True by lia|by rewrite decide_False by naive_solver]. }
  rewrite Hz, decide_True by done. cbn [ppid set_state set_exit_status]. rewrite Hpp, <- Hpid.
  unfold process_find_pid. symmetry. apply find_pid_ext, procs_Forall2; [done|cbn; by rewrite length_insert|].
  intros q Hq. rewrite Hz. destruct (decide (q = c)) as [->|Hne]; [|by rewrite (sp_others _ _ _ _ HS)].
  unfold matches. rewrite Hsc, bool_decide_eq_true_2 by done. cbn. rewrite Hpid'.
  by destruct (Z.eqb_spec (g_next_pid k) (pid (proc_at k p))).
Qed.

Lemma rt_exit : process_core_exit_current status k1 = Some exited.
Proof using All.
  unfold process_core_exit_current, process_core_current. rewrite (sp_current _ _ _ _ HS).
  cbn [mbind option_bind]. fold (zombie status c k1). fold kz. rewrite rt_find. done.
Qed.

Lemma rt_exited q :
  proc_at exited q = if decide (q = c) then set_state ZOMBIE (set_exit_status status (proc_at k1 c))
                     else if decide (q = p) then set_state RUNNING (proc_at k p) else proc_at k q.
Proof using All.
  destruct rt_lengths as [L L1]. destruct (sp_slot _ _ _ _ HS) as (Hc & Hcp & Hsc).
  destruct (current_live k p (bt_inv _ HB) Hcur) as [Hp _].
  assert (length (g_processes kz) = 16%nat) as Lz by (cbn; by rewrite length_insert).
  unfold exited. change (proc_at (set_current ?x ?y) q) with (proc_at y q). rewrite !proc_at_put, Lz.
  unfold kz, zombie. rewrite !proc_at_put, L1. rewrite (decide_False (P := p = c /\ _)) by naive_solver.
  rewrite (sp_others _ _ _ _ HS p) by done.
  destruct (decide (q = c)) as [->|Hq].
  - rewrite decide_False by naive_solver. by rewrite decide_True by lia.
  - destruct (decide (q = p)) as [->|Hqp]; [by rewrite decide_True by lia|].
    rewrite !decide_False by naive_solver. by apply (sp_others _ _ _ _ HS).
Qed.

Lemma rt_booted : booted exited.
Proof using All. eapply exit_booted; [apply (sp_booted _ _ _ _ HS)|apply rt_exit]. Qed.

Lemma rt_covered : covered exited c p 0.
Proof using All.
  intros fd Hfd Hu. destruct (sp_slot _ _ _ _ HS) as (Hc & Hcp & Hsc). unfold entry_at in *.
  rewrite !rt_exited in *. rewrite !(decide_True (P := c = c)) in * by done.
  rewrite (decide_False (P := p = c)), (decide_True (P := p = p)) by done. cbn [entries set_state set_exit_status] in *.
  destruct (sp_entries _ _ _ _ HS fd ltac:(lia)) as [E|[_ E]]; unfold entry_at in E; [done|].
  by destruct (Hu E).
Qed.

Lemma rt_reap :
  exists k3, process_core_reap c exited = Some k3 /\ g_descriptions k3 = g_descriptions k /\
    fsys k3 = fsys k /\ g_current_process k3 = Some p /\
    (forall q, proc_at k3 q = if decide (q = c) then clear_process
                              else if decide (q = p) then set_state RUNNING (proc_at k p) else proc_at k q).
Proof using All.
  destruct (sp_slot _ _ _ _ HS) as (Hc & Hcp & Hsc). pose proof rt_booted as HBE.
  destruct (current_live k p (bt_inv _ HB) Hcur) as [Hp Hlp].
  unfold process_core_reap. rewrite rt_exited, decide_True by done. cbn [state set_state].
  rewrite bool_decide_eq_true_2 by done. cbn [negb]. unfold fd_core_table_destroy.
  destruct (destroy_covered (Z.to_nat POSIX_FD_CAP) 0 exited c p (bt_inv _ HBE) Hc Hp Hcp eq_refl rt_covered)
    as (k2 & E & F1 & _ & F3).
  rewrite E. cbn [mbind option_bind]. eexists. split; [done|].
  pose proof (destroy_loop_spec (Z.to_nat POSIX_FD_CAP) 0 exited k2 c (bt_inv _ HBE) Hc eq_refl E) as HC.
  assert (g_current_process exited <> Some c) as Hnc by (cbn; congruence).
  pose proof (clear_booted c exited k2 HBE HC (all_init_destroy _ _ _ _ _ (bt_init _ HBE) E) Hc Hnc) as HB3.
  set (k3 := put_proc c clear_process (fd_core_table_reset c k2)) in *.
  assert (forall q, proc_at k3 q = if decide (q = c) then clear_process
            else if decide (q = p) then set_state RUNNING (proc_at k p) else proc_at k q) as Hq3.
  { intros q. unfold k3, fd_core_table_reset. rewrite !proc_at_put. cbn.
    rewrite length_insert, (procs_length k2 (cf_inv _ _ _ _ HC)).
    destruct (decide (q = c)) as [->|Hne]; [by rewrite decide_True by lia|].
    rewrite !(decide_False (P := q = c /\ _)) by naive_solver. rewrite F3, rt_exited by done.
    by rewrite decide_False. }
  split_and!; [| | |done].
  2: { change (fsys k2 = fsys k). rewrite F1. apply (sp_fsys _ _ _ _ HS). }
  2: { change (g_current_process k2 = Some p). by rewrite (cf_current _ _ _ _ HC). }
  destruct rt_lengths as [L L1].
  apply (descriptions_eq k k3 (bt_inv _ HB) (bt_inv _ HB3)).
  - intros j. apply total_refs_ext. unfold tabs. apply Forall2_fmap, procs_Forall2;
      [apply procs_length, HB3|done|]. intros q Hq. rewrite Hq3. unfold tab_refs. cbn [tab_of t_entries].
    destruct (decide (q = c)) as [->|]; [|by case_decide; subst].
    rewrite !table_refs_unused; [done|apply unused_entries; [apply HB|done|done]|apply no_entries_unused].
  - intros j Hj. change (desc_at k3 j) with (desc_at k2 j). etrans.
    + apply (cf_files _ _ _ _ HC). revert Hj.
      assert (tabs k3 = <[c := tab_of clear_process]> (tabs k2)) as ->.
      { unfold k3, fd_core_table_reset. rewrite !tabs_put_proc. apply list_insert_insert_eq. }
      destruct (tabs_lookup k2 c (cf_inv _ _ _ _ HC) Hc) as [_ Ht].
      pose proof (sumf_insert (tab_refs j) (tabs k2) c _ (tab_of clear_process) Ht) as Hs.
      assert (tab_refs j (tab_of clear_process) = 0%nat) as E0 by (apply table_refs_unused, no_entries_unused).
      unfold total_refs. lia.
    + apply (sp_files _ _ _ _ HS).
Qed.

End Roundtrip.

End Life.

End FdLife.
