(* ===== verification/FdProps.v ===== *)
(** * The promises of descriptors and processes

    Reference counts over every sequence of calls, and what open, close, dup2, exec,
    exit and reap do. *)

From S2P Require Import Prelude FsTypes FsPath Vfs Pseudo FsCore FsCoreProps Fd FdInv FdProc FdSteps FdLife Ramfs RamfsProps.
From stdpp Require Import base list option list_numbers strings.
From Stdlib Require Import ZArith Lia ZifyBool.
Import FsTypes FsPath Vfs Pseudo FsCore FsCoreProps Fd FdOps FdInv FdTables FdProc FdSteps FdLife.
Open Scope Z_scope.

Module FdProps.

Section Calls.
Context {S W : Type} `{!storage S} `{!services W}.
#[local] Notation kernel := (kernel S W).

(** ** Boot *)

(** The static variables before [process_core_init]. *)
Definition static_kernel (f : fs S W) : kernel :=
  Kernel (replicate 32 zero_desc) 0 0 0 (replicate 16 clear_process) None 1 f.

(** The state after it: one process, with the three terminal descriptors. *)
Definition tty_desc (kd : fd_kind) : description := Desc 1 1 kd 0 0 0.
Definition first_process : process :=
  Process 1 0 RUNNING 0 [slash]
    (Entry 1 0 :: Entry 1 1 :: Entry 1 2 :: replicate 29 zero_entry) 1 0 0 0 0 0 0 0 (cstr "kernel-shell").
Definition boot_kernel (f : fs S W) : kernel :=
  Kernel (tty_desc FD_KIND_TTY_IN :: tty_desc FD_KIND_TTY_OUT :: tty_desc FD_KIND_TTY_OUT ::
          replicate 29 zero_desc) 1 0 0 (first_process :: replicate 15 clear_process) (Some 0%nat) 2 f.

Lemma boot_init f : process_core_init (static_kernel f) = Some (boot_kernel f).
Proof. reflexivity. Qed.

Lemma boot_booted f : booted (boot_kernel f).
Proof.
  split; [|constructor; [done|by apply Forall_replicate; intros []]|by exists 0%nat]. split.
  - done.
  - done.
  - apply Forall_fmap. constructor.
    + split_and!; [done| |done]. cbn. repeat (constructor; [first [by left|right; cbn; unfold POSIX_OFD_CAP; lia]|]).
      constructor.
    + apply Forall_replicate. split_and!; [done| |intros _; apply no_entries_unused].
      eapply Forall_impl; [apply no_entries_unused|]. intros e He. by left.
  - intros i Hi. do 32 (destruct i as [|i]; [first [by left|right; by split_and!; [done|reflexivity|apply Nat.leb_le; reflexivity|done]]|]). lia.
  - done.
  - intros p [= <-]. by eexists.
Qed.

(** ** Sequences of calls *)

Inductive call :=
| Open (path : option (list Z)) (fl : Z)
| Close (fd : Z)
| Read (fd : Z) (buffer : bool) (count : Z)
| Write (fd : Z) (buffer : option (list Z))
| Lseek (fd off whence : Z)
| Fstat (fd : Z)
| Dup (oldfd : Z)
| Dup2 (oldfd newfd : Z)
| Isatty (fd : Z)
| Ioctl (fd request arg : Z) (line : option tty_line)
| Fs (m : M (fs S W) unit)
| Spawn (path : list Z) (arch ip segments size sp : Z)
| Exit (status : Z)
| Reap (p : nat).

(** The state after a call that returns. *)
Definition run (c : call) (k : kernel) : option kernel :=
  match c with
  | Open path fl => snd <$> fd_core_open path fl k
  | Close fd => snd <$> fd_core_close fd k
  | Read fd b n => snd <$> fd_core_read fd b n k
  | Write fd b => snd <$> fd_core_write fd b k
  | Lseek fd off wh => snd <$> fd_core_lseek fd off wh k
  | Fstat fd => snd <$> fd_core_fstat fd k
  | Dup fd => snd <$> fd_core_dup fd k
  | Dup2 fd fd' => snd <$> fd_core_dup2 fd fd' k
  | Isatty fd => snd <$> fd_core_isatty fd k
  | Ioctl fd req arg line => snd <$> fd_core_ioctl fd req arg line k
  | Fs m => snd <$> on_fs m k
  | Spawn path arch ip seg size sp => snd <$> process_core_spawn_exec path arch ip seg size sp k
  | Exit status => process_core_exit_current status k
  | Reap p => process_core_reap p k
  end.

(** [usermode_exec] reaps the child after control is back with the parent. *)
Definition call_ok (c : call) (k : kernel) : Prop :=
  match c with Reap p => g_current_process k <> Some p | _ => True end.

Inductive reachable : kernel -> Prop :=
| reach_boot f k : process_core_init (static_kernel f) = Some k -> reachable k
| reach_step k c k' : reachable k -> call_ok c k -> run c k = Some k' -> reachable k'.

Lemma run_booted c (k k' : kernel) : booted k -> call_ok c k -> run c k = Some k' -> booted k'.
Proof.
  intros HB Hok. destruct c; cbn [run call_ok] in *;
    try (intros [[r k1] [E ->]]%fmap_Some; cbn [snd]; revert E).
  - intros E. exact (ow_booted _ _ (fd_core_open_own _ _ _ _ _ HB E)).
  - intros E. exact (ow_booted _ _ (fd_core_close_own _ _ _ _ HB E)).
  - intros E. exact (ow_booted _ _ (fd_core_read_own _ _ _ _ _ _ HB E)).
  - intros E. exact (ow_booted _ _ (fd_core_write_own _ _ _ _ _ HB E)).
  - intros E. exact (ow_booted _ _ (fd_core_lseek_own _ _ _ _ _ _ HB E)).
  - intros E. exact (ow_booted _ _ (fd_core_fstat_own _ _ _ _ HB E)).
  - intros E. exact (ow_booted _ _ (fd_core_dup_own _ _ _ _ HB E)).
  - intros E. exact (ow_booted _ _ (fd_core_dup2_own _ _ _ _ _ HB E)).
  - intros E. exact (ow_booted _ _ (fd_core_isatty_own _ _ _ _ HB E)).
  - intros E. exact (ow_booted _ _ (fd_core_ioctl_own _ _ _ _ _ _ _ HB E)).
  - by apply booted_fs.
  - by apply spawn_booted.
  - by apply exit_booted.
  - by apply reap_booted.
Qed.

Lemma reachable_booted k : reachable k -> booted k.
Proof.
  induction 1 as [f k E|k c k' _ IH Hok E].
  - rewrite boot_init in E. injection E as <-. apply boot_booted.
  - by eapply run_booted.
Qed.

(** The number of descriptors, in all processes, that refer to description [i]. *)
Definition descriptors (k : kernel) (i : nat) : nat :=
  sumf (fun v => sumf (fun e => if (e_used e =? 0) || negb (e_index e =? Z.of_nat i) then 0%nat else 1%nat)
                   (entries v)) (g_processes k).

Lemma sumf_ext {A} (f g : A -> nat) l : (forall x, f x = g x) -> sumf f l = sumf g l.
Proof. intros H. induction l as [|x l IH]; [done|]. cbn. by rewrite H, IH. Qed.

Lemma sumf_fmap {A B} (f : B -> nat) (g : A -> B) l : sumf f (g <$> l) = sumf (fun x => f (g x)) l.
Proof. induction l as [|x l IH]; [done|]. cbn. by rewrite <- IH. Qed.

Lemma descriptors_total (k : kernel) i : descriptors k i = total_refs (tabs k) i.
Proof.
  unfold descriptors, total_refs, tabs. rewrite sumf_fmap. apply sumf_ext. intros v.
  unfold tab_refs, table_refs. cbn. apply sumf_ext. intros e. unfold hit.
  destruct (e_used e =? 0); [done|]. by destruct (e_index e =? Z.of_nat i).
Qed.

(** ** Theorems *)

(** C3: reference counts are exact in every reachable state.  After boot and any sequence
    of descriptor, file-system and process calls, a description in use is referred to by
    exactly [refs] descriptors of all processes together, at least one; a free one is
    zeroed and referred to by none; and every descriptor in use refers to a description
    in use. *)
Theorem fd_refcounts_exact (k : kernel) :
  reachable k ->
  (forall i, (i < 32)%nat ->
     (desc_at k i = zero_desc /\ descriptors k i = 0%nat) \/
     (used (desc_at k i) = 1 /\ (1 <= descriptors k i)%nat /\
      refs (desc_at k i) = Z.of_nat (descriptors k i))) /\
  (forall p fd, (p < 16)%nat -> 0 <= fd < 32 -> e_used (entry_at k p (Z.to_nat fd)) <> 0 ->
     exists i, fd_description k p fd = Some i /\ used (desc_at k i) = 1).
Proof.
  intros H%reachable_booted. pose proof (bt_inv _ H) as HI. split.
  - intros i Hi. rewrite descriptors_total. destruct (ic_refs _ _ _ _ HI i Hi) as [?|(? & ? & ? & _)].
    + by left.
    + by right.
  - intros p fd Hp Hfd Hu. pose proof (entry_description k p (Z.to_nat fd) HI Hp ltac:(lia) Hu) as E.
    rewrite Z2Nat.id in E by lia. eexists. split; [done|]. by apply (description_open k p fd).
Qed.

(** Closing a descriptor.  When other descriptors share the description only the
    entry and the count change; when it was the last one the description is freed, and
    the file system closes the node exactly then, once.  A descriptor that is not open
    gives EBADF and changes nothing. *)
Theorem fd_close_last_closes_file fd (k : kernel) p :
  booted k -> g_current_process k = Some p ->
  fd_core_close fd k =
    match fd_description k p fd with
    | None => Some (- POSIX_EBADF, k)
    | Some i =>
        let d := desc_at k i in
        let k1 := put_entry p (Z.to_nat fd) zero_entry k in
        if negb (refs d =? 1) then Some (0, put_desc i (set_refs (refs d - 1) d) k1)
        else if decide (kind d = FD_KIND_VFS) then
          '(r, k2) ← on_fs (fs_core_close (node_id d)) (put_desc i (set_refs 0 d) k1);
          Some (match r with inl rc => fd_to_errno rc | inr _ => 0 end, put_desc i zero_desc k2)
        else Some (0, put_desc i zero_desc (put_desc i (set_refs 0 d) k1))
    end.
Proof.
  intros HB Hp. pose proof (bt_inv _ HB) as HI. destruct (current_live k p HI Hp) as [Hlt _].
  destruct (current_table_booted k HB) as (q & Hq & _ & E). rewrite Hp in Hq. injection Hq as <-.
  unfold fd_core_close. rewrite E. cbn [mbind option_bind].
  destruct (fd_description k p fd) as [i|] eqn:Ed; [|done]. cbv zeta.
  destruct (Z.eqb_spec (refs (desc_at k i)) 1) as [H1|H1]; cbn [negb].
  - by rewrite (fd_release_last k p fd i HI Hlt Ed H1).
  - rewrite (fd_release_shared k p fd i HI Hlt Ed H1). unfold shared_release, dropped.
    by destruct (Z.eqb_spec (refs (desc_at k i)) 1).
Qed.

(** The descriptors after [newfd] was made to share the description of [oldfd]. *)
Lemma link_descriptions (k : kernel) p oldfd newfd i :
  booted k -> live_at k p -> 0 <= newfd < 32 -> e_used (entry_at k p (Z.to_nat newfd)) = 0 ->
  fd_description k p oldfd = Some i ->
  let k' := add_ref i (put_entry p (Z.to_nat newfd) (entry_at k p (Z.to_nat oldfd)) k) in
  fd_description k' p newfd = Some i /\
  forall fd, fd <> newfd -> fd_description k' p fd = fd_description k p fd.
Proof.
  intros HB Hl Hn He Hd k'. pose proof (booted_link p oldfd newfd i k HB Hl Hn He Hd) as HB'.
  fold k' in HB'. pose proof (bt_inv _ HB) as HI. pose proof (bt_inv _ HB') as HI'. destruct Hl as [Hp _].
  assert (forall fd, entry_at k' p fd = if decide (fd = Z.to_nat newfd)
            then entry_at k p (Z.to_nat oldfd) else entry_at k p fd) as Hent.
  { intros fd. unfold k'. change (entry_at (add_ref ?a ?b) p fd) with (entry_at b p fd).
    rewrite entry_at_put by (done || lia). by repeat case_decide; naive_solver. }
  destruct (open_desc k p oldfd i HI Hp Hd) as (_ & _ & _ & _ & Hu & Hx & _). split.
  - pose proof (entry_description k' p (Z.to_nat newfd) HI' Hp ltac:(lia)) as E.
    rewrite Hent, decide_True, Z2Nat.id, Hx, Nat2Z.id in E by (done || lia). by apply E.
  - intros fd Hne. destruct (fd_in_range fd) eqn:Hr; [|by unfold fd_description; rewrite Hr].
    unfold fd_in_range, POSIX_FD_CAP in Hr. apply description_ext; try done.
    by rewrite Hent, decide_False by lia.
Qed.

(** [dup2] makes the new descriptor share the open file of the old one.  If it
    succeeds it returns [newfd], afterwards both descriptors refer to the same
    description (so they share its offset), whatever [newfd] referred to before has
    been released, and every other descriptor of the process is as it was. *)
Theorem fd_dup2_shares oldfd newfd (k k' : kernel) p r :
  booted k -> g_current_process k = Some p ->
  fd_core_dup2 oldfd newfd k = Some (r, k') -> 0 <= r ->
  r = newfd /\ booted k' /\
  exists i, fd_description k p oldfd = Some i /\ fd_description k' p oldfd = Some i /\
    fd_description k' p newfd = Some i /\
    forall fd, fd <> newfd -> fd_description k' p fd = fd_description k p fd.
Proof.
  intros HB Hp E Hr. pose proof (ow_booted _ _ (fd_core_dup2_own oldfd newfd k k' r HB E)) as HB'.
  pose proof (bt_inv _ HB) as HI. destruct (current_live k p HI Hp) as [Hlt Hlive].
  destruct (current_table_booted k HB) as (q & Hq & _ & Et). rewrite Hp in Hq. injection Hq as <-.
  unfold fd_core_dup2 in E. rewrite Et in E. cbn [mbind option_bind] in E.
  destruct (fd_description k p oldfd) as [i|] eqn:Ed; [|injection E as <- _; unfold POSIX_EBADF in Hr; lia].
  destruct (fd_in_range newfd) eqn:Hn; cbn [negb] in E; [|injection E as <- _; unfold POSIX_EBADF in Hr; lia].
  unfold fd_in_range, POSIX_FD_CAP in Hn.
  destruct (Z.eqb_spec oldfd newfd) as [->|Hne].
  { injection E as <- <-. split_and!; [done|done|]. by exists i. }
  destruct (Z.eqb_spec (e_used (entry_at k p (Z.to_nat newfd))) 0) as [He|He]; cbn [negb] in E.
  { injection E as <- <-. split_and!; [done|done|]. exists i.
    destruct (link_descriptions k p oldfd newfd i HB (conj Hlt Hlive) ltac:(lia) He Ed) as [E1 E2].
    split_and!; [done|by rewrite E2|done|done]. }
  destruct (fd_release_entry p newfd k) as [[rc k1]|] eqn:E1; [|done]. cbn [mbind option_bind] in E.
  pose proof (booted_release p newfd k k1 rc HB Hlt E1) as B1.
  destruct (Z.ltb_spec rc 0) as [Hrc|Hrc]; [injection E as <- _; lia|]. injection E as <- <-.
  pose proof (entry_description k p (Z.to_nat newfd) HI Hlt ltac:(lia) He) as Hdn.
  rewrite Z2Nat.id in Hdn by lia. pose proof (fd_release_spec k p newfd _ rc k1 HI Hlt Hdn E1) as HR.
  destruct (released_description k k1 p oldfd newfd i _ HI Hlt Ed ltac:(lia) Hne HR) as (Hd1 & He1 & _).
  assert (live_at k1 p) as Hl1 by (apply current_live; [apply B1|by rewrite (rl_current _ _ _ _ _ HR)]).
  destruct (link_descriptions k1 p oldfd newfd i B1 Hl1 ltac:(lia) He1 Hd1) as [L1 L2].
  split_and!; [done|done|]. exists i. split_and!; [done|by rewrite L2|done|].
  intros fd Hfd. rewrite L2 by done. destruct (fd_in_range fd) eqn:Hf; [|by unfold fd_description; rewrite Hf].
  unfold fd_in_range, POSIX_FD_CAP in Hf. apply description_ext; [done|apply B1|done|].
  rewrite (released_entry k k1 p (Z.to_nat newfd) _ p (Z.to_nat fd) HI Hlt ltac:(lia) HR Hlt).
  by rewrite decide_False by lia.
Qed.

(** ** Opening *)

(** Both tables are as they were. *)
Definition untouched (k k' : kernel) : Prop :=
  g_descriptions k' = g_descriptions k /\ tabs k' = tabs k /\ g_current_process k' = g_current_process k.

Lemma untouched_fs {A} (m : M (fs S W) A) (k k1 k' : kernel) r :
  booted k1 -> untouched k k1 -> on_fs m k1 = Some (r, k') -> untouched k k'.
Proof.
  intros HB (E1 & E2 & E3) E.
  destruct (on_fs_frame m k1 r k' (current_in_range k1 (bt_inv _ HB)) E) as (T & D & _ & C & _).
  unfold untouched. by rewrite T, D, C.
Qed.

Lemma fd_to_errno_nonpos rc : fd_to_errno rc <= 0.
Proof.
  unfold fd_to_errno, fs_core_to_errno, POSIX_EIO, POSIX_OK, POSIX_ENOENT, POSIX_EEXIST, POSIX_ENOTDIR,
    POSIX_EINVAL, POSIX_ENOSPC, POSIX_EROFS, POSIX_EISDIR, POSIX_ENOTEMPTY.
  repeat case_match; cbn in *; lia.
Qed.

Lemma open_failed_untouched node err (k k1 k' : kernel) r :
  booted k1 -> untouched k k1 -> open_failed node err k1 = Some (r, k') -> r = err /\ untouched k k'.
Proof.
  intros HB HU. unfold open_failed. destruct (on_fs _ k1) as [[r0 k2]|] eqn:E; [|done].
  cbn [mbind option_bind]. intros [= <- <-]. split; [done|]. by eapply untouched_fs.
Qed.

(** The entries of the current process are those of an untouched kernel. *)
Lemma untouched_description (k k' : kernel) p fd :
  inv k -> inv k' -> (p < 16)%nat -> untouched k k' -> fd_description k' p fd = fd_description k p fd.
Proof.
  intros HI HI' Hp (_ & Ht & _). apply description_ext; try done. unfold entry_at.
  destruct (tabs_lookup k p HI Hp) as [_ E1]. destruct (tabs_lookup k' p HI' Hp) as [_ E2].
  rewrite Ht, E1 in E2. by injection E2 as ->.
Qed.

(** The success path: a free descriptor gets a free description. *)
Lemma open_assign (k k1 k2 : kernel) p fd i node off fl :
  booted k -> booted k1 -> untouched k k1 -> live_at k1 p -> fd_find_free k1 p 0 = Some fd ->
  fd_alloc_description FD_KIND_VFS node fl off k1 = (Some i, k2) ->
  let k' := put_entry p (Z.to_nat fd) (Entry 1 (u8 (Z.of_nat i))) k2 in
  0 <= fd < 32 /\ fd_description k p fd = None /\
  (forall n, 0 <= n < fd -> is_Some (fd_description k p n)) /\
  g_descriptions k !! i = Some zero_desc /\
  g_descriptions k' = <[i := Desc 1 1 FD_KIND_VFS node off fl]> (g_descriptions k) /\
  fd_description k' p fd = Some i /\
  forall n, n <> fd -> fd_description k' p n = fd_description k p n.
Proof.
  intros HB HB1 HU Hl Ef Ea k'. pose proof (bt_inv _ HB) as HI. pose proof (bt_inv _ HB1) as HI1.
  destruct (fd_find_free_spec k1 p fd HI1 (proj1 Hl) Ef) as (Hfd & He & Hlow).
  destruct (alloc_entry_spec FD_KIND_VFS node fl off k1 p (Z.to_nat fd) i k2 HI1 Hl ltac:(lia) He ltac:(done) Ea)
    as (HI' & Hi & Hu8 & Hpr & _ & Hz & Hd).
  assert (forall n, entry_at k' p n = if decide (n = Z.to_nat fd) then Entry 1 (u8 (Z.of_nat i)) else entry_at k1 p n) as Hents.
  { intros n. transitivity (entry_at (put_entry p (Z.to_nat fd) (Entry 1 (u8 (Z.of_nat i))) k1) p n).
    - unfold k', entry_at, put_entry, put_proc, proc_at. cbn. by rewrite Hpr.
    - rewrite entry_at_put by (done || apply Hl || lia). by repeat case_decide; naive_solver. }
  assert (forall n, fd_description k1 p n = fd_description k p n) as Hsame
    by (intros n; by apply untouched_description; [| |apply Hl|]).
  destruct HU as (E1 & E2 & E3). split_and!; try lia.
  - rewrite <- Hsame. rewrite fd_description_spec by (done || apply Hl).
    rewrite He. cbn. by rewrite andb_false_r.
  - intros n Hn. rewrite <- Hsame.
    pose proof (entry_description k1 p (Z.to_nat n) HI1 (proj1 Hl) ltac:(lia) (Hlow n Hn)) as Hx.
    rewrite Z2Nat.id in Hx by lia. by eexists.
  - by rewrite <- E1.
  - unfold k'. cbn. by rewrite Hd, E1.
  - assert (entry_at k' p (Z.to_nat fd) = Entry 1 (Z.of_nat i)) as Hent.
    { rewrite Hents, Hu8. by rewrite decide_True. }
    pose proof (entry_description k' p (Z.to_nat fd) HI' (proj1 Hl) ltac:(lia)) as Hx.
    rewrite Hent, Z2Nat.id in Hx by lia. cbn in Hx. rewrite Nat2Z.id in Hx. by apply Hx.
  - intros n Hne. rewrite <- Hsame.
    destruct (fd_in_range n) eqn:Hr; [|by unfold fd_description; rewrite Hr].
    unfold fd_in_range, POSIX_FD_CAP in Hr. apply description_ext; [done|done|apply Hl|].
    by rewrite Hents, decide_False by lia.
Qed.

(** A failure has another code than success. *)
Definition fails_loudly {A} (m : M (fs S W) A) : Prop := forall f f', m f <> Some (inl FS_OK, f').

Lemma on_fs_loud {A} (m : M (fs S W) A) (k : kernel) rc k' :
  fails_loudly m -> on_fs m k = Some (inl rc, k') -> fd_to_errno rc < 0.
Proof.
  intros Hm. unfold on_fs. assert (rc <> FS_OK -> fd_to_errno rc < 0) as Hneg.
  { intros Hrc. pose proof (fd_to_errno_nonpos rc). unfold fd_to_errno in *. apply Z.eqb_neq in Hrc. rewrite Hrc in *.
    destruct (fs_core_to_errno rc =? 0) eqn:E; cbn [negb] in *; [by vm_compute|lia]. }
  destruct (g_current_process k); (destruct (m _) as [[r f]|] eqn:E; [|done]); cbn [mbind option_bind]; intros [= -> <-];
    apply Hneg; intros ->; exact (Hm _ _ E).
Qed.

(** How a call of [open] ends.  A failed one has a negative result, unless the file system
    gave the code of success for its failure. *)
Lemma open_outcome path fl (k k' : kernel) p r :
  booted k -> g_current_process k = Some p -> fd_core_open path fl k = Some (r, k') ->
  (r <= 0 /\ untouched k k' /\
   (fails_loudly (fs_core_open path fl) -> (forall id, fails_loudly (fs_core_size id)) -> r < 0)) \/
  (0 <= r < 32 /\ fd_description k p r = None /\
   (forall fd, 0 <= fd < r -> is_Some (fd_description k p fd)) /\
   (forall fd, fd <> r -> fd_description k' p fd = fd_description k p fd) /\
   exists i node off, g_descriptions k !! i = Some zero_desc /\
     g_descriptions k' = <[i := Desc 1 1 FD_KIND_VFS node off fl]> (g_descriptions k) /\
     fd_description k' p r = Some i /\ (Z.land fl FS_O_APPEND = 0 -> off = 0)).
Proof.
  intros HB Hp E. pose proof (bt_inv _ HB) as HI.
  destruct (current_table_booted k HB) as (q & Hq & _ & Et). rewrite Hp in Hq. injection Hq as <-.
  unfold fd_core_open in E. rewrite Et in E. cbn [mbind option_bind] in E.
  destruct (on_fs (fs_core_open path fl) k) as [[r1 k1]|] eqn:E1; [|done]. cbn [mbind option_bind] in E.
  pose proof (booted_fs _ k r1 k1 HB E1) as B1.
  assert (untouched k k1) as U1 by (eapply untouched_fs, E1; done).
  destruct r1 as [rc|node].
  { left. injection E as <- <-. split_and!; [apply fd_to_errno_nonpos|done|]. intros Ho _. by eapply on_fs_loud. }
  set (sz := if negb _ then _ else _) in E. destruct sz as [[r2 k2]|] eqn:E2; [|done].
  assert (booted k2 /\ untouched k k2 /\ (forall off, r2 = inr off -> Z.land fl FS_O_APPEND = 0 -> off = 0) /\
    (forall rc, r2 = inl rc -> (forall id, fails_loudly (fs_core_size id)) -> fd_to_errno rc < 0)) as (B2 & U2 & Hoff & Hrc).
  { subst sz. destruct (Z.eqb_spec (Z.land fl FS_O_APPEND) 0) as [Ha|Ha]; cbn [negb] in E2.
    - injection E2 as <- <-. split_and!; try done. by intros off [= <-].
    - split_and!; [by eapply booted_fs|by eapply untouched_fs|by intros off _ ?|].
      intros rc -> Hs. eapply on_fs_loud; [apply Hs|exact E2]. }
  cbn [mbind option_bind] in E. assert (forall err, open_failed node err k2 = Some (r, k') -> r = err /\ untouched k k') as Hfail.
  { intros err. by apply open_failed_untouched. }
  destruct r2 as [rc|off].
  { left. destruct (Hfail _ E) as [-> HU]. split_and!; [apply fd_to_errno_nonpos|done|]. intros _. by apply Hrc. }
  assert (live_at k2 p) as Hl2.
  { apply current_live; [apply B2|]. destruct U2 as (_ & _ & ->). done. }
  destruct (fd_find_free k2 p 0) as [fd|] eqn:Ef; [|left; by destruct (Hfail _ E) as [-> HU]].
  destruct (fd_alloc_description FD_KIND_VFS node fl off k2) as [[i|] k3] eqn:Ea.
  - right. injection E as <- <-.
    destruct (open_assign k k2 k3 p fd i node off fl HB B2 U2 Hl2 Ef Ea) as (? & ? & ? & ? & ? & ? & ?).
    split_and!; try done; try lia. exists i, node, off. split_and!; try done. by apply Hoff.
  - left. destruct (alloc_none_spec _ _ _ _ k2 k3 (bt_inv _ B2) Ea) as (HI3 & Ep & Ec & Ed).
    destruct U2 as (V1 & V2 & V3). eapply (open_failed_untouched node (- POSIX_ENOSPC)) in E as [-> ?].
    + done.
    + split; [done|unfold all_init; rewrite Ep; apply B2|rewrite Ec; apply B2].
    + unfold untouched, tabs in *. by rewrite Ep, Ed, Ec.
Qed.

(** Opening takes the lowest free descriptor, and a failure leaks nothing.  Either
    the call fails, with every descriptor table and every description as they were, or
    its result is the smallest descriptor that was free, which now refers to a
    description that was free, with one reference, the flags given and, unless the file
    is opened for appending, offset 0. *)
Theorem fd_open_lowest_or_unchanged path fl (k k' : kernel) p r :
  booted k -> g_current_process k = Some p -> fd_core_open path fl k = Some (r, k') ->
  (r <= 0 /\ untouched k k') \/
  (0 <= r < 32 /\ fd_description k p r = None /\
   (forall fd, 0 <= fd < r -> is_Some (fd_description k p fd)) /\
   exists i node off, g_descriptions k !! i = Some zero_desc /\
     g_descriptions k' = <[i := Desc 1 1 FD_KIND_VFS node off fl]> (g_descriptions k) /\
     fd_description k' p r = Some i /\ (Z.land fl FS_O_APPEND = 0 -> off = 0)).
Proof.
  intros HB Hp E. destruct (open_outcome path fl k k' p r HB Hp E) as [(H1 & H2 & _)|(H1 & H2 & H3 & _ & H4)]; [by left|by right].
Qed.

(** ** Programs *)

(** A child that opens and closes nothing leaves no trace.  If the process table has a
    free slot, [process_core_spawn_exec], [process_core_exit_current] in the child and
    [process_core_reap] in the parent all return; the child gets the parent's descriptors
    and working directory, its status is kept until it is reaped, and afterwards the table
    of open files, the file system and all processes are as before. *)
Theorem child_leaves_no_trace path arch ip segments size sp status (k : kernel) p c :
  booted k -> g_current_process k = Some p -> first_unused (g_processes k) 0 = Some c ->
  process_find_pid (pid (proc_at k p)) k = Some p -> g_next_pid k <> pid (proc_at k p) ->
  exists k1 k2 k3,
    process_core_spawn_exec path arch ip segments size sp k = Some (Some c, k1) /\
    g_current_process k1 = Some c /\
    (forall fd, 0 <= fd < 32 -> fd_description k1 c fd = fd_description k p fd) /\
    pcwd (proc_at k1 c) = process_copy_string 0 FS_PATH_CAP (pcwd (proc_at k p)) /\
    process_core_exit_current status k1 = Some k2 /\
    exit_status (proc_at k2 c) = status /\ g_current_process k2 = Some p /\
    process_core_reap c k2 = Some k3 /\
    g_descriptions k3 = g_descriptions k /\ fsys k3 = fsys k /\ g_current_process k3 = Some p /\
    (forall q, proc_at k3 q = if decide (q = c) then clear_process
                              else if decide (q = p) then set_state RUNNING (proc_at k p) else proc_at k q).
Proof.
  intros HB Hcur Hf Hpid Hnew. pose proof (spawn_spec path arch ip segments size sp k p HB Hcur) as HS.
  rewrite Hf in HS. destruct HS as (k1 & E & HS).
  destruct (rt_reap k k1 p c status HB Hcur HS Hpid Hnew) as (k3 & R1 & R2 & R3 & R4 & R5).
  destruct (sp_slot _ _ _ _ HS) as (Hc & Hcp & _).
  destruct (current_live k p (bt_inv _ HB) Hcur) as [Hp _].
  exists k1, (exited k1 p c status), k3. split_and!; try done.
  - apply HS.
  - intros fd Hfd. rewrite !fd_description_spec by (done || apply HB || apply (sp_booted _ _ _ _ HS)).
    destruct (sp_entries _ _ _ _ HS (Z.to_nat fd) ltac:(lia)) as [->|[-> ->]]; [done|].
    by rewrite andb_false_r.
  - by destruct (sp_child _ _ _ _ HS) as (_ & _ & _ & ?).
  - by apply (rt_exit k k1 p c status HB Hcur HS Hpid Hnew).
  - rewrite (rt_exited k k1 p c status HB Hcur HS Hpid Hnew). by rewrite decide_True.
Qed.

(** ** Terminals *)

(** a terminal opened by its path name is not treated like the standard descriptors:
    [fd_core_isatty] says it is a terminal, yet the request that clears the screen is
    refused with ENOTTY. *)
Theorem tty_by_path_cannot_clear fd arg line (k : kernel) p i :
  booted k -> g_current_process k = Some p -> fd_description k p fd = Some i ->
  kind (desc_at k i) = FD_KIND_VFS -> node_id (desc_at k i) = Z.lor PSEUDO_FD_TAG 2 ->
  fd_core_isatty fd k = Some (1, k) /\ fd_core_ioctl fd 0x5305 arg line k = Some (- POSIX_ENOTTY, k).
Proof.
  intros HB Hp Hd Hk Hn. destruct (current_table_booted k HB) as (q & Hq & _ & Et).
  rewrite Hp in Hq. injection Hq as <-. unfold fd_core_isatty, fd_core_ioctl. rewrite Et.
  cbn [mbind option_bind]. rewrite Hd. cbv zeta. unfold fd_is_terminal. rewrite Hk, Hn. done.
Qed.

End Calls.
Arguments call : clear implicits.

(** ** Instances on the machine without media *)

Definition demo : kernel Ramfs.ramfs console := boot_kernel boot_fs.

Lemma demo_booted : booted demo.
Proof. apply boot_booted. Qed.

(** The state after a call, for calls that return. *)
Definition after (c : call Ramfs.ramfs console) (k : kernel Ramfs.ramfs console) : kernel Ramfs.ramfs console :=
  default k (run c k).

Lemma after_keeps c k : booted k -> call_ok c k -> booted (after c k).
Proof. intros HB Hok. unfold after. destruct (run c k) as [k'|] eqn:E; [by eapply run_booted|done]. Qed.

Lemma after_booted c : (if run c demo then true else false) = true -> call_ok c demo -> booted (after c demo).
Proof. intros _. apply after_keeps, demo_booted. Qed.

(** [dup(1)]: two descriptors for the second description. *)
Lemma fd_refcounts_exact_witness :
  used (desc_at (after (Dup 1) demo) 1) = 1 /\ refs (desc_at (after (Dup 1) demo) 1) = 2.
Proof.
  destruct (fd_refcounts_exact (after (Dup 1) demo)) as [H _].
  - apply (reach_step demo (Dup 1)); [apply (reach_boot boot_fs); reflexivity|exact I|reflexivity].
  - destruct (H 1%nat) as [[H1 H2]|(H1 & _ & H2)]; [lia|discriminate H2|].
    split; [exact H1|]. rewrite H2. reflexivity.
Defined.

Lemma fd_close_last_closes_file_witness :
  fst <$> fd_core_close 0 demo = Some 0 /\ fst <$> fd_core_close 7 demo = Some (- POSIX_EBADF).
Proof.
  rewrite (fd_close_last_closes_file 0 demo 0 demo_booted eq_refl).
  rewrite (fd_close_last_closes_file 7 demo 0 demo_booted eq_refl). split; reflexivity.
Defined.

(** [dup2(1, 5)]. *)
Lemma fd_dup2_shares_witness :
  exists i, fd_description demo 0 1 = Some i /\ fd_description (after (Dup2 1 5) demo) 0 5 = Some i.
Proof.
  destruct (fd_dup2_shares 1 5 demo (after (Dup2 1 5) demo) 0 5) as (_ & _ & i & H1 & _ & H2 & _).
  - apply demo_booted.
  - reflexivity.
  - reflexivity.
  - lia.
  - exists i. split; [exact H1|exact H2].
Defined.

(** [open("/f", O_CREAT | O_RDWR)] is descriptor 3. *)
Definition open_f : call Ramfs.ramfs console := Open (Some (cstr "/f")) (Z.lor FS_O_CREAT FS_O_RDWR).

Lemma fd_open_lowest_or_unchanged_witness :
  fd_description demo 0 3 = None /\ exists i, fd_description (after open_f demo) 0 3 = Some i.
Proof.
  destruct (fd_open_lowest_or_unchanged (Some (cstr "/f")) (Z.lor FS_O_CREAT FS_O_RDWR) demo
              (after open_f demo) 0 3) as [[H _]|(_ & H1 & _ & i & node & off & _ & _ & H2 & _)].
  - apply demo_booted.
  - reflexivity.
  - unfold after, run, open_f. destruct (fd_core_open _ _ demo) as [[r k]|] eqn:E; [|vm_compute in E; discriminate E].
    assert (r = 3) as ->; [|reflexivity].
    assert (fst <$> fd_core_open (Some (cstr "/f")) (Z.lor FS_O_CREAT FS_O_RDWR) demo = Some 3) as E3
      by (vm_compute; reflexivity).
    rewrite E in E3. injection E3 as ->. reflexivity.
  - lia.
  - split; [exact H1|]. exists i. exact H2.
Defined.

Lemma child_leaves_no_trace_witness :
  exists k1 k2 k3, process_core_spawn_exec (cstr "/bin/ls.prg") 1 0 1 100 0 demo = Some (Some 1%nat, k1) /\
    process_core_exit_current 7 k1 = Some k2 /\ exit_status (proc_at k2 1) = 7 /\
    process_core_reap 1 k2 = Some k3 /\ g_descriptions k3 = g_descriptions demo.
Proof.
  destruct (child_leaves_no_trace (cstr "/bin/ls.prg") 1 0 1 100 0 7 demo 0 1)
    as (k1 & k2 & k3 & H1 & _ & _ & _ & H2 & H3 & _ & H4 & H5 & _).
  - apply demo_booted.
  - reflexivity.
  - reflexivity.
  - reflexivity.
  - discriminate.
  - exists k1, k2, k3. repeat (split; [assumption|]). assumption.
Defined.

(** [open("/dev/tty", O_RDWR)] is descriptor 3. *)
Lemma tty_by_path_cannot_clear_witness :
  let k := after (Open (Some (cstr "/dev/tty")) FS_O_RDWR) demo in
  fst <$> fd_core_isatty 3 k = Some 1 /\ fst <$> fd_core_ioctl 3 0x5305 0 None k = Some (- POSIX_ENOTTY).
Proof.
  cbv zeta. destruct (tty_by_path_cannot_clear 3 0 None (after (Open (Some (cstr "/dev/tty")) FS_O_RDWR) demo) 0 3)
    as [H1 H2].
  - apply after_booted; [reflexivity|exact I].
  - reflexivity.
  - reflexivity.
  - reflexivity.
  - reflexivity.
  - rewrite H1, H2. split; reflexivity.
Defined.

End FdProps.
