(* ===== verification/FdView.v ===== *)
(** * The descriptors of a process as it sees them

    Which open file is behind each descriptor of the current process, and what every
    call makes of that. *)

From S2P Require Import Prelude FsTypes FsPath Vfs Pseudo FsCore FsCoreProps Fd FdInv FdProc FdSteps FdProps Ramfs RamfsProps.
From stdpp Require Import base list option list_numbers strings.
From Stdlib Require Import ZArith Lia ZifyBool.
Import FsTypes FsPath Vfs Pseudo FsCore FsCoreProps Fd FdOps FdInv FdTables FdProc FdSteps FdProps.
Open Scope Z_scope.

Module FdView.

Section View.
Context {S W : Type} `{!storage S} `{!services W}.
#[local] Notation kernel := (kernel S W).

(** An open file: its description, and what that is open on and how. *)
Definition open_file : Type := nat * (fd_kind * Z * Z).

Definition node_of (d : description) : fd_kind * Z * Z := (kind d, node_id d, flags d).

Definition files_at (k : kernel) (p : nat) (fd : Z) : option open_file :=
  (fun i => (i, node_of (desc_at k i))) <$> fd_description k p fd.

Lemma same_node_of d d' : same_node d d' -> node_of d = node_of d'.
Proof. intros (_ & H1 & H2 & H3). unfold node_of. congruence. Qed.

Lemma files_none (k : kernel) p fd : files_at k p fd = None <-> fd_description k p fd = None.
Proof. unfold files_at. by destruct (fd_description k p fd). Qed.

Lemma files_same (k k' : kernel) p fd :
  fd_description k' p fd = fd_description k p fd ->
  (forall i, fd_description k p fd = Some i -> same_node (desc_at k' i) (desc_at k i)) ->
  files_at k' p fd = files_at k p fd.
Proof.
  intros E H. unfold files_at. rewrite E. destruct (fd_description k p fd) as [i|]; [|done]. cbn.
  by rewrite (same_node_of _ _ (H i eq_refl)).
Qed.

(** ** Calls that open and close nothing *)

(** No descriptor changed; offsets may have. *)
Definition moved (k k' : kernel) : Prop :=
  booted k' /\ tabs k' = tabs k /\ forall i, same_node (desc_at k' i) (desc_at k i).

Lemma moved_refl (k : kernel) : booted k -> moved k k.
Proof. by intros H. Qed.

Lemma moved_trans (k k1 k2 : kernel) : moved k k1 -> moved k1 k2 -> moved k k2.
Proof. intros (_ & T1 & F1) (B2 & T2 & F2). split_and!; [done|congruence|]. intros i. etrans; [apply F2|apply F1]. Qed.

Lemma moved_fs {A} (m : M (fs S W) A) (k : kernel) r k' : booted k -> on_fs m k = Some (r, k') -> moved k k'.
Proof.
  intros HB E. destruct (on_fs_frame m k r k' (current_in_range k (bt_inv _ HB)) E) as (HT & HD & _).
  split_and!; [by eapply booted_fs|done|]. intros i. unfold desc_at. by rewrite HD.
Qed.

Lemma moved_tty (m : W -> option W) (k k' : kernel) : booted k -> on_tty m k = Some k' -> moved k k'.
Proof.
  intros HB E. pose proof (ow_booted _ _ (own_tty m k k' HB E)) as HB'. unfold on_tty in E.
  destruct (m _); [|done]. by injection E as <-.
Qed.

Lemma moved_offset i off (k : kernel) : booted k -> open_at k i -> moved k (put_desc i (set_offset off (desc_at k i)) k).
Proof.
  intros HB Ho. split_and!; [by apply booted_offset|done|]. intros j.
  rewrite desc_at_insert by (rewrite (ic_descs _ _ _ _ (bt_inv _ HB)); apply Ho). by case_decide; subst.
Qed.

Lemma moved_open i (k k' : kernel) : moved k k' -> open_at k i -> open_at k' i.
Proof. intros (_ & _ & F) [Hi Hu]. split; [done|]. by destruct (F i) as [-> _]. Qed.

Lemma moved_files (k k' : kernel) p fd : inv k -> (p < 16)%nat -> moved k k' -> files_at k' p fd = files_at k p fd.
Proof.
  intros HI Hp (B & T & F). apply files_same; [|intros i _; apply F].
  apply description_ext; [done|apply B|done|]. unfold entry_at.
  destruct (tabs_lookup k p HI Hp) as [_ E1]. destruct (tabs_lookup k' p (bt_inv _ B) Hp) as [_ E2].
  rewrite T, E1 in E2. by injection E2 as ->.
Qed.

Lemma write_moved fd b (k k' : kernel) r : booted k -> fd_core_write fd b k = Some (r, k') -> moved k k'.
Proof.
  intros H. unfold fd_core_write. destruct (current_table_booted k H) as (p & Hp & Hl & E). rewrite E. cbn [mbind option_bind].
  destruct (fd_description k p fd) as [i|] eqn:Ed; [|by intros [= <- <-]].
  destruct b as [bytes|]; [|by intros [= <- <-]]. cbv zeta.
  case_match; [by intros [= <- <-]|]. case_decide.
  { destruct (on_tty _ k) as [k1|] eqn:E1; [|done]. cbn [mbind option_bind].
    destruct (on_tty (put_bytes bytes) k1) as [k2|] eqn:E2; [|done]. cbn [mbind option_bind].
    destruct (on_tty _ k2) as [k3|] eqn:E3; [|done]. cbn [mbind option_bind]. intros [= <- <-].
    pose proof (moved_tty _ k k1 H E1) as O1. pose proof (moved_tty _ k1 k2 (proj1 O1) E2) as O2.
    exact (moved_trans _ _ _ O1 (moved_trans _ _ _ O2 (moved_tty _ k2 k3 (proj1 O2) E3))). }
  case_decide; [by intros [= <- <-]|]. case_match; [by intros [= <- <-]|].
  pose proof (description_open k p fd i (bt_inv _ H) (proj1 Hl) Ed) as Hop.
  set (app := if negb _ then _ else _). destruct app as [[r1 k1]|] eqn:E1; [|done]. subst app.
  assert (moved k k1) as B1.
  { destruct (negb _); [|by injection E1 as _ <-].
    destruct (on_fs (fs_core_size (node_id (desc_at k i))) k) as [[r2 k2]|] eqn:E2; [|done].
    cbn [mbind option_bind] in E1. pose proof (moved_fs _ k r2 k2 H E2) as B2.
    destruct r2 as [rc|size]; injection E1 as _ <-; [done|].
    eapply moved_trans; [exact B2|]. apply moved_offset; [apply B2|by eapply moved_open]. }
  cbn [mbind option_bind]. destruct r1 as [rc|u]; [by intros [= <- <-]|].
  destruct (on_fs _ k1) as [[r2 k2]|] eqn:E2; [|done]. cbn [mbind option_bind].
  pose proof (moved_trans _ _ _ B1 (moved_fs _ k1 r2 k2 (proj1 B1) E2)) as B2.
  destruct r2 as [rc|w]; intros [= <- <-]; [done|]. eapply moved_trans; [exact B2|].
  apply moved_offset; [apply B2|by eapply moved_open].
Qed.

Lemma read_moved fd b count (k k' : kernel) r : booted k -> fd_core_read fd b count k = Some (r, k') -> moved k k'.
Proof.
  intros H. unfold fd_core_read. destruct (current_table_booted k H) as (p & Hp & Hl & E). rewrite E. cbn [mbind option_bind].
  destruct (fd_description k p fd) as [i|] eqn:Ed; [|by intros [= <- <-]].
  do 2 (case_match; [by intros [= <- <-]|]). case_decide.
  { destruct (tty_readline count _) as [[[rc text] w]|]; [|done]. cbn [mbind option_bind]. intros [= <- <-].
    split_and!; [|done|done]. exact (ow_booted _ _ (own_fsys _ k H)). }
  case_decide; [by intros [= <- <-]|]. case_match; [by intros [= <- <-]|].
  destruct (on_fs _ k) as [[r1 k1]|] eqn:E1; [|done]. cbn [mbind option_bind]. pose proof (moved_fs _ k r1 k1 H E1) as B1.
  destruct r1 as [rc|bytes]; intros [= <- <-]; [done|]. eapply moved_trans; [exact B1|]. apply moved_offset; [apply B1|].
  eapply moved_open; [exact B1|]. exact (description_open k p fd i (bt_inv _ H) (proj1 Hl) Ed).
Qed.

(** ** Opening, duplicating, closing *)

Section Current.
Variable k : kernel.
Variable p : nat.
Hypothesis HB : booted k.
Hypothesis Hp : g_current_process k = Some p.

#[local] Lemma cur_lt : (p < 16)%nat.
Proof using HB Hp. by destruct (current_live k p (bt_inv _ HB) Hp). Qed.

#[local] Lemma cur_table : current_table k = Some (p, k).
Proof using HB Hp. destruct (current_table_booted k HB) as (q & Hq & _ & E). rewrite Hp in Hq. by injection Hq as <-. Qed.

Lemma open_files path fl r k' :
  fails_loudly (S := S) (W := W) (fs_core_open path fl) -> (forall id, fails_loudly (S := S) (W := W) (fs_core_size id)) ->
  fd_core_open path fl k = Some (r, k') ->
  if r <? 0 then forall fd, files_at k' p fd = files_at k p fd
  else files_at k p r = None /\ (exists f, files_at k' p r = Some f) /\ forall fd, fd <> r -> files_at k' p fd = files_at k p fd.
Proof using HB Hp.
  intros Ho Hs E. pose proof (ow_booted _ _ (fd_core_open_own path fl k k' r HB E)) as HB'.
  pose proof (bt_inv _ HB) as HI. pose proof cur_lt as Hlt.
  destruct (open_outcome path fl k k' p r HB Hp E) as [(_ & (D & T & _) & Hr)|(Hr & Hf & _ & Hoth & i & node & off & Hz & Hd & Hi & _)].
  - specialize (Hr Ho Hs). destruct (Z.ltb_spec r 0); [|lia]. intros fd. apply moved_files; [done|done|].
    split_and!; [done|done|]. intros i. unfold desc_at. by rewrite D.
  - destruct (Z.ltb_spec r 0); [lia|]. split_and!; [by apply files_none|unfold files_at; rewrite Hi; by eexists|].
    intros fd Hfd. apply files_same; [by apply Hoth|]. intros j Hj.
    destruct (open_desc k p fd j HI Hlt Hj) as (_ & _ & Hu & _). unfold desc_at at 1. rewrite Hd.
    rewrite list_lookup_insert_ne; [done|]. intros <-. unfold desc_at in Hu. by rewrite Hz in Hu.
Qed.

(** The table after [newfd] was made to share the description of [oldfd]. *)
Lemma link_files oldfd newfd i :
  0 <= newfd < 32 -> e_used (entry_at k p (Z.to_nat newfd)) = 0 -> fd_description k p oldfd = Some i ->
  let k' := add_ref i (put_entry p (Z.to_nat newfd) (entry_at k p (Z.to_nat oldfd)) k) in
  files_at k' p newfd = files_at k p oldfd /\ forall fd, fd <> newfd -> files_at k' p fd = files_at k p fd.
Proof using HB Hp.
  intros Hn He Hd k'. pose proof (current_live k p (bt_inv _ HB) Hp) as Hl.
  destruct (link_descriptions k p oldfd newfd i HB Hl Hn He Hd) as [L1 L2]. fold k' in L1, L2.
  destruct (open_desc k p oldfd i (bt_inv _ HB) cur_lt Hd) as (_ & Hi & _).
  assert (forall j, same_node (desc_at k' j) (desc_at k j)) as Hn'.
  { intros j. unfold k', add_ref. rewrite desc_at_insert; [by case_decide; subst|].
    change (i < length (g_descriptions k))%nat. rewrite (ic_descs _ _ _ _ (bt_inv _ HB)). lia. }
  split; [|intros fd Hfd; apply files_same; [by apply L2|done]].
  unfold files_at. rewrite L1, Hd. cbn. by rewrite (same_node_of _ _ (Hn' i)).
Qed.

Lemma free_files fd : 0 <= fd < 32 -> files_at k p fd = None <-> e_used (entry_at k p (Z.to_nat fd)) = 0.
Proof using HB Hp.
  intros Hfd. rewrite files_none, fd_description_spec by (apply HB || apply cur_lt).
  assert (fd_in_range fd = true) as -> by (unfold fd_in_range, POSIX_FD_CAP; lia).
  destruct (Z.eqb_spec (e_used (entry_at k p (Z.to_nat fd))) 0); done.
Qed.

Lemma dup_files oldfd r k' :
  fd_core_dup oldfd k = Some (r, k') ->
  if r <? 0 then forall fd, files_at k' p fd = files_at k p fd
  else files_at k p r = None /\ files_at k' p r = files_at k p oldfd /\ forall fd, fd <> r -> files_at k' p fd = files_at k p fd.
Proof using HB Hp.
  unfold fd_core_dup. rewrite cur_table. cbn [mbind option_bind].
  destruct (fd_description k p oldfd) as [i|] eqn:Ed; [|by intros [= <- <-]].
  destruct (fd_find_free k p 0) as [newfd|] eqn:Ef; [|by intros [= <- <-]]. intros [= <- <-].
  destruct (fd_find_free_spec k p newfd (bt_inv _ HB) cur_lt Ef) as (Hfd & He & _).
  destruct (Z.ltb_spec newfd 0); [lia|]. split; [by apply free_files|by apply link_files].
Qed.

(** One descriptor is released, the others are as they were. *)
Lemma release_files fd i rc k' :
  fd_description k p fd = Some i -> fd_release_entry p fd k = Some (rc, k') ->
  files_at k' p fd = None /\ forall x, x <> fd -> files_at k' p x = files_at k p x.
Proof using HB Hp.
  intros Hd E. pose proof (bt_inv _ HB) as HI. pose proof cur_lt as Hlt.
  pose proof (fd_release_spec k p fd i rc k' HI Hlt Hd E) as HR. pose proof (rl_inv _ _ _ _ _ HR) as HI'.
  destruct (open_desc k p fd i HI Hlt Hd) as (Hfd & Hi & _).
  assert (forall x, entry_at k' p x = if decide (p = p /\ x = Z.to_nat fd) then zero_entry else entry_at k p x) as Hent
    by (intros x; apply (released_entry k k' p (Z.to_nat fd) i); done || lia).
  split.
  - apply files_none. rewrite fd_description_spec by done. rewrite Hent, decide_True by done. cbn. by rewrite andb_false_r.
  - intros x Hx. assert (fd_description k' p x = fd_description k p x) as Hsame.
    { destruct (fd_in_range x) eqn:Hr; [|by unfold fd_description; rewrite Hr]. unfold fd_in_range, POSIX_FD_CAP in Hr.
      apply description_ext; try done. rewrite Hent, decide_False; [done|]. lia. }
    apply files_same; [done|]. intros j Hj. rewrite <- Hsame in Hj.
    destruct (open_desc k' p x j HI' Hlt Hj) as (_ & _ & Hu & _). unfold desc_at in *. rewrite (rl_descs _ _ _ _ _ HR) in *.
    destruct (decide (j = i)) as [->|Hne]; [|by rewrite list_lookup_insert_ne].
    rewrite list_lookup_insert_eq in * by (rewrite (ic_descs _ _ _ _ HI); lia). cbn [default id] in *.
    unfold dropped in *. by case_match.
Qed.

Lemma close_files fd r k' :
  fd_core_close fd k = Some (r, k') -> files_at k p fd <> None ->
  files_at k' p fd = None /\ forall x, x <> fd -> files_at k' p x = files_at k p x.
Proof using HB Hp.
  unfold fd_core_close. rewrite cur_table. cbn [mbind option_bind]. rewrite files_none.
  destruct (fd_description k p fd) as [i|] eqn:Ed; [|done]. intros E _. by eapply release_files.
Qed.

End Current.

(** [dup2] on an open descriptor: either both descriptors have the file, or closing the
    file that [newfd] had failed, and [newfd] has none. *)
Lemma dup2_files (k : kernel) p oldfd newfd r k' :
  booted k -> g_current_process k = Some p ->
  fd_core_dup2 oldfd newfd k = Some (r, k') -> files_at k p oldfd <> None -> 0 <= newfd < 32 -> oldfd <> newfd ->
  (if r <? 0 then files_at k' p newfd = None /\ fd_description k p newfd <> None /\ exists k1, fd_release_entry p newfd k = Some (r, k1)
   else files_at k' p newfd = files_at k p oldfd) /\
  forall fd, fd <> newfd -> files_at k' p fd = files_at k p fd.
Proof.
  intros HB Hp E. rewrite files_none. unfold fd_core_dup2 in E. rewrite (cur_table k p HB Hp) in E. cbn [mbind option_bind] in E.
  destruct (fd_description k p oldfd) as [i|] eqn:Ed; [|done]. intros _ Hn Hne.
  assert (fd_in_range newfd = true) as Hr by (unfold fd_in_range, POSIX_FD_CAP; lia). rewrite Hr in E. cbn [negb] in E.
  apply Z.eqb_neq in Hne as Hne'. rewrite Hne' in E.
  destruct (Z.eqb_spec (e_used (entry_at k p (Z.to_nat newfd))) 0) as [He|He]; cbn [negb] in E.
  { injection E as <- <-. destruct (Z.ltb_spec newfd 0); [lia|]. by apply link_files. }
  destruct (fd_release_entry p newfd k) as [[rc k1]|] eqn:E1; [|done]. cbn [mbind option_bind] in E.
  pose proof (cur_lt k p HB Hp) as Hlt.
  pose proof (entry_description k p (Z.to_nat newfd) (bt_inv _ HB) Hlt ltac:(lia) He) as Hdn.
  rewrite Z2Nat.id in Hdn by lia. destruct (release_files k p HB Hp newfd _ rc k1 Hdn E1) as [R1 R2].
  destruct (Z.ltb_spec rc 0) as [Hrc|Hrc]; injection E as <- <-.
  { destruct (Z.ltb_spec rc 0); [|lia]. split; [split_and!; [done|by rewrite Hdn|by eexists]|done]. }
  pose proof (own_release p newfd k k1 rc HB Hp E1) as HO. pose proof (ow_booted _ _ HO) as B1.
  assert (g_current_process k1 = Some p) as Hp1 by (by rewrite (ow_current _ _ HO)).
  pose proof (fd_release_spec k p newfd _ rc k1 (bt_inv _ HB) Hlt Hdn E1) as HR.
  destruct (released_description k k1 p oldfd newfd i _ (bt_inv _ HB) Hlt Ed ltac:(lia) Hne HR) as (Hd1 & He1 & _).
  destruct (link_files k1 p B1 Hp1 oldfd newfd i Hn He1 Hd1) as [L1 L2]. destruct (Z.ltb_spec newfd 0); [lia|].
  split; [by rewrite L1, R2|]. intros fd Hfd. by rewrite L2, R2.
Qed.

(** Closing fails only where the file system refuses to close the file. *)
Lemma release_fails (k : kernel) p fd rc k' :
  booted k -> g_current_process k = Some p -> fd_description k p fd <> None ->
  fd_release_entry p fd k = Some (rc, k') -> rc < 0 ->
  exists id (f : fs S W) e f', fs_core_close id f = Some (inl e, f').
Proof.
  intros HB Hp Hd. unfold fd_release_entry. destruct (fd_description k p fd) as [i|]; [|done]. clear Hd. cbv zeta.
  set (k1 := put_entry p _ zero_entry k). set (k2 := put_desc i _ k1).
  destruct (negb (refs (desc_at k2 i) =? 0)); [intros [= <- <-]; lia|].
  case_decide; cbn [mbind option_bind]; [|intros [= <- <-]; change (fd_to_errno _) with 0; lia].
  destruct (on_fs (fs_core_close _) k2) as [[[e|u] k3]|] eqn:E; [| |done]; cbn [mbind option_bind];
    [|intros [= <- <-]; change (fd_to_errno _) with 0; lia].
  intros _ _. unfold on_fs in E. destruct (g_current_process k2).
  all: destruct (fs_core_close _ _) as [[r f']|] eqn:Ec; [|done]; cbn [mbind option_bind] in E; injection E as -> _.
  all: by eexists _, _, _, _.
Qed.

(** A failing [dup2] takes the target away. When [dup2] fails, either one of its descriptors was not
    valid, and nothing at all has changed; or the target was open on a file that the file system would not
    close, and then the target is closed and not open on the source either, while every other descriptor
    is as it was. So a caller that puts back a saved descriptor, as the shell does after a redirection,
    can lose the stream. *)
Theorem dup2_failure_closes_target oldfd newfd (k k' : kernel) p r :
  booted k -> g_current_process k = Some p -> fd_core_dup2 oldfd newfd k = Some (r, k') -> r < 0 ->
  (r = - POSIX_EBADF /\ k' = k) \/
  (files_at k p newfd <> None /\ files_at k' p newfd = None /\
   (forall fd, fd <> newfd -> files_at k' p fd = files_at k p fd) /\
   exists id (f : fs S W) e f', fs_core_close id f = Some (inl e, f')).
Proof.
  intros HB Hp E Hr. destruct (files_at k p oldfd) eqn:Ho.
  2: { apply files_none in Ho. unfold fd_core_dup2 in E. rewrite (cur_table k p HB Hp) in E. cbn [mbind option_bind] in E.
       rewrite Ho in E. left. by injection E as <- <-. }
  destruct (fd_in_range newfd) eqn:Hn, (Z.eq_dec oldfd newfd) as [->|Hne].
  4: unfold fd_core_dup2 in E; rewrite (cur_table k p HB Hp) in E; cbn [mbind option_bind] in E;
     destruct (fd_description k p oldfd); rewrite ?Hn in E; left; by injection E as <- <-.
  - unfold fd_core_dup2 in E. rewrite (cur_table k p HB Hp) in E. cbn [mbind option_bind] in E.
    destruct (fd_description k p newfd); [|left; by injection E as <- <-]. rewrite Hn, Z.eqb_refl in E. cbn [negb] in E.
    injection E as <- <-. unfold fd_in_range in Hn. lia.
  - unfold fd_in_range, POSIX_FD_CAP in Hn.
    destruct (dup2_files k p oldfd newfd r k' HB Hp E ltac:(by rewrite Ho) ltac:(lia) Hne) as [H1 H2].
    destruct (Z.ltb_spec r 0); [|lia]. destruct H1 as (H1 & H3 & k1 & H4). right. rewrite files_none.
    split_and!; [done|done|done|by eapply release_fails].
  - unfold files_at, fd_description in Ho. by rewrite Hn in Ho.
Qed.

End View.

(** The shell's standard output is in a file that was removed meanwhile. *)
Definition removed_output : kernel Ramfs.ramfs console :=
  after (FdProps.Fs (fs_core_unlink (Some (cstr "/f"))))
    (after (FdProps.Close 3) (after (FdProps.Dup2 3 1) (after (FdProps.Open (Some (cstr "/f")) (Z.lor FS_O_CREAT FS_O_WRONLY)) demo))).

Lemma dup2_failure_closes_target_witness :
  fst <$> fd_core_dup2 2 1 removed_output = Some (- POSIX_EINVAL) /\
  exists k', fd_core_dup2 2 1 removed_output = Some (- POSIX_EINVAL, k') /\ files_at k' 0 1 = None.
Proof.
  assert (fst <$> fd_core_dup2 2 1 removed_output = Some (- POSIX_EINVAL)) as Hr by reflexivity. split; [done|].
  destruct (fd_core_dup2 2 1 removed_output) as [[r k']|] eqn:E; [|done]. injection Hr as ->. exists k'. split; [done|].
  destruct (dup2_failure_closes_target 2 1 removed_output k' 0 (- POSIX_EINVAL)) as [[H _]|(_ & H & _)].
  - repeat (apply after_keeps; [|exact I]). apply demo_booted.
  - reflexivity.
  - exact E.
  - reflexivity.
  - discriminate.
  - exact H.
Defined.

End FdView.
