(* ===== verification/Sprg.v ===== *)
(** * The program loader

    [core/sprg/sprg_core.c]: validation of an SPRG executable and the copy of its
    segments into user memory.  The loader reads through the file-system front end;
    [out_image] and the memory it writes are part of its state. *)

From S2P Require Import Prelude Mm FsTypes FsPath Vfs Pseudo FsCore.
From stdpp Require Import base list option list_numbers gmap strings.
From Stdlib Require Import ZArith Lia ZifyBool.
Import FsTypes FsPath Vfs Pseudo FsCore.
Open Scope Z_scope.
Open Scope vfs_scope.

Module Sprg.

(** ** Constants *)

Definition SPRG_HEADER_SIZE : Z := 28.
Definition SPRG_PHDR_SIZE : Z := 32.
Definition SPRG_STREAM_CHUNK : Z := 512.
Definition SPRG_MAGIC : list Z := cstr "SPRG".
Definition SPRG_VERSION : Z := 1.
Definition SPRG_ARCH_I386 : Z := 1.
Definition SPRG_ARCH_X86_64 : Z := 2.
Definition SPRG_PHDR_LOAD : Z := 1.
Definition SPRG_FLAG_R : Z := 1.
Definition SPRG_FLAG_W : Z := 2.
Definition SPRG_FLAG_X : Z := 4.
Definition SPRG_MAX_PHDRS : Z := 8.
Definition SPRG_MAX_FILE_SIZE : Z := 65536.

Definition SPRG_OK : Z := 0.
Definition SPRG_ERR_INVALID : Z := -1.
Definition SPRG_ERR_NOT_FOUND : Z := -2.
Definition SPRG_ERR_TOO_LARGE : Z := -3.
Definition SPRG_ERR_BAD_MAGIC : Z := -4.
Definition SPRG_ERR_BAD_VERSION : Z := -5.
Definition SPRG_ERR_BAD_ARCH : Z := -6.
Definition SPRG_ERR_BAD_HEADER : Z := -7.
Definition SPRG_ERR_UNSUPPORTED : Z := -8.

(** ** Images *)

(** [sprg_segment_t]. *)
Record sprg_segment := Segment {
  sg_type : Z; sg_offset : Z; sg_vaddr : Z; sg_filesz : Z;
  sg_memsz : Z; sg_flags : Z; sg_align : Z; sg_reserved : Z
}.

(** [sprg_image_t]. *)
Record sprg_image := Image {
  im_entry : Z; im_arch : Z; im_segment_count : Z; im_file_size : Z;
  im_segments : list sprg_segment
}.

Definition zero_segment : sprg_segment := Segment 0 0 0 0 0 0 0 0.
Definition zero_image : sprg_image := Image 0 0 0 0 (replicate (Z.to_nat SPRG_MAX_PHDRS) zero_segment).

(** ** Pure helpers *)

(** A byte of a [uint8_t] buffer. *)
Definition byte_at (p : list Z) (i : nat) : Z := u8 (char_at p i).

Definition sprg_le32 (p : list Z) (i : nat) : Z :=
  Z.lor (Z.lor (Z.lor (byte_at p i) (Z.shiftl (byte_at p (i + 1)) 8))
               (Z.shiftl (byte_at p (i + 2)) 16))
        (Z.shiftl (byte_at p (i + 3)) 24).

Definition sprg_has_prg_suffix (path : list Z) : bool :=
  let len := length path in
  if (len <? 4)%nat then false
  else (char_at path (len - 4) =? 46) && (char_at path (len - 3) =? 112) &&
       (char_at path (len - 2) =? 114) && (char_at path (len - 1) =? 103).

Definition sprg_range_valid (offset size file_size : Z) : bool :=
  if file_size <? offset then false
  else if u32 (file_size - offset) <? size then false
  else true.

Definition sprg_segments_overlap (left_addr left_size right_addr right_size : Z) : bool :=
  if (left_size =? 0) || (right_size =? 0) then false
  else
    let left_end := u32 (left_addr + left_size) in
    let right_end := u32 (right_addr + right_size) in
    if (left_end <? left_addr) || (right_end <? right_addr) then true
    else (left_addr <? right_end) && (right_addr <? left_end).

(** The two loops of [sprg_validate_segment_table]: [rest] holds the segments after
    the current one. *)
Fixpoint validate_segments (file_size : Z) (segs : list sprg_segment) : Z :=
  match segs with
  | [] => SPRG_OK
  | seg :: rest =>
      if negb (sg_type seg =? SPRG_PHDR_LOAD) then SPRG_ERR_UNSUPPORTED
      else if sg_memsz seg <? sg_filesz seg then SPRG_ERR_BAD_HEADER
      else if negb (sprg_range_valid (sg_offset seg) (sg_filesz seg) file_size)
      then SPRG_ERR_BAD_HEADER
      else if negb (sg_reserved seg =? 0) then SPRG_ERR_BAD_HEADER
      else if existsb (fun s => sprg_segments_overlap (sg_vaddr seg) (sg_memsz seg)
                                                      (sg_vaddr s) (sg_memsz s)) rest
      then SPRG_ERR_BAD_HEADER
      else validate_segments file_size rest
  end.

Definition active_segments (im : sprg_image) : list sprg_segment :=
  take (Z.to_nat (im_segment_count im)) (im_segments im).

Definition sprg_validate_segment_table (im : sprg_image) : Z :=
  validate_segments (im_file_size im) (active_segments im).

Definition segment_of (phdr : list Z) : sprg_segment :=
  Segment (sprg_le32 phdr 0) (sprg_le32 phdr 4) (sprg_le32 phdr 8) (sprg_le32 phdr 12)
          (sprg_le32 phdr 16) (sprg_le32 phdr 20) (sprg_le32 phdr 24) (sprg_le32 phdr 28).

Section Sprg.
Context {S W : Type} `{storage S} `{services W}.

(** The state of the loader: the file system, the memory it writes to (byte by
    address) and the image the caller passed. *)
Record world := World { files : fs S W; ram : gmap Z Z; image : sprg_image }.

Definition set_image (im : sprg_image) (w : world) : world := World (files w) (ram w) im.
Definition set_ram (m : gmap Z Z) (w : world) : world := World (files w) m (image w).

Definition on_files {A} (m : M (fs S W) A) : M world A := fun w =>
  match m (files w) with
  | None => None
  | Some (r, f) => Some (r, World f (ram w) (image w))
  end.

Definition modify (g : world -> world) : M world unit := fun w => Some (inr tt, g w).

(** [fs_core_close(node_id); return rc;] *)
Definition close_fail {A} (node_id rc : Z) : M world A :=
  attempt (on_files (fs_core_close node_id)) ;;; fail rc.

(** [if (!b) { fs_core_close(node_id); return rc; }] *)
Definition check (b : bool) (node_id rc : Z) : M world unit :=
  if b then ret tt else close_fail node_id rc.

(** A read that the loader accepts: no error and at least one byte. *)
Definition read_some (node_id offset cap : Z) : M world (list Z) :=
  r <- attempt (on_files (fs_core_read node_id offset cap)) ;;
  match r with
  | inl _ | inr [] => fail SPRG_ERR_INVALID
  | inr bytes => ret bytes
  end.

(** ** Reading *)

(** The buffer so far is [buffer]; every turn reads at least one byte, so [size]
    turns are enough. *)
Fixpoint read_exact_loop (fuel : nat) (node_id offset : Z) (buffer : list Z) (done size : Z)
    : M world (list Z) :=
  if negb (done <? size) then ret buffer
  else match fuel with
       | O => fun _ => None
       | Datatypes.S fuel =>
           let chunk := Z.min (size - done) SPRG_STREAM_CHUNK in
           bytes <- read_some node_id (u32 (offset + done)) chunk ;;
           read_exact_loop fuel node_id offset (buffer ++ bytes)
                           (u32 (done + Z.of_nat (length bytes))) size
       end.

Definition sprg_read_exact (node_id offset size : Z) : M world (list Z) :=
  read_exact_loop (Z.to_nat size) node_id offset [] 0 size.

(** A failed [sprg_read_exact] closes the file. *)
Definition read_or_close (node_id offset size : Z) : M world (list Z) :=
  r <- attempt (sprg_read_exact node_id offset size) ;;
  match r with inl rc => close_fail node_id rc | inr b => ret b end.

(** The error of [fs_stat] or [fs_core_open] as an SPRG code. *)
Definition sprg_fs_error {A} (m : M (fs S W) A) : M world A :=
  r <- attempt (on_files m) ;;
  match r with
  | inl rc => fail (if rc =? FS_ERR_NOT_FOUND then SPRG_ERR_NOT_FOUND else SPRG_ERR_INVALID)
  | inr a => ret a
  end.

(** The program headers [i .. i + n - 1]. *)
Fixpoint read_phdrs (n i : nat) (node_id phoff : Z) : M world unit :=
  match n with
  | O => ret tt
  | Datatypes.S n =>
      phdr <- read_or_close node_id (u32 (phoff + u32 (Z.of_nat i * SPRG_PHDR_SIZE))) SPRG_PHDR_SIZE ;;
      modify (fun w => let im := image w in
        set_image (Image (im_entry im) (im_arch im) (im_segment_count im) (im_file_size im)
                         (<[i := segment_of phdr]> (im_segments im))) w) ;;;
      read_phdrs n (i + 1) node_id phoff
  end.

Definition sprg_core_validate_file (path : option (list Z)) (expected_arch : Z) : M world unit :=
  guard (match path with None => false | Some p => sprg_has_prg_suffix p end) SPRG_ERR_INVALID ;;;
  st <- sprg_fs_error (fs_core_stat path) ;;
  guard (negb (Z.land (st_mode st) FS_MODE_FILE =? 0)) SPRG_ERR_INVALID ;;;
  guard (negb (SPRG_MAX_FILE_SIZE <? st_size st)) SPRG_ERR_TOO_LARGE ;;;
  node_id <- sprg_fs_error (fs_core_open path FS_O_RDONLY) ;;
  header <- read_or_close node_id 0 SPRG_HEADER_SIZE ;;
  check ((byte_at header 0 =? char_at SPRG_MAGIC 0) && (byte_at header 1 =? char_at SPRG_MAGIC 1) &&
         (byte_at header 2 =? char_at SPRG_MAGIC 2) && (byte_at header 3 =? char_at SPRG_MAGIC 3))
        node_id SPRG_ERR_BAD_MAGIC ;;;
  let version := sprg_le32 header 4 in
  let arch := sprg_le32 header 8 in
  modify (fun w => let im := image w in
    set_image (Image (sprg_le32 header 12) (im_arch im) (im_segment_count im) (im_file_size im)
                     (im_segments im)) w) ;;;
  let phoff := sprg_le32 header 16 in
  let phnum := sprg_le32 header 20 in
  let flags := sprg_le32 header 24 in
  check (version =? SPRG_VERSION) node_id SPRG_ERR_BAD_VERSION ;;;
  check (arch =? expected_arch) node_id SPRG_ERR_BAD_ARCH ;;;
  check (negb (negb (flags =? 0) || (phnum =? 0) || (SPRG_MAX_PHDRS <? phnum)))
        node_id SPRG_ERR_BAD_HEADER ;;;
  check (sprg_range_valid phoff (u32 (phnum * SPRG_PHDR_SIZE)) (st_size st))
        node_id SPRG_ERR_BAD_HEADER ;;;
  modify (fun w => set_image (Image (im_entry (image w)) arch phnum (st_size st)
                                    (im_segments (image w))) w) ;;;
  read_phdrs (Z.to_nat phnum) 0 node_id phoff ;;;
  attempt (on_files (fs_core_close node_id)) ;;;
  w <- get ;;
  let rc := sprg_validate_segment_table (image w) in
  guard (rc =? SPRG_OK) rc.

(** ** Loading *)

(** The bytes stored at [addr], [addr + 1], ... *)
Fixpoint store_at (A : Mm.arch) (addr : Z) (bytes : list Z) (m : gmap Z Z) : gmap Z Z :=
  match bytes with
  | [] => m
  | b :: r => store_at A (addr + 1) r (<[Mm.uptr A addr := b]> m)
  end.

(** The copy of the file part of a segment. *)
Fixpoint stream_loop (fuel : nat) (A : Mm.arch) (node_id : Z) (seg : sprg_segment) (start done : Z)
    : M world unit :=
  if negb (done <? sg_filesz seg) then ret tt
  else match fuel with
       | O => fun _ => None
       | Datatypes.S fuel =>
           let chunk := Z.min (sg_filesz seg - done) SPRG_STREAM_CHUNK in
           r <- attempt (read_some node_id (u32 (sg_offset seg + done)) chunk) ;;
           match r with
           | inl rc => close_fail node_id rc
           | inr bytes =>
               modify (fun w => set_ram (store_at A (start + done) bytes (ram w)) w) ;;;
               stream_loop fuel A node_id seg start (u32 (done + Z.of_nat (length bytes)))
           end
       end.

(** The zeros up to [memsz]: [n] bytes from index [j]. *)
Fixpoint zero_loop (n : nat) (A : Mm.arch) (start j : Z) (m : gmap Z Z) : gmap Z Z :=
  match n with
  | O => m
  | Datatypes.S n => zero_loop n A start (j + 1) (<[Mm.uptr A (start + j) := 0]> m)
  end.

(** One segment; the result tells whether it holds the entry point. *)
Definition load_segment (A : Mm.arch) (user_min user_max node_id : Z) (seg : sprg_segment)
    : M world bool :=
  let start := sg_vaddr seg in
  let end_ := Mm.uptr A (start + sg_memsz seg) in
  check (negb ((end_ <? start) || (start <? user_min) || (user_max <? end_)))
        node_id SPRG_ERR_BAD_HEADER ;;;
  check (Z.land (sg_flags seg)
                (u32 (Z.lnot (Z.lor (Z.lor SPRG_FLAG_R SPRG_FLAG_W) SPRG_FLAG_X))) =? 0)
        node_id SPRG_ERR_BAD_HEADER ;;;
  w <- get ;;
  let entry := im_entry (image w) in
  let exec := negb (Z.land (sg_flags seg) SPRG_FLAG_X =? 0) && (start <=? entry) && (entry <? end_) in
  stream_loop (Z.to_nat (sg_filesz seg)) A node_id seg start 0 ;;;
  modify (fun w => set_ram (zero_loop (Z.to_nat (sg_memsz seg - sg_filesz seg)) A start
                                      (sg_filesz seg) (ram w)) w) ;;;
  ret exec.

Fixpoint load_segments (A : Mm.arch) (user_min user_max node_id : Z) (segs : list sprg_segment)
    (entry_is_executable : bool) : M world bool :=
  match segs with
  | [] => ret entry_is_executable
  | seg :: rest =>
      exec <- load_segment A user_min user_max node_id seg ;;
      load_segments A user_min user_max node_id rest (entry_is_executable || exec)
  end.

Definition sprg_core_load_file (A : Mm.arch) (path : option (list Z))
    (expected_arch user_min user_max : Z) : M world unit :=
  guard (negb (user_max <=? user_min)) SPRG_ERR_INVALID ;;;
  sprg_core_validate_file path expected_arch ;;;
  node_id <- sprg_fs_error (fs_core_open path FS_O_RDONLY) ;;
  w <- get ;;
  exec <- load_segments A user_min user_max node_id (active_segments (image w)) false ;;
  attempt (on_files (fs_core_close node_id)) ;;;
  guard exec SPRG_ERR_BAD_HEADER.

End Sprg.
Arguments world : clear implicits.
Arguments World {S W}.

End Sprg.
