(* ===== verification/SprgRead.v ===== *)
(** * How the loader reads a program

    The reference the loader is checked against: the fields and segments of a program
    as functions of its bytes, and what makes a program valid.  Then the reading loops
    and the validation, for any file system that honours the reader contract. *)

From S2P Require Import Prelude Mm FsTypes FsPath Vfs Pseudo FsCore FsLinks Sprg.
From stdpp Require Import base list option list_numbers gmap.
From Stdlib Require Import ZArith Lia ZifyBool.
Import FsTypes FsPath Vfs VfsWp Pseudo FsCore FsLinks FsReader Sprg.
Open Scope Z_scope.

Module SprgRead.

(** ** Programs as byte sequences *)

Definition phoff (b : list Z) : Z := sprg_le32 b 16.
Definition phnum (b : list Z) : Z := sprg_le32 b 20.
Definition entry_of (b : list Z) : Z := sprg_le32 b 12.

Definition segment_at (b : list Z) (i : nat) : sprg_segment :=
  segment_of (take 32 (drop (Z.to_nat (phoff b) + 32 * i) b)).

Definition segments_of (b : list Z) : list sprg_segment :=
  segment_at b <$> seq 0 (Z.to_nat (phnum b)).

(** The file header: magic, version 1, the architecture, one to eight program headers
    that lie in the file. *)
Record valid_header (b : list Z) (arch : Z) : Prop := {
  vh_size : SPRG_HEADER_SIZE <= Z.of_nat (length b) <= SPRG_MAX_FILE_SIZE;
  vh_magic : forall i, (i < 4)%nat -> byte_at b i = char_at SPRG_MAGIC i;
  vh_version : sprg_le32 b 4 = SPRG_VERSION;
  vh_arch : sprg_le32 b 8 = arch;
  vh_flags : sprg_le32 b 24 = 0;
  vh_count : 1 <= phnum b <= SPRG_MAX_PHDRS;
  vh_table : phoff b + SPRG_PHDR_SIZE * phnum b <= Z.of_nat (length b)
}.

(** A loadable segment whose file part lies in a file of [n] bytes. *)
Record valid_segment (n : Z) (s : sprg_segment) : Prop := {
  vs_type : sg_type s = SPRG_PHDR_LOAD;
  vs_size : sg_filesz s <= sg_memsz s;
  vs_file : sg_offset s + sg_filesz s <= n;
  vs_reserved : sg_reserved s = 0
}.

Definition no_overlap (s t : sprg_segment) : Prop :=
  sprg_segments_overlap (sg_vaddr s) (sg_memsz s) (sg_vaddr t) (sg_memsz t) = false.

(** What [sprg_core_validate_file] accepts. *)
Record valid_program (b : list Z) (arch : Z) : Prop := {
  vp_header : valid_header b arch;
  vp_segments : Forall (valid_segment (Z.of_nat (length b))) (segments_of b);
  vp_apart : List.ForallOrdPairs no_overlap (segments_of b)
}.

(** ** Little-endian words *)

Lemma byte_at_range p i : 0 <= byte_at p i < 2 ^ 8.
Proof. apply u8_range. Qed.

Lemma shiftl_range x k n : 0 <= x < 2 ^ 8 -> 0 <= k -> 8 + k <= n -> 0 <= Z.shiftl x k < 2 ^ n.
Proof.
  intros Hx Hk Hn. rewrite Z.shiftl_mul_pow2 by lia.
  pose proof (Z.pow_le_mono_r 2 (8 + k) n ltac:(lia) Hn). rewrite Z.pow_add_r in * by lia. nia.
Qed.

Lemma le32_range p i : 0 <= sprg_le32 p i < 2 ^ 32.
Proof.
  unfold sprg_le32.
  repeat apply lor_range; try lia; try (apply shiftl_range; [apply byte_at_range|lia..]).
  pose proof (byte_at_range p i). lia.
Qed.

Lemma char_at_take p n i : (i < n)%nat -> char_at (take n p) i = char_at p i.
Proof. intros Hi. unfold char_at. by rewrite lookup_take_lt. Qed.

Lemma le32_take p n i : (i + 3 < n)%nat -> sprg_le32 (take n p) i = sprg_le32 p i.
Proof. intros Hi. unfold sprg_le32, byte_at. by rewrite !char_at_take by lia. Qed.

(** The fields of a segment are 32-bit words. *)
Record word_segment (s : sprg_segment) : Prop := {
  ws_offset : 0 <= sg_offset s < 2 ^ 32;
  ws_vaddr : 0 <= sg_vaddr s < 2 ^ 32;
  ws_filesz : 0 <= sg_filesz s < 2 ^ 32;
  ws_memsz : 0 <= sg_memsz s < 2 ^ 32;
  ws_flags : 0 <= sg_flags s < 2 ^ 32
}.

Lemma segment_of_word p : word_segment (segment_of p).
Proof. constructor; apply le32_range. Qed.

Lemma segments_of_word b : Forall word_segment (segments_of b).
Proof.
  apply Forall_forall. intros s Hs. apply list_elem_of_fmap in Hs as (i & -> & _). apply segment_of_word.
Qed.

(** ** The segment table *)

Lemma range_valid_iff off sz n :
  0 <= off < 2 ^ 32 -> 0 <= n < 2 ^ 32 -> sprg_range_valid off sz n = true <-> off <= n /\ off + sz <= n.
Proof.
  intros Ho Hn. unfold sprg_range_valid. destruct (Z.ltb_spec n off); [split; [done|lia]|].
  rewrite u32_small by lia. destruct (Z.ltb_spec (n - off) sz); split; (done || lia).
Qed.

Lemma validate_segments_iff n segs :
  0 <= n < 2 ^ 32 -> Forall word_segment segs ->
  validate_segments n segs = SPRG_OK <->
  Forall (valid_segment n) segs /\ List.ForallOrdPairs no_overlap segs.
Proof.
  intros Hn. induction 1 as [|s segs Hs _ IH]; simpl.
  { split; [|done]. intros _. split; constructor. }
  assert (valid_segment n s <->
    sg_type s =? SPRG_PHDR_LOAD = true /\ sg_memsz s <? sg_filesz s = false /\
    sprg_range_valid (sg_offset s) (sg_filesz s) n = true /\ sg_reserved s =? 0 = true) as Hv.
  { rewrite range_valid_iff by (done || apply Hs). destruct Hs as [? ? ? ? ?].
    split; [intros []; split_and!; lia|intros (? & ? & ? & ?); constructor; lia]. }
  assert (existsb (fun t => sprg_segments_overlap (sg_vaddr s) (sg_memsz s) (sg_vaddr t) (sg_memsz t))
                  segs = false <-> Forall (no_overlap s) segs) as Ho.
  { clear. induction segs as [|t segs IH]; simpl; [by split|].
    rewrite orb_false_iff, Forall_cons, IH. done. }
  split.
  - repeat case_bool; try done. intros HO. apply IH in HO as [H1 H2].
    split; constructor; try done; [apply Hv; split_and!; blia|by apply Ho].
  - intros [H1 H2]. apply Forall_cons in H1 as [H1 H1']. inversion_clear H2 as [|? ? H3 H4].
    apply Hv in H1 as (-> & -> & -> & ->). rewrite (proj2 Ho) by done. by apply IH.
Qed.

(** ** Reading *)

Lemma take_length_take {A} (n : nat) (l : list A) : take (length (take n l)) l = take n l.
Proof. rewrite length_take. destruct (decide (n <= length l)%nat); [f_equal; lia|].
  rewrite !take_ge by lia. done. Qed.

Section Reading.
Context {S W : Type} `{!storage S} `{!services W}.
Context (d : driver) `{!file_driver (driver_ops d)} `{!file_reader (driver_ops d)}.

#[local] Notation world := (world S W).

Definition is_open (w : world) path b id : Prop := opened d (files w) path b id.

(** The bytes a read at [off] finds; an empty read is an error. *)
Lemma read_some_spec (w : world) path b id off cap :
  is_open w path b id -> 0 <= off -> 0 <= cap ->
  read_some id off cap w =
    Some (match take (Z.to_nat cap) (drop (Z.to_nat off) b) with
          | [] => inl SPRG_ERR_INVALID | bytes => inr bytes end, w).
Proof.
  intros Ho H1 H2. unfold read_some, attempt, on_files, bind, is_open in *.
  rewrite (read_opened d _ path b) by done. destruct w. by destruct (take _ _).
Qed.

Lemma read_exact_loop_spec (w : world) path b id off size fuel done :
  is_open w path b id -> 0 <= off -> off + size < 2 ^ 32 -> 0 < size -> 0 <= done <= size ->
  off + done <= Z.of_nat (length b) \/ done = 0 -> (Z.to_nat (size - done) <= fuel)%nat ->
  read_exact_loop fuel id off (take (Z.to_nat done) (drop (Z.to_nat off) b)) done size w =
    Some (if off + size <=? Z.of_nat (length b)
          then inr (take (Z.to_nat size) (drop (Z.to_nat off) b)) else inl SPRG_ERR_INVALID, w).
Proof.
  intros Ho Hoff Hmax Hsz. revert done. induction fuel as [|fuel IH]; intros done Hd Hin Hf.
  { assert (done = size) as -> by lia. cbn [read_exact_loop]. rewrite Z.ltb_irrefl. cbn [negb].
    by destruct (Z.leb_spec (off + size) (Z.of_nat (length b))); [|lia]. }
  cbn [read_exact_loop]. destruct (Z.ltb_spec done size) as [Hlt|Hge]; cbn [negb].
  2: { assert (done = size) as -> by lia.
       by destruct (Z.leb_spec (off + size) (Z.of_nat (length b))); [|lia]. }
  unfold bind. rewrite u32_small by lia.
  rewrite (read_some_spec w path b id (off + done)) by (done || unfold SPRG_STREAM_CHUNK; lia).
  set (chunk := Z.to_nat (Z.min (size - done) SPRG_STREAM_CHUNK)).
  assert (1 <= chunk)%nat as Hc by (unfold chunk, SPRG_STREAM_CHUNK; lia).
  pose proof (length_take (drop (Z.to_nat (off + done)) b) chunk) as Hl. rewrite length_drop in Hl.
  pose proof (take_length_take chunk (drop (Z.to_nat (off + done)) b)) as Htt.
  destruct (take chunk _) as [|x bytes] eqn:Eb.
  { simpl in Hl. by destruct (Z.leb_spec (off + size) (Z.of_nat (length b))); [lia|]. }
  assert (1 <= length (x :: bytes))%nat as Hg by (simpl; lia).
  rewrite <- Eb in *. clear Eb x bytes.
  replace (Z.to_nat (off + done)) with (Z.to_nat off + Z.to_nat done)%nat in * by lia.
  rewrite <- drop_drop in *. rewrite <- Htt. rewrite take_take_drop.
  assert (Z.of_nat chunk <= size - done) by (unfold chunk; lia).
  set (got := length (take chunk (drop (Z.to_nat done) (drop (Z.to_nat off) b)))) in *.
  rewrite (u32_small (done + Z.of_nat (length (take got (drop (Z.to_nat done) (drop (Z.to_nat off) b))))))
    by (rewrite Htt; fold got; lia).
  rewrite Htt. fold got.
  replace (Z.to_nat done + got)%nat with (Z.to_nat (done + Z.of_nat got)) by lia.
  apply IH; lia.
Qed.

Lemma read_exact_spec (w : world) path b id off size :
  is_open w path b id -> 0 <= off -> off + size < 2 ^ 32 -> 0 < size ->
  sprg_read_exact id off size w =
    Some (if off + size <=? Z.of_nat (length b)
          then inr (take (Z.to_nat size) (drop (Z.to_nat off) b)) else inl SPRG_ERR_INVALID, w).
Proof.
  intros Ho H1 H2 H3. unfold sprg_read_exact.
  by rewrite <- (read_exact_loop_spec w path b id off size (Z.to_nat size) 0) by (done || lia).
Qed.

(** ** Early returns *)

(** What is left when a call fails: the file is closed, memory and image are as they were. *)
Definition closed (w : world) path b (w' : world) : Prop :=
  readable d (files w') path b /\ ram w' = ram w /\ image w' = image w.

Lemma close_spec (w : world) path b id :
  is_open w path b id ->
  exists r w', on_files (fs_core_close id) w = Some (r, w') /\ closed w path b w'.
Proof.
  intros Ho. destruct (close_opened d _ path b id Ho) as (r & f & E & Hf).
  unfold on_files. rewrite E. by do 2 eexists.
Qed.

Lemma close_fail_spec {A} (w : world) path b id rc (Q : Z + A -> world -> Prop) :
  is_open w path b id -> (forall w', closed w path b w' -> Q (inl rc) w') ->
  wp (close_fail id rc) w Q.
Proof.
  intros Ho HQ. destruct (close_spec w path b id Ho) as (r & w' & E & Hw).
  unfold close_fail, wp, bind, attempt. rewrite E. by apply HQ.
Qed.

Lemma check_seq {B} (bb : bool) (w : world) path b id rc (k : unit -> M world B) Q :
  is_open w path b id ->
  (bb = false -> forall w', closed w path b w' -> Q (inl rc) w') ->
  (bb = true -> wp (k tt) w Q) ->
  wp (bind (check bb id rc) k) w Q.
Proof.
  intros Ho Hf Ht. apply wp_bind. unfold check. destruct bb; [by apply Ht|].
  apply (close_fail_spec w path b); auto.
Qed.

Lemma read_seq {B} (w : world) path b id off size (k : list Z -> M world B) Q :
  is_open w path b id -> 0 <= off -> off + size < 2 ^ 32 -> 0 < size ->
  (Z.of_nat (length b) < off + size -> forall w', closed w path b w' -> Q (inl SPRG_ERR_INVALID) w') ->
  (off + size <= Z.of_nat (length b) ->
     wp (k (take (Z.to_nat size) (drop (Z.to_nat off) b))) w Q) ->
  wp (bind (read_or_close id off size) k) w Q.
Proof.
  intros Ho H1 H2 H3 Hf Ht. apply wp_bind. unfold read_or_close. apply wp_bind, wp_attempt.
  apply (wp_intro _ _ _ _ _ (read_exact_spec w path b id off size Ho H1 H2 H3)).
  destruct (Z.leb_spec (off + size) (Z.of_nat (length b))) as [Hin|Hout]; [by apply Ht|].
  apply (close_fail_spec w path b); auto.
Qed.

(** ** The program headers *)

Definition set_segments (segs : list sprg_segment) (w : world) : world :=
  set_image (Image (im_entry (image w)) (im_arch (image w)) (im_segment_count (image w))
                   (im_file_size (image w)) segs) w.

Lemma read_phdrs_spec path b id n (w : world) i :
  is_open w path b id -> phoff b + SPRG_PHDR_SIZE * Z.of_nat (i + n) <= Z.of_nat (length b) ->
  Z.of_nat (length b) <= SPRG_MAX_FILE_SIZE -> (i + n <= length (im_segments (image w)))%nat ->
  exists segs, read_phdrs n i id (phoff b) w = Some (inr tt, set_segments segs w) /\
    length segs = length (im_segments (image w)) /\
    forall j, segs !! j = if decide (i <= j < i + n)%nat then Some (segment_at b j)
                          else im_segments (image w) !! j.
Proof.
  revert w i. induction n as [|n IH]; intros w i Ho Ht Hmax Hlen.
  { exists (im_segments (image w)). split; [by destruct w as [? ? []]|].
    split; [done|]. intros j. by case_decide; [lia|]. }
  pose proof (le32_range b 16) as Hp. fold (phoff b) in Hp.
  unfold SPRG_PHDR_SIZE, SPRG_MAX_FILE_SIZE in *.
  set (w1 := set_segments (<[i := segment_at b i]> (im_segments (image w))) w).
  assert (read_phdrs (Datatypes.S n) i id (phoff b) w = read_phdrs n (i + 1) id (phoff b) w1) as ->.
  { cbn [read_phdrs]. unfold SPRG_PHDR_SIZE. rewrite !(u32_small (Z.of_nat i * 32)), u32_small by lia.
    unfold read_or_close, bind, attempt. rewrite (read_exact_spec w path b) by (done || lia).
    destruct (Z.leb_spec (phoff b + Z.of_nat i * 32 + 32) (Z.of_nat (length b))) as [Hin|]; [|lia].
    unfold modify, ret, w1, set_segments, segment_at. do 7 f_equal. lia. }
  destruct (IH w1 (i + 1)%nat) as (segs & E & Hl & Hs); [done|lia|lia|..].
  { simpl. rewrite length_insert. lia. }
  exists segs. rewrite E. split; [done|]. simpl in Hl. rewrite length_insert in Hl. split; [done|].
  intros j. rewrite Hs. simpl.
  destruct (decide (i = j)) as [<-|Hij].
  - rewrite list_lookup_insert_eq by lia. repeat case_decide; try lia; done.
  - rewrite list_lookup_insert_ne by done. repeat case_decide; try lia; done.
Qed.

End Reading.

End SprgRead.

(** * Validation and loading

    [sprg_core_validate_file] accepts exactly the valid programs, and the segment loop
    of [sprg_core_load_file] writes the bytes of the segments and nothing else. *)

Import FsTypes FsPath Vfs VfsWp Pseudo FsCore FsLinks FsReader Sprg SprgRead.

Module SprgLoad.

Section Load.
Context {S W : Type} `{!storage S} `{!services W}.
Context (d : driver) `{!file_driver (driver_ops d)} `{!file_reader (driver_ops d)}.

#[local] Notation world := (world S W).

(** ** Validation *)

Definition validated path b arch (w : world) (r : Z + unit) (w' : world) : Prop :=
  readable d (files w') path b /\ ram w' = ram w /\
  match r with
  | inr _ => valid_program b arch /\ active_segments (image w') = segments_of b /\
             im_entry (image w') = entry_of b /\ length (im_segments (image w')) = 8%nat
  | inl _ => ~ valid_program b arch
  end.

Lemma refused path b arch rc (w w0 w' : world) :
  closed d w path b w' -> ram w = ram w0 -> ~ valid_program b arch ->
  validated path b arch w0 (inl rc) w'.
Proof. intros (H1 & H2 & _) H3 H4. split_and!; [done|congruence|done]. Qed.

Lemma stat_seq {B} (w : world) path b (k : fs_stat -> M world B) Q :
  readable d (files w) path b ->
  (forall m, Z.land m FS_MODE_FILE <> 0 -> wp (k (FsStat m (Z.of_nat (length b)))) w Q) ->
  wp (bind (sprg_fs_error (fs_core_stat (Some path))) k) w Q.
Proof.
  intros [Hl _] Hk. destruct (stat_located d (files w) path b Hl) as (m & E & Hm).
  unfold wp, bind, sprg_fs_error, attempt, on_files. unfold bind. rewrite E. cbn beta iota.
  destruct w. by apply Hk.
Qed.

Lemma open_seq {B} (w : world) path b (k : Z -> M world B) Q :
  readable d (files w) path b ->
  (forall id f, opened d f path b id -> wp (k id) (World f (ram w) (image w)) Q) ->
  wp (bind (sprg_fs_error (fs_core_open (Some path) FS_O_RDONLY)) k) w Q.
Proof.
  intros Hr Hk. destruct (open_readable d (files w) path b Hr) as (id & f & E & Ho).
  unfold wp, bind, sprg_fs_error, attempt, on_files. unfold bind. rewrite E. by apply Hk.
Qed.

Lemma closed_trans (w w1 w2 : world) path b :
  ram w1 = ram w -> image w1 = image w -> closed d w1 path b w2 -> closed d w path b w2.
Proof. intros H1 H2 (? & ? & ?). split_and!; [done|congruence..]. Qed.

(** The part after the header checks. *)
Lemma table_spec path b arch id (w0 w : world) :
  is_open d w path b id -> valid_header b arch -> ram w = ram w0 ->
  im_entry (image w) = entry_of b -> im_segment_count (image w) = phnum b ->
  im_file_size (image w) = Z.of_nat (length b) -> length (im_segments (image w)) = 8%nat ->
  wp (bind (read_phdrs (Z.to_nat (phnum b)) 0 id (phoff b)) (fun _ =>
      bind (attempt (on_files (fs_core_close id))) (fun _ =>
      bind get (fun w => let rc := sprg_validate_segment_table (image w) in
                         guard (rc =? SPRG_OK) rc)))) w (validated path b arch w0).
Proof.
  intros Ho Hh Hram He Hc Hsz H8. destruct Hh as [Hs Hm Hv Ha Hf Hn Ht] eqn:EH.
  unfold SPRG_MAX_PHDRS, SPRG_MAX_FILE_SIZE, SPRG_HEADER_SIZE in *.
  destruct (read_phdrs_spec d path b id (Z.to_nat (phnum b)) w 0) as (segs & E & Hlen & Hsegs);
    [done|unfold SPRG_PHDR_SIZE in *; lia|unfold SPRG_MAX_FILE_SIZE; lia|lia|].
  apply wp_bind, (wp_intro _ _ _ _ _ E). apply wp_bind, wp_attempt.
  destruct (close_spec d (set_segments segs w) path b id Ho) as (r & w' & Ec & Hr & Hram' & Him).
  apply (wp_intro _ _ _ _ _ Ec). apply wp_bind. apply (wp_intro _ _ (inr w') w'); [done|].
  assert (active_segments (image w') = segments_of b) as Hact.
  { unfold active_segments. rewrite Him. simpl. rewrite Hc. apply list_eq. intros j.
    unfold segments_of. rewrite list_lookup_fmap.
    destruct (decide (j < Z.to_nat (phnum b))%nat).
    - rewrite lookup_take_lt, lookup_seq_lt, Hsegs by lia. by case_decide; [|lia].
    - rewrite lookup_take_ge, lookup_seq_ge by lia. done. }
  assert (validate_segments (Z.of_nat (length b)) (segments_of b) = SPRG_OK <-> valid_program b arch) as Hiff.
  { rewrite validate_segments_iff by (apply segments_of_word || lia).
    split; [intros []; by constructor|by intros []]. }
  unfold sprg_validate_segment_table. rewrite Hact, Him. cbn [im_file_size set_segments set_image image].
  rewrite Hsz. apply wp_guard. unfold validated. rewrite Hram'.
  destruct (Z.eqb_spec (validate_segments (Z.of_nat (length b)) (segments_of b)) SPRG_OK) as [Hok|Hbad].
  - split_and!; try done; [by apply Hiff|by rewrite Him|rewrite Him; simpl; lia].
  - split_and!; try done. by rewrite <- Hiff.
Qed.

Lemma magic_iff b :
  (byte_at b 0 =? char_at SPRG_MAGIC 0) && (byte_at b 1 =? char_at SPRG_MAGIC 1) &&
  (byte_at b 2 =? char_at SPRG_MAGIC 2) && (byte_at b 3 =? char_at SPRG_MAGIC 3) = true <->
  forall i, (i < 4)%nat -> byte_at b i = char_at SPRG_MAGIC i.
Proof.
  rewrite !andb_true_iff, !Z.eqb_eq. split.
  - intros [[[? ?] ?] ?] i Hi. by destruct i as [|[|[|[|?]]]]; [..|lia].
  - intros Hi. split_and!; apply Hi; lia.
Qed.

(** A failed check: the program does not have the property it tests. *)
#[local] Ltac refuse w path b arch :=
  let Hv := fresh "Hv" in
  intros ? ? ?; apply (refused path b arch _ w); try done; intros [Hv _ _]; destruct Hv.

(** [sprg_core_validate_file] returns, leaves memory alone and accepts exactly the
    valid programs; on success the image holds the entry point and the segments. *)
Lemma validate_spec path b arch (w : world) :
  readable d (files w) path b -> sprg_has_prg_suffix path = true ->
  length (im_segments (image w)) = 8%nat ->
  wp (sprg_core_validate_file (Some path) arch) w (validated path b arch w).
Proof.
  intros Hr Hsuf H8. unfold sprg_core_validate_file.
  apply wp_guard_seq; [by rewrite Hsuf|intros _].
  apply (stat_seq w path b _ _ Hr). intros m Hm. cbn [st_mode st_size].
  apply wp_guard_seq; [intros ?; exfalso; blia|intros _].
  apply wp_guard_seq.
  { intros Hbig. split_and!; try done. intros [[[_ Hs] _ _ _ _ _ _] _ _]. blia. }
  intros Hsize. apply (open_seq w path b _ _ Hr). intros id f Ho.
  set (w1 := World f (ram w) (image w)).
  apply (read_seq d w1 path b); try done.
  { refuse w1 path b arch. change SPRG_HEADER_SIZE with 28 in *. lia. }
  intros Hin. rewrite drop_0. change (Z.to_nat SPRG_HEADER_SIZE) with 28%nat.
  assert (forall i, (i < 28)%nat -> byte_at (take 28 b) i = byte_at b i) as Hbyte.
  { intros i Hi. unfold byte_at. by rewrite char_at_take. }
  rewrite !Hbyte, !le32_take by lia. clear Hbyte.
  apply (check_seq d _ w1 path b); [done|..].
  { refuse w1 path b arch. rewrite (proj2 (magic_iff b)) in * by done. done. }
  intros Hmagic. apply wp_bind. apply (wp_intro _ _ _ _ _ eq_refl).
  set (w2 := set_image _ w1). fold (phoff b) (phnum b) (entry_of b).
  apply (check_seq d _ w2 path b); [done|..].
  { refuse w2 path b arch. blia. }
  intros Hver. apply (check_seq d _ w2 path b); [done|..].
  { refuse w2 path b arch. blia. }
  intros Harch. apply (check_seq d _ w2 path b); [done|..].
  { refuse w2 path b arch. lia. }
  intros Hcount. pose proof (le32_range b 16) as Hp. fold (phoff b) in Hp.
  unfold SPRG_MAX_PHDRS, SPRG_MAX_FILE_SIZE, SPRG_HEADER_SIZE in *.
  pose proof (range_valid_iff (phoff b) (u32 (phnum b * SPRG_PHDR_SIZE)) (Z.of_nat (length b)) Hp ltac:(lia)) as Hrv.
  pose proof (le32_range b 20) as Hq. fold (phnum b) in Hq.
  rewrite (u32_small (phnum b * SPRG_PHDR_SIZE)) in * by (unfold SPRG_PHDR_SIZE; lia).
  apply (check_seq d _ w2 path b); [done|..].
  { refuse w2 path b arch. rewrite (proj2 Hrv) in * by (unfold SPRG_PHDR_SIZE in *; lia). done. }
  intros Htab. apply Hrv in Htab. apply wp_bind. apply (wp_intro _ _ _ _ _ eq_refl).
  apply table_spec; try done. constructor; try (unfold SPRG_PHDR_SIZE, SPRG_HEADER_SIZE, SPRG_MAX_FILE_SIZE, SPRG_MAX_PHDRS in *; lia).
  by apply magic_iff.
Qed.

(** ** Memory *)

(** The bytes a segment occupies in memory. *)
Definition seg_bytes (b : list Z) (s : sprg_segment) : list Z :=
  take (Z.to_nat (sg_filesz s)) (drop (Z.to_nat (sg_offset s)) b) ++
  replicate (Z.to_nat (sg_memsz s - sg_filesz s)) 0.

Lemma store_at_app A a x y m :
  store_at A a (x ++ y) m = store_at A (a + Z.of_nat (length x)) y (store_at A a x m).
Proof.
  revert a m. induction x as [|v x IH]; intros a m; simpl; [by rewrite Z.add_0_r|].
  rewrite IH. f_equal. lia.
Qed.

Lemma zero_loop_store n A start j m :
  zero_loop n A start j m = store_at A (start + j) (replicate n 0) m.
Proof.
  revert j m. induction n as [|n IH]; intros j m; [done|]. simpl. rewrite IH. f_equal. lia.
Qed.

Lemma uptr_id A a : 0 <= a < 2 ^ 32 -> Mm.uptr A a = a.
Proof. intros Ha. destruct A; [by apply u32_small|apply u64_small; lia]. Qed.

Lemma store_at_lookup A a bytes m x :
  0 <= a -> a + Z.of_nat (length bytes) <= 2 ^ 32 ->
  store_at A a bytes m !! x =
    if decide (a <= x < a + Z.of_nat (length bytes)) then bytes !! Z.to_nat (x - a) else m !! x.
Proof.
  revert a m. induction bytes as [|v bytes IH]; intros a m Ha Hl; simpl in *.
  { by case_decide; [lia|]. }
  rewrite IH, uptr_id by lia. destruct (decide (a = x)) as [<-|Hne].
  - rewrite lookup_insert_eq. repeat case_decide; try lia. by rewrite Z.sub_diag.
  - rewrite lookup_insert_ne by done. repeat case_decide; try lia; [|done].
    replace (Z.to_nat (x - a)) with (Datatypes.S (Z.to_nat (x - (a + 1)))) by lia. done.
Qed.

Lemma seg_bytes_length b s :
  0 <= sg_offset s -> 0 <= sg_filesz s -> valid_segment (Z.of_nat (length b)) s ->
  Z.of_nat (length (seg_bytes b s)) = sg_memsz s.
Proof.
  intros H1 H2 [_ H3 H4 _]. unfold seg_bytes. rewrite length_app, length_take, length_drop, length_replicate.
  lia.
Qed.

(** ** One segment *)

Lemma stream_loop_spec (w : world) path b id A s start fuel done :
  is_open d w path b id -> word_segment s -> valid_segment (Z.of_nat (length b)) s ->
  Z.of_nat (length b) < 2 ^ 32 ->
  0 <= done <= sg_filesz s -> (Z.to_nat (sg_filesz s - done) <= fuel)%nat ->
  stream_loop fuel A id s start done w =
    Some (inr tt, set_ram (store_at A (start + done)
      (take (Z.to_nat (sg_filesz s - done)) (drop (Z.to_nat (sg_offset s + done)) b)) (ram w)) w).
Proof.
  intros Ho Hw Hv Hb. revert w done Ho. induction fuel as [|fuel IH]; intros w done Ho Hd Hf;
    cbn [stream_loop]; destruct (Z.ltb_spec done (sg_filesz s)) as [Hlt|Hge]; try lia; cbn [negb];
    try (rewrite (proj2 (Z.sub_move_0_r _ _)) by lia; by destruct w).
  destruct Hw as [W1 W2 W3 W4 W5], Hv as [_ V2 V3 _].
  unfold bind, attempt. rewrite u32_small by lia.
  rewrite (read_some_spec d w path b) by (done || unfold SPRG_STREAM_CHUNK; lia).
  set (chunk := Z.to_nat (Z.min (sg_filesz s - done) SPRG_STREAM_CHUNK)).
  set (l := drop (Z.to_nat (sg_offset s + done)) b).
  assert (chunk <= length l)%nat as Hl by (unfold l, chunk; rewrite length_drop; lia).
  assert (1 <= chunk)%nat as Hc by (unfold chunk, SPRG_STREAM_CHUNK; lia).
  destruct (take chunk l) as [|x bytes] eqn:Eb.
  { apply (f_equal length) in Eb. rewrite length_take in Eb. simpl in Eb. lia. }
  unfold modify. rewrite <- Eb, length_take, Nat.min_l by done. rewrite u32_small by (unfold chunk; lia).
  rewrite IH by (done || unfold chunk; lia). do 2 f_equal. unfold set_ram. simpl. f_equal.
  replace (take (Z.to_nat (sg_filesz s - done)) l)
    with (take chunk l ++ take (Z.to_nat (sg_filesz s - (done + Z.of_nat chunk))) (drop chunk l)).
  2: { rewrite take_take_drop. f_equal. unfold chunk. lia. }
  rewrite store_at_app, length_take, Nat.min_l by done. unfold l. rewrite drop_drop.
  f_equal; [lia|]. do 2 f_equal. lia.
Qed.

(** A segment inside the user range, with no flags but read, write and execute. *)
Record placed (user_min user_max : Z) (s : sprg_segment) : Prop := {
  pl_min : user_min <= sg_vaddr s;
  pl_max : sg_vaddr s + sg_memsz s <= user_max;
  pl_flags : sg_flags s < 8
}.

(** The segment holds the entry point and is executable. *)
Definition enters (e : Z) (s : sprg_segment) : bool :=
  negb (Z.land (sg_flags s) SPRG_FLAG_X =? 0) && (sg_vaddr s <=? e) &&
  (e <? sg_vaddr s + sg_memsz s).

Lemma range_check A umin umax s :
  word_segment s -> umax < 2 ^ 32 ->
  let end_ := Mm.uptr A (sg_vaddr s + sg_memsz s) in
  negb ((end_ <? sg_vaddr s) || (sg_vaddr s <? umin) || (umax <? end_)) = true <->
  umin <= sg_vaddr s /\ sg_vaddr s + sg_memsz s <= umax.
Proof.
  intros [_ W2 _ W4 _] Hmax. cbn zeta.
  destruct (decide (sg_vaddr s + sg_memsz s < 2 ^ 32)) as [Hlt|Hge].
  { rewrite uptr_id by lia. lia. }
  split; [|lia]. destruct A; simpl; [|rewrite u64_small by lia; lia].
  unfold u32. replace ((sg_vaddr s + sg_memsz s) mod 2 ^ 32) with (sg_vaddr s + sg_memsz s - 2 ^ 32); [lia|].
  apply (Z.mod_unique _ _ 1); lia.
Qed.

Lemma flags_check f :
  0 <= f < 2 ^ 32 ->
  Z.land f (u32 (Z.lnot (Z.lor (Z.lor SPRG_FLAG_R SPRG_FLAG_W) SPRG_FLAG_X))) =? 0 = (f <? 8).
Proof.
  intros Hf. change (Z.lor (Z.lor SPRG_FLAG_R SPRG_FLAG_W) SPRG_FLAG_X) with (Z.ones 3).
  unfold u32. rewrite <- Z.land_ones, (Z.land_comm (Z.lnot _)), Z.land_assoc by lia.
  rewrite Z.land_ones, (Z.mod_small f), land_lnot_ones by lia. change (2 ^ 3) with 8.
  pose proof (Z.div_mod f 8 ltac:(lia)). pose proof (Z.mod_pos_bound f 8 ltac:(lia)).
  destruct (Z.ltb_spec f 8) as [H8|H8].
  - rewrite (Z.mod_small f 8) by lia. lia.
  - destruct (Z.eqb_spec (f - f mod 8) 0); [lia|done].
Qed.

Lemma load_segment_spec (w : world) path b id A umin umax s :
  is_open d w path b id -> word_segment s -> valid_segment (Z.of_nat (length b)) s ->
  Z.of_nat (length b) < 2 ^ 32 -> umax < 2 ^ 32 ->
  wp (load_segment A umin umax id s) w (fun r w' =>
    match r with
    | inr e => placed umin umax s /\ e = enters (im_entry (image w)) s /\
               w' = set_ram (store_at A (sg_vaddr s) (seg_bytes b s) (ram w)) w
    | inl _ => ~ placed umin umax s /\ closed d w path b w'
    end).
Proof.
  intros Ho Hw Hv Hb Hmax. unfold load_segment.
  pose proof (range_check A umin umax s Hw Hmax) as Hrc. cbn zeta in Hrc.
  apply (check_seq d _ w path b); [done|..].
  { intros Hx w' Hc. split; [|done]. intros []. rewrite (proj2 Hrc) in Hx by done. done. }
  intros Hr. apply Hrc in Hr as [R1 R2]. rewrite flags_check by apply Hw.
  apply (check_seq d _ w path b); [done|..].
  { intros Hx w' Hc. split; [|done]. intros []. lia. }
  intros Hfl. apply wp_bind. apply (wp_intro _ _ (inr w) w); [done|].
  apply wp_bind. rewrite uptr_id by (destruct Hw; lia).
  pose proof (stream_loop_spec w path b id A s (sg_vaddr s) (Z.to_nat (sg_filesz s)) 0
                Ho Hw Hv Hb ltac:(destruct Hw; lia) ltac:(lia)) as Hs.
  apply (wp_intro _ _ _ _ _ Hs). apply (wp_intro _ _ _ _ _ eq_refl).
  split_and!; [constructor; lia|done|].
  rewrite zero_loop_store, !Z.add_0_r, Z.sub_0_r. unfold seg_bytes. rewrite store_at_app.
  destruct Hw, Hv. rewrite length_take, length_drop, Nat.min_l by lia. rewrite Z2Nat.id by lia. done.
Qed.

(** ** All segments *)

Definition load_ram (A : Mm.arch) (b : list Z) (segs : list sprg_segment) (m : gmap Z Z) : gmap Z Z :=
  foldl (fun m s => store_at A (sg_vaddr s) (seg_bytes b s) m) m segs.

(** Memory outside the user range. *)
Definition outside_same (umin umax : Z) (m m' : gmap Z Z) : Prop :=
  forall a, ~ umin <= a < umax -> m' !! a = m !! a.

Lemma store_outside A b s umin umax m :
  0 <= umin -> umax < 2 ^ 32 -> word_segment s -> valid_segment (Z.of_nat (length b)) s ->
  placed umin umax s ->
  outside_same umin umax m (store_at A (sg_vaddr s) (seg_bytes b s) m).
Proof.
  intros H0 Hmax Hw Hv [P1 P2 _] a Ha. pose proof (seg_bytes_length b s ltac:(apply Hw) ltac:(apply Hw) Hv).
  rewrite store_at_lookup by (destruct Hw; lia). by case_decide; [lia|].
Qed.

Lemma load_segments_spec path b id A umin umax segs (w : world) exec :
  is_open d w path b id -> Forall word_segment segs ->
  Forall (valid_segment (Z.of_nat (length b))) segs ->
  Z.of_nat (length b) < 2 ^ 32 -> 0 <= umin -> umax < 2 ^ 32 ->
  wp (load_segments A umin umax id segs exec) w (fun r w' =>
    outside_same umin umax (ram w) (ram w') /\
    match r with
    | inr e => Forall (placed umin umax) segs /\
               e = exec || existsb (enters (im_entry (image w))) segs /\
               w' = set_ram (load_ram A b segs (ram w)) w
    | inl _ => ~ Forall (placed umin umax) segs /\ readable d (files w') path b
    end).
Proof.
  intros Ho Hw Hv Hb H0 Hmax. revert w exec Ho.
  induction segs as [|s segs IH]; intros w exec Ho; cbn [load_segments].
  { split; [done|]. split_and!; [constructor|by rewrite orb_false_r|by destruct w]. }
  apply Forall_cons in Hw as [Hw Hws]. apply Forall_cons in Hv as [Hv Hvs].
  apply (wp_seq _ _ _ _ _ (load_segment_spec w path b id A umin umax s Ho Hw Hv Hb Hmax)).
  { intros rc w' (Hn & Hr & Hram & _). split; [intros a _; by rewrite Hram|].
    split; [by intros [? _]%Forall_cons|done]. }
  intros e w' (Hp & -> & ->).
  pose proof (store_outside A b s umin umax (ram w) H0 Hmax Hw Hv Hp) as Hout.
  apply (wp_mono _ _ _ _ (IH Hws Hvs (set_ram _ w) _ Ho)). intros r w' [Hsame Hr].
  split; [intros a Ha; rewrite Hsame by done; by apply Hout|].
  destruct r as [rc|e].
  - destruct Hr as [Hn Hr]. split; [by intros [_ ?]%Forall_cons|done].
  - destruct Hr as (Hps & -> & ->). split_and!; [by constructor|simpl; by rewrite orb_assoc|done].
Qed.

End Load.

End SprgLoad.
