(* ===== verification/SprgProps.v ===== *)
(** * The promises of the program loader

    Which programs [sprg_core_load_file] accepts, and what memory holds afterwards. *)

From S2P Require Import Prelude Mm FsTypes FsPath Ramfs Vfs RamfsDriver Pseudo FsCore FsLinks FsCoreProps Sprg SprgRead.
From stdpp Require Import base list option list_numbers gmap strings.
From Stdlib Require Import ZArith Lia ZifyBool.
Import FsTypes FsPath FsPathProps Vfs VfsWp RamfsDriver Pseudo FsCore FsLinks FsReader FsCoreProps
  Sprg SprgRead SprgLoad.
Open Scope Z_scope.

Module SprgProps.

(** ** Programs that can run *)

Definition covers (s : sprg_segment) (a : Z) : Prop := sg_vaddr s <= a < sg_vaddr s + sg_memsz s.

Definition disjoint_segments (s t : sprg_segment) : Prop := forall a, ~ (covers s a /\ covers t a).

(** A program for [arch] that fits between [user_min] and [user_max]. *)
Record runnable (b : list Z) (arch user_min user_max : Z) : Prop := {
  rn_range : user_min < user_max;
  rn_header : valid_header b arch;
  rn_segments : Forall (valid_segment (Z.of_nat (length b))) (segments_of b);
  rn_placed : Forall (placed user_min user_max) (segments_of b);
  rn_disjoint : List.ForallOrdPairs disjoint_segments (segments_of b);
  rn_entry : exists s, s ∈ segments_of b /\ Z.land (sg_flags s) SPRG_FLAG_X <> 0 /\ covers s (entry_of b)
}.

(** The byte a program wants at address [a]: file contents, then zeros. *)
Fixpoint image_byte (b : list Z) (segs : list sprg_segment) (a : Z) : option Z :=
  match segs with
  | [] => None
  | s :: segs =>
      if (sg_vaddr s <=? a) && (a <? sg_vaddr s + sg_memsz s)
      then Some (if a - sg_vaddr s <? sg_filesz s
                 then char_at b (Z.to_nat (sg_offset s + (a - sg_vaddr s))) else 0)
      else image_byte b segs a
  end.

Lemma overlap_iff umax s t :
  word_segment s -> word_segment t -> umax < 2 ^ 32 ->
  sg_vaddr s + sg_memsz s <= umax -> sg_vaddr t + sg_memsz t <= umax ->
  no_overlap s t <-> disjoint_segments s t.
Proof.
  intros [_ S1 _ S2 _] [_ T1 _ T2 _] Hmax Hs Ht. unfold no_overlap, sprg_segments_overlap.
  rewrite !u32_small by lia. unfold disjoint_segments, covers. split.
  - repeat case_bool; intros ? a; blia.
  - intros Hd. pose proof (Hd (sg_vaddr s)). pose proof (Hd (sg_vaddr t)). repeat case_bool; lia.
Qed.

Lemma apart_iff umin umax segs :
  umax < 2 ^ 32 -> Forall word_segment segs -> Forall (placed umin umax) segs ->
  List.ForallOrdPairs no_overlap segs <-> List.ForallOrdPairs disjoint_segments segs.
Proof.
  intros Hmax. induction segs as [|s segs IH]; intros Hw Hp; [by split; constructor|].
  apply Forall_cons in Hw as [Hw Hws]. apply Forall_cons in Hp as [Hp Hps].
  assert (Forall (no_overlap s) segs <-> Forall (disjoint_segments s) segs) as Hiff.
  { rewrite !Forall_forall. split; intros Hx t Ht; apply (overlap_iff umax s t); try done;
      try (by apply Hx); try apply Hp; try (by eapply Forall_forall in Hws);
      eapply Forall_forall in Hps as []; try done. }
  split; inversion_clear 1 as [|? ? H1 H2]; constructor; try (by apply Hiff); by apply IH.
Qed.

Lemma runnable_valid b arch umin umax :
  umax < 2 ^ 32 ->
  runnable b arch umin umax <->
  umin < umax /\ valid_program b arch /\ Forall (placed umin umax) (segments_of b) /\
  existsb (enters (entry_of b)) (segments_of b) = true.
Proof.
  intros Hmax. pose proof (segments_of_word b) as Hw.
  assert (existsb (enters (entry_of b)) (segments_of b) = true <->
    exists s, s ∈ segments_of b /\ Z.land (sg_flags s) SPRG_FLAG_X <> 0 /\ covers s (entry_of b)) as He.
  { rewrite existsb_exists. unfold enters, covers.
    split; intros (s & Hs & Hx); exists s; (split; [by apply list_elem_of_In|blia]). }
  split.
  - intros [H1 H2 H3 H4 H5 H6]. split_and!; [done| |done|by apply He].
    constructor; try done. by apply (apart_iff umin umax).
  - intros (H1 & [H2 H3 H4] & H5 & H6). constructor; try done; [by apply (apart_iff umin umax)|by apply He].
Qed.

Lemma seg_bytes_lookup b s a :
  word_segment s -> valid_segment (Z.of_nat (length b)) s -> covers s a ->
  seg_bytes b s !! Z.to_nat (a - sg_vaddr s) =
    Some (if a - sg_vaddr s <? sg_filesz s
          then char_at b (Z.to_nat (sg_offset s + (a - sg_vaddr s))) else 0).
Proof.
  intros [W1 W2 W3 W4 _] [_ V1 V2 _] Ha. unfold covers in Ha. unfold seg_bytes.
  destruct (Z.ltb_spec (a - sg_vaddr s) (sg_filesz s)) as [Hf|Hf].
  - rewrite lookup_app_l by (rewrite length_take, length_drop; lia).
    rewrite lookup_take_lt, lookup_drop by lia. unfold char_at.
    replace (Z.to_nat (sg_offset s) + Z.to_nat (a - sg_vaddr s))%nat
      with (Z.to_nat (sg_offset s + (a - sg_vaddr s))) by lia.
    destruct (lookup_lt_is_Some_2 b (Z.to_nat (sg_offset s + (a - sg_vaddr s)))) as [v ->]; [lia|done].
  - rewrite lookup_app_r by (rewrite length_take; lia). apply lookup_replicate_2.
    rewrite length_take, length_drop. lia.
Qed.

Lemma image_byte_none b segs s a :
  Forall (disjoint_segments s) segs -> covers s a -> image_byte b segs a = None.
Proof.
  induction 1 as [|t segs Ht _ IH]; intros Ha; [done|]. cbn [image_byte].
  destruct (_ && _) eqn:E; [|by apply IH]. exfalso. apply (Ht a). split; [done|]. unfold covers. blia.
Qed.

Lemma load_ram_lookup A b segs m a :
  Forall word_segment segs -> Forall (valid_segment (Z.of_nat (length b))) segs ->
  Forall (fun s => sg_vaddr s + sg_memsz s < 2 ^ 32) segs ->
  List.ForallOrdPairs disjoint_segments segs ->
  load_ram A b segs m !! a = match image_byte b segs a with Some v => Some v | None => m !! a end.
Proof.
  intros Hw Hv Hb Hd. revert m. induction segs as [|s segs IH]; intros m; [done|].
  apply Forall_cons in Hw as [Hw Hws]. apply Forall_cons in Hv as [Hv Hvs].
  apply Forall_cons in Hb as [Hb Hbs]. inversion_clear Hd as [|? ? Hs Hds].
  change (load_ram A b (s :: segs) m)
    with (load_ram A b segs (store_at A (sg_vaddr s) (seg_bytes b s) m)).
  rewrite IH by done. cbn [image_byte].
  pose proof (seg_bytes_length b s ltac:(apply Hw) ltac:(apply Hw) Hv) as Hl.
  rewrite store_at_lookup, Hl by (rewrite ?Hl; destruct Hw; lia).
  destruct ((sg_vaddr s <=? a) && (a <? sg_vaddr s + sg_memsz s)) eqn:Ea.
  - assert (covers s a) as Ha by (unfold covers; blia).
    rewrite (image_byte_none b segs s a Hs Ha). case_decide; [|done]. by apply seg_bytes_lookup.
  - destruct (image_byte b segs a); [done|]. by case_decide; [blia|].
Qed.

(** ** The theorem *)

Section Loader.
Context {S W : Type} `{!storage S} `{!services W}.
Context (d : driver) `{!file_driver (driver_ops d)} `{!file_reader (driver_ops d)}.

(** The theorem below, with the segments the image lists. *)
Lemma load_exact (w : world S W) A path b arch umin umax :
  readable d (files w) path b -> sprg_has_prg_suffix path = true ->
  length (im_segments (image w)) = Z.to_nat SPRG_MAX_PHDRS -> 0 <= umin -> umax < 2 ^ 32 ->
  exists r w', sprg_core_load_file A (Some path) arch umin umax w = Some (r, w') /\
    (r = inr tt <-> runnable b arch umin umax) /\
    readable d (files w') path b /\
    outside_same umin umax (ram w) (ram w') /\
    (r = inr tt -> im_entry (image w') = entry_of b /\ active_segments (image w') = segments_of b /\
       forall a, ram w' !! a = match image_byte b (segments_of b) a with
                               | Some v => Some v | None => ram w !! a end).
Proof.
  intros Hr Hsuf H8 H0 Hmax. setoid_rewrite (runnable_valid b arch umin umax Hmax).
  apply wp_elim. unfold sprg_core_load_file. apply wp_guard_seq.
  { intros Hx. split; [split; [done|intros (? & _); blia]|]. by split_and!. }
  intros Hlt. apply (wp_seq _ _ _ _ _ (validate_spec d path b arch w Hr Hsuf H8)).
  { intros rc w1 (Hr1 & Hram & Hbad). split; [split; [done|by intros (_ & ? & _)]|].
    split_and!; try done. intros a _. by rewrite Hram. }
  intros _ w1 (Hr1 & Hram & [Hh Hv Ho] & Hact & Hen & _). apply (open_seq d w1 path b _ _ Hr1).
  intros id f Hop. set (w2 := World f (ram w1) (image w1)).
  apply wp_bind. apply (wp_intro _ _ (inr w2) w2); [done|].
  change (active_segments (image w2)) with (active_segments (image w1)). rewrite Hact.
  pose proof (vh_size _ _ Hh) as Hsz. unfold SPRG_MAX_FILE_SIZE in Hsz.
  apply (wp_seq _ _ _ _ _ (load_segments_spec d path b id A umin umax (segments_of b) w2 false
           Hop (segments_of_word b) Hv ltac:(lia) H0 Hmax)).
  { intros rc w' (Hout & Hn & Hr'). split; [split; [done|by intros (_ & _ & ? & _)]|].
    split_and!; try done. by rewrite <- Hram. }
  intros exec w3 (Hout & Hp & -> & ->). apply wp_bind, wp_attempt.
  destruct (close_spec d (set_ram (load_ram A b (segments_of b) (ram w2)) w2) path b id Hop)
    as (r & w4 & Ec & Hr4 & Hram4 & Him4).
  apply (wp_intro _ _ _ _ _ Ec). change (im_entry (image w2)) with (im_entry (image w1)). rewrite Hen.
  apply wp_guard. rewrite <- Hram, Hram4, Him4. cbn [orb].
  destruct (existsb (enters (entry_of b)) (segments_of b)) eqn:Ex.
  - split_and!; try done; [split; [intros _; split_and!; try done; blia|done]|].
    intros _. split; [done|]. split; [done|]. intros a. apply load_ram_lookup; try done; [apply segments_of_word| |].
    + eapply Forall_impl; [exact Hp|]. intros s []. lia.
    + apply (apart_iff umin umax); try done. apply segments_of_word.
  - split_and!; try done. split; [done|]. intros (_ & _ & _ & ?). congruence.
Qed.

(** C4: The program loader is exact, for every file system that honours the reader contract: started on a
    path with the suffix .prg that leads to a file with contents b, [sprg_core_load_file] returns; it
    reports success if and only if b is a runnable program (valid header for the architecture, loadable
    segments inside the file and the user range, pairwise disjoint, entry point in an executable segment);
    memory outside the user range is never changed, whatever the file holds; and after success memory holds
    at every address the byte of the segment that covers it, file contents then zeros, and is unchanged
    at every address no segment covers. The file is closed again in every case. *)
Theorem sprg_load_exact (w : world S W) A path b arch umin umax :
  readable d (files w) path b -> sprg_has_prg_suffix path = true ->
  length (im_segments (image w)) = Z.to_nat SPRG_MAX_PHDRS -> 0 <= umin -> umax < 2 ^ 32 ->
  exists r w', sprg_core_load_file A (Some path) arch umin umax w = Some (r, w') /\
    (r = inr tt <-> runnable b arch umin umax) /\
    readable d (files w') path b /\
    outside_same umin umax (ram w) (ram w') /\
    (r = inr tt -> im_entry (image w') = entry_of b /\
       forall a, ram w' !! a = match image_byte b (segments_of b) a with
                               | Some v => Some v | None => ram w !! a end).
Proof.
  intros Hr Hsuf H8 H0 Hmax. destruct (load_exact w A path b arch umin umax Hr Hsuf H8 H0 Hmax) as (r & w' & E & H1 & H2 & H3 & H4).
  exists r, w'. split_and!; try done; [apply H1..|]. intros Hok. by destruct (H4 Hok) as (? & _ & ?).
Qed.

End Loader.

(** ** A program on a machine without media *)

(** One executable segment at 384 KiB: two bytes of code and two zeros. *)
Definition demo_program : list Z :=
  SPRG_MAGIC ++ concat (le32 <$> [1; SPRG_ARCH_I386; 0x60000; 28; 1; 0]) ++
  concat (le32 <$> [SPRG_PHDR_LOAD; 60; 0x60000; 2; 4; 5; 4096; 0]) ++ [0xEB; 0xFE].

#[export] Instance diskless_reader : file_reader (driver_ops RAMFS_DRIVER) := ramfs_file_reader.

Definition demo_path : list Z := cstr "/a.prg".

Definition demo_open : (Z + Z) * Ramfs.ramfs :=
  default (inl 0, RamfsProps.RamfsProps.empty_fs)
    (default (fun _ _ s => Some (inl 0, s)) (d_open ramfs_driver) demo_path
       (Z.lor FS_O_CREAT (Z.lor FS_O_TRUNC FS_O_WRONLY)) RamfsProps.RamfsProps.empty_fs).

Definition demo_store : Ramfs.ramfs :=
  default demo_open.2
    (snd <$> default (fun _ _ _ s => Some (inl 0, s)) (d_write ramfs_driver) 2 0 demo_program demo_open.2).

Definition demo_files : fs Ramfs.ramfs console :=
  Fs (Some RAMFS_DRIVER) None FS_MEDIA_NONE demo_store (Console [] []) [slash].

Lemma demo_program_file :
  ramfs_ok demo_store /\ file_at (d := driver_ops RAMFS_DRIVER) demo_store demo_path = Some demo_program.
Proof.
  destruct (ramfs_replace_ok _ _ RamfsProps.RamfsProps.empty_fs demo_open.2 demo_store demo_path 2 demo_program 62
              eq_refl eq_refl) as (H1 & _ & H2 & _).
  - exists 0%nat. apply RamfsProps.RamfsProps.reset_wf.
  - repeat constructor; done.
  - done.
  - vm_compute. reflexivity.
  - vm_compute. reflexivity.
  - done.
Qed.

Lemma demo_readable : readable RAMFS_DRIVER demo_files demo_path demo_program.
Proof.
  destruct demo_program_file as [Hok Hf]. split; [|done].
  exists [], [cstr "a.prg"], demo_path, 0%nat.
  split; [split; [reflexivity|exact Hok|reflexivity|apply canonical_nil]|].
  split; [discriminate|]. split; [vm_compute; reflexivity|]. split; [vm_compute; reflexivity|].
  split; [unfold FS_SYMLINK_MAX_DEPTH; lia|]. split; [constructor|].
  change (store demo_files) with demo_store. split; [|exact Hf].
  unfold link_at. rewrite Hf. vm_compute. reflexivity.
Qed.

(** The demo program loads, and memory holds its code and its zeros. *)
Lemma sprg_load_exact_witness :
  exists w', sprg_core_load_file Mm.I386 (Some demo_path) SPRG_ARCH_I386 0x60000 0x70000
               (World demo_files ∅ zero_image) = Some (inr tt, w') /\
    ram w' !! 0x60001 = Some 0xFE /\ ram w' !! 0x60003 = Some 0 /\ ram w' !! 0x60004 = None.
Proof.
  destruct (sprg_load_exact RAMFS_DRIVER (World demo_files ∅ zero_image) Mm.I386 demo_path demo_program
              SPRG_ARCH_I386 0x60000 0x70000) as (r & w' & E & Hrun & _ & _ & Hm).
  - exact demo_readable.
  - reflexivity.
  - reflexivity.
  - lia.
  - lia.
  - assert (r = inr tt) as ->.
    { apply Hrun. apply runnable_valid; [lia|]. split; [lia|]. split.
      - split; [split; try (vm_compute; intuition congruence)| |].
        + intros i Hi. destruct i as [|[|[|[|?]]]]; [reflexivity..|lia].
        + repeat constructor; vm_compute; intuition congruence.
        + repeat constructor.
      - split; [repeat constructor; vm_compute; intuition congruence|reflexivity]. }
    destruct (Hm eq_refl) as [_ Hb]. exists w'. split; [exact E|]. rewrite !Hb.
    split; [reflexivity|split; reflexivity].
Defined.

End SprgProps.
