(* ===== verification/Block.v ===== *)
(** * Block devices

    [core/fs/block_core.c]: the bounds checks in front of a device's read and write
    functions.  What a device does is behind the class [block_device]; [disc] is the
    contract of a device that can be read, [plain_device] that of a device that stores
    what is written to it, and [disk] a device that keeps it. *)

From S2P Require Import Prelude FsTypes Vfs.
From stdpp Require Import base list option list_numbers gmap.
From Stdlib Require Import ZArith Lia ZifyBool.
Import FsTypes Vfs VfsWp.
Open Scope Z_scope.
Open Scope vfs_scope.

Module Block.

Definition SECTOR : Z := 512.

(** [block_device_t]: a null function pointer is [None]; the read function takes the
    first sector and the number of sectors and returns the bytes it stored. *)
Class block_device (D : Type) := BlockDevice {
  sector_size : D -> Z;
  sector_count : D -> Z;
  dev_read : D -> option (Z -> Z -> M D (list Z));
  dev_write : D -> option (Z -> Z -> list Z -> M D unit)
}.

Section Block.
Context {D : Type} `{!block_device D}.

Definition in_range (dev : D) (lba count : Z) : bool :=
  negb (negb (sector_count dev =? 0) &&
        ((sector_count dev <=? lba) || (u32 (sector_count dev - lba) <? count))).

Definition block_core_read (lba count : Z) : M D (list Z) :=
  dev <- get ;;
  read <- need (dev_read dev) FS_ERR_INVALID ;;
  guard (negb (count =? 0)) FS_ERR_INVALID ;;;
  guard (sector_size dev =? SECTOR) FS_ERR_INVALID ;;;
  guard (in_range dev lba count) FS_ERR_INVALID ;;;
  read lba count.

Definition block_core_write (lba count : Z) (buffer : list Z) : M D unit :=
  dev <- get ;;
  write <- need (dev_write dev) FS_ERR_READ_ONLY ;;
  guard (negb (count =? 0)) FS_ERR_READ_ONLY ;;;
  guard (sector_size dev =? SECTOR) FS_ERR_INVALID ;;;
  guard (in_range dev lba count) FS_ERR_INVALID ;;;
  write lba count buffer.

End Block.

(** ** The root device: [g_root_device] *)

Definition block_core_set_root_device {D} (dev : option D) (_ : option D) : option D := dev.
Definition block_core_get_root_device {D} (g_root_device : option D) : option D := g_root_device.

(** ** Devices that can be read *)

(** A device that reads its own sectors, in the states [ds_ok]. *)
Class disc (D : Type) `{!block_device D} := Disc {
  ds_ok : D -> Prop;
  sector : D -> Z -> list Z;
  ds_size d : ds_ok d -> sector_size d = SECTOR;
  ds_count d : ds_ok d -> 0 < sector_count d < 2 ^ 32;
  ds_length d lba : length (sector d lba) = 512%nat;
  ds_read d lba count : ds_ok d -> 0 <= lba -> 0 < count -> lba + count <= sector_count d ->
    exists read, dev_read d = Some read /\
      read lba count d = Some (inr (concat (sector d <$> seqZ lba count)), d)
}.

Section Disc.
Context {D : Type} `{!block_device D} `{!disc D}.

Lemma in_range_iff (d : D) lba count :
  ds_ok d -> 0 <= lba -> 0 < count -> in_range d lba count = (lba + count <=? sector_count d).
Proof.
  intros Hd Hl Hc. pose proof (ds_count d Hd). unfold in_range.
  destruct (Z.eqb_spec (sector_count d) 0); [lia|]. cbn [negb andb].
  destruct (Z.leb_spec (sector_count d) lba); cbn [orb negb]; [lia|].
  rewrite u32_small by lia. lia.
Qed.

(** A read of several sectors: all of them, or none. *)
Lemma read_run (d : D) lba count :
  ds_ok d -> 0 <= lba -> 0 < count -> block_core_read lba count d =
    Some (if lba + count <=? sector_count d then inr (concat (sector d <$> seqZ lba count))
          else inl FS_ERR_INVALID, d).
Proof.
  intros Hd Hl Hc. pose proof (ds_count d Hd). destruct (ds_read d 0 1) as (rd & Hrd & _); [done|lia..|].
  unfold block_core_read, need, get, guard, bind. rewrite Hrd, (proj2 (Z.eqb_neq count 0)) by lia.
  cbn. rewrite ds_size by done. cbn [SECTOR Z.eqb Pos.eqb]. rewrite in_range_iff by done.
  destruct (Z.leb_spec (lba + count) (sector_count d)); [|done]. cbn.
  destruct (ds_read d lba count) as (rd' & Hrd' & E); [done..|]. by assert (rd' = rd) as -> by congruence.
Qed.

End Disc.

(** ** Devices that store what is written *)

(** A writable device whose sectors are bytes. *)
Class plain_device (D : Type) `{!block_device D} `{!disc D} := PlainDevice {
  pd_ok (d : D) : ds_ok d;
  pd_bytes (d : D) lba : Forall (fun b => 0 <= b < 256) (sector d lba);
  pd_write (d : D) lba b : 0 <= lba < sector_count d -> length b = 512%nat ->
    Forall (fun b => 0 <= b < 256) b ->
    exists write d', dev_write d = Some write /\ write lba 1 b d = Some (inr tt, d') /\
      sector_count d' = sector_count d /\
      forall x, sector d' x = if decide (x = lba) then b else sector d x
}.

Section Plain.
Context {D : Type} `{!block_device D} `{!disc D} `{!plain_device D}.

Lemma pd_count (d : D) : 0 < sector_count d < 2 ^ 32.
Proof. apply ds_count, pd_ok. Qed.
Lemma pd_length (d : D) lba : length (sector d lba) = 512%nat.
Proof. apply ds_length. Qed.

Lemma read_plain (d : D) lba :
  0 <= lba -> block_core_read lba 1 d =
    Some (if lba <? sector_count d then inr (sector d lba) else inl FS_ERR_INVALID, d).
Proof.
  intros Hl. rewrite read_run by (apply pd_ok || lia). rewrite (seqZ_cons lba 1), seqZ_nil by lia. cbn.
  rewrite app_nil_r. by destruct (Z.leb_spec (lba + 1) (sector_count d)), (Z.ltb_spec lba (sector_count d)); try lia.
Qed.

Lemma write_plain (d : D) lba b :
  0 <= lba < sector_count d -> length b = 512%nat -> Forall (fun b => 0 <= b < 256) b ->
  exists d', block_core_write lba 1 b d = Some (inr tt, d') /\
    sector_count d' = sector_count d /\
    forall x, sector d' x = if decide (x = lba) then b else sector d x.
Proof.
  intros Hl Hb Hbytes. destruct (pd_write d lba b Hl Hb Hbytes) as (wr & d' & Hwr & E & Hd').
  exists d'. split; [|done].
  unfold block_core_write, need, get, guard, bind. rewrite Hwr. cbn. rewrite ds_size by apply pd_ok.
  cbn [SECTOR Z.eqb Pos.eqb]. rewrite in_range_iff by (apply pd_ok || lia).
  destruct (Z.leb_spec (lba + 1) (sector_count d)); [done|lia].
Qed.

Lemma write_plain_out (d : D) lba b :
  sector_count d <= lba -> block_core_write lba 1 b d = Some (inl FS_ERR_INVALID, d).
Proof.
  intros Hl. pose proof (pd_count d).
  destruct (pd_write d 0 (sector d 0)) as (wr & d' & Hwr & _); [lia|apply pd_length|apply pd_bytes|].
  unfold block_core_write, need, get, guard, bind. rewrite Hwr. cbn. rewrite ds_size by apply pd_ok.
  cbn [SECTOR Z.eqb Pos.eqb]. rewrite in_range_iff by (apply pd_ok || lia).
  destruct (Z.leb_spec (lba + 1) (sector_count d)); [lia|done].
Qed.

End Plain.

(** ** A disk in memory *)

(** Written sectors; the others are zero. *)
Record disk := Disk { d_count : positive; d_data : gmap Z (list Z) }.

(** A sector of exactly 512 bytes. *)
Definition as_sector (l : list Z) : list Z := take 512 ((u8 <$> l) ++ replicate 512 0).

Definition disk_sector (d : disk) (lba : Z) : list Z := as_sector (default [] (d_data d !! lba)).

Definition disk_sectors (d : disk) : Z := Z.min (Z.pos (d_count d)) (2 ^ 32 - 1).

Definition disk_write (lba : Z) (b : list Z) (d : disk) : disk :=
  Disk (d_count d) (<[lba := b]> (d_data d)).

#[export] Instance disk_device : block_device disk := {|
  sector_size _ := SECTOR;
  sector_count := disk_sectors;
  dev_read _ := Some (fun lba count d =>
    Some (inr (concat (disk_sector d <$> seqZ lba count)), d));
  dev_write _ := Some (fun lba count b d =>
    Some (inr tt, foldr (fun i d => disk_write (lba + Z.of_nat i)
                                      (take 512 (drop (512 * i) b)) d) d (seq 0 (Z.to_nat count))))
|}.

Lemma as_sector_length l : length (as_sector l) = 512%nat.
Proof. unfold as_sector. rewrite length_take, length_app, length_fmap, length_replicate. lia. Qed.

Lemma as_sector_bytes l : Forall (fun b => 0 <= b < 256) (as_sector l).
Proof.
  unfold as_sector. apply Forall_take, Forall_app. split.
  - apply Forall_fmap, Forall_forall. intros x _. apply u8_range.
  - apply Forall_replicate. lia.
Qed.

Lemma as_sector_id l : length l = 512%nat -> Forall (fun b => 0 <= b < 256) l -> as_sector l = l.
Proof.
  intros Hl Hb. unfold as_sector. rewrite take_app_le by (rewrite length_fmap; lia).
  rewrite take_ge by (rewrite length_fmap; lia). clear Hl.
  induction Hb as [|x l Hx _ IH]; [done|]. csimpl. by rewrite IH, u8_small.
Qed.

#[export, program] Instance disk_disc : disc disk := {| ds_ok _ := True; sector := disk_sector |}.
Next Obligation. done. Qed.
Next Obligation. intros d _. unfold sector_count, disk_device, disk_sectors. lia. Qed.
Next Obligation. intros. apply as_sector_length. Qed.
Next Obligation. intros d lba count _ _ _ _. eexists. split; [reflexivity|]. done. Qed.

#[export, program] Instance plain_disk : plain_device disk := {| pd_ok _ := I |}.
Next Obligation. intros. apply as_sector_bytes. Qed.
Next Obligation.
  intros d lba b _ Hl Hb. eexists _, (disk_write lba b d). split; [reflexivity|]. cbn beta.
  change (Z.to_nat 1) with 1%nat. cbn [seq foldr].
  rewrite (Z.add_0_r lba : lba + Z.of_nat 0 = lba), Nat.mul_0_r, drop_0, take_ge by lia.
  split; [done|]. split; [done|].
  intros x. change (disk_sector (disk_write lba b d) x = if decide (x = lba) then b else disk_sector d x).
  unfold disk_sector. cbn [d_data disk_write]. case_decide as Hx.
  - subst. rewrite lookup_insert_eq. by apply as_sector_id.
  - by rewrite lookup_insert_ne.
Qed.

End Block.
