(* ===== verification/Fat12Name.v ===== *)
(** * Names on a FAT12 volume

    The string functions of [core/fs/fat12_core.c]: little-endian fields, names in the
    8.3 form of directory entries, long file names, and the split of a path into its
    directory and its last component. *)

From S2P Require Import Prelude FsTypes.
From stdpp Require Import base list option list_numbers.
From Stdlib Require Import ZArith Lia ZifyBool.
Import FsTypes.
Open Scope Z_scope.

Module Fat12Name.

(** ** Fields *)

Definition fat12_le16 (p : list Z) (i : nat) : Z :=
  Z.lor (char_at p i) (Z.shiftl (char_at p (i + 1)) 8).

Definition fat12_le32 (p : list Z) (i : nat) : Z :=
  Z.lor (Z.lor (Z.lor (char_at p i) (Z.shiftl (char_at p (i + 1)) 8))
               (Z.shiftl (char_at p (i + 2)) 16))
        (Z.shiftl (char_at p (i + 3)) 24).

(** Two bytes, low byte first. *)
Definition fat12_put_le16 (value : Z) : list Z := [Z.land value 0xFF; Z.land (Z.shiftr value 8) 0xFF].

(** ** Comparison *)

Fixpoint fat12_streq (a b : list Z) : bool :=
  match a, b with
  | x :: a', y :: b' => if negb (x =? y) then false else fat12_streq a' b'
  | [], [] => true
  | _, _ => false
  end.

Definition fat12_lower (c : Z) : Z := if (65 <=? c) && (c <=? 90) then c + 32 else c.
Definition upper (c : Z) : Z := if (97 <=? c) && (c <=? 122) then c - 32 else c.

Definition tilde : Z := 126.

(** [while (stored[alias_len] != 0 && stored[alias_len] != '~') ++alias_len;] *)
Fixpoint alias_len (stored : list Z) : nat :=
  match stored with
  | c :: r => if c =? tilde then O else S (alias_len r)
  | [] => O
  end.

Definition fat12_short_alias_eq (stored requested : list Z) : bool :=
  let n := alias_len stored in
  if negb (char_at stored n =? tilde) || (n =? 0)%nat || (char_at requested n =? 0) then false
  else if negb (forallb (fun c => (48 <=? c) && (c <=? 57)) (drop (S n) stored)) then false
  else forallb (fun i => fat12_lower (char_at stored i) =? fat12_lower (char_at requested i)) (seq 0 n).

(** The comparison loop: both strings ended together. *)
Fixpoint same_name (a b : list Z) : bool :=
  match a, b with
  | [], [] => true
  | x :: a', y :: b' => if negb (fat12_lower x =? fat12_lower y) then false else same_name a' b'
  | _, _ => false
  end.

Definition fat12_name_eq (a b : list Z) : bool :=
  if same_name a b then true else fat12_short_alias_eq a b.

Fixpoint fat12_copy_loop (i cap : Z) (src : list Z) : list Z :=
  match src with
  | [] => []
  | c :: r => if i + 1 <? cap then c :: fat12_copy_loop (i + 1) cap r else []
  end.

Definition fat12_copy_string (cap : Z) (src : list Z) : list Z := fat12_copy_loop 0 cap src.

(** ** 8.3 names *)

Definition space : Z := 32.
Definition period : Z := 46.

(** [while (end > lo && entry[end - 1] == ' ') --end;] *)
Fixpoint trim_end (entry : list Z) (lo end_ : nat) : nat :=
  match end_ with
  | O => O
  | S e => if (lo <? end_)%nat && (char_at entry e =? space) then trim_end entry lo e else end_
  end.

(** [n] characters from index [i], as long as they fit. *)
Fixpoint put_lower (entry : list Z) (n i : nat) (out : list Z) : list Z :=
  match n with
  | O => out
  | S n => if Z.of_nat (length out) + 1 <? FS_NAME_CAP
           then put_lower entry n (S i) (out ++ [fat12_lower (char_at entry i)]) else out
  end.

Definition fat12_copy_83_name (entry : list Z) : list Z :=
  let e := trim_end entry 0 8 in
  let out := put_lower entry e 0 [] in
  let e := trim_end entry 8 11 in
  if (8 <? e)%nat && (Z.of_nat (length out) + 1 <? FS_NAME_CAP)
  then put_lower entry (e - 8) 8 (out ++ [period]) else out.

Definition blank83 : list Z := replicate 11 space.

Fixpoint dir_name_loop (len : nat) (name : list Z) (out : list Z) : Z + list Z :=
  match name with
  | [] => inr out
  | c :: r =>
      if (c =? slash) || (c =? period) || (8 <=? len)%nat then inl FS_ERR_INVALID
      else dir_name_loop (S len) r (<[len := upper c]> out)
  end.

Definition fat12_make_83_dir_name (name : list Z) : Z + list Z :=
  if (length name =? 0)%nat then inl FS_ERR_INVALID else dir_name_loop 0 name blank83.

Fixpoint file_name_loop (base_len ext_len : nat) (in_ext : bool) (name : list Z) (out : list Z)
    : Z + list Z :=
  match name with
  | [] => if (base_len =? 0)%nat then inl FS_ERR_INVALID else inr out
  | c :: r =>
      if c =? slash then inl FS_ERR_INVALID
      else if c =? period then
        if in_ext || (base_len =? 0)%nat || (length r =? 0)%nat then inl FS_ERR_INVALID
        else file_name_loop base_len ext_len true r out
      else if negb in_ext then
        if (8 <=? base_len)%nat then inl FS_ERR_INVALID
        else file_name_loop (S base_len) ext_len in_ext r (<[base_len := upper c]> out)
      else
        if (3 <=? ext_len)%nat then inl FS_ERR_INVALID
        else file_name_loop base_len (S ext_len) in_ext r (<[(8 + ext_len)%nat := upper c]> out)
  end.

Definition fat12_make_83_file_name (name : list Z) : Z + list Z :=
  if (length name =? 0)%nat || (char_at name 0 =? period) then inl FS_ERR_INVALID
  else file_name_loop 0 0 false name blank83.

(** ** Long file names

    The buffer of the caller is the array [lfn]; it is read only while [valid] is set,
    which starts with an entry that clears it, so its initial contents do not matter. *)

Record lfn := Lfn { lfn_name : list Z; lfn_valid : bool }.

Definition no_lfn : lfn := Lfn (replicate (Z.to_nat FS_NAME_CAP) 0) false.

Definition fat12_lfn_clear (l : lfn) : lfn := Lfn (<[0%nat := 0]> (lfn_name l)) false.

Definition fat12_lfn_copy_char (out : list Z) (pos : nat) (value : Z) : list Z :=
  if FS_NAME_CAP <=? Z.of_nat pos + 1 then out
  else if value =? 0 then <[pos := 0]> out
  else if value =? 0xFFFF then out
  else if value <? 0x80 then <[pos := value]> out
  else <[pos := 63]> out.

Definition lfn_offsets : list nat := [1; 3; 5; 7; 9; 14; 16; 18; 20; 22; 24; 28; 30]%nat.

Fixpoint lfn_chars (entry : list Z) (base i : nat) (offsets : list nat) (name : list Z) : list Z :=
  match offsets with
  | [] => name
  | o :: os =>
      if negb (Z.of_nat (base + i) + 1 <? FS_NAME_CAP) then name
      else
        let ch := fat12_le16 entry o in
        let name := fat12_lfn_copy_char name (base + i) ch in
        if ch =? 0 then name else lfn_chars entry base (S i) os name
  end.

Definition fat12_lfn_read_entry (l : lfn) (entry : list Z) : lfn :=
  let seq := Z.land (char_at entry 0) 0x1F in
  if seq =? 0 then fat12_lfn_clear l
  else
    let first := negb (Z.land (char_at entry 0) 0x40 =? 0) in
    if negb first && negb (lfn_valid l) then l
    else
      let name := if first then replicate (Z.to_nat FS_NAME_CAP) 0 else lfn_name l in
      let base := (seq - 1) * 13 in
      if FS_NAME_CAP <=? base then Lfn name true
      else Lfn (lfn_chars entry (Z.to_nat base) 0 lfn_offsets name) true.

(** The string an array holds. *)
Fixpoint string_of (a : list Z) : list Z :=
  match a with c :: r => if c =? 0 then [] else c :: string_of r | [] => [] end.

Definition fat12_copy_display_name (entry : list Z) (l : lfn) : list Z :=
  if lfn_valid l && negb (char_at (lfn_name l) 0 =? 0)
  then fat12_copy_string FS_NAME_CAP (string_of (lfn_name l))
  else string_of (fat12_copy_83_name entry).

(** ** Paths *)

(** The index of the last slash and the length; [None] when the path is too long. *)
Fixpoint scan_path (len slash_at : nat) (path : list Z) : option (nat * nat) :=
  match path with
  | [] => Some (slash_at, len)
  | c :: r => if FS_PATH_CAP <=? Z.of_nat len + 1 then None
              else scan_path (S len) (if c =? slash then len else slash_at) r
  end.

(** The directory part and the last component. *)
Definition fat12_split_create_path (path : list Z) : Z + (list Z * list Z) :=
  if negb (char_at path 0 =? slash) then inl FS_ERR_INVALID
  else match scan_path 0 0 path with
       | None => inl FS_ERR_INVALID
       | Some (s, len) =>
           if (len <=? 1)%nat || (s =? len - 1)%nat then inl FS_ERR_INVALID
           else
             let parent := if (s =? 0)%nat then [slash] else take s path in
             let name := drop (S s) path in
             if FS_NAME_CAP <=? Z.of_nat (length name) then inl FS_ERR_INVALID
             else inr (parent, name)
       end.

End Fat12Name.
