(* ===== verification/Fat12.v ===== *)
(** * FAT12 volumes

    The part of [core/fs/fat12_core.c] that works on a block device: the parameter
    block, the file allocation table, directory scans, cluster allocation, and
    creating, writing and removing files and directories.  The two sector buffers of
    the file are filled before every use, so they are not part of the state. *)

From S2P Require Import Prelude FsTypes Vfs Block Fat12Name.
From stdpp Require Import base list option list_numbers.
From Stdlib Require Import ZArith Lia ZifyBool.
Import FsTypes Vfs Block Fat12Name.
Open Scope Z_scope.
Open Scope vfs_scope.

Module Fat12.

Definition FAT12_ATTR_VOLUME_ID : Z := 0x08.
Definition FAT12_ATTR_DIRECTORY : Z := 0x10.
Definition FAT12_ATTR_LONG_NAME : Z := 0x0F.
Definition FAT12_ENTRY_FREE : Z := 0x00.
Definition FAT12_ENTRY_DELETED : Z := 0xE5.
Definition FAT12_CLUSTER_FREE : Z := 0x000.
Definition FAT12_CLUSTER_EOC : Z := 0xFFF.
(** Values from here on end a chain. *)
Definition CHAIN_END : Z := 0xFF8.

(** A chain that is longer than the number of 12-bit values visits a cluster twice. *)
Definition CHAIN_FUEL : nat := Z.to_nat 4100.

(** ** The parameter block *)

Record fat12_bpb := Bpb {
  bytes_per_sector : Z; sectors_per_cluster : Z; reserved_sectors : Z; fat_count : Z;
  root_entry_count : Z; sectors_per_fat : Z; root_dir_lba : Z; root_dir_sectors : Z
}.

Definition zero_bpb : fat12_bpb := Bpb 0 0 0 0 0 0 0 0.

(** The code and the contents of [*out]: the last two fields are set on success. *)
Definition fat12_parse_bpb (s : list Z) (out : fat12_bpb) : Z * fat12_bpb :=
  let b := Bpb (fat12_le16 s 11) (char_at s 13) (fat12_le16 s 14) (char_at s 16)
               (fat12_le16 s 17) (fat12_le16 s 22) (root_dir_lba out) (root_dir_sectors out) in
  let total16 := fat12_le16 s 19 in
  let total32 := fat12_le32 s 32 in
  if negb (bytes_per_sector b =? 512) || (sectors_per_cluster b =? 0) || (reserved_sectors b =? 0)
     || (fat_count b =? 0) || (root_entry_count b =? 0) || (sectors_per_fat b =? 0)
     || ((total16 =? 0) && (total32 =? 0))
  then (FS_ERR_INVALID, b)
  else (FS_OK, Bpb (bytes_per_sector b) (sectors_per_cluster b) (reserved_sectors b) (fat_count b)
                   (root_entry_count b) (sectors_per_fat b)
                   (u32 (reserved_sectors b + fat_count b * sectors_per_fat b))
                   (u32 (root_entry_count b * 32 + 511) / 512)).

Definition fat12_image_cluster_to_lba (bpb : fat12_bpb) (cluster : Z) : Z :=
  if cluster <? 2 then root_dir_lba bpb
  else u32 (root_dir_lba bpb + root_dir_sectors bpb + (cluster - 2) * sectors_per_cluster bpb).

(** ** Directory entries *)

Definition entry_at (sec : list Z) (i : nat) : list Z := take 32 (drop (32 * i) sec).

(** Sector and byte offset: [fat12_entry_ref_t]. *)
Definition entry_ref : Type := Z * Z.

(** The 32 bytes of an entry. *)
Definition fat12_image_write_dir_entry (name83 : list Z) (attr cluster size : Z) : list Z :=
  take 11 name83 ++ [attr] ++ replicate 14 0 ++ fat12_put_le16 cluster ++
  [Z.land size 0xFF; Z.land (Z.shiftr size 8) 0xFF; Z.land (Z.shiftr size 16) 0xFF;
   Z.land (Z.shiftr size 24) 0xFF].

Section Device.
Context {D : Type} `{!block_device D}.

Definition fat12_dev_total_clusters (bpb : fat12_bpb) (dev : D) : Z :=
  if sectors_per_cluster bpb =? 0 then 0
  else
    let data_lba := u32 (root_dir_lba bpb + root_dir_sectors bpb) in
    if sector_count dev <=? data_lba then 0
    else (sector_count dev - data_lba) / sectors_per_cluster bpb.

(** ** The allocation table *)

Definition fat12_dev_get_fat_entry (bpb : fat12_bpb) (cluster : Z) : M D Z :=
  let offset := u32 (cluster + cluster / 2) in
  let sector := u32 (reserved_sectors bpb + offset / 512) in
  let byte_offset := offset mod 512 in
  s <- block_core_read sector 1 ;;
  let lo := char_at s (Z.to_nat byte_offset) in
  hi <- (if byte_offset =? 511
         then s2 <- block_core_read (u32 (sector + 1)) 1 ;; ret (char_at s2 0)
         else ret (char_at s (Z.to_nat (byte_offset + 1)))) ;;
  let value := u16 (Z.lor lo (Z.shiftl hi 8)) in
  ret (if negb (Z.land cluster 1 =? 0) then Z.shiftr value 4 else Z.land value 0x0FFF).

(** The two bytes that hold an entry. *)
Definition low_byte (cluster value old : Z) : Z :=
  if negb (Z.land cluster 1 =? 0)
  then u8 (Z.lor (Z.land old 0x0F) (Z.land (Z.shiftl value 4) 0xF0))
  else u8 (Z.land value 0xFF).
Definition high_byte (cluster value old : Z) : Z :=
  if negb (Z.land cluster 1 =? 0)
  then u8 (Z.land (Z.shiftr value 4) 0xFF)
  else u8 (Z.lor (Z.land old 0xF0) (Z.land (Z.shiftr value 8) 0x0F)).

(** One copy of the table, whose first sector of the entry is [sector]. *)
Definition set_one_fat (sector byte_offset cluster value : Z) : M D unit :=
  let i := Z.to_nat byte_offset in
  s <- block_core_read sector 1 ;;
  let s := <[i := low_byte cluster value (char_at s i)]> s in
  if byte_offset =? 511 then
    block_core_write sector 1 s ;;;
    s2 <- block_core_read (u32 (sector + 1)) 1 ;;
    block_core_write (u32 (sector + 1)) 1 (<[0%nat := high_byte cluster value (char_at s2 0)]> s2)
  else
    let j := Z.to_nat (byte_offset + 1) in
    block_core_write sector 1 (<[j := high_byte cluster value (char_at s j)]> s).

Fixpoint set_fats (n : nat) (fat_index : Z) (bpb : fat12_bpb) (fat_offset cluster value : Z) : M D unit :=
  match n with
  | O => ret tt
  | S n =>
      set_one_fat (u32 (reserved_sectors bpb + fat_index * sectors_per_fat bpb + fat_offset / 512))
                  (fat_offset mod 512) cluster value ;;;
      set_fats n (fat_index + 1) bpb fat_offset cluster value
  end.

Definition fat12_dev_set_fat_entry (bpb : fat12_bpb) (cluster value : Z) : M D unit :=
  set_fats (Z.to_nat (fat_count bpb)) 0 bpb (u32 (cluster + cluster / 2)) cluster (Z.land value 0x0FFF).

(** ** Directory scans

    The loops over the sectors of a directory and the 16 entries of a sector.  A step
    either goes on with a new accumulator or ends the scan with a result. *)

Section Scan.
Context {A R : Type}.
Variable step : A -> Z -> nat -> list Z -> A + R.

Fixpoint scan_entries (n i : nat) (lba : Z) (sec : list Z) (a : A) : A + R :=
  match n with
  | O => inl a
  | S n => match step a lba i (entry_at sec i) with
           | inl a => scan_entries n (S i) lba sec a
           | inr r => inr r
           end
  end.

Fixpoint scan_sectors (n : nat) (lba : Z) (a : A) : M D (A + R) :=
  match n with
  | O => ret (inl a)
  | S n =>
      sec <- block_core_read lba 1 ;;
      match scan_entries 16 0 lba sec a with
      | inl a => scan_sectors n (u32 (lba + 1)) a
      | inr r => ret (inr r)
      end
  end.

(** Along the chain of a directory, [next] reads the table. *)
Fixpoint scan_chain (fuel : nat) (bpb : fat12_bpb) (next : Z -> M D Z) (cluster : Z) (a : A)
    : M D (A + R) :=
  if negb (cluster <? CHAIN_END) then ret (inl a)
  else match fuel with
       | O => fun _ => None
       | S fuel =>
           r <- scan_sectors (Z.to_nat (sectors_per_cluster bpb))
                             (fat12_image_cluster_to_lba bpb cluster) a ;;
           match r with
           | inr r => ret (inr r)
           | inl a => c <- next cluster ;; scan_chain fuel bpb next c a
           end
       end.

Definition scan_dir (bpb : fat12_bpb) (next : Z -> M D Z) (dir_cluster : Z) (a : A) : M D (A + R) :=
  if dir_cluster =? 0 then scan_sectors (Z.to_nat (root_dir_sectors bpb)) (root_dir_lba bpb) a
  else scan_chain CHAIN_FUEL bpb next dir_cluster a.

End Scan.

(** What a search finds: first cluster, attributes and place of the entry. *)
Definition found : Type := Z * Z * entry_ref.

Definition find_step (name83 : list Z) (_ : unit) (lba : Z) (i : nat) (e : list Z)
    : unit + (Z + found) :=
  let first := char_at e 0 in
  let attr := char_at e 11 in
  if first =? FAT12_ENTRY_FREE then inr (inl FS_ERR_NOT_FOUND)
  else if (first =? FAT12_ENTRY_DELETED) || negb (Z.land attr FAT12_ATTR_VOLUME_ID =? 0)
          || (attr =? FAT12_ATTR_LONG_NAME) then inl tt
  else if bool_decide (take 11 e = name83)
  then inr (inr (fat12_le16 e 26, attr, (lba, Z.of_nat (i * 32))))
  else inl tt.

Definition fat12_dev_find_entry (bpb : fat12_bpb) (dir_cluster : Z) (name83 : list Z) : M D found :=
  r <- scan_dir (find_step name83) bpb (fat12_dev_get_fat_entry bpb) dir_cluster tt ;;
  match r with inl _ => fail FS_ERR_NOT_FOUND | inr x => lift x end.

(** The components of [path], each a directory. *)
Fixpoint dev_resolve_loop (fuel : nat) (bpb : fat12_bpb) (cluster : Z) (cursor : list Z) : M D Z :=
  match cursor with
  | [] => ret cluster
  | _ =>
      match fuel with
      | O => fun _ => None
      | S fuel =>
          let '(component, rest) := span cursor in
          guard (negb (FS_NAME_CAP <=? Z.of_nat (length component))) FS_ERR_INVALID ;;;
          if (length component =? 0)%nat then dev_resolve_loop fuel bpb cluster (skip_slashes rest)
          else
            name83 <- lift (fat12_make_83_dir_name component) ;;
            f <- fat12_dev_find_entry bpb cluster name83 ;;
            guard (negb (Z.land (f.1.2) FAT12_ATTR_DIRECTORY =? 0)) FS_ERR_NOT_DIR ;;;
            dev_resolve_loop fuel bpb (f.1.1) (skip_slashes rest)
      end
  end.

Definition fat12_dev_resolve_dir (bpb : fat12_bpb) (path : list Z) : M D Z :=
  guard (char_at path 0 =? slash) FS_ERR_INVALID ;;;
  dev_resolve_loop (S (length path)) bpb 0 (skip_slashes path).

Definition free_step (_ : unit) (lba : Z) (i : nat) (e : list Z) : unit + entry_ref :=
  let first := char_at e 0 in
  if (first =? FAT12_ENTRY_FREE) || (first =? FAT12_ENTRY_DELETED)
  then inr (lba, Z.of_nat (i * 32)) else inl tt.

Definition fat12_dev_find_free_entry (bpb : fat12_bpb) (dir_cluster : Z) : M D entry_ref :=
  r <- scan_dir free_step bpb (fat12_dev_get_fat_entry bpb) dir_cluster tt ;;
  match r with inl _ => fail FS_ERR_NO_SPACE | inr ref => ret ref end.

(** ** Writing entries and clusters *)

Definition fat12_dev_write_entry (ref : entry_ref) (name83 : list Z) (attr cluster size : Z) : M D unit :=
  guard (negb (480 <? ref.2)) FS_ERR_INVALID ;;;
  s <- block_core_read ref.1 1 ;;
  let o := Z.to_nat ref.2 in
  block_core_write ref.1 1
    (take o s ++ fat12_image_write_dir_entry name83 attr cluster size ++ drop (o + 32) s).

Definition fat12_dev_zero_sector (lba : Z) : M D unit := block_core_write lba 1 (replicate 512 0).

Fixpoint zero_sectors (n : nat) (lba : Z) : M D unit :=
  match n with
  | O => ret tt
  | S n => fat12_dev_zero_sector lba ;;; zero_sectors n (u32 (lba + 1))
  end.

(** The clusters [cluster], [cluster + 1], ...: [n] of them. *)
Fixpoint alloc_loop (n : nat) (bpb : fat12_bpb) (cluster : Z) : M D Z :=
  match n with
  | O => ret 0
  | S n =>
      v <- attempt (fat12_dev_get_fat_entry bpb cluster) ;;
      match v with
      | inl _ => ret 0
      | inr value =>
          if value =? FAT12_CLUSTER_FREE then
            r <- attempt (fat12_dev_set_fat_entry bpb cluster FAT12_CLUSTER_EOC) ;;
            match r with
            | inl _ => ret 0
            | inr _ =>
                z <- attempt (zero_sectors (Z.to_nat (sectors_per_cluster bpb))
                                           (fat12_image_cluster_to_lba bpb cluster)) ;;
                match z with
                | inl _ => attempt (fat12_dev_set_fat_entry bpb cluster FAT12_CLUSTER_FREE) ;;; ret 0
                | inr _ => ret cluster
                end
            end
          else alloc_loop n bpb (cluster + 1)
      end
  end.

(** The lowest free cluster, or 0. *)
Definition fat12_dev_alloc_cluster (bpb : fat12_bpb) : M D Z :=
  dev <- get ;;
  alloc_loop (Z.to_nat (fat12_dev_total_clusters bpb dev)) bpb 2.

(** A freed cluster reads 0, so the walk ends even on a cyclic chain. *)
Fixpoint free_loop (fuel : nat) (bpb : fat12_bpb) (cluster : Z) : M D unit :=
  if negb ((2 <=? cluster) && (cluster <? CHAIN_END)) then ret tt
  else match fuel with
       | O => fun _ => None
       | S fuel =>
           next <- fat12_dev_get_fat_entry bpb cluster ;;
           fat12_dev_set_fat_entry bpb cluster FAT12_CLUSTER_FREE ;;;
           free_loop fuel bpb next
       end.

Definition fat12_dev_free_cluster_chain (bpb : fat12_bpb) (cluster : Z) : M D unit :=
  free_loop CHAIN_FUEL bpb cluster.

(** ** Operations on paths *)

(** The first lines of every operation: parameter block, directory and 8.3 name. *)
Definition fat12_locate (make_83 : list Z -> Z + list Z) (path : list Z)
    : M D (fat12_bpb * Z * list Z) :=
  s <- block_core_read 0 1 ;;
  let '(rc, bpb) := fat12_parse_bpb s zero_bpb in
  guard (rc =? FS_OK) rc ;;;
  p <- lift (fat12_split_create_path path) ;;
  leaf83 <- lift (make_83 (snd p)) ;;
  parent_cluster <- fat12_dev_resolve_dir bpb (fst p) ;;
  ret (bpb, parent_cluster, leaf83).

Definition dot83 : list Z := period :: replicate 10 space.
Definition dotdot83 : list Z := period :: period :: replicate 9 space.

Definition fat12_core_create_dir_on_device (path : list Z) : M D unit :=
  l <- fat12_locate fat12_make_83_dir_name path ;;
  let '(bpb, parent_cluster, leaf83) := l in
  f <- attempt (fat12_dev_find_entry bpb parent_cluster leaf83) ;;
  match f with
  | inr f => guard (negb (Z.land (f.1.2) FAT12_ATTR_DIRECTORY =? 0)) FS_ERR_EXISTS
  | inl rc =>
      guard (rc =? FS_ERR_NOT_FOUND) rc ;;;
      parent_ref <- fat12_dev_find_free_entry bpb parent_cluster ;;
      new_cluster <- fat12_dev_alloc_cluster bpb ;;
      guard (negb (new_cluster =? 0)) FS_ERR_NO_SPACE ;;;
      r <- attempt (fat12_dev_write_entry parent_ref leaf83 FAT12_ATTR_DIRECTORY (u16 new_cluster) 0) ;;
      match r with
      | inl rc => attempt (fat12_dev_free_cluster_chain bpb new_cluster) ;;; fail rc
      | inr _ =>
          let lba := fat12_image_cluster_to_lba bpb new_cluster in
          fat12_dev_write_entry (lba, 0) dot83 FAT12_ATTR_DIRECTORY (u16 new_cluster) 0 ;;;
          fat12_dev_write_entry (lba, 32) dotdot83 FAT12_ATTR_DIRECTORY (u16 parent_cluster) 0
      end
  end.

(** The sectors of one cluster; the result is the data still to be written. *)
Fixpoint write_sectors (n : nat) (lba : Z) (data : list Z) : M D (list Z) :=
  match n, data with
  | S n, _ :: _ =>
      block_core_write lba 1 (take 512 (data ++ replicate 512 0)) ;;;
      write_sectors n (u32 (lba + 1)) (drop 512 data)
  | _, _ => ret data
  end.

(** The main loop: [data] is what is still to be written, the result is the first
    cluster.  Every turn writes at least one byte. *)
Fixpoint write_clusters (fuel : nat) (bpb : fat12_bpb) (on_full : M D unit)
    (first_cluster prev_cluster : Z) (data : list Z) : M D Z :=
  match data with
  | [] => ret first_cluster
  | _ =>
      match fuel with
      | O => fun _ => None
      | S fuel =>
          cluster <- fat12_dev_alloc_cluster bpb ;;
          if cluster =? 0 then
            (if negb (first_cluster =? 0)
             then attempt (fat12_dev_free_cluster_chain bpb first_cluster) ;;; ret tt else ret tt) ;;;
            attempt on_full ;;;
            fail FS_ERR_NO_SPACE
          else
            let first_cluster := if first_cluster =? 0 then cluster else first_cluster in
            (if negb (prev_cluster =? 0)
             then fat12_dev_set_fat_entry bpb prev_cluster (u16 cluster) else ret tt) ;;;
            rest <- write_sectors (Z.to_nat (sectors_per_cluster bpb))
                                  (fat12_image_cluster_to_lba bpb cluster) data ;;
            write_clusters fuel bpb on_full first_cluster cluster rest
      end
  end.

Definition fat12_core_write_file_on_device (path data : list Z) : M D unit :=
  l <- fat12_locate fat12_make_83_file_name path ;;
  let '(bpb, parent_cluster, leaf83) := l in
  f <- attempt (fat12_dev_find_entry bpb parent_cluster leaf83) ;;
  p <- match f with
       | inr (old_cluster, attr, ref) =>
           guard (Z.land attr FAT12_ATTR_DIRECTORY =? 0) FS_ERR_EXISTS ;;;
           (if negb (old_cluster =? 0) then fat12_dev_free_cluster_chain bpb old_cluster else ret tt) ;;;
           ret (ref, true)
       | inl rc =>
           guard (rc =? FS_ERR_NOT_FOUND) rc ;;;
           ref <- fat12_dev_find_free_entry bpb parent_cluster ;;
           ret (ref, false)
       end ;;
  let '(ref, have_entry) := p in
  first_cluster <- write_clusters (length data) bpb
    (if have_entry : bool then fat12_dev_write_entry ref leaf83 0 0 0 else ret tt) 0 0 data ;;
  fat12_dev_write_entry ref leaf83 0 (u16 first_cluster) (Z.of_nat (length data)).

(** The entry is marked deleted before its chain is freed. *)
Definition delete_entry (ref : entry_ref) : M D unit :=
  s <- block_core_read ref.1 1 ;;
  block_core_write ref.1 1 (<[Z.to_nat ref.2 := FAT12_ENTRY_DELETED]> s).

Definition fat12_core_unlink_on_device (path : list Z) : M D unit :=
  l <- fat12_locate fat12_make_83_file_name path ;;
  let '(bpb, parent_cluster, leaf83) := l in
  f <- fat12_dev_find_entry bpb parent_cluster leaf83 ;;
  let '(first_cluster, attr, ref) := f in
  guard (Z.land attr FAT12_ATTR_DIRECTORY =? 0) FS_ERR_IS_DIR ;;;
  delete_entry ref ;;;
  if negb (first_cluster =? 0) then fat12_dev_free_cluster_chain bpb first_cluster else ret tt.

End Device.

End Fat12.
