(* ===== verification/Fat12Driver.v ===== *)
(** * The FAT12 driver

    The mounted volume of [core/fs/fat12_core.c]: the variables of the file, lookup with
    long names and aliases, the working directory, open files, and the driver table
    [g_fat12_driver]. *)

From S2P Require Import Prelude FsTypes Vfs Block Fat12Name Fat12.
From stdpp Require Import base list option list_numbers strings.
From Stdlib Require Import ZArith Lia ZifyBool.
Import FsTypes Vfs Block Fat12Name Fat12.
Open Scope Z_scope.
Open Scope vfs_scope.

Module Fat12Driver.

Definition FAT12_NAME_SLOTS : Z := 32.
Definition FAT12_OPEN_FILE_CAP : Z := 16.
Definition FAT12_WRITE_BUFFER_CAP : Z := 4096.

(** [fat12_open_file_t]. *)
Record open_file := OpenFile {
  of_used : bool; of_cluster : Z; of_size : Z; of_flags : Z; of_path : list Z
}.
Definition zero_file : open_file := OpenFile false 0 0 0 [].

Section Driver.
Context {D : Type} `{!block_device D}.

(** The variables of the file and the device they point to. *)
Record fat12 := Fat {
  g_fat12_dev : option D;
  g_fat12 : fat12_bpb;
  g_fat12_cwd : list Z;
  g_fat12_cwd_cluster : Z;
  g_fat12_open_files : list open_file
}.

Definition set_dev (d : option D) (f : fat12) : fat12 :=
  Fat d (g_fat12 f) (g_fat12_cwd f) (g_fat12_cwd_cluster f) (g_fat12_open_files f).
Definition set_bpb (b : fat12_bpb) (f : fat12) : fat12 :=
  Fat (g_fat12_dev f) b (g_fat12_cwd f) (g_fat12_cwd_cluster f) (g_fat12_open_files f).
Definition set_cwd (p : list Z) (c : Z) (f : fat12) : fat12 :=
  Fat (g_fat12_dev f) (g_fat12 f) p c (g_fat12_open_files f).
Definition set_files (l : list open_file) (f : fat12) : fat12 :=
  Fat (g_fat12_dev f) (g_fat12 f) (g_fat12_cwd f) (g_fat12_cwd_cluster f) l.

(** An operation of the device; without one a read fails. *)
Definition on_dev {A} (m : M D A) : M fat12 A := fun f =>
  match g_fat12_dev f with
  | None => Some (inl FS_ERR_INVALID, f)
  | Some d => match m d with
              | None => None
              | Some (r, d) => Some (r, set_dev (Some d) f)
              end
  end.

(** [g_fat12_dev == 0 || g_fat12_dev->write == 0]. *)
Definition read_only (f : fat12) : bool :=
  match g_fat12_dev f with None => true | Some d => match dev_write d with None => true | Some _ => false end end.

Definition need_writable : M fat12 unit :=
  f <- get ;; guard (negb (read_only f)) FS_ERR_READ_ONLY.

(** ** Mounting *)

Definition fat12_core_mount (dev : D) : M fat12 unit := fun f =>
  let f := set_files (replicate (Z.to_nat FAT12_OPEN_FILE_CAP) zero_file) f in
  match block_core_read 0 1 dev with
  | None => None
  | Some (inl rc, _) => Some (inl rc, f)
  | Some (inr s, dev) =>
      let '(rc, b) := fat12_parse_bpb s (g_fat12 f) in
      let f := set_bpb b f in
      if negb (rc =? FS_OK) then Some (inl rc, f)
      else Some (inr tt, set_cwd [slash] 0 (set_dev (Some dev) f))
  end.

Definition fat12_init : M fat12 unit := fun f =>
  Some (match g_fat12_dev f with None => inl FS_ERR_INVALID | Some _ => inr tt end, f).

(** [sizeof] of the two sectors and the write buffer. *)
Definition fat12_core_buffer_bytes : Z := 512 + 512 + FAT12_WRITE_BUFFER_CAP.

Definition fat12_get_cwd_path : M fat12 (list Z) := fun f => Some (inr (g_fat12_cwd f), f).

(** ** Lookup *)

(** A read error ends the chain. *)
Definition fat12_get_next_cluster (bpb : fat12_bpb) (cluster : Z) : M D Z :=
  let offset := u32 (cluster + cluster / 2) in
  let sector := u32 (reserved_sectors bpb + offset / 512) in
  let byte_offset := offset mod 512 in
  r <- attempt (block_core_read sector 1) ;;
  match r with
  | inl _ => ret 0xFFF
  | inr s =>
      r <- (if byte_offset =? 511 then
              r2 <- attempt (block_core_read (u32 (sector + 1)) 1) ;;
              ret (match r2 with
                   | inl _ => None
                   | inr s2 => Some (u16 (Z.lor (char_at s 511) (Z.shiftl (char_at s2 0) 8)))
                   end)
            else ret (Some (u16 (Z.lor (char_at s (Z.to_nat byte_offset))
                                       (Z.shiftl (char_at s (Z.to_nat (byte_offset + 1))) 8))))) ;;
      ret (match r with
           | None => 0xFFF
           | Some v => if negb (Z.land cluster 1 =? 0) then Z.shiftr v 4 else Z.land v 0x0FFF
           end)
  end.

(** What a lookup returns: first cluster, attributes and size. *)
Definition info : Type := Z * Z * Z.

Definition lookup_step (name : list Z) (l : lfn) (_ : Z) (_ : nat) (e : list Z) : lfn + (Z + info) :=
  let first := char_at e 0 in
  let attr := char_at e 11 in
  if first =? FAT12_ENTRY_FREE then inr (inl FS_ERR_NOT_FOUND)
  else if first =? FAT12_ENTRY_DELETED then inl (fat12_lfn_clear l)
  else if attr =? FAT12_ATTR_LONG_NAME then inl (fat12_lfn_read_entry l e)
  else if negb (Z.land attr FAT12_ATTR_VOLUME_ID =? 0) then inl (fat12_lfn_clear l)
  else if fat12_name_eq (fat12_copy_display_name e l) name
  then inr (inr (fat12_le16 e 26, attr, fat12_le32 e 28))
  else inl (fat12_lfn_clear l).

Definition fat12_find_entry_in_dir (bpb : fat12_bpb) (dir_cluster : Z) (name : list Z) : M D info :=
  r <- scan_dir (lookup_step name) bpb (fat12_get_next_cluster bpb) dir_cluster no_lfn ;;
  match r with inl _ => fail FS_ERR_NOT_FOUND | inr x => lift x end.

(** Cluster, is-a-directory flag and size. *)
Definition node : Type := Z * bool * Z.

Fixpoint resolve_info_loop (fuel : nat) (cur : node) (cursor : list Z) : M fat12 node :=
  match cursor with
  | [] => ret cur
  | _ =>
      match fuel with
      | O => fun _ => None
      | S fuel =>
          let '(component, rest) := span cursor in
          guard (negb (FS_NAME_CAP <=? Z.of_nat (length component))) FS_ERR_INVALID ;;;
          let cursor := skip_slashes rest in
          let '(cluster, _, _) := cur in
          if (length component =? 0)%nat || fat12_streq component dot then
            resolve_info_loop fuel cur cursor
          else if fat12_streq component dotdot && (cluster =? 0) then
            resolve_info_loop fuel cur cursor
          else
            f <- get ;;
            i <- on_dev (fat12_find_entry_in_dir (g_fat12 f) cluster component) ;;
            let '(next, attr, size) := i in
            let is_dir := negb (Z.land attr FAT12_ATTR_DIRECTORY =? 0) in
            guard ((length cursor =? 0)%nat || is_dir) FS_ERR_NOT_DIR ;;;
            resolve_info_loop fuel (next, is_dir, size) cursor
      end
  end.

Definition fat12_resolve_path_info (path : list Z) : M fat12 node :=
  guard (negb (length path =? 0)%nat) FS_ERR_INVALID ;;;
  f <- get ;;
  let absolute := char_at path 0 =? slash in
  resolve_info_loop (S (length path)) (if absolute then 0 else g_fat12_cwd_cluster f, true, 0)
    (if absolute then skip_slashes path else path).

Definition fat12_resolve_path (path : list Z) : M fat12 (Z * bool) :=
  n <- fat12_resolve_path_info path ;; ret n.1.

(** ** The working directory *)

(** [while (len > 0 && temp[len - 1] != '/') --len;] *)
Fixpoint after_slash (temp : list Z) (len : nat) : nat :=
  match len with
  | O => O
  | S l => if char_at temp l =? slash then len else after_slash temp l
  end.

Definition drop_last_component (temp : list Z) : list Z :=
  let len := after_slash temp (length temp) in
  if (1 <? len)%nat then take (len - 1) temp
  else if (len =? 1)%nat then take 1 temp
  else [].

Fixpoint append_chars (temp comp : list Z) : list Z :=
  match comp with
  | c :: r => if Z.of_nat (length temp) + 1 <? FS_PATH_CAP then append_chars (temp ++ [c]) r else temp
  | [] => temp
  end.

Definition append_component (temp comp : list Z) : list Z :=
  let len := length temp in
  let temp := if (len =? 0)%nat || negb (char_at temp (len - 1) =? slash)
              then if Z.of_nat len + 1 <? FS_PATH_CAP then temp ++ [slash] else temp
              else temp in
  append_chars temp comp.

Fixpoint normalize_loop (fuel : nat) (temp cursor : list Z) : option (list Z) :=
  match cursor with
  | [] => Some temp
  | _ =>
      match fuel with
      | O => None
      | S fuel =>
          let '(comp, rest) := span cursor in
          let comp := take (Z.to_nat (FS_NAME_CAP - 1)) comp in
          let cursor := skip_slashes rest in
          if (length comp =? 0)%nat || fat12_streq comp dot then normalize_loop fuel temp cursor
          else if fat12_streq comp dotdot then normalize_loop fuel (drop_last_component temp) cursor
          else normalize_loop fuel (append_component temp comp) cursor
      end
  end.

Definition fat12_normalize_path (cwd path : list Z) : option (list Z) :=
  let absolute := char_at path 0 =? slash in
  temp ← normalize_loop (S (length path))
    (if absolute then [] else fat12_copy_string FS_PATH_CAP cwd)
    (if absolute then skip_slashes path else path);
  Some (if (length temp =? 0)%nat then [slash] else fat12_copy_string FS_PATH_CAP temp).

Definition fat12_change_dir (path : list Z) : M fat12 unit :=
  n <- fat12_resolve_path path ;;
  guard n.2 FS_ERR_NOT_DIR ;;;
  fun f => match fat12_normalize_path (g_fat12_cwd f) path with
           | None => None
           | Some p => Some (inr tt, set_cwd (fat12_copy_string FS_PATH_CAP p) n.1 f)
           end.

Definition fat12_make_dir (path : list Z) : M fat12 unit :=
  need_writable ;;; on_dev (fat12_core_create_dir_on_device path).

(** ** Reading *)

(** The sectors of one cluster: the bytes copied so far, up to [size]. *)
Fixpoint read_sectors (n : nat) (lba size : Z) (copied : list Z) : M D (list Z) :=
  match n with
  | O => ret copied
  | S n =>
      if negb (Z.of_nat (length copied) <? size) then ret copied
      else
        let chunk := Z.min (size - Z.of_nat (length copied)) 512 in
        s <- block_core_read lba 1 ;;
        read_sectors n (u32 (lba + 1)) size (copied ++ take (Z.to_nat chunk) s)
  end.

(** Every turn copies at least one byte, so [size] turns are enough. *)
Fixpoint read_chain (fuel : nat) (bpb : fat12_bpb) (cluster size : Z) (copied : list Z) : M D (list Z) :=
  if negb (Z.of_nat (length copied) <? size) then ret copied
  else match fuel with
       | O => fun _ => None
       | S fuel =>
           guard (negb ((cluster <? 2) || (CHAIN_END <=? cluster))) FS_ERR_INVALID ;;;
           copied <- read_sectors (Z.to_nat (sectors_per_cluster bpb))
                                  (fat12_image_cluster_to_lba bpb cluster) size copied ;;
           cluster <- (if Z.of_nat (length copied) <? size
                       then fat12_get_next_cluster bpb cluster else ret cluster) ;;
           read_chain fuel bpb cluster size copied
       end.

Definition fat12_read_file (path : list Z) (cap : Z) : M fat12 (list Z) :=
  n <- fat12_resolve_path_info path ;;
  let '(cluster, is_dir, size) := n in
  guard (negb is_dir) FS_ERR_NOT_DIR ;;;
  guard (negb (cap <? size)) FS_ERR_NO_SPACE ;;;
  f <- get ;;
  on_dev (read_chain (Z.to_nat size) (g_fat12 f) cluster size []).

(** ** Open files *)

(** The first free slot. *)
Fixpoint free_slot (i : nat) (l : list open_file) : option nat :=
  match l with
  | [] => None
  | x :: l => if of_used x then free_slot (S i) l else Some i
  end.

Definition fat12_open (path : list Z) (flags : Z) : M fat12 Z :=
  let mode := Z.land flags FS_O_RDWR in
  let writing := (mode =? FS_O_WRONLY) || (mode =? FS_O_RDWR) in
  r <- attempt (fat12_resolve_path_info path) ;;
  n <- match r with
       | inr n => ret n
       | inl rc =>
           if (rc =? FS_ERR_NOT_FOUND) && negb (Z.land flags FS_O_CREAT =? 0) then
             need_writable ;;;
             guard writing FS_ERR_INVALID ;;;
             on_dev (fat12_core_write_file_on_device path []) ;;;
             fat12_resolve_path_info path
           else fail rc
       end ;;
  let '(cluster, is_dir, size) := n in
  guard (negb is_dir) FS_ERR_IS_DIR ;;;
  p <- (if negb (Z.land flags FS_O_TRUNC =? 0) then
          guard writing FS_ERR_INVALID ;;;
          need_writable ;;;
          on_dev (fat12_core_write_file_on_device path []) ;;;
          ret (0, 0)
        else ret (cluster, size)) ;;
  fun f => match free_slot 0 (g_fat12_open_files f) with
           | None => Some (inl FS_ERR_NO_SPACE, f)
           | Some i =>
               let file := OpenFile true p.1 p.2 flags (fat12_copy_string FS_PATH_CAP path) in
               Some (inr (Z.of_nat i + 1), set_files (<[i := file]> (g_fat12_open_files f)) f)
           end.

(** The open file an identifier stands for. *)
Definition file_of (node_id : Z) : M fat12 (nat * open_file) :=
  guard (negb ((node_id =? 0) || (FAT12_OPEN_FILE_CAP <? node_id))) FS_ERR_INVALID ;;;
  f <- get ;;
  let i := Z.to_nat (node_id - 1) in
  let file := default zero_file (g_fat12_open_files f !! i) in
  guard (of_used file) FS_ERR_INVALID ;;;
  ret (i, file).

Definition put_file (i : nat) (file : open_file) : M fat12 unit := fun f =>
  Some (inr tt, set_files (<[i := file]> (g_fat12_open_files f)) f).

(** Skip whole clusters. *)
Fixpoint seek_cluster (fuel : nat) (bpb : fat12_bpb) (cluster offset : Z) : M D (Z * Z) :=
  let cluster_bytes := u32 (sectors_per_cluster bpb * 512) in
  if negb (negb (cluster_bytes =? 0) && (cluster_bytes <=? offset)) then ret (cluster, offset)
  else match fuel with
       | O => fun _ => None
       | S fuel =>
           guard (negb ((cluster <? 2) || (CHAIN_END <=? cluster))) FS_ERR_INVALID ;;;
           c <- fat12_get_next_cluster bpb cluster ;;
           seek_cluster fuel bpb c (offset - cluster_bytes)
       end.

(** The sectors of one cluster, [offset] bytes still to be skipped. *)
Fixpoint read_sectors_at (n : nat) (lba offset target : Z) (copied : list Z) : M D (Z * list Z) :=
  match n with
  | O => ret (offset, copied)
  | S n =>
      if negb (Z.of_nat (length copied) <? target) then ret (offset, copied)
      else if 512 <=? offset then read_sectors_at n (u32 (lba + 1)) (offset - 512) target copied
      else
        s <- block_core_read lba 1 ;;
        let chunk := Z.min (512 - offset) (target - Z.of_nat (length copied)) in
        read_sectors_at n (u32 (lba + 1)) 0 target
          (copied ++ take (Z.to_nat chunk) (drop (Z.to_nat offset) s))
  end.

Fixpoint read_chain_at (fuel : nat) (bpb : fat12_bpb) (cluster offset target : Z) (copied : list Z)
    : M D (list Z) :=
  if negb (Z.of_nat (length copied) <? target) then ret copied
  else match fuel with
       | O => fun _ => None
       | S fuel =>
           guard (negb ((cluster <? 2) || (CHAIN_END <=? cluster))) FS_ERR_INVALID ;;;
           p <- read_sectors_at (Z.to_nat (sectors_per_cluster bpb))
                                (fat12_image_cluster_to_lba bpb cluster) offset target copied ;;
           let '(offset, copied) := p in
           cluster <- (if Z.of_nat (length copied) <? target
                       then fat12_get_next_cluster bpb cluster else ret cluster) ;;
           read_chain_at fuel bpb cluster offset target copied
       end.

Definition fat12_read (node_id offset cap : Z) : M fat12 (list Z) :=
  x <- file_of node_id ;;
  let '(_, file) := x in
  if of_size file <=? offset then ret []
  else
    let target := Z.min (of_size file - offset) cap in
    if target =? 0 then ret []
    else
      f <- get ;;
      p <- on_dev (seek_cluster (S (Z.to_nat (offset / 512))) (g_fat12 f) (of_cluster file) offset) ;;
      on_dev (read_chain_at (S (Z.to_nat target)) (g_fat12 f) p.1 p.2 target []).

(** ** Writing *)

(** The write buffer after the new bytes are in place; [old] is what the file holds. *)
Definition write_buffer (old : list Z) (offset : Z) (bytes : list Z) : list Z :=
  let before := take (Z.to_nat offset) (old ++ replicate (Z.to_nat offset - length old) 0) in
  before ++ bytes ++ drop (Z.to_nat offset + length bytes) old.

Definition fat12_write (node_id offset : Z) (bytes : list Z) : M fat12 Z :=
  let size := Z.of_nat (length bytes) in
  x <- file_of node_id ;;
  let '(i, file) := x in
  let mode := Z.land (of_flags file) FS_O_RDWR in
  guard ((mode =? FS_O_WRONLY) || (mode =? FS_O_RDWR)) FS_ERR_READ_ONLY ;;;
  need_writable ;;;
  if size =? 0 then ret 0
  else
    guard (negb ((FAT12_WRITE_BUFFER_CAP <? offset) || (FAT12_WRITE_BUFFER_CAP - offset <? size)))
          FS_ERR_NO_SPACE ;;;
    guard (negb (FAT12_WRITE_BUFFER_CAP <? of_size file)) FS_ERR_NO_SPACE ;;;
    old <- (if negb (of_size file =? 0) then
              old <- fat12_read_file (of_path file) FAT12_WRITE_BUFFER_CAP ;;
              put_file i (OpenFile (of_used file) (of_cluster file) (Z.of_nat (length old))
                                   (of_flags file) (of_path file)) ;;;
              ret old
            else ret []) ;;
    on_dev (fat12_core_write_file_on_device (of_path file) (write_buffer old offset bytes)) ;;;
    n <- fat12_resolve_path_info (of_path file) ;;
    let '(cluster, is_dir, actual_size) := n in
    guard (negb is_dir) FS_ERR_INVALID ;;;
    put_file i (OpenFile (of_used file) cluster actual_size (of_flags file) (of_path file)) ;;;
    ret size.

Definition fat12_size (node_id : Z) : M fat12 Z :=
  x <- file_of node_id ;; ret (of_size x.2).

Definition fat12_close (node_id : Z) : M fat12 unit :=
  guard (negb ((node_id =? 0) || (FAT12_OPEN_FILE_CAP <? node_id))) FS_ERR_INVALID ;;;
  put_file (Z.to_nat (node_id - 1)) zero_file.

Definition fat12_stat (path : list Z) : M fat12 fs_stat :=
  n <- fat12_resolve_path_info path ;;
  let '(_, is_dir, size) := n in
  ret (FsStat (if is_dir : bool then FS_MODE_DIR else FS_MODE_FILE) (if is_dir then 0 else size)).

Definition fat12_fstat (node_id : Z) : M fat12 fs_stat :=
  x <- file_of node_id ;; ret (FsStat FS_MODE_FILE (of_size x.2)).

(** ** Removing *)

(** No entry but deleted ones, long names, labels, [.] and [..] before the first free
    entry of a sector. *)
Fixpoint sector_empty (n i : nat) (sec : list Z) : bool :=
  match n with
  | O => true
  | S n =>
      let e := entry_at sec i in
      if char_at e 0 =? FAT12_ENTRY_FREE then true
      else if (char_at e 0 =? FAT12_ENTRY_DELETED) || (char_at e 11 =? FAT12_ATTR_LONG_NAME)
              || negb (Z.land (char_at e 11) FAT12_ATTR_VOLUME_ID =? 0)
      then sector_empty n (S i) sec
      else if (char_at e 0 =? period) && ((char_at e 1 =? space) || (char_at e 1 =? period))
      then sector_empty n (S i) sec
      else false
  end.

Fixpoint sectors_empty (n : nat) (lba : Z) : M D unit :=
  match n with
  | O => ret tt
  | S n =>
      s <- block_core_read lba 1 ;;
      guard (sector_empty 16 0 s) FS_ERR_NOT_EMPTY ;;;
      sectors_empty n (u32 (lba + 1))
  end.

(** [turns] is [4096 - visited]. *)
Fixpoint chain_empty (turns : nat) (bpb : fat12_bpb) (cluster : Z) : M D unit :=
  if negb ((2 <=? cluster) && (cluster <? CHAIN_END)) then ret tt
  else match turns with
       | O => fail FS_ERR_INVALID
       | S turns =>
           sectors_empty (Z.to_nat (sectors_per_cluster bpb)) (fat12_image_cluster_to_lba bpb cluster) ;;;
           next <- fat12_dev_get_fat_entry bpb cluster ;;
           chain_empty turns bpb next
       end.

Definition fat12_rmdir (path : list Z) : M fat12 unit :=
  need_writable ;;;
  f <- get ;;
  guard (negb (fat12_streq path [slash] || fat12_streq path (g_fat12_cwd f))) FS_ERR_INVALID ;;;
  on_dev (
    l <- fat12_locate fat12_make_83_dir_name path ;;
    let '(bpb, parent_cluster, name83) := l in
    x <- fat12_dev_find_entry bpb parent_cluster name83 ;;
    let '(first_cluster, attr, ref) := x in
    guard (negb ((Z.land attr FAT12_ATTR_DIRECTORY =? 0) || (first_cluster <? 2))) FS_ERR_NOT_DIR ;;;
    chain_empty (Z.to_nat 4096) bpb first_cluster ;;;
    delete_entry ref ;;;
    fat12_dev_free_cluster_chain bpb first_cluster).

(** Handles of the removed path are closed. *)
Definition drop_path (path : list Z) (x : open_file) : open_file :=
  if of_used x && fat12_streq (of_path x) path
  then OpenFile false (of_cluster x) (of_size x) (of_flags x) [] else x.

Definition fat12_unlink (path : list Z) : M fat12 unit :=
  need_writable ;;;
  on_dev (fat12_core_unlink_on_device path) ;;;
  fun f => Some (inr tt, set_files (drop_path path <$> g_fat12_open_files f) f).

(** ** Listing *)

Definition list_step (cap : Z) (a : list fs_dirent * lfn) (_ : Z) (_ : nat) (e : list Z)
    : (list fs_dirent * lfn) + (Z + list fs_dirent) :=
  let '(names, l) := a in
  let first := char_at e 0 in
  let attr := char_at e 11 in
  if first =? FAT12_ENTRY_FREE then inr (inr names)
  else if first =? FAT12_ENTRY_DELETED then inl (names, fat12_lfn_clear l)
  else if attr =? FAT12_ATTR_LONG_NAME then inl (names, fat12_lfn_read_entry l e)
  else if negb (Z.land attr FAT12_ATTR_VOLUME_ID =? 0) then inl (names, fat12_lfn_clear l)
  else
    let count := Z.of_nat (length names) in
    if (cap <=? count) || (FAT12_NAME_SLOTS <=? count) then inr (inl FS_ERR_NO_SPACE)
    else inl (names ++ [(fat12_copy_display_name e l,
                         if negb (Z.land attr FAT12_ATTR_DIRECTORY =? 0) then FS_NODE_DIR else FS_NODE_FILE)],
              fat12_lfn_clear l).

Definition fat12_list_dir (path : list Z) (cap : Z) : M fat12 (list fs_dirent) :=
  f <- get ;;
  target <- (if negb (length path =? 0)%nat && negb (fat12_streq path dot) then
               n <- fat12_resolve_path path ;;
               guard n.2 FS_ERR_NOT_DIR ;;;
               ret n.1
             else ret (g_fat12_cwd_cluster f)) ;;
  r <- on_dev (scan_dir (list_step cap) (g_fat12 f) (fat12_get_next_cluster (g_fat12 f)) target ([], no_lfn)) ;;
  match r with inl a => ret a.1 | inr x => lift x end.

(** ** The driver table *)

Definition fat12_driver : vfs_driver fat12 := {|
  d_init := Some fat12_init;
  d_get_cwd_path := Some fat12_get_cwd_path;
  d_change_dir := Some fat12_change_dir;
  d_make_dir := Some fat12_make_dir;
  d_list_dir := Some fat12_list_dir;
  d_read_file := Some fat12_read_file;
  d_open := Some fat12_open;
  d_read := Some fat12_read;
  d_write := Some fat12_write;
  d_size := Some fat12_size;
  d_close := Some fat12_close;
  d_stat := Some fat12_stat;
  d_fstat := Some fat12_fstat;
  d_unlink := Some fat12_unlink;
  d_rmdir := Some fat12_rmdir
|}.

End Driver.
Arguments fat12 : clear implicits.

End Fat12Driver.
