(* ===== verification/Fat12Table.v ===== *)
(** * The file allocation table

    Two 12-bit entries share three bytes of the table, and an entry may cross a sector
    boundary.  Against the bytes of a plain device, reading an entry is a function of
    two bytes and setting one changes that entry in every copy of the table and nothing
    else. *)

From S2P Require Import Prelude FsTypes Vfs Block Fat12Name Fat12 Fat12Driver.
From stdpp Require Import base list option list_numbers sets.
From Stdlib Require Import ZArith Lia ZifyBool.
Import FsTypes Vfs VfsWp Block Fat12Name Fat12.
Open Scope Z_scope.

Module Fat12Table.

(** ** Packing *)

(** The entry of a cluster, from its two bytes. *)
Definition unpack (c lo hi : Z) : Z := if Z.even c then lo + 256 * (hi mod 16) else lo / 16 + 16 * hi.
Definition pack_lo (c v lo : Z) : Z := if Z.even c then v mod 256 else lo mod 16 + 16 * (v mod 16).
Definition pack_hi (c v hi : Z) : Z := if Z.even c then v / 256 + 16 * (hi / 16) else v / 16.

Lemma land_1_even c : negb (Z.land c 1 =? 0) = negb (Z.even c).
Proof.
  rewrite Zeven_mod. change 1 with (Z.ones 1). rewrite Z.land_ones by lia. change (2 ^ 1) with 2.
  pose proof (Z.mod_pos_bound c 2). destruct (Z.eqb_spec (c mod 2) 0), (Z.eq_dec (c mod 2) 0); try lia; done.
Qed.

Lemma land_mask x k : 0 <= k -> Z.land x (2 ^ k - 1) = x mod 2 ^ k.
Proof. intros Hk. rewrite <- Z.land_ones by done. f_equal. rewrite Z.ones_equiv. lia. Qed.

Lemma unpack_spec c lo hi :
  0 <= lo < 256 -> 0 <= hi < 256 ->
  (let value := u16 (Z.lor lo (Z.shiftl hi 8)) in
   if negb (Z.land c 1 =? 0) then Z.shiftr value 4 else Z.land value 0x0FFF) = unpack c lo hi.
Proof.
  intros Hl Hh. cbv zeta. rewrite lor_shiftl, land_1_even by lia. change (2 ^ 8) with 256.
  rewrite u16_small by lia. unfold unpack. destruct (Z.even c); cbn [negb].
  - change 0x0FFF with (2 ^ 12 - 1). rewrite land_mask by lia. change (2 ^ 12) with (256 * 16).
    rewrite Z.rem_mul_r by lia. rewrite Z.div_add, Z.div_small by lia.
    rewrite Z.add_mod, Z.mod_mul, Z.add_0_r, Z.mod_mod, Z.mod_small by lia. done.
  - rewrite Z.shiftr_div_pow2 by lia. change (2 ^ 4) with 16.
    replace (lo + hi * 256) with (lo + (16 * hi) * 16) by lia. by rewrite Z.div_add by lia.
Qed.

Lemma pack_lo_spec c v lo : 0 <= lo < 256 -> 0 <= v < 4096 -> low_byte c v lo = pack_lo c v lo.
Proof.
  intros Hl Hv. unfold low_byte, pack_lo. rewrite land_1_even. destruct (Z.even c); cbn [negb].
  - change 0xFF with (2 ^ 8 - 1). rewrite land_mask by lia. apply u8_small. apply Z.mod_pos_bound. lia.
  - change 0xF0 with (Z.shiftl (2 ^ 4 - 1) 4). rewrite <- Z.shiftl_land.
    change 0x0F with (2 ^ 4 - 1). rewrite !land_mask, lor_shiftl by (try apply Z.mod_pos_bound; lia).
    change (2 ^ 4) with 16. pose proof (Z.mod_pos_bound lo 16). pose proof (Z.mod_pos_bound v 16).
    rewrite u8_small by lia. lia.
Qed.

Lemma pack_hi_spec c v hi : 0 <= hi < 256 -> 0 <= v < 4096 -> high_byte c v hi = pack_hi c v hi.
Proof.
  intros Hl Hv. unfold high_byte, pack_hi. rewrite land_1_even. destruct (Z.even c); cbn [negb].
  - assert (Z.land hi 0xF0 = Z.shiftl (hi / 16) 4) as ->.
    { change 0xF0 with (Z.shiftl (2 ^ 4 - 1) 4).
      replace (Z.land hi _) with (Z.land (Z.shiftl (Z.shiftr hi 4) 4) (Z.shiftl (2 ^ 4 - 1) 4)).
      - rewrite <- Z.shiftl_land, land_mask, Z.shiftr_div_pow2 by lia.
        rewrite Z.mod_small; [done|]. change (2 ^ 4) with 16.
        split; [apply Z.div_pos; lia|apply Z.div_lt_upper_bound; lia].
      - apply Z.bits_inj'. intros n Hn. rewrite !Z.land_spec. destruct (decide (n < 4)).
        + by rewrite !Z.shiftl_spec_low, !andb_false_r by lia.
        + rewrite !Z.shiftl_spec_high, Z.shiftr_spec by lia. do 2 f_equal. lia. }
    change 0x0F with (2 ^ 4 - 1). rewrite land_mask, Z.shiftr_div_pow2, Z.lor_comm by lia.
    change (2 ^ 8) with 256. change (2 ^ 4) with 16.
    assert (0 <= v / 256 < 16) by (split; [apply Z.div_pos|apply Z.div_lt_upper_bound]; lia).
    assert (0 <= hi / 16 < 16) by (split; [apply Z.div_pos|apply Z.div_lt_upper_bound]; lia).
    rewrite Z.mod_small, lor_shiftl, u8_small by lia. lia.
  - change 0xFF with (2 ^ 8 - 1). rewrite land_mask, Z.shiftr_div_pow2 by lia.
    assert (0 <= v / 16 < 256) by (split; [apply Z.div_pos|apply Z.div_lt_upper_bound]; lia).
    change (2 ^ 4) with 16. rewrite Z.mod_small, u8_small by lia. done.
Qed.

(** ** The bytes of a device *)

Section Bytes.
Context {D : Type} `{!block_device D} `{!disc D} `{!plain_device D}.

Definition byte (d : D) (x : Z) : Z := char_at (sector d (x / 512)) (Z.to_nat (x mod 512)).

Lemma byte_range (d : D) x : 0 <= byte d x < 256.
Proof.
  unfold byte, char_at. destruct (sector d (x / 512) !! _) as [v|] eqn:E; [|simpl; lia].
  pose proof (pd_bytes d (x / 512)) as Hb. rewrite Forall_forall in Hb.
  apply Hb. by eapply list_elem_of_lookup_2.
Qed.

Lemma div_sector s o : 0 <= o < 512 -> (s * 512 + o) / 512 = s.
Proof. intros Ho. rewrite Z.add_comm, Z.div_add, Z.div_small by lia. lia. Qed.

Lemma mod_sector s o : 0 <= o < 512 -> (s * 512 + o) mod 512 = o.
Proof. intros Ho. rewrite Z.add_comm, Z.mod_add, Z.mod_small by lia. done. Qed.

Lemma byte_at_sector (d : D) s o : 0 <= o < 512 -> byte d (s * 512 + o) = char_at (sector d s) (Z.to_nat o).
Proof. intros Ho. unfold byte. by rewrite div_sector, mod_sector. Qed.

Lemma sector_ext (d d' : D) s :
  (forall o, 0 <= o < 512 -> byte d' (s * 512 + o) = byte d (s * 512 + o)) -> sector d' s = sector d s.
Proof.
  intros Hb. apply list_eq_same_length with 512%nat; [by rewrite pd_length..|].
  intros i x y Hi Hx Hy. specialize (Hb (Z.of_nat i) ltac:(lia)).
  rewrite !byte_at_sector in Hb by lia. unfold char_at in Hb. rewrite Nat2Z.id, Hx, Hy in Hb. done.
Qed.

(** Replacing bytes of one sector. *)
Lemma write_bytes (d : D) s b :
  0 <= s < sector_count d -> length b = 512%nat -> Forall (fun v => 0 <= v < 256) b ->
  exists d', block_core_write s 1 b d = Some (inr tt, d') /\ sector_count d' = sector_count d /\
    forall x, byte d' x = if decide (x / 512 = s) then char_at b (Z.to_nat (x mod 512)) else byte d x.
Proof.
  intros Hs Hl Hb. destruct (write_plain d s b Hs Hl Hb) as (d' & E & Hc & Hd').
  exists d'. split; [done|]. split; [done|]. intros x. unfold byte. rewrite Hd'. by case_decide.
Qed.

Lemma char_at_insert (l : list Z) i j v :
  (i < length l)%nat -> char_at (<[i := v]> l) j = if decide (j = i) then v else char_at l j.
Proof.
  intros Hi. unfold char_at. case_decide as E; [subst; by rewrite list_lookup_insert_eq|].
  by rewrite list_lookup_insert_ne.
Qed.

Lemma low_byte_range c v o : 0 <= low_byte c v o < 256.
Proof. unfold low_byte. case_bool; apply u8_range. Qed.

Lemma high_byte_range c v o : 0 <= high_byte c v o < 256.
Proof. unfold high_byte. case_bool; apply u8_range. Qed.

(** ** One entry *)

(** Byte offset of the first byte of the entry of [c] in copy [k] of the table. *)
Definition fat_pos (bpb : fat12_bpb) (k c : Z) : Z :=
  (reserved_sectors bpb + k * sectors_per_fat bpb) * 512 + (c + c / 2).

Lemma get_entry (d : D) bpb c :
  0 <= c < 2 ^ 16 -> 0 <= reserved_sectors bpb -> fat_pos bpb 0 c + 1 < sector_count d * 512 ->
  fat12_dev_get_fat_entry bpb c d =
    Some (inr (unpack c (byte d (fat_pos bpb 0 c)) (byte d (fat_pos bpb 0 c + 1))), d).
Proof.
  intros Hc Hr Hp. pose proof (pd_count d) as Hcount. unfold fat_pos in *. rewrite Z.mul_0_l, Z.add_0_r in *.
  set (off := c + c / 2) in *.
  assert (0 <= off < 2 ^ 17) as Ho by (unfold off; pose proof (Z.div_mod c 2); pose proof (Z.mod_pos_bound c 2); lia).
  pose proof (Z.div_mod off 512 ltac:(lia)) as Hdm. pose proof (Z.mod_pos_bound off 512 ltac:(lia)) as Hm.
  assert (0 <= off / 512) by (apply Z.div_pos; lia).
  unfold fat12_dev_get_fat_entry, bind, ret. cbv zeta. fold off. rewrite (u32_small off) by lia.
  rewrite (u32_small (reserved_sectors bpb + off / 512)) by lia.
  rewrite read_plain by lia. destruct (Z.ltb_spec (reserved_sectors bpb + off / 512) (sector_count d)); [|lia].
  assert (byte d (reserved_sectors bpb * 512 + off) =
    char_at (sector d (reserved_sectors bpb + off / 512)) (Z.to_nat (off mod 512))) as Hlo.
  { rewrite <- byte_at_sector by lia. f_equal. lia. }
  rewrite <- Hlo. destruct (Z.eqb_spec (off mod 512) 511) as [E|E].
  - rewrite (u32_small (_ + 1)), read_plain by lia.
    destruct (Z.ltb_spec (reserved_sectors bpb + off / 512 + 1) (sector_count d)); [|lia].
    rewrite unpack_spec.
    + do 4 f_equal. rewrite <- (byte_at_sector d _ 0) by lia. f_equal. lia.
    + rewrite Hlo, <- byte_at_sector by lia. apply byte_range.
    + rewrite <- (byte_at_sector d _ 0) by lia. apply byte_range.
  - assert (byte d (reserved_sectors bpb * 512 + off + 1) =
      char_at (sector d (reserved_sectors bpb + off / 512)) (Z.to_nat (off mod 512 + 1))) as Hhi.
    { rewrite <- byte_at_sector by lia. f_equal. lia. }
    rewrite <- Hhi. by rewrite unpack_spec by apply byte_range.
Qed.

Lemma set_one (d : D) s o c v :
  0 <= s -> 0 <= o < 512 -> s * 512 + o + 1 < sector_count d * 512 ->
  exists d', set_one_fat s o c v d = Some (inr tt, d') /\ sector_count d' = sector_count d /\
    forall x, byte d' x = if decide (x = s * 512 + o) then low_byte c v (byte d x)
                          else if decide (x = s * 512 + o + 1) then high_byte c v (byte d x)
                          else byte d x.
Proof.
  intros Hs Ho Hp. pose proof (pd_count d) as Hcount. unfold set_one_fat, bind at 1.
  rewrite read_plain by lia. destruct (Z.ltb_spec s (sector_count d)) as [Hlt|]; [|lia].
  set (S1 := <[Z.to_nat o := _]> (sector d s)).
  assert (length S1 = 512%nat) as HL1 by (unfold S1; by rewrite length_insert, pd_length).
  assert (Forall (fun v => 0 <= v < 256) S1) as HB1
    by (apply Forall_insert; [apply pd_bytes|apply low_byte_range]).
  assert (forall x, x / 512 = s -> char_at S1 (Z.to_nat (x mod 512)) =
    if decide (x = s * 512 + o) then low_byte c v (byte d x) else byte d x) as HS1.
  { intros x Hx. pose proof (Z.div_mod x 512 ltac:(lia)). pose proof (Z.mod_pos_bound x 512 ltac:(lia)).
    unfold S1. rewrite char_at_insert by (rewrite pd_length; lia). unfold byte. rewrite Hx.
    repeat case_decide; try (lia || done). by replace (x mod 512) with o by lia. }
  destruct (Z.eqb_spec o 511) as [E|E].
  - destruct (write_bytes d s S1 ltac:(lia) HL1 HB1) as (d1 & E1 & C1 & B1).
    unfold bind at 1. rewrite E1. unfold bind at 1. rewrite (u32_small (s + 1)), read_plain by lia.
    rewrite C1. destruct (Z.ltb_spec (s + 1) (sector_count d)) as [Hlt2|]; [|lia].
    set (S2 := <[0%nat := _]> (sector d1 (s + 1))).
    destruct (write_bytes d1 (s + 1) S2) as (d2 & E2 & C2 & B2); [lia|..].
    { unfold S2. by rewrite length_insert, pd_length. }
    { apply Forall_insert; [apply pd_bytes|apply high_byte_range]. }
    exists d2. split; [done|]. split; [congruence|]. intros x. rewrite B2.
    pose proof (Z.div_mod x 512 ltac:(lia)). pose proof (Z.mod_pos_bound x 512 ltac:(lia)).
    destruct (decide (x / 512 = s + 1)) as [Hx|Hx].
    + unfold S2. rewrite char_at_insert by (rewrite pd_length; lia).
      assert (sector d1 (s + 1) = sector d (s + 1)) as Hsame.
      { apply sector_ext. intros i Hi. rewrite B1, div_sector by lia. by case_decide; [lia|]. }
      rewrite Hsame. unfold byte. rewrite Hx. repeat case_decide; try (lia || done).
      by replace (x mod 512) with 0 by lia.
    + rewrite B1. destruct (decide (x / 512 = s)) as [Hx2|Hx2].
      * rewrite HS1 by done. repeat case_decide; try lia; done.
      * repeat case_decide; try lia; done.
  - set (S2 := <[Z.to_nat (o + 1) := _]> S1).
    destruct (write_bytes d s S2) as (d1 & E1 & C1 & B1); [lia|..].
    { unfold S2. by rewrite length_insert. }
    { apply Forall_insert; [done|apply high_byte_range]. }
    exists d1. split; [done|]. split; [done|]. intros x. rewrite B1.
    pose proof (Z.div_mod x 512 ltac:(lia)). pose proof (Z.mod_pos_bound x 512 ltac:(lia)).
    destruct (decide (x / 512 = s)) as [Hx|Hx]; [|repeat case_decide; try lia; done].
    unfold S2. rewrite char_at_insert by lia. destruct (decide (x = s * 512 + o + 1)) as [Hx1|Hx1].
    + replace (Z.to_nat (x mod 512)) with (Z.to_nat (o + 1)) by lia.
      repeat case_decide; try lia. f_equal.
      replace (Z.to_nat (o + 1)) with (Z.to_nat (x mod 512)) by lia. rewrite HS1 by done.
      by case_decide; [lia|].
    + repeat case_decide; try lia; rewrite HS1 by done; by repeat case_decide; try lia.
Qed.

(** ** Volumes *)

(** A volume of [n] clusters on [d]: the table has an entry for every cluster, the data
    area fits the device and cluster numbers stay below the end marks. *)
Record geometry (d : D) (bpb : fat12_bpb) (n : Z) : Prop := {
  gm_spc : 1 <= sectors_per_cluster bpb < 256;
  gm_reserved : 1 <= reserved_sectors bpb;
  gm_fats : 1 <= fat_count bpb;
  gm_spf : 1 <= sectors_per_fat bpb;
  gm_root : root_dir_lba bpb = reserved_sectors bpb + fat_count bpb * sectors_per_fat bpb;
  gm_root_sectors : 0 <= root_dir_sectors bpb;
  gm_count : n = fat12_dev_total_clusters bpb d;
  gm_data : 0 <= n /\ root_dir_lba bpb + root_dir_sectors bpb + n * sectors_per_cluster bpb <= sector_count d;
  gm_12bit : n + 2 <= CHAIN_END;
  gm_table : 3 * (n + 2) <= 2 * (sectors_per_fat bpb * 512)
}.

Lemma geometry_same (d d' : D) bpb n :
  geometry d bpb n -> sector_count d' = sector_count d -> geometry d' bpb n.
Proof.
  intros [] Hc. constructor; try done; [|by rewrite Hc].
  unfold fat12_dev_total_clusters in *. by rewrite Hc.
Qed.

(** The entry of [c] in copy [k], and in the copy that is read. *)
Definition fat_copy (bpb : fat12_bpb) (d : D) (k c : Z) : Z :=
  unpack c (byte d (fat_pos bpb k c)) (byte d (fat_pos bpb k c + 1)).
Definition fat (bpb : fat12_bpb) (d : D) (c : Z) : Z := fat_copy bpb d 0 c.

Lemma half c : c = 2 * (c / 2) + c mod 2 /\ 0 <= c mod 2 < 2 /\ (Z.even c = true <-> c mod 2 = 0).
Proof.
  split; [apply Z.div_mod; lia|]. split; [apply Z.mod_pos_bound; lia|].
  rewrite Zeven_mod. apply Z.eqb_eq.
Qed.

Lemma fat_copy_range bpb d k c : 0 <= fat_copy bpb d k c < 4096.
Proof.
  unfold fat_copy, unpack. pose proof (byte_range d (fat_pos bpb k c)) as H1.
  pose proof (byte_range d (fat_pos bpb k c + 1)) as H2.
  set (lo := byte d (fat_pos bpb k c)) in *. set (hi := byte d (fat_pos bpb k c + 1)) in *.
  destruct (Z.even c).
  - pose proof (Z.mod_pos_bound hi 16). lia.
  - pose proof (Z.div_mod lo 16). pose proof (Z.mod_pos_bound lo 16). lia.
Qed.

Lemma fat_range bpb d c : 0 <= fat bpb d c < 4096.
Proof. apply fat_copy_range. Qed.

(** Writing an entry changes that entry only, although neighbours share a byte. *)
Lemma repack B c c' v (old new : Z -> Z) :
  0 <= c -> 0 <= c' -> 0 <= v < 4096 -> (forall x, 0 <= old x < 256) ->
  let p := B + (c + c / 2) in
  let q := B + (c' + c' / 2) in
  new p = pack_lo c v (old p) -> new (p + 1) = pack_hi c v (old (p + 1)) ->
  (forall x, x <> p -> x <> p + 1 -> new x = old x) ->
  unpack c' (new q) (new (q + 1)) = if decide (c' = c) then v else unpack c' (old q) (old (q + 1)).
Proof.
  intros Hc Hc' Hv Hold p q Hp Hp1 Hne.
  destruct (half c) as (D1 & D2 & D3), (half c') as (E1 & E2 & E3).
  case_decide as Hcc.
  - subst c'. change q with p. rewrite Hp, Hp1. unfold unpack, pack_lo, pack_hi.
    pose proof (Hold p). pose proof (Hold (p + 1)). destruct (Z.even c); Z.to_euclidean_division_equations; lia.
  - destruct (decide (q = p + 1)) as [Hq|Hq]; [|destruct (decide (q + 1 = p)) as [Hq'|Hq']].
    + assert (Z.even c = true /\ Z.even c' = false) as [Ec Ec'].
      { unfold p, q in Hq. destruct (Z.even c) eqn:?, (Z.even c') eqn:?; split; try done; exfalso; intuition lia. }
      rewrite (Hne (q + 1)) by lia. rewrite Hq, Hp1. unfold unpack, pack_hi. rewrite Ec, Ec'.
      pose proof (Hold (p + 1)). f_equal. Z.to_euclidean_division_equations; lia.
    + assert (Z.even c = false /\ Z.even c' = true) as [Ec Ec'].
      { unfold p, q in Hq'. destruct (Z.even c) eqn:?, (Z.even c') eqn:?; split; try done; exfalso; intuition lia. }
      rewrite (Hne q) by lia. rewrite Hq', Hp. unfold unpack, pack_lo. rewrite Ec, Ec'.
      pose proof (Hold p). do 2 f_equal. Z.to_euclidean_division_equations; lia.
    + assert (q <> p) by (unfold p, q; destruct (Z.even c), (Z.even c'); intuition lia).
      rewrite (Hne q), (Hne (q + 1)) by lia. done.
Qed.

Lemma set_fats_bytes (bpb : fat12_bpb) c v m k (d : D) :
  0 <= c < 2 ^ 16 -> 0 <= k -> 0 <= reserved_sectors bpb -> c + c / 2 + 1 < sectors_per_fat bpb * 512 ->
  reserved_sectors bpb + (k + Z.of_nat m) * sectors_per_fat bpb <= sector_count d ->
  exists d', set_fats m k bpb (c + c / 2) c v d = Some (inr tt, d') /\ sector_count d' = sector_count d /\
    (forall j, k <= j < k + Z.of_nat m ->
       byte d' (fat_pos bpb j c) = low_byte c v (byte d (fat_pos bpb j c)) /\
       byte d' (fat_pos bpb j c + 1) = high_byte c v (byte d (fat_pos bpb j c + 1))) /\
    (forall x, (forall j, k <= j < k + Z.of_nat m -> x <> fat_pos bpb j c /\ x <> fat_pos bpb j c + 1) ->
       byte d' x = byte d x).
Proof.
  intros Hc Hk Hr Ht. revert k d Hk. induction m as [|m IH]; intros k d Hk Hd.
  { exists d. cbn. split_and!; try done; lia. }
  pose proof (pd_count d) as Hcount. set (o := c + c / 2) in *. set (spf := sectors_per_fat bpb) in *.
  assert (0 <= o) by (unfold o; pose proof (Z.div_pos c 2); lia).
  pose proof (Z.div_mod o 512 ltac:(lia)) as Hdm. pose proof (Z.mod_pos_bound o 512 ltac:(lia)) as Hm.
  assert (0 <= o / 512) by (apply Z.div_pos; lia).
  set (s := reserved_sectors bpb + k * spf + o / 512).
  assert (s * 512 + o mod 512 = fat_pos bpb k c) as Hpos by (unfold s, fat_pos; fold o spf; lia).
  assert (0 <= s /\ s * 512 + o mod 512 + 1 < sector_count d * 512) as [Hs0 Hs1] by (unfold s; nia).
  destruct (set_one d s (o mod 512) c v Hs0 Hm Hs1) as (d1 & E1 & C1 & B1). rewrite Hpos in B1.
  destruct (IH (k + 1) d1) as (d2 & E2 & C2 & S2 & F2); [lia|rewrite C1; lia|].
  assert (forall j, k + 1 <= j < k + 1 + Z.of_nat m ->
    fat_pos bpb k c + 1 < fat_pos bpb j c) as Hlt.
  { intros j Hj. unfold fat_pos. fold o spf. nia. }
  exists d2. split.
  { cbn [set_fats]. unfold bind. fold spf s. rewrite u32_small by (unfold s in *; nia). fold o. rewrite E1. exact E2. }
  split; [congruence|]. split.
  - intros j Hj. destruct (decide (j = k)) as [->|].
    + rewrite !F2 by (intros j' Hj'; specialize (Hlt j' Hj'); lia). rewrite !B1.
      repeat case_decide; try lia; done.
    + assert (k + 1 <= j < k + 1 + Z.of_nat m) as Hj' by lia. specialize (Hlt j Hj').
      destruct (S2 j Hj') as [-> ->]. rewrite !B1. repeat case_decide; try lia; done.
  - intros x Hx. rewrite F2 by (intros j Hj; apply Hx; lia). rewrite B1.
    destruct (Hx k ltac:(lia)). repeat case_decide; try lia; done.
Qed.

(** Writing an entry: that entry changes in every copy of the table, every other entry
    and every sector outside the tables stay as they are. *)
Lemma set_entry (d : D) bpb n c v :
  geometry d bpb n -> 0 <= c < n + 2 -> 0 <= v < 4096 ->
  exists d', fat12_dev_set_fat_entry bpb c v d = Some (inr tt, d') /\
    sector_count d' = sector_count d /\
    (forall k c', 0 <= k < fat_count bpb -> 0 <= c' < n + 2 ->
       fat_copy bpb d' k c' = if decide (c' = c) then v else fat_copy bpb d k c') /\
    (forall s, s < reserved_sectors bpb \/ root_dir_lba bpb <= s -> sector d' s = sector d s).
Proof.
  intros [Gspc Gres Gf Gspf Groot Grs Gn Gd G12 Gt] Hc Hv. unfold CHAIN_END in *.
  assert (forall c', 0 <= c' < n + 2 -> 0 <= c' + c' / 2 /\ c' + c' / 2 + 1 < sectors_per_fat bpb * 512) as Hin.
  { intros c' Hc'. destruct (half c') as (? & ? & _). lia. }
  pose proof (Hin c Hc) as Ho. destruct (half c) as (? & ? & _). unfold fat12_dev_set_fat_entry.
  change 0x0FFF with (2 ^ 12 - 1). rewrite land_mask, Z.mod_small, u32_small by lia.
  destruct (set_fats_bytes bpb c v (Z.to_nat (fat_count bpb)) 0 d) as (d' & E & C & S' & F); try lia; try nia.
  exists d'. split; [done|]. split; [done|]. rewrite Z.add_0_l, Z2Nat.id in * by lia. split.
  - intros k c' Hk Hc'. unfold fat_copy. set (B := (reserved_sectors bpb + k * sectors_per_fat bpb) * 512).
    destruct (S' k Hk) as [S1 S2].
    rewrite pack_lo_spec in S1 by (apply byte_range || lia). rewrite pack_hi_spec in S2 by (apply byte_range || lia).
    assert (forall x, B <= x < B + sectors_per_fat bpb * 512 ->
      (if decide (x = fat_pos bpb k c) then byte d' x
       else if decide (x = fat_pos bpb k c + 1) then byte d' x else byte d x) = byte d' x) as Hx.
    { intros x Hx. repeat case_decide; try done. symmetry. apply F. intros j Hj.
      destruct (decide (j = k)) as [->|Hjk]; [done|]. unfold fat_pos. unfold B in Hx.
      assert (sectors_per_fat bpb <= (j - k) * sectors_per_fat bpb \/
              (j - k) * sectors_per_fat bpb <= - sectors_per_fat bpb) by nia. lia. }
    pose proof (repack B c c' v (byte d)
      (fun x => if decide (x = fat_pos bpb k c) then byte d' x
                else if decide (x = fat_pos bpb k c + 1) then byte d' x else byte d x)
      ltac:(lia) ltac:(lia) Hv (byte_range d)) as R.
    cbv beta zeta in R. change (B + (c + c / 2)) with (fat_pos bpb k c) in R.
    change (B + (c' + c' / 2)) with (fat_pos bpb k c') in R.
    pose proof (Hin c' Hc') as Ho'.
    rewrite !Hx in R by (unfold fat_pos; fold B; lia).
    rewrite R; [done|done|done|]. intros x X1 X2. repeat case_decide; done.
  - intros s Hs. apply sector_ext. intros o Ho'. apply F. intros j Hj. unfold fat_pos.
    rewrite Groot in Hs. assert (0 <= j * sectors_per_fat bpb) by nia.
    assert (j * sectors_per_fat bpb + sectors_per_fat bpb <= fat_count bpb * sectors_per_fat bpb) by nia.
    lia.
Qed.

End Bytes.

End Fat12Table.

(** * Cluster chains

    Allocation, release, writing and reading of the chains of a FAT12 volume on a plain
    device, as operations on the table and on the sectors outside it. *)

Import FsTypes Vfs VfsWp Block Fat12Name Fat12 Fat12Driver Fat12Table.

Module Fat12Chain.

Section Chain.
Context {D : Type} `{!block_device D} `{!disc D} `{!plain_device D}.
Context (bpb : fat12_bpb) (n : Z).

#[local] Notation fat := (fat bpb).
#[local] Notation spc := (sectors_per_cluster bpb).

(** [d'] is [d] with the table [F] and, outside the tables, the sectors [S]. *)
Record evolves (d d' : D) (F : Z -> Z) (S : Z -> list Z) : Prop := {
  ev_count : sector_count d' = sector_count d;
  ev_fat c : 0 <= c < n + 2 -> fat d' c = F c;
  ev_sector s : s < reserved_sectors bpb \/ root_dir_lba bpb <= s -> sector d' s = S s;
  ev_mirror : (forall k c, 0 <= k < fat_count bpb -> 0 <= c < n + 2 -> fat_copy bpb d k c = fat d c) ->
              forall k c, 0 <= k < fat_count bpb -> 0 <= c < n + 2 -> fat_copy bpb d' k c = fat d' c
}.

Lemma evolves_refl d : evolves d d (fat d) (sector d).
Proof. by split. Qed.

Lemma evolves_trans d1 d2 d3 F S F' S' :
  evolves d1 d2 F S -> evolves d2 d3 F' S' -> evolves d1 d3 F' S'.
Proof. intros [C1 A1 B1 M1] [C2 A2 B2 M2]. split; auto. congruence. Qed.

Lemma evolves_ext d d' F S F' S' :
  evolves d d' F S -> (forall c, 0 <= c < n + 2 -> F' c = F c) ->
  (forall s, s < reserved_sectors bpb \/ root_dir_lba bpb <= s -> S' s = S s) -> evolves d d' F' S'.
Proof. intros [C A B] HF HS. split; [done|..|done]; intros; [rewrite HF|rewrite HS]; auto. Qed.

(** ** The table *)

Lemma get_fat (d : D) c :
  geometry d bpb n -> 0 <= c < n + 2 -> fat12_dev_get_fat_entry bpb c d = Some (inr (fat d c), d).
Proof.
  intros [Gspc Gres Gf Gspf Groot Grs _ Gd G12 Gt] Hc. unfold CHAIN_END in *.
  destruct (half c) as (? & ? & _). apply get_entry; [lia|lia|]. unfold fat_pos. nia.
Qed.

Lemma set_fat (d : D) c v :
  geometry d bpb n -> 0 <= c < n + 2 -> 0 <= v < 4096 ->
  exists d', fat12_dev_set_fat_entry bpb c v d = Some (inr tt, d') /\
    evolves d d' (fun x => if decide (x = c) then v else fat d x) (sector d).
Proof.
  intros G Hc Hv. destruct (set_entry d bpb n c v G Hc Hv) as (d' & E & C & A & B).
  pose proof (gm_fats _ _ _ G) as Gf. exists d'. split; [done|]. split; auto.
  - intros x Hx. apply A; lia.
  - intros Hm k x Hk Hx. unfold Fat12Table.fat in *. rewrite !A by lia.
    case_decide; [done|]. by apply Hm.
Qed.

(** The driver reads the table in the same way. *)
Lemma next_fat (d : D) c :
  geometry d bpb n -> 0 <= c < n + 2 -> fat12_get_next_cluster bpb c d = Some (inr (fat d c), d).
Proof.
  intros G Hc. pose proof (get_fat d c G Hc) as E. revert E.
  destruct G as [Gspc Gres Gf Gspf Groot Grs _ Gd G12 Gt]. unfold CHAIN_END in *.
  destruct (half c) as (? & ? & _). pose proof (pd_count d).
  assert (0 <= u32 (c + c / 2) / 512) by (apply Z.div_pos; [apply u32_range|lia]).
  unfold fat12_dev_get_fat_entry, fat12_get_next_cluster, bind, attempt, ret.
  rewrite read_plain by apply u32_range. case_bool; [|done].
  destruct (Z.eqb_spec (u32 (c + c / 2) mod 512) 511) as [->|]; [|done].
  rewrite read_plain by apply u32_range. by case_bool.
Qed.

Lemma char_at_sector_frame (d d' : D) :
  (forall s, s < root_dir_lba bpb -> sector d' s = sector d s) ->
  geometry d bpb n -> forall k c, 0 <= k < fat_count bpb -> 0 <= c < n + 2 ->
  fat_copy bpb d' k c = fat_copy bpb d k c.
Proof.
  intros Hs [Gspc Gres Gf Gspf Groot Grs _ Gd G12 Gt] k c Hk Hc.
  destruct (half c) as (? & ? & _).
  assert (forall x, x < root_dir_lba bpb * 512 -> byte d' x = byte d x) as Hb.
  { intros x Hx. unfold byte. rewrite Hs; [done|]. apply Z.div_lt_upper_bound; lia. }
  unfold fat_copy, fat_pos. rewrite !Hb by nia. done.
Qed.

(** ** Runs of sectors in the data area *)

(** Data sectors start after the root directory. *)
Definition clba (c : Z) : Z := root_dir_lba bpb + root_dir_sectors bpb + (c - 2) * spc.

Lemma cluster_lba (d : D) c :
  geometry d bpb n -> 2 <= c < n + 2 ->
  fat12_image_cluster_to_lba bpb c = clba c /\ root_dir_lba bpb <= clba c /\ 0 <= clba c /\
  clba c + spc <= sector_count d.
Proof.
  intros [Gspc Gres Gf Gspf Groot Grs _ Gd G12 Gt] Hc. pose proof (pd_count d).
  assert (0 <= (c - 2) * spc /\ (c - 2) * spc + spc <= n * spc) by nia.
  unfold fat12_image_cluster_to_lba, clba. destruct (Z.ltb_spec c 2); [lia|].
  rewrite u32_small by lia. lia.
Qed.

Definition in_run (lba m s : Z) : Prop := lba <= s < lba + m.
#[export] Instance in_run_dec lba m s : Decision (in_run lba m s).
Proof. unfold in_run. apply _. Defined.

(** A change of sectors at or after the root directory leaves the table alone. *)
Lemma evolves_data (d d' : D) :
  geometry d bpb n -> sector_count d' = sector_count d ->
  (forall s, s < root_dir_lba bpb -> sector d' s = sector d s) -> evolves d d' (fat d) (sector d').
Proof.
  intros G C Hs. pose proof (char_at_sector_frame d d' Hs G) as Hf. pose proof (gm_fats _ _ _ G).
  split; [done| |done|].
  - intros c Hc. apply Hf; lia.
  - intros Hm k c Hk Hc. unfold Fat12Table.fat in *. rewrite !Hf by lia. by apply Hm.
Qed.

Lemma zero_run m lba (d : D) :
  0 <= lba -> lba + Z.of_nat m <= sector_count d ->
  exists d', zero_sectors m lba d = Some (inr tt, d') /\ sector_count d' = sector_count d /\
    forall s, sector d' s = if decide (in_run lba (Z.of_nat m) s) then replicate 512 0 else sector d s.
Proof.
  revert lba d. induction m as [|m IH]; intros lba d Hl Hm.
  { exists d. split_and!; try done. intros s. by case_decide as E; [unfold in_run in E; lia|]. }
  pose proof (pd_count d).
  destruct (write_plain d lba (replicate 512 0)) as (d1 & E1 & C1 & S1);
    [lia|done|apply Forall_replicate; lia|].
  destruct (IH (lba + 1) d1) as (d2 & E2 & C2 & S2); [lia..|].
  exists d2. cbn [zero_sectors]. unfold bind, fat12_dev_zero_sector. rewrite E1.
  destruct (decide (m = 0%nat)) as [->|Hm0].
  - cbn in E2. injection E2 as <-. split; [done|]. split; [done|]. intros s. rewrite S1.
    unfold in_run; repeat case_decide; try lia; done.
  - rewrite u32_small by lia. rewrite E2. split; [done|]. split; [congruence|].
    intros s. rewrite S2, S1. unfold in_run. repeat case_decide; try lia; done.
Qed.

(** ** Allocation *)

Lemma alloc_loop_spec m c (d : D) :
  geometry d bpb n -> 2 <= c -> c + Z.of_nat m = n + 2 ->
  exists r d', alloc_loop m bpb c d = Some (inr r, d') /\
    ((r = 0 /\ d' = d /\ forall x, c <= x < n + 2 -> fat d x <> 0) \/
     (c <= r < n + 2 /\ fat d r = 0 /\ (forall x, c <= x < r -> fat d x <> 0) /\
      evolves d d' (fun x => if decide (x = r) then FAT12_CLUSTER_EOC else fat d x)
        (fun s => if decide (in_run (clba r) spc s) then replicate 512 0 else sector d s))).
Proof.
  revert c. induction m as [|m IH]; intros c G Hc Hm.
  { exists 0, d. split; [done|]. left. split_and!; [done|done|lia]. }
  cbn [alloc_loop]. unfold bind at 1, attempt at 1. rewrite get_fat by (done || lia).
  destruct (Z.eqb_spec (fat d c) FAT12_CLUSTER_FREE) as [Hfree|Hused].
  - destruct (set_fat d c FAT12_CLUSTER_EOC G ltac:(lia) ltac:(done)) as (d1 & E1 & V1).
    destruct (cluster_lba d c G ltac:(lia)) as (Hlba & H1 & H2 & H3).
    pose proof (gm_spc _ _ _ G) as Gspc.
    destruct (zero_run (Z.to_nat spc) (clba c) d1) as (d2 & E2 & C2 & S2);
      [lia|rewrite (ev_count _ _ _ _ V1); lia|].
    exists c, d2. split.
    { unfold bind, attempt. rewrite E1, Hlba, E2. done. }
    right. split; [lia|]. split; [done|]. split; [lia|].
    pose proof (geometry_same _ _ _ _ G (ev_count _ _ _ _ V1)) as G1.
    rewrite Z2Nat.id in S2 by lia.
    apply (evolves_trans d d1 d2 _ _ _ _ V1).
    apply (evolves_ext d1 d2 (fat d1) (sector d2)).
    + apply evolves_data; [done|done|]. intros s Hs. rewrite S2. case_decide as Hr; [|done].
      unfold in_run in Hr. lia.
    + intros x Hx. by rewrite (ev_fat _ _ _ _ V1) by done.
    + intros s Hs. rewrite S2. case_decide; [done|]. by rewrite (ev_sector _ _ _ _ V1).
  - destruct (IH (c + 1)) as (r & d' & E & Hr); [done|lia|lia|]. exists r, d'.
    unfold ret. split; [done|]. destruct Hr as [(-> & -> & Hn)|(Hr & Hf & Hlow & V)].
    + left. split_and!; try done. intros x Hx. destruct (decide (x = c)) as [->|]; [done|]. apply Hn; lia.
    + right. split_and!; [lia|lia|done| |done]. intros x Hx.
      destruct (decide (x = c)) as [->|]; [done|]. apply Hlow; lia.
Qed.

Lemma alloc_spec (d : D) :
  geometry d bpb n ->
  exists r d', fat12_dev_alloc_cluster bpb d = Some (inr r, d') /\
    ((r = 0 /\ d' = d /\ forall x, 2 <= x < n + 2 -> fat d x <> 0) \/
     (2 <= r < n + 2 /\ fat d r = 0 /\ (forall x, 2 <= x < r -> fat d x <> 0) /\
      evolves d d' (fun x => if decide (x = r) then FAT12_CLUSTER_EOC else fat d x)
        (fun s => if decide (in_run (clba r) spc s) then replicate 512 0 else sector d s))).
Proof.
  intros G. unfold fat12_dev_alloc_cluster, get. unfold bind at 1. rewrite <- (gm_count _ _ _ G).
  pose proof (gm_data _ _ _ G). apply alloc_loop_spec; [done|lia|lia].
Qed.

(** ** Chains and their release *)

(** The clusters from [c] to the end of its chain. *)
Fixpoint chain (F : Z -> Z) (c : Z) (l : list Z) : Prop :=
  match l with
  | [] => ~ (2 <= c < CHAIN_END)
  | x :: l => x = c /\ 2 <= c < n + 2 /\ chain F (F c) l
  end.

Lemma chain_ext F F' c l :
  (forall x, x ∈ l -> F' x = F x) -> chain F c l -> chain F' c l.
Proof.
  revert c. induction l as [|x l IH]; intros c HF; [done|]. intros (-> & Hc & Hl).
  split; [done|]. split; [done|]. rewrite HF by (by left). apply IH; [|done].
  intros y Hy. apply HF. by right.
Qed.

Lemma chain_elem F c l x : chain F c l -> x ∈ l -> 2 <= x < n + 2.
Proof.
  revert c. induction l as [|y l IH]; intros c Hl Hx; [by apply not_elem_of_nil in Hx|].
  destruct Hl as (-> & Hc & Hl). apply elem_of_cons in Hx as [->|Hx]; [done|by eapply IH].
Qed.

(** Distinct clusters of the volume are fewer than the turns of the chain loops. *)
Lemma clusters_length (d : D) l :
  geometry d bpb n -> NoDup l -> (forall x, x ∈ l -> 2 <= x < n + 2) -> (length l < CHAIN_FUEL)%nat.
Proof.
  intros G Hnd Hl. pose proof (gm_12bit _ _ _ G) as G12. pose proof (gm_data _ _ _ G) as [Gn _].
  assert (length l <= length (seqZ 2 n))%nat as Hlen.
  { apply submseteq_length, NoDup_submseteq; [done|]. intros x Hx. apply elem_of_seqZ.
    pose proof (Hl x Hx). lia. }
  rewrite length_seqZ in Hlen. unfold CHAIN_FUEL, CHAIN_END in *. lia.
Qed.

Lemma free_loop_spec l fuel c (d : D) :
  geometry d bpb n -> chain (fat d) c l -> NoDup l -> (length l < fuel)%nat ->
  exists d', free_loop fuel bpb c d = Some (inr tt, d') /\
    evolves d d' (fun x => if decide (x ∈ l) then 0 else fat d x) (sector d).
Proof.
  revert fuel c d. induction l as [|x l IH]; intros [|fuel] c d G Hl Hnd Hf; [simpl in *; lia| |simpl in *; lia|].
  { exists d. cbn [free_loop]. assert ((2 <=? c) && (c <? CHAIN_END) = false) as ->.
    { simpl in Hl. lia. }
    split; [done|]. apply (evolves_ext d d (fat d) (sector d)); [apply evolves_refl| |done].
    intros y _. by case_decide as Hy; [apply not_elem_of_nil in Hy|]. }
  destruct Hl as (-> & Hc & Hl). apply NoDup_cons in Hnd as [Hx Hnd].
  pose proof (gm_12bit _ _ _ G) as G12. cbn [free_loop].
  assert ((2 <=? c) && (c <? CHAIN_END) = true) as -> by lia. cbn [negb].
  unfold bind. rewrite get_fat by (done || lia).
  destruct (set_fat d c FAT12_CLUSTER_FREE G ltac:(lia) ltac:(done)) as (d1 & E1 & V1). rewrite E1.
  pose proof (geometry_same _ _ _ _ G (ev_count _ _ _ _ V1)) as G1.
  assert (chain (fat d1) (fat d c) l) as Hl1.
  { apply (chain_ext (fat d)); [|done]. intros y Hy. rewrite (ev_fat _ _ _ _ V1).
    - by case_decide; [subst|].
    - pose proof (chain_elem _ _ _ y Hl Hy). lia. }
  destruct (IH fuel (fat d c) d1 G1 Hl1 Hnd) as (d2 & E2 & V2); [simpl in *; lia|].
  exists d2. split; [done|]. apply (evolves_trans d d1 d2 _ _ _ _ V1).
  apply (evolves_ext _ _ _ _ _ _ V2).
  - intros y Hy. rewrite (ev_fat _ _ _ _ V1) by done. unfold FAT12_CLUSTER_FREE.
    repeat case_decide; set_solver.
  - intros s Hs. by rewrite (ev_sector _ _ _ _ V1).
Qed.

End Chain.

End Fat12Chain.
