(* ===== verification/Fat12Data.v ===== *)
(** * File contents on chains

    The bytes of a chain are those of its clusters in order.  Writing data along newly
    allocated clusters stores the data, padded with zeros, and links the clusters;
    when the volume is full the table is restored.  Reading a chain gives its bytes. *)

From S2P Require Import Prelude FsTypes Vfs Block Fat12Name Fat12 Fat12Driver Fat12Table.
From stdpp Require Import base list option list_numbers sets.
From Stdlib Require Import ZArith Lia ZifyBool.
Import FsTypes Vfs VfsWp Block Fat12Name Fat12 Fat12Driver Fat12Table Fat12Chain.
Open Scope Z_scope.

Module Fat12Data.

Lemma NoDup_snoc {A} (l : list A) r : NoDup l -> r ∉ l -> NoDup (l ++ [r]).
Proof.
  intros Hl Hr. apply NoDup_app. split_and!; [done| |apply NoDup_singleton].
  intros x Hx ->%list_elem_of_singleton. done.
Qed.

Lemma elem_of_snoc {A} (l : list A) r x : x ∈ l ++ [r] <-> x ∈ l \/ x = r.
Proof. by rewrite elem_of_app, list_elem_of_singleton. Qed.

Section Data.
Context {D : Type} `{!block_device D} `{!disc D} `{!plain_device D}.
Context (bpb : fat12_bpb) (n : Z).

#[local] Notation fat := (fat bpb).
#[local] Notation clba := (clba bpb).
#[local] Notation evolves := (evolves bpb n).
#[local] Notation chain := (chain n).
#[local] Notation spc := (sectors_per_cluster bpb).

(** ** Runs of sectors *)

(** The bytes of [m] sectors from [lba]. *)
Definition run (d : D) (lba : Z) (m : nat) : list Z := concat ((fun i => sector d (lba + Z.of_nat i)) <$> seq 0 m).

Lemma run_succ d lba m : run d lba (S m) = sector d lba ++ run d (lba + 1) m.
Proof.
  unfold run. cbn [seq fmap list_fmap concat]. rewrite Z.add_0_r. f_equal.
  rewrite <- fmap_S_seq, <- list_fmap_compose. f_equal. apply list_fmap_ext. intros i x _. simpl. f_equal. lia.
Qed.

Lemma run_length d lba m : length (run d lba m) = (512 * m)%nat.
Proof.
  revert lba. induction m as [|m IH]; intros lba; [done|].
  rewrite run_succ, length_app, pd_length, IH. lia.
Qed.

Lemma run_ext d d' lba m :
  (forall s, in_run lba (Z.of_nat m) s -> sector d' s = sector d s) -> run d' lba m = run d lba m.
Proof.
  revert lba. induction m as [|m IH]; intros lba Hs; [done|]. rewrite !run_succ, Hs by (unfold in_run; lia).
  f_equal. apply IH. intros s Hr. apply Hs. unfold in_run in *. lia.
Qed.

Lemma run_zero d lba m :
  (forall s, in_run lba (Z.of_nat m) s -> sector d s = replicate 512 0) -> run d lba m = replicate (512 * m) 0.
Proof.
  revert lba. induction m as [|m IH]; intros lba Hs; [done|].
  rewrite run_succ, Hs by (unfold in_run; lia). rewrite IH.
  - rewrite <- replicate_add. f_equal. lia.
  - intros s Hr. apply Hs. unfold in_run in *. lia.
Qed.

(** Padding: [data] cut or filled with zeros to [k] bytes. *)
Definition pad (k : nat) (data : list Z) : list Z := take k (data ++ replicate k 0).

Lemma pad_length k data : length (pad k data) = k.
Proof. unfold pad. rewrite length_take, length_app, length_replicate. lia. Qed.

Lemma pad_split j k data : pad (j + k) data = pad j data ++ pad k (drop j data).
Proof.
  unfold pad. destruct (decide (j <= length data)%nat) as [Hj|Hj].
  - rewrite <- take_take_drop. f_equal.
    + rewrite !take_app_le by lia. done.
    + rewrite drop_app_le by lia. rewrite !take_app. f_equal. rewrite !take_replicate. f_equal. lia.
  - rewrite (drop_ge data) by lia. rewrite !take_app, !take_replicate, !(take_ge data) by lia.
    rewrite take_nil. simpl. rewrite <- app_assoc. f_equal. rewrite <- replicate_add. f_equal. lia.
Qed.

Lemma pad_ge k data : (length data <= k)%nat -> pad k data = data ++ replicate (k - length data) 0.
Proof. intros Hk. unfold pad. rewrite take_app, take_ge, take_replicate by lia. do 2 f_equal. lia. Qed.

Lemma pad_le k data : (k <= length data)%nat -> pad k data = take k data.
Proof. intros Hk. unfold pad. by rewrite take_app_le by lia. Qed.

Lemma pad_bytes k data : Forall (fun b => 0 <= b < 256) data -> Forall (fun b => 0 <= b < 256) (pad k data).
Proof. intros Hd. apply Forall_take, Forall_app. split; [done|]. apply Forall_replicate. lia. Qed.

(** ** Sectors of one cluster *)

Lemma write_sectors_spec m lba data (d : D) :
  0 <= lba -> lba + Z.of_nat m <= sector_count d -> Forall (fun b => 0 <= b < 256) data ->
  (forall s, in_run lba (Z.of_nat m) s -> sector d s = replicate 512 0) ->
  exists d', write_sectors m lba data d = Some (inr (drop (512 * m) data), d') /\
    sector_count d' = sector_count d /\ run d' lba m = pad (512 * m) data /\
    forall s, ~ in_run lba (Z.of_nat m) s -> sector d' s = sector d s.
Proof.
  revert lba data d. induction m as [|m IH]; intros lba data d Hl Hm Hd Hz.
  { exists d. split; [destruct data; done|]. by split_and!. }
  destruct data as [|b0 data0] eqn:Ed.
  { exists d. cbn [write_sectors]. split_and!; try done. rewrite run_zero by done.
    rewrite pad_ge by (cbn; lia). done. }
  rewrite <- Ed in *. pose proof (pd_count d).
  destruct (write_plain d lba (pad 512 data)) as (d1 & E1 & C1 & S1);
    [lia|apply pad_length|by apply pad_bytes|].
  destruct (IH (lba + 1) (drop 512 data) d1) as (d2 & E2 & C2 & R2 & S2); [lia|lia|by apply Forall_drop|..].
  { intros s Hs. rewrite S1. case_decide; [unfold in_run in Hs; lia|]. apply Hz. unfold in_run in *. lia. }
  exists d2. split.
  { subst data. cbn [write_sectors]. unfold bind. change (take 512 (?x ++ replicate 512 0)) with (pad 512 x).
    rewrite E1, u32_small by lia. rewrite E2, drop_drop. do 4 f_equal. lia. }
  split; [congruence|]. split.
  - rewrite run_succ, R2, S2, S1 by (unfold in_run; lia). case_decide; [|done].
    replace (512 * S m)%nat with (512 + 512 * m)%nat by lia. by rewrite pad_split.
  - intros s Hs. rewrite S2, S1 by (unfold in_run in *; lia). case_decide; [unfold in_run in Hs; lia|done].
Qed.

Lemma read_sectors_spec m lba size copied (d : D) :
  0 <= lba -> lba + Z.of_nat m <= sector_count d ->
  read_sectors m lba size copied d =
    Some (inr (copied ++ take (Z.to_nat (size - Z.of_nat (length copied))) (run d lba m)), d).
Proof.
  revert lba copied. induction m as [|m IH]; intros lba copied Hl Hm.
  { cbn. by rewrite take_nil, app_nil_r. }
  pose proof (pd_count d). cbn [read_sectors].
  destruct (Z.ltb_spec (Z.of_nat (length copied)) size) as [Hlt|Hge]; cbn [negb].
  2: { replace (Z.to_nat (size - Z.of_nat (length copied))) with 0%nat by lia.
       by rewrite app_nil_r. }
  unfold bind. rewrite read_plain by lia.
  destruct (Z.ltb_spec lba (sector_count d)); [|lia]. rewrite u32_small, IH by lia. do 3 f_equal.
  rewrite <- app_assoc, run_succ. f_equal. rewrite length_app, length_take, pd_length.
  rewrite take_app, pd_length. f_equal.
  - destruct (decide (size - Z.of_nat (length copied) <= 512)).
    + f_equal. lia.
    + rewrite !take_ge by (rewrite pd_length; lia). done.
  - f_equal. lia.
Qed.

(** ** Clusters and their contents *)

Definition cluster_bytes (d : D) (c : Z) : list Z := run d (clba c) (Z.to_nat spc).
Definition contents (d : D) (l : list Z) : list Z := concat (cluster_bytes d <$> l).

Lemma clba_apart x y s :
  1 <= spc -> in_run (clba x) spc s -> in_run (clba y) spc s -> x = y.
Proof. unfold in_run, Fat12Chain.clba. intros. nia. Qed.

Lemma contents_ext d d' l :
  1 <= spc -> (forall x s, x ∈ l -> in_run (clba x) spc s -> sector d' s = sector d s) ->
  contents d' l = contents d l.
Proof.
  intros Hs Hx. unfold contents. f_equal. apply list_fmap_ext. intros i x Hi.
  apply run_ext. intros s Hr. rewrite Z2Nat.id in Hr by lia. apply (Hx x); [|done].
  by eapply list_elem_of_lookup_2.
Qed.

Lemma contents_app d l l' : contents d (l ++ l') = contents d l ++ contents d l'.
Proof. unfold contents. by rewrite fmap_app, concat_app. Qed.

(** The links of a chain whose clusters are [l]. *)
Fixpoint next_in (l : list Z) (x : Z) : option Z :=
  match l with
  | [] => None
  | c :: r => if decide (x = c) then Some (match r with [] => FAT12_CLUSTER_EOC | c' :: _ => c' end)
              else next_in r x
  end.

Lemma next_in_None l x : x ∉ l -> next_in l x = None.
Proof.
  induction l as [|c l IH]; intros Hx; [done|]. apply not_elem_of_cons in Hx as [H1 H2].
  cbn [next_in]. case_decide; [done|by apply IH].
Qed.

Lemma next_in_Some l x :
  x ∈ l -> (forall y, y ∈ l -> 2 <= y) -> exists v, next_in l x = Some v /\ 2 <= v.
Proof.
  induction l as [|c l IH]; intros Hx Hl; [by apply not_elem_of_nil in Hx|]. cbn [next_in].
  case_decide as E.
  - eexists. split; [done|]. destruct l as [|c' l]; [done|]. apply Hl. set_solver.
  - apply elem_of_cons in Hx as [?|Hx]; [done|]. apply IH; [done|]. intros y Hy. apply Hl. by right.
Qed.

Lemma next_in_snoc l c x :
  NoDup (l ++ [c]) ->
  next_in (l ++ [c]) x = if decide (x = c) then Some FAT12_CLUSTER_EOC
                         else if decide (last l = Some x) then Some c else next_in l x.
Proof.
  induction l as [|a l IH]; intros Hnd; [simpl; by repeat case_decide|].
  apply NoDup_cons in Hnd as [Ha Hnd]. specialize (IH Hnd).
  cbn [app next_in]. destruct (decide (x = a)) as [->|Hxa].
  - destruct (decide (a = c)) as [->|]; [exfalso; set_solver|]. destruct l as [|b l]; cbn [app last].
    + by rewrite decide_True.
    + case_decide as E; [|done]. exfalso. apply Ha.
      apply (proj2 (elem_of_app (b :: l) [c] a)). left. by apply last_Some_elem_of.
  - rewrite IH. destruct (decide (x = c)); [done|]. destruct l as [|b l]; [|done].
    cbn [last]. repeat case_decide; simplify_eq; done.
Qed.

Lemma chain_next_in (G : Z -> Z) c l :
  NoDup (c :: l) -> (forall x, x ∈ c :: l -> 2 <= x < n + 2) ->
  chain (fun x => default (G x) (next_in (c :: l) x)) c (c :: l).
Proof.
  revert c. induction l as [|b l IH]; intros c Hnd Hl.
  - split; [done|]. split; [apply Hl; set_solver|]. simpl. case_decide; [|done].
    unfold FAT12_CLUSTER_EOC, CHAIN_END. simpl. lia.
  - split; [done|]. split; [apply Hl; set_solver|]. cbn [next_in]. case_decide; [|done]. cbn [default].
    apply NoDup_cons in Hnd as [Hc Hnd].
    apply (chain_ext n (fun x => default (G x) (next_in (b :: l) x))).
    + intros x Hx. cbn [next_in]. destruct (decide (x = c)) as [->|]; [done|]. done.
    + apply IH; [done|]. intros x Hx. apply Hl. set_solver.
Qed.

End Data.

End Fat12Data.

(** * Writing and reading a file's chain

    The main loop of [fat12_core_write_file_on_device] and the read loop of
    [fat12_read_file]. *)

Import FsTypes Vfs VfsWp Block Fat12Name Fat12 Fat12Driver Fat12Table Fat12Chain Fat12Data.

Module Fat12File.

Section File.
Context {D : Type} `{!block_device D} `{!disc D} `{!plain_device D}.
Context (bpb : fat12_bpb) (n : Z).

#[local] Notation fat := (fat bpb).
#[local] Notation clba := (clba bpb).
#[local] Notation evolves := (evolves bpb n).
#[local] Notation chain := (chain n).
#[local] Notation contents := (contents bpb).
#[local] Notation spc := (sectors_per_cluster bpb).

(** Sectors of clusters that are free in [d]. *)
Definition free_sector (d : D) (s : Z) : Prop :=
  exists x, 2 <= x < n + 2 /\ fat d x = 0 /\ in_run (clba x) spc s.

Definition nonfat (s : Z) : Prop := s < reserved_sectors bpb \/ root_dir_lba bpb <= s.

(** [d] is [d0] with the free clusters [l] linked to a chain; only their sectors changed. *)
Record filled (d0 d : D) (l : list Z) : Prop := {
  fl_ev : evolves d0 d (fun x => default (fat d0 x) (next_in l x)) (sector d);
  fl_nodup : NoDup l;
  fl_free x : x ∈ l -> 2 <= x < n + 2 /\ fat d0 x = 0;
  fl_same s : nonfat s -> (forall x, x ∈ l -> ~ in_run (clba x) spc s) -> sector d s = sector d0 s
}.

Lemma filled_nil d : filled d d [].
Proof. split; [apply evolves_refl|constructor|set_solver|done]. Qed.

Lemma filled_geometry d0 d l : geometry d0 bpb n -> filled d0 d l -> geometry d bpb n.
Proof. intros G [V _ _ _]. apply (geometry_same _ _ _ _ G). by destruct V. Qed.

Lemma filled_length d0 d l : geometry d0 bpb n -> filled d0 d l -> (length l < CHAIN_FUEL)%nat.
Proof.
  intros G [_ Hnd Hf _]. apply (clusters_length bpb n d0); [done|done|]. intros x Hx. by destruct (Hf x Hx).
Qed.

(** The chain of what was filled. *)
Lemma filled_chain d0 d c l : filled d0 d (c :: l) -> chain (fat d) c (c :: l).
Proof.
  intros [V Hnd Hf _].
  apply (chain_ext n (fun x => default (fat d0 x) (next_in (c :: l) x))).
  - intros x Hx. apply (ev_fat _ _ _ _ _ _ V). destruct (Hf x Hx). lia.
  - apply chain_next_in; [done|]. intros x Hx. by destruct (Hf x Hx).
Qed.

(** A cluster that is free now is not one of those linked. *)
Lemma filled_fresh d0 d l r :
  filled d0 d l -> 2 <= r < n + 2 -> fat d r = 0 -> r ∉ l /\ fat d0 r = 0.
Proof.
  intros [V Hnd Hf _] Hr Hz. rewrite (ev_fat _ _ _ _ _ _ V) in Hz by lia.
  assert (r ∉ l) as Hl.
  { intros Hl. destruct (next_in_Some l r Hl) as (v & Ev & Hv).
    - intros y Hy. destruct (Hf y Hy). lia.
    - rewrite Ev in Hz. simpl in Hz. lia. }
  rewrite next_in_None in Hz by done. done.
Qed.

(** ** One turn *)

(** Linking the new cluster to the last one. *)
Definition link_last (l : list Z) (r : Z) : M D unit :=
  if negb (default 0 (last l) =? 0) then fat12_dev_set_fat_entry bpb (default 0 (last l)) (u16 r) else ret tt.

Lemma link_last_spec d0 d l r d1 :
  geometry d0 bpb n -> filled d0 d l -> r ∉ l -> 2 <= r < n + 2 ->
  evolves d d1 (fun x => if decide (x = r) then FAT12_CLUSTER_EOC else fat d x)
    (fun s => if decide (in_run (clba r) spc s) then replicate 512 0 else sector d s) ->
  exists d2, link_last l r d1 = Some (inr tt, d2) /\
    evolves d0 d2 (fun x => default (fat d0 x) (next_in (l ++ [r]) x))
      (fun s => if decide (in_run (clba r) spc s) then replicate 512 0 else sector d s).
Proof.
  intros G F Hr Hr2 V1. pose proof (filled_geometry _ _ _ G F) as Gd.
  pose proof (geometry_same _ _ _ _ Gd (ev_count _ _ _ _ _ _ V1)) as G1. destruct F as [V Hnd Hf _].
  assert (NoDup (l ++ [r])) as Hnd2 by (by apply NoDup_snoc).
  pose proof (gm_12bit _ _ _ G) as G12. unfold CHAIN_END in G12. unfold link_last.
  destruct (last l) as [p|] eqn:Elast; cbn [from_option id].
  - assert (p ∈ l) as Hp by (by apply last_Some_elem_of). destruct (Hf p Hp) as [Hp2 _].
    destruct (Z.eqb_spec p 0); [lia|]. cbn [negb]. rewrite u16_small by lia.
    destruct (set_fat bpb n d1 p r G1 ltac:(lia) ltac:(lia)) as (d2 & E2 & V2). exists d2. split; [done|].
    apply (evolves_trans bpb n d0 d d2 _ _ _ _ V), (evolves_trans bpb n d d1 d2 _ _ _ _ V1).
    apply (evolves_ext bpb n _ _ _ _ _ _ V2).
    + intros x Hx. rewrite next_in_snoc, Elast by done. rewrite (ev_fat _ _ _ _ _ _ V1) by done.
      rewrite (ev_fat _ _ _ _ _ _ V) by done.
      destruct (decide (x = r)) as [->|]; [case_decide; [by subst|done]|].
      destruct (decide (x = p)) as [->|Hxp]; [by rewrite decide_True|].
      by rewrite decide_False by congruence.
    + intros s Hs. by rewrite (ev_sector _ _ _ _ _ _ V1).
  - exists d1. split; [done|]. apply last_None in Elast as ->.
    apply (evolves_trans bpb n d0 d d1 _ _ _ _ V), (evolves_ext bpb n _ _ _ _ _ _ V1); [|done].
    intros x Hx. rewrite (ev_fat _ _ _ _ _ _ V) by done. simpl. by case_decide.
Qed.

Lemma fill_step d0 d l data r d1 :
  geometry d0 bpb n -> filled d0 d l -> Forall (fun b => 0 <= b < 256) data ->
  2 <= r < n + 2 -> fat d r = 0 ->
  evolves d d1 (fun x => if decide (x = r) then FAT12_CLUSTER_EOC else fat d x)
    (fun s => if decide (in_run (clba r) spc s) then replicate 512 0 else sector d s) ->
  exists d3, bind (link_last l r) (fun _ =>
      write_sectors (Z.to_nat spc) (fat12_image_cluster_to_lba bpb r) data) d1 =
      Some (inr (drop (512 * Z.to_nat spc) data), d3) /\
    filled d0 d3 (l ++ [r]) /\
    contents d3 (l ++ [r]) = contents d l ++ pad (512 * Z.to_nat spc) data.
Proof.
  intros G F Hd Hr Hz V1. destruct (filled_fresh _ _ _ _ F Hr Hz) as [Hrl Hz0].
  destruct (link_last_spec d0 d l r d1 G F Hrl Hr V1) as (d2 & E2 & V2).
  pose proof (filled_geometry _ _ _ G F) as Gd. pose proof (gm_spc _ _ _ G) as Gspc.
  pose proof (geometry_same _ _ _ _ G (ev_count _ _ _ _ _ _ V2)) as G2.
  destruct (cluster_lba bpb n d2 r G2 Hr) as (Hlba & L1 & L2 & L3). rewrite Hlba.
  destruct (write_sectors_spec (Z.to_nat spc) (clba r) data d2) as (d3 & E3 & C3 & R3 & S3); try done; [lia|..].
  { rewrite Z2Nat.id by lia. intros s Hs. rewrite (ev_sector _ _ _ _ _ _ V2) by (right; unfold in_run in Hs; lia).
    by rewrite decide_True. }
  rewrite Z2Nat.id in S3 by lia. exists d3. split; [unfold bind; by rewrite E2|].
  assert (evolves d2 d3 (fat d2) (sector d3)) as V3.
  { apply evolves_data; [done|done|]. intros s Hs. apply S3. unfold in_run. lia. }
  destruct F as [V Hnd Hf Hsame]. split; [split|].
  - apply (evolves_trans bpb n d0 d2 d3 _ _ _ _ V2), (evolves_ext bpb n _ _ _ _ _ _ V3); [|done].
    intros c Hc. by rewrite (ev_fat _ _ _ _ _ _ V2).
  - by apply NoDup_snoc.
  - intros x [Hx| ->]%elem_of_snoc; [by apply Hf|done].
  - intros s Hs Hout. assert (~ in_run (clba r) spc s) as Hr' by (apply Hout, elem_of_snoc; by right).
    rewrite S3, (ev_sector _ _ _ _ _ _ V2), decide_False by done.
    apply Hsame; [done|]. intros x Hx. apply Hout, elem_of_snoc. by left.
  - rewrite contents_app. f_equal.
    + apply contents_ext; [lia|]. intros x s Hx Hs.
      assert (~ in_run (clba r) spc s) as Hns.
      { intros Hs'. apply Hrl. by rewrite <- (clba_apart bpb x r s ltac:(lia) Hs Hs'). }
      rewrite S3 by done. destruct (Hf x Hx) as [Hx2 _].
      destruct (cluster_lba bpb n d x Gd Hx2) as (_ & X1 & _). unfold in_run in Hs.
      rewrite (ev_sector _ _ _ _ _ _ V2) by (right; lia). by rewrite decide_False.
    + unfold Fat12Data.contents, cluster_bytes. simpl. rewrite R3. apply app_nil_r.
Qed.

(** ** The whole loop *)

(** The table is that of [d0] again and only sectors of free clusters changed. *)
Record restored (d0 d : D) : Prop := {
  rs_ev : evolves d0 d (fat d0) (sector d);
  rs_same s : nonfat s -> ~ free_sector d0 s -> sector d s = sector d0 s
}.

(** Giving back the chain written so far. *)
Definition give_back (l : list Z) : M D unit :=
  if negb (hd 0 l =? 0) then bind (attempt (fat12_dev_free_cluster_chain bpb (hd 0 l))) (fun _ => ret tt)
  else ret tt.

Lemma give_back_spec d0 d l :
  geometry d0 bpb n -> filled d0 d l ->
  exists d1, give_back l d = Some (inr tt, d1) /\ restored d0 d1.
Proof.
  intros G F. pose proof (filled_length _ _ _ G F) as Hlen. pose proof (filled_geometry _ _ _ G F) as Gd.
  destruct l as [|c l].
  - exists d. split; [done|]. destruct F as [V _ _ Hs]. split; [done|].
    intros s Hs1 Hs2. apply Hs; [done|]. intros x Hx. by apply not_elem_of_nil in Hx.
  - pose proof (filled_chain _ _ _ _ F) as Hch. destruct F as [V Hnd Hf Hs].
    destruct (Hf c ltac:(by left)) as [Hc _].
    destruct (free_loop_spec bpb n (c :: l) CHAIN_FUEL c d Gd Hch Hnd Hlen) as (d1 & E1 & V1).
    exists d1. split.
    { unfold give_back. simpl. destruct (Z.eqb_spec c 0); [lia|]. cbn [negb].
      unfold bind, attempt, fat12_dev_free_cluster_chain. by rewrite E1. }
    split.
    + apply (evolves_trans bpb n d0 d d1 _ _ _ _ V), (evolves_ext bpb n _ _ _ _ _ _ V1).
      * intros x Hx. case_decide as Hxl; [by destruct (Hf x Hxl)|].
        rewrite (ev_fat _ _ _ _ _ _ V) by done. by rewrite next_in_None.
      * intros s Hs'. by rewrite (ev_sector _ _ _ _ _ _ V1).
    + intros s Hs1 Hs2. rewrite (ev_sector _ _ _ _ _ _ V1) by done. apply Hs; [done|].
      intros x Hx Hr. apply Hs2. exists x. destruct (Hf x Hx). done.
Qed.

Definition writes (d0 d : D) (l : list Z) (data : list Z) (on_full : M D unit) (r : Z + Z) (d' : D) : Prop :=
  match r with
  | inr f => exists l2 k, filled d0 d' (l ++ l2) /\ f = hd 0 (l ++ l2) /\
      contents d' (l ++ l2) = contents d l ++ data ++ replicate k 0 /\ (data = [] -> l2 = [])
  | inl e => e = FS_ERR_NO_SPACE /\ exists d1 r1, restored d0 d1 /\ on_full d1 = Some (r1, d')
  end.

Lemma write_clusters_spec d0 on_full fuel data l d :
  geometry d0 bpb n -> (forall d, on_full d <> None) -> Forall (fun b => 0 <= b < 256) data ->
  (length data <= fuel)%nat -> filled d0 d l ->
  wp (write_clusters fuel bpb on_full (hd 0 l) (default 0 (last l)) data) d (writes d0 d l data on_full).
Proof.
  intros G Hfull. revert data l d. induction fuel as [|fuel IH]; intros data l d Hd Hf F.
  { destruct data; [|simpl in Hf; lia]. exists [], 0%nat. rewrite !app_nil_r. done. }
  destruct data as [|b0 data0] eqn:Ed.
  { exists [], 0%nat. rewrite !app_nil_r. done. }
  rewrite <- Ed in *. assert (write_clusters (S fuel) bpb on_full (hd 0 l) (default 0 (last l)) data =
    bind (fat12_dev_alloc_cluster bpb) (fun c =>
      if c =? 0 then bind (give_back l) (fun _ => bind (attempt on_full) (fun _ => fail FS_ERR_NO_SPACE))
      else bind (link_last l c) (fun _ =>
           bind (write_sectors (Z.to_nat spc) (fat12_image_cluster_to_lba bpb c) data) (fun rest =>
           write_clusters fuel bpb on_full (if hd 0 l =? 0 then c else hd 0 l) c rest)))) as ->.
  { by rewrite Ed. }
  pose proof (filled_geometry _ _ _ G F) as Gd.
  destruct (alloc_spec bpb n d Gd) as (r & d1 & E1 & [(-> & -> & Hnone)|(Hr & Hz & _ & V1)]).
  - apply wp_bind, (wp_intro _ _ _ _ _ E1). cbn [Z.eqb].
    destruct (give_back_spec d0 d l G F) as (d2 & E2 & Hres).
    apply wp_bind, (wp_intro _ _ _ _ _ E2). apply wp_bind, wp_attempt.
    destruct (on_full d2) as [[r1 d3]|] eqn:E3; [|by apply Hfull in E3].
    apply (wp_intro _ _ _ _ _ E3). split; [done|]. by exists d2, r1.
  - apply wp_bind, (wp_intro _ _ _ _ _ E1). destruct (Z.eqb_spec r 0); [lia|].
    destruct (fill_step d0 d l data r d1 G F Hd Hr Hz V1) as (d3 & E3 & F3 & C3).
    unfold bind in E3. destruct (link_last l r d1) as [[[e|[]] d2]|] eqn:E2; [done| |done].
    apply wp_bind, (wp_intro _ _ _ _ _ E2), wp_bind, (wp_intro _ _ _ _ _ E3).
    assert ((if hd 0 l =? 0 then r else hd 0 l) = hd 0 (l ++ [r])) as ->.
    { destruct l as [|c l]; [done|]. simpl. destruct (fl_free _ _ _ F c ltac:(by left)) as [? _].
      by destruct (Z.eqb_spec c 0); [lia|]. }
    assert (default 0 (last (l ++ [r])) = r) as Hlast by (by rewrite last_snoc).
    rewrite <- Hlast at 2. pose proof (gm_spc _ _ _ G) as Gspc.
    assert (1 <= length data)%nat by (rewrite Ed; simpl; lia).
    apply (wp_mono _ _ _ _ (IH (drop (512 * Z.to_nat spc) data) (l ++ [r]) d3
             ltac:(by apply Forall_drop) ltac:(rewrite length_drop; lia) F3)).
    intros [e|f] d'; [done|]. intros (l2 & k & F' & -> & C' & Hl2).
    rewrite <- app_assoc in *. cbn [app] in *. destruct (decide (length data <= 512 * Z.to_nat spc)%nat) as [Hs|Hs].
    + rewrite (drop_ge data) in * by lia. rewrite (Hl2 eq_refl) in *.
      exists [r], (512 * Z.to_nat spc - length data + k)%nat. split_and!; [done|done| |by rewrite Ed].
      rewrite C', C3, pad_ge by done. rewrite replicate_add, <- !app_assoc. done.
    + exists (r :: l2), k. split_and!; try done; [|by rewrite Ed].
      rewrite C', C3, pad_le by lia. rewrite <- !app_assoc. f_equal. by rewrite app_assoc, take_drop.
Qed.

(** ** Reading *)

Lemma read_chain_done fuel c size copied (d : D) :
  size <= Z.of_nat (length copied) -> read_chain fuel bpb c size copied d = Some (inr copied, d).
Proof.
  intros Hs. destruct fuel; cbn [read_chain];
    (destruct (Z.ltb_spec (Z.of_nat (length copied)) size); [lia|done]).
Qed.

Lemma contents_cons d c l : contents d (c :: l) = cluster_bytes bpb d c ++ contents d l.
Proof. done. Qed.

Lemma read_chain_spec l fuel c size copied (d : D) :
  geometry d bpb n -> chain (fat d) c l ->
  size <= Z.of_nat (length copied) + Z.of_nat (length (contents d l)) ->
  (Z.to_nat (size - Z.of_nat (length copied)) <= fuel)%nat ->
  read_chain fuel bpb c size copied d =
    Some (inr (copied ++ take (Z.to_nat (size - Z.of_nat (length copied))) (contents d l)), d).
Proof.
  intros G. revert fuel c copied. induction l as [|x l IH]; intros fuel c copied Hl Hs Hf.
  { change (contents d []) with (@nil Z) in *. simpl in Hs. rewrite read_chain_done by lia.
    by rewrite take_nil, app_nil_r. }
  destruct (decide (size <= Z.of_nat (length copied))) as [Hd|Hd].
  { rewrite read_chain_done by done.
    replace (Z.to_nat (size - Z.of_nat (length copied))) with 0%nat by lia. by rewrite app_nil_r. }
  destruct Hl as (-> & Hc & Hl). destruct fuel as [|fuel]; [lia|]. cbn [read_chain].
  destruct (Z.ltb_spec (Z.of_nat (length copied)) size); [|lia]. cbn [negb].
  pose proof (gm_12bit _ _ _ G) as G12. pose proof (gm_spc _ _ _ G) as Gspc.
  assert ((c <? 2) || (CHAIN_END <=? c) = false) as -> by lia. cbn [negb guard]. unfold bind, ret.
  destruct (cluster_lba bpb n d c G Hc) as (Hlba & _ & L2 & L3).
  rewrite Hlba, read_sectors_spec by lia.
  fold (cluster_bytes bpb d c). set (m := Z.to_nat (size - Z.of_nat (length copied))) in *.
  assert (Z.of_nat m = size - Z.of_nat (length copied)) as Hm by (unfold m; lia).
  assert (length (cluster_bytes bpb d c) = (512 * Z.to_nat spc)%nat) as Hcl by apply run_length.
  rewrite contents_cons in *. rewrite length_app in Hs. rewrite take_app, app_assoc.
  assert (Z.of_nat (length (copied ++ take m (cluster_bytes bpb d c))) =
          Z.of_nat (length copied) + Z.of_nat (m `min` (512 * Z.to_nat spc))) as Hlen.
  { rewrite length_app, length_take, Hcl. lia. }
  destruct (Z.ltb_spec (Z.of_nat (length (copied ++ take m (cluster_bytes bpb d c)))) size) as [Hlt|Hge].
  - rewrite (next_fat bpb n d c G) by lia. rewrite IH by (done || lia). do 5 f_equal. lia.
  - rewrite read_chain_done by done. do 2 f_equal.
    replace (m - length (cluster_bytes bpb d c))%nat with 0%nat by lia. by rewrite app_nil_r.
Qed.

End File.

End Fat12File.
