(* ===== verification/Fat12Dir.v ===== *)
(** * Directories

    A directory is the list of its sectors, for the root directory and for a chain of
    clusters.  A search is a scan of the entries in order; writing an entry replaces one
    of them. *)

From S2P Require Import Prelude FsTypes Vfs Block Fat12Name Fat12 Fat12Driver Fat12Table Fat12Data.
From stdpp Require Import base list option list_numbers sets.
From Stdlib Require Import ZArith Lia ZifyBool.
Import FsTypes Vfs VfsWp Block Fat12Name Fat12 Fat12Driver Fat12Table Fat12Chain Fat12Data Fat12File.
Open Scope Z_scope.

Module Fat12Dir.

(** ** Scans over sectors *)

Section Scan.
Context {A R : Type} (step : A -> Z -> nat -> list Z -> A + R).

(** The scan as a function of the sectors. *)
Fixpoint scan_list (S : Z -> list Z) (lbas : list Z) (a : A) : A + R :=
  match lbas with
  | [] => inl a
  | lba :: r => match scan_entries step 16 0 lba (S lba) a with
                | inl a => scan_list S r a
                | inr x => inr x
                end
  end.

Lemma scan_list_app S l1 l2 a :
  scan_list S (l1 ++ l2) a = match scan_list S l1 a with inl a => scan_list S l2 a | inr x => inr x end.
Proof. revert a. induction l1 as [|x l1 IH]; intros a; [done|]. cbn [app scan_list].
  by destruct (scan_entries step 16 0 x (S x) a). Qed.

Lemma scan_list_ext S S' lbas a : (forall s, s ∈ lbas -> S' s = S s) -> scan_list S' lbas a = scan_list S lbas a.
Proof.
  revert a. induction lbas as [|x l IH]; intros a HS; [done|]. cbn [scan_list]. rewrite HS by (by left).
  destruct (scan_entries step 16 0 x (S x) a); [|done]. apply IH. intros s Hs. apply HS. by right.
Qed.

(** ** Scans over entries *)

(** The entries of a directory in order, with their places. *)
Definition entries_of (sec : list Z) (lba : Z) (m i : nat) : list (Z * nat * list Z) :=
  (fun j => (lba, j, entry_at sec j)) <$> seq i m.
Definition flat (S : Z -> list Z) (lbas : list Z) : list (Z * nat * list Z) :=
  concat ((fun s => entries_of (S s) s 16 0) <$> lbas).

Fixpoint scan_flat (l : list (Z * nat * list Z)) (a : A) : A + R :=
  match l with
  | [] => inl a
  | (s, i, e) :: l => match step a s i e with inl a => scan_flat l a | inr r => inr r end
  end.

Lemma scan_entries_flat m i lba sec a :
  scan_entries step m i lba sec a = scan_flat (entries_of sec lba m i) a.
Proof.
  revert i a. induction m as [|m IH]; intros i a; [done|]. cbn [scan_entries]. unfold entries_of.
  cbn [seq fmap list_fmap scan_flat]. destruct (step a lba i (entry_at sec i)); [apply IH|done].
Qed.

Lemma scan_flat_app l1 l2 a :
  scan_flat (l1 ++ l2) a = match scan_flat l1 a with inl a => scan_flat l2 a | inr x => inr x end.
Proof.
  revert a. induction l1 as [|[[s i] e] l1 IH]; intros a; [done|]. cbn [app scan_flat].
  by destruct (step a s i e).
Qed.

Lemma scan_list_flat S lbas a : scan_list S lbas a = scan_flat (flat S lbas) a.
Proof.
  revert a. induction lbas as [|s lbas IH]; intros a; [done|]. cbn [scan_list]. unfold flat.
  cbn [fmap list_fmap concat]. rewrite scan_flat_app, scan_entries_flat.
  destruct (scan_flat _ a); [apply IH|done].
Qed.

End Scan.

Lemma flat_lookup S lbas q :
  flat S lbas !! q = (fun s => (s, q mod 16, entry_at (S s) (q mod 16))%nat) <$> lbas !! (q / 16)%nat.
Proof.
  revert q. induction lbas as [|s lbas IH]; intros q; [done|]. unfold flat. cbn [fmap list_fmap concat].
  fold (flat S lbas). destruct (decide (q < 16)%nat) as [Hq|Hq].
  - rewrite lookup_app_l by (unfold entries_of; rewrite length_fmap, length_seq; lia).
    unfold entries_of. rewrite list_lookup_fmap, lookup_seq_lt by lia.
    rewrite Nat.div_small, Nat.mod_small by lia. done.
  - rewrite lookup_app_r by (unfold entries_of; rewrite length_fmap, length_seq; lia).
    unfold entries_of at 1. rewrite length_fmap, length_seq, IH.
    assert (q / 16 = 1 + (q - 16) / 16)%nat as ->.
    { replace q with (1 * 16 + (q - 16))%nat at 1 by lia. rewrite Nat.div_add_l by lia. lia. }
    assert (q mod 16 = (q - 16) mod 16)%nat as ->.
    { replace q with (q - 16 + 1 * 16)%nat at 1 by lia. apply Nat.Div0.mod_add. }
    done.
Qed.

(** A scan that keeps no state stops at the first entry that stops it. *)
Section Unit.
Context {R : Type} (step : unit -> Z -> nat -> list Z -> unit + R).

Definition passes (x : Z * nat * list Z) : Prop := let '(s, i, e) := x in step tt s i e = inl tt.

Lemma scan_flat_inl l : scan_flat step l tt = inl tt <-> forall q x, l !! q = Some x -> passes x.
Proof.
  induction l as [|[[s i] e] l IH]; [done|]. cbn [scan_flat]. split.
  - destruct (step tt s i e) as [[]|] eqn:E; [|done]. intros H [|q] x Hq; [by injection Hq as <-|].
    by apply (proj1 IH H q).
  - intros H. specialize (H 0%nat _ eq_refl) as H0. simpl in H0. rewrite H0.
    apply IH. intros q x Hq. by apply (H (S q)).
Qed.

Lemma scan_flat_inr l r :
  scan_flat step l tt = inr r <->
  exists p s i e, l !! p = Some (s, i, e) /\ step tt s i e = inr r /\
    forall q x, (q < p)%nat -> l !! q = Some x -> passes x.
Proof.
  induction l as [|[[s i] e] l IH]; [split; [done|by intros (p & ? & ? & ? & ? & _)]|]. cbn [scan_flat]. split.
  - destruct (step tt s i e) as [[]|r'] eqn:E.
    + intros (p & s' & i' & e' & Hp & Hs & Hb)%IH. exists (S p), s', i', e'. split_and!; try done.
      intros [|q] x Hq Hx; [by injection Hx as <-|]. apply (Hb q); [lia|done].
    + intros [= ->]. exists 0%nat, s, i, e. split_and!; try done. lia.
  - intros ([|p] & s' & i' & e' & Hp & Hs & Hb).
    + injection Hp as -> -> ->. by rewrite Hs.
    + pose proof (Hb 0%nat _ ltac:(lia) eq_refl) as H0. simpl in H0. rewrite H0.
      apply IH. exists p, s', i', e'. split_and!; try done. intros q x Hq Hx. apply (Hb (S q)); [lia|done].
Qed.

End Unit.

(** Replacing the entry at position [p]. *)
Lemma flat_insert S S' lbas p lba i old e :
  NoDup lbas -> flat S lbas !! p = Some (lba, i, old) ->
  (forall s, s ∈ lbas -> s <> lba -> S' s = S s) ->
  (forall j, (j < 16)%nat -> entry_at (S' lba) j = if decide (j = i) then e else entry_at (S lba) j) ->
  flat S' lbas = <[p := (lba, i, e)]> (flat S lbas).
Proof.
  intros Hnd Hp Hs He. rewrite flat_lookup in Hp. apply fmap_Some in Hp as (s0 & Hs0 & [= -> -> ->]).
  change (15 - (Nat.divmod p 15 0 15).2)%nat with (p mod 16)%nat in *.
  apply list_eq. intros q. rewrite flat_lookup. destruct (decide (q = p)) as [->|Hqp].
  - rewrite list_lookup_insert_eq.
    + rewrite Hs0. cbn [fmap option_fmap option_map]. rewrite He, decide_True; [done|done|]. apply Nat.mod_upper_bound. lia.
    + apply lookup_lt_is_Some. rewrite flat_lookup, Hs0. by eexists.
  - rewrite list_lookup_insert_ne, flat_lookup by done.
    destruct (lbas !! (q / 16)%nat) as [s|] eqn:Hsq; [|done]. cbn [fmap option_fmap option_map]. do 2 f_equal.
    destruct (decide (s = s0)) as [->|Hne]; [|by rewrite Hs; [|by eapply list_elem_of_lookup_2|]].
    assert (q / 16 = p / 16)%nat as Hd by (by eapply NoDup_lookup).
    rewrite He by (apply Nat.mod_upper_bound; lia). rewrite decide_False; [done|]. intros Hm. apply Hqp.
    pose proof (Nat.div_mod_eq q 16). pose proof (Nat.div_mod_eq p 16). lia.
Qed.

Section Dir.
Context {D : Type} `{!block_device D} `{!disc D} `{!plain_device D}.
Context (bpb : fat12_bpb) (n : Z).

#[local] Notation fat := (fat bpb).
#[local] Notation clba := (clba bpb).
#[local] Notation evolves := (evolves bpb n).
#[local] Notation spc := (sectors_per_cluster bpb).

(** ** Directories as lists of sectors *)

(** A directory chain ends with an end mark. *)
Fixpoint dir_chain (F : Z -> Z) (c : Z) (l : list Z) : Prop :=
  match l with
  | [] => CHAIN_END <= c
  | x :: l => x = c /\ 2 <= c < n + 2 /\ dir_chain F (F c) l
  end.

Definition lbas_of (l : list Z) : list Z := concat ((fun c => seqZ (clba c) spc) <$> l).

(** The directory [dir] of [d]: its clusters, none for the root, and its sectors. *)
Inductive directory (d : D) : Z -> list Z -> list Z -> Prop :=
| root_directory : directory d 0 [] (seqZ (root_dir_lba bpb) (root_dir_sectors bpb))
| sub_directory c l : c <> 0 -> dir_chain (fat d) c l -> NoDup l -> directory d c l (lbas_of l).

Lemma dir_chain_elem F c l x : dir_chain F c l -> x ∈ l -> 2 <= x < n + 2 /\ F x <> 0.
Proof.
  revert c. induction l as [|y l IH]; intros c Hl Hx; [by apply not_elem_of_nil in Hx|].
  destruct Hl as (-> & Hc & Hl). apply elem_of_cons in Hx as [->|Hx]; [|by eapply IH].
  split; [done|]. destruct l as [|z l]; [simpl in Hl; unfold CHAIN_END in Hl; lia|].
  destruct Hl as (-> & ? & _). lia.
Qed.

Lemma dir_chain_ext F F' c l : (forall x, x ∈ l -> F' x = F x) -> dir_chain F c l -> dir_chain F' c l.
Proof.
  revert c. induction l as [|x l IH]; intros c HF; [done|]. intros (-> & Hc & Hl).
  split; [done|]. split; [done|]. rewrite HF by (by left). apply IH; [|done].
  intros y Hy. apply HF. by right.
Qed.

Lemma directory_ext d d' dir l lbas :
  directory d dir l lbas -> (forall x, x ∈ l -> fat d' x = fat d x) -> directory d' dir l lbas.
Proof.
  intros [|c l' Hc Hl Hnd] HF; constructor; try done. by apply (dir_chain_ext (fat d)).
Qed.

Lemma directory_elem d dir l lbas x :
  directory d dir l lbas -> x ∈ l -> 2 <= x < n + 2 /\ fat d x <> 0.
Proof.
  intros [|c l' _ Hl _] Hx; [by apply not_elem_of_nil in Hx|]. by eapply dir_chain_elem.
Qed.

Lemma elem_of_lbas l s : s ∈ lbas_of l <-> exists c, c ∈ l /\ in_run (clba c) spc s.
Proof.
  unfold lbas_of. rewrite list_elem_of_In, in_concat. unfold in_run. split.
  - intros (x & Hx & Hs). apply list_elem_of_In, list_elem_of_fmap in Hx as (c & -> & Hc).
    apply list_elem_of_In, elem_of_seqZ in Hs. by exists c.
  - intros (c & Hc & Hs). exists (seqZ (clba c) spc). split.
    + apply list_elem_of_In, list_elem_of_fmap. by exists c.
    + by apply list_elem_of_In, elem_of_seqZ.
Qed.

(** A directory lies outside the tables and outside the free clusters. *)
Lemma directory_sector d dir l lbas s :
  geometry d bpb n -> directory d dir l lbas -> s ∈ lbas ->
  root_dir_lba bpb <= s /\ s < sector_count d /\ 0 <= s /\ ~ free_sector bpb n d s /\
  forall x, 2 <= x < n + 2 -> x ∉ l -> ~ in_run (clba x) spc s.
Proof.
  intros G Hd Hs. pose proof (gm_spc _ _ _ G) as Gspc.
  assert (0 <= root_dir_lba bpb) as G0.
  { destruct G. assert (0 <= fat_count bpb * sectors_per_fat bpb) by nia. lia. }
  pose proof (gm_data _ _ _ G) as [Gn Gd]. assert (0 <= n * spc) by nia.
  destruct Hd as [|c l Hc Hl Hnd].
  - apply elem_of_seqZ in Hs.
    assert (forall x, 2 <= x -> ~ in_run (clba x) spc s) as Hx.
    { intros x Hx Hr. unfold in_run, Fat12Chain.clba in Hr. assert (0 <= (x - 2) * spc) by nia. lia. }
    split_and!; [lia|lia|lia| |].
    + intros (x & ? & _ & Hr). apply (Hx x); [lia|done].
    + intros x ? _. apply Hx. lia.
  - apply elem_of_lbas in Hs as (y & Hy & Hr).
    destruct (dir_chain_elem _ _ _ y Hl Hy) as [Hy2 Hy3].
    destruct (cluster_lba bpb n d y G Hy2) as (_ & L1 & L2 & L3). unfold in_run in Hr.
    split_and!; [lia|lia|lia| |].
    + intros (x & ? & Hz & Hr'). rewrite (clba_apart bpb x y s ltac:(lia) Hr' Hr) in Hz. done.
    + intros x _ Hx Hr'. apply Hx. by rewrite (clba_apart bpb x y s ltac:(lia) Hr' Hr).
Qed.

Lemma lbas_of_NoDup l : 1 <= spc -> NoDup l -> NoDup (lbas_of l).
Proof.
  intros Hs. induction 1 as [|c l Hc Hnd IH]; [constructor|]. unfold lbas_of. cbn [fmap list_fmap concat].
  apply NoDup_app. split_and!; [apply NoDup_seqZ| |done]. intros s Hr Hr'.
  apply elem_of_seqZ in Hr. apply elem_of_lbas in Hr' as (c' & Hc' & Hr').
  apply Hc. by rewrite (clba_apart bpb c c' s).
Qed.

Lemma directory_NoDup d dir l lbas : geometry d bpb n -> directory d dir l lbas -> NoDup lbas.
Proof.
  intros G [|c l' Hc Hl Hnd]; [apply NoDup_seqZ|]. apply lbas_of_NoDup; [|done]. by destruct (gm_spc _ _ _ G).
Qed.

(** ** Scans *)

Section Scans.
Context {A R : Type} (step : A -> Z -> nat -> list Z -> A + R).

Lemma scan_sectors_spec m lba a (d : D) :
  0 <= lba -> lba + Z.of_nat m <= sector_count d ->
  scan_sectors step m lba a d = Some (inr (scan_list step (sector d) (seqZ lba (Z.of_nat m)) a), d).
Proof.
  revert lba a. induction m as [|m IH]; intros lba a Hl Hm; [done|]. pose proof (pd_count d).
  cbn [scan_sectors]. unfold bind. rewrite read_plain by lia.
  destruct (Z.ltb_spec lba (sector_count d)); [|lia]. rewrite (seqZ_cons lba) by lia.
  cbn [scan_list]. destruct (scan_entries step 16 0 lba (sector d lba) a) as [a'|r]; [|done].
  rewrite u32_small, IH by lia. do 4 f_equal. f_equal; lia.
Qed.

Lemma scan_chain_spec next l fuel c a (d : D) :
  geometry d bpb n -> (forall c, 0 <= c < n + 2 -> next c d = Some (inr (fat d c), d)) ->
  dir_chain (fat d) c l -> (length l < fuel)%nat ->
  scan_chain step fuel bpb next c a d = Some (inr (scan_list step (sector d) (lbas_of l) a), d).
Proof.
  intros G Hnext. revert fuel c a. induction l as [|x l IH]; intros [|fuel] c a Hl Hf; try (simpl in *; lia).
  { cbn [scan_chain]. simpl in Hl. destruct (Z.ltb_spec c CHAIN_END); [lia|done]. }
  destruct Hl as (-> & Hc & Hl). pose proof (gm_12bit _ _ _ G) as G12. cbn [scan_chain].
  destruct (Z.ltb_spec c CHAIN_END); [|lia]. cbn [negb]. unfold bind.
  destruct (cluster_lba bpb n d c G Hc) as (-> & _ & L2 & L3). pose proof (gm_spc _ _ _ G) as Gspc.
  rewrite scan_sectors_spec by lia. rewrite Z2Nat.id by lia.
  change (lbas_of (c :: l)) with (seqZ (clba c) spc ++ lbas_of l). rewrite scan_list_app.
  destruct (scan_list step (sector d) (seqZ (clba c) spc) a) as [a'|r]; [|done].
  rewrite Hnext by lia. apply IH; [done|simpl in *; lia].
Qed.

Lemma scan_dir_spec next dir l lbas a (d : D) :
  geometry d bpb n -> (forall c, 0 <= c < n + 2 -> next c d = Some (inr (fat d c), d)) ->
  directory d dir l lbas ->
  scan_dir step bpb next dir a d = Some (inr (scan_list step (sector d) lbas a), d).
Proof.
  intros G Hnext Hd. unfold scan_dir. pose proof (gm_root_sectors _ _ _ G) as Grs.
  pose proof (gm_data _ _ _ G) as [Gn Gd]. pose proof (gm_spc _ _ _ G) as Gspc.
  assert (0 <= root_dir_lba bpb /\ 0 <= n * spc) as [G0 G1].
  { destruct G. assert (0 <= fat_count bpb * sectors_per_fat bpb) by nia. nia. }
  destruct Hd as [|c l Hc Hl Hnd].
  - cbn [Z.eqb]. rewrite scan_sectors_spec by lia. by rewrite Z2Nat.id by lia.
  - destruct (Z.eqb_spec c 0); [done|]. apply scan_chain_spec; try done.
    apply (clusters_length bpb n d); [done|done|]. intros x Hx. by destruct (dir_chain_elem _ _ _ x Hl Hx).
Qed.

End Scans.

End Dir.

End Fat12Dir.

(** * Directory entries

    The bytes of an entry and what a search sees of them, 8.3 names, and the effect of
    writing an entry on the searches of its directory. *)

Import FsTypes Vfs VfsWp Block Fat12Name Fat12 Fat12Driver Fat12Table Fat12Chain Fat12Data Fat12File Fat12Dir.

Module Fat12Entry.

Definition byte_list (l : list Z) : Prop := Forall (fun b => 0 <= b < 256) l.

(** ** 8.3 names *)

Lemma upper_range c : 0 <= c < 256 -> 0 <= upper c < 256.
Proof. intros Hc. unfold upper. case_bool; lia. Qed.

Lemma file_name_loop_spec name bl el ext out res :
  Forall (fun c => 0 <= c < 256) name -> length out = 11%nat -> byte_list out ->
  file_name_loop bl el ext name out = inr res ->
  length res = 11%nat /\ byte_list res /\ ((1 <= bl)%nat -> char_at res 0 = char_at out 0).
Proof.
  intros Hn. revert bl el ext out. induction Hn as [|c name Hc _ IH]; intros bl el ext out Hl Hb; cbn [file_name_loop].
  { case_bool; [done|]. intros [= ->]. done. }
  repeat (case_bool; try done); intros Hres; apply IH in Hres; try done;
    try (by rewrite length_insert); try (apply Forall_insert; [done|by apply upper_range]);
    destruct Hres as (? & ? & H0); (split_and!; [done|done|]); intros Hbl; rewrite H0 by lia;
    rewrite ?char_at_insert by lia; try case_decide; try lia; done.
Qed.

Lemma make_83_spec name res :
  Forall (fun c => 0 <= c < 256) name -> fat12_make_83_file_name name = inr res ->
  length res = 11%nat /\ byte_list res /\ char_at res 0 = upper (char_at name 0).
Proof.
  intros Hn. unfold fat12_make_83_file_name. destruct (_ || _) eqn:E; [done|].
  destruct name as [|c name]; [done|]. apply orb_false_iff in E as [_ Ep]. cbn in Ep.
  apply Forall_cons in Hn as [Hc Hn]. cbn [file_name_loop]. rewrite Ep.
  case_bool; [done|]. cbn [negb Nat.leb]. intros Hres.
  apply file_name_loop_spec in Hres as (H1 & H2 & H3); try done.
  - split_and!; try done. rewrite H3 by lia. rewrite char_at_insert by (cbn; lia). by case_decide.
  - apply Forall_insert; [apply Forall_replicate; unfold space; lia|by apply upper_range].
Qed.

(** ** The bytes of an entry *)

Lemma land_ff x : 0 <= Z.land x 0xFF < 256.
Proof. change 0xFF with (2 ^ 8 - 1). rewrite land_mask by lia. apply Z.mod_pos_bound. lia. Qed.

Lemma le16_put c : 0 <= c < 65536 -> Z.lor (Z.land c 0xFF) (Z.shiftl (Z.land (Z.shiftr c 8) 0xFF) 8) = c.
Proof.
  intros Hc. rewrite lor_shiftl by (apply land_ff || lia). change 0xFF with (2 ^ 8 - 1).
  rewrite !land_mask, Z.shiftr_div_pow2 by lia. change (2 ^ 8) with 256.
  rewrite (Z.mod_small (c / 256)) by (Z.to_euclidean_division_equations; lia).
  Z.to_euclidean_division_equations; lia.
Qed.

Lemma le32_put x :
  0 <= x < 2 ^ 32 ->
  Z.lor (Z.lor (Z.lor (Z.land x 0xFF) (Z.shiftl (Z.land (Z.shiftr x 8) 0xFF) 8))
               (Z.shiftl (Z.land (Z.shiftr x 16) 0xFF) 16))
        (Z.shiftl (Z.land (Z.shiftr x 24) 0xFF) 24) = x.
Proof.
  intros Hx. pose proof (land_ff x). pose proof (land_ff (Z.shiftr x 8)). pose proof (land_ff (Z.shiftr x 16)).
  pose proof (land_ff (Z.shiftr x 24)).
  rewrite (lor_shiftl _ _ 8), (lor_shiftl _ _ 16), (lor_shiftl _ _ 24) by lia.
  change 0xFF with (2 ^ 8 - 1). rewrite !land_mask, !Z.shiftr_div_pow2 by lia.
  change (2 ^ 8) with 256. change (2 ^ 16) with 65536. change (2 ^ 24) with 16777216. change (2 ^ 32) with 4294967296 in *.
  Z.to_euclidean_division_equations; lia.
Qed.

Section Entry.
Variables (name83 : list Z) (attr cluster size : Z).
Hypothesis Hname : length name83 = 11%nat.

Let e := fat12_image_write_dir_entry name83 attr cluster size.

Lemma entry_length : length e = 32%nat.
Proof using Hname. unfold e, fat12_image_write_dir_entry. rewrite !length_app, length_take, Hname. done. Qed.

Lemma entry_tail i : (11 <= i)%nat -> char_at e i = char_at (drop 11 e) (i - 11).
Proof using Type. clear Hname. intros Hi. unfold char_at. rewrite lookup_drop. do 2 f_equal. lia. Qed.

Lemma entry_drop : drop 11 e = [attr] ++ replicate 14 0 ++ fat12_put_le16 cluster ++
  [Z.land size 0xFF; Z.land (Z.shiftr size 8) 0xFF; Z.land (Z.shiftr size 16) 0xFF; Z.land (Z.shiftr size 24) 0xFF].
Proof using Hname. unfold e, fat12_image_write_dir_entry. rewrite drop_app_length'; [done|]. rewrite length_take. lia. Qed.

Lemma entry_name : take 11 e = name83.
Proof using Hname.
  unfold e, fat12_image_write_dir_entry. rewrite take_app_length' by (rewrite length_take; lia). apply take_ge. lia.
Qed.

Lemma entry_first : char_at e 0 = char_at name83 0.
Proof using Hname. unfold char_at. rewrite <- entry_name. fold e. by rewrite lookup_take_lt by lia. Qed.

End Entry.

(** What a search makes of an entry that was written. *)
Lemma find_written name83 lba i cluster size :
  length name83 = 11%nat -> char_at name83 0 <> FAT12_ENTRY_FREE -> char_at name83 0 <> FAT12_ENTRY_DELETED ->
  0 <= cluster < 65536 ->
  let e := fat12_image_write_dir_entry name83 0 cluster size in
  find_step name83 tt lba i e = inr (inr (cluster, 0, (lba, Z.of_nat (i * 32)))).
Proof.
  intros Hn H0 H5 Hc e. unfold find_step.
  assert (char_at e 0 = char_at name83 0) as -> by (by apply entry_first).
  assert (char_at e 11 = 0) as ->.
  { unfold e. rewrite entry_tail, entry_drop by (done || lia). done. }
  assert (fat12_le16 e 26 = cluster) as ->.
  { unfold fat12_le16, e. rewrite !entry_tail, !entry_drop by (done || lia). by apply le16_put. }
  apply Z.eqb_neq in H0, H5. rewrite H0, H5. cbn [orb negb Z.land Z.eqb].
  unfold e. rewrite entry_name by done. by rewrite bool_decide_true.
Qed.

Lemma size_written name83 cluster size :
  length name83 = 11%nat -> 0 <= size < 2 ^ 32 ->
  fat12_le32 (fat12_image_write_dir_entry name83 0 cluster size) 28 = size.
Proof.
  intros Hn Hs. unfold fat12_le32. rewrite !entry_tail, !entry_drop by (done || lia). by apply le32_put.
Qed.

(** ** Replacing an entry of a sector *)

Lemma entry_at_splice s e i j :
  length s = 512%nat -> length e = 32%nat -> (i < 16)%nat -> (j < 16)%nat ->
  entry_at (take (32 * i) s ++ e ++ drop (32 * i + 32) s) j = if decide (j = i) then e else entry_at s j.
Proof.
  intros Hs He Hi Hj. unfold entry_at. assert (length (take (32 * i) s) = (32 * i)%nat) as Hl.
  { rewrite length_take. lia. }
  case_decide as E; [subst j|destruct (decide (j < i)%nat)].
  - rewrite drop_app_length' by done. by rewrite take_app_length' by lia.
  - rewrite drop_app_le by lia. rewrite take_app_le by (rewrite length_drop; lia).
    rewrite skipn_firstn_comm, take_take. f_equal. lia.
  - rewrite drop_app_ge by lia. rewrite Hl, drop_app_ge by lia. rewrite He, drop_drop. do 2 f_equal. lia.
Qed.

Lemma splice_bytes s e i :
  byte_list s -> byte_list e -> byte_list (take (32 * i) s ++ e ++ drop (32 * i + 32) s).
Proof. intros Hs He. apply Forall_app. split; [by apply Forall_take|]. apply Forall_app. split; [done|by apply Forall_drop]. Qed.

Lemma entry_bytes name83 cluster size :
  byte_list name83 -> byte_list (fat12_image_write_dir_entry name83 0 cluster size).
Proof.
  intros Hn. unfold fat12_image_write_dir_entry, byte_list.
  repeat (apply Forall_app; split); try (by apply Forall_take); try (apply Forall_replicate; lia);
    unfold fat12_put_le16; repeat constructor; try apply land_ff; lia.
Qed.

End Fat12Entry.
