(* ===== verification/Fat12Write.v ===== *)
(** * Writing a file on a volume

    [fat12_core_write_file_on_device] as a whole: the old chain is released, the data
    is written along a new one, and the entry of the directory is set. *)

From S2P Require Import Prelude FsTypes Vfs Block Fat12Name Fat12 Fat12Driver Fat12Table Fat12Data Fat12Dir.
From stdpp Require Import base list option list_numbers sets.
From Stdlib Require Import ZArith Lia ZifyBool.
Import FsTypes Vfs VfsWp Block Fat12Name Fat12 Fat12Driver Fat12Table Fat12Chain Fat12Data Fat12File Fat12Dir
  Fat12Entry.
Open Scope Z_scope.

Module Fat12Write.

Section Write.
Context {D : Type} `{!block_device D} `{!disc D} `{!plain_device D}.
Context (bpb : fat12_bpb) (n : Z).

#[local] Notation fat := (fat bpb).
#[local] Notation clba := (clba bpb).
#[local] Notation evolves := (evolves bpb n).
#[local] Notation directory := (directory bpb n).
#[local] Notation filled := (filled bpb n).
#[local] Notation chain := (chain n).
#[local] Notation contents := (contents bpb).
#[local] Notation spc := (sectors_per_cluster bpb).

(** ** Searches *)

Lemma find_entry_spec (d : D) dir l lbas name :
  geometry d bpb n -> directory d dir l lbas ->
  fat12_dev_find_entry bpb dir name d =
    Some (match scan_flat (find_step name) (flat (sector d) lbas) tt with
          | inl _ => inl FS_ERR_NOT_FOUND | inr x => x end, d).
Proof.
  intros G Hd. unfold fat12_dev_find_entry, bind.
  rewrite (scan_dir_spec bpb n _ _ dir l lbas tt d G (fun c => get_fat bpb n d c G) Hd), scan_list_flat.
  by destruct (scan_flat _ _ _).
Qed.

Lemma find_free_entry_spec (d : D) dir l lbas :
  geometry d bpb n -> directory d dir l lbas ->
  fat12_dev_find_free_entry bpb dir d =
    Some (match scan_flat free_step (flat (sector d) lbas) tt with
          | inl _ => inl FS_ERR_NO_SPACE | inr x => inr x end, d).
Proof.
  intros G Hd. unfold fat12_dev_find_free_entry, bind.
  rewrite (scan_dir_spec bpb n _ _ dir l lbas tt d G (fun c => get_fat bpb n d c G) Hd), scan_list_flat.
  by destruct (scan_flat _ _ _).
Qed.

(** A place for the entry of [name]: no entry before it stops the search. *)
Definition slot_for (d : D) (lbas : list Z) (name : list Z) (ref : entry_ref) : Prop :=
  exists p lba i old, flat (sector d) lbas !! p = Some (lba, i, old) /\ ref = (lba, Z.of_nat (i * 32)) /\
    (i < 16)%nat /\ lba ∈ lbas /\
    forall q x, (q < p)%nat -> flat (sector d) lbas !! q = Some x -> passes (find_step name) x.

Lemma flat_place (d : D) lbas p lba i e :
  flat (sector d) lbas !! p = Some (lba, i, e) -> (i < 16)%nat /\ lba ∈ lbas.
Proof.
  rewrite flat_lookup. intros (s & Hs & E)%fmap_Some. injection E as -> -> _.
  split; [|by eapply list_elem_of_lookup_2]. change (p mod 16 < 16)%nat. apply Nat.mod_upper_bound. lia.
Qed.

Lemma find_slot (d : D) lbas name c a ref :
  scan_flat (find_step name) (flat (sector d) lbas) tt = inr (inr (c, a, ref)) -> slot_for d lbas name ref.
Proof.
  intros (p & lba & i & e & Hp & Hs & Hb)%scan_flat_inr. exists p, lba, i, e.
  destruct (flat_place _ _ _ _ _ _ Hp) as [Hi Hl]. split_and!; try done.
  unfold find_step in Hs. repeat case_bool; try done. by injection Hs.
Qed.

(** The first free entry, when the search finds nothing. *)
Lemma free_slot (d : D) lbas name ref :
  (forall f, scan_flat (find_step name) (flat (sector d) lbas) tt <> inr (inr f)) ->
  scan_flat free_step (flat (sector d) lbas) tt = inr ref -> slot_for d lbas name ref.
Proof.
  intros Hnone (p & lba & i & e & Hp & Hs & Hb)%scan_flat_inr. exists p, lba, i, e.
  destruct (flat_place _ _ _ _ _ _ Hp) as [Hi Hl]. split_and!; try done.
  { unfold free_step in Hs. by case_bool; [injection Hs|]. }
  assert (forall q s j e, (q < p)%nat -> flat (sector d) lbas !! q = Some (s, j, e) ->
    find_step name tt s j e <> inr (inl FS_ERR_NOT_FOUND)) as Hfree.
  { intros q s j e' Hq Hx. specialize (Hb q _ Hq Hx). unfold passes, free_step in Hb. unfold find_step.
    destruct (char_at e' 0 =? FAT12_ENTRY_FREE); [done|]. repeat case_bool; done. }
  destruct (scan_flat (find_step name) (flat (sector d) lbas) tt) as [[]|[e0|f]] eqn:E;
    [|apply scan_flat_inr in E as (p' & s' & i' & e' & Hp' & Hs' & Hb')|by destruct (Hnone f)].
  - intros q x _ Hx. by apply (proj1 (scan_flat_inl _ _) E q).
  - intros q x Hq Hx. destruct (decide (q < p')%nat); [by apply (Hb' q)|].
    exfalso. apply (Hfree p' s' i' e'); [lia|done|]. unfold find_step in *. repeat case_bool; congruence.
Qed.

(** ** Writing the entry *)

Lemma entry_sector (d : D) lba i name cluster size :
  (i < 16)%nat -> length name = 11%nat -> byte_list name ->
  let s := take (32 * i) (sector d lba) ++ fat12_image_write_dir_entry name 0 cluster size ++
           drop (32 * i + 32) (sector d lba) in
  length s = 512%nat /\ byte_list s.
Proof.
  intros Hi Hn Hb s. split; [|apply splice_bytes; [apply pd_bytes|by apply entry_bytes]].
  unfold s. rewrite !length_app, length_take, length_drop, pd_length, entry_length by done. lia.
Qed.

Lemma write_entry_unfold (d : D) lba i name cluster size :
  0 <= lba -> (i < 16)%nat ->
  fat12_dev_write_entry (lba, Z.of_nat (i * 32)) name 0 cluster size d =
  if lba <? sector_count d then
    block_core_write lba 1 (take (32 * i) (sector d lba) ++
      fat12_image_write_dir_entry name 0 cluster size ++ drop (32 * i + 32) (sector d lba)) d
  else Some (inl FS_ERR_INVALID, d).
Proof.
  intros Hl Hi. unfold fat12_dev_write_entry, guard, bind. cbn [fst snd].
  destruct (Z.ltb_spec 480 (Z.of_nat (i * 32))); [lia|]. cbn [negb]. unfold ret. rewrite read_plain by done.
  rewrite Nat2Z.id, (Nat.mul_comm i 32). by destruct (lba <? sector_count d).
Qed.

Lemma write_entry_returns (d : D) lba i name :
  0 <= lba -> (i < 16)%nat -> length name = 11%nat -> byte_list name ->
  fat12_dev_write_entry (lba, Z.of_nat (i * 32)) name 0 0 0 d <> None.
Proof.
  intros Hl Hi Hn Hb. rewrite write_entry_unfold by done.
  destruct (Z.ltb_spec lba (sector_count d)); [|done].
  assert (0 <= lba < sector_count d) as Hr by lia.
  destruct (entry_sector d lba i name 0 0 Hi Hn Hb) as [E1 E2].
  destruct (write_plain d lba _ Hr E1 E2) as (d' & E & _). by rewrite E.
Qed.

Lemma write_entry_spec (d : D) dir l lbas name ref cluster size :
  geometry d bpb n -> directory d dir l lbas -> slot_for d lbas name ref ->
  length name = 11%nat -> byte_list name ->
  char_at name 0 <> FAT12_ENTRY_FREE -> char_at name 0 <> FAT12_ENTRY_DELETED ->
  0 <= cluster < 65536 -> 0 <= size < 2 ^ 32 ->
  exists d', fat12_dev_write_entry ref name 0 cluster size d = Some (inr tt, d') /\
    evolves d d' (fat d) (sector d') /\ (forall s, s <> ref.1 -> sector d' s = sector d s) /\ ref.1 ∈ lbas /\
    fat12_dev_find_entry bpb dir name d' = Some (inr (cluster, 0, ref), d') /\
    fat12_le32 (entry_at (sector d' ref.1) (Z.to_nat (ref.2 / 32))) 28 = size.
Proof.
  intros G Hd (p & lba & i & old & Hp & -> & Hi & Hl & Hb) Hn Hbn H0 H5 Hc Hsz.
  destruct (directory_sector bpb n d dir l lbas lba G Hd Hl) as (L1 & L2 & L3 & _).
  destruct (entry_sector d lba i name cluster size Hi Hn Hbn) as [E1 E2]. cbn zeta in E1, E2.
  assert (0 <= lba < sector_count d) as Hr by lia.
  destruct (write_plain d lba _ Hr E1 E2) as (d' & E & C & S').
  exists d'. rewrite write_entry_unfold by lia. destruct (Z.ltb_spec lba (sector_count d)); [|lia].
  set (e := fat12_image_write_dir_entry name 0 cluster size) in *. split; [done|].
  assert (evolves d d' (fat d) (sector d')) as V.
  { apply evolves_data; [done|done|]. intros s Hs. rewrite S'. by case_decide; [lia|]. }
  assert (forall j, (j < 16)%nat -> entry_at (sector d' lba) j = if decide (j = i) then e else entry_at (sector d lba) j) as Hent.
  { intros j Hj. rewrite S', decide_True by done. apply entry_at_splice; try done; [apply pd_length|by apply entry_length]. }
  cbn [fst snd]. split; [done|]. split; [intros s Hs; by rewrite S', decide_False|]. split; [done|].
  pose proof (geometry_same _ _ _ _ G C) as G'. split.
  - assert (directory d' dir l lbas) as Hd'.
    { apply (directory_ext bpb n d); [done|]. intros x Hx. apply (ev_fat _ _ _ _ _ _ V).
      destruct (directory_elem bpb n d dir l lbas x Hd Hx). lia. }
    rewrite (find_entry_spec d' dir l lbas name G' Hd').
    assert (scan_flat (find_step name) (flat (sector d') lbas) tt =
            inr (inr (cluster, 0, (lba, Z.of_nat (i * 32))))) as ->; [|done].
    rewrite (flat_insert (sector d) (sector d') lbas p lba i old e (directory_NoDup bpb n d dir l lbas G Hd) Hp);
      [|intros s _ Hs; by rewrite S', decide_False|done].
    apply scan_flat_inr. exists p, lba, i, e. split; [apply list_lookup_insert_eq, lookup_lt_is_Some; by eexists|].
    split; [by apply find_written|]. intros q x Hq. rewrite list_lookup_insert_ne by lia. apply Hb. lia.
  - replace (Z.to_nat (Z.of_nat (i * 32) / 32)) with i.
    + rewrite Hent, decide_True by done. by apply size_written.
    + rewrite Nat2Z.inj_mul, Z.div_mul by lia. lia.
Qed.

(** ** The steps of the operation *)

Lemma locate_inv path parent leaf (d d' : D) :
  Forall (fun c => 0 < c < 256) path ->
  fat12_locate fat12_make_83_file_name path d = Some (inr (bpb, parent, leaf), d') ->
  length leaf = 11%nat /\ byte_list leaf /\ char_at leaf 0 <> FAT12_ENTRY_FREE.
Proof.
  intros Hp. unfold fat12_locate, bind, lift, guard.
  destruct (block_core_read 0 1 d) as [[[?|s] d1]|]; [done| |done].
  destruct (fat12_parse_bpb s zero_bpb) as [rc b]. destruct (rc =? FS_OK); [|done]. unfold ret at 1.
  destruct (fat12_split_create_path path) as [?|[par nm]] eqn:Es; [done|]. cbn [snd].
  destruct (fat12_make_83_file_name nm) as [?|leaf'] eqn:Em; [done|].
  destruct (fat12_dev_resolve_dir b _ d1) as [[[?|c] d2]|]; [done| |done]. intros [= <- <- -> <-].
  assert (Forall (fun c => 0 < c < 256) nm) as Hnm.
  { unfold fat12_split_create_path in Es. destruct (negb _); [done|].
    destruct (scan_path 0 0 path) as [[s0 len]|]; [|done]. destruct (_ || _); [done|].
    destruct (FS_NAME_CAP <=? _); [done|]. injection Es as _ <-. by apply Forall_drop. }
  destruct (make_83_spec nm leaf) as (H1 & H2 & H3); [|done|].
  { eapply Forall_impl; [exact Hnm|]. intros x Hx; simpl in *; lia. }
  split_and!; [done..|]. rewrite H3. destruct nm as [|c0 nm]; [done|]. apply Forall_cons in Hnm as [Hc0 _].
  change (char_at (c0 :: nm) 0) with c0. unfold upper, FAT12_ENTRY_FREE. case_bool; lia.
Qed.

(** Releasing the old chain. *)
Lemma release_spec (d : D) old lf :
  geometry d bpb n -> chain (fat d) old lf -> NoDup lf ->
  exists d1, (if negb (old =? 0) then fat12_dev_free_cluster_chain bpb old else ret tt) d = Some (inr tt, d1) /\
    evolves d d1 (fun x => if decide (x ∈ lf) then 0 else fat d x) (sector d).
Proof.
  intros G Hc Hnd. destruct (Z.eqb_spec old 0) as [->|Hold]; cbn [negb].
  - destruct lf as [|x lf]; [|destruct Hc as (-> & ? & _); lia]. exists d. split; [done|].
    apply (evolves_ext bpb n d d (fat d) (sector d)); [apply evolves_refl| |done].
    intros y _. by case_decide as Hy; [apply not_elem_of_nil in Hy|].
  - apply free_loop_spec; try done. apply (clusters_length bpb n d); [done|done|].
    intros x Hx. by eapply chain_elem.
Qed.

(** The file is there: a search finds its entry with the size, and reading the chain of
    the entry gives the data. *)
Definition stored (d : D) (dir : Z) (leaf data : list Z) : Prop :=
  exists first ref,
    fat12_dev_find_entry bpb dir leaf d = Some (inr (first, 0, ref), d) /\
    fat12_le32 (entry_at (sector d ref.1) (Z.to_nat (ref.2 / 32))) 28 = Z.of_nat (length data) /\
    read_chain (length data) bpb first (Z.of_nat (length data)) [] d = Some (inr data, d).

Lemma slot_for_ext (d d' : D) lbas name ref :
  (forall s, s ∈ lbas -> sector d' s = sector d s) -> slot_for d lbas name ref -> slot_for d' lbas name ref.
Proof.
  intros Hs. unfold slot_for. assert (flat (sector d') lbas = flat (sector d) lbas) as ->; [|done].
  apply list_eq. intros q. rewrite !flat_lookup. destruct (lbas !! (q / 16)%nat) as [s|] eqn:E; [|done].
  cbn [fmap option_fmap option_map]. by rewrite Hs by (by eapply list_elem_of_lookup_2).
Qed.

Lemma finish_spec (d1 d2 : D) dir l lbas leaf ref l2 data k :
  geometry d1 bpb n -> directory d1 dir l lbas -> slot_for d1 lbas leaf ref ->
  length leaf = 11%nat -> byte_list leaf ->
  char_at leaf 0 <> FAT12_ENTRY_FREE -> char_at leaf 0 <> FAT12_ENTRY_DELETED ->
  Z.of_nat (length data) < 2 ^ 32 ->
  filled d1 d2 l2 -> contents d2 l2 = data ++ replicate k 0 -> (data = [] -> l2 = []) ->
  exists d3, fat12_dev_write_entry ref leaf 0 (u16 (hd 0 l2)) (Z.of_nat (length data)) d2 = Some (inr tt, d3) /\
    stored d3 dir leaf data.
Proof.
  intros G1 Hd Hslot Hn Hb H0 H5 Hlen F Hc Hnil. pose proof (filled_geometry _ _ _ _ _ G1 F) as G2.
  pose proof (gm_12bit _ _ _ G1) as G12. unfold CHAIN_END in G12.
  assert (directory d2 dir l lbas) as Hd2.
  { apply (directory_ext bpb n d1); [done|]. intros x Hx.
    destruct (directory_elem bpb n d1 dir l lbas x Hd Hx) as [Hx2 Hx3].
    rewrite (ev_fat _ _ _ _ _ _ (fl_ev _ _ _ _ _ F)) by lia. rewrite next_in_None; [done|].
    intros Hx4. by destruct (fl_free _ _ _ _ _ F x Hx4). }
  assert (forall s, s ∈ lbas -> sector d2 s = sector d1 s) as Hs2.
  { intros s Hs. destruct (directory_sector bpb n d1 dir l lbas s G1 Hd Hs) as (S1 & _ & _ & S2 & _).
    apply (fl_same _ _ _ _ _ F); [by right|]. intros x Hx Hr. apply S2. exists x.
    destruct (fl_free _ _ _ _ _ F x Hx). done. }
  assert (0 <= hd 0 l2 < 65536) as Hhd.
  { destruct l2 as [|c l2]; [cbn; lia|]. destruct (fl_free _ _ _ _ _ F c ltac:(by left)). cbn. lia. }
  rewrite u16_small by lia.
  destruct (write_entry_spec d2 dir l lbas leaf ref (hd 0 l2) (Z.of_nat (length data)) G2 Hd2
    (slot_for_ext d1 d2 lbas leaf ref Hs2 Hslot) Hn Hb H0 H5 Hhd ltac:(lia)) as (d3 & E3 & V3 & Hs3 & Hin & Hf3 & Hsz3).
  exists d3. split; [done|]. exists (hd 0 l2), ref. split; [done|]. split; [done|].
  destruct (decide (data = [])) as [->|Hne].
  { rewrite (Hnil eq_refl). done. }
  destruct l2 as [|c l2]; [by destruct data|].
  pose proof (geometry_same _ _ _ _ G2 (ev_count _ _ _ _ _ _ V3)) as G3. pose proof (gm_spc _ _ _ G1) as Gspc.
  assert (contents d3 (c :: l2) = contents d2 (c :: l2)) as Hc3.
  { apply contents_ext; [lia|]. intros x s Hx Hr. apply Hs3. intros ->.
    destruct (directory_sector bpb n d1 dir l lbas ref.1 G1 Hd Hin) as (_ & _ & _ & S2 & _).
    apply S2. exists x. destruct (fl_free _ _ _ _ _ F x Hx). done. }
  rewrite (read_chain_spec bpb n (c :: l2) _ _ _ _ d3 G3).
  - cbn [length app]. rewrite Z.sub_0_r, Nat2Z.id, Hc3, Hc, take_app_length. done.
  - apply (chain_ext n (fat d2)); [|by apply (filled_chain bpb n d1)].
    intros x Hx. apply (ev_fat _ _ _ _ _ _ V3). destruct (fl_free _ _ _ _ _ F x Hx). lia.
  - rewrite Hc3, Hc, length_app. cbn. lia.
  - cbn. lia.
Qed.

End Write.

End Fat12Write.
