(* ===== verification/Fat12Props.v ===== *)
(** * The promises of the FAT12 driver

    The allocation table, and files that read back as they were written. *)

From S2P Require Import Prelude FsTypes Vfs Block Fat12Name Fat12 Fat12Driver Fat12Table Fat12Data Fat12Dir Fat12Write.
From stdpp Require Import base list option list_numbers sets gmap strings.
From Stdlib Require Import ZArith Lia ZifyBool.
Import FsTypes Vfs VfsWp Block Fat12Name Fat12 Fat12Driver Fat12Table Fat12Chain Fat12Data Fat12File Fat12Dir
  Fat12Entry Fat12Write.
Open Scope Z_scope.
Open Scope vfs_scope.

Module Fat12Props.

Section Props.
Context {D : Type} `{!block_device D} `{!disc D} `{!plain_device D}.

(** After the entry is found or a free one chosen: the rest of the operation. *)
Lemma write_rest bpb n (d d1 : D) dir l lbas leaf ref data (have : bool) :
  geometry d1 bpb n -> directory bpb n d1 dir l lbas -> slot_for d1 lbas leaf ref ->
  length leaf = 11%nat -> byte_list leaf -> char_at leaf 0 <> FAT12_ENTRY_FREE ->
  char_at leaf 0 <> FAT12_ENTRY_DELETED -> byte_list data -> Z.of_nat (length data) < 2 ^ 32 ->
  wp (first_cluster <- write_clusters (length data) bpb
        (if have then fat12_dev_write_entry ref leaf 0 0 0 else ret tt) 0 0 data ;;
      fat12_dev_write_entry ref leaf 0 (u16 first_cluster) (Z.of_nat (length data))) d1
    (fun r d' => match r with
                 | inr _ => stored bpb d' dir leaf data
                 | inl rc => rc = FS_ERR_NO_SPACE /\ (have = false -> restored bpb n d1 d')
                 end).
Proof.
  intros G1 Hd Hslot Hn Hb H0 H5 Hdata Hlen.
  assert (forall d, (if have then fat12_dev_write_entry ref leaf 0 0 0 else ret tt) d <> None) as Hfull.
  { intros d0. destruct have; [|done]. destruct Hslot as (p & lba & i & old & _ & -> & Hi & Hl & _).
    destruct (directory_sector bpb n d1 dir l lbas lba G1 Hd Hl) as (_ & _ & L3 & _).
    by apply write_entry_returns. }
  apply (wp_seq _ _ _ _ _ (write_clusters_spec bpb n d1 _ (length data) data [] d1 G1 Hfull Hdata
           ltac:(lia) (filled_nil bpb n d1))).
  - intros rc d' (-> & d2 & r1 & Hres & Efull). split; [done|]. intros ->. by injection Efull as _ <-.
  - intros f d2 (l2 & k & F & -> & Hc & Hnil). cbn [app] in *.
    destruct (finish_spec bpb n d1 d2 dir l lbas leaf ref l2 data k) as (d3 & E3 & Hst); try done.
    by apply (wp_intro _ _ _ _ _ E3).
Qed.

(** A search ends in one of two ways. *)
Lemma find_cases bpb n (d : D) dir l lbas leaf :
  geometry d bpb n -> directory bpb n d dir l lbas ->
  let r := scan_flat (find_step leaf) (flat (sector d) lbas) tt in
  (fat12_dev_find_entry bpb dir leaf d = Some (inl FS_ERR_NOT_FOUND, d) /\ forall f, r <> inr (inr f)) \/
  (exists old attr ref, fat12_dev_find_entry bpb dir leaf d = Some (inr (old, attr, ref), d) /\
     r = inr (inr (old, attr, ref))).
Proof.
  intros G Hd r. pose proof (find_entry_spec bpb n d dir l lbas leaf G Hd) as Hfind. fold r in Hfind.
  destruct r as [[]|[rc|[[old attr] ref]]] eqn:Escan; [by left| |right; eauto]. left.
  assert (rc = FS_ERR_NOT_FOUND) as ->; [|done].
  apply scan_flat_inr in Escan as (p & s & i & e & _ & Hs & _). unfold find_step in Hs.
  repeat case_bool; try done. by injection Hs.
Qed.

(** Writing a file that is not there: an entry is chosen, then written. *)
Lemma write_new bpb n (d : D) dir l lbas leaf data :
  geometry d bpb n -> directory bpb n d dir l lbas ->
  (forall f, scan_flat (find_step leaf) (flat (sector d) lbas) tt <> inr (inr f)) ->
  length leaf = 11%nat -> byte_list leaf -> char_at leaf 0 <> FAT12_ENTRY_FREE ->
  char_at leaf 0 <> FAT12_ENTRY_DELETED -> byte_list data -> Z.of_nat (length data) < 2 ^ 32 ->
  wp (ref <- fat12_dev_find_free_entry bpb dir ;;
      first_cluster <- write_clusters (length data) bpb (ret tt) 0 0 data ;;
      fat12_dev_write_entry ref leaf 0 (u16 first_cluster) (Z.of_nat (length data))) d
    (fun r d' => match r with
                 | inr _ => stored bpb d' dir leaf data
                 | inl rc => rc = FS_ERR_NO_SPACE /\ forall c, 0 <= c < n + 2 -> fat bpb d' c = fat bpb d c
                 end).
Proof.
  intros G Hd Hnone Hn Hb H0 H5 Hdata Hlen.
  pose proof (find_free_entry_spec bpb n d dir l lbas G Hd) as Hfree.
  destruct (scan_flat free_step (flat (sector d) lbas) tt) as [[]|ref] eqn:Efree;
    apply wp_bind, (wp_intro _ _ _ _ _ Hfree); [done|].
  assert (slot_for d lbas leaf ref) as Hslot by by apply free_slot.
  apply (wp_mono _ _ _ _ (write_rest bpb n d d dir l lbas leaf ref data false G Hd Hslot Hn Hb H0 H5 Hdata Hlen)).
  intros [rc|[]] d'; [|done]. intros [-> Hres]. split; [done|]. intros c Hc.
  apply (ev_fat _ _ _ _ _ _ (rs_ev _ _ _ _ (Hres eq_refl)) c Hc).
Qed.

(** C13: Writing a file on a FAT12 volume. Let the device store what is written to it; let the volume have a
    consistent geometry (its regions fit on the device and its table covers its clusters); let the path, of
    non-zero bytes, lead to a name of a directory whose cluster chain is well formed and does not repeat; let
    the name not begin with byte 0xE5, which the code accepts and which marks an entry as deleted; and if the
    directory has an entry of that name, let its cluster chain be well formed, not repeat and share no cluster
    with the directory. Then for data of less than 2^32 bytes [fat12_core_write_file_on_device] returns. After
    success a search of the directory finds the entry with the size of the data, and reading the cluster chain
    of that entry, as [fat12_read_file] does, gives exactly the data, whatever the file held before. Otherwise
    it refuses a directory of that name and changes nothing, or reports that the volume is full, in which case
    creating a file has left the allocation table as it was. *)
Theorem fat12_write_then_read bpb n (d : D) path dir leaf l lbas data :
  geometry d bpb n -> Forall (fun c => 0 < c < 256) path ->
  fat12_locate fat12_make_83_file_name path d = Some (inr (bpb, dir, leaf), d) ->
  directory bpb n d dir l lbas ->
  (forall old attr ref, fat12_dev_find_entry bpb dir leaf d = Some (inr (old, attr, ref), d) ->
     exists lf, chain n (fat bpb d) old lf /\ NoDup lf /\ forall x, x ∈ lf -> x ∉ l) ->
  char_at leaf 0 <> FAT12_ENTRY_DELETED -> byte_list data -> Z.of_nat (length data) < 2 ^ 32 ->
  exists r d', fat12_core_write_file_on_device path data d = Some (r, d') /\
    match r with
    | inr _ => stored bpb d' dir leaf data
    | inl rc => (rc = FS_ERR_EXISTS /\ d' = d) \/
                (rc = FS_ERR_NO_SPACE /\
                 (fat12_dev_find_entry bpb dir leaf d = Some (inl FS_ERR_NOT_FOUND, d) ->
                  forall c, 0 <= c < n + 2 -> fat bpb d' c = fat bpb d c))
    end.
Proof.
  intros G Hp Hloc Hd Hold H5 Hdata Hlen.
  destruct (locate_inv bpb path dir leaf d d Hp Hloc) as (Hn & Hb & H0).
  apply wp_elim. unfold fat12_core_write_file_on_device. apply wp_bind, (wp_intro _ _ _ _ _ Hloc).
  destruct (find_cases bpb n d dir l lbas leaf G Hd) as [[Hfind Hnone]|(old & attr & ref & Hfind & Escan)];
    apply wp_bind, wp_attempt, (wp_intro _ _ _ _ _ Hfind).
  - apply wp_bind. apply wp_guard_seq; [done|intros _].
    assert (forall rc (d' : D), rc = FS_ERR_NO_SPACE /\ (forall c, 0 <= c < n + 2 -> fat bpb d' c = fat bpb d c) ->
      (rc = FS_ERR_EXISTS /\ d' = d) \/ (rc = FS_ERR_NO_SPACE /\
        (fat12_dev_find_entry bpb dir leaf d = Some (inl FS_ERR_NOT_FOUND, d) ->
         forall c, 0 <= c < n + 2 -> fat bpb d' c = fat bpb d c))) as Hfull by (intros rc d' []; by right).
    pose proof (write_new bpb n d dir l lbas leaf data G Hd Hnone Hn Hb H0 H5 Hdata Hlen) as Hnew.
    apply wp_bind, (wp_mono _ _ _ _ (wp_bind_inv _ _ _ _ Hnew)). intros [rc|ref] d1 H1; [by apply Hfull|].
    apply (wp_intro _ _ _ _ _ eq_refl), (wp_mono _ _ _ _ H1). intros [rc|[]] d' H; [by apply Hfull|done].
  - destruct (Hold old attr ref Hfind) as (lf & Hch & Hnd & Hdisj).
    apply wp_bind. apply wp_guard_seq; [by left|intros _].
    destruct (release_spec bpb n d old lf G Hch Hnd) as (d1 & E1 & V1).
    apply wp_bind, (wp_intro _ _ _ _ _ E1). apply (wp_intro _ _ _ _ _ eq_refl).
    assert (directory bpb n d1 dir l lbas) as Hd1.
    { apply (directory_ext bpb n d); [done|]. intros x Hx.
      destruct (directory_elem bpb n d dir l lbas x Hd Hx) as [Hx2 _].
      rewrite (ev_fat _ _ _ _ _ _ V1) by lia. case_decide as Hxl; [by apply Hdisj in Hxl|done]. }
    assert (slot_for d1 lbas leaf ref) as Hslot.
    { apply (slot_for_ext d); [|by apply (find_slot d lbas leaf old attr)]. intros s Hs.
      destruct (directory_sector bpb n d dir l lbas s G Hd Hs) as (S1 & _).
      apply (ev_sector _ _ _ _ _ _ V1). by right. }
    pose proof (geometry_same _ _ _ _ G (ev_count _ _ _ _ _ _ V1)) as G1.
    apply (wp_mono _ _ _ _ (write_rest bpb n d d1 dir l lbas leaf ref data true G1 Hd1 Hslot Hn Hb H0 H5 Hdata Hlen)).
    intros [rc|[]] d'; [|done]. intros [-> _]. right. split; [done|]. by rewrite Hfind.
Qed.

(** C14: The 12-bit allocation table: on a volume whose table covers its clusters, storing v for cluster c
    returns, every later read of an entry gives v for c and the entry's former value for every other
    cluster (two entries share a byte, and an entry can straddle two sectors), the same holds of every copy
    of the table, and no sector outside the tables changes. *)
Theorem fat12_table_update_exact bpb n (d : D) c v :
  geometry d bpb n -> 0 <= c < n + 2 -> 0 <= v < 4096 ->
  exists d', fat12_dev_set_fat_entry bpb c v d = Some (inr tt, d') /\
    (forall x, 0 <= x < n + 2 -> exists old,
       fat12_dev_get_fat_entry bpb x d = Some (inr old, d) /\
       fat12_dev_get_fat_entry bpb x d' = Some (inr (if decide (x = c) then v else old), d')) /\
    (forall k x, 0 <= k < fat_count bpb -> 0 <= x < n + 2 ->
       fat_copy bpb d' k x = if decide (x = c) then v else fat_copy bpb d k x) /\
    (forall s, s < reserved_sectors bpb \/ root_dir_lba bpb <= s -> sector d' s = sector d s).
Proof.
  intros G Hc Hv. destruct (set_entry d bpb n c v G Hc Hv) as (d' & E & C & A & B).
  exists d'. split; [done|]. split; [|done]. intros x Hx. exists (fat bpb d x).
  split; [by apply (get_fat bpb n)|]. rewrite (get_fat bpb n) by eauto using geometry_same.
  do 3 f_equal. pose proof (gm_fats _ _ _ G). unfold fat. apply A; lia.
Qed.

(** Allocating a cluster always returns; it gives the lowest cluster whose entry is free, marks it as
    the end of a chain, fills its sectors with zeros and changes no other entry and no other sector of the
    data area, or, when no entry is free, gives 0 and changes nothing. *)
Theorem fat12_alloc_lowest_free bpb n (d : D) :
  geometry d bpb n ->
  exists r d', fat12_dev_alloc_cluster bpb d = Some (inr r, d') /\
    ((r = 0 /\ d' = d /\ forall x, 2 <= x < n + 2 -> fat bpb d x <> FAT12_CLUSTER_FREE) \/
     (2 <= r < n + 2 /\ fat bpb d r = FAT12_CLUSTER_FREE /\
      (forall x, 2 <= x < r -> fat bpb d x <> FAT12_CLUSTER_FREE) /\
      (forall x, 0 <= x < n + 2 -> fat bpb d' x = if decide (x = r) then FAT12_CLUSTER_EOC else fat bpb d x) /\
      let first := fat12_image_cluster_to_lba bpb r in
      first + sectors_per_cluster bpb <= sector_count d /\
      forall s, root_dir_lba bpb <= s -> sector d' s =
        if decide (first <= s < first + sectors_per_cluster bpb) then replicate 512 0 else sector d s)).
Proof.
  intros G. destruct (alloc_spec bpb n d G) as (r & d' & E & Hr). exists r, d'. split; [done|].
  destruct Hr as [Hr|(Hr & H0 & Hlow & V)]; [by left|right].
  destruct (cluster_lba bpb n d r G Hr) as (-> & _ & _ & Hend).
  split; [done|]. split; [done|]. split; [done|]. split; [apply (ev_fat _ _ _ _ _ _ V)|].
  split; [done|]. intros s Hs.
  rewrite (ev_sector _ _ _ _ _ _ V) by by right. done.
Qed.

End Props.

(** ** A volume of 28 clusters *)

Definition demo_boot : list Z :=
  replicate 11 0 ++ [0; 2; 1; 1; 0; 2; 16; 0; 32; 0; 0xF0; 1; 0] ++ replicate 488 0.
Definition demo_fat : list Z := 0xF0 :: 0xFF :: 0xFF :: replicate 509 0.
Definition demo_disk : disk := Disk 32 {[ 0 := demo_boot; 1 := demo_fat; 2 := demo_fat ]}.
Definition demo_bpb : fat12_bpb := snd (fat12_parse_bpb demo_boot zero_bpb).

Lemma demo_geometry : geometry demo_disk demo_bpb 28.
Proof. constructor; vm_compute; repeat split; congruence. Qed.

Lemma fat12_table_update_exact_witness :
  exists d', fat12_dev_set_fat_entry demo_bpb 3 0xABC demo_disk = Some (inr tt, d') /\
    fat12_dev_get_fat_entry demo_bpb 3 d' = Some (inr 0xABC, d').
Proof.
  destruct (fat12_table_update_exact demo_bpb 28 demo_disk 3 0xABC demo_geometry) as (d' & E & Hget & _);
    [lia|lia|].
  exists d'. split; [exact E|]. destruct (Hget 3) as (old & _ & E'); [lia|]. exact E'.
Defined.

Lemma fat12_alloc_lowest_free_witness :
  exists r d', fat12_dev_alloc_cluster demo_bpb demo_disk = Some (inr r, d').
Proof.
  destruct (fat12_alloc_lowest_free demo_bpb 28 demo_disk demo_geometry) as (r & d' & E & _).
  exists r, d'. exact E.
Defined.

(** A handle remembers the size the file had when it was opened, and a handle of an empty file writes
    without reading the file again: bytes written through a second handle are lost when the first handle
    writes behind them, although both name the same file. *)
Theorem fat12_stale_handle_loses_data :
  let f := cstr "/a.txt" in
  exists st, (fat12_core_mount demo_disk ;;;
     a <- fat12_open f (Z.lor FS_O_CREAT FS_O_RDWR) ;;
     b <- fat12_open f FS_O_RDWR ;;
     fat12_write b 0 [1; 2; 3; 4; 5] ;;;
     before <- fat12_read_file f 100 ;;
     fat12_write a 5 [9] ;;;
     after <- fat12_read_file f 100 ;;
     ret (before, after)) (Fat None zero_bpb [] 0 []) =
    Some (inr ([1; 2; 3; 4; 5], [0; 0; 0; 0; 0; 9]), st).
Proof. eexists. vm_compute. reflexivity. Qed.

Lemma fat12_write_then_read_witness :
  exists r d', fat12_core_write_file_on_device (cstr "/a.txt") [104; 105] demo_disk = Some (r, d') /\
    match r with
    | inr _ => stored demo_bpb d' 0 (cstr "A       TXT") [104; 105]
    | inl rc => (rc = FS_ERR_EXISTS /\ d' = demo_disk) \/
                (rc = FS_ERR_NO_SPACE /\
                 (fat12_dev_find_entry demo_bpb 0 (cstr "A       TXT") demo_disk =
                    Some (inl FS_ERR_NOT_FOUND, demo_disk) ->
                  forall c, 0 <= c < 28 + 2 -> fat demo_bpb d' c = fat demo_bpb demo_disk c))
    end.
Proof.
  refine (fat12_write_then_read demo_bpb 28 demo_disk (cstr "/a.txt") 0 (cstr "A       TXT") []
            (seqZ (root_dir_lba demo_bpb) (root_dir_sectors demo_bpb)) [104; 105] demo_geometry _ _ _ _ _ _ _).
  - by apply (bool_decide_unpack _).
  - by vm_compute.
  - apply root_directory.
  - intros old attr ref E. exfalso. revert E. by vm_compute.
  - by vm_compute.
  - by apply (bool_decide_unpack _).
  - by vm_compute.
Defined.

End Fat12Props.
