(* ===== verification/Iso9660.v ===== *)
(** * ISO9660 volumes

    [core/fs/iso9660_core.c]: the read-only driver for CD images, with Rock Ridge names.
    Its sector buffer [g_iso_sector] holds the 2048 bytes of one sector; a read past the
    end of the buffer is undefined in C and has no result here ([None]). *)

From S2P Require Import Prelude FsTypes Vfs Block Fat12Name Fat12Driver.
From stdpp Require Import base list option list_numbers strings.
From Stdlib Require Import ZArith Lia ZifyBool.
Import FsTypes Vfs Block.
Open Scope Z_scope.
Open Scope vfs_scope.

Module Iso9660.

Definition ISO9660_PVD_LBA : Z := 16.
Definition ISO9660_SECTOR_SIZE : Z := 2048.
Definition ISO9660_NAME_SLOTS : Z := 32.
Definition ISO9660_OPEN_FILE_CAP : Z := 16.

(** ** The sector buffer *)

Definition byte_at (sec : list Z) (i : Z) : option Z := sec !! Z.to_nat i.

(** [n] bytes from index [i]. *)
Definition bytes_at (sec : list Z) (i n : Z) : option (list Z) :=
  if i + n <=? Z.of_nat (length sec) then Some (take (Z.to_nat n) (drop (Z.to_nat i) sec)) else None.

Definition iso_le32 (sec : list Z) (i : Z) : option Z :=
  p ← bytes_at sec i 4;
  Some (Z.lor (Z.lor (Z.lor (char_at p 0) (Z.shiftl (char_at p 1) 8)) (Z.shiftl (char_at p 2) 16))
              (Z.shiftl (char_at p 3) 24)).

(** ** Names *)

Fixpoint iso_streq (a b : list Z) : bool :=
  match a, b with
  | x :: a', y :: b' => if negb (x =? y) then false else iso_streq a' b'
  | [], [] => true
  | _, _ => false
  end.

Definition iso_lower (c : Z) : Z := if (65 <=? c) && (c <=? 90) then c + 32 else c.

(** The first loop ends at a difference or at the end of a string. *)
Fixpoint common (a b : list Z) : nat :=
  match a, b with
  | x :: a', y :: b' => if negb (iso_lower x =? iso_lower y) then O else S (common a' b')
  | _, _ => O
  end.

Fixpoint alias_len (a : list Z) : nat :=
  match a with
  | c :: r => if c =? Fat12Name.tilde then O else S (alias_len r)
  | [] => O
  end.

(** [b] can be shorter than the part of [a] before the tilde; whatever C then finds
    behind the terminator of [b], the last loop meets the terminator and fails. *)
Definition iso_name_eq (a b : list Z) : bool :=
  let i := common a b in
  if (char_at a i =? 0) && (char_at b i =? 0) then true
  else
    let n := alias_len a in
    if negb (char_at a n =? Fat12Name.tilde) || (n =? 0)%nat || (char_at b n =? 0) then false
    else if negb (forallb (fun c => (48 <=? c) && (c <=? 57)) (drop (S n) a)) then false
    else forallb (fun i => iso_lower (char_at a i) =? iso_lower (char_at b i)) (seq 0 n).

Fixpoint iso_copy_loop (i cap : Z) (src : list Z) : list Z :=
  match src with
  | [] => []
  | c :: r => if i + 1 <? cap then c :: iso_copy_loop (i + 1) cap r else []
  end.

Definition iso_copy_string (cap : Z) (src : list Z) : list Z := iso_copy_loop 0 cap src.

(** [len] characters from index [i], up to a semicolon or the end of [out]. *)
Fixpoint copy_name_loop (len : nat) (sec : list Z) (i : Z) (out : list Z) : option (list Z) :=
  match len with
  | O => Some out
  | S len =>
      if negb (Z.of_nat (length out) + 1 <? FS_NAME_CAP) then Some out
      else
        c ← byte_at sec i;
        if c =? 59 then Some out else copy_name_loop len sec (i + 1) (out ++ [iso_lower c])
  end.

(** [while (pos > 0 && out[pos - 1] == '.') --pos;] *)
Fixpoint trim_dots (out : list Z) (pos : nat) : nat :=
  match pos with
  | O => O
  | S p => if char_at out p =? 46 then trim_dots out p else pos
  end.

Definition iso_copy_name (sec : list Z) (i len : Z) : option (list Z) :=
  out ← copy_name_loop (Z.to_nat len) sec i [];
  Some (take (trim_dots out (length out)) out).

(** The fields behind the name; [Some None] is the result 0.  A field has at least 4
    bytes and a record at most 255, so 64 turns are enough. *)
Fixpoint rock_ridge_loop (fuel : nat) (sec : list Z) (record offset record_len : Z)
    : option (option (list Z)) :=
  if negb (offset + 4 <=? record_len) then Some None
  else match fuel with
       | O => None
       | S fuel =>
           let field := record + offset in
           field_len ← byte_at sec (field + 2);
           if (field_len <? 4) || (record_len <? offset + field_len) then Some None
           else
             c0 ← byte_at sec field;
             c1 ← byte_at sec (field + 1);
             if (c0 =? 78) && (c1 =? 77) && (5 <=? field_len) then
               flags ← byte_at sec (field + 4);
               if negb (Z.land flags 0x06 =? 0) then Some None
               else
                 out ← bytes_at sec (field + 5) (Z.min (field_len - 5) (FS_NAME_CAP - 1));
                 Some (if (length out =? 0)%nat then None else Some out)
             else rock_ridge_loop fuel sec record (offset + field_len) record_len
       end.

Definition iso_copy_rock_ridge_name (sec : list Z) (record record_len name_len : Z)
    : option (option (list Z)) :=
  let offset := 33 + name_len + (if Z.land name_len 1 =? 0 then 1 else 0) in
  rock_ridge_loop 64 sec record offset record_len.

(** The string in the caller's array. *)
Definition iso_copy_record_name (sec : list Z) (record record_len : Z) : option (list Z) :=
  name_len ← byte_at sec (record + 32);
  r ← iso_copy_rock_ridge_name sec record record_len name_len;
  match r with
  | Some out => Some (Fat12Name.string_of out)
  | None => out ← iso_copy_name sec (record + 33) name_len; Some (Fat12Name.string_of out)
  end.

(** ** Directory scans

    The loop over the records of a sector: a step goes on or ends the scan. *)

Section Scan.
Context {A R : Type}.
Variable step : list Z -> Z -> Z -> A -> option (A + R).

Fixpoint scan_records (fuel : nat) (sec : list Z) (offset : Z) (a : A) : option (A + R) :=
  if negb (offset <? ISO9660_SECTOR_SIZE) then Some (inl a)
  else match fuel with
       | O => None
       | S fuel =>
           len ← byte_at sec offset;
           if len =? 0 then Some (inl a)
           else
             r ← step sec offset len a;
             match r with
             | inl a => scan_records fuel sec (offset + len) a
             | inr x => Some (inr x)
             end
       end.

Definition scan_sector (sec : list Z) (a : A) : option (A + R) :=
  scan_records (Z.to_nat ISO9660_SECTOR_SIZE) sec 0 a.

Context {D : Type} `{!block_device D}.

Definition iso_read_2048 (iso_lba : Z) : M D (list Z) :=
  dev <- get ;;
  guard (sector_size dev =? 512) FS_ERR_INVALID ;;;
  block_core_read (u32 (iso_lba * 4)) 4.

Fixpoint scan_extent (n : nat) (lba : Z) (a : A) : M D (A + R) :=
  match n with
  | O => ret (inl a)
  | S n =>
      sec <- iso_read_2048 lba ;;
      match scan_sector sec a with
      | None => fun _ => None
      | Some (inr x) => ret (inr x)
      | Some (inl a) => scan_extent n (u32 (lba + 1)) a
      end
  end.

End Scan.

(** [(size + 2047u) / 2048u]. *)
Definition total_sectors (size : Z) : nat := Z.to_nat (u32 (size + 2047) / 2048).

(** [.] and [..] have the names 0 and 1. *)
Definition special (sec : list Z) (record name_len : Z) : option (option Z) :=
  if name_len =? 1 then
    c ← byte_at sec (record + 33);
    Some (if (c =? 0) || (c =? 1) then Some c else None)
  else Some None.

(** An extent and its flags. *)
Definition found : Type := Z * Z * Z.

Definition find_step (name : list Z) (sec : list Z) (record len : Z) (_ : unit) : option (unit + found) :=
  flags ← byte_at sec (record + 25);
  name_len ← byte_at sec (record + 32);
  k ← special sec record name_len;
  hit ← match k with
        | Some c => Some (iso_streq name (if c =? 0 then dot else dotdot))
        | None => n ← iso_copy_record_name sec record len; Some (iso_name_eq n name)
        end;
  if hit : bool then
    lba ← iso_le32 sec (record + 2);
    size ← iso_le32 sec (record + 10);
    Some (inr (lba, size, flags))
  else Some (inl tt).

(** [entries] so far; the scan ends when the array or the name slots are full. *)
Definition list_step (cap : Z) (sec : list Z) (record len : Z) (entries : list fs_dirent)
    : option (list fs_dirent + unit) :=
  flags ← byte_at sec (record + 25);
  name_len ← byte_at sec (record + 32);
  k ← special sec record name_len;
  match k with
  | Some _ => Some (inl entries)
  | None =>
      let count := Z.of_nat (length entries) in
      if (cap <=? count) || (ISO9660_NAME_SLOTS <=? count) then Some (inr tt)
      else
        n ← iso_copy_record_name sec record len;
        Some (inl (entries ++ [(n, if negb (Z.land flags 0x02 =? 0) then FS_NODE_DIR else FS_NODE_FILE)]))
  end.

(** ** The driver *)

Record iso_open_file := IsoFile { used : bool; f_lba : Z; f_size : Z }.
Definition closed_file : iso_open_file := IsoFile false 0 0.

Section Driver.
Context {D : Type} `{!block_device D}.

(** The variables of the file and the device they point to. *)
Record iso := Iso {
  g_iso_dev : option D;
  g_iso_root_lba : Z;
  g_iso_root_size : Z;
  g_iso_cwd : list Z;
  g_iso_cwd_lba : Z;
  g_iso_cwd_size : Z;
  g_iso_open_files : list iso_open_file
}.

(** Before the first mount. *)
Definition iso_boot : iso :=
  Iso None 0 0 [] 0 0 (replicate (Z.to_nat ISO9660_OPEN_FILE_CAP) closed_file).

Definition set_dev (d : option D) (s : iso) : iso :=
  Iso d (g_iso_root_lba s) (g_iso_root_size s) (g_iso_cwd s) (g_iso_cwd_lba s) (g_iso_cwd_size s)
      (g_iso_open_files s).
Definition set_root (lba size : Z) (s : iso) : iso :=
  Iso (g_iso_dev s) lba size (g_iso_cwd s) (g_iso_cwd_lba s) (g_iso_cwd_size s) (g_iso_open_files s).
Definition set_cwd (p : list Z) (lba size : Z) (s : iso) : iso :=
  Iso (g_iso_dev s) (g_iso_root_lba s) (g_iso_root_size s) p lba size (g_iso_open_files s).
Definition set_files (l : list iso_open_file) (s : iso) : iso :=
  Iso (g_iso_dev s) (g_iso_root_lba s) (g_iso_root_size s) (g_iso_cwd s) (g_iso_cwd_lba s)
      (g_iso_cwd_size s) l.

(** [dev == 0] fails in [iso_read_2048]. *)
Definition on_dev {A} (m : M D A) : M iso A := fun s =>
  match g_iso_dev s with
  | None => Some (inl FS_ERR_INVALID, s)
  | Some d => match m d with None => None | Some (r, d) => Some (r, set_dev (Some d) s) end
  end.

Definition lift_opt {S A} (o : option A) : M S A := fun s =>
  match o with None => None | Some a => Some (inr a, s) end.

(** Volume descriptor type 1 and the identifier [CD001]. *)
Definition iso_magic : list Z := 1 :: cstr "CD001".

Definition iso9660_core_mount (dev : D) : M iso unit := fun s =>
  match iso_read_2048 ISO9660_PVD_LBA dev with
  | None => None
  | Some (inl rc, _) => Some (inl rc, s)
  | Some (inr sec, dev) =>
      (magic <- lift_opt (bytes_at sec 0 6) ;;
       guard (bool_decide (magic = iso_magic)) FS_ERR_INVALID ;;;
       len <- lift_opt (byte_at sec 156) ;;
       guard (negb (len =? 0)) FS_ERR_INVALID ;;;
       lba <- lift_opt (iso_le32 sec 158) ;;
       size <- lift_opt (iso_le32 sec 166) ;;
       fun s =>
         let s := set_root lba size s in
         if (lba =? 0) || (size =? 0) then Some (inl FS_ERR_INVALID, s)
         else Some (inr tt, set_cwd [slash] lba size (set_dev (Some dev) s))) s
  end.

Definition iso_init : M iso unit := fun s =>
  Some (match g_iso_dev s with None => inl FS_ERR_INVALID | Some _ => inr tt end, s).

Definition iso_get_cwd_path : M iso (list Z) := fun s => Some (inr (g_iso_cwd s), s).

Definition iso_find_entry_in_dir (dir_lba dir_size : Z) (name : list Z) : M iso found :=
  r <- (match total_sectors dir_size with
        | O => ret (inl tt)
        | n => on_dev (scan_extent (find_step name) n dir_lba tt)
        end) ;;
  match r with inl _ => fail FS_ERR_NOT_FOUND | inr x => ret x end.

(** First sector, size and is-a-directory flag. *)
Definition place : Type := Z * Z * bool.

Fixpoint resolve_loop (fuel : nat) (cur : place) (cursor : list Z) : M iso place :=
  match cursor with
  | [] => ret cur
  | _ =>
      match fuel with
      | O => fun _ => None
      | S fuel =>
          let '(component, rest) := span cursor in
          guard (negb (FS_NAME_CAP <=? Z.of_nat (length component))) FS_ERR_INVALID ;;;
          let cursor := skip_slashes rest in
          let '(current_lba, current_size, _) := cur in
          s <- get ;;
          if (length component =? 0)%nat || iso_streq component dot then resolve_loop fuel cur cursor
          else if iso_streq component dotdot && (current_lba =? g_iso_root_lba s) then
            resolve_loop fuel cur cursor
          else
            e <- iso_find_entry_in_dir current_lba current_size component ;;
            let '(next_lba, next_size, flags) := e in
            let is_dir := negb (Z.land flags 0x02 =? 0) in
            guard ((length cursor =? 0)%nat || is_dir) FS_ERR_NOT_DIR ;;;
            resolve_loop fuel (next_lba, next_size, is_dir) cursor
      end
  end.

Definition iso_resolve_path (path : list Z) : M iso place :=
  guard (negb (length path =? 0)%nat) FS_ERR_INVALID ;;;
  s <- get ;;
  let absolute := char_at path 0 =? slash in
  resolve_loop (S (length path))
    (if absolute then (g_iso_root_lba s, g_iso_root_size s, true)
     else (g_iso_cwd_lba s, g_iso_cwd_size s, true))
    (if absolute then skip_slashes path else path).

(** ** The working directory: the text of [fat12_normalize_path] *)

Fixpoint normalize_loop (fuel : nat) (temp cursor : list Z) : option (list Z) :=
  match cursor with
  | [] => Some temp
  | _ =>
      match fuel with
      | O => None
      | S fuel =>
          let '(comp, rest) := span cursor in
          let comp := take (Z.to_nat (FS_NAME_CAP - 1)) comp in
          let cursor := skip_slashes rest in
          if (length comp =? 0)%nat || iso_streq comp dot then normalize_loop fuel temp cursor
          else if iso_streq comp dotdot then
            normalize_loop fuel (Fat12Driver.drop_last_component temp) cursor
          else normalize_loop fuel (Fat12Driver.append_component temp comp) cursor
      end
  end.

Definition iso_normalize_path (cwd path : list Z) : option (list Z) :=
  let absolute := char_at path 0 =? slash in
  temp ← normalize_loop (S (length path))
    (if absolute then [] else iso_copy_string FS_PATH_CAP cwd)
    (if absolute then skip_slashes path else path);
  Some (if (length temp =? 0)%nat then [slash] else iso_copy_string FS_PATH_CAP temp).

Definition iso_change_dir (path : list Z) : M iso unit :=
  t <- iso_resolve_path path ;;
  let '(target_lba, target_size, is_dir) := t in
  guard is_dir FS_ERR_NOT_DIR ;;;
  s <- get ;;
  new_path <- lift_opt (iso_normalize_path (g_iso_cwd s) path) ;;
  fun s => Some (inr tt, set_cwd (iso_copy_string FS_PATH_CAP new_path) target_lba target_size s).

Definition iso_make_dir (_ : list Z) : M iso unit := fail FS_ERR_READ_ONLY.

(** ** Reading *)

(** [size] bytes, [skip] bytes into the sector [lba].  Every turn but the first copies a
    whole sector or what is left. *)
Fixpoint read_extent (fuel : nat) (lba skip size : Z) (copied : list Z) : M D (list Z) :=
  if negb (Z.of_nat (length copied) <? size) then ret copied
  else match fuel with
       | O => fun _ => None
       | S fuel =>
           sec <- iso_read_2048 lba ;;
           let chunk := Z.min (ISO9660_SECTOR_SIZE - skip) (size - Z.of_nat (length copied)) in
           chars <- lift_opt (bytes_at sec skip chunk) ;;
           read_extent fuel (u32 (lba + 1)) 0 size (copied ++ chars)
       end.

Definition iso_read_file (path : list Z) (cap : Z) : M iso (list Z) :=
  t <- iso_resolve_path path ;;
  let '(target_lba, target_size, is_dir) := t in
  guard (negb is_dir) FS_ERR_NOT_DIR ;;;
  guard (negb (cap <? target_size)) FS_ERR_NO_SPACE ;;;
  if target_size =? 0 then ret []
  else on_dev (read_extent (Z.to_nat target_size) target_lba 0 target_size []).

(** The first free slot. *)
Fixpoint free_slot (i : nat) (l : list iso_open_file) : option nat :=
  match l with
  | [] => None
  | x :: l => if used x then free_slot (S i) l else Some i
  end.

Definition iso_open (path : list Z) (flags : Z) : M iso Z :=
  guard (Z.land flags (Z.lor (Z.lor (Z.lor FS_O_WRONLY FS_O_CREAT) FS_O_TRUNC) FS_O_APPEND) =? 0)
        FS_ERR_READ_ONLY ;;;
  t <- iso_resolve_path path ;;
  let '(target_lba, target_size, is_dir) := t in
  guard (negb is_dir) FS_ERR_NOT_DIR ;;;
  fun s => match free_slot 0 (g_iso_open_files s) with
           | None => Some (inl FS_ERR_NO_SPACE, s)
           | Some i => Some (inr (Z.of_nat i + 1),
                             set_files (<[i := IsoFile true target_lba target_size]> (g_iso_open_files s)) s)
           end.

(** [node_id == 0 || node_id > ISO9660_OPEN_FILE_CAP], then [used]. *)
Definition slot_of (node_id : Z) : M iso nat :=
  guard (negb ((node_id =? 0) || (ISO9660_OPEN_FILE_CAP <? node_id))) FS_ERR_INVALID ;;;
  ret (Z.to_nat (node_id - 1)).

Definition file_of (node_id : Z) : M iso iso_open_file :=
  i <- slot_of node_id ;;
  s <- get ;;
  file <- lift_opt (g_iso_open_files s !! i) ;;
  guard (used file) FS_ERR_INVALID ;;;
  ret file.

Definition iso_read (node_id offset cap : Z) : M iso (list Z) :=
  file <- file_of node_id ;;
  if f_size file <=? offset then ret []
  else
    let target := Z.min (f_size file - offset) cap in
    if target =? 0 then ret []
    else on_dev (read_extent (Z.to_nat target) (u32 (f_lba file + offset / ISO9660_SECTOR_SIZE))
                             (offset mod ISO9660_SECTOR_SIZE) target []).

Definition iso_write (_ _ : Z) (_ : list Z) : M iso Z := fail FS_ERR_READ_ONLY.

Definition iso_size (node_id : Z) : M iso Z := file <- file_of node_id ;; ret (f_size file).

(** Only the flag is cleared. *)
Definition iso_close (node_id : Z) : M iso unit :=
  i <- slot_of node_id ;;
  s <- get ;;
  file <- lift_opt (g_iso_open_files s !! i) ;;
  fun s => Some (inr tt, set_files (<[i := IsoFile false (f_lba file) (f_size file)]> (g_iso_open_files s)) s).

Definition iso_stat (path : list Z) : M iso fs_stat :=
  t <- iso_resolve_path path ;;
  let '(_, target_size, is_dir) := t in
  ret (FsStat (if is_dir then FS_MODE_DIR else FS_MODE_FILE) (if is_dir : bool then 0 else target_size)).

Definition iso_fstat (node_id : Z) : M iso fs_stat :=
  file <- file_of node_id ;; ret (FsStat FS_MODE_FILE (f_size file)).

Definition iso_unlink (_ : list Z) : M iso unit := fail FS_ERR_READ_ONLY.

Definition iso_list_dir (path : list Z) (cap : Z) : M iso (list fs_dirent) :=
  s <- get ;;
  t <- (if negb (length path =? 0)%nat && negb (iso_streq path dot) then
          t <- iso_resolve_path path ;;
          guard t.2 FS_ERR_NOT_DIR ;;; ret t.1
        else ret (g_iso_cwd_lba s, g_iso_cwd_size s)) ;;
  r <- (match total_sectors t.2 with
        | O => ret (inl [])
        | n => on_dev (scan_extent (list_step cap) n t.1 [])
        end) ;;
  match r with inl entries => ret entries | inr _ => fail FS_ERR_NO_SPACE end.

(** [g_iso_driver]; the table has no [rmdir]. *)
Definition iso_driver : vfs_driver iso := {|
  d_init := Some iso_init;
  d_get_cwd_path := Some iso_get_cwd_path;
  d_change_dir := Some iso_change_dir;
  d_make_dir := Some iso_make_dir;
  d_list_dir := Some iso_list_dir;
  d_read_file := Some iso_read_file;
  d_open := Some iso_open;
  d_read := Some iso_read;
  d_write := Some iso_write;
  d_size := Some iso_size;
  d_close := Some iso_close;
  d_stat := Some iso_stat;
  d_fstat := Some iso_fstat;
  d_unlink := Some iso_unlink;
  d_rmdir := None
|}.

End Driver.
Arguments iso : clear implicits.

End Iso9660.
