(* ===== verification/IsoVolume.v ===== *)
(** * Directories and files of an ISO9660 volume

    The reference the driver is checked against: the records of a directory as a list,
    parsed with every field inside the sector, and the bytes of a file as the contents
    of its extent.  The scans of the driver are folds over the list of records. *)

From S2P Require Import Prelude FsTypes Vfs Block Fat12Name Iso9660.
From stdpp Require Import base list option list_numbers strings.
From Stdlib Require Import ZArith Lia ZifyBool.
Import FsTypes Vfs VfsWp Block Iso9660.
Open Scope Z_scope.
Open Scope vfs_scope.

Module IsoVolume.

(** ** Records *)

Record dir_record := DirRecord {
  r_special : option Z; r_name : list Z; r_lba : Z; r_size : Z; r_flags : Z
}.

Definition is_dir (r : dir_record) : bool := negb (Z.land (r_flags r) 0x02 =? 0).
Definition ordinary (r : dir_record) : bool := match r_special r with None => true | Some _ => false end.

Definition matches (name : list Z) (r : dir_record) : bool :=
  match r_special r with
  | Some c => iso_streq name (if c =? 0 then dot else dotdot)
  | None => iso_name_eq (r_name r) name
  end.

Definition parse_record (sec : list Z) (record len : Z) : option dir_record :=
  flags ← byte_at sec (record + 25);
  name_len ← byte_at sec (record + 32);
  k ← special sec record name_len;
  name ← match k with Some _ => Some [] | None => iso_copy_record_name sec record len end;
  lba ← iso_le32 sec (record + 2);
  size ← iso_le32 sec (record + 10);
  Some (DirRecord k name lba size flags).

Fixpoint parse_records (fuel : nat) (sec : list Z) (offset : Z) : option (list dir_record) :=
  if negb (offset <? ISO9660_SECTOR_SIZE) then Some []
  else match fuel with
       | O => None
       | S fuel =>
           len ← byte_at sec offset;
           if len =? 0 then Some []
           else
             r ← parse_record sec offset len;
             rs ← parse_records fuel sec (offset + len);
             Some (r :: rs)
       end.

Definition parse_sector (sec : list Z) : option (list dir_record) :=
  parse_records (Z.to_nat ISO9660_SECTOR_SIZE) sec 0.

(** ** Scans are folds *)

Section Fold.
Context {A R : Type} (step : list Z -> Z -> Z -> A -> option (A + R)) (f : dir_record -> A -> A + R).

Fixpoint fold_records (rs : list dir_record) (a : A) : A + R :=
  match rs with
  | [] => inl a
  | r :: rs => match f r a with inl a => fold_records rs a | inr x => inr x end
  end.

Lemma fold_records_app rs rs' a :
  fold_records (rs ++ rs') a =
    match fold_records rs a with inl a => fold_records rs' a | inr x => inr x end.
Proof. revert a. induction rs as [|r rs IH]; intros a; [done|]. cbn. by destruct (f r a). Qed.

Hypothesis Hstep : forall sec record len r a,
  parse_record sec record len = Some r -> step sec record len a = Some (f r a).

Lemma scan_records_fold fuel sec offset rs a :
  parse_records fuel sec offset = Some rs ->
  scan_records step fuel sec offset a = Some (fold_records rs a).
Proof using Hstep.
  revert offset rs a. induction fuel as [|fuel IH]; intros offset rs a; cbn [parse_records scan_records].
  all: destruct (negb (offset <? ISO9660_SECTOR_SIZE)); [by intros [= <-]|].
  { done. }
  destruct (byte_at sec offset) as [len|]; [|done]. cbn. destruct (len =? 0); [by intros [= <-]|].
  destruct (parse_record sec offset len) as [r|] eqn:Er; [|done]. cbn.
  destruct (parse_records fuel sec (offset + len)) as [rs'|] eqn:Ers; [|done]. intros [= <-].
  rewrite (Hstep _ _ _ _ a Er). cbn. destruct (f r a); [by apply IH|done].
Qed.

End Fold.

Definition find_fold (name : list Z) (r : dir_record) (_ : unit) : unit + found :=
  if matches name r then inr (r_lba r, r_size r, r_flags r) else inl tt.

Definition dirent_of (r : dir_record) : fs_dirent :=
  (r_name r, if is_dir r then FS_NODE_DIR else FS_NODE_FILE).

Definition list_fold (cap : Z) (r : dir_record) (entries : list fs_dirent) : list fs_dirent + unit :=
  let count := Z.of_nat (length entries) in
  if negb (ordinary r) then inl entries
  else if (cap <=? count) || (ISO9660_NAME_SLOTS <=? count) then inr tt
  else inl (entries ++ [dirent_of r]).

Ltac parse_inv :=
  repeat match goal with
  | H : (match ?x with Some _ => _ | None => None end) = Some _ |- _ =>
      let E := fresh "E" in destruct x eqn:E; [|done]
  | H : mbind _ ?x = Some _ |- _ => let E := fresh "E" in destruct x eqn:E; [|done]; cbn [mbind option_bind] in H
  end.

Lemma find_step_fold name sec record len r a :
  parse_record sec record len = Some r -> find_step name sec record len a = Some (find_fold name r a).
Proof.
  unfold parse_record, find_step, find_fold, matches. intros H. parse_inv. injection H as <-.
  cbn [mbind option_bind r_special r_name r_lba r_size r_flags].
  rewrite E1. destruct o as [c|]; cbn [mbind option_bind]; [by destruct (iso_streq _ _)|].
  rewrite E2. cbn [mbind option_bind]. by destruct (iso_name_eq _ _).
Qed.

Lemma list_step_fold cap sec record len r a :
  parse_record sec record len = Some r -> list_step cap sec record len a = Some (list_fold cap r a).
Proof.
  unfold parse_record, list_step, list_fold, ordinary. intros H. parse_inv. injection H as <-.
  cbn [mbind option_bind r_special negb]. rewrite E1. destruct o as [c|]; [done|]. cbn [negb mbind option_bind].
  destruct (_ || _); [done|]. by rewrite E2.
Qed.

(** The first record with a name. *)
Definition first_match (name : list Z) (rs : list dir_record) : option dir_record :=
  head (filter (fun r => matches name r = true) rs).

Lemma find_fold_first name rs :
  fold_records (find_fold name) rs tt =
    match first_match name rs with Some r => inr (r_lba r, r_size r, r_flags r) | None => inl tt end.
Proof.
  unfold first_match. induction rs as [|r rs IH]; [done|]. cbn [fold_records]. unfold find_fold at 1.
  rewrite filter_cons. destruct (matches name r); [done|]. by rewrite IH.
Qed.

(** The listed records, unless they are too many. *)
Lemma list_fold_all cap rs entries :
  let all := entries ++ (dirent_of <$> filter (fun r => ordinary r = true) rs) in
  Z.of_nat (length entries) <= cap -> Z.of_nat (length entries) <= ISO9660_NAME_SLOTS ->
  fold_records (list_fold cap) rs entries =
    if (Z.of_nat (length all) <=? cap) && (Z.of_nat (length all) <=? ISO9660_NAME_SLOTS)
    then inl all else inr tt.
Proof.
  revert entries. induction rs as [|r rs IH]; intros entries all Hc Hs; subst all.
  { cbn. rewrite app_nil_r, (proj2 (Z.leb_le _ _)), (proj2 (Z.leb_le _ _)) by done. done. }
  cbn [fold_records]. unfold list_fold at 1. rewrite filter_cons.
  destruct (ordinary r) eqn:Eo; cbn [negb].
  - destruct (_ || _) eqn:Efull.
    + rewrite decide_True by done. rewrite fmap_cons, length_app. cbn [length].
      symmetry. destruct (_ && _) eqn:E; [|done]. apply orb_true_iff in Efull. lia.
    + apply orb_false_iff in Efull. rewrite IH by (rewrite length_app; cbn [length]; lia).
      rewrite decide_True by done. by rewrite fmap_cons, <- app_assoc.
  - rewrite decide_False by done. by apply IH.
Qed.

(** ** Sectors and extents of a plain device *)

Section Volume.
Context {D : Type} `{!block_device D} `{!disc D}.

Definition iso_sector (d : D) (lba : Z) : list Z := concat (sector d <$> seqZ (lba * 4) 4).

(** [n] sectors from [lba] on the device. *)
Definition on_disc (d : D) (lba n : Z) : Prop :=
  ds_ok d /\ 0 <= lba /\ (lba + n) * 4 <= sector_count d.

Lemma iso_sector_length (d : D) lba : length (iso_sector d lba) = 2048%nat.
Proof.
  unfold iso_sector. rewrite length_concat, <- list_fmap_compose.
  rewrite (list_fmap_ext _ (fun _ => 512%nat)) by (intros; apply ds_length).
  rewrite !(seqZ_cons _ _) by lia. rewrite seqZ_nil by lia. done.
Qed.

Lemma read_2048 (d : D) lba :
  on_disc d lba 1 -> iso_read_2048 lba d = Some (inr (iso_sector d lba), d).
Proof.
  intros (Hd & Hl & Hend). pose proof (ds_count d Hd). unfold iso_read_2048, get, guard, bind.
  rewrite ds_size by done. cbn [SECTOR Z.eqb Pos.eqb ret]. rewrite u32_small, read_run by lia || done.
  by destruct (Z.leb_spec (lba * 4 + 4) (sector_count d)); [|lia].
Qed.

Lemma on_disc_next (d : D) lba n :
  on_disc d lba (n + 1) -> 0 <= n ->
  on_disc d lba 1 /\ on_disc d (u32 (lba + 1)) n /\ u32 (lba + 1) = lba + 1.
Proof.
  intros (Hd & ? & ?) ?. pose proof (ds_count d Hd). rewrite u32_small by lia. unfold on_disc.
  split_and!; done || lia.
Qed.

(** The records of [n] sectors. *)
Fixpoint dir_records (d : D) (n : nat) (lba : Z) : option (list dir_record) :=
  match n with
  | O => Some []
  | S n => rs ← parse_sector (iso_sector d lba); rs' ← dir_records d n (lba + 1); Some (rs ++ rs')
  end.

Lemma scan_extent_fold {A R} (step : list Z -> Z -> Z -> A -> option (A + R)) f (d : D) n lba rs a :
  (forall sec record len r a, parse_record sec record len = Some r -> step sec record len a = Some (f r a)) ->
  on_disc d lba (Z.of_nat n) -> dir_records d n lba = Some rs ->
  scan_extent step n lba a d = Some (inr (fold_records f rs a), d).
Proof.
  intros Hstep. revert lba rs a. induction n as [|n IH]; intros lba rs a Hd; [by intros [= <-]|].
  cbn [dir_records scan_extent]. intros H. parse_inv. injection H as <-.
  destruct (on_disc_next d lba (Z.of_nat n)) as (H1 & H2 & E1); [by rewrite Nat2Z.inj_succ in Hd|lia|].
  unfold bind. rewrite read_2048 by done. unfold scan_sector.
  rewrite (scan_records_fold step f Hstep _ _ _ _ a E). rewrite fold_records_app.
  destruct (fold_records f l a) as [a'|x]; [|done]. rewrite E1 in *. by apply IH.
Qed.

(** [n] sectors of bytes. *)
Definition sectors (d : D) (lba : Z) (n : nat) : list Z := concat (iso_sector d <$> seqZ lba (Z.of_nat n)).

Lemma sectors_cons (d : D) lba n : sectors d lba (S n) = iso_sector d lba ++ sectors d (lba + 1) n.
Proof. unfold sectors. rewrite seqZ_cons by lia. cbn. by replace (Z.pred (Z.of_nat (S n))) with (Z.of_nat n) by lia. Qed.

Lemma sectors_length (d : D) lba n : length (sectors d lba n) = (2048 * n)%nat.
Proof.
  revert lba. induction n as [|n IH]; intros lba; [done|].
  rewrite sectors_cons, length_app, iso_sector_length, IH. lia.
Qed.

(** Reading [size] bytes in all, [skip] bytes into the first sector. *)
Lemma read_extent_spec n (d : D) fuel lba skip size copied :
  on_disc d lba (Z.of_nat n) -> 0 <= skip < 2048 -> Z.of_nat (length copied) <= size ->
  size - Z.of_nat (length copied) + skip <= 2048 * Z.of_nat n ->
  (Z.to_nat (size - Z.of_nat (length copied)) <= fuel)%nat ->
  read_extent fuel lba skip size copied d =
    Some (inr (copied ++ take (Z.to_nat (size - Z.of_nat (length copied))) (drop (Z.to_nat skip) (sectors d lba n))), d).
Proof.
  revert fuel lba skip copied. induction n as [|n IH]; intros fuel lba skip copied Hd Hs Hc Hn Hf.
  all: destruct fuel as [|fuel]; cbn [read_extent]; destruct (Z.ltb_spec (Z.of_nat (length copied)) size) as [Hlt|Hge];
    cbn [negb]; try lia.
  1-3: replace (Z.to_nat (size - Z.of_nat (length copied))) with 0%nat by lia; by rewrite take_0, app_nil_r.
  2: replace (Z.to_nat (size - Z.of_nat (length copied))) with 0%nat by lia; by rewrite take_0, app_nil_r.
  destruct (on_disc_next d lba (Z.of_nat n)) as (H1 & H2 & E1); [by rewrite Nat2Z.inj_succ in Hd|lia|].
  unfold bind at 1. rewrite read_2048 by done. set (chunk := Z.min _ _).
  unfold bytes_at. rewrite iso_sector_length, (proj2 (Z.leb_le _ _)) by (subst chunk; unfold ISO9660_SECTOR_SIZE; lia).
  unfold bind, lift_opt. set (chars := take _ _).
  assert (Z.of_nat (length chars) = chunk) as Hlen.
  { subst chars chunk. rewrite length_take, length_drop, iso_sector_length. unfold ISO9660_SECTOR_SIZE. lia. }
  rewrite IH; rewrite ?length_app; [|done|lia|subst chunk; lia| |].
  - rewrite E1, sectors_cons. do 2 f_equal. rewrite <- app_assoc. f_equal. f_equal.
    change (Z.to_nat 0) with 0%nat. rewrite drop_0, drop_app_le by (rewrite iso_sector_length; lia).
    subst chars. destruct (Z.le_gt_cases (size - Z.of_nat (length copied)) (ISO9660_SECTOR_SIZE - skip)) as [Hle|Hgt].
    + replace chunk with (size - Z.of_nat (length copied)) by (subst chunk; lia).
      replace (Z.to_nat (size - Z.of_nat (length copied + length _))) with 0%nat.
      2:{ rewrite length_take, length_drop, iso_sector_length. unfold ISO9660_SECTOR_SIZE in *. lia. }
      rewrite take_0, app_nil_r, take_app_le; [done|]. rewrite length_drop, iso_sector_length.
      unfold ISO9660_SECTOR_SIZE in *. lia.
    + rewrite take_app_ge by (rewrite length_drop, iso_sector_length; unfold ISO9660_SECTOR_SIZE in *; lia).
      f_equal; [apply take_ge; rewrite length_drop, iso_sector_length; unfold ISO9660_SECTOR_SIZE in *; lia|].
      f_equal. rewrite length_take, length_drop, iso_sector_length. unfold ISO9660_SECTOR_SIZE in *. lia.
  - subst chunk. unfold ISO9660_SECTOR_SIZE in *. lia.
  - subst chunk. unfold ISO9660_SECTOR_SIZE in *. lia.
Qed.

End Volume.

End IsoVolume.

(** * The format of a directory

    Records, names and the comparison of names as ECMA-119 and Rock Ridge describe them and the driver
    simplifies them, by functions of their own; the parser of [IsoVolume] agrees with them. *)

Module IsoFormat.
Import IsoVolume.

(** ** Names *)

(** Lower case for the letters A to Z. *)
Definition fold_case (c : Z) : Z := if decide (65 <= c <= 90) then c + 32 else c.

(** The part of a list before the first [c]. *)
Fixpoint before (c : Z) (l : list Z) : list Z :=
  match l with [] => [] | x :: r => if decide (x = c) then [] else x :: before c r end.

Fixpoint without_leading (c : Z) (l : list Z) : list Z :=
  match l with [] => [] | x :: r => if decide (x = c) then without_leading c r else l end.
Definition without_trailing (c : Z) (l : list Z) : list Z := reverse (without_leading c (reverse l)).

(** The name of an identifier: what is before the version, at most 23 characters, in lower case and
    without full stops at its end. *)
Definition identifier_name (id : list Z) : list Z :=
  before 0 (without_trailing 46 (fold_case <$> take 23 (before 59 id))).

(** The fields of the system use area: two letters, the length of the field, a version and data. *)
Fixpoint fields (fuel : nat) (area : list Z) : list (list Z) :=
  match fuel, area with
  | S fuel, _ :: _ :: n :: _ :: _ =>
      if decide (4 <= n <= Z.of_nat (length area))
      then take (Z.to_nat n) area :: fields fuel (drop (Z.to_nat n) area) else []
  | _, _ => []
  end.

(** A name field: the letters NM and at least the byte of flags. *)
Definition name_field (f : list Z) : Prop := take 2 f = [78; 77] /\ (5 <= length f)%nat.
#[global] Instance name_field_dec f : Decision (name_field f).
Proof. unfold name_field. apply _. Defined.

(** The name in the first name field, unless the field is for the current or the parent directory. *)
Definition alternate_name (area : list Z) : option (list Z) :=
  match head (filter name_field (fields (length area) area)) with
  | Some f => if decide (Z.land (char_at f 4) 6 = 0)
              then match take 23 (drop 5 f) with [] => None | name => Some (before 0 name) end
              else None
  | None => None
  end.

(** A record has the name [name]: up to case, or [name] goes on where the record's name has a tilde and
    digits. *)
Definition named (entry name : list Z) : Prop :=
  fold_case <$> entry = fold_case <$> name \/
  exists stem digits, entry = stem ++ 126 :: digits /\ 126 ∉ stem /\ stem <> [] /\ Forall (fun c => 48 <= c <= 57) digits /\
    (length stem < length name)%nat /\ fold_case <$> take (length stem) name = fold_case <$> stem.

(** ** Records *)

Definition number (bytes : list Z) : Z := foldr (fun b z => b + 256 * z) 0 bytes.

(** The record with these bytes, if its name is inside of it. *)
Definition record_of (rec : list Z) : option dir_record :=
  let n := Z.to_nat (char_at rec 32) in
  if decide (Forall (fun b => 0 <= b < 256) rec /\ (33 + n <= length rec <= 255)%nat) then
    let id := take n (drop 33 rec) in
    let area := drop (33 + n + (if Nat.even n then 1 else 0)) rec in
    let k := if decide (id = [0]) then Some 0 else if decide (id = [1]) then Some 1 else None in
    Some (DirRecord k
      (match k with Some _ => [] | None => default (identifier_name id) (alternate_name area) end)
      (number (take 4 (drop 2 rec))) (number (take 4 (drop 10 rec))) (char_at rec 25))
  else None.

(** The records of a sector: each begins with its length, 0 is the end. *)
Fixpoint sector_records (fuel : nat) (sec : list Z) : option (list dir_record) :=
  match fuel, sec with
  | S fuel, n :: _ =>
      if decide (n = 0) then Some []
      else if decide (0 < n <= Z.of_nat (length sec)) then
        r ← record_of (take (Z.to_nat n) sec);
        rs ← sector_records fuel (drop (Z.to_nat n) sec);
        Some (r :: rs)
      else None
  | _, _ => Some []
  end.

(** ** The driver's names are these *)

Lemma fold_case_lower c : iso_lower c = fold_case c.
Proof. unfold iso_lower, fold_case. case_decide; destruct (_ && _) eqn:E; lia. Qed.

Lemma string_before l : Fat12Name.string_of l = before 0 l.
Proof. induction l as [|x l IH]; cbn; [done|]. rewrite IH. case_decide; destruct (Z.eqb_spec x 0); try done; lia. Qed.

Lemma trim_dots_app out x pos : (pos <= length out)%nat -> trim_dots (out ++ [x]) pos = trim_dots out pos.
Proof.
  induction pos as [|p IH]; intros Hp; [done|]. cbn [trim_dots]. unfold char_at. rewrite lookup_app_l by lia.
  case_match; [apply IH; lia|done].
Qed.

Lemma trim_dots_le out pos : (trim_dots out pos <= pos)%nat.
Proof. induction pos as [|p IH]; cbn; [done|]. case_match; lia. Qed.

Lemma trim_without out : take (trim_dots out (length out)) out = without_trailing 46 out.
Proof.
  unfold without_trailing. induction out as [|x out IH] using rev_ind; [done|].
  rewrite length_app, Nat.add_1_r. cbn [trim_dots]. unfold char_at. rewrite lookup_app_r, Nat.sub_diag by lia. cbn [lookup list_lookup default from_option id].
  rewrite reverse_snoc. cbn [without_leading]. destruct (Z.eqb_spec x 46) as [->|].
  - rewrite decide_True by done. rewrite trim_dots_app, <- IH by done. by rewrite take_app_le by apply trim_dots_le.
  - rewrite decide_False by done. rewrite take_ge by (rewrite length_app; cbn; lia).
    by rewrite reverse_cons, reverse_involutive.
Qed.

Lemma byte_at_drop sec i j : 0 <= i -> 0 <= j -> byte_at sec (i + j) = drop (Z.to_nat i) sec !! Z.to_nat j.
Proof. intros Hi Hj. unfold byte_at. rewrite lookup_drop, Z2Nat.inj_add by done. done. Qed.

(** The copy loop over the bytes [id] from index [i]. *)
Lemma copy_name_loop_take id : forall sec i out, 0 <= i ->
  take (length id) (drop (Z.to_nat i) sec) = id -> (length out <= 23)%nat ->
  copy_name_loop (length id) sec i out = Some (out ++ (fold_case <$> take (23 - length out) (before 59 id))).
Proof.
  induction id as [|c id IH]; intros sec i out Hi Hid Ho; cbn [length copy_name_loop]; [cbn; by rewrite take_nil, fmap_nil, app_nil_r|].
  change FS_NAME_CAP with 24. destruct (Z.ltb_spec (Z.of_nat (length out) + 1) 24); cbn [negb].
  2: { replace (23 - length out)%nat with 0%nat by lia. by rewrite take_0, app_nil_r. }
  destruct (drop (Z.to_nat i) sec) as [|x r] eqn:E; [done|]. cbn [length take] in Hid. injection Hid as -> Hid.
  assert (byte_at sec i = Some c) as ->.
  { unfold byte_at. rewrite <- (Nat.add_0_r (Z.to_nat i)), <- lookup_drop, E. done. }
  cbn [mbind option_bind before]. destruct (Z.eqb_spec c 59) as [->|].
  { rewrite decide_True by done. by rewrite take_nil, fmap_nil, app_nil_r. }
  rewrite decide_False by done. rewrite (IH sec (i + 1) (out ++ [iso_lower c])); [|lia| |rewrite length_app; cbn; lia].
  - rewrite length_app. cbn [length]. replace (23 - length out)%nat with (S (23 - (length out + 1))) by lia.
    cbn [take fmap list_fmap]. rewrite <- app_assoc, fold_case_lower. done.
  - replace (Z.to_nat (i + 1)) with (Z.to_nat i + 1)%nat by lia. rewrite <- drop_drop, E. done.
Qed.

Lemma copy_name_id sec i id : 0 <= i -> take (length id) (drop (Z.to_nat i) sec) = id ->
  iso_copy_name sec i (Z.of_nat (length id)) = Some (without_trailing 46 (fold_case <$> take 23 (before 59 id))).
Proof.
  intros Hi Hid. unfold iso_copy_name. rewrite Nat2Z.id, (copy_name_loop_take id sec i []) by (done || cbn; lia).
  cbn [mbind option_bind app length]. by rewrite trim_without.
Qed.

(** The driver's walk over the fields. *)
Lemma rock_ridge_fields sec record rec : 0 <= record ->
  take (length rec) (drop (Z.to_nat record) sec) = rec -> (forall b, b ∈ rec -> 0 <= b < 256) ->
  forall fuel k offset, (length rec - offset < 4 * S fuel)%nat -> (length rec - offset <= k)%nat ->
  rock_ridge_loop fuel sec record (Z.of_nat offset) (Z.of_nat (length rec)) =
    Some (match head (filter name_field (fields k (drop offset rec))) with
          | Some f => if decide (Z.land (char_at f 4) 6 = 0)
                      then match take 23 (drop 5 f) with [] => None | name => Some name end else None
          | None => None end).
Proof.
  intros Hr0 Hrec Hb.
  assert (forall i, (i < length rec)%nat -> byte_at sec (record + Z.of_nat i) = rec !! i) as Hbyte.
  { intros i Hi. rewrite byte_at_drop, Nat2Z.id by lia. rewrite <- Hrec at 1. rewrite lookup_take_lt by done. done. }
  induction fuel as [|fuel IH]; intros k offset Hf Hk; cbn [rock_ridge_loop].
  all: destruct (Z.leb_spec (Z.of_nat offset + 4) (Z.of_nat (length rec))) as [Hle|Hgt]; cbn [negb]; try lia.
  1,3: destruct (drop offset rec) as [|a0 [|a1 [|a2 [|a3 area]]]] eqn:Ea; destruct k as [|k]; try done;
    apply (f_equal length) in Ea; rewrite length_drop in Ea; cbn [length] in Ea; lia.
  destruct (drop offset rec) as [|a0 [|a1 [|a2 [|a3 area]]]] eqn:Ea;
    try (apply (f_equal length) in Ea; rewrite length_drop in Ea; cbn [length] in Ea; lia).
  assert (forall i x, (a0 :: a1 :: a2 :: a3 :: area) !! i = Some x -> byte_at sec (record + Z.of_nat offset + Z.of_nat i) = Some x) as Hat.
  { intros i x Hx. rewrite <- Ea, lookup_drop in Hx. replace (record + Z.of_nat offset + Z.of_nat i) with (record + Z.of_nat (offset + i)) by lia.
    rewrite Hbyte by (by eapply lookup_lt_Some). done. }
  pose proof (Hat 0%nat a0 eq_refl) as B0. pose proof (Hat 1%nat a1 eq_refl) as B1. pose proof (Hat 2%nat a2 eq_refl) as B2.
  rewrite Z.add_0_r in B0. change (Z.of_nat 1) with 1 in B1. change (Z.of_nat 2) with 2 in B2. rewrite B2. cbn [mbind option_bind].
  assert (length rec - offset = 4 + length area)%nat as Hl by (rewrite <- length_drop, Ea; done).
  destruct k as [|k]; [lia|]. cbn [fields]. set (l := a0 :: a1 :: a2 :: a3 :: area) in *. assert (length l = 4 + length area)%nat as Hll by done.
  destruct (decide (4 <= a2 <= Z.of_nat (length l))) as [Hn|Hn].
  2: { destruct (_ || _) eqn:E; [done|lia]. }
  destruct (_ || _) eqn:E; [lia|]. clear E. rewrite B0, B1. cbn [mbind option_bind]. rewrite filter_cons.
  assert (a2 < 256) by (apply Hb; rewrite <- (take_drop offset rec), Ea; apply elem_of_app; right; unfold l; do 2 right; left).
  assert (take 2 (take (Z.to_nat a2) l) = [a0; a1]) as E2 by (rewrite take_take; by replace (2 `min` Z.to_nat a2)%nat with 2%nat by lia).
  destruct (decide (name_field (take (Z.to_nat a2) l))) as [[Hnm H5]|Hno].
  - rewrite E2 in Hnm. injection Hnm as -> ->. rewrite length_take in H5. cbn [Z.eqb Pos.eqb andb].
    destruct (Z.leb_spec 5 a2); [|lia]. cbn [head].
    destruct (l !! 4%nat) as [fl|] eqn:E4; [|apply lookup_ge_None in E4; lia].
    pose proof (Hat 4%nat fl E4) as B4. change (Z.of_nat 4) with 4 in B4. rewrite B4. cbn [mbind option_bind].
    assert (char_at (take (Z.to_nat a2) l) 4 = fl) as ->.
    { unfold char_at. rewrite lookup_take_lt by lia. by rewrite E4. }
    case_decide as Hz; [rewrite Hz; cbn [Z.eqb negb]|destruct (Z.eqb_spec (Z.land fl 6) 0); [done|cbn [negb]; done]].
    assert (bytes_at sec (record + Z.of_nat offset + 5) (Z.min (a2 - 5) (FS_NAME_CAP - 1)) = Some (take 23 (drop 5 (take (Z.to_nat a2) l)))) as ->.
    { assert (drop (Z.to_nat (record + Z.of_nat offset + 5)) sec = drop 5 (drop offset (drop (Z.to_nat record) sec))) as Ed.
      { rewrite !drop_drop. f_equal. lia. }
      assert (take (length rec - offset) (drop offset (drop (Z.to_nat record) sec)) = l) as El.
      { rewrite <- Ea. rewrite <- Hrec at 2. by rewrite skipn_firstn_comm. }
      assert (length rec <= length (drop (Z.to_nat record) sec))%nat as Hls.
      { rewrite <- Hrec at 1. rewrite length_take. lia. }
      rewrite length_drop in Hls. unfold bytes_at. change FS_NAME_CAP with 24.
      destruct (Z.leb_spec (record + Z.of_nat offset + 5 + Z.min (a2 - 5) (24 - 1)) (Z.of_nat (length sec))); [|lia].
      f_equal. rewrite Ed, <- El, take_take, (skipn_firstn_comm 5), take_take. f_equal. lia. }
    cbn [mbind option_bind]. by destruct (take 23 _).
  - assert ((a0 =? 78) && (a1 =? 77) && (5 <=? a2) = false) as ->.
    { destruct (_ && _) eqn:E; [|done]. destruct Hno. split; [rewrite E2; f_equal; [|f_equal]; lia|]. rewrite length_take. lia. }
    replace (Z.of_nat offset + a2) with (Z.of_nat (offset + Z.to_nat a2)) by lia. rewrite (IH k) by lia.
    rewrite <- drop_drop, Ea. done.
Qed.

Lemma number_le32 sec record rec i : 0 <= record -> take (length rec) (drop (Z.to_nat record) sec) = rec ->
  Forall (fun b => 0 <= b < 256) rec -> (i + 4 <= length rec)%nat ->
  iso_le32 sec (record + Z.of_nat i) = Some (number (take 4 (drop i rec))).
Proof.
  intros Hr Hrec Hb Hi. unfold iso_le32, bytes_at.
  assert (length rec <= length (drop (Z.to_nat record) sec))%nat as Hls by (rewrite <- Hrec at 1; rewrite length_take; lia).
  rewrite length_drop in Hls. destruct (Z.leb_spec (record + Z.of_nat i + 4) (Z.of_nat (length sec))); [|lia]. cbn [mbind option_bind].
  assert (take (Z.to_nat 4) (drop (Z.to_nat (record + Z.of_nat i)) sec) = take 4 (drop i rec)) as ->.
  { rewrite <- Hrec, skipn_firstn_comm, take_take, drop_drop. f_equal; [lia|]. f_equal. lia. }
  assert (Forall (fun b => 0 <= b < 256) (take 4 (drop i rec))) as Hf by by apply Forall_take, Forall_drop.
  assert (length (take 4 (drop i rec)) = 4%nat) as Hl by (rewrite length_take, length_drop; lia).
  destruct (take 4 (drop i rec)) as [|x0 [|x1 [|x2 [|x3 [|]]]]]; try done.
  rewrite !Forall_cons in Hf. destruct Hf as (? & ? & ? & ? & _). unfold char_at. cbn [lookup list_lookup default from_option id].
  rewrite lor_bytes4 by lia. f_equal. cbn. lia.
Qed.

Lemma record_parses sec record rec r : 0 <= record -> take (length rec) (drop (Z.to_nat record) sec) = rec ->
  record_of rec = Some r -> parse_record sec record (Z.of_nat (length rec)) = Some r.
Proof.
  intros Hr Hrec. unfold record_of. case_decide as H; [|done]. destruct H as (Hb & Hl1 & Hl2). intros Hx.
  set (n := Z.to_nat (char_at rec 32)) in *. set (area := (33 + n + (if Nat.even n then 1 else 0))%nat). set (id := take n (drop 33 rec)) in *.
  assert (r = let k := if decide (id = [0]) then Some 0 else if decide (id = [1]) then Some 1 else None in
    DirRecord k (match k with Some _ => [] | None => default (identifier_name id) (alternate_name (drop area rec)) end)
      (number (take 4 (drop 2 rec))) (number (take 4 (drop 10 rec))) (char_at rec 25)) as -> by (symmetry; exact (inj Some _ _ Hx)).
  clear Hx. cbv zeta.
  assert (forall i, (i < length rec)%nat -> byte_at sec (record + Z.of_nat i) = Some (char_at rec i)) as Hbyte.
  { intros i Hi. rewrite byte_at_drop, Nat2Z.id by lia. rewrite <- (lookup_take_lt _ (length rec) i), Hrec by done.
    unfold char_at. destruct (lookup_lt_is_Some_2 rec i Hi) as [x ->]. done. }
  assert (0 <= char_at rec 32 < 256) as H32.
  { rewrite Forall_lookup in Hb. destruct (lookup_lt_is_Some_2 rec 32 ltac:(lia)) as [x Hx]. unfold char_at. rewrite Hx. by apply (Hb 32%nat). }
  assert (char_at rec 32 = Z.of_nat n) as En by (unfold n; lia).
  unfold parse_record. pose proof (Hbyte 25%nat ltac:(lia)) as B25. change (Z.of_nat 25) with 25 in B25. rewrite B25. cbn [mbind option_bind].
  pose proof (Hbyte 32%nat ltac:(lia)) as B32.
  change (Z.of_nat 32) with 32 in B32. rewrite B32, En. cbn [mbind option_bind].
  pose proof (number_le32 sec record rec 2 Hr Hrec Hb ltac:(lia)) as L2. pose proof (number_le32 sec record rec 10 Hr Hrec Hb ltac:(lia)) as L10.
  change (Z.of_nat 2) with 2 in L2. change (Z.of_nat 10) with 10 in L10. rewrite L2, L10.
  assert (length id = n) as Hid by (unfold id; rewrite length_take, length_drop; lia).
  assert (special sec record (Z.of_nat n) = Some (if decide (id = [0]) then Some 0 else if decide (id = [1]) then Some 1 else None)) as ->.
  { unfold special. destruct (Z.eqb_spec (Z.of_nat n) 1) as [E1|E1].
    - pose proof (Hbyte 33%nat ltac:(lia)) as B33. change (Z.of_nat 33) with 33 in B33. rewrite B33. cbn [mbind option_bind].
      assert (id = [char_at rec 33]) as ->.
      { unfold id. replace n with 1%nat by lia. unfold char_at. destruct (lookup_lt_is_Some_2 rec 33 ltac:(lia)) as [x Hx]. rewrite Hx.
        by rewrite (drop_S _ _ _ Hx). }
      f_equal. destruct (Z.eqb_spec (char_at rec 33) 0) as [->|]; [done|]. destruct (Z.eqb_spec (char_at rec 33) 1) as [->|]; [done|].
      cbn [orb]. repeat case_decide; try done; by simplify_eq.
    - destruct (decide (id = [0])) as [Hx|]; [rewrite Hx in Hid; cbn in Hid; lia|].
      destruct (decide (id = [1])) as [Hx|]; [rewrite Hx in Hid; cbn in Hid; lia|done]. }
  cbn [mbind option_bind]. destruct (if decide (id = [0]) then Some 0 else _) as [k|] eqn:Ek; [done|].
  unfold iso_copy_record_name. rewrite B32, En. cbn [mbind option_bind]. unfold iso_copy_rock_ridge_name.
  assert (33 + Z.of_nat n + (if Z.land (Z.of_nat n) 1 =? 0 then 1 else 0) = Z.of_nat area) as ->.
  { unfold area. change 1 with (Z.ones 1) at 1. rewrite Z.land_ones by lia. change (2 ^ 1) with 2.
    destruct (Nat.even n) eqn:Ee; [apply Nat.even_spec in Ee as [m Hm]|rewrite <- Nat.negb_odd, negb_false_iff in Ee; apply Nat.odd_spec in Ee as [m Hm]].
    - assert (Z.of_nat n mod 2 = 0) as -> by (Z.to_euclidean_division_equations; lia). cbn [Z.eqb]. lia.
    - assert (Z.of_nat n mod 2 = 1) as -> by (Z.to_euclidean_division_equations; lia). cbn [Z.eqb]. lia. }
  rewrite (rock_ridge_fields sec record rec Hr Hrec ltac:(intros b Hbb; rewrite Forall_forall in Hb; by apply Hb) 64 (length (drop area rec)) area)
    by (rewrite ?length_drop; lia).
  cbn [mbind option_bind]. unfold alternate_name.
  assert (iso_copy_name sec (record + 33) (Z.of_nat n) = Some (without_trailing 46 (fold_case <$> take 23 (before 59 id)))) as Hname.
  { rewrite <- Hid. apply copy_name_id; [lia|]. rewrite Hid. unfold id. rewrite <- Hrec at 1. rewrite skipn_firstn_comm, take_take, drop_drop.
    f_equal; [lia|]. f_equal. lia. }
  rewrite Hname. cbn [mbind option_bind]. rewrite string_before.
  destruct (head _) as [f|]; [|reflexivity]. destruct (decide (Z.land (char_at f 4) 6 = 0)); [|reflexivity]. destruct (take 23 (drop 5 f)) as [|c name]; [reflexivity|].
  rewrite string_before. reflexivity.
Qed.

Lemma sector_parses fuel : forall k sec rest offset rs, length (rest ++ sec) = 2048%nat -> offset = Z.of_nat (length rest) ->
  (length sec <= fuel)%nat -> (length sec <= k)%nat ->
  sector_records fuel sec = Some rs -> parse_records k (rest ++ sec) offset = Some rs.
Proof.
  induction fuel as [|fuel IH]; intros k sec rest offset rs Hl -> Hf Hk H; rewrite length_app in Hl.
  all: destruct sec as [|n sec].
  1,3: destruct k; cbn [sector_records parse_records] in *; unfold ISO9660_SECTOR_SIZE; cbn [length] in Hl;
    (destruct (Z.ltb_spec (Z.of_nat (length rest)) 2048); [lia|]); cbn [negb]; congruence.
  { cbn [length] in Hf. lia. }
  destruct k as [|k]; [cbn [length] in Hk; lia|]. cbn [parse_records sector_records] in *. unfold ISO9660_SECTOR_SIZE.
  destruct (Z.ltb_spec (Z.of_nat (length rest)) 2048); [|cbn [length] in Hl; lia]. cbn [negb].
  assert (byte_at (rest ++ n :: sec) (Z.of_nat (length rest)) = Some n) as ->.
  { unfold byte_at. rewrite Nat2Z.id, lookup_app_r, Nat.sub_diag by lia. done. }
  cbn [mbind option_bind]. destruct (Z.eqb_spec n 0) as [->|]; [rewrite decide_True in H by done; congruence|].
  rewrite decide_False in H by done. case_decide as Hn; [|done]. set (l := n :: sec) in *.
  destruct (record_of (take (Z.to_nat n) l)) as [r|] eqn:Er; [|done]. cbn [mbind option_bind] in H.
  destruct (sector_records fuel (drop (Z.to_nat n) l)) as [rs'|] eqn:Ers; [|done]. injection H as <-.
  assert (length (take (Z.to_nat n) l) = Z.to_nat n) as Hlt by (rewrite length_take; lia).
  assert (parse_record (rest ++ l) (Z.of_nat (length rest)) n = Some r) as ->.
  { pose proof (record_parses (rest ++ l) (Z.of_nat (length rest)) (take (Z.to_nat n) l) r ltac:(lia)) as Hp.
    rewrite Nat2Z.id, drop_app_length, Hlt, Z2Nat.id in Hp by lia. by apply Hp. }
  cbn [mbind option_bind]. rewrite <- (take_drop (Z.to_nat n) l) at 1. rewrite app_assoc.
  rewrite (IH k (drop (Z.to_nat n) l) (rest ++ take (Z.to_nat n) l) _ rs'); [done| | | | |done].
  - rewrite <- app_assoc, take_drop, length_app. done.
  - rewrite length_app, Hlt. lia.
  - rewrite length_drop. unfold l in *. cbn [length] in *. lia.
  - rewrite length_drop. unfold l in *. cbn [length] in *. lia.
Qed.

(** ** The comparison *)

Lemma common_names a : forall b, Forall (fun c => c <> 0) a -> Forall (fun c => c <> 0) b ->
  (char_at a (common a b) =? 0) && (char_at b (common a b) =? 0) = true <-> fold_case <$> a = fold_case <$> b.
Proof.
  induction a as [|x a IH]; intros [|y b] Ha Hb; cbn [common]; rewrite ?Forall_cons in *; unfold char_at in *; cbn.
  - done.
  - destruct (Z.eqb_spec y 0); [lia|]. split; [done|discriminate].
  - destruct (Z.eqb_spec x 0); [lia|]. split; [done|discriminate].
  - rewrite !fold_case_lower. destruct (Z.eqb_spec (fold_case x) (fold_case y)) as [E|E]; cbn [negb].
    + cbn [lookup list_lookup]. rewrite IH by (apply Ha || apply Hb). split; [by intros ->; rewrite E|intros [= _ H]; exact H].
    + cbn [lookup list_lookup default from_option id]. destruct (Z.eqb_spec x 0); [lia|]. split; [done|intros [= H _]; done].
Qed.

Lemma alias_before a : alias_len a = length (before 126 a).
Proof. induction a as [|x a IH]; cbn; [done|]. unfold Fat12Name.tilde. case_decide; destruct (Z.eqb_spec x 126); try lia; cbn; lia. Qed.

Lemma before_none c a : c ∉ before c a.
Proof.
  induction a as [|x a IH]; cbn; [apply not_elem_of_nil|]. case_decide; [apply not_elem_of_nil|]. rewrite elem_of_cons. intros [->|]; done.
Qed.

Lemma before_split c a : char_at a (length (before c a)) = c -> c <> 0 -> a = before c a ++ c :: drop (S (length (before c a))) a.
Proof.
  induction a as [|x a IH]; cbn; [unfold char_at; cbn; lia|]. case_decide as H; cbn; [by subst|]. intros Hc H0. f_equal. apply IH; done.
Qed.

Lemma before_app c l r : c ∉ l -> before c (l ++ c :: r) = l.
Proof.
  induction l as [|x l IH]; cbn; intros Hl; [by rewrite decide_True|]. rewrite elem_of_cons in Hl. rewrite decide_False by (intros ->; tauto).
  f_equal. apply IH. tauto.
Qed.

Lemma folded_prefix s name : (length s < length name)%nat ->
  forallb (fun i => iso_lower (char_at s i) =? iso_lower (char_at name i)) (seq 0 (length s)) = true <->
  fold_case <$> take (length s) name = fold_case <$> s.
Proof.
  intros Hl. rewrite forallb_forall. split.
  - intros H. apply list_eq. intros i. rewrite !list_lookup_fmap. destruct (decide (i < length s)%nat) as [Hi|Hi].
    + rewrite lookup_take_lt by done. specialize (H i ltac:(apply in_seq; lia)). rewrite !fold_case_lower in H. unfold char_at in H.
      destruct (lookup_lt_is_Some_2 s i Hi) as [x Hx], (lookup_lt_is_Some_2 name i ltac:(lia)) as [y Hy]. rewrite Hx, Hy in *. cbn in *. f_equal. lia.
    + rewrite !lookup_ge_None_2 by (rewrite ?length_take; lia). done.
  - intros H i Hi. apply in_seq in Hi. apply (f_equal (.!! i)) in H. rewrite !list_lookup_fmap, lookup_take_lt in H by lia.
    unfold char_at. destruct (lookup_lt_is_Some_2 s i ltac:(lia)) as [x Hx], (lookup_lt_is_Some_2 name i ltac:(lia)) as [y Hy].
    rewrite Hx, Hy in *. cbn in H |- *. injection H as H. rewrite !fold_case_lower, H. lia.
Qed.

Lemma seq_prefix a s r name : a = s ++ r ->
  forallb (fun i => iso_lower (char_at a i) =? iso_lower (char_at name i)) (seq 0 (length s)) =
  forallb (fun i => iso_lower (char_at s i) =? iso_lower (char_at name i)) (seq 0 (length s)).
Proof.
  intros ->. apply eq_true_iff_eq. rewrite !forallb_forall. split; intros H i Hi; specialize (H i Hi); apply in_seq in Hi;
    unfold char_at in *; rewrite lookup_app_l in * by lia; done.
Qed.

Lemma name_eq_named a name : Forall (fun c => c <> 0) a -> Forall (fun c => c <> 0) name ->
  iso_name_eq a name = true <-> named a name.
Proof.
  intros Ha Hn. unfold iso_name_eq, named. pose proof (common_names a name Ha Hn) as Hc.
  destruct (_ && _); [split; [intros _; left; by apply Hc|done]|].
  assert (fold_case <$> a <> fold_case <$> name) as Hne by (intros H; apply Hc in H; discriminate).
  rewrite alias_before. unfold Fat12Name.tilde. set (s := before 126 a).
  assert (char_at name (length s) = 0 <-> (length name <= length s)%nat) as Hz.
  { unfold char_at. destruct (decide (length name <= length s)%nat) as [H|H]; [rewrite lookup_ge_None_2 by done; done|].
    destruct (lookup_lt_is_Some_2 name (length s) ltac:(lia)) as [x Hx]. rewrite Hx. cbn. rewrite Forall_lookup in Hn.
    specialize (Hn _ _ Hx). cbn in Hn. lia. }
  split.
  - destruct (_ || _) eqn:E1; [done|]. destruct (forallb _ (drop _ a)) eqn:E2; cbn [negb]; [|done].
    assert (char_at a (length s) = 126 /\ length s <> 0%nat /\ char_at name (length s) <> 0) as (Ht & Hs & Hz0) by lia.
    pose proof (before_split 126 a Ht ltac:(done)) as Ea. fold s in Ea. rewrite (seq_prefix a s _ name Ea).
    intros E3. right. exists s, (drop (S (length s)) a). split_and!; [done|apply before_none|by intros E; rewrite E in Hs| |lia|].
    + apply Forall_forall. intros c Hin. rewrite forallb_forall in E2. specialize (E2 c ltac:(by apply list_elem_of_In)). lia.
    + apply folded_prefix; [lia|done].
  - intros [H|(stem & digits & Ea & Hnt & Hs & Hd & Hlen & Hp)]; [done|].
    assert (s = stem) as -> by (unfold s; rewrite Ea; by apply before_app).
    assert (char_at a (length stem) = 126) as Ht.
    { rewrite Ea. unfold char_at. rewrite lookup_app_r, Nat.sub_diag by lia. done. }
    rewrite Ht. assert (length stem <> 0%nat) by (by destruct stem). change (negb (126 =? 126)) with false. cbn [orb].
    destruct (Nat.eqb_spec (length stem) 0); [lia|]. destruct (Z.eqb_spec (char_at name (length stem)) 0) as [E|]; [apply Hz in E; lia|]. cbn [orb].
    assert (drop (S (length stem)) a = digits) as ->.
    { rewrite Ea. change (stem ++ 126 :: digits) with (stem ++ [126] ++ digits). rewrite app_assoc.
      replace (S (length stem)) with (length (stem ++ [126])) by (rewrite length_app; cbn; lia). apply drop_app_length. }
    assert (forallb (fun c => (48 <=? c) && (c <=? 57)) digits = true) as ->.
    { apply forallb_forall. intros c Hin%list_elem_of_In. rewrite Forall_forall in Hd. specialize (Hd c Hin). lia. }
    cbn [negb]. rewrite (seq_prefix a stem _ name Ea). by apply folded_prefix.
Qed.

Lemma named_alias a name (s := before 126 a) :
  (exists stem digits, a = stem ++ 126 :: digits /\ 126 ∉ stem /\ stem <> [] /\ Forall (fun c => 48 <= c <= 57) digits /\
    (length stem < length name)%nat /\ fold_case <$> take (length stem) name = fold_case <$> stem) <->
  a = s ++ 126 :: drop (S (length s)) a /\ s <> [] /\ Forall (fun c => 48 <= c <= 57) (drop (S (length s)) a) /\
    (length s < length name)%nat /\ fold_case <$> take (length s) name = fold_case <$> s.
Proof.
  split.
  - intros (stem & digits & Ea & Hnt & Hs & Hd & Hlen & Hp). assert (s = stem) as -> by (unfold s; rewrite Ea; by apply before_app).
    assert (drop (S (length stem)) a = digits) as ->; [|done]. rewrite Ea. change (stem ++ 126 :: digits) with (stem ++ [126] ++ digits).
    rewrite app_assoc. replace (S (length stem)) with (length (stem ++ [126])) by (rewrite length_app; cbn; lia). apply drop_app_length.
  - intros (Ea & Hs & Hd & Hlen & Hp). exists s, (drop (S (length s)) a). split_and!; try done. apply before_none.
Qed.

#[global] Instance named_dec a name : Decision (named a name).
Proof.
  unfold named. apply or_dec; [apply _|].
  destruct (decide (a = before 126 a ++ 126 :: drop (S (length (before 126 a))) a /\ before 126 a <> [] /\
    Forall (fun c => 48 <= c <= 57) (drop (S (length (before 126 a))) a) /\ (length (before 126 a) < length name)%nat /\
    fold_case <$> take (length (before 126 a)) name = fold_case <$> before 126 a)) as [H|H]; [left|right].
  - by apply named_alias.
  - intros K. by apply H, named_alias.
Defined.

(** A record answers to a name: the first two to the names of the directory itself and its parent. *)
Definition answers (name : list Z) (r : dir_record) : Prop :=
  match r_special r with
  | Some c => name = if decide (c = 0) then [46] else [46; 46]
  | None => named (r_name r) name
  end.
#[global] Instance answers_dec name r : Decision (answers name r).
Proof. unfold answers. destruct (r_special r); apply _. Defined.

Lemma iso_streq_eq a : forall b, iso_streq a b = true <-> a = b.
Proof.
  induction a as [|x a IH]; intros [|y b]; cbn; try done. destruct (Z.eqb_spec x y) as [->|]; cbn [negb]; [rewrite IH; split; [by intros ->|by intros [= ->]]|].
  split; [done|intros [= H _]; done].
Qed.

Lemma matches_answers name r : Forall (fun c => c <> 0) (r_name r) -> Forall (fun c => c <> 0) name ->
  matches name r = true <-> answers name r.
Proof.
  intros Hr Hn. unfold matches, answers. destruct (r_special r) as [c|]; [|by apply name_eq_named]. rewrite iso_streq_eq.
  destruct (Z.eqb_spec c 0); case_decide; done.
Qed.

Lemma record_name_string rec r : record_of rec = Some r -> Forall (fun c => c <> 0) (r_name r).
Proof.
  assert (forall l, Forall (fun c => c <> 0) (before 0 l)) as Hb.
  { intros l. apply Forall_forall. intros c Hc ->. by apply before_none in Hc. }
  unfold record_of. destruct (decide _); [|done]. intros Hx. apply (inj Some) in Hx as <-. cbn [r_name].
  destruct (if decide _ then Some 0 else _); [constructor|]. unfold alternate_name, identifier_name.
  destruct (head _) as [f|]; [|apply Hb]. destruct (decide _); [|apply Hb]. destruct (take 23 (drop 5 f)); apply Hb.
Qed.

Lemma sector_names fuel : forall sec rs, sector_records fuel sec = Some rs -> Forall (fun r => Forall (fun c => c <> 0) (r_name r)) rs.
Proof.
  induction fuel as [|fuel IH]; intros [|n sec] rs; cbn [sector_records]; try (intros [= <-]; constructor).
  destruct (decide (n = 0)); [intros [= <-]; constructor|]. destruct (decide _); [|done].
  destruct (record_of _) as [r|] eqn:Er; [|done]. cbn [mbind option_bind]. destruct (sector_records fuel _) as [rs'|] eqn:Ers; [|done].
  intros [= <-]. constructor; [by apply (record_name_string _ _ Er)|by apply (IH _ _ Ers)].
Qed.

End IsoFormat.
