(* ===== verification/IsoDriver.v ===== *)
(** * ISO9660 honours the driver contract

    What a well-formed volume is, path resolution on it, and the instances of
    [file_driver] and [file_reader] for the ISO9660 table. *)

From S2P Require Import Prelude FsTypes Vfs Block Iso9660 IsoVolume.
From stdpp Require Import base list option list_numbers strings.
From Stdlib Require Import ZArith Lia ZifyBool.
Import FsTypes Vfs VfsWp Block Iso9660 IsoVolume.
Open Scope Z_scope.
Open Scope vfs_scope.

Module IsoDriver.

Section Driver.
Context {D : Type} `{!block_device D} `{!disc D}.

(** ** Well-formed volumes *)

(** The sectors of [size] bytes, on the device. *)
Definition extent_sectors (size : Z) : Z := (size + 2047) / 2048.
Definition extent_ok (d : D) (lba size : Z) : Prop :=
  0 <= size /\ size + 2047 < 2 ^ 32 /\ on_disc d lba (extent_sectors size).

Definition extent_bytes (d : D) (lba size : Z) : list Z :=
  take (Z.to_nat size) (sectors d lba (Z.to_nat (extent_sectors size))).

Definition records_of (d : D) (lba size : Z) : option (list dir_record) :=
  dir_records d (total_sectors size) lba.

(** Directories that can be reached from the extents [roots]. *)
Inductive directory (d : D) (roots : list (Z * Z)) : Z -> Z -> Prop :=
| root_directory lba size : (lba, size) ∈ roots -> directory d roots lba size
| sub_directory lba size rs r :
    directory d roots lba size -> records_of d lba size = Some rs -> r ∈ rs -> is_dir r = true ->
    directory d roots (r_lba r) (r_size r).

(** Every reachable directory is on the device and parses, and so are its files. *)
Definition volume_ok (d : D) (roots : list (Z * Z)) : Prop :=
  forall lba size, directory d roots lba size ->
    extent_ok d lba size /\ exists rs, records_of d lba size = Some rs /\
      forall r, r ∈ rs -> is_dir r = false -> extent_ok d (r_lba r) (r_size r).

(** A mounted volume: the working directory is one of the volume's, and an open file
    is an extent of the device. *)
Record mounted (d : D) (s : iso D) : Prop := {
  mt_dev : g_iso_dev s = Some d;
  mt_volume : volume_ok d [(g_iso_root_lba s, g_iso_root_size s); (g_iso_cwd_lba s, g_iso_cwd_size s)];
  mt_slots : length (g_iso_open_files s) = Z.to_nat ISO9660_OPEN_FILE_CAP;
  mt_files : forall f, f ∈ g_iso_open_files s -> used f = true -> extent_ok d (f_lba f) (f_size f)
}.

Lemma extent_total d lba size :
  extent_ok d lba size -> on_disc d lba (Z.of_nat (total_sectors size)) /\
    total_sectors size = Z.to_nat (extent_sectors size).
Proof.
  unfold extent_ok, total_sectors, extent_sectors. intros (? & ? & Hd). rewrite u32_small by lia.
  split; [|done]. rewrite Z2Nat.id by (apply Z.div_pos; lia). done.
Qed.

Lemma on_dev_same {A} (m : M D A) (d : D) (s : iso D) r :
  g_iso_dev s = Some d -> m d = Some (r, d) -> on_dev m s = Some (r, s).
Proof. intros Hd Hm. unfold on_dev. rewrite Hd, Hm. destruct s; simpl in *. by rewrite Hd. Qed.

(** ** Scans *)

Lemma find_first (d : D) s lba size rs name :
  g_iso_dev s = Some d -> extent_ok d lba size -> records_of d lba size = Some rs ->
  iso_find_entry_in_dir lba size name s =
    Some (match first_match name rs with
          | Some r => inr (r_lba r, r_size r, r_flags r) | None => inl FS_ERR_NOT_FOUND end, s).
Proof.
  intros Hd He Hrs. destruct (extent_total d lba size He) as [Hdisc _].
  unfold iso_find_entry_in_dir, records_of in *.
  pose proof (scan_extent_fold (find_step name) (find_fold name) d (total_sectors size) lba rs tt
                (find_step_fold name) Hdisc Hrs) as E.
  rewrite find_fold_first in E. destruct (total_sectors size) as [|n].
  { injection Hrs as <-. done. }
  unfold bind. rewrite (on_dev_same _ d s _ Hd E). by destruct (first_match name rs) as [r|].
Qed.

Lemma first_match_elem name rs r : first_match name rs = Some r -> r ∈ rs /\ matches name r = true.
Proof.
  unfold first_match. intros H. apply head_Some_elem_of, list_elem_of_filter in H. by destruct H.
Qed.

(** A place is a directory of the volume or a file on the device. *)
Definition place_ok (d : D) (roots : list (Z * Z)) (p : place) : Prop :=
  if p.2 then directory d roots p.1.1 p.1.2 else extent_ok d p.1.1 p.1.2.

Lemma skip_span_shorter c cursor :
  (length (skip_slashes (span (c :: cursor)).2) <= length cursor)%nat \/ (span (c :: cursor)).1 = [].
Proof.
  pose proof (span_app (c :: cursor)) as E. destruct (span (c :: cursor)) as [[|x comp] rest]; [by right|left].
  apply (f_equal length) in E. rewrite length_app in E. cbn [length fst snd] in *.
  pose proof (skip_slashes_length rest). lia.
Qed.

Lemma resolve_loop_ok (d : D) s fuel cur cursor :
  let roots := [(g_iso_root_lba s, g_iso_root_size s); (g_iso_cwd_lba s, g_iso_cwd_size s)] in
  g_iso_dev s = Some d -> volume_ok d roots -> (length cursor < fuel)%nat -> char_at cursor 0 <> slash ->
  place_ok d roots cur -> (cursor <> [] -> cur.2 = true) ->
  exists r, resolve_loop fuel cur cursor s = Some (r, s) /\
    match r with inr p => place_ok d roots p | inl _ => True end.
Proof.
  intros roots Hd Hv. revert cur cursor. induction fuel as [|fuel IH]; intros cur cursor Hf Hsl Hp Hdir; [lia|].
  destruct cursor as [|c cursor]; [by exists (inr cur)|]. cbn [resolve_loop length] in *.
  destruct (skip_span_shorter c cursor) as [Hshort|Hnil]; [|by apply span_head in Hnil].
  destruct (span (c :: cursor)) as [comp rest]. cbn [fst snd] in *.
  unfold guard at 1. destruct (negb (FS_NAME_CAP <=? Z.of_nat (length comp))); [|by eexists].
  unfold bind at 1. cbn [ret]. destruct cur as [[lba size] dir]. cbn [snd] in *.
  specialize (Hdir ltac:(done)) as ->. unfold bind at 1. cbn [get].
  assert (forall p, place_ok d roots p -> (skip_slashes rest <> [] -> p.2 = true) ->
    exists r, resolve_loop fuel p (skip_slashes rest) s = Some (r, s) /\
      match r with inr p => place_ok d roots p | inl _ => True end) as Hgo.
  { intros p Hp' Hd'. apply IH; [lia|apply skip_slashes_first|done|done]. }
  destruct (_ || _); [by apply Hgo|]. destruct (_ && _); [by apply Hgo|].
  destruct (Hv lba size Hp) as (He & rs & Hrs & Hfiles).
  unfold bind at 1. rewrite (find_first d s lba size rs comp Hd He Hrs).
  destruct (first_match comp rs) as [r|] eqn:Em; [|by eexists].
  apply first_match_elem in Em as [Hr _]. fold (is_dir r). unfold guard.
  destruct ((length (skip_slashes rest) =? 0)%nat || is_dir r) eqn:Eg; [|by eexists].
  unfold bind. cbn [ret]. apply Hgo.
  - unfold place_ok. cbn [fst snd]. destruct (is_dir r) eqn:Er; [|by apply Hfiles].
    by apply (sub_directory d roots lba size rs r).
  - cbn [snd]. destruct (skip_slashes rest); [done|]. intros _. by rewrite orb_false_l in Eg.
Qed.

Lemma resolve_ok (d : D) s path :
  mounted d s -> exists r, iso_resolve_path path s = Some (r, s) /\
    match r with
    | inr p => place_ok d [(g_iso_root_lba s, g_iso_root_size s); (g_iso_cwd_lba s, g_iso_cwd_size s)] p
    | inl _ => True
    end.
Proof.
  intros [Hd Hv _ _]. unfold iso_resolve_path, guard. destruct path as [|c path]; [by eexists|].
  cbn [length Nat.eqb negb]. unfold bind at 1. cbn [ret]. unfold bind at 1. cbn [get].
  change (char_at (c :: path) 0) with c.
  apply (resolve_loop_ok d s); try done.
  - pose proof (skip_slashes_length (c :: path)). case_bool; cbn [length] in *; lia.
  - destruct (Z.eqb_spec c slash); [apply skip_slashes_first|done].
  - case_bool; apply root_directory; by repeat constructor.
  - by case_bool.
Qed.

(** ** Files *)

Definition iso_ok (s : iso D) : Prop := exists d, mounted d s.

Definition iso_file_at (s : iso D) (path : list Z) : option (list Z) :=
  match g_iso_dev s, iso_resolve_path path s with
  | Some d, Some (inr (lba, size, false), _) => Some (extent_bytes d lba size)
  | _, _ => None
  end.

Lemma extent_sectors_bound size : 0 <= size -> 0 <= extent_sectors size /\ size <= 2048 * extent_sectors size.
Proof. unfold extent_sectors. intros. pose proof (Z.div_mod (size + 2047) 2048). pose proof (Z.mod_pos_bound (size + 2047) 2048). lia. Qed.

Lemma extent_bytes_length d lba size : 0 <= size -> Z.of_nat (length (extent_bytes d lba size)) = size.
Proof.
  intros Hs. destruct (extent_sectors_bound size Hs). unfold extent_bytes. rewrite length_take, sectors_length. lia.
Qed.

Lemma sectors_drop (d : D) lba n q :
  (q <= n)%nat -> sectors d (lba + Z.of_nat q) (n - q) = drop (2048 * q) (sectors d lba n).
Proof.
  revert lba n. induction q as [|q IH]; intros lba n Hq.
  { rewrite Z.add_0_r, Nat.sub_0_r, Nat.mul_0_r. done. }
  destruct n as [|n]; [lia|]. rewrite sectors_cons, drop_app_ge by (rewrite iso_sector_length; lia).
  rewrite iso_sector_length. replace (2048 * S q - 2048)%nat with (2048 * q)%nat by lia.
  rewrite <- IH by lia. cbn [Nat.sub]. f_equal. lia.
Qed.

(** The loop of [iso_read], from any offset of the file. *)
Lemma read_extent_at (d : D) lba size off count :
  extent_ok d lba size -> 0 <= off -> 0 <= count -> off + count <= size ->
  read_extent (Z.to_nat count) (u32 (lba + off / 2048)) (off mod 2048) count [] d =
    Some (inr (take (Z.to_nat count) (drop (Z.to_nat off) (extent_bytes d lba size))), d).
Proof.
  intros (Hs & H32 & Hdisc) Ho Hc Hend. destruct (extent_sectors_bound size Hs) as [Hn Hsn].
  pose proof (Z.div_mod off 2048 ltac:(lia)). pose proof (Z.mod_pos_bound off 2048 ltac:(lia)).
  assert (0 <= off / 2048) by (apply Z.div_pos; lia). pose proof (ds_count d (proj1 Hdisc)).
  destruct (Z.eqb_spec count 0) as [->|Hc0].
  { change (Z.to_nat 0) with 0%nat. by rewrite take_0. }
  set (n := Z.to_nat (extent_sectors size)) in *. set (q := Z.to_nat (off / 2048)).
  assert (q <= n)%nat by lia. destruct Hdisc as (Hd & Hl & Hn4). rewrite u32_small by lia.
  rewrite (read_extent_spec (n - q) d); cbn [length]; [|split_and!; done || lia|lia|lia|lia|lia].
  do 2 f_equal. replace (off / 2048) with (Z.of_nat q) by lia. rewrite sectors_drop by done.
  cbn [app]. f_equal. rewrite drop_drop. unfold extent_bytes. fold n. rewrite skipn_firstn_comm, take_take.
  replace (2048 * q + Z.to_nat (off mod 2048))%nat with (Z.to_nat off) by lia. f_equal. lia.
Qed.

Lemma stat_ok s p :
  iso_ok s -> exists stat r, d_stat iso_driver = Some stat /\ stat p s = Some (r, s) /\
  match iso_file_at s p with
  | Some b => exists m, r = inr (FsStat m (Z.of_nat (length b))) /\ Z.land m FS_MODE_FILE <> 0
  | None => match r with inr st => Z.land (st_mode st) FS_MODE_FILE = 0 | inl _ => True end
  end.
Proof.
  intros [d Hm]. destruct (resolve_ok d s p Hm) as (r & E & Hr). unfold iso_file_at. rewrite (mt_dev _ _ Hm), E.
  exists iso_stat. cbn [iso_driver d_stat]. unfold iso_stat, bind. rewrite E.
  destruct r as [rc|[[lba size] [|]]]; (eexists; split; [done|split; [done|]]); [done|done|].
  exists FS_MODE_FILE. by rewrite extent_bytes_length by apply Hr.
Qed.

Lemma read_file_ok s p cap :
  iso_ok s -> 0 <= cap ->
  exists read_file r, d_read_file iso_driver = Some read_file /\ read_file p cap s = Some (r, s) /\
  match iso_file_at s p with
  | Some b => r = if cap <? Z.of_nat (length b) then inl FS_ERR_NO_SPACE else inr b
  | None => True
  end.
Proof.
  intros [d Hm] _. destruct (resolve_ok d s p Hm) as (r & E & Hr). unfold iso_file_at. rewrite (mt_dev _ _ Hm), E.
  exists iso_read_file. cbn [iso_driver d_read_file]. unfold iso_read_file. unfold bind. rewrite E.
  destruct r as [rc|[[lba size] [|]]]; [by eexists..|]. unfold place_ok in Hr. cbn [fst snd] in Hr.
  pose proof (proj1 Hr) as Hs. pose proof (extent_bytes_length d lba size Hs) as Hlen. rewrite Hlen.
  unfold guard. cbn [ret negb]. destruct (cap <? size); [by eexists|]. cbn [ret negb].
  exists (inr (extent_bytes d lba size)). split_and!; [done| |done].
  destruct (Z.eqb_spec size 0) as [->|Hne].
  { done. }
  pose proof (read_extent_at d lba size 0 size Hr ltac:(lia) ltac:(lia) ltac:(lia)) as Hx.
  destruct Hr as (_ & _ & Hdisc). pose proof (ds_count d (proj1 Hdisc)). destruct (extent_sectors_bound size Hs).
  destruct Hdisc as (Hd & Hl & Hn4). change (0 / 2048) with 0 in Hx. change (0 mod 2048) with 0 in Hx.
  rewrite Z.add_0_r, u32_small in Hx by lia.
  rewrite (on_dev_same _ d s _ (mt_dev _ _ Hm) Hx). change (Z.to_nat 0) with 0%nat.
  rewrite drop_0, take_ge by lia. done.
Qed.

Lemma replace_ok open write s s1 s2 p id b w :
  d_open iso_driver = Some open -> d_write iso_driver = Some write ->
  iso_ok s -> Forall (fun c => c <> 0) p -> b <> [] ->
  open p (Z.lor FS_O_CREAT (Z.lor FS_O_TRUNC FS_O_WRONLY)) s = Some (inr id, s1) ->
  write id 0 b s1 = Some (inr w, s2) ->
  iso_ok s2 /\ w = Z.of_nat (length b) /\ iso_file_at s2 p = Some b /\
  exists close r, d_close iso_driver = Some close /\ close id s2 = Some (r, s2).
Proof. intros [= <-] [= <-] _ _ _ E. done. Qed.

#[export] Instance iso_file_driver : file_driver (@iso_driver D _) := {|
  fd_ok := iso_ok;
  file_at := iso_file_at;
  fd_stat := stat_ok;
  fd_read_file := read_file_ok;
  fd_replace := replace_ok
|}.

(** ** Open files *)

(** What does not look at the open files. *)
Definition framed {A} (m : M (iso D) A) : Prop :=
  forall l s, m (set_files l s) = prod_map id (set_files l) <$> m s.

Lemma framed_bind {A B} (m : M (iso D) A) (k : A -> M (iso D) B) :
  framed m -> (forall a, framed (k a)) -> framed (bind m k).
Proof.
  intros Hm Hk l s. unfold bind. rewrite Hm. destruct (m s) as [[[rc|a] s']|]; [done| |done].
  cbn. by rewrite Hk.
Qed.

Lemma framed_on_dev {A} (m : M D A) : framed (on_dev m).
Proof. intros l s. unfold on_dev. cbn. destruct (g_iso_dev s); [|done]. by destruct (m _) as [[r d']|]. Qed.

Lemma framed_find lba size name : framed (iso_find_entry_in_dir lba size name).
Proof.
  unfold iso_find_entry_in_dir. apply framed_bind; [|by intros []].
  destruct (total_sectors size); [done|apply framed_on_dev].
Qed.

Lemma framed_get {A} (k : iso D -> M (iso D) A) :
  (forall l s, k (set_files l s) = k s) -> (forall s, framed (k s)) -> framed (bind get k).
Proof. intros He Hk l s. unfold bind, get. rewrite He. apply Hk. Qed.

Lemma framed_resolve_loop fuel cur cursor : framed (resolve_loop fuel cur cursor).
Proof.
  revert cur cursor. induction fuel as [|fuel IH]; intros cur cursor; destruct cursor as [|c cursor]; try done.
  cbn [resolve_loop]. destruct (span (c :: cursor)) as [comp rest], cur as [[lba size] dir].
  apply framed_bind; [by destruct (negb _)|]. intros []. apply framed_get; [done|]. intros s.
  destruct (_ || _); [apply IH|]. destruct (_ && _); [apply IH|].
  apply framed_bind; [apply framed_find|]. intros [[lba' size'] flags].
  apply framed_bind; [by destruct (_ || _)|]. intros []. apply IH.
Qed.

Lemma framed_resolve path : framed (iso_resolve_path path).
Proof.
  unfold iso_resolve_path. apply framed_bind; [by destruct (negb _)|]. intros [].
  apply framed_get; [done|]. intros s. apply framed_resolve_loop.
Qed.

Lemma file_at_files l s p : iso_file_at (set_files l s) p = iso_file_at s p.
Proof.
  unfold iso_file_at. rewrite framed_resolve. cbn [set_files g_iso_dev].
  destruct (g_iso_dev s); [|done]. by destruct (iso_resolve_path p s) as [[[rc|[[lba size] []]] s']|].
Qed.

Lemma mounted_files (d : D) s l :
  mounted d s -> length l = length (g_iso_open_files s) ->
  (forall f, f ∈ l -> used f = true -> extent_ok d (f_lba f) (f_size f)) -> mounted d (set_files l s).
Proof. intros [Hd Hv Hl _] Hlen Hf. split; [done|done|cbn; by rewrite Hlen|done]. Qed.

Definition iso_room (s : iso D) : Prop := is_Some (free_slot 0 (g_iso_open_files s)).

Definition iso_opened (s : iso D) (id : Z) (b : list Z) : Prop :=
  exists i f d, id = Z.of_nat i + 1 /\ g_iso_dev s = Some d /\ g_iso_open_files s !! i = Some f /\
    used f = true /\ b = extent_bytes d (f_lba f) (f_size f).

Lemma free_slot_lookup l k i : free_slot k l = Some i -> exists f, l !! (i - k)%nat = Some f /\ (k <= i)%nat.
Proof.
  revert k. induction l as [|x l IH]; intros k; cbn [free_slot]; [done|]. destruct (used x).
  - intros (f & Hf & Hk)%IH. exists f. replace (i - k)%nat with (S (i - S k)) by lia. split; [done|lia].
  - intros [= <-]. exists x. by rewrite Nat.sub_diag.
Qed.

Lemma free_slot_some l k i f : l !! i = Some f -> used f = false -> is_Some (free_slot k l).
Proof.
  revert k i. induction l as [|x l IH]; intros k i; [done|]. cbn [free_slot]. destruct (used x) eqn:Eu; [|by eexists].
  destruct i; cbn; [by intros [= ->]; rewrite Eu|]. by apply IH.
Qed.

Lemma open_ok s p b :
  iso_ok s -> iso_room s -> iso_file_at s p = Some b ->
  exists open id s', d_open iso_driver = Some open /\ open p FS_O_RDONLY s = Some (inr id, s') /\
    0 <= id < 2 ^ 31 /\ iso_ok s' /\ iso_opened s' id b /\ forall q, iso_file_at s' q = iso_file_at s q.
Proof.
  intros [d Hm] [i Hi] Hb. destruct (resolve_ok d s p Hm) as (r & E & Hr). unfold iso_file_at in Hb.
  rewrite (mt_dev _ _ Hm), E in Hb. destruct r as [rc|[[lba size] [|]]]; [done..|]. injection Hb as <-.
  destruct (free_slot_lookup _ _ _ Hi) as (f & Hf & _). rewrite Nat.sub_0_r in Hf.
  pose proof (lookup_lt_Some _ _ _ Hf) as Hlt. rewrite (mt_slots _ _ Hm) in Hlt.
  eexists iso_open, (Z.of_nat i + 1), (set_files (<[i := IsoFile true lba size]> (g_iso_open_files s)) s).
  split; [done|]. split. { unfold iso_open, bind, guard, ret. change (Z.land _ _ =? 0) with true. cbn iota beta. rewrite E. cbn. by rewrite Hi. }
  split; [unfold ISO9660_OPEN_FILE_CAP in *; lia|]. split_and!.
  - exists d. apply mounted_files; [done|by rewrite length_insert|]. intros g Hg Hu.
    apply list_elem_of_lookup in Hg as [j Hj]. apply list_lookup_insert_Some in Hj as [(_ & <- & _)|[_ Hj]]; [apply Hr|].
    by apply (mt_files _ _ Hm); [apply list_elem_of_lookup_2 in Hj|].
  - exists i, (IsoFile true lba size), d. cbn [set_files g_iso_dev g_iso_open_files].
    rewrite list_lookup_insert_eq by (rewrite (mt_slots _ _ Hm); lia). by rewrite (mt_dev _ _ Hm).
  - intros q. apply file_at_files.
Qed.

Lemma slot_of_ok (s : iso D) i :
  (i < Z.to_nat ISO9660_OPEN_FILE_CAP)%nat -> slot_of (Z.of_nat i + 1) s = Some (inr i, s).
Proof.
  intros Hi. unfold slot_of, bind, guard. destruct (_ || _) eqn:E; [unfold ISO9660_OPEN_FILE_CAP in *; lia|].
  cbn. unfold ret. do 3 f_equal. lia.
Qed.

Lemma read_ok s id b off cap :
  iso_ok s -> iso_opened s id b -> 0 <= off -> 0 <= cap ->
  exists read, d_read iso_driver = Some read /\
    read id off cap s = Some (inr (take (Z.to_nat cap) (drop (Z.to_nat off) b)), s).
Proof.
  intros [d Hm] (i & f & d' & -> & Hd & Hf & Hu & ->) Ho Hc. exists iso_read. split; [done|].
  assert (d' = d) as -> by (pose proof (mt_dev _ _ Hm); congruence).
  pose proof (lookup_lt_Some _ _ _ Hf) as Hlt. rewrite (mt_slots _ _ Hm) in Hlt.
  pose proof (mt_files _ _ Hm f (list_elem_of_lookup_2 _ _ _ Hf) Hu) as He.
  pose proof (extent_bytes_length d (f_lba f) (f_size f) (proj1 He)) as Hlen.
  unfold iso_read, file_of. unfold bind at 1 2. rewrite slot_of_ok by done.
  unfold bind at 1 2, get, lift_opt. rewrite Hf. unfold guard, bind at 1. rewrite Hu. cbn [ret].
  destruct (Z.leb_spec (f_size f) off).
  { rewrite drop_ge by lia. by rewrite take_nil. }
  set (target := Z.min _ _). assert (take (Z.to_nat cap) (drop (Z.to_nat off) (extent_bytes d (f_lba f) (f_size f))) =
    take (Z.to_nat target) (drop (Z.to_nat off) (extent_bytes d (f_lba f) (f_size f)))) as ->.
  { subst target. destruct (Z.le_gt_cases cap (f_size f - off)); [by rewrite Z.min_r by lia|].
    rewrite !take_ge by (rewrite length_drop; lia). done. }
  destruct (Z.eqb_spec target 0) as [->|]; [done|].
  apply (on_dev_same _ d s); [done|]. apply read_extent_at; subst target; lia || done.
Qed.

Lemma close_ok s id b :
  iso_ok s -> iso_opened s id b ->
  exists close r s', d_close iso_driver = Some close /\ close id s = Some (r, s') /\
    iso_ok s' /\ iso_room s' /\ forall q, iso_file_at s' q = iso_file_at s q.
Proof.
  intros [d Hm] (i & f & d' & -> & _ & Hf & _ & _).
  pose proof (lookup_lt_Some _ _ _ Hf) as Hlt. rewrite (mt_slots _ _ Hm) in Hlt.
  eexists iso_close, _, (set_files (<[i := IsoFile false (f_lba f) (f_size f)]> (g_iso_open_files s)) s).
  split; [done|]. split. { unfold iso_close, bind. rewrite slot_of_ok by done. unfold get, lift_opt. by rewrite Hf. }
  split_and!.
  - exists d. apply mounted_files; [done|by rewrite length_insert|]. intros g Hg Hu.
    apply list_elem_of_lookup in Hg as [j Hj]. apply list_lookup_insert_Some in Hj as [(_ & <- & _)|[_ Hj]]; [done|].
    by apply (mt_files _ _ Hm); [apply list_elem_of_lookup_2 in Hj|].
  - eapply (free_slot_some _ _ i); [apply list_lookup_insert_eq; rewrite (mt_slots _ _ Hm); lia|done].
  - intros q. apply file_at_files.
Qed.

#[export] Instance iso_file_reader : file_reader (@iso_driver D _) := {|
  fr_room := iso_room;
  open_file := iso_opened;
  fr_open := open_ok;
  fr_read := read_ok;
  fr_close := close_ok
|}.

End Driver.

End IsoDriver.
