(* ===== verification/IsoProps.v ===== *)
(** * The promises of the ISO9660 driver

    Directories are the lists of their records, files the bytes of their extents, and on
    a well-formed volume nothing outside the sector buffer is read. *)

From S2P Require Import Prelude FsTypes Vfs Block Iso9660 IsoVolume IsoDriver.
From stdpp Require Import base list option list_numbers strings gmap.
From Stdlib Require Import ZArith Lia ZifyBool.
Import FsTypes Vfs VfsWp Block Iso9660 IsoVolume IsoFormat IsoDriver.
Open Scope Z_scope.
Open Scope vfs_scope.

Module IsoProps.

Section Props.
Context {D : Type} `{!block_device D} `{!disc D}.

Lemma list_extent (d : D) s lba size rs cap :
  g_iso_dev s = Some d -> extent_ok d lba size -> records_of d lba size = Some rs -> 0 <= cap ->
  let listed := dirent_of <$> filter (fun r => ordinary r = true) rs in
  (r <- (match total_sectors size with
         | O => ret (inl [])
         | n => on_dev (scan_extent (list_step cap) n lba [])
         end) ;;
   match r with inl entries => ret entries | inr _ => fail FS_ERR_NO_SPACE end) s =
    Some (if (Z.of_nat (length listed) <=? cap) && (Z.of_nat (length listed) <=? ISO9660_NAME_SLOTS)
          then inr listed else inl FS_ERR_NO_SPACE, s).
Proof.
  intros Hd He Hrs Hc listed. destruct (extent_total d lba size He) as [Hdisc _]. unfold records_of in Hrs.
  pose proof (scan_extent_fold (list_step cap) (list_fold cap) d (total_sectors size) lba rs []
                (list_step_fold cap) Hdisc Hrs) as E.
  pose proof (list_fold_all cap rs [] ltac:(done) ltac:(done)) as Hall. cbn [app] in Hall.
  fold listed in Hall. rewrite Hall in E. destruct (total_sectors size) as [|n].
  { injection Hrs as <-. by destruct cap. }
  unfold bind. rewrite (on_dev_same _ d s _ Hd E). by destruct (_ && _).
Qed.

(** The records of a directory, sector by sector, by the reference parser. *)
Definition directory_records (d : D) (lba size : Z) : option (list dir_record) :=
  rss ← mapM (fun i => sector_records 2048 (iso_sector d i)) (seqZ lba (extent_sectors size)); Some (concat rss).

Lemma directory_parses (d : D) lba size rs : extent_ok d lba size -> directory_records d lba size = Some rs ->
  records_of d lba size = Some rs /\ Forall (fun r => Forall (fun c => c <> 0) (r_name r)) rs.
Proof.
  intros He. unfold directory_records, records_of. destruct (extent_total d lba size He) as [_ ->].
  assert (0 <= extent_sectors size) as Hn by (destruct He as (? & _); unfold extent_sectors; apply Z.div_pos; lia).
  rewrite <- (Z2Nat.id (extent_sectors size) Hn) at 1. generalize (Z.to_nat (extent_sectors size)) as n. clear He Hn.
  intros n. revert lba rs. induction n as [|n IH]; intros lba rs; [rewrite seqZ_nil by lia; intros [= <-]; by split; [|constructor]|].
  rewrite seqZ_cons by lia. cbn [mapM dir_records]. replace (Z.pred (Z.of_nat (S n))) with (Z.of_nat n) by lia.
  destruct (sector_records 2048 (iso_sector d lba)) as [rs1|] eqn:E1; [|done]. cbn [mbind option_bind].
  destruct (mapM _ (seqZ (Z.succ lba) _)) as [rs2|] eqn:E2; [|done]. intros [= <-].
  destruct (IH (Z.succ lba) (concat rs2)) as [H1 H2]; [by rewrite E2|]. split.
  - assert (parse_sector (iso_sector d lba) = Some rs1) as ->.
    { apply (sector_parses 2048 _ (iso_sector d lba) []); cbn [app]; rewrite ?iso_sector_length; done || reflexivity. }
    cbn [mbind option_bind]. change (lba + 1) with (Z.succ lba). by rewrite H1.
  - apply Forall_app. split; [by apply (sector_names _ _ _ E1)|done].
Qed.

(** The driver's first match is the first record that answers. *)
Lemma first_answers name rs : Forall (fun r => Forall (fun c => c <> 0) (r_name r)) rs -> Forall (fun c => c <> 0) name ->
  first_match name rs = head (filter (answers name) rs).
Proof.
  intros Hr Hn. unfold first_match. f_equal. induction Hr as [|r rs H _ IH]; [done|]. rewrite !filter_cons, IH.
  pose proof (matches_answers name r H Hn). by destruct (decide (answers name r)), (decide (matches name r = true)); tauto || done.
Qed.

Lemma resolve_dot s : iso_resolve_path dot s = Some (inr (g_iso_cwd_lba s, g_iso_cwd_size s, true), s).
Proof. reflexivity. Qed.

(** C18: A directory of a mounted ISO9660 volume is the list of its records. Let a path lead to a directory
    whose sectors are records as the format describes them: each inside its sector, with its name inside of it.
    The name of a record is the one of its first Rock Ridge name field, or else its identifier without version,
    in lower case and without full stops at the end; either is cut to 23 characters. Then looking up a name
    finds the first record that answers to it: the records of the directory itself and its parent answer to "."
    and "..", the others to their name up to case, and those with a tilde and digits at the end of their name
    also to longer names that begin like it. Listing gives the names and types of all but the two special
    records in order, or reports that they do not fit into the caller's array or the driver's 32 name slots. *)
Theorem iso_directory_is_its_records (d : D) s path lba size rs cap :
  mounted d s -> iso_resolve_path path s = Some (inr (lba, size, true), s) ->
  directory_records d lba size = Some rs -> 0 <= cap ->
  (forall name, Forall (fun c => c <> 0) name ->
     iso_find_entry_in_dir lba size name s =
     Some (match head (filter (answers name) rs) with
           | Some r => inr (r_lba r, r_size r, r_flags r) | None => inl FS_ERR_NOT_FOUND end, s)) /\
  let listed := dirent_of <$> filter (fun r => ordinary r = true) rs in
  iso_list_dir path cap s =
    Some (if (Z.of_nat (length listed) <=? cap) && (Z.of_nat (length listed) <=? ISO9660_NAME_SLOTS)
          then inr listed else inl FS_ERR_NO_SPACE, s).
Proof.
  intros Hm Hp Hrs Hc. destruct (resolve_ok d s path Hm) as (r & E & Hr). pose proof Hp as Hp'. rewrite E in Hp'.
  injection Hp' as ->. destruct (mt_volume _ _ Hm lba size Hr) as [He _]. pose proof (mt_dev _ _ Hm) as Hd.
  destruct (directory_parses d lba size rs He Hrs) as [Hrec Hnames].
  split; [intros name Hn; rewrite <- first_answers by done; by apply (find_first d)|]. unfold iso_list_dir.
  assert ((length path =? 0)%nat = false) as -> by (by destruct path).
  unfold bind at 1, get. unfold bind at 1. destruct (iso_streq path dot) eqn:Edot; cbn [negb andb].
  - apply iso_streq_eq in Edot as ->. rewrite resolve_dot in Hp. injection Hp as <- <-. apply (list_extent d s _ _ rs cap Hd He Hrec Hc).
  - unfold bind at 1. rewrite E. cbn [snd fst guard]. apply (list_extent d s lba size rs cap Hd He Hrec Hc).
Qed.

(** C17: Files of a mounted ISO9660 volume: when a path leads to a file and a handle is free, opening it for
    reading succeeds, every read through the handle returns exactly the bytes of the file's extent from the
    given offset up to the size of the buffer or the end of the file, and after closing, a handle is free
    again; the volume, its files and the working directory never change. *)
Theorem iso_open_read_close (d : D) s path lba size :
  mounted d s -> iso_room s -> iso_resolve_path path s = Some (inr (lba, size, false), s) ->
  exists id s', iso_open path FS_O_RDONLY s = Some (inr id, s') /\ mounted d s' /\
    (forall off cap, 0 <= off -> 0 <= cap ->
       iso_read id off cap s' =
         Some (inr (take (Z.to_nat cap) (drop (Z.to_nat off) (extent_bytes d lba size))), s')) /\
    exists s'', iso_close id s' = Some (inr tt, s'') /\ iso_room s'' /\ mounted d s'' /\
      (forall q, iso_file_at s'' q = iso_file_at s q).
Proof.
  intros Hm Hroom Hp. pose proof (mt_dev _ _ Hm) as Hd.
  assert (iso_file_at s path = Some (extent_bytes d lba size)) as Hf by (unfold iso_file_at; by rewrite Hd, Hp).
  destruct (open_ok s path _ ltac:(by exists d) Hroom Hf) as (op & id & s' & [= <-] & Eo & _ & Hok & Hopen & Hsame).
  exists id, s'. split; [done|].
  assert (g_iso_dev s' = Some d) as Hd'.
  { revert Eo. unfold iso_open, bind, guard, ret. change (Z.land _ _ =? 0) with true. cbn iota beta.
    rewrite Hp. cbn. destruct (free_slot _ _); [|done]. intros [= _ <-]. done. }
  destruct Hok as [d' Hm']. pose proof (mt_dev _ _ Hm') as Hd''. assert (d' = d) as -> by congruence.
  split; [done|]. split.
  { intros off cap Ho Hc. destruct (read_ok s' id _ off cap ltac:(by exists d) Hopen Ho Hc) as (rd & [= <-] & E). done. }
  destruct (close_ok s' id _ ltac:(by exists d) Hopen) as (cl & r & s'' & [= <-] & E & [d2 Hm2] & Hroom2 & Hsame2).
  destruct Hopen as (i & f & d3 & -> & _ & Hfi & _).
  pose proof (lookup_lt_Some _ _ _ Hfi) as Hlt. rewrite (mt_slots _ _ Hm') in Hlt.
  revert E. unfold iso_close, bind. rewrite slot_of_ok by done. unfold get, lift_opt. rewrite Hfi. intros [= <- <-].
  exists (set_files (<[i := IsoFile false (f_lba f) (f_size f)]> (g_iso_open_files s')) s').
  split; [done|]. split; [done|]. split.
  - pose proof (mt_dev _ _ Hm2) as Hx. cbn in Hx. by assert (d2 = d) as <- by congruence.
  - intros q. by rewrite Hsame2, Hsame.
Qed.

(** On a well-formed volume no operation that takes a path leaves the driver's 2048-byte sector buffer
    or runs without end, whatever the path is: each returns a result or an error code, and the driver's
    state is unchanged. *)
Theorem iso_paths_are_safe (d : D) s path cap :
  mounted d s -> 0 <= cap ->
  (exists r, iso_resolve_path path s = Some (r, s)) /\
  (exists r, iso_stat path s = Some (r, s)) /\
  (exists r, iso_read_file path cap s = Some (r, s)) /\
  (exists r, iso_list_dir path cap s = Some (r, s)).
Proof.
  intros Hm Hc. destruct (resolve_ok d s path Hm) as (r & E & Hr).
  destruct (stat_ok s path ltac:(by exists d)) as (st & r1 & [= <-] & E1 & _).
  destruct (read_file_ok s path cap ltac:(by exists d) Hc) as (rf & r2 & [= <-] & E2 & _).
  split; [by exists r|]. split; [by exists r1|]. split; [by exists r2|].
  unfold iso_list_dir. unfold bind at 1, get. unfold bind at 1.
  assert (forall lba size, directory d [(g_iso_root_lba s, g_iso_root_size s); (g_iso_cwd_lba s, g_iso_cwd_size s)] lba size ->
    exists r, (r <- (match total_sectors size with
         | O => ret (inl [])
         | n => on_dev (scan_extent (list_step cap) n lba [])
         end) ;;
     match r with inl entries => ret entries | inr _ => fail FS_ERR_NO_SPACE end) s = Some (r, s)) as Hlist.
  { intros lba size Hdir. destruct (mt_volume _ _ Hm lba size Hdir) as (He & rs & Hrs & _).
    rewrite (list_extent d s lba size rs cap (mt_dev _ _ Hm) He Hrs Hc). by eexists. }
  destruct (_ && _).
  - unfold bind at 1. rewrite E. destruct r as [rc|[[lba size] []]]; [by eexists| |by eexists].
    cbn [snd fst guard]. by apply Hlist.
  - cbn [ret fst snd]. apply Hlist, root_directory. by right; left.
Qed.

End Props.

(** ** A small volume: the root directory in sector 18, a file of 5 bytes in sector 19 *)

Definition cd_record (lba size flags : Z) (name : list Z) : list Z :=
  [33 + Z.of_nat (length name); 0] ++ le32 lba ++ replicate 4 0 ++ le32 size ++ replicate 11 0 ++ [flags] ++
  replicate 6 0 ++ [Z.of_nat (length name)] ++ name.

Definition cd_root : list Z := cd_record 18 2048 2 [0] ++ cd_record 18 2048 2 [1] ++ cd_record 19 5 0 (cstr "A.TXT;1").
Definition cd_file : list Z := cstr "hello".

Definition sector_512 (l : list Z) (i : nat) : list Z := take 512 (drop (512 * i) (l ++ replicate 2048 0)).

Definition cd_disk (root : list Z) : disk :=
  Disk 80 (list_to_map (((fun i => (72 + Z.of_nat i, sector_512 root i)) <$> seq 0 4) ++
                        [(76, sector_512 cd_file 0)])).

Definition cd_mounted (root : list Z) : iso disk :=
  Iso (Some (cd_disk root)) 18 2048 [slash] 18 2048 (replicate (Z.to_nat ISO9660_OPEN_FILE_CAP) closed_file).

Definition cd_records : list dir_record :=
  [DirRecord (Some 0) [] 18 2048 2; DirRecord (Some 1) [] 18 2048 2; DirRecord None (cstr "a.txt") 19 5 0].

Lemma cd_parses : records_of (cd_disk cd_root) 18 2048 = Some cd_records.
Proof. vm_compute. reflexivity. Qed.

(** A volume whose only directory has these records. *)
Lemma volume_of_records {D : Type} `{!block_device D} `{!disc D} (d : D) :
  ds_ok d -> 80 <= sector_count d -> records_of d 18 2048 = Some cd_records ->
  forall roots, (forall e, e ∈ roots -> e = (18, 2048)) -> volume_ok d roots.
Proof.
  intros Hok Hcount Hrs roots Hroots lba size Hdir. assert (lba = 18 /\ size = 2048) as [-> ->].
  { induction Hdir as [lba size H|lba size rs r _ [-> ->] Hrs' Hr Hd].
    - apply Hroots in H. by injection H as -> ->.
    - rewrite Hrs in Hrs'. injection Hrs' as <-.
      repeat (apply elem_of_cons in Hr as [->|Hr]; [done|]). by apply not_elem_of_nil in Hr. }
  unfold extent_ok, on_disc. change (extent_sectors 2048) with 1.
  split; [split_and!; done || lia|]. exists cd_records. split; [done|]. intros r Hr Hd.
  apply elem_of_cons in Hr as [->|Hr]; [vm_compute in Hd; discriminate|].
  apply elem_of_cons in Hr as [->|Hr]; [vm_compute in Hd; discriminate|].
  apply list_elem_of_singleton in Hr as ->. cbn [r_lba r_size]. change (extent_sectors 5) with 1.
  split_and!; done || lia.
Qed.

Lemma cd_is_mounted : mounted (cd_disk cd_root) (cd_mounted cd_root).
Proof.
  split; [done| |done|].
  - apply volume_of_records; [done|vm_compute; discriminate|apply cd_parses|]. intros e He.
    by repeat (apply elem_of_cons in He as [->|He]; [done|]); apply not_elem_of_nil in He.
  - intros f Hf. by apply elem_of_replicate in Hf as [-> _].
Qed.

Lemma iso_directory_is_its_records_witness :
  iso_find_entry_in_dir 18 2048 (cstr "A.TXT") (cd_mounted cd_root) = Some (inr (19, 5, 0), cd_mounted cd_root) /\
  iso_list_dir [slash] 10 (cd_mounted cd_root) = Some (inr [(cstr "a.txt", FS_NODE_FILE)], cd_mounted cd_root).
Proof.
  destruct (iso_directory_is_its_records (cd_disk cd_root) (cd_mounted cd_root) [slash] 18 2048 cd_records 10
              cd_is_mounted) as [Hfind Hlist].
  - reflexivity.
  - vm_compute. reflexivity.
  - lia.
  - rewrite (Hfind (cstr "A.TXT")), Hlist; [split; reflexivity|]. repeat (constructor; [discriminate|]). constructor.
Defined.

Lemma iso_open_read_close_witness :
  exists id s', iso_open (cstr "/a.txt") FS_O_RDONLY (cd_mounted cd_root) = Some (inr id, s') /\
    iso_read id 1 3 s' = Some (inr (cstr "ell"), s').
Proof.
  destruct (iso_open_read_close (cd_disk cd_root) (cd_mounted cd_root) (cstr "/a.txt") 19 5 cd_is_mounted)
    as (id & s' & Eo & _ & Hread & _).
  - by exists 0%nat.
  - vm_compute. reflexivity.
  - exists id, s'. split; [exact Eo|]. rewrite (Hread 1 3) by lia.
    replace (extent_bytes (cd_disk cd_root) 19 5) with (cstr "hello"); [reflexivity|vm_compute; reflexivity].
Defined.

Lemma iso_paths_are_safe_witness : exists r, iso_stat (cstr "/no/such") (cd_mounted cd_root) = Some (r, cd_mounted cd_root).
Proof. apply (iso_paths_are_safe (cd_disk cd_root) (cd_mounted cd_root) (cstr "/no/such") 10 cd_is_mounted ltac:(lia)). Defined.

(** Eight records of 255 bytes, then one that starts 8 bytes before the end of the sector. *)
Definition overrun_root : list Z := concat (replicate 8 (255 :: replicate 254 0)) ++ [8].

(** The scans take the length byte of a record at its word: a directory record that starts near the
    end of its sector is read past the end of the 2048-byte sector buffer, so looking up any name that no
    earlier record matches, or listing the directory, has no defined result. *)
Theorem iso_record_past_sector :
  iso_stat (cstr "/a") (cd_mounted overrun_root) = None /\
  iso_list_dir [slash] 10 (cd_mounted overrun_root) = None.
Proof. split; vm_compute; reflexivity. Qed.

End IsoProps.
