(* ===== verification/BootMedia.v ===== *)
(** * Block devices of the boot media

    The devices [core/fs/fs_core.c] builds for the root file system: the boot floppy,
    whose boot sector, allocation table and root directory the boot loader has already
    read into memory, and the Multiboot2 module [rootfs], an image in memory.  The
    floppy is reached through [core/fs/floppy_controller_core.c]; the controller behind
    it is the class [floppy_controller]. *)

From S2P Require Import Prelude Mm FsTypes Vfs Block.
From stdpp Require Import base list option list_numbers strings.
From Stdlib Require Import ZArith Lia ZifyBool.
Import FsTypes Vfs Block.
Open Scope Z_scope.
Open Scope vfs_scope.

Module BootMedia.

Definition FS_FLOPPY_MAGIC : Z := 0x53314D47.
Definition FS_MB2_BOOTLOADER_MAGIC : Z := 0x36D76289.
Definition FS_MB2_TAG_TYPE_END : Z := 0.
Definition FS_MB2_TAG_TYPE_MODULE : Z := 3.

(** ** Memory *)

Definition memory : Type := Z -> Z.

(** [fs_copy_bytes] from memory and to memory. *)
Definition peek (m : memory) (a len : Z) : list Z := m <$> seqZ a len.
Definition poke (m : memory) (a : Z) (src : list Z) : memory := fun x =>
  if (a <=? x) && (x <? a + Z.of_nat (length src)) then char_at src (Z.to_nat (x - a)) else m x.

(** ** The floppy controller

    [system_floppy_controller_ops_t]: one sector at a time. *)

Class floppy_controller (C : Type) := FloppyController {
  read_sector : Z -> C -> (Z + list Z) * C;
  write_sector : list Z -> Z -> C -> (Z + unit) * C;
  reset_state : C -> C
}.

Definition FLOPPY_SECTORS : Z := 2880.

Section Media.
Context {C : Type} `{!floppy_controller C}.

(** The static pointer [controller] of [floppy_controller_core.c]. *)
Definition controller : Type := option C.

Definition floppy_controller_read_sector (lba : Z) (c : controller) : (Z + list Z) * controller :=
  match c with
  | None => (inl FS_ERR_INVALID, c)
  | Some c' => if FLOPPY_SECTORS <=? lba then (inl FS_ERR_INVALID, c)
               else let '(r, c') := read_sector lba c' in (r, Some c')
  end.

Definition floppy_controller_write_sector (src : list Z) (lba : Z) (c : controller)
    : (Z + unit) * controller :=
  match c with
  | None => (inl FS_ERR_INVALID, c)
  | Some c' => if FLOPPY_SECTORS <=? lba then (inl FS_ERR_INVALID, c)
               else let '(r, c') := write_sector src lba c' in (r, Some c')
  end.

Definition floppy_controller_reset (c : controller) : controller := reset_state <$> c.

(** ** The cached floppy *)

(** Memory, the address of [fs_floppy_boot_info_t] and the controller. *)
Record floppy := Floppy { fl_ram : memory; fl_info : Z; fl_ctl : controller }.

(** Fields of the boot information, from memory. *)
Definition boot_sector_addr (f : floppy) : Z := Mm.rd32 (fl_ram f) (fl_info f + 12).
Definition fat_addr (f : floppy) : Z := Mm.rd32 (fl_ram f) (fl_info f + 16).
Definition root_dir_addr (f : floppy) : Z := Mm.rd32 (fl_ram f) (fl_info f + 20).
Definition fat_lba (f : floppy) : Z := Mm.rd32 (fl_ram f) (fl_info f + 24).
Definition fat_sectors (f : floppy) : Z := Mm.rd32 (fl_ram f) (fl_info f + 28).
Definition root_lba (f : floppy) : Z := Mm.rd32 (fl_ram f) (fl_info f + 32).
Definition root_sectors (f : floppy) : Z := Mm.rd32 (fl_ram f) (fl_info f + 36).

(** Where in memory a sector is cached, if it is one of those the table or the root
    directory covers; the boot sector is treated apart. *)
Definition cached_at (f : floppy) (lba : Z) : option Z :=
  if (fat_lba f <=? lba) && (lba <? u32 (fat_lba f + fat_sectors f))
  then Some (u32 (fat_addr f + u32 ((lba - fat_lba f) * 512)))
  else if (root_lba f <=? lba) && (lba <? u32 (root_lba f + root_sectors f))
  then Some (u32 (root_dir_addr f + u32 ((lba - root_lba f) * 512)))
  else None.

Definition floppy_read_one (lba : Z) : M floppy (list Z) := fun f =>
  if lba =? 0 then Some (inr (peek (fl_ram f) (boot_sector_addr f) 512), f)
  else match cached_at f lba with
       | Some a => Some (inr (peek (fl_ram f) a 512), f)
       | None => let '(r, c) := floppy_controller_read_sector lba (fl_ctl f) in
                 Some (r, Floppy (fl_ram f) (fl_info f) c)
       end.

(** [count] sectors from [lba + i]. *)
Fixpoint floppy_read_loop (count : nat) (lba : Z) : M floppy (list Z) :=
  match count with
  | O => ret []
  | S count => s <- floppy_read_one lba ;; rest <- floppy_read_loop count (u32 (lba + 1)) ;; ret (s ++ rest)
  end.

Definition fs_cached_floppy_read (lba count : Z) : M floppy (list Z) :=
  f <- get ;;
  guard (negb (fl_info f =? 0)) FS_ERR_INVALID ;;;
  floppy_read_loop (Z.to_nat count) lba.

(** The copy in memory is updated before the controller writes. *)
Definition floppy_write_one (lba : Z) (src : list Z) : M floppy unit := fun f =>
  let ram :=
    if (lba =? 0) && negb (boot_sector_addr f =? 0) then poke (fl_ram f) (boot_sector_addr f) src
    else match cached_at f lba with Some a => poke (fl_ram f) a src | None => fl_ram f end in
  let '(r, c) := floppy_controller_write_sector src lba (fl_ctl f) in
  Some (r, Floppy ram (fl_info f) c).

Fixpoint floppy_write_loop (count : nat) (lba : Z) (buffer : list Z) : M floppy unit :=
  match count with
  | O => ret tt
  | S count =>
      floppy_write_one lba (take 512 buffer) ;;; floppy_write_loop count (u32 (lba + 1)) (drop 512 buffer)
  end.

Definition fs_cached_floppy_write (lba count : Z) (buffer : list Z) : M floppy unit :=
  f <- get ;;
  guard (negb (fl_info f =? 0)) FS_ERR_INVALID ;;;
  floppy_write_loop (Z.to_nat count) lba buffer.

(** ** The module [rootfs] *)

(** Memory and the variables [g_mb2_module_start] and [g_mb2_module_size]. *)
Record module_image := ModuleImage { mi_ram : memory; mi_start : Z; mi_size : Z }.

Definition fs_memory_module_read (lba count : Z) : M module_image (list Z) := fun m =>
  if count =? 0 then Some (inl FS_ERR_INVALID, m)
  else
    let offset := u32 (lba * 512) in
    let len := u32 (count * 512) in
    if (mi_size m <=? offset) || (mi_size m - offset <? len) then Some (inl FS_ERR_INVALID, m)
    else Some (inr (peek (mi_ram m) (mi_start m + offset) len), m).

(** ** The root device *)

Inductive boot_device := FLOPPY (f : floppy) | MODULE (m : module_image).

Definition boot_read (lba count : Z) : M boot_device (list Z) := fun d =>
  match d with
  | FLOPPY f => match fs_cached_floppy_read lba count f with
                | None => None | Some (r, f) => Some (r, FLOPPY f) end
  | MODULE m => match fs_memory_module_read lba count m with
                | None => None | Some (r, m) => Some (r, MODULE m) end
  end.

Definition boot_write (lba count : Z) (b : list Z) : M boot_device unit := fun d =>
  match d with
  | FLOPPY f => match fs_cached_floppy_write lba count b f with
                | None => None | Some (r, f) => Some (r, FLOPPY f) end
  | MODULE _ => None
  end.

(** The fields set when a device is installed; the module has no write function. *)
#[export] Instance boot_block_device : block_device boot_device := {|
  sector_size _ := 512;
  sector_count d := match d with FLOPPY _ => FLOPPY_SECTORS | MODULE m => mi_size m / 512 end;
  dev_read _ := Some boot_read;
  dev_write d := match d with FLOPPY _ => Some boot_write | MODULE _ => None end
|}.

(** ** Finding the module *)

Definition rootfs_name : list Z := cstr "rootfs" ++ [0].

(** A module tag with the name [rootfs] and an image below the limit. *)
Definition rootfs_module (m : memory) (limit tag tag_size : Z) : option module_image :=
  let begin := Mm.rd32 m (tag + 8) in
  let last := Mm.rd32 m (tag + 12) in
  if (16 + 7 <=? tag_size) && bool_decide (peek m (tag + 16) 7 = rootfs_name) && (begin <? last)
     && (begin <? limit) && (last <=? limit) && (2048 <=? last - begin)
  then Some (ModuleImage m begin (last - begin)) else None.

(** The tag loop; a tag takes at least 8 bytes. *)
Fixpoint module_loop (fuel : nat) (m : memory) (limit info total offset : Z)
    : option (option module_image) :=
  if negb (offset <=? total - 8) then Some None
  else match fuel with
       | O => None
       | S fuel =>
           let tag := info + offset in
           let tag_type := Mm.rd32 m tag in
           let tag_size := Mm.rd32 m (tag + 4) in
           if (tag_size <? 8) || (total - offset <? tag_size) then Some None
           else if tag_type =? FS_MB2_TAG_TYPE_END then Some None
           else match (if tag_type =? FS_MB2_TAG_TYPE_MODULE then rootfs_module m limit tag tag_size else None) with
                | Some image => Some (Some image)
                | None =>
                    if 0xFFFFFFF8 <? tag_size then Some None
                    else
                      let step := Z.land (tag_size + 7) (Z.lnot 7) in
                      if total - offset <? step then Some None
                      else module_loop fuel m limit info total (offset + step)
                end
       end.

(** The boot loader's magic number, the address of its information, the memory it left,
    and [paging_identity_limit()]. *)
Record boot_context := BootContext { b_magic : Z; b_info : Z; b_ram : memory; b_limit : Z }.

(** At most 65536 bytes of tags of at least 8 bytes each. *)
Definition TAG_FUEL : nat := Z.to_nat 8192.

Definition fs_install_mb2_module_device (b : boot_context) : option (option module_image) :=
  if negb (b_magic b =? FS_MB2_BOOTLOADER_MAGIC) || (b_info b =? 0) || (b_limit b <=? b_info b)
     || (b_limit b - b_info b <? 16) then Some None
  else
    let total := Mm.rd32 (b_ram b) (b_info b) in
    if (total <? 16) || (65536 <? total) || (b_limit b - b_info b <? total) then Some None
    else module_loop TAG_FUEL (b_ram b) (b_limit b) (b_info b) total 8.

(** The device that becomes the root device; [None] inside when there is none. *)
Definition fs_install_bootmedia_device (b : boot_context) (c : controller)
    : option (option boot_device) :=
  r ← fs_install_mb2_module_device b;
  Some (match r with
        | Some image => Some (MODULE image)
        | None =>
            if negb (b_magic b =? FS_FLOPPY_MAGIC) || (b_info b =? 0) then None
            else Some (FLOPPY (Floppy (b_ram b) (b_info b) (floppy_controller_reset c)))
        end).

End Media.
Arguments floppy : clear implicits.
Arguments boot_device : clear implicits.
Arguments controller : clear implicits.

End BootMedia.

(** * Correctness of the boot media

    The module image is a device that reads the module's bytes; the cached floppy
    keeps its copies in memory equal to the medium; the search for the module ends and
    finds only images below the limit. *)

Import FsTypes Vfs Block BootMedia.
Open Scope vfs_scope.

Module BootMediaProps.

Lemma peek_length m a n : length (peek m a n) = Z.to_nat n.
Proof. unfold peek. by rewrite length_fmap, length_seqZ. Qed.

Lemma peek_app m a n k : 0 <= n -> 0 <= k -> peek m a (n + k) = peek m a n ++ peek m (a + n) k.
Proof. intros. unfold peek. by rewrite seqZ_app, fmap_app. Qed.

(** Sectors one after the other. *)
Lemma peek_sectors m a lba n :
  0 <= n -> peek m (a + lba * 512) (n * 512) = concat ((fun i => peek m (a + i * 512) 512) <$> seqZ lba n).
Proof.
  intros Hn. remember (Z.to_nat n) as k eqn:Ek. revert n lba Hn Ek.
  induction k as [|k IH]; intros n lba Hn Ek.
  { by replace n with 0 by lia. }
  rewrite seqZ_cons, fmap_cons by lia. cbn [concat]. replace (n * 512) with (512 + Z.pred n * 512) by lia.
  rewrite peek_app by lia. f_equal. rewrite <- IH by lia. f_equal. lia.
Qed.

Lemma peek_lookup m a n i : 0 <= a -> (i < Z.to_nat n)%nat -> peek m a n !! i = Some (m (a + Z.of_nat i)).
Proof. intros Ha Hi. unfold peek. rewrite list_lookup_fmap, lookup_seqZ_lt by lia. done. Qed.

Lemma peek_ext m m' a n : (forall x, a <= x < a + n -> m' x = m x) -> peek m' a n = peek m a n.
Proof.
  intros H. unfold peek. apply list_fmap_ext. intros i x Hx.
  apply list_elem_of_lookup_2, elem_of_seqZ in Hx. by apply H.
Qed.

Lemma poke_same m a src : peek (poke m a src) a (Z.of_nat (length src)) = src.
Proof.
  apply list_eq_same_length with (length src); [done|by rewrite peek_length, Nat2Z.id|].
  intros i x y Hi Hx Hy. unfold peek in Hx. rewrite list_lookup_fmap, lookup_seqZ_lt in Hx by lia.
  injection Hx as <-. unfold poke. destruct (_ && _) eqn:E; [|lia].
  replace (Z.to_nat (a + Z.of_nat i - a)) with i by lia. unfold char_at. by rewrite Hy.
Qed.

Lemma poke_other m a src x : x < a \/ a + Z.of_nat (length src) <= x -> poke m a src x = m x.
Proof. intros Hx. unfold poke. destruct (_ && _) eqn:E; [lia|done]. Qed.

(** ** The search for the module *)

Definition byte_memory (m : memory) : Prop := forall a, 0 <= m a < 256.

Lemma rd32_word m a : byte_memory m -> 0 <= Mm.rd32 m a < 2 ^ 32.
Proof.
  intros Hm. unfold Mm.rd32. pose proof (Hm a). pose proof (Hm (a + 1)). pose proof (Hm (a + 2)).
  pose proof (Hm (a + 3)). lia.
Qed.

Lemma step_bound x : 0 <= x -> x <= Z.land (x + 7) (Z.lnot 7) <= x + 7.
Proof.
  intros Hx. change 7 with (Z.ones 3) at 2 4. rewrite <- Z.ldiff_land, Z.ldiff_ones_r by lia.
  rewrite Z.shiftl_mul_pow2, Z.shiftr_div_pow2 by lia. change (2 ^ 3) with 8.
  pose proof (Z.div_mod (x + 7) 8 ltac:(lia)). pose proof (Z.mod_pos_bound (x + 7) 8 ltac:(lia)). lia.
Qed.

Definition image_below (limit : Z) (im : module_image) : Prop :=
  0 <= mi_start im /\ 2048 <= mi_size im /\ mi_start im + mi_size im <= limit /\ mi_size im < 2 ^ 32.

Lemma rootfs_module_below m limit tag size im :
  byte_memory m -> rootfs_module m limit tag size = Some im -> image_below limit im.
Proof.
  intros Hm. unfold rootfs_module. destruct (_ && _) eqn:E; [|done]. intros [= <-].
  pose proof (rd32_word m (tag + 8) Hm). pose proof (rd32_word m (tag + 12) Hm).
  unfold image_below. cbn. lia.
Qed.

Lemma module_loop_spec fuel m limit info total offset :
  byte_memory m -> total - 8 - offset < 8 * Z.of_nat fuel ->
  exists r, module_loop fuel m limit info total offset = Some r /\
    forall im, r = Some im -> image_below limit im /\ mi_ram im = m.
Proof.
  intros Hm. revert offset. induction fuel as [|fuel IH]; intros offset Hf; cbn [module_loop].
  all: destruct (Z.leb_spec offset (total - 8)); cbn [negb]; [|by exists None].
  { lia. }
  set (size := Mm.rd32 m (info + offset + 4)). destruct (_ || _) eqn:Es; [by exists None|].
  destruct (_ =? FS_MB2_TAG_TYPE_END); [by exists None|].
  destruct (if _ : bool then _ else _) as [im|] eqn:Ei.
  { exists (Some im). split; [done|]. intros ? [= <-]. destruct (_ =? FS_MB2_TAG_TYPE_MODULE); [|done].
    split; [by eapply rootfs_module_below|]. unfold rootfs_module in Ei. destruct (_ && _); [|done]. by injection Ei as <-. }
  destruct (4294967288 <? size); [by exists None|]. pose proof (step_bound size ltac:(lia)).
  destruct (total - offset <? Z.land (size + 7) (Z.lnot 7)); [by exists None|]. apply IH. lia.
Qed.

(** ** The module image *)

Section Module.
Context {C : Type} `{!floppy_controller C}.

(** Only module images are in the contract: a read of the floppy moves the drive. *)
Definition image_ok (d : boot_device C) : Prop :=
  match d with MODULE m => 0 <= mi_start m /\ 512 <= mi_size m < 2 ^ 32 | FLOPPY _ => False end.

Definition image_sector (d : boot_device C) (lba : Z) : list Z :=
  match d with MODULE m => peek (mi_ram m) (mi_start m + lba * 512) 512 | FLOPPY _ => replicate 512 0 end.

Lemma image_bound m lba count :
  0 <= lba -> lba + count <= mi_size m / 512 -> lba * 512 + count * 512 <= mi_size m.
Proof. intros ? ?. pose proof (Z.div_mod (mi_size m) 512 ltac:(lia)). pose proof (Z.mod_pos_bound (mi_size m) 512 ltac:(lia)). lia. Qed.

Lemma module_read_ok (m : module_image) lba count :
  mi_size m < 2 ^ 32 -> 0 <= lba -> 0 < count -> lba + count <= mi_size m / 512 ->
  fs_memory_module_read lba count m =
    Some (inr (concat ((fun i => peek (mi_ram m) (mi_start m + i * 512) 512) <$> seqZ lba count)), m).
Proof.
  intros Hs Hl Hc Hend. pose proof (image_bound m lba count Hl Hend). unfold fs_memory_module_read.
  destruct (Z.eqb_spec count 0); [lia|]. rewrite !u32_small by lia.
  destruct (_ || _) eqn:E; [lia|]. by rewrite peek_sectors by lia.
Qed.

#[export, program] Instance boot_disc : disc (boot_device C) := {| ds_ok := image_ok; sector := image_sector |}.
Next Obligation. done. Qed.
Next Obligation.
  intros [f|m]; [done|]. intros [Hs Hm]. cbn. assert (512 / 512 <= mi_size m / 512) by (apply Z.div_le_mono; lia).
  assert (mi_size m / 512 <= mi_size m) by (apply Z.div_le_upper_bound; lia). change (512 / 512) with 1 in *. lia.
Qed.
Next Obligation. intros [f|m] lba; [done|]. apply peek_length. Qed.
Next Obligation.
  intros [f|m] lba count; [done|]. intros [Hs Hm] Hl Hc Hend. exists boot_read. split; [done|].
  cbn [boot_read]. cbn in Hend. by rewrite module_read_ok by lia.
Qed.

End Module.

(** ** The cached floppy *)

(** A drive that reads and writes its medium; either can fail, and a failed write leaves
    the other sectors alone. *)
Class plain_drive (C : Type) `{!floppy_controller C} := PlainDrive {
  medium : C -> Z -> list Z;
  dr_read (c : C) lba : 0 <= lba < FLOPPY_SECTORS -> exists r c', read_sector lba c = (r, c') /\
    (forall x, medium c' x = medium c x) /\ match r with inr s => s = medium c lba | inl _ => True end;
  dr_write (c : C) lba s : 0 <= lba < FLOPPY_SECTORS -> exists r c', write_sector s lba c = (r, c') /\
    match r with
    | inr _ => forall x, medium c' x = if decide (x = lba) then s else medium c x
    | inl _ => forall x, x <> lba -> medium c' x = medium c x
    end
}.

Section Floppy.
Context {C : Type} `{!floppy_controller C} `{!plain_drive C}.

(** The copy of a sector in memory. *)
Definition copy_at (f : floppy C) (lba : Z) : option Z :=
  if lba =? 0 then Some (boot_sector_addr f) else cached_at f lba.

(** The boot loader placed the copies apart from each other and from its information. *)
Record layout (f : floppy C) : Prop := {
  ly_info : 0 < fl_info f;
  ly_boot : boot_sector_addr f <> 0;
  ly_apart lba a : 0 <= lba < FLOPPY_SECTORS -> copy_at f lba = Some a ->
    a + 512 <= fl_info f \/ fl_info f + 44 <= a;
  ly_disjoint lba a lba' a' : 0 <= lba < FLOPPY_SECTORS -> 0 <= lba' < FLOPPY_SECTORS -> lba <> lba' ->
    copy_at f lba = Some a -> copy_at f lba' = Some a' -> a + 512 <= a' \/ a' + 512 <= a
}.

Definition coherent (f : floppy C) (c : C) : Prop :=
  fl_ctl f = Some c /\
  forall lba a, 0 <= lba < FLOPPY_SECTORS -> copy_at f lba = Some a -> peek (fl_ram f) a 512 = medium c lba.

(** Everything the copies depend on, after a write to one of them. *)
Lemma copy_at_poke f a src c lba :
  a + Z.of_nat (length src) <= fl_info f \/ fl_info f + 44 <= a ->
  copy_at (Floppy (poke (fl_ram f) a src) (fl_info f) c) lba = copy_at f lba.
Proof.
  intros Ha. assert (forall k, 0 <= k <= 40 -> Mm.rd32 (poke (fl_ram f) a src) (fl_info f + k) = Mm.rd32 (fl_ram f) (fl_info f + k)) as Hr.
  { intros k Hk. unfold Mm.rd32. rewrite !poke_other by lia. done. }
  unfold copy_at, cached_at, boot_sector_addr, fat_addr, root_dir_addr, fat_lba, fat_sectors, root_lba, root_sectors.
  cbn [fl_ram fl_info]. by rewrite !Hr by lia.
Qed.

Lemma layout_ext f f' :
  fl_info f' = fl_info f -> (forall lba, copy_at f' lba = copy_at f lba) -> layout f -> layout f'.
Proof.
  intros Hi Hc [L1 L2 L3 L4]. pose proof (Hc 0) as H0. injection H0 as H0.
  split; [by rewrite Hi|by rewrite H0| |].
  - intros lba a Hl. rewrite Hc, Hi. by apply L3.
  - intros lba a lba' a' Hl Hl' Hne. rewrite !Hc. by apply L4.
Qed.

Lemma in_range_floppy f lba : 0 <= lba < FLOPPY_SECTORS -> in_range (FLOPPY f) lba 1 = true.
Proof.
  intros Hl. unfold in_range. change (sector_count (FLOPPY f)) with 2880. unfold FLOPPY_SECTORS in Hl.
  rewrite u32_small by lia. lia.
Qed.

Lemma cached_read_one (f : floppy C) lba : fl_info f <> 0 -> fs_cached_floppy_read lba 1 f = floppy_read_one lba f.
Proof.
  intros Hi. unfold fs_cached_floppy_read, bind, get, guard. rewrite (proj2 (Z.eqb_neq _ _)) by done.
  cbn [negb ret]. change (Z.to_nat 1) with 1%nat. cbn [floppy_read_loop]. unfold bind, ret.
  destruct (floppy_read_one lba f) as [[[rc|s] f']|]; [done| |done]. by rewrite app_nil_r.
Qed.

Lemma cached_write_one (f : floppy C) lba src :
  fl_info f <> 0 -> length src = 512%nat -> fs_cached_floppy_write lba 1 src f = floppy_write_one lba src f.
Proof.
  intros Hi Hs. unfold fs_cached_floppy_write, bind, get, guard. rewrite (proj2 (Z.eqb_neq _ _)) by done.
  cbn [negb ret]. change (Z.to_nat 1) with 1%nat. cbn [floppy_write_loop]. unfold bind, ret.
  rewrite take_ge by lia. by destruct (floppy_write_one lba src f) as [[[rc|[]] f']|].
Qed.

Lemma floppy_read_ok f c lba :
  layout f -> coherent f c -> 0 <= lba < FLOPPY_SECTORS ->
  exists r f' c', block_core_read lba 1 (FLOPPY f) = Some (r, FLOPPY f') /\ layout f' /\ coherent f' c' /\
    (forall x, medium c' x = medium c x) /\ match r with inr s => s = medium c lba | inl _ => True end.
Proof.
  intros L [Hc Hco] Hl. pose proof (ly_info _ L) as Hi.
  assert (block_core_read lba 1 (FLOPPY f) =
    match floppy_read_one lba f with None => None | Some (r, f') => Some (r, FLOPPY f') end) as ->.
  { unfold block_core_read, bind, get, need, guard. cbn -[fs_cached_floppy_read in_range].
    rewrite (in_range_floppy f lba Hl).
    cbn -[fs_cached_floppy_read]. by rewrite cached_read_one by lia. }
  unfold floppy_read_one. destruct (copy_at f lba) as [a|] eqn:Ea.
  - exists (inr (peek (fl_ram f) a 512)), f, c. split; [|by split_and!; [|split| |apply Hco]].
    unfold copy_at in Ea. destruct (lba =? 0); [by injection Ea as <-|]. by rewrite Ea.
  - unfold copy_at in Ea. destruct (lba =? 0) eqn:E0; [done|]. rewrite Ea, Hc. cbn [floppy_controller_read_sector].
    destruct (Z.leb_spec FLOPPY_SECTORS lba); [lia|]. destruct (dr_read c lba Hl) as (r & c' & -> & Hm & Hr).
    exists r, (Floppy (fl_ram f) (fl_info f) (Some c')), c'. split; [done|]. split; [by apply (layout_ext f)|].
    split; [|done]. split; [done|]. intros x b Hx Hb. rewrite Hm. by apply Hco.
Qed.

Lemma floppy_write_eq f lba src :
  layout f -> 0 <= lba < FLOPPY_SECTORS -> length src = 512%nat ->
  block_core_write lba 1 src (FLOPPY f) =
    Some (let ram := match copy_at f lba with Some a => poke (fl_ram f) a src | None => fl_ram f end in
          let '(r, c) := floppy_controller_write_sector src lba (fl_ctl f) in
          (r, FLOPPY (Floppy ram (fl_info f) c))).
Proof.
  intros L Hl Hs. pose proof (ly_info _ L) as Hi. pose proof (ly_boot _ L) as Hb.
  unfold block_core_write, bind, get, need, guard. cbn -[fs_cached_floppy_write in_range].
  rewrite (in_range_floppy f lba Hl).
  cbn -[fs_cached_floppy_write]. rewrite cached_write_one by lia. unfold floppy_write_one, copy_at.
  rewrite (proj2 (Z.eqb_neq (boot_sector_addr f) 0)) by done. cbn [negb]. rewrite andb_true_r.
  destruct (lba =? 0); by destruct (floppy_controller_write_sector src lba (fl_ctl f)) as [[rc|[]] c].
Qed.

Lemma coherent_other f c lba src c' :
  layout f -> coherent f c -> 0 <= lba < FLOPPY_SECTORS -> length src = 512%nat ->
  (forall x, x <> lba -> medium c' x = medium c x) ->
  let f' := Floppy (match copy_at f lba with Some a => poke (fl_ram f) a src | None => fl_ram f end)
                   (fl_info f) (Some c') in
  layout f' /\ (forall x, copy_at f' x = copy_at f x) /\
    (forall a, copy_at f lba = Some a -> peek (fl_ram f') a 512 = src) /\
    forall x a, 0 <= x < FLOPPY_SECTORS -> x <> lba -> copy_at f' x = Some a -> peek (fl_ram f') a 512 = medium c' x.
Proof.
  intros L [Hc Hco] Hl Hs Hm f'.
  assert (forall x, copy_at f' x = copy_at f x) as Hcopy.
  { intros x. subst f'. destruct (copy_at f lba) as [a|] eqn:Ea; [|done]. apply copy_at_poke.
    rewrite Hs. by apply (ly_apart _ L lba). }
  split; [by apply (layout_ext f)|]. split; [done|]. split.
  - intros a Ha. subst f'. cbn [fl_ram]. rewrite Ha. change 512 with (Z.of_nat 512). rewrite <- Hs. apply poke_same.
  - intros x a Hx Hne. rewrite Hcopy. intros Ha. rewrite Hm, <- (Hco x a) by done. subst f'. cbn [fl_ram].
    destruct (copy_at f lba) as [b|] eqn:Eb; [|done]. apply peek_ext. intros y Hy. apply poke_other. rewrite Hs.
    destruct (ly_disjoint _ L x a lba b Hx Hl Hne Ha Eb); lia.
Qed.

(** C19: The boot floppy with its copies in memory behaves like its medium. As long as the boot loader
    placed the copies apart from each other and from its table, and they agree with the medium: reading a
    sector through the block layer returns the sector of the medium (or the drive's error) and keeps the
    agreement, and writing one that the drive accepts changes that sector of the medium and nothing else
    and keeps the agreement, so that cached and uncached sectors cannot diverge. *)
Theorem cached_floppy_is_its_medium f c lba src :
  layout f -> coherent f c -> 0 <= lba < FLOPPY_SECTORS -> length src = 512%nat ->
  (exists r f' c', block_core_read lba 1 (FLOPPY f) = Some (r, FLOPPY f') /\ layout f' /\ coherent f' c' /\
     (forall x, medium c' x = medium c x) /\ match r with inr s => s = medium c lba | inl _ => True end) /\
  (exists r f', block_core_write lba 1 src (FLOPPY f) = Some (r, FLOPPY f') /\ layout f' /\
     (r = inr tt -> exists c', coherent f' c' /\
        forall x, medium c' x = if decide (x = lba) then src else medium c x)).
Proof.
  intros L Hco Hl Hs. split; [by apply floppy_read_ok|]. rewrite floppy_write_eq by done.
  rewrite (proj1 Hco). cbn [floppy_controller_write_sector]. destruct (Z.leb_spec FLOPPY_SECTORS lba); [lia|].
  destruct (dr_write c lba src Hl) as (r & c' & -> & Hr).
  assert (forall x, x <> lba -> medium c' x = medium c x) as Hm.
  { destruct r; [done|]. intros x Hx. rewrite Hr. by case_decide. }
  destruct (coherent_other f c lba src c' L Hco Hl Hs Hm) as (L' & Hcopy & Hself & Hother).
  do 2 eexists. split; [done|]. split; [exact L'|]. intros ->. exists c'. split; [|done]. split; [done|].
  intros x a Hx Ha. destruct (decide (x = lba)) as [->|Hne]; [|by apply Hother].
  rewrite Hr, decide_True by done. apply Hself. by rewrite <- Hcopy.
Qed.

(** A write the drive refuses is reported as an error, but the copy in memory already holds the new
    bytes: for a sector of the boot record, the allocation table or the root directory the next read
    returns data that is not on the medium. *)
Theorem cached_floppy_failed_write_visible f c lba a src rc c' :
  layout f -> coherent f c -> 0 <= lba < FLOPPY_SECTORS -> length src = 512%nat ->
  copy_at f lba = Some a -> write_sector src lba c = (inl rc, c') ->
  exists f', block_core_write lba 1 src (FLOPPY f) = Some (inl rc, FLOPPY f') /\
    block_core_read lba 1 (FLOPPY f') = Some (inr src, FLOPPY f').
Proof.
  intros L Hco Hl Hs Ha Hw. rewrite floppy_write_eq by done. rewrite (proj1 Hco), Ha.
  cbn [floppy_controller_write_sector]. destruct (Z.leb_spec FLOPPY_SECTORS lba); [lia|]. rewrite Hw.
  eexists. split; [done|]. set (f' := Floppy _ _ _).
  assert (copy_at f' lba = Some a) as Ha'.
  { rewrite <- Ha. apply copy_at_poke. rewrite Hs. by apply (ly_apart _ L lba). }
  assert (peek (fl_ram f') a 512 = src) as Hp.
  { change 512 with (Z.of_nat 512). rewrite <- Hs. apply poke_same. }
  unfold block_core_read, bind, get, need, guard. cbn -[fs_cached_floppy_read in_range].
  rewrite in_range_floppy by done. cbn -[fs_cached_floppy_read].
  rewrite cached_read_one by (pose proof (ly_info _ L); cbn; lia). unfold floppy_read_one, copy_at in *.
  destruct (lba =? 0); [injection Ha' as ->; by rewrite Hp|]. by rewrite Ha', Hp.
Qed.

End Floppy.

(** ** A drive and a floppy as the boot loader leaves it *)

(** A medium, and its write-protect tab. *)
Record drive := Drive { protected : bool; tracks : Z -> list Z }.

#[export] Instance drive_controller : floppy_controller drive := {|
  read_sector lba c := (inr (tracks c lba), c);
  write_sector s lba c :=
    if protected c then (inl FS_ERR_READ_ONLY, c)
    else (inr tt, Drive false (fun x => if decide (x = lba) then s else tracks c x));
  reset_state c := c
|}.

#[export, program] Instance drive_plain : plain_drive drive := {| medium := tracks |}.
Next Obligation. intros c lba _. by do 2 eexists. Qed.
Next Obligation. intros [[] t] lba s _; cbn; by do 2 eexists. Qed.

(** 9 sectors of table from sector 1 at 0x8000, 14 of root directory from sector 19 at
    0xA000, the boot sector at 0x7C00. *)
Definition demo_info : list Z :=
  replicate 13 0 ++ [0x7C; 0; 0; 0; 0x80; 0; 0; 0; 0xA0; 0; 0; 1; 0; 0; 0; 9; 0; 0; 0; 19; 0; 0; 0; 14; 0; 0; 0].
Definition demo_ram : memory := fun a => char_at demo_info (Z.to_nat (a - 0x500)).
Definition demo_floppy (protect : bool) : floppy drive :=
  Floppy demo_ram 0x500 (Some (Drive protect (fun _ => replicate 512 0))).

Lemma demo_copy_at p lba :
  copy_at (demo_floppy p) lba =
    if lba =? 0 then Some 0x7C00
    else if (1 <=? lba) && (lba <? 10) then Some (u32 (0x8000 + u32 ((lba - 1) * 512)))
    else if (19 <=? lba) && (lba <? 33) then Some (u32 (0xA000 + u32 ((lba - 19) * 512)))
    else None.
Proof. reflexivity. Qed.

Lemma demo_layout p : layout (demo_floppy p).
Proof.
  split; [done|done| |].
  - intros lba a Hl. rewrite demo_copy_at. cbn [fl_info demo_floppy].
    repeat case_bool; intros [= <-]; rewrite ?u32_small by (rewrite ?u32_small by blia; blia); lia || blia.
  - intros lba a lba' a' Hl Hl' Hne. rewrite !demo_copy_at.
    repeat case_bool; intros [= <-] [= <-]; rewrite ?(u32_small (_ * _)) by blia; rewrite ?u32_small by blia; blia.
Qed.

Lemma demo_coherent p : coherent (demo_floppy p) (Drive p (fun _ => replicate 512 0)).
Proof.
  split; [done|]. intros lba a Hl Ha. cbn [medium drive_plain tracks].
  assert (0x52C <= a) as Hlow.
  { destruct (ly_apart _ (demo_layout p) lba a Hl Ha) as [H|H]; [|exact H]. exfalso.
    rewrite demo_copy_at in Ha. cbn in H. revert Ha.
    repeat case_bool; intros [= <-]; rewrite ?(u32_small (_ * _)) in H by blia; rewrite ?u32_small in H by blia; blia. }
  transitivity ((fun _ : Z => 0) <$> seqZ a 512); [|reflexivity].
  apply list_fmap_ext. intros i x Hx. apply list_elem_of_lookup_2, elem_of_seqZ in Hx.
  unfold demo_floppy, demo_ram, char_at. cbn [fl_ram]. rewrite lookup_ge_None_2; [done|]. change (length demo_info) with 40%nat. lia.
Qed.

Lemma cached_floppy_is_its_medium_witness :
  exists r f', block_core_write 3 1 (replicate 512 7) (FLOPPY (demo_floppy false)) = Some (r, FLOPPY f') /\
    (r = inr tt -> exists c', coherent f' c').
Proof.
  destruct (cached_floppy_is_its_medium (demo_floppy false) (Drive false (fun _ => replicate 512 0)) 3
              (replicate 512 7) (demo_layout false) (demo_coherent false)) as [_ (r & f' & E & _ & Hr)].
  - unfold FLOPPY_SECTORS. lia.
  - reflexivity.
  - exists r, f'. split; [exact E|]. intros Hx. destruct (Hr Hx) as (c' & Hc & _). by exists c'.
Defined.

Lemma cached_floppy_failed_write_visible_witness :
  exists f', block_core_write 3 1 (replicate 512 7) (FLOPPY (demo_floppy true)) = Some (inl FS_ERR_READ_ONLY, FLOPPY f') /\
    block_core_read 3 1 (FLOPPY f') = Some (inr (replicate 512 7), FLOPPY f').
Proof.
  apply (cached_floppy_failed_write_visible (demo_floppy true) (Drive true (fun _ => replicate 512 0)) 3 0x8400
           (replicate 512 7) FS_ERR_READ_ONLY (Drive true (fun _ => replicate 512 0)) (demo_layout true) (demo_coherent true)).
  - unfold FLOPPY_SECTORS. lia.
  - reflexivity.
  - reflexivity.
  - reflexivity.
Defined.

End BootMediaProps.
