(* ===== verification/Fdc.v ===== *)
(** * The floppy disk controller

    [drivers/pc/floppy_fdc.c]: the 82077 controller with channel 2 of the 8237 DMA
    controller, one sector at a time.  The hardware answers port accesses; it is an
    instance of [port_io].  What is known of it is in [FdcProps]. *)

From S2P Require Import Prelude Ports FsTypes Vfs Block BootMedia.
From stdpp Require Import base list option list_numbers.
From Stdlib Require Import ZArith Lia ZifyBool.
Import Ports FsTypes BootMedia BootMediaProps.
Open Scope Z_scope.

Module Fdc.

Definition FDC_DOR : Z := 0x3F2.
Definition FDC_MSR : Z := 0x3F4.
Definition FDC_FIFO : Z := 0x3F5.
Definition FDC_CCR : Z := 0x3F7.
Definition FDC_SECTORS_PER_TRACK : Z := 18.
Definition FDC_HEADS : Z := 2.

(** How often the loops try. *)
Definition FDC_POLLS : nat := Z.to_nat 1000000.
Definition FDC_DELAYS : nat := Z.to_nat 10000.
Definition FDC_SENSES : nat := Z.to_nat 100000.

Section Driver.
Context {D : Type} `{!port_io D}.

(** The static variable, and the hardware. *)
Record pc_fdc := PcFdc { pc_fdc_ready : Z; hw : D }.

Fixpoint wait_loop (n : nat) (wanted : Z -> bool) (d : D) : Z * D :=
  match n with
  | O => (FS_ERR_READ_ONLY, d)
  | S n => let '(msr, d) := inb d FDC_MSR in if wanted msr then (FS_OK, d) else wait_loop n wanted d
  end.

Definition may_send (msr : Z) : bool := negb (Z.land msr 0x80 =? 0) && (Z.land msr 0x40 =? 0).
Definition may_recv (msr : Z) : bool := negb (Z.land msr 0x80 =? 0) && negb (Z.land msr 0x40 =? 0).

Definition pc_fdc_wait_send : D -> Z * D := wait_loop FDC_POLLS may_send.
Definition pc_fdc_wait_recv : D -> Z * D := wait_loop FDC_POLLS may_recv.

Definition pc_fdc_send (value : Z) (d : D) : Z * D :=
  let '(rc, d) := pc_fdc_wait_send d in
  if negb (rc =? FS_OK) then (rc, d) else (FS_OK, outb d FDC_FIFO value).

Definition pc_fdc_recv (d : D) : (Z + Z) * D :=
  let '(rc, d) := pc_fdc_wait_recv d in
  if negb (rc =? FS_OK) then (inl rc, d) else let '(value, d) := inb d FDC_FIFO in (inr value, d).

(** [pc_fdc_send] of one byte after the other, up to the first error. *)
Fixpoint send_all (bytes : list Z) (d : D) : Z * D :=
  match bytes with
  | [] => (FS_OK, d)
  | b :: rest => let '(rc, d) := pc_fdc_send b d in if negb (rc =? FS_OK) then (rc, d) else send_all rest d
  end.

Fixpoint recv_all (n : nat) (d : D) : (Z + list Z) * D :=
  match n with
  | O => (inr [], d)
  | S n =>
      let '(r, d) := pc_fdc_recv d in
      match r with
      | inl rc => (inl rc, d)
      | inr b => let '(r, d) := recv_all n d in (match r with inl rc => inl rc | inr bs => inr (b :: bs) end, d)
      end
  end.

(** Status register 0 and the cylinder. *)
Definition pc_fdc_sense_interrupt (d : D) : (Z + Z * Z) * D :=
  let '(rc, d) := pc_fdc_send 0x08 d in
  if negb (rc =? FS_OK) then (inl rc, d)
  else
    let '(r, d) := pc_fdc_recv d in
    match r with
    | inl rc => (inl rc, d)
    | inr st0 =>
        let '(r, d) := pc_fdc_recv d in
        (match r with inl rc => inl rc | inr cyl => inr (st0, cyl) end, d)
    end.

Fixpoint io_delay (n : nat) (d : D) : D := match n with O => d | S n => io_delay n (outb d 0x80 0) end.
Fixpoint sense_times (n : nat) (d : D) : D := match n with O => d | S n => sense_times n (pc_fdc_sense_interrupt d).2 end.

Definition pc_fdc_reset (d : D) : Z * D :=
  let d := outb d FDC_DOR 0x00 in
  let d := io_delay FDC_DELAYS d in
  let d := outb d FDC_DOR 0x1C in
  let d := outb d FDC_CCR 0x00 in
  let d := io_delay FDC_DELAYS d in
  let d := sense_times 4 d in
  send_all [0x03; 0xDF; 0x02] d.

(** The loop that waits for the end of a movement to [cylinder]. *)
Fixpoint arrive (n : nat) (cylinder : Z) (d : D) : Z * D :=
  match n with
  | O => (FS_ERR_READ_ONLY, d)
  | S n =>
      let '(r, d) := pc_fdc_sense_interrupt d in
      match r with
      | inr (st0, cyl) => if negb (Z.land st0 0x20 =? 0) then (if cyl =? cylinder then FS_OK else FS_ERR_READ_ONLY, d) else arrive n cylinder d
      | inl _ => arrive n cylinder d
      end
  end.

Definition pc_fdc_recalibrate (d : D) : Z * D :=
  let '(rc, d) := send_all [0x07; 0x00] d in
  if negb (rc =? FS_OK) then (rc, d) else arrive FDC_SENSES 0 d.

Definition pc_fdc_prepare (s : pc_fdc) : Z * pc_fdc :=
  if negb (pc_fdc_ready s =? 0) then (FS_OK, s)
  else
    let '(rc, d) := pc_fdc_reset (hw s) in
    if negb (rc =? FS_OK) then (rc, PcFdc (pc_fdc_ready s) d)
    else
      let '(rc, d) := pc_fdc_recalibrate d in
      if negb (rc =? FS_OK) then (rc, PcFdc (pc_fdc_ready s) d) else (FS_OK, PcFdc 1 d).

Definition pc_fdc_seek (cylinder head : Z) (d : D) : Z * D :=
  let '(rc, d) := send_all [0x0F; u8 (Z.shiftl head 2); cylinder] d in
  if negb (rc =? FS_OK) then (rc, d) else arrive FDC_SENSES cylinder d.

Fixpoint outs (writes : list (Z * Z)) (d : D) : D :=
  match writes with [] => d | (port, v) :: rest => outs rest (outb d port v) end.

Definition dma2_writes (mode addr count : Z) : list (Z * Z) :=
  [(0x0A, 0x06); (0x0C, 0xFF);
   (0x04, u8 (Z.land addr 0xFF)); (0x04, u8 (Z.land (Z.shiftr addr 8) 0xFF)); (0x81, u8 (Z.land (Z.shiftr addr 16) 0xFF));
   (0x0C, 0xFF); (0x05, u8 (Z.land count 0xFF)); (0x05, u8 (Z.land (Z.shiftr count 8) 0xFF));
   (0x0B, mode); (0x0A, 0x02)].
Definition pc_dma2_setup_write (addr count : Z) : D -> D := outs (dma2_writes 0x4A addr count).
Definition pc_dma2_setup_read (addr count : Z) : D -> D := outs (dma2_writes 0x46 addr count).

(** The cylinder, the head and the sector of a block. *)
Definition chs (lba : Z) : Z * Z * Z :=
  let track_size := FDC_SECTORS_PER_TRACK * FDC_HEADS in
  let temp := u8 (lba mod track_size) in
  (u8 (lba / track_size), u8 (temp / FDC_SECTORS_PER_TRACK), u8 (temp mod FDC_SECTORS_PER_TRACK + 1)).

(** The bytes of a read or write command. *)
Definition transfer_command (write : bool) (cylinder head sector : Z) : list Z :=
  [if write then 0x45 else 0x46; u8 (Z.shiftl head 2); cylinder; head; sector; 0x02; FDC_SECTORS_PER_TRACK; 0x1B; 0xFF].

(** [buffer] is the address of the sector buffer. *)
Definition pc_fdc_transfer_sector (buffer lba : Z) (write : bool) (s : pc_fdc) : Z * pc_fdc :=
  let '(cylinder, head, sector) := chs lba in
  let addr := u32 buffer in
  if buffer =? 0 then (FS_ERR_INVALID, s)
  else
    let '(rc, s) := pc_fdc_prepare s in
    if negb (rc =? FS_OK) then (rc, s)
    else if 0xFFFF <? Z.land addr 0xFFFF + 511 then (FS_ERR_INVALID, s)
    else
      let '(rc, d) := pc_fdc_seek cylinder head (hw s) in
      if negb (rc =? FS_OK) then (rc, PcFdc (pc_fdc_ready s) d)
      else
        let d := if write then pc_dma2_setup_write addr 511 d else pc_dma2_setup_read addr 511 d in
        let '(rc, d) := send_all (transfer_command write cylinder head sector) d in
        if negb (rc =? FS_OK) then (rc, PcFdc (pc_fdc_ready s) d)
        else
          let '(r, d) := recv_all 7 d in
          (match r with
           | inl rc => rc
           | inr result =>
               if negb (Z.land (char_at result 0) 0xC0 =? 0) || negb (char_at result 1 =? 0) || negb (char_at result 2 =? 0)
               then FS_ERR_READ_ONLY else FS_OK
           end, PcFdc (pc_fdc_ready s) d).

Definition pc_fdc_read_sector_buffer (buffer lba : Z) : pc_fdc -> Z * pc_fdc := pc_fdc_transfer_sector buffer lba false.
Definition pc_fdc_write_sector_buffer (buffer lba : Z) : pc_fdc -> Z * pc_fdc := pc_fdc_transfer_sector buffer lba true.

Definition pc_fdc_reset_state (s : pc_fdc) : pc_fdc := PcFdc 0 (hw s).

End Driver.
Arguments pc_fdc : clear implicits.

End Fdc.

(** * The floppy disk controller driver is correct

    What the manuals of the 82077 and the 8237 promise, as a relation on an abstract state
    of the hardware; the driver reads and writes the sectors of the disk, and with a buffer
    of its own is a drive in the sense of [BootMedia]. *)

Module FdcProps.
Import Fdc.

(** ** The hardware *)

(** The controller takes the bytes of a command or has bytes of a result. *)
Variant phase := Command (bytes : list Z) | Result (bytes : list Z).

(** Channel 2 of the DMA controller: its mask, which byte comes next, its registers. *)
Record dma8237 := Dma { masked : bool; high_next : bool; d_addr : Z; d_page : Z; d_count : Z; d_mode : Z }.

(** One byte of a 16-bit register. *)
Definition half (high : bool) (old v : Z) : Z := if high then old mod 256 + 256 * v else old / 256 * 256 + v.

Definition dma_write (port v : Z) (r : dma8237) : dma8237 :=
  let '(Dma m f a p c o) := r in
  if port =? 0x0A then Dma (if v =? 0x06 then true else if v =? 0x02 then false else m) f a p c o
  else if port =? 0x0C then Dma m false a p c o
  else if port =? 0x04 then Dma m (negb f) (half f a v) p c o
  else if port =? 0x81 then Dma m f a v c o
  else if port =? 0x05 then Dma m (negb f) a p (half f c v) o
  else if port =? 0x0B then Dma m f a p c v
  else r.
Definition dma_ports : list Z := [0x0A; 0x0C; 0x04; 0x81; 0x05; 0x0B].

(** The address the channel transfers to or from when it is ready for a sector. *)
Definition dma_address (mode : Z) (r : dma8237) : option Z :=
  if negb (masked r) && (d_mode r =? mode) && (d_count r =? 511) then Some (d_page r * 65536 + d_addr r) else None.

(** [h_seek] is a movement whose end has not been reported: the cylinder, and how many requests
    for the interrupt status come before the end. *)
Record hw_state := Hw {
  h_phase : phase; h_track : Z; h_seek : option (Z * nat); h_dma : dma8237;
  h_ram : memory; h_disk : Z -> Z -> Z -> list Z; h_healthy : bool
}.

Definition set_phase p s := Hw p (h_track s) (h_seek s) (h_dma s) (h_ram s) (h_disk s) (h_healthy s).
Definition set_dma r s := Hw (h_phase s) (h_track s) (h_seek s) r (h_ram s) (h_disk s) (h_healthy s).

(** What commands do not touch, apart from the transfers. *)
Definition store_of (s : hw_state) := (h_dma s, h_ram s, h_disk s, h_healthy s).

Definition command_length (c : Z) : nat :=
  if c =? 0x08 then 1 else if c =? 0x07 then 2 else if (c =? 0x03) || (c =? 0x0F) then 3 else 9.

Definition status_ok (rs : list Z) : bool :=
  (Z.land (char_at rs 0) 0xC0 =? 0) && (char_at rs 1 =? 0) && (char_at rs 2 =? 0).

(** The heads were sent to cylinder [c].  On a drive in order they arrive before the driver
    has asked for the last time. *)
Definition moves_to (c : Z) (s s' : hw_state) : Prop :=
  h_phase s' = Command [] /\ store_of s' = store_of s /\
  (h_healthy s = true -> exists k, (k < FDC_SENSES)%nat /\ h_seek s' = Some (c, k)).

(** Status 0 and the cylinder, or a single byte when no interrupt is pending, as while the
    heads move. *)
Definition senses (s s' : hw_state) : Prop :=
  store_of s' = store_of s /\
  exists rs, h_phase s' = Result rs /\ ((exists b, rs = [b]) \/ exists st0, rs = [st0; h_track s']) /\
    (h_healthy s = true ->
     match h_seek s with
     | Some (c, O) => exists st0, rs = [st0; c] /\ Z.land st0 0x20 <> 0
     | Some (c, S k) => (exists b, rs = [b]) /\ exists j, (j <= k)%nat /\ h_seek s' = Some (c, j)
     | None => True
     end).

(** A transfer of sector [r] under head [h], with the heads on cylinder [c] and the DMA
    channel ready. *)
Definition reads (c h r : Z) (s s' : hw_state) : Prop :=
  forall a, h_track s = c -> dma_address 0x46 (h_dma s) = Some a ->
  exists rs, h_phase s' = Result rs /\ length rs = 7%nat /\ h_disk s' = h_disk s /\ h_healthy s' = h_healthy s /\
    (forall x, ~ (a <= x < a + 512) -> h_ram s' x = h_ram s x) /\
    (status_ok rs = true -> forall x, h_ram s' x = poke (h_ram s) a (h_disk s c h r) x) /\
    (h_healthy s = true -> status_ok rs = true).
Definition writes (c h r : Z) (s s' : hw_state) : Prop :=
  forall a, h_track s = c -> dma_address 0x4A (h_dma s) = Some a ->
  exists rs, h_phase s' = Result rs /\ length rs = 7%nat /\ h_ram s' = h_ram s /\ h_healthy s' = h_healthy s /\
    (forall c' h' r', (c', h', r') <> (c, h, r) -> h_disk s' c' h' r' = h_disk s c' h' r') /\
    (status_ok rs = true -> h_disk s' c h r = peek (h_ram s) a 512) /\
    (h_healthy s = true -> status_ok rs = true).

(** The geometry: 80 cylinders, two heads, sectors 1 to 18. *)
Definition on_disk (c h r : Z) : Prop := 0 <= c < 80 /\ 0 <= h < 2 /\ 1 <= r <= 18.

(** A complete command; nothing is known about others. *)
Definition executes (cmd : list Z) (s s' : hw_state) : Prop :=
  match cmd with
  | [3; _; _] => s' = set_phase (Command []) s
  | [7; 0] => moves_to 0 s s'
  | [15; _; c] => moves_to c s s'
  | [8] => senses s s'
  | [0x46; b; c; h; r; 2; 18; 0x1B; 0xFF] => on_disk c h r -> b = h * 4 -> reads c h r s s'
  | [0x45; b; c; h; r; 2; 18; 0x1B; 0xFF] => on_disk c h r -> b = h * 4 -> writes c h r s s'
  | _ => True
  end.

(** A byte written to a port. *)
Definition out_spec (port v : Z) (s s' : hw_state) : Prop :=
  if port =? FDC_FIFO then
    match h_phase s with
    | Command bs =>
        if (length (bs ++ [v]) <? command_length (char_at (bs ++ [v]) 0))%nat then s' = set_phase (Command (bs ++ [v])) s
        else executes (bs ++ [v]) s s'
    | Result _ => True
    end
  else if bool_decide (port ∈ dma_ports) then s' = set_dma (dma_write port v (h_dma s)) s
  else if port =? FDC_DOR then store_of s' = store_of s /\ (Z.land v 0x04 <> 0 -> h_phase s' = Command [])
  else if (port =? FDC_CCR) || (port =? 0x80) then s' = s
  else True.

(** The byte of the result that is read. *)
Definition fifo_spec (v : Z) (s s' : hw_state) : Prop :=
  match h_phase s with
  | Result (b :: bs) => v = b /\ s' = set_phase (match bs with [] => Command [] | _ => Result bs end) s
  | _ => True
  end.

(** A controller that keeps these promises.  Bit 7 of the status says that it is ready for
    the next byte, and then bit 6 says in which direction; nothing is promised about when
    it gets ready. *)
Class controller_82077 (D : Type) `{!port_io D} := Controller82077 {
  state_of : D -> hw_state;
  law_out d port v : out_spec port v (state_of d) (state_of (outb d port v));
  law_fifo d : let '(v, d') := inb d FDC_FIFO in fifo_spec v (state_of d) (state_of d');
  law_msr d : let '(v, d') := inb d FDC_MSR in
    state_of d' = state_of d /\
    (Z.land v 0x80 <> 0 ->
     match h_phase (state_of d) with
     | Command _ => Z.land v 0x40 = 0
     | Result (_ :: _) => Z.land v 0x40 <> 0
     | Result [] => True
     end);
  law_sector d c h r : length (h_disk (state_of d) c h r) = 512%nat
}.

(** ** Bytes to and from the controller *)

Section Proofs.
Context {D : Type} `{!port_io D} `{!controller_82077 D}.

Definition idle (d : D) : Prop := h_phase (state_of d) = Command [].

(** The rest of a result was not fetched. *)
Definition jammed (d : D) : Prop := exists b bs, h_phase (state_of d) = Result (b :: bs).

(** The controller says that it is ready within [n] requests of its status. *)
Fixpoint ready_in (n : nat) (d : D) : Prop :=
  match n with
  | O => False
  | S n => Z.land (inb d FDC_MSR).1 0x80 <> 0 \/ ready_in n (inb d FDC_MSR).2
  end.

(** A controller that never lets the driver wait in vain. *)
Definition prompt : Prop := forall d, ready_in FDC_POLLS d.

Definition answer (rc : Z) : Prop := rc = FS_OK \/ rc = FS_ERR_READ_ONLY.

Lemma wait_for wanted n : forall d,
  (forall d1, state_of d1 = state_of d -> Z.land (inb d1 FDC_MSR).1 0x80 <> 0 -> wanted (inb d1 FDC_MSR).1 = true) ->
  exists rc d', wait_loop n wanted d = (rc, d') /\ state_of d' = state_of d /\ answer rc /\ (ready_in n d -> rc = FS_OK).
Proof.
  induction n as [|n IH]; intros d Hw; cbn [wait_loop ready_in]; [eexists _, d; split_and!; [done|done|by right|done]|].
  pose proof (law_msr d) as L. pose proof (Hw d eq_refl) as H1. destruct (inb d FDC_MSR) as [v d1]. destruct L as [L _]. cbn [fst snd] in *.
  destruct (wanted v); [eexists _, d1; split_and!; [done|done|by left|done]|].
  destruct (IH d1) as (rc & d2 & E & S2 & R & H2); [intros d2 S2; apply Hw; congruence|].
  exists rc, d2. split_and!; [done|congruence|done|]. intros [Hv|Hn]; [by apply H1 in Hv|by apply H2].
Qed.

Lemma wait_never wanted n : forall d,
  (forall d1, state_of d1 = state_of d -> wanted (inb d1 FDC_MSR).1 = false) ->
  exists d', wait_loop n wanted d = (FS_ERR_READ_ONLY, d') /\ state_of d' = state_of d.
Proof.
  induction n as [|n IH]; intros d Hw; cbn [wait_loop]; [by exists d|].
  pose proof (law_msr d) as L. pose proof (Hw d eq_refl) as H1. destruct (inb d FDC_MSR) as [v d1]. destruct L as [L _]. cbn [fst] in H1.
  rewrite H1. destruct (IH d1) as (d2 & E & S2); [intros d2 S2; apply Hw; congruence|]. exists d2. split; [done|congruence].
Qed.

(** A byte of a command was taken. *)
Definition taken (bs : list Z) (v : Z) (s s' : hw_state) : Prop :=
  if (length (bs ++ [v]) <? command_length (char_at (bs ++ [v]) 0))%nat then s' = set_phase (Command (bs ++ [v])) s
  else executes (bs ++ [v]) s s'.

Lemma send_byte bs v d : h_phase (state_of d) = Command bs ->
  exists rc d', pc_fdc_send v d = (rc, d') /\
    (rc = FS_OK /\ taken bs v (state_of d) (state_of d') \/ rc = FS_ERR_READ_ONLY /\ state_of d' = state_of d) /\
    (prompt -> rc = FS_OK).
Proof.
  intros Hp. unfold pc_fdc_send, pc_fdc_wait_send. destruct (wait_for may_send FDC_POLLS d) as (rc & d1 & -> & S1 & R & H).
  { intros d1 S1. pose proof (law_msr d1) as L. destruct (inb d1 FDC_MSR) as [m d2]. destruct L as [_ L]. rewrite S1, Hp in L. cbn [fst].
    intros Hm. unfold may_send. rewrite (L Hm). cbn [Z.eqb]. by rewrite (proj2 (Z.eqb_neq _ 0) Hm). }
  destruct R as [-> | ->].
  - change (negb (FS_OK =? FS_OK)) with false. cbv iota. eexists _, _. split; [done|]. split; [left|done]. split; [done|].
    pose proof (law_out d1 FDC_FIFO v) as L. unfold out_spec in L. rewrite Z.eqb_refl, S1, Hp in L. exact L.
  - change (negb (FS_ERR_READ_ONLY =? FS_OK)) with true. cbv iota. eexists _, _. split; [done|]. split; [by right|]. intros Hq. apply H, Hq.
Qed.

(** Nothing can be sent before a result was fetched, and nothing fetched without one. *)
Lemma send_jammed v d : jammed d -> exists d', pc_fdc_send v d = (FS_ERR_READ_ONLY, d') /\ state_of d' = state_of d.
Proof.
  intros (b & bs & Hp). unfold pc_fdc_send, pc_fdc_wait_send. destruct (wait_never may_send FDC_POLLS d) as (d1 & -> & S1); [|by exists d1].
  intros d1 S1. pose proof (law_msr d1) as L. destruct (inb d1 FDC_MSR) as [m d2]. destruct L as [_ L]. rewrite S1, Hp in L. cbn [fst].
  unfold may_send. destruct (Z.eqb_spec (Z.land m 0x80) 0) as [|Hm]; cbn [negb andb]; [done|]. by rewrite (proj2 (Z.eqb_neq _ 0) (L Hm)).
Qed.

Lemma recv_idle bs d : h_phase (state_of d) = Command bs -> exists d', pc_fdc_recv d = (inl FS_ERR_READ_ONLY, d') /\ state_of d' = state_of d.
Proof.
  intros Hp. unfold pc_fdc_recv, pc_fdc_wait_recv. destruct (wait_never may_recv FDC_POLLS d) as (d1 & -> & S1); [|by exists d1].
  intros d1 S1. pose proof (law_msr d1) as L. destruct (inb d1 FDC_MSR) as [m d2]. destruct L as [_ L]. rewrite S1, Hp in L. cbn [fst].
  unfold may_recv. destruct (Z.eqb_spec (Z.land m 0x80) 0) as [|Hm]; cbn [negb andb]; [done|]. by rewrite (L Hm).
Qed.

(** A command is sent completely and then carried out, or it is not carried out. *)
Lemma send_command rest : forall bs d, h_phase (state_of d) = Command bs -> rest <> [] ->
  length (bs ++ rest) = command_length (char_at (bs ++ rest) 0) ->
  exists rc d', send_all rest d = (rc, d') /\
    (rc = FS_OK /\ (exists s, store_of s = store_of (state_of d) /\ h_track s = h_track (state_of d) /\ executes (bs ++ rest) s (state_of d')) \/
     rc = FS_ERR_READ_ONLY /\ store_of (state_of d') = store_of (state_of d)) /\
    (prompt -> rc = FS_OK).
Proof.
  induction rest as [|b rest IH]; intros bs d Hp Hne Hl; [done|]. cbn [send_all].
  destruct (send_byte bs b d Hp) as (rc & d1 & -> & [[-> H1]|[-> H1]] & Hq).
  2: { change (negb (FS_ERR_READ_ONLY =? FS_OK)) with true. cbv iota. eexists _, d1. split; [done|]. split; [right; by rewrite H1|done]. }
  change (negb (FS_OK =? FS_OK)) with false. cbv iota. unfold taken in H1.
  replace (bs ++ b :: rest) with ((bs ++ [b]) ++ rest) in * by (by rewrite <- app_assoc).
  assert (char_at ((bs ++ [b]) ++ rest) 0 = char_at (bs ++ [b]) 0) as Hc by (by destruct bs).
  rewrite Hc, length_app in Hl. destruct rest as [|b2 rest]; cbn [length] in Hl.
  - destruct (Nat.ltb_spec (length (bs ++ [b])) (command_length (char_at (bs ++ [b]) 0))); [lia|].
    eexists _, d1. split; [done|]. split; [left|done]. split; [done|]. exists (state_of d). by rewrite app_nil_r.
  - destruct (Nat.ltb_spec (length (bs ++ [b])) (command_length (char_at (bs ++ [b]) 0))); [|lia].
    destruct (IH (bs ++ [b]) d1) as (rc & d' & E & X & Hq'); [by rewrite H1|done|rewrite Hc, length_app; done|].
    exists rc, d'. rewrite H1 in X. by split_and!.
Qed.

Lemma recv_byte b bs d : h_phase (state_of d) = Result (b :: bs) ->
  exists r d', pc_fdc_recv d = (r, d') /\
    (r = inr b /\ state_of d' = set_phase (match bs with [] => Command [] | _ => Result bs end) (state_of d) \/
     r = inl FS_ERR_READ_ONLY /\ state_of d' = state_of d) /\ (prompt -> r = inr b).
Proof.
  intros Hp. unfold pc_fdc_recv, pc_fdc_wait_recv. destruct (wait_for may_recv FDC_POLLS d) as (rc & d1 & -> & S1 & R & H).
  { intros d1 S1. pose proof (law_msr d1) as L. destruct (inb d1 FDC_MSR) as [m d2]. destruct L as [_ L]. rewrite S1, Hp in L. cbn [fst].
    intros Hm. unfold may_recv. by rewrite (proj2 (Z.eqb_neq _ 0) Hm), (proj2 (Z.eqb_neq _ 0) (L Hm)). }
  destruct R as [-> | ->].
  - change (negb (FS_OK =? FS_OK)) with false. cbv iota. pose proof (law_fifo d1) as L. destruct (inb d1 FDC_FIFO) as [v d2].
    unfold fifo_spec in L. rewrite S1, Hp in L. destruct L as [-> L]. eexists _, d2. split; [done|]. split; [by left|done].
  - change (negb (FS_ERR_READ_ONLY =? FS_OK)) with true. cbv iota. eexists _, d1. split; [done|]. split; [by right|].
    intros Hq. specialize (H (Hq d)). done.
Qed.

Lemma recv_result rs : forall d, rs <> [] -> h_phase (state_of d) = Result rs ->
  exists r d' p, recv_all (length rs) d = (r, d') /\ state_of d' = set_phase p (state_of d) /\
    (r = inr rs /\ p = Command [] \/ r = inl FS_ERR_READ_ONLY) /\ (prompt -> r = inr rs).
Proof.
  induction rs as [|b rs IH]; intros d Hne Hp; [done|]. cbn [length recv_all].
  destruct (recv_byte b rs d Hp) as (r & d1 & -> & [[-> S1]|[-> S1]] & Hq).
  2: { eexists _, d1, (Result (b :: rs)). split; [done|]. split; [rewrite S1; destruct (state_of d); cbn in *; by subst|]. split; [by right|]. intros H. by apply Hq in H. }
  destruct rs as [|b2 rs]; [eexists _, d1, _; split; [done|]; split; [done|]; split; [by left|done]|].
  destruct (IH d1) as (r & d2 & p & -> & S2 & R & H2); [done|by rewrite S1|]. eexists _, d2, p. split; [done|].
  split; [by rewrite S2, S1|]. split; [|intros Hz; by rewrite (H2 Hz)]. destruct R as [[-> ->] | ->]; [by left|by right].
Qed.

(** ** Moving the heads *)

(** Memory, disk and DMA are as they were, and no command is incomplete. *)
Definition settled (d d' : D) : Prop :=
  (idle d' \/ jammed d') /\ store_of (state_of d') = store_of (state_of d).

Lemma settled_refl d : idle d \/ jammed d -> settled d d.
Proof. by split. Qed.
Lemma settled_trans d d1 d2 : settled d d1 -> settled d1 d2 -> settled d d2.
Proof. intros [_ H1] [I2 H2]. split; [done|congruence]. Qed.

(** What the answer says while a movement is under way. *)
Definition tells (d d' : D) (r : Z + Z * Z) : Prop :=
  match h_seek (state_of d) with
  | Some (c, O) => exists st0, r = inr (st0, c) /\ Z.land st0 0x20 <> 0
  | Some (c, S k) => (exists e, r = inl e) /\ exists j, (j <= k)%nat /\ h_seek (state_of d') = Some (c, j)
  | None => True
  end.

Lemma sense_exact d : idle d \/ jammed d ->
  exists r d', pc_fdc_sense_interrupt d = (r, d') /\ settled d d' /\
    (forall st0 cyl, r = inr (st0, cyl) -> idle d' /\ cyl = h_track (state_of d')) /\
    (prompt -> idle d -> idle d' /\ (h_healthy (state_of d) = true -> tells d d' r)).
Proof.
  unfold pc_fdc_sense_interrupt. intros [HI|HJ].
  2: { destruct (send_jammed 0x08 d HJ) as (d1 & -> & S1). change (negb (FS_ERR_READ_ONLY =? FS_OK)) with true. cbv iota. eexists _, d1.
       split; [done|]. unfold settled, idle, jammed. rewrite S1. split_and!; [by right|done|done|]. intros _ HI. destruct HJ as (? & ? & HJ). congruence. }
  destruct (send_byte [] 0x08 d HI) as (rc & d1 & -> & [[-> H1]|[-> S1]] & Hq).
  2: { change (negb (FS_ERR_READ_ONLY =? FS_OK)) with true. cbv iota. eexists _, d1. split; [done|]. unfold settled, idle. rewrite S1.
       split_and!; [by left|done|done|]. intros H. by apply Hq in H. }
  change (negb (FS_OK =? FS_OK)) with false. cbv iota. cbn in H1. destruct H1 as (S1 & rs & Hp & Hrs & Hok). unfold tells.
  destruct Hrs as [[b ->]|[st0 ->]].
  - destruct (recv_byte b [] d1 Hp) as (r2 & d2 & -> & [[-> S2]|[-> S2]] & Hq2).
    2: { eexists _, d2. split; [done|]. unfold settled, idle, jammed. rewrite S2. split_and!; [right; by exists b, []|done|done|]. intros H. by apply Hq2 in H. }
    destruct (recv_idle [] d2) as (d3 & -> & S3); [by rewrite S2|]. eexists _, d3. split; [done|]. unfold settled, idle. rewrite S3, S2.
    split_and!; [by left|done|done|]. intros _ _. split; [done|]. intros Hh. specialize (Hok Hh). cbn [h_seek set_phase].
    destruct (h_seek (state_of d)) as [[c [|k]]|]; [by destruct Hok as (? & [=] & _)| |done]. split; [by eexists|apply Hok].
  - destruct (recv_byte st0 [h_track (state_of d1)] d1 Hp) as (r2 & d2 & -> & [[-> S2]|[-> S2]] & Hq2).
    2: { eexists _, d2. split; [done|]. unfold settled, idle, jammed. rewrite S2. split_and!; [right; by eexists _, _|done|done|]. intros H. by apply Hq2 in H. }
    destruct (recv_byte (h_track (state_of d1)) [] d2) as (r3 & d3 & -> & [[-> S3]|[-> S3]] & Hq3); [by rewrite S2| |].
    2: { eexists _, d3. split; [done|]. unfold settled, idle, jammed. rewrite S3, S2. split_and!; [right; by eexists _, _|done|done|]. intros H. by apply Hq3 in H. }
    eexists _, d3. split; [done|]. unfold settled, idle. rewrite S3, S2. split_and!; [by left|done|by intros ?? [= _ <-]|].
    intros _ _. split; [done|]. intros Hh. specialize (Hok Hh). cbn [h_seek set_phase].
    destruct (h_seek (state_of d)) as [[c [|k]]|]; [|by destruct Hok as ((? & [=]) & _)|done]. destruct Hok as (st1 & [= -> Ht] & Hse). exists st1. by rewrite Ht.
Qed.

Lemma arrive_exact n cylinder : forall d, idle d \/ jammed d ->
  exists rc d', arrive n cylinder d = (rc, d') /\ settled d d' /\ answer rc /\
    (rc = FS_OK -> idle d' /\ h_track (state_of d') = cylinder) /\
    (prompt -> idle d -> idle d' /\ (h_healthy (state_of d) = true ->
       forall k, h_seek (state_of d) = Some (cylinder, k) -> (k < n)%nat -> rc = FS_OK)).
Proof.
  induction n as [|n IH]; intros d HI; cbn [arrive].
  { eexists _, d. split; [done|]. split_and!; [by apply settled_refl|by right|done|]. intros _ H. split; [done|]. lia. }
  destruct (sense_exact d HI) as (r & d1 & -> & S1 & Hc & Hq).
  destruct (IH d1 (proj1 S1)) as (rc & d2 & E & S2 & R2 & T2 & Q2).
  assert ((exists e, r = inl e) \/ (exists st0 cyl, r = inr (st0, cyl) /\ Z.land st0 0x20 = 0) ->
    exists rc d', arrive n cylinder d1 = (rc, d') /\ settled d d' /\ answer rc /\ (rc = FS_OK -> idle d' /\ h_track (state_of d') = cylinder) /\
    (prompt -> idle d -> idle d' /\ (h_healthy (state_of d) = true ->
       forall k, h_seek (state_of d) = Some (cylinder, k) -> (k < S n)%nat -> rc = FS_OK))) as again.
  { intros Hr. exists rc, d2. split_and!; [done|by eapply settled_trans|done|done|]. intros P Hi. destruct (Hq P Hi) as [Hi1 Hs]. destruct (Q2 P Hi1) as [Hi2 Hs2].
    split; [done|]. intros Hh k Hk Hlt. specialize (Hs Hh). unfold tells in Hs. rewrite Hk in Hs. destruct k as [|k].
    - destruct Hs as (st0 & -> & Hse). by destruct Hr as [[e [=]]|(? & ? & [= <- _] & ?)].
    - destruct Hs as (_ & j & Hj & Ej). apply (Hs2 ltac:(by destruct S1 as [_ [= _ _ _ ->]]) j Ej). lia. }
  destruct r as [e|[st0 cyl]]; [by apply again; left; exists e|].
  destruct (Z.eqb_spec (Z.land st0 0x20) 0) as [Hz|Hz]; cbn [negb]; [by apply again; right; exists st0, cyl|].
  destruct (Hc st0 cyl eq_refl) as [Hi ->]. eexists _, d1. split; [done|]. split_and!; [done|case_match; [by left|by right]| |].
  - destruct (Z.eqb_spec (h_track (state_of d1)) cylinder); done.
  - intros P Hi0. destruct (Hq P Hi0) as [_ Hs]. split; [done|]. intros Hh k Hk _. specialize (Hs Hh). unfold tells in Hs. rewrite Hk in Hs.
    destruct k as [|k]; [|by destruct Hs as ((e & [=]) & _)]. destruct Hs as (st1 & [= _ ->] & _). by rewrite Z.eqb_refl.
Qed.

(** ** Preparing the controller *)

Lemma delay_same n : forall d, state_of (io_delay n d) = state_of d.
Proof.
  induction n as [|n IH]; intros d; cbn [io_delay]; [done|]. rewrite IH. exact (law_out d 0x80 0).
Qed.

Lemma sense_times_settled n : forall d, idle d \/ jammed d -> settled d (sense_times n d) /\ (prompt -> idle d -> idle (sense_times n d)).
Proof.
  induction n as [|n IH]; intros d HI; cbn [sense_times]; [split; [by apply settled_refl|done]|].
  destruct (sense_exact d HI) as (r & d1 & -> & S1 & _ & Hq). cbn [snd]. destruct (IH d1 (proj1 S1)) as [S2 Q2].
  split; [by eapply settled_trans|]. intros P Hi. apply Q2; [done|]. by apply Hq.
Qed.

Lemma reset_settled d : exists rc d', pc_fdc_reset d = (rc, d') /\ store_of (state_of d') = store_of (state_of d) /\ answer rc /\
  (rc = FS_OK -> idle d') /\ (prompt -> rc = FS_OK).
Proof.
  unfold pc_fdc_reset. cbv zeta. set (d1 := outb d FDC_DOR 0x00). set (d2 := outb (io_delay FDC_DELAYS d1) FDC_DOR 0x1C).
  set (d3 := io_delay FDC_DELAYS (outb d2 FDC_CCR 0x00)).
  assert (idle d3 /\ store_of (state_of d3) = store_of (state_of d)) as [I3 S3].
  { destruct (law_out d FDC_DOR 0x00) as [L1 _]. fold d1 in L1. destruct (law_out (io_delay FDC_DELAYS d1) FDC_DOR 0x1C) as [L2 L3].
    fold d2 in L2, L3. rewrite delay_same in L2. unfold idle, d3. rewrite delay_same. pose proof (law_out d2 FDC_CCR 0x00) as L4. cbn in L4.
    rewrite L4. split; [by apply L3|congruence]. }
  destruct (sense_times_settled 4 d3 (or_introl I3)) as [[H4 S4] Q4]. set (d4 := sense_times 4 d3) in *. destruct H4 as [I4|J4].
  - destruct (send_command [0x03; 0xDF; 0x02] [] d4 I4 ltac:(done) eq_refl) as (rc & d5 & -> & X & Hq). exists rc, d5. split; [done|].
    destruct X as [(-> & s & S5 & _ & X)|[-> S5]]; [|split_and!; [congruence|by right|done|done]].
    cbn in X. unfold idle. rewrite X. split_and!; [change (store_of s = store_of (state_of d)); congruence|by left|done|done].
  - cbn [send_all]. destruct (send_jammed 0x03 d4 J4) as (d5 & -> & S5). change (negb (FS_ERR_READ_ONLY =? FS_OK)) with true. cbv iota.
    eexists _, d5. split; [done|]. rewrite S5. split_and!; [congruence|by right|done|]. intros P. destruct J4 as (? & ? & J4).
    specialize (Q4 P I3). unfold idle in Q4. congruence.
Qed.

(** A movement and the wait for its end. *)
Lemma move_exact cmd c d : idle d -> cmd <> [] -> length cmd = command_length (char_at cmd 0) ->
  (forall s s', executes cmd s s' -> moves_to c s s') ->
  exists rc d', (let '(rc, d) := send_all cmd d in if negb (rc =? FS_OK) then (rc, d) else arrive FDC_SENSES c d) = (rc, d') /\
    store_of (state_of d') = store_of (state_of d) /\ answer rc /\ (rc = FS_OK -> idle d' /\ h_track (state_of d') = c) /\
    (prompt -> idle d' /\ (h_healthy (state_of d) = true -> rc = FS_OK)).
Proof.
  intros HI Hne Hl Hm. destruct (send_command cmd [] d HI Hne Hl) as (rc & d1 & -> & [(-> & s & S1 & _ & X)|[-> S1]] & Hq).
  2: { change (negb (FS_ERR_READ_ONLY =? FS_OK)) with true. cbv iota. eexists _, d1. split; [done|]. split_and!; [done|by right|done|]. intros P. by apply Hq in P. }
  change (negb (FS_OK =? FS_OK)) with false. cbv iota. destruct (Hm _ _ X) as (M1 & M2 & M3).
  destruct (arrive_exact FDC_SENSES c d1 (or_introl M1)) as (rc & d2 & E & S2 & R & T & H). exists rc, d2.
  split_and!; [done|destruct S2 as [_ S2]; congruence|done|done|]. intros P. destruct (H P M1) as [Hi Hs]. split; [done|]. intros Hh.
  injection S1 as _ _ _ Hs1. injection M2 as _ _ _ Hs2. destruct (M3 ltac:(congruence)) as (k & Hk & Ek). apply (Hs ltac:(congruence) k Ek Hk).
Qed.

Lemma recalibrate_exact d : idle d -> exists rc d', pc_fdc_recalibrate d = (rc, d') /\ store_of (state_of d') = store_of (state_of d) /\
  answer rc /\ (rc = FS_OK -> idle d') /\ (prompt -> h_healthy (state_of d) = true -> rc = FS_OK).
Proof.
  intros HI. destruct (move_exact [0x07; 0x00] 0 d HI) as (rc & d' & E & H1 & H2 & H3 & H4); [done|done|by intros|].
  exists rc, d'. split_and!; [done|done|done|intros Hr; by apply H3|]. intros P. by apply H4.
Qed.

Lemma seek_exact c h d : idle d -> exists rc d', pc_fdc_seek c h d = (rc, d') /\ store_of (state_of d') = store_of (state_of d) /\
  answer rc /\ (rc = FS_OK -> idle d' /\ h_track (state_of d') = c) /\
  (prompt -> idle d' /\ (h_healthy (state_of d) = true -> rc = FS_OK)).
Proof. intros HI. apply (move_exact [0x0F; u8 (Z.shiftl h 2); c] c d HI); [done|done|by intros]. Qed.

(** Once the driver has prepared the controller, the controller waits for commands. *)
Definition driver_ok (s : pc_fdc D) : Prop := pc_fdc_ready s <> 0 -> idle (hw s).

Lemma prepare_exact s : driver_ok s ->
  exists rc s', pc_fdc_prepare s = (rc, s') /\ store_of (state_of (hw s')) = store_of (state_of (hw s)) /\ driver_ok s' /\
    answer rc /\ (rc = FS_OK -> idle (hw s')) /\ (prompt -> h_healthy (state_of (hw s)) = true -> rc = FS_OK).
Proof.
  intros HO. unfold pc_fdc_prepare. destruct (Z.eqb_spec (pc_fdc_ready s) 0) as [Hz|Hz]; cbn [negb].
  2: { exists FS_OK, s. split_and!; try done; [by left|]. intros _. by apply HO. }
  destruct (reset_settled (hw s)) as (rc & d1 & -> & S1 & R1 & I1 & Q1).
  destruct (Z.eqb_spec rc FS_OK) as [->|Hne]; cbn [negb].
  2: { eexists _, _. split; [done|]. split_and!; [done|by intros Hx|done|done|]. intros P _. by apply Q1. }
  destruct (recalibrate_exact d1 (I1 eq_refl)) as (rc & d2 & -> & S2 & R & I2 & H).
  assert (store_of (state_of d2) = store_of (state_of (hw s))) as S3 by congruence.
  assert (prompt -> h_healthy (state_of (hw s)) = true -> rc = FS_OK) as Hh.
  { intros P Hx. apply H; [done|]. by injection S1 as _ _ _ ->. }
  destruct (Z.eqb_spec rc FS_OK) as [->|Hne]; cbn [negb]; eexists _, _; (split; [done|]).
  - split_and!; [done|intros _; by apply I2|by left|intros _; by apply I2|done].
  - split_and!; [done|by intros Hx|done|done|done].
Qed.

(** ** Programming the DMA controller *)

Lemma outs_dma ws : forall d, Forall (fun w => w.1 ∈ dma_ports) ws ->
  state_of (outs ws d) = set_dma (fold_left (fun r w => dma_write w.1 w.2 r) ws (h_dma (state_of d))) (state_of d).
Proof.
  induction ws as [|[port v] ws IH]; intros d H; cbn [outs fold_left]; [by destruct (state_of d)|].
  inversion H as [|?? Hp Hw]; subst. cbn [fst snd] in *. rewrite IH by done. pose proof (law_out d port v) as L. unfold out_spec in L.
  destruct (Z.eqb_spec port FDC_FIFO) as [->|_]; [exfalso; revert Hp; apply (bool_decide_unpack _); reflexivity|].
  rewrite bool_decide_eq_true_2 in L by done. by rewrite L.
Qed.

Lemma dma2_address mode addr r : 0 <= addr < 2 ^ 24 ->
  dma_address mode (fold_left (fun r w => dma_write w.1 w.2 r) (dma2_writes mode addr 511) r) = Some addr.
Proof.
  intros Ha. destruct r as [m f a p c o]. cbn -[u8 Z.land Z.shiftr Z.div Z.modulo Z.mul Z.add].
  assert (forall x, u8 (Z.land x 0xFF) = x mod 256) as Hb.
  { intros x. change 0xFF with (Z.ones 8). rewrite Z.land_ones by lia. unfold u8. apply Z.mod_mod. lia. }
  rewrite !Hb. rewrite !Z.shiftr_div_pow2 by lia. unfold dma_address. cbn [masked d_mode d_count d_page d_addr negb andb].
  rewrite Z.eqb_refl. change (511 mod 256) with 255. change ((511 / 2 ^ 8) mod 256) with 1.
  pose proof (Z.div_mod c 256 ltac:(lia)). pose proof (Z.mod_pos_bound c 256 ltac:(lia)).
  replace ((c / 256 * 256 + 255) mod 256) with 255 by (rewrite Z.add_comm, Z.mod_add by lia; reflexivity).
  change (255 + 256 * 1 =? 511) with true. cbn [andb]. f_equal.
  replace ((a / 256 * 256 + addr mod 256) mod 256) with (addr mod 256) by (rewrite Z.add_comm, Z.mod_add, Z.mod_mod by lia; done).
  change (2 ^ 8) with 256. change (2 ^ 16) with (256 * 256). rewrite <- Z.div_div by lia.
  pose proof (Z.div_mod addr 256 ltac:(lia)). pose proof (Z.div_mod (addr / 256) 256 ltac:(lia)).
  rewrite (Z.mod_small (addr / 256 / 256)); [lia|]. split; [apply Z.div_pos; [apply Z.div_pos; lia|lia]|].
  apply Z.div_lt_upper_bound; [lia|]. apply Z.div_lt_upper_bound; lia.
Qed.

(** ** Sectors *)

Lemma chs_exact lba : 0 <= lba < FLOPPY_SECTORS ->
  chs lba = (lba / 36, lba / 18 mod 2, lba mod 18 + 1) /\ on_disk (lba / 36) (lba / 18 mod 2) (lba mod 18 + 1).
Proof.
  unfold FLOPPY_SECTORS, on_disk, chs, FDC_SECTORS_PER_TRACK, FDC_HEADS. cbv zeta. change (18 * 2) with 36. intros Hl.
  rewrite (u8_small (lba mod 36)), !u8_small by (Z.to_euclidean_division_equations; lia).
  split; [f_equal; [f_equal|]|]; Z.to_euclidean_division_equations; lia.
Qed.

Lemma chs_injective a b : (a / 36, a / 18 mod 2, a mod 18 + 1) = (b / 36, b / 18 mod 2, b mod 18 + 1) -> a = b.
Proof. intros [= E1 E2 E3]. Z.to_euclidean_division_equations. lia. Qed.

(** The contents of a block: the blocks go through the sectors of a track, then through
    the heads, then through the cylinders. *)
Definition sector_of (s : hw_state) (lba : Z) : list Z := h_disk s (lba / 36) (lba / 18 mod 2) (lba mod 18 + 1).

(** What the driver wants of a buffer: in the first 16 MiB, in one 64 KiB page. *)
Definition dma_buffer (buffer : Z) : Prop := 0 < buffer < 2 ^ 24 /\ buffer mod 65536 + 511 <= 65535.

(** What a transfer does to memory and to the disk. *)
Definition transferred (write : bool) (buffer lba rc : Z) (s s' : hw_state) : Prop :=
  if write then
    h_ram s' = h_ram s /\
    (forall x, 0 <= x < FLOPPY_SECTORS -> x <> lba -> sector_of s' x = sector_of s x) /\
    (rc = FS_OK -> sector_of s' lba = peek (h_ram s) buffer 512)
  else
    h_disk s' = h_disk s /\
    (forall x, ~ (buffer <= x < buffer + 512) -> h_ram s' x = h_ram s x) /\
    (rc = FS_OK -> peek (h_ram s') buffer 512 = sector_of s lba).

(** A failure before the transfer. *)
Lemma not_transferred write buffer lba rc s s' : rc <> FS_OK -> store_of s' = store_of s -> transferred write buffer lba rc s s'.
Proof. intros Hr [= _ H1 H2 _]. unfold transferred, sector_of. rewrite H1, H2. by destruct write. Qed.

Lemma status_rc rs :
  (if negb (Z.land (char_at rs 0) 0xC0 =? 0) || negb (char_at rs 1 =? 0) || negb (char_at rs 2 =? 0) then FS_ERR_READ_ONLY else FS_OK) =
  if status_ok rs then FS_OK else FS_ERR_READ_ONLY.
Proof. unfold status_ok. by destruct (Z.land _ _ =? 0), (char_at rs 1 =? 0), (char_at rs 2 =? 0). Qed.

(** The command itself, with the heads in place and the channel ready: it was carried out,
    or memory and disk are as they were. *)
Lemma transfer_command_exact (write : bool) buffer lba d : idle d -> 0 <= lba < FLOPPY_SECTORS ->
  let '(c, h, r) := chs lba in
  h_track (state_of d) = c -> dma_address (if write then 0x4A else 0x46) (h_dma (state_of d)) = Some buffer ->
  exists rc d1, send_all (transfer_command write c h r) d = (rc, d1) /\
    h_healthy (state_of d1) = h_healthy (state_of d) /\
    (rc = FS_OK /\ (exists rs, h_phase (state_of d1) = Result rs /\ length rs = 7%nat /\
       transferred write buffer lba (if status_ok rs then FS_OK else FS_ERR_READ_ONLY) (state_of d) (state_of d1) /\
       (h_healthy (state_of d) = true -> status_ok rs = true)) \/
     rc = FS_ERR_READ_ONLY /\ store_of (state_of d1) = store_of (state_of d)) /\
    (prompt -> rc = FS_OK).
Proof.
  intros HI Hl. destruct (chs_exact lba Hl) as [Hc Hon]. rewrite Hc. pose proof (chs_injective lba) as Hi. unfold transferred, sector_of at 2 3.
  set (c := lba / 36) in *. set (h := lba / 18 mod 2) in *. set (r := lba mod 18 + 1) in *. intros Ht Ha.
  destruct (send_command (transfer_command write c h r) [] d HI ltac:(done)) as (rc & d1 & E & [(-> & s & S1 & T1 & X)|[-> S1]] & Hq); [by destruct write| |].
  2: { eexists _, d1. split_and!; [exact E|by injection S1|by right|done]. }
  assert (u8 (Z.shiftl h 2) = h * 4) as Hb by (rewrite Z.shiftl_mul_pow2 by lia; apply u8_small; destruct Hon; lia).
  injection S1 as D1 R1 K1 H1. rewrite <- T1 in Ht. rewrite <- D1 in Ha. rewrite <- H1. unfold sector_of. rewrite <- R1, <- K1.
  exists FS_OK, d1.
  destruct write; cbn -[u8 Z.shiftl] in X; destruct (X Hon Hb buffer Ht Ha) as (rs & X1 & X2 & X3 & X4 & X5 & X6 & X7);
    (split_and!; [done|done| |done]); left; (split; [done|]); exists rs; split_and!; try done.
  - intros x Hx Hne. apply X5. intros Hx'. symmetry in Hx'. by apply Hne, eq_sym, Hi.
  - destruct (status_ok rs); [by intros _; apply X6|done].
  - destruct (status_ok rs); [|done]. intros _. specialize (X6 eq_refl). pose proof (law_sector d c h r) as Hs. rewrite <- K1 in Hs.
    rewrite (peek_ext _ (h_ram (state_of d1))) by (intros x _; apply X6).
    pose proof (poke_same (h_ram s) buffer (h_disk s c h r)) as Hp. by rewrite Hs in Hp.
Qed.

(** An error after a transfer promises less. *)
Lemma transferred_error write buffer lba rc rc' s s' : rc' <> FS_OK -> transferred write buffer lba rc s s' -> transferred write buffer lba rc' s s'.
Proof. intros Hr. unfold transferred. destruct write; intros (H1 & H2 & _); by split_and!. Qed.

Lemma buffer_accepted buffer : dma_buffer buffer ->
  u32 buffer = buffer /\ (buffer =? 0) = false /\ (0xFFFF <? Z.land buffer 0xFFFF + 511) = false.
Proof.
  intros [Hb Hp]. split_and!; [apply u32_small; lia|lia|]. change 0xFFFF with (Z.ones 16) at 2. rewrite Z.land_ones by lia. change (2 ^ 16) with 65536. lia.
Qed.

Lemma setup_exact (write : bool) buffer d : 0 <= buffer < 2 ^ 24 ->
  let d' := if write then pc_dma2_setup_write buffer 511 d else pc_dma2_setup_read buffer 511 d in
  exists r, state_of d' = set_dma r (state_of d) /\ dma_address (if write then 0x4A else 0x46) r = Some buffer.
Proof.
  intros Hb. destruct write; cbv zeta iota; eexists; (split; [apply outs_dma; by repeat constructor|by apply dma2_address]).
Qed.

Lemma transfer_exact buffer lba write (s : pc_fdc D) :
  driver_ok s -> 0 <= lba < FLOPPY_SECTORS -> dma_buffer buffer ->
  exists rc s', pc_fdc_transfer_sector buffer lba write s = (rc, s') /\ answer rc /\
    h_healthy (state_of (hw s')) = h_healthy (state_of (hw s)) /\
    transferred write buffer lba rc (state_of (hw s)) (state_of (hw s')) /\
    (rc = FS_OK -> driver_ok s') /\
    (prompt -> driver_ok s' /\ (h_healthy (state_of (hw s)) = true -> rc = FS_OK)).
Proof.
  intros HO Hl Hb. unfold pc_fdc_transfer_sector. destruct (chs lba) as [[c h] r] eqn:Ec. cbv zeta.
  destruct (buffer_accepted buffer Hb) as (-> & -> & ->).
  destruct (prepare_exact s HO) as (rc & s1 & -> & S1 & O1 & R1 & I1 & H1).
  destruct (Z.eqb_spec rc FS_OK) as [->|Hne]; cbn [negb].
  2: { exists rc, s1. split_and!; [done|done|by injection S1|by apply not_transferred|done|]. intros P. split; [done|by apply H1]. }
  destruct (seek_exact c h (hw s1) (I1 eq_refl)) as (rc & d2 & -> & S2 & R2 & T2 & H2).
  assert (store_of (state_of d2) = store_of (state_of (hw s))) as S12 by congruence.
  destruct (Z.eqb_spec rc FS_OK) as [->|Hne]; cbn [negb].
  2: { eexists rc, _. split; [done|]. split_and!; [done|by injection S12|by apply not_transferred|done|]. intros P. destruct (H2 P) as [I2 G2].
       split; [by intros _|]. intros Hh. apply G2. by injection S1 as _ _ _ ->. }
  destruct (T2 eq_refl) as [I2 K2].
  destruct (setup_exact write buffer d2 ltac:(destruct Hb; lia)) as (r3 & S3 & A3).
  set (d3 := if write then _ else _) in *. pose proof (transfer_command_exact write buffer lba d3) as X. rewrite Ec in X.
  destruct X as (rc & d4 & -> & K4 & X & Q4); [unfold idle; rewrite S3; apply I2|done|by rewrite S3|by rewrite S3|].
  rewrite S3 in K4, X. injection S12 as _ Hr Hd Hh. cbn [h_healthy set_dma] in X, K4. destruct X as [(-> & rs & P4 & L4 & X4 & Hx4)|[-> X4]].
  2: { change (negb (FS_ERR_READ_ONLY =? FS_OK)) with true. cbv iota. eexists _, _. split; [done|]. cbn [hw]. split_and!; [by right|congruence| |done|].
       - injection X4 as _ Hr4 Hd4 _. unfold transferred, sector_of. rewrite Hr4, Hd4. cbn [h_ram h_disk set_dma]. rewrite Hr, Hd. by destruct write.
       - intros P. by apply Q4 in P. }
  change (negb (FS_OK =? FS_OK)) with false. cbv iota.
  destruct (recv_result rs d4) as (r5 & d5 & p & E5 & S5 & R5 & Q5); [by destruct rs|done|]. rewrite L4 in E5. rewrite E5.
  assert (transferred write buffer lba (if status_ok rs then FS_OK else FS_ERR_READ_ONLY) (state_of (hw s)) (state_of d5)) as HT.
  { rewrite S5. unfold transferred, sector_of in *. cbn [h_ram h_disk set_phase set_dma] in *. by rewrite Hr, Hd in X4. }
  assert (h_healthy (state_of d5) = h_healthy (state_of (hw s))) as HH by (rewrite S5; cbn [h_healthy set_phase]; congruence).
  eexists _, _. split; [done|]. cbn [hw]. destruct R5 as [[-> ->] | ->].
  - rewrite status_rc. assert (driver_ok (PcFdc (pc_fdc_ready s1) d5)) as HD by (intros _; unfold idle; cbn [hw]; by rewrite S5).
    split_and!; [unfold answer; case_match; auto|done|done|done|]. intros P. split; [done|]. intros Hx. rewrite Hx4; [done|congruence].
  - split_and!; [by right|done|by eapply transferred_error|done|]. intros P. by apply Q5 in P.
Qed.

(** C20: The driver reads and writes the blocks of the disk. Let the driver not have prepared the controller, or
    the controller wait for a command. For a buffer in the first 16 MiB that does not cross a 64 KiB page, a
    transfer answers FS_OK or FS_ERR_READ_ONLY, on a controller that may keep the driver waiting at any byte
    for as long as it likes; a read leaves the disk and the memory outside the buffer alone, and on success
    the buffer has the block; a write leaves memory and all other blocks alone, and on success the block has
    the buffer; and after a success the controller waits for the next command. If, moreover, the controller
    always gets ready before the driver stops polling, it waits for the next command after a failure too,
    and on a drive in order, whose seeks end before the driver has asked 100000 times, the transfer succeeds. *)
Theorem pc_fdc_transfers buffer lba write (s : pc_fdc D) :
  driver_ok s -> 0 <= lba < FLOPPY_SECTORS -> dma_buffer buffer ->
  exists rc s', pc_fdc_transfer_sector buffer lba write s = (rc, s') /\ answer rc /\
    h_healthy (state_of (hw s')) = h_healthy (state_of (hw s)) /\
    transferred write buffer lba rc (state_of (hw s)) (state_of (hw s')) /\
    (rc = FS_OK -> driver_ok s') /\
    (prompt -> driver_ok s' /\ (h_healthy (state_of (hw s)) = true -> rc = FS_OK)).
Proof. apply transfer_exact. Qed.

End Proofs.

(** ** The drive behind [BootMedia]

    With a buffer of its own, filled by the processor before a write, and a controller that gets ready in
    time, the driver is a [plain_drive]: what is proved of the cached floppy holds for it. *)

Definition set_ram m s := Hw (h_phase s) (h_track s) (h_seek s) (h_dma s) m (h_disk s) (h_healthy s).

(** Stores of the processor. *)
Class cpu_stores (D : Type) `{!port_io D} `{!controller_82077 D} := CpuStores {
  store : Z -> list Z -> D -> D;
  law_store a src (d : D) : state_of (store a src d) = set_ram (poke (h_ram (state_of d)) a src) (state_of d)
}.

Section Drive.
Context {D : Type} `{!port_io D} `{!controller_82077 D} `{!cpu_stores D}.
Context (buffer : Z) (Hbuffer : dma_buffer buffer) (Hprompt : prompt (D := D)).

(** The driver with a controller that waits for commands. *)
Record fdc_drive := FdcDrive { fd_state : pc_fdc D; fd_ok : driver_ok fd_state }.

Lemma transfer_keeps_ok lba write s : driver_ok s -> 0 <= lba < FLOPPY_SECTORS -> driver_ok (pc_fdc_transfer_sector buffer lba write s).2.
Proof using Hbuffer Hprompt. intros HO Hl. destruct (transfer_exact buffer lba write s HO Hl Hbuffer) as (rc & s' & -> & _ & _ & _ & _ & H). by apply H. Qed.

Lemma reset_keeps_ok s : driver_ok (pc_fdc_reset_state s).
Proof. intros H. by destruct H. Qed.

Lemma store_keeps_ok a src s : driver_ok s -> driver_ok (PcFdc (pc_fdc_ready s) (store a src (hw s))).
Proof. intros HO Hr. unfold idle. cbn [hw]. rewrite law_store. by apply HO. Qed.

Definition drive_read (lba : Z) (c : fdc_drive) : (Z + list Z) * fdc_drive :=
  match decide (0 <= lba < FLOPPY_SECTORS) with
  | left Hl =>
      let r := pc_fdc_read_sector_buffer buffer lba (fd_state c) in
      (if r.1 =? FS_OK then inr (peek (h_ram (state_of (hw r.2))) buffer 512) else inl r.1,
       FdcDrive r.2 (transfer_keeps_ok lba false (fd_state c) (fd_ok c) Hl))
  | right _ => (inl FS_ERR_INVALID, c)
  end.

Definition drive_write (src : list Z) (lba : Z) (c : fdc_drive) : (Z + unit) * fdc_drive :=
  match decide (0 <= lba < FLOPPY_SECTORS), decide (length src = 512%nat) with
  | left Hl, left _ =>
      let filled := PcFdc (pc_fdc_ready (fd_state c)) (store buffer src (hw (fd_state c))) in
      let r := pc_fdc_write_sector_buffer buffer lba filled in
      (if r.1 =? FS_OK then inr tt else inl r.1,
       FdcDrive r.2 (transfer_keeps_ok lba true filled (store_keeps_ok buffer src (fd_state c) (fd_ok c)) Hl))
  | _, _ => (inl FS_ERR_INVALID, c)
  end.

#[export] Instance fdc_controller : floppy_controller fdc_drive := {|
  read_sector := drive_read; write_sector := drive_write;
  reset_state c := FdcDrive (pc_fdc_reset_state (fd_state c)) (reset_keeps_ok (fd_state c))
|}.

Definition fdc_medium (c : fdc_drive) (x : Z) : list Z :=
  if decide (0 <= x < FLOPPY_SECTORS) then sector_of (state_of (hw (fd_state c))) x else [].

#[export, program] Instance fdc_plain_drive : plain_drive fdc_drive := {| medium := fdc_medium |}.
Next Obligation.
  intros c lba Hl. cbn [read_sector fdc_controller]. unfold drive_read. destruct (decide _) as [Hl'|]; [|done]. cbv zeta.
  eexists _, _. split; [done|]. unfold fdc_medium. cbn [fd_state]. unfold pc_fdc_read_sector_buffer.
  destruct (transfer_exact buffer lba false (fd_state c) (fd_ok c) Hl' Hbuffer) as (rc & s' & -> & _ & _ & (X1 & X2 & X3) & _). cbn [fst snd].
  split; [intros x; unfold sector_of; by rewrite X1|]. destruct (Z.eqb_spec rc FS_OK); [|done]. rewrite decide_True by done. by apply X3.
Qed.
Next Obligation.
  intros c lba src Hl. cbn [write_sector fdc_controller]. unfold drive_write. destruct (decide (0 <= lba < _)) as [Hl'|]; [|done].
  destruct (decide _) as [Hs|]; [|by eexists _, _]. cbv zeta. eexists _, _. split; [done|]. unfold fdc_medium. cbn [fd_state]. unfold pc_fdc_write_sector_buffer.
  destruct (transfer_exact buffer lba true _ (store_keeps_ok buffer src (fd_state c) (fd_ok c)) Hl' Hbuffer) as (rc & s' & -> & _ & _ & (_ & X2 & X3) & _).
  cbn [fst snd hw] in *. rewrite law_store in X2, X3. unfold set_ram, sector_of in X2, X3. cbn [h_ram h_disk] in X2, X3.
  assert (forall x, x <> lba -> fdc_medium c x = if decide (0 <= x < FLOPPY_SECTORS) then sector_of (state_of (hw s')) x else []) as H2.
  { intros x Hx. unfold fdc_medium. destruct (decide _); [|done]. symmetry. by apply X2. }
  destruct (Z.eqb_spec rc FS_OK) as [Hok|]; [|intros x Hx; symmetry; by apply H2].
  intros x. destruct (decide (x = lba)) as [->|Hne]; [|symmetry; by apply H2]. rewrite decide_True by done. unfold sector_of. rewrite (X3 Hok).
  pose proof (poke_same (h_ram (state_of (hw (fd_state c)))) buffer src) as Hp. by rewrite Hs in Hp.
Qed.

End Drive.

(** ** A controller *)

(** A controller in order, whose sectors are cut or filled to 512 bytes. *)
Definition formatted (s : hw_state) : hw_state :=
  Hw (h_phase s) (h_track s) (h_seek s) (h_dma s) (h_ram s) (fun c h r => resize 512 0 (h_disk s c h r)) (h_healthy s).

Definition done_with (rs : list Z) (s : hw_state) : hw_state := set_phase (Result rs) s.
Definition head_at (c : Z) (s : hw_state) : hw_state := Hw (Command []) c (Some (c, 0%nat)) (h_dma s) (h_ram s) (h_disk s) (h_healthy s).
Definition read_done (c h r : Z) (s : hw_state) : hw_state :=
  match dma_address 0x46 (h_dma s) with
  | Some a => done_with (replicate 7 0) (Hw (h_phase s) (h_track s) (h_seek s) (h_dma s) (poke (h_ram s) a (resize 512 0 (h_disk s c h r))) (h_disk s) (h_healthy s))
  | None => done_with (replicate 7 0x40) s
  end.
Definition write_done (c h r : Z) (s : hw_state) : hw_state :=
  match dma_address 0x4A (h_dma s) with
  | Some a => done_with (replicate 7 0) (Hw (h_phase s) (h_track s) (h_seek s) (h_dma s) (h_ram s)
                (fun c' h' r' => if decide ((c', h', r') = (c, h, r)) then peek (h_ram s) a 512 else h_disk s c' h' r') (h_healthy s))
  | None => done_with (replicate 7 0x40) s
  end.

Definition sensed (s : hw_state) : hw_state :=
  match h_seek s with
  | Some (c, O) => Hw (Result [0x20; c]) c None (h_dma s) (h_ram s) (h_disk s) (h_healthy s)
  | Some (c, S k) => Hw (Result [0x80]) (h_track s) (Some (c, k)) (h_dma s) (h_ram s) (h_disk s) (h_healthy s)
  | None => done_with [0x80] s
  end.

Definition carried_out (cmd : list Z) (s : hw_state) : hw_state :=
  match cmd with
  | [3; _; _] => set_phase (Command []) s
  | [7; 0] => head_at 0 s
  | [15; _; c] => head_at c s
  | [8] => sensed s
  | [0x46; b; c; h; r; 2; 18; 0x1B; 0xFF] => read_done c h r s
  | [0x45; b; c; h; r; 2; 18; 0x1B; 0xFF] => write_done c h r s
  | _ => s
  end.

#[export] Instance demo_io : port_io hw_state := PortIO _
  (fun s port =>
    if port =? FDC_MSR then (match h_phase s with Command _ => 0x80 | Result _ => 0xC0 end, s)
    else if port =? FDC_FIFO then
      match h_phase s with
      | Result (b :: bs) => (b, set_phase (match bs with [] => Command [] | _ => Result bs end) s)
      | _ => (0xFF, s)
      end
    else (0xFF, s))
  (fun s port v =>
    if port =? FDC_FIFO then
      match h_phase s with
      | Command bs =>
          if (length (bs ++ [v]) <? command_length (char_at (bs ++ [v]) 0))%nat then set_phase (Command (bs ++ [v])) s
          else carried_out (bs ++ [v]) s
      | Result _ => s
      end
    else if bool_decide (port ∈ dma_ports) then set_dma (dma_write port v (h_dma s)) s
    else if port =? FDC_DOR then set_phase (Command []) s
    else s).

Lemma formatted_read c h r s : reads c h r (formatted s) (formatted (read_done c h r s)).
Proof.
  intros a Ht Ha. cbn [h_dma formatted] in Ha. unfold read_done. rewrite Ha. exists (replicate 7 0). split_and!; try done.
  intros x Hx. cbn [h_ram formatted done_with set_phase]. apply poke_other. rewrite length_resize. lia.
Qed.

Lemma formatted_write c h r s : writes c h r (formatted s) (formatted (write_done c h r s)).
Proof.
  intros a Ht Ha. cbn [h_dma formatted] in Ha. unfold write_done. rewrite Ha. exists (replicate 7 0). split_and!; try done.
  - intros c' h' r' Hne. cbn [h_disk formatted done_with set_phase]. by rewrite decide_False.
  - intros _. cbn [h_disk formatted done_with set_phase h_ram]. rewrite decide_True by done.
    change 512%nat with (Z.to_nat 512). rewrite <- (peek_length (h_ram s) a 512). apply resize_all.
Qed.

Lemma formatted_sense s : senses (formatted s) (formatted (sensed s)).
Proof.
  unfold sensed. destruct s as [p t [[c [|k]]|] r m dk hl]; (split; [done|]); eexists; (split; [reflexivity|]); cbn.
  - split; [right; by eexists|]. intros _. exists 0x20. by split.
  - split; [left; by eexists|]. intros _. split; [by eexists|]. by exists k.
  - split; [left; by eexists|done].
Qed.

Lemma head_arrives c s : moves_to c (formatted s) (formatted (head_at c s)).
Proof. split_and!; [done|done|]. intros _. exists 0%nat. split; [unfold FDC_SENSES; lia|done]. Qed.

Lemma carried_out_ok cmd s : executes cmd (formatted s) (formatted (carried_out cmd s)).
Proof.
  unfold executes, carried_out.
  repeat (match goal with |- context [match ?x with _ => _ end] => is_var x; destruct x end; try exact I);
    first [reflexivity | apply formatted_sense | by apply head_arrives | intros _ _; apply formatted_read | intros _ _; apply formatted_write].
Qed.

#[export, program] Instance demo_controller : controller_82077 hw_state := {| state_of := formatted |}.
Next Obligation.
  intros s port v. unfold out_spec, outb, demo_io. destruct (port =? FDC_FIFO); cbn [h_phase formatted].
  - destruct (h_phase s); [|done]. case_match; [done|apply carried_out_ok].
  - case_match; [done|]. destruct (port =? FDC_DOR); [done|]. by destruct (_ || _).
Qed.
Next Obligation. intros s. cbn [inb demo_io Z.eqb]. unfold fifo_spec. cbn. by destruct (h_phase s) as [|[|b [|b2 bs]]]. Qed.
Next Obligation. intros s. cbn. split; [done|]. by destruct (h_phase s) as [|[|]]. Qed.
Next Obligation. intros s c h r. cbn. by rewrite length_resize. Qed.

(** A disk whose sectors hold their number. *)
Definition demo_disk : pc_fdc hw_state :=
  PcFdc 0 (Hw (Result [1; 2]) 5 None (Dma true true 0 0 0 0) (fun _ => 0) (fun _ _ r => replicate 512 r) true).

Lemma demo_prompt : prompt (D := hw_state).
Proof.
  intros s. unfold FDC_POLLS. destruct (Z.to_nat 1000000) eqn:E; [lia|]. cbn [ready_in]. left. cbn. by destruct (h_phase s).
Qed.

Lemma pc_fdc_transfers_witness :
  exists s', pc_fdc_transfer_sector 0x8000 37 false demo_disk = (FS_OK, s') /\ peek (h_ram (state_of (hw s'))) 0x8000 512 = replicate 512 2.
Proof.
  destruct (pc_fdc_transfers 0x8000 37 false demo_disk) as (rc & s' & E & _ & _ & (_ & _ & H) & _ & Hok).
  - intros H. by destruct H.
  - unfold FLOPPY_SECTORS. lia.
  - split; [lia|]. change (0x8000 mod 65536) with 0x8000. lia.
  - exists s'. destruct (Hok demo_prompt) as [_ Hrc]. specialize (Hrc eq_refl). subst rc. split; [exact E|]. rewrite (H eq_refl). reflexivity.
Defined.

End FdcProps.
