(* ===== verification/Machine.v ===== *)
(** * The machine: every file system behind the front end

    The storage of [core/fs/fs_core.c] with nothing left open: RAMFS, the FAT12 and
    ISO9660 drivers over the boot media, and the root device of the block layer. *)

From S2P Require Import Prelude FsTypes FsPath Ramfs Vfs RamfsDriver Block Fat12Name Fat12 Fat12Driver Iso9660 IsoVolume IsoDriver BootMedia Pseudo FsCore FsLinks IsoProps FsCoreProps.
From stdpp Require Import base list option list_numbers strings.
From Stdlib Require Import ZArith Lia ZifyBool.
Import FsTypes Vfs VfsLens RamfsDriver IsoDriver Block BootMedia BootMediaProps FsCore.
Open Scope Z_scope.

Module Machine.

Section Machine.
Context {C : Type} `{!floppy_controller C}.

(** The variables of the drivers; [m_boot] is what [fs_core_set_boot_context] stored. *)
Record machine := Mach {
  m_ramfs : Ramfs.ramfs;
  m_fat : Fat12Driver.fat12 (boot_device C);
  m_iso : Iso9660.iso (boot_device C);
  m_root : option (boot_device C);
  m_boot : boot_context;
  m_ctl : controller C
}.

Definition put_ramfs (s : Ramfs.ramfs) (m : machine) : machine :=
  Mach s (m_fat m) (m_iso m) (m_root m) (m_boot m) (m_ctl m).
Definition put_fat (s : Fat12Driver.fat12 (boot_device C)) (m : machine) : machine :=
  Mach (m_ramfs m) s (m_iso m) (m_root m) (m_boot m) (m_ctl m).
Definition put_iso (s : Iso9660.iso (boot_device C)) (m : machine) : machine :=
  Mach (m_ramfs m) (m_fat m) s (m_root m) (m_boot m) (m_ctl m).
Definition put_root (d : option (boot_device C)) (m : machine) : machine :=
  Mach (m_ramfs m) (m_fat m) (m_iso m) d (m_boot m) (m_ctl m).

#[export] Instance ramfs_lens : lens m_ramfs put_ramfs.
Proof. split; [done|by intros []]. Qed.
#[export] Instance fat_lens : lens m_fat put_fat.
Proof. split; [done|by intros []]. Qed.
#[export] Instance iso_lens : lens m_iso put_iso.
Proof. split; [done|by intros []]. Qed.

Definition fs_core_set_boot_context (b : boot_context) (m : machine) : machine :=
  Mach (m_ramfs m) (m_fat m) (m_iso m) (m_root m) b (m_ctl m).

(** A mount function on the root device.  The device is shared by pointer: whether the
    volume is accepted or not, the root device has performed the read. *)
Definition mount_root {A} (read : M (boot_device C) A) (mount : boot_device C -> M machine unit)
    : M machine unit := fun m =>
  match m_root m with
  | None => Some (inl FS_ERR_INVALID, m)
  | Some dev =>
      match read dev, mount dev m with
      | Some (_, dev'), Some (r, m) => Some (r, put_root (Some dev') m)
      | _, _ => None
      end
  end.

Definition install_device (m : machine) : option machine :=
  r ← BootMedia.fs_install_bootmedia_device (m_boot m) (m_ctl m);
  Some (match r with Some d => put_root (Some d) m | None => m end).

#[export] Instance machine_storage : storage machine := {|
  driver_ops d := match d with
                  | RAMFS_DRIVER => via_driver m_ramfs put_ramfs ramfs_driver
                  | FAT12_DRIVER => via_driver m_fat put_fat Fat12Driver.fat12_driver
                  | ISO9660_DRIVER => via_driver m_iso put_iso Iso9660.iso_driver
                  end;
  FsCore.ramfs_core_init m :=
    let '(rc, s) := Ramfs.ramfs_core_init (m_ramfs m) in (rc, put_ramfs s m);
  FsCore.ramfs_core_clear_dirty m := put_ramfs (Ramfs.ramfs_core_clear_dirty (m_ramfs m)) m;
  FsCore.fs_install_bootmedia_device := install_device;
  block_core_has_root_device m := match block_core_get_root_device (m_root m) with Some _ => true | None => false end;
  FsCore.fat12_core_mount :=
    mount_root (block_core_read 0 1) (fun dev => via m_fat put_fat (Fat12Driver.fat12_core_mount dev));
  FsCore.iso9660_core_mount :=
    mount_root (Iso9660.iso_read_2048 Iso9660.ISO9660_PVD_LBA)
               (fun dev => via m_iso put_iso (Iso9660.iso9660_core_mount dev));
  FsCore.fat12_core_buffer_bytes _ := Fat12Driver.fat12_core_buffer_bytes;
  FsCore.ramfs_core_get_stats m := Ramfs.ramfs_core_get_stats (m_ramfs m)
|}.

#[export] Instance machine_cd_files : file_driver (driver_ops ISO9660_DRIVER) :=
  via_file_driver m_iso put_iso Iso9660.iso_driver.
#[export] Instance machine_cd_reader : file_reader (driver_ops ISO9660_DRIVER) :=
  via_file_reader m_iso put_iso Iso9660.iso_driver.
#[export] Instance machine_ramfs_files : file_driver (driver_ops RAMFS_DRIVER) :=
  via_file_driver m_ramfs put_ramfs ramfs_driver.
#[export] Instance machine_ramfs_reader : file_reader (driver_ops RAMFS_DRIVER) :=
  via_file_reader m_ramfs put_ramfs ramfs_driver.

(** The variables when the kernel starts. *)
Definition machine_start (b : boot_context) (c : controller C) : machine :=
  Mach Ramfs.ramfs_boot (Fat12Driver.Fat None Fat12.zero_bpb [] 0 (replicate 16 Fat12Driver.zero_file)) Iso9660.iso_boot None b c.

End Machine.
Arguments machine : clear implicits.

End Machine.

(** * Booting from a CD image

    The front end, the boot media and the ISO9660 driver together: what the kernel's
    file-system start-up does on a machine whose boot loader passed a [rootfs] module. *)

Import FsTypes FsPathProps Vfs VfsLens IsoVolume IsoDriver IsoProps Block BootMedia BootMediaProps Pseudo FsCore FsLinks FsReader FsCoreProps Machine.
Open Scope vfs_scope.

Module MachineProps.

Section Boot.
Context {C : Type} `{!floppy_controller C} {W : Type} `{!services W}.

(** The volume descriptor of an image names a root directory. *)
Record descriptor (d : boot_device C) (lba size : Z) : Prop := {
  pv_disc : on_disc d 16 1;
  pv_magic : take 6 (iso_sector d 16) = Iso9660.iso_magic;
  pv_record : char_at (iso_sector d 16) 156 <> 0;
  pv_lba : Iso9660.iso_le32 (iso_sector d 16) 158 = Some lba;
  pv_size : Iso9660.iso_le32 (iso_sector d 16) 166 = Some size;
  pv_set : lba <> 0 /\ size <> 0
}.

(** A CD image in memory: the boot loader's tags lead to it, its first sector is not a
    FAT12 boot sector, and it holds a well-formed volume. *)
Record bootable (b : boot_context) (im : module_image) (lba size : Z) : Prop := {
  bt_ram : byte_memory (b_ram b);
  bt_tags : fs_install_mb2_module_device b = Some (Some im);
  bt_limit : b_limit b <= 2 ^ 32;
  bt_not_fat : fst (Fat12.fat12_parse_bpb (sector (MODULE (C := C) im) 0) Fat12.zero_bpb) <> FS_OK;
  bt_descriptor : descriptor (MODULE im) lba size;
  bt_volume : volume_ok (MODULE (C := C) im) [(lba, size)]
}.

Lemma directory_mono (d : boot_device C) roots roots' lba size :
  (forall e, e ∈ roots' -> e ∈ roots) -> directory d roots' lba size -> directory d roots lba size.
Proof.
  intros Hr. induction 1 as [lba size H|lba size rs r _ IH Hrs He Hd]; [by apply root_directory, Hr|].
  by apply (sub_directory d roots lba size rs r).
Qed.

Lemma install_image b im : byte_memory (b_ram b) -> fs_install_mb2_module_device b = Some (Some im) ->
  image_below (b_limit b) im.
Proof.
  intros Hm. unfold fs_install_mb2_module_device. destruct (_ || _); [done|]. cbn zeta.
  destruct (_ || _) eqn:Et; [done|]. intros E.
  destruct (module_loop_spec TAG_FUEL (b_ram b) (b_limit b) (b_info b) (Mm.Mm.rd32 (b_ram b) (b_info b)) 8 Hm) as (r & E' & Hr).
  { change (Z.of_nat TAG_FUEL) with 8192. lia. }
  rewrite E' in E. injection E as ->. by apply Hr.
Qed.

Lemma fat_refuses (d : boot_device C) s :
  ds_ok d -> fst (Fat12.fat12_parse_bpb (sector d 0) (Fat12Driver.g_fat12 s)) <> FS_OK ->
  exists rc s', Fat12Driver.fat12_core_mount d s = Some (inl rc, s').
Proof.
  intros Hd Hp. unfold Fat12Driver.fat12_core_mount. rewrite read_run by (done || lia).
  pose proof (ds_count d Hd). destruct (Z.leb_spec (0 + 1) (sector_count d)); [|lia].
  rewrite (seqZ_cons 0 1), seqZ_nil by lia. cbn [fmap list_fmap concat]. rewrite app_nil_r.
  cbn [Fat12Driver.g_fat12 Fat12Driver.set_files].
  destruct (Fat12.fat12_parse_bpb (sector d 0) (Fat12Driver.g_fat12 s)) as [rc bpb]. cbn [fst] in Hp.
  rewrite (proj2 (Z.eqb_neq rc FS_OK)) by done. by do 2 eexists.
Qed.

Lemma parse_bpb_code sec b b' : fst (Fat12.fat12_parse_bpb sec b) = fst (Fat12.fat12_parse_bpb sec b').
Proof. unfold Fat12.fat12_parse_bpb. cbn. by destruct (_ || _). Qed.

Lemma iso_mounts (d : boot_device C) lba size s :
  descriptor d lba size ->
  Iso9660.iso9660_core_mount d s =
    Some (inr tt, Iso9660.set_cwd [slash] lba size (Iso9660.set_dev (Some d) (Iso9660.set_root lba size s))).
Proof.
  intros [Hd Hm Hr Hl Hs [H1 H2]]. unfold Iso9660.iso9660_core_mount. change Iso9660.ISO9660_PVD_LBA with 16.
  rewrite (read_2048 d 16 Hd).
  assert (Iso9660.bytes_at (iso_sector d 16) 0 6 = Some Iso9660.iso_magic) as ->.
  { unfold Iso9660.bytes_at. rewrite iso_sector_length.
    change (0 + 6 <=? Z.of_nat 2048) with true. cbn iota.
    change (Z.to_nat 6) with 6%nat. change (Z.to_nat 0) with 0%nat. by rewrite drop_0, Hm. }
  unfold bind, Iso9660.lift_opt, guard. rewrite bool_decide_true by done. cbn [ret].
  assert (Iso9660.byte_at (iso_sector d 16) 156 = Some (char_at (iso_sector d 16) 156)) as ->.
  { unfold Iso9660.byte_at, char_at. change (Z.to_nat 156) with 156%nat.
    destruct (lookup_lt_is_Some_2 (iso_sector d 16) 156) as [x ->]; [rewrite iso_sector_length; lia|done]. }
  rewrite (proj2 (Z.eqb_neq _ 0)) by done. cbn [negb ret]. rewrite Hl, Hs.
  rewrite (proj2 (Z.eqb_neq lba 0)), (proj2 (Z.eqb_neq size 0)) by done. done.
Qed.

(** The state of the ISO9660 driver after a mount at boot. *)
Definition cd_state (d : boot_device C) (lba size : Z) : Iso9660.iso (boot_device C) :=
  Iso9660.set_cwd [slash] lba size (Iso9660.set_dev (Some d) (Iso9660.set_root lba size Iso9660.iso_boot)).

Lemma probe_fat_refused (d : boot_device C) m :
  ds_ok d -> m_root m = Some d -> fst (Fat12.fat12_parse_bpb (sector d 0) Fat12.zero_bpb) <> FS_OK ->
  exists rc s, FsCore.fat12_core_mount m = Some (inl rc, put_root (Some d) (put_fat s m)).
Proof.
  intros Hd Hm Hp. cbn [FsCore.fat12_core_mount machine_storage]. unfold mount_root. rewrite Hm.
  rewrite read_run by (done || lia). destruct (fat_refuses d (m_fat m) Hd) as (rc & s & E).
  { by rewrite (parse_bpb_code _ _ Fat12.zero_bpb). }
  unfold via. rewrite E. by do 2 eexists.
Qed.

Lemma probe_iso_accepted (d : boot_device C) m lba size :
  descriptor d lba size -> m_root m = Some d -> m_iso m = Iso9660.iso_boot ->
  FsCore.iso9660_core_mount m = Some (inr tt, put_root (Some d) (put_iso (cd_state d lba size) m)).
Proof.
  intros Hpv Hm Hi. cbn [FsCore.iso9660_core_mount machine_storage]. unfold mount_root. rewrite Hm.
  change Iso9660.ISO9660_PVD_LBA with 16. rewrite (read_2048 d 16 (pv_disc _ _ _ Hpv)).
  unfold via. rewrite Hi, (iso_mounts d lba size _ Hpv). done.
Qed.

Lemma mount_cd b im lba size (f : fs (machine C) W) :
  bootable b im lba size -> g_root_driver f = Some RAMFS_DRIVER ->
  m_boot (store f) = b -> m_iso (store f) = Iso9660.iso_boot ->
  exists f', fs_core_mount_boot_media f = Some (inr tt, f') /\ g_root_driver f' = Some ISO9660_DRIVER /\
    g_media_kind f' = FS_MEDIA_ISO9660 /\ m_iso (store f') = cd_state (MODULE im) lba size /\ cwd f' = [slash].
Proof.
  intros [Hram Htags Hlim Hfat Hpv _] Hroot Hb Hi. pose proof (install_image b im Hram Htags) as Hbelow.
  unfold image_below in Hbelow. set (d := MODULE (C := C) im) in *. assert (ds_ok d) as Hok by (cbn; lia).
  unfold fs_core_mount_boot_media. rewrite Hroot. cbn [bool_decide negb FsCore.fs_install_bootmedia_device machine_storage].
  rewrite bool_decide_true by done. cbn [negb]. unfold install_device, BootMedia.fs_install_bootmedia_device.
  rewrite Hb, Htags. cbn [mbind option_bind]. fold d. set (m := put_root (Some d) (store f)).
  unfold fs_probe_block_root. cbn [set_media set_store store block_core_has_root_device machine_storage m_root m put_root block_core_get_root_device negb].
  destruct (probe_fat_refused d m Hok eq_refl Hfat) as (rc & s & Ef).
  set (m1 := put_root (Some d) (put_fat s m)) in *.
  pose proof (probe_iso_accepted d m1 lba size Hpv eq_refl Hi) as Ei.
  unfold fs_probe_one, bind, attempt, on_store. cbn [store set_store set_media].
  rewrite Ef. unfold ret. cbn [store set_store set_media]. rewrite Ei. unfold fs_mount_media_driver. cbn [driver_ops machine_storage via_driver d_init Iso9660.iso_driver fmap option_fmap option_map].
  cbn. eexists. split; [reflexivity|]. done.
Qed.

(** C15: Booting from a CD image. Let the boot loader have passed a module named rootfs, in a memory of at most
    4 GiB, whose first sector does not parse as a FAT12 boot sector (otherwise the kernel mounts it as FAT12),
    and which holds a well-formed ISO9660 volume: a primary descriptor, and directories whose records parse and
    lie on the image, from the root down. Then [fs_core_init] returns success with the ISO9660 driver as the
    root file system over exactly that image and the working directory "/". Every regular file of the volume
    can be opened and read by its canonical path, which is what the program loader needs, except a file below
    /dev or /proc, where the pseudo file systems answer, and a file whose contents are those of a symbolic
    link, which is followed. *)
Theorem boot_from_cd b im lba size (c : controller C) (w : W) cwd0 :
  bootable b im lba size ->
  exists f, fs_core_init (Fs None None FS_MEDIA_NONE (machine_start b c) w cwd0) = Some (inr tt, f) /\
    ready ISO9660_DRIVER f [] /\ g_media_kind f = FS_MEDIA_ISO9660 /\
    Iso9660.g_iso_dev (m_iso (store f)) = Some (MODULE im) /\
    forall ds bytes, canonical ds -> ds <> [] -> pseudo_fs_is_path (render ds) = false ->
      iso_file_at (m_iso (store f)) (render ds) = Some bytes ->
      link_at ISO9660_DRIVER (store f) (render ds) FS_PATH_CAP = None ->
      readable ISO9660_DRIVER f (render ds) bytes.
Proof.
  intros Hb. unfold fs_core_init, fs_core_init_ramfs. unfold bind at 1.
  cbn [store set_store set_media set_root FsCore.ramfs_core_init machine_storage machine_start m_ramfs].
  destruct (Ramfs.Ramfs.ramfs_core_init Ramfs.Ramfs.ramfs_boot) as [rc s0] eqn:Es.
  assert (rc = FS_OK) as -> by (by injection Es as <- _). cbn [negb Z.eqb FS_OK].
  match goal with |- context [(bind _ _) ?f0] => set (f := f0) end.
  destruct (mount_cd b im lba size f Hb eq_refl eq_refl eq_refl) as (f' & E & Hroot & Hkind & Hiso & Hcwd).
  exists f'. unfold bind, attempt. rewrite E. split; [done|].
  assert (ready ISO9660_DRIVER f' []) as Hready.
  { split; [done| |done|apply canonical_nil]. cbn [fd_ok machine_cd_files via_file_driver].
    rewrite Hiso. exists (MODULE im). destruct Hb as [_ _ _ _ _ Hvol]. split; [done| |done|].
    - intros l n Hdir. apply Hvol. apply (directory_mono _ _ _ _ _) with (2 := Hdir). intros e He.
      cbn in He. by repeat (apply elem_of_cons in He as [->|He]; [by left|]); apply not_elem_of_nil in He.
    - intros g Hg. by apply elem_of_replicate in Hg as [-> _]. }
  split; [done|]. split; [done|]. split; [by rewrite Hiso|].
  intros ds bytes Hds Hne Hps Hfile Hlink. split.
  - exists [], ds, (render ds), 0%nat. split_and!; try done.
    + by destruct (render_nonempty ds) as [r ->].
    + by apply normalized_render.
    + unfold FS_SYMLINK_MAX_DEPTH. lia.
    + constructor.
  - cbn [fr_room machine_cd_reader via_file_reader]. rewrite Hiso. by exists 0%nat.
Qed.

End Boot.

(** ** A machine with a CD image in memory *)

Definition cd_tags : list Z :=
  le32 48 ++ le32 0 ++ le32 3 ++ le32 24 ++ le32 0x10000 ++ le32 0x1A000 ++ cstr "rootfs" ++ [0; 0] ++ le32 0 ++ le32 8.

(** Sector 16 is the volume descriptor, 18 and 19 are those of the volume of [IsoProps]. *)
Definition cd_descriptor : list Z := Iso9660.iso_magic ++ replicate 150 0 ++ cd_record 18 2048 2 [0].
Definition cd_ram : memory := fun a =>
  if a <? 0x10000 then char_at cd_tags (Z.to_nat (a - 0x1000))
  else if a <? 0x10000 + 18 * 2048 then char_at cd_descriptor (Z.to_nat (a - (0x10000 + 16 * 2048)))
  else if a <? 0x10000 + 19 * 2048 then char_at cd_root (Z.to_nat (a - (0x10000 + 18 * 2048)))
  else char_at cd_file (Z.to_nat (a - (0x10000 + 19 * 2048))).

(** The first bytes of a part must not repeat below it. *)
Definition cd_memory : memory := fun a =>
  if (0x1000 <=? a) && (a <? 0x2000) || (0x10000 + 16 * 2048 <=? a) then cd_ram a else 0.

Definition cd_boot : boot_context := BootContext FS_MB2_BOOTLOADER_MAGIC 0x1000 cd_memory 0x400000.
Definition cd_image : module_image := ModuleImage cd_memory 0x10000 (20 * 2048).

Lemma cd_bytes : byte_memory cd_memory.
Proof.
  assert (forall l, forallb (fun b => (0 <=? b) && (b <? 256)) l = true -> forall i, 0 <= char_at l i < 256) as H.
  { intros l Hl i. unfold char_at. destruct (l !! i) as [x|] eqn:E; cbn; [|lia].
    apply list_elem_of_lookup_2, list_elem_of_In in E. apply (proj1 (forallb_forall _ _)) with (x := x) in Hl; [lia|done]. }
  intros a. unfold cd_memory, cd_ram. repeat case_bool; [by apply H..|lia].
Qed.

Definition no_drive : controller drive := None.

Lemma cd_volume : volume_ok (MODULE (C := drive) cd_image) [(18, 2048)].
Proof.
  apply volume_of_records; [cbn; lia|vm_compute; discriminate|vm_compute; reflexivity|].
  intros e He. by apply list_elem_of_singleton in He as ->.
Qed.

Lemma cd_bootable : bootable (C := drive) cd_boot cd_image 18 2048.
Proof.
  split; [exact cd_bytes|reflexivity|cbn; lia|vm_compute; discriminate| |exact cd_volume].
  split; [split; [cbn; lia|vm_compute; split; discriminate]|vm_compute; reflexivity|vm_compute; discriminate
         |vm_compute; reflexivity|vm_compute; reflexivity|done].
Qed.

Lemma boot_from_cd_witness :
  exists f, fs_core_init (Fs None None FS_MEDIA_NONE (machine_start cd_boot no_drive) (Console [] []) []) =
      Some (inr tt, f) /\
    readable ISO9660_DRIVER f (cstr "/a.txt") (cstr "hello").
Proof.
  destruct (boot_from_cd cd_boot cd_image 18 2048 no_drive (Console [] []) [] cd_bootable)
    as (f & E & _ & _ & _ & Hread).
  exists f. split; [exact E|].
  assert (m_iso (store f) = m_iso (store (default f (snd <$> fs_core_init (Fs None None FS_MEDIA_NONE
            (machine_start cd_boot no_drive) (Console [] []) []))))) as Hf by (rewrite E; reflexivity).
  apply (Hread [cstr "a.txt"] (cstr "hello")).
  - split; [repeat constructor; vm_compute; intuition congruence|vm_compute; reflexivity].
  - discriminate.
  - reflexivity.
  - rewrite Hf. vm_compute. reflexivity.
  - unfold link_at. cbn [file_at machine_cd_files via_file_driver]. rewrite Hf. vm_compute. reflexivity.
Defined.

End MachineProps.
