(* ===== verification/Paging.v ===== *)
(** * Page tables

    [arch/x86/paging_x86.c]: the identity mapping of the first 64 MiB and the user
    bits of the pages a program may touch, for i386 ([Paging64] has x86-64).  A C array is the
    function from its indices to its elements.  The addresses of the tables are chosen
    by the linker; [cr3] is the value last written to the register, and the log lines
    are not modelled. *)

From S2P Require Import Prelude Mm.
From stdpp Require Import base list option list_numbers.
From Stdlib Require Import ZArith Lia.
Open Scope Z_scope.

Module Paging.
Import Mm.

Definition MB2_BOOTLOADER_MAGIC : Z := 0x36D76289.
Definition FLOPPY_MAGIC : Z := 0x53314D47.
Definition PAGE_SIZE : Z := 4096.
Definition PAGING_IDENTITY_LIMIT : Z := 0x04000000.

(** Bits of an entry. *)
Definition PRESENT_WRITE : Z := 0x3.
Definition WRITE : Z := 0x2.
Definition USER : Z := 0x4.

Definition upd (a : Z -> Z) (i v : Z) : Z -> Z := fun x => if x =? i then v else a x.

(** ** The boot loader's memory map *)

Definition align8 (value : Z) : Z := Z.land (u32 (value + 7)) (Z.lnot 7).

(** An entry of usable memory; [None] is "the loop is still running". *)
Fixpoint usable_entries (fuel : nat) (byte_at : Z -> Z) (entry_ptr mmap_end entry_size : Z) : option bool :=
  match fuel with
  | O => None
  | S fuel =>
      if entry_ptr + 24 <=? mmap_end then
        if (rd32 byte_at (entry_ptr + 16) =? 1) && negb (rd64 byte_at (entry_ptr + 8) =? 0) then Some true
        else usable_entries fuel byte_at (entry_ptr + entry_size) mmap_end entry_size
      else Some false
  end.

Fixpoint usable_tags (fuel : nat) (byte_at : Z -> Z) (tag stop : Z) : option bool :=
  match fuel with
  | O => None
  | S fuel =>
      if tag <? stop then
        let type := rd32 byte_at tag in
        let size := rd32 byte_at (tag + 4) in
        if type =? 0 then Some false
        else if size <? 8 then Some false
        else if type =? 6 then
          let entry_size := rd32 byte_at (tag + 8) in
          if entry_size <? 24 then Some false
          else
            found ← usable_entries fuel byte_at (tag + 16) (tag + size) entry_size;
            if found : bool then Some true else usable_tags fuel byte_at (tag + align8 size) stop
        else usable_tags fuel byte_at (tag + align8 size) stop
      else Some false
  end.

Definition mb2_has_usable_region (fuel : nat) (byte_at : Z -> Z) (boot_info_ptr : Z) : option bool :=
  if boot_info_ptr =? 0 then Some false
  else usable_tags fuel byte_at (boot_info_ptr + 8) (boot_info_ptr + rd32 byte_at boot_info_ptr).

(** The guard of [paging_core_init]. *)
Definition boot_accepts (fuel : nat) (byte_at : Z -> Z) (boot_magic boot_info_ptr : Z) : option bool :=
  if boot_magic =? MB2_BOOTLOADER_MAGIC then mb2_has_usable_region fuel byte_at boot_info_ptr else Some true.

(** ** i386: a page directory and 16 page tables *)

Module I386.

Definition FRAME : Z := 0xFFFFF000.

Record tables := Tables { g_pd : Z -> Z; g_pt : Z -> Z -> Z }.

Definition set_pd (i v : Z) (t : tables) : tables := Tables (upd (g_pd t) i v) (g_pt t).
Definition set_pt (i j v : Z) (t : tables) : tables :=
  Tables (g_pd t) (fun x => if x =? i then upd (g_pt t i) j v else g_pt t x).

(** One page table: [phys] is the next address to map. *)
Definition fill_table (i : Z) (s : tables * Z) : tables * Z :=
  foldl (fun '(t, phys) j => (set_pt i j (Z.lor (Z.land phys FRAME) PRESENT_WRITE) t, u32 (phys + PAGE_SIZE)))
        s (seqZ 0 1024).

(** [pt_addr] is the address of [g_pt]. *)
Definition build_identity_tables_x86 (pt_addr : Z) (t : tables) : tables :=
  let t := foldl (fun t i => set_pd i 0 t) t (seqZ 0 1024) in
  fst (foldl (fun s i =>
                let '(t, phys) := fill_table i s in
                (set_pd i (Z.lor (Z.land (u32 (pt_addr + i * PAGE_SIZE)) FRAME) PRESENT_WRITE) t, phys))
             (t, 0) (seqZ 0 16)).

Record paging := Paging { g_paging_enabled : Z; tabs : tables; cr3 : Z }.

Definition paging_core_init (fuel : nat) (byte_at : Z -> Z) (pd_addr pt_addr boot_magic boot_info_ptr : Z)
    (p : paging) : option (Z * paging) :=
  if negb (g_paging_enabled p =? 0) then Some (0, p)
  else
    ok ← boot_accepts fuel byte_at boot_magic boot_info_ptr;
    Some (if negb ok then (-1, p)
          else (0, Paging 1 (build_identity_tables_x86 pt_addr (tabs p)) pd_addr)).

(** The page loop; [false] when it stops at an index beyond the tables. *)
Fixpoint user_loop (fuel : nat) (addr stop : Z) (writable : bool) (t : tables) : option (bool * tables) :=
  if negb (addr <? stop) then Some (true, t)
  else match fuel with
       | O => None
       | S fuel =>
           let pd_index := Z.shiftr addr 22 in
           let pt_index := Z.land (Z.shiftr addr 12) 0x3FF in
           if 16 <=? pd_index then Some (false, t)
           else
             let t := set_pd pd_index (Z.lor (g_pd t pd_index) USER) t in
             let entry := Z.lor (g_pt t pd_index pt_index) USER in
             let entry := if writable then Z.lor entry WRITE else Z.land entry (Z.lnot WRITE) in
             user_loop fuel (addr + PAGE_SIZE) stop writable (set_pt pd_index pt_index entry t)
       end.

(** One turn per page of the identity mapping. *)
Definition PAGES : nat := Z.to_nat (PAGING_IDENTITY_LIMIT / PAGE_SIZE).

Definition paging_core_set_user_range (start stop : Z) (writable : bool) (p : paging) : option (Z * paging) :=
  if (stop <=? start) || (PAGING_IDENTITY_LIMIT <? stop) then Some (-1, p)
  else
    let start := Z.land start (Z.lnot (PAGE_SIZE - 1)) in
    let stop := Z.land (u32 (stop + PAGE_SIZE - 1)) (Z.lnot (PAGE_SIZE - 1)) in
    r ← user_loop PAGES start stop writable (tabs p);
    let '(ok, t) := r in
    Some (if ok : bool then 0 else -1, Paging (g_paging_enabled p) t (cr3 p)).

End I386.

End Paging.
