(* ===== verification/Paging64.v ===== *)
(** * Page tables of x86-64

    The 64-bit branch of [arch/x86/paging_x86.c]: four levels, 32 page tables.  The scan
    of the boot loader's memory map and the constants are those of [Paging]. *)

From S2P Require Import Prelude Mm Paging.
From stdpp Require Import base list option list_numbers.
From Stdlib Require Import ZArith Lia.
Import Mm Paging.
Open Scope Z_scope.

Module X64.

Definition FRAME : Z := 0x000FFFFFFFFFF000.

Record tables := Tables { g_pml4 : Z -> Z; g_pdpt : Z -> Z; g_pd : Z -> Z; g_pt : Z -> Z -> Z }.

Definition set_pml4 (i v : Z) (t : tables) : tables := Tables (upd (g_pml4 t) i v) (g_pdpt t) (g_pd t) (g_pt t).
Definition set_pdpt (i v : Z) (t : tables) : tables := Tables (g_pml4 t) (upd (g_pdpt t) i v) (g_pd t) (g_pt t).
Definition set_pd (i v : Z) (t : tables) : tables := Tables (g_pml4 t) (g_pdpt t) (upd (g_pd t) i v) (g_pt t).
Definition set_pt (i j v : Z) (t : tables) : tables :=
  Tables (g_pml4 t) (g_pdpt t) (g_pd t) (fun x => if x =? i then upd (g_pt t i) j v else g_pt t x).

(** The addresses of the four arrays. *)
Record addrs := Addrs { pml4_addr : Z; pdpt_addr : Z; pd_addr : Z; pt_addr : Z }.

Definition entry_to (addr : Z) : Z := Z.lor (Z.land addr FRAME) PRESENT_WRITE.

Definition fill_table (i : Z) (s : tables * Z) : tables * Z :=
  foldl (fun '(t, phys) j => (set_pt i j (entry_to phys) t, u64 (phys + PAGE_SIZE))) s (seqZ 0 512).

Definition build_identity_tables_x64 (a : addrs) (t : tables) : tables :=
  let t := foldl (fun t i => set_pd i 0 (set_pdpt i 0 (set_pml4 i 0 t))) t (seqZ 0 512) in
  let t := fst (foldl (fun s i => fill_table i s) (t, 0) (seqZ 0 32)) in
  let t := foldl (fun t i => set_pd i (entry_to (pt_addr a + i * PAGE_SIZE)) t) t (seqZ 0 32) in
  let t := set_pdpt 0 (entry_to (pd_addr a)) t in
  set_pml4 0 (entry_to (pdpt_addr a)) t.

Record paging := Paging { g_paging_enabled : Z; tabs : tables; cr3 : Z }.

Definition paging_core_init (fuel : nat) (byte_at : Z -> Z) (a : addrs) (boot_magic boot_info_ptr : Z)
    (p : paging) : option (Z * paging) :=
  if negb (g_paging_enabled p =? 0) then Some (0, p)
  else
    ok ← boot_accepts fuel byte_at boot_magic boot_info_ptr;
    Some (if negb ok then (-1, p)
          else (0, Paging 1 (build_identity_tables_x64 a (tabs p)) (pml4_addr a))).

Fixpoint user_loop (fuel : nat) (addr stop : Z) (writable : bool) (t : tables) : option (bool * tables) :=
  if negb (addr <? stop) then Some (true, t)
  else match fuel with
       | O => None
       | S fuel =>
           let pd := Z.shiftr addr 21 in
           let pt := Z.land (Z.shiftr addr 12) 511 in
           if 32 <=? pd then Some (false, t)
           else
             let t := set_pd pd (Z.lor (g_pd t pd) USER) t in
             let t := set_pt pd pt (Z.lor (g_pt t pd pt) USER) t in
             let t := if writable then set_pt pd pt (Z.lor (g_pt t pd pt) WRITE) t else t in
             user_loop fuel (addr + PAGE_SIZE) stop writable t
       end.

Definition PAGES : nat := Z.to_nat (PAGING_IDENTITY_LIMIT / PAGE_SIZE).

Definition paging_core_set_user_range (start stop : Z) (writable : bool) (p : paging) : option (Z * paging) :=
  if (stop <=? start) || (start <? 0x60000) || (PAGING_IDENTITY_LIMIT <? stop) then Some (-1, p)
  else
    let start := Z.land start (Z.lnot (PAGE_SIZE - 1)) in
    let stop := Z.land (u64 (stop + PAGE_SIZE - 1)) (Z.lnot (PAGE_SIZE - 1)) in
    let t := set_pdpt 0 (Z.lor (g_pdpt (tabs p) 0) USER) (set_pml4 0 (Z.lor (g_pml4 (tabs p) 0) USER) (tabs p)) in
    r ← user_loop PAGES start stop writable t;
    let '(ok, t) := r in
    Some (if ok : bool then 0 else -1, Paging (g_paging_enabled p) t (cr3 p)).

End X64.
