(* ===== verification/PagingWalk.v ===== *)
(** * Page tables of i386

    What the processor makes of the tables ([walk]), and that building them and setting
    the permissions of pages keep the identity mapping with the permissions of an
    abstract table of pages.  The lemmas on entries are shared with x86-64. *)

From S2P Require Import Prelude Mm Paging Paging64.
From stdpp Require Import base list option list_numbers.
From Stdlib Require Import ZArith Lia ZifyBool.
Import Paging.
Open Scope Z_scope.

Module PagingWalk.

(** ** Entries *)

Lemma frame_aligned n x :
  12 <= n -> 0 <= x < 2 ^ n -> Z.land (x * 4096) (2 ^ (n + 12) - 4096) = x * 4096.
Proof.
  intros Hn Hx. apply Z.bits_inj'. intros m Hm. rewrite Z.land_spec.
  replace (2 ^ (n + 12) - 4096) with (Z.ones n * 2 ^ 12) by (rewrite Z.ones_equiv, Z.pow_add_r by lia; lia).
  change 4096 with (2 ^ 12). destruct (Z.lt_ge_cases m 12) as [Hlt|Hge].
  - by rewrite !Z.mul_pow2_bits_low.
  - rewrite !Z.mul_pow2_bits by lia. destruct (Z.lt_ge_cases (m - 12) n).
    + by rewrite Z.ones_spec_low, andb_true_r by lia.
    + rewrite (Z.bits_above_log2 x); [done|lia|].
      destruct (decide (x = 0)) as [->|]; [cbn; lia|]. pose proof (proj1 (Z.log2_lt_pow2 x n ltac:(lia)) ltac:(lia)). lia.
Qed.

Lemma frame32_page k : 0 <= k < 2 ^ 20 -> Z.land (k * 4096) I386.FRAME = k * 4096.
Proof. intros. apply (frame_aligned 20); lia. Qed.
Lemma frame64_page k : 0 <= k < 2 ^ 40 -> Z.land (k * 4096) X64.FRAME = k * 4096.
Proof. intros. apply (frame_aligned 40); lia. Qed.

Section Bits.
Variable FRAME : Z.
Hypothesis frame_low : Z.land FRAME 7 = 0.

Lemma frame_lor e f : 0 <= f < 8 -> Z.land (Z.lor e f) FRAME = Z.land e FRAME.
Proof.
  intros Hf. rewrite Z.land_lor_distr_l. replace (Z.land f FRAME) with 0; [by rewrite Z.lor_0_r|].
  replace f with (Z.land f 7) by (change 7 with (Z.ones 3); rewrite Z.land_ones, Z.mod_small by lia; done).
  by rewrite <- Z.land_assoc, (Z.land_comm 7), frame_low, Z.land_0_r.
Qed.

Lemma frame_bit n : 0 <= n < 3 -> Z.testbit FRAME n = false.
Proof.
  intros Hn. assert (Z.testbit (Z.land FRAME 7) n = false) as H by by rewrite frame_low, Z.bits_0.
  rewrite Z.land_spec in H. change 7 with (Z.ones 3) in H.
  by rewrite Z.ones_spec_low, andb_true_r in H by lia.
Qed.

Lemma frame_lnot e : Z.land (Z.land e (Z.lnot WRITE)) FRAME = Z.land e FRAME.
Proof.
  rewrite <- Z.land_assoc. f_equal. apply Z.bits_inj'. intros n Hn.
  rewrite Z.land_spec, Z.lnot_spec by done. change WRITE with (2 ^ 1). rewrite Z.pow2_bits_eqb by lia.
  destruct (Z.eqb_spec 1 n) as [<-|]; [by rewrite frame_bit|done].
Qed.

(** An entry that maps [addr], present and writable. *)
Lemma new_entry addr :
  let e := Z.lor (Z.land addr FRAME) PRESENT_WRITE in
  Z.land e FRAME = Z.land addr FRAME /\ Z.testbit e 0 = true /\ Z.testbit e 1 = true /\ Z.testbit e 2 = false.
Proof.
  cbn zeta. rewrite !Z.lor_spec, !Z.land_spec, !frame_bit by lia. rewrite frame_lor by done.
  rewrite <- Z.land_assoc, Z.land_diag. by rewrite !andb_false_r.
Qed.

End Bits.

Lemma testbit_user e n : 0 <= n -> Z.testbit (Z.lor e USER) n = Z.testbit e n || (n =? 2).
Proof.
  intros Hn. rewrite Z.lor_spec. change USER with (2 ^ 2). rewrite Z.pow2_bits_eqb by lia.
  by rewrite (Z.eqb_sym 2 n).
Qed.

Lemma testbit_write e n : 0 <= n -> Z.testbit (Z.lor e WRITE) n = Z.testbit e n || (n =? 1).
Proof.
  intros Hn. rewrite Z.lor_spec. change WRITE with (2 ^ 1). rewrite Z.pow2_bits_eqb by lia.
  by rewrite (Z.eqb_sym 1 n).
Qed.

Lemma testbit_readonly e n : 0 <= n -> Z.testbit (Z.land e (Z.lnot WRITE)) n = Z.testbit e n && negb (n =? 1).
Proof.
  intros Hn. rewrite Z.land_spec, Z.lnot_spec by done. change WRITE with (2 ^ 1).
  rewrite Z.pow2_bits_eqb by lia. by rewrite (Z.eqb_sym 1 n).
Qed.

Lemma upd_same a i v : upd a i v i = v.
Proof. unfold upd. by rewrite Z.eqb_refl. Qed.
Lemma upd_other a i v x : x <> i -> upd a i v x = a x.
Proof. intros Hx. unfold upd. by destruct (Z.eqb_spec x i). Qed.

(** ** Addresses *)

(** What an access through the tables reaches. *)
Record access := Access { pa : Z; user : bool; writable : bool }.

(** Permissions of the pages: user access, write access. *)
Definition permissions : Type := Z -> bool * bool.

Lemma shiftr_div x n : 0 <= n -> Z.shiftr x n = x / 2 ^ n.
Proof. apply Z.shiftr_div_pow2. Qed.

Lemma index_split va m n : 0 <= m -> 0 <= n -> Z.shiftr va (m + n) = va / 2 ^ m / 2 ^ n /\
  Z.land (Z.shiftr va m) (Z.ones n) = (va / 2 ^ m) mod 2 ^ n.
Proof.
  intros Hm Hn. rewrite !shiftr_div, Z.land_ones by lia. split; [|done].
  rewrite Z.pow_add_r by lia. rewrite Zdiv.Zdiv_Zdiv by lia. done.
Qed.

Lemma page_div k i : 0 <= i < 4096 -> (k * 4096 + i) / 4096 = k.
Proof. intros. rewrite Z.div_add_l, Z.div_small by lia. lia. Qed.

(** ** i386 *)

Section X86.
Variable pt_addr : Z.
Hypothesis pt_aligned : pt_addr mod 4096 = 0.
Hypothesis pt_below : 0 <= pt_addr /\ pt_addr + 16 * 4096 <= 2 ^ 32.
Import I386.

Lemma frame32_low : Z.land FRAME 7 = 0.
Proof. reflexivity. Qed.

(** The two-level walk of the processor for a table in [g_pt]; an entry that points
    elsewhere is not followed. *)
Definition walk (t : tables) (va : Z) : option access :=
  let pde := g_pd t (Z.shiftr va 22) in
  if negb (Z.testbit pde 0) then None
  else
    let i := (Z.land pde FRAME - pt_addr) / 4096 in
    if negb ((Z.land pde FRAME =? pt_addr + i * 4096) && (0 <=? i) && (i <? 16)) then None
    else
      let pte := g_pt t i (Z.land (Z.shiftr va 12) 0x3FF) in
      if negb (Z.testbit pte 0) then None
      else Some (Access (Z.land pte FRAME + va mod 4096) (Z.testbit pde 2 && Z.testbit pte 2)
                        (Z.testbit pde 1 && Z.testbit pte 1)).

(** The tables hold the identity mapping with permissions [perm]. *)
Record represents (t : tables) (perm : permissions) : Prop := {
  rp_pde i : 0 <= i < 16 -> Z.land (g_pd t i) FRAME = pt_addr + i * 4096 /\
    Z.testbit (g_pd t i) 0 = true /\ Z.testbit (g_pd t i) 1 = true;
  rp_none i : 16 <= i < 1024 -> g_pd t i = 0;
  rp_pte k : 0 <= k < 16384 -> let e := g_pt t (k / 1024) (k mod 1024) in
    Z.land e FRAME = k * 4096 /\ Z.testbit e 0 = true /\ perm k = (Z.testbit e 2, Z.testbit e 1);
  rp_user k : 0 <= k < 16384 -> fst (perm k) = true -> Z.testbit (g_pd t (k / 1024)) 2 = true
}.

Lemma represents_ext t perm perm' :
  (forall k, 0 <= k < 16384 -> perm' k = perm k) -> represents t perm -> represents t perm'.
Proof.
  intros He [R1 R2 R3 R4]. split; try done.
  - intros k Hk. rewrite He by done. by apply R3.
  - intros k Hk. rewrite He by done. by apply R4.
Qed.

Lemma walk_represents t perm va :
  represents t perm -> 0 <= va < 2 ^ 32 ->
  walk t va = if va <? PAGING_IDENTITY_LIMIT
              then Some (Access va (fst (perm (va / 4096))) (snd (perm (va / 4096)))) else None.
Proof using pt_aligned pt_below.
  intros [R1 R2 R3 R4] Hva. unfold walk. destruct (index_split va 12 10) as [H1 H2]; [lia..|].
  change (Z.ones 10) with 0x3FF in H2. change (12 + 10) with 22 in H1. rewrite H1, H2.
  change (2 ^ 12) with 4096. change (2 ^ 10) with 1024. set (k := va / 4096).
  assert (0 <= k < 2 ^ 20) as Hk by (subst k; split; [apply Z.div_pos; lia|apply Z.div_lt_upper_bound; lia]).
  pose proof (Z.div_mod k 1024 ltac:(lia)) as Hdm. pose proof (Z.mod_pos_bound k 1024 ltac:(lia)) as Hmb.
  pose proof (Z.div_mod va 4096 ltac:(lia)) as Hva2. fold k in Hva2. pose proof (Z.mod_pos_bound va 4096 ltac:(lia)).
  unfold PAGING_IDENTITY_LIMIT. destruct (Z.ltb_spec va 0x4000000) as [Hlt|Hge].
  - destruct (R1 (k / 1024)) as (F1 & P1 & W1); [lia|]. rewrite P1, F1. cbn [negb].
    replace ((pt_addr + k / 1024 * 4096 - pt_addr) / 4096) with (k / 1024) by (rewrite Z.add_simpl_l, Z.div_mul by lia; done).
    rewrite Z.eqb_refl. destruct (_ && _) eqn:Eb; [|lia]. cbn [negb].
    destruct (R3 k) as (F2 & P2 & Hp); [lia|]. rewrite P2, F2, Hp, W1. cbn [negb fst snd andb].
    do 2 f_equal; [lia|]. pose proof (R4 k ltac:(lia)) as Hu. rewrite Hp in Hu. cbn [fst] in Hu.
    destruct (Z.testbit (g_pt t (k / 1024) (k mod 1024)) 2); [by rewrite Hu|by rewrite andb_false_r].
  - rewrite R2 by lia. done.
Qed.

(** ** Building the tables *)

Lemma set_pt_eq i j v t : g_pt (set_pt i j v t) i j = v.
Proof. cbn. by rewrite Z.eqb_refl, upd_same. Qed.
Lemma set_pt_ne i j v t x y : (x, y) <> (i, j) -> g_pt (set_pt i j v t) x y = g_pt t x y.
Proof.
  intros Hne. cbn. destruct (Z.eqb_spec x i) as [->|]; [|done]. apply upd_other. congruence.
Qed.

Lemma fill_prefix i n t phys :
  (n <= 1024)%nat -> 0 <= phys -> phys + 1024 * 4096 < 2 ^ 32 ->
  let r := foldl (fun '(t, phys) j => (set_pt i j (Z.lor (Z.land phys FRAME) PRESENT_WRITE) t, u32 (phys + PAGE_SIZE)))
             (t, phys) (seqZ 0 (Z.of_nat n)) in
  snd r = phys + Z.of_nat n * 4096 /\ g_pd (fst r) = g_pd t /\
  (forall j, 0 <= j < Z.of_nat n -> g_pt (fst r) i j = Z.lor (Z.land (phys + j * 4096) FRAME) PRESENT_WRITE) /\
  forall x y, x <> i -> g_pt (fst r) x y = g_pt t x y.
Proof.
  intros Hn Hp Hlim r. subst r. induction n as [|n IH].
  { change (Z.of_nat 0) with 0. rewrite seqZ_nil by lia. cbn [foldl fst snd]. split_and!; [lia|done|intros; lia|done]. }
  rewrite Nat2Z.inj_succ, <- Z.add_1_r, seqZ_app, foldl_app by lia. rewrite (seqZ_cons _ 1), (seqZ_nil _ (Z.pred 1)) by lia.
  specialize (IH ltac:(lia)). destruct (foldl _ (t, phys) (seqZ 0 (Z.of_nat n))) as [t1 p1].
  cbn [fst snd] in IH. destruct IH as (-> & Hd & Hin & Hout). cbn [foldl fst snd]. rewrite Z.add_0_l.
  unfold PAGE_SIZE. rewrite u32_small by lia. split_and!.
  - lia.
  - done.
  - intros j Hj. destruct (decide (j = Z.of_nat n)) as [->|Hne]; [apply set_pt_eq|].
    rewrite set_pt_ne by congruence. apply Hin. lia.
  - intros x y Hx. rewrite set_pt_ne by congruence. by apply Hout.
Qed.

Lemma zero_directory t i : 0 <= i < 1024 -> g_pd (foldl (fun t i => set_pd i 0 t) t (seqZ 0 1024)) i = 0.
Proof.
  intros Hi. assert (forall l t, (i ∈ l \/ g_pd t i = 0) -> g_pd (foldl (fun t i => set_pd i 0 t) t l) i = 0) as H.
  { induction l as [|x l IH]; intros t0 Ht; cbn; [by destruct Ht as [Ht|]; [apply not_elem_of_nil in Ht|]|].
    apply IH. cbn. destruct (Z.eqb_spec i x) as [->|Hne]; [right; apply upd_same|].
    rewrite upd_other by done. destruct Ht as [[?|?]%elem_of_cons|?]; [done|by left|by right]. }
  apply H. left. apply elem_of_seqZ. lia.
Qed.

Definition build_step (s : tables * Z) (i : Z) : tables * Z :=
  let '(t, phys) := fill_table i s in
  (set_pd i (Z.lor (Z.land (u32 (pt_addr + i * PAGE_SIZE)) FRAME) PRESENT_WRITE) t, phys).

Lemma build_prefix n t :
  (n <= 16)%nat ->
  let r := foldl build_step (t, 0) (seqZ 0 (Z.of_nat n)) in
  snd r = Z.of_nat n * 1024 * 4096 /\
  (forall i, 0 <= i < Z.of_nat n -> g_pd (fst r) i = Z.lor (Z.land (pt_addr + i * 4096) FRAME) PRESENT_WRITE) /\
  (forall i, Z.of_nat n <= i -> g_pd (fst r) i = g_pd t i) /\
  forall i j, 0 <= i < Z.of_nat n -> 0 <= j < 1024 ->
    g_pt (fst r) i j = Z.lor (Z.land ((i * 1024 + j) * 4096) FRAME) PRESENT_WRITE.
Proof using pt_below.
  intros Hn r. subst r. induction n as [|n IH].
  { change (Z.of_nat 0) with 0. rewrite seqZ_nil by lia. cbn [foldl fst snd]. split_and!; [done|intros; lia|done|intros; lia]. }
  rewrite Nat2Z.inj_succ, <- Z.add_1_r, seqZ_app, foldl_app by lia. rewrite (seqZ_cons _ 1), (seqZ_nil _ (Z.pred 1)) by lia.
  specialize (IH ltac:(lia)). destruct (foldl build_step (t, 0) (seqZ 0 (Z.of_nat n))) as [t1 p1].
  cbn [fst snd] in IH. destruct IH as (-> & Hd & Hdo & Hin). cbn [foldl]. rewrite Z.add_0_l.
  unfold build_step. pose proof (fill_prefix (Z.of_nat n) 1024 t1 (Z.of_nat n * 1024 * 4096)
    ltac:(lia) ltac:(lia) ltac:(lia)) as Hf. unfold fill_table. change (seqZ 0 1024) with (seqZ 0 (Z.of_nat 1024)).
  destruct (foldl _ _ (seqZ 0 (Z.of_nat 1024))) as [t2 p2]. cbn [fst snd] in *. cbv zeta in Hf.
  destruct Hf as (-> & Hpd & Hrow & Hother). unfold PAGE_SIZE. rewrite u32_small by lia. split_and!.
  - lia.
  - intros i Hi. cbn. destruct (decide (i = Z.of_nat n)) as [->|Hne]; [apply upd_same|].
    rewrite upd_other, Hpd by done. apply Hd. lia.
  - intros i Hi. cbn. rewrite upd_other, Hpd by lia. apply Hdo. lia.
  - intros i j Hi Hj. cbn [set_pd g_pt]. destruct (decide (i = Z.of_nat n)) as [->|Hne].
    + rewrite Hrow by lia. do 2 f_equal. lia.
    + rewrite Hother by done. apply Hin; lia.
Qed.

Lemma build_represents t : represents (build_identity_tables_x86 pt_addr t) (fun _ => (false, true)).
Proof using pt_aligned pt_below.
  unfold build_identity_tables_x86. set (t0 := foldl _ t _).
  pose proof (build_prefix 16 t0 ltac:(lia)) as Hb. cbv zeta in Hb. unfold build_step in Hb.
  change (Z.of_nat 16) with 16 in Hb. destruct Hb as (_ & Hd & Hdo & Hin). split.
  - intros i Hi. rewrite Hd by done. destruct (new_entry FRAME frame32_low (pt_addr + i * 4096)) as (-> & -> & -> & _).
    split; [|done]. pose proof (Z.div_mod pt_addr 4096 ltac:(lia)) as Hq. rewrite pt_aligned in Hq.
    replace (pt_addr + i * 4096) with ((pt_addr / 4096 + i) * 4096) by lia. apply frame32_page. lia.
  - intros i Hi. rewrite Hdo by lia. apply zero_directory. lia.
  - intros k Hk. pose proof (Z.div_mod k 1024 ltac:(lia)). pose proof (Z.mod_pos_bound k 1024 ltac:(lia)).
    cbn zeta. rewrite Hin by lia. replace (k / 1024 * 1024 + k mod 1024) with k by lia.
    destruct (new_entry FRAME frame32_low (k * 4096)) as (-> & -> & -> & ->).
    split; [|done]. apply frame32_page. lia.
  - done.
Qed.

(** ** Requests *)

Lemma user_step t perm k (w : bool) :
  represents t perm -> 0 <= k < 16384 ->
  let t1 := set_pd (k / 1024) (Z.lor (g_pd t (k / 1024)) USER) t in
  let entry := Z.lor (g_pt t1 (k / 1024) (k mod 1024)) USER in
  let entry := if w then Z.lor entry WRITE else Z.land entry (Z.lnot WRITE) in
  represents (set_pt (k / 1024) (k mod 1024) entry t1) (fun x => if x =? k then (true, w) else perm x).
Proof.
  intros [R1 R2 R3 R4] Hk t1 entry0 entry. subst t1 entry0.
  pose proof (Z.div_mod k 1024 ltac:(lia)) as Hkd. pose proof (Z.mod_pos_bound k 1024 ltac:(lia)).
  assert (forall i n, 0 <= n -> Z.testbit (upd (g_pd t) (k / 1024) (Z.lor (g_pd t (k / 1024)) USER) i) n =
    Z.testbit (g_pd t i) n || ((i =? k / 1024) && (n =? 2))) as Hbit.
  { intros i n Hn. unfold upd. destruct (Z.eqb_spec i (k / 1024)) as [->|]; [by apply testbit_user|by rewrite orb_false_r]. }
  split; cbn [set_pt set_pd g_pd].
  - intros i Hi. destruct (R1 i Hi) as (F & P & Wr). rewrite !Hbit, P, Wr by lia. split; [|done].
    unfold upd. destruct (Z.eqb_spec i (k / 1024)) as [->|]; [|done]. by rewrite (frame_lor FRAME frame32_low) by done.
  - intros i Hi. rewrite upd_other by lia. by apply R2.
  - intros x Hx. pose proof (Z.div_mod x 1024 ltac:(lia)) as Hxd.
    change (g_pt (set_pt (k / 1024) (k mod 1024) entry (set_pd (k / 1024) (Z.lor (g_pd t (k / 1024)) USER) t)))
      with (g_pt (set_pt (k / 1024) (k mod 1024) entry t)).
    destruct (Z.eqb_spec x k) as [->|Hne].
    + rewrite set_pt_eq. destruct (R3 k Hk) as (F & P & _). cbn zeta. subst entry. cbn [set_pd g_pt].
      destruct w.
      * rewrite (frame_lor FRAME frame32_low), (frame_lor FRAME frame32_low), F by done.
        by rewrite !testbit_write, !testbit_user, P, !orb_true_r by lia.
      * rewrite (frame_lnot FRAME frame32_low), (frame_lor FRAME frame32_low), F by done.
        by rewrite !testbit_readonly, !testbit_user, P, !orb_true_r, !andb_false_r by lia.
    + rewrite set_pt_ne; [by apply R3|]. intros [= E1 E2]. apply Hne. rewrite Hxd, Hkd. congruence.
  - intros x Hx. rewrite Hbit by lia. destruct (Z.eqb_spec x k) as [->|].
    + by rewrite Z.eqb_refl, orb_true_r.
    + intros Hu. by rewrite R4.
Qed.

Lemma user_loop_spec fuel a b (w : bool) t perm :
  represents t perm -> 0 <= a -> a <= b <= 16384 -> b - a <= Z.of_nat fuel ->
  exists t', user_loop fuel (a * 4096) (b * 4096) w t = Some (true, t') /\
    represents t' (fun x => if (a <=? x) && (x <? b) then (true, w) else perm x).
Proof.
  revert a t perm. induction fuel as [|fuel IH]; intros a t perm HR Ha Hb Hf; cbn [user_loop];
    destruct (Z.ltb_spec (a * 4096) (b * 4096)); cbn [negb]; try lia.
  1,3: exists t; split; [done|]; apply (represents_ext t perm); [|done]; intros k Hk; destruct (_ && _) eqn:E; [lia|done].
  destruct (index_split (a * 4096) 12 10) as [H1 H2]; [lia..|]. change (Z.ones 10) with 0x3FF in H2.
  change (12 + 10) with 22 in H1. rewrite H1, H2. change (2 ^ 12) with 4096. change (2 ^ 10) with 1024.
  rewrite Z.div_mul by lia. assert (a / 1024 < 16) by (apply Z.div_lt_upper_bound; lia).
  destruct (Z.leb_spec 16 (a / 1024)); [lia|]. pose proof (user_step t perm a w HR ltac:(lia)) as Hs. cbv zeta in Hs.
  replace (a * 4096 + PAGE_SIZE) with ((a + 1) * 4096) by (unfold PAGE_SIZE; lia).
  destruct (IH (a + 1) _ _ Hs ltac:(lia) ltac:(lia) ltac:(lia)) as (t' & E & HR'). exists t'. split; [done|].
  revert HR'. apply represents_ext. intros k Hk.
  destruct (Z.eqb_spec k a); destruct ((a <=? k) && (k <? b)) eqn:E1, ((a + 1 <=? k) && (k <? b)) eqn:E2; lia || done.
Qed.

End X86.

End PagingWalk.

(** * Page tables of x86-64

    The four-level walk, and the same facts as for i386. *)

Import Paging PagingWalk.

Module PagingX64.
Import X64.

Section X64.
Variable a : addrs.
Hypothesis aligned : pdpt_addr a mod 4096 = 0 /\ pd_addr a mod 4096 = 0 /\ pt_addr a mod 4096 = 0.
Hypothesis below : 0 <= pdpt_addr a < 2 ^ 48 /\ 0 <= pd_addr a < 2 ^ 48 /\ 0 <= pt_addr a /\
  pt_addr a + 32 * 4096 <= 2 ^ 48.

Lemma frame64_low : Z.land FRAME 7 = 0.
Proof. reflexivity. Qed.

(** One level: a present entry that points to [addr]. *)
Definition points_to (e addr : Z) : bool := Z.testbit e 0 && (Z.land e FRAME =? addr).

(** The walk for tables in the arrays of the kernel, for an address of 48 bits. *)
Definition walk (t : tables) (va : Z) : option access :=
  let e4 := g_pml4 t (Z.shiftr va 39) in
  let e3 := g_pdpt t (Z.land (Z.shiftr va 30) 511) in
  let e2 := g_pd t (Z.land (Z.shiftr va 21) 511) in
  let i := (Z.land e2 FRAME - pt_addr a) / 4096 in
  let e1 := g_pt t i (Z.land (Z.shiftr va 12) 511) in
  if points_to e4 (pdpt_addr a) && points_to e3 (pd_addr a) && points_to e2 (pt_addr a + i * 4096)
     && (0 <=? i) && (i <? 32) && Z.testbit e1 0
  then Some (Access (Z.land e1 FRAME + va mod 4096)
               (Z.testbit e4 2 && Z.testbit e3 2 && Z.testbit e2 2 && Z.testbit e1 2)
               (Z.testbit e4 1 && Z.testbit e3 1 && Z.testbit e2 1 && Z.testbit e1 1))
  else None.

(** An upper entry: present, writable, leading to [addr]. *)
Definition leads (e addr : Z) : Prop := Z.land e FRAME = addr /\ Z.testbit e 0 = true /\ Z.testbit e 1 = true.

Record represents (t : tables) (perm : permissions) : Prop := {
  rq_pml4 : leads (g_pml4 t 0) (pdpt_addr a);
  rq_pdpt : leads (g_pdpt t 0) (pd_addr a);
  rq_pde i : 0 <= i < 32 -> leads (g_pd t i) (pt_addr a + i * 4096);
  rq_none i : (0 < i < 512 -> g_pml4 t i = 0 /\ g_pdpt t i = 0) /\ (32 <= i < 512 -> g_pd t i = 0);
  rq_pte k : 0 <= k < 16384 -> let e := g_pt t (k / 512) (k mod 512) in
    Z.land e FRAME = k * 4096 /\ Z.testbit e 0 = true /\ perm k = (Z.testbit e 2, Z.testbit e 1);
  rq_user k : 0 <= k < 16384 -> fst (perm k) = true ->
    Z.testbit (g_pml4 t 0) 2 = true /\ Z.testbit (g_pdpt t 0) 2 = true /\ Z.testbit (g_pd t (k / 512)) 2 = true
}.

Lemma represents_ext64 t perm perm' :
  (forall k, 0 <= k < 16384 -> perm' k = perm k) -> represents t perm -> represents t perm'.
Proof.
  intros He [R1 R2 R3 R4 R5 R6]. split; try done.
  - intros k Hk. rewrite He by done. by apply R5.
  - intros k Hk. rewrite He by done. by apply R6.
Qed.

Lemma leads_points e addr : leads e addr -> points_to e addr = true.
Proof. intros (F & P & _). unfold points_to. by rewrite P, F, Z.eqb_refl. Qed.

Lemma points_zero addr : points_to 0 addr = false.
Proof. reflexivity. Qed.

(** The indices of an address: its page number in base 512. *)
Lemma indices va : 0 <= va < 2 ^ 48 ->
  Z.shiftr va 39 = va / 4096 / 512 / 512 / 512 /\ Z.land (Z.shiftr va 30) 511 = (va / 4096 / 512 / 512) mod 512 /\
  Z.land (Z.shiftr va 21) 511 = (va / 4096 / 512) mod 512 /\ Z.land (Z.shiftr va 12) 511 = (va / 4096) mod 512.
Proof.
  intros Hva. change 511 with (Z.ones 9). rewrite !Z.land_ones by lia. rewrite !shiftr_div by lia.
  rewrite !Zdiv.Zdiv_Zdiv by lia. done.
Qed.

Lemma walk_represents64 t perm va :
  represents t perm -> 0 <= va < 2 ^ 48 ->
  walk t va = if va <? PAGING_IDENTITY_LIMIT
              then Some (Access va (fst (perm (va / 4096))) (snd (perm (va / 4096)))) else None.
Proof using aligned below.
  intros [R1 R2 R3 R4 R5 R6] Hva. unfold walk. destruct (indices va Hva) as (-> & -> & -> & ->).
  set (k := va / 4096). assert (0 <= k) as Hk0 by (apply Z.div_pos; lia).
  pose proof (Z.div_mod va 4096 ltac:(lia)) as Hvm. fold k in Hvm. pose proof (Z.mod_pos_bound va 4096 ltac:(lia)).
  pose proof (Z.div_mod k 512 ltac:(lia)). pose proof (Z.mod_pos_bound k 512 ltac:(lia)).
  pose proof (Z.div_mod (k / 512) 512 ltac:(lia)). pose proof (Z.mod_pos_bound (k / 512) 512 ltac:(lia)).
  pose proof (Z.div_mod (k / 512 / 512) 512 ltac:(lia)). pose proof (Z.mod_pos_bound (k / 512 / 512) 512 ltac:(lia)).
  assert (0 <= k / 512) by (apply Z.div_pos; lia). assert (0 <= k / 512 / 512) by (apply Z.div_pos; lia).
  assert (0 <= k / 512 / 512 / 512) by (apply Z.div_pos; lia).
  unfold PAGING_IDENTITY_LIMIT. destruct (Z.ltb_spec va 0x4000000) as [Hlt|Hge].
  - replace (k / 512 / 512 / 512) with 0 by lia. replace ((k / 512 / 512) mod 512) with 0 by lia.
    replace ((k / 512) mod 512) with (k / 512) by lia.
    rewrite (leads_points _ _ R1), (leads_points _ _ R2). pose proof (R3 (k / 512) ltac:(lia)) as L3.
    destruct L3 as (F3 & P3 & W3). rewrite F3.
    replace ((pt_addr a + k / 512 * 4096 - pt_addr a) / 4096) with (k / 512) by (rewrite Z.add_simpl_l, Z.div_mul by lia; done).
    unfold points_to. rewrite P3, F3, Z.eqb_refl. destruct (R5 k) as (F2 & P2 & Hp); [lia|].
    rewrite P2, F2, Hp, W3. destruct R1 as (_ & _ & ->), R2 as (_ & _ & ->). cbn [andb fst snd].
    rewrite (proj2 (Z.leb_le 0 _)), (proj2 (Z.ltb_lt _ 32)) by lia. cbn [andb].
    do 2 f_equal; [lia|]. pose proof (R6 k ltac:(lia)) as Hu. rewrite Hp in Hu. cbn [fst] in Hu.
    destruct (Z.testbit (g_pt t (k / 512) (k mod 512)) 2); [by destruct (Hu eq_refl) as (-> & -> & ->)|by rewrite andb_false_r].
  - destruct (decide (k / 512 / 512 / 512 = 0)) as [E4|E4].
    + destruct (decide (k / 512 / 512 = 0)) as [E3|E3].
      * replace ((k / 512) mod 512) with (k / 512) by lia. rewrite (proj2 (R4 (k / 512))) by lia.
        rewrite points_zero, andb_false_r. done.
      * rewrite (proj2 (proj1 (R4 ((k / 512 / 512) mod 512)) ltac:(lia))). by rewrite points_zero, andb_false_r.
    + assert (k < 2 ^ 36) by (subst k; apply Z.div_lt_upper_bound; lia).
      assert (k / 512 / 512 / 512 < 512) by (rewrite !Zdiv.Zdiv_Zdiv by lia; apply Z.div_lt_upper_bound; lia).
      rewrite (proj1 (proj1 (R4 (k / 512 / 512 / 512)) ltac:(lia))). by rewrite points_zero.
Qed.

(** ** Building the tables *)

Lemma set_pt_eq64 i j v t : g_pt (set_pt i j v t) i j = v.
Proof. cbn. by rewrite Z.eqb_refl, upd_same. Qed.
Lemma set_pt_ne64 i j v t x y : (x, y) <> (i, j) -> g_pt (set_pt i j v t) x y = g_pt t x y.
Proof. intros Hne. cbn. destruct (Z.eqb_spec x i) as [->|]; [|done]. apply upd_other. congruence. Qed.

(** The arrays above the page tables. *)
Definition same_upper (t t' : tables) : Prop := g_pml4 t' = g_pml4 t /\ g_pdpt t' = g_pdpt t /\ g_pd t' = g_pd t.

Lemma fill_prefix64 i n t phys :
  (n <= 512)%nat -> 0 <= phys -> phys + 512 * 4096 < 2 ^ 64 ->
  let r := foldl (fun '(t, phys) j => (set_pt i j (entry_to phys) t, u64 (phys + PAGE_SIZE)))
             (t, phys) (seqZ 0 (Z.of_nat n)) in
  snd r = phys + Z.of_nat n * 4096 /\ same_upper t (fst r) /\
  (forall j, 0 <= j < Z.of_nat n -> g_pt (fst r) i j = entry_to (phys + j * 4096)) /\
  forall x y, x <> i -> g_pt (fst r) x y = g_pt t x y.
Proof.
  intros Hn Hp Hlim r. subst r. induction n as [|n IH].
  { change (Z.of_nat 0) with 0. rewrite seqZ_nil by lia. cbn [foldl fst snd]. split_and!; [lia|done|intros; lia|done]. }
  rewrite Nat2Z.inj_succ, <- Z.add_1_r, seqZ_app, foldl_app by lia. rewrite (seqZ_cons _ 1), (seqZ_nil _ (Z.pred 1)) by lia.
  specialize (IH ltac:(lia)). destruct (foldl _ (t, phys) (seqZ 0 (Z.of_nat n))) as [t1 p1].
  cbn [fst snd] in IH. destruct IH as (-> & Hd & Hin & Hout). cbn [foldl fst snd]. rewrite Z.add_0_l.
  unfold PAGE_SIZE. rewrite u64_small by lia. split; [lia|]. split; [done|]. split.
  - intros j Hj. destruct (decide (j = Z.of_nat n)) as [->|Hne]; [apply set_pt_eq64|].
    rewrite set_pt_ne64 by congruence. apply Hin. lia.
  - intros x y Hx. rewrite set_pt_ne64 by congruence. by apply Hout.
Qed.

Lemma fill_all n t :
  (n <= 32)%nat ->
  let r := foldl (fun s i => fill_table i s) (t, 0) (seqZ 0 (Z.of_nat n)) in
  snd r = Z.of_nat n * 512 * 4096 /\ same_upper t (fst r) /\
  forall i j, 0 <= i < Z.of_nat n -> 0 <= j < 512 -> g_pt (fst r) i j = entry_to ((i * 512 + j) * 4096).
Proof.
  intros Hn r. subst r. induction n as [|n IH].
  { change (Z.of_nat 0) with 0. rewrite seqZ_nil by lia. cbn [foldl fst snd]. split_and!; [done|done|intros; lia]. }
  rewrite Nat2Z.inj_succ, <- Z.add_1_r, seqZ_app, foldl_app by lia. rewrite (seqZ_cons _ 1), (seqZ_nil _ (Z.pred 1)) by lia.
  specialize (IH ltac:(lia)). destruct (foldl _ (t, 0) (seqZ 0 (Z.of_nat n))) as [t1 p1].
  cbn [fst snd] in IH. destruct IH as (-> & (U1 & U2 & U3) & Hin). cbn [foldl]. rewrite Z.add_0_l.
  pose proof (fill_prefix64 (Z.of_nat n) 512 t1 (Z.of_nat n * 512 * 4096) ltac:(lia) ltac:(lia) ltac:(lia)) as Hf.
  unfold fill_table. change (seqZ 0 512) with (seqZ 0 (Z.of_nat 512)).
  destruct (foldl _ _ (seqZ 0 (Z.of_nat 512))) as [t2 p2]. cbv zeta in Hf. cbn [fst snd] in *.
  destruct Hf as (-> & (V1 & V2 & V3) & Hrow & Hother). split; [lia|].
  split; [split_and!; congruence|]. intros i j Hi Hj. destruct (decide (i = Z.of_nat n)) as [->|Hne].
  - rewrite Hrow by lia. f_equal. lia.
  - rewrite Hother by done. apply Hin; lia.
Qed.

Lemma zero_upper t i : 0 <= i < 512 ->
  let r := foldl (fun t i => set_pd i 0 (set_pdpt i 0 (set_pml4 i 0 t))) t (seqZ 0 512) in
  g_pml4 r i = 0 /\ g_pdpt r i = 0 /\ g_pd r i = 0.
Proof.
  intros Hi r. subst r. set (f := fun (t : tables) i => _).
  assert (forall l t, (i ∈ l \/ (g_pml4 t i = 0 /\ g_pdpt t i = 0 /\ g_pd t i = 0)) ->
    g_pml4 (foldl f t l) i = 0 /\ g_pdpt (foldl f t l) i = 0 /\ g_pd (foldl f t l) i = 0) as H.
  { induction l as [|x l IH]; intros t0 Ht; cbn [foldl]; [by destruct Ht as [Ht|]; [apply not_elem_of_nil in Ht|]|].
    apply IH. subst f. cbn. destruct (decide (i = x)) as [->|Hne]; [right; by rewrite !upd_same|].
    rewrite !upd_other by done. destruct Ht as [[?|?]%elem_of_cons|?]; [done|by left|by right]. }
  apply H. left. apply elem_of_seqZ. lia.
Qed.

Lemma link_tables n t :
  (n <= 32)%nat ->
  let r := foldl (fun t i => set_pd i (entry_to (pt_addr a + i * PAGE_SIZE)) t) t (seqZ 0 (Z.of_nat n)) in
  g_pml4 r = g_pml4 t /\ g_pdpt r = g_pdpt t /\ g_pt r = g_pt t /\
  (forall i, 0 <= i < Z.of_nat n -> g_pd r i = entry_to (pt_addr a + i * 4096)) /\
  forall i, Z.of_nat n <= i -> g_pd r i = g_pd t i.
Proof.
  intros Hn r. subst r. induction n as [|n IH].
  { change (Z.of_nat 0) with 0. rewrite seqZ_nil by lia. cbn [foldl]. split_and!; try done. intros; lia. }
  rewrite Nat2Z.inj_succ, <- Z.add_1_r, seqZ_app, foldl_app by lia. rewrite (seqZ_cons _ 1), (seqZ_nil _ (Z.pred 1)) by lia.
  specialize (IH ltac:(lia)). destruct IH as (E1 & E2 & E3 & Hin & Hout). cbn [foldl set_pd g_pml4 g_pdpt g_pt g_pd].
  rewrite Z.add_0_l. split_and!; try done.
  - intros i Hi. destruct (decide (i = Z.of_nat n)) as [->|Hne]; [apply upd_same|].
    rewrite upd_other by done. apply Hin. lia.
  - intros i Hi. rewrite upd_other by lia. apply Hout. lia.
Qed.

Lemma entry_leads addr : addr mod 4096 = 0 -> 0 <= addr < 2 ^ 48 ->
  leads (entry_to addr) addr /\ Z.testbit (entry_to addr) 2 = false.
Proof.
  intros Ha Hb. unfold leads, entry_to. destruct (new_entry FRAME frame64_low addr) as (-> & -> & -> & ->).
  split; [|done]. split; [|done]. pose proof (Z.div_mod addr 4096 ltac:(lia)) as Hq. rewrite Ha in Hq.
  replace addr with (addr / 4096 * 4096) by lia. apply frame64_page. lia.
Qed.

(** The parts together: zeroed upper levels, filled page tables, linked directory. *)
Lemma parts_represent t0 t1 t2 :
  (forall i, 0 <= i < 512 -> g_pml4 t0 i = 0 /\ g_pdpt t0 i = 0 /\ g_pd t0 i = 0) ->
  same_upper t0 t1 ->
  (forall i j, 0 <= i < 32 -> 0 <= j < 512 -> g_pt t1 i j = entry_to ((i * 512 + j) * 4096)) ->
  g_pml4 t2 = g_pml4 t1 -> g_pdpt t2 = g_pdpt t1 -> g_pt t2 = g_pt t1 ->
  (forall i, 0 <= i < 32 -> g_pd t2 i = entry_to (pt_addr a + i * 4096)) ->
  (forall i, 32 <= i -> g_pd t2 i = g_pd t1 i) ->
  represents (set_pml4 0 (entry_to (pdpt_addr a)) (set_pdpt 0 (entry_to (pd_addr a)) t2)) (fun _ => (false, true)).
Proof using aligned below.
  intros Hz (U1 & U2 & U3) Hpt L1 L2 L3 Hpd Hpd'.
  destruct aligned as (A1 & A2 & A3), below as (B1 & B2 & B3 & B4).
  split; cbn [set_pml4 set_pdpt g_pml4 g_pdpt g_pd g_pt].
  - rewrite upd_same. by apply entry_leads.
  - rewrite upd_same. by apply entry_leads.
  - intros i Hi. rewrite Hpd by done. apply entry_leads; [|lia].
    by rewrite Z.mod_add by lia.
  - intros i. split; intros Hi.
    + rewrite !upd_other by lia. rewrite L1, L2, U1, U2. by destruct (Hz i ltac:(lia)) as (-> & -> & _).
    + rewrite Hpd', U3 by lia. by destruct (Hz i ltac:(lia)) as (_ & _ & ->).
  - intros k Hk. pose proof (Z.div_mod k 512 ltac:(lia)). pose proof (Z.mod_pos_bound k 512 ltac:(lia)).
    cbn zeta. rewrite L3, Hpt by lia. replace (k / 512 * 512 + k mod 512) with k by lia.
    destruct (entry_leads (k * 4096)) as [(-> & -> & ->) ->]; [by rewrite Z.mod_mul by lia|lia|done].
  - done.
Qed.

Lemma build_represents64 t : represents (build_identity_tables_x64 a t) (fun _ => (false, true)).
Proof using aligned below.
  unfold build_identity_tables_x64. cbv zeta. pose proof (zero_upper t) as Hz. cbv zeta in Hz. revert Hz.
  generalize (foldl (fun t i => set_pd i 0 (set_pdpt i 0 (set_pml4 i 0 t))) t (seqZ 0 512)). intros t0 Hz.
  pose proof (fill_all 32 t0 ltac:(lia)) as Hf. cbv zeta in Hf. change (Z.of_nat 32) with 32 in Hf. revert Hf.
  generalize (fst (foldl (fun s i => fill_table i s) (t0, 0) (seqZ 0 32))). intros t1 (_ & Hu & Hpt).
  pose proof (link_tables 32 t1 ltac:(lia)) as Hl. cbv zeta in Hl. change (Z.of_nat 32) with 32 in Hl. revert Hl.
  generalize (foldl (fun t i => set_pd i (entry_to (pt_addr a + i * PAGE_SIZE)) t) t1 (seqZ 0 32)).
  intros t2 (L1 & L2 & L3 & Hpd & Hpd'). by apply (parts_represent t0 t1 t2).
Qed.

(** ** Requests *)

Lemma user_step64 t perm k (w : bool) :
  represents t perm -> 0 <= k < 16384 -> Z.testbit (g_pml4 t 0) 2 = true -> Z.testbit (g_pdpt t 0) 2 = true ->
  let t1 := set_pd (k / 512) (Z.lor (g_pd t (k / 512)) USER) t in
  let t2 := set_pt (k / 512) (k mod 512) (Z.lor (g_pt t1 (k / 512) (k mod 512)) USER) t1 in
  let t3 := if w then set_pt (k / 512) (k mod 512) (Z.lor (g_pt t2 (k / 512) (k mod 512)) WRITE) t2 else t2 in
  represents t3 (fun x => if x =? k then (true, w || snd (perm k)) else perm x) /\
  g_pml4 t3 = g_pml4 t /\ g_pdpt t3 = g_pdpt t.
Proof.
  intros [R1 R2 R3 R4 R5 R6] Hk Hu4 Hu3 t1 t2 t3.
  pose proof (Z.div_mod k 512 ltac:(lia)) as Hkd. pose proof (Z.mod_pos_bound k 512 ltac:(lia)).
  assert (g_pml4 t3 = g_pml4 t /\ g_pdpt t3 = g_pdpt t /\
          g_pd t3 = upd (g_pd t) (k / 512) (Z.lor (g_pd t (k / 512)) USER)) as (E4 & E3 & E2) by (subst t3; by destruct w).
  assert (forall x y, (x, y) <> (k / 512, k mod 512) -> g_pt t3 x y = g_pt t x y) as Hother.
  { intros x y Hne. subst t3. destruct w; subst t2; by rewrite ?set_pt_ne64. }
  assert (g_pt t3 (k / 512) (k mod 512) =
    let e := Z.lor (g_pt t (k / 512) (k mod 512)) USER in if w then Z.lor e WRITE else e) as Hself.
  { subst t3. destruct w; subst t2; by rewrite ?set_pt_eq64. }
  split; [|done]. split; rewrite ?E4, ?E3, ?E2.
  - done.
  - done.
  - intros i Hi. destruct (R3 i Hi) as (F & P & Wr). unfold upd, leads. destruct (Z.eqb_spec i (k / 512)) as [->|]; [|done].
    rewrite (frame_lor FRAME frame64_low) by done. by rewrite !testbit_user, P, Wr by lia.
  - intros i. split; [apply R4|]. intros Hi. rewrite upd_other by lia. by apply R4.
  - intros x Hx. pose proof (Z.div_mod x 512 ltac:(lia)) as Hxd. destruct (Z.eqb_spec x k) as [->|Hne].
    + cbn zeta. rewrite Hself. destruct (R5 k Hk) as (F & P & Hp). cbn zeta in F, P, Hp. rewrite Hp. cbn [snd].
      destruct w; cbn [orb].
      * rewrite (frame_lor FRAME frame64_low), (frame_lor FRAME frame64_low), F by done.
        by rewrite !testbit_write, !testbit_user, P, !orb_true_r by lia.
      * rewrite (frame_lor FRAME frame64_low), F by done. rewrite !testbit_user, P by lia. cbn. by rewrite orb_true_r, orb_false_r.
    + cbn zeta. rewrite Hother; [by apply R5|]. intros [= E1 E2']. apply Hne. rewrite Hxd, Hkd. congruence.
  - intros x Hx. destruct (Z.eqb_spec x k) as [->|Hne].
    + rewrite upd_same, testbit_user, orb_true_r by lia. done.
    + intros Hu. destruct (R6 x Hx Hu) as (H1 & H2 & H3). split_and!; try done.
      unfold upd. destruct (Z.eqb_spec (x / 512) (k / 512)) as [<-|]; [|done]. by rewrite testbit_user, H3 by lia.
Qed.

Lemma user_loop_spec64 fuel p b (w : bool) t perm :
  represents t perm -> Z.testbit (g_pml4 t 0) 2 = true -> Z.testbit (g_pdpt t 0) 2 = true ->
  0 <= p -> p <= b <= 16384 -> b - p <= Z.of_nat fuel ->
  exists t', user_loop fuel (p * 4096) (b * 4096) w t = Some (true, t') /\
    represents t' (fun x => if (p <=? x) && (x <? b) then (true, w || snd (perm x)) else perm x).
Proof.
  revert p t perm. induction fuel as [|fuel IH]; intros p t perm HR H4 H3 Hp Hb Hf; cbn [user_loop];
    destruct (Z.ltb_spec (p * 4096) (b * 4096)); cbn [negb]; try lia.
  1,3: exists t; split; [done|]; apply (represents_ext64 t perm); [|done]; intros k Hk; destruct (_ && _) eqn:E; [lia|done].
  destruct (index_split (p * 4096) 12 9) as [H1 H2]; [lia..|]. change (Z.ones 9) with 511 in H2.
  change (12 + 9) with 21 in H1. rewrite H1, H2. change (2 ^ 12) with 4096. change (2 ^ 9) with 512.
  rewrite Z.div_mul by lia. assert (p / 512 < 32) by (apply Z.div_lt_upper_bound; lia).
  destruct (Z.leb_spec 32 (p / 512)); [lia|].
  pose proof (user_step64 t perm p w HR ltac:(lia) H4 H3) as Hs. cbv zeta in Hs. destruct Hs as (Hs & E4 & E3).
  replace (p * 4096 + PAGE_SIZE) with ((p + 1) * 4096) by (unfold PAGE_SIZE; lia).
  destruct (IH (p + 1) _ _ Hs ltac:(by rewrite E4) ltac:(by rewrite E3) ltac:(lia) ltac:(lia) ltac:(lia)) as (t' & E & HR').
  exists t'. split; [done|]. revert HR'. apply represents_ext64. intros k Hk.
  destruct (Z.eqb_spec k p) as [->|];
    destruct ((p <=? _) && (_ <? b)) eqn:X1; destruct ((p + 1 <=? _) && (_ <? b)) eqn:X2; lia || done.
Qed.

Lemma upper_user t perm :
  represents t perm ->
  let t' := set_pdpt 0 (Z.lor (g_pdpt t 0) USER) (set_pml4 0 (Z.lor (g_pml4 t 0) USER) t) in
  represents t' perm /\ Z.testbit (g_pml4 t' 0) 2 = true /\ Z.testbit (g_pdpt t' 0) 2 = true.
Proof.
  intros [R1 R2 R3 R4 R5 R6] t'. subst t'. cbn [set_pdpt set_pml4 g_pml4 g_pdpt g_pd g_pt].
  rewrite !upd_same, !testbit_user, !orb_true_r by lia. split; [|done].
  split; cbn [set_pdpt set_pml4 g_pml4 g_pdpt g_pd g_pt]; try done; rewrite ?upd_same.
  - destruct R1 as (F & P & Wr). unfold leads. rewrite (frame_lor FRAME frame64_low) by done. by rewrite !testbit_user, P, Wr by lia.
  - destruct R2 as (F & P & Wr). unfold leads. rewrite (frame_lor FRAME frame64_low) by done. by rewrite !testbit_user, P, Wr by lia.
  - intros i. split; [|apply R4]. intros Hi. rewrite !upd_other by lia. by apply R4.
  - intros k Hk Hu. rewrite !testbit_user, !orb_true_r by lia. by destruct (R6 k Hk Hu) as (_ & _ & ->).
Qed.

End X64.

End PagingX64.
