(* ===== verification/PagingProps.v ===== *)
(** * The promises of the page tables

    After start-up and any sequence of requests the address space is the identity on
    the first 64 MiB, with the permissions the requests asked for. *)

From S2P Require Import Prelude Mm Paging Paging64 PagingWalk.
From stdpp Require Import base list option list_numbers.
From Stdlib Require Import ZArith Lia ZifyBool.
Import Paging PagingWalk.
Open Scope Z_scope.

Module PagingProps.

(** A range of addresses and whether it may be written. *)
Definition request : Type := Z * Z * bool.

Definition covers (r : request) (k : Z) : bool := (r.1.1 / 4096 <=? k) && (k <? (r.1.2 + 4095) / 4096).

(** The pages of the abstract address space; no page is open to user programs. *)
Definition closed : permissions := fun _ => (false, true).

Lemma align_down x : Z.land x (Z.lnot (PAGE_SIZE - 1)) = x / 4096 * 4096.
Proof.
  change (PAGE_SIZE - 1) with (Z.ones 12). rewrite land_lnot_ones by lia. change (2 ^ 12) with 4096.
  pose proof (Z.div_mod x 4096 ltac:(lia)). lia.
Qed.

Lemma page_bounds s e : 0 <= s -> s < e -> e <= PAGING_IDENTITY_LIMIT ->
  0 <= s / 4096 /\ s / 4096 <= (e + 4095) / 4096 <= 16384.
Proof.
  unfold PAGING_IDENTITY_LIMIT. intros Hs Hse He. split; [apply Z.div_pos; lia|]. split.
  - apply Z.div_le_mono; lia.
  - apply Z.lt_succ_r, Z.div_lt_upper_bound; lia.
Qed.

(** ** i386 *)

Section I386.
Variable pt_addr : Z.
Hypothesis pt_aligned : pt_addr mod 4096 = 0.
Hypothesis pt_below : 0 <= pt_addr /\ pt_addr + 16 * 4096 <= 2 ^ 32.

Definition granted32 (r : request) : bool := (r.1.1 <? r.1.2) && (r.1.2 <=? PAGING_IDENTITY_LIMIT).

(** A granted request opens its pages to user programs, with the access it names. *)
Definition grant32 (perm : permissions) (r : request) : permissions := fun k =>
  if granted32 r && covers r k then (true, r.2) else perm k.

Fixpoint requests32 (rs : list request) (p : I386.paging) : option (list Z * I386.paging) :=
  match rs with
  | [] => Some ([], p)
  | r :: rs =>
      x ← I386.paging_core_set_user_range r.1.1 r.1.2 r.2 p;
      y ← requests32 rs x.2;
      Some (x.1 :: y.1, y.2)
  end.

Lemma set_user_range32 p perm s e w :
  represents pt_addr (I386.tabs p) perm -> 0 <= s ->
  exists p', I386.paging_core_set_user_range s e w p = Some (if granted32 (s, e, w) then 0 else -1, p') /\
    represents pt_addr (I386.tabs p') (grant32 perm (s, e, w)).
Proof using pt_aligned pt_below.
  intros HR Hs. unfold I386.paging_core_set_user_range, grant32, granted32. cbn [fst snd].
  destruct (Z.leb_spec e s), (Z.ltb_spec PAGING_IDENTITY_LIMIT e), (Z.ltb_spec s e), (Z.leb_spec e PAGING_IDENTITY_LIMIT);
    try lia; cbn [orb andb]; try by exists p.
  destruct (page_bounds s e) as [Hb1 Hb2]; [lia..|].
  rewrite !align_down, u32_small by (unfold PAGING_IDENTITY_LIMIT, PAGE_SIZE in *; lia).
  replace (e + PAGE_SIZE - 1) with (e + 4095) by (unfold PAGE_SIZE; lia).
  destruct (user_loop_spec pt_addr I386.PAGES (s / 4096) ((e + 4095) / 4096) w (I386.tabs p) perm HR Hb1 Hb2)
    as (t' & -> & HR'); [change (Z.of_nat I386.PAGES) with 16384; lia|].
  eexists. split; [done|]. done.
Qed.

Lemma requests32_spec rs p perm :
  represents pt_addr (I386.tabs p) perm -> Forall (fun r : request => 0 <= r.1.1) rs ->
  exists p', requests32 rs p = Some ((fun r => if granted32 r then 0 else -1) <$> rs, p') /\
    represents pt_addr (I386.tabs p') (foldl grant32 perm rs).
Proof using pt_aligned pt_below.
  revert p perm. induction rs as [|[[s e] w] rs IH]; intros p perm HR Hrs; [by exists p|].
  apply Forall_cons in Hrs as [Hs Hrs]. destruct (set_user_range32 p perm s e w HR Hs) as (p1 & E & HR1).
  destruct (IH p1 _ HR1 Hrs) as (p2 & E2 & HR2). exists p2. cbn [requests32 fst snd]. rewrite E. cbn.
  by rewrite E2.
Qed.

(** C16: The i386 page tables implement an abstract table of page permissions. When the boot information is
    accepted, [paging_core_init] succeeds and, after any sequence of calls of
    [paging_core_set_user_range], the processor's walk of the tables maps every address below 64 MiB to
    itself and nothing above; a page is open to user programs exactly when a granted request covered it,
    with the write access of the last such request; a call succeeds exactly when its range is not empty and
    ends below the limit, and otherwise changes nothing. *)
Theorem i386_paging_refines fuel byte_at pd_addr magic info rs p :
  I386.g_paging_enabled p = 0 -> boot_accepts fuel byte_at magic info = Some true ->
  Forall (fun r : request => 0 <= r.1.1) rs ->
  exists p1 p2, I386.paging_core_init fuel byte_at pd_addr pt_addr magic info p = Some (0, p1) /\
    I386.g_paging_enabled p1 = 1 /\ I386.cr3 p1 = pd_addr /\
    requests32 rs p1 = Some ((fun r => if granted32 r then 0 else -1) <$> rs, p2) /\
    forall va, 0 <= va < 2 ^ 32 ->
      walk pt_addr (I386.tabs p2) va =
        if va <? PAGING_IDENTITY_LIMIT
        then let perm := foldl grant32 closed rs in
             Some (Access va (fst (perm (va / 4096))) (snd (perm (va / 4096))))
        else None.
Proof using pt_aligned pt_below.
  intros He Hb Hrs. unfold I386.paging_core_init. rewrite He, Hb. cbn [Z.eqb negb mbind option_bind].
  set (p1 := I386.Paging _ _ _).
  destruct (requests32_spec rs p1 closed (build_represents pt_addr pt_aligned pt_below _) Hrs) as (p2 & E & HR).
  exists p1, p2. split_and!; try done. intros va Hva. by apply walk_represents.
Qed.

End I386.

(** ** x86-64 *)

Section X64.
Variable a : X64.addrs.
Hypothesis aligned : X64.pdpt_addr a mod 4096 = 0 /\ X64.pd_addr a mod 4096 = 0 /\ X64.pt_addr a mod 4096 = 0.
Hypothesis below : 0 <= X64.pdpt_addr a < 2 ^ 48 /\ 0 <= X64.pd_addr a < 2 ^ 48 /\ 0 <= X64.pt_addr a /\
  X64.pt_addr a + 32 * 4096 <= 2 ^ 48.

Definition granted64 (r : request) : bool :=
  (r.1.1 <? r.1.2) && (0x60000 <=? r.1.1) && (r.1.2 <=? PAGING_IDENTITY_LIMIT).

(** A granted request opens its pages; write access is only ever added. *)
Definition grant64 (perm : permissions) (r : request) : permissions := fun k =>
  if granted64 r && covers r k then (true, r.2 || snd (perm k)) else perm k.

Fixpoint requests64 (rs : list request) (p : X64.paging) : option (list Z * X64.paging) :=
  match rs with
  | [] => Some ([], p)
  | r :: rs =>
      x ← X64.paging_core_set_user_range r.1.1 r.1.2 r.2 p;
      y ← requests64 rs x.2;
      Some (x.1 :: y.1, y.2)
  end.

Lemma set_user_range64 p perm s e w :
  PagingX64.represents a (X64.tabs p) perm -> 0 <= s ->
  exists p', X64.paging_core_set_user_range s e w p = Some (if granted64 (s, e, w) then 0 else -1, p') /\
    PagingX64.represents a (X64.tabs p') (grant64 perm (s, e, w)).
Proof using aligned below.
  intros HR Hs. unfold X64.paging_core_set_user_range, grant64, granted64. cbn [fst snd].
  destruct (Z.leb_spec e s), (Z.ltb_spec s 0x60000), (Z.ltb_spec PAGING_IDENTITY_LIMIT e), (Z.ltb_spec s e),
    (Z.leb_spec 0x60000 s), (Z.leb_spec e PAGING_IDENTITY_LIMIT); try lia; cbn [orb andb]; try by exists p.
  destruct (page_bounds s e) as [Hb1 Hb2]; [lia..|].
  rewrite !align_down, u64_small by (unfold PAGING_IDENTITY_LIMIT, PAGE_SIZE in *; lia).
  replace (e + PAGE_SIZE - 1) with (e + 4095) by (unfold PAGE_SIZE; lia).
  destruct (PagingX64.upper_user a (X64.tabs p) perm HR) as (HR0 & U4 & U3).
  destruct (PagingX64.user_loop_spec64 a X64.PAGES (s / 4096) ((e + 4095) / 4096) w _ perm HR0 U4 U3 Hb1 Hb2)
    as (t' & -> & HR'); [change (Z.of_nat X64.PAGES) with 16384; lia|].
  eexists. split; [done|]. done.
Qed.

Lemma requests64_spec rs p perm :
  PagingX64.represents a (X64.tabs p) perm -> Forall (fun r : request => 0 <= r.1.1) rs ->
  exists p', requests64 rs p = Some ((fun r => if granted64 r then 0 else -1) <$> rs, p') /\
    PagingX64.represents a (X64.tabs p') (foldl grant64 perm rs).
Proof using aligned below.
  revert p perm. induction rs as [|[[s e] w] rs IH]; intros p perm HR Hrs; [by exists p|].
  apply Forall_cons in Hrs as [Hs Hrs]. destruct (set_user_range64 p perm s e w HR Hs) as (p1 & E & HR1).
  destruct (IH p1 _ HR1 Hrs) as (p2 & E2 & HR2). exists p2. cbn [requests64 fst snd]. rewrite E. cbn.
  by rewrite E2.
Qed.

Lemma requests64_only_add rs perm k : snd (perm k) = true -> snd (foldl grant64 perm rs k) = true.
Proof.
  revert perm. induction rs as [|r rs IH]; intros perm Hp; [done|]. apply IH. unfold grant64.
  destruct (_ && _); [|done]. cbn [snd]. by rewrite Hp, orb_true_r.
Qed.

(** On x86-64 a request for a read-only range is granted but has no effect on write access. After
    start-up and any sequence of requests the walk of the tables still maps every address below 64 MiB to
    itself and nothing above, pages are open to user programs exactly where a granted request covered
    them, but every page of the 64 MiB is writable: whatever the requests said, the read-only segments of a
    program can be written by it. *)
Theorem x64_read_only_ignored fuel byte_at magic info rs p :
  X64.g_paging_enabled p = 0 -> boot_accepts fuel byte_at magic info = Some true ->
  Forall (fun r : request => 0 <= r.1.1) rs ->
  exists p1 p2, X64.paging_core_init fuel byte_at a magic info p = Some (0, p1) /\
    requests64 rs p1 = Some ((fun r => if granted64 r then 0 else -1) <$> rs, p2) /\
    forall va, 0 <= va < 2 ^ 48 ->
      PagingX64.walk a (X64.tabs p2) va =
        if va <? PAGING_IDENTITY_LIMIT
        then Some (Access va (existsb (fun r => granted64 r && covers r (va / 4096)) rs) true)
        else None.
Proof using aligned below.
  intros He Hb Hrs. unfold X64.paging_core_init. rewrite He, Hb. cbn [Z.eqb negb mbind option_bind].
  set (p1 := X64.Paging _ _ _).
  destruct (requests64_spec rs p1 closed (PagingX64.build_represents64 a aligned below _) Hrs) as (p2 & E & HR).
  exists p1, p2. split_and!; try done. intros va Hva. rewrite (PagingX64.walk_represents64 a aligned below _ _ va HR Hva).
  destruct (va <? PAGING_IDENTITY_LIMIT); [|done]. do 2 f_equal; [|by apply requests64_only_add].
  assert (forall perm, fst (foldl grant64 perm rs (va / 4096)) =
    existsb (fun r => granted64 r && covers r (va / 4096)) rs || fst (perm (va / 4096))) as H.
  { clear. induction rs as [|r rs IH]; intros perm; [done|]. cbn [foldl existsb]. rewrite IH. unfold grant64.
    destruct (granted64 r && covers r (va / 4096)); cbn [fst orb]; [by rewrite orb_true_r|done]. }
  rewrite H. by rewrite orb_false_r.
Qed.

End X64.

(** ** Machines booted from floppy *)

Lemma i386_paging_refines_witness :
  exists p1 p2, I386.paging_core_init 0 (fun _ => 0) 0x200000 0x201000 FLOPPY_MAGIC 0
      (I386.Paging 0 (I386.Tables (fun _ => 0) (fun _ _ => 0)) 0) = Some (0, p1) /\
    requests32 [(0x400000, 0x401000, true); (0x400800, 0x400801, false)] p1 = Some ([0; 0], p2) /\
    walk 0x201000 (I386.tabs p2) 0x400123 = Some (Access 0x400123 true false) /\
    walk 0x201000 (I386.tabs p2) 0x401123 = Some (Access 0x401123 false true).
Proof.
  destruct (i386_paging_refines 0x201000 eq_refl ltac:(lia) 0 (fun _ => 0) 0x200000 FLOPPY_MAGIC 0
    [(0x400000, 0x401000, true); (0x400800, 0x400801, false)]
    (I386.Paging 0 (I386.Tables (fun _ => 0) (fun _ _ => 0)) 0) eq_refl eq_refl) as (p1 & p2 & E1 & _ & _ & E2 & Hw).
  - repeat constructor; cbn; lia.
  - exists p1, p2. split; [exact E1|]. split; [exact E2|]. rewrite !Hw by lia. split; reflexivity.
Defined.

Lemma x64_read_only_ignored_witness :
  exists p1 p2, X64.paging_core_init 0 (fun _ => 0) (X64.Addrs 0x200000 0x201000 0x202000 0x203000) FLOPPY_MAGIC 0
      (X64.Paging 0 (X64.Tables (fun _ => 0) (fun _ => 0) (fun _ => 0) (fun _ _ => 0)) 0) = Some (0, p1) /\
    requests64 [(0x400000, 0x401000, false)] p1 = Some ([0], p2) /\
    PagingX64.walk (X64.Addrs 0x200000 0x201000 0x202000 0x203000) (X64.tabs p2) 0x400123 =
      Some (Access 0x400123 true true).
Proof.
  destruct (x64_read_only_ignored (X64.Addrs 0x200000 0x201000 0x202000 0x203000) ltac:(done) ltac:(cbn; lia)
    0 (fun _ => 0) FLOPPY_MAGIC 0 [(0x400000, 0x401000, false)]
    (X64.Paging 0 (X64.Tables (fun _ => 0) (fun _ => 0) (fun _ => 0) (fun _ _ => 0)) 0) eq_refl eq_refl)
    as (p1 & p2 & E1 & E2 & Hw).
  - repeat constructor; cbn; lia.
  - exists p1, p2. split; [exact E1|]. split; [exact E2|]. rewrite Hw by lia. reflexivity.
Defined.

End PagingProps.
