(* ===== verification/Usermode.v ===== *)
(** * Programs in user mode

    [arch/i386/modules/usermode/usermode.c] (the copy for floppies is the same file) and
    the addresses of [core/usermode/usermode_core.h]: the segment descriptors, the stack
    a program starts with, and [usermode_exec], which loads a program, opens its pages,
    makes a process and runs it to its end.  Pointers of the caller are addresses of the
    same memory the program is loaded into, and strings are read where the code reads
    them.  A byte of memory nobody wrote is 0. *)

From S2P Require Import Prelude Mm FsTypes FsPath Vfs Pseudo FsCore Fd Sprg Paging.
From stdpp Require Import base list option list_numbers gmap.
From Stdlib Require Import ZArith Lia.
Import FsTypes FsPath Vfs Pseudo FsCore Fd Sprg Paging.
Open Scope Z_scope.
Open Scope vfs_scope.

Module Usermode.

Definition GDT_KERNEL_DATA : Z := 0x10.
Definition GDT_TSS : Z := 0x28.

Definition USERMODE_KERNEL_STACK_SIZE : Z := 4096.
Definition USERMODE_EXEC_DEPTH_MAX : Z := 2.
Definition USERMODE_ARG_MAX : nat := 16.
Definition USERMODE_ENV_MAX : nat := 8.
Definition USERMODE_STRING_MAX : nat := 128.

Definition USERMODE_I386_PROGRAM_MIN : Z := 0x60000.
Definition USERMODE_I386_PROGRAM_MAX : Z := 0x70000.
Definition USERMODE_I386_STACK_MIN : Z := 0x70000.
Definition USERMODE_I386_STACK_TOP : Z := 0x80000.
Definition USERMODE_I386_SHELL_PROGRAM_MIN : Z := 0x80000.
Definition USERMODE_I386_SHELL_PROGRAM_MAX : Z := 0x90000.
Definition USERMODE_I386_SHELL_STACK_MIN : Z := 0x90000.
Definition USERMODE_I386_SHELL_STACK_TOP : Z := 0x9F000.

Definition POSIX_E2BIG : Z := 7.
Definition POSIX_ENOEXEC : Z := 8.

(** ** Segment descriptors *)

(** [gdt_entry_t]. *)
Record gdt_entry := GdtEntry {
  limit_low : Z; base_low : Z; base_mid : Z; access_byte : Z; granularity : Z; base_high : Z
}.

Definition zero_gdt : list gdt_entry := replicate 6 (GdtEntry 0 0 0 0 0 0).

Definition gdt_set (index : nat) (base limit access gran : Z) (gdt : list gdt_entry) : list gdt_entry :=
  <[index := GdtEntry (Z.land limit 0xFFFF) (Z.land base 0xFFFF) (Z.land (Z.shiftr base 16) 0xFF) access
                      (u8 (Z.lor (Z.land (Z.shiftr limit 16) 0x0F) (Z.land gran 0xF0)))
                      (Z.land (Z.shiftr base 24) 0xFF)]> gdt.

(** The fields of [tss32_t] the code sets; the others stay zero. *)
Record tss := Tss { esp0 : Z; ss0 : Z; iomap_base : Z }.

Definition SIZEOF_TSS : Z := 104.
Definition SIZEOF_GDT : Z := 48.

(** ** Helpers *)

Definition sprg_error_to_posix (rc : Z) : Z :=
  if rc =? SPRG_ERR_NOT_FOUND then - POSIX_ENOENT
  else if rc =? SPRG_ERR_TOO_LARGE then - POSIX_ENOSPC
  else if (rc =? SPRG_ERR_BAD_MAGIC) || (rc =? SPRG_ERR_BAD_VERSION) || (rc =? SPRG_ERR_BAD_ARCH) ||
          (rc =? SPRG_ERR_BAD_HEADER) || (rc =? SPRG_ERR_UNSUPPORTED) then - POSIX_ENOEXEC
  else - POSIX_EINVAL.

Definition image_fits_slot (im : sprg_image) (min max : Z) : bool :=
  forallb (fun s => let start := sg_vaddr s in
                    let stop := u32 (start + sg_memsz s) in
                    negb ((stop <? start) || (start <? min) || (max <? stop)))
          (active_segments im).

(** ** Memory *)

Notation memory := (gmap Z Z).

Definition byte_in (m : memory) (a : Z) : Z := default 0 (m !! a).
Definition word_in (m : memory) (a : Z) : Z := Mm.rd32 (byte_in m) a.

Definition store32 (a v : Z) (m : memory) : memory := store_at Mm.I386 a (le32 v) m.

(** A string in memory; it has fewer characters than memory has bytes that are not 0. *)
Fixpoint chars_from (fuel : nat) (m : memory) (a : Z) : list Z :=
  match fuel with
  | O => []
  | Datatypes.S fuel => if byte_in m a =? 0 then [] else byte_in m a :: chars_from fuel m (a + 1)
  end.

Definition string_in (m : memory) (a : Z) : list Z := chars_from (size m) m a.

(** A [const char*] argument. *)
Definition c_string (m : memory) (a : Z) : option (list Z) :=
  if a =? 0 then None else Some (string_in m a).

(** ** The initial stack *)

(** The first loop of [copy_stack_string]; [n] characters more are allowed. *)
Fixpoint string_length (n : nat) (m : memory) (a : Z) (len : nat) : Z + nat :=
  if byte_in m (a + Z.of_nat len) =? 0 then inr len
  else match n with
       | O => inl (- POSIX_E2BIG)
       | Datatypes.S n => string_length n m a (len + 1)
       end.

(** Byte by byte from the front, as the code copies. *)
Definition copy_bytes (next text : Z) (len : nat) (m : memory) : memory :=
  foldl (fun m i => <[u32 (next + i) := byte_in m (text + i)]> m) m (seqZ 0 (Z.of_nat len)).

(** [sp] is the stack pointer; the result is the address of the copy, which is also
    the new stack pointer. *)
Definition copy_stack_string (sp stack_min text : Z) : M memory Z := fun m =>
  if text =? 0 then Some (inl (- POSIX_EINVAL), m)
  else match string_length (USERMODE_STRING_MAX - 1) m text 0 with
       | inl rc => Some (inl rc, m)
       | inr n =>
           let len := (n + 1)%nat in
           if sp <? u32 (stack_min + Z.of_nat len) then Some (inl (- POSIX_ENOSPC), m)
           else let next := sp - Z.of_nat len in Some (inr next, copy_bytes next text len m)
       end.

(** The number of pointers before the null pointer; [n] more are allowed. *)
Fixpoint count_pointers (n : nat) (m : memory) (array : Z) (count : nat) : Z + nat :=
  if word_in m (array + 4 * Z.of_nat count) =? 0 then inr count
  else match n with
       | O => inl (- POSIX_E2BIG)
       | Datatypes.S n => count_pointers n m array (count + 1)
       end.

Definition count_array (max : nat) (array : Z) : M memory nat := fun m =>
  if array =? 0 then Some (inr 0%nat, m) else Some (count_pointers max m array 0, m).

(** [text i] is the [i]th pointer at the time it is read; the addresses of the copies
    and the last one. *)
Fixpoint copy_strings (n : nat) (i : nat) (text : memory -> nat -> Z) (stack_min sp : Z)
    : M memory (list Z * Z) :=
  match n with
  | O => ret ([], sp)
  | Datatypes.S n =>
      m <- get ;;
      a <- copy_stack_string sp stack_min (text m i) ;;
      r <- copy_strings n (i + 1) text stack_min a ;;
      ret (a :: fst r, snd r)
  end.

(** [PUSH_U32]. *)
Definition push (stack_min sp v : Z) : M memory Z := fun m =>
  if sp <? u32 (stack_min + 4) then Some (inl (- POSIX_ENOSPC), m)
  else Some (inr (sp - 4), store32 (sp - 4) v m).

(** The last value is pushed first. *)
Fixpoint push_all (stack_min sp : Z) (vs : list Z) : M memory Z :=
  match vs with
  | [] => ret sp
  | v :: vs => sp <- push_all stack_min sp vs ;; push stack_min sp v
  end.

Definition build_initial_stack (stack_min stack_top path argv envp : Z) : M memory Z :=
  argc <- count_array USERMODE_ARG_MAX argv ;;
  let argc := if (argc =? 0)%nat then 1%nat else argc in
  envc <- count_array USERMODE_ENV_MAX envp ;;
  e <- copy_strings envc 0 (fun m i => word_in m (envp + 4 * Z.of_nat i)) stack_min stack_top ;;
  a <- copy_strings argc 0 (fun m i => if negb (argv =? 0) && negb (word_in m argv =? 0)
                                       then word_in m (argv + 4 * Z.of_nat i) else path)
                    stack_min (snd e) ;;
  let sp := Z.land (snd a) (u32 (Z.lnot 3)) in
  sp <- push stack_min sp 0 ;;
  sp <- push_all stack_min sp (fst e) ;;
  sp <- push stack_min sp 0 ;;
  sp <- push_all stack_min sp (fst a) ;;
  push stack_min sp (Z.of_nat argc).

(** ** The machine *)

Section Usermode.
Context {S W : Type} `{!storage S} `{!services W}.

(** Where the linker put the static variables. *)
Record layout := Layout { gdt_addr : Z; tss_addr : Z; stacks_addr : Z }.

(** The kernel below, memory, the page tables and the static variables of the file;
    [gdtr] and [task] are the registers the assembly loads.  The tables of the kernel are
    kept apart from [mem], where programs have their memory: the record is the machine of
    the code as long as no system call is given a result buffer inside the kernel. *)
Record machine := Machine {
  kern : kernel S W;
  mem : memory;
  pages : I386.paging;
  g_usermode_gdt : list gdt_entry;
  g_usermode_gdt_ptr : Z * Z;
  g_usermode_tss : tss;
  g_usermode_saved_esp : Z;
  g_usermode_saved_eflags : Z;
  g_usermode_exec_depth : Z;
  gdtr : Z * Z;
  task : Z
}.

Definition set_kern (k : kernel S W) (s : machine) : machine :=
  Machine k (mem s) (pages s) (g_usermode_gdt s) (g_usermode_gdt_ptr s) (g_usermode_tss s)
    (g_usermode_saved_esp s) (g_usermode_saved_eflags s) (g_usermode_exec_depth s) (gdtr s) (task s).
Definition set_mem (m : memory) (s : machine) : machine :=
  Machine (kern s) m (pages s) (g_usermode_gdt s) (g_usermode_gdt_ptr s) (g_usermode_tss s)
    (g_usermode_saved_esp s) (g_usermode_saved_eflags s) (g_usermode_exec_depth s) (gdtr s) (task s).
Definition set_pages (p : I386.paging) (s : machine) : machine :=
  Machine (kern s) (mem s) p (g_usermode_gdt s) (g_usermode_gdt_ptr s) (g_usermode_tss s)
    (g_usermode_saved_esp s) (g_usermode_saved_eflags s) (g_usermode_exec_depth s) (gdtr s) (task s).
Definition set_esp0 (v : Z) (s : machine) : machine :=
  Machine (kern s) (mem s) (pages s) (g_usermode_gdt s) (g_usermode_gdt_ptr s)
    (Tss v (ss0 (g_usermode_tss s)) (iomap_base (g_usermode_tss s)))
    (g_usermode_saved_esp s) (g_usermode_saved_eflags s) (g_usermode_exec_depth s) (gdtr s) (task s).
Definition set_saved (esp eflags : Z) (s : machine) : machine :=
  Machine (kern s) (mem s) (pages s) (g_usermode_gdt s) (g_usermode_gdt_ptr s) (g_usermode_tss s)
    esp eflags (g_usermode_exec_depth s) (gdtr s) (task s).
Definition set_depth (d : Z) (s : machine) : machine :=
  Machine (kern s) (mem s) (pages s) (g_usermode_gdt s) (g_usermode_gdt_ptr s) (g_usermode_tss s)
    (g_usermode_saved_esp s) (g_usermode_saved_eflags s) d (gdtr s) (task s).

Definition kernel_stack_top (l : layout) (depth : Z) : Z :=
  stacks_addr l + (depth + 1) * USERMODE_KERNEL_STACK_SIZE.

(** [paging_set_user_range(start, end, writable)]. *)
Definition set_user_range (start stop : Z) (writable : bool) : M machine Z := fun s =>
  '(rc, p) ← I386.paging_core_set_user_range start stop writable (pages s);
  Some (inr rc, set_pages p s).

(** The kernel stacks are cleared too; nothing reads them before they are written. *)
Definition usermode_init (l : layout) : M machine unit := fun s =>
  let gdt := gdt_set 1 0 0xFFFFF 0x9A 0xCF zero_gdt in
  let gdt := gdt_set 2 0 0xFFFFF 0x92 0xCF gdt in
  let gdt := gdt_set 3 0 0xFFFFF 0xFA 0xCF gdt in
  let gdt := gdt_set 4 0 0xFFFFF 0xF2 0xCF gdt in
  let gdt := gdt_set 5 (tss_addr l) (SIZEOF_TSS - 1) 0x89 0x00 gdt in
  let ptr := (SIZEOF_GDT - 1, gdt_addr l) in
  (rc <- set_user_range USERMODE_I386_STACK_MIN USERMODE_I386_STACK_TOP true ;;
   guard (rc =? 0) (-1) ;;;
   rc <- set_user_range USERMODE_I386_SHELL_STACK_MIN USERMODE_I386_SHELL_STACK_TOP true ;;
   guard (rc =? 0) (-1) ;;;
   (fun s => Some (inr tt, set_depth 0 s)))
  (Machine (kern s) (mem s) (pages s) gdt ptr (Tss (kernel_stack_top l 0) GDT_KERNEL_DATA SIZEOF_TSS)
     (g_usermode_saved_esp s) (g_usermode_saved_eflags s) (g_usermode_exec_depth s) ptr GDT_TSS).

(** ** Running programs *)

(** A call of the loader with the local [image]; its error becomes an errno code. *)
Definition load (im : sprg_image) (m : M (world S W) unit) : M machine sprg_image := fun s =>
  '(x, k) ← on_fs (fun f => '(r, w) ← m (World f (mem s) im); Some (inr (r, ram w, image w), files w)) (kern s);
  let s := set_kern k s in
  match x with
  | inl rc => Some (inl rc, s)
  | inr (inl rc, ram, _) => Some (inl (sprg_error_to_posix rc), set_mem ram s)
  | inr (inr _, ram, im) => Some (inr im, set_mem ram s)
  end.

Record slot := Slot { program_min : Z; program_max : Z; stack_min : Z; stack_top : Z }.

Definition program_slot : slot :=
  Slot USERMODE_I386_PROGRAM_MIN USERMODE_I386_PROGRAM_MAX USERMODE_I386_STACK_MIN USERMODE_I386_STACK_TOP.
Definition shell_slot : slot :=
  Slot USERMODE_I386_SHELL_PROGRAM_MIN USERMODE_I386_SHELL_PROGRAM_MAX
       USERMODE_I386_SHELL_STACK_MIN USERMODE_I386_SHELL_STACK_TOP.

Definition choose_slot (im : sprg_image) (depth : Z) : M machine slot :=
  if image_fits_slot im USERMODE_I386_PROGRAM_MIN USERMODE_I386_PROGRAM_MAX then ret program_slot
  else if image_fits_slot im USERMODE_I386_SHELL_PROGRAM_MIN USERMODE_I386_SHELL_PROGRAM_MAX then
    guard (depth =? 0) (- POSIX_ENOSPC) ;;; ret shell_slot
  else fail (- POSIX_ENOEXEC).

Fixpoint open_segments (segs : list sprg_segment) : M machine unit :=
  match segs with
  | [] => ret tt
  | seg :: segs =>
      rc <- set_user_range (sg_vaddr seg) (u32 (sg_vaddr seg + sg_memsz seg))
                           (negb (Z.land (sg_flags seg) SPRG_FLAG_W =? 0)) ;;
      guard (rc =? 0) (- POSIX_EIO) ;;;
      open_segments segs
  end.

Definition on_mem {A} (m : M memory A) : M machine A := fun s =>
  '(r, x) ← m (mem s); Some (r, set_mem x s).

Definition spawn (path : Z) (im : sprg_image) (sp : Z) : M machine nat := fun s =>
  '(r, k) ← process_core_spawn_exec (string_in (mem s) path) (im_arch im) (im_entry im)
              (im_segment_count im) (im_file_size im) sp (kern s);
  Some (match r with None => inl (- POSIX_ENOSPC) | Some c => inr c end, set_kern k s).

(** The switch to user mode, the run of the program and its return through
    [usermode_exit]: entry point and stack pointer, the exit status. *)
Variable usermode_i386_enter : Z -> Z -> machine -> option (Z * machine).
Variable l : layout.

Definition run_child (entry sp : Z) (child : nat) : M machine Z := fun s =>
  let old_saved_esp := g_usermode_saved_esp s in
  let old_saved_eflags := g_usermode_saved_eflags s in
  let old_tss_esp0 := esp0 (g_usermode_tss s) in
  let depth := g_usermode_exec_depth s in
  '(status, s) ← usermode_i386_enter entry sp
                   (set_depth (u32 (depth + 1)) (set_esp0 (kernel_stack_top l depth) s));
  let s := set_depth (u32 (g_usermode_exec_depth s - 1)) s in
  let s := set_saved old_saved_esp old_saved_eflags (set_esp0 old_tss_esp0 s) in
  k ← process_core_reap child (kern s);
  Some (inr status, set_kern k s).

(** The local [image] has no contents of its own: no branch reads what the loader did
    not write. *)
Definition usermode_exec (path argv envp : Z) : M machine Z :=
  s <- get ;;
  let depth := g_usermode_exec_depth s in
  guard (negb (USERMODE_EXEC_DEPTH_MAX <=? depth)) (- POSIX_ENOSPC) ;;;
  image <- load zero_image (sprg_core_validate_file (c_string (mem s) path) SPRG_ARCH_I386) ;;
  t <- choose_slot image depth ;;
  s <- get ;;
  image <- load image (sprg_core_load_file Mm.I386 (c_string (mem s) path) SPRG_ARCH_I386
                                           (program_min t) (program_max t)) ;;
  open_segments (active_segments image) ;;;
  sp <- on_mem (build_initial_stack (stack_min t) (stack_top t) path argv envp) ;;
  child <- spawn path image sp ;;
  run_child (im_entry image) sp child.

(** The program's end, up to the return to [run_child]. *)
Definition usermode_exit (status : Z) (s : machine) : option machine :=
  k ← process_core_exit_current status (kern s); Some (set_kern k s).

End Usermode.
Arguments machine : clear implicits.

End Usermode.
