(* ===== verification/Usermode64.v ===== *)
(** * Programs in user mode on x86-64

    [arch/x86_64/modules/usermode/usermode.c]: a 64-bit kernel that runs 32-bit programs.
    The file is that of i386 with 64-bit addresses, other descriptors and log lines.  Memory
    is mapped up to [PAGING_IDENTITY_LIMIT]; the kernel does not survive an access above it
    ([None]). *)

From S2P Require Import Prelude Mm FsTypes FsPath Vfs Pseudo FsCore Fd Sprg Paging Paging64 Usermode.
From stdpp Require Import base list option list_numbers gmap strings.
From Stdlib Require Import ZArith Lia ZifyBool.
Import FsTypes FsPath Vfs Pseudo FsCore Fd Sprg Paging.
Import Usermode (USERMODE_KERNEL_STACK_SIZE, USERMODE_EXEC_DEPTH_MAX, USERMODE_ARG_MAX, USERMODE_ENV_MAX, USERMODE_STRING_MAX,
  USERMODE_I386_PROGRAM_MIN, USERMODE_I386_PROGRAM_MAX, USERMODE_I386_STACK_MIN, USERMODE_I386_STACK_TOP,
  USERMODE_I386_SHELL_PROGRAM_MIN, USERMODE_I386_SHELL_PROGRAM_MAX, USERMODE_I386_SHELL_STACK_MIN, USERMODE_I386_SHELL_STACK_TOP,
  POSIX_E2BIG, POSIX_ENOEXEC, sprg_error_to_posix, byte_in, string_in, c_string,
  slot, program_slot, shell_slot, program_min, program_max, stack_min, stack_top).
Open Scope Z_scope.
Open Scope vfs_scope.

Module Usermode64.

Notation memory := (gmap Z Z).

(** The fields of [tss64_t] the code sets. *)
Record tss64 := Tss64 { rsp0 : Z; iomap_base : Z }.
Definition SIZEOF_TSS64 : Z := 104.
Definition SIZEOF_GDT64 : Z := 56.
Definition GDT_TSS : Z := 0x28.

(** [g_usermode_gdt]. *)
Definition gdt64 (base : Z) : list Z :=
  let limit := SIZEOF_TSS64 - 1 in
  [0; 0x00AF9A000000FFFF; 0x00CF92000000FFFF; 0x00CFFA000000FFFF; 0x00CFF2000000FFFF;
   Z.lor (Z.lor (Z.lor (Z.lor (Z.land limit 0xFFFF) (u64 (Z.shiftl (Z.land base 0xFFFFFF) 16))) (Z.shiftl 0x89 40))
     (u64 (Z.shiftl (Z.land (Z.shiftr limit 16) 0xF) 48))) (u64 (Z.shiftl (Z.land (Z.shiftr base 24) 0xFF) 56));
   Z.shiftr base 32].

Definition image_fits_slot (im : sprg_image) (min max : Z) : bool :=
  forallb (fun s => let start := sg_vaddr s in
                    let stop := u64 (start + sg_memsz s) in
                    negb ((stop <? start) || (start <? min) || (max <? stop)))
          (active_segments im).

(** ** The initial stack *)

Definition update {T} (f : T -> T) : M T unit := fun s => Some (inr tt, f s).

(** A byte and a pointer in memory. *)
Definition load_byte (a : Z) : M memory Z := fun m =>
  if PAGING_IDENTITY_LIMIT <=? a then None else Some (inr (byte_in m a), m).
Definition pointer_in (m : memory) (a : Z) : Z := Mm.rd64 (byte_in m) a.
Definition load_pointer (a : Z) : M memory Z := fun m =>
  if PAGING_IDENTITY_LIMIT <=? a + 7 then None else Some (inr (pointer_in m a), m).

Fixpoint string_length (n : nat) (a : Z) (len : nat) : M memory nat :=
  c <- load_byte (a + Z.of_nat len) ;;
  if c =? 0 then ret len
  else match n with O => fail (- POSIX_E2BIG) | S n => string_length n a (len + 1) end.

Definition copy_bytes (next text : Z) (len : nat) (m : memory) : memory :=
  foldl (fun m i => <[next + i := byte_in m (text + i)]> m) m (seqZ 0 (Z.of_nat len)).

Definition copy_stack_string (sp stack_min text : Z) : M memory Z :=
  if text =? 0 then fail (- POSIX_EINVAL)
  else
    n <- string_length (USERMODE_STRING_MAX - 1) text 0 ;;
    let len := (n + 1)%nat in
    if sp <? u64 (stack_min + Z.of_nat len) then fail (- POSIX_ENOSPC)
    else let next := sp - Z.of_nat len in update (copy_bytes next text len) ;;; ret next.

Fixpoint count_pointers (n : nat) (array : Z) (count : nat) : M memory nat :=
  p <- load_pointer (array + 8 * Z.of_nat count) ;;
  if p =? 0 then ret count
  else match n with O => fail (- POSIX_E2BIG) | S n => count_pointers n array (count + 1) end.

Definition count_array (max : nat) (array : Z) : M memory nat := if array =? 0 then ret 0%nat else count_pointers max array 0.

Fixpoint copy_strings (n : nat) (i : nat) (text : nat -> M memory Z) (stack_min sp : Z) : M memory (list Z * Z) :=
  match n with
  | O => ret ([], sp)
  | S n =>
      p <- text i ;;
      a <- copy_stack_string sp stack_min p ;;
      r <- copy_strings n (i + 1) text stack_min a ;;
      ret (a :: fst r, snd r)
  end.

(** [PUSH_U32]. *)
Definition push (stack_min sp v : Z) : M memory Z :=
  if sp <? u64 (stack_min + 4) then fail (- POSIX_ENOSPC) else update (store_at Mm.X86_64 (sp - 4) (le32 (u32 v))) ;;; ret (sp - 4).

Fixpoint push_all (stack_min sp : Z) (vs : list Z) : M memory Z :=
  match vs with [] => ret sp | v :: vs => sp <- push_all stack_min sp vs ;; push stack_min sp v end.

(** [argv[i]], or the path when there is no first argument. *)
Definition arg_at (path argv : Z) (i : nat) : M memory Z :=
  if argv =? 0 then ret path
  else first <- load_pointer argv ;; if first =? 0 then ret path else load_pointer (argv + 8 * Z.of_nat i).

Definition build_initial_stack (stack_min stack_top path argv envp : Z) : M memory Z :=
  argc <- count_array USERMODE_ARG_MAX argv ;;
  let argc := if (argc =? 0)%nat then 1%nat else argc in
  envc <- count_array USERMODE_ENV_MAX envp ;;
  e <- copy_strings envc 0 (fun i => load_pointer (envp + 8 * Z.of_nat i)) stack_min stack_top ;;
  a <- copy_strings argc 0 (arg_at path argv) stack_min (snd e) ;;
  let sp := Z.land (snd a) (u64 (Z.lnot 3)) in
  sp <- push stack_min sp 0 ;;
  sp <- push_all stack_min sp (fst e) ;;
  sp <- push stack_min sp 0 ;;
  sp <- push_all stack_min sp (fst a) ;;
  push stack_min sp (Z.of_nat argc).

(** ** The machine *)

Section Usermode.
Context {S W : Type} `{!storage S} `{!services W}.

Record machine64 := Machine64 {
  kern : kernel S W;
  mem : memory;
  pages : X64.paging;
  g_usermode_gdt : list Z;
  g_usermode_tss : tss64;
  g_usermode_saved_rsp : Z;
  g_usermode_saved_rflags : Z;
  g_usermode_exec_depth : Z;
  gdtr : Z * Z;
  task : Z
}.

Definition set_kern k s := Machine64 k (mem s) (pages s) (g_usermode_gdt s) (g_usermode_tss s) (g_usermode_saved_rsp s) (g_usermode_saved_rflags s) (g_usermode_exec_depth s) (gdtr s) (task s).
Definition set_mem m s := Machine64 (kern s) m (pages s) (g_usermode_gdt s) (g_usermode_tss s) (g_usermode_saved_rsp s) (g_usermode_saved_rflags s) (g_usermode_exec_depth s) (gdtr s) (task s).
Definition set_pages p s := Machine64 (kern s) (mem s) p (g_usermode_gdt s) (g_usermode_tss s) (g_usermode_saved_rsp s) (g_usermode_saved_rflags s) (g_usermode_exec_depth s) (gdtr s) (task s).
Definition set_rsp0 v s := Machine64 (kern s) (mem s) (pages s) (g_usermode_gdt s) (Tss64 v (iomap_base (g_usermode_tss s))) (g_usermode_saved_rsp s) (g_usermode_saved_rflags s) (g_usermode_exec_depth s) (gdtr s) (task s).
Definition set_saved rsp rflags s := Machine64 (kern s) (mem s) (pages s) (g_usermode_gdt s) (g_usermode_tss s) rsp rflags (g_usermode_exec_depth s) (gdtr s) (task s).
Definition set_depth d s := Machine64 (kern s) (mem s) (pages s) (g_usermode_gdt s) (g_usermode_tss s) (g_usermode_saved_rsp s) (g_usermode_saved_rflags s) d (gdtr s) (task s).

Definition kernel_stack_top (l : Usermode.layout) (depth : Z) : Z := Usermode.stacks_addr l + (depth + 1) * USERMODE_KERNEL_STACK_SIZE.

Definition klog (text : string) : M machine64 unit := fun s =>
  k ← on_tty (klog_info (cstr "compat32") (cstr text)) (kern s); Some (inr tt, set_kern k s).

Definition set_user_range (start stop : Z) (writable : bool) : M machine64 Z := fun s =>
  '(rc, p) ← X64.paging_core_set_user_range start stop writable (pages s); Some (inr rc, set_pages p s).

(** One of the ranges of [usermode_init]. *)
Definition open_range (start stop : Z) : M machine64 unit := rc <- set_user_range start stop true ;; guard (rc =? 0) (-1).

Definition usermode_init (l : Usermode.layout) : M machine64 unit :=
  klog "Setting up 32-bit compatibility userspace" ;;;
  update (fun s => Machine64 (kern s) (mem s) (pages s) (gdt64 (Usermode.tss_addr l)) (Tss64 (kernel_stack_top l 0) SIZEOF_TSS64)
    (g_usermode_saved_rsp s) (g_usermode_saved_rflags s) (g_usermode_exec_depth s) (gdtr s) (task s)) ;;;
  klog "TSS and GDT initialized" ;;;
  update (fun s => Machine64 (kern s) (mem s) (pages s) (g_usermode_gdt s) (g_usermode_tss s)
    (g_usermode_saved_rsp s) (g_usermode_saved_rflags s) (g_usermode_exec_depth s) (SIZEOF_GDT64 - 1, Usermode.gdt_addr l) GDT_TSS) ;;;
  open_range USERMODE_I386_PROGRAM_MIN USERMODE_I386_PROGRAM_MAX ;;;
  open_range USERMODE_I386_STACK_MIN USERMODE_I386_STACK_TOP ;;;
  open_range USERMODE_I386_SHELL_PROGRAM_MIN USERMODE_I386_SHELL_PROGRAM_MAX ;;;
  open_range USERMODE_I386_SHELL_STACK_MIN USERMODE_I386_SHELL_STACK_TOP ;;;
  update (set_depth 0) ;;;
  klog "Ring-3 pages mapped".

(** A call of the loader; its error becomes an errno code, after a line in the log. *)
Definition load (failed done : string) (im : sprg_image) (m : M (world S W) unit) : M machine64 sprg_image := fun s =>
  '(x, k) ← on_fs (fun f => '(r, w) ← m (World f (mem s) im); Some (inr (r, ram w, image w), files w)) (kern s);
  let s := set_kern k s in
  match x with
  | inl rc => Some (inl rc, s)
  | inr (inl rc, ram, _) => (klog failed ;;; fail (sprg_error_to_posix rc)) (set_mem ram s)
  | inr (inr _, ram, im) => (klog done ;;; ret im) (set_mem ram s)
  end.

Definition choose_slot (im : sprg_image) (depth : Z) : M machine64 slot :=
  if image_fits_slot im USERMODE_I386_PROGRAM_MIN USERMODE_I386_PROGRAM_MAX then ret program_slot
  else if image_fits_slot im USERMODE_I386_SHELL_PROGRAM_MIN USERMODE_I386_SHELL_PROGRAM_MAX then
    guard (depth =? 0) (- POSIX_ENOSPC) ;;; ret shell_slot
  else fail (- POSIX_ENOEXEC).

Fixpoint open_segments (segs : list sprg_segment) : M machine64 unit :=
  match segs with
  | [] => ret tt
  | seg :: segs =>
      rc <- set_user_range (sg_vaddr seg) (u64 (sg_vaddr seg + sg_memsz seg)) (negb (Z.land (sg_flags seg) SPRG_FLAG_W =? 0)) ;;
      guard (rc =? 0) (- POSIX_EIO) ;;;
      open_segments segs
  end.

Definition on_mem {A} (m : M memory A) : M machine64 A := fun s => '(r, x) ← m (mem s); Some (r, set_mem x s).

Definition spawn (path : Z) (im : sprg_image) (sp : Z) : M machine64 nat := fun s =>
  '(r, k) ← process_core_spawn_exec (string_in (mem s) path) (im_arch im) (im_entry im)
              (im_segment_count im) (im_file_size im) sp (kern s);
  match r with
  | None => (klog "Process table full" ;;; fail (- POSIX_ENOSPC)) (set_kern k s)
  | Some c => (klog "Entering ring3 process" ;;; ret c) (set_kern k s)
  end.

(** The switch to user mode and the run of the program. *)
Variable usermode_x64_enter : Z -> Z -> machine64 -> option (Z * machine64).
Variable l : Usermode.layout.

Definition run_child (entry sp : Z) (child : nat) : M machine64 Z := fun s =>
  let old_saved_rsp := g_usermode_saved_rsp s in
  let old_saved_rflags := g_usermode_saved_rflags s in
  let old_tss_rsp0 := rsp0 (g_usermode_tss s) in
  let depth := g_usermode_exec_depth s in
  '(status, s) ← usermode_x64_enter entry (u32 sp) (set_depth (u32 (depth + 1)) (set_rsp0 (kernel_stack_top l depth) s));
  let s := set_depth (u32 (g_usermode_exec_depth s - 1)) s in
  let s := set_saved old_saved_rsp old_saved_rflags (set_rsp0 old_tss_rsp0 s) in
  k ← process_core_reap child (kern s);
  Some (inr status, set_kern k s).

Definition usermode_exec (path argv envp : Z) : M machine64 Z :=
  s <- get ;;
  let depth := g_usermode_exec_depth s in
  guard (negb (USERMODE_EXEC_DEPTH_MAX <=? depth)) (- POSIX_ENOSPC) ;;;
  image <- load "SPRG validation failed" "SPRG validated" zero_image (sprg_core_validate_file (c_string (mem s) path) SPRG_ARCH_I386) ;;
  t <- choose_slot image depth ;;
  s <- get ;;
  image <- load "SPRG loading failed" "SPRG loaded" image
             (sprg_core_load_file Mm.X86_64 (c_string (mem s) path) SPRG_ARCH_I386 (program_min t) (program_max t)) ;;
  open_segments (active_segments image) ;;;
  sp <- on_mem (build_initial_stack (stack_min t) (stack_top t) path argv envp) ;;
  child <- spawn path image sp ;;
  run_child (im_entry image) sp child.

Definition usermode_exit (status : Z) (s : machine64) : option machine64 :=
  k ← process_core_exit_current status (kern s); Some (set_kern k s).

End Usermode.

End Usermode64.

(** * The descriptor of the task and the arguments of programs on x86-64 *)

Module Usermode64Props.
Import Usermode64.

(** ** The descriptor of the task *)

(** What the processor takes from the two words of the descriptor. *)
Definition task_base (low high : Z) : Z :=
  Z.lor (Z.lor (Z.land (Z.shiftr low 16) 0xFFFFFF) (Z.shiftl (Z.land (Z.shiftr low 56) 0xFF) 24)) (Z.shiftl high 32).
Definition task_limit (low : Z) : Z := Z.lor (Z.land low 0xFFFF) (Z.shiftl (Z.land (Z.shiftr low 48) 0xF) 16).

Lemma high_bit x n j : 0 <= n -> 0 <= x < 2 ^ n -> n <= j -> Z.testbit x j = false.
Proof. intros Hn Hx Hj. rewrite <- (Z.mod_small x (2 ^ n)) by done. by apply Z.mod_pow2_bits_high. Qed.

(** The fields of the first word: limit, base, type, and the rest of the base. *)
Lemma descriptor_low base : 0 <= base < 2 ^ 64 -> exists low, gdt64 base !! 5%nat = Some low /\
  forall j, 0 <= j -> Z.testbit low j =
    if j <? 16 then Z.testbit 103 j else if j <? 40 then Z.testbit base (j - 16) else if j <? 56 then Z.testbit 0x89 (j - 40)
    else if j <? 64 then Z.testbit base (j - 32) else false.
Proof.
  intros Hb. eexists. split; [reflexivity|]. intros j Hj. unfold u64. change 0xFFFFFF with (Z.ones 24). change 0xFF with (Z.ones 8).
  change (Z.land (SIZEOF_TSS64 - 1) 0xFFFF) with 103. change (Z.shiftl (Z.land (Z.shiftr (SIZEOF_TSS64 - 1) 16) 0xF) 48 mod 2 ^ 64) with 0.
  rewrite Z.lor_0_r. rewrite !Z.lor_spec. rewrite !Z.testbit_mod_pow2 by lia. rewrite !Z.shiftl_spec by lia. rewrite !Z.land_spec.
  destruct (Z.ltb_spec j 64); cbn [andb].
  2: { destruct (Z.ltb_spec j 16), (Z.ltb_spec j 40), (Z.ltb_spec j 56); try lia. by rewrite (high_bit 103 16), (high_bit 0x89 16) by lia. }
  destruct (Z.ltb_spec j 16); [by rewrite !(Z.testbit_neg_r _ (j - _)), !orb_false_r by lia|]. rewrite (high_bit 103 16) by lia. cbn [orb].
  destruct (Z.ltb_spec j 40).
  { rewrite Z.testbit_ones_nonneg, (Z.testbit_neg_r _ (j - 40)), (Z.testbit_neg_r _ (j - 56)) by lia. destruct (Z.ltb_spec (j - 16) 24); [|lia].
    by rewrite andb_true_r, !orb_false_r. }
  rewrite (Z.testbit_ones_nonneg 24) by lia. destruct (Z.ltb_spec (j - 16) 24); [lia|]. rewrite andb_false_r. cbn [orb].
  destruct (Z.ltb_spec j 56); [by rewrite (Z.testbit_neg_r _ (j - 56)), orb_false_r by lia|]. rewrite (high_bit 0x89 16) by lia. cbn [orb].
  rewrite Z.testbit_ones_nonneg by lia. destruct (Z.ltb_spec (j - 56) 8); [|lia]. rewrite andb_true_r, Z.shiftr_spec by lia. f_equal. lia.
Qed.

Lemma field_bits x k n j : 0 <= k -> 0 <= n -> 0 <= j -> Z.testbit (Z.land (Z.shiftr x k) (Z.ones n)) j = (j <? n) && Z.testbit x (j + k).
Proof. intros. rewrite Z.land_spec, Z.shiftr_spec, Z.testbit_ones_nonneg by lia. apply andb_comm. Qed.

(** The processor finds the task state where it is. *)
Lemma task_descriptor_exact base : 0 <= base < 2 ^ 64 -> exists low high, gdt64 base !! 5%nat = Some low /\ gdt64 base !! 6%nat = Some high /\
  task_base low high = base /\ task_limit low = SIZEOF_TSS64 - 1.
Proof.
  intros Hb. destruct (descriptor_low base Hb) as (low & E & Hl). exists low, (Z.shiftr base 32). split_and!; [done|reflexivity|..]; apply Z.bits_inj'; intros n Hn.
  - unfold task_base. change 0xFFFFFF with (Z.ones 24). change 0xFF with (Z.ones 8). rewrite !Z.lor_spec, !Z.shiftl_spec, field_bits, Hl by lia.
    destruct (Z.ltb_spec n 24).
    { destruct (Z.ltb_spec (n + 16) 16), (Z.ltb_spec (n + 16) 40); try lia. rewrite !(Z.testbit_neg_r _ (n - _)), !orb_false_r by lia. cbn [andb]. f_equal. lia. }
    cbn [andb orb]. destruct (Z.ltb_spec n 32).
    { rewrite (Z.testbit_neg_r _ (n - 32)), orb_false_r, field_bits, Hl by lia.
      destruct (Z.ltb_spec (n - 24) 8), (Z.ltb_spec (n - 24 + 56) 16), (Z.ltb_spec (n - 24 + 56) 40), (Z.ltb_spec (n - 24 + 56) 56), (Z.ltb_spec (n - 24 + 56) 64); try lia.
      cbn [andb]. f_equal. lia. }
    rewrite field_bits, Z.shiftr_spec by lia. destruct (Z.ltb_spec (n - 24) 8); [lia|]. cbn [andb orb]. f_equal. lia.
  - unfold task_limit. change 0xFFFF with (Z.ones 16). change 0xF with (Z.ones 4). rewrite Z.lor_spec, Z.shiftl_spec, Z.land_spec, Hl, Z.testbit_ones_nonneg by lia.
    change (SIZEOF_TSS64 - 1) with 103. destruct (Z.ltb_spec n 16).
    { rewrite (Z.testbit_neg_r _ (n - 16)), orb_false_r by lia. apply andb_true_r. }
    rewrite andb_false_r, field_bits, Hl, (high_bit 103 16 n) by lia. cbn [orb]. destruct (Z.ltb_spec (n - 16) 4); [|done]. cbn [andb].
    destruct (Z.ltb_spec (n - 16 + 48) 16), (Z.ltb_spec (n - 16 + 48) 40), (Z.ltb_spec (n - 16 + 48) 56); try lia. rewrite (high_bit 0x89 8) by lia. done.
Qed.

(** ** The arguments of programs *)

Definition bytes_ok (m : memory) : Prop := forall a, 0 <= byte_in m a < 256.

(** A vector of a 32-bit program with two entries: the kernel takes both for one pointer. *)
Lemma pointers_joined m a : bytes_ok m -> Mm.rd32 (byte_in m) (a + 4) <> 0 -> 2 ^ 32 <= pointer_in m a.
Proof.
  intros Hm Hn. unfold pointer_in, Mm.rd64. enough (0 <= Mm.rd32 (byte_in m) a /\ 0 <= Mm.rd32 (byte_in m) (a + 4)) as [] by lia.
  unfold Mm.rd32. split; repeat match goal with |- context [byte_in m ?x] => pose proof (Hm x); generalize dependent (byte_in m x); intros end; lia.
Qed.

Lemma count_pointers_cases n : forall a c (m : memory),
  count_pointers n a c m = None \/ count_pointers n a c m = Some (inl (- POSIX_E2BIG), m) \/ exists k, count_pointers n a c m = Some (inr k, m).
Proof.
  induction n as [|n IH]; intros a c m; cbn [count_pointers]; unfold bind, load_pointer; destruct (_ <=? _); [by left| |by left|]; cbn beta iota;
    destruct (pointer_in m (a + 8 * Z.of_nat c) =? 0); [right; right; by eexists|right; by left|right; right; by eexists|apply IH].
Qed.

(** On x86-64 no program can be started with arguments by another: the vector that the caller
    built of 32-bit pointers is read as 64-bit pointers, and the first of them is outside
    the mapped memory. *)
Lemma arguments_of_programs_fault stack_min stack_top path argv (m : memory) :
  bytes_ok m -> argv <> 0 -> Mm.rd32 (byte_in m) (argv + 4) <> 0 ->
  build_initial_stack stack_min stack_top path argv 0 m = None \/ build_initial_stack stack_min stack_top path argv 0 m = Some (inl (- POSIX_E2BIG), m).
Proof.
  intros Hm Ha Hp. pose proof (pointers_joined m argv Hm Hp) as Hj. unfold build_initial_stack, count_array. rewrite (proj2 (Z.eqb_neq argv 0) Ha).
  destruct (count_pointers_cases USERMODE_ARG_MAX argv 0 m) as [E|[E|[k E]]]; [left|right|left]; unfold bind at 1; rewrite E; [done|done|]. clear E. cbn [Z.eqb].
  assert (exists n, (if (k =? 0)%nat then 1%nat else k) = S n) as [n ->] by (destruct k; [by exists 0%nat|by exists k]).
  unfold bind, ret. cbn [copy_strings fst snd]. unfold bind, ret, arg_at. rewrite (proj2 (Z.eqb_neq argv 0) Ha). unfold bind, load_pointer.
  destruct (PAGING_IDENTITY_LIMIT <=? argv + 7) eqn:E; [done|]. cbn beta iota. destruct (Z.eqb_spec (pointer_in m argv) 0); [lia|].
  change (8 * Z.of_nat 0) with 0. rewrite Z.add_0_r, E. cbn beta iota. unfold copy_stack_string. destruct (Z.eqb_spec (pointer_in m argv) 0); [lia|].
  unfold bind. change (USERMODE_STRING_MAX - 1)%nat with (S 126). cbn [string_length]. unfold bind, load_byte. change (Z.of_nat 0) with 0. rewrite ?Z.add_0_r.
  destruct (Z.leb_spec PAGING_IDENTITY_LIMIT (pointer_in m argv)) as [|Hx]; [done|]. unfold PAGING_IDENTITY_LIMIT in Hx. lia.
Qed.

(** The kernel's own vectors, of 64-bit pointers, are read as they are: one argument. *)
Lemma kernel_vector_example :
  let m := store_at Mm.X86_64 0x2000 (le32 0x1000 ++ replicate 12 0) (store_at Mm.X86_64 0x1000 (cstr "/sh" ++ [0]) ∅) in
  (fun r => (r.1, Mm.rd32 (byte_in r.2) 0x9EFEC, Mm.rd32 (byte_in r.2) 0x9EFF0, byte_in r.2 0x9EFFC)) <$>
    build_initial_stack 0x90000 0x9F000 0x1000 0x2000 0 m = Some (inr 0x9EFEC, 1, 0x9EFFC, 47).
Proof. reflexivity. Qed.

End Usermode64Props.
