(* ===== verification/UserStack.v ===== *)
(** * The stack of a new program

    Strings and pointer arrays in memory, and what [build_initial_stack] leaves there:
    the argument count, the argument vector and the environment that the start code of
    a program ([userland/crt0.i386.S]) hands to [main]. *)

From S2P Require Import Prelude Mm FsTypes FsPath Vfs Pseudo FsCore Fd Sprg SprgRead Paging Usermode FsLinks FdInv FdSteps FdLife SprgProps PagingWalk PagingProps.
From stdpp Require Import base list option list_numbers gmap.
From Stdlib Require Import ZArith Lia ZifyBool.
Import FsTypes Vfs VfsWp Sprg SprgLoad Usermode.
Open Scope Z_scope.

Module UserStack.

(** ** Strings in memory *)

(** The string [s] at address [a], with its terminator. *)
Definition text_at (m : memory) (a : Z) (s : list Z) : Prop :=
  Forall (fun c => c <> 0) s /\ forall i, (i <= length s)%nat -> byte_in m (a + Z.of_nat i) = char_at s i.

(** The null-terminated array of the pointers [ps]. *)
Definition array_at (m : memory) (a : Z) (ps : list Z) : Prop :=
  Forall (fun p => p <> 0) ps /\
  forall i, (i <= length ps)%nat -> word_in m (a + 4 * Z.of_nat i) = char_at ps i.

(** The [n] bytes at [a] are not between [lo] and [hi]. *)
Definition apart (lo hi a n : Z) : Prop := a + n <= lo \/ hi <= a.

Lemma outside_same_refl lo hi m : outside_same lo hi m m.
Proof. by intros a _. Qed.

Lemma outside_same_trans lo hi m1 m2 m3 :
  outside_same lo hi m1 m2 -> outside_same lo hi m2 m3 -> outside_same lo hi m1 m3.
Proof. intros H1 H2 a Ha. rewrite H2 by done. by apply H1. Qed.

Lemma outside_same_weaken lo hi lo' hi' m m' :
  lo' <= lo -> hi <= hi' -> outside_same lo hi m m' -> outside_same lo' hi' m m'.
Proof. intros H1 H2 H a Ha. apply H. lia. Qed.

Lemma byte_outside lo hi m m' a : outside_same lo hi m m' -> apart lo hi a 1 -> byte_in m' a = byte_in m a.
Proof. intros H Ha. unfold byte_in. rewrite H; [done|]. unfold apart in Ha. lia. Qed.

Lemma word_outside lo hi m m' a : outside_same lo hi m m' -> apart lo hi a 4 -> word_in m' a = word_in m a.
Proof.
  intros H Ha. unfold word_in, Mm.rd32. unfold apart in Ha.
  rewrite !(byte_outside lo hi m m') by (done || unfold apart; lia). done.
Qed.

Lemma text_outside lo hi m m' a s :
  outside_same lo hi m m' -> apart lo hi a (Z.of_nat (length s) + 1) -> text_at m a s -> text_at m' a s.
Proof.
  intros H Ha [Hz Ht]. split; [done|]. intros i Hi. rewrite <- Ht by done.
  apply (byte_outside lo hi); [done|]. unfold apart in *. lia.
Qed.

Lemma array_outside lo hi m m' a ps :
  outside_same lo hi m m' -> apart lo hi a (4 * Z.of_nat (length ps) + 4) -> array_at m a ps -> array_at m' a ps.
Proof.
  intros H Ha [Hz Ht]. split; [done|]. intros i Hi. rewrite <- Ht by done.
  apply (word_outside lo hi); [done|]. unfold apart in *. lia.
Qed.

Lemma char_at_inside s i : Forall (fun c => c <> 0) s -> (char_at s i =? 0) = bool_decide (length s <= i)%nat.
Proof.
  intros Hs. unfold char_at. destruct (s !! i) as [c|] eqn:E; cbn.
  - pose proof (lookup_lt_Some _ _ _ E). rewrite bool_decide_false by lia.
    rewrite Forall_lookup in Hs. pose proof (Hs _ _ E). lia.
  - apply lookup_ge_None in E. by rewrite bool_decide_true.
Qed.

Lemma char_at_end s i : (length s <= i)%nat -> char_at s i = 0.
Proof. intros Hi. unfold char_at. by rewrite lookup_ge_None_2. Qed.

(** ** Reading *)

Lemma string_length_spec n m a s k :
  text_at m a s -> (k <= length s)%nat ->
  string_length n m a k = if bool_decide (length s <= k + n)%nat then inr (length s) else inl (- POSIX_E2BIG).
Proof.
  intros [Hz Ht]. revert k. induction n as [|n IH]; intros k Hk; cbn [string_length];
    rewrite Ht, char_at_inside by done.
  - case_bool_decide; [rewrite bool_decide_true by lia; f_equal; lia|by rewrite bool_decide_false by lia].
  - case_bool_decide; [rewrite bool_decide_true by lia; f_equal; lia|].
    rewrite IH by lia. by replace (k + 1 + n)%nat with (k + Datatypes.S n)%nat by lia.
Qed.

Lemma count_pointers_spec n m a ps k :
  array_at m a ps -> (k <= length ps)%nat ->
  count_pointers n m a k = if bool_decide (length ps <= k + n)%nat then inr (length ps) else inl (- POSIX_E2BIG).
Proof.
  intros [Hz Ht]. revert k. induction n as [|n IH]; intros k Hk; cbn [count_pointers];
    rewrite Ht, char_at_inside by done.
  - case_bool_decide; [rewrite bool_decide_true by lia; f_equal; lia|by rewrite bool_decide_false by lia].
  - case_bool_decide; [rewrite bool_decide_true by lia; f_equal; lia|].
    rewrite IH by lia. by replace (k + 1 + n)%nat with (k + Datatypes.S n)%nat by lia.
Qed.

Lemma chars_from_spec n m a s : text_at m a s -> (length s <= n)%nat -> chars_from n m a = s.
Proof.
  revert n a. induction s as [|c s IH]; intros n a [Hz Ht] Hn.
  - destruct n; [done|]. cbn [chars_from]. specialize (Ht 0%nat ltac:(cbn; lia)). rewrite Z.add_0_r in Ht. by rewrite Ht.
  - destruct n; [cbn in Hn; lia|]. cbn [chars_from]. apply Forall_cons in Hz as [Hc Hz].
    pose proof (Ht 0%nat ltac:(cbn; lia)) as H0. rewrite Z.add_0_r in H0. change (char_at (c :: s) 0) with c in H0.
    rewrite H0. destruct (Z.eqb_spec c 0); [done|]. f_equal. apply IH; [|cbn in Hn; lia]. split; [done|].
    intros i Hi. specialize (Ht (Datatypes.S i) ltac:(cbn; lia)). change (char_at (c :: s) (Datatypes.S i)) with (char_at s i) in Ht.
    rewrite <- Ht. f_equal. lia.
Qed.

(** The fuel of [string_in] is enough. *)
Lemma string_in_spec m a s : text_at m a s -> string_in m a = s.
Proof.
  intros H. apply chars_from_spec; [done|]. destruct H as [Hz Ht].
  set (l := (fun i => a + Z.of_nat i) <$> seq 0 (length s)).
  assert (length s = length l) as -> by (unfold l; by rewrite length_fmap, length_seq).
  assert (NoDup l) as Hl by (apply NoDup_fmap_2; [intros i j ?; lia|apply NoDup_seq]).
  rewrite <- (size_list_to_set (C := gset Z) l Hl), <- size_dom. apply subseteq_size.
  intros x Hx%elem_of_list_to_set. unfold l in Hx. apply list_elem_of_fmap in Hx as (i & -> & Hi%elem_of_seq).
  apply elem_of_dom. specialize (Ht i ltac:(lia)). unfold byte_in in Ht.
  destruct (m !! (a + Z.of_nat i)); [done|]. cbn in Ht. pose proof (char_at_inside s i Hz) as Hb.
  rewrite <- Ht in Hb. rewrite bool_decide_false in Hb by lia. done.
Qed.

(** ** Copying a string *)

Lemma copy_bytes_spec next text n m :
  0 <= next -> next + Z.of_nat n <= 2 ^ 32 -> apart next (next + Z.of_nat n) text (Z.of_nat n) ->
  outside_same next (next + Z.of_nat n) m (copy_bytes next text n m) /\
  forall i, (i < n)%nat -> byte_in (copy_bytes next text n m) (next + Z.of_nat i) = byte_in m (text + Z.of_nat i).
Proof.
  intros H0 Hmax. unfold copy_bytes.
  assert (forall k, (k <= n)%nat -> apart next (next + Z.of_nat n) text (Z.of_nat n) ->
    let m' := foldl (fun m i => <[u32 (next + i) := byte_in m (text + i)]> m) m (seqZ 0 (Z.of_nat k)) in
    outside_same next (next + Z.of_nat k) m m' /\
    forall i, (i < k)%nat -> byte_in m' (next + Z.of_nat i) = byte_in m (text + Z.of_nat i)) as H.
  { intros k Hk Ha m'. subst m'. induction k as [|k IH].
    { split; [apply outside_same_refl|intros; lia]. }
    rewrite Nat2Z.inj_succ, <- Z.add_1_r, seqZ_app, foldl_app by lia.
    rewrite (seqZ_cons _ 1), (seqZ_nil _ (Z.pred 1)) by lia. destruct IH as [IO IB]; [lia|]. revert IO IB.
    generalize (foldl (fun m i => <[u32 (next + i) := byte_in m (text + i)]> m) m (seqZ 0 (Z.of_nat k))).
    intros m2 IO IB. cbn [foldl]. rewrite Z.add_0_l, u32_small by lia. split.
    - intros a Hout. rewrite lookup_insert_ne by lia. apply IO. lia.
    - intros i Hi. unfold byte_in at 1. destruct (decide (i = k)) as [->|Hne].
      + rewrite lookup_insert_eq. cbn. apply (byte_outside next (next + Z.of_nat k)); [done|].
        unfold apart in *. lia.
      + rewrite lookup_insert_ne by lia. apply IB. lia. }
  intros Ha. by apply H.
Qed.

(** A string outside the stack is copied below [sp], unless it is too long. *)
Lemma copy_stack_string_spec sp lo text s m :
  text_at m text s -> text <> 0 -> 0 <= lo -> lo + 128 <= sp < 2 ^ 32 ->
  apart lo sp text (Z.of_nat (length s) + 1) ->
  copy_stack_string sp lo text m =
    if bool_decide (length s <= 127)%nat
    then let next := sp - (Z.of_nat (length s) + 1) in
         Some (inr next, copy_bytes next text (length s + 1) m)
    else Some (inl (- POSIX_E2BIG), m).
Proof.
  intros Ht Hnz Hlo Hroom Ha. unfold copy_stack_string.
  destruct (Z.eqb_spec text 0); [done|]. rewrite (string_length_spec _ _ _ s) by (done || lia).
  cbn [Nat.add USERMODE_STRING_MAX Nat.sub]. case_bool_decide; [|done].
  rewrite u32_small by lia. destruct (Z.ltb_spec sp (lo + Z.of_nat (length s + 1))); [lia|].
  by replace (Z.of_nat (length s + 1)) with (Z.of_nat (length s) + 1) by lia.
Qed.

Lemma copied_string next text s m :
  text_at m text s -> 0 <= next -> next + Z.of_nat (length s) + 1 <= 2 ^ 32 ->
  apart next (next + (Z.of_nat (length s) + 1)) text (Z.of_nat (length s) + 1) ->
  outside_same next (next + (Z.of_nat (length s) + 1)) m (copy_bytes next text (length s + 1) m) /\
  text_at (copy_bytes next text (length s + 1) m) next s.
Proof.
  intros [Hz Ht] H0 Hmax Ha. pose proof (copy_bytes_spec next text (length s + 1) m H0) as Hc.
  replace (Z.of_nat (length s + 1)) with (Z.of_nat (length s) + 1) in Hc by lia.
  destruct Hc as [HO HB]; [lia|done|]. split; [done|]. split; [done|].
  intros i Hi. rewrite HB by lia. by apply Ht.
Qed.

(** ** Copying all strings *)

(** The strings [ss] are where [ps] points, away from the stack. *)
Definition texts_at (lo hi : Z) (m : memory) (ps : list Z) (ss : list (list Z)) : Prop :=
  Forall2 (fun p s => text_at m p s /\ p <> 0 /\ apart lo hi p (Z.of_nat (length s) + 1)) ps ss.

Lemma texts_outside lo hi m m' ps ss : outside_same lo hi m m' -> texts_at lo hi m ps ss -> texts_at lo hi m' ps ss.
Proof.
  intros H. unfold texts_at. induction 1 as [|p s ps ss (H1 & H2 & H3) _ IH]; constructor; [|done].
  split_and!; try done. by apply (text_outside lo hi m).
Qed.

(** Copies of [ss] at the addresses [as_], each below the one before it, from [sp] down to [sp']. *)
Inductive copies (m : memory) : Z -> list Z -> list (list Z) -> Z -> Prop :=
| copies_nil sp : copies m sp [] [] sp
| copies_cons sp a as_ s ss sp' :
    a + Z.of_nat (length s) + 1 = sp -> text_at m a s -> copies m a as_ ss sp' ->
    copies m sp (a :: as_) (s :: ss) sp'.

Lemma copies_le m sp as_ ss sp' : copies m sp as_ ss sp' -> sp' <= sp.
Proof. induction 1; lia. Qed.

Lemma copies_outside lo hi m m' sp as_ ss sp' :
  copies m sp as_ ss sp' -> outside_same lo hi m m' -> hi <= sp' \/ sp <= lo -> copies m' sp as_ ss sp'.
Proof.
  intros H HO. induction H as [|sp a as_ s ss sp' Hs Ht Hc IH]; intros Hhi; econstructor; try done.
  - apply (text_outside lo hi m); try done. apply copies_le in Hc. unfold apart. lia.
  - apply IH. lia.
Qed.

Lemma copies_length m sp as_ ss sp' : copies m sp as_ ss sp' -> length as_ = length ss.
Proof. induction 1; cbn; lia. Qed.

Lemma copies_texts m sp as_ ss sp' : copies m sp as_ ss sp' -> Forall2 (text_at m) as_ ss.
Proof. induction 1; by constructor. Qed.

Lemma copies_range m sp as_ ss sp' : copies m sp as_ ss sp' -> Forall (fun a => sp' <= a < sp) as_.
Proof.
  induction 1 as [|sp a as_ s ss sp' Hs Ht Hc IH]; constructor.
  - apply copies_le in Hc. lia.
  - eapply Forall_impl; [exact IH|]. cbn. intros. lia.
Qed.

Definition short (s : list Z) : bool := bool_decide (length s <= 127)%nat.

(** [text] yields the pointers [ps] as long as memory outside the stack is as in [m0]. *)
Lemma copy_strings_spec lo hi m0 (text : memory -> nat -> Z) ps ss : forall n sp m,
  texts_at lo hi m0 (drop n ps) ss ->
  (forall m i, outside_same lo hi m0 m -> (i < length ps)%nat -> text m i = char_at ps i) ->
  outside_same lo hi m0 m -> 0 <= lo -> hi < 2 ^ 32 -> sp <= hi -> lo + 128 * Z.of_nat (length ss) <= sp ->
  exists r m', copy_strings (length ss) n text lo sp m = Some (r, m') /\
    (if forallb short ss
     then exists as_ sp', r = inr (as_, sp') /\ copies m' sp as_ ss sp' /\
       sp - 128 * Z.of_nat (length ss) <= sp' /\ outside_same sp' sp m m'
     else r = inl (- POSIX_E2BIG) /\ outside_same lo hi m m').
Proof.
  induction ss as [|s ss IH]; intros n sp m Htx Htext Hm Hlo Hhi Hsp Hroom.
  { exists (inr ([], sp)), m. split; [done|]. exists [], sp. split_and!; try done; [constructor|cbn; lia]. }
  inversion Htx as [|p s' ps' ss' Hp Hps Ed Es]; subst.
  assert (ps !! n = Some p) as Hn by (rewrite <- (Nat.add_0_r n), <- lookup_drop, <- Ed; done).
  assert (drop (n + 1) ps = ps') as Hd by (rewrite <- drop_drop, <- Ed; done).
  assert (text m n = p) as Ht.
  { rewrite Htext; [|done|by eapply lookup_lt_Some]. unfold char_at. by rewrite Hn. }
  destruct Hp as (Ht0 & Hnz & Ha). pose proof (text_outside _ _ _ _ _ _ Hm Ha Ht0) as Htm.
  cbn [copy_strings length]. unfold bind at 1, get at 1. cbn [length] in Hroom. unfold bind at 1.
  rewrite Ht, (copy_stack_string_spec sp lo p s m) by (done || lia || unfold apart in *; lia).
  cbn [forallb]. unfold short at 1. destruct (bool_decide_reflect (length s <= 127)%nat) as [Hshort|].
  2: { exists (inl (- POSIX_E2BIG)), m. split; [done|]. cbn [andb]. split; [done|apply outside_same_refl]. }
  set (a := sp - (Z.of_nat (length s) + 1)). cbv zeta. cbn [andb].
  destruct (copied_string a p s m) as [HO HT]; [done|lia|lia|unfold apart in *; lia|].
  set (m1 := copy_bytes a p (length s + 1) m) in *.
  replace (a + (Z.of_nat (length s) + 1)) with sp in HO by (unfold a; lia).
  assert (outside_same lo hi m m1) as HO' by (eapply outside_same_weaken; [| |exact HO]; lia).
  destruct (IH (n + 1)%nat a m1) as (r & m' & E & Hr); try done; try lia.
  { by rewrite Hd. }
  { by eapply outside_same_trans. }
  unfold bind at 1. rewrite E. destruct (forallb short ss).
  - destruct Hr as (as_ & sp' & -> & Hc & Hlow & HO2). exists (inr (a :: as_, sp')), m'. split; [done|].
    exists (a :: as_), sp'. pose proof (copies_le _ _ _ _ _ Hc). split_and!; try done.
    + econstructor; [|apply (text_outside sp' a m1); [done|unfold apart; lia|done]|done]. unfold a; lia.
    + cbn [length]. lia.
    + apply (outside_same_trans _ _ _ m1); [apply (outside_same_weaken a sp)|apply (outside_same_weaken sp' a)];
        try done; unfold a; lia.
  - destruct Hr as (-> & HO2). exists (inl (- POSIX_E2BIG)), m'. split; [done|]. split; [done|].
    by eapply outside_same_trans.
Qed.

(** ** Pushing words *)

Lemma word_store a v m : 0 <= a -> a + 4 <= 2 ^ 32 -> 0 <= v < 2 ^ 32 -> word_in (store32 a v m) a = v.
Proof.
  intros Ha Hm Hv. unfold word_in, Mm.rd32, byte_in, store32.
  rewrite !store_at_lookup by (cbn; lia). cbn [length le32]. repeat case_decide; try lia.
  rewrite Z.sub_diag, !Z.add_simpl_l. change (Z.to_nat 0) with 0%nat. change (Z.to_nat 1) with 1%nat.
  change (Z.to_nat 2) with 2%nat. change (Z.to_nat 3) with 3%nat. unfold le32. cbn [lookup list_lookup default].
  cbn [from_option id]. pose proof (le32_sum v Hv). lia.
Qed.

Lemma store32_outside a v m : 0 <= a -> a + 4 <= 2 ^ 32 -> outside_same a (a + 4) m (store32 a v m).
Proof.
  intros Ha Hm x Hx. unfold store32. rewrite store_at_lookup by (cbn; lia). cbn [length le32].
  by case_decide; [lia|].
Qed.

Lemma push_all_spec lo vs : forall sp m,
  Forall (fun v => 0 <= v < 2 ^ 32) vs -> 0 <= lo -> sp < 2 ^ 32 -> lo + 4 * Z.of_nat (length vs) <= sp ->
  exists m', push_all lo sp vs m = Some (inr (sp - 4 * Z.of_nat (length vs)), m') /\
    outside_same (sp - 4 * Z.of_nat (length vs)) sp m m' /\
    forall i, (i < length vs)%nat -> word_in m' (sp - 4 * Z.of_nat (length vs) + 4 * Z.of_nat i) = char_at vs i.
Proof.
  induction vs as [|v vs IH]; intros sp m Hv Hlo Hsp Hroom.
  { exists m. cbn. rewrite Z.sub_0_r. split_and!; [done|apply outside_same_refl|intros; lia]. }
  apply Forall_cons in Hv as [Hv Hvs]. cbn [length] in *.
  destruct (IH sp m Hvs Hlo Hsp ltac:(lia)) as (m1 & E & HO & HW). clear IH.
  set (sp1 := sp - 4 * Z.of_nat (length vs)) in *.
  replace (sp - 4 * Z.of_nat (Datatypes.S (length vs))) with (sp1 - 4) by (unfold sp1; lia).
  cbn [push_all]. unfold bind. rewrite E. unfold push. rewrite u32_small by lia.
  destruct (Z.ltb_spec sp1 (lo + 4)); [unfold sp1 in *; lia|].
  pose proof (store32_outside (sp1 - 4) v m1 ltac:(lia) ltac:(lia)) as HS. replace (sp1 - 4 + 4) with sp1 in HS by lia.
  eexists. split; [done|]. split.
  - apply (outside_same_trans _ _ _ m1); [apply (outside_same_weaken sp1 sp)|apply (outside_same_weaken (sp1 - 4) sp1)];
      try done; unfold sp1; lia.
  - intros [|i] Hi.
    + rewrite Z.mul_0_r, Z.add_0_r. apply word_store; [lia|unfold sp1; lia|exact Hv].
    + rewrite (word_outside (sp1 - 4) sp1 m1) by (done || unfold apart; lia).
      change (char_at (v :: vs) (Datatypes.S i)) with (char_at vs i). rewrite <- HW by lia. f_equal. lia.
Qed.

Lemma push_all_app lo xs ys sp m :
  push_all lo sp (xs ++ ys) m = bind (push_all lo sp ys) (fun sp => push_all lo sp xs) m.
Proof.
  induction xs as [|x xs IH]; cbn [app push_all].
  - unfold bind, ret. by destruct (push_all lo sp ys m) as [[[|] ?]|].
  - unfold bind at 1. rewrite IH. unfold bind. by destruct (push_all lo sp ys m) as [[[|] ?]|].
Qed.

Lemma push_last lo v sp m : push_all lo sp [v] m = push lo sp v m.
Proof. done. Qed.

(** The words the code pushes, lowest address first. *)
Definition frame (argc : Z) (argv envp : list Z) : list Z := argc :: argv ++ 0 :: envp ++ [0].

Lemma push_frame lo sp argc argv envp m :
  (bind (push lo sp 0) (fun sp => bind (push_all lo sp envp) (fun sp => bind (push lo sp 0) (fun sp =>
     bind (push_all lo sp argv) (fun sp => push lo sp argc))))) m
  = push_all lo sp (frame argc argv envp) m.
Proof.
  unfold frame. cbn [push_all]. unfold bind. rewrite push_all_app. unfold bind. cbn [push_all].
  unfold bind. rewrite push_all_app. unfold bind. rewrite push_last.
  destruct (push lo sp 0 m) as [[[|sp1] m1]|]; try done.
  destruct (push_all lo sp1 envp m1) as [[[|sp2] m2]|]; try done.
  destruct (push lo sp2 0 m2) as [[[|sp3] m3]|]; try done.
Qed.

Lemma char_at_app_l s t i : (i < length s)%nat -> char_at (s ++ t) i = char_at s i.
Proof. intros Hi. unfold char_at. by rewrite lookup_app_l. Qed.
Lemma char_at_app_r s t i : char_at (s ++ t) (length s + i) = char_at t i.
Proof. unfold char_at. by rewrite lookup_app_r, Nat.add_sub_swap, Nat.sub_diag by lia. Qed.

(** A zero ends an array in a frame. *)
Lemma array_in m a f k ps rest :
  (forall i, (i < length f)%nat -> word_in m (a + 4 * Z.of_nat i) = char_at f i) ->
  (exists pre, f = pre ++ ps ++ 0 :: rest /\ length pre = k) -> Forall (fun p => p <> 0) ps ->
  array_at m (a + 4 * Z.of_nat k) ps.
Proof.
  intros HW (pre & -> & <-) Hz. split; [done|]. intros i Hi.
  rewrite <- Z.add_assoc, <- Z.mul_add_distr_l, <- Nat2Z.inj_add.
  rewrite HW by (rewrite !length_app; cbn [length]; lia). rewrite char_at_app_r.
  destruct (decide (i = length ps)) as [->|Hne].
  - rewrite (char_at_end ps) by lia. pose proof (char_at_app_r ps (0 :: rest) 0) as He.
    by rewrite Nat.add_0_r in He.
  - apply char_at_app_l. lia.
Qed.

(** ** The whole stack *)

(** The null-terminated vector of the strings [ss] at [a], a null pointer for none. *)
Definition vector_at (lo hi : Z) (m : memory) (a : Z) (ss : list (list Z)) : Prop :=
  a = 0 /\ ss = [] \/
  a <> 0 /\ exists ps, array_at m a ps /\ apart lo hi a (4 * Z.of_nat (length ps) + 4) /\ texts_at lo hi m ps ss.

(** What the start code finds at [sp] and hands to [main]. *)
Record started (m : memory) (sp : Z) (args envs : list (list Z)) : Prop := {
  st_argc : word_in m sp = Z.of_nat (length args);
  st_argv : exists ps, array_at m (sp + 4) ps /\ Forall2 (text_at m) ps args;
  st_envp : exists ps, array_at m (sp + 4 + 4 * Z.of_nat (length args) + 4) ps /\ Forall2 (text_at m) ps envs
}.

Definition accepted (args envs : list (list Z)) : bool :=
  bool_decide (length args <= USERMODE_ARG_MAX)%nat && bool_decide (length envs <= USERMODE_ENV_MAX)%nat &&
  forallb short envs && forallb short args.

(** A program without arguments gets its path as the only one. *)
Definition effective (path : list Z) (args : list (list Z)) : list (list Z) :=
  match args with [] => [path] | _ => args end.

Lemma count_array_spec max lo hi m a ss :
  vector_at lo hi m a ss ->
  count_array max a m = Some (if bool_decide (length ss <= max)%nat then inr (length ss) else inl (- POSIX_E2BIG), m).
Proof.
  unfold count_array. intros [[-> ->]|(Ha & ps & Hp & _ & Ht)].
  - cbn. by rewrite bool_decide_true by lia.
  - destruct (Z.eqb_spec a 0); [done|]. rewrite (count_pointers_spec _ _ _ ps) by (done || lia).
    by rewrite (Forall2_length _ _ _ Ht).
Qed.

Lemma vector_outside lo hi lo' hi' m m' a ss :
  outside_same lo' hi' m m' -> lo <= lo' -> hi' <= hi -> vector_at lo hi m a ss -> vector_at lo hi m' a ss.
Proof.
  intros HO Hl Hh. apply (outside_same_weaken _ _ lo hi) in HO; [|done..].
  intros [?|(Hnz & ps & Hp & Ha & Ht)]; [by left|right]. split; [done|]. exists ps.
  split_and!; [by apply (array_outside lo hi m)|done|by apply (texts_outside lo hi m)].
Qed.

Lemma vector_weaken lo hi lo' hi' m a ss :
  lo <= lo' -> hi' <= hi -> vector_at lo hi m a ss -> vector_at lo' hi' m a ss.
Proof.
  intros Hl Hh [?|(Hnz & ps & Hp & Ha & Ht)]; [by left|right]. split; [done|]. exists ps.
  split_and!; [done|unfold apart in *; lia|]. eapply Forall2_impl; [exact Ht|].
  intros x s (? & ? & ?). split_and!; try done. unfold apart in *. lia.
Qed.

Lemma land_4 x : 0 <= x < 2 ^ 32 -> Z.land x (u32 (Z.lnot 3)) = x - x mod 4.
Proof. intros Hx. by apply (land_mask32 x 2). Qed.

(** The two copies and the frame below them, once the counts are known. *)
Lemma frame_started lo hi m m1 m2 ee ea args envs sp1 sp2 :
  copies m1 hi ee envs sp1 -> outside_same sp1 hi m m1 ->
  copies m2 sp1 ea args sp2 -> outside_same sp2 sp1 m1 m2 ->
  0 <= lo -> hi < 2 ^ 32 -> lo + 128 <= sp2 - 4 * (Z.of_nat (length args + length envs) + 3) ->
  exists sp m', push_all lo (Z.land sp2 (u32 (Z.lnot 3))) (frame (Z.of_nat (length args)) ea ee) m2 = Some (inr sp, m') /\
    lo <= sp <= hi /\ sp mod 4 = 0 /\ outside_same sp hi m m' /\ started m' sp args envs.
Proof.
  intros Ce Oe Ca Oa Hlo Hhi Hroom. pose proof (copies_le _ _ _ _ _ Ce). pose proof (copies_le _ _ _ _ _ Ca).
  pose proof (copies_length _ _ _ _ _ Ce) as Le. pose proof (copies_length _ _ _ _ _ Ca) as La.
  rewrite land_4 by lia. pose proof (Z.mod_pos_bound sp2 4 ltac:(lia)). set (top := sp2 - sp2 mod 4).
  assert (length (frame (Z.of_nat (length args)) ea ee) = length args + length envs + 3)%nat as Lf.
  { unfold frame. cbn [length]. rewrite length_app. cbn [length]. rewrite length_app. cbn [length]. lia. }
  pose proof (copies_range _ _ _ _ _ Ce) as Re. pose proof (copies_range _ _ _ _ _ Ca) as Ra.
  destruct (push_all_spec lo (frame (Z.of_nat (length args)) ea ee) top m2) as (m' & E & HO & HW); try lia.
  { unfold frame. constructor; [lia|]. apply Forall_app. split; [eapply Forall_impl; [exact Ra|cbn; intros; lia]|].
    constructor; [lia|]. apply Forall_app. split; [eapply Forall_impl; [exact Re|cbn; intros; lia]|].
    constructor; [lia|constructor]. }
  rewrite Lf in *. set (sp := top - 4 * Z.of_nat (length args + length envs + 3)) in *.
  assert (sp <= top <= sp2) as Hsp by (unfold sp, top; lia).
  exists sp, m'. split; [exact E|]. split; [unfold sp, top; lia|]. split_and!.
  - unfold sp, top.  apply Z.mod_divide; [lia|].
    apply Z.divide_sub_r; [exists (sp2 / 4); pose proof (Z.div_mod sp2 4 ltac:(lia)); lia|exists (Z.of_nat (length args + length envs + 3)); lia].
  - apply (outside_same_trans _ _ _ m1), (outside_same_trans _ _ _ m2); [apply (outside_same_weaken sp1 hi)|
      apply (outside_same_weaken sp2 sp1)|apply (outside_same_weaken sp top)]; try done; lia.
  - assert (copies m' sp1 ea args sp2) as Ca' by (eapply copies_outside; [exact Ca|exact HO|lia]).
    assert (copies m' hi ee envs sp1) as Ce'.
    { eapply copies_outside; [eapply copies_outside; [exact Ce|exact Oa|lia]|exact HO|lia]. }
    split.
    + specialize (HW 0%nat ltac:(lia)). by rewrite Z.add_0_r in HW.
    + exists ea. split; [|by eapply copies_texts]. apply (array_in m' sp (frame (Z.of_nat (length args)) ea ee) 1 ea (ee ++ [0])); [by rewrite Lf|by exists [Z.of_nat (length args)]|].
      eapply Forall_impl; [exact Ra|cbn; intros; lia].
    + exists ee. split; [|by eapply copies_texts].
      replace (sp + 4 + 4 * Z.of_nat (length args) + 4) with (sp + 4 * Z.of_nat (length args + 2)) by lia.
      apply (array_in m' sp (frame (Z.of_nat (length args)) ea ee) (length args + 2) ee []); [by rewrite Lf| |].
      * exists (Z.of_nat (length args) :: ea ++ [0]). split; [unfold frame; cbn; by rewrite <- app_assoc|].
        cbn [length]. rewrite length_app. cbn [length]. lia.
      * eapply Forall_impl; [exact Re|cbn; intros; lia].
Qed.

Lemma envs_copied lo hi m0 envp envs m sp :
  vector_at lo hi m0 envp envs -> outside_same lo hi m0 m -> 0 <= lo -> hi < 2 ^ 32 -> sp <= hi ->
  lo + 128 * Z.of_nat (length envs) <= sp ->
  exists r m', copy_strings (length envs) 0 (fun m i => word_in m (envp + 4 * Z.of_nat i)) lo sp m = Some (r, m') /\
    (if forallb short envs
     then exists as_ sp', r = inr (as_, sp') /\ copies m' sp as_ envs sp' /\
       sp - 128 * Z.of_nat (length envs) <= sp' /\ outside_same sp' sp m m'
     else r = inl (- POSIX_E2BIG) /\ outside_same lo hi m m').
Proof.
  intros [[-> ->]|(Hnz & ps & Hps & Ha & Ht)] Hm Hlo Hhi Hsp Hroom.
  { eexists (inr ([], sp)), m. split; [done|]. exists [], sp. split_and!; try done; [constructor|cbn; lia]. }
  apply (copy_strings_spec lo hi m0 _ ps envs 0 sp m); try done.
  intros m' i Hm' Hi. apply (array_outside _ _ _ _ _ _ Hm' Ha) in Hps. by apply Hps; lia.
Qed.

Lemma args_copied lo hi m0 path p argv args m sp :
  text_at m0 path p -> path <> 0 -> apart lo hi path (Z.of_nat (length p) + 1) ->
  vector_at lo hi m0 argv args -> outside_same lo hi m0 m -> 0 <= lo -> hi < 2 ^ 32 -> sp <= hi ->
  lo + 128 * Z.of_nat (length (effective p args)) <= sp ->
  exists r m', copy_strings (length (effective p args)) 0
      (fun m i => if negb (argv =? 0) && negb (word_in m argv =? 0) then word_in m (argv + 4 * Z.of_nat i) else path)
      lo sp m = Some (r, m') /\
    (if forallb short (effective p args)
     then exists as_ sp', r = inr (as_, sp') /\ copies m' sp as_ (effective p args) sp' /\
       sp - 128 * Z.of_nat (length (effective p args)) <= sp' /\ outside_same sp' sp m m'
     else r = inl (- POSIX_E2BIG) /\ outside_same lo hi m m').
Proof.
  intros Hp Hpnz Hpa Hargs Hm Hlo Hhi Hsp Hroom.
  destruct args as [|s args].
  - assert (forall m', outside_same lo hi m0 m' -> negb (argv =? 0) && negb (word_in m' argv =? 0) = false) as Hnone.
    { intros m' Hm'. destruct Hargs as [[-> _]|(Hnz & ps & Hps & Ha & Ht)]; [done|].
      apply Forall2_length in Ht. destruct ps; [|done]. apply (array_outside _ _ _ _ _ _ Hm' Ha) in Hps.
      destruct Hps as [_ Hw]. specialize (Hw 0%nat ltac:(lia)). rewrite Z.mul_0_r, Z.add_0_r in Hw.
      rewrite Hw. by rewrite andb_false_r. }
    apply (copy_strings_spec lo hi m0 _ [path] [p] 0 sp m); try done; [by constructor|].
    intros m' [|i] Hm' Hi; [|cbn in Hi; lia]. by rewrite Hnone.
  - destruct Hargs as [[_ ?]|(Hnz & ps & Hps & Ha & Ht)]; [done|].
    apply (copy_strings_spec lo hi m0 _ ps (s :: args) 0 sp m); try done.
    intros m' i Hm' Hi. apply (array_outside _ _ _ _ _ _ Hm' Ha) in Hps. destruct Hps as [Hz Hw].
    pose proof (Hw 0%nat ltac:(lia)) as H0. rewrite Z.mul_0_r, Z.add_0_r in H0. rewrite H0, char_at_inside by done.
    rewrite bool_decide_false by lia. destruct (Z.eqb_spec argv 0); [done|]. cbn [negb andb]. apply Hw. lia.
Qed.

(** [build_initial_stack] accepts exactly the vectors that are small enough, and then
    leaves a stack from which the start code recovers them. *)
Lemma build_stack lo hi path p argv args envp envs m :
  0 <= lo -> lo + 3400 <= hi < 2 ^ 32 ->
  text_at m path p -> path <> 0 -> apart lo hi path (Z.of_nat (length p) + 1) ->
  vector_at lo hi m argv args -> vector_at lo hi m envp envs ->
  exists r m', build_initial_stack lo hi path argv envp m = Some (r, m') /\
    if accepted (effective p args) envs
    then exists sp, r = inr sp /\ lo <= sp <= hi /\ sp mod 4 = 0 /\ outside_same sp hi m m' /\
      started m' sp (effective p args) envs
    else r = inl (- POSIX_E2BIG) /\ outside_same lo hi m m'.
Proof.
  intros Hlo Hhi Hp Hpnz Hpa Hargs Henvs. unfold build_initial_stack, accepted.
  unfold bind at 1. rewrite (count_array_spec _ lo hi m argv args Hargs).
  assert (bool_decide (length (effective p args) <= USERMODE_ARG_MAX)%nat =
          bool_decide (length args <= USERMODE_ARG_MAX)%nat) as ->.
  { destruct args; cbn [effective length]; [|done]. unfold USERMODE_ARG_MAX. by rewrite !bool_decide_true by lia. }
  case_bool_decide as Hac; cbn [andb].
  2: { eexists _, m. split; [done|]. split; [done|apply outside_same_refl]. }
  assert ((if (length args =? 0)%nat then 1%nat else length args) = length (effective p args)) as -> by by destruct args.
  unfold bind at 1. rewrite (count_array_spec _ lo hi m envp envs Henvs).
  case_bool_decide as Hec; cbn [andb].
  2: { eexists _, m. split; [done|]. split; [done|apply outside_same_refl]. }
  unfold USERMODE_ARG_MAX, USERMODE_ENV_MAX in *.
  destruct (envs_copied lo hi m envp envs m hi Henvs) as (r & m1 & E & Hr); try lia; [apply outside_same_refl|].
  unfold bind at 1. rewrite E. destruct (forallb short envs); cbn [andb].
  2: { destruct Hr as (-> & HO). eexists _, m1. by split. }
  destruct Hr as (ee & sp1 & -> & Ce & Hs1 & O1). cbn [fst snd]. clear E.
  destruct (args_copied lo hi m path p argv args m1 sp1) as (r & m2 & E & Hr); try done; try lia.
  { apply (outside_same_weaken sp1 hi); [lia..|done]. }
  { apply copies_le in Ce. lia. }
  { destruct args; cbn [effective length] in *; lia. }
  unfold bind at 1. rewrite E. destruct (forallb short (effective p args)).
  2: { destruct Hr as (-> & HO). eexists _, m2. split; [done|]. split; [done|].
       apply (outside_same_trans _ _ _ m1); [apply (outside_same_weaken sp1 hi); [lia..|done]|done]. }
  destruct Hr as (ea & sp2 & -> & Ca & Hs2 & O2). cbn [fst snd]. rewrite push_frame.
  assert (length (effective p args) <= 16)%nat as Hea by (destruct args; cbn [effective length] in *; lia).
  destruct (frame_started lo hi m m1 m2 ee ea (effective p args) envs sp1 sp2) as (sp & m' & E2 & Hf);
    try done; try lia.
  exists (inr sp), m'. split; [done|]. by exists sp.
Qed.

End UserStack.

(** * Steps of [usermode_exec]

    Each step of [usermode_exec] on a machine whose kernel is running a process: the two
    calls of the loader, the choice of the slot, the pages of the segments, and the
    process. *)

Import FsTypes FsPath Vfs VfsWp Pseudo FsCore FsReader Fd FdInv FdSteps FdLife Sprg SprgRead SprgLoad SprgProps Usermode UserStack.
Import Paging PagingWalk PagingProps.

Module UsermodeExec.

Section Exec.
Context {S W : Type} `{!storage S} `{!services W}.
Context (d : driver) `{!file_driver (driver_ops d)} `{!file_reader (driver_ops d)}.
#[local] Notation kernel := (kernel S W).
#[local] Notation machine := (machine S W).
#[local] Notation world := (world S W).

(** ** Files, as the current process sees them *)

Definition files_of (p : nat) (k : kernel) : fs S W := FsCore.set_cwd (pcwd (proc_at k p)) (fsys k).

(** The kernel after a call that left the file system in [f]. *)
Definition files_back (p : nat) (f : fs S W) (k : kernel) : kernel :=
  put_proc p (set_pcwd (cwd f) (proc_at k p)) (set_fsys f k).

Lemma files_of_back p f k : (p < length (g_processes k))%nat -> files_of p (files_back p f k) = f.
Proof.
  intros Hp. unfold files_of, files_back. rewrite proc_at_put, decide_True by done. by destruct f.
Qed.

Lemma load_spec im (m : M world unit) (s : machine) p (Q : Z + unit -> world -> Prop) :
  g_current_process (kern s) = Some p ->
  wp m (World (files_of p (kern s)) (mem s) im) Q ->
  exists r w, Q r w /\
    load im m s = Some (match r with inl rc => inl (sprg_error_to_posix rc) | inr _ => inr (image w) end,
                        set_mem (ram w) (set_kern (files_back p (files w) (kern s)) s)).
Proof.
  intros Hp Hm. apply wp_elim in Hm as (r & w & E & HQ). exists r, w. split; [done|].
  unfold load, on_fs. rewrite Hp. fold (files_of p (kern s)). rewrite E. cbn. by destruct r.
Qed.

Lemma back_booted p f k : booted k -> g_current_process k = Some p -> booted (files_back p f k).
Proof.
  intros HB Hp. apply (booted_fs (fun _ => Some (inr tt, f)) k (inr tt)); [done|]. unfold on_fs. by rewrite Hp.
Qed.

Lemma first_unused_insert l p v w i :
  l !! p = Some v -> state w = state v -> first_unused (<[p := w]> l) i = first_unused l i.
Proof.
  revert p i. induction l as [|x l IH]; intros [|p] i Hp Hs; cbn in *; try done.
  - injection Hp as ->. by rewrite Hs.
  - case_decide; [done|]. by apply IH.
Qed.

Lemma back_unused p f k :
  first_unused (g_processes (files_back p f k)) 0 = first_unused (g_processes k) 0.
Proof.
  unfold files_back. cbn. destruct (g_processes k !! p) as [v|] eqn:E.
  - apply (first_unused_insert _ _ v); [done|]. unfold proc_at. by rewrite E.
  - rewrite list_insert_ge; [done|]. by apply lookup_ge_None.
Qed.

Lemma find_pid_insert l p v w i n :
  l !! p = Some v -> state w = state v -> pid w = pid v -> find_pid (<[p := w]> l) i n = find_pid l i n.
Proof.
  revert p i. induction l as [|x l IH]; intros [|p] i Hp Hs Hn; cbn in *; try done.
  - injection Hp as ->. by rewrite Hs, Hn.
  - by rewrite (IH p).
Qed.

Lemma back_find p f k n : process_find_pid n (files_back p f k) = process_find_pid n k.
Proof.
  unfold files_back, process_find_pid. cbn. destruct (g_processes k !! p) as [v|] eqn:E.
  - apply (find_pid_insert _ _ v); [done|..]; unfold proc_at; by rewrite E.
  - rewrite list_insert_ge; [done|]. by apply lookup_ge_None.
Qed.

Lemma back_proc p f k q :
  (p < length (g_processes k))%nat ->
  proc_at (files_back p f k) q = if decide (q = p) then set_pcwd (cwd f) (proc_at k p) else proc_at k q.
Proof.
  intros Hp. unfold files_back. rewrite proc_at_put. change (g_processes (set_fsys f k)) with (g_processes k).
  destruct (decide (q = p)); [by rewrite decide_True|by rewrite decide_False by naive_solver].
Qed.

(** ** The slot *)

Definition segment_request (s : sprg_segment) : request :=
  (sg_vaddr s, u32 (sg_vaddr s + sg_memsz s), negb (Z.land (sg_flags s) SPRG_FLAG_W =? 0)).

Lemma fits_slot im lo hi :
  Forall word_segment (active_segments im) -> Forall (placed lo hi) (active_segments im) -> hi < 2 ^ 32 ->
  image_fits_slot im lo hi = true.
Proof.
  intros Hw Hp Hhi. unfold image_fits_slot. apply forallb_forall. intros s Hs. apply list_elem_of_In in Hs.
  rewrite Forall_forall in Hw, Hp. destruct (Hw s Hs), (Hp s Hs). rewrite u32_small by lia. lia.
Qed.

Lemma fits_not im lo hi lo' hi' :
  Forall word_segment (active_segments im) -> Forall (placed lo hi) (active_segments im) -> hi < 2 ^ 32 ->
  active_segments im <> [] -> Forall (fun s => 0 < sg_memsz s) (active_segments im) -> hi' <= lo ->
  image_fits_slot im lo' hi' = false.
Proof.
  intros Hw Hp Hhi Hne Hpos Hord. unfold image_fits_slot. destruct (active_segments im) as [|s segs]; [done|].
  apply Forall_cons in Hw as [[] _]. apply Forall_cons in Hp as [[] _]. apply Forall_cons in Hpos as [Hpos _].
  cbn [forallb]. rewrite u32_small by lia. lia.
Qed.

(** The slot a program runs in: the shell's only if no program is running. *)
Definition runs_in (t : slot) (depth : Z) : Prop := t = program_slot \/ t = shell_slot /\ depth = 0.

Lemma choose_slot_spec im t depth (s : machine) :
  Forall word_segment (active_segments im) -> Forall (placed (program_min t) (program_max t)) (active_segments im) ->
  active_segments im <> [] -> Forall (fun s => 0 < sg_memsz s) (active_segments im) -> runs_in t depth ->
  choose_slot im depth s = Some (inr t, s).
Proof.
  intros Hw Hp Hne Hpos [->|[-> ->]]; unfold choose_slot.
  - by rewrite (fits_slot im) by done.
  - rewrite (fits_not im _ _ _ _ Hw Hp) by done. by rewrite (fits_slot im) by done.
Qed.

(** ** Pages *)

Section Pages.
Variable pt_addr : Z.
Hypothesis pt_aligned : pt_addr mod 4096 = 0.
Hypothesis pt_below : 0 <= pt_addr /\ pt_addr + 16 * 4096 <= 2 ^ 32.

Lemma open_segments_spec segs : forall (s : machine) perm,
  represents pt_addr (I386.tabs (pages s)) perm ->
  Forall (fun x => 0 <= sg_vaddr x /\ 0 < sg_memsz x /\ sg_vaddr x + sg_memsz x <= PAGING_IDENTITY_LIMIT) segs ->
  exists p, open_segments segs s = Some (inr tt, set_pages p s) /\
    represents pt_addr (I386.tabs p) (foldl grant32 perm (segment_request <$> segs)).
Proof using pt_aligned pt_below.
  induction segs as [|x segs IH]; intros s perm HR Hs.
  { exists (pages s). split; [by destruct s|done]. }
  apply Forall_cons in Hs as [(H1 & H2 & H3) Hs]. cbn [open_segments]. unfold bind at 1, set_user_range.
  destruct (set_user_range32 pt_addr pt_aligned pt_below (pages s) perm (sg_vaddr x) (u32 (sg_vaddr x + sg_memsz x))
    (negb (Z.land (sg_flags x) SPRG_FLAG_W =? 0)) HR H1) as (p1 & E & HR1).
  rewrite E. cbn [mbind option_bind]. assert (granted32 (segment_request x) = true) as Hg.
  { unfold granted32, segment_request, PAGING_IDENTITY_LIMIT in *. cbn [fst snd]. rewrite u32_small by lia. lia. }
  unfold segment_request in Hg. rewrite Hg. unfold bind, guard, ret. cbn [Z.eqb].
  destruct (IH (set_pages p1 s) _ HR1 Hs) as (p & E2 & HR2). exists p. rewrite E2. split; [done|]. exact HR2.
Qed.

End Pages.

End Exec.

End UsermodeExec.
