(* ===== verification/UsermodeProps.v ===== *)
(** * The promises of program execution

    The initial stack gives a program its arguments, and [usermode_exec] runs a program
    with its image in memory, its pages open and a process of its own. *)

From S2P Require Import Prelude Mm FsTypes FsPath Ramfs Vfs Pseudo FsCore FsLinks FsCoreProps Fd FdInv FdSteps FdLife FdProps RamfsDriver Sprg SprgRead SprgProps Paging PagingWalk PagingProps Usermode UserStack.
From stdpp Require Import base list option list_numbers gmap.
From Stdlib Require Import ZArith Lia ZifyBool.
Import FsTypes FsPath Vfs VfsWp Pseudo FsCore FsReader Fd FdInv FdSteps FdLife Sprg SprgRead SprgLoad SprgProps.
Import RamfsDriver FsCoreProps Usermode UserStack UsermodeExec Paging PagingWalk PagingProps.
Open Scope Z_scope.

Module UsermodeProps.

(** C24: The stack of a new program carries its arguments. For a path, an argument vector and an environment
    that lie outside a stack of at least 3400 bytes, [build_initial_stack] returns. It refuses with E2BIG
    exactly when there are more than 16 arguments, more than 8 environment strings or a string of more
    than 127 characters. Otherwise the stack pointer it returns is a multiple of 4 inside the stack, memory
    outside the part of the stack above it is unchanged, and the start code of the program finds there the
    argument count, a null-terminated vector of copies of the arguments (the path alone if there are none)
    and a null-terminated vector of copies of the environment strings. *)
Theorem initial_stack_carries_arguments lo hi path p argv args envp envs m :
  0 <= lo -> lo + 3400 <= hi < 2 ^ 32 ->
  text_at m path p -> path <> 0 -> apart lo hi path (Z.of_nat (length p) + 1) ->
  vector_at lo hi m argv args -> vector_at lo hi m envp envs ->
  exists r m', build_initial_stack lo hi path argv envp m = Some (r, m') /\
    if accepted (effective p args) envs
    then exists sp, r = inr sp /\ lo <= sp <= hi /\ sp mod 4 = 0 /\ outside_same sp hi m m' /\
      started m' sp (effective p args) envs
    else r = inl (- POSIX_E2BIG) /\ outside_same lo hi m m'.
Proof. apply build_stack. Qed.

(** ** Running a program *)

Lemma image_byte_placed b lo hi segs a v :
  Forall (placed lo hi) segs -> image_byte b segs a = Some v -> lo <= a < hi.
Proof.
  induction 1 as [|s segs [] _ IH]; cbn [image_byte]; [done|]. destruct (_ && _) eqn:E; [lia|done].
Qed.

Section Run.
Context {S W : Type} `{!storage S} `{!services W}.
Context (d : driver) `{!file_driver (driver_ops d)} `{!file_reader (driver_ops d)}.
#[local] Notation kernel := (kernel S W).
#[local] Notation machine := (machine S W).

Variable pt_addr : Z.
Hypothesis pt_aligned : pt_addr mod 4096 = 0.
Hypothesis pt_below : 0 <= pt_addr /\ pt_addr + 16 * 4096 <= 2 ^ 32.
Variable enter : Z -> Z -> machine -> option (Z * machine).
Variable l : layout.

(** A machine that is asked for the program [b] by the process [cur]: the file is there
    and can run in slot [t], and the caller's strings lie outside the slot. *)
Record launch (s : machine) (t : slot) (path argv envp : Z) (p : list Z) (args envs : list (list Z))
    (b : list Z) (cur : nat) (perm : permissions) : Prop := {
  la_booted : booted (kern s);
  la_current : g_current_process (kern s) = Some cur;
  la_depth : 0 <= g_usermode_exec_depth s < USERMODE_EXEC_DEPTH_MAX;
  la_slot : runs_in t (g_usermode_exec_depth s);
  la_file : readable d (files_of cur (kern s)) p b;
  la_suffix : sprg_has_prg_suffix p = true;
  la_runnable : runnable b SPRG_ARCH_I386 (program_min t) (program_max t);
  la_segments : Forall (fun x => 0 < sg_memsz x) (segments_of b);
  la_pages : represents pt_addr (I386.tabs (pages s)) perm;
  la_path : text_at (mem s) path p /\ path <> 0 /\ apart (program_min t) (stack_top t) path (Z.of_nat (length p) + 1);
  la_args : vector_at (program_min t) (stack_top t) (mem s) argv args;
  la_envs : vector_at (program_min t) (stack_top t) (mem s) envp envs
}.

(** The machine a program starts on. *)
Record entered (s s1 : machine) (t : slot) (sp : Z) (p : list Z) (args envs : list (list Z))
    (b : list Z) (cur c : nat) (perm : permissions) : Prop := {
  en_depth : g_usermode_exec_depth s1 = g_usermode_exec_depth s + 1;
  en_tss : g_usermode_tss s1 = Tss (kernel_stack_top l (g_usermode_exec_depth s)) (ss0 (g_usermode_tss s)) (iomap_base (g_usermode_tss s));
  en_image a v : image_byte b (segments_of b) a = Some v -> mem s1 !! a = Some v;
  en_memory : outside_same (program_min t) (stack_top t) (mem s) (mem s1);
  en_sp : stack_min t <= sp <= stack_top t /\ sp mod 4 = 0;
  en_stack : started (mem s1) sp args envs;
  en_pages : represents pt_addr (I386.tabs (pages s1)) (foldl grant32 perm (segment_request <$> segments_of b));
  en_process : exists f, readable d f p b /\ spawned (files_back cur f (kern s)) (kern s1) cur c
}.

(** What [usermode_exec] does when the program comes back. *)
Definition finish (s : machine) (c : nat) (x : option (Z * machine)) : option ((Z + Z) * machine) :=
  '(status, s2) ← x;
  k ← process_core_reap c (kern s2);
  Some (inr status,
        set_kern k (set_saved (g_usermode_saved_esp s) (g_usermode_saved_eflags s)
                      (set_esp0 (esp0 (g_usermode_tss s)) (set_depth (u32 (g_usermode_exec_depth s2 - 1)) s2)))).

(** The slots are ordinary memory, the stack above the program. *)
Lemma slot_shape t depth : runs_in t depth ->
  0 < program_min t /\ program_min t < program_max t /\ program_max t = stack_min t /\
  stack_min t + 3400 <= stack_top t < PAGING_IDENTITY_LIMIT.
Proof.
  intros [->|[-> _]]; cbn; unfold PAGING_IDENTITY_LIMIT, USERMODE_I386_PROGRAM_MIN, USERMODE_I386_PROGRAM_MAX,
    USERMODE_I386_STACK_MIN, USERMODE_I386_STACK_TOP, USERMODE_I386_SHELL_PROGRAM_MIN, USERMODE_I386_SHELL_PROGRAM_MAX,
    USERMODE_I386_SHELL_STACK_MIN, USERMODE_I386_SHELL_STACK_TOP; lia.
Qed.

(** The machine after the loader: the file system in [f], memory [m]. *)
Definition loaded (s : machine) (cur : nat) (f : fs S W) (m : memory) : machine :=
  set_mem m (set_kern (files_back cur f (kern s)) s).

Lemma loaded_again s cur f m f' m' :
  (cur < length (g_processes (kern s)))%nat ->
  loaded (loaded s cur f m) cur f' m' = loaded s cur f' m'.
Proof.
  intros Hc. unfold loaded, set_mem, set_kern. cbn. f_equal. unfold files_back, put_proc, set_procs, set_fsys.
  cbn. f_equal. rewrite list_insert_insert_eq. f_equal. unfold proc_at. cbn. rewrite list_lookup_insert_eq by done.
  unfold proc_at. cbn. by destruct (g_processes (kern s) !! cur) as [[]|].
Qed.

(** Up to the choice of the slot and the copy of the image. *)
Lemma loader_steps s t path argv envp p args envs b cur perm :
  launch s t path argv envp p args envs b cur perm ->
  exists im f m,
    usermode_exec enter l path argv envp s =
      bind (open_segments (active_segments im)) (fun _ =>
        bind (on_mem (build_initial_stack (stack_min t) (stack_top t) path argv envp)) (fun sp =>
        bind (spawn path im sp) (fun child => run_child enter l (im_entry im) sp child))) (loaded s cur f m) /\
    readable d f p b /\ im_entry im = entry_of b /\ active_segments im = segments_of b /\
    outside_same (program_min t) (program_max t) (mem s) m /\
    forall a v, image_byte b (segments_of b) a = Some v -> m !! a = Some v.
Proof.
  intros [HB Hc Hd Hslot Hf Hsuf Hrun Hpos HR (Hp & Hnz & Hpa) Hargs Henvs].
  destruct (slot_shape t _ Hslot) as (T1 & T2 & T3 & T4). unfold PAGING_IDENTITY_LIMIT in T4.
  destruct (current_live _ _ (bt_inv _ HB) Hc) as [Hlt _]. rewrite <- (procs_length _ (bt_inv _ HB)) in Hlt.
  assert (c_string (mem s) path = Some p) as Hcs.
  { unfold c_string. destruct (Z.eqb_spec path 0); [done|]. by rewrite (string_in_spec _ _ p). }
  unfold usermode_exec. unfold bind at 1, get at 1. unfold bind at 1, guard at 1. unfold USERMODE_EXEC_DEPTH_MAX in *.
  destruct (Z.leb_spec 2 (g_usermode_exec_depth s)); [lia|]. cbn [negb ret].
  destruct (load_spec zero_image (sprg_core_validate_file (c_string (mem s) path) SPRG_ARCH_I386) s cur
    (validated d p b SPRG_ARCH_I386 (World (files_of cur (kern s)) (mem s) zero_image)) Hc) as (r & w & HQ & E).
  { rewrite Hcs. by apply validate_spec. }
  pose proof (proj1 (runnable_valid b _ _ (program_max t) ltac:(lia)) Hrun) as (_ & Hvalid & Hplaced & _).
  destruct HQ as (Hr1 & Hram & Hres). destruct r as [rc|[]]; [done|]. destruct Hres as (_ & Hact & _ & H8).
  unfold bind at 1. rewrite E. clear E. cbn [ram] in Hram. rewrite Hram. fold (loaded s cur (files w) (mem s)).
  unfold bind at 1. rewrite (choose_slot_spec (image w) t); rewrite ?Hact; try done.
  2: { apply segments_of_word. }
  2: { destruct (rn_entry _ _ _ _ Hrun) as (x & Hx & _). intros E0. rewrite E0 in Hx. by apply not_elem_of_nil in Hx. }
  unfold bind at 1, get at 1. change (mem (loaded s cur (files w) (mem s))) with (mem s).
  set (s1 := loaded s cur (files w) (mem s)).
  assert (files_of cur (kern s1) = files w) as Hfs by (by apply files_of_back).
  destruct (load_spec (image w) (sprg_core_load_file Mm.I386 (c_string (mem s) path) SPRG_ARCH_I386 (program_min t) (program_max t))
    s1 cur (fun r w' => (r = inr tt <-> runnable b SPRG_ARCH_I386 (program_min t) (program_max t)) /\
      readable d (files w') p b /\ outside_same (program_min t) (program_max t) (mem s) (ram w') /\
      (r = inr tt -> im_entry (image w') = entry_of b /\ active_segments (image w') = segments_of b /\
       forall a, ram w' !! a = match image_byte b (segments_of b) a with Some v => Some v | None => mem s !! a end))
    Hc) as (r & w' & (Hok & Hr2 & HO & Himg) & E).
  { rewrite Hcs, Hfs. destruct (load_exact d (World (files w) (mem s) (image w)) Mm.I386 p b SPRG_ARCH_I386 (program_min t) (program_max t))
      as (r & w' & E & H1 & H2 & H3 & H4); try done; [lia..|]. by apply (wp_intro _ _ _ _ _ E). }
  apply Hok in Hrun as ->. destruct (Himg eq_refl) as (He & Ha & Hm). unfold bind at 1. rewrite E.
  exists (image w'), (files w'), (ram w').
  fold (loaded s1 cur (files w') (ram w')). unfold s1. rewrite loaded_again by done.
  split_and!; try done. intros a v Hv. by rewrite Hm, Hv.
Qed.

(** Entering the program, once its stack is built. *)
Lemma spawn_steps s path b im cur c f m0 m pg sp :
  booted (kern s) -> g_current_process (kern s) = Some cur -> first_unused (g_processes (kern s)) 0 = Some c ->
  0 <= g_usermode_exec_depth s < USERMODE_EXEC_DEPTH_MAX -> im_entry im = entry_of b ->
  exists s1,
    bind (spawn path im sp) (fun child => run_child enter l (im_entry im) sp child) (set_mem m (set_pages pg (loaded s cur f m0))) =
      finish s c (enter (entry_of b) sp s1) /\
    mem s1 = m /\ pages s1 = pg /\ g_usermode_exec_depth s1 = g_usermode_exec_depth s + 1 /\
    g_usermode_tss s1 = Tss (kernel_stack_top l (g_usermode_exec_depth s)) (ss0 (g_usermode_tss s)) (iomap_base (g_usermode_tss s)) /\
    spawned (files_back cur f (kern s)) (kern s1) cur c.
Proof.
  intros HB Hc Hu Hd He. set (k0 := files_back cur f (kern s)).
  pose proof (spawn_spec (string_in m path) (im_arch im) (im_entry im) (im_segment_count im) (im_file_size im) sp k0 cur
    (back_booted cur f _ HB Hc) Hc) as Hs.
  rewrite <- (back_unused cur f) in Hu. fold k0 in Hu. rewrite Hu in Hs. destruct Hs as (k1 & E & Hsp).
  set (s0 := set_mem m (set_pages pg (loaded s cur f m0))).
  exists (set_depth (u32 (g_usermode_exec_depth s + 1)) (set_esp0 (kernel_stack_top l (g_usermode_exec_depth s)) (set_kern k1 s0))).
  unfold USERMODE_EXEC_DEPTH_MAX in Hd. rewrite u32_small by lia. split_and!; try done.
  unfold bind, spawn. change (kern s0) with k0. change (mem s0) with m. rewrite E. cbn [mbind option_bind].
  unfold run_child. change (g_usermode_exec_depth (set_kern k1 s0)) with (g_usermode_exec_depth s).
  rewrite u32_small, He by lia. unfold finish. by destruct (enter _ _ _) as [[status s2]|].
Qed.

(** Every way [usermode_exec] goes on a machine that can launch the program. *)
Lemma exec_cases s t path argv envp p args envs b cur perm :
  launch s t path argv envp p args envs b cur perm ->
  if accepted (effective p args) envs then
    match first_unused (g_processes (kern s)) 0 with
    | Some c => exists s1 sp,
        usermode_exec enter l path argv envp s = finish s c (enter (entry_of b) sp s1) /\
        entered s s1 t sp p (effective p args) envs b cur c perm
    | None => exists s1, usermode_exec enter l path argv envp s = Some (inl (- POSIX_ENOSPC), s1)
    end
  else exists s1, usermode_exec enter l path argv envp s = Some (inl (- POSIX_E2BIG), s1).
Proof using pt_aligned pt_below.
  intros HL. destruct (loader_steps s t path argv envp p args envs b cur perm HL)
    as (im & f & m & EX & Hf & He & Hact & HO & Himg).
  destruct HL as [HB Hc Hd Hslot _ _ Hrun Hpos HR (Hp & Hnz & Hpa) Hargs Henvs].
  destruct (slot_shape t _ Hslot) as (T1 & T2 & T3 & T4). rewrite Hact in EX.
  destruct (open_segments_spec pt_addr pt_aligned pt_below (segments_of b) (loaded s cur f m) perm HR) as (pg & E & HRg).
  { apply Forall_forall. intros x Hx. rewrite Forall_forall in Hpos. split_and!; [|by apply Hpos|].
    - pose proof (rn_placed _ _ _ _ Hrun) as Hpl. rewrite Forall_forall in Hpl. destruct (Hpl x Hx). lia.
    - pose proof (rn_placed _ _ _ _ Hrun) as Hpl. rewrite Forall_forall in Hpl. destruct (Hpl x Hx). lia. }
  unfold bind at 1 in EX. rewrite E in EX. unfold bind at 1, on_mem in EX.
  change (mem (set_pages pg (loaded s cur f m))) with m in EX.
  assert (outside_same (program_min t) (stack_top t) (mem s) m) as HO' by (eapply outside_same_weaken; [| |exact HO]; lia).
  unfold PAGING_IDENTITY_LIMIT in T4.
  destruct (build_stack (stack_min t) (stack_top t) path p argv args envp envs m) as (r & m' & Eb & Hr); try lia; try done.
  { by apply (text_outside _ _ _ _ _ _ HO'). }
  { unfold apart in *. lia. }
  { apply (vector_weaken (program_min t) (stack_top t)); [lia..|]. by apply (vector_outside _ _ (program_min t) (stack_top t) (mem s)). }
  { apply (vector_weaken (program_min t) (stack_top t)); [lia..|]. by apply (vector_outside _ _ (program_min t) (stack_top t) (mem s)). }
  rewrite Eb in EX. cbn [mbind option_bind] in EX. destruct (accepted (effective p args) envs).
  2: { destruct Hr as [-> _]. eexists. exact EX. }
  destruct Hr as (sp & -> & Hsp & Hal & HOm & Hst).
  destruct (first_unused (g_processes (kern s)) 0) as [c|] eqn:Hu.
  - destruct (spawn_steps s path b im cur c f m m' pg sp HB Hc Hu Hd He) as (s1 & E1 & Em & Ep & Ed & Ee & Hs).
    exists s1, sp. split; [by rewrite EX|]. split; rewrite ?Em, ?Ep; try done.
    + intros a v Hv. rewrite HOm; [by apply Himg|]. pose proof (image_byte_placed b _ _ _ a v (rn_placed _ _ _ _ Hrun) Hv). lia.
    + eapply outside_same_trans; [exact HO'|]. eapply outside_same_weaken; [| |exact HOm]; lia.
    + by exists f.
  - eexists. rewrite EX. unfold bind, spawn. change (kern _) with (files_back cur f (kern s)).
    pose proof (spawn_spec (string_in m' path) (im_arch im) (im_entry im) (im_segment_count im) (im_file_size im) sp _ cur
      (back_booted cur f _ HB Hc) Hc) as Hs. rewrite (back_unused cur f (kern s)), Hu in Hs.
    change (mem _) with m'. rewrite Hs. reflexivity.
Qed.

(** C5: Running a program. Let the kernel be initialised, with a current process and fewer than two programs
    running; let the path name a readable .prg file that the loader accepts for the ordinary slot, or, when no
    program is running, for the slot of the shell, and none of whose segments is empty (the kernel refuses
    such a program with EIO after loading it); let the page tables represent permissions; and let the path, the
    argument vector and the environment with their strings lie outside that slot. The last condition fails when
    a program in the ordinary slot passes its own strings to a program for the same slot, which is loaded over
    them. Then [usermode_exec] either refuses with E2BIG, exactly when the arguments are too many or
    too long, or refuses with ENOSPC when the process table is full, or enters user mode at the entry
    point of the program on a machine where: every byte of the program's segments is in memory, memory
    outside the program's slot is unchanged, the stack pointer lies in the stack of the slot and carries the
    arguments and the environment, the pages of the segments are open to user programs with the write
    access of the segments, a new process with the descriptors and the directory of the caller is
    current, and interrupts use the kernel stack of this depth. When the program comes back, its status is
    the result, the process is reaped and depth and kernel stack are those of before. *)
Theorem usermode_exec_runs s t path argv envp p args envs b cur perm :
  launch s t path argv envp p args envs b cur perm ->
  if accepted (effective p args) envs then
    match first_unused (g_processes (kern s)) 0 with
    | Some c => exists s1 sp,
        usermode_exec enter l path argv envp s = finish s c (enter (entry_of b) sp s1) /\
        entered s s1 t sp p (effective p args) envs b cur c perm
    | None => exists s1, usermode_exec enter l path argv envp s = Some (inl (- POSIX_ENOSPC), s1)
    end
  else exists s1, usermode_exec enter l path argv envp s = Some (inl (- POSIX_E2BIG), s1).
Proof using pt_aligned pt_below. apply exec_cases. Qed.

Lemma exec_returns s t path argv envp p args envs b cur c perm status compute :
  launch s t path argv envp p args envs b cur perm ->
  accepted (effective p args) envs = true -> first_unused (g_processes (kern s)) 0 = Some c ->
  process_find_pid (pid (proc_at (kern s) cur)) (kern s) = Some cur -> g_next_pid (kern s) <> pid (proc_at (kern s) cur) ->
  (forall e sp s1, enter e sp s1 = (s2 ← usermode_exit status (set_mem (compute (mem s1)) s1); Some (status, s2))) ->
  exists s3, usermode_exec enter l path argv envp s = Some (inr status, s3) /\
    g_usermode_exec_depth s3 = g_usermode_exec_depth s /\ g_usermode_tss s3 = g_usermode_tss s /\
    g_usermode_saved_esp s3 = g_usermode_saved_esp s /\ g_usermode_saved_eflags s3 = g_usermode_saved_eflags s /\
    g_descriptions (kern s3) = g_descriptions (kern s) /\ g_current_process (kern s3) = Some cur /\
    entries (proc_at (kern s3) cur) = entries (proc_at (kern s) cur) /\
    (forall q, q <> cur -> q <> c -> proc_at (kern s3) q = proc_at (kern s) q) /\ proc_at (kern s3) c = clear_process /\
    exists m, outside_same (program_min t) (stack_top t) (mem s) m /\ mem s3 = compute m.
Proof using pt_aligned pt_below.
  intros HL Hacc Hu Hpid Hnew Henter. pose proof (exec_cases s t path argv envp p args envs b cur perm HL) as HX.
  rewrite Hacc, Hu in HX. destruct HX as (s1 & sp & -> & [Hd1 Ht1 _ Hm1 _ _ _ (f & Hf & Hs)]).
  pose proof (la_booted _ _ _ _ _ _ _ _ _ _ _ HL) as HB. pose proof (la_current _ _ _ _ _ _ _ _ _ _ _ HL) as Hc.
  pose proof (la_depth _ _ _ _ _ _ _ _ _ _ _ HL) as Hd. unfold USERMODE_EXEC_DEPTH_MAX in Hd.
  destruct (current_live _ _ (bt_inv _ HB) Hc) as [Hlt _]. rewrite <- (procs_length _ (bt_inv _ HB)) in Hlt.
  set (k := files_back cur f (kern s)) in *.
  assert (pid (proc_at k cur) = pid (proc_at (kern s) cur)) as Epid by (unfold k; by rewrite back_proc, decide_True).
  assert (process_find_pid (pid (proc_at k cur)) k = Some cur) as Hfind by (unfold k at 2; by rewrite back_find, Epid).
  pose proof (back_booted cur f _ HB Hc) as HBk. fold k in HBk.
  assert (g_next_pid k <> pid (proc_at k cur)) as Hnk by by rewrite Epid.
  destruct (rt_reap k (kern s1) cur c status HBk Hc Hs Hfind Hnk) as (k3 & E3 & D3 & _ & C3 & P3).
  rewrite Henter. unfold usermode_exit. change (kern (set_mem (compute (mem s1)) s1)) with (kern s1).
  rewrite (rt_exit k (kern s1) cur c status HBk Hc Hs Hfind Hnk). unfold finish. cbn [mbind option_bind].
  change (kern (set_kern ?x ?y)) with x. rewrite E3. cbn [mbind option_bind].
  eexists. split; [reflexivity|]. destruct (sp_slot _ _ _ _ Hs) as (_ & Hcc & _).
  cbn [kern mem g_usermode_exec_depth g_usermode_tss g_usermode_saved_esp g_usermode_saved_eflags
       set_kern set_saved set_esp0 set_depth set_mem]. split_and!; try done.
  - rewrite Hd1, Z.add_simpl_r, u32_small by lia. done.
  - rewrite Ht1. by destruct (g_usermode_tss s).
  - rewrite P3, decide_False, decide_True by done. unfold k. by rewrite back_proc, decide_True.
  - intros q Hq1 Hq2. rewrite P3, !decide_False by done. unfold k. by rewrite back_proc, decide_False.
  - by rewrite P3, decide_True.
  - by exists (mem s1).
Qed.

(** A program that computes and exits. Its exit status is the result of [usermode_exec], and the kernel
    is as before: the open files, every other process, the caller's descriptors, the current process, the
    nesting depth, the kernel stack for interrupts and the saved registers; only the memory of the
    program's slot is different, besides what the program itself has written. *)
Theorem usermode_exec_returns_status s t path argv envp p args envs b cur c perm status compute :
  launch s t path argv envp p args envs b cur perm ->
  accepted (effective p args) envs = true -> first_unused (g_processes (kern s)) 0 = Some c ->
  process_find_pid (pid (proc_at (kern s) cur)) (kern s) = Some cur -> g_next_pid (kern s) <> pid (proc_at (kern s) cur) ->
  (forall e sp s1, enter e sp s1 = (s2 ← usermode_exit status (set_mem (compute (mem s1)) s1); Some (status, s2))) ->
  exists s3, usermode_exec enter l path argv envp s = Some (inr status, s3) /\
    g_usermode_exec_depth s3 = g_usermode_exec_depth s /\ g_usermode_tss s3 = g_usermode_tss s /\
    g_usermode_saved_esp s3 = g_usermode_saved_esp s /\ g_usermode_saved_eflags s3 = g_usermode_saved_eflags s /\
    g_descriptions (kern s3) = g_descriptions (kern s) /\ g_current_process (kern s3) = Some cur /\
    entries (proc_at (kern s3) cur) = entries (proc_at (kern s) cur) /\
    (forall q, q <> cur -> q <> c -> proc_at (kern s3) q = proc_at (kern s) q) /\ proc_at (kern s3) c = clear_process /\
    exists m, outside_same (program_min t) (stack_top t) (mem s) m /\ mem s3 = compute m.
Proof using pt_aligned pt_below. apply exec_returns. Qed.

End Run.

(** ** Start-up *)

(** What the processor reads from a descriptor: base, limit in bytes, privilege level. *)
Definition descriptor_base (e : gdt_entry) : Z := base_low e + base_mid e * 2 ^ 16 + base_high e * 2 ^ 24.
Definition descriptor_limit (e : gdt_entry) : Z :=
  let raw := limit_low e + Z.land (granularity e) 0x0F * 2 ^ 16 in
  if Z.testbit (granularity e) 7 then raw * 4096 + 4095 else raw.
Definition descriptor_level (e : gdt_entry) : Z := Z.land (Z.shiftr (access_byte e) 5) 3.

Lemma descriptor_base_split base : 0 <= base < 2 ^ 32 ->
  Z.land base 0xFFFF + Z.land (Z.shiftr base 16) 0xFF * 2 ^ 16 + Z.land (Z.shiftr base 24) 0xFF * 2 ^ 24 = base.
Proof.
  intros Hb. change 0xFFFF with (Z.ones 16). change 0xFF with (Z.ones 8). rewrite !Z.land_ones, !Z.shiftr_div_pow2 by lia.
  replace (2 ^ 24) with (2 ^ 16 * 2 ^ 8) by done. rewrite <- (Zdiv.Zdiv_Zdiv base (2 ^ 16) (2 ^ 8)) by lia.
  pose proof (Z.div_mod base (2 ^ 16) ltac:(lia)). pose proof (Z.div_mod (base / 2 ^ 16) (2 ^ 8) ltac:(lia)).
  rewrite (Z.mod_small (base / 2 ^ 16 / 2 ^ 8)); [lia|]. rewrite Zdiv.Zdiv_Zdiv by lia.
  split; [apply Z.div_pos; lia|apply Z.div_lt_upper_bound; lia].
Qed.

(** After start-up the processor has flat code and data segments for the kernel (level 0) and for programs
    (level 3) and a task segment, both stacks are open to programs, and no program is running. *)
Theorem usermode_init_ready {S W} pt_addr l (s : machine S W) perm :
  pt_addr mod 4096 = 0 -> 0 <= pt_addr /\ pt_addr + 16 * 4096 <= 2 ^ 32 ->
  represents pt_addr (I386.tabs (pages s)) perm -> 0 <= tss_addr l < 2 ^ 32 ->
  exists s', usermode_init l s = Some (inr tt, s') /\ kern s' = kern s /\ mem s' = mem s /\
    g_usermode_exec_depth s' = 0 /\ gdtr s' = (47, gdt_addr l) /\ task s' = GDT_TSS /\
    (descriptor_level <$> g_usermode_gdt s') = [0; 0; 0; 3; 3; 0] /\
    (descriptor_base <$> g_usermode_gdt s') = [0; 0; 0; 0; 0; tss_addr l] /\
    (descriptor_limit <$> g_usermode_gdt s') = [0; 2 ^ 32 - 1; 2 ^ 32 - 1; 2 ^ 32 - 1; 2 ^ 32 - 1; 103] /\
    represents pt_addr (I386.tabs (pages s')) (foldl grant32 perm [(0x70000, 0x80000, true); (0x90000, 0x9F000, true)]).
Proof.
  intros Ha Hb HR Ht. unfold usermode_init. set (s0 := Machine _ _ _ _ _ _ _ _ _ _ _).
  destruct (set_user_range32 pt_addr Ha Hb (pages s0) perm 0x70000 0x80000 true HR ltac:(lia)) as (p1 & E1 & HR1).
  destruct (set_user_range32 pt_addr Ha Hb p1 _ 0x90000 0x9F000 true HR1 ltac:(lia)) as (p2 & E2 & HR2).
  exists (set_depth 0 (set_pages p2 (set_pages p1 s0))). split.
  { unfold bind at 1, set_user_range at 1. change (pages s0) with (pages s0). unfold USERMODE_I386_STACK_MIN, USERMODE_I386_STACK_TOP.
    rewrite E1. cbn [mbind option_bind]. change (granted32 _) with true. unfold bind at 1. cbn [Z.eqb guard ret].
    unfold bind at 1, set_user_range at 1. change (pages (set_pages p1 s0)) with p1.
    unfold USERMODE_I386_SHELL_STACK_MIN, USERMODE_I386_SHELL_STACK_TOP. by rewrite E2. }
  change (g_usermode_gdt (set_depth 0 (set_pages p2 (set_pages p1 s0)))) with (g_usermode_gdt s0).
  do 6 (split; [reflexivity|]). split; [|split; [reflexivity|exact HR2]].
  exact (f_equal (fun x => [0; 0; 0; 0; 0; x]) (descriptor_base_split (tss_addr l) Ht)).
Qed.

(** ** The demo program on a machine without media *)

Definition demo_memory : memory := store32 0x2000 0x1000 (store_at Mm.I386 0x1000 demo_path ∅).

Definition demo_pages : I386.paging :=
  I386.Paging 1 (I386.build_identity_tables_x86 0x201000 (I386.Tables (fun _ => 0) (fun _ _ => 0))) 0x200000.

Definition demo_layout : layout := Layout 0x300000 0x301000 0x302000.

Definition demo_machine : machine Ramfs.ramfs console :=
  Machine (files_back 0 demo_files FdProps.demo) demo_memory demo_pages zero_gdt (0, 0) (Tss 0 0 0) 0 0 0 (0, 0) 0.

(** A program that exits with 7. *)
Definition demo_enter (entry sp : Z) (s : machine Ramfs.ramfs console) : option (Z * machine Ramfs.ramfs console) :=
  s2 ← usermode_exit 7 (set_mem (mem s) s); Some (7, s2).

Lemma demo_text : text_at demo_memory 0x1000 demo_path.
Proof.
  split; [repeat constructor; discriminate|]. intros i Hi.
  do 7 (destruct i as [|i]; [vm_compute; reflexivity|]). cbn in Hi. lia.
Qed.

Lemma demo_vector : vector_at 0x60000 0x80000 demo_memory 0x2000 [demo_path].
Proof.
  right. split; [done|]. exists [0x1000]. split_and!.
  - split; [repeat constructor; discriminate|]. intros i Hi.
    do 2 (destruct i as [|i]; [vm_compute; reflexivity|]). cbn in Hi. lia.
  - left. cbn. lia.
  - constructor; [|constructor]. split_and!; [apply demo_text|done|left; vm_compute; discriminate].
Qed.

Lemma demo_runnable : runnable demo_program SPRG_ARCH_I386 0x60000 0x70000.
Proof.
  apply runnable_valid; [lia|]. split; [lia|]. split.
  - split; [split; try (vm_compute; intuition congruence)| |].
    + intros i Hi. destruct i as [|[|[|[|?]]]]; [reflexivity..|lia].
    + repeat constructor; vm_compute; intuition congruence.
    + repeat constructor.
  - split; [repeat constructor; vm_compute; intuition congruence|reflexivity].
Qed.

Lemma demo_launch : launch RAMFS_DRIVER 0x201000 demo_machine program_slot 0x1000 0x2000 0 demo_path [demo_path] []
  demo_program 0 closed.
Proof.
  split.
  - apply back_booted; [apply FdProps.demo_booted|reflexivity].
  - reflexivity.
  - cbn. unfold USERMODE_EXEC_DEPTH_MAX. lia.
  - by left.
  - change (kern demo_machine) with (files_back 0 demo_files FdProps.demo). rewrite files_of_back; [apply demo_readable|].
    vm_compute. lia.
  - reflexivity.
  - apply demo_runnable.
  - repeat constructor.
  - exact (build_represents 0x201000 eq_refl ltac:(lia) _).
  - split; [apply demo_text|]. split; [discriminate|]. left. vm_compute. discriminate.
  - apply demo_vector.
  - by left.
Qed.

Lemma initial_stack_carries_arguments_witness :
  exists sp m', build_initial_stack 0x70000 0x80000 0x1000 0x2000 0 demo_memory = Some (inr sp, m') /\
    sp mod 4 = 0 /\ started m' sp [demo_path] [].
Proof.
  destruct (initial_stack_carries_arguments 0x70000 0x80000 0x1000 demo_path 0x2000 [demo_path] 0 [] demo_memory)
    as (r & m' & E & Hr).
  - lia.
  - lia.
  - apply demo_text.
  - discriminate.
  - left. vm_compute. discriminate.
  - apply (vector_weaken 0x60000 0x80000); [lia|lia|apply demo_vector].
  - by left.
  - change (accepted (effective demo_path [demo_path]) []) with true in Hr.
    destruct Hr as (sp & -> & _ & H4 & _ & Hs). exists sp, m'. split; [exact E|]. split; [exact H4|exact Hs].
Defined.

Lemma usermode_exec_runs_witness :
  exists s1 sp, usermode_exec demo_enter demo_layout 0x1000 0x2000 0 demo_machine =
      finish demo_machine 1 (demo_enter 0x60000 sp s1) /\
    mem s1 !! 0x60001 = Some 0xFE /\ started (mem s1) sp [demo_path] [].
Proof.
  pose proof (usermode_exec_runs RAMFS_DRIVER 0x201000 eq_refl ltac:(lia) demo_enter demo_layout demo_machine program_slot
    0x1000 0x2000 0 demo_path [demo_path] [] demo_program 0 closed demo_launch) as H.
  change (accepted (effective demo_path [demo_path]) []) with true in H.
  change (first_unused (g_processes (kern demo_machine)) 0) with (Some 1%nat) in H. cbv iota in H.
  destruct H as (s1 & sp & E & HE). exists s1, sp. split; [exact E|].
  split; [apply (en_image _ _ _ _ _ _ _ _ _ _ _ _ _ _ HE); reflexivity|apply (en_stack _ _ _ _ _ _ _ _ _ _ _ _ _ _ HE)].
Defined.

Lemma usermode_exec_returns_status_witness :
  exists s3, usermode_exec demo_enter demo_layout 0x1000 0x2000 0 demo_machine = Some (inr 7, s3) /\
    g_usermode_exec_depth s3 = 0 /\ proc_at (kern s3) 1 = clear_process.
Proof.
  destruct (usermode_exec_returns_status RAMFS_DRIVER 0x201000 eq_refl ltac:(lia) demo_enter demo_layout demo_machine program_slot
    0x1000 0x2000 0 demo_path [demo_path] [] demo_program 0 1 closed 7 (fun m => m) demo_launch)
    as (s3 & E & Hd & _ & _ & _ & _ & _ & _ & _ & Hc & _).
  - reflexivity.
  - reflexivity.
  - reflexivity.
  - discriminate.
  - reflexivity.
  - exists s3. split; [exact E|]. split; [exact Hd|exact Hc].
Defined.

End UsermodeProps.
