(* ===== verification/Syscall.v ===== *)
(** * System calls

    [core/syscall/syscall_core.c] and [core/posix/posix.c]: the switch a program reaches
    through its software interrupt, and the calls behind it; and [lib/user/unistd.c] (module
    [Unistd]), the functions programs make the calls with.  Arguments are the words of
    the registers; pointers among them are addresses of the memory of [Usermode], where
    strings and structures are read and results are stored.  A call that fails leaves the
    caller's buffer alone. *)

From S2P Require Import Prelude Mm FsTypes FsPath Vfs Pseudo FsCore Fd Sprg Paging Usermode.
From stdpp Require Import base list option list_numbers gmap.
From Stdlib Require Import ZArith Lia.
Import FsTypes FsPath Vfs Pseudo FsCore Fd FdOps Sprg Usermode.
Open Scope Z_scope.

Module Syscall.

Definition SYS_READ : Z := 0.
Definition SYS_WRITE : Z := 1.
Definition SYS_OPEN : Z := 2.
Definition SYS_CLOSE : Z := 3.
Definition SYS_FSTAT : Z := 5.
Definition SYS_LSEEK : Z := 8.
Definition SYS_STAT : Z := 9.
Definition SYS_GETCWD : Z := 10.
Definition SYS_CHDIR : Z := 11.
Definition SYS_MKDIR : Z := 12.
Definition SYS_UNLINK : Z := 13.
Definition SYS_RMDIR : Z := 14.
Definition SYS_IOCTL : Z := 16.
Definition SYS_ACCESS : Z := 21.
Definition SYS_DUP : Z := 32.
Definition SYS_DUP2 : Z := 33.
Definition SYS_NANOSLEEP : Z := 35.
Definition SYS_SYNC : Z := 36.
Definition SYS_GETPID : Z := 39.
Definition SYS_EXECVE : Z := 59.
Definition SYS_EXIT : Z := 60.
Definition SYS_SYMLINK : Z := 83.
Definition SYS_READLINK : Z := 85.
Definition SYS_REBOOT : Z := 88.
Definition SYS_ISATTY : Z := 89.
Definition SYS_GETPPID : Z := 110.
Definition SYS_GETDENTS : Z := 141.

Definition SYSTEM1_DIRENT_NAME_CAP : Z := 24.
Definition SIZEOF_DIRENT : Z := 25.
Definition TIOCLINEREDRAW : Z := 0x5304.

Definition posix_fs_to_errno (rc : Z) : Z :=
  if rc =? FS_OK then 0
  else let err := fs_core_to_errno rc in if err =? 0 then - POSIX_EIO else - err.

(** ** Memory of the caller *)

Definition bytes_at (m : memory) (a : Z) (n : Z) : list Z :=
  (fun i => byte_in m (u32 (a + i))) <$> seqZ 0 n.

Definition store_bytes (a : Z) (bytes : list Z) (m : memory) : memory := store_at Mm.I386 a bytes m.

(** [fs_stat_t]. *)
Definition stat_bytes (st : fs_stat) : list Z := le32 (st_mode st) ++ le32 (st_size st).

(** One [system1_dirent_t], up to the terminator of the name, and its type. *)
Definition store_dirent (a : Z) (e : fs_dirent) (m : memory) : memory :=
  let name := take (Z.to_nat (SYSTEM1_DIRENT_NAME_CAP - 1)) (fst e) in
  store_bytes (a + SYSTEM1_DIRENT_NAME_CAP) [u8 (snd e)] (store_bytes a (name ++ [0]) m).

Fixpoint store_dirents (a : Z) (es : list fs_dirent) (m : memory) : memory :=
  match es with
  | [] => m
  | e :: es => store_dirents (a + SIZEOF_DIRENT) es (store_dirent a e m)
  end.

Definition put_string (a : Z) (s : list Z) (m : memory) : memory := store_bytes a (s ++ [0]) m.

(** Strings one after the other, and their addresses. *)
Fixpoint put_strings (a : Z) (ss : list (list Z)) (m : memory) : list Z * memory :=
  match ss with
  | [] => ([], m)
  | s :: ss => let '(l, m) := put_strings (a + Z.of_nat (length s) + 1) ss (put_string a s m) in (a :: l, m)
  end.

Section Syscall.
Context {S W : Type} `{!storage S} `{!services W}.
#[local] Notation kernel := (kernel S W).
#[local] Notation machine := (machine S W).

(** The machine below: how a program runs, how time passes and how power goes off. *)
Variable usermode_i386_enter : Z -> Z -> machine -> option (Z * machine).
Variable l : layout.
Variable wait_ticks : Z -> W -> option W.
Variable signal_power_down : W -> W.

Definition on_kernel (f : kernel -> option (Z * kernel)) (s : machine) : option (Z * machine) :=
  '(rc, k) ← f (kern s); Some (rc, set_kern k s).

(** A call of the file system whose value is stored by [out]. *)
Definition file_call {A} (m : M (fs S W) A) (out : A -> memory -> memory) (value : A -> Z) (errno : Z -> Z)
    (s : machine) : option (Z * machine) :=
  '(r, k) ← on_fs m (kern s);
  let s := set_kern k s in
  match r with
  | inl rc => Some (errno rc, s)
  | inr x => Some (value x, set_mem (out x (mem s)) s)
  end.

(** A call with nothing to store. *)
Definition plain_call (m : M (fs S W) unit) (errno : Z -> Z) : machine -> option (Z * machine) :=
  file_call m (fun _ m => m) (fun _ => 0) errno.

(** ** [posix.c] *)

Definition posix_open (path flags : Z) (s : machine) : option (Z * machine) :=
  on_kernel (fd_core_open (c_string (mem s) path) flags) s.

Definition posix_close (fd : Z) : machine -> option (Z * machine) := on_kernel (fd_core_close fd).

Definition posix_read (fd buffer count : Z) (s : machine) : option (Z * machine) :=
  '(rc, bytes, k) ← fd_core_read fd (negb (buffer =? 0)) count (kern s);
  Some (rc, set_mem (store_bytes buffer bytes (mem s)) (set_kern k s)).

Definition posix_write (fd buffer count : Z) (s : machine) : option (Z * machine) :=
  on_kernel (fd_core_write fd (if buffer =? 0 then None else Some (bytes_at (mem s) buffer count))) s.

Definition posix_lseek (fd offset whence : Z) : machine -> option (Z * machine) :=
  on_kernel (fd_core_lseek fd offset whence).

Definition posix_stat (path out_stat : Z) (s : machine) : option (Z * machine) :=
  if out_stat =? 0 then Some (posix_fs_to_errno FS_ERR_INVALID, s)
  else file_call (fs_core_stat (c_string (mem s) path)) (fun st => store_bytes out_stat (stat_bytes st))
                 (fun _ => 0) posix_fs_to_errno s.

Definition posix_fstat (fd out_stat : Z) (s : machine) : option (Z * machine) :=
  if out_stat =? 0 then '(_, k) ← current_table (kern s); Some (- POSIX_EBADF, set_kern k s)
  else
    '(rc, st, k) ← fd_core_fstat fd (kern s);
    let s := set_kern k s in
    Some (rc, match st with None => s | Some st => set_mem (store_bytes out_stat (stat_bytes st) (mem s)) s end).

Definition posix_dup (oldfd : Z) : machine -> option (Z * machine) := on_kernel (fd_core_dup oldfd).
Definition posix_dup2 (oldfd newfd : Z) : machine -> option (Z * machine) := on_kernel (fd_core_dup2 oldfd newfd).
Definition posix_isatty (fd : Z) : machine -> option (Z * machine) := on_kernel (fd_core_isatty fd).

Definition posix_access (path mode : Z) (s : machine) : option (Z * machine) :=
  if (path =? 0) || negb (Z.land mode (u32 (Z.lnot 7)) =? 0) then Some (- POSIX_EINVAL, s)
  else
    '(r, k) ← on_fs (fs_core_stat (c_string (mem s) path)) (kern s);
    let s := set_kern k s in
    match r with
    | inl rc => Some (posix_fs_to_errno rc, s)
    | inr _ =>
        if negb (Z.land mode 2 =? 0) && (fs_core_is_writable (fsys (kern s)) =? 0) then Some (- POSIX_EACCES, s)
        else Some (0, s)
    end.

Definition posix_getpid (s : machine) : option (Z * machine) :=
  on_kernel (fun k => '(p, k) ← process_core_current k; Some (i32 (pid (proc_at k p)), k)) s.
Definition posix_getppid (s : machine) : option (Z * machine) :=
  on_kernel (fun k => '(p, k) ← process_core_current k; Some (i32 (ppid (proc_at k p)), k)) s.

(** The number of timer ticks of a [posix_timespec_t]; [None] for values out of range. *)
Definition sleep_ticks (sec nsec : Z) : option Z :=
  if (sec <? 0) || (nsec <? 0) || (1000000000 <=? nsec) then None
  else Some (sec * 100 + (nsec + 9999999) / 10000000).

Definition posix_nanosleep (req rem : Z) (s : machine) : option (Z * machine) :=
  if req =? 0 then Some (- POSIX_EINVAL, s)
  else match sleep_ticks (i32 (word_in (mem s) req)) (i32 (word_in (mem s) (req + 4))) with
  | None => Some (- POSIX_EINVAL, s)
  | Some ticks =>
      let s := if negb (rem =? 0) then set_mem (store_bytes rem (le32 0 ++ le32 0) (mem s)) s else s in
      if ticks =? 0 then Some (0, s)
      else k ← on_tty (wait_ticks ticks) (kern s); Some (0, set_kern k s)
  end.

(** What the pointer of a redraw request leads to. *)
Definition tty_line_at (m : memory) (a : Z) : option tty_line :=
  if a =? 0 then None
  else
    let buffer := word_in m a in
    let len := word_in m (a + 4) in
    Some (TtyLine (if buffer =? 0 then None else Some (bytes_at m buffer len)) len (word_in m (a + 8))).

Definition posix_ioctl (fd request arg : Z) (s : machine) : option (Z * machine) :=
  on_kernel (fd_core_ioctl fd request arg
               (if request =? TIOCLINEREDRAW then tty_line_at (mem s) arg else None)) s.

Definition posix_sync (s : machine) : option (Z * machine) := Some (0, s).

Definition posix_reboot (how : Z) (s : machine) : option (Z * machine) :=
  if how =? 0 then k ← on_tty (fun w => Some (signal_reset w)) (kern s); Some (0, set_kern k s)
  else if how =? 1 then k ← on_tty (fun w => Some (signal_power_down w)) (kern s); Some (0, set_kern k s)
  else Some (- POSIX_EINVAL, s).

Definition posix_unlink (path : Z) (s : machine) : option (Z * machine) :=
  plain_call (fs_core_unlink (c_string (mem s) path)) posix_fs_to_errno s.
Definition posix_rmdir (path : Z) (s : machine) : option (Z * machine) :=
  plain_call (fs_core_rmdir (c_string (mem s) path)) posix_fs_to_errno s.
Definition posix_symlink (target linkpath : Z) (s : machine) : option (Z * machine) :=
  plain_call (fs_core_symlink (c_string (mem s) target) (c_string (mem s) linkpath)) posix_fs_to_errno s.

Definition posix_readlink (path buffer cap : Z) (s : machine) : option (Z * machine) :=
  if buffer =? 0 then Some (posix_fs_to_errno FS_ERR_INVALID, s)
  else file_call (fs_core_readlink (c_string (mem s) path) cap) (fun t => store_bytes buffer (t ++ [0]))
                 (fun t => Z.of_nat (length t)) posix_fs_to_errno s.

Definition posix_getdents (path entries cap : Z) (s : machine) : option (Z * machine) :=
  if (entries =? 0) || (cap =? 0) then Some (- POSIX_EINVAL, s)
  else
    let cap := if 32 <? cap then 32 else cap in
    file_call (fs_core_list_dir (c_string (mem s) path) cap) (store_dirents entries)
              (fun es => Z.of_nat (length es)) posix_fs_to_errno s.

Definition posix_execve (path argv envp : Z) (s : machine) : option (Z * machine) :=
  if path =? 0 then Some (- POSIX_EINVAL, s)
  else '(r, s) ← usermode_exec usermode_i386_enter l path argv envp s;
       Some (match r with inl rc => rc | inr status => status end, s).

(** Control goes back to the parent; see [usermode_exit]. *)
Definition posix_exit (status : Z) (s : machine) : option machine := usermode_exit status s.

(** ** [syscall_core.c] *)

Definition sys_getcwd (out cap : Z) (s : machine) : option (Z * machine) :=
  if (out =? 0) || (cap =? 0) then Some (- POSIX_EINVAL, s)
  else file_call fs_core_get_cwd_path
         (fun cwd => store_bytes out (take (Z.to_nat (cap - 1)) cwd ++ [0]))
         (fun cwd => Z.of_nat (length (take (Z.to_nat (cap - 1)) cwd))) (fun rc => rc) s.

Definition syscall_core_dispatch (nr a0 a1 a2 : Z) (s : machine) : option (Z * machine) :=
  if nr =? SYS_READ then posix_read (i32 a0) a1 a2 s
  else if nr =? SYS_WRITE then posix_write (i32 a0) a1 a2 s
  else if nr =? SYS_OPEN then posix_open a0 a1 s
  else if nr =? SYS_CLOSE then posix_close (i32 a0) s
  else if nr =? SYS_FSTAT then posix_fstat (i32 a0) a1 s
  else if nr =? SYS_LSEEK then posix_lseek (i32 a0) (i32 a1) a2 s
  else if nr =? SYS_STAT then posix_stat a0 a1 s
  else if nr =? SYS_GETCWD then sys_getcwd a0 a1 s
  else if nr =? SYS_CHDIR then plain_call (fs_core_change_dir (c_string (mem s) a0)) (fun rc => - fs_core_to_errno rc) s
  else if nr =? SYS_MKDIR then plain_call (fs_core_make_dir (c_string (mem s) a0)) (fun rc => - fs_core_to_errno rc) s
  else if nr =? SYS_UNLINK then posix_unlink a0 s
  else if nr =? SYS_RMDIR then posix_rmdir a0 s
  else if nr =? SYS_IOCTL then posix_ioctl (i32 a0) a1 a2 s
  else if nr =? SYS_ACCESS then posix_access a0 a1 s
  else if nr =? SYS_DUP then posix_dup (i32 a0) s
  else if nr =? SYS_DUP2 then posix_dup2 (i32 a0) (i32 a1) s
  else if nr =? SYS_NANOSLEEP then posix_nanosleep a0 a1 s
  else if nr =? SYS_SYNC then posix_sync s
  else if nr =? SYS_GETPID then posix_getpid s
  else if nr =? SYS_REBOOT then posix_reboot a0 s
  else if nr =? SYS_ISATTY then posix_isatty (i32 a0) s
  else if nr =? SYS_GETPPID then posix_getppid s
  else if nr =? SYS_SYMLINK then posix_symlink a0 a1 s
  else if nr =? SYS_READLINK then posix_readlink a0 a1 a2 s
  else if nr =? SYS_GETDENTS then posix_getdents a0 a1 a2 s
  else if nr =? SYS_EXECVE then posix_execve a0 a1 a2 s
  else if nr =? SYS_EXIT then s ← posix_exit (i32 a0) s; Some (0, s)
  else Some (- POSIX_EINVAL, s).

End Syscall.

End Syscall.

(** [lib/user/unistd.c].  Every function returns its result, and the value of [errno] if it
    sets it; pointers are addresses. *)
Module Unistd.
Import Syscall.

Definition ENOTTY : Z := 25.

Definition posix_result (rc : Z) : Z * option Z := if rc <? 0 then (-1, Some (- rc)) else (rc, None).

Section Unistd.
Context {S W : Type} `{!storage S} `{!services W}.
#[local] Notation machine := (machine S W).
Variable usermode_i386_enter : Z -> Z -> machine -> option (Z * machine).
Variable l : layout.
Variable wait_ticks : Z -> W -> option W.
Variable signal_power_down : W -> W.

Definition system1_syscall (nr a0 a1 a2 a3 : Z) (s : machine) : option (Z * machine) :=
  syscall_core_dispatch usermode_i386_enter l wait_ticks signal_power_down nr a0 a1 a2 s.

Definition call (nr a0 a1 a2 : Z) (s : machine) : option (Z * option Z * machine) :=
  '(rc, s) ← system1_syscall nr a0 a1 a2 0 s; Some (posix_result rc, s).

Definition open (path flags : Z) := call SYS_OPEN path (u32 flags) 0.
Definition close (fd : Z) := call SYS_CLOSE (u32 fd) 0 0.
Definition read (fd buf count : Z) := call SYS_READ (u32 fd) buf count.
Definition write (fd buf count : Z) := call SYS_WRITE (u32 fd) buf count.
Definition lseek (fd offset whence : Z) := call SYS_LSEEK (u32 fd) (u32 offset) whence.
Definition dup (oldfd : Z) := call SYS_DUP (u32 oldfd) 0 0.
Definition dup2 (oldfd newfd : Z) := call SYS_DUP2 (u32 oldfd) (u32 newfd) 0.

Definition isatty (fd : Z) (s : machine) : option (Z * option Z * machine) :=
  '(rc, s) ← system1_syscall SYS_ISATTY (u32 fd) 0 0 0 s;
  Some (if rc <? 0 then (0, Some (- rc)) else if rc =? 0 then (0, Some ENOTTY) else (1, None), s).

Definition access (path mode : Z) := call SYS_ACCESS path (u32 mode) 0.
Definition getpid := call SYS_GETPID 0 0 0.
Definition getppid := call SYS_GETPPID 0 0 0.
Definition chdir (path : Z) := call SYS_CHDIR path 0 0.
Definition mkdir (path : Z) := call SYS_MKDIR path 0 0.
Definition unlink (path : Z) := call SYS_UNLINK path 0 0.
Definition rmdir (path : Z) := call SYS_RMDIR path 0 0.
Definition symlink (target linkpath : Z) := call SYS_SYMLINK target linkpath 0.
Definition readlink (path buf size : Z) := call SYS_READLINK path buf size.
Definition getdents (path entries cap : Z) := call SYS_GETDENTS path entries cap.
Definition execve (path argv envp : Z) := call SYS_EXECVE path argv envp.
Definition stat (path out_stat : Z) := call SYS_STAT path out_stat 0.
Definition fstat (fd out_stat : Z) := call SYS_FSTAT (u32 fd) out_stat 0.

Definition getcwd (buf size : Z) (s : machine) : option (Z * option Z * machine) :=
  '(rc, s) ← system1_syscall SYS_GETCWD buf size 0 0 s;
  Some (if rc <? 0 then (0, Some (- rc)) else (buf, None), s).

Definition nanosleep (req rem : Z) := call SYS_NANOSLEEP req rem 0.

(** [req] is the address of the local [struct timespec]. *)
Definition with_timespec (req sec nsec : Z) (s : machine) : machine :=
  set_mem (store_bytes req (le32 sec ++ le32 nsec) (mem s)) s.

Definition sleep (req seconds : Z) (s : machine) : option (Z * option Z * machine) :=
  '(rc, e, s) ← nanosleep req 0 (with_timespec req seconds 0 s);
  Some (if rc =? 0 then 0 else seconds, e, s).

Definition usleep (req usec : Z) (s : machine) : option (Z * option Z * machine) :=
  nanosleep req 0 (with_timespec req (usec / 1000000) (usec mod 1000000 * 1000) s).

Definition sync (s : machine) : option machine := '(_, s) ← system1_syscall SYS_SYNC 0 0 0 0 s; Some s.
Definition ioctl (fd request arg : Z) := call SYS_IOCTL (u32 fd) request arg.
Definition reboot (how : Z) := call SYS_REBOOT how 0 0.

(** [_exit], up to the return to the parent. *)
Definition exit (status : Z) (s : machine) : option machine :=
  '(_, s) ← system1_syscall SYS_EXIT (u32 status) 0 0 0 s; Some s.

End Unistd.
End Unistd.
