(* ===== verification/SyscallProps.v ===== *)
(** * Programs are isolated by the system calls

    Whatever a program asks for with buffers of user programs, the tables of descriptors stay consistent, other
    processes keep what is theirs, and a program that executes another finds its own
    descriptors as it left them. *)

From S2P Require Import Prelude Mm FsTypes FsPath Ramfs Vfs Pseudo FsCore FsLinks FsCoreProps RamfsDriver Fd FdInv FdProc FdSteps FdLife FdProps Sprg SprgRead SprgProps Paging PagingWalk PagingProps Usermode UserStack UsermodeProps Syscall.
From stdpp Require Import base list option list_numbers gmap relations.
From Stdlib Require Import ZArith Lia ZifyBool.
Import FsTypes FsPath Vfs Pseudo FsCore Fd FdOps FdInv FdTables FdProc FdSteps FdLife Sprg Usermode Syscall.
Import Paging PagingProps RamfsDriver FsCoreProps SprgProps UsermodeExec UsermodeProps.
Open Scope Z_scope.

Module SyscallProps.

Section Kernel.
Context {S W : Type} `{!storage S} `{!services W}.
#[local] Notation kernel := (kernel S W).

(** ** Process numbers *)

(** No two processes have the same number, and the next one is new. *)
Definition pids_ok (k : kernel) : Prop :=
  (forall q, state (proc_at k q) <> UNUSED -> 0 <= pid (proc_at k q) < g_next_pid k) /\
  (forall q q', state (proc_at k q) <> UNUSED -> state (proc_at k q') <> UNUSED ->
                pid (proc_at k q) = pid (proc_at k q') -> q = q').

(** The kernel while a program runs. *)
Record calm (k : kernel) : Prop := {
  cm_booted : booted k;
  cm_pids : pids_ok k;
  cm_running p : g_current_process k = Some p -> state (proc_at k p) = RUNNING
}.

Lemma own_identity (k k' : kernel) q :
  own k k' -> state (proc_at k' q) <> UNUSED -> identity (proc_at k' q) = identity (proc_at k q).
Proof.
  intros HO Hs. destruct (decide (g_current_process k = Some q)) as [Hc|Hc]; [by apply (ow_self _ _ HO)|].
  rewrite (ow_others _ _ HO); [done|done|]. intros E. by apply Hs, (ow_unused _ _ HO).
Qed.

Lemma calm_own (k k' : kernel) : calm k -> own k k' -> calm k'.
Proof.
  intros [HB [P1 P2] HR] HO.
  assert (forall q, state (proc_at k' q) <> UNUSED -> state (proc_at k q) <> UNUSED /\ pid (proc_at k' q) = pid (proc_at k q)) as Hid.
  { intros q Hq. pose proof (own_identity k k' q HO Hq) as [= -> _ <-]. done. }
  split; [apply HO|split|].
  - intros q Hq. destruct (Hid q Hq) as [H1 ->]. pose proof (P1 q H1). pose proof (ow_pid _ _ HO). lia.
  - intros q q' Hq Hq'. destruct (Hid q Hq) as [H1 ->]. destruct (Hid q' Hq') as [H2 ->]. by apply P2.
  - intros p Hp. rewrite (ow_current _ _ HO) in Hp. pose proof (ow_self _ _ HO p Hp) as [= _ _ ->]. by apply HR.
Qed.

Lemma find_pid_hit (l : list process) j i v n :
  l !! i = Some v -> state v <> UNUSED -> pid v = n -> exists i', find_pid l j n = Some i'.
Proof.
  revert i j. induction l as [|w l IH]; intros [|i] j; cbn; try done.
  - intros [= ->] Hs ->. rewrite bool_decide_eq_false_2 by done. rewrite Z.eqb_refl. by eexists.
  - intros Hi Hs Hp. destruct (_ && _); [by eexists|]. by apply (IH i).
Qed.

Lemma find_pid_unique (k : kernel) p :
  pids_ok k -> state (proc_at k p) <> UNUSED -> process_find_pid (pid (proc_at k p)) k = Some p.
Proof.
  intros [_ HP] Hs. unfold process_find_pid.
  assert (g_processes k !! p = Some (proc_at k p)) as Hp.
  { unfold proc_at in *. by destruct (g_processes k !! p); [|destruct Hs]. }
  destruct (find_pid_hit (g_processes k) 0 p _ _ Hp Hs eq_refl) as [q Hq]. rewrite Hq. f_equal.
  destruct (find_pid_spec _ _ _ _ Hq) as (v & Hv & Hvs & Hvp & _). rewrite Nat.sub_0_r in Hv.
  assert (proc_at k q = v) as E by (unfold proc_at; by rewrite Hv). apply HP; rewrite ?E; done.
Qed.

(** ** The end of a child *)

(** The child [c] of [p] has ended and [p] runs again. *)
Definition returned (status : Z) (p c : nat) (k : kernel) : kernel :=
  set_current (Some p) (put_proc p (set_state RUNNING (proc_at (zombie status c k) p)) (zombie status c k)).

Lemma zombie_proc status c (k : kernel) q :
  inv k -> (c < 16)%nat ->
  proc_at (zombie status c k) q = if decide (q = c) then set_state ZOMBIE (set_exit_status status (proc_at k c)) else proc_at k q.
Proof.
  intros HI Hc. unfold zombie. rewrite proc_at_put, (procs_length k HI).
  destruct (decide (q = c)); [by rewrite decide_True by lia|by rewrite decide_False by naive_solver].
Qed.

Lemma exit_returns status (k : kernel) p c :
  calm k -> g_current_process k = Some c -> c <> p -> state (proc_at k p) <> UNUSED ->
  ppid (proc_at k c) = pid (proc_at k p) -> process_core_exit_current status k = Some (returned status p c k).
Proof.
  intros [HB HP _] Hc Hne Hp Hpp. destruct (current_live k c (bt_inv _ HB) Hc) as [Hlt Hlive].
  unfold process_core_exit_current, process_core_current. rewrite Hc. cbn [mbind option_bind].
  fold (zombie status c k). set (kz := zombie status c k).
  assert (forall q, state (proc_at kz q) <> UNUSED -> state (proc_at k q) <> UNUSED /\ pid (proc_at kz q) = pid (proc_at k q)) as Hz.
  { intros q. unfold kz. rewrite zombie_proc by (done || apply HB). case_decide; [subst; by cbn|done]. }
  assert (proc_at kz p = proc_at k p) as Ep by (unfold kz; rewrite zombie_proc by (done || apply HB); by rewrite decide_False).
  assert (ppid (proc_at kz c) = pid (proc_at kz p)) as ->.
  { rewrite Ep. unfold kz. rewrite zombie_proc by (done || apply HB). by rewrite decide_True. }
  rewrite find_pid_unique; [done| |by rewrite Ep]. destruct HP as [P1 P2]. split.
  - intros q Hq. destruct (Hz q Hq) as [H1 ->]. by apply P1.
  - intros q q' Hq Hq'. destruct (Hz q Hq) as [H1 ->]. destruct (Hz q' Hq') as [H2 ->]. by apply P2.
Qed.

(** What closing the descriptors of [c] does to the other processes while [p] is current. *)
Definition procs_kept (p c : nat) (k k' : kernel) : Prop :=
  (forall q, q <> p -> q <> c -> proc_at k' q = proc_at k q) /\
  identity (proc_at k' p) = identity (proc_at k p) /\ entries (proc_at k' p) = entries (proc_at k p) /\
  g_next_pid k' = g_next_pid k /\ g_current_process k' = g_current_process k.

Lemma kept_trans p c (k k1 k2 : kernel) : procs_kept p c k k1 -> procs_kept p c k1 k2 -> procs_kept p c k k2.
Proof.
  intros (A1 & A2 & A3 & A4 & A5) (B1 & B2 & B3 & B4 & B5). split_and!; try congruence.
  intros q Hp Hc. rewrite B1 by done. by apply A1.
Qed.

Lemma kept_fs {A} p c (m : M (fs S W) A) (k : kernel) r k' :
  g_current_process k = Some p -> (p < length (g_processes k))%nat -> on_fs m k = Some (r, k') -> procs_kept p c k k'.
Proof.
  intros Hp Hl. unfold on_fs. rewrite Hp. destruct (m _) as [[r0 f]|]; [|done]. cbn [mbind option_bind].
  intros [= -> <-]. set (v := set_pcwd (cwd f) (proc_at k p)).
  assert (forall q, proc_at (put_proc p v (set_fsys f k)) q = if decide (q = p) then v else proc_at k q) as Hq.
  { intros q. rewrite proc_at_put. change (g_processes (set_fsys f k)) with (g_processes k).
    destruct (decide (q = p)); [by rewrite decide_True|by rewrite decide_False by naive_solver]. }
  split_and!; rewrite ?Hq, ?(decide_True (P := p = p)) by done; try done.
  intros q Hqp _. by rewrite Hq, decide_False.
Qed.

Lemma kept_release p c fd (k : kernel) rc k' :
  inv k -> g_current_process k = Some p -> p <> c -> fd_release_entry c fd k = Some (rc, k') ->
  procs_kept p c k k'.
Proof.
  intros HI Hp Hpc. unfold fd_release_entry. destruct (fd_description k c fd) as [i|]; [|by intros [= <- <-]].
  assert (procs_kept p c k (put_entry c (Z.to_nat fd) zero_entry k)) as H1.
  { assert (forall q, q <> c -> proc_at (put_entry c (Z.to_nat fd) zero_entry k) q = proc_at k q) as Hq.
    { intros q Hq. unfold put_entry. by rewrite proc_at_put, decide_False by naive_solver. }
    split_and!; rewrite ?Hq by done; try done. intros q _ Hqc. by apply Hq. }
  set (k1 := put_entry c (Z.to_nat fd) zero_entry k) in *. set (k2 := put_desc i _ k1).
  destruct (negb (refs (desc_at k2 i) =? 0)); [by intros [= <- <-]|].
  case_decide; cbn [mbind option_bind]; [|by intros [= <- <-]].
  destruct (on_fs (fs_core_close (node_id (desc_at k1 i))) k2) as [[r k3]|] eqn:E; [|done].
  cbn [mbind option_bind]. intros [= <- <-]. apply (kept_trans p c k k1); [done|].
  apply (kept_fs p c (fs_core_close (node_id (desc_at k1 i))) k2 r k3); [done| |done].
  cbn. rewrite length_insert. by apply (current_in_range k HI).
Qed.

Lemma kept_destroy p c n : forall i (k k' : kernel),
  inv k -> g_current_process k = Some p -> p <> c -> (c < 16)%nat -> destroy_loop n i c k = Some k' -> procs_kept p c k k'.
Proof.
  induction n as [|n IH]; intros i k k' HI Hp Hpc Hc; cbn [destroy_loop]; [by intros [= <-]|].
  case_match; [by apply IH|]. destruct (fd_release_entry _ _ k) as [[rc k1]|] eqn:E; [|done].
  cbn [mbind option_bind]. intros E1. pose proof (kept_release p c _ k rc k1 HI Hp Hpc E) as H1.
  apply (kept_trans p c k k1); [done|]. destruct H1 as (_ & _ & _ & _ & Hcur).
  apply (IH (Datatypes.S i)); try done; [|congruence].
  destruct (fd_description k c (Z.of_nat i)) as [j|] eqn:Ed.
  - by eapply fd_release_spec.
  - unfold fd_release_entry in E. rewrite Ed in E. by injection E as <- <-.
Qed.

Lemma reap_kept p c (k k' : kernel) :
  inv k -> g_current_process k = Some p -> p <> c -> (c < 16)%nat -> state (proc_at k c) = ZOMBIE ->
  process_core_reap c k = Some k' ->
  procs_kept p c k k' /\ proc_at k' c = clear_process /\
  forall q fd i, q <> c -> (q < 16)%nat -> fd_description k q fd = Some i -> same_node (desc_at k' i) (desc_at k i).
Proof.
  intros HI Hp Hpc Hc Hz. unfold process_core_reap. rewrite bool_decide_eq_true_2 by done. cbn [negb].
  unfold fd_core_table_destroy. destruct (destroy_loop _ 0 c k) as [k1|] eqn:E; [|done]. cbn [mbind option_bind].
  intros [= <-]. pose proof (kept_destroy p c _ 0 k k1 HI Hp Hpc Hc E) as HK.
  pose proof (destroy_loop_spec (Z.to_nat POSIX_FD_CAP) 0 k k1 c HI Hc eq_refl E) as HC.
  set (k3 := put_proc c clear_process (fd_core_table_reset c k1)).
  assert (forall q, proc_at k3 q = if decide (q = c) then clear_process else proc_at k1 q) as Hq3.
  { intros q. unfold k3, fd_core_table_reset. rewrite !proc_at_put. cbn.
    rewrite length_insert, (procs_length k1 (cf_inv _ _ _ _ HC)).
    destruct (decide (q = c)) as [->|Hne]; [by rewrite decide_True by lia|].
    by rewrite !(decide_False (P := q = c /\ _)) by naive_solver. }
  split_and!.
  - destruct HK as (A1 & A2 & A3 & A4 & A5). split_and!; rewrite ?Hq3, ?(decide_False (P := p = c)) by done; try done.
    intros q H1 H2. rewrite Hq3, decide_False by done. by apply A1.
  - by rewrite Hq3, decide_True.
  - intros q fd i Hq Hlt Hd. change (desc_at k3 i) with (desc_at k1 i). apply same_file_node, (cf_files _ _ _ _ HC).
    destruct (open_desc k q fd i HI Hlt Hd) as (Hfd & _ & _ & _ & Hu & Hx & _).
    destruct (tabs_lookup k q HI Hlt) as [_ Ht]. rewrite <- (cf_others _ _ _ _ HC q Hq) in Ht.
    pose proof (sumf_member (tab_refs i) (tabs k1) q _ Ht) as M1.
    pose proof (sumf_member (hit i) _ _ _ (entry_lookup k q (Z.to_nat fd) HI Hlt ltac:(lia))) as M2.
    assert (hit i (entry_at k q (Z.to_nat fd)) = 1%nat) as Hh.
    { unfold hit. apply Z.eqb_neq in Hu. by rewrite Hu, Hx, Z.eqb_refl. }
    unfold total_refs, tab_refs, table_refs in *. cbn [tab_of t_entries] in M1. lia.
Qed.

(** ** A child, from its start to its end *)

Lemma calm_spawned (k k1 : kernel) p c :
  calm k -> g_current_process k = Some p -> 0 <= g_next_pid k < 2 ^ 32 - 1 -> spawned k k1 p c -> calm k1.
Proof.
  intros [HB [P1 P2] HR] Hp Hn HS. destruct (sp_slot _ _ _ _ HS) as (Hc & Hcp & Hs).
  destruct (sp_child _ _ _ _ HS) as (C1 & _ & C3 & _). pose proof (sp_next _ _ _ _ HS) as Hnext.
  rewrite u32_small in Hnext by lia. split; [apply HS|split|].
  - intros q Hq. rewrite Hnext. destruct (decide (q = c)) as [->|Hne]; [rewrite C3; lia|].
    rewrite (sp_others _ _ _ _ HS) in * by done. pose proof (P1 q Hq). lia.
  - intros q q' Hq Hq'. destruct (decide (q = c)) as [->|H1], (decide (q' = c)) as [->|H2]; try done.
    + rewrite C3, (sp_others _ _ _ _ HS q') in * by done. pose proof (P1 q' Hq'). lia.
    + rewrite C3, (sp_others _ _ _ _ HS q) in * by done. pose proof (P1 q Hq). lia.
    + rewrite !(sp_others _ _ _ _ HS) in * by done. by apply P2.
  - intros q Hq. rewrite (sp_current _ _ _ _ HS) in Hq. by injection Hq as <-.
Qed.

(** [own], and the caller's own descriptors and files are as they were too. *)
Record visited (k k' : kernel) (p : nat) : Prop := {
  vs_own : own k k';
  vs_entries : entries (proc_at k' p) = entries (proc_at k p);
  vs_files fd i : fd_description k p fd = Some i -> same_node (desc_at k' i) (desc_at k i)
}.

Lemma description_same (k k' : kernel) q fd :
  inv k -> inv k' -> (q < 16)%nat -> entries (proc_at k' q) = entries (proc_at k q) ->
  fd_description k' q fd = fd_description k q fd.
Proof. intros HI HI' Hq E. apply description_ext; try done. unfold entry_at. by rewrite E. Qed.

Section Child.
Context (k k1 k2 k3 : kernel) (p c : nat) (status : Z).
Hypothesis HC : calm k.
Hypothesis Hp : g_current_process k = Some p.
Hypothesis Hn : 0 <= g_next_pid k < 2 ^ 32 - 1.
Hypothesis HS : spawned k k1 p c.
Hypothesis HO : own k1 k2.
Hypothesis Hreap : process_core_reap c (returned status p c k2) = Some k3.

Lemma ch_calm : calm k2.
Proof using HC HO HS Hn Hp. eapply calm_own; [|exact HO]. by eapply calm_spawned. Qed.

(** Every process that was there before is untouched while the child runs. *)
Lemma ch_proc q : q <> c -> state (proc_at k q) <> UNUSED -> proc_at k2 q = proc_at k q.
Proof using HO HS.
  intros Hq Hs. rewrite (ow_others _ _ HO); rewrite ?(sp_others _ _ _ _ HS) by done; [done| |done].
  rewrite (sp_current _ _ _ _ HS). congruence.
Qed.

Lemma ch_parent : state (proc_at k p) <> UNUSED /\ (p < 16)%nat /\ proc_at k2 p = proc_at k p.
Proof using HC HO HS Hp.
  destruct (current_live k p (bt_inv _ (cm_booted _ HC)) Hp) as [Hl Hs]. destruct (sp_slot _ _ _ _ HS) as (_ & Hcp & _).
  split_and!; [done|done|]. apply ch_proc; [by apply not_eq_sym|done].
Qed.

Lemma ch_exit : process_core_exit_current status k2 = Some (returned status p c k2).
Proof using HC HO HS Hn Hp.
  destruct ch_parent as (Hs & Hl & Ep). destruct (sp_slot _ _ _ _ HS) as (_ & Hcp & _).
  pose proof (ow_self _ _ HO c (sp_current _ _ _ _ HS)) as [= _ Hpp _].
  apply exit_returns; [apply ch_calm|by rewrite (ow_current _ _ HO), (sp_current _ _ _ _ HS)|done|by rewrite Ep|].
  rewrite Hpp, Ep. apply (sp_child _ _ _ _ HS).
Qed.

Lemma ch_returned q : proc_at (returned status p c k2) q =
  if decide (q = c) then set_state ZOMBIE (set_exit_status status (proc_at k2 c)) else proc_at k2 q.
Proof using HC HO HS Hn Hp.
  pose proof (bt_inv _ (cm_booted _ ch_calm)) as HI. destruct (sp_slot _ _ _ _ HS) as (Hlt & Hcp & _).
  destruct ch_parent as (_ & Hl & Ep). unfold returned. change (proc_at (set_current ?x ?y) q) with (proc_at y q).
  rewrite proc_at_put, !zombie_proc, (decide_False (P := p = c)) by (done || by apply not_eq_sym).
  destruct (decide (q = p)) as [->|Hq]; [|by rewrite decide_False by naive_solver].
  rewrite (decide_False (P := p = c)) by (by apply not_eq_sym). case_decide; [|done].
  rewrite Ep. pose proof (cm_running _ HC p Hp) as Hr. destruct (proc_at k p). cbn in *. by rewrite Hr.
Qed.

Lemma ch_visited : visited k k3 p.
Proof using All.
  destruct ch_parent as (Hs & Hl & Ep). destruct (sp_slot _ _ _ _ HS) as (Hlt & Hcp & Hsc).
  pose proof (bt_inv _ (cm_booted _ HC)) as HI. pose proof (bt_inv _ (cm_booted _ ch_calm)) as HI2.
  assert (booted (returned status p c k2)) as HBr by (eapply exit_booted; [apply ch_calm|apply ch_exit]).
  destruct (reap_kept p c _ k3 (bt_inv _ HBr) eq_refl (not_eq_sym Hcp) Hlt) as ((A1 & A2 & A3 & A4 & A5) & Hclear & Hf); [|done|].
  { by rewrite ch_returned, decide_True. }
  assert (forall q, q <> p -> q <> c -> proc_at k3 q = proc_at k2 q) as Hq3.
  { intros q H1 H2. rewrite A1 by done. by rewrite ch_returned, decide_False. }
  rewrite ch_returned, decide_False, Ep in A2, A3 by (by apply not_eq_sym).
  assert (forall q fd i, q <> c -> (q < 16)%nat -> fd_description k q fd = Some i -> same_node (desc_at k3 i) (desc_at k i)) as Hfiles.
  { intros q fd i Hq Hql Hd. pose proof (description_live k q fd i HI Hql Hd) as Hqs.
    assert (fd_description k1 q fd = Some i) as Hd1.
    { rewrite <- Hd. apply description_same; [done|apply HS|done|by rewrite (sp_others _ _ _ _ HS)]. }
    assert (fd_description (returned status p c k2) q fd = Some i) as Hdr.
    { rewrite <- Hd. apply description_same; [done|apply HBr|done|]. by rewrite ch_returned, decide_False, ch_proc. }
    etrans; [by apply (Hf q fd)|]. change (desc_at (returned status p c k2) i) with (desc_at k2 i).
    etrans; [apply (ow_files _ _ HO q fd); [rewrite (sp_current _ _ _ _ HS); congruence|done|done]|].
    apply same_file_node, (sp_files _ _ _ _ HS). }
  split; [|done|intros fd i; apply Hfiles; [by apply not_eq_sym|done]]. split.
  - eapply reap_booted; [exact HBr| |exact Hreap]. cbn. congruence.
  - by rewrite A5, Hp.
  - rewrite A4. change (g_next_pid (returned status p c k2)) with (g_next_pid k2).
    pose proof (ow_pid _ _ HO) as Hpid. rewrite (sp_next _ _ _ _ HS), u32_small in Hpid by lia. lia.
  - intros q Hq. rewrite Hp in Hq. by injection Hq as <-.
  - intros q Hq Hqs. assert (q <> c) by (intros ->; done). rewrite Hq3 by (done || congruence). by apply ch_proc.
  - intros q Hqs. destruct (decide (q = c)) as [->|Hqc]; [by rewrite Hclear|].
    destruct (decide (q = p)) as [->|Hqp]; [done|]. rewrite Hq3 by done.
    apply (ow_unused _ _ HO). by rewrite (sp_others _ _ _ _ HS).
  - intros q fd i Hq Hql Hd. apply (Hfiles q fd); [|done|done]. intros ->.
    by apply (description_live k c fd i HI Hql Hd).
Qed.

End Child.

End Kernel.

Section Machine.
Context {S W : Type} `{!storage S} `{!services W}.
#[local] Notation kernel := (kernel S W).
#[local] Notation machine := (machine S W).
Variable enter : Z -> Z -> machine -> option (Z * machine).
Variable l : layout.
Variable wait_ticks : Z -> W -> option W.
Variable signal_power_down : W -> W.

#[local] Notation dispatch := (syscall_core_dispatch enter l wait_ticks signal_power_down).

(** ** Calls that start no program *)

(** The kernel took a step of its current process and the nesting depth is the same. *)
Definition steady (s s' : machine) : Prop :=
  own (kern s) (kern s') /\ g_usermode_exec_depth s' = g_usermode_exec_depth s.

Lemma steady_refl s : booted (kern s) -> steady s s.
Proof. intros H. split; [by apply own_refl|done]. Qed.

Lemma steady_trans s s1 s2 : booted (kern s) -> steady s s1 -> steady s1 s2 -> steady s s2.
Proof. intros H [H1 H2] [G1 G2]. split; [by eapply own_trans|congruence]. Qed.

Lemma steady_kernel (f : kernel -> option (Z * kernel)) s rc s' :
  (forall r k', f (kern s) = Some (r, k') -> own (kern s) k') -> on_kernel f s = Some (rc, s') -> steady s s'.
Proof.
  intros Hf. unfold on_kernel. destruct (f (kern s)) as [[r k]|] eqn:E; [|done]. cbn [mbind option_bind].
  intros [= <- <-]. split; [by eapply Hf|done].
Qed.

Lemma steady_file {A} (m : M (fs S W) A) out value errno s rc s' :
  booted (kern s) -> file_call m out value errno s = Some (rc, s') -> steady s s'.
Proof.
  intros HB. unfold file_call. destruct (on_fs m (kern s)) as [[r k]|] eqn:E; [|done]. cbn [mbind option_bind].
  pose proof (own_fs _ _ _ _ HB E). by destruct r; intros [= <- <-].
Qed.

Lemma steady_tty (f : W -> option W) rc s s' :
  booted (kern s) -> (k ← on_tty f (kern s); Some (0, set_kern k s)) = Some (rc, s') -> steady s s'.
Proof.
  intros HB. destruct (on_tty f (kern s)) as [k|] eqn:E; [|done]. cbn [mbind option_bind]. intros [= <- <-].
  split; [by eapply own_tty|done].
Qed.

Lemma steady_current f s rc s' :
  booted (kern s) -> on_kernel (fun k => '(p, k) ← process_core_current k; Some (f k p, k)) s = Some (rc, s') -> steady s s'.
Proof.
  intros HB. apply steady_kernel. intros r k'. destruct (bt_current _ HB) as [p Hp]. unfold process_core_current.
  rewrite Hp. intros [= <- <-]. by apply own_refl.
Qed.

Lemma steady_read fd buffer count s rc s' :
  booted (kern s) -> posix_read fd buffer count s = Some (rc, s') -> steady s s'.
Proof.
  intros HB. unfold posix_read. destruct (fd_core_read _ _ _ _) as [[[r bytes] k]|] eqn:E; [|done].
  cbn [mbind option_bind]. intros [= <- <-]. split; [by eapply fd_core_read_own|done].
Qed.

Lemma steady_fstat fd out s rc s' : booted (kern s) -> posix_fstat fd out s = Some (rc, s') -> steady s s'.
Proof.
  intros HB. unfold posix_fstat. destruct (out =? 0).
  - destruct (current_table_booted (kern s) HB) as (p & _ & _ & ->). cbn [mbind option_bind]. intros [= <- <-].
    split; [by apply own_refl|done].
  - destruct (fd_core_fstat fd (kern s)) as [[[r st] k]|] eqn:E; [|done]. cbn [mbind option_bind].
    intros [= <- <-]. pose proof (fd_core_fstat_own _ _ _ _ HB E). by destruct st.
Qed.

Lemma steady_access path mode s rc s' : booted (kern s) -> posix_access path mode s = Some (rc, s') -> steady s s'.
Proof.
  intros HB. unfold posix_access. destruct (_ || _); [intros [= <- <-]; by apply steady_refl|].
  destruct (on_fs _ (kern s)) as [[r k]|] eqn:E; [|done]. cbn [mbind option_bind]. pose proof (own_fs _ _ _ _ HB E).
  destruct r; [by intros [= <- <-]|]. by destruct (_ && _); intros [= <- <-].
Qed.

Lemma steady_sleep req rem s rc s' :
  booted (kern s) -> posix_nanosleep wait_ticks req rem s = Some (rc, s') -> steady s s'.
Proof.
  intros HB. unfold posix_nanosleep. destruct (req =? 0); [intros [= <- <-]; by apply steady_refl|].
  destruct (sleep_ticks _ _) as [ticks|]; [|intros [= <- <-]; by apply steady_refl].
  set (s1 := if negb (rem =? 0) then _ else _).
  assert (kern s1 = kern s /\ g_usermode_exec_depth s1 = g_usermode_exec_depth s) as [E1 E2] by (subst s1; by case_match).
  assert (steady s s1) as H1 by (split; [rewrite E1; by apply own_refl|done]).
  cbv zeta. destruct (ticks =? 0); [by intros [= <- <-]|]. intros E. eapply steady_trans; [done|exact H1|].
  eapply (steady_tty (wait_ticks ticks)); [by rewrite E1|exact E].
Qed.

Lemma steady_reboot how s rc s' :
  booted (kern s) -> posix_reboot signal_power_down how s = Some (rc, s') -> steady s s'.
Proof.
  intros HB. unfold posix_reboot. destruct (how =? 0); [by apply steady_tty|].
  destruct (how =? 1); [by apply steady_tty|]. intros [= <- <-]. by apply steady_refl.
Qed.

(** Every call but the two that end or start a program. *)
Lemma dispatch_steady nr a0 a1 a2 s rc s' :
  booted (kern s) -> nr <> SYS_EXIT -> nr <> SYS_EXECVE -> dispatch nr a0 a1 a2 s = Some (rc, s') -> steady s s'.
Proof.
  intros HB Hx He. unfold syscall_core_dispatch.
  destruct (nr =? SYS_READ); [by apply steady_read|].
  destruct (nr =? SYS_WRITE); [exact (steady_kernel _ s rc s' (fun r k' => fd_core_write_own _ _ _ _ _ HB))|].
  destruct (nr =? SYS_OPEN); [exact (steady_kernel _ s rc s' (fun r k' => fd_core_open_own _ _ _ _ _ HB))|].
  destruct (nr =? SYS_CLOSE); [exact (steady_kernel _ s rc s' (fun r k' => fd_core_close_own _ _ _ _ HB))|].
  destruct (nr =? SYS_FSTAT); [by apply steady_fstat|].
  destruct (nr =? SYS_LSEEK); [exact (steady_kernel _ s rc s' (fun r k' => fd_core_lseek_own _ _ _ _ _ _ HB))|].
  destruct (nr =? SYS_STAT); [unfold posix_stat; cbv zeta; case_match; [intros [= <- <-]; by apply steady_refl|exact (steady_file _ _ _ _ s rc s' HB)]|].
  destruct (nr =? SYS_GETCWD); [unfold sys_getcwd; cbv zeta; case_match; [intros [= <- <-]; by apply steady_refl|exact (steady_file _ _ _ _ s rc s' HB)]|].
  destruct (nr =? SYS_CHDIR); [exact (steady_file _ _ _ _ s rc s' HB)|].
  destruct (nr =? SYS_MKDIR); [exact (steady_file _ _ _ _ s rc s' HB)|].
  destruct (nr =? SYS_UNLINK); [exact (steady_file _ _ _ _ s rc s' HB)|].
  destruct (nr =? SYS_RMDIR); [exact (steady_file _ _ _ _ s rc s' HB)|].
  destruct (nr =? SYS_IOCTL); [exact (steady_kernel _ s rc s' (fun r k' => fd_core_ioctl_own _ _ _ _ _ _ _ HB))|].
  destruct (nr =? SYS_ACCESS); [by apply steady_access|].
  destruct (nr =? SYS_DUP); [exact (steady_kernel _ s rc s' (fun r k' => fd_core_dup_own _ _ _ _ HB))|].
  destruct (nr =? SYS_DUP2); [exact (steady_kernel _ s rc s' (fun r k' => fd_core_dup2_own _ _ _ _ _ HB))|].
  destruct (nr =? SYS_NANOSLEEP); [by apply steady_sleep|].
  destruct (nr =? SYS_SYNC); [intros [= <- <-]; by apply steady_refl|].
  destruct (nr =? SYS_GETPID); [by apply steady_current|].
  destruct (nr =? SYS_REBOOT); [by apply steady_reboot|].
  destruct (nr =? SYS_ISATTY); [exact (steady_kernel _ s rc s' (fun r k' => fd_core_isatty_own _ _ _ _ HB))|].
  destruct (nr =? SYS_GETPPID); [by apply steady_current|].
  destruct (nr =? SYS_SYMLINK); [exact (steady_file _ _ _ _ s rc s' HB)|].
  destruct (nr =? SYS_READLINK); [unfold posix_readlink; cbv zeta; case_match; [intros [= <- <-]; by apply steady_refl|exact (steady_file _ _ _ _ s rc s' HB)]|].
  destruct (nr =? SYS_GETDENTS); [unfold posix_getdents; cbv zeta; case_match; [intros [= <- <-]; by apply steady_refl|exact (steady_file _ _ _ _ s rc s' HB)]|].
  destruct (Z.eqb_spec nr SYS_EXECVE); [done|]. destruct (Z.eqb_spec nr SYS_EXIT); [done|]. intros [= <- <-]. by apply steady_refl.
Qed.

(** ** Programs *)

(** What a program can do: compute, or make a system call other than the last one.  The
    kernel has not yet given out all process numbers. *)
Definition user_step (s s' : machine) : Prop :=
  (exists m, s' = set_mem m s) \/
  exists nr a0 a1 a2 rc, nr <> SYS_EXIT /\ g_next_pid (kern s) < 2 ^ 32 - 1 /\ dispatch nr a0 a1 a2 s = Some (rc, s').

(** [sizeof] of [fs_stat_t] and [posix_timespec_t] on i386. *)
Definition SIZEOF_STAT : Z := 8.
Definition SIZEOF_TIMESPEC : Z := 8.

(** The part of the caller's memory a call stores its result in: address and length. *)
Definition buffer_of (nr a0 a1 a2 : Z) : option (Z * Z) :=
  if nr =? SYS_READ then Some (a1, a2)
  else if nr =? SYS_FSTAT then Some (a1, SIZEOF_STAT)
  else if nr =? SYS_STAT then Some (a1, SIZEOF_STAT)
  else if nr =? SYS_GETCWD then Some (a0, a1)
  else if nr =? SYS_NANOSLEEP then Some (a1, SIZEOF_TIMESPEC)
  else if nr =? SYS_READLINK then Some (a1, a2)
  else if nr =? SYS_GETDENTS then Some (a1, Z.min 32 a2 * SIZEOF_DIRENT)
  else None.

(** The memory of user programs: from the program slot to the end of the stack of the shell
    slot.  The kernel image and the kernel's heap lie outside. *)
Definition user_memory (a n : Z) : Prop :=
  USERMODE_I386_PROGRAM_MIN <= a /\ 0 <= n /\ a + n <= USERMODE_I386_SHELL_STACK_TOP.

(** A call that asks for its result in the memory of user programs, or for none.  The kernel
    stores wherever it is told to, its own tables included; the tables of a [machine] are
    those of the kernel as long as every call is careful. *)
Definition careful (nr a0 a1 a2 : Z) : Prop :=
  match buffer_of nr a0 a1 a2 with
  | Some (a, n) => a = 0 \/ user_memory a n
  | None => True
  end.

(** A step of a program that passes only buffers of user programs. *)
Definition careful_step (s s' : machine) : Prop :=
  (exists m, s' = set_mem m s) \/
  exists nr a0 a1 a2 rc, nr <> SYS_EXIT /\ careful nr a0 a1 a2 /\ g_next_pid (kern s) < 2 ^ 32 - 1 /\
    dispatch nr a0 a1 a2 s = Some (rc, s').

Lemma careful_user s s' : rtc careful_step s s' -> rtc user_step s s'.
Proof.
  apply rtc_subrel. intros x y [Hm|(nr & a0 & a1 & a2 & rc & Hx & _ & Hn & E)]; [by left|].
  right. by exists nr, a0, a1, a2, rc.
Qed.

(** The processor runs programs: a run is a sequence of such steps and ends with [exit]. *)
Definition runs_by (step : machine -> machine -> Prop) : Prop := forall e sp s1 status s2,
  enter e sp s1 = Some (status, s2) ->
  exists s', rtc step s1 s' /\ usermode_exit status s' = Some s2.

(** Every program passes only buffers of user programs. *)
Definition careful_programs : Prop := runs_by careful_step.

Definition lawful : Prop := runs_by user_step.

Lemma careful_lawful : careful_programs -> lawful.
Proof.
  intros HC e sp s1 status s2 E. destruct (HC _ _ _ _ _ E) as (s' & Hr & Hx). exists s'. split; [by apply careful_user|done].
Qed.

(** The machine while a program runs. *)
Definition quiet (s : machine) : Prop :=
  calm (kern s) /\ 0 <= g_next_pid (kern s) /\ 0 <= g_usermode_exec_depth s.

Lemma quiet_steady s s' : quiet s -> steady s s' -> quiet s'.
Proof.
  intros (H1 & H2 & H3) [HO HD]. split_and!; [by eapply calm_own|pose proof (ow_pid _ _ HO); lia|lia].
Qed.

(** [steady], and no table changed. *)
Definition idle (s s' : machine) : Prop :=
  steady s s' /\ tabs (kern s') = tabs (kern s) /\ g_descriptions (kern s') = g_descriptions (kern s) /\
  g_next_pid (kern s') = g_next_pid (kern s).

Lemma idle_refl s s' : booted (kern s) -> kern s' = kern s -> g_usermode_exec_depth s' = g_usermode_exec_depth s -> idle s s'.
Proof. intros HB E1 E2. unfold idle, steady. rewrite E1, E2. split; [|done]. split; [by apply own_refl|done]. Qed.

Lemma idle_trans s s1 s2 : booted (kern s) -> idle s s1 -> idle s1 s2 -> idle s s2.
Proof.
  intros HB (H1 & H2 & H3 & H4) (G1 & G2 & G3 & G4). split; [by eapply steady_trans|]. split_and!; congruence.
Qed.

(** An operation of [usermode_exec] before the child exists. *)
Definition keeps {A} (m : M machine A) : Prop :=
  forall s r s', booted (kern s) -> m s = Some (r, s') -> idle s s'.

Lemma keeps_load im (m : M (world S W) unit) : keeps (load im m).
Proof.
  intros s r s' HB. unfold load. destruct (on_fs _ (kern s)) as [[x k]|] eqn:E; [|done]. cbn [mbind option_bind].
  pose proof (own_fs _ _ _ _ HB E) as HO.
  destruct (on_fs_frame _ _ _ _ (current_in_range _ (bt_inv _ HB)) E) as (HT & HD & _ & _ & HN).
  destruct x as [rc|[[[rc|?] ?] ?]]; intros [= <- <-]; done.
Qed.

Lemma keeps_slot im d : keeps (choose_slot im d).
Proof.
  intros s r s' HB. unfold choose_slot, bind, guard, ret, fail. repeat case_match; intros E; simplify_eq; by apply idle_refl.
Qed.

Lemma keeps_segments segs : keeps (open_segments segs).
Proof.
  induction segs as [|x segs IH]; intros s r s' HB; cbn [open_segments].
  { intros [= <- <-]. by apply idle_refl. }
  unfold bind at 1, set_user_range. destruct (I386.paging_core_set_user_range _ _ _ _) as [[rc p]|]; [|done].
  cbn [mbind option_bind]. unfold bind, guard. destruct (rc =? 0).
  - intros E. exact (IH (set_pages p s) r s' HB E).
  - intros [= <- <-]. by apply idle_refl.
Qed.

Lemma keeps_mem {A} (m : M memory A) : keeps (on_mem m).
Proof.
  intros s r s' HB. unfold on_mem. destruct (m (mem s)) as [[r0 x]|]; [|done]. cbn [mbind option_bind].
  intros [= <- <-]. by apply idle_refl.
Qed.

(** A failed operation ends the call; otherwise the rest follows. *)
Lemma keeps_bind {A B} (m : M machine A) (f : A -> M machine B) s0 s r s' (P : machine -> Prop) :
  keeps m -> quiet s0 -> idle s0 s -> (forall s1, idle s0 s1 -> P s1) ->
  (forall x s1, idle s0 s1 -> f x s1 = Some (r, s') -> P s') -> bind m f s = Some (r, s') -> P s'.
Proof.
  intros Hm HQ Hs He Hf. pose proof (cm_booted _ (proj1 HQ)) as HB.
  unfold bind. destruct (m s) as [[[rc|x] s1]|] eqn:E; [| |done].
  - intros [= <- <-]. apply He. eapply idle_trans; [done|exact Hs|]. by eapply Hm; [apply Hs|].
  - apply Hf. eapply idle_trans; [done|exact Hs|]. by eapply Hm; [apply Hs|].
Qed.

(** Nothing of the caller or of another process is different after a program was run. *)
Definition after_child (s s' : machine) : Prop :=
  g_usermode_exec_depth s' = g_usermode_exec_depth s /\
  own (kern s) (kern s') /\
  forall p, g_current_process (kern s) = Some p -> entries (proc_at (kern s') p) = entries (proc_at (kern s) p) /\
    forall fd i, fd_description (kern s) p fd = Some i -> same_node (desc_at (kern s') i) (desc_at (kern s) i).

Lemma idle_entries s s' p : idle s s' -> booted (kern s) -> g_current_process (kern s) = Some p ->
  entries (proc_at (kern s') p) = entries (proc_at (kern s) p).
Proof.
  intros ([HO _] & HT & _) HB Hp. destruct (current_live _ _ (bt_inv _ HB) Hp) as [Hlt _].
  destruct (tabs_lookup _ p (bt_inv _ HB) Hlt) as [_ E1].
  destruct (tabs_lookup _ p (bt_inv _ (ow_booted _ _ HO)) Hlt) as [_ E2]. rewrite HT, E1 in E2. by injection E2 as ->.
Qed.

Lemma idle_after s s1 s2 : quiet s -> idle s s1 -> after_child s1 s2 -> after_child s s2.
Proof.
  intros HQ HI (D & O & F). pose proof (cm_booted _ (proj1 HQ)) as HB. pose proof HI as ([HO HD] & HT & HDs & _).
  split_and!; [congruence|by eapply own_trans|]. intros p Hp.
  assert (g_current_process (kern s1) = Some p) as Hp1 by (by rewrite (ow_current _ _ HO)).
  destruct (F p Hp1) as [F1 F2]. pose proof (idle_entries s s1 p HI HB Hp) as He.
  split; [congruence|]. intros fd i Hd. etrans; [apply (F2 fd)|].
  - rewrite <- Hd. apply description_same; [apply HB|apply HO| |done]. by apply (current_live _ _ (bt_inv _ HB)).
  - unfold desc_at. by rewrite HDs.
Qed.

Lemma after_refl s : booted (kern s) -> after_child s s.
Proof. intros HB. split_and!; [done|by apply own_refl|done]. Qed.

(** The rest of the development of a program that runs at depth [d]. *)
Definition well_behaved (d : Z) : Prop := forall s1 s2,
  quiet s1 -> g_usermode_exec_depth s1 = d -> rtc user_step s1 s2 -> steady s1 s2.

Lemma run_after path im e sp s r s' :
  lawful -> quiet s -> g_usermode_exec_depth s < USERMODE_EXEC_DEPTH_MAX -> g_next_pid (kern s) < 2 ^ 32 - 1 ->
  well_behaved (g_usermode_exec_depth s + 1) ->
  bind (spawn path im sp) (fun child => run_child enter l e sp child) s = Some (r, s') -> after_child s s'.
Proof.
  intros HL (HC & Hn0 & Hd0) Hd Hn HW. unfold USERMODE_EXEC_DEPTH_MAX in Hd. pose proof (cm_booted _ HC) as HB.
  destruct (bt_current _ HB) as [p Hp]. unfold bind, spawn.
  pose proof (spawn_spec (string_in (mem s) path) (im_arch im) (im_entry im) (im_segment_count im) (im_file_size im) sp _ p HB Hp) as HS.
  destruct (first_unused (g_processes (kern s)) 0) as [c|].
  2: { rewrite HS. cbn [mbind option_bind]. intros [= <- <-]. destruct s. by apply after_refl. }
  destruct HS as (k1 & -> & HS). cbn [mbind option_bind]. unfold run_child.
  set (s1 := set_depth _ _). destruct (enter e sp s1) as [[status s2]|] eqn:Ee; [|done]. cbn [mbind option_bind].
  destruct (HL _ _ _ _ _ Ee) as (s3 & Hrun & Hexit).
  assert (quiet s1) as HQ1.
  { split_and!; [by apply (calm_spawned (kern s) k1 p c)| |].
    - change (0 <= g_next_pid k1). rewrite (sp_next _ _ _ _ HS), u32_small by lia. lia.
    - change (0 <= u32 (g_usermode_exec_depth s + 1)). rewrite u32_small by lia. lia. }
  assert (g_usermode_exec_depth s1 = g_usermode_exec_depth s + 1) as Hd1.
  { change (u32 (g_usermode_exec_depth s + 1) = g_usermode_exec_depth s + 1). by rewrite u32_small by lia. }
  destruct (HW s1 s3 HQ1 Hd1 Hrun) as [HO HD]. change (kern s1) with k1 in HO.
  unfold usermode_exit in Hexit. rewrite (ch_exit (kern s) k1 (kern s3) p c status) in Hexit by done.
  cbn [mbind option_bind] in Hexit. injection Hexit as <-. cbn [kern set_kern set_saved set_esp0 set_depth].
  destruct (process_core_reap c _) as [k4|] eqn:Er; [|done]. cbn [mbind option_bind]. intros [= <- <-].
  pose proof (ch_visited (kern s) k1 (kern s3) k4 p c status HC Hp ltac:(lia) HS HO Er) as [V1 V2 V3].
  split_and!; [|done|].
  - cbn. rewrite HD, Hd1. rewrite u32_small by lia. lia.
  - intros q Hq. rewrite Hp in Hq. by injection Hq as <-.
Qed.

Lemma exec_after path argv envp s r s' :
  lawful -> quiet s -> g_next_pid (kern s) < 2 ^ 32 - 1 ->
  (g_usermode_exec_depth s < USERMODE_EXEC_DEPTH_MAX -> well_behaved (g_usermode_exec_depth s + 1)) ->
  usermode_exec enter l path argv envp s = Some (r, s') -> after_child s s'.
Proof.
  intros HL HQ Hn HW. pose proof (cm_booted _ (proj1 HQ)) as HB. unfold usermode_exec. unfold bind at 1, get at 1.
  unfold bind at 1, guard at 1. destruct (Z.leb_spec USERMODE_EXEC_DEPTH_MAX (g_usermode_exec_depth s)) as [Hge|Hd]; cbn [negb ret].
  { intros [= <- <-]. by apply after_refl. }
  assert (forall s1, idle s s1 -> after_child s s1) as Hidle.
  { intros s1 HI. eapply idle_after; [done|exact HI|]. apply after_refl, HI. }
  apply (keeps_bind _ _ s s r s' (after_child s)); [apply keeps_load|done|by apply idle_refl|done|]. intros im0 s1 I1.
  apply (keeps_bind _ _ s s1); [apply keeps_slot|done|done|done|]. intros t s2 I2. unfold bind at 1, get at 1.
  apply (keeps_bind _ _ s s2); [apply keeps_load|done|done|done|]. intros im s3 I3.
  apply (keeps_bind _ _ s s3); [apply keeps_segments|done|done|done|]. intros u s4 I4.
  apply (keeps_bind _ _ s s4); [apply keeps_mem|done|done|done|]. intros sp s5 I5 E.
  apply (idle_after s s5); [done|done|]. pose proof I5 as ([HO HD] & _ & _ & HN). rewrite <- HD, <- HN in *.
  eapply run_after; [done|by eapply quiet_steady; [|apply I5]|done|done|by apply HW|exact E].
Qed.

Lemma dispatch_execve path argv envp s r s' :
  path <> 0 -> usermode_exec enter l path argv envp s = Some (r, s') ->
  dispatch SYS_EXECVE path argv envp s = Some (match r with inl rc => rc | inr status => status end, s').
Proof.
  intros Hp E. change (posix_execve enter l path argv envp s = Some (match r with inl rc => rc | inr status => status end, s')).
  unfold posix_execve. apply Z.eqb_neq in Hp. by rewrite Hp, E.
Qed.

(** ** Sequences of steps *)

Lemma step_steady s s' :
  lawful -> quiet s -> (g_usermode_exec_depth s < USERMODE_EXEC_DEPTH_MAX -> well_behaved (g_usermode_exec_depth s + 1)) ->
  user_step s s' -> steady s s'.
Proof.
  intros HL HQ HW. pose proof (cm_booted _ (proj1 HQ)) as HB. intros [[m ->]|(nr & a0 & a1 & a2 & rc & Hx & Hn & E)].
  { split; [by apply own_refl|done]. }
  destruct (decide (nr = SYS_EXECVE)) as [->|Hne]; [|by eapply dispatch_steady].
  change (posix_execve enter l a0 a1 a2 s = Some (rc, s')) in E. unfold posix_execve in E.
  destruct (a0 =? 0); [injection E as <- <-; by apply steady_refl|].
  destruct (usermode_exec enter l a0 a1 a2 s) as [[r s2]|] eqn:Ex; [|done]. cbn [mbind option_bind] in E.
  injection E as <- <-. destruct (exec_after a0 a1 a2 s r s2 HL HQ Hn HW Ex) as (D & O & _). done.
Qed.

(** Programs are nested at most [USERMODE_EXEC_DEPTH_MAX] deep. *)
Lemma all_well_behaved n d : lawful -> USERMODE_EXEC_DEPTH_MAX <= d + Z.of_nat n -> well_behaved d.
Proof.
  intros HL. revert d. induction n as [|n IH]; intros d Hd s1 s2 HQ Hs1 Hr; revert HQ Hs1.
  all: induction Hr as [s|s sm s' Hstep _ IHr]; intros HQ Hs1; [by apply steady_refl, HQ|].
  all: assert (steady s sm) as H1 by
    (apply step_steady; [done|done|intros; first [lia|apply IH; lia]|done]).
  all: eapply steady_trans; [apply HQ|exact H1|apply IHr; [by eapply quiet_steady|destruct H1; congruence]].
Qed.

Lemma lawful_steady s s' : lawful -> quiet s -> rtc user_step s s' -> steady s s'.
Proof.
  intros HL HQ Hr. apply (all_well_behaved 2 (g_usermode_exec_depth s) HL); try done.
  destruct HQ as (_ & _ & ?). unfold USERMODE_EXEC_DEPTH_MAX. lia.
Qed.

(** C6: Programs that pass only buffers of user programs are isolated from each other. The kernel does not
    check the pointers it is given, so a call with a buffer inside the kernel could overwrite any table; assume
    that neither the program that runs, nor any program it starts, makes such a call: every buffer a call
    stores its result in (for read, stat, fstat, getcwd, nanosleep, readlink and getdents) is null or lies in
    the memory of user programs. Assume also that every program that is started computes, makes system calls
    and ends with exit, and that fewer than 2^32 - 1 processes have been created. Then from any state of the
    kernel between two system calls, after any sequence of such calls, with any other numbers and arguments
    and including programs that are executed and waited for, the reference counts of open files are exact,
    the program is still the current one at the same nesting depth, and every other process has its record,
    its descriptors, and the same files open behind them. *)
Theorem programs_are_isolated s s' :
  careful_programs -> quiet s -> rtc careful_step s s' ->
  quiet s' /\ g_current_process (kern s') = g_current_process (kern s) /\
  g_usermode_exec_depth s' = g_usermode_exec_depth s /\
  forall q, g_current_process (kern s) <> Some q -> state (proc_at (kern s) q) <> UNUSED ->
    proc_at (kern s') q = proc_at (kern s) q /\
    forall fd i, fd_description (kern s) q fd = Some i ->
      fd_description (kern s') q fd = Some i /\ same_node (desc_at (kern s') i) (desc_at (kern s) i).
Proof.
  intros HL%careful_lawful HQ Hr%careful_user. pose proof (lawful_steady s s' HL HQ Hr) as HS. pose proof HS as [HO HD].
  pose proof (bt_inv _ (cm_booted _ (proj1 HQ))) as HI.
  split_and!; [by eapply quiet_steady|apply HO|done|]. intros q Hq Hs. pose proof (live_index_lt _ q HI Hs) as Hlt.
  pose proof (ow_others _ _ HO q Hq Hs) as Hp. split; [done|]. intros fd i Hd. split; [|by apply (ow_files _ _ HO q fd)].
  rewrite <- Hd. apply description_same; [done|apply HO|done|by rewrite Hp].
Qed.

(** What a call of [execve] does to its caller. *)
Lemma execve_effect path argv envp s rc s' p :
  lawful -> quiet s -> g_next_pid (kern s) < 2 ^ 32 - 1 -> g_current_process (kern s) = Some p ->
  dispatch SYS_EXECVE path argv envp s = Some (rc, s') ->
  g_current_process (kern s') = Some p /\ g_usermode_exec_depth s' = g_usermode_exec_depth s /\ quiet s' /\
  forall fd, fd_description (kern s') p fd = fd_description (kern s) p fd /\
    forall i, fd_description (kern s) p fd = Some i -> same_node (desc_at (kern s') i) (desc_at (kern s) i).
Proof.
  intros HL HQ Hn Hp E. change (posix_execve enter l path argv envp s = Some (rc, s')) in E. unfold posix_execve in E.
  pose proof (cm_booted _ (proj1 HQ)) as HB.
  assert (after_child s s') as (HD & HO & HF).
  { destruct (path =? 0); [injection E as <- <-; by apply after_refl|].
    destruct (usermode_exec enter l path argv envp s) as [[r s2]|] eqn:Ex; [|done]. cbn [mbind option_bind] in E.
    injection E as <- <-. apply (exec_after path argv envp s r s2 HL HQ Hn); [|done]. intros _.
    apply (all_well_behaved 2); [done|]. destruct HQ as (_ & _ & ?). unfold USERMODE_EXEC_DEPTH_MAX. lia. }
  destruct (HF p Hp) as [He Hf]. split_and!; [by rewrite (ow_current _ _ HO)|done|by eapply quiet_steady|].
  intros fd. split; [|by apply Hf]. apply description_same; [apply HB|apply HO| |done].
  by apply (current_live _ _ (bt_inv _ HB)).
Qed.

(** C25: Executing a program leaves the descriptors of its caller as they were. Assume that every program that
    is started computes, makes system calls whose result buffers are null or lie in the memory of user
    programs (the kernel does not check the pointers it is given), and ends with exit; and that fewer than
    2^32 - 1 processes have been created. When [execve], called from any state of the kernel between two system
    calls, returns, whatever else the program did and whatever it executed in turn, the caller is the current
    process again, at the same nesting depth, the kernel is between two system calls again, and the caller
    has the descriptors it had, open on the same files. *)
Theorem execve_keeps_descriptors path argv envp s rc s' p :
  careful_programs -> quiet s -> g_next_pid (kern s) < 2 ^ 32 - 1 -> g_current_process (kern s) = Some p ->
  dispatch SYS_EXECVE path argv envp s = Some (rc, s') ->
  g_current_process (kern s') = Some p /\ g_usermode_exec_depth s' = g_usermode_exec_depth s /\ quiet s' /\
  forall fd, fd_description (kern s') p fd = fd_description (kern s) p fd /\
    forall i, fd_description (kern s) p fd = Some i -> same_node (desc_at (kern s') i) (desc_at (kern s) i).
Proof. intros HC%careful_lawful. by apply execve_effect. Qed.

End Machine.

(** ** The demo program *)

Definition demo_wait (ticks : Z) (w : console) : option console := Some w.
Definition demo_power (w : console) : console := w.

Lemma demo_calm : calm (kern demo_machine).
Proof.
  split.
  - apply back_booted; [apply FdProps.demo_booted|reflexivity].
  - assert (forall q, state (proc_at (kern demo_machine) q) <> UNUSED -> q = 0%nat) as H0.
    { intros q. do 16 (destruct q as [|q]; [intros Hq; try done; by destruct Hq|]). intros Hq. by destruct Hq. }
    split; [|by intros q q' ->%H0 ->%H0]. intros q ->%H0. vm_compute. intuition congruence.
  - by intros p [= <-].
Qed.

Lemma demo_quiet : quiet demo_machine.
Proof. split; [apply demo_calm|]. split; vm_compute; discriminate. Qed.

Lemma demo_careful : careful_programs demo_enter demo_layout demo_wait demo_power.
Proof.
  intros e sp s1 status s2. unfold demo_enter. intros E. exists (set_mem (mem s1) s1).
  split; [apply rtc_once; left; by eexists|].
  destruct (usermode_exit 7 (set_mem (mem s1) s1)) as [s3|] eqn:Ex; [|done]. by injection E as <- <-.
Qed.

Lemma demo_lawful : lawful demo_enter demo_layout demo_wait demo_power.
Proof. apply careful_lawful, demo_careful. Qed.

(** The machine while the demo program runs: process 1, started by process 0. *)
Definition demo_child : machine Ramfs.ramfs console :=
  set_depth 1 (set_kern (FdProps.after (FdProps.Spawn demo_path 0 0x60000 0 0 0x80000) FdProps.demo) demo_machine).

Lemma demo_child_calm : calm (kern demo_child).
Proof.
  split.
  - apply FdProps.after_booted; [reflexivity|exact I].
  - assert (forall q, state (proc_at (kern demo_child) q) <> UNUSED -> q = 0%nat \/ q = 1%nat) as H0.
    { intros q. do 16 (destruct q as [|q]; [intros Hq; try (by auto); by destruct Hq|]). intros Hq. by destruct Hq. }
    split.
    + intros q [->| ->]%H0; vm_compute; intuition congruence.
    + by intros q q' [->| ->]%H0 [->| ->]%H0.
  - by intros p [= <-].
Qed.

(** The child closes its standard output; its parent still has it. *)
Lemma programs_are_isolated_witness :
  exists s', syscall_core_dispatch demo_enter demo_layout demo_wait demo_power SYS_CLOSE 1 0 0 demo_child = Some (0, s') /\
    fd_description (kern s') 1 1 = None /\ fd_description (kern s') 0 1 = Some 1%nat.
Proof.
  assert (((fun x => (fst x, fd_description (kern (snd x)) 1 1)) <$>
    syscall_core_dispatch demo_enter demo_layout demo_wait demo_power SYS_CLOSE 1 0 0 demo_child) = Some (0, None)) as Hr by reflexivity.
  destruct (syscall_core_dispatch demo_enter demo_layout demo_wait demo_power SYS_CLOSE 1 0 0 demo_child) as [[rc s']|] eqn:E; [|done].
  injection Hr as -> Hd. exists s'. split; [done|]. split; [exact Hd|].
  destruct (programs_are_isolated demo_enter demo_layout demo_wait demo_power demo_child s') as (_ & _ & _ & H).
  - apply demo_careful.
  - split; [apply demo_child_calm|]. split; vm_compute; discriminate.
  - apply rtc_once. right. exists SYS_CLOSE, 1, 0, 0, 0. split; [discriminate|]. split; [exact I|]. split; [vm_compute; reflexivity|exact E].
  - destruct (H 0%nat) as [_ Hf]; [discriminate|discriminate|]. apply (Hf 1 1%nat). reflexivity.
Defined.

(** The demo program is run and the caller still has its standard output. *)
Lemma execve_keeps_descriptors_witness :
  exists s', syscall_core_dispatch demo_enter demo_layout demo_wait demo_power SYS_EXECVE 0x1000 0x2000 0 demo_machine = Some (7, s') /\
    fd_description (kern s') 0 1 = Some 1%nat /\ kind (desc_at (kern s') 1) = FD_KIND_TTY_OUT.
Proof.
  destruct (exec_returns RAMFS_DRIVER 0x201000 eq_refl ltac:(lia) demo_enter demo_layout demo_machine program_slot
    0x1000 0x2000 0 demo_path [demo_path] [] demo_program 0 1 closed 7 (fun m => m) demo_launch) as (s3 & E & _).
  { reflexivity. } { reflexivity. } { reflexivity. } { discriminate. } { reflexivity. }
  pose proof (dispatch_execve demo_enter demo_layout demo_wait demo_power 0x1000 0x2000 0 demo_machine (inr 7) s3 ltac:(lia) E) as Ed.
  exists s3. split; [exact Ed|].
  destruct (execve_keeps_descriptors demo_enter demo_layout demo_wait demo_power 0x1000 0x2000 0 demo_machine 7 s3 0)
    as (_ & _ & _ & H).
  - apply demo_careful.
  - apply demo_quiet.
  - vm_compute. reflexivity.
  - reflexivity.
  - exact Ed.
  - destruct (H 1) as [H1 H2]. split; [exact H1|]. destruct (H2 1%nat eq_refl) as (_ & Hk & _). exact Hk.
Defined.

End SyscallProps.
