(* ===== verification/Modules.v ===== *)
(** * Kernel modules

    [core/module/module_core.c]: the registry of resident modules, the services they
    register, and the loading of module images from the boot loader and from
    [/boot/modules].  The code of a module, and the functions it registers, are
    parameters.  Log lines are not modelled. *)

From S2P Require Import Prelude Mm FsTypes FsPath Vfs Pseudo FsCore.
From stdpp Require Import base list option list_numbers gmap strings.
From Stdlib Require Import ZArith Lia ZifyBool.
Import FsTypes FsPath Vfs Pseudo FsCore.
Open Scope Z_scope.
Open Scope vfs_scope.

Module Modules.

Definition SMOD_FORMAT_VERSION : Z := 1.
Definition SMOD_API_VERSION : Z := 3.
Definition SMOD_ARCH_I386 : Z := 1.
Definition SMOD_ARCH_X86_64 : Z := 2.
Definition SMOD_FLAG_EXECUTABLE : Z := 1.
Definition SMOD_HEADER_SIZE : Z := 32.
Definition SMOD_IMAGE_LIMIT : Z := 16384.
Definition SMOD_BOOT_ARENA_SIZE : Z := 16384.

Definition SMOD_MAX_LOADED : Z := 16.
Definition SMOD_MAX_DIRECTORY_ENTRIES : Z := 24.
Definition SMOD_IO_CHUNK : Z := 512.
Definition SMOD_PATH_PREFIX : list Z := cstr "/boot/modules/".
Definition SMOD_FLOPPY_MAGIC : Z := 0x53314D47.

(** ** Services *)

(** A table of driver functions: its ABI tag and its pointers, in the order of the
    declaration. *)
Record ops := Ops { abi : Z; fns : list Z }.

Definition SYSTEM_ABI : Z := 1.

(** The staged and the committed driver of one kind; [installed] says that the
    dispatcher of the kind points at [loaded]. *)
Record driver_slot := DriverSlot { loaded : ops; pending : ops; has : Z; pending_has : Z; installed : Z }.

(** The static variables of the file. *)
Record registry := Registry {
  smod_images : list Z; smod_loaded_count : Z; smod_registered_names : list (list Z);
  smod_boot_used : Z; smod_preloaded_names : list (list Z); smod_preloaded_count : Z;
  active_uart : Z; active_rtc : Z; pending_uart : Z; pending_rtc : Z; smod_in_entry : Z;
  display : driver_slot; input : driver_slot; irq_chip : driver_slot; floppy : driver_slot
}.

Definition set_pending_uart (v : Z) (r : registry) : registry :=
  Registry (smod_images r) (smod_loaded_count r) (smod_registered_names r) (smod_boot_used r)
    (smod_preloaded_names r) (smod_preloaded_count r) (active_uart r) (active_rtc r) v (pending_rtc r)
    (smod_in_entry r) (display r) (input r) (irq_chip r) (floppy r).
Definition set_pending_rtc (v : Z) (r : registry) : registry :=
  Registry (smod_images r) (smod_loaded_count r) (smod_registered_names r) (smod_boot_used r)
    (smod_preloaded_names r) (smod_preloaded_count r) (active_uart r) (active_rtc r) (pending_uart r) v
    (smod_in_entry r) (display r) (input r) (irq_chip r) (floppy r).
Definition set_drivers (d i q f : driver_slot) (r : registry) : registry :=
  Registry (smod_images r) (smod_loaded_count r) (smod_registered_names r) (smod_boot_used r)
    (smod_preloaded_names r) (smod_preloaded_count r) (active_uart r) (active_rtc r) (pending_uart r) (pending_rtc r)
    (smod_in_entry r) d i q f.
Definition set_entry (v : Z) (r : registry) : registry :=
  Registry (smod_images r) (smod_loaded_count r) (smod_registered_names r) (smod_boot_used r)
    (smod_preloaded_names r) (smod_preloaded_count r) (active_uart r) (active_rtc r) (pending_uart r) (pending_rtc r)
    v (display r) (input r) (irq_chip r) (floppy r).
Definition set_active (uart rtc : Z) (r : registry) : registry :=
  Registry (smod_images r) (smod_loaded_count r) (smod_registered_names r) (smod_boot_used r)
    (smod_preloaded_names r) (smod_preloaded_count r) uart rtc (pending_uart r) (pending_rtc r)
    (smod_in_entry r) (display r) (input r) (irq_chip r) (floppy r).
Definition set_boot_used (v : Z) (r : registry) : registry :=
  Registry (smod_images r) (smod_loaded_count r) (smod_registered_names r) v
    (smod_preloaded_names r) (smod_preloaded_count r) (active_uart r) (active_rtc r) (pending_uart r) (pending_rtc r)
    (smod_in_entry r) (display r) (input r) (irq_chip r) (floppy r).
Definition set_images (l : list Z) (n : Z) (r : registry) : registry :=
  Registry l n (smod_registered_names r) (smod_boot_used r)
    (smod_preloaded_names r) (smod_preloaded_count r) (active_uart r) (active_rtc r) (pending_uart r) (pending_rtc r)
    (smod_in_entry r) (display r) (input r) (irq_chip r) (floppy r).
Definition set_names (l : list (list Z)) (r : registry) : registry :=
  Registry (smod_images r) (smod_loaded_count r) l (smod_boot_used r)
    (smod_preloaded_names r) (smod_preloaded_count r) (active_uart r) (active_rtc r) (pending_uart r) (pending_rtc r)
    (smod_in_entry r) (display r) (input r) (irq_chip r) (floppy r).
Definition set_preloaded (l : list (list Z)) (n : Z) (r : registry) : registry :=
  Registry (smod_images r) (smod_loaded_count r) (smod_registered_names r) (smod_boot_used r)
    l n (active_uart r) (active_rtc r) (pending_uart r) (pending_rtc r)
    (smod_in_entry r) (display r) (input r) (irq_chip r) (floppy r).

(** The pointers that are tested, by their place in the table: every one but [set_cursor] of a
    display. *)
Definition DISPLAY_TESTED : list nat := [0; 1; 3; 4; 5; 6; 7; 8; 9; 10; 11; 12; 13]%nat.
Definition INPUT_TESTED : list nat := [0; 1; 2; 3; 4; 5; 6]%nat.
Definition IRQ_CHIP_TESTED : list nat := [0; 1; 2; 3; 4]%nat.
Definition FLOPPY_TESTED : list nat := [0; 1; 2]%nat.

(** The checks of a driver table, which are also those of its dispatcher. *)
Definition complete (tested : list nat) (o : ops) : bool :=
  (abi o =? SYSTEM_ABI) && forallb (fun i => negb (default 0 (fns o !! i) =? 0)) tested.

(** The common shape of the four registrations of a driver table. *)
Definition stage (tested : list nat) (in_entry : Z) (o : option ops) (s : driver_slot) : option driver_slot :=
  match o with
  | None => None
  | Some o =>
      if (in_entry =? 0) || negb (complete tested o) || negb (has s =? 0) || negb (pending_has s =? 0) then None
      else Some (DriverSlot (loaded s) o (has s) 1 (installed s))
  end.

Definition smod_register_display (o : option ops) (r : registry) : Z * registry :=
  match stage DISPLAY_TESTED (smod_in_entry r) o (display r) with
  | None => (-1, r)
  | Some s => (0, set_drivers s (input r) (irq_chip r) (floppy r) r)
  end.
Definition smod_register_input (o : option ops) (r : registry) : Z * registry :=
  match stage INPUT_TESTED (smod_in_entry r) o (input r) with
  | None => (-1, r)
  | Some s => (0, set_drivers (display r) s (irq_chip r) (floppy r) r)
  end.
Definition smod_register_irq_chip (o : option ops) (r : registry) : Z * registry :=
  match stage IRQ_CHIP_TESTED (smod_in_entry r) o (irq_chip r) with
  | None => (-1, r)
  | Some s => (0, set_drivers (display r) (input r) s (floppy r) r)
  end.
Definition smod_register_floppy (o : option ops) (r : registry) : Z * registry :=
  match stage FLOPPY_TESTED (smod_in_entry r) o (floppy r) with
  | None => (-1, r)
  | Some s => (0, set_drivers (display r) (input r) (irq_chip r) s r)
  end.

Definition smod_register_uart (write_byte : Z) (r : registry) : Z * registry :=
  if (smod_in_entry r =? 0) || (write_byte =? 0) || negb (active_uart r =? 0) || negb (pending_uart r =? 0)
  then (-1, r) else (0, set_pending_uart write_byte r).
Definition smod_register_rtc (read_time : Z) (r : registry) : Z * registry :=
  if (smod_in_entry r =? 0) || (read_time =? 0) || negb (active_rtc r =? 0) || negb (pending_rtc r =? 0)
  then (-1, r) else (0, set_pending_rtc read_time r).

(** ** Names *)

Definition smod_char_lower (c : Z) : Z := if (65 <=? c) && (c <=? 90) then u8 (c + 32) else c.

(** The comparison loop: the index where it stops. *)
Fixpoint name_loop (n : nat) (a b : list Z) (j : nat) : nat :=
  match n with
  | O => j
  | Datatypes.S n =>
      if (smod_char_lower (char_at a j) =? smod_char_lower (char_at b j)) && negb (char_at a j =? 0)
      then name_loop n a b (j + 1) else j
  end.

Definition same_name (a b : list Z) : bool :=
  let j := name_loop (Z.to_nat FS_NAME_CAP) a b 0 in
  (Z.of_nat j <? FS_NAME_CAP) && (char_at a j =? 0) && (char_at b j =? 0).

Definition smod_name_already_loaded (name : list Z) (r : registry) : bool :=
  existsb (same_name name) (take (Z.to_nat (smod_preloaded_count r)) (smod_preloaded_names r)).

Definition bounded_name (name : list Z) : list Z := take (Z.to_nat (FS_NAME_CAP - 1)) name.

Definition smod_store_name (index : Z) (name : option (list Z)) (r : registry) : registry :=
  match name with
  | None => r
  | Some name =>
      if SMOD_MAX_LOADED <=? index then r
      else set_names (<[Z.to_nat index := bounded_name name]> (smod_registered_names r)) r
  end.

Definition smod_module_name (index : Z) (r : registry) : option (list Z) :=
  if index <? smod_loaded_count r then Some (default [] (smod_registered_names r !! Z.to_nat index)) else None.

Definition smod_has_extension (name : list Z) : bool :=
  let len := Z.of_nat (length name) in
  if (len <? 5) || (FS_NAME_CAP <=? len) then false
  else
    let at_ k := char_at name (Z.to_nat (len - k)) in
    (at_ 4 =? 46) && ((at_ 3 =? 109) || (at_ 3 =? 77)) && ((at_ 2 =? 111) || (at_ 2 =? 79)) &&
    ((at_ 1 =? 100) || (at_ 1 =? 68)).

(** ** Image headers *)

Definition byte_of (p : list Z) (i : nat) : Z := u8 (char_at p i).
Definition smod_u16 (p : list Z) (i : nat) : Z := Z.lor (byte_of p i) (Z.shiftl (byte_of p (i + 1)) 8).
Definition smod_u32 (p : list Z) (i : nat) : Z :=
  Z.lor (Z.lor (Z.lor (byte_of p i) (Z.shiftl (byte_of p (i + 1)) 8)) (Z.shiftl (byte_of p (i + 2)) 16))
        (Z.shiftl (byte_of p (i + 3)) 24).

Definition smod_machine_arch (A : Mm.arch) : Z :=
  match A with Mm.I386 => SMOD_ARCH_I386 | Mm.X86_64 => SMOD_ARCH_X86_64 end.

(** Code size, memory size and entry offset; [bytes] is the size of the file. *)
Definition smod_validate (A : Mm.arch) (hdr : list Z) (bytes : Z) : option (Z * Z * Z) :=
  if (bytes <? SMOD_HEADER_SIZE) || (SMOD_HEADER_SIZE + SMOD_IMAGE_LIMIT <? bytes) then None
  else
    let code := smod_u32 hdr 16 in
    let mem := smod_u32 hdr 20 in
    let entry := smod_u32 hdr 24 in
    if negb (byte_of hdr 0 =? 83) || negb (byte_of hdr 1 =? 77) || negb (byte_of hdr 2 =? 79) ||
       negb (byte_of hdr 3 =? 68) ||
       negb (smod_u16 hdr 4 =? SMOD_FORMAT_VERSION) || negb (smod_u16 hdr 6 =? SMOD_API_VERSION) ||
       negb (smod_u16 hdr 8 =? smod_machine_arch A) || negb (smod_u16 hdr 10 =? SMOD_FLAG_EXECUTABLE) ||
       negb (smod_u32 hdr 12 =? SMOD_HEADER_SIZE) || negb (smod_u32 hdr 28 =? 0) ||
       (code =? 0) || (SMOD_IMAGE_LIMIT <? code) || (mem <? code) || (SMOD_IMAGE_LIMIT <? mem) ||
       (code <=? entry) || negb (bytes =? SMOD_HEADER_SIZE + code)
    then None else Some (code, mem, entry).

Definition align16 (n : Z) : Z := Z.land (u32 (n + 15)) (u32 (Z.lnot 15)).

(** ** Activation *)

Section Modules.
Context {S W D : Type} `{!storage S} `{!services W}.

(** The registry, memory, the kernel heap, the files and the devices. *)
Record world := World {
  reg : registry; ram : gmap Z Z; heap : Mm.mm_state; files : fs S W; devices : D
}.

Definition set_reg (r : registry) (w : world) : world := World r (ram w) (heap w) (files w) (devices w).
Definition set_ram (m : gmap Z Z) (w : world) : world := World (reg w) m (heap w) (files w) (devices w).
Definition set_heap (h : Mm.mm_state) (w : world) : world := World (reg w) (ram w) h (files w) (devices w).
Definition set_files (f : fs S W) (w : world) : world := World (reg w) (ram w) (heap w) f (devices w).
Definition set_devices (x : D) (w : world) : world := World (reg w) (ram w) (heap w) (files w) x.

(** The entry function of a module at an address, which calls back into the registry,
    and the [init] function of a driver. *)
Variable module_entry : Z -> world -> option (Z * world).
Variable driver_init : Z -> D -> D.
Variable A : Mm.arch.
(** The address of [smod_boot_image]. *)
Variable boot_image : Z.

Definition clear_slot (s : driver_slot) : driver_slot := DriverSlot (loaded s) (pending s) (has s) 0 (installed s).

Definition clear_pending (r : registry) : registry :=
  set_drivers (clear_slot (display r)) (clear_slot (input r)) (clear_slot (irq_chip r)) (clear_slot (floppy r))
    (set_pending_rtc 0 (set_pending_uart 0 r)).

(** The dispatcher accepts the table under the same checks. *)
Definition commit (tested : list nat) (s : driver_slot) : driver_slot :=
  if pending_has s =? 0 then s
  else DriverSlot (pending s) (pending s) 1 (pending_has s) (if complete tested (pending s) then 1 else installed s).

(** [loaded.init()] of a driver that was staged. *)
Definition init_staged (s : driver_slot) (x : D) : D :=
  if pending_has s =? 0 then x else driver_init (default 0 (fns (pending s) !! 0%nat)) x.

Definition smod_activate (image entry_offset : Z) (from_arena : bool) (aligned_size : Z) (w : world)
    : option (Z * world) :=
  let w := set_reg (set_entry 1 (clear_pending (reg w))) w in
  '(rc, w) ← module_entry (image + entry_offset) w;
  let w := set_reg (set_entry 0 (reg w)) w in
  if negb (rc =? 0) then Some (-1, set_reg (clear_pending (reg w)) w)
  else
    let r := reg w in
    let r := if from_arena then set_boot_used (u32 (smod_boot_used r + aligned_size)) r else r in
    let r := set_active (if pending_uart r =? 0 then active_uart r else pending_uart r)
                        (if pending_rtc r =? 0 then active_rtc r else pending_rtc r) r in
    let x := init_staged (input r) (init_staged (display r) (devices w)) in
    let r := set_drivers (commit DISPLAY_TESTED (display r)) (commit INPUT_TESTED (input r)) (commit IRQ_CHIP_TESTED (irq_chip r))
               (commit FLOPPY_TESTED (floppy r)) r in
    let r := clear_pending r in
    let r := set_images (<[Z.to_nat (smod_loaded_count r) := image]> (smod_images r)) (smod_loaded_count r + 1) r in
    Some (0, set_devices x (set_reg r w)).

(** [n] zeros from [addr]. *)
Fixpoint zeros (n : nat) (addr : Z) (m : gmap Z Z) : gmap Z Z :=
  match n with O => m | Datatypes.S n => zeros n (addr + 1) (<[addr := 0]> m) end.

Fixpoint bytes_to (addr : Z) (bytes : list Z) (m : gmap Z Z) : gmap Z Z :=
  match bytes with [] => m | b :: bytes => bytes_to (addr + 1) bytes (<[addr := b]> m) end.

(** The two copy loops: code, then zeros up to the memory size. *)
Definition place (image : Z) (code : list Z) (memory_size : Z) (m : gmap Z Z) : gmap Z Z :=
  zeros (Z.to_nat (memory_size - Z.of_nat (length code))) (image + Z.of_nat (length code)) (bytes_to image code m).

Definition smod_core_preload (file : option (list Z)) (name : option (list Z)) (w : world) : option (Z * world) :=
  match file, name with
  | Some file, Some name =>
      if (SMOD_MAX_LOADED <=? smod_loaded_count (reg w)) || (SMOD_MAX_LOADED <=? smod_preloaded_count (reg w)) ||
         smod_name_already_loaded name (reg w) then Some (-1, w)
      else match smod_validate A file (Z.of_nat (length file)) with
      | None => Some (-1, w)
      | Some (image_size, memory_size, entry_offset) =>
          let len := Z.of_nat (length name) in
          if (len =? 0) || (FS_NAME_CAP <=? len) then Some (-1, w)
          else
            let aligned_size := align16 memory_size in
            if u32 (SMOD_BOOT_ARENA_SIZE - smod_boot_used (reg w)) <? aligned_size then Some (-1, w)
            else
              let image := boot_image + smod_boot_used (reg w) in
              let code := take (Z.to_nat image_size) (drop (Z.to_nat SMOD_HEADER_SIZE) file) in
              let w := set_ram (place image code memory_size (ram w)) w in
              '(rc, w) ← smod_activate image entry_offset true aligned_size w;
              if negb (rc =? 0) then Some (-1, w)
              else
                let r := smod_store_name (smod_loaded_count (reg w) - 1) (Some name) (reg w) in
                let r := set_preloaded (<[Z.to_nat (smod_preloaded_count r) := bounded_name name]> (smod_preloaded_names r))
                                       (smod_preloaded_count r + 1) r in
                Some (0, set_reg r w)
      end
  | _, _ => Some (-1, w)
  end.

(** ** Modules in files *)

Definition on_files {X} (m : M (fs S W) X) : M world X := fun w =>
  match m (files w) with
  | None => None
  | Some (r, f) => Some (r, set_files f w)
  end.

(** [put] stores the bytes of a turn at their index in the buffer; every turn reads at
    least one. *)
Fixpoint read_loop (fuel : nat) (put : Z -> list Z -> world -> world) (id offset size done : Z) (data : list Z)
    : M world (list Z) :=
  if negb (done <? size) then ret data
  else match fuel with
       | O => fun _ => None
       | Datatypes.S fuel =>
           let chunk := Z.min (size - done) SMOD_IO_CHUNK in
           r <- attempt (on_files (fs_core_read id (u32 (offset + done)) chunk)) ;;
           match r with
           | inl _ | inr [] => fail (-1)
           | inr bytes =>
               (fun w => Some (inr tt, put done bytes w)) ;;;
               guard (Z.of_nat (length bytes) <=? chunk) (-1) ;;;
               read_loop fuel put id offset size (done + Z.of_nat (length bytes)) (data ++ bytes)
           end
       end.

Definition smod_read_exact (put : Z -> list Z -> world -> world) (id offset size : Z) : M world (list Z) :=
  read_loop (Z.to_nat size) put id offset size 0 [].

(** Into a local array, and into memory at [image]. *)
Definition to_local (done : Z) (bytes : list Z) (w : world) : world := w.
Definition to_memory (image done : Z) (bytes : list Z) (w : world) : world :=
  set_ram (bytes_to (image + done) bytes (ram w)) w.

(** [(void)fs_core_close(id); return -1;] *)
Definition close_fail {X} (id : Z) : M world X := attempt (on_files (fs_core_close id)) ;;; fail (-1).

Definition lift_world {X} (f : world -> option (X * world)) : M world X := fun w =>
  '(x, w) ← f w; Some (inr x, w).

Definition kmalloc (size : Z) : M world Z := fun w =>
  '(p, h) ← Mm.kmalloc_core A (heap w) size; Some (inr p, set_heap h w).
Definition kfree (p : Z) : M world unit := fun w =>
  h ← Mm.kfree_core A (heap w) p; Some (inr tt, set_heap h w).

Definition smod_core_load_file (path : list Z) (boot_magic : Z) : M world unit :=
  w <- get ;;
  guard (negb (SMOD_MAX_LOADED <=? smod_loaded_count (reg w))) (-1) ;;;
  o <- attempt (on_files (fs_core_open (Some path) FS_O_RDONLY)) ;;
  match o with
  | inl _ => fail (-1)
  | inr id =>
      st <- attempt (on_files (fs_core_fstat id)) ;;
      match st with
      | inl _ => close_fail id
      | inr st =>
          if (Z.land (st_mode st) FS_MODE_FILE =? 0) || (st_size st <? SMOD_HEADER_SIZE) ||
             (SMOD_HEADER_SIZE + SMOD_IMAGE_LIMIT <? st_size st) then close_fail id
          else
            hdr <- attempt (smod_read_exact to_local id 0 SMOD_HEADER_SIZE) ;;
            match hdr with
            | inl _ => close_fail id
            | inr hdr =>
                match smod_validate A hdr (st_size st) with
                | None => close_fail id
                | Some (image_size, memory_size, entry_offset) =>
                    w <- get ;;
                    let lowmem_arena := boot_magic =? SMOD_FLOPPY_MAGIC in
                    let aligned_size := if lowmem_arena then align16 memory_size else 0 in
                    if lowmem_arena && (u32 (SMOD_IMAGE_LIMIT - smod_boot_used (reg w)) <? aligned_size)
                    then close_fail id
                    else
                      image <- (if lowmem_arena then ret (boot_image + smod_boot_used (reg w)) else kmalloc memory_size) ;;
                      if negb lowmem_arena && (image =? 0) then close_fail id
                      else
                        data <- attempt (smod_read_exact (to_memory image) id SMOD_HEADER_SIZE image_size) ;;
                        attempt (on_files (fs_core_close id)) ;;;
                        match data with
                        | inl _ => (if lowmem_arena then ret tt else kfree image) ;;; fail (-1)
                        | inr _ =>
                            (fun w => Some (inr tt, set_ram (zeros (Z.to_nat (memory_size - image_size)) (image + image_size) (ram w)) w)) ;;;
                            rc <- lift_world (smod_activate image entry_offset lowmem_arena aligned_size) ;;
                            if rc =? 0 then ret tt
                            else (if lowmem_arena then ret tt else kfree image) ;;; fail rc
                        end
                end
            end
      end
  end.

(** ** All modules of the directory *)

(** [SMOD_PATH_PREFIX] and the name, if it fits. *)
Definition module_path (name : list Z) : option (list Z) :=
  if Z.of_nat (length SMOD_PATH_PREFIX + length name) <=? FS_PATH_CAP - 1 then Some (SMOD_PATH_PREFIX ++ name) else None.

Fixpoint load_entries (boot_magic : Z) (entries : list fs_dirent) (count : Z) : M world Z :=
  match entries with
  | [] => ret count
  | (name, type) :: entries =>
      w <- get ;;
      if negb (type =? FS_NODE_FILE) || negb (smod_has_extension name) || smod_name_already_loaded name (reg w)
      then load_entries boot_magic entries count
      else if SMOD_MAX_LOADED <=? smod_loaded_count (reg w) then ret count
      else match module_path name with
      | None => load_entries boot_magic entries count
      | Some path =>
          r <- attempt (smod_core_load_file path boot_magic) ;;
          match r with
          | inl _ => load_entries boot_magic entries count
          | inr _ =>
              (fun w => Some (inr tt, set_reg (smod_store_name (smod_loaded_count (reg w) - 1) (Some name) (reg w)) w)) ;;;
              load_entries boot_magic entries (count + 1)
          end
      end
  end.

Definition smod_core_boot_load_all (boot_magic : Z) : M world Z :=
  r <- attempt (on_files (fs_core_list_dir (Some (cstr "/boot/modules")) SMOD_MAX_DIRECTORY_ENTRIES)) ;;
  match r with
  | inl _ => ret 0
  | inr entries => load_entries boot_magic entries 0
  end.

End Modules.
Arguments world : clear implicits.
Arguments World {S W D}.

End Modules.
