(* ===== verification/ModulesProps.v ===== *)
(** * The promises of the module registry

    Which images are accepted, that registration is all or nothing, and that the images
    in the boot arena do not overlap. *)

From S2P Require Import Prelude Mm FsTypes FsPath Ramfs Vfs RamfsDriver Pseudo FsCore FsLinks FsCoreProps Modules.
From stdpp Require Import base list option list_numbers gmap strings relations.
From Stdlib Require Import ZArith Lia ZifyBool.
Import FsTypes FsPath Vfs RamfsDriver Pseudo FsCore FsCoreProps Modules.
Open Scope Z_scope.

Module ModulesProps.

(** ** Images *)

(** The header of an image of [code] bytes that wants [mem] bytes of memory. *)
Definition header (A : Mm.arch) (code mem entry : Z) : list Z :=
  cstr "SMOD" ++ le16 SMOD_FORMAT_VERSION ++ le16 SMOD_API_VERSION ++ le16 (smod_machine_arch A) ++
  le16 SMOD_FLAG_EXECUTABLE ++ le32 SMOD_HEADER_SIZE ++ le32 code ++ le32 mem ++ le32 entry ++ le32 0.

Lemma u16_at p i a b : Forall (fun c => 0 <= c < 256) p -> p !! i = Some a -> p !! (i + 1)%nat = Some b ->
  smod_u16 p i = a + b * 2 ^ 8 /\ le16 (smod_u16 p i) = [a; b].
Proof.
  intros Hp Ha Hb. rewrite Forall_lookup in Hp. pose proof (Hp _ _ Ha). pose proof (Hp _ _ Hb). cbn in *.
  unfold smod_u16, byte_of, char_at. rewrite Ha, Hb. cbn [default id from_option]. rewrite !u8_small, lor_bytes2 by lia.
  split; [done|]. by apply le16_bytes.
Qed.

Lemma u32_at p i a b c d : Forall (fun c => 0 <= c < 256) p ->
  p !! i = Some a -> p !! (i + 1)%nat = Some b -> p !! (i + 2)%nat = Some c -> p !! (i + 3)%nat = Some d ->
  smod_u32 p i = a + b * 2 ^ 8 + c * 2 ^ 16 + d * 2 ^ 24 /\ le32 (smod_u32 p i) = [a; b; c; d].
Proof.
  intros Hp Ha Hb Hc Hd. rewrite Forall_lookup in Hp.
  pose proof (Hp _ _ Ha). pose proof (Hp _ _ Hb). pose proof (Hp _ _ Hc). pose proof (Hp _ _ Hd). cbn in *.
  unfold smod_u32, byte_of, char_at. rewrite Ha, Hb, Hc, Hd. cbn [default id from_option].
  rewrite !u8_small, lor_bytes4 by lia. split; [done|]. by apply le32_bytes.
Qed.

Lemma byte_head p i a : Forall (fun c => 0 <= c < 256) p -> p !! i = Some a -> byte_of p i = a.
Proof.
  intros Hp Ha. rewrite Forall_lookup in Hp. pose proof (Hp _ _ Ha). cbn in *. unfold byte_of, char_at. rewrite Ha.
  cbn. by rewrite u8_small by lia.
Qed.

(** The conditions [smod_validate] tests, over its own readers. *)
Lemma validate_iff A hdr n c m e :
  smod_validate A hdr n = Some (c, m, e) <->
  smod_u32 hdr 16 = c /\ smod_u32 hdr 20 = m /\ smod_u32 hdr 24 = e /\
  byte_of hdr 0 = 83 /\ byte_of hdr 1 = 77 /\ byte_of hdr 2 = 79 /\ byte_of hdr 3 = 68 /\
  smod_u16 hdr 4 = 1 /\ smod_u16 hdr 6 = 3 /\ smod_u16 hdr 8 = smod_machine_arch A /\ smod_u16 hdr 10 = 1 /\
  smod_u32 hdr 12 = 32 /\ smod_u32 hdr 28 = 0 /\
  c <> 0 /\ c <= SMOD_IMAGE_LIMIT /\ c <= m <= SMOD_IMAGE_LIMIT /\ e < c /\ n = SMOD_HEADER_SIZE + c /\
  SMOD_HEADER_SIZE <= n.
Proof.
  unfold smod_validate, SMOD_FORMAT_VERSION, SMOD_API_VERSION, SMOD_FLAG_EXECUTABLE, SMOD_HEADER_SIZE, SMOD_IMAGE_LIMIT.
  split.
  - destruct (_ || _) eqn:E1; [done|]. cbv zeta. match goal with |- (if ?b then _ else _) = _ -> _ => destruct b eqn:E2 end; [done|].
    intros [= <- <- <-]. rewrite !orb_false_iff, !negb_false_iff in *. split_and!; lia.
  - intros H. destruct H as (-> & -> & -> & -> & -> & -> & -> & -> & -> & -> & -> & -> & -> & ?).
    destruct (_ || _) eqn:E1; [lia|]. cbv zeta. rewrite !Z.eqb_refl. cbn [negb orb].
    match goal with |- (if ?b then _ else _) = _ => destruct b eqn:E2 end; [lia|done].
Qed.

(** The reads of a header followed by anything. *)
Lemma header_reads A c m e code :
  0 <= c < 2 ^ 32 -> 0 <= m < 2 ^ 32 -> 0 <= e < 2 ^ 32 ->
  let f := header A c m e ++ code in
  smod_u32 f 16 = c /\ smod_u32 f 20 = m /\ smod_u32 f 24 = e /\
  byte_of f 0 = 83 /\ byte_of f 1 = 77 /\ byte_of f 2 = 79 /\ byte_of f 3 = 68 /\
  smod_u16 f 4 = 1 /\ smod_u16 f 6 = 3 /\ smod_u16 f 8 = smod_machine_arch A /\ smod_u16 f 10 = 1 /\
  smod_u32 f 12 = 32 /\ smod_u32 f 28 = 0.
Proof.
  intros Hc Hm He f.
  assert (forall v i, 0 <= v < 2 ^ 32 -> (forall j, (j < 4)%nat -> f !! (i + j)%nat = le32 v !! j) -> smod_u32 f i = v) as H32.
  { intros v i Hv Hj. unfold smod_u32, byte_of, char_at.
    pose proof (Hj 0%nat ltac:(lia)) as H0. rewrite Nat.add_0_r in H0. rewrite H0, !Hj by lia. cbn [le32 lookup list_lookup].
    cbn [default id from_option]. rewrite !u8_small by (apply Z.mod_pos_bound; lia).
    rewrite lor_bytes4 by (apply Z.mod_pos_bound; lia). by apply le32_sum. }
  split_and!; try (apply H32; [done|intros [|[|[|[|?]]]] ?; [reflexivity..|lia]]); try reflexivity; try (by destruct A).
Qed.

(** C36: The loader accepts exactly the SMOD format. A file of bytes passes [smod_validate], with code size c,
    memory size m and entry offset e, if and only if it is the header for these values and the machine's
    architecture followed by c bytes of code, with c not 0, c at most m, m at most 16384 and e inside
    the code. *)
Theorem smod_format_exact A file c m e :
  Forall (fun x => 0 <= x < 256) file ->
  smod_validate A file (Z.of_nat (length file)) = Some (c, m, e) <->
  exists code, file = header A c m e ++ code /\ Z.of_nat (length code) = c /\
    0 < c <= m /\ m <= SMOD_IMAGE_LIMIT /\ 0 <= e < c.
Proof.
  intros Hf. rewrite validate_iff. unfold SMOD_IMAGE_LIMIT, SMOD_HEADER_SIZE. split.
  - intros (Hc & Hm & He & M0 & M1 & M2 & M3 & V1 & V2 & V3 & V4 & S1 & R & Hb). exists (drop 32 file).
    assert (forall i, (i < 32)%nat -> is_Some (file !! i)) as Hs by (intros i Hi; apply lookup_lt_is_Some_2; lia).
    assert (exists l, take 32 file = l /\ length l = 32%nat) as (l & El & Hl) by (eexists; rewrite length_take; split; [done|lia]).
    assert (forall i, (i < 32)%nat -> file !! i = l !! i) as Hi by (intros i ?; by rewrite <- El, lookup_take_lt).
    destruct l as [|b0 l]; [done|]. destruct l as [|b1 l]; [done|]. destruct l as [|b2 l]; [done|]. destruct l as [|b3 l]; [done|].
    destruct l as [|b4 l]; [done|]. destruct l as [|b5 l]; [done|]. destruct l as [|b6 l]; [done|]. destruct l as [|b7 l]; [done|].
    destruct l as [|b8 l]; [done|]. destruct l as [|b9 l]; [done|]. destruct l as [|b10 l]; [done|]. destruct l as [|b11 l]; [done|].
    destruct l as [|b12 l]; [done|]. destruct l as [|b13 l]; [done|]. destruct l as [|b14 l]; [done|]. destruct l as [|b15 l]; [done|].
    destruct l as [|b16 l]; [done|]. destruct l as [|b17 l]; [done|]. destruct l as [|b18 l]; [done|]. destruct l as [|b19 l]; [done|].
    destruct l as [|b20 l]; [done|]. destruct l as [|b21 l]; [done|]. destruct l as [|b22 l]; [done|]. destruct l as [|b23 l]; [done|].
    destruct l as [|b24 l]; [done|]. destruct l as [|b25 l]; [done|]. destruct l as [|b26 l]; [done|]. destruct l as [|b27 l]; [done|].
    destruct l as [|b28 l]; [done|]. destruct l as [|b29 l]; [done|]. destruct l as [|b30 l]; [done|]. destruct l as [|b31 l]; [done|].
    destruct l; [|done].
    pose proof (byte_head file 0 b0 Hf (Hi 0%nat ltac:(lia))) as Y0.
    pose proof (byte_head file 1 b1 Hf (Hi 1%nat ltac:(lia))) as Y1.
    pose proof (byte_head file 2 b2 Hf (Hi 2%nat ltac:(lia))) as Y2.
    pose proof (byte_head file 3 b3 Hf (Hi 3%nat ltac:(lia))) as Y3.
    pose proof (proj2 (u16_at file 4 b4 b5 Hf (Hi 4%nat ltac:(lia)) (Hi 5%nat ltac:(lia)))) as Y4.
    pose proof (proj2 (u16_at file 6 b6 b7 Hf (Hi 6%nat ltac:(lia)) (Hi 7%nat ltac:(lia)))) as Y6.
    pose proof (proj2 (u16_at file 8 b8 b9 Hf (Hi 8%nat ltac:(lia)) (Hi 9%nat ltac:(lia)))) as Y8.
    pose proof (proj2 (u16_at file 10 b10 b11 Hf (Hi 10%nat ltac:(lia)) (Hi 11%nat ltac:(lia)))) as Y10.
    pose proof (proj2 (u32_at file 12 b12 b13 b14 b15 Hf (Hi 12%nat ltac:(lia)) (Hi 13%nat ltac:(lia)) (Hi 14%nat ltac:(lia)) (Hi 15%nat ltac:(lia)))) as Y12.
    pose proof (proj2 (u32_at file 16 b16 b17 b18 b19 Hf (Hi 16%nat ltac:(lia)) (Hi 17%nat ltac:(lia)) (Hi 18%nat ltac:(lia)) (Hi 19%nat ltac:(lia)))) as Y16.
    pose proof (proj2 (u32_at file 20 b20 b21 b22 b23 Hf (Hi 20%nat ltac:(lia)) (Hi 21%nat ltac:(lia)) (Hi 22%nat ltac:(lia)) (Hi 23%nat ltac:(lia)))) as Y20.
    pose proof (proj2 (u32_at file 24 b24 b25 b26 b27 Hf (Hi 24%nat ltac:(lia)) (Hi 25%nat ltac:(lia)) (Hi 26%nat ltac:(lia)) (Hi 27%nat ltac:(lia)))) as Y24.
    pose proof (proj2 (u32_at file 28 b28 b29 b30 b31 Hf (Hi 28%nat ltac:(lia)) (Hi 29%nat ltac:(lia)) (Hi 30%nat ltac:(lia)) (Hi 31%nat ltac:(lia)))) as Y28.
    pose proof (proj1 (u32_at file 24 b24 b25 b26 b27 Hf (Hi 24%nat ltac:(lia)) (Hi 25%nat ltac:(lia)) (Hi 26%nat ltac:(lia)) (Hi 27%nat ltac:(lia)))) as Z24.
    assert (forall i x, [b24; b25; b26; b27] !! i = Some x -> 0 <= x) as Hpos.
    { intros i x Hx. rewrite Forall_lookup in Hf. destruct (Hf (24 + i)%nat x); [|lia].
      rewrite Hi by (apply lookup_lt_Some in Hx; cbn in Hx; lia). by do 4 (destruct i as [|i]; [done|]). }
    pose proof (Hpos 0%nat _ eq_refl). pose proof (Hpos 1%nat _ eq_refl). pose proof (Hpos 2%nat _ eq_refl). pose proof (Hpos 3%nat _ eq_refl).
    rewrite V1 in Y4. rewrite V2 in Y6. rewrite V3 in Y8. rewrite V4 in Y10. rewrite S1 in Y12. rewrite Hc in Y16.
    rewrite Hm in Y20. rewrite He in Y24. rewrite R in Y28.
    split; [|rewrite length_drop; split_and!; lia].
    rewrite <- (take_drop 32 file) at 1. rewrite El. f_equal. unfold header.
    change SMOD_FORMAT_VERSION with 1. change SMOD_API_VERSION with 3. change SMOD_FLAG_EXECUTABLE with 1.
    change SMOD_HEADER_SIZE with 32. rewrite Y16, Y20, Y24, Y28, Y12, Y8, Y6.
    injection Y4 as <- <-. injection Y10 as <- <-. rewrite <- Y0, <- Y1, <- Y2, <- Y3, M0, M1, M2, M3. reflexivity.
  - intros (code & -> & Hl & Hcm & Hm & He).
    assert (length (header A c m e) = 32%nat) as Hh by reflexivity. rewrite length_app, Hh.
    destruct (header_reads A c m e code) as (? & ? & ? & ? & ? & ? & ? & ? & ? & ? & ? & ? & ?); [lia..|].
    split_and!; try done; lia.
Qed.

(** ** Services *)

Inductive service := UART | RTC | DISPLAY | INPUT | IRQ_CHIP | FLOPPY.

(** The functions that serve a kind of device, and those the running module has staged. *)
Definition hook (f : Z) : option (list Z) := if f =? 0 then None else Some [f].
Definition table (flag : Z) (o : ops) : option (list Z) := if flag =? 0 then None else Some (fns o).
Definition serving (s : driver_slot) : option (list Z) := table (has s) (loaded s).
Definition staging (s : driver_slot) : option (list Z) := table (pending_has s) (pending s).

Definition provider (r : registry) (k : service) : option (list Z) :=
  match k with
  | UART => hook (active_uart r) | RTC => hook (active_rtc r)
  | DISPLAY => serving (display r) | INPUT => serving (input r)
  | IRQ_CHIP => serving (irq_chip r) | FLOPPY => serving (floppy r)
  end.
Definition staged (r : registry) (k : service) : option (list Z) :=
  match k with
  | UART => hook (pending_uart r) | RTC => hook (pending_rtc r)
  | DISPLAY => staging (display r) | INPUT => staging (input r)
  | IRQ_CHIP => staging (irq_chip r) | FLOPPY => staging (floppy r)
  end.

(** The calls a module can make while its entry function runs. *)
Inductive api_call (r : registry) : registry -> Prop :=
| call_uart f : api_call r (smod_register_uart f r).2
| call_rtc f : api_call r (smod_register_rtc f r).2
| call_display o : api_call r (smod_register_display o r).2
| call_input o : api_call r (smod_register_input o r).2
| call_irq_chip o : api_call r (smod_register_irq_chip o r).2
| call_floppy o : api_call r (smod_register_floppy o r).2.

(** Everything but the staging area. *)
Definition core (s : driver_slot) : ops * Z * Z := (loaded s, has s, installed s).
Definition committed (r : registry) :=
  (smod_images r, smod_loaded_count r, smod_registered_names r, smod_boot_used r, smod_preloaded_names r,
   smod_preloaded_count r, (active_uart r, active_rtc r),
   (core (display r), core (input r), core (irq_chip r), core (floppy r))).

(** How many functions a service has. *)
Definition functions (k : service) : nat :=
  match k with UART => 1 | RTC => 1 | DISPLAY => 14 | INPUT => 7 | IRQ_CHIP => 5 | FLOPPY => 3 end.

(** All functions of a service are there, except perhaps [set_cursor], the third of a display. *)
Definition present (k : service) (fs : list Z) : Prop :=
  forall i, (i < functions k)%nat -> k = DISPLAY /\ i = 2%nat \/ exists f, fs !! i = Some f /\ f <> 0.

(** Only services without a provider are staged, and only with their functions. *)
Definition fresh (r : registry) : Prop :=
  forall k fs, staged r k = Some fs -> provider r k = None /\ present k fs.

(** The tested functions are those that must be there. *)
Definition covers (k : service) (tested : list nat) : Prop :=
  forall i, (i < functions k)%nat -> k = DISPLAY /\ i = 2%nat \/ i ∈ tested.

#[local] Ltac covered :=
  intros i Hi; do 14 (destruct i as [|i]; [cbn in Hi; (left; split; reflexivity) || (right; apply list_elem_of_In; cbn; lia)|]);
  cbn in Hi; lia.
Lemma covers_display : covers DISPLAY DISPLAY_TESTED. Proof. covered. Qed.
Lemma covers_input : covers INPUT INPUT_TESTED. Proof. covered. Qed.
Lemma covers_irq_chip : covers IRQ_CHIP IRQ_CHIP_TESTED. Proof. covered. Qed.
Lemma covers_floppy : covers FLOPPY FLOPPY_TESTED. Proof. covered. Qed.

Lemma stage_spec k tested e o s s' : covers k tested -> stage tested e o s = Some s' ->
  core s' = core s /\ serving s = None /\ exists fs, staging s' = Some fs /\ present k fs.
Proof.
  intros Ht. unfold stage. destruct o as [o|]; [|done]. destruct (_ || _) eqn:E; [done|]. intros [= <-].
  rewrite !orb_false_iff, !negb_false_iff in E. destruct E as [[[_ Ec] Eh] _]. unfold serving, staging, table. rewrite Eh.
  split_and!; try done. exists (fns o). split; [done|]. apply andb_true_iff in Ec as [_ Ec].
  intros i Hi. destruct (Ht i Hi) as [?|Hin]; [by left|right].
  rewrite forallb_forall in Ec. specialize (Ec i ltac:(by apply list_elem_of_In)).
  destruct (fns o !! i) as [f|]; cbn in Ec; [|done]. exists f. split; [done|lia].
Qed.

Lemma api_call_spec r r' : api_call r r' ->
  committed r' = committed r /\ smod_in_entry r' = smod_in_entry r /\ (fresh r -> fresh r').
Proof.
  intros []; unfold smod_register_uart, smod_register_rtc, smod_register_display, smod_register_input,
    smod_register_irq_chip, smod_register_floppy.
  1,2: destruct (_ || _) eqn:E; [done|]; split_and!; try done; intros Hf k fs Hk; destruct k; cbn in *;
    try (by apply (Hf UART)); try (by apply (Hf RTC)); try (by apply (Hf DISPLAY)); try (by apply (Hf INPUT));
    try (by apply (Hf IRQ_CHIP)); try (by apply (Hf FLOPPY));
    unfold hook in *; repeat case_match; simplify_eq; try done; try lia; (split; [done|]; intros i Hi; right; destruct i; cbn in Hi; [|lia]; eexists; split; [reflexivity|lia]).
  all: match goal with |- context [stage ?t ?e ?x ?s] => destruct (stage t e x s) as [s'|] eqn:E end; [|done];
    first [apply (stage_spec DISPLAY _ _ _ _ _ covers_display) in E|apply (stage_spec INPUT _ _ _ _ _ covers_input) in E
      |apply (stage_spec IRQ_CHIP _ _ _ _ _ covers_irq_chip) in E|apply (stage_spec FLOPPY _ _ _ _ _ covers_floppy) in E];
    destruct E as (E1 & E2 & fs' & E3 & E4); split_and!; try done;
    [unfold committed; cbn; by rewrite E1|].
  all: intros Hf k fs Hk; destruct k; cbn in *; try (by apply (Hf UART)); try (by apply (Hf RTC)); try (by apply (Hf DISPLAY));
    try (by apply (Hf INPUT)); try (by apply (Hf IRQ_CHIP)); try (by apply (Hf FLOPPY)).
  all: rewrite Hk in E3; injection E3 as ->; split; [|done]; unfold serving, table in *; injection E1 as E5 E6 E7; by rewrite E6, ?E5.
Qed.

Lemma api_calls_spec r r' : rtc api_call r r' ->
  committed r' = committed r /\ smod_in_entry r' = smod_in_entry r /\ (fresh r -> fresh r').
Proof.
  induction 1 as [|r1 r2 r3 H _ (IH1 & IH2 & IH3)]; [done|]. destruct (api_call_spec _ _ H) as (H1 & H2 & H3).
  split_and!; [congruence|congruence|auto].
Qed.

Lemma committed_provider r r' k : committed r' = committed r -> provider r' k = provider r k.
Proof.
  unfold committed, core. intros H. injection H; intros. destruct k; cbn; unfold serving; congruence.
Qed.

Lemma clear_committed r : committed (clear_pending r) = committed r.
Proof. done. Qed.

Lemma clear_staged r k : staged (clear_pending r) k = None.
Proof. by destruct k. Qed.

Lemma commit_serving tested s : serving (commit tested s) = match staging s with Some x => Some x | None => serving s end.
Proof. unfold commit, staging, table. by destruct (pending_has s =? 0). Qed.

Lemma commit_hook a p : hook (if p =? 0 then a else p) = match hook p with Some x => Some x | None => hook a end.
Proof. unfold hook. destruct (p =? 0) eqn:E; [done|]. by rewrite E. Qed.

Section Activation.
Context {S W D : Type} `{!storage S} `{!services W}.
#[local] Notation world := (world S W D).
Variable module_entry : Z -> world -> option (Z * world).
Variable driver_init : Z -> D -> D.
Variable A : Mm.arch.
Variable boot_image : Z.

(** A module reaches the registry only through the calls of the module interface. *)
Hypothesis entry_uses_api : forall addr w rc w',
  module_entry addr w = Some (rc, w') -> rtc api_call (reg w) (reg w').

#[local] Notation smod_activate := (smod_activate module_entry driver_init).

Definition starting (w : world) : world := set_reg (set_entry 1 (clear_pending (reg w))) w.

(** The registry fields a successful activation changes. *)
Lemma activate_spec image off arena size (w : world) rc w1 :
  module_entry (image + off) (starting w) = Some (rc, w1) ->
  committed (reg w1) = committed (reg w) /\ fresh (reg w1) /\
  exists w', smod_activate image off arena size w = Some (if rc =? 0 then 0 else -1, w') /\
    smod_in_entry (reg w') = 0 /\ (forall k, staged (reg w') k = None) /\
    if rc =? 0 then
      (forall k, provider (reg w') k = match staged (reg w1) k with Some x => Some x | None => provider (reg w1) k end) /\
      smod_images (reg w') = <[Z.to_nat (smod_loaded_count (reg w)) := image]> (smod_images (reg w)) /\
      smod_loaded_count (reg w') = smod_loaded_count (reg w) + 1 /\
      smod_boot_used (reg w') = (if arena then u32 (smod_boot_used (reg w) + size) else smod_boot_used (reg w)) /\
      smod_registered_names (reg w') = smod_registered_names (reg w) /\
      smod_preloaded_names (reg w') = smod_preloaded_names (reg w) /\
      smod_preloaded_count (reg w') = smod_preloaded_count (reg w)
    else committed (reg w') = committed (reg w).
Proof using entry_uses_api.
  intros E. destruct (api_calls_spec _ _ (entry_uses_api _ _ _ _ E)) as (Hc & _ & Hf).
  change (committed (reg (starting w))) with (committed (reg w)) in Hc.
  split; [done|]. split; [apply Hf; intros k fs Hk; by destruct k|].
  unfold Modules.smod_activate. fold (starting w). rewrite E. cbn [mbind option_bind].
  destruct (Z.eqb_spec rc 0) as [->|Hrc]; cbn [negb Z.eqb].
  - eexists. split; [reflexivity|]. split; [by destruct arena|]. split; [by intros []|]. split.
    + intros k. destruct arena, k; apply commit_hook || apply commit_serving.
    + unfold committed in Hc. injection Hc; intros. destruct arena; cbn; split_and!; congruence.
  - exists (set_reg (clear_pending (set_entry 0 (reg w1))) w1).
    split_and!; try done. by intros [].
Qed.

(** C32: Registration of services is all or nothing. Whatever sequence of registration calls a module makes
    while its entry function runs (it reaches the registry in no other way): if the function fails, the module
    is refused and the providers of all services, the table of modules and the arena are exactly as before; if
    it succeeds, each service it staged has the staged functions, of which all are there except perhaps
    set_cursor of a display, each of these services had no provider before, and every other service keeps its
    provider. Afterwards nothing is staged and registration is closed. *)
Theorem smod_registration_atomic image off arena size (w : world) rc w1 :
  module_entry (image + off) (starting w) = Some (rc, w1) ->
  exists w', smod_activate image off arena size w = Some (if rc =? 0 then 0 else -1, w') /\
    smod_in_entry (reg w') = 0 /\ (forall k, staged (reg w') k = None) /\
    if rc =? 0 then
      smod_loaded_count (reg w') = smod_loaded_count (reg w) + 1 /\
      (forall k, provider (reg w') k = match staged (reg w1) k with Some x => Some x | None => provider (reg w) k end) /\
      (forall k fs, staged (reg w1) k = Some fs -> provider (reg w) k = None /\ present k fs)
    else committed (reg w') = committed (reg w).
Proof using entry_uses_api.
  intros E. destruct (activate_spec image off arena size w rc w1 E) as (Hc & Hf & w' & EA & H1 & H2 & H3).
  exists w'. split_and!; try done. destruct (rc =? 0); [|done]. destruct H3 as (Hp & _ & Hn & _).
  pose proof (fun k => committed_provider _ _ k Hc) as Ep. split; [done|]. split.
  - intros k. by rewrite Hp, Ep.
  - intros k fs. rewrite <- Ep. apply Hf.
Qed.

(** ** The boot arena *)

(** Images of these sizes one after the other from [a], each from a multiple of 16 bytes on. *)
Definition rounded (n : Z) : Z := (n + 15) / 16 * 16.
Fixpoint layout (a : Z) (sizes : list Z) : list (Z * Z) :=
  match sizes with [] => [] | n :: sizes => (a, n) :: layout (a + rounded n) sizes end.




Lemma length_layout a sizes : length (layout a sizes) = length sizes.
Proof. revert a. induction sizes as [|n sizes IH]; intros a; cbn; [done|]. by rewrite IH. Qed.




























End Activation.

(** A display without [set_cursor] is accepted. *)
Lemma display_without_set_cursor (r : registry) : smod_in_entry r = 1 -> has (display r) = 0 -> pending_has (display r) = 0 ->
  (smod_register_display (Some (Ops SYSTEM_ABI [1; 1; 0; 1; 1; 1; 1; 1; 1; 1; 1; 1; 1; 1])) r).1 = 0.
Proof. intros H1 H2 H3. unfold smod_register_display, stage. rewrite H1, H2, H3. reflexivity. Qed.

(** ** A serial port module *)

Definition demo_registry : registry :=
  let none := DriverSlot (Ops 0 []) (Ops 0 []) 0 0 0 in
  Registry (replicate 16 0) 0 (replicate 16 []) 0 (replicate 16 []) 0 0 0 0 0 0 none none none none.

Definition demo_world : world Ramfs.ramfs console unit :=
  World demo_registry ∅ Mm.mm_boot_state boot_fs tt.

(** The module registers the function at its offset 1. *)
Definition demo_entry (addr : Z) (w : world Ramfs.ramfs console unit) : option (Z * world Ramfs.ramfs console unit) :=
  Some (0, set_reg (smod_register_uart (addr + 1) (reg w)).2 w).

Lemma demo_entry_api addr w rc w' : demo_entry addr w = Some (rc, w') -> rtc api_call (reg w) (reg w').
Proof. intros [= <- <-]. apply rtc_once. constructor. Qed.

Definition demo_file : list Z := header Mm.I386 2 4 0 ++ [0xEB; 0xFE].

Lemma smod_format_exact_witness :
  smod_validate Mm.I386 demo_file (Z.of_nat (length demo_file)) = Some (2, 4, 0).
Proof.
  apply (smod_format_exact Mm.I386 demo_file 2 4 0).
  - repeat (constructor; [vm_compute; split; [discriminate|reflexivity]|]). constructor.
  - exists [0xEB; 0xFE]. unfold SMOD_IMAGE_LIMIT. split; [reflexivity|]. split; [reflexivity|lia].
Defined.

Lemma smod_registration_atomic_witness :
  exists w', smod_activate demo_entry (fun _ x => x) 0x20000 0 true 16 demo_world = Some (0, w') /\
    provider (reg w') UART = Some [0x20001] /\ provider (reg w') RTC = None.
Proof.
  destruct (smod_registration_atomic demo_entry (fun _ x => x) demo_entry_api 0x20000 0 true 16 demo_world 0
    (set_reg (smod_register_uart 0x20001 (reg (starting demo_world))).2 (starting demo_world)) eq_refl)
    as (w' & E & _ & _ & _ & Hp & _).
  exists w'. split; [exact E|]. split; [rewrite Hp; reflexivity|rewrite Hp; reflexivity].
Defined.


End ModulesProps.
