(* ===== verification/ModulesEarly.v ===== *)
(** * Modules from the boot loader

    [core/module/module_early_core.c], the Multiboot2 branch of [smod_boot_early_init]:
    the search for module tags in the boot information and the call of
    [smod_core_preload] for each.  The trace on the serial line is not modelled. *)

From S2P Require Import Prelude Mm FsTypes FsPath Vfs Pseudo FsCore Paging Modules.
From stdpp Require Import base list option list_numbers gmap strings.
From Stdlib Require Import ZArith Lia ZifyBool.
Import FsTypes FsPath Vfs Pseudo FsCore Modules.
Open Scope Z_scope.

Module ModulesEarly.

Definition SMOD_MB2_MAGIC : Z := 0x36D76289.
Definition SMOD_MB2_MODULE_TAG : Z := 3.
Definition SMOD_MB2_MAX_INFO : Z := 65536.
Definition SMOD_BOOT_TAG_LIMIT : nat := 128.
Definition SIZEOF_TAG : Z := 8.
Definition SIZEOF_MODULE : Z := 16.

(** ** One tag, in the bytes of the information block *)

Section Tag.
Variable data : Z -> Z.

Definition smod_prefix (text max_bytes : Z) : bool :=
  (6 <=? max_bytes) && (data text =? 115) && (data (text + 1) =? 109) && (data (text + 2) =? 111) &&
  (data (text + 3) =? 100) && (data (text + 4) =? 58) && negb (data (text + 5) =? 0).

(** The search for the end of the name, [n] turns from index [i]. *)
Fixpoint name_end (n : nat) (text i : Z) : Z :=
  match n with
  | O => i
  | Datatypes.S n => if data (text + i) =? 0 then i else name_end n text (i + 1)
  end.

Definition bytes_from (start stop : Z) : list Z := data <$> seqZ start (stop - start).

(** The module a tag at [off] of [size] bytes asks for: start, end and name. *)
Definition tag_module (limit off size : Z) : option (Z * Z * list Z) :=
  if (Mm.rd32 data off =? SMOD_MB2_MODULE_TAG) && (SIZEOF_MODULE + 7 <=? size) then
    let cmdline := off + SIZEOF_MODULE in
    let text_bytes := size - SIZEOF_MODULE in
    if smod_prefix cmdline text_bytes then
      let i := name_end (Z.to_nat (Z.min text_bytes (5 + 24) - 5)) cmdline 5 in
      let start := Mm.rd32 data (off + 8) in
      let stop := Mm.rd32 data (off + 12) in
      if (i <? text_bytes) && (i <? 5 + 24) && (start <? stop) && (SMOD_HEADER_SIZE <=? stop - start) &&
         (stop - start <=? SMOD_HEADER_SIZE + SMOD_IMAGE_LIMIT) && (start <? limit) && (stop <=? limit)
      then Some (start, stop, bytes_from (cmdline + 5) (cmdline + i)) else None
    else None
  else None.

Definition align8 (size : Z) : Z := Z.land (u32 (size + 7)) (u32 (Z.lnot 7)).

(** What the loop does with the tag at [off]: the module to load, and the next tag. *)
Definition read_tag (limit total off : Z) : option (Z * Z * list Z) * option Z :=
  let size := Mm.rd32 data (off + 4) in
  if (size <? SIZEOF_TAG) || (total - off <? size) then (None, None)
  else if Mm.rd32 data off =? 0 then (None, None)
  else
    (tag_module limit off size,
     if 0xFFFFFFF8 <? size then None
     else if total - off <? align8 size then None else Some (off + align8 size)).

End Tag.

(** ** The search *)

Section Early.
Context {S W D : Type} `{!storage S} `{!services W}.
#[local] Notation world := (world S W D).
Variable module_entry : Z -> world -> option (Z * world).
Variable driver_init : Z -> D -> D.
Variable A : Mm.arch.
Variable boot_image : Z.

Definition memory_byte (w : world) (a : Z) : Z := default 0 (ram w !! a).

Fixpoint early_loop (n : nat) (info limit total off loaded : Z) (w : world) : option (Z * world) :=
  match n with
  | O => Some (loaded, w)
  | Datatypes.S n =>
      if total - SIZEOF_TAG <? off then Some (loaded, w)
      else
        let '(m, next) := read_tag (fun i => memory_byte w (info + i)) limit total off in
        '(rc, w) ← match m with
                   | None => Some (-1, w)
                   | Some (start, stop, name) =>
                       smod_core_preload module_entry driver_init A boot_image
                         (Some (bytes_from (memory_byte w) start stop)) (Some name) w
                   end;
        let loaded := if rc =? 0 then loaded + 1 else loaded in
        match next with
        | None => Some (loaded, w)
        | Some off => early_loop n info limit total off loaded w
        end
  end.

Definition smod_boot_early_init (magic info : Z) (w : world) : option (Z * world) :=
  let limit := Paging.PAGING_IDENTITY_LIMIT in
  if negb (magic =? SMOD_MB2_MAGIC) || (info =? 0) || (limit <=? info) || (limit - info <? 16) then Some (0, w)
  else
    let total := Mm.rd32 (memory_byte w) info in
    if (total <? 16) || (SMOD_MB2_MAX_INFO <? total) || (limit - info <? total) then Some (0, w)
    else early_loop SMOD_BOOT_TAG_LIMIT info limit total 8 0 w.

End Early.

(** ** The search stays inside the block *)

Section Bounds.
Variables (f g : Z -> Z) (total : Z).
Hypothesis same_block : forall i, 0 <= i < total -> f i = g i.

Lemma rd32_same p : 0 <= p -> p + 4 <= total -> Mm.rd32 f p = Mm.rd32 g p.
Proof using same_block. intros H1 H2. unfold Mm.rd32. rewrite !same_block by lia. done. Qed.

Lemma name_end_same n text : forall i, 0 <= text -> 0 <= i -> text + i + Z.of_nat n <= total ->
  name_end f n text i = name_end g n text i /\ i <= name_end g n text i <= i + Z.of_nat n.
Proof using same_block.
  induction n as [|n IH]; intros i H1 H2 H3; cbn [name_end]; [split; [done|lia]|].
  rewrite same_block by lia. destruct (_ =? 0); [split; [done|lia]|].
  destruct (IH (i + 1) H1 ltac:(lia) ltac:(lia)) as [-> ?]. split; [done|lia].
Qed.

Lemma tag_module_same limit off size :
  0 <= off -> off + size <= total -> tag_module f limit off size = tag_module g limit off size.
Proof using same_block.
  intros Ho Hs. unfold tag_module, SIZEOF_MODULE. destruct (Z.leb_spec (16 + 7) size); [|by rewrite !andb_false_r].
  rewrite rd32_same by lia. destruct (_ && _); [|done]. unfold smod_prefix. rewrite !same_block by lia.
  destruct (_ && _); [|done]. cbv zeta.
  destruct (name_end_same (Z.to_nat (Z.min (size - 16) (5 + 24) - 5)) (off + 16) 5) as [-> Hi]; [lia..|].
  rewrite !(rd32_same (off + _)) by lia. destruct (_ && _) eqn:E; [|done]. do 2 f_equal. unfold bytes_from.
  apply list_fmap_ext. intros k x Hx. apply lookup_seqZ in Hx as [-> Hk]. apply same_block. lia.
Qed.

End Bounds.

(** C37: The search for boot modules reads only the information block. For every tag offset the loop can reach
    (between 8 and 8 below the end), what it does, the module it loads with its name and the next
    offset, depends only on the bytes of the block, whatever sizes and strings the tags claim; and the next
    offset lies after this one by at least 8, inside the block. *)
Theorem early_search_stays_inside f g limit total off :
  16 <= total <= SMOD_MB2_MAX_INFO -> 8 <= off -> off <= total - SIZEOF_TAG ->
  (forall i, 0 <= i < total -> f i = g i) ->
  read_tag f limit total off = read_tag g limit total off /\
  forall m next, read_tag f limit total off = (m, Some next) -> off + 8 <= next <= total.
Proof.
  intros Ht H8 Ho Hsame. unfold SIZEOF_TAG, SMOD_MB2_MAX_INFO in *. split.
  - unfold read_tag. rewrite !(rd32_same f g total Hsame) by lia.
    destruct (_ || _) eqn:E; [done|]. destruct (_ =? 0); [done|].
    by rewrite (tag_module_same f g total) by (unfold SIZEOF_TAG in *; done || lia).
  - intros m next. unfold read_tag, SIZEOF_TAG. set (size := Mm.rd32 f (off + 4)).
    destruct (_ || _) eqn:E; [done|]. destruct (_ =? 0); [done|]. destruct (Z.ltb_spec 0xFFFFFFF8 size); [done|].
    pose proof (land_mask32 (size + 7) 3 ltac:(lia) ltac:(lia)) as Hal. change (Z.ones 3) with 7 in Hal.
    pose proof (Z.mod_pos_bound (size + 7) (2 ^ 3) ltac:(lia)). unfold align8. rewrite u32_small, Hal by lia.
    match goal with |- context [total - off <? ?x] => destruct (Z.ltb_spec (total - off) x) end; [done|].
    intros [= _ <-]. lia.
Qed.

(** A block of one tag that names a module from 0x10000 to 0x10040. *)
Definition demo_block : list Z :=
  le32 40 ++ le32 0 ++ le32 3 ++ le32 32 ++ le32 0x10000 ++ le32 0x10040 ++ cstr "smod:com1.mod" ++ [0; 0; 0].

Lemma early_search_stays_inside_witness :
  let data a := default 0 (demo_block !! Z.to_nat a) in
  (read_tag data 0x4000000 40 8).1 = Some (0x10000, 0x10040, cstr "com1.mod") /\
  read_tag data 0x4000000 40 8 = read_tag (fun a => if a <? 40 then data a else 255) 0x4000000 40 8.
Proof.
  split; [reflexivity|]. apply (early_search_stays_inside _ _ 0x4000000 40 8).
  - unfold SMOD_MB2_MAX_INFO. lia.
  - lia.
  - unfold SIZEOF_TAG. lia.
  - intros i Hi. destruct (Z.ltb_spec i 40); [reflexivity|lia].
Defined.

End ModulesEarly.
