(* ===== verification/MshParse.v ===== *)
(** * The words of a command line

    The string helpers of [userland/smu/common/uutil.h] and, from
    [userland/smu/shell/msh.c], the splitting of a line into tokens and the matching of
    wildcards.  A C string is the list of its characters before the terminator. *)

From S2P Require Import Prelude FsTypes.
From stdpp Require Import base list option list_numbers strings.
From Stdlib Require Import ZArith Lia ZifyBool.
Import FsTypes.
Open Scope Z_scope.

Module MshParse.

Definition LINE_CAP : Z := 192.
Definition TOKEN_CAP : nat := 24.
Definition TOKEN_LEN : nat := 96.
Definition EXEC_ARG_CAP : nat := 32.
Definition PATH_CAP : nat := 96.
Definition HISTORY_CAP : nat := 16.

(** Characters. *)
Definition SPACE : Z := 32.
Definition TAB : Z := 9.
Definition NEWLINE : Z := 10.
Definition RETURN : Z := 13.
Definition HASH : Z := 35.
Definition SEMICOLON : Z := 59.
Definition AMPERSAND : Z := 38.
Definition BAR : Z := 124.
Definition LESS : Z := 60.
Definition GREATER : Z := 62.
Definition TWO : Z := 50.
Definition QUOTE : Z := 39.
Definition DOUBLE_QUOTE : Z := 34.
Definition BACKSLASH : Z := 92.
Definition STAR : Z := 42.
Definition QUESTION : Z := 63.
Definition DOT : Z := 46.
Definition SLASH : Z := 47.

(** ** [uutil.h] *)

Fixpoint u_streq (a b : list Z) : bool :=
  match a, b with
  | [], [] => true
  | x :: a, y :: b => (x =? y) && u_streq a b
  | _, _ => false
  end.

Definition u_has_slash (s : list Z) : bool := existsb (fun c => c =? SLASH) s.

Definition u_ends_prg (s : list Z) : bool :=
  let n := length s in
  (4 <=? n)%nat && (char_at s (n - 4) =? 46) && (char_at s (n - 3) =? 112) &&
  (char_at s (n - 2) =? 114) && (char_at s (n - 1) =? 103).

(** The copy into a buffer of [cap] bytes and whether all of it fits. *)
Definition u_copy (cap : nat) (src : list Z) : list Z * bool :=
  (take (cap - 1) src, (length src <=? cap - 1)%nat && negb (cap =? 0)%nat).

(** The joined string, if it fits. *)
Definition u_join3 (cap : nat) (a b c : list Z) : option (list Z) :=
  if (length (a ++ b ++ c) <=? cap - 1)%nat then Some (a ++ b ++ c) else None.

Fixpoint starts_with (text prefix : list Z) : bool :=
  match prefix with
  | [] => true
  | p :: prefix => match text with [] => false | c :: text => (c =? p) && starts_with text prefix end
  end.

(** ** Tokens *)

(** [g_tokens[i]] and [g_token_glob[i]]. *)
Record token := Token { word : list Z; glob : bool }.

Definition separator (c : Z) : bool :=
  (c =? SPACE) || (c =? TAB) || (c =? SEMICOLON) || (c =? AMPERSAND) || (c =? BAR) || (c =? GREATER) || (c =? LESS).

Definition wildcard (c : Z) : bool := (c =? STAR) || (c =? QUESTION).

(** The characters of one word: the word so far is [out], [quote] the open quotation
    mark or 0.  The result is the word, the rest of the line and the last [quote]; an
    error is the code [parse_line] returns. *)
Fixpoint word_loop (rest : list Z) (quote : Z) (g : bool) (out : list Z) : Z + (token * list Z * Z) :=
  match rest with
  | [] => inr (Token out g, [], quote)
  | c :: r =>
      if (quote =? 0) && separator c then inr (Token out g, rest, quote)
      else if (quote =? 0) && ((c =? QUOTE) || (c =? DOUBLE_QUOTE)) then word_loop r c g out
      else if negb (quote =? 0) && (c =? quote) then word_loop r 0 g out
      else if (c =? BACKSLASH) && negb (quote =? QUOTE) then
        match r with
        | [] => inl (-2)
        | c :: r => if (TOKEN_LEN <=? length out + 1)%nat then inl (-1) else word_loop r quote g (out ++ [c])
        end
      else if (TOKEN_LEN <=? length out + 1)%nat then inl (-1)
      else word_loop r quote (g || ((quote =? 0) && wildcard c)) (out ++ [c])
  end.

Fixpoint skip_blanks (rest : list Z) : list Z :=
  match rest with
  | [] => []
  | c :: r => if (c =? SPACE) || (c =? TAB) then skip_blanks r else rest
  end.

(** The redirection operator at the start of [rest], with what follows it. *)
Definition take_redirection (rest : list Z) : option (list Z * list Z) :=
  let '(fd, r) := match rest with
                  | c :: (c' :: _) as r => if (c =? TWO) && (c' =? GREATER) then ([c], tail rest) else ([], rest)
                  | _ => ([], rest)
                  end in
  match r with
  | c :: r =>
      if c =? LESS then Some (fd ++ [c], r)
      else if c =? GREATER then
        match r with
        | c' :: r' => if c' =? GREATER then Some (fd ++ [c; c'], r') else Some (fd ++ [c], r)
        | [] => Some (fd ++ [c], r)
        end
      else None
  | [] => None
  end.

(** One token at the start of a line that is neither blank nor a comment. *)
Definition take_token (rest : list Z) : Z + (token * list Z) :=
  match rest with
  | [] => inl (-2)
  | c :: r =>
      if c =? SEMICOLON then inr (Token [c] false, r)
      else match take_redirection rest with
      | Some (op, r) => inr (Token op false, r)
      | None =>
          if ((c =? AMPERSAND) || (c =? BAR)) && (char_at r 0 =? c) then inr (Token [c; c] false, tail r)
          else if (c =? AMPERSAND) || (c =? BAR) then inl (-2)
          else match word_loop rest 0 false [] with
               | inl rc => inl rc
               | inr (t, rest, quote) => if quote =? 0 then inr (t, rest) else inl (-2)
               end
      end
  end.

(** Every token takes at least one character, so one turn more than there are
    characters is enough. *)
Fixpoint parse_loop (fuel : nat) (rest : list Z) (tokens : list token) : option (Z + list token) :=
  match fuel with
  | O => None
  | S fuel =>
      let rest := skip_blanks rest in
      if (char_at rest 0 =? 0) || (char_at rest 0 =? HASH) then Some (inr tokens)
      else if (TOKEN_CAP <=? length tokens)%nat then Some (inl (-1))
      else match take_token rest with
           | inl rc => Some (inl rc)
           | inr (t, rest) => parse_loop fuel rest (tokens ++ [t])
           end
  end.

Definition parse_line (line : list Z) : option (Z + list token) := parse_loop (S (length line)) line [].

(** ** Wildcards *)

Fixpoint wildcard_match (pattern text : list Z) : bool :=
  match pattern with
  | [] => match text with [] => true | _ => false end
  | p :: rest =>
      if p =? STAR then
        (fix star (text : list Z) : bool :=
           wildcard_match rest text || match text with [] => false | _ :: text => star text end) text
      else match text with
           | [] => false
           | c :: text => ((p =? QUESTION) || (p =? c)) && wildcard_match rest text
           end
  end.

End MshParse.

(** * The promises of the command-line parser

    Every line is split or refused within the token table, every list of words can be
    typed, and wildcards have their usual meaning. *)

Import FsTypes MshParse.

Module MshParseProps.

(** ** Wildcards *)

(** The strings a pattern character stands for. *)
Definition stands_for (p : Z) (s : list Z) : Prop :=
  p = STAR \/ p = QUESTION /\ length s = 1%nat \/ p <> STAR /\ p <> QUESTION /\ s = [p].

(** The text is a sequence of strings, one for each character of the pattern. *)
Definition matches (pattern text : list Z) : Prop :=
  exists ss, text = concat ss /\ Forall2 stands_for pattern ss.

Lemma matches_nil text : matches [] text <-> text = [].
Proof.
  split; [|intros ->; by exists []]. intros (ss & -> & H). by apply Forall2_nil_inv_l in H as ->.
Qed.

Lemma matches_cons p pattern text :
  matches (p :: pattern) text <-> exists s t, text = s ++ t /\ stands_for p s /\ matches pattern t.
Proof.
  split.
  - intros (ss & -> & H). apply Forall2_cons_inv_l in H as (s & ss' & Hs & H & ->). exists s, (concat ss'). split; [done|].
    split; [done|]. by exists ss'.
  - intros (s & t & -> & Hs & (ss & -> & H)). exists (s :: ss). split; [done|by constructor].
Qed.

Lemma wildcard_star pattern text :
  wildcard_match (STAR :: pattern) text =
  wildcard_match pattern text || match text with [] => false | _ :: t => wildcard_match (STAR :: pattern) t end.
Proof. by destruct text. Qed.

(** Wildcard matching is exact: [wildcard_match] holds if and only if the text is a concatenation of
    strings, one for each pattern character, where a star stands for any string, a question mark for any
    one character and every other character for itself. *)
Theorem wildcard_match_exact pattern text : wildcard_match pattern text = true <-> matches pattern text.
Proof.
  revert text. induction pattern as [|p pattern IH]; intros text.
  { rewrite matches_nil. by destruct text. }
  rewrite matches_cons. destruct (decide (p = STAR)) as [->|Hp].
  - induction text as [|c text IHt]; rewrite wildcard_star, orb_true_iff, IH.
    + split.
      * intros [H|?]; [|done]. exists [], []. split; [done|]. split; [by left|done].
      * intros (s & t & E & _ & H). symmetry in E. apply app_eq_nil in E as [-> ->]. by left.
    + rewrite IHt. split.
      * intros [H|(s & t & -> & _ & H)]; [exists [], (c :: text)|exists (c :: s), t]; (split; [done|]); (split; [by left|done]).
      * intros ([|c' s] & t & E & _ & H); [left; by rewrite E|]. injection E as -> ->. right. exists s, t.
        split; [done|]. split; [by left|done].
  - cbn [wildcard_match]. destruct (Z.eqb_spec p STAR); [done|]. destruct text as [|c text].
    + split; [done|]. intros (s & t & E & Hs & _). symmetry in E. apply app_eq_nil in E as [-> _].
      by destruct Hs as [?|[[_ ?]|(_ & _ & ?)]].
    + rewrite andb_true_iff, orb_true_iff, IH, !Z.eqb_eq. split.
      * intros [Hc H]. exists [c], text. split; [done|]. split; [|done]. right.
        destruct (decide (p = QUESTION)) as [->|Hq]; [by left|]. right. destruct Hc as [?| ->]; [done|by split_and!].
      * intros (s & t & E & Hs & H). destruct Hs as [?|[[-> Hl]|(_ & _ & ->)]]; [done|..].
        -- destruct s as [|? []]; try done. injection E as <- <-. split; [by left|done].
        -- injection E as -> ->. split; [by right|done].
Qed.

(** ** Bounds *)

(** The case analysis on the outermost test of the goal. *)
Ltac if_case H := match goal with |- context [if ?b then _ else _] => destruct b eqn:H end.

Lemma word_loop_bounds rest : forall quote g out,
  (length out <= 95)%nat ->
  match word_loop rest quote g out with
  | inl rc => rc = -1 \/ rc = -2
  | inr (t, r, _) => (length (word t) <= 95)%nat /\ exists n, r = drop n rest /\
      (quote = 0 -> separator (char_at rest 0) = false -> rest <> [] -> (1 <= n)%nat)
  end.
Proof.
  induction rest as [rest IH] using (induction_ltof1 _ (@length Z)). unfold ltof in IH. intros quote g out Ho.
  destruct rest as [|c r]; cbn [word_loop].
  { split; [done|]. by exists 0%nat. }
  assert (forall q g' o, (length o <= 95)%nat -> match word_loop r q g' o with
    | inl rc => rc = -1 \/ rc = -2
    | inr (t, r', _) => (length (word t) <= 95)%nat /\ exists n, r' = drop n (c :: r) /\
      (quote = 0 -> separator (char_at (c :: r) 0) = false -> c :: r <> [] -> (1 <= n)%nat) end) as Hr.
  { intros q g' o Hl. specialize (IH r ltac:(cbn; lia) q g' o Hl). destruct (word_loop r q g' o) as [?|[[t r'] ?]]; [done|].
    destruct IH as [H1 (n & -> & _)]. split; [done|]. exists (S n). split; [done|lia]. }
  unfold TOKEN_LEN. if_case E1.
  { split; [done|]. exists 0%nat. split; [done|]. intros -> Hs. change (char_at (c :: r) 0) with c in Hs.
    by rewrite Hs in E1. }
  if_case E2; [by apply Hr|]. if_case E3; [by apply Hr|]. if_case E4.
  - destruct r as [|c2 r]; [by right|]. if_case E5; [by left|].
    specialize (IH r ltac:(cbn; lia) quote g (out ++ [c2]) ltac:(rewrite length_app; cbn; lia)).
    destruct (word_loop r quote g (out ++ [c2])) as [?|[[t r'] ?]]; [done|].
    destruct IH as [H1 (n & -> & _)]. split; [done|]. exists (S (S n)). split; [done|lia].
  - if_case E5; [by left|]. apply Hr. rewrite length_app. cbn. lia.
Qed.

Lemma redirection_bounds rest op r :
  take_redirection rest = Some (op, r) -> (length op <= 3)%nat /\ (length r < length rest)%nat.
Proof.
  unfold take_redirection. intros H. repeat case_match; simplify_eq/=; rewrite ?length_app in *; cbn in *; split; lia.
Qed.

Lemma take_token_bounds rest :
  rest <> [] -> char_at rest 0 <> SPACE -> char_at rest 0 <> TAB ->
  match take_token rest with
  | inl rc => rc = -1 \/ rc = -2
  | inr (t, r) => (length (word t) <= 95)%nat /\ (length r < length rest)%nat
  end.
Proof.
  intros Hne Hs Ht. destruct rest as [|c r]; [done|]. change (char_at (c :: r) 0) with c in *. cbn [take_token].
  destruct (c =? SEMICOLON) eqn:E1; [cbn; lia|].
  destruct (take_redirection (c :: r)) as [[op r']|] eqn:E2.
  { apply redirection_bounds in E2 as [? ?]. cbn [word]. split; [lia|done]. }
  if_case E3; [cbn; destruct r; cbn; lia|]. if_case E4; [by right|].
  assert (separator c = false) as Hsep.
  { unfold separator. unfold take_redirection in E2. unfold SPACE, TAB, SEMICOLON, AMPERSAND, BAR, LESS, GREATER, TWO in *.
    destruct r as [|c' r'']; repeat case_match; simplify_eq/=; lia. }
  pose proof (word_loop_bounds (c :: r) 0 false [] ltac:(cbn; lia)) as Hw.
  destruct (word_loop (c :: r) 0 false []) as [rc|[[t r'] quote]]; [done|].
  destruct (quote =? 0); [|by right]. destruct Hw as [H1 (n & -> & Hn)]. split; [done|]. rewrite length_drop.
  specialize (Hn eq_refl Hsep ltac:(done)). cbn [length]. lia.
Qed.

Lemma skip_blanks_spec rest : exists n, skip_blanks rest = drop n rest /\
  char_at (skip_blanks rest) 0 <> SPACE /\ char_at (skip_blanks rest) 0 <> TAB.
Proof.
  induction rest as [|c r (n & IH1 & IH2)]; [by exists 0%nat|]. cbn [skip_blanks].
  destruct (_ || _) eqn:E; [exists (S n); by rewrite IH1 in *|]. exists 0%nat. change (char_at (c :: r) 0) with c.
  split; [done|lia].
Qed.

(** Every command line is split or refused, within the token table. For every line, [parse_line] returns;
    it yields at most 24 tokens of at most 95 characters, or one of its two error codes. *)
Theorem parse_line_bounded line : exists r, parse_line line = Some r /\
  match r with
  | inl rc => rc = -1 \/ rc = -2
  | inr ts => (length ts <= TOKEN_CAP)%nat /\ Forall (fun t => (length (word t) < TOKEN_LEN)%nat) ts
  end.
Proof.
  unfold parse_line, TOKEN_LEN, TOKEN_CAP.
  assert (forall fuel rest ts, (length rest < fuel)%nat -> (length ts <= 24)%nat -> Forall (fun t => (length (word t) < 96)%nat) ts ->
    exists r, parse_loop fuel rest ts = Some r /\ match r with
      | inl rc => rc = -1 \/ rc = -2
      | inr ts => (length ts <= 24)%nat /\ Forall (fun t => (length (word t) < 96)%nat) ts end) as H.
  { induction fuel as [|fuel IH]; intros rest ts Hf Hl Hts; [lia|]. cbn [parse_loop].
    destruct (skip_blanks_spec rest) as (n & En & Hs & Ht). set (rest' := skip_blanks rest) in *.
    assert (length rest' <= length rest)%nat by (rewrite En, length_drop; lia).
    destruct (_ || _) eqn:E1; [by eexists|]. unfold TOKEN_CAP. destruct (24 <=? length ts)%nat eqn:E2; [eexists; split; [done|by left]|].
    assert (rest' <> []) as Hne by (intros E; rewrite E in E1; done).
    pose proof (take_token_bounds rest' Hne Hs Ht) as Hb. destruct (take_token rest') as [rc|[t r]]; [by eexists|].
    destruct Hb as [Hb1 Hb2]. apply IH; [lia|rewrite length_app; cbn; lia|]. apply Forall_app. split; [done|].
    constructor; [lia|constructor]. }
  apply (H _ line []); [lia|cbn; lia|constructor].
Qed.

(** ** Quoting *)

(** A way to type any word: a backslash before every character. *)
Definition quote_word (w : list Z) : list Z :=
  match w with [] => [QUOTE; QUOTE] | _ => concat (map (fun c => [BACKSLASH; c]) w) end.

Definition quote_line (ws : list (list Z)) : list Z := concat (map (fun w => SPACE :: quote_word w) ws).

Lemma word_loop_escaped w : forall rest out,
  (length out + length w <= 95)%nat -> (rest = [] \/ exists r, rest = SPACE :: r) ->
  word_loop (concat (map (fun c => [BACKSLASH; c]) w) ++ rest) 0 false out = inr (Token (out ++ w) false, rest, 0).
Proof.
  induction w as [|c w IH]; intros rest out Hl Hr.
  - rewrite app_nil_r. destruct Hr as [->|[r ->]]; reflexivity.
  - cbn [map concat app length] in *. cbn [word_loop]. change (_ && separator BACKSLASH) with false.
    change (_ && ((BACKSLASH =? QUOTE) || _)) with false. change (negb (0 =? 0) && _) with false.
    change ((BACKSLASH =? BACKSLASH) && _) with true. cbv iota. unfold TOKEN_LEN.
    destruct (Nat.leb_spec 96 (length out + 1)); [lia|]. rewrite IH; [|rewrite length_app; cbn; lia|done].
    by rewrite <-app_assoc.
Qed.

Lemma take_token_quoted w rest :
  (length w <= 95)%nat -> (rest = [] \/ exists r, rest = SPACE :: r) ->
  take_token (quote_word w ++ rest) = inr (Token w false, rest).
Proof.
  intros Hl Hr. destruct w as [|c w].
  - cbn. destruct Hr as [->|[r ->]]; reflexivity.
  - pose proof (word_loop_escaped (c :: w) rest [] ltac:(cbn in *; lia) Hr) as Hw. unfold quote_word.
    cbn [map concat app] in *. unfold take_token. change (BACKSLASH =? SEMICOLON) with false. cbv iota.
    change (take_redirection _) with (@None (list Z * list Z)). cbv iota. change (_ && _) with false.
    change ((BACKSLASH =? AMPERSAND) || _) with false. cbv iota. by rewrite Hw.
Qed.

Lemma quote_word_head w : exists c r, quote_word w = c :: r /\ (c = QUOTE \/ c = BACKSLASH).
Proof. destruct w as [|c w]; eexists _, _; (split; [reflexivity|]); auto. Qed.

Lemma parse_loop_quoted ws : forall fuel ts,
  Forall (fun w => (length w <= 95)%nat) ws -> (length ts + length ws <= TOKEN_CAP)%nat -> (length ws < fuel)%nat ->
  parse_loop fuel (quote_line ws) ts = Some (inr (ts ++ map (fun w => Token w false) ws)).
Proof.
  induction ws as [|w ws IH]; intros [|fuel] ts Hw Hc Hf; cbn [length] in *; try lia.
  { by rewrite app_nil_r. }
  apply Forall_cons in Hw as [Hw Hws]. cbn [parse_loop]. unfold quote_line. cbn [map concat app].
  fold (quote_line ws). destruct (quote_word_head w) as (c & r & Eq & Hq).
  assert (skip_blanks (SPACE :: quote_word w ++ quote_line ws) = quote_word w ++ quote_line ws) as ->.
  { rewrite Eq. by destruct Hq as [-> | ->]. }
  rewrite Eq at 1 2. replace (_ || _) with false by (by destruct Hq as [-> | ->]).
  destruct (Nat.leb_spec TOKEN_CAP (length ts)); [lia|].
  rewrite take_token_quoted; [|done|destruct ws; [by left|right; by eexists]].
  rewrite IH; [|done|rewrite length_app; cbn; lia|lia]. by rewrite <-app_assoc.
Qed.

(** C34: Every list of words can be typed: write an empty word as two quotation marks and any other word with a
    backslash before each of its characters, and put a space before each word. For at most 24 words of at
    most 95 characters [parse_line] then returns exactly those words, none of them subject to wildcards, even
    where the words hold blanks, operators, quotation marks, backslashes or stars. *)
Theorem parse_line_quoted ws :
  (length ws <= TOKEN_CAP)%nat -> Forall (fun w => (length w < TOKEN_LEN)%nat) ws ->
  parse_line (quote_line ws) = Some (inr (map (fun w => Token w false) ws)).
Proof.
  intros Hc Hw. unfold parse_line. rewrite parse_loop_quoted; [done| |cbn; lia|].
  - eapply Forall_impl; [exact Hw|]. cbn. unfold TOKEN_LEN. lia.
  - clear. induction ws as [|w ws IH]; [cbn; lia|]. unfold quote_line in *. cbn [map concat length app].
    rewrite length_app. lia.
Qed.

(** [rm '' a;b *] with every character escaped. *)
Lemma parse_line_quoted_witness :
  parse_line (quote_line [[114; 109]; []; [97; SEMICOLON; 98]; [STAR]]) =
  Some (inr [Token [114; 109] false; Token [] false; Token [97; SEMICOLON; 98] false; Token [STAR] false]).
Proof.
  apply (parse_line_quoted [[114; 109]; []; [97; SEMICOLON; 98]; [STAR]]); [unfold TOKEN_CAP; cbn; lia|].
  unfold TOKEN_LEN. repeat constructor; cbn; lia.
Defined.

End MshParseProps.
