(* ===== verification/MshRun.v ===== *)
(** * Running command lines

    [userland/smu/shell/redir.c] and the part of [userland/smu/shell/msh.c] that runs
    parsed lines: redirections, wildcard expansion, built-in commands, programs, and the
    operators between commands.  What the shell asks of the system is the class
    [shell_os]; a call that does not return is [None]. *)

From S2P Require Import Prelude FsTypes Vfs MshParse.
From stdpp Require Import base list option list_numbers strings.
From Stdlib Require Import ZArith Lia.
Import FsTypes Vfs MshParse.
Open Scope Z_scope.

Module MshRun.

(** The functions of [unistd.h] and the requests of [ioctl.h] the shell uses; a negative
    result is an error.  [os_read] also returns the bytes it stored, [os_getdents] the
    entries. *)
Class shell_os (W : Type) := ShellOs {
  os_open : list Z -> Z -> W -> option (Z * W);
  os_close : Z -> W -> option (Z * W);
  os_dup : Z -> W -> option (Z * W);
  os_dup2 : Z -> Z -> W -> option (Z * W);
  os_read : Z -> Z -> W -> option (Z * list Z * W);
  os_write : Z -> list Z -> W -> option (Z * W);
  os_seek_end : Z -> W -> option (Z * W);
  os_chdir : list Z -> W -> option (Z * W);
  os_getcwd : Z -> W -> option (option (list Z) * W);
  os_getdents : list Z -> Z -> W -> option (Z * list fs_dirent * W);
  os_execve : list Z -> list (list Z) -> W -> option (Z * W);
  os_getkey : W -> option (Z * W);
  os_line_begin : W -> option (Z * W);
  os_line_redraw : list Z -> Z -> Z -> W -> option (Z * W)
}.

Definition O_RDONLY : Z := 0x0001.
Definition O_WRONLY : Z := 0x0002.
Definition O_RDWR : Z := 0x0003.
Definition O_CREAT : Z := 0x0100.
Definition O_TRUNC : Z := 0x0200.
Definition O_APPEND : Z := 0x0400.

Definition STDIN_FILENO : Z := 0.
Definition STDOUT_FILENO : Z := 1.
Definition STDERR_FILENO : Z := 2.

Section Run.
Context {W : Type} `{!shell_os W}.

(** A call whose result is not used. *)
Definition ignore (f : W -> option (Z * W)) (w : W) : option W := '(_, w) ← f w; Some w.

Definition u_puts (s : list Z) : W -> option W := ignore (os_write STDOUT_FILENO s).
Definition u_err (s : list Z) : W -> option W := ignore (os_write STDERR_FILENO s).

(** ** [redir.c] *)

(** [msh_redir_state_t]. *)
Notation saved := (Z * Z * Z)%type.

Definition msh_redir_init : saved := (-1, -1, -1).

Definition saved_at (target : Z) (st : saved) : Z :=
  let '(a, b, c) := st in if target =? 0 then a else if target =? 1 then b else c.
Definition set_saved (target v : Z) (st : saved) : saved :=
  let '(a, b, c) := st in if target =? 0 then (v, b, c) else if target =? 1 then (a, v, c) else (a, b, v).

(** The stream an operator redirects and the flags the file is opened with. *)
Definition redir_target (op : list Z) : option (Z * Z) :=
  if u_streq op (cstr "<") then Some (STDIN_FILENO, O_RDONLY)
  else if u_streq op (cstr ">") || u_streq op (cstr ">>") then
    Some (STDOUT_FILENO, Z.lor (Z.lor O_CREAT O_WRONLY) (if char_at op 1 =? GREATER then O_APPEND else O_TRUNC))
  else if u_streq op (cstr "2>") || u_streq op (cstr "2>>") then
    Some (STDERR_FILENO, Z.lor (Z.lor O_CREAT O_WRONLY) (if char_at op 2 =? GREATER then O_APPEND else O_TRUNC))
  else None.

Definition close_and_fail (fd : Z) (st : saved) (w : W) : option (Z * saved * W) :=
  w ← ignore (os_close fd) w; Some (-1, st, w).

Definition msh_redir_apply (st : saved) (op path : list Z) (w : W) : option (Z * saved * W) :=
  match redir_target op with
  | None => Some (-1, st, w)
  | Some (target, flags) =>
      '(fd, w) ← os_open path flags w;
      if fd <? 0 then Some (-1, st, w)
      else
        '(st, w) ← (if saved_at target st =? -1
                    then '(d, w) ← os_dup target w; Some (set_saved target d st, w)
                    else Some (st, w));
        if saved_at target st <? 0 then close_and_fail fd st w
        else
          '(rc, w) ← os_dup2 fd target w;
          if rc <? 0 then close_and_fail fd st w
          else w ← ignore (os_close fd) w; Some (0, st, w)
  end.

Definition restore_one (target : Z) (st : saved) (w : W) : option (saved * W) :=
  let d := saved_at target st in
  if 0 <=? d then
    w ← ignore (os_dup2 d target) w;
    w ← ignore (os_close d) w;
    Some (set_saved target (-1) st, w)
  else Some (st, w).

Definition msh_redir_restore (st : saved) (w : W) : option W :=
  '(st, w) ← restore_one 0 st w;
  '(st, w) ← restore_one 1 st w;
  '(_, w) ← restore_one 2 st w;
  Some w.

(** ** Wildcards *)

(** The position of the last slash. *)
Fixpoint last_slash (s : list Z) (i : Z) (last : Z) : Z :=
  match s with
  | [] => last
  | c :: s => last_slash s (i + 1) (if c =? SLASH then i else last)
  end.

(** The directory to search, the prefix of the results and the pattern. *)
Definition split_token (token : list Z) : list Z * list Z * list Z :=
  let slash := last_slash token 0 (-1) in
  if 0 <=? slash then
    (if slash =? 0 then [SLASH] else take (PATH_CAP - 1) (take (Z.to_nat slash) token),
     take (PATH_CAP - 1) (take (Z.to_nat (slash + 1)) token),
     drop (Z.to_nat (slash + 1)) token)
  else ([DOT], [], token).

(** The loop over the entries; the result also counts the matches. *)
Fixpoint expand_entries (base pattern : list Z) (entries : list fs_dirent) (argv : list (list Z)) (matches : nat)
    : list (list Z) * nat :=
  match entries with
  | [] => (argv, matches)
  | (name, _) :: rest =>
      if (EXEC_ARG_CAP - 1 <=? length argv)%nat then (argv, matches)
      else if ((char_at name 0 =? DOT) && negb (char_at pattern 0 =? DOT)) || negb (wildcard_match pattern name)
      then expand_entries base pattern rest argv matches
      else match u_join3 PATH_CAP base name [] with
           | None => expand_entries base pattern rest argv matches
           | Some path => expand_entries base pattern rest (argv ++ [path]) (S matches)
           end
  end.

Definition expand_one (token : list Z) (argv : list (list Z)) (w : W) : option (list (list Z) * W) :=
  let '(dir, base, pattern) := split_token token in
  '(n, entries, w) ← os_getdents dir 32 w;
  let '(argv, matches) := if 0 <? n then expand_entries base pattern (take (Z.to_nat n) entries) argv 0 else (argv, 0%nat) in
  Some (if (matches =? 0)%nat && (length argv <? EXEC_ARG_CAP - 1)%nat then argv ++ [token] else argv, w).

(** ** Commands *)

(** [g_path]. *)
Variable g_path : list Z.

(** The file of a program; [None] where it does not fit. *)
Definition program_path (name : list Z) : option (list Z) :=
  if u_has_slash name then
    let '(path, fits) := u_copy PATH_CAP name in if fits then Some path else None
  else
    path ← u_join3 PATH_CAP g_path [SLASH] name;
    if u_ends_prg path then Some path
    else if (PATH_CAP <=? length path + 4)%nat then None else Some (path ++ cstr ".prg").

Definition run_external (argv : list (list Z)) (w : W) : option (Z * W) :=
  match program_path (default [] (head argv)) with
  | None => Some (-1, w)
  | Some path => os_execve path argv w
  end.

Definition is_redirection (s : list Z) : bool :=
  u_streq s (cstr ">") || u_streq s (cstr ">>") || u_streq s (cstr "2>") || u_streq s (cstr "2>>") ||
  u_streq s (cstr "<").

(** The loop over the tokens of a command: the arguments, or [None] when a redirection
    failed. *)
Fixpoint collect (seg : list token) (st : saved) (argv : list (list Z)) (w : W)
    : option (option (list (list Z)) * saved * W) :=
  match seg with
  | [] => Some (Some argv, st, w)
  | t :: rest =>
      if (EXEC_ARG_CAP - 1 <=? length argv)%nat then Some (Some argv, st, w)
      else if is_redirection (word t) then
        match rest with
        | [] => Some (None, st, w)
        | path :: rest =>
            '(rc, st, w) ← msh_redir_apply st (word t) (word path) w;
            if rc <? 0 then Some (None, st, w) else collect rest st argv w
        end
      else if glob t then '(argv, w) ← expand_one (word t) argv w; collect rest st argv w
      else collect rest st (argv ++ [word t]) w
  end.

Definition run_cd (argv : list (list Z)) (w : W) : option (Z * W) :=
  if (2 <? length argv)%nat then w ← u_err (cstr "msh: cd: too many arguments" ++ [NEWLINE]) w; Some (1, w)
  else
    '(rc, w) ← os_chdir (default [SLASH] (argv !! 1%nat)) w;
    if rc <? 0 then w ← u_err (cstr "msh: cd failed" ++ [NEWLINE]) w; Some (1, w) else Some (0, w).

(** The exit status and [*want_exit]. *)
Definition run_segment (seg : list token) (w : W) : option (Z * bool * W) :=
  match seg with
  | [] => Some (-1, false, w)
  | _ =>
      '(argv, st, w) ← collect seg msh_redir_init [] w;
      match argv with
      | None =>
          w ← msh_redir_restore st w;
          w ← u_err (cstr "msh: redirect failed" ++ [NEWLINE]) w;
          Some (1, false, w)
      | Some [] => w ← msh_redir_restore st w; Some (0, false, w)
      | Some ((name :: _) as argv) =>
          if u_streq name (cstr "exit") then w ← msh_redir_restore st w; Some (0, true, w)
          else if u_streq name (cstr "cd") then
            '(rc, w) ← run_cd argv w;
            w ← msh_redir_restore st w; Some (rc, false, w)
          else
            '(rc, w) ← run_external argv w;
            w ← msh_redir_restore st w;
            if rc <? 0 then
              w ← u_err (cstr "msh: command not found or failed: ") w;
              w ← u_err name w;
              w ← u_err [NEWLINE] w;
              Some (127, false, w)
            else Some (rc, false, w)
      end
  end.

(** ** Operators *)

Definition is_operator (s : list Z) : bool :=
  u_streq s (cstr ";") || u_streq s (cstr "&&") || u_streq s (cstr "||").

(** The tokens before the first operator, and the rest. *)
Fixpoint split_segment (tokens : list token) : list token * list token :=
  match tokens with
  | [] => ([], [])
  | t :: rest => if is_operator (word t) then ([], tokens)
                 else let '(seg, rest) := split_segment rest in (t :: seg, rest)
  end.

(** Every turn takes at least two tokens, or is the last one. *)
Fixpoint execute_loop (fuel : nat) (tokens : list token) (last : Z) (should_run : bool) (w : W)
    : option (Z * bool * W) :=
  match fuel with
  | O => None
  | S fuel =>
      match tokens with
      | [] => Some (last, false, w)
      | _ =>
          let '(seg, rest) := split_segment tokens in
          match seg with
          | [] => w ← u_err (cstr "msh: syntax error near operator" ++ [NEWLINE]) w; Some (2, false, w)
          | _ =>
              '(last, want_exit, w) ← (if should_run then run_segment seg w else Some (last, false, w));
              if want_exit : bool then Some (last, true, w)
              else match rest with
                   | [] => Some (last, false, w)
                   | op :: [] => w ← u_err (cstr "msh: trailing operator" ++ [NEWLINE]) w; Some (2, false, w)
                   | op :: rest =>
                       let should_run := if u_streq (word op) (cstr "&&") then last =? 0
                                         else if u_streq (word op) (cstr "||") then negb (last =? 0) else true in
                       execute_loop fuel rest last should_run w
                   end
          end
      end
  end.

Definition execute_tokens (tokens : list token) : W -> option (Z * bool * W) :=
  execute_loop (S (length tokens)) tokens 0 true.

End Run.
End MshRun.
