(* ===== verification/MshLine.v ===== *)
(** * The shell's prompt

    The rest of [userland/smu/shell/msh.c]: the configuration file, the history, the
    completion of words, the line editor and the main loop.  The line is a C array whose
    accesses are checked ([None] outside of it); other buffers are C strings. *)

From S2P Require Import Prelude FsTypes Vfs LineEdit MshParse MshRun.
From stdpp Require Import base list option list_numbers strings.
From Stdlib Require Import ZArith Lia.
Import FsTypes Vfs LineEdit MshParse MshRun.
Open Scope Z_scope.

Module MshLine.

Definition HISTORY_PATH_CAP : nat := 96.
Definition MOTD_PATH_CAP : nat := 96.
Definition PROMPT_MODE_CWD : Z := 0.
Definition PROMPT_MODE_NAME : Z := 1.
Definition DT_DIR : Z := 1.

Definition TTY_KEY_LEFT : Z := 0x80.
Definition TTY_KEY_RIGHT : Z := 0x81.
Definition TTY_KEY_INSERT : Z := 0x82.
Definition TTY_KEY_DELETE : Z := 0x83.
Definition TTY_KEY_UP : Z := 0x84.
Definition TTY_KEY_DOWN : Z := 0x85.
Definition BACKSPACE : Z := 8.
Definition CTRL_C : Z := 3.

(** The static variables. *)
Record msh := Msh {
  g_path : list Z; g_prompt_text : list Z; g_prompt_suffix : list Z; g_history_file : list Z;
  g_motd_file : list Z; g_prompt_mode : Z; g_banner : Z; g_history_max_bytes : Z;
  g_history : list (list Z); g_history_count : Z; g_history_head : Z
}.

Definition initial_msh : msh :=
  Msh (cstr "/bin") (cstr "msh") (cstr " > ") (cstr "/root/history") (cstr "/etc/motd") PROMPT_MODE_CWD 0 3072
      (replicate HISTORY_CAP []) 0 0.

Definition set_path v m := Msh v (g_prompt_text m) (g_prompt_suffix m) (g_history_file m) (g_motd_file m) (g_prompt_mode m)
  (g_banner m) (g_history_max_bytes m) (g_history m) (g_history_count m) (g_history_head m).
Definition set_prompt_text v m := Msh (g_path m) v (g_prompt_suffix m) (g_history_file m) (g_motd_file m) (g_prompt_mode m)
  (g_banner m) (g_history_max_bytes m) (g_history m) (g_history_count m) (g_history_head m).
Definition set_prompt_suffix v m := Msh (g_path m) (g_prompt_text m) v (g_history_file m) (g_motd_file m) (g_prompt_mode m)
  (g_banner m) (g_history_max_bytes m) (g_history m) (g_history_count m) (g_history_head m).
Definition set_history_file v m := Msh (g_path m) (g_prompt_text m) (g_prompt_suffix m) v (g_motd_file m) (g_prompt_mode m)
  (g_banner m) (g_history_max_bytes m) (g_history m) (g_history_count m) (g_history_head m).
Definition set_motd_file v m := Msh (g_path m) (g_prompt_text m) (g_prompt_suffix m) (g_history_file m) v (g_prompt_mode m)
  (g_banner m) (g_history_max_bytes m) (g_history m) (g_history_count m) (g_history_head m).
Definition set_prompt_mode v m := Msh (g_path m) (g_prompt_text m) (g_prompt_suffix m) (g_history_file m) (g_motd_file m) v
  (g_banner m) (g_history_max_bytes m) (g_history m) (g_history_count m) (g_history_head m).
Definition set_banner v m := Msh (g_path m) (g_prompt_text m) (g_prompt_suffix m) (g_history_file m) (g_motd_file m) (g_prompt_mode m)
  v (g_history_max_bytes m) (g_history m) (g_history_count m) (g_history_head m).
Definition set_history_max v m := Msh (g_path m) (g_prompt_text m) (g_prompt_suffix m) (g_history_file m) (g_motd_file m)
  (g_prompt_mode m) (g_banner m) v (g_history m) (g_history_count m) (g_history_head m).
Definition set_ring h n i m := Msh (g_path m) (g_prompt_text m) (g_prompt_suffix m) (g_history_file m) (g_motd_file m)
  (g_prompt_mode m) (g_banner m) (g_history_max_bytes m) h n i.

(** ** Configuration *)

(** The bytes before the first 0. *)
Fixpoint c_str (bytes : list Z) : list Z :=
  match bytes with
  | [] => []
  | c :: r => if c =? 0 then [] else c :: c_str r
  end.

Definition key_matches (line key : list Z) : bool := starts_with line (key ++ [61]).

Definition copy_value (cap : nat) (line : list Z) (key_len : nat) : list Z :=
  c_str (take (cap - 1) (drop (key_len + 1) line)).

Fixpoint uint_loop (s : list Z) (value fallback : Z) : Z :=
  match s with
  | [] => value
  | c :: r => if (c <? 48) || (57 <? c) then fallback else uint_loop r (u32 (value * 10 + (c - 48))) fallback
  end.

Definition parse_uint (s : list Z) (fallback : Z) : Z :=
  match s with [] => fallback | _ => uint_loop s 0 fallback end.

Definition config_line (m : msh) (line : list Z) : msh :=
  if (length line =? 0)%nat || (char_at line 0 =? HASH) then m
  else if key_matches line (cstr "path") then set_path (copy_value 64 line 4) m
  else if key_matches line (cstr "prompt_mode") then
    set_prompt_mode (if u_streq (copy_value 96 line 11) (cstr "name") then PROMPT_MODE_NAME else PROMPT_MODE_CWD) m
  else if key_matches line (cstr "prompt_text") then set_prompt_text (copy_value 32 line 11) m
  else if key_matches line (cstr "prompt_suffix") then set_prompt_suffix (copy_value 16 line 13) m
  else if key_matches line (cstr "banner") then
    set_banner (if u_streq (copy_value 96 line 6) (cstr "0") then 0 else 1) m
  else if key_matches line (cstr "history_file") then set_history_file (copy_value HISTORY_PATH_CAP line 12) m
  else if key_matches line (cstr "history_max_bytes") then set_history_max (parse_uint (copy_value 96 line 17) 3072) m
  else if key_matches line (cstr "motd") then set_motd_file (copy_value MOTD_PATH_CAP line 4) m
  else m.

Definition line_end (c : Z) : bool := (c =? NEWLINE) || (c =? RETURN).

(** The lines of a buffer; [stop] ends a line. *)
Fixpoint lines_loop (stop : Z -> bool) (bytes line : list Z) : list (list Z) :=
  match bytes with
  | [] => [line]
  | c :: r => if stop c then line :: lines_loop stop r [] else lines_loop stop r (line ++ [c])
  end.

Section Shell.
Context {W : Type} `{!shell_os W}.

Definition load_config (m : msh) (w : W) : option (msh * W) :=
  '(fd, w) ← os_open (cstr "/etc/msh.cfg") O_RDONLY w;
  if fd <? 0 then Some (m, w)
  else
    '(n, bytes, w) ← os_read fd 319 w;
    w ← ignore (os_close fd) w;
    if n <=? 0 then Some (m, w)
    else Some (foldl config_line m (lines_loop line_end (take (Z.to_nat n) bytes) []), w).

Definition show_motd (m : msh) (w : W) : option W :=
  match g_motd_file m with
  | [] => Some w
  | file => ignore (os_execve (cstr "/bin/cat.prg") [cstr "cat"; file]) w
  end.

(** ** History *)

Definition history_slot (m : msh) (i : Z) : list Z := default [] (g_history m !! Z.to_nat i).

Definition history_mem_push (m : msh) (line : list Z) : msh :=
  match line with
  | [] => m
  | _ =>
      let cap := Z.of_nat HISTORY_CAP in
      if (0 <? g_history_count m) && u_streq (history_slot m ((g_history_head m + cap - 1) mod cap)) line then m
      else
        set_ring (<[Z.to_nat (g_history_head m) := take (Z.to_nat (LINE_CAP - 1)) line]> (g_history m))
                 (if g_history_count m <? cap then g_history_count m + 1 else g_history_count m)
                 ((g_history_head m + 1) mod cap) m
  end.

(** [None] is the null pointer. *)
Definition history_mem_get (m : msh) (reverse_index : Z) : option (list Z) :=
  let cap := Z.of_nat HISTORY_CAP in
  if g_history_count m <=? reverse_index then None
  else Some (history_slot m ((g_history_head m + cap - 1 - reverse_index) mod cap)).

Definition history_end (c : Z) : bool := line_end c || (c =? 0).

Definition load_history (m : msh) (w : W) : option (msh * W) :=
  let m := set_ring (g_history m) 0 0 m in
  match g_history_file m with
  | [] => Some (m, w)
  | file =>
      '(fd, w) ← os_open file O_RDONLY w;
      if fd <? 0 then Some (m, w)
      else
        '(n, bytes, w) ← os_read fd 3072 w;
        w ← ignore (os_close fd) w;
        if n <=? 0 then Some (m, w)
        else Some (foldl history_mem_push m (lines_loop history_end (take (Z.to_nat n) bytes) []), w)
  end.

Definition append_history (m : msh) (line : list Z) (w : W) : option W :=
  let len := Z.of_nat (length line) in
  if (length line =? 0)%nat || (length (g_history_file m) =? 0)%nat || (g_history_max_bytes m =? 0) then Some w
  else if (LINE_CAP + 1 <=? len + 1) || (g_history_max_bytes m <? len + 1) then Some w
  else
    let record := line ++ [NEWLINE] in
    '(fd, w) ← os_open (g_history_file m) (Z.lor O_CREAT O_RDWR) w;
    if fd <? 0 then Some w
    else
      '(stop, w) ← os_seek_end fd w;
      '(fd, w) ← (if (stop <? 0) || (g_history_max_bytes m <? u32 (stop + (len + 1))) then
                    w ← ignore (os_close fd) w;
                    os_open (g_history_file m) (Z.lor (Z.lor O_CREAT O_TRUNC) O_WRONLY) w
                  else Some (fd, w));
      if fd <? 0 then Some w
      else w ← ignore (os_write fd record) w; ignore (os_close fd) w.

Definition print_prompt (m : msh) (w : W) : option W :=
  w ← (if g_prompt_mode m =? PROMPT_MODE_CWD then
         '(r, w) ← os_getcwd 128 w;
         u_puts (match r with Some ((_ :: _) as cwd) => cwd | _ => cstr "/" end) w
       else u_puts (g_prompt_text m) w);
  u_puts (g_prompt_suffix m) w.

(** ** The line *)

(** The array, its length and the cursor. *)
Record line_state := Line { buf : list Z; len : Z; cursor : Z }.

(** [for (i = len + 1; i > end; --i) line[i + d - 1] = line[i - 1];] run [n] times. *)
Fixpoint move_up (n : nat) (i d : Z) (a : list Z) : option (list Z) :=
  match n with
  | O => Some a
  | S n => v ← aget a (i - 1); a ← aset a (i + d - 1) v; move_up n (i - 1) d a
  end.

(** [for (i = end; i <= len; ++i) line[i - d] = line[i];] run [n] times. *)
Fixpoint move_down (n : nat) (i d : Z) (a : list Z) : option (list Z) :=
  match n with
  | O => Some a
  | S n => v ← aget a i; a ← aset a (i - d) v; move_down n (i + 1) d a
  end.

Fixpoint put_chars (s : list Z) (i : Z) (a : list Z) : option (list Z) :=
  match s with
  | [] => Some a
  | c :: s => a ← aset a i c; put_chars s (i + 1) a
  end.

(** The line is unchanged where the replacement does not fit. *)
Definition replace_range (cap start stop : Z) (replacement : list Z) (l : line_state) : option line_state :=
  let rlen := Z.of_nat (length replacement) in
  let old := u32 (stop - start) in
  if cap <? u32 (len l - old + rlen + 1) then Some l
  else
    a ← (if old <? rlen then move_up (Z.to_nat (len l + 1 - stop)) (len l + 1) (rlen - old) (buf l)
         else if rlen <? old then move_down (Z.to_nat (len l + 1 - stop)) stop (old - rlen) (buf l)
         else Some (buf l));
    a ← put_chars replacement start a;
    let n := u32 (len l - old + rlen) in
    a ← aset a n 0;
    Some (Line a n (start + rlen)).

Fixpoint common (a b : list Z) : list Z :=
  match a, b with
  | x :: a, y :: b => if x =? y then x :: common a b else []
  | _, _ => []
  end.

Definition common_prefix (best candidate : list Z) (have : nat) : list Z :=
  if (have =? 0)%nat then fst (u_copy PATH_CAP candidate) else common best candidate.

(** The part of the line before the cursor that is to be completed. *)
Definition typed (start : Z) (l : line_state) : list Z :=
  take (PATH_CAP - 1) (take (Z.to_nat (cursor l - start)) (drop (Z.to_nat start) (buf l))).

(** The candidates that begin with [prefix]: how many, and what they have in common. *)
Definition gather (prefix : list Z) (candidates : list (list Z)) (acc : list Z * nat) : list Z * nat :=
  foldl (fun '(best, matches) c => if starts_with c prefix then (common_prefix best c matches, S matches) else (best, matches))
        acc candidates.

(** The name of a program without its suffix. *)
Definition strip_prg (name : list Z) : list Z :=
  if (4 <? length name)%nat && u_ends_prg name then take (length name - 4) name else name.

(** The commands among the entries of a directory. *)
Definition command_names (entries : list fs_dirent) : list (list Z) :=
  foldr (fun e l => if snd e =? DT_DIR then l
                    else let '(c, fits) := u_copy PATH_CAP (fst e) in if fits then strip_prg c :: l else l) [] entries.

Definition complete_command (cap start : Z) (l : line_state) (w : W) : option (line_state * W) :=
  let prefix := typed start l in
  let acc := gather prefix [cstr "cd"; cstr "exit"] ([], 0%nat) in
  '(n, entries, w) ← os_getdents (cstr "/bin") 32 w;
  let '(best, matches) := gather prefix (if 0 <? n then command_names (take (Z.to_nat n) entries) else []) acc in
  if (0 <? matches)%nat && (length prefix <? length best)%nat
  then l ← replace_range cap start (cursor l) best l; Some (l, w)
  else Some (l, w).

(** The entries that match, with the type of the last one. *)
Definition gather_entries (prefix : list Z) (entries : list fs_dirent) : list Z * nat * Z :=
  foldl (fun '(best, matches, type) e =>
           if ((char_at (fst e) 0 =? DOT) && negb (char_at prefix 0 =? DOT)) || negb (starts_with (fst e) prefix)
           then (best, matches, type)
           else (common_prefix best (fst e) matches, S matches, snd e)) ([], 0%nat, 0) entries.

Definition complete_path (cap start : Z) (l : line_state) (w : W) : option (line_state * W) :=
  let '(dir, base, prefix) := split_token (typed start l) in
  let prefix := fst (u_copy PATH_CAP prefix) in
  '(n, entries, w) ← os_getdents dir 32 w;
  if n <=? 0 then Some (l, w)
  else
    let '(best, matches, type) := gather_entries prefix (take (Z.to_nat n) entries) in
    let directory := (matches =? 1)%nat && (type =? DT_DIR) in
    if (0 <? matches)%nat && ((length prefix <? length best)%nat || directory) then
      match u_join3 PATH_CAP base best [] with
      | None => Some (l, w)
      | Some r =>
          let rl := length r in
          let r := if directory && (rl + 1 <? PATH_CAP)%nat && negb (char_at r (rl - 1) =? SLASH) then r ++ [SLASH] else r in
          l ← replace_range cap start (cursor l) r l; Some (l, w)
      end
    else Some (l, w).

Definition word_break (c : Z) : bool :=
  (c =? SPACE) || (c =? TAB) || (c =? SEMICOLON) || (c =? AMPERSAND) || (c =? BAR).

(** The start of the word the cursor is in. *)
Fixpoint word_start (a : list Z) (start : nat) : nat :=
  match start with
  | O => O
  | S n => if word_break (char_at a n) then start else word_start a n
  end.

(** The first loop: where the command of the word begins. *)
Fixpoint segment_start (a : list Z) (i : nat) (start : nat) (segment : nat) : nat :=
  match start with
  | O => segment
  | S n => let c := char_at a i in
           segment_start a (S i) n (if (c =? SEMICOLON) || (c =? BAR) || (c =? AMPERSAND) then S i else segment)
  end.

(** Only blanks between the two positions. *)
Definition blank_between (a : list Z) (from to : nat) : bool :=
  forallb (fun c => (c =? SPACE) || (c =? TAB)) (take (to - from) (drop from a)).

Definition complete_line (cap : Z) (l : line_state) (w : W) : option (line_state * W) :=
  let start := word_start (buf l) (Z.to_nat (cursor l)) in
  if blank_between (buf l) (segment_start (buf l) 0 start 0) start
  then complete_command cap (Z.of_nat start) l w
  else complete_path cap (Z.of_nat start) l w.

(** ** Reading a line *)

(** [src] is null for [None]. *)
Definition set_line (cap : Z) (src : option (list Z)) (l : line_state) : option line_state :=
  let s := take (Z.to_nat (cap - 1)) (default [] src) in
  let n := Z.of_nat (length s) in
  a ← put_chars s 0 (buf l);
  a ← aset a n 0;
  Some (Line a n n).

Definition redraw_line (l : line_state) (w : W) : option W :=
  ignore (os_line_redraw (take (Z.to_nat (len l)) (buf l)) (len l) (cursor l)) w.

(** The variables of [read_line]. *)
Record reader := Reader { line : line_state; insert_mode : bool; history_nav : Z; draft : list Z }.

(** The text of the line as a C string. *)
Definition line_text (l : line_state) : list Z := take (Z.to_nat (len l)) (buf l).

(** A changed line is drawn again. *)
Definition edited (r : reader) (w : W) : option (option Z * reader * W) :=
  w ← redraw_line (line r) w; Some (None, r, w).

(** [None] for [continue], the result of [read_line] otherwise. *)
Definition read_key (cap : Z) (m : msh) (key : Z) (r : reader) (w : W) : option (option Z * reader * W) :=
  let l := line r in
  if key <? 0 then Some (Some (-1), r, w)
  else if key =? NEWLINE then
    w ← redraw_line (Line (buf l) (len l) (len l)) w;
    w ← u_puts [NEWLINE] w;
    a ← aset (buf l) (len l) 0;
    Some (Some (len l), Reader (Line a (len l) (cursor l)) (insert_mode r) (history_nav r) (draft r), w)
  else if key =? CTRL_C then
    a ← aset (buf l) 0 0;
    w ← redraw_line (Line a 0 0) w;
    w ← u_puts (cstr "^C" ++ [NEWLINE]) w;
    Some (Some 0, Reader (Line a (len l) (cursor l)) (insert_mode r) (history_nav r) (draft r), w)
  else if key =? BACKSPACE then
    if cursor l =? 0 then Some (None, r, w)
    else
      a ← shift_down (Z.to_nat (len l - cursor l)) (cursor l) (buf l);
      a ← aset a (len l - 1) 0;
      edited (Reader (Line a (len l - 1) (cursor l - 1)) (insert_mode r) (-1) (draft r)) w
  else if key =? TTY_KEY_DELETE then
    if len l <=? cursor l then Some (None, r, w)
    else
      a ← shift_down (Z.to_nat (len l - (cursor l + 1))) (cursor l + 1) (buf l);
      a ← aset a (len l - 1) 0;
      edited (Reader (Line a (len l - 1) (cursor l)) (insert_mode r) (-1) (draft r)) w
  else if key =? TTY_KEY_LEFT then
    edited (Reader (Line (buf l) (len l) (if 0 <? cursor l then cursor l - 1 else cursor l)) (insert_mode r) (history_nav r) (draft r)) w
  else if key =? TTY_KEY_RIGHT then
    edited (Reader (Line (buf l) (len l) (if cursor l <? len l then cursor l + 1 else cursor l)) (insert_mode r) (history_nav r) (draft r)) w
  else if key =? TTY_KEY_INSERT then Some (None, Reader l (negb (insert_mode r)) (history_nav r) (draft r), w)
  else if key =? TTY_KEY_UP then
    if g_history_count m =? 0 then Some (None, r, w)
    else
      let draft := if history_nav r <? 0 then fst (u_copy (Z.to_nat LINE_CAP) (line_text l)) else draft r in
      let nav := if history_nav r + 1 <? g_history_count m then history_nav r + 1 else history_nav r in
      l ← set_line cap (history_mem_get m nav) l;
      edited (Reader l (insert_mode r) nav draft) w
  else if key =? TTY_KEY_DOWN then
    if history_nav r <? 0 then Some (None, r, w)
    else
      let nav := history_nav r - 1 in
      l ← set_line cap (if nav <? 0 then Some (draft r) else history_mem_get m nav) l;
      edited (Reader l (insert_mode r) nav (draft r)) w
  else if key =? TAB then
    '(l, w) ← complete_line cap l w;
    edited (Reader l (insert_mode r) (history_nav r) (draft r)) w
  else if (0 <? key) && (key <? 128) then
    if cap <=? len l + 1 then Some (None, r, w)
    else
      '(a, n) ← (if negb (insert_mode r) && (cursor l <? len l)
                 then a ← aset (buf l) (cursor l) key; Some (a, len l)
                 else a ← shift_up (Z.to_nat (len l - cursor l)) (len l) (buf l);
                      a ← aset a (cursor l) key; Some (a, len l + 1));
      a ← aset a n 0;
      edited (Reader (Line a n (cursor l + 1)) (insert_mode r) (-1) (draft r)) w
  else Some (None, r, w).

(** One turn per key. *)
Fixpoint read_loop (fuel : nat) (cap : Z) (m : msh) (r : reader) (w : W) : option (Z * list Z * W) :=
  match fuel with
  | O => None
  | S fuel =>
      '(key, w) ← os_getkey w;
      '(x, r, w) ← read_key cap m key r w;
      match x with
      | None => read_loop fuel cap m r w
      | Some n => Some (n, line_text (line r), w)
      end
  end.

Definition read_line (fuel : nat) (cap : Z) (m : msh) (a : list Z) (w : W) : option (Z * list Z * W) :=
  a ← aset a 0 0;
  w ← ignore os_line_begin w;
  read_loop fuel cap m (Reader (Line a 0 0) true (-1) []) w.

(** ** The shell *)

(** One turn of the loop of [main]: the status to return, if it ends. *)
Definition shell_turn (fuel : nat) (a : list Z) (m : msh) (w : W) : option (option Z * msh * W) :=
  w ← print_prompt m w;
  '(n, text, w) ← read_line fuel LINE_CAP m a w;
  if n <? 0 then w ← u_err (cstr "msh: input failed" ++ [NEWLINE]) w; Some (Some 1, m, w)
  else if n =? 0 then Some (None, m, w)
  else
    w ← append_history m text w;
    let m := history_mem_push m text in
    parsed ← parse_line text;
    match parsed with
    | inl rc => if rc =? -2 then w ← u_err (cstr "msh: syntax error" ++ [NEWLINE]) w; Some (None, m, w)
                else Some (None, m, w)
    | inr [] => Some (None, m, w)
    | inr tokens =>
        '(_, want_exit, w) ← execute_tokens (g_path m) tokens w;
        Some (if want_exit : bool then Some 0 else None, m, w)
    end.

Definition start_shell (w : W) : option (msh * W) :=
  '(m, w) ← load_config initial_msh w;
  '(m, w) ← load_history m w;
  w ← show_motd m w;
  w ← (if negb (g_banner m =? 0) then u_puts (cstr "System Multi Utils - MultiShell (MSh)" ++ [NEWLINE]) w else Some w);
  Some (m, w).

End Shell.
End MshLine.
