(* ===== verification/MshEdit.v ===== *)
(** * The promises of the shell's prompt

    The history holds the last lines, the line editor stays inside its array and does what
    its keys mean, completion only adds to what was typed, and reading a line ends with
    the edited text. *)

From S2P Require Import Prelude FsTypes Vfs LineEdit MshParse MshRun MshLine.
From stdpp Require Import base list option list_numbers strings.
From Stdlib Require Import ZArith Lia ZifyBool.
Import FsTypes Vfs LineEdit MshParse MshRun MshLine.
Open Scope Z_scope.

Module MshEdit.

(** ** History *)

Lemma streq_spec a b : u_streq a b = true <-> a = b.
Proof.
  revert b. induction a as [|x a IH]; intros [|y b]; cbn; try done. rewrite andb_true_iff, IH, Z.eqb_eq. naive_solver.
Qed.

Definition ring_ok (m : msh) : Prop :=
  length (g_history m) = HISTORY_CAP /\ 0 <= g_history_head m < 16 /\ 0 <= g_history_count m <= 16.

(** The remembered lines, the last one first. *)
Definition recent (m : msh) : list (list Z) :=
  (fun i => history_slot m ((g_history_head m + 15 - Z.of_nat i) mod 16)) <$> seq 0 (Z.to_nat (g_history_count m)).

(** What remembering a line means: no empty line, nothing twice in a row, 16 lines. *)
Definition remember (h : list (list Z)) (line : list Z) : list (list Z) :=
  if decide (line = [] \/ head h = Some line) then h else take 16 (take 191 line :: h).

Lemma recent_lookup m i :
  recent m !! i = if decide (Z.of_nat i < g_history_count m) then Some (history_slot m ((g_history_head m + 15 - Z.of_nat i) mod 16)) else None.
Proof.
  unfold recent. rewrite list_lookup_fmap. case_decide.
  - rewrite lookup_seq_lt by lia. done.
  - by rewrite lookup_seq_ge by lia.
Qed.

Lemma recent_length m : length (recent m) = Z.to_nat (g_history_count m).
Proof. unfold recent. by rewrite length_fmap, length_seq. Qed.

Lemma get_recent m i : 0 <= i -> history_mem_get m i = recent m !! Z.to_nat i.
Proof.
  intros Hi. rewrite recent_lookup. unfold history_mem_get. cbn [Z.of_nat HISTORY_CAP].
  rewrite Z2Nat.id by done. case_decide; case_bool; try lia; [|done].
  f_equal. f_equal. f_equal. change (Z.of_nat HISTORY_CAP) with 16. lia.
Qed.

Lemma ring_step h i : 0 <= h < 16 -> 0 <= i -> ((h + 1) mod 16 + 15 - (i + 1)) mod 16 = (h + 15 - i) mod 16.
Proof. intros Hh Hi. Z.div_mod_to_equations. lia. Qed.

Lemma ring_new h : 0 <= h < 16 -> ((h + 1) mod 16 + 15 - 0) mod 16 = h.
Proof. intros Hh. Z.div_mod_to_equations. lia. Qed.

(** An older line is in another place than the new one. *)
Lemma ring_apart h i : 0 <= h < 16 -> 0 <= i < 15 -> (h + 15 - i) mod 16 <> h.
Proof. intros Hh Hi. Z.div_mod_to_equations. lia. Qed.

Lemma push_recent m line : ring_ok m ->
  ring_ok (history_mem_push m line) /\ recent (history_mem_push m line) = remember (recent m) line.
Proof.
  intros (H1 & H2 & H3). unfold history_mem_push, remember. destruct line as [|c line].
  { rewrite decide_True by (by left). by split. }
  change (Z.of_nat HISTORY_CAP) with 16. change (Z.to_nat (LINE_CAP - 1)) with 191%nat.
  set (l := c :: line). set (last := history_slot m _).
  assert (head (recent m) = if 0 <? g_history_count m then Some last else None) as Hh.
  { transitivity (recent m !! 0%nat); [by destruct (recent m)|]. rewrite recent_lookup.
    destruct (Z.ltb_spec 0 (g_history_count m)); [rewrite decide_True by lia|by rewrite decide_False by lia].
    unfold last. do 3 f_equal. lia. }
  destruct ((0 <? g_history_count m) && u_streq last l) eqn:E.
  { apply andb_true_iff in E as [E1 E2]. apply streq_spec in E2. rewrite decide_True; [by split|]. right. by rewrite Hh, E1, E2. }
  rewrite decide_False.
  2: { intros [?|He]; [done|]. rewrite Hh in He. destruct (0 <? g_history_count m); [|done].
       injection He as He. by rewrite (proj2 (streq_spec last l) He) in E. }
  set (count := if g_history_count m <? 16 then _ else _).
  assert (count = Z.min 16 (g_history_count m + 1)) as Hc by (unfold count; destruct (Z.ltb_spec (g_history_count m) 16); lia).
  clearbody count. split.
  { split_and!; cbn [g_history g_history_head g_history_count set_ring]; [by rewrite length_insert|apply Z.mod_pos_bound; lia|apply Z.mod_pos_bound; lia|lia|lia]. }
  apply list_eq. intros i. rewrite recent_lookup. cbn [g_history_head g_history_count set_ring]. unfold history_slot. cbn [g_history set_ring].
  rewrite lookup_take. destruct (decide (i < 16)%nat) as [Hi|]; [|by rewrite decide_False by lia].
  destruct i as [|i]; cbn [lookup list_lookup].
  - rewrite decide_True by lia. rewrite ring_new by done. by rewrite list_lookup_insert_eq by (rewrite H1; unfold HISTORY_CAP; lia).
  - rewrite recent_lookup. replace (Z.of_nat (S i)) with (Z.of_nat i + 1) by lia. rewrite ring_step by lia.
    destruct (decide (Z.of_nat i < g_history_count m)); [|by rewrite decide_False by lia].
    rewrite decide_True by lia. unfold history_slot. rewrite list_lookup_insert_ne; [done|].
    pose proof (ring_apart (g_history_head m) (Z.of_nat i)). pose proof (Z.mod_pos_bound (g_history_head m + 15 - Z.of_nat i) 16). lia.
Qed.

(** The history of the shell. Whatever lines are entered, in whatever order, the up key finds the last 16
    of them, the most recent one first, without empty lines and without repetitions of the line before,
    each cut to the 191 characters that a line can have; beyond them it finds nothing. *)
Theorem history_holds_last_lines m lines i :
  ring_ok m -> 0 <= i ->
  history_mem_get (foldl history_mem_push m lines) i = foldl remember (recent m) lines !! Z.to_nat i.
Proof.
  intros Hm Hi. rewrite get_recent by done. f_equal. revert m Hm.
  induction lines as [|line lines IH]; intros m Hm; cbn [foldl]; [done|].
  destruct (push_recent m line Hm) as [Hm' <-]. by apply IH.
Qed.

Lemma history_holds_last_lines_witness :
  history_mem_get (foldl history_mem_push initial_msh [cstr "ls"; cstr "ls"; []; cstr "cd"]) 1 = Some (cstr "ls") /\
  history_mem_get (foldl history_mem_push initial_msh [cstr "ls"; cstr "ls"; []; cstr "cd"]) 2 = None.
Proof.
  split; (rewrite history_holds_last_lines; [reflexivity| |lia]).
  all: split; [reflexivity|]; cbn; lia.
Defined.

(** ** The array *)

Lemma holds_prefix a t u : holds a (t ++ u) -> holds a t.
Proof.
  intros H. pose proof (proj1 H) as Hl. rewrite length_app in Hl. apply holds_intro; [lia|]. intros i Hi.
  rewrite (holds_lookup a (t ++ u)) by (done || rewrite length_app; lia). by rewrite lookup_app_l.
Qed.

Lemma terminated a t : holds a t -> (length t < length a)%nat ->
  aset a (Z.of_nat (length t)) 0 = Some (<[length t := 0]> a) /\ holds (<[length t := 0]> a) (t ++ [0]).
Proof.
  intros Ht Hl. split; [by apply aset_nat|]. apply holds_intro; [rewrite length_insert, length_app; cbn; lia|].
  intros i Hi. rewrite length_app in Hi. cbn in Hi. rewrite list_lookup_insert. case_decide as E.
  - destruct E as [<- _]. by rewrite lookup_app_r, Nat.sub_diag by lia.
  - rewrite lookup_app_l by lia. apply holds_lookup; [done|lia].
Qed.

Lemma move_up_spec n c d a :
  (0 < d)%nat -> (c + n + d <= length a)%nat ->
  exists a', move_up n (Z.of_nat (c + n)) (Z.of_nat d) a = Some a' /\ length a' = length a /\
    forall j, a' !! j = if decide (c + d <= j < c + n + d)%nat then a !! (j - d)%nat else a !! j.
Proof.
  revert a. induction n as [|n IH]; intros a Hd Hl.
  { exists a. split_and!; [done|done|]. intros j. case_decide; [lia|done]. }
  cbn [move_up]. replace (Z.of_nat (c + S n) - 1) with (Z.of_nat (c + n)) by lia. rewrite aget_nat.
  destruct (lookup_lt_is_Some_2 a (c + n) ltac:(lia)) as [v Hv]. rewrite Hv. cbn [mbind option_bind].
  replace (Z.of_nat (c + S n) + Z.of_nat d - 1) with (Z.of_nat (c + n + d)) by lia.
  rewrite aset_nat by lia. cbn [mbind option_bind].
  destruct (IH (<[(c + n + d)%nat := v]> a) Hd) as (a' & H1 & H2 & H3); [rewrite length_insert; lia|].
  exists a'. rewrite length_insert in H2. split_and!; [done|done|]. intros j. rewrite H3.
  repeat case_decide; try lia.
  - by rewrite list_lookup_insert_ne by lia.
  - assert (j = c + n + d)%nat as -> by lia. rewrite list_lookup_insert_eq by lia. rewrite <- Hv. f_equal. lia.
  - by rewrite list_lookup_insert_ne by lia.
Qed.

Lemma move_down_spec n i d a :
  (0 < d <= i)%nat -> (i + n <= length a)%nat ->
  exists a', move_down n (Z.of_nat i) (Z.of_nat d) a = Some a' /\ length a' = length a /\
    forall j, a' !! j = if decide (i - d <= j < i - d + n)%nat then a !! (j + d)%nat else a !! j.
Proof.
  revert i a. induction n as [|n IH]; intros i a Hi Hl.
  { exists a. split_and!; [done|done|]. intros j. case_decide; [lia|done]. }
  cbn [move_down]. rewrite aget_nat. destruct (lookup_lt_is_Some_2 a i ltac:(lia)) as [v Hv]. rewrite Hv.
  cbn [mbind option_bind]. replace (Z.of_nat i - Z.of_nat d) with (Z.of_nat (i - d)) by lia.
  rewrite aset_nat by lia. cbn [mbind option_bind]. replace (Z.of_nat i + 1) with (Z.of_nat (S i)) by lia.
  destruct (IH (S i) (<[(i - d)%nat := v]> a)) as (a' & H1 & H2 & H3); [lia|rewrite length_insert; lia|].
  exists a'. rewrite length_insert in H2. split_and!; [done|done|]. intros j. rewrite H3.
  repeat case_decide; try lia.
  - by rewrite list_lookup_insert_ne by lia.
  - assert (j = i - d)%nat as -> by lia. rewrite list_lookup_insert_eq by lia. rewrite <- Hv. f_equal. lia.
  - by rewrite list_lookup_insert_ne by lia.
Qed.

Lemma put_chars_spec r : forall i a, (i + length r <= length a)%nat ->
  exists a', put_chars r (Z.of_nat i) a = Some a' /\ length a' = length a /\
    forall j, a' !! j = if decide (i <= j < i + length r)%nat then r !! (j - i)%nat else a !! j.
Proof.
  induction r as [|c r IH]; intros i a Hl; cbn [put_chars].
  { exists a. split_and!; [done|done|]. intros j. cbn. case_decide; [lia|done]. }
  cbn [length] in *. rewrite aset_nat by lia. cbn [mbind option_bind]. replace (Z.of_nat i + 1) with (Z.of_nat (S i)) by lia.
  destruct (IH (S i) (<[i := c]> a)) as (a' & H1 & H2 & H3); [rewrite length_insert; lia|].
  exists a'. rewrite length_insert in H2. split_and!; [done|done|]. intros j. rewrite H3.
  repeat case_decide; try lia.
  - by replace (j - i)%nat with (S (j - S i)) by lia.
  - assert (j = i) as -> by lia. by rewrite list_lookup_insert_eq, Nat.sub_diag by lia.
  - by rewrite list_lookup_insert_ne by lia.
Qed.

(** ** The line *)

(** [l] is the line [t] with the cursor at [c], in an array of [cap] characters. *)
Record shows (cap : nat) (l : line_state) (t : list Z) (c : nat) : Prop := {
  sh_cap : length (buf l) = cap;
  sh_text : holds (buf l) (t ++ [0]);
  sh_len : len l = Z.of_nat (length t);
  sh_cursor : cursor l = Z.of_nat c;
  sh_in : (c <= length t)%nat
}.

Lemma shows_room cap l t c : shows cap l t c -> (length t < cap)%nat.
Proof. intros [H1 [H2 _] _ _ _]. rewrite length_app in H2. cbn in H2. lia. Qed.

Lemma shows_intro cap a t c : length a = cap -> holds a (t ++ [0]) -> (c <= length t)%nat ->
  shows cap (Line a (Z.of_nat (length t)) (Z.of_nat c)) t c.
Proof. by intros. Qed.

(** The text with the part from [start] to the cursor replaced. *)
Definition splice (t : list Z) (start c : nat) (r : list Z) : list Z := take start t ++ r ++ drop c t.

Lemma splice_length t start c r : (start <= c <= length t)%nat ->
  length (splice t start c r) = (length t - (c - start) + length r)%nat.
Proof. intros H. unfold splice. rewrite !length_app, length_take, length_drop. lia. Qed.

Lemma splice_lookup t start c r j : (start <= c <= length t)%nat ->
  splice t start c r !! j =
    if decide (j < start)%nat then t !! j
    else if decide (j < start + length r)%nat then r !! (j - start)%nat
    else t !! (j - length r - start + c)%nat.
Proof.
  intros H. unfold splice. rewrite !lookup_app, length_take, lookup_take. replace (start `min` length t)%nat with start by lia.
  destruct (decide (j < start)%nat).
  { destruct (lookup_lt_is_Some_2 t j ltac:(lia)) as [x ->]. done. }
  destruct (decide (j < start + length r)%nat).
  { destruct (lookup_lt_is_Some_2 r (j - start) ltac:(lia)) as [x ->]. done. }
  rewrite (lookup_ge_None_2 r) by lia. rewrite lookup_drop. f_equal. lia.
Qed.

(** The three ways of making room give the same array. *)
Lemma make_room a t start c r :
  holds a (t ++ [0]) -> (start <= c <= length t)%nat -> (length (splice t start c r) < length a)%nat ->
  exists a', (if Z.of_nat c - Z.of_nat start <? Z.of_nat (length r)
              then move_up (Z.to_nat (Z.of_nat (length t) + 1 - Z.of_nat c)) (Z.of_nat (length t) + 1)
                     (Z.of_nat (length r) - (Z.of_nat c - Z.of_nat start)) a
              else if Z.of_nat (length r) <? Z.of_nat c - Z.of_nat start
              then move_down (Z.to_nat (Z.of_nat (length t) + 1 - Z.of_nat c)) (Z.of_nat c)
                     (Z.of_nat c - Z.of_nat start - Z.of_nat (length r)) a
              else Some a) = Some a' /\
    length a' = length a /\
    forall j, (j < start \/ start + length r <= j < length (splice t start c r))%nat -> a' !! j = splice t start c r !! j.
Proof.
  intros Ha Hc Hl. rewrite splice_length in * by lia. pose proof (proj1 Ha) as Hla. rewrite length_app in Hla. cbn in Hla.
  assert (forall j, (j < length t)%nat -> a !! j = t !! j) as Ht by (intros j Hj; by apply holds_lookup; [eapply holds_prefix|]).
  replace (Z.to_nat (Z.of_nat (length t) + 1 - Z.of_nat c)) with (length t + 1 - c)%nat by lia.
  destruct (Z.ltb_spec (Z.of_nat c - Z.of_nat start) (Z.of_nat (length r))).
  { destruct (move_up_spec (length t + 1 - c) c (length r - (c - start)) a) as (a' & E & E1 & E2); [lia|lia|].
    replace (Z.of_nat (length t) + 1) with (Z.of_nat (c + (length t + 1 - c))) by lia.
    replace (Z.of_nat (length r) - (Z.of_nat c - Z.of_nat start)) with (Z.of_nat (length r - (c - start))) by lia.
    exists a'. split_and!; [done|done|]. intros j Hj. rewrite E2, splice_lookup by lia. repeat case_decide; try lia.
    - rewrite Ht by lia. f_equal. lia.
    - by apply Ht; lia. }
  destruct (Z.ltb_spec (Z.of_nat (length r)) (Z.of_nat c - Z.of_nat start)).
  { destruct (move_down_spec (length t + 1 - c) c (c - start - length r) a) as (a' & E & E1 & E2); [lia|lia|].
    replace (Z.of_nat c - Z.of_nat start - Z.of_nat (length r)) with (Z.of_nat (c - start - length r)) by lia.
    exists a'. split_and!; [done|done|]. intros j Hj. rewrite E2, splice_lookup by lia. repeat case_decide; try lia.
    - rewrite Ht by lia. f_equal. lia.
    - by apply Ht; lia. }
  exists a. split_and!; [done|done|]. intros j Hj. rewrite splice_lookup by lia. repeat case_decide; try lia.
  - by apply Ht; lia.
  - rewrite Ht by lia. f_equal. lia.
Qed.

Lemma replace_range_spec cap l t c start r :
  shows cap l t c -> Z.of_nat cap < 2 ^ 31 -> Z.of_nat (length r) < 2 ^ 31 -> (start <= c)%nat ->
  exists l', replace_range (Z.of_nat cap) (Z.of_nat start) (cursor l) r l = Some l' /\
    if decide (length (splice t start c r) < cap)%nat then shows cap l' (splice t start c r) (start + length r) else l' = l.
Proof.
  intros HS Hcap Hr Hst. pose proof (shows_room _ _ _ _ HS) as Hroom. destruct HS as [H1 H2 H3 H4 H5].
  pose proof (splice_length t start c r ltac:(lia)) as Hsl.
  unfold replace_range. rewrite H3, H4. rewrite (u32_small (Z.of_nat c - Z.of_nat start)), !u32_small by lia.
  destruct (decide (length (splice t start c r) < cap)%nat) as [Hfit|Hfit];
    (destruct (Z.ltb_spec (Z.of_nat cap) (Z.of_nat (length t) - (Z.of_nat c - Z.of_nat start) + Z.of_nat (length r) + 1)); [|]); try lia;
    [|by exists l].
  destruct (make_room (buf l) t start c r H2 ltac:(lia) ltac:(lia)) as (a1 & -> & L1 & E1). cbn [mbind option_bind].
  destruct (put_chars_spec r start a1 ltac:(lia)) as (a2 & -> & L2 & E2). cbn [mbind option_bind].
  assert (holds a2 (splice t start c r)) as Ha2.
  { apply holds_intro; [lia|]. intros j Hj. rewrite E2. case_decide.
    - rewrite splice_lookup by lia. by rewrite decide_False, decide_True by lia.
    - apply E1. lia. }
  destruct (terminated a2 (splice t start c r) Ha2 ltac:(lia)) as [E3 Ha3].
  replace (Z.of_nat (length t) - (Z.of_nat c - Z.of_nat start) + Z.of_nat (length r)) with (Z.of_nat (length (splice t start c r))) by lia.
  rewrite E3. cbn [mbind option_bind]. eexists. split; [reflexivity|].
  replace (Z.of_nat start + Z.of_nat (length r)) with (Z.of_nat (start + length r)) by lia.
  apply shows_intro; [rewrite length_insert; lia|done|lia].
Qed.

(** ** Completion *)

Lemma starts_with_prefix p : forall s, starts_with s p = true -> p `prefix_of` s.
Proof.
  induction p as [|x p IH]; intros [|y s]; cbn; try done; intros H; [apply prefix_nil..|].
  apply andb_true_iff in H as [->%Z.eqb_eq H]. by apply prefix_cons, IH.
Qed.

Lemma common_prefix_of p : forall a b, p `prefix_of` a -> p `prefix_of` b -> p `prefix_of` common a b.
Proof.
  induction p as [|x p IH]; intros a b Ha Hb; [apply prefix_nil|].
  destruct Ha as [a' ->], Hb as [b' ->]. cbn. rewrite Z.eqb_refl. apply prefix_cons, IH; by eexists.
Qed.

Lemma common_length a : forall b, (length (common a b) <= length a)%nat.
Proof. induction a as [|x a IH]; intros [|y b]; cbn; try lia. case_match; cbn; [|lia]. specialize (IH b). lia. Qed.

(** What is known of the best completion so far. *)
Definition best_ok (p best : list Z) (matches : nat) : Prop :=
  (length best <= 95)%nat /\ (matches <> 0%nat -> p `prefix_of` best).

Lemma common_prefix_ok p best c n : (length p <= 95)%nat -> best_ok p best n -> starts_with c p = true ->
  best_ok p (common_prefix best c n) (S n).
Proof.
  intros Hp [H1 H2] Hc%starts_with_prefix. unfold common_prefix. destruct (Nat.eqb_spec n 0) as [->|Hn].
  - unfold u_copy. cbn [fst]. change (PATH_CAP - 1)%nat with 95%nat. split; [rewrite length_take; lia|]. intros _.
    destruct Hc as [c' ->]. rewrite take_app. exists (take (95 - length p) c'). by rewrite take_ge by lia.
  - split; [pose proof (common_length best c); lia|]. intros _. by apply common_prefix_of; [apply H2|].
Qed.

Lemma gather_ok p cs : forall best n, (length p <= 95)%nat -> best_ok p best n ->
  let '(best', n') := gather p cs (best, n) in best_ok p best' n'.
Proof.
  induction cs as [|c cs IH]; intros best n Hp Hb; cbn; [done|]. change (foldl _ ?acc cs) with (gather p cs acc).
  destruct (starts_with c p) eqn:E; [|by apply IH]. apply IH; [done|by apply common_prefix_ok].
Qed.

Lemma gather_entries_ok p es : (length p <= 95)%nat ->
  best_ok p (gather_entries p es).1.1 (gather_entries p es).1.2.
Proof.
  intros Hp. unfold gather_entries. match goal with |- context [foldl ?g _ _] => set (f := g) end.
  assert (forall es acc, best_ok p acc.1.1 acc.1.2 -> best_ok p (foldl f acc es).1.1 (foldl f acc es).1.2) as H.
  { clear es. induction es as [|e es IH]; intros [[best n] ty] Hb; cbn [foldl]; [done|]. apply IH. unfold f. cbn [fst snd] in *.
    destruct (starts_with (fst e) p) eqn:E; cbn [negb]; [|by rewrite orb_true_r].
    destruct (_ || false); [done|]. by apply common_prefix_ok. }
  apply H. split; [cbn; lia|done].
Qed.

(** [t'] is [t] with something added at the cursor [c], which moves along; a word that is
    longer than a path may be replaced. *)
Definition completed (t : list Z) (c : nat) (t' : list Z) (c' : nat) : Prop :=
  (exists more, t' = take c t ++ more ++ drop c t /\ c' = (c + length more)%nat) \/
  (exists start word, (start + 95 < c)%nat /\ t' = splice t start c word /\ c' = (start + length word)%nat).

Definition typed_text (t : list Z) (start c : nat) : list Z := take 95 (take (c - start) (drop start t)).

Lemma typed_shows cap l t c start : shows cap l t c -> (start <= c)%nat -> typed (Z.of_nat start) l = typed_text t start c.
Proof.
  intros [H1 H2 H3 H4 H5] Hs. unfold typed, typed_text. change (PATH_CAP - 1)%nat with 95%nat. rewrite H4.
  replace (Z.to_nat (Z.of_nat c - Z.of_nat start)) with (c - start)%nat by lia. rewrite Nat2Z.id. f_equal.
  rewrite !take_drop_commute. replace (start + (c - start))%nat with c by lia. f_equal.
  apply holds_prefix in H2 as [_ H2]. rewrite <- H2 at 1. by rewrite take_take, Nat.min_l by lia.
Qed.

Lemma typed_length t start c : (length (typed_text t start c) <= 95)%nat.
Proof. unfold typed_text. rewrite length_take. lia. Qed.

Lemma completed_extends t start c word :
  (start <= c <= length t)%nat -> typed_text t start c `prefix_of` word ->
  completed t c (splice t start c word) (start + length word).
Proof.
  intros Hc [more ->]. destruct (decide (c - start <= 95)%nat) as [Hs|Hs].
  - left. exists more. unfold splice, typed_text. rewrite (take_ge _ 95) by (rewrite length_take, length_drop; lia).
    split; [|rewrite length_app, length_take, length_drop; lia].
    rewrite <- !(assoc_L (++)). rewrite (assoc_L (++) (take start t)). f_equal. rewrite <- (take_drop start (take c t)).
    rewrite take_take, Nat.min_l by lia. f_equal. rewrite skipn_firstn_comm. done.
  - right. eexists start, _. split; [lia|done].
Qed.

Lemma completed_refl t c : completed t c t c.
Proof. left. exists []. cbn. by rewrite take_drop, Nat.add_0_r. Qed.

(** The directory part and the name part make up the word. *)
Lemma split_token_parts word : (length word <= 95)%nat ->
  (split_token word).1.2 ++ (split_token word).2 = word.
Proof.
  intros Hw. unfold split_token. destruct (Z.leb_spec 0 (last_slash word 0 (-1))) as [Hs|Hs]; cbn [fst snd]; [|done].
  change (PATH_CAP - 1)%nat with 95%nat. rewrite (take_ge (take _ word)) by (rewrite length_take; lia). apply take_drop.
Qed.

Section Keys.
Context {W : Type} `{!shell_os W}.

(** What the editor relies on: the keys that are typed, which other calls leave alone, and
    calls that return. *)
Class shell_keys := ShellKeys {
  keys : W -> list Z;
  law_getkey k ks w : keys w = k :: ks -> exists w', os_getkey w = Some (k, w') /\ keys w' = ks;
  law_puts fd s w : exists rc w', os_write fd s w = Some (rc, w') /\ keys w' = keys w;
  law_begin w : exists rc w', os_line_begin w = Some (rc, w') /\ keys w' = keys w;
  law_redraw s n c w : exists rc w', os_line_redraw s n c w = Some (rc, w') /\ keys w' = keys w;
  law_dirents path n w : exists rc es w', os_getdents path n w = Some (rc, es, w') /\ keys w' = keys w
}.

Context `{!shell_keys}.

Lemma redraw_ok l w : exists w', redraw_line l w = Some w' /\ keys w' = keys w.
Proof.
  unfold redraw_line, ignore. destruct (law_redraw (take (Z.to_nat (len l)) (buf l)) (len l) (cursor l) w) as (rc & w' & -> & Hk).
  by exists w'.
Qed.

Lemma puts_returns s w : exists w', u_puts s w = Some w' /\ keys w' = keys w.
Proof. unfold u_puts, ignore. destruct (law_puts STDOUT_FILENO s w) as (rc & w' & -> & Hk). by exists w'. Qed.

(** The outcome of a completion. *)
Definition completes (cap : nat) (l : line_state) (t : list Z) (c : nat) (r : option (line_state * W)) (w : W) : Prop :=
  exists l' w' t' c', r = Some (l', w') /\ keys w' = keys w /\ shows cap l' t' c' /\ completed t c t' c'.

Lemma completes_same cap l t c w w' : shows cap l t c -> keys w' = keys w -> completes cap l t c (Some (l, w')) w.
Proof. intros. exists l, w', t, c. split_and!; try done. apply completed_refl. Qed.

Lemma completes_replace cap l t c start word w w' :
  shows cap l t c -> Z.of_nat cap < 2 ^ 31 -> (start <= c)%nat -> (length word <= 96)%nat ->
  typed_text t start c `prefix_of` word -> keys w' = keys w ->
  completes cap l t c (l1 ← replace_range (Z.of_nat cap) (Z.of_nat start) (cursor l) word l; Some (l1, w')) w.
Proof.
  intros HS Hcap Hs Hw Hp Hk. pose proof (sh_in _ _ _ _ HS).
  destruct (replace_range_spec cap l t c start word HS Hcap ltac:(lia) Hs) as (l1 & -> & H1). cbn [mbind option_bind].
  case_decide; [|subst; by apply completes_same]. eexists l1, w', _, _. split_and!; try done.
  apply completed_extends; [lia|done].
Qed.

Lemma complete_command_ok cap l t c start w :
  shows cap l t c -> Z.of_nat cap < 2 ^ 31 -> (start <= c)%nat ->
  completes cap l t c (complete_command (Z.of_nat cap) (Z.of_nat start) l w) w.
Proof.
  intros HS Hcap Hs. unfold complete_command. rewrite (typed_shows cap l t c start HS Hs).
  set (p := typed_text t start c). pose proof (typed_length t start c : (length p <= 95)%nat) as Hp.
  destruct (law_dirents (cstr "/bin") 32 w) as (n & es & w1 & -> & Hk). cbn [mbind option_bind].
  set (names := if 0 <? n then _ else _). pose proof (gather_ok p [cstr "cd"; cstr "exit"] [] 0 Hp) as H0.
  destruct (gather p [cstr "cd"; cstr "exit"] ([], 0%nat)) as [b0 n0].
  pose proof (gather_ok p names b0 n0 Hp (H0 ltac:(split; [cbn; lia|done]))) as H1.
  destruct (gather p names (b0, n0)) as [best matches]. destruct H1 as [L1 P1].
  destruct ((0 <? matches)%nat && _) eqn:E; [|by apply completes_same].
  apply completes_replace; try done; [lia|]. apply P1. lia.
Qed.

Lemma complete_path_ok cap l t c start w :
  shows cap l t c -> Z.of_nat cap < 2 ^ 31 -> (start <= c)%nat ->
  completes cap l t c (complete_path (Z.of_nat cap) (Z.of_nat start) l w) w.
Proof.
  intros HS Hcap Hs. unfold complete_path. rewrite (typed_shows cap l t c start HS Hs).
  pose proof (split_token_parts (typed_text t start c) (typed_length t start c)) as Hparts.
  pose proof (typed_length t start c) as Htl. destruct (split_token (typed_text t start c)) as [[dir base] p]. cbn [fst snd] in Hparts.
  assert (length p <= 95)%nat as Hp by (rewrite <- Hparts, length_app in Htl; lia).
  unfold u_copy at 1. cbn [fst]. change (PATH_CAP - 1)%nat with 95%nat. rewrite take_ge by done.
  destruct (law_dirents dir 32 w) as (n & es & w1 & -> & Hk). cbn [mbind option_bind].
  destruct (n <=? 0); [by apply completes_same|]. pose proof (gather_entries_ok p (take (Z.to_nat n) es) Hp) as [L1 P1].
  destruct (gather_entries p _) as [[best matches] ty]. cbn [fst snd] in L1, P1. cbv zeta.
  destruct ((0 <? matches)%nat && _) eqn:E; [|by apply completes_same].
  unfold u_join3. change (PATH_CAP - 1)%nat with 95%nat. rewrite app_nil_r.
  destruct (Nat.leb_spec (length (base ++ best)) 95) as [Hj|Hj]; [|by apply completes_same].
  assert (typed_text t start c `prefix_of` base ++ best) as Hpre.
  { rewrite <- Hparts. apply prefix_app, P1. lia. }
  case_match; apply completes_replace; try done; try lia.
  - rewrite length_app. cbn. lia.
  - by apply prefix_app_r.
Qed.

Lemma word_start_le a n : (word_start a n <= n)%nat.
Proof. induction n as [|n IH]; cbn [word_start]; [done|]. case_match; lia. Qed.

Lemma complete_line_ok cap l t c w :
  shows cap l t c -> Z.of_nat cap < 2 ^ 31 -> completes cap l t c (complete_line (Z.of_nat cap) l w) w.
Proof.
  intros HS Hcap. unfold complete_line. rewrite (sh_cursor _ _ _ _ HS), Nat2Z.id. pose proof (word_start_le (buf l) c).
  case_match; [by apply complete_command_ok|by apply complete_path_ok].
Qed.

(** ** What the keys mean *)

(** The text with its cursor, the place in the history and the line that was left for it. *)
Record prompt := Prompt { ed : editor; nav : Z; kept : list Z }.

(** A line of the history in place of the text, with the cursor at its end. *)
Definition recalled (room : nat) (e : editor) (t : list Z) : editor := Ed (take room t) (length (take room t)) (ins e).

(** [room] is the most text the line takes, [h] the history. *)
Definition key_effect (room : nat) (h : list (list Z)) (key : Z) (p p' : prompt) : Prop :=
  let e := ed p in
  if key =? BACKSPACE then p' = if (cur e =? 0)%nat then p else Prompt (ed_backspace e) (-1) (kept p)
  else if key =? TTY_KEY_DELETE then p' = if (cur e <? length (text e))%nat then Prompt (ed_delete e) (-1) (kept p) else p
  else if key =? TTY_KEY_LEFT then p' = Prompt (ed_left e) (nav p) (kept p)
  else if key =? TTY_KEY_RIGHT then p' = Prompt (ed_right e) (nav p) (kept p)
  else if key =? TTY_KEY_INSERT then p' = Prompt (ed_toggle e) (nav p) (kept p)
  else if key =? TTY_KEY_UP then
    p' = match h with
         | [] => p
         | _ => let n := if nav p + 1 <? Z.of_nat (length h) then nav p + 1 else nav p in
                Prompt (recalled room e (default [] (h !! Z.to_nat n))) n (if nav p <? 0 then take 191 (text e) else kept p)
         end
  else if key =? TTY_KEY_DOWN then
    p' = if nav p <? 0 then p
         else let n := nav p - 1 in
              Prompt (recalled room e (if n <? 0 then kept p else default [] (h !! Z.to_nat n))) n (kept p)
  else if key =? TAB then
    completed (text e) (cur e) (text (ed p')) (cur (ed p')) /\ ins (ed p') = ins e /\ nav p' = nav p /\ kept p' = kept p
  else if (0 <? key) && (key <? 128) then
    p' = if (room <=? length (text e))%nat then p else Prompt (ed_type room key e) (-1) (kept p)
  else p' = p.

(** The variables of [read_line] stand for the prompt [p]. *)
Record reads (cap : nat) (r : reader) (p : prompt) : Prop := {
  rd_line : shows cap (line r) (text (ed p)) (cur (ed p));
  rd_ins : insert_mode r = ins (ed p);
  rd_nav : history_nav r = nav p /\ -1 <= nav p;
  rd_draft : draft r = kept p
}.

Lemma edited_draws r w : exists w', edited r w = Some (None, r, w') /\ keys w' = keys w.
Proof. unfold edited. destruct (redraw_ok (line r) w) as (w' & -> & Hk). by exists w'. Qed.

Lemma set_line_ok cap src l t c : shows cap l t c -> (0 < cap)%nat ->
  exists l', set_line (Z.of_nat cap) src l = Some l' /\
    shows cap l' (take (cap - 1) (default [] src)) (length (take (cap - 1) (default [] src))).
Proof.
  intros [H1 _ _ _ _] Hcap. unfold set_line. replace (Z.to_nat (Z.of_nat cap - 1)) with (cap - 1)%nat by lia.
  set (s := take (cap - 1) (default [] src)). assert (length s < cap)%nat as Hs by (unfold s; rewrite length_take; lia).
  destruct (put_chars_spec s 0 (buf l) ltac:(lia)) as (a & E & L & Ha). change (Z.of_nat 0) with 0 in E. rewrite E. cbn [mbind option_bind].
  assert (holds a s) as Hh.
  { apply holds_intro; [lia|]. intros i Hi. rewrite Ha, decide_True by lia. f_equal. lia. }
  destruct (terminated a s Hh ltac:(lia)) as [E2 H2]. rewrite E2. cbn [mbind option_bind]. eexists. split; [done|].
  apply shows_intro; [rewrite length_insert; lia|done|lia].
Qed.

(** Removing the character at [c]. *)
Lemma remove_ok cap l t c : shows cap l t c -> forall n, (n < length t)%nat ->
  exists a1 a, shift_down (length t - S n) (Z.of_nat (S n)) (buf l) = Some a1 /\ aset a1 (len l - 1) 0 = Some a /\
    forall c', (c' < length t)%nat -> shows cap (Line a (len l - 1) (Z.of_nat c')) (take n t ++ drop (S n) t) c'.
Proof.
  intros HS n Hn. pose proof (shows_room _ _ _ _ HS). destruct HS as [H1 H2 H3 H4 H5].
  destruct (shift_down_remove (buf l) t n (holds_prefix _ _ _ H2) Hn) as (a1 & E1 & L1 & K1).
  set (t' := take n t ++ drop (S n) t) in *.
  assert (length t' = length t - 1)%nat as Hl by (unfold t'; rewrite length_app, length_take, length_drop; lia).
  destruct (terminated a1 t' K1 ltac:(lia)) as [E2 K2]. exists a1, (<[length t' := 0]> a1).
  replace (len l - 1) with (Z.of_nat (length t')) by lia. split_and!; [done|done|].
  intros c' Hc. apply shows_intro; [rewrite length_insert; lia|done|lia].
Qed.

(** Typing a character. *)
Lemma type_ok cap l e key : shows cap l (text e) (cur e) -> (length (text e) < cap - 1)%nat ->
  exists a1 n a, (if negb (ins e) && (cursor l <? len l)
                  then a ← aset (buf l) (cursor l) key; Some (a, len l)
                  else a ← shift_up (Z.to_nat (len l - cursor l)) (len l) (buf l);
                       a ← aset a (cursor l) key; Some (a, len l + 1)) = Some (a1, n) /\
    aset a1 n 0 = Some a /\ shows cap (Line a n (cursor l + 1)) (text (ed_type (cap - 1) key e)) (cur (ed_type (cap - 1) key e)).
Proof.
  intros HS Hroom. destruct HS as [H1 H2 H3 H4 H5]. pose proof (proj1 H2) as Hb. rewrite length_app in Hb. cbn in Hb.
  unfold ed_type. destruct (Nat.leb_spec (cap - 1) (length (text e))); [lia|].
  assert ((cursor l <? len l) = (cur e <? length (text e))%nat) as -> by lia. rewrite H3, H4.
  replace (Z.of_nat (cur e) + 1) with (Z.of_nat (S (cur e))) by lia.
  destruct (negb (ins e) && (cur e <? length (text e))%nat) eqn:E.
  - rewrite aset_nat by lia. cbn [mbind option_bind text cur].
    pose proof (holds_insert _ _ (cur e) key (holds_prefix _ _ _ H2) ltac:(lia)) as K.
    destruct (terminated _ _ K ltac:(rewrite !length_insert; lia)) as [E2 K2]. rewrite length_insert in E2, K2.
    eexists _, _, _. split_and!; [done|exact E2|].
    by split; cbn [buf len cursor]; rewrite ?length_insert; try done; lia.
  - destruct (shift_up_insert (buf l) (text e) (cur e) key (holds_prefix _ _ _ H2) ltac:(lia)) as (a1 & K1 & K2 & K3).
    replace (Z.to_nat (_ - Z.of_nat _)) with (length (text e) - cur e)%nat by lia. rewrite K1. cbn [mbind option_bind].
    rewrite aset_nat by lia. cbn [mbind option_bind text cur]. set (t' := take (cur e) (text e) ++ key :: drop (cur e) (text e)) in *.
    assert (length t' = S (length (text e))) as Hl by (unfold t'; rewrite length_app, length_take, length_cons, length_drop; lia).
    destruct (terminated _ t' K3 ltac:(rewrite length_insert; lia)) as [E2 K4].
    replace (Z.of_nat (length (text e)) + 1) with (Z.of_nat (length t')) by lia. eexists _, _, _. split_and!; [done|exact E2|].
    apply shows_intro; [rewrite !length_insert; lia|done|lia].
Qed.

(** One key other than Enter and the one that cancels, and no failure to read one. *)
Definition ordinary (key : Z) : Prop := 0 <= key /\ key <> NEWLINE /\ key <> CTRL_C.

Section Key.
Variables (cap : nat) (m : msh).
Hypothesis Hcap : (0 < cap)%nat /\ Z.of_nat cap < 2 ^ 31.
Hypothesis Hm : ring_ok m.

(** The turn continues with the prompt [p']. *)
Definition leads (p' : prompt) (w : W) (x : option (option Z * reader * W)) : Prop :=
  exists r' w', x = Some (None, r', w') /\ keys w' = keys w /\ reads cap r' p'.

Lemma leads_edited p' r w : reads cap r p' -> leads p' w (edited r w).
Proof. intros HR. destruct (edited_draws r w) as (w' & -> & Hk). by exists r, w'. Qed.

Lemma leads_same p r w : reads cap r p -> leads p w (Some (None, r, w)).
Proof. intros HR. by exists r, w. Qed.

Lemma leads_backspace p r w : reads cap r p ->
  leads (if (cur (ed p) =? 0)%nat then p else Prompt (ed_backspace (ed p)) (-1) (kept p)) w
    (let l := line r in
     if cursor l =? 0 then Some (None, r, w)
     else a ← shift_down (Z.to_nat (len l - cursor l)) (cursor l) (buf l);
          a ← aset a (len l - 1) 0;
          edited (Reader (Line a (len l - 1) (cursor l - 1)) (insert_mode r) (-1) (draft r)) w).
Proof.
  intros HR. pose proof HR as [HL HI [HN HN1] HD]. cbv zeta. rewrite (sh_cursor _ _ _ _ HL).
  unfold ed_backspace. destruct (cur (ed p)) as [|n] eqn:Ec; [by apply leads_same|].
  cbn [Nat.eqb]. destruct (Z.eqb_spec (Z.of_nat (S n)) 0); [lia|]. pose proof (sh_in _ _ _ _ HL) as Hin.
  destruct (remove_ok cap (line r) _ _ HL n ltac:(lia)) as (a1 & a & E1 & E2 & HS). pose proof (sh_len _ _ _ _ HL) as Hlen.
  replace (Z.to_nat (len (line r) - Z.of_nat (S n))) with (length (text (ed p)) - S n)%nat by lia.
  rewrite E1. cbn [mbind option_bind]. rewrite E2. cbn [mbind option_bind]. apply leads_edited.
  replace (Z.of_nat (S n) - 1) with (Z.of_nat n) by lia. split; cbn; [apply HS; lia|done|done|done].
Qed.

Lemma leads_delete p r w : reads cap r p ->
  leads (if (cur (ed p) <? length (text (ed p)))%nat then Prompt (ed_delete (ed p)) (-1) (kept p) else p) w
    (let l := line r in
     if len l <=? cursor l then Some (None, r, w)
     else a ← shift_down (Z.to_nat (len l - (cursor l + 1))) (cursor l + 1) (buf l);
          a ← aset a (len l - 1) 0;
          edited (Reader (Line a (len l - 1) (cursor l)) (insert_mode r) (-1) (draft r)) w).
Proof.
  intros HR. pose proof HR as [HL HI [HN HN1] HD]. cbv zeta. rewrite (sh_cursor _ _ _ _ HL).
  pose proof (sh_len _ _ _ _ HL) as Hlen. destruct (Nat.ltb_spec (cur (ed p)) (length (text (ed p)))) as [Hlt|Hge];
    destruct (Z.leb_spec (len (line r)) (Z.of_nat (cur (ed p)))); try lia; [|by apply leads_same].
  destruct (remove_ok cap (line r) _ _ HL (cur (ed p)) Hlt) as (a1 & a & E1 & E2 & HS).
  replace (Z.to_nat (len (line r) - (Z.of_nat (cur (ed p)) + 1))) with (length (text (ed p)) - S (cur (ed p)))%nat by lia.
  replace (Z.of_nat (cur (ed p)) + 1) with (Z.of_nat (S (cur (ed p)))) by lia.
  rewrite E1. cbn [mbind option_bind]. rewrite E2. cbn [mbind option_bind]. apply leads_edited.
  split; cbn; [apply HS; lia|done|done|done].
Qed.

Lemma leads_recall p r w src n d : reads cap r p -> -1 <= n ->
  leads (Prompt (recalled (cap - 1) (ed p) (default [] src)) n d) w
    (l ← set_line (Z.of_nat cap) src (line r); edited (Reader l (insert_mode r) n d) w).
Proof using Hcap.
  intros [HL HI [HN HN1] HD] Hn. destruct (set_line_ok cap src _ _ _ HL ltac:(lia)) as (l' & -> & HS). cbn [mbind option_bind].
  apply leads_edited. by split.
Qed.

Lemma leads_type p r w key : reads cap r p ->
  leads (if (cap - 1 <=? length (text (ed p)))%nat then p else Prompt (ed_type (cap - 1) key (ed p)) (-1) (kept p)) w
    (let l := line r in
     if Z.of_nat cap <=? len l + 1 then Some (None, r, w)
     else '(a, n) ← (if negb (insert_mode r) && (cursor l <? len l)
                     then a ← aset (buf l) (cursor l) key; Some (a, len l)
                     else a ← shift_up (Z.to_nat (len l - cursor l)) (len l) (buf l);
                          a ← aset a (cursor l) key; Some (a, len l + 1));
          a ← aset a n 0;
          edited (Reader (Line a n (cursor l + 1)) (insert_mode r) (-1) (draft r)) w).
Proof.
  intros HR. pose proof HR as [HL HI [HN HN1] HD]. cbv zeta. pose proof (sh_len _ _ _ _ HL) as Hlen.
  destruct (Nat.leb_spec (cap - 1) (length (text (ed p)))) as [Hf|Hr], (Z.leb_spec (Z.of_nat cap) (len (line r) + 1)); try lia;
    [by apply leads_same|].
  destruct (type_ok cap (line r) (ed p) key HL ltac:(lia)) as (a1 & n & a & E1 & E2 & HS). rewrite HI.
  rewrite E1. cbn [mbind option_bind]. rewrite E2. cbn [mbind option_bind]. apply leads_edited.
  split; cbn; [done| |done|done]. unfold ed_type. by repeat case_match.
Qed.

Lemma leads_up p r w : reads cap r p ->
  leads (match recent m with
         | [] => p
         | _ => let n := if nav p + 1 <? Z.of_nat (length (recent m)) then nav p + 1 else nav p in
                Prompt (recalled (cap - 1) (ed p) (default [] (recent m !! Z.to_nat n))) n (if nav p <? 0 then take 191 (text (ed p)) else kept p)
         end) w
    (if g_history_count m =? 0 then Some (None, r, w)
     else let draft := if history_nav r <? 0 then fst (u_copy (Z.to_nat LINE_CAP) (line_text (line r))) else draft r in
          let nav := if history_nav r + 1 <? g_history_count m then history_nav r + 1 else history_nav r in
          l ← set_line (Z.of_nat cap) (history_mem_get m nav) (line r);
          edited (Reader l (insert_mode r) nav draft) w).
Proof using Hcap Hm.
  intros HR. pose proof HR as [HL HI [HN HN1] HD]. destruct Hm as (_ & _ & Hc). pose proof (recent_length m) as Hrl.
  destruct (Z.eqb_spec (g_history_count m) 0) as [E0|E0].
  { destruct (recent m); [by apply leads_same|cbn in Hrl; lia]. }
  assert (Z.of_nat (length (recent m)) = g_history_count m) as -> by lia.
  destruct (recent m) as [|h hs] eqn:Eh; [cbn in Hrl; lia|]. rewrite <- Eh. cbv zeta. rewrite HN, HD.
  set (n := if nav p + 1 <? g_history_count m then _ else _).
  assert (0 <= n) by (unfold n; destruct (Z.ltb_spec (nav p + 1) (g_history_count m)); lia).
  rewrite get_recent by done.
  assert (line_text (line r) = text (ed p)) as ->.
  { unfold line_text. rewrite (sh_len _ _ _ _ HL), Nat2Z.id. apply (holds_prefix _ _ _ (sh_text _ _ _ _ HL)). }
  change (fst (u_copy (Z.to_nat LINE_CAP) (text (ed p)))) with (take 191 (text (ed p))). apply leads_recall; [done|lia].
Qed.

Lemma leads_down p r w : reads cap r p ->
  leads (if nav p <? 0 then p
         else let n := nav p - 1 in
              Prompt (recalled (cap - 1) (ed p) (if n <? 0 then kept p else default [] (recent m !! Z.to_nat n))) n (kept p)) w
    (if history_nav r <? 0 then Some (None, r, w)
     else let nav := history_nav r - 1 in
          l ← set_line (Z.of_nat cap) (if nav <? 0 then Some (draft r) else history_mem_get m nav) (line r);
          edited (Reader l (insert_mode r) nav (draft r)) w).
Proof using Hcap.
  intros HR. pose proof HR as [HL HI [HN HN1] HD]. rewrite HN, HD. cbv zeta.
  destruct (Z.ltb_spec (nav p) 0); [by apply leads_same|].
  pose proof (leads_recall p r w (if nav p - 1 <? 0 then Some (kept p) else history_mem_get m (nav p - 1)) (nav p - 1) (kept p) HR ltac:(lia)) as H1.
  destruct (Z.ltb_spec (nav p - 1) 0); [done|]. by rewrite get_recent in * by lia.
Qed.

(** One turn of the loop. *)
Lemma key_turn key p r w : ordinary key -> reads cap r p ->
  exists p', leads p' w (read_key (Z.of_nat cap) m key r w) /\ key_effect (cap - 1) (recent m) key p p'.
Proof using Hcap Hm.
  intros (Hk0 & Hk1 & Hk2) HR. pose proof HR as [HL HI [HN HN1] HD]. unfold read_key, key_effect.
  destruct (Z.ltb_spec key 0); [lia|]. destruct (Z.eqb_spec key NEWLINE); [done|]. destruct (Z.eqb_spec key CTRL_C); [done|].
  destruct (key =? BACKSPACE); [eexists; split; [by apply leads_backspace|done]|].
  destruct (key =? TTY_KEY_DELETE); [eexists; split; [by apply leads_delete|done]|].
  destruct (key =? TTY_KEY_LEFT).
  { eexists. split; [|done]. apply leads_edited. split; cbn; [|done|done|done]. destruct HL as [L1 L2 L3 L4 L5].
    split; cbn; try done; [|lia]. destruct (Z.ltb_spec 0 (cursor (line r))); lia. }
  destruct (key =? TTY_KEY_RIGHT).
  { eexists. split; [|done]. apply leads_edited. split; cbn [line insert_mode history_nav draft ed nav kept]; [|done|done|done].
    destruct HL as [L1 L2 L3 L4 L5]. split; cbn [buf len cursor text cur ed_right ed]; try done; destruct (Nat.ltb_spec (cur (ed p)) (length (text (ed p)))); try lia.
    all: destruct (Z.ltb_spec (cursor (line r)) (len (line r))); lia. }
  destruct (key =? TTY_KEY_INSERT).
  { eexists. split; [|done]. apply leads_same. split; cbn; [done|by rewrite HI|done|done]. }
  destruct (key =? TTY_KEY_UP); [eexists; split; [by apply leads_up|done]|].
  destruct (key =? TTY_KEY_DOWN); [eexists; split; [by apply leads_down|done]|].
  destruct (key =? TAB).
  { destruct (complete_line_ok cap (line r) _ _ w HL ltac:(lia)) as (l' & w1 & t' & c' & -> & Hk & HS & HC). cbn [mbind option_bind].
    exists (Prompt (Ed t' c' (ins (ed p))) (nav p) (kept p)). split; [|done].
    destruct (leads_edited (Prompt (Ed t' c' (ins (ed p))) (nav p) (kept p)) (Reader l' (insert_mode r) (history_nav r) (draft r)) w1)
      as (r' & w' & E & Hk' & HR'); [by split|]. exists r', w'. split_and!; [done|congruence|done]. }
  destruct ((0 <? key) && (key <? 128)); [eexists; split; [by apply leads_type|done]|].
  eexists. split; [by apply leads_same|done].
Qed.

(** The prompts a sequence of keys leads to. *)
Inductive pressed : list Z -> prompt -> prompt -> Prop :=
| pressed_nil p : pressed [] p p
| pressed_cons key ks p p' p'' : key_effect (cap - 1) (recent m) key p p' -> pressed ks p' p'' -> pressed (key :: ks) p p''.

(** What [read_line] returns after the key [last], which is not ordinary. *)
Definition answer (last : Z) (p : prompt) : Z :=
  if last <? 0 then -1 else if last =? NEWLINE then Z.of_nat (length (text (ed p))) else 0.

(** The turn of the last key. *)
Lemma last_turn last p r w : ~ ordinary last -> reads cap r p ->
  exists r' w', read_key (Z.of_nat cap) m last r w = Some (Some (answer last p), r', w') /\ keys w' = keys w /\
    (last = NEWLINE -> line_text (line r') = text (ed p)).
Proof using Hcap.
  intros Hl HR. pose proof (rd_line _ _ _ HR) as HL. pose proof (shows_room _ _ _ _ HL) as Hroom. destruct HL as [L1 L2 L3 L4 L5].
  unfold read_key, answer. destruct (Z.ltb_spec last 0).
  { exists r, w. split_and!; try done. intros ->. by unfold NEWLINE in *. }
  destruct (Z.eqb_spec last NEWLINE) as [->|].
  - destruct (redraw_ok (Line (buf (line r)) (len (line r)) (len (line r))) w) as (w2 & -> & Hk2). cbn [mbind option_bind].
    destruct (puts_returns [NEWLINE] w2) as (w3 & -> & Hk3). cbn [mbind option_bind].
    destruct (terminated (buf (line r)) (text (ed p)) (holds_prefix _ _ _ L2) ltac:(lia)) as [E4 K4].
    rewrite L3, E4. cbn [mbind option_bind]. eexists _, w3. split; [reflexivity|]. split; [congruence|]. intros _.
    unfold line_text. cbn. rewrite Nat2Z.id. apply (holds_prefix _ _ _ K4).
  - destruct (Z.eqb_spec last CTRL_C) as [->|]; [|destruct Hl; by split_and!].
    rewrite (aset_nat _ 0) by lia. cbn [mbind option_bind].
    match goal with |- context [redraw_line ?l w] => destruct (redraw_ok l w) as (w2 & -> & Hk2) end. cbn [mbind option_bind].
    destruct (puts_returns (cstr "^C" ++ [NEWLINE]) w2) as (w3 & -> & Hk3). cbn [mbind option_bind].
    eexists _, w3. split; [reflexivity|]. split; [congruence|done].
Qed.

Lemma keys_loop ks : forall fuel last rest p r w, Forall ordinary ks -> ~ ordinary last -> keys w = ks ++ last :: rest ->
  (length ks < fuel)%nat -> reads cap r p ->
  exists p' t w', pressed ks p p' /\ keys w' = rest /\ (last = NEWLINE -> t = text (ed p')) /\
    read_loop fuel (Z.of_nat cap) m r w = Some (answer last p', t, w').
Proof using Hcap Hm.
  induction ks as [|key ks IH]; intros [|fuel] last rest p r w Ho Hlast Hk Hf HR; cbn in Hf; try lia; cbn [read_loop].
  - destruct (law_getkey last rest w Hk) as (w1 & -> & Hk1). cbn [mbind option_bind].
    destruct (last_turn last p r w1 Hlast HR) as (r' & w2 & -> & Hk2 & Ht). cbn [mbind option_bind].
    exists p, (line_text (line r')), w2. split_and!; [constructor|congruence|done|done].
  - apply Forall_cons in Ho as [Hk0 Ho]. destruct (law_getkey key (ks ++ last :: rest) w Hk) as (w1 & -> & Hk1).
    cbn [mbind option_bind]. destruct (key_turn key p r w1 Hk0 HR) as (p1 & (r1 & w2 & -> & Hk2 & HR1) & HE). cbn [mbind option_bind].
    destruct (IH fuel last rest p1 r1 w2 Ho Hlast ltac:(congruence) ltac:(lia) HR1) as (p' & t & w' & HP & Hk' & Ht & E).
    exists p', t, w'. split_and!; [by econstructor|done..].
Qed.

End Key.

(** C8: Reading a line at the shell's prompt. [read_line] returns at the first Enter, the first Ctrl-C or the
    first failure to read a key, whichever comes first; it has taken the keys up to that one and no more, and
    never touched anything outside the caller's array of [cap] characters. After a failure it answers -1 and
    after Ctrl-C 0. After Enter it answers the length of its result, which is the text that the keys before
    make by their meaning: characters are inserted or overwrite, or are ignored when the line is full;
    Backspace, Delete and the arrows edit; the up and down keys walk through the history and back to the line
    that was left, of which the first 191 characters are kept; and Tab only adds to the word before the
    cursor, unless that word is longer than 95 characters. *)
Theorem read_line_returns_edited_text cap m a ks last rest fuel w :
  length a = cap -> (0 < cap)%nat -> Z.of_nat cap < 2 ^ 31 -> ring_ok m -> Forall ordinary ks -> ~ ordinary last ->
  keys w = ks ++ last :: rest -> (length ks < fuel)%nat ->
  exists p t w', pressed cap m ks (Prompt (Ed [] 0 true) (-1) []) p /\ keys w' = rest /\
    (last = NEWLINE -> t = text (ed p)) /\
    read_line fuel (Z.of_nat cap) m a w = Some (answer last p, t, w').
Proof.
  intros Ha Hc1 Hc2 Hm Ho Hlast Hk Hf. unfold read_line. rewrite (aset_nat a 0) by lia. cbn [mbind option_bind]. unfold ignore.
  destruct (law_begin w) as (rc & w1 & -> & Hk1). cbn [mbind option_bind].
  apply keys_loop; [done|done|done|done|congruence|done|]. split; cbn; [|done|done|done].
  split; cbn; [by rewrite length_insert| |done|done|done].
  destruct a as [|x a]; [cbn in Ha; lia|]. split; cbn; [lia|done].
Qed.

End Keys.
(** ** A terminal with keys waiting and one program in every directory *)

Definition nothing (w : list Z) : option (Z * list Z) := Some (0, w).

#[export] Instance terminal : shell_os (list Z) := {|
  os_open _ _ := nothing; os_close _ := nothing; os_dup _ := nothing; os_dup2 _ _ := nothing;
  os_read _ _ w := Some (0, [], w);
  os_write _ _ := nothing; os_seek_end _ := nothing; os_chdir _ := nothing;
  os_getcwd _ w := Some (None, w);
  os_getdents _ _ w := Some (1, [(cstr "cat.prg", 2)], w);
  os_execve _ _ := nothing;
  os_getkey w := match w with [] => None | k :: ks => Some (k, ks) end;
  os_line_begin := nothing; os_line_redraw _ _ _ := nothing
|}.

#[export] Instance terminal_keys : shell_keys (W := list Z).
Proof.
  apply (ShellKeys (fun w => w)).
  - intros k ks w ->. by eexists.
  - intros fd s w. by eexists _, _.
  - intros w. by eexists _, _.
  - intros s n c w. by eexists _, _.
  - intros path n w. by eexists _, _, _.
Defined.

(** [c], [x], Backspace, [a], Tab and Enter. *)
Lemma read_line_returns_edited_text_witness :
  exists p, pressed 192 initial_msh [99; 120; 8; 97; 9] (Prompt (Ed [] 0 true) (-1) []) p /\ text (ed p) = cstr "cat".
Proof.
  destruct (read_line_returns_edited_text 192 initial_msh (replicate 192 0) [99; 120; 8; 97; 9] 10 [] 6 [99; 120; 8; 97; 9; 10])
    as (p & t & w' & HP & _ & Ht & E).
  - reflexivity.
  - lia.
  - lia.
  - split; [reflexivity|]. cbn. lia.
  - repeat constructor; discriminate.
  - intros (_ & H & _). by apply H.
  - reflexivity.
  - cbn. lia.
  - exists p. split; [exact HP|].
    assert (read_line 6 192 initial_msh (replicate 192 0) [99; 120; 8; 97; 9; 10] = Some (3, cstr "cat", [])) as E' by reflexivity.
    change (Z.of_nat 192) with 192 in E. rewrite E' in E. injection E as _ E _. rewrite <- (Ht eq_refl). symmetry. exact E.
Defined.

End MshEdit.
