(* ===== verification/MshProps.v ===== *)
(** * The promises of the shell

    Commands run in the order and under the conditions their operators say, redirections
    are undone after every command, the line editor stays inside its buffer and does
    what its keys mean, and the history holds the last lines. *)

From S2P Require Import Prelude FsTypes Vfs LineEdit MshParse MshRun MshLine.
From stdpp Require Import base list option list_numbers strings.
From Stdlib Require Import ZArith Lia ZifyBool.
Import FsTypes Vfs LineEdit MshParse MshRun MshLine.
Open Scope Z_scope.

Module MshProps.

(** ** Operators *)

Inductive connective := Always | OnSuccess | OnFailure.

Definition op_word (c : connective) : list Z :=
  match c with Always => cstr ";" | OnSuccess => cstr "&&" | OnFailure => cstr "||" end.

(** Whether the next command runs after one that ended with [last]. *)
Definition applies (c : connective) (last : Z) : bool :=
  match c with Always => true | OnSuccess => last =? 0 | OnFailure => negb (last =? 0) end.

Section Commands.
Context {W : Type} `{!shell_os W}.
Variable g_path : list Z.

(** The meaning of a line: every command with the connective before it. *)
Fixpoint eval (cmds : list (connective * list token)) (last : Z) (w : W) : option (Z * bool * W) :=
  match cmds with
  | [] => Some (last, false, w)
  | (c, seg) :: rest =>
      '(last, stop, w) ← (if applies c last then run_segment g_path seg w else Some (last, false, w));
      if stop : bool then Some (last, true, w) else eval rest last w
  end.

(** The tokens of further commands. *)
Definition tail_tokens (cmds : list (connective * list token)) : list token :=
  concat (map (fun x => Token (op_word (fst x)) false :: snd x) cmds).

Definition command_ok (x : connective * list token) : Prop :=
  snd x <> [] /\ Forall (fun t => is_operator (word t) = false) (snd x).

Lemma split_tail seg cmds :
  Forall (fun t => is_operator (word t) = false) seg -> split_segment (seg ++ tail_tokens cmds) = (seg, tail_tokens cmds).
Proof.
  induction 1 as [|t seg Ht _ IH]; cbn [app split_segment].
  - destruct cmds as [|[c s] cmds]; [done|]. cbn. by destruct c.
  - by rewrite Ht, IH.
Qed.

Lemma operator_applies c last :
  (if u_streq (op_word c) (cstr "&&") then last =? 0 else if u_streq (op_word c) (cstr "||") then negb (last =? 0) else true) =
  applies c last.
Proof. by destruct c. Qed.

Lemma tail_cons c seg cmds : tail_tokens ((c, seg) :: cmds) = Token (op_word c) false :: seg ++ tail_tokens cmds.
Proof. done. Qed.

Lemma execute_eval cmds : forall fuel seg c last w,
  command_ok (c, seg) -> Forall command_ok cmds -> (length (tail_tokens cmds) < fuel)%nat ->
  execute_loop g_path fuel (seg ++ tail_tokens cmds) last (applies c last) w = eval ((c, seg) :: cmds) last w.
Proof.
  induction cmds as [|[c' seg'] cmds IH]; intros [|fuel] seg c last w [Hne Hseg] Hok Hf; try (cbn in Hf; lia); cbn [snd] in *.
  all: cbn [execute_loop eval]; rewrite split_tail by done.
  all: destruct seg as [|t seg]; [done|]; cbn [app];
    destruct (if applies c last then _ else _) as [[[last' stop] w']|]; [|done]; cbn [mbind option_bind];
    destruct stop; [done|].
  - done.
  - apply Forall_cons in Hok as [Hok' Hok]. rewrite tail_cons in *.
    destruct (seg' ++ tail_tokens cmds) as [|t2 r] eqn:E.
    { apply app_eq_nil in E as [-> _]. by destruct Hok' as [[] _]. }
    cbn [word]. rewrite operator_applies, <- E. apply IH; [done|done|]. rewrite <- E in Hf. cbn in Hf. rewrite length_app in Hf. lia.
Qed.

(** C26: Commands joined by operators. For every line made of non-empty commands joined by the operators [;],
    [&&] and [||], [execute_tokens] does exactly this: it runs the first command; it runs each further one
    always after [;], only if the last command that ran succeeded after [&&], only if that one failed
    after [||]; it stops when a command asks to leave the shell; and its result is the status of the last
    command that ran. *)
Theorem execute_tokens_meaning seg cmds w :
  command_ok (Always, seg) -> Forall command_ok cmds ->
  execute_tokens g_path (seg ++ tail_tokens cmds) w = eval ((Always, seg) :: cmds) 0 w.
Proof.
  intros Hs Hc. unfold execute_tokens. change true with (applies Always 0).
  apply execute_eval; [done|done|]. rewrite length_app. lia.
Qed.

End Commands.

(** ** Redirections *)

(** What the shell relies on: which open file is behind a descriptor, and how the calls
    change that while the system is [ok].  Opening and duplicating use a free descriptor;
    making an open file a standard stream fails only where closing the file that was there
    fails, and then the stream is closed.  [closes] says that no close fails. *)
Class shell_files (W F : Type) `{!shell_os W} := ShellFiles {
  ok : W -> Prop;
  closes : Prop;
  view : W -> Z -> option F;
  law_open path flags w rc w' : ok w -> os_open path flags w = Some (rc, w') ->
    ok w' /\
    if rc <? 0 then forall fd, view w' fd = view w fd
    else view w rc = None /\ (exists f, view w' rc = Some f) /\ forall fd, fd <> rc -> view w' fd = view w fd;
  law_dup old w rc w' : ok w -> os_dup old w = Some (rc, w') -> 0 <= old <= 2 ->
    ok w' /\
    if rc <? 0 then forall fd, view w' fd = view w fd
    else view w rc = None /\ view w' rc = view w old /\ forall fd, fd <> rc -> view w' fd = view w fd;
  law_dup2 old new w rc w' : ok w -> os_dup2 old new w = Some (rc, w') -> view w old <> None -> 0 <= new <= 2 -> old <> new ->
    ok w' /\ (if rc <? 0 then view w' new = None /\ ~ closes else view w' new = view w old) /\
    forall fd, fd <> new -> view w' fd = view w fd;
  law_close old w rc w' : ok w -> os_close old w = Some (rc, w') -> view w old <> None ->
    ok w' /\ view w' old = None /\ forall fd, fd <> old -> view w' fd = view w fd;
  law_write old bytes w rc w' : ok w -> os_write old bytes w = Some (rc, w') -> ok w' /\ forall fd, view w' fd = view w fd;
  law_chdir path w rc w' : ok w -> os_chdir path w = Some (rc, w') -> ok w' /\ forall fd, view w' fd = view w fd;
  law_getdents path n w rc es w' : ok w -> os_getdents path n w = Some (rc, es, w') -> ok w' /\ forall fd, view w' fd = view w fd;
  law_execve path argv w rc w' : ok w -> os_execve path argv w = Some (rc, w') -> ok w' /\ forall fd, view w' fd = view w fd
}.

Section Redirect.
Context {W F : Type} `{!shell_os W} `{!shell_files W F}.

Definition same_view (w w' : W) : Prop := ok w' /\ forall fd, view w' fd = view w fd.

Lemma same_view_refl w : ok w -> same_view w w.
Proof. by intros H. Qed.

Lemma same_view_trans w w1 w2 : same_view w w1 -> same_view w1 w2 -> same_view w w2.
Proof. intros [H1 H2] [G1 G2]. split; [done|]. intros fd. by rewrite G2. Qed.

Lemma saved_set t t' v st : 0 <= t <= 2 -> 0 <= t' <= 2 ->
  saved_at t' (set_saved t v st) = if decide (t' = t) then v else saved_at t' st.
Proof.
  intros Ht Ht'. destruct st as [[a b] c]. unfold saved_at, set_saved.
  destruct (Z.eqb_spec t 0), (Z.eqb_spec t 1), (Z.eqb_spec t' 0), (Z.eqb_spec t' 1), (decide (t' = t)); subst; done || lia.
Qed.

(** Tables of descriptors. *)
Definition upd (v : Z -> option F) (x : Z) (y : option F) : Z -> option F := fun z => if decide (z = x) then y else v z.

(** The streams that are redirected. *)
Variable hit : Z -> Prop.

(** The files the standard streams had in [v0] are kept as [st] says, behind descriptors
    that were free in [v0]; a stream that is not redirected now has its file, or lost it to
    a close that failed. *)
Record kept (v0 v : Z -> option F) (st : Z * Z * Z) : Prop := {
  kp_before t : 0 <= t <= 2 -> v0 t <> None;
  kp_same t : 0 <= t <= 2 -> saved_at t st < 0 -> v t = v0 t \/ hit t /\ v t = None /\ ~ closes;
  kp_saved t : 0 <= t <= 2 -> 0 <= saved_at t st -> hit t /\ v (saved_at t st) = v0 t /\ v0 (saved_at t st) = None;
  kp_apart t t' : 0 <= t <= 2 -> 0 <= t' <= 2 -> 0 <= saved_at t st -> saved_at t st = saved_at t' st -> t = t';
  kp_rest fd : ~ 0 <= fd <= 2 -> (forall t, 0 <= t <= 2 -> 0 <= saved_at t st -> saved_at t st <> fd) -> v fd = v0 fd
}.

(** The streams are open too, as long as no redirection has failed. *)
Definition redirected (v0 v : Z -> option F) (st : Z * Z * Z) : Prop :=
  kept v0 v st /\ forall t, 0 <= t <= 2 -> v t <> None.

Lemma redirected_init v : (forall t, 0 <= t <= 2 -> v t <> None) -> redirected v v msh_redir_init.
Proof.
  intros H. split; [|done]. split; try done.
  - intros t _ _. by left.
  - intros t Ht. unfold saved_at, msh_redir_init. repeat case_match; lia.
  - intros t t' Ht Ht'. unfold saved_at, msh_redir_init. repeat case_match; lia.
Qed.

Lemma kept_ext v0 v v' st : (forall x, v' x = v x) -> kept v0 v st -> kept v0 v' st.
Proof. intros E [H1 H2 H3 H4 H5]. split; try done; intros; rewrite E; auto. Qed.

Lemma redirected_ext v0 v v' st : (forall x, v' x = v x) -> redirected v0 v st -> redirected v0 v' st.
Proof. intros E [H1 H2]. split; [by eapply kept_ext|]. intros t Ht. rewrite E. by apply H2. Qed.

(** A free descriptor is neither a standard stream nor one of the kept ones. *)
Lemma free_descriptor v0 v st fd : redirected v0 v st -> v fd = None ->
  ~ 0 <= fd <= 2 /\ (forall t, 0 <= t <= 2 -> 0 <= saved_at t st -> saved_at t st <> fd) /\ v0 fd = None.
Proof.
  intros [[H1 H3 H4 H5 H6] H2] Hv.
  assert (~ 0 <= fd <= 2) as Hn by (intros Hf; by apply (H2 fd)).
  assert (forall t, 0 <= t <= 2 -> 0 <= saved_at t st -> saved_at t st <> fd) as Hs.
  { intros t Ht Hs <-. destruct (H4 t Ht Hs) as (_ & E & _). rewrite Hv in E. by apply (H1 t). }
  split_and!; [done|done|]. by rewrite <- H6.
Qed.

(** The file of a stream is kept behind a free descriptor. *)
Lemma redirected_save v0 v st t d : hit t -> 0 <= t <= 2 -> saved_at t st < 0 -> 0 <= d -> v d = None ->
  redirected v0 v st -> redirected v0 (upd v d (v t)) (set_saved t d st).
Proof.
  intros Hh Ht Hs Hd Hv HR. destruct (free_descriptor v0 v st d HR Hv) as (F1 & F2 & F3).
  destruct HR as [[H1 H3 H4 H5 H6] H2]. split; [split; try done|].
  - intros x Hx. rewrite saved_set by done. unfold upd. rewrite (decide_False (P := x = d)) by lia.
    case_decide; [lia|]. by apply H3.
  - intros x Hx. rewrite saved_set by done. unfold upd. destruct (decide (x = t)) as [->|]; intros Hsx.
    + rewrite decide_True by done. split_and!; [done| |done]. destruct (H3 t Ht Hs) as [?|(_ & E & _)]; [done|]. by destruct (H2 t Ht).
    + rewrite decide_False by (by apply F2). by apply H4.
  - intros x y Hx Hy. rewrite !saved_set by done. repeat case_decide; subst; try done; intros Hp E.
    + exfalso. apply (F2 y Hy); lia.
    + exfalso. apply (F2 x Hx); lia.
    + by apply H5.
  - intros x Hx Hk. unfold upd. case_decide as E.
    + exfalso. apply (Hk t Ht); rewrite saved_set, decide_True by done; lia.
    + apply H6; [done|]. intros y Hy Hp. specialize (Hk y Hy). rewrite saved_set in Hk by done.
      case_decide; [subst; lia|]. by apply Hk.
  - intros x Hx. unfold upd. rewrite decide_False by lia. by apply H2.
Qed.

(** A number below 0 in place of a descriptor means that nothing is kept. *)
Lemma redirected_unsaved v0 v st t d : 0 <= t <= 2 -> saved_at t st < 0 -> d < 0 ->
  redirected v0 v st -> redirected v0 v (set_saved t d st).
Proof.
  intros Ht Hs Hd [[H1 H3 H4 H5 H6] H2]. split; [split; try done|done].
  - intros x Hx. rewrite saved_set by done. case_decide; [subst; intros _; by apply H3|by apply H3].
  - intros x Hx. rewrite saved_set by done. case_decide; [lia|by apply H4].
  - intros x y Hx Hy. rewrite !saved_set by done. repeat case_decide; subst; try done; try lia. by apply H5.
  - intros x Hx Hk. apply H6; [done|]. intros y Hy Hp. specialize (Hk y Hy). rewrite saved_set in Hk by done.
    case_decide; [subst; lia|]. by apply Hk.
Qed.

(** A stream whose file is kept gets another one, or none. *)
Lemma kept_switch v0 v st t y : 0 <= t <= 2 -> 0 <= saved_at t st -> kept v0 v st -> kept v0 (upd v t y) st.
Proof.
  intros Ht Hs [H1 H3 H4 H5 H6]. split; try done.
  - intros x Hx Hsx. unfold upd. case_decide; [subst; lia|]. by apply H3.
  - intros x Hx Hsx. unfold upd. destruct (H4 x Hx Hsx) as (E0 & E1 & E2). rewrite decide_False; [done|].
    intros E. rewrite E in E2. by apply (H1 t).
  - intros x Hx Hk. unfold upd. rewrite decide_False by lia. by apply H6.
Qed.

Lemma redirected_switch v0 v st t f : 0 <= t <= 2 -> 0 <= saved_at t st ->
  redirected v0 v st -> redirected v0 (upd v t (Some f)) st.
Proof.
  intros Ht Hs [HK H2]. split; [by apply kept_switch|]. intros x Hx. unfold upd. case_decide; [done|]. by apply H2.
Qed.

(** A stream gets its file back, or loses it to a close that fails. *)
Lemma kept_undo v0 v st t y : 0 <= t <= 2 -> 0 <= saved_at t st -> kept v0 v st ->
  y = v (saved_at t st) \/ y = None /\ ~ closes ->
  kept v0 (upd (upd v t y) (saved_at t st) None) (set_saved t (-1) st).
Proof.
  intros Ht Hs [H1 H3 H4 H5 H6] Hy. destruct (H4 t Ht Hs) as (E0 & E1 & E2). rewrite E1 in Hy.
  assert (forall x, 0 <= x <= 2 -> x <> saved_at t st) as Hst by (intros x Hx ->; by apply (H1 _ Hx)).
  split; try done.
  - intros x Hx. rewrite saved_set by done. unfold upd. rewrite (decide_False (P := x = saved_at t st)) by (by apply Hst).
    case_decide; [subst; intros _; destruct Hy as [?|[??]]; auto|by apply H3].
  - intros x Hx. rewrite saved_set by done. case_decide as Ex; [lia|]. intros Hsx. destruct (H4 x Hx Hsx) as (E5 & E3 & E4).
    unfold upd. rewrite !decide_False; [done| |].
    + intros E. rewrite E in E4. by apply (H1 t).
    + intros E. apply Ex. symmetry. by apply (H5 t x).
  - intros x z Hx Hz. rewrite !saved_set by done. repeat case_decide; subst; try done; try lia. by apply H5.
  - intros x Hx Hk. unfold upd. case_decide as Ed; [by subst|]. rewrite decide_False by lia. apply H6; [done|].
    intros z Hz Hp. specialize (Hk z Hz). rewrite saved_set in Hk by done. case_decide; [subst; done|]. by apply Hk.
Qed.

(** Nothing is kept any more: every descriptor has its file, but for lost streams. *)
Definition undone (v0 v : Z -> option F) : Prop :=
  forall fd, v fd = v0 fd \/ 0 <= fd <= 2 /\ hit fd /\ v fd = None /\ ~ closes.

Lemma kept_done v0 v st : (forall t, 0 <= t <= 2 -> saved_at t st < 0) -> kept v0 v st -> undone v0 v.
Proof.
  intros Hs [H1 H3 H4 H5 H6] fd. destruct (decide (0 <= fd <= 2)) as [Hf|Hf].
  - destruct (H3 fd Hf (Hs fd Hf)); [by left|by right].
  - left. apply H6; [done|]. intros t Ht Hp. specialize (Hs t Ht). lia.
Qed.

Lemma redir_target_range op target flags : redir_target op = Some (target, flags) -> 0 <= target <= 2.
Proof.
  unfold redir_target, STDIN_FILENO, STDOUT_FILENO, STDERR_FILENO. intros H. repeat case_match; simplify_eq; lia.
Qed.

Lemma ignore_close fd w w' : ok w -> ignore (os_close fd) w = Some w' -> view w fd <> None ->
  ok w' /\ forall x, view w' x = upd (view w) fd None x.
Proof.
  intros Hok. unfold ignore. destruct (os_close fd w) as [[rc w1]|] eqn:E; [|done]. cbn [mbind option_bind]. intros [= <-] Hv.
  destruct (law_close fd w rc w1 Hok E Hv) as (H0 & H1 & H2). split; [done|]. intros x.
  unfold upd. case_decide; [by subst|by apply H2].
Qed.

(** The copy of the stream that a redirection makes first; [fd] is the file that was
    opened, and the table is the one without it. *)
Lemma save_step v0 st t fd w st' w' : hit t -> 0 <= t <= 2 -> fd <> t -> ok w -> view w fd <> None ->
  redirected v0 (upd (view w) fd None) st ->
  (if saved_at t st =? -1 then '(d, w) ← os_dup t w; Some (set_saved t d st, w) else Some (st, w)) = Some (st', w') ->
  ok w' /\ redirected v0 (upd (view w') fd None) st' /\ view w' fd = view w fd.
Proof.
  intros Hh Ht Hfd Hok Hf HR. destruct (Z.eqb_spec (saved_at t st) (-1)) as [Hs|Hs]; [|by intros [= <- <-]].
  destruct (os_dup t w) as [[d w1]|] eqn:Ed; [|done]. cbn [mbind option_bind]. intros [= <- <-].
  destruct (law_dup t w d w1 Hok Ed Ht) as [Hok1 Hd]. destruct (Z.ltb_spec d 0) as [Hd0|Hd0].
  - split_and!; [done| |by apply Hd]. apply (redirected_ext _ (upd (view w) fd None)); [intros x; unfold upd; by rewrite Hd|].
    apply redirected_unsaved; [done|lia|done|done].
  - destruct Hd as (D1 & D2 & D4). assert (d <> fd) by (intros ->; done). split_and!; [done| |by apply D4].
    apply (redirected_ext _ (upd (upd (view w) fd None) d (upd (view w) fd None t))).
    + intros x. unfold upd. rewrite (decide_False (P := t = fd)) by done. repeat case_decide; subst; try done. by apply D4.
    + apply redirected_save; [done|done|lia|done|unfold upd; by rewrite decide_False|done].
Qed.

Lemma apply_redirected v0 st op path w rc st' w' : ok w -> (forall t fl, redir_target op = Some (t, fl) -> hit t) ->
  redirected v0 (view w) st -> msh_redir_apply st op path w = Some (rc, st', w') ->
  ok w' /\ kept v0 (view w') st' /\ (0 <= rc -> redirected v0 (view w') st').
Proof.
  intros Hok Hhit HR. pose proof (proj1 HR) as HK. unfold msh_redir_apply.
  destruct (redir_target op) as [[t flags]|] eqn:Et; [|by intros [= <- <- <-]].
  apply redir_target_range in Et as Ht. destruct (os_open path flags w) as [[fd w1]|] eqn:Eo; [|done]. cbn [mbind option_bind].
  destruct (law_open path flags w fd w1 Hok Eo) as [Hok1 Ho]. destruct (Z.ltb_spec fd 0) as [Hneg|Hfd].
  { intros [= <- <- <-]. split_and!; [done|by eapply kept_ext|done]. }
  destruct Ho as (Hfree & [f Hf] & Hsame). destruct (free_descriptor v0 (view w) st fd HR Hfree) as (F1 & _).
  assert (redirected v0 (upd (view w1) fd None) st) as HR1.
  { apply (redirected_ext _ (view w)); [|done]. intros x. unfold upd. case_decide; [by subst|by apply Hsame]. }
  set (step := if saved_at t st =? -1 then _ else _). destruct step as [[st1 w2]|] eqn:Es; [|done]. subst step.
  destruct (save_step v0 st t fd w1 st1 w2 (Hhit _ _ eq_refl) Ht ltac:(lia) Hok1 ltac:(by rewrite Hf) HR1 Es) as (Hok2 & HR2 & Hf2).
  cbn [mbind option_bind]. unfold close_and_fail. assert (view w2 fd <> None) as Ho2 by (by rewrite Hf2, Hf).
  destruct (Z.ltb_spec (saved_at t st1) 0) as [Hs1|Hs1].
  { destruct (ignore (os_close fd) w2) as [w3|] eqn:Ec; [|done]. cbn [mbind option_bind]. intros [= <- <- <-].
    destruct (ignore_close fd w2 w3 Hok2 Ec Ho2) as [Hok3 E3]. split_and!; [done|by eapply kept_ext, HR2|done]. }
  destruct (os_dup2 fd t w2) as [[rc2 w3]|] eqn:E2; [|done]. cbn [mbind option_bind].
  destruct (law_dup2 fd t w2 rc2 w3 Hok2 E2 Ho2 Ht ltac:(lia)) as (Hok3 & D2 & D3).
  assert (view w3 fd <> None) as Ho3 by (rewrite D3 by lia; done).
  assert (forall w4, (forall x, view w4 x = upd (view w3) fd None x) ->
    forall x, view w4 x = upd (upd (view w2) fd None) t (view w3 t) x) as Hv4.
  { intros w4 H4 x. rewrite H4. unfold upd. repeat case_decide; subst; try done; try lia. by apply D3. }
  destruct (Z.ltb_spec rc2 0) as [Hrc|Hrc];
    (destruct (ignore (os_close fd) w3) as [w4|] eqn:Ec; [|done]); cbn [mbind option_bind]; intros [= <- <- <-];
    destruct (ignore_close fd w3 w4 Hok3 Ec Ho3) as [Hok4 E4]; specialize (Hv4 w4 E4).
  - split_and!; [done| |done]. eapply kept_ext; [exact Hv4|]. by apply kept_switch, HR2.
  - assert (redirected v0 (view w4) st1) as HR4; [|by split_and!; [|apply HR4|]].
    rewrite D2, Hf2, Hf in Hv4. eapply redirected_ext; [exact Hv4|]. by apply redirected_switch.
Qed.

Lemma restore_one_kept v0 t st w st' w' : 0 <= t <= 2 -> ok w -> kept v0 (view w) st ->
  restore_one t st w = Some (st', w') ->
  ok w' /\ kept v0 (view w') st' /\ saved_at t st' < 0 /\
  forall x, 0 <= x <= 2 -> saved_at x st < 0 -> saved_at x st' < 0.
Proof.
  intros Ht Hok HK. unfold restore_one. destruct (Z.leb_spec 0 (saved_at t st)) as [Hs|Hs]; [|intros [= <- <-]; by split_and!].
  set (d := saved_at t st) in *. destruct (kp_saved _ _ _ HK t Ht Hs) as (E0 & E1 & E2). fold d in E1, E2.
  assert (view w d <> None) as Hd by (rewrite E1; by apply (kp_before _ _ _ HK)).
  assert (d <> t) as Hdt by (intros E; rewrite E in E2; by apply (kp_before _ _ _ HK t)).
  destruct (ignore (os_dup2 d t) w) as [w1|] eqn:Ed; [|done]. cbn [mbind option_bind]. unfold ignore in Ed.
  destruct (os_dup2 d t w) as [[rc w1']|] eqn:Ed'; [|done]. cbn [mbind option_bind] in Ed. injection Ed as ->.
  destruct (law_dup2 d t w rc w1 Hok Ed' Hd Ht Hdt) as (Hok1 & D2 & D3).
  destruct (ignore (os_close d) w1) as [w2|] eqn:Ec; [|done]. cbn [mbind option_bind]. intros [= <- <-].
  destruct (ignore_close d w1 w2 Hok1 Ec ltac:(by rewrite D3)) as [Hok2 E4]. split_and!; [done|..].
  - eapply kept_ext; [|apply (kept_undo v0 _ st t (view w1 t) Ht Hs HK)].
    + fold d. intros x. rewrite E4. unfold upd. repeat case_decide; subst; try done. by apply D3.
    + destruct (rc <? 0); [by right|by left].
  - rewrite saved_set by done. rewrite decide_True by done. lia.
  - intros x Hx Hsx. rewrite saved_set by done. case_decide; [lia|done].
Qed.

Lemma restore_all v0 st w w' : ok w -> kept v0 (view w) st -> msh_redir_restore st w = Some w' -> ok w' /\ undone v0 (view w').
Proof.
  intros Hok HR. unfold msh_redir_restore. destruct (restore_one 0 st w) as [[st1 w1]|] eqn:E1; [|done]. cbn [mbind option_bind].
  destruct (restore_one 1 st1 w1) as [[st2 w2]|] eqn:E2; [|done]. cbn [mbind option_bind].
  destruct (restore_one 2 st2 w2) as [[st3 w3]|] eqn:E3; [|done]. cbn [mbind option_bind]. intros [= <-].
  destruct (restore_one_kept v0 0 st w st1 w1 ltac:(lia) Hok HR E1) as (O1 & R1 & S1 & K1).
  destruct (restore_one_kept v0 1 st1 w1 st2 w2 ltac:(lia) O1 R1 E2) as (O2 & R2 & S2 & K2).
  destruct (restore_one_kept v0 2 st2 w2 st3 w3 ltac:(lia) O2 R2 E3) as (O3 & R3 & S3 & K3).
  split; [done|]. apply (kept_done v0 _ st3); [|done]. intros t Ht.
  assert (t = 0 \/ t = 1 \/ t = 2) as [-> |[-> | ->]] by lia; [|by apply K3; [lia|]|done].
  apply K3; [lia|]. by apply K2; [lia|].
Qed.

Lemma expand_view token argv w r w' : ok w -> expand_one token argv w = Some (r, w') -> same_view w w'.
Proof.
  intros Hok. unfold expand_one. destruct (split_token token) as [[dir base] pattern].
  destruct (os_getdents dir 32 w) as [[[n es] w1]|] eqn:E; [|done]. cbn [mbind option_bind].
  destruct (if 0 <? n then _ else _) as [argv' matches]. intros [= <- <-]. exact (law_getdents _ _ _ _ _ _ Hok E).
Qed.

Lemma collect_kept v0 seg : (forall x t fl, x ∈ seg -> redir_target (word x) = Some (t, fl) -> hit t) ->
  forall st argv w r st' w', ok w -> redirected v0 (view w) st ->
  collect seg st argv w = Some (r, st', w') -> ok w' /\ kept v0 (view w') st'.
Proof.
  induction seg as [seg IH] using (induction_ltof1 _ (@length token)). unfold ltof in IH.
  destruct seg as [|t rest]; intros Hhit st argv w r st' w' Hok HR; cbn [collect]; [intros [= <- <- <-]; by destruct HR|].
  case_match; [intros [= <- <- <-]; by destruct HR|]. case_match.
  - destruct rest as [|path rest]; [intros [= <- <- <-]; by destruct HR|].
    destruct (msh_redir_apply st (word t) (word path) w) as [[[rc st1] w1]|] eqn:E; [|done]. cbn [mbind option_bind].
    destruct (apply_redirected v0 st _ _ w rc st1 w1 Hok (fun t' fl => Hhit t t' fl (list_elem_of_here _ _)) HR E) as (O1 & K1 & R1).
    destruct (Z.ltb_spec rc 0) as [Hrc|Hrc]; [by intros [= <- <- <-]|].
    apply IH; [cbn; lia|intros x t' fl Hx; apply Hhit; by do 2 right|done|by apply R1].
  - case_match.
    + destruct (expand_one (word t) argv w) as [[argv1 w1]|] eqn:E; [|done]. cbn [mbind option_bind].
      destruct (expand_view _ _ _ _ _ Hok E) as [O1 V1]. apply IH; [cbn; lia|intros x t' fl Hx; apply Hhit; by right|done|by eapply redirected_ext].
    + apply IH; [cbn; lia|intros x t' fl Hx; apply Hhit; by right|done|done].
Qed.

Lemma u_err_view s w w' : ok w -> u_err s w = Some w' -> same_view w w'.
Proof.
  intros Hok. unfold u_err, ignore. destruct (os_write _ s w) as [[rc w1]|] eqn:E; [|done]. intros [= <-].
  exact (law_write _ _ _ _ _ Hok E).
Qed.

Lemma cd_view argv w rc w' : ok w -> run_cd argv w = Some (rc, w') -> same_view w w'.
Proof.
  intros Hok. unfold run_cd. case_match.
  - destruct (u_err _ w) as [w1|] eqn:E; [|done]. intros [= <- <-]. by eapply u_err_view.
  - destruct (os_chdir _ w) as [[r w1]|] eqn:E; [|done]. cbn [mbind option_bind].
    pose proof (law_chdir _ w r w1 Hok E) as H1. case_match; [|by intros [= <- <-]].
    destruct (u_err _ w1) as [w2|] eqn:E2; [|done]. intros [= <- <-].
    eapply same_view_trans; [exact H1|]. by eapply u_err_view; [apply H1|].
Qed.

Lemma external_view g_path argv w rc w' : ok w -> run_external g_path argv w = Some (rc, w') -> same_view w w'.
Proof.
  intros Hok. unfold run_external. destruct (program_path _ _); [exact (law_execve _ _ _ _ _ Hok)|].
  intros [= <- <-]. by apply same_view_refl.
Qed.

Lemma undone_view v0 w w' : undone v0 (view w) -> same_view w w' -> undone v0 (view w').
Proof. intros H [_ E] fd. rewrite E. apply H. Qed.

Lemma segment_undone g_path seg w rc stop w' : (forall x t fl, x ∈ seg -> redir_target (word x) = Some (t, fl) -> hit t) -> ok w ->
  (forall t, 0 <= t <= 2 -> view w t <> None) -> run_segment g_path seg w = Some (rc, stop, w') ->
  ok w' /\ undone (view w) (view w').
Proof.
  intros Hhit Hok Hstd. unfold run_segment. destruct seg as [|t seg]; [intros [= <- <- <-]; split; [done|by left]|].
  destruct (collect _ msh_redir_init [] w) as [[[argv st] w1]|] eqn:Ec; [|done]. cbn [mbind option_bind].
  destruct (collect_kept (view w) _ Hhit _ _ _ _ _ _ Hok (redirected_init (view w) Hstd) Ec) as [O1 HR].
  assert (forall w2 w3, same_view w1 w2 -> msh_redir_restore st w2 = Some w3 -> ok w3 /\ undone (view w) (view w3)) as Hrest.
  { intros w2 w3 [O2 Hv] E. apply (restore_all (view w) st w2); [done| |done]. by eapply kept_ext. }
  pose proof (same_view_refl w1 O1) as H11.
  destruct argv as [[|name argv]|].
  - destruct (msh_redir_restore st w1) as [w2|] eqn:E; [|done]. intros [= <- <- <-]. by apply (Hrest w1).
  - case_match.
    { destruct (msh_redir_restore st w1) as [w2|] eqn:E; [|done]. intros [= <- <- <-]. by apply (Hrest w1). }
    case_match.
    { destruct (run_cd _ w1) as [[r w2]|] eqn:E1; [|done]. cbn [mbind option_bind].
      destruct (msh_redir_restore st w2) as [w3|] eqn:E; [|done]. intros [= <- <- <-].
      apply (Hrest w2); [by eapply cd_view|done]. }
    destruct (run_external _ _ w1) as [[r w2]|] eqn:E1; [|done]. cbn [mbind option_bind].
    destruct (msh_redir_restore st w2) as [w3|] eqn:E; [|done]. cbn [mbind option_bind].
    destruct (Hrest w2 w3 (external_view _ _ _ _ _ O1 E1) E) as [O3 H3]. case_match; [|by intros [= <- <- <-]].
    destruct (u_err _ w3) as [w4|] eqn:E4; [|done]. cbn [mbind option_bind].
    destruct (u_err name w4) as [w5|] eqn:E5; [|done]. cbn [mbind option_bind].
    destruct (u_err _ w5) as [w6|] eqn:E6; [|done]. intros [= <- <- <-].
    pose proof (u_err_view _ _ _ O3 E4) as V4. pose proof (u_err_view _ _ _ (proj1 V4) E5) as V5.
    pose proof (u_err_view _ _ _ (proj1 V5) E6) as V6. split; [apply V6|].
    by eapply undone_view, V6; eapply undone_view, V5; eapply undone_view, V4.
  - destruct (msh_redir_restore st w1) as [w2|] eqn:E; [|done]. cbn [mbind option_bind].
    destruct (Hrest w1 w2 H11 E) as [O2 H2].
    destruct (u_err _ w2) as [w3|] eqn:E3; [|done]. intros [= <- <- <-].
    pose proof (u_err_view _ _ _ O2 E3) as V3. split; [apply V3|]. by eapply undone_view.
Qed.

End Redirect.

End MshProps.
