(* ===== verification/MshKernel.v ===== *)
(** * The shell on the kernel

    The functions of [unistd.c] that the shell calls, made of system calls of the modelled
    kernel, and the proof that they honour what the shell relies on. *)

From S2P Require Import Prelude Mm FsTypes FsPath Ramfs Vfs Pseudo FsCore FsLinks FsCoreProps RamfsDriver Fd FdInv FdProc FdSteps FdLife FdProps FdView Sprg SprgRead SprgProps Paging Usermode UserStack UsermodeProps Syscall SyscallProps MshParse MshRun MshProps.
From stdpp Require Import base list option list_numbers strings gmap.
From Stdlib Require Import ZArith Lia ZifyBool.
Import FsTypes FsPath Vfs Pseudo FsCore Fd FdOps FdInv FdTables FdProc FdSteps FdProps FdView Sprg Usermode Syscall SyscallProps.
Import FsCoreProps RamfsDriver MshParse MshRun MshProps.
Open Scope Z_scope.

Module MshKernel.

(** Where the shell has its buffers: the path and the arguments of a call, the pointers to
    the arguments, the data, and the request that redraws the line. *)
Record buffers := Buffers { b_path : Z; b_args : Z; b_argv : Z; b_data : Z; b_line : Z }.

(** The entries that [getdents] stored. *)
Definition dirent_at (m : memory) (a : Z) : fs_dirent := (string_in m a, byte_in m (a + SYSTEM1_DIRENT_NAME_CAP)).
Definition dirents_at (m : memory) (a : Z) (n : Z) : list fs_dirent :=
  (fun i => dirent_at m (a + SIZEOF_DIRENT * i)) <$> seqZ 0 n.

Section Kernel.
Context {S W : Type} `{!storage S} `{!services W}.
#[local] Notation kernel := (kernel S W).
#[local] Notation machine := (machine S W).
Variable enter : Z -> Z -> machine -> option (Z * machine).
Variable l : layout.
Variable wait_ticks : Z -> W -> option W.
Variable signal_power_down : W -> W.
Variable b : buffers.

(** A call that gives a number. *)
Definition result (f : machine -> option (Z * option Z * machine)) (s : machine) : option (Z * machine) :=
  '(rc, _, s) ← f s; Some (rc, s).

(** The same, with the path stored first. *)
Definition with_path (path : list Z) (s : machine) : machine := set_mem (put_string (b_path b) path (mem s)) s.
Definition with_data (bytes : list Z) (s : machine) : machine := set_mem (store_bytes (b_data b) bytes (mem s)) s.

Definition with_args (argv : list (list Z)) (s : machine) : machine :=
  let '(ptrs, m) := put_strings (b_args b) argv (mem s) in
  set_mem (store_bytes (b_argv b) (concat (map le32 (ptrs ++ [0]))) m) s.

Definition with_line (buf : list Z) (len cursor : Z) (s : machine) : machine :=
  set_mem (store_bytes (b_line b) (le32 (b_data b) ++ le32 len ++ le32 cursor) (mem (with_data buf s))) s.

(** The processes of one run of the system are fewer than the process numbers. *)
Definition may_spawn (s : machine) : bool := g_next_pid (kern s) <? 2 ^ 32 - 1.

#[local] Notation open := (Unistd.open enter l wait_ticks signal_power_down).
#[local] Notation close := (Unistd.close enter l wait_ticks signal_power_down).
#[local] Notation dup := (Unistd.dup enter l wait_ticks signal_power_down).
#[local] Notation dup2 := (Unistd.dup2 enter l wait_ticks signal_power_down).
#[local] Notation read := (Unistd.read enter l wait_ticks signal_power_down).
#[local] Notation write := (Unistd.write enter l wait_ticks signal_power_down).
#[local] Notation lseek := (Unistd.lseek enter l wait_ticks signal_power_down).
#[local] Notation chdir := (Unistd.chdir enter l wait_ticks signal_power_down).
#[local] Notation getcwd := (Unistd.getcwd enter l wait_ticks signal_power_down).
#[local] Notation getdents := (Unistd.getdents enter l wait_ticks signal_power_down).
#[local] Notation execve := (Unistd.execve enter l wait_ticks signal_power_down).
#[local] Notation ioctl := (Unistd.ioctl enter l wait_ticks signal_power_down).

#[export] Instance kernel_os : shell_os machine := {|
  os_open path flags s := result (open (b_path b) flags) (with_path path s);
  os_close fd s := result (close fd) s;
  os_dup fd s := result (dup fd) s;
  os_dup2 old new s := result (dup2 old new) s;
  os_read fd count s :=
    '(rc, s) ← result (read fd (b_data b) count) s; Some (rc, bytes_at (mem s) (b_data b) rc, s);
  os_write fd bytes s := result (write fd (b_data b) (Z.of_nat (length bytes))) (with_data bytes s);
  os_seek_end fd s := result (lseek fd 0 2) s;
  os_chdir path s := result (chdir (b_path b)) (with_path path s);
  os_getcwd cap s :=
    '(rc, s) ← result (getcwd (b_data b) cap) s;
    Some (if rc =? 0 then None else Some (string_in (mem s) (b_data b)), s);
  os_getdents path n s :=
    '(rc, s) ← result (getdents (b_path b) (b_data b) n) (with_path path s);
    Some (rc, dirents_at (mem s) (b_data b) rc, s);
  os_execve path argv s :=
    if may_spawn s then result (execve (b_path b) (b_argv b) 0) (with_args argv (with_path path s)) else None;
  os_getkey s := result (ioctl 0 0x5302 0) s;
  os_line_begin s := result (ioctl 0 0x5303 0) s;
  os_line_redraw buf len cursor s := result (ioctl 0 0x5304 (b_line b)) (with_line buf len cursor s)
|}.

(** ** What the shell relies on *)

Hypothesis HL : lawful enter l wait_ticks signal_power_down.
Hypothesis Hopen : forall path fl, fails_loudly (S := S) (W := W) (fs_core_open path fl).
Hypothesis Hsize : forall id, fails_loudly (S := S) (W := W) (fs_core_size id).

Definition view_files (s : machine) (fd : Z) : option open_file :=
  p ← g_current_process (kern s); files_at (kern s) p fd.

(** No file system refuses to close a file. *)
Definition every_close_works : Prop := forall id (f : fs S W) rc f', fs_core_close id f <> Some (inl rc, f').

#[local] Notation dispatch := (syscall_core_dispatch enter l wait_ticks signal_power_down).

Lemma result_call nr a0 a1 a2 s rc s' :
  result (Unistd.call enter l wait_ticks signal_power_down nr a0 a1 a2) s = Some (rc, s') ->
  exists r, dispatch nr a0 a1 a2 s = Some (r, s') /\ rc = (if r <? 0 then -1 else r).
Proof.
  unfold result, Unistd.call, Unistd.system1_syscall, Unistd.posix_result.
  destruct (dispatch nr a0 a1 a2 s) as [[r s1]|]; [|done]. cbn [mbind option_bind]. intros E. exists r.
  by destruct (r <? 0); injection E as <- <-.
Qed.

Lemma sign_of r : ((if r <? 0 then -1 else r) <? 0) = (r <? 0).
Proof. by destruct (r <? 0) eqn:E. Qed.

Lemma on_kernel_some (f : kernel -> option (Z * kernel)) s r s' :
  on_kernel f s = Some (r, s') -> f (kern s) = Some (r, kern s').
Proof.
  unfold on_kernel. destruct (f (kern s)) as [[r0 k]|]; [|done]. cbn [mbind option_bind]. by intros [= <- <-].
Qed.

(** A call that starts no program. *)
Lemma call_steady nr a0 a1 a2 s r s' :
  quiet s -> nr <> SYS_EXIT -> nr <> SYS_EXECVE -> dispatch nr a0 a1 a2 s = Some (r, s') ->
  quiet s' /\ exists p, booted (kern s) /\ g_current_process (kern s) = Some p /\
    (forall fd, view_files s fd = files_at (kern s) p fd) /\ forall fd, view_files s' fd = files_at (kern s') p fd.
Proof.
  intros HQ H1 H2 E. pose proof (cm_booted _ (proj1 HQ)) as HB.
  pose proof (dispatch_steady enter l wait_ticks signal_power_down nr a0 a1 a2 s r s' HB H1 H2 E) as HS.
  split; [by eapply quiet_steady|]. destruct (bt_current _ HB) as [p Hp]. exists p. unfold view_files.
  by rewrite (ow_current _ _ (proj1 HS)), Hp.
Qed.

Lemma wrap_fd fd : 0 <= fd < 32 -> i32 (u32 fd) = fd.
Proof. intros H. by rewrite u32_small, i32_small by lia. Qed.

Lemma view_range s fd : quiet s -> view_files s fd <> None -> 0 <= fd < 32.
Proof.
  intros HQ. unfold view_files. destruct (g_current_process (kern s)) as [p|] eqn:Hp; [|done]. cbn [mbind option_bind].
  rewrite files_none. destruct (fd_description (kern s) p fd) as [i|] eqn:Ed; [|done]. intros _.
  pose proof (bt_inv _ (cm_booted _ (proj1 HQ))) as HI. destruct (current_live _ p HI Hp) as [Hlt _].
  by destruct (open_desc (kern s) p fd i HI Hlt Ed) as [? _].
Qed.

Ltac kernel_call nr :=
  match goal with
  | HQ : quiet ?s, E : result _ ?s1 = Some (?rc, ?s') |- _ =>
      destruct (result_call nr _ _ _ s1 rc s' E) as (r & Ed & ->);
      destruct (call_steady nr _ _ _ s1 r s' HQ ltac:(done) ltac:(done) Ed) as (HQ' & p & HB & Hp & V & V');
      change (kern s1) with (kern s) in *
  end.

Lemma k_open path flags s rc s' : quiet s -> os_open path flags s = Some (rc, s') ->
  quiet s' /\
  if rc <? 0 then forall fd, view_files s' fd = view_files s fd
  else view_files s rc = None /\ (exists f, view_files s' rc = Some f) /\ forall fd, fd <> rc -> view_files s' fd = view_files s fd.
Proof using Hopen Hsize.
  intros HQ E. cbn [os_open os_close os_dup os_dup2 os_write os_chdir os_getdents kernel_os] in E. kernel_call SYS_OPEN. split; [done|]. apply on_kernel_some in Ed. change (kern (with_path path s)) with (kern s) in *.
  pose proof (open_files (kern s) p HB Hp _ _ r (kern s') (Hopen _ _) Hsize Ed) as H. rewrite sign_of.
  change (view_files (with_path path s)) with (view_files s) in V.
  destruct (r <? 0); [intros fd; by rewrite V, V'|]. destruct H as (H1 & H2 & H3). split_and!.
  - by rewrite V.
  - by rewrite V'.
  - intros fd Hfd. rewrite V, V'. by apply H3.
Qed.

Lemma k_dup old s rc s' : quiet s -> os_dup old s = Some (rc, s') -> 0 <= old <= 2 ->
  quiet s' /\
  if rc <? 0 then forall fd, view_files s' fd = view_files s fd
  else view_files s rc = None /\ view_files s' rc = view_files s old /\ forall fd, fd <> rc -> view_files s' fd = view_files s fd.
Proof.
  intros HQ E Hold. cbn [os_open os_close os_dup os_dup2 os_write os_chdir os_getdents kernel_os] in E. kernel_call SYS_DUP. split; [done|]. apply on_kernel_some in Ed. rewrite wrap_fd in Ed by lia.
  pose proof (dup_files (kern s) p HB Hp _ r (kern s') Ed) as H. rewrite sign_of.
  destruct (r <? 0); [intros fd; by rewrite V, V'|]. destruct H as (H1 & H2 & H3). split_and!.
  - by rewrite V.
  - by rewrite V, V'.
  - intros fd Hfd. rewrite V, V'. by apply H3.
Qed.

Lemma k_dup2 old new s rc s' :
  quiet s -> os_dup2 old new s = Some (rc, s') -> view_files s old <> None -> 0 <= new <= 2 -> old <> new ->
  quiet s' /\ (if rc <? 0 then view_files s' new = None /\ ~ every_close_works else view_files s' new = view_files s old) /\
  forall fd, fd <> new -> view_files s' fd = view_files s fd.
Proof.
  intros HQ E Ho Hn Hne. pose proof (view_range s old HQ Ho) as Hr. cbn [os_open os_close os_dup os_dup2 os_write os_chdir os_getdents kernel_os] in E. kernel_call SYS_DUP2. split; [done|].
  apply on_kernel_some in Ed. rewrite !wrap_fd in Ed by lia. rewrite V in Ho.
  destruct (dup2_files (kern s) p old new r (kern s') HB Hp Ed Ho ltac:(lia) Hne) as [H1 H2]. rewrite sign_of.
  split; [|intros fd Hfd; rewrite V, V'; by apply H2]. destruct (Z.ltb_spec r 0) as [Hneg|]; [|by rewrite V, V'].
  destruct H1 as (H1 & Hi & k1 & H3). split; [by rewrite V'|]. intros Hc.
  destruct (release_fails (kern s) p new r k1 HB Hp Hi H3 Hneg) as (id & f & e & f' & Hx). by eapply Hc.
Qed.

Lemma k_close old s rc s' : quiet s -> os_close old s = Some (rc, s') -> view_files s old <> None ->
  quiet s' /\ view_files s' old = None /\ forall fd, fd <> old -> view_files s' fd = view_files s fd.
Proof.
  intros HQ E Ho. pose proof (view_range s old HQ Ho) as Hr. cbn [os_open os_close os_dup os_dup2 os_write os_chdir os_getdents kernel_os] in E. kernel_call SYS_CLOSE. split; [done|].
  apply on_kernel_some in Ed. rewrite wrap_fd in Ed by lia. rewrite V in Ho.
  destruct (close_files (kern s) p HB Hp old r (kern s') Ed Ho) as [H1 H2].
  split; [by rewrite V'|]. intros fd Hfd. rewrite V, V'. by apply H2.
Qed.

(** Calls after which every descriptor is as it was. *)
Lemma k_moved s s' p : quiet s -> booted (kern s) -> g_current_process (kern s) = Some p ->
  (forall fd, view_files s fd = files_at (kern s) p fd) -> (forall fd, view_files s' fd = files_at (kern s') p fd) ->
  moved (kern s) (kern s') -> forall fd, view_files s' fd = view_files s fd.
Proof.
  intros HQ HB Hp V V' HM fd. rewrite V, V'. apply moved_files; [apply HB| |done].
  by apply (current_live _ p (bt_inv _ HB)).
Qed.

Lemma k_write old bytes s rc s' : quiet s -> os_write old bytes s = Some (rc, s') ->
  quiet s' /\ forall fd, view_files s' fd = view_files s fd.
Proof.
  intros HQ E. cbn [os_open os_close os_dup os_dup2 os_write os_chdir os_getdents kernel_os] in E. kernel_call SYS_WRITE. split; [done|]. apply on_kernel_some in Ed.
  by eapply k_moved, write_moved.
Qed.

Lemma file_call_moved {A} (m : M (fs S W) A) out value errno s r s' :
  booted (kern s) -> file_call m out value errno s = Some (r, s') -> moved (kern s) (kern s').
Proof.
  intros HB. unfold file_call. destruct (on_fs m (kern s)) as [[x k]|] eqn:E; [|done]. cbn [mbind option_bind].
  pose proof (moved_fs _ _ _ _ HB E). by destruct x; intros [= <- <-].
Qed.

Lemma k_chdir path s rc s' : quiet s -> os_chdir path s = Some (rc, s') ->
  quiet s' /\ forall fd, view_files s' fd = view_files s fd.
Proof.
  intros HQ E. cbn [os_open os_close os_dup os_dup2 os_write os_chdir os_getdents kernel_os] in E. kernel_call SYS_CHDIR. split; [done|]. eapply k_moved; try done.
  exact (file_call_moved _ _ _ _ (with_path path s) r s' HB Ed).
Qed.

Lemma k_getdents path n s rc es s' : quiet s -> os_getdents path n s = Some (rc, es, s') ->
  quiet s' /\ forall fd, view_files s' fd = view_files s fd.
Proof.
  intros HQ E. cbn [os_open os_close os_dup os_dup2 os_write os_chdir os_getdents kernel_os] in E. destruct (result _ _) as [[rc1 s1]|] eqn:Er; [|done]. cbn [mbind option_bind] in E.
  injection E as <- _ <-. rename Er into E. kernel_call SYS_GETDENTS. split; [done|]. eapply k_moved; try done.
  change (posix_getdents (b_path b) (b_data b) n (with_path path s) = Some (r, s1)) in Ed. unfold posix_getdents in Ed.
  destruct (_ || _); [injection Ed as _ <-; by apply moved_refl|].
  exact (file_call_moved _ _ _ _ (with_path path s) r s1 HB Ed).
Qed.

Lemma k_execve path argv s rc s' : quiet s -> os_execve path argv s = Some (rc, s') ->
  quiet s' /\ forall fd, view_files s' fd = view_files s fd.
Proof using HL.
  intros HQ E. cbn [os_execve kernel_os] in E. destruct (may_spawn s) eqn:Hn; [|done]. unfold may_spawn in Hn.
  set (s1 := with_args argv (with_path path s)) in *.
  assert (kern s1 = kern s /\ quiet s1) as [Ek HQ1].
  { unfold s1, with_args. by destruct (put_strings _ _ _). }
  destruct (result_call SYS_EXECVE _ _ _ s1 rc s' E) as (r & Ed & ->).
  destruct (bt_current _ (cm_booted _ (proj1 HQ))) as [p Hp].
  destruct (execve_effect enter l wait_ticks signal_power_down _ _ _ s1 r s' p HL HQ1 ltac:(rewrite Ek; lia) ltac:(by rewrite Ek) Ed)
    as (Hp' & _ & HQ' & Hf). split; [done|]. intros fd. unfold view_files. rewrite Hp', Hp. cbn [mbind option_bind].
  rewrite Ek in Hf. destruct (Hf fd) as [H1 H2]. by apply files_same.
Qed.

#[export] Instance kernel_files : shell_files machine open_file := {|
  ok := quiet;
  closes := every_close_works;
  view := view_files;
  law_open := k_open;
  law_dup := k_dup;
  law_dup2 := k_dup2;
  law_close := k_close;
  law_write := k_write;
  law_chdir := k_chdir;
  law_getdents := k_getdents;
  law_execve := k_execve
|}.

End Kernel.
(** ** Failures have codes *)

Section Loud.
Context {S W : Type} `{!storage S} `{!services W}.
#[local] Notation loud := (fails_loudly (S := S) (W := W)).

(** The drivers tell a failure from a success. *)
Definition drivers_loud : Prop := forall d,
  (forall op, d_open (driver_ops d) = Some op -> forall path fl s s', op path fl s <> Some (inl FS_OK, s')) /\
  (forall op, d_size (driver_ops d) = Some op -> forall id s s', op id s <> Some (inl FS_OK, s')) /\
  (forall op, d_get_cwd_path (driver_ops d) = Some op -> forall s s', op s <> Some (inl FS_OK, s')).

Lemma loud_bind {A B} (m : M (fs S W) A) (k : A -> M (fs S W) B) : loud m -> (forall a, loud (k a)) -> loud (bind m k).
Proof.
  intros Hm Hk f f'. unfold bind. destruct (m f) as [[[rc|a] f1]|] eqn:E; [|apply Hk|done].
  intros [= -> ->]. exact (Hm _ _ E).
Qed.

Lemma loud_lift {A} (r : Z + A) : (forall rc, r = inl rc -> rc <> FS_OK) -> loud (lift r).
Proof. intros Hr f f' [= -> ->]. by apply (Hr FS_OK). Qed.

Lemma loud_ret {A} (a : A) : loud (ret a).
Proof. by intros f f'. Qed.

Lemma loud_attempt {A} (m : M (fs S W) A) : loud (attempt m).
Proof. intros f f'. unfold attempt. by destruct (m f) as [[r f1]|]. Qed.

Lemma loud_root {X} (op : vfs_driver S -> option X) rc (k : X -> M (fs S W) Z) : rc <> FS_OK ->
  (forall d x, op (driver_ops d) = Some x -> loud (k x)) -> loud (bind (root_op op rc) k).
Proof.
  intros Hrc Hk f f'. unfold bind, root_op. destruct (g_root_driver f) as [d|]; [|by intros [= ->]].
  destruct (op (driver_ops d)) as [x|] eqn:E; [|by intros [= ->]]. by apply (Hk d x).
Qed.

Lemma loud_store {A} (m : M S A) : (forall s s', m s <> Some (inl FS_OK, s')) -> loud (on_store m).
Proof.
  intros Hm f f'. unfold on_store. destruct (m (store f)) as [[r s1]|] eqn:E; [|done]. intros [= -> _]. exact (Hm _ _ E).
Qed.

Lemma normalize_loud cwd path cap rc : fs_core_normalize_path cwd path cap = inl rc -> rc <> FS_OK.
Proof. unfold fs_core_normalize_path. intros E. repeat case_match; simplify_eq; done. Qed.

Lemma link_target_loud current target rc : link_target current target = inl rc -> rc <> FS_OK.
Proof.
  unfold link_target. destruct (_ =? slash); [apply normalize_loud|].
  destruct (fs_parent_path current FS_PATH_CAP) as [e|parent] eqn:Ep; [|apply normalize_loud].
  intros [= <-]. unfold fs_parent_path in Ep. repeat case_match; simplify_eq; done.
Qed.

Lemma loud_path path : drivers_loud -> loud (full_path_of path).
Proof.
  intros HD. apply loud_bind.
  - intros f f'. unfold fs_core_get_cwd_path. destruct (negb _); [done|].
    destruct (g_root_driver f) as [d|]; [|done]. cbn [mbind option_bind].
    destruct (d_get_cwd_path (driver_ops d)) as [op|] eqn:Eo; [|done].
    by apply loud_store, (proj2 (proj2 (HD d)) op Eo).
  - intros c. apply loud_lift. intros rc. apply normalize_loud.
Qed.

Lemma loud_resolve n : forall current cap, loud (resolve_loop n current cap).
Proof.
  induction n as [|n IH]; intros current cap; cbn [resolve_loop]; [by intros f f'|].
  apply loud_bind; [apply loud_attempt|]. intros [e|target]; [apply loud_ret|].
  destruct (length target =? 0)%nat; [by intros f f'|].
  apply loud_bind; [apply loud_lift; intros rc; apply link_target_loud|]. intros next. apply IH.
Qed.

Lemma loud_open path fl : drivers_loud -> loud (fs_core_open path fl).
Proof.
  intros HD. apply loud_bind; [by apply loud_path|]. intros full_path. destruct (pseudo_fs_is_path full_path).
  { apply loud_lift. intros rc. unfold pseudo_fs_open. repeat case_match; by intros [= <-]. }
  apply loud_root; [done|]. intros d open Ho. destruct (negb _); [|apply loud_bind; [apply loud_resolve|intros r]].
  all: apply loud_store, (proj1 (HD d) open Ho).
Qed.

Lemma loud_size id : drivers_loud -> loud (fs_core_size id).
Proof.
  intros HD. unfold fs_core_size. destruct (PSEUDO_IS_FD id).
  - intros f f'. unfold view_env, pseudo_fs_size, procfs_size. repeat case_match; done.
  - apply loud_root; [done|]. intros d size Hs. by apply loud_store, (proj1 (proj2 (HD d)) size Hs).
Qed.

End Loud.

Lemma diskless_loud : drivers_loud (S := Ramfs.ramfs).
Proof.
  assert (forall A rc (a : A), of_rc rc a <> inl FS_OK) as Hrc.
  { intros A rc a. unfold of_rc. by destruct (Z.eqb_spec rc FS_OK); [|intros [=]]. }
  intros [| |]; split_and!; intros op; try done; intros [= <-]; intros.
  - unfold upd_out. intros [= E _]. by apply Hrc in E.
  - destruct (Ramfs.ramfs_core_size s id) as [rc n]. intros [= E _]. by apply Hrc in E.
  - by destruct (Ramfs.ramfs_core_get_cwd_path s).
Qed.

(** ** The whole system *)

Section System.
Context {S W : Type} `{!storage S} `{!services W}.
#[local] Notation machine := (machine S W).
Variable enter : Z -> Z -> machine -> option (Z * machine).
Variable l : layout.
Variable wait_ticks : Z -> W -> option W.
Variable signal_power_down : W -> W.
Variable b : buffers.
#[local] Instance system : shell_os machine := kernel_os enter l wait_ticks signal_power_down b.

(** A redirection of the stream [t] is among the tokens. *)
Definition redirects (seg : list token) (t : Z) : Prop :=
  exists x fl, x ∈ seg /\ redir_target (word x) = Some (t, fl).

(** C7: The shell undoes redirections, on this kernel. Let the shell run a command while its three standard
    streams are open, where the programs it starts behave as programs do and the file-system drivers have
    codes for their failures. When the command has run, whatever its redirections, also when one of them
    failed, when it was a built-in and when the program does not exist, the shell is a running program of a
    consistent kernel again and every descriptor is open on the same file as before, or closed as before.
    The only exception is a standard stream that was redirected, on a file system that refuses to close some
    file: it can be lost. *)
Theorem redirections_are_undone g_path seg s rc stop s' :
  lawful enter l wait_ticks signal_power_down -> drivers_loud (S := S) -> quiet s ->
  (forall t, 0 <= t <= 2 -> view_files s t <> None) ->
  run_segment g_path seg s = Some (rc, stop, s') ->
  quiet s' /\ forall fd, view_files s' fd = view_files s fd \/
    0 <= fd <= 2 /\ redirects seg fd /\ view_files s' fd = None /\ ~ every_close_works (S := S) (W := W).
Proof.
  intros HL HD HQ Hstd E.
  apply (segment_undone (shell_files0 := kernel_files enter l wait_ticks signal_power_down b HL
    (fun path fl => loud_open path fl HD) (fun id => loud_size id HD)) (redirects seg) g_path seg s rc stop s'); try done.
  intros x t fl Hx Ht. by exists x, fl.
Qed.

End System.

(** ** A session on the machine without media *)

Definition demo_buffers : buffers := Buffers 0x5000 0x6000 0x7000 0x8000 0x9000.

Definition demo_os : shell_os (machine Ramfs.ramfs console) :=
  kernel_os UsermodeProps.demo_enter UsermodeProps.demo_layout demo_wait demo_power demo_buffers.

Definition plain (s : string) : token := Token (cstr s) false.


(** The demo program, with its output in a file. *)
Definition demo_command : list token := [Token SprgProps.demo_path false; plain ">"; plain "/f"].

(** It ends with 7, and the shell has its standard input and no further descriptor. *)
Lemma redirections_are_undone_witness :
  exists s', run_segment (shell_os0 := demo_os) [] demo_command UsermodeProps.demo_machine = Some (7, false, s') /\
    view_files s' 0 = Some (0%nat, (FD_KIND_TTY_IN, 0, 0)) /\ view_files s' 3 = None.
Proof.
  assert (fst <$> run_segment (shell_os0 := demo_os) [] demo_command UsermodeProps.demo_machine = Some (7, false)) as Hr by reflexivity.
  destruct (run_segment _ _ _) as [[[rc stop] s']|] eqn:E; [|done]. injection Hr as -> ->. exists s'. split; [done|].
  destruct (redirections_are_undone UsermodeProps.demo_enter UsermodeProps.demo_layout demo_wait demo_power demo_buffers
    [] demo_command UsermodeProps.demo_machine 7 false s') as [_ H].
  - apply demo_lawful.
  - apply diskless_loud.
  - apply demo_quiet.
  - intros t Ht. assert (t = 0 \/ t = 1 \/ t = 2) as [->|[->| ->]] by lia; discriminate.
  - exact E.
  - split.
    + destruct (H 0) as [H0|(_ & (x & fl & Hx & Ht) & _)]; [exact H0|]. exfalso.
      unfold demo_command in Hx. rewrite !elem_of_cons, elem_of_nil in Hx. by destruct Hx as [->|[->|[->|[]]]].
    + destruct (H 3) as [H3|[H3 _]]; [exact H3|lia].
Defined.

(** [cd /; cd /nowhere && p || cd /] *)
Lemma execute_tokens_meaning_witness :
  let cd path := [plain "cd"; plain path] in
  let rest := [(Always, cd "/nowhere"); (OnSuccess, [Token SprgProps.demo_path false]); (OnFailure, cd "/")] in
  execute_tokens (shell_os0 := demo_os) [] (cd "/" ++ tail_tokens rest) UsermodeProps.demo_machine =
    eval (shell_os0 := demo_os) [] ((Always, cd "/") :: rest) 0 UsermodeProps.demo_machine /\
  fst <$> eval (shell_os0 := demo_os) [] ((Always, cd "/") :: rest) 0 UsermodeProps.demo_machine = Some (0, false).
Proof.
  split; [|reflexivity].
  apply (execute_tokens_meaning (shell_os0 := demo_os)); [by repeat constructor|repeat constructor; done].
Defined.

End MshKernel.
