(* ===== verification/KShell.v ===== *)
(** * The kernel shell

    [core/shell/shell_core.c]: the recovery shell inside the kernel.  The line is the C
    array that [tty_readline_ex] fills; [shell_tokenize] works in it.  Strings that only
    live inside one call are lists.  The commands work on the machine of [Usermode]
    through the descriptor layer and the file-system front end; output goes through the
    terminal service. *)

From S2P Require Import Prelude FsTypes FsPath Ramfs LineEdit Vfs Pseudo FsCore Fd Display Sprg Paging Usermode Syscall.
From stdpp Require Import base list option list_numbers strings gmap.
From Stdlib Require Import ZArith Lia.
Import FsTypes FsPath LineEdit Vfs Pseudo FsCore Fd FdOps Display.Tty Sprg Usermode Syscall.
Open Scope Z_scope.

Module KShell.

Definition SHELL_LINE_CAP : Z := 256.
Definition SHELL_ARGV_MAX : nat := 16.
Definition SHELL_HISTORY_CAP : Z := 16.
Definition SHELL_LIST_CAP : Z := 16.
Definition SHELL_CAT_BUF_CAP : Z := 4096.

Definition g_shell_commands : list (list Z) :=
  [cstr "help"; cstr "clear"; cstr "echo"; cstr "version"; cstr "reboot"; cstr "shutdown"; cstr "shell";
   cstr "pwd"; cstr "cd"; cstr "ls"; cstr "cat"; cstr "stat"; cstr "mkdir"; cstr "touch"; cstr "write"; cstr "rm"; cstr "sync";
   cstr "history"; cstr "ticks"; cstr "exec"; cstr "fsstat"; cstr "mmstat"].

(** The static variables. *)
Record kshell := KShell {
  g_shell_history : list (list Z); g_shell_history_count : Z; g_shell_history_head : Z;
  g_shell_history_nav : Z; g_shell_history_draft : list Z; g_shell_prev_dir : list Z
}.

Definition initial_kshell : kshell := KShell (replicate 16 []) 0 0 (-1) [] [slash].

Definition set_nav n d k := KShell (g_shell_history k) (g_shell_history_count k) (g_shell_history_head k) n d (g_shell_prev_dir k).
Definition set_prev d k := KShell (g_shell_history k) (g_shell_history_count k) (g_shell_history_head k) (g_shell_history_nav k) (g_shell_history_draft k) d.
Definition set_shell_ring h n i k := KShell h n i (g_shell_history_nav k) (g_shell_history_draft k) (g_shell_prev_dir k).

(** ** Strings *)

Fixpoint shell_streq (a b : list Z) : bool :=
  match a, b with
  | [], [] => true
  | x :: a, y :: b => (x =? y) && shell_streq a b
  | _, _ => false
  end.

Definition shell_is_option (arg : list Z) : bool := (char_at arg 0 =? 45) && negb (char_at arg 1 =? 0).
Definition shell_is_directory_mode (mode : Z) : bool := Z.land mode FS_MODE_DIR =? FS_MODE_DIR.
Definition shell_is_space (c : Z) : bool := (c =? 32) || (c =? 9).

Fixpoint shell_startswith (text prefix : list Z) : bool :=
  match prefix with
  | [] => true
  | p :: prefix => match text with [] => false | c :: text => (c =? p) && shell_startswith text prefix end
  end.

Definition shell_copy_string (cap : Z) (src : list Z) : list Z := take (Z.to_nat (cap - 1)) src.

(** [dst + i] is the destination. *)
Fixpoint shell_memcpy (src : list Z) (i : Z) (a : list Z) : option (list Z) :=
  match src with
  | [] => Some a
  | c :: src => a ← aset a i c; shell_memcpy src (i + 1) a
  end.

(** The string that starts at [i] of an array. *)
Fixpoint before_nul (s : list Z) : list Z :=
  match s with
  | [] => []
  | c :: s => if c =? 0 then [] else c :: before_nul s
  end.
Definition string_from (a : list Z) (i : Z) : list Z := before_nul (drop (Z.to_nat i) a).

(** ** Splitting a line *)

(** Characters that a backslash escapes inside double quotes. *)
Definition escapable (c : Z) : bool := (c =? 34) || (c =? 92) || (c =? 36) || (c =? 96).

(** The loop over one token: the array and both positions, or the error. *)
Fixpoint token_loop (fuel : nat) (a : list Z) (read write : Z) (in_single in_double started : bool)
    : option (Z + (list Z * Z * Z)) :=
  match fuel with
  | O => None
  | S fuel =>
      let finish := Some (if in_single || in_double || negb started then inl (-1) else inr (a, read, write)) in
      c ← aget a read;
      if c =? 0 then finish
      else if negb in_single && negb in_double && shell_is_space c then finish
      else if negb in_double && (c =? 39) then token_loop fuel a (read + 1) write (negb in_single) in_double true
      else if negb in_single && (c =? 34) then token_loop fuel a (read + 1) write in_single (negb in_double) true
      else if negb in_single && (c =? 92) then
        escaped ← aget a (read + 1);
        if escaped =? 0 then Some (inl (-1))
        else if escaped =? 10 then token_loop fuel a (read + 2) write in_single in_double started
        else if in_double && negb (escapable escaped) then
          a ← aset a write c; token_loop fuel a (read + 1) (write + 1) in_single in_double true
        else a ← aset a write escaped; token_loop fuel a (read + 2) (write + 1) in_single in_double true
      else a ← aset a write c; token_loop fuel a (read + 1) (write + 1) in_single in_double true
  end.

Fixpoint skip_spaces (fuel : nat) (a : list Z) (read : Z) : option Z :=
  match fuel with
  | O => None
  | S fuel => c ← aget a read; if shell_is_space c then skip_spaces fuel a (read + 1) else Some read
  end.

(** [argv] are positions in the array. *)
Fixpoint tokenize_loop (fuel : nat) (argv_cap : nat) (a : list Z) (read write : Z) (argv : list Z)
    : option (Z + (list Z * list Z)) :=
  match fuel with
  | O => None
  | S fuel' =>
      c ← aget a read;
      if c =? 0 then Some (inr (a, argv))
      else
        read ← skip_spaces (S (length a)) a read;
        c ← aget a read;
        if c =? 0 then Some (inr (a, argv))
        else if (argv_cap <=? length argv)%nat then Some (inl (-2))
        else
          r ← token_loop (S (length a)) a read write false false false;
          match r with
          | inl rc => Some (inl rc)
          | inr (a, token_end, end_) =>
              read ← skip_spaces (S (length a)) a token_end;
              a ← aset a end_ 0;
              let end_ := end_ + 1 in
              tokenize_loop fuel' argv_cap a (if (token_end <? read) && (read <? end_) then end_ else read) end_ (argv ++ [write])
          end
  end.

Definition shell_tokenize (argv_cap : nat) (a : list Z) : option (Z + (list Z * list Z)) :=
  tokenize_loop (S (length a)) argv_cap a 0 0 [].

(** ** History *)

Definition shell_history_reset_line_state (k : kshell) : kshell := set_nav (-1) [] k.

Definition shell_history_slot (k : kshell) (reverse_index : Z) : Z :=
  (g_shell_history_head k + SHELL_HISTORY_CAP - 1 - reverse_index) mod SHELL_HISTORY_CAP.
Definition shell_history_at (k : kshell) (i : Z) : list Z := default [] (g_shell_history k !! Z.to_nat i).

Definition shell_history_push (line : list Z) (k : kshell) : kshell :=
  match line with
  | [] => k
  | _ =>
      if (0 <? g_shell_history_count k) && shell_streq (shell_history_at k (shell_history_slot k 0)) line then k
      else
        set_shell_ring (<[Z.to_nat (g_shell_history_head k) := take (Z.to_nat (SHELL_LINE_CAP - 1)) line]> (g_shell_history k))
          (if g_shell_history_count k <? SHELL_HISTORY_CAP then g_shell_history_count k + 1 else g_shell_history_count k)
          ((g_shell_history_head k + 1) mod SHELL_HISTORY_CAP) k
  end.

Definition shell_replace_line (cap : Z) (text : list Z) (l : line) : option line :=
  let n := Z.of_nat (length text) in
  let n := if cap <=? n then cap - 1 else n in
  a ← shell_memcpy (take (Z.to_nat n) text) 0 (buf l);
  a ← aset a n 0;
  Some (Line a n n (insert_mode l)).

Definition shell_history_hook (direction cap : Z) (l : line) (k : kshell) : option (Z * line * kshell) :=
  let recall k := l ← shell_replace_line cap (shell_history_at k (shell_history_slot k (g_shell_history_nav k))) l; Some (1, l, k) in
  if g_shell_history_count k =? 0 then Some (0, l, k)
  else if direction <? 0 then
    if g_shell_history_nav k <? 0 then recall (set_nav 0 (shell_copy_string SHELL_LINE_CAP (before_nul (buf l))) k)
    else
      let next_nav := u32 (g_shell_history_nav k + 1) in
      if g_shell_history_count k <=? next_nav then Some (0, l, k) else recall (set_nav next_nav (g_shell_history_draft k) k)
  else if g_shell_history_nav k <? 0 then Some (0, l, k)
  else if g_shell_history_nav k =? 0 then
    l ← shell_replace_line cap (g_shell_history_draft k) l; Some (1, l, set_nav (-1) (g_shell_history_draft k) k)
  else recall (set_nav (g_shell_history_nav k - 1) (g_shell_history_draft k) k).

(** ** Completion *)

(** [for (i = 0; i < n; ++i) buf[to + i] = buf[from + i];] *)
Fixpoint copy_forward (n : nat) (from to : Z) (a : list Z) : option (list Z) :=
  match n with
  | O => Some a
  | S n => v ← aget a from; a ← aset a to v; copy_forward n (from + 1) (to + 1) a
  end.

Definition shell_replace_token (cap token_start token_end : Z) (replacement : list Z) (l : line) : option (Z * line) :=
  let replacement_len := Z.of_nat (length replacement) in
  let suffix_len := u32 (len l - token_end) in
  let new_len := u32 (token_start + replacement_len + suffix_len) in
  if cap <=? new_len then Some (0, l)
  else
    a ← copy_forward (Z.to_nat suffix_len) token_end (token_start + replacement_len) (buf l);
    a ← shell_memcpy replacement token_start a;
    a ← aset a new_len 0;
    Some (1, Line a new_len (token_start + replacement_len) (insert_mode l)).

(** The only element that satisfies the test. *)
Definition unique {A} (test : A -> bool) (l : list A) : option A :=
  match List.filter test l with [x] => Some x | _ => None end.

Definition shell_find_unique_command (prefix : list Z) : option (list Z) :=
  unique (fun c => shell_startswith c prefix) g_shell_commands.

Fixpoint last_slash_at (s : list Z) (i : nat) (last : option nat) : option nat :=
  match s with
  | [] => last
  | c :: s => last_slash_at s (S i) (if c =? slash then Some i else last)
  end.

(** The directory, what comes before the name, and the name. *)
Definition split_path_token (token : list Z) : list Z * list Z * list Z :=
  match last_slash_at token 0 None with
  | None => ([], [], shell_copy_string SHELL_LINE_CAP token)
  | Some i => (if (i =? 0)%nat then [slash] else take i token, take (S i) token,
               shell_copy_string SHELL_LINE_CAP (drop (S i) token))
  end.

(** The completed path in a buffer of [cap] bytes. *)
Definition completed_path (cap : Z) (base : list Z) (e : fs_dirent) : option (list Z) :=
  let copy_len := Z.of_nat (length base) in
  if cap <=? copy_len then None
  else
    let completed := base ++ shell_copy_string (cap - copy_len) (fst e) in
    Some (if (snd e =? FS_NODE_DIR) && (Z.of_nat (length completed) + 1 <? cap) then completed ++ [slash] else completed).

(** The bounds of the token around the cursor. *)
Fixpoint token_start_from (a : list Z) (i : nat) : nat :=
  match i with
  | O => O
  | S n => if shell_is_space (char_at a n) then i else token_start_from a n
  end.
Fixpoint token_end_from (a : list Z) (n : nat) (i : nat) : nat :=
  match n with
  | O => i
  | S n => if shell_is_space (char_at a i) then i else token_end_from a n (S i)
  end.

(** How many words begin before position [n]. *)
Definition words_before (a : list Z) (n : nat) : nat :=
  length (List.filter (fun i => negb (shell_is_space (char_at a i)) && ((i =? 0)%nat || shell_is_space (char_at a (i - 1)))) (seq 0 n)).

(** ** Commands *)

Section Commands.
Context {S W : Type} `{!storage S} `{!services W}.
#[local] Notation kernel := (kernel S W).
#[local] Notation machine := (machine S W).
Variable usermode_i386_enter : Z -> Z -> machine -> option (Z * machine).
Variable l : layout.
Variable signal_power_down : W -> W.
Variable mm_print_stats : W -> option W.
(** Where the kernel has the path and the arguments of a program it executes. *)
Variables path_at args_at argv_at : Z.

(** A command reads and changes the machine and the variables of the shell. *)
Notation st := (kshell * machine)%type.

Definition on_term (f : W -> option W) (s : machine) : option machine := k ← on_tty f (kern s); Some (set_kern k s).
Definition tty_puts (text : list Z) : machine -> option machine := on_term (put_bytes text).
Definition set_color (c : Z) : machine -> option machine := on_term (tty_set_color c).

(** A call of the file system. *)
Definition fs_call {A} (m : M (fs S W) A) (s : machine) : option ((Z + A) * machine) :=
  '(r, k) ← on_fs m (kern s); Some (r, set_kern k s).

(** [fs_get_cwd_path()]. *)
Definition cwd_path (s : machine) : option (list Z * machine) :=
  '(r, s) ← fs_call fs_core_get_cwd_path s; Some (match r with inl _ => [] | inr c => c end, s).

Fixpoint dec_digits (fuel : nat) (value : Z) (digits : list Z) : list Z :=
  match fuel with
  | O => digits
  | Datatypes.S fuel => if value =? 0 then digits else dec_digits fuel (value / 10) (48 + value mod 10 :: digits)
  end.
Definition u32_dec (value : Z) : list Z := if value =? 0 then [48] else dec_digits 10 value [].
Definition hex_digits_of (n : nat) (value : Z) : list Z :=
  (fun i => let d := Z.land (Z.shiftr value (4 * (Z.of_nat n - 1 - i))) 0xF in if d <? 10 then 48 + d else 55 + d) <$> seqZ 0 (Z.of_nat n).
Definition shell_put_u64_hex (value : Z) : machine -> option machine := tty_puts (cstr "0x" ++ hex_digits_of 16 value).
Definition shell_put_u32_dec (value : Z) : machine -> option machine := tty_puts (u32_dec value).

(** Text in red, with a line end. *)
Definition complain (text : list Z) (s : machine) : option machine :=
  s ← set_color TTY_RED s; s ← tty_puts (text ++ [10]) s; set_color TTY_WHITE s.

Definition fs_message (rc : Z) : list Z :=
  let err := fs_core_to_errno rc in
  if err =? POSIX_ENOENT then cstr "path not found"
  else if err =? POSIX_EEXIST then cstr "already exists"
  else if err =? POSIX_ENOTDIR then cstr "not a directory"
  else if err =? POSIX_EINVAL then cstr "invalid path"
  else if err =? POSIX_ENOSPC then cstr "no space left in filesystem"
  else if err =? POSIX_EROFS then cstr "read-only filesystem"
  else cstr "unknown fs error".

Definition shell_print_fs_error (cmd : list Z) (rc : Z) : machine -> option machine :=
  complain (cmd ++ cstr ": " ++ fs_message rc).
Definition shell_print_usage (cmd usage : list Z) : machine -> option machine := complain (cmd ++ cstr ": " ++ usage).

Definition POSIX_ENOSYS : Z := 38.

Definition posix_message (rc : Z) : list Z :=
  let err := if rc <? 0 then - rc else rc in
  if err =? POSIX_ENOENT then cstr "No such file or directory"
  else if (err =? POSIX_ENOTDIR) || (err =? POSIX_EISDIR) then cstr "Is a directory"
  else if err =? POSIX_EBADF then cstr "Bad file descriptor"
  else if err =? POSIX_ENOEXEC then cstr "Exec format error"
  else if err =? POSIX_ENOSYS then cstr "Function not implemented"
  else if err =? POSIX_EINVAL then cstr "Invalid argument"
  else if err =? POSIX_EIO then cstr "Input/output error"
  else cstr "Error".

Definition shell_print_posix_path_error (cmd path : list Z) (rc : Z) : machine -> option machine :=
  complain (cmd ++ cstr ": " ++ path ++ cstr ": " ++ posix_message rc).

(** The calls of [posix.c] with arguments of the kernel's own. *)
Definition k_open (path : list Z) (flags : Z) : machine -> option (Z * machine) := on_kernel (fd_core_open (Some path) flags).
Definition k_close (fd : Z) : machine -> option (Z * machine) := on_kernel (fd_core_close fd).
Definition k_write (fd : Z) (bytes : list Z) : machine -> option (Z * machine) := on_kernel (fd_core_write fd (Some bytes)).
Definition k_read (fd count : Z) (s : machine) : option (Z * list Z * machine) :=
  '(rc, bytes, k) ← fd_core_read fd true count (kern s); Some (rc, bytes, set_kern k s).
Definition k_stat (path : list Z) (s : machine) : option ((Z + fs_stat) * machine) :=
  '(r, s) ← fs_call (fs_core_stat (Some path)) s;
  Some (match r with inl rc => inl (posix_fs_to_errno rc) | inr st => inr st end, s).
Definition k_execve (path : list Z) (argv : list (list Z)) (s : machine) : option (Z * machine) :=
  let '(ptrs, m) := put_strings args_at argv (put_string path_at path (mem s)) in
  let m := store_bytes argv_at (concat (map le32 (ptrs ++ [0]))) m in
  posix_execve usermode_i386_enter l path_at argv_at 0 (set_mem m s).

Definition is_arg (s : string) (arg : list Z) : bool := shell_streq arg (cstr s).

(** *** The system *)

Definition shell_cmd_help : machine -> option machine :=
  tty_puts (cstr "System/1 Kernel Shell - recovery environment" ++ [10] ++
            cstr "System:      help clear version reboot shutdown shell" ++ [10] ++
            cstr "Filesystem:  pwd cd ls cat stat mkdir touch write rm sync" ++ [10] ++
            cstr "Diagnostics: history ticks fsstat mmstat exec" ++ [10] ++
            cstr "Utility:     echo" ++ [10] ++
            cstr "Normal System/1 commands are separate SMU programs in /bin." ++ [10]).

Definition shell_cmd_clear (s : machine) : option machine := s ← on_term tty_clear s; set_color TTY_WHITE s.

(** Only [n] after the dash. *)
Definition all_n (arg : list Z) : bool := forallb (fun c => c =? 110) (drop 1 arg).

(** The operands of [echo] and whether to end the line. *)
Fixpoint echo_options (args : list (list Z)) (newline : bool) : list (list Z) * bool :=
  match args with
  | [] => ([], newline)
  | arg :: rest =>
      if is_arg "--" arg then (rest, newline)
      else if negb (char_at arg 0 =? 45) then (args, newline)
      else if char_at arg 1 =? 0 then (args, newline)
      else if all_n arg then echo_options rest false else (args, newline)
  end.

Fixpoint spaced (words : list (list Z)) : list Z :=
  match words with
  | [] => []
  | [w] => w
  | w :: ws => w ++ [32] ++ spaced ws
  end.

Definition shell_cmd_echo (args : list (list Z)) : machine -> option machine :=
  let '(words, newline) := echo_options args true in tty_puts (spaced words ++ if newline then [10] else []).

Definition shell_cmd_reboot (s : machine) : option machine :=
  s ← tty_puts (cstr "Rebooting..." ++ [10]) s; on_term (fun w => Some (signal_reset w)) s.
Definition shell_cmd_shutdown (s : machine) : option machine :=
  s ← tty_puts (cstr "Shutting down..." ++ [10]) s; on_term (fun w => Some (signal_power_down w)) s.

Definition shell_cmd_ticks (s : machine) : option machine :=
  let ticks := timer_ticks_get (env (fsys (kern s))) in
  s ← tty_puts (cstr "ticks ") s;
  s ← shell_put_u64_hex ticks s;
  s ← tty_puts (cstr " (") s;
  s ← shell_put_u32_dec (u32 ticks / 100) s;
  tty_puts (cstr " s)" ++ [10]) s.

Definition history_line (k : kshell) (oldest i : Z) : list Z :=
  u32_dec (i + 1) ++ cstr "  " ++ shell_history_at k ((oldest + i) mod SHELL_HISTORY_CAP) ++ [10].

Definition shell_cmd_history (k : kshell) (s : machine) : option machine :=
  let count := g_shell_history_count k in
  if count =? 0 then tty_puts (cstr "history: empty" ++ [10]) s
  else
    let oldest := (g_shell_history_head k + SHELL_HISTORY_CAP - count) mod SHELL_HISTORY_CAP in
    tty_puts (concat (history_line k oldest <$> seqZ 0 count)) s.

Definition shell_cmd_sync (s : machine) : option machine :=
  '(rc, s) ← posix_sync s;
  if rc <? 0 then shell_print_posix_path_error (cstr "sync") [] rc s
  else tty_puts (cstr "sync: filesystem state committed" ++ [10]) s.

Definition shell_cmd_shell (s : machine) : option machine :=
  s ← tty_puts (cstr "Starting /bin/sh.prg..." ++ [10]) s;
  '(rc, s) ← k_execve (cstr "/bin/sh.prg") [cstr "/bin/sh.prg"] s;
  if rc <? 0 then shell_print_posix_path_error (cstr "shell") (cstr "/bin/sh.prg") rc s else Some s.

Definition shell_cmd_mmstat : machine -> option machine := on_term mm_print_stats.

Definition shell_cmd_fsstat (s : machine) : option machine :=
  let stats := fs_core_get_stats (fsys (kern s)) in
  let r := stats_ramfs stats in
  tty_puts (cstr "fs media " ++ u32_dec (boot_media_kind stats) ++ cstr " dirty_dirs " ++ u32_dec 0 ++ cstr " dirty_files " ++ u32_dec 0 ++ [10] ++
            cstr "ramfs nodes " ++ u32_dec (Ramfs.node_used r) ++ [47] ++ u32_dec Ramfs.FS_MAX_NODES ++
            cstr " dirs " ++ u32_dec (Ramfs.dir_nodes r) ++ cstr " files " ++ u32_dec (Ramfs.file_nodes r) ++ [10] ++
            cstr "ramfs file bytes used " ++ u32_dec (Ramfs.used_file_bytes r) ++ cstr " reserved " ++ u32_dec (Ramfs.reserved_file_bytes r) ++ [10] ++
            cstr "ramfs data slots " ++ u32_dec (Ramfs.data_slot_used r) ++ [47] ++ u32_dec Ramfs.RAMFS_DATA_SLOT_CAP ++
            cstr " bytes " ++ u32_dec Ramfs.RAMFS_DATA_SLOT_SIZE ++ [10] ++
            cstr "fs buffers boot " ++ u32_dec 0 ++ cstr " cache " ++ u32_dec (block_cache_bytes stats) ++
            cstr " largest " ++ u32_dec (largest_fs_scratch_bytes stats) ++ [10]) s.

Definition shell_version : machine -> option machine :=
  tty_puts (cstr "System/1" ++ [10] ++
            cstr "Copyright (c) 2026 Adam Cir (Adava), Adava Software, Adava Development." ++ [10]).

(** *** Files *)

(** Whether the options are accepted: [Some true] shows the directory, [Some false] complains. *)
Fixpoint pwd_options (args : list (list Z)) : option (list Z) :=
  match args with
  | [] => None
  | arg :: rest =>
      if is_arg "--" arg then match rest with [] => None | _ => Some (cstr "too many operands") end
      else if is_arg "-L" arg || is_arg "-P" arg then pwd_options rest
      else Some (cstr "usage: pwd [-L|-P]")
  end.

Definition shell_cmd_pwd (args : list (list Z)) (s : machine) : option machine :=
  match pwd_options args with
  | Some usage => shell_print_usage (cstr "pwd") usage s
  | None => '(cwd, s) ← cwd_path s; tty_puts (cwd ++ [10]) s
  end.

Definition shell_ls_print_entry (name : list Z) (is_dir : bool) : machine -> option machine :=
  tty_puts (name ++ (if is_dir then [slash] else []) ++ [10]).

Fixpoint ls_entries (show_all : bool) (entries : list fs_dirent) (s : machine) : option machine :=
  match entries with
  | [] => Some s
  | e :: rest =>
      s ← (if negb show_all && (char_at (fst e) 0 =? 46) then Some s
           else shell_ls_print_entry (fst e) (snd e =? FS_NODE_DIR) s);
      ls_entries show_all rest s
  end.

Definition shell_ls_print_dir (path : list Z) (show_all : bool) (s : machine) : option machine :=
  '(r, s) ← fs_call (fs_core_list_dir (Some path) SHELL_LIST_CAP) s;
  match r with
  | inl rc => shell_print_fs_error (cstr "ls") rc s
  | inr entries =>
      s ← (if show_all then s ← shell_ls_print_entry (cstr ".") true s; shell_ls_print_entry (cstr "..") true s else Some s);
      ls_entries show_all entries s
  end.

(** The operands, or [None] for an option that [ls] does not have. *)
Fixpoint ls_options (args : list (list Z)) (show_all : bool) : option (list (list Z) * bool) :=
  match args with
  | [] => Some ([], show_all)
  | arg :: rest =>
      if is_arg "--" arg then Some (rest, show_all)
      else if negb (shell_is_option arg) then Some (args, show_all)
      else if forallb (fun c => (c =? 97) || (c =? 49)) (drop 1 arg)
      then ls_options rest (show_all || existsb (fun c => c =? 97) (drop 1 arg))
      else None
  end.

Fixpoint ls_paths (many first show_all : bool) (paths : list (list Z)) (s : machine) : option machine :=
  match paths with
  | [] => Some s
  | path :: rest =>
      '(r, s) ← k_stat path s;
      s ← (if many then tty_puts ((if first then [] else [10]) ++ path ++ cstr ":" ++ [10]) s else Some s);
      s ← (match r with
           | inl rc => shell_print_posix_path_error (cstr "ls") path rc s
           | inr st => if shell_is_directory_mode (st_mode st) then shell_ls_print_dir path show_all s
                       else shell_ls_print_entry path false s
           end);
      ls_paths many false show_all rest s
  end.

Definition shell_cmd_ls (args : list (list Z)) (s : machine) : option machine :=
  match ls_options args false with
  | None => shell_print_usage (cstr "ls") (cstr "usage: ls [-a] [-1] [file ...]") s
  | Some ([], show_all) => shell_ls_print_dir [] show_all s
  | Some (paths, show_all) => ls_paths (1 <? length paths)%nat true show_all paths s
  end.

Fixpoint cd_options (args : list (list Z)) : list (list Z) :=
  match args with
  | [] => []
  | arg :: rest => if is_arg "--" arg then rest else if is_arg "-L" arg || is_arg "-P" arg then cd_options rest else args
  end.

Definition shell_cmd_cd (args : list (list Z)) (x : st) : option st :=
  let '(k, s) := x in
  '(cwd, s) ← cwd_path s;
  let old_cwd := shell_copy_string FS_PATH_CAP cwd in
  match cd_options args with
  | _ :: _ :: _ => s ← shell_print_usage (cstr "cd") (cstr "usage: cd [-L|-P] [dir]") s; Some (k, s)
  | dirs =>
      let path := default [slash] (head dirs) in
      let back := is_arg "-" path in
      '(r, s) ← fs_call (fs_core_change_dir (Some (if back then g_shell_prev_dir k else path))) s;
      match r with
      | inl rc => s ← shell_print_fs_error (cstr "cd") rc s; Some (k, s)
      | inr _ =>
          let k := set_prev (shell_copy_string FS_PATH_CAP old_cwd) k in
          s ← (if back then '(cwd, s) ← cwd_path s; tty_puts (cwd ++ [10]) s else Some s);
          Some (k, s)
      end
  end.

Definition shell_normalize_path (path : list Z) (s : machine) : option ((Z + list Z) * machine) :=
  '(cwd, s) ← cwd_path s; Some (fs_core_normalize_path (Some cwd) (Some path) FS_PATH_CAP, s).

(** [fs_make_dir] where an existing directory is no error. *)
Definition make_parent (path : list Z) (s : machine) : option (Z * machine) :=
  '(r, s) ← fs_call (fs_core_make_dir (Some path)) s;
  Some (match r with
        | inl rc => if fs_core_to_errno rc =? POSIX_EEXIST then FS_OK else rc
        | inr _ => FS_OK
        end, s).

(** The loop over the slashes of the path, from position [i] on. *)
Fixpoint parents_loop (n : nat) (i : nat) (path : list Z) (s : machine) : option (Z * machine) :=
  match n with
  | O => Some (FS_OK, s)
  | Datatypes.S n =>
      if negb (char_at path i =? slash) then parents_loop n (Datatypes.S i) path s
      else '(rc, s) ← make_parent (take i path) s;
           if negb (rc =? FS_OK) then Some (rc, s) else parents_loop n (Datatypes.S i) path s
  end.

Definition shell_mkdir_parents (path : list Z) (s : machine) : option (Z * machine) :=
  '(r, s) ← shell_normalize_path path s;
  match r with
  | inl rc => Some (rc, s)
  | inr path => '(rc, s) ← parents_loop (length path - 1) 1 path s;
                if negb (rc =? FS_OK) then Some (rc, s) else make_parent path s
  end.

Fixpoint mkdir_options (args : list (list Z)) (parents : bool) : list (list Z) * bool :=
  match args with
  | [] => ([], parents)
  | arg :: rest => if is_arg "--" arg then (rest, parents) else if is_arg "-p" arg then mkdir_options rest true else (args, parents)
  end.

Fixpoint mkdir_loop (parents : bool) (paths : list (list Z)) (s : machine) : option machine :=
  match paths with
  | [] => Some s
  | path :: rest =>
      '(rc, s) ← (if parents then shell_mkdir_parents path s
                  else '(r, s) ← fs_call (fs_core_make_dir (Some path)) s;
                       Some (match r with inl rc => rc | inr _ => FS_OK end, s));
      s ← (if negb (rc =? FS_OK) then shell_print_fs_error (cstr "mkdir") rc s else Some s);
      mkdir_loop parents rest s
  end.

Definition shell_cmd_mkdir (args : list (list Z)) (s : machine) : option machine :=
  match mkdir_options args false with
  | ([], _) => shell_print_usage (cstr "mkdir") (cstr "usage: mkdir [-p] dir ...") s
  | (paths, parents) => mkdir_loop parents paths s
  end.

Fixpoint cat_options (args : list (list Z)) : option (list (list Z)) :=
  match args with
  | [] => Some []
  | arg :: rest => if is_arg "--" arg then Some rest
                   else if is_arg "-u" arg then cat_options rest
                   else if shell_is_option arg then None else Some args
  end.

Definition POSIX_STDOUT_FILENO : Z := 1.

(** The loop that copies a file to the terminal; [None] when it does not end within
    [fuel] blocks. *)
Fixpoint cat_loop (fuel : nat) (path : list Z) (fd : Z) (s : machine) : option machine :=
  match fuel with
  | O => None
  | Datatypes.S fuel =>
      '(size, bytes, s) ← k_read fd SHELL_CAT_BUF_CAP s;
      if size <? 0 then shell_print_posix_path_error (cstr "cat") path size s
      else if size =? 0 then Some s
      else '(rc, s) ← k_write POSIX_STDOUT_FILENO bytes s;
           if rc <? 0 then shell_print_posix_path_error (cstr "cat") path (- POSIX_EBADF) s
           else cat_loop fuel path fd s
  end.

(** [fd] is closed; a failure is reported. *)
Definition close_reporting (cmd path : list Z) (fd : Z) (s : machine) : option machine :=
  '(rc, s) ← k_close fd s;
  if rc <? 0 then shell_print_posix_path_error cmd path rc s else Some s.

Definition cat_file (fuel : nat) (path : list Z) (s : machine) : option machine :=
  '(fd, s) ← k_open path FS_O_RDONLY s;
  if fd <? 0 then shell_print_posix_path_error (cstr "cat") path fd s
  else s ← cat_loop fuel path fd s; close_reporting (cstr "cat") path fd s.

(** A command over every operand. *)
Fixpoint for_each (f : list Z -> machine -> option machine) (paths : list (list Z)) (s : machine) : option machine :=
  match paths with
  | [] => Some s
  | path :: rest => s ← f path s; for_each f rest s
  end.

Definition shell_cmd_cat (fuel : nat) (args : list (list Z)) (s : machine) : option machine :=
  let usage := shell_print_usage (cstr "cat") (cstr "usage: cat [-u] [file ...]") in
  match cat_options args with
  | None | Some [] => usage s
  | Some paths => for_each (cat_file fuel) paths s
  end.

(** One [--] in front of the operands. *)
Definition after_dashes (args : list (list Z)) : list (list Z) :=
  match args with arg :: rest => if is_arg "--" arg then rest else args | [] => [] end.

Definition stat_file (path : list Z) (s : machine) : option machine :=
  '(r, s) ← k_stat path s;
  match r with
  | inl rc => shell_print_posix_path_error (cstr "stat") path rc s
  | inr st => tty_puts (path ++ cstr ": mode 0x" ++ hex_digits_of 8 (st_mode st) ++ cstr " size " ++ u32_dec (st_size st) ++ [10]) s
  end.

Definition shell_cmd_stat (args : list (list Z)) (s : machine) : option machine :=
  match after_dashes args with
  | [] => shell_print_usage (cstr "stat") (cstr "usage: stat path ...") s
  | paths => for_each stat_file paths s
  end.

Definition touch_file (path : list Z) (s : machine) : option machine :=
  '(fd, s) ← k_open path (Z.lor FS_O_CREAT FS_O_RDWR) s;
  if fd <? 0 then shell_print_posix_path_error (cstr "touch") path fd s
  else close_reporting (cstr "touch") path fd s.

Definition shell_cmd_touch (args : list (list Z)) (s : machine) : option machine :=
  match after_dashes args with
  | [] => shell_print_usage (cstr "touch") (cstr "usage: touch file ...") s
  | paths => for_each touch_file paths s
  end.

Fixpoint write_options (args : list (list Z)) (append newline : bool) : list (list Z) * bool * bool :=
  match args with
  | [] => ([], append, newline)
  | arg :: rest =>
      if is_arg "--" arg then (rest, append, newline)
      else if is_arg "-a" arg then write_options rest true newline
      else if is_arg "-n" arg then write_options rest append false
      else (args, append, newline)
  end.

Definition shell_cmd_write (args : list (list Z)) (s : machine) : option machine :=
  match write_options args false true with
  | (file :: ((_ :: _) as words), append, newline) =>
      let data := spaced words ++ (if newline : bool then [10] else []) in
      if SHELL_LINE_CAP <=? Z.of_nat (length data) then shell_print_usage (cstr "write") (cstr "text too long") s
      else
        '(fd, s) ← k_open file (Z.lor (Z.lor FS_O_CREAT (if append : bool then FS_O_APPEND else FS_O_TRUNC)) FS_O_WRONLY) s;
        if fd <? 0 then shell_print_posix_path_error (cstr "write") file fd s
        else
          '(rc, s) ← k_write fd data s;
          if rc <? 0 then
            s ← shell_print_posix_path_error (cstr "write") file rc s;
            '(_, s) ← k_close fd s; Some s
          else close_reporting (cstr "write") file fd s
  | _ => shell_print_usage (cstr "write") (cstr "usage: write [-a] [-n] file text...") s
  end.

(** The path of an entry in a buffer of [FS_PATH_CAP] bytes, or that it does not fit. *)
Definition rm_child (target name : list Z) : option (list Z) :=
  let base := take (Z.to_nat (FS_PATH_CAP - 1)) target in
  let p := Z.of_nat (length base) in
  if (p =? 0) || (FS_PATH_CAP <=? p + 2) then None
  else
    let base := if char_at base (length base - 1) =? slash then base else base ++ [slash] in
    if FS_PATH_CAP - 1 <? Z.of_nat (length base) + Z.of_nat (length name) then None else Some (base ++ name).

(** The loop over the entries: whether one could not be removed. *)
Fixpoint rm_children (remove : list Z -> machine -> option (Z * machine)) (target : list Z) (entries : list fs_dirent)
    (failed : bool) (s : machine) : option (bool * machine) :=
  match entries with
  | [] => Some (failed, s)
  | (name, _) :: rest =>
      if is_arg "." name || is_arg ".." name then rm_children remove target rest failed s
      else match rm_child target name with
           | None => rm_children remove target rest true s
           | Some child => '(rc, s) ← remove child s; rm_children remove target rest (failed || negb (rc =? 0)) s
           end
  end.

(** The end of a removal: [rc] of [rmdir] or [unlink]. *)
Definition rm_done (force : bool) (r : Z + unit) (s : machine) : option (Z * machine) :=
  match r with
  | inr _ => Some (0, s)
  | inl rc => if force && (rc =? FS_ERR_NOT_FOUND) then Some (0, s)
              else s ← shell_print_fs_error (cstr "rm") rc s; Some (1, s)
  end.

(** [levels] is [16 - depth]. *)
Fixpoint shell_rm_recursive (levels : nat) (recursive force : bool) (target : list Z) (s : machine) : option (Z * machine) :=
  '(r, s) ← fs_call (fs_core_stat (Some target)) s;
  match r with
  | inl rc => if force && (rc =? FS_ERR_NOT_FOUND) then Some (0, s)
              else s ← shell_print_fs_error (cstr "rm") rc s; Some (1, s)
  | inr st =>
      if shell_is_directory_mode (st_mode st) then
        if negb recursive then s ← tty_puts (cstr "rm: is a directory (use -r)" ++ [10]) s; Some (1, s)
        else
          match levels with
          | O => s ← tty_puts (cstr "rm: depth limit exceeded" ++ [10]) s; Some (1, s)
          | Datatypes.S levels =>
              '(r, s) ← fs_call (fs_core_list_dir (Some target) SHELL_LIST_CAP) s;
              match r with
              | inl rc => s ← shell_print_fs_error (cstr "rm") rc s; Some (1, s)
              | inr entries =>
                  '(failed, s) ← rm_children (shell_rm_recursive levels true force) target entries false s;
                  if (failed : bool) then Some (1, s)
                  else '(r, s) ← fs_call (fs_core_rmdir (Some target)) s; rm_done force r s
              end
          end
      else '(r, s) ← fs_call (fs_core_unlink (Some target)) s; rm_done force r s
  end.

(** The operands and the options [-f] and [-r], or [None] for another option. *)
Fixpoint rm_options (args : list (list Z)) (force recursive : bool) : option (list (list Z) * bool * bool) :=
  match args with
  | [] => Some ([], force, recursive)
  | arg :: rest =>
      if is_arg "--" arg then Some (rest, force, recursive)
      else if negb (char_at arg 0 =? 45) || (char_at arg 1 =? 0) then Some (args, force, recursive)
      else if forallb (fun c => (c =? 102) || (c =? 114) || (c =? 82)) (drop 1 arg)
      then rm_options rest (force || existsb (fun c => c =? 102) (drop 1 arg))
             (recursive || existsb (fun c => (c =? 114) || (c =? 82)) (drop 1 arg))
      else None
  end.

Definition rm_operand (recursive force : bool) (path : list Z) (s : machine) : option machine :=
  '(r, s) ← shell_normalize_path path s;
  match r with
  | inl rc => shell_print_fs_error (cstr "rm") rc s
  | inr target =>
      '(cwd, s) ← cwd_path s;
      if (length target <=? 1)%nat || shell_streq target cwd
      then tty_puts (cstr "rm: refusing to remove root or current directory" ++ [10]) s
      else '(_, s) ← shell_rm_recursive 16 recursive force target s; Some s
  end.

Definition shell_cmd_rm (args : list (list Z)) (s : machine) : option machine :=
  let usage := shell_print_usage (cstr "rm") (cstr "usage: rm [-rf] path ...") in
  match rm_options args false false with
  | None => usage s
  | Some ([], force, _) => if force : bool then Some s else usage s
  | Some (paths, force, recursive) => for_each (rm_operand recursive force) paths s
  end.

Definition shell_cmd_exec (args : list (list Z)) (s : machine) : option machine :=
  match after_dashes args with
  | [] => shell_print_usage (cstr "exec") (cstr "usage: exec file.prg [args...]") s
  | (file :: _) as child_argv =>
      '(rc, s) ← k_execve file (take (SHELL_ARGV_MAX - 1) child_argv) s;
      if rc <? 0 then shell_print_posix_path_error (cstr "exec") file rc s else Some s
  end.

(** *** Completion of paths *)

Definition shell_find_unique_path_match (token : list Z) (completed_cap : Z) (s : machine) : option (option (list Z) * machine) :=
  let '(dir_path, base, prefix) := split_path_token token in
  '(r, s) ← fs_call (fs_core_list_dir (Some dir_path) SHELL_LIST_CAP) s;
  Some (match r with
        | inl _ => None
        | inr entries => unique (fun e => shell_startswith (fst e) prefix) entries ≫= completed_path completed_cap base
        end, s).

Definition shell_tab_hook (cap : Z) (ln : line) (s : machine) : option (line * machine) :=
  if (cursor ln =? 0) || (len ln <? cursor ln) then Some (ln, s)
  else
    let c := Z.to_nat (cursor ln) in
    let token_start := token_start_from (buf ln) c in
    let token_end := token_end_from (buf ln) (Z.to_nat (len ln) - c) c in
    let token := before_nul (take (c - token_start) (drop token_start (buf ln))) in
    if (token_start =? token_end)%nat then Some (ln, s)
    else match token with
    | [] => Some (ln, s)
    | _ =>
      '(replacement, s) ← (if (words_before (buf ln) token_start =? 0)%nat then Some (shell_find_unique_command token, s)
                           else shell_find_unique_path_match token SHELL_LINE_CAP s);
      match replacement with
      | None => Some (ln, s)
      | Some text => '(_, ln) ← shell_replace_token cap (Z.of_nat token_start) (Z.of_nat token_end) text ln; Some (ln, s)
      end
    end.

(** *** One line *)

Definition shell_print_prompt (s : machine) : option machine :=
  s ← set_color TTY_WHITE s;
  s ← tty_puts (cstr "kernel:") s;
  '(cwd, s) ← cwd_path s;
  s ← tty_puts cwd s;
  tty_puts (cstr "> ") s.

(** The commands that only act on the machine. *)
Definition dispatch (fuel : nat) (k : kshell) (cmd : list Z) (args : list (list Z)) : machine -> option machine :=
  if is_arg "help" cmd then shell_cmd_help
  else if is_arg "clear" cmd then shell_cmd_clear
  else if is_arg "echo" cmd then shell_cmd_echo args
  else if is_arg "version" cmd then shell_version
  else if is_arg "reboot" cmd then shell_cmd_reboot
  else if is_arg "shutdown" cmd then shell_cmd_shutdown
  else if is_arg "shell" cmd then shell_cmd_shell
  else if is_arg "pwd" cmd then shell_cmd_pwd args
  else if is_arg "ls" cmd then shell_cmd_ls args
  else if is_arg "cat" cmd then shell_cmd_cat fuel args
  else if is_arg "stat" cmd then shell_cmd_stat args
  else if is_arg "mkdir" cmd then shell_cmd_mkdir args
  else if is_arg "touch" cmd then shell_cmd_touch args
  else if is_arg "write" cmd then shell_cmd_write args
  else if is_arg "rm" cmd then shell_cmd_rm args
  else if is_arg "sync" cmd then shell_cmd_sync
  else if is_arg "history" cmd then shell_cmd_history k
  else if is_arg "ticks" cmd then shell_cmd_ticks
  else if is_arg "exec" cmd then shell_cmd_exec args
  else if is_arg "fsstat" cmd then shell_cmd_fsstat
  else if is_arg "mmstat" cmd then shell_cmd_mmstat
  else complain (cstr "kernel: command not found: " ++ cmd).

(** What the loop does with the line that was read, an array of [SHELL_LINE_CAP] bytes. *)
Definition shell_run_line (fuel : nat) (text : list Z) (x : st) : option st :=
  let '(k, s) := x in
  r ← shell_tokenize SHELL_ARGV_MAX text;
  match r with
  | inl rc =>
      s ← (if rc =? -1 then complain (cstr "kernel: syntax error: unterminated quote or escape") s
           else complain (cstr "kernel: too many arguments") s);
      Some (k, s)
  | inr (text', argv) =>
      match string_from text' <$> argv with
      | [] => Some (k, s)
      | cmd :: args =>
          let k := shell_history_push (before_nul text) k in
          if is_arg "cd" cmd then shell_cmd_cd args (k, s)
          else s ← dispatch fuel k cmd args s; Some (k, s)
      end
  end.

(** One turn of the loop; [read_line] is the line reader with the hooks of the shell. *)
Definition shell_core_turn (read_line : st -> option (list Z * st)) (fuel : nat) (x : st) : option st :=
  let '(k, s) := x in
  s ← shell_print_prompt s;
  '(text, x) ← read_line (shell_history_reset_line_state k, s);
  shell_run_line fuel text x.

End Commands.
End KShell.
