(* ===== verification/KShellLine.v ===== *)
(** * The line of the kernel shell

    The in-place splitter against a grammar of command lines, what completion does to the
    rest of the line, and the variables and the line of the shell staying inside their
    arrays. *)

From S2P Require Import Prelude FsTypes FsPath LineEdit Display KShell.
From stdpp Require Import base list option list_numbers strings.
From Stdlib Require Import ZArith Lia ZifyBool.
Import FsTypes FsPath LineEdit Display.Tty KShell.
Open Scope Z_scope.

Module KShellLine.

(** ** The grammar of command lines *)

(** A stretch inside double quotes. *)
Variant inner := IChar (c : Z) | IEscaped (c : Z) | IKept (c : Z) | IJoined.

(** A stretch of a token: a character, an escaped one, an escaped line end, a quotation. *)
Variant piece := Char (c : Z) | Escaped (c : Z) | Joined | Single (s : list Z) | Double (l : list inner).

Definition inner_ok (i : inner) : bool :=
  match i with
  | IChar c => negb (c =? 0) && negb (c =? 34) && negb (c =? 92)
  | IEscaped c => escapable c
  | IKept c => negb (c =? 0) && negb (c =? 10) && negb (escapable c)
  | IJoined => true
  end.
Definition piece_ok (p : piece) : bool :=
  match p with
  | Char c => negb (c =? 0) && negb (shell_is_space c) && negb (c =? 39) && negb (c =? 34) && negb (c =? 92)
  | Escaped c => negb (c =? 0) && negb (c =? 10)
  | Joined => true
  | Single s => forallb (fun c => negb (c =? 0) && negb (c =? 39)) s
  | Double l => forallb inner_ok l
  end.

(** How a stretch is typed. *)
Definition inner_text (i : inner) : list Z :=
  match i with IChar c => [c] | IEscaped c | IKept c => [92; c] | IJoined => [92; 10] end.
Definition piece_text (p : piece) : list Z :=
  match p with
  | Char c => [c]
  | Escaped c => [92; c]
  | Joined => [92; 10]
  | Single s => 39 :: s ++ [39]
  | Double l => 34 :: concat (inner_text <$> l) ++ [34]
  end.

(** What it stands for. *)
Definition inner_value (i : inner) : list Z :=
  match i with IChar c | IEscaped c => [c] | IKept c => [92; c] | IJoined => [] end.
Definition piece_value (p : piece) : list Z :=
  match p with
  | Char c | Escaped c => [c]
  | Joined => []
  | Single s => s
  | Double l => concat (inner_value <$> l)
  end.

Notation token := (list piece).
Definition token_text (t : token) : list Z := concat (piece_text <$> t).
Definition token_value (t : token) : list Z := concat (piece_value <$> t).
Definition joined (p : piece) : bool := match p with Joined => true | _ => false end.
Definition token_ok (t : token) : bool := forallb piece_ok t && negb (forallb joined t).

Definition starts_apart (s : list Z) : Prop := match s with [] => True | c :: _ => shell_is_space c = true end.

(** A line and its tokens. *)
Inductive line_of : list Z -> list token -> Prop :=
  | line_blank sp : forallb shell_is_space sp = true -> line_of sp []
  | line_token sp t s ts :
      forallb shell_is_space sp = true -> token_ok t = true -> starts_apart s -> line_of s ts ->
      line_of (sp ++ token_text t ++ s) (t :: ts).

(** ** One token of a string *)

(** The word at the front of a string and what is left, or [None] for a syntax error. *)
Fixpoint tok (in_single in_double started : bool) (s : list Z) : option (list Z * list Z) :=
  let fin := if in_single || in_double || negb started then None else Some ([], s) in
  let put cs r := '(w, r) ← r; Some (cs ++ w, r) in
  match s with
  | [] => fin
  | c :: rest =>
      if negb in_single && negb in_double && shell_is_space c then fin
      else if negb in_double && (c =? 39) then tok (negb in_single) in_double true rest
      else if negb in_single && (c =? 34) then tok in_single (negb in_double) true rest
      else if negb in_single && (c =? 92) then
        match rest with
        | [] => None
        | escaped :: rest' =>
            if escaped =? 10 then tok in_single in_double started rest'
            else if in_double && negb (escapable escaped) then put [c] (tok in_single in_double true rest)
            else put [escaped] (tok in_single in_double true rest')
        end
      else put [c] (tok in_single in_double true rest)
  end.

Definition no_nul (s : list Z) : Prop := Forall (fun c => c <> 0) s.

(** The text [s] lies in the array at [i], before its terminating zero. *)
Definition text_at (a : list Z) (i : nat) (s rest : list Z) : Prop := drop i a = s ++ 0 :: rest /\ no_nul s.

Lemma text_at_head a i c s rest : text_at a i (c :: s) rest -> a !! i = Some c /\ c <> 0 /\ text_at a (S i) s rest.
Proof.
  intros [E N]. inversion N; subst. split_and!; [|done|split; [|done]].
  - rewrite <- (Nat.add_0_r i), <- lookup_drop, E. done.
  - replace (S i) with (i + 1)%nat by lia. by rewrite <- drop_drop, E.
Qed.

Lemma text_at_end a i rest : text_at a i [] rest -> a !! i = Some 0.
Proof. intros [E _]. by rewrite <- (Nat.add_0_r i), <- lookup_drop, E. Qed.

Lemma text_at_lt a i s rest : text_at a i s rest -> (i + length s < length a)%nat.
Proof. intros [E _]. apply (f_equal length) in E. rewrite length_drop, length_app in E. cbn in E. lia. Qed.

(** Writing below the text leaves it alone. *)
Lemma text_at_insert a i j v s rest : (j < i)%nat -> text_at a i s rest -> text_at (<[j := v]> a) i s rest.
Proof. intros H [E N]. split; [|done]. by rewrite drop_insert_lt. Qed.

(** The loop over one token computes [tok] and leaves the word at [w]. *)
Definition token_result (a : list Z) (r w : nat) (s rest : list Z) (t : option (list Z * list Z)) (o : option (Z + (list Z * Z * Z))) : Prop :=
  match t with
  | None => o = Some (inl (-1))
  | Some (word, s') =>
      exists r', o = Some (inr (written a w word, Z.of_nat r', Z.of_nat (w + length word))) /\
        (w + length word <= r')%nat /\ text_at (written a w word) r' s' rest /\ (r' + length s' = r + length s)%nat
  end.

Lemma token_result_put c a r r' w s s1 rest t o :
  (w < length a)%nat -> (r' + length s1 = r + length s)%nat ->
  token_result (<[w := c]> a) r' (S w) s1 rest t o ->
  token_result a r w s rest ('(word, s') ← t; Some ([c] ++ word, s')) o.
Proof.
  intros Hw Hr H. destruct t as [[word s']|]; [|done]. cbn in H |- *. destruct H as (q & -> & H1 & H2 & H3).
  exists q. rewrite written_cons in H2 |- * by done. split_and!; [do 3 f_equal; lia|lia|done|lia].
Qed.

Lemma token_result_skip a r r' w s s1 rest t o :
  (r' + length s1 = r + length s)%nat -> token_result a r' w s1 rest t o -> token_result a r w s rest t o.
Proof.
  intros Hr H. destruct t as [[word s']|]; [|done]. destruct H as (q & -> & H1 & H2 & H3). exists q. split_and!; done || lia.
Qed.

Lemma token_result_finish a r w s rest (bad : bool) :
  (w <= r)%nat -> text_at a r s rest ->
  token_result a r w s rest (if bad then None else Some ([], s)) (Some (if bad then inl (-1) else inr (a, Z.of_nat r, Z.of_nat w))).
Proof.
  intros H T. destruct bad; [done|]. exists r. rewrite written_nil. cbn. rewrite Nat.add_0_r. by split_and!.
Qed.

Lemma token_loop_tok rest fuel : forall s a r w sq dq st,
  text_at a r s rest -> (w <= r)%nat -> (length s < fuel)%nat ->
  token_result a r w s rest (tok sq dq st s) (token_loop fuel a (Z.of_nat r) (Z.of_nat w) sq dq st).
Proof.
  induction fuel as [|fuel IH]; intros s a r w sq dq st T Hw Hf; [lia|].
  pose proof (text_at_lt _ _ _ _ T) as Hlt. cbn [token_loop]. rewrite aget_nat.
  destruct s as [|c s].
  { rewrite (text_at_end _ _ _ T). cbn. by apply (token_result_finish a r w [] rest). }
  destruct (text_at_head _ _ _ _ _ T) as (-> & Hc & T1). cbn [length] in Hlt, Hf. cbn [mbind option_bind tok].
  rewrite (proj2 (Z.eqb_neq c 0)) by done. cbv iota.
  replace (Z.of_nat r + 1) with (Z.of_nat (S r)) by lia.
  assert (forall st', token_result a r w (c :: s) rest ('(word, s') ← tok sq dq st' s; Some ([c] ++ word, s'))
            (a ← aset a (Z.of_nat w) c; token_loop fuel a (Z.of_nat (S r)) (Z.of_nat w + 1) sq dq st')) as Hput.
  { intros st'. rewrite aset_nat by lia. cbn [mbind option_bind]. replace (Z.of_nat w + 1) with (Z.of_nat (S w)) by lia.
    eapply (token_result_put c a r (S r) w _ s); [lia|cbn; lia|]. apply IH; [|lia|lia]. apply text_at_insert; [lia|done]. }
  case_match; [by apply token_result_finish|].
  case_match; [eapply (token_result_skip a r (S r) w _ s); [cbn; lia|apply IH; done || lia]|].
  case_match; [eapply (token_result_skip a r (S r) w _ s); [cbn; lia|apply IH; done || lia]|].
  case_match; [|apply Hput]. rewrite aget_nat. destruct s as [|e s].
  { by rewrite (text_at_end _ _ _ T1). }
  destruct (text_at_head _ _ _ _ _ T1) as (-> & He & T2). cbn [length] in Hlt, Hf. cbn [mbind option_bind].
  rewrite (proj2 (Z.eqb_neq e 0)) by done. cbv iota. replace (Z.of_nat r + 2) with (Z.of_nat (S (S r))) by lia.
  case_match; [eapply (token_result_skip a r (S (S r)) w _ s); [cbn; lia|apply IH; done || lia]|].
  case_match; [apply Hput|].
  rewrite aset_nat by lia. cbn [mbind option_bind]. replace (Z.of_nat w + 1) with (Z.of_nat (S w)) by lia.
  eapply (token_result_put e a r (S (S r)) w _ s); [lia|cbn; lia|]. apply IH; [|lia|lia]. apply text_at_insert; [lia|done].
Qed.

(** ** [tok] reads the tokens of the grammar *)

Lemma tok_single : forall s st w s', no_nul s -> tok true false st s = Some (w, s') ->
  exists q s1 w1, s = q ++ 39 :: s1 /\ w = q ++ w1 /\ tok false false true s1 = Some (w1, s') /\ piece_ok (Single q) = true.
Proof.
  induction s as [|c s IH]; intros st w s' N; [done|]. inversion N; subst. cbn [tok orb andb negb].
  destruct (c =? 39) eqn:E.
  - intros H. exists [], s, w. cbn in H. assert (c = 39) as -> by lia. by split_and!.
  - destruct (tok true false true s) as [[w0 s0]|] eqn:Et; [|done]. cbn. intros [= <- <-].
    destruct (IH _ _ _ ltac:(done) Et) as (q & s1 & w1 & -> & -> & Ht & Hq).
    exists (c :: q), s1, w1. split_and!; try done. cbn in Hq |- *. rewrite Hq, E. by destruct (c =? 0) eqn:?; [lia|].
Qed.

Lemma tok_double n : forall s st w s', (length s <= n)%nat -> no_nul s -> tok false true st s = Some (w, s') ->
  exists l s1 w1, s = concat (inner_text <$> l) ++ 34 :: s1 /\ w = concat (inner_value <$> l) ++ w1 /\
    tok false false true s1 = Some (w1, s') /\ piece_ok (Double l) = true.
Proof.
  induction n as [|n IH]; intros [|c s] st w s' Hl N; try done; [cbn in Hl; lia|]. inversion N; subst. cbn in Hl.
  cbn [tok orb andb negb]. destruct (c =? 34) eqn:E.
  { intros H. exists [], s, w. cbn in H. assert (c = 34) as -> by lia. by split_and!. }
  destruct (c =? 92) eqn:E2.
  - assert (c = 92) as -> by lia. destruct s as [|e s]; [done|]. inversion H2; subst. cbn in Hl.
    destruct (e =? 10) eqn:E3; [|destruct (negb (escapable e)) eqn:E4].
    + intros H. destruct (IH s _ _ _ ltac:(lia) ltac:(done) H) as (l & s1 & w1 & -> & -> & Ht & Hq).
      exists (IJoined :: l), s1, w1. assert (e = 10) as -> by lia. by split_and!.
    + cbn [tok orb andb negb]. assert (e =? 34 = false /\ e =? 92 = false) as [-> ->] by (unfold escapable in E4; lia).
      destruct (tok false true true s) as [[w0 s0]|] eqn:Et; [|done]. cbn. intros [= <- <-].
      destruct (IH s _ _ _ ltac:(lia) ltac:(done) Et) as (l & s1 & w1 & -> & -> & Ht & Hq).
      exists (IKept e :: l), s1, w1. split_and!; try done. cbn in Hq |- *. rewrite Hq, E3, E4. by rewrite (proj2 (Z.eqb_neq e 0)).
    + destruct (tok false true true s) as [[w0 s0]|] eqn:Et; [|done]. cbn. intros [= <- <-].
      destruct (IH s _ _ _ ltac:(lia) ltac:(done) Et) as (l & s1 & w1 & -> & -> & Ht & Hq).
      exists (IEscaped e :: l), s1, w1. split_and!; try done. cbn in Hq |- *. apply negb_false_iff in E4. by rewrite Hq, E4.
  - destruct (tok false true true s) as [[w0 s0]|] eqn:Et; [|done]. cbn. intros [= <- <-].
    destruct (IH s _ _ _ ltac:(lia) ltac:(done) Et) as (l & s1 & w1 & -> & -> & Ht & Hq).
    exists (IChar c :: l), s1, w1. split_and!; try done. cbn in Hq |- *. rewrite Hq, E, E2. by rewrite (proj2 (Z.eqb_neq c 0)).
Qed.

Lemma no_nul_app s1 s2 : no_nul (s1 ++ s2) <-> no_nul s1 /\ no_nul s2.
Proof. apply Forall_app. Qed.

(** A token found is a token of the grammar. *)
Lemma tok_sound n : forall s st w s', (length s <= n)%nat -> no_nul s -> tok false false st s = Some (w, s') ->
  exists t, forallb piece_ok t = true /\ s = token_text t ++ s' /\ w = token_value t /\ starts_apart s' /\
    st || negb (forallb joined t) = true.
Proof.
  induction n as [|n IH]; intros [|c s] st w s' Hl N; try (cbn in Hl; lia).
  1-2: (destruct st; [|done]; intros [= <- <-]; by exists []).
  inversion N; subst. cbn in Hl. cbn [tok orb andb negb].
  assert (forall p s1 w1 st1, piece_ok p = true -> joined p = false \/ st1 = st -> c :: s = piece_text p ++ s1 -> no_nul s1 -> (length s1 <= n)%nat ->
    tok false false st1 s1 = Some (w1, s') ->
    exists t, forallb piece_ok t = true /\ c :: s = token_text t ++ s' /\ piece_value p ++ w1 = token_value t /\ starts_apart s' /\
      st || negb (forallb joined t) = true) as step.
  { intros p s1 w1 st1 Hp Hj E Hn Hs H. destruct (IH s1 _ _ _ Hs Hn H) as (t & Ht & -> & -> & Hs' & Hst).
    exists (p :: t). cbn [forallb]. rewrite Hp, Ht, E. unfold token_text, token_value. cbn. rewrite app_assoc.
    split_and!; try done. destruct Hj as [->| ->]; [by rewrite orb_true_r|]. destruct st, (joined p); done. }
  destruct (shell_is_space c) eqn:Esp.
  { destruct st; [|done]. intros [= <- <-]. exists []. by split_and!. }
  destruct (c =? 39) eqn:E1.
  { intros H. destruct (tok_single _ _ _ _ ltac:(done) H) as (q & s1 & w1 & -> & -> & Ht & Hq). assert (c = 39) as -> by lia.
    apply no_nul_app in H2 as [_ N1]. inversion N1; subst. rewrite length_app in Hl. cbn in Hl.
    apply (step (Single q) s1 w1 true); try done; [by left|cbn; by rewrite <- app_assoc|lia]. }
  destruct (c =? 34) eqn:E2.
  { intros H. destruct (tok_double (length s) s _ _ _ (le_n _) ltac:(done) H) as (q & s1 & w1 & -> & -> & Ht & Hq). assert (c = 34) as -> by lia.
    apply no_nul_app in H2 as [_ N1]. inversion N1; subst. rewrite length_app in Hl. cbn in Hl.
    apply (step (Double q) s1 w1 true); try done; [by left|cbn; by rewrite <- app_assoc|lia]. }
  destruct (c =? 92) eqn:E3.
  - assert (c = 92) as -> by lia. destruct s as [|e s]; [done|]. inversion H2; subst. cbn in Hl. destruct (e =? 10) eqn:E4.
    + intros H. assert (e = 10) as -> by lia. apply (step Joined s w st); done || (by right) || lia.
    + cbn [andb]. destruct (tok false false true s) as [[w0 s0]|] eqn:Et; [|done]. cbn. intros [= <- <-].
      apply (step (Escaped e) s w0 true); try (done || (by left) || lia). cbn. by rewrite E4, (proj2 (Z.eqb_neq e 0)).
  - destruct (tok false false true s) as [[w0 s0]|] eqn:Et; [|done]. cbn. intros [= <- <-].
    apply (step (Char c) s w0 true); try (done || (by left) || lia). cbn. by rewrite Esp, E1, E2, E3, (proj2 (Z.eqb_neq c 0)).
Qed.

(** And a token of the grammar is found. *)
Lemma tok_single_complete q s : piece_ok (Single q) = true ->
  tok true false true (q ++ 39 :: s) = ('(w, r) ← tok false false true s; Some (q ++ w, r)).
Proof.
  induction q as [|c q IH]; intros H.
  { cbn. by destruct (tok _ _ _ s) as [[]|]. }
  cbn in H. apply andb_true_iff in H as [H1 H2]. cbn [app tok orb andb negb].
  assert (c =? 39 = false) as -> by lia. rewrite (IH H2). by destruct (tok _ _ _ s) as [[]|].
Qed.

Lemma tok_double_complete l s : piece_ok (Double l) = true ->
  tok false true true (concat (inner_text <$> l) ++ 34 :: s) =
  ('(w, r) ← tok false false true s; Some (concat (inner_value <$> l) ++ w, r)).
Proof.
  induction l as [|i l IH]; intros H.
  { cbn. by destruct (tok _ _ _ s) as [[]|]. }
  cbn in H. apply andb_true_iff in H as [H1 H2]. specialize (IH H2). destruct i as [c|c|c|]; cbn in H1.
  - cbn -[tok]. cbn [app tok orb andb negb]. assert (c =? 34 = false /\ c =? 92 = false) as [-> ->] by lia.
    rewrite IH. by destruct (tok _ _ _ s) as [[]|].
  - cbn -[tok]. cbn [app tok orb andb negb]. rewrite H1. assert (c =? 10 = false) as -> by (unfold escapable in H1; lia). cbn.
    rewrite IH. by destruct (tok _ _ _ s) as [[]|].
  - cbn -[tok]. cbn [app tok orb andb negb]. assert (c =? 10 = false) as -> by lia.
    assert (negb (escapable c) = true) as -> by (destruct (escapable c); [lia|done]).
    assert (c =? 34 = false /\ c =? 92 = false) as [E1 E2] by (unfold escapable in H1; lia).
    change (92 =? 34) with false. change (92 =? 92) with true. cbv iota. rewrite E1, E2, IH. by destruct (tok _ _ _ s) as [[]|].
  - cbn -[tok]. cbn [app tok orb andb negb]. cbn. rewrite IH. by destruct (tok _ _ _ s) as [[]|].
Qed.

Lemma tok_complete t : forall s' st, forallb piece_ok t = true -> starts_apart s' -> st || negb (forallb joined t) = true ->
  tok false false st (token_text t ++ s') = Some (token_value t, s').
Proof.
  induction t as [|p t IH]; intros s' st Ht Hs Hst.
  { cbn in Hst. rewrite orb_false_r in Hst. subst. destruct s' as [|c s']; [done|]. cbn in Hs. cbn. by rewrite Hs. }
  cbn in Ht. apply andb_true_iff in Ht as [Hp Ht]. unfold token_text, token_value. cbn [fmap list_fmap concat].
  fold (token_text t). fold (token_value t). rewrite <- app_assoc. specialize (IH s').
  destruct p as [c|c| |q|l]; cbn [piece_text piece_value app].
  - cbn in Hp. cbn [app tok orb andb negb]. destruct (shell_is_space c); [lia|].
    assert (c =? 39 = false /\ c =? 34 = false /\ c =? 92 = false) as (-> & -> & ->) by lia. by rewrite (IH true).
  - cbn in Hp. cbn [app tok orb andb negb]. cbn. assert (c =? 10 = false) as -> by lia. by rewrite (IH true).
  - cbn. by apply (IH st).
  - cbn [tok orb andb negb]. cbn -[app tok]. rewrite <- app_assoc. cbn [app]. rewrite tok_single_complete by done. by rewrite (IH true).
  - cbn [tok orb andb negb]. cbn -[app tok fmap concat]. rewrite <- app_assoc. cbn [app]. rewrite tok_double_complete by done. by rewrite (IH true).
Qed.

(** ** Lines *)

Fixpoint skip_sp (s : list Z) : list Z :=
  match s with c :: r => if shell_is_space c then skip_sp r else s | [] => [] end.

Lemma skip_sp_spaces sp s : forallb shell_is_space sp = true -> skip_sp (sp ++ s) = skip_sp s.
Proof. induction sp as [|c sp IH]; cbn; [done|]. destruct (shell_is_space c); [apply IH|done]. Qed.

Lemma skip_sp_split s : exists sp, forallb shell_is_space sp = true /\ s = sp ++ skip_sp s.
Proof.
  induction s as [|c s (sp & H1 & H2)]; [by exists []|]. cbn. destruct (shell_is_space c) eqn:E; [|by exists []].
  exists (c :: sp). cbn. rewrite E. split; [done|]. by rewrite <- H2.
Qed.

Lemma token_text_front t s : token_ok t = true -> skip_sp (token_text t ++ s) = token_text t ++ s.
Proof.
  unfold token_ok. destruct t as [|p t]; [done|]. cbn. intros H. destruct p; cbn in H |- *; try done.
  destruct (shell_is_space c); [lia|done].
Qed.

(** The first token of a line. *)
Lemma line_of_front s ts : line_of s ts ->
  match ts with
  | [] => skip_sp s = []
  | t :: ts => exists s', tok false false false (skip_sp s) = Some (token_value t, s') /\ line_of s' ts
  end.
Proof.
  intros H. destruct H as [sp H|sp t s ts H Ht Hs H'].
  - by rewrite <- (app_nil_r sp), skip_sp_spaces.
  - exists s. split; [|done]. rewrite skip_sp_spaces, token_text_front by done. unfold token_ok in Ht.
    apply andb_true_iff in Ht as [H1 H2]. by apply tok_complete.
Qed.

Lemma line_of_cons s w s' : no_nul s -> tok false false false (skip_sp s) = Some (w, s') ->
  exists t, token_ok t = true /\ token_value t = w /\ (forall ts, line_of s' ts -> line_of s (t :: ts)) /\
    starts_apart s' /\ (length s' < length s)%nat.
Proof.
  intros N H. destruct (skip_sp_split s) as (sp & Hsp & E). rewrite E in N. apply no_nul_app in N as [_ N].
  destruct (tok_sound _ _ _ _ _ (le_n _) N H) as (t & H1 & H2 & H3 & H4 & H5).
  assert (token_ok t = true) as Ht by (unfold token_ok; by rewrite H1).
  exists t. split_and!; [done|done| |done|].
  - intros ts Hl. rewrite E, H2. by apply line_token.
  - rewrite E, H2, !length_app. destruct t as [|p t]; [done|]. unfold token_text. cbn. rewrite length_app.
    destruct p; cbn; lia.
Qed.

Lemma line_of_skip s ts : line_of (skip_sp s) ts <-> line_of s ts.
Proof.
  destruct (skip_sp_split s) as (sp & Hsp & E). split; intros H.
  - rewrite E. inversion H as [sp' H1|sp' t s' ts' H1 H2 H3 H4]; subst.
    + apply line_blank. by rewrite forallb_app, Hsp.
    + rewrite app_assoc. apply line_token; [by rewrite forallb_app, Hsp|done..].
  - destruct H as [sp' H1|sp' t s' ts' H1 H2 H3 H4].
    + rewrite <- (app_nil_r sp'), skip_sp_spaces by done. by apply line_blank.
    + rewrite skip_sp_spaces, token_text_front by done. by apply (line_token []).
Qed.

(** ** The splitter *)

Lemma skip_spaces_text rest fuel : forall s a r, text_at a r s rest -> (length s < fuel)%nat ->
  exists r', skip_spaces fuel a (Z.of_nat r) = Some (Z.of_nat r') /\ text_at a r' (skip_sp s) rest /\
    (r' + length (skip_sp s) = r + length s)%nat /\ (r <= r')%nat.
Proof.
  induction fuel as [|fuel IH]; intros s a r T Hf; [lia|]. cbn [skip_spaces]. rewrite aget_nat. destruct s as [|c s].
  { rewrite (text_at_end _ _ _ T). cbn. by exists r. }
  destruct (text_at_head _ _ _ _ _ T) as (-> & Hc & T1). cbn [mbind option_bind skip_sp]. cbn in Hf.
  destruct (shell_is_space c); [|by exists r]. replace (Z.of_nat r + 1) with (Z.of_nat (S r)) by lia.
  destruct (IH s a (S r) T1 ltac:(lia)) as (r' & E & T' & H1 & H2). exists r'. split_and!; [done|done|cbn; lia|lia].
Qed.

(** A string that ends before [w] depends only on what is before [w]. *)
Lemma before_nul_ended s s1 s2 n : (exists i, (i < n)%nat /\ s1 !! i = Some 0) -> take n s1 = take n s2 -> s = before_nul s1 -> s = before_nul s2.
Proof.
  intros (i & Hi & H0) E ->. revert s2 n i Hi H0 E. induction s1 as [|c s1 IH]; intros s2 n i Hi H0 E; [done|].
  destruct n as [|n]; [lia|]. destruct s2 as [|c2 s2]; [done|]. cbn in E. injection E as <- E. cbn.
  destruct (c =? 0) eqn:Ec; [done|]. f_equal. destruct i as [|i]; [cbn in H0; injection H0 as ->; done|].
  apply (IH s2 n i); [lia|done|done].
Qed.

Definition ended (a : list Z) (w : nat) (p : Z) : Prop := exists q, (Z.to_nat p <= q < w)%nat /\ a !! q = Some 0.

Lemma ended_string a a' w p : ended a w p -> take w a' = take w a -> string_from a' p = string_from a p.
Proof.
  intros (q & Hq & H0) E. unfold string_from. symmetry. eapply (before_nul_ended _ _ _ (w - Z.to_nat p)); [| |done].
  - exists (q - Z.to_nat p)%nat. split; [lia|]. rewrite lookup_drop. by replace (_ + _)%nat with q by lia.
  - rewrite !take_drop_commute. replace (_ + _)%nat with w by lia. by rewrite E.
Qed.

Lemma ended_mono a a' w w' p : ended a w p -> take w a' = take w a -> (w <= w')%nat -> ended a' w' p.
Proof.
  intros (q & Hq & H0) E Hw. exists q. split; [lia|]. rewrite <- (lookup_take_lt a' w) by lia. rewrite E. by rewrite lookup_take_lt by lia.
Qed.

Lemma before_nul_word w rest : no_nul w -> before_nul (w ++ 0 :: rest) = w.
Proof. induction 1 as [|c w Hc _ IH]; [done|]. cbn. rewrite (proj2 (Z.eqb_neq c 0)) by done. by rewrite IH. Qed.

(** The word is a string in the array once its end is marked. *)
Lemma written_end a w word : (w + length word < length a)%nat ->
  exists tl, <[(w + length word)%nat := 0]> (written a w word) = take w a ++ word ++ 0 :: tl.
Proof.
  intros H. unfold written. rewrite insert_app_r_alt by (rewrite length_take; lia).
  rewrite length_take_le by lia. rewrite insert_app_r_alt by lia.
  replace (w + length word - w - length word)%nat with 0%nat by lia.
  destruct (drop (w + length word) a) as [|x tl] eqn:E; [|by exists tl].
  apply (f_equal length) in E. rewrite length_drop in E. cbn in E. lia.
Qed.

Lemma token_value_no_nul t : forallb piece_ok t = true -> no_nul (token_value t).
Proof.
  assert (forall l, forallb inner_ok l = true -> no_nul (concat (inner_value <$> l))) as HI.
  { intros l. induction l as [|i l IH]; cbn; [constructor|]. intros H. apply andb_true_iff in H as [H1 H2].
    apply no_nul_app. split; [|by apply IH]. destruct i; cbn in *; repeat constructor; unfold escapable in *; lia. }
  induction t as [|p t IH]; cbn; [constructor|]. intros H. apply andb_true_iff in H as [H1 H2].
  apply no_nul_app. split; [|by apply IH]. destruct p as [c|c| |q|l]; cbn in *; try (repeat constructor; lia); [|by apply HI].
  apply forallb_True, Forall_forall in H1 || (rewrite forallb_forall in H1). apply Forall_forall. intros x Hx. specialize (H1 x).
  rewrite <- list_elem_of_In in H1. specialize (H1 Hx). lia.
Qed.

Section Splitter.
Variables (cap : nat) (rest : list Z).

(** What the loop makes of the text [s] that ends at [e], with [argv] found so far. *)
Definition split_result (s a : list Z) (e w : nat) (argv : list Z) (o : Z + (list Z * list Z)) : Prop :=
  match o with
  | inl rc => (rc = -1 /\ forall ts, ~ line_of s ts) \/
              (rc = -2 /\ forall ts, line_of s ts -> (cap < length argv + length ts)%nat)
  | inr (a', argv') =>
      take w a' = take w a /\ drop e a' = 0 :: rest /\ (exists ts, line_of s ts) /\
      forall ts, line_of s ts -> (length argv + length ts <= cap)%nat /\
        string_from a' <$> argv' = (string_from a <$> argv) ++ (token_value <$> ts)
  end.

Lemma split_blank s a e w argv : skip_sp s = [] -> drop e a = 0 :: rest -> (length argv <= cap)%nat ->
  split_result s a e w argv (inr (a, argv)).
Proof.
  intros Hs He Ha. split_and!; [done|done| |].
  - exists []. apply line_of_skip. rewrite Hs. by apply line_blank.
  - intros ts H. pose proof (line_of_front s ts H) as F. destruct ts as [|t ts]; [split; [cbn; lia|by rewrite app_nil_r]|].
    destruct F as (s' & F & _). by rewrite Hs in F.
Qed.

(** A token in front of a line that is split. *)
Lemma split_token s word s' a a' e w w' argv o :
  no_nul s -> tok false false false (skip_sp s) = Some (word, s') -> Forall (ended a w) argv ->
  take w a' = take w a -> (w <= w')%nat -> string_from a' (Z.of_nat w) = word ->
  split_result (skip_sp s') a' e w' (argv ++ [Z.of_nat w]) o -> split_result s a e w argv o.
Proof.
  intros N Ht Hargv Hp Hw Hword H. destruct (line_of_cons s word s' N Ht) as (t & _ & Hv & Hl & _ & _).
  assert (forall ts, line_of s ts -> exists t' ts', ts = t' :: ts' /\ token_value t' = word /\ line_of (skip_sp s') ts') as inv.
  { intros ts H1. pose proof (line_of_front s ts H1) as F. destruct ts as [|t' ts'].
    - by rewrite F in Ht.
    - destruct F as (s2 & F1 & F2). rewrite F1 in Ht. injection Ht as E1 ->. exists t', ts'. split_and!; [done|done|by apply line_of_skip]. }
  destruct o as [rc|[a2 argv2]].
  - destruct H as [[-> H]|[-> H]]; [left|right]; (split; [done|]); intros ts H1; destruct (inv ts H1) as (t' & ts' & -> & _ & H2).
    + by apply (H ts').
    + specialize (H ts' H2). rewrite length_app in H. cbn in H |- *. lia.
  - destruct H as (H1 & H2 & (ts0 & H3) & H4). split_and!; [|done| |].
    + rewrite <- Hp. apply (f_equal (take w)) in H1. by rewrite !take_take, Nat.min_l in H1 by lia.
    + exists (t :: ts0). apply Hl. by apply line_of_skip.
    + intros ts Hts. destruct (inv ts Hts) as (t' & ts' & -> & Hv' & H5). destruct (H4 ts' H5) as [H6 ->].
      rewrite length_app in H6. split; [cbn in H6 |- *; lia|]. rewrite fmap_app, <- app_assoc. cbn [fmap list_fmap app].
      rewrite Hword, Hv'. f_equal. apply list_fmap_ext. intros i p Hpi. eapply ended_string; [|done].
      by eapply Forall_lookup in Hargv.
Qed.

(** The text behind a token once the end of its word is marked. *)
Lemma marked_text a e r2 r3 s' : (e <= r2)%nat -> starts_apart s' -> (r2 <= r3)%nat ->
  text_at a r3 (skip_sp s') rest -> (r3 + length (skip_sp s') = r2 + length s')%nat ->
  text_at (<[e := 0]> a) r3 (skip_sp s') rest /\ ((e + 1 <= r3)%nat \/ skip_sp s' = []).
Proof.
  intros He Hs Hr T L. destruct (decide (r3 = r2)) as [->|]; [|split; [apply text_at_insert; [lia|done]|left; lia]].
  assert (skip_sp s' = []) as E.
  { destruct s' as [|c s']; [done|]. cbn in Hs, L |- *. rewrite Hs in L |- *.
    destruct (skip_sp_split s') as (sp & _ & Q). apply (f_equal length) in Q. rewrite length_app in Q. lia. }
  rewrite E in *. split; [|by right]. split; [|constructor]. pose proof (text_at_end _ _ _ T) as Hz.
  destruct (decide (e = r2)) as [->|]; [rewrite list_insert_id by done; apply T|]. rewrite drop_insert_lt by lia. apply T.
Qed.

(** The array after a word was written and its end marked. *)
Lemma marked_word a w word : (w + length word < length a)%nat -> no_nul word ->
  let a2 := <[(w + length word)%nat := 0]> (written a w word) in
  take w a2 = take w a /\ string_from a2 (Z.of_nat w) = word /\ ended a2 (w + length word + 1) (Z.of_nat w).
Proof.
  intros H N a2. destruct (written_end a w word H) as (tl & Ew). fold a2 in Ew. split_and!.
  - rewrite Ew. apply take_app_length'. rewrite length_take. lia.
  - unfold string_from. rewrite Nat2Z.id, Ew, drop_app_length' by (rewrite length_take; lia). by apply before_nul_word.
  - exists (w + length word)%nat. split; [lia|]. rewrite Ew, lookup_app_r, length_take by (rewrite length_take; lia).
    rewrite lookup_app_r by lia. by replace (_ - _ - _)%nat with 0%nat by lia.
Qed.

Lemma tokenize_loop_split fuel : forall s a r w argv,
  text_at a r s rest -> (w <= r)%nat \/ s = [] -> (length s < fuel)%nat -> (length argv <= cap)%nat -> Forall (ended a w) argv ->
  exists o, tokenize_loop fuel cap a (Z.of_nat r) (Z.of_nat w) argv = Some o /\ split_result s a (r + length s) w argv o.
Proof.
  induction fuel as [|fuel IH]; intros s a r w argv T Hw Hf Hc Ha; [lia|]. cbn [tokenize_loop]. rewrite aget_nat.
  pose proof (text_at_lt _ _ _ _ T) as Hlt.
  assert (drop (r + length s) a = 0 :: rest) as Hend by (rewrite <- drop_drop, (proj1 T); by rewrite drop_app_length).
  destruct s as [|c0 s0] eqn:Es.
  { rewrite (text_at_end _ _ _ T). eexists. split; [done|]. by apply split_blank. }
  destruct Hw as [Hw|]; [|done]. destruct (text_at_head _ _ _ _ _ T) as (-> & Hc0 & _). rewrite <- Es in *. cbn [mbind option_bind].
  rewrite (proj2 (Z.eqb_neq c0 0)) by done. cbv iota.
  destruct (skip_spaces_text rest (S (length a)) s a r T ltac:(lia)) as (r1 & -> & T1 & L1 & G1). cbn [mbind option_bind]. rewrite aget_nat.
  destruct (skip_sp s) as [|c1 s1] eqn:E1.
  { rewrite (text_at_end _ _ _ T1). eexists. split; [done|]. by apply split_blank. }
  destruct (text_at_head _ _ _ _ _ T1) as (-> & Hc1 & _). rewrite <- E1 in *. cbn [mbind option_bind].
  rewrite (proj2 (Z.eqb_neq c1 0)) by done. cbv iota.
  destruct (cap <=? length argv)%nat eqn:Ecap.
  { eexists. split; [done|]. right. split; [done|]. intros [|t ts] H; [apply line_of_front in H; congruence|cbn; lia]. }
  pose proof (token_loop_tok rest (S (length a)) (skip_sp s) a r1 w false false false T1 ltac:(lia) ltac:(lia)) as R.
  destruct (tok false false false (skip_sp s)) as [[word s']|] eqn:Et; cbn [token_result] in R.
  2: { rewrite R. eexists. split; [done|]. left. split; [done|]. intros [|t ts] H; apply line_of_front in H; [congruence|].
       destruct H as (s2 & H & _). congruence. }
  destruct R as (r2 & -> & G2 & T2 & L2). cbn [mbind option_bind].
  destruct (line_of_cons s word s' (proj2 T) Et) as (t & Ht & Hv & _ & Hs' & Hls).
  pose proof (text_at_lt _ _ _ _ T2) as Hlt2.
  assert (length (written a w word) = length a) as Hla.
  { unfold written. rewrite !length_app, length_take, length_drop. lia. }
  destruct (skip_spaces_text rest (S (length (written a w word))) s' _ r2 T2 ltac:(lia)) as (r3 & -> & T3 & L3 & G3). cbn [mbind option_bind].
  rewrite aset_nat by lia. cbn [mbind option_bind].
  replace (_ && _) with false by lia. replace (Z.of_nat (w + length word) + 1) with (Z.of_nat (w + length word + 1)) by lia.
  assert (no_nul word) as Hnw by (subst word; apply token_value_no_nul; unfold token_ok in Ht; apply andb_true_iff in Ht; apply Ht).
  destruct (marked_word a w word ltac:(lia) Hnw) as (Hp & Hword & Hend2).
  destruct (marked_text _ (w + length word) r2 r3 s' G2 Hs' G3 T3 L3) as [T4 Hw4].
  destruct (IH (skip_sp s') _ r3 (w + length word + 1)%nat (argv ++ [Z.of_nat w]) T4 Hw4) as (o & Eo & Ho).
  - lia.
  - rewrite length_app. cbn. lia.
  - apply Forall_app. split; [|by constructor].
    eapply Forall_impl; [exact Ha|]. intros q Hq. eapply ended_mono; [exact Hq|done|lia].
  - exists o. split; [done|]. replace (r + length s)%nat with (r3 + length (skip_sp s'))%nat by lia.
    eapply split_token; [apply T|done|done|done| |done|exact Ho]. lia.
Qed.

End Splitter.

(** C11: Splitting a line. For every line, [shell_tokenize], which works inside the line's own array, returns, and
    it is exact with respect to the grammar of pieces (characters, escapes, quotations, escaped line ends):
    -1 is returned only for lines that are not in the grammar, -2 only for lines with more tokens than the
    argument vector holds, and otherwise the line is in the grammar, the strings left in the array at the
    positions of the argument vector are the words its tokens stand for, in order, and nothing behind the end
    of the line was touched. *)
Theorem shell_tokenize_exact argv_cap text rest :
  no_nul text ->
  exists o, shell_tokenize argv_cap (text ++ 0 :: rest) = Some o /\
    match o with
    | inl rc => (rc = -1 /\ forall ts, ~ line_of text ts) \/
                (rc = -2 /\ forall ts, line_of text ts -> (argv_cap < length ts)%nat)
    | inr (a, argv) =>
        drop (length text) a = 0 :: rest /\ (exists ts, line_of text ts) /\
        forall ts, line_of text ts -> (length ts <= argv_cap)%nat /\ string_from a <$> argv = token_value <$> ts
    end.
Proof.
  intros N. unfold shell_tokenize.
  destruct (tokenize_loop_split argv_cap rest (S (length (text ++ 0 :: rest))) text (text ++ 0 :: rest) 0 0 []) as (o & E & H).
  - done.
  - left. lia.
  - rewrite length_app. lia.
  - cbn. lia.
  - constructor.
  - exists o. split; [exact E|]. destruct o as [rc|[a argv]]; [exact H|]. by destruct H as (_ & H).
Qed.

Definition demo_line : list Z := cstr "echo 'a b'\ c".

Lemma shell_tokenize_exact_witness :
  no_nul demo_line /\ line_of demo_line [Char <$> cstr "echo"; [Single (cstr "a b"); Escaped 32; Char 99]] /\
  exists o, shell_tokenize SHELL_ARGV_MAX (demo_line ++ 0 :: [7]) = Some o /\
    match o with
    | inl rc => (rc = -1 /\ forall ts, ~ line_of demo_line ts) \/
                (rc = -2 /\ forall ts, line_of demo_line ts -> (SHELL_ARGV_MAX < length ts)%nat)
    | inr (a, argv) =>
        drop (length demo_line) a = 0 :: [7] /\ (exists ts, line_of demo_line ts) /\
        forall ts, line_of demo_line ts -> (length ts <= SHELL_ARGV_MAX)%nat /\ string_from a <$> argv = token_value <$> ts
    end.
Proof.
  split_and!.
  - repeat (constructor; [done|]). constructor.
  - refine (line_token [] (Char <$> cstr "echo") (cstr " 'a b'\ c") _ eq_refl eq_refl eq_refl _).
    exact (line_token [32] [Single (cstr "a b"); Escaped 32; Char 99] [] [] eq_refl eq_refl I (line_blank [] eq_refl)).
  - apply shell_tokenize_exact. repeat (constructor; [done|]). constructor.
Defined.

Example shell_tokenize_demo :
  (fun o => match o with inr (a, argv) => string_from a <$> argv | inl _ => [] end) <$> shell_tokenize SHELL_ARGV_MAX (demo_line ++ 0 :: [7])
  = Some [cstr "echo"; cstr "a b c"].
Proof. reflexivity. Qed.

(** ** Completion and the rest of the line *)

(** The line is inside its array of [cap] bytes. *)
Record in_line (cap : Z) (l : line) : Prop := {
  il_buf : Z.of_nat (length (buf l)) = cap;
  il_cursor : 0 <= cursor l <= len l;
  il_len : len l < cap
}.

Definition fits (cap : Z) (s : list Z) : Prop := Z.of_nat (length s) < cap.

Definition line_text (l : line) : list Z := take (Z.to_nat (len l)) (buf l).

(** Which character a forward copy over the distance [d] puts at position [i]. *)
Definition source (d : Z) (i : nat) : nat := if d <=? 0 then i else (i mod Z.to_nat d)%nat.

Lemma source_step d i : source d (S i) = if (d <=? 0) || (source d i + 1 <? Z.to_nat d)%nat then S (source d i) else 0%nat.
Proof.
  unfold source. destruct (d <=? 0) eqn:E; [done|]. cbn [orb]. set (n := Z.to_nat d). assert (n <> 0)%nat by lia.
  pose proof (Nat.mod_upper_bound i n ltac:(done)). pose proof (Nat.div_mod_eq i n). destruct (Nat.ltb_spec (i mod n + 1) n).
  - symmetry. apply (Nat.mod_unique _ _ (i / n)); lia.
  - symmetry. apply (Nat.mod_unique _ _ (i / n + 1)); lia.
Qed.

Lemma copy_forward_exact n : forall from to a,
  (from + n <= length a)%nat -> (to + n <= length a)%nat ->
  exists a', copy_forward n (Z.of_nat from) (Z.of_nat to) a = Some a' /\ length a' = length a /\
    forall p, a' !! p = if decide (to <= p < to + n)%nat
                        then a !! (from + source (Z.of_nat to - Z.of_nat from) (p - to))%nat else a !! p.
Proof.
  induction n as [|n IH]; intros from to a Hf Ht.
  { exists a. split_and!; [done|done|]. intros p. case_decide; [lia|done]. }
  cbn [copy_forward]. rewrite aget_nat. destruct (lookup_lt_is_Some_2 a from ltac:(lia)) as [v Hv]. rewrite Hv. cbn [mbind option_bind].
  rewrite aset_nat by lia. cbn [mbind option_bind].
  replace (Z.of_nat from + 1) with (Z.of_nat (S from)) by lia. replace (Z.of_nat to + 1) with (Z.of_nat (S to)) by lia.
  destruct (IH (S from) (S to) (<[to := v]> a)) as (a' & E & L & H); [rewrite length_insert; lia..|].
  exists a'. rewrite length_insert in L. split_and!; [done|done|]. intros p. rewrite H.
  replace (Z.of_nat (S to) - Z.of_nat (S from)) with (Z.of_nat to - Z.of_nat from) by lia. set (d := Z.of_nat to - Z.of_nat from).
  destruct (decide (p = to)) as [->|Hne].
  { rewrite decide_False, decide_True, list_lookup_insert_eq by lia. rewrite Nat.sub_diag.
    assert (source d 0 = 0%nat) as -> by (unfold source; case_match; [done|apply Nat.Div0.mod_0_l]). by rewrite Nat.add_0_r. }
  destruct (decide (to <= p < to + S n)%nat) as [Hin|Hout].
  2: { rewrite decide_False by lia. by rewrite list_lookup_insert_ne. }
  rewrite decide_True by lia. replace (p - to)%nat with (S (p - S to)) by lia. rewrite source_step.
  destruct (decide (S from + source d (p - S to) = to)%nat) as [Eq|Nq].
  - rewrite Eq, list_lookup_insert_eq by lia. assert (d <=? 0 = false) as -> by lia. cbn [orb].
    destruct (Nat.ltb_spec (source d (p - S to) + 1) (Z.to_nat d)); [lia|]. by rewrite Nat.add_0_r.
  - rewrite list_lookup_insert_ne by done. destruct (d <=? 0) eqn:Ed; cbn [orb]; [f_equal; lia|].
    assert (source d (p - S to) < Z.to_nat d)%nat by (unfold source; rewrite Ed; apply Nat.mod_upper_bound; lia).
    destruct (Nat.ltb_spec (source d (p - S to) + 1) (Z.to_nat d)); [f_equal; lia|lia].
Qed.

Lemma shell_memcpy_exact src : forall i a, (i + length src <= length a)%nat ->
  shell_memcpy src (Z.of_nat i) a = Some (written a i src).
Proof.
  induction src as [|c src IH]; intros i a H; cbn [shell_memcpy]; [by rewrite written_nil|]. cbn in H.
  rewrite aset_nat by lia. cbn [mbind option_bind]. replace (Z.of_nat i + 1) with (Z.of_nat (S i)) by lia.
  rewrite IH by (rewrite length_insert; lia). by rewrite written_cons by lia.
Qed.

(** What is behind a token after it was replaced by a text that is [d] longer. *)
Definition carried (d : Z) (suffix : list Z) : list Z := (fun i => default 0 (suffix !! source d i)) <$> seq 0 (length suffix).

Lemma source_lt d i n : (i < n)%nat -> (source d i < n)%nat.
Proof. intros H. unfold source. case_match; [done|]. pose proof (Nat.Div0.mod_le i (Z.to_nat d)). lia. Qed.

Lemma carried_same d s : d <= 0 -> carried d s = s.
Proof.
  intros H. apply list_eq. intros i. unfold carried. rewrite list_lookup_fmap.
  destruct (decide (i < length s)%nat) as [Hi|Hi].
  - rewrite lookup_seq_lt by done. cbn. unfold source. assert (d <=? 0 = true) as -> by lia.
    destruct (lookup_lt_is_Some_2 s i Hi) as [v ->]. done.
  - rewrite lookup_seq_ge by lia. symmetry. apply lookup_ge_None. lia.
Qed.

Lemma line_text_length cap l : in_line cap l -> length (line_text l) = Z.to_nat (len l).
Proof. intros HL. unfold line_text. rewrite length_take. pose proof (il_buf _ _ HL). pose proof (il_len _ _ HL). lia. Qed.

Section Replace.
Variables (cap ts te : Z) (r : list Z) (l : line).
Hypothesis Hcap : cap <= 2 ^ 31.
Hypothesis HL : in_line cap l.
Hypothesis Hts : 0 <= ts <= te.
Hypothesis Hte : te <= len l.
Hypothesis Hr : fits cap r.

#[local] Notation n := (Z.of_nat (length r)).
#[local] Notation new_len := (ts + n + (len l - te)).
#[local] Notation d := (n - (te - ts)).

Definition replaced_text : list Z := take (Z.to_nat ts) (line_text l) ++ r ++ carried d (drop (Z.to_nat te) (line_text l)).

(** The array after both copies. *)
Lemma replaced_array a : Z.of_nat (length a) = cap -> new_len < cap ->
  (forall p, a !! p = if decide (Z.to_nat (ts + n) <= p < Z.to_nat (ts + n) + Z.to_nat (len l - te))%nat
                      then buf l !! (Z.to_nat te + source d (p - Z.to_nat (ts + n)))%nat else buf l !! p) ->
  take (Z.to_nat new_len) (written a (Z.to_nat ts) r) = replaced_text.
Proof using HL Hts Hte.
  intros La Hn H. pose proof (il_buf _ _ HL) as Hb. pose proof (il_len _ _ HL) as Hl. pose proof (line_text_length cap l HL) as Ht.
  unfold written, replaced_text. rewrite take_app_ge by (rewrite length_take; lia).
  rewrite length_take_le by lia. f_equal.
  { unfold line_text. rewrite take_take, Nat.min_l by lia. apply list_eq. intros i.
    destruct (decide (i < Z.to_nat ts)%nat); [|by rewrite !lookup_take_ge by lia].
    rewrite !lookup_take_lt, H, decide_False by lia. done. }
  rewrite take_app_ge by lia. f_equal. apply list_eq. intros i. unfold carried.
  rewrite length_drop, Ht, list_lookup_fmap. destruct (decide (i < Z.to_nat (len l - te))%nat) as [Hi|Hi].
  2: { rewrite lookup_take_ge, lookup_seq_ge by lia. done. }
  rewrite lookup_take_lt by lia. rewrite lookup_seq_lt by lia. cbn. rewrite !lookup_drop, H, decide_True by lia.
  replace (Z.to_nat ts + length r + i - Z.to_nat (ts + n))%nat with i by lia.
  pose proof (source_lt d i _ Hi). unfold line_text. rewrite lookup_take_lt by lia.
  destruct (lookup_lt_is_Some_2 (buf l) (Z.to_nat te + source d i)%nat ltac:(lia)) as [v ->]. done.
Qed.

Lemma replace_token_spec :
  if cap <=? new_len then shell_replace_token cap ts te r l = Some (0, l)
  else exists l', shell_replace_token cap ts te r l = Some (1, l') /\ in_line cap l' /\
         cursor l' = ts + n /\ len l' = new_len /\ line_text l' = replaced_text.
Proof using All.
  pose proof (il_buf _ _ HL) as Hb. pose proof (il_len _ _ HL) as Hl. unfold fits in Hr. unfold shell_replace_token.
  rewrite (u32_small (len l - te)) by lia. rewrite u32_small by lia. destruct (Z.leb_spec cap new_len); [done|].
  destruct (copy_forward_exact (Z.to_nat (len l - te)) (Z.to_nat te) (Z.to_nat (ts + n)) (buf l)) as (a & E & La & H1); [lia..|].
  rewrite !Z2Nat.id in E, H1 by lia. replace (ts + n - te) with d in H1 by lia. rewrite E. cbn [mbind option_bind].
  pose proof (shell_memcpy_exact r (Z.to_nat ts) a ltac:(lia)) as E2. rewrite Z2Nat.id in E2 by lia. rewrite E2. cbn [mbind option_bind].
  pose proof (written_length a (Z.to_nat ts) r ltac:(lia)) as L2.
  pose proof (aset_nat (written a (Z.to_nat ts) r) (Z.to_nat new_len) 0 ltac:(lia)) as E3. rewrite Z2Nat.id in E3 by lia.
  rewrite E3. cbn [mbind option_bind]. eexists. split; [done|]. split_and!; [|done|done|].
  - split; cbn; [rewrite length_insert; lia|lia|lia].
  - unfold line_text. cbn [len buf]. rewrite take_insert_ge by lia. apply replaced_array; [lia|lia|exact H1].
Qed.

End Replace.

(** Replacing a token by its completion, and what becomes of the text behind it. In a line inside its array,
    [shell_replace_token] changes nothing if the new line does not fit; otherwise it returns, stays inside the
    array, puts the cursor behind the completion and leaves what is before the token as it was. What is behind
    the token survives if the completion is not longer than the token. If it is [d] characters
    longer, the copying loop reads what it has written, and the first [d] characters of the text behind the
    token are repeated over all of it. *)
Theorem shell_replace_token_exact cap ts te r l :
  cap <= 2 ^ 31 -> in_line cap l -> 0 <= ts <= te -> te <= len l -> fits cap r ->
  let n := Z.of_nat (length r) in
  let d := n - (te - ts) in
  let text := line_text l in
  let suffix := drop (Z.to_nat te) text in
  if cap <=? len l + d then shell_replace_token cap ts te r l = Some (0, l)
  else exists l', shell_replace_token cap ts te r l = Some (1, l') /\ in_line cap l' /\ cursor l' = ts + n /\
         line_text l' = take (Z.to_nat ts) text ++ r ++
           (if d <=? 0 then suffix else (fun i => default 0 (suffix !! (i mod Z.to_nat d)%nat)) <$> seq 0 (length suffix)).
Proof.
  intros Hcap HL Hts Hte Hr n d text suffix. pose proof (replace_token_spec cap ts te r l Hcap HL Hts Hte Hr) as H.
  replace (len l + d) with (ts + n + (len l - te)) by lia. fold n in H.
  destruct (cap <=? ts + n + (len l - te)); [done|]. destruct H as (l' & E & HI & Hc & _ & Ht). exists l'. split_and!; [done..|].
  rewrite Ht. unfold replaced_text. fold text n suffix. do 2 f_equal. change (n - (te - ts)) with d.
  destruct (Z.leb_spec d 0); [by apply carried_same|]. unfold carried. apply list_fmap_ext. intros i x _.
  unfold source. by rewrite (proj2 (Z.leb_gt d 0)) by lia.
Qed.

(** The line "ec foo bar", with the cursor behind the first word, is completed to "echo f f f f". *)
Definition demo_typed : line := Line (cstr "ec foo bar" ++ replicate 6 0) 10 2 1.

Lemma shell_replace_token_exact_witness :
  in_line 16 demo_typed /\ exists l', shell_replace_token 16 0 2 (cstr "echo") demo_typed = Some (1, l') /\ in_line 16 l' /\
    line_text l' = cstr "echo f f f f".
Proof.
  assert (in_line 16 demo_typed) as HI by (split; cbn; lia). split; [done|].
  pose proof (shell_replace_token_exact 16 0 2 (cstr "echo") demo_typed ltac:(lia) HI ltac:(lia) ltac:(cbn; lia) ltac:(done)) as H.
  destruct H as (l' & E & H1 & _ & H2). exists l'. split_and!; [done|done|]. rewrite H2. reflexivity.
Defined.

(** ** The variables of the shell *)

Record kshell_ok (k : kshell) : Prop := {
  ko_ring : length (g_shell_history k) = 16%nat;
  ko_lines : Forall (fits SHELL_LINE_CAP) (g_shell_history k);
  ko_count : 0 <= g_shell_history_count k <= SHELL_HISTORY_CAP;
  ko_head : 0 <= g_shell_history_head k < SHELL_HISTORY_CAP;
  ko_nav : g_shell_history_nav k = -1 \/ 0 <= g_shell_history_nav k < g_shell_history_count k;
  ko_draft : fits SHELL_LINE_CAP (g_shell_history_draft k);
  ko_prev : fits FS_PATH_CAP (g_shell_prev_dir k)
}.

Lemma fits_copy cap s : 1 <= cap -> fits cap (shell_copy_string cap s).
Proof. intros H. unfold fits, shell_copy_string. rewrite length_take. lia. Qed.

Lemma set_nav_ok n d k : kshell_ok k -> n = -1 \/ 0 <= n < g_shell_history_count k -> fits SHELL_LINE_CAP d -> kshell_ok (set_nav n d k).
Proof. intros [] Hn Hd. by split. Qed.

Lemma initial_ok : kshell_ok initial_kshell.
Proof. split; try done; [by apply Forall_replicate|by left]. Qed.

Lemma reset_ok k : kshell_ok k -> kshell_ok (shell_history_reset_line_state k).
Proof. intros H. apply set_nav_ok; [done|by left|done]. Qed.

Lemma push_ok text k : kshell_ok k -> kshell_ok (shell_history_push text k).
Proof.
  intros H. destruct text as [|c text]; [done|]. cbn [shell_history_push]. case_match; [done|]. destruct H as [R L C Hd N D P].
  unfold SHELL_HISTORY_CAP in *. split; cbn -[Z.modulo]; try done.
  - by rewrite length_insert.
  - apply Forall_insert; [done|]. by apply (fits_copy SHELL_LINE_CAP (c :: text)).
  - unfold SHELL_HISTORY_CAP. case_match; lia.
  - apply Z.mod_pos_bound. done.
  - unfold SHELL_HISTORY_CAP. destruct N as [->|N]; [by left|right]. case_match; lia.
Qed.

Lemma history_at_fits k i : kshell_ok k -> fits SHELL_LINE_CAP (shell_history_at k i).
Proof.
  intros H. unfold shell_history_at. destruct (g_shell_history k !! Z.to_nat i) as [x|] eqn:E; [|done]. cbn.
  eapply Forall_lookup_1; [apply (ko_lines _ H)|done].
Qed.

Lemma replace_line_fits text l : in_line SHELL_LINE_CAP l -> fits SHELL_LINE_CAP text ->
  exists l', shell_replace_line SHELL_LINE_CAP text l = Some l' /\ in_line SHELL_LINE_CAP l' /\ line_text l' = text.
Proof.
  intros HL Ht. pose proof (il_buf _ _ HL) as Hb. unfold fits in Ht. unfold shell_replace_line.
  destruct (Z.leb_spec SHELL_LINE_CAP (Z.of_nat (length text))); [lia|].
  rewrite Nat2Z.id, (take_ge text) by lia. pose proof (shell_memcpy_exact text 0 (buf l) ltac:(lia)) as E. change (Z.of_nat 0) with 0 in E. rewrite E. cbn [mbind option_bind].
  pose proof (written_length (buf l) 0 text ltac:(lia)) as Lw. rewrite aset_nat by lia. cbn [mbind option_bind].
  eexists. split; [done|]. split; [split; cbn; rewrite ?length_insert; lia|].
  unfold line_text. cbn. rewrite Nat2Z.id, take_insert_ge by lia. unfold written. rewrite take_0. cbn [app]. apply take_app_length.
Qed.

(** The history keys return, with a line and with variables that are inside their arrays. *)
Lemma history_hook_ok dir l k : kshell_ok k -> in_line SHELL_LINE_CAP l ->
  exists rc l' k', shell_history_hook dir SHELL_LINE_CAP l k = Some (rc, l', k') /\ kshell_ok k' /\ in_line SHELL_LINE_CAP l'.
Proof.
  intros HK HL. unfold shell_history_hook. cbv zeta.
  assert (forall k', kshell_ok k' -> exists rc l' k'', (l ← shell_replace_line SHELL_LINE_CAP
    (shell_history_at k' (shell_history_slot k' (g_shell_history_nav k'))) l; Some (1, l, k')) = Some (rc, l', k'') /\
    kshell_ok k'' /\ in_line SHELL_LINE_CAP l') as recall.
  { intros k' H'. destruct (replace_line_fits _ l HL (history_at_fits k' (shell_history_slot k' (g_shell_history_nav k')) H')) as (l' & -> & H & _).
    by eexists _, _, _. }
  pose proof (ko_count _ HK) as Hc. pose proof (ko_nav _ HK) as Hn. pose proof (ko_draft _ HK) as Hd. unfold SHELL_HISTORY_CAP in Hc.
  assert (exists rc l' k', Some (0, l, k) = Some (rc, l', k') /\ kshell_ok k' /\ in_line SHELL_LINE_CAP l') as stay by by eexists _, _, _.
  destruct (Z.eqb_spec (g_shell_history_count k) 0); [done|]. destruct (dir <? 0).
  - destruct (Z.ltb_spec (g_shell_history_nav k) 0); [|rewrite u32_small by lia; case_match; [done|]].
    + apply recall, set_nav_ok; [done|lia|by apply fits_copy].
    + apply recall, set_nav_ok; [done|lia|done].
  - destruct (Z.ltb_spec (g_shell_history_nav k) 0); [done|]. case_match.
    + destruct (replace_line_fits _ l HL Hd) as (l' & -> & H1 & _). eexists _, _, _. split; [done|].
      split; [apply set_nav_ok; [done|by left|done]|done].
    + apply recall, set_nav_ok; [done|lia|done].
Qed.

(** *** Completion *)

Lemma token_start_le a i : (token_start_from a i <= i)%nat.
Proof. induction i as [|i IH]; cbn; [done|]. case_match; lia. Qed.

Lemma token_end_bounds a n : forall i, (i <= token_end_from a n i <= i + n)%nat.
Proof. induction n as [|n IH]; intros i; cbn; [lia|]. case_match; [lia|]. specialize (IH (S i)). lia. Qed.

Lemma unique_in {A} (test : A -> bool) l x : unique test l = Some x -> x ∈ l.
Proof.
  unfold unique. destruct (List.filter test l) as [|y [|]] eqn:E; [done| |done]. intros [= ->].
  apply list_elem_of_In. apply (proj1 (filter_In test x l)). rewrite E. by left.
Qed.

Lemma command_fits prefix c : shell_find_unique_command prefix = Some c -> fits SHELL_LINE_CAP c.
Proof.
  unfold shell_find_unique_command. intros H. apply unique_in, list_elem_of_In in H.
  pose proof (proj1 (forallb_forall (fun c => Z.of_nat (length c) <? SHELL_LINE_CAP) g_shell_commands) ltac:(by vm_compute) c H) as Hc. cbn beta in Hc.
  unfold fits. lia.
Qed.

Lemma completed_fits cap base e c : 1 <= cap -> completed_path cap base e = Some c -> fits cap c.
Proof.
  intros Hc. unfold completed_path, fits. case_match; [done|]. intros [= <-].
  assert (Z.of_nat (length (base ++ shell_copy_string (cap - Z.of_nat (length base)) e.1)) < cap).
  { rewrite length_app. unfold shell_copy_string. rewrite length_take. lia. }
  case_match; [|done]. rewrite length_app. cbn. lia.
Qed.

End KShellLine.
