(* ===== verification/KShellProps.v ===== *)
(** * The kernel shell on the kernel

    Every command leaves the descriptors of the kernel as they were, and every key and
    every line leave the shell inside its arrays. *)

From S2P Require Import Prelude FsTypes FsPath LineEdit Ramfs RamfsProps Vfs Pseudo FsCore FsCoreProps Fd FdInv FdProc FdSteps FdProps FdView Display Sprg Usermode UsermodeProps Syscall SyscallProps MshKernel KShell KShellLine.
From stdpp Require Import base list option list_numbers strings.
From Stdlib Require Import ZArith Lia ZifyBool.
Import FsTypes FsPath LineEdit Vfs Pseudo FsCore FsCoreProps Fd FdOps FdInv FdProc FdSteps FdProps FdView Display.Tty Sprg Usermode Syscall SyscallProps KShell KShellLine.
Open Scope Z_scope.

Module KShellProps.

Section Machine.
Context {S W : Type} `{!storage S} `{!services W}.
#[local] Notation machine := (machine S W).

Lemma path_match_fits token cap (s s' : machine) c : 1 <= cap ->
  shell_find_unique_path_match token cap s = Some (Some c, s') -> fits cap c.
Proof.
  intros Hc. unfold shell_find_unique_path_match. destruct (split_path_token token) as [[dir base] prefix].
  destruct (fs_call _ s) as [[r s1]|]; [|done]. cbn [mbind option_bind]. destruct r as [rc|es]; [done|].
  intros [= Ec _]. destruct (unique (fun e => shell_startswith (fst e) prefix) es) as [e|]; [|done]. by eapply completed_fits.
Qed.

(** The completion key returns whenever looking for the match does. *)
Lemma tab_hook_ok l (s : machine) : in_line SHELL_LINE_CAP l ->
  (forall token, exists r, shell_find_unique_path_match token SHELL_LINE_CAP s = Some r) ->
  exists l' s', shell_tab_hook SHELL_LINE_CAP l s = Some (l', s') /\ in_line SHELL_LINE_CAP l'.
Proof.
  intros HL Hm. unfold shell_tab_hook. cbv zeta. assert (exists l' s', Some (l, s) = Some (l', s') /\ in_line SHELL_LINE_CAP l') as stay by by eexists _, _.
  case_match; [done|]. pose proof (il_cursor _ _ HL) as Hcur. pose proof (il_len _ _ HL) as Hlen.
  set (c := Z.to_nat (cursor l)). set (a := token_start_from _ c). set (b := token_end_from _ _ c).
  destruct (a =? b)%nat; [done|]. destruct (before_nul _) as [|x token]; [done|].
  assert (exists r s', (if (words_before (buf l) a =? 0)%nat then Some (shell_find_unique_command (x :: token), s)
    else shell_find_unique_path_match (x :: token) SHELL_LINE_CAP s) = Some (r, s') /\ forall t, r = Some t -> fits SHELL_LINE_CAP t) as (r & s' & -> & Hr).
  { case_match; [eexists _, _; split; [done|]; intros t; apply command_fits|].
    destruct (Hm (x :: token)) as [[r s'] E]. eexists _, _. split; [exact E|]. intros t ->. by eapply path_match_fits. }
  cbn [mbind option_bind]. destruct r as [t|]; [|by eexists _, _].
  pose proof (token_start_le (buf l) c) as Ha. pose proof (token_end_bounds (buf l) (Z.to_nat (len l) - c) c) as Hb. fold a in Ha. fold b in Hb.
  pose proof (replace_token_spec SHELL_LINE_CAP (Z.of_nat a) (Z.of_nat b) t l ltac:(done) HL ltac:(lia) ltac:(lia) (Hr t eq_refl)) as R.
  case_match; [rewrite R; by eexists _, _|]. destruct R as (l' & -> & H' & _). by eexists _, _.
Qed.

Section Commands.
Variable enter : Z -> Z -> machine -> option (Z * machine).
Variable l : layout.
Variable signal_power_down : W -> W.
Variable mm_print_stats : W -> option W.
Variables path_at args_at argv_at : Z.

Lemma cd_ok args (x y : kshell * machine) : kshell_ok x.1 -> shell_cmd_cd args x = Some y -> kshell_ok y.1.
Proof.
  destruct x as [k s]. cbn [fst]. intros HK. unfold shell_cmd_cd. destruct (cwd_path s) as [[cwd s1]|]; [|done]. cbn [mbind option_bind]. cbv zeta.
  assert (forall m : option machine, (s ← m; Some (k, s)) = Some y -> kshell_ok y.1) as keep.
  { intros m. destruct m; [|done]. by intros [= <-]. }
  assert (forall d, (let back := is_arg "-" d in
    '(r, s) ← fs_call (fs_core_change_dir (Some (if back then g_shell_prev_dir k else d))) s1;
    match r with
    | inl rc => s ← shell_print_fs_error (cstr "cd") rc s; Some (k, s)
    | inr _ => s ← (if back then '(cwd, s) ← cwd_path s; tty_puts (cwd ++ [10]) s else Some s);
               Some (set_prev (shell_copy_string FS_PATH_CAP (shell_copy_string FS_PATH_CAP cwd)) k, s)
    end) = Some y -> kshell_ok y.1) as move.
  { intros d. cbv zeta. destruct (fs_call _ s1) as [[r s2]|]; [|done]. cbn [mbind option_bind]. destruct r as [rc|u]; [apply keep|].
    destruct (if is_arg "-" d then _ else _) as [s3|]; [|done]. cbn [mbind option_bind]. intros [= <-]. cbn [fst].
    destruct HK. split; try done. by apply fits_copy. }
  destruct (cd_options args) as [|d [|d2 ds]]; [apply move|apply move|apply keep].
Qed.

Notation run_line := (shell_run_line enter l signal_power_down mm_print_stats path_at args_at argv_at).

Lemma run_line_ok fuel text (x y : kshell * machine) : kshell_ok x.1 -> run_line fuel text x = Some y -> kshell_ok y.1.
Proof.
  destruct x as [k s]. cbn [fst]. intros HK. unfold shell_run_line. destruct (shell_tokenize SHELL_ARGV_MAX text) as [o|]; [|done].
  cbn [mbind option_bind]. destruct o as [rc|[text' argv]].
  { destruct (if rc =? -1 then _ else _) as [s1|]; [|done]. by intros [= <-]. }
  destruct (string_from text' <$> argv) as [|cmd args]; [by intros [= <-]|]. pose proof (push_ok (before_nul text) k HK) as HP.
  cbv zeta. destruct (is_arg "cd" cmd); [by apply cd_ok|]. destruct (dispatch _ _ _ _ _ _ _ _ _ _ _ _) as [s1|]; [|done].
  by intros [= <-].
Qed.

(** *** Descriptors *)

(** The machine is between two calls, and every descriptor is open on what it was. *)
Definition still (s s' : machine) : Prop := quiet s' /\ forall fd, MshKernel.view_files s' fd = MshKernel.view_files s fd.

Lemma still_trans s s1 s2 : still s s1 -> still s1 s2 -> still s s2.
Proof. intros [_ H1] [Q H2]. split; [done|]. intros fd. by rewrite H2, H1. Qed.

(** Whatever the computation returns satisfies [P]. *)
Definition returns {A} (o : option A) (P : A -> Prop) : Prop := forall a, o = Some a -> P a.

Lemma returns_some {A} (a : A) (P : A -> Prop) : P a -> returns (Some a) P.
Proof. by intros H b [= <-]. Qed.

Lemma returns_bind {A B} (o : option A) (f : A -> option B) (P : B -> Prop) :
  returns o (fun a => returns (f a) P) -> returns (o ≫= f) P.
Proof. intros H b. destruct o as [a|]; [|done]. by apply (H a eq_refl). Qed.

Lemma returns_let {A B} (a : A) (f : A -> option B) (P : B -> Prop) : returns (f a) P -> returns (Some a ≫= f) P.
Proof. done. Qed.

Lemma returns_assoc {A B C} (o : option A) (f : A -> option B) (g : B -> option C) (P : C -> Prop) :
  returns (o ≫= fun a => f a ≫= g) P -> returns ((o ≫= f) ≫= g) P.
Proof. by destruct o. Qed.

Class Tame (f : machine -> option machine) : Prop := tame s : quiet s -> returns (f s) (still s).
Class TameWith {A} (f : machine -> option (A * machine)) : Prop := tame_with s : quiet s -> returns (f s) (fun r => still s r.2).
#[local] Hint Mode Tame ! : typeclass_instances.
#[local] Hint Mode TameWith ! ! : typeclass_instances.

Lemma step_tame {B} (f : machine -> option machine) `{!Tame f} s0 s (g : machine -> option B) (P : B -> Prop) :
  still s0 s -> (forall s1, still s0 s1 -> returns (g s1) P) -> returns (f s ≫= g) P.
Proof. intros HS H. apply returns_bind. intros s1 E. apply H. apply (still_trans s0 s); [done|]. exact (Tame0 s (proj1 HS) s1 E). Qed.

Lemma step_with {A B} (f : machine -> option (A * machine)) `{!TameWith f} s0 s (g : A * machine -> option B) (P : B -> Prop) :
  still s0 s -> (forall a s1, still s0 s1 -> returns (g (a, s1)) P) -> returns (f s ≫= g) P.
Proof.
  intros HS H. apply returns_bind. intros [a s1] E. apply H. apply (still_trans s0 s); [done|].
  exact (TameWith0 s (proj1 HS) (a, s1) E).
Qed.

Lemma last_tame (f : machine -> option machine) `{!Tame f} s0 s : still s0 s -> returns (f s) (still s0).
Proof. intros HS s1 E. apply (still_trans s0 s); [done|]. exact (Tame0 s (proj1 HS) s1 E). Qed.

Lemma last_with {A} (f : machine -> option (A * machine)) `{!TameWith f} s0 s : still s0 s -> returns (f s) (fun r => still s0 r.2).
Proof. intros HS r E. apply (still_trans s0 s); [done|]. exact (TameWith0 s (proj1 HS) r E). Qed.

(** Walks through a command. *)
Ltac tame_walk :=
  repeat first
    [ assumption
    | progress cbn beta zeta
    | apply returns_some; cbn [snd]; assumption
    | eapply step_tame; [typeclasses eauto|eassumption|intros ? ?]
    | eapply step_with; [typeclasses eauto|eassumption|intros ? ? ?]
    | eapply last_tame; [typeclasses eauto|eassumption]
    | eapply last_with; [typeclasses eauto|eassumption]
    | simple apply returns_let
    | simple apply returns_assoc
    | case_match ].
Ltac tame_body := intros s HQ; assert (still s s) by (by split).

(** The calls. *)
Lemma still_moved s k : quiet s -> steady s (set_kern k s) -> moved (kern s) k -> still s (set_kern k s).
Proof.
  intros HQ HS HM. split; [by eapply quiet_steady|]. pose proof (cm_booted _ (proj1 HQ)) as HB.
  destruct (bt_current _ HB) as [p Hp]. assert (g_current_process k = Some p) as Hp' by (rewrite <- Hp; apply (ow_current _ _ (proj1 HS))).
  intros fd. unfold MshKernel.view_files. change (kern (set_kern k s)) with k. rewrite Hp, Hp'. cbn [mbind option_bind].
  apply moved_files; [apply HB|by apply (current_live _ p (bt_inv _ HB))|done].
Qed.

#[local] Instance tame_term f : Tame (on_term f).
Proof.
  intros s HQ s'. unfold on_term. destruct (on_tty f (kern s)) as [k|] eqn:E; [|done]. cbn [mbind option_bind]. intros [= <-].
  pose proof (cm_booted _ (proj1 HQ)) as HB. apply still_moved; [done| |by eapply moved_tty]. split; [by eapply own_tty|done].
Qed.

#[local] Instance tame_fs {A} (m : M (fs S W) A) : TameWith (fs_call m).
Proof.
  intros s HQ [r s']. unfold fs_call. destruct (on_fs m (kern s)) as [[r0 k]|] eqn:E; [|done]. cbn [mbind option_bind]. intros [= <- <-].
  pose proof (cm_booted _ (proj1 HQ)) as HB. apply still_moved; [done| |by eapply moved_fs]. split; [by eapply own_fs|done].
Qed.

#[local] Instance tame_write fd bytes : TameWith (k_write fd bytes).
Proof.
  intros s HQ [r s']. unfold k_write, on_kernel. destruct (fd_core_write fd _ (kern s)) as [[r0 k]|] eqn:E; [|done]. cbn [mbind option_bind]. intros [= <- <-].
  pose proof (cm_booted _ (proj1 HQ)) as HB. apply still_moved; [done| |by eapply write_moved]. split; [by eapply fd_core_write_own|done].
Qed.

#[local] Instance tame_read fd count : TameWith (k_read fd count).
Proof.
  intros s HQ [r s']. unfold k_read. destruct (fd_core_read fd true count (kern s)) as [[[r0 bytes] k]|] eqn:E; [|done]. cbn [mbind option_bind]. intros [= <- <-].
  pose proof (cm_booted _ (proj1 HQ)) as HB. apply still_moved; [done| |by eapply read_moved]. split; [by eapply fd_core_read_own|done].
Qed.

#[local] Instance tame_puts text : Tame (tty_puts text) := tame_term _.
#[local] Instance tame_color c : Tame (set_color c) := tame_term _.

#[local] Instance tame_cwd : TameWith cwd_path.
Proof. tame_body. unfold cwd_path. tame_walk. Qed.

#[local] Instance tame_complain text : Tame (complain text).
Proof. tame_body. unfold complain. tame_walk. Qed.

#[local] Instance tame_fs_error cmd rc : Tame (shell_print_fs_error cmd rc) := tame_complain _.
#[local] Instance tame_usage cmd usage : Tame (shell_print_usage cmd usage) := tame_complain _.
#[local] Instance tame_path_error cmd path rc : Tame (shell_print_posix_path_error cmd path rc) := tame_complain _.

#[local] Instance tame_stat path : TameWith (k_stat path).
Proof. tame_body. unfold k_stat. tame_walk. Qed.

#[local] Instance tame_each f paths : (forall path, Tame (f path)) -> Tame (for_each f paths).
Proof.
  intros Hf. induction paths as [|path paths IH]; tame_body; cbn [for_each]; [tame_walk|].
  eapply step_tame; [apply Hf|eassumption|]. intros s1 H1. eapply last_tame; [apply IH|done].
Qed.

(** *** Files that are opened and closed *)

Section Open.
Hypothesis Hopen : forall path fl, fails_loudly (S := S) (W := W) (fs_core_open path fl).
Hypothesis Hsize : forall id, fails_loudly (S := S) (W := W) (fs_core_size id).

(** [fd] is open on a file in [s1], the other descriptors are those of [s]. *)
Definition opened (fd : Z) (s s1 : machine) : Prop :=
  quiet s1 /\ MshKernel.view_files s fd = None /\ MshKernel.view_files s1 fd <> None /\
  forall x, x <> fd -> MshKernel.view_files s1 x = MshKernel.view_files s x.

Lemma opened_still fd s s1 s2 : opened fd s s1 -> still s1 s2 -> opened fd s s2.
Proof. intros (_ & H1 & H2 & H3) [Q HV]. split_and!; [done|done|by rewrite HV|]. intros x Hx. rewrite HV. by apply H3. Qed.

Lemma view_of (s : machine) k p : g_current_process (kern s) = Some p -> g_current_process k = Some p -> forall fd,
  MshKernel.view_files s fd = files_at (kern s) p fd /\ MshKernel.view_files (set_kern k s) fd = files_at k p fd.
Proof. intros H1 H2 fd. unfold MshKernel.view_files. change (kern (set_kern k s)) with k. by rewrite H1, H2. Qed.

Lemma open_step path fl s : quiet s ->
  returns (k_open path fl s) (fun r => if r.1 <? 0 then still s r.2 else opened r.1 s r.2).
Proof using Hopen Hsize.
  intros HQ [fd s1]. unfold k_open, on_kernel. destruct (fd_core_open _ fl (kern s)) as [[r k]|] eqn:E; [|done]. cbn [mbind option_bind].
  intros [= <- <-]. cbn [fst snd]. pose proof (cm_booted _ (proj1 HQ)) as HB. destruct (bt_current _ HB) as [p Hp].
  pose proof (fd_core_open_own _ fl (kern s) k r HB E) as HO. assert (g_current_process k = Some p) as Hp' by (by rewrite (ow_current _ _ HO)).
  assert (quiet (set_kern k s)) as HQ1 by (eapply quiet_steady; [done|]; by split).
  pose proof (view_of s k p Hp Hp') as V. pose proof (open_files (kern s) p HB Hp _ fl r k (Hopen _ _) Hsize E) as H.
  destruct (r <? 0).
  - split; [done|]. intros x. destruct (V x) as [-> ->]. apply H.
  - destruct H as (H1 & (f & H2) & H3). destruct (V r) as [V1 V2]. split_and!; [done|by rewrite V1|by rewrite V2, H2|].
    intros x Hx. destruct (V x) as [-> ->]. by apply H3.
Qed.

Lemma close_step fd s s1 : opened fd s s1 -> returns (k_close fd s1) (fun r => still s r.2).
Proof.
  intros (HQ & H1 & H2 & H3) [rc s2]. unfold k_close, on_kernel. destruct (fd_core_close fd (kern s1)) as [[r k]|] eqn:E; [|done].
  cbn [mbind option_bind]. intros [= <- <-]. cbn [snd]. pose proof (cm_booted _ (proj1 HQ)) as HB. destruct (bt_current _ HB) as [p Hp].
  pose proof (fd_core_close_own fd (kern s1) k r HB E) as HO. assert (g_current_process k = Some p) as Hp' by (by rewrite (ow_current _ _ HO)).
  pose proof (view_of s1 k p Hp Hp') as V. destruct (V fd) as [V1 V2]. rewrite V1 in H2.
  destruct (close_files (kern s1) p HB Hp fd r k E H2) as [C1 C2].
  split; [eapply quiet_steady; [done|]; by split|]. intros x. destruct (V x) as [V3 ->].
  destruct (decide (x = fd)) as [->|Hx]; [by rewrite C1, H1|]. rewrite C2 by done. rewrite <- V3. by apply H3.
Qed.

Lemma close_reporting_step cmd path fd s s1 : opened fd s s1 -> returns (close_reporting cmd path fd s1) (still s).
Proof.
  intros HO. unfold close_reporting. apply returns_bind. intros [rc s2] E. pose proof (close_step fd s s1 HO _ E) as H. cbn [snd] in H. tame_walk.
Qed.

(** A command that opens a file, works on it and closes it. *)
Lemma bracket path fl s (fail body : Z -> machine -> option machine) :
  quiet s -> (forall fd, Tame (fail fd)) -> (forall fd s1, opened fd s s1 -> returns (body fd s1) (still s)) ->
  returns ('(fd, s) ← k_open path fl s; if fd <? 0 then fail fd s else body fd s) (still s).
Proof using Hopen Hsize.
  intros HQ Hf Hb. apply returns_bind. intros [fd s1] E. pose proof (open_step path fl s HQ _ E) as H. cbn [fst snd] in H.
  destruct (fd <? 0); [|by apply Hb]. eapply last_tame; [apply Hf|done].
Qed.

#[local] Instance tame_touch path : Tame (touch_file path).
Proof using Hopen Hsize.
  intros s HQ. apply (bracket path _ s (fun fd => shell_print_posix_path_error (cstr "touch") path fd) (fun fd => close_reporting (cstr "touch") path fd));
    [done|intros fd; apply _|]. intros fd s1. apply close_reporting_step.
Qed.

#[local] Instance tame_cat_loop fuel path fd : Tame (cat_loop fuel path fd).
Proof.
  induction fuel as [|fuel IH]; tame_body; cbn [cat_loop]; [done|]. eapply step_with; [apply _|eassumption|]. intros [size bytes] s1 H1. cbn beta iota.
  case_match; [tame_walk|]. case_match; [tame_walk|]. eapply step_with; [apply _|eassumption|]. intros rc s2 Hs2. cbn beta iota.
  case_match; [tame_walk|]. eapply last_tame; [apply IH|done].
Qed.

#[local] Instance tame_cat fuel path : Tame (cat_file fuel path).
Proof using Hopen Hsize.
  intros s HQ. apply (bracket path _ s (fun fd => shell_print_posix_path_error (cstr "cat") path fd)
    (fun fd s => s ← cat_loop fuel path fd s; close_reporting (cstr "cat") path fd s)); [done|intros fd; apply _|].
  intros fd s1 HO. apply returns_bind. intros s2 E. apply close_reporting_step. eapply opened_still; [exact HO|].
  by apply (tame_cat_loop fuel path fd s1 (proj1 HO)).
Qed.

#[local] Instance tame_cmd_write args : Tame (shell_cmd_write args).
Proof using Hopen Hsize.
  tame_body. unfold shell_cmd_write. destruct (write_options args false true) as [[words append] newline].
  destruct words as [|file [|w ws]]; [tame_walk..|]. cbv zeta. set (data := spaced _ ++ _). case_match; [tame_walk|].
  apply (bracket file _ s (fun fd => shell_print_posix_path_error (cstr "write") file fd)
    (fun fd s => '(rc, s) ← k_write fd data s;
       if rc <? 0 then s ← shell_print_posix_path_error (cstr "write") file rc s; '(_, s) ← k_close fd s; Some s
       else close_reporting (cstr "write") file fd s)); [done|intros fd; apply _|].
  intros fd s1 HO. apply returns_bind. intros [rc s2] E. pose proof (opened_still fd s s1 s2 HO (tame_write fd data s1 (proj1 HO) _ E)) as H2.
  case_match; [|by apply close_reporting_step]. apply returns_bind. intros s3 E3.
  pose proof (opened_still fd s s2 s3 H2 (tame_path_error _ _ _ s2 (proj1 H2) _ E3)) as H3.
  apply returns_bind. intros [rc4 s4] E4. apply returns_some. exact (close_step fd s s3 H3 _ E4).
Qed.

(** *** The other commands *)

#[local] Instance tame_ls_entries all es : Tame (ls_entries all es).
Proof.
  induction es as [|e es IH]; tame_body; cbn [ls_entries]; [tame_walk|].
  case_match; (eapply step_tame; [|eassumption|intros s1 H1; eapply last_tame; [apply IH|done]]); [|unfold shell_ls_print_entry; apply _].
  intros s1 HQ1. by apply returns_some.
Qed.

#[local] Instance tame_ls_dir path all : Tame (shell_ls_print_dir path all).
Proof. tame_body. unfold shell_ls_print_dir, shell_ls_print_entry. tame_walk. Qed.

#[local] Instance tame_ls_paths many first all paths : Tame (ls_paths many first all paths).
Proof.
  revert first. induction paths as [|path paths IH]; intros first; tame_body; cbn [ls_paths]; [tame_walk|].
  unfold shell_ls_print_entry. tame_walk.
Qed.

#[local] Instance tame_make_parent path : TameWith (make_parent path).
Proof. tame_body. unfold make_parent. tame_walk. Qed.

#[local] Instance tame_parents n i path : TameWith (parents_loop n i path).
Proof. revert i. induction n as [|n IH]; intros i; tame_body; cbn [parents_loop]; tame_walk. Qed.

#[local] Instance tame_normalize path : TameWith (shell_normalize_path path).
Proof. tame_body. unfold shell_normalize_path. tame_walk. Qed.

#[local] Instance tame_mkdir_parents path : TameWith (shell_mkdir_parents path).
Proof. tame_body. unfold shell_mkdir_parents. tame_walk. Qed.

#[local] Instance tame_mkdir parents paths : Tame (mkdir_loop parents paths).
Proof. induction paths as [|path paths IH]; tame_body; cbn [mkdir_loop]; [tame_walk|]. destruct parents; tame_walk. Qed.

#[local] Instance tame_rm_children remove target es failed : (forall path, TameWith (remove path)) -> TameWith (rm_children remove target es failed).
Proof. intros Hr. revert failed. induction es as [|[name ty] es IH]; intros failed; tame_body; cbn [rm_children]; tame_walk. Qed.

#[local] Instance tame_rm_done force r : TameWith (rm_done force r).
Proof. tame_body. unfold rm_done. tame_walk. Qed.

#[local] Instance tame_rm levels recursive force target : TameWith (shell_rm_recursive levels recursive force target).
Proof.
  revert recursive target. induction levels as [|levels IH]; intros recursive target; tame_body; cbn [shell_rm_recursive]; tame_walk.
Qed.

#[local] Instance tame_rm_operand recursive force path : Tame (rm_operand recursive force path).
Proof. tame_body. unfold rm_operand. tame_walk. Qed.

#[local] Instance tame_stat_file path : Tame (stat_file path).
Proof. tame_body. unfold stat_file. tame_walk. Qed.

Variable wait_ticks : Z -> W -> option W.
Hypothesis HL : lawful enter l wait_ticks signal_power_down.

Lemma execve_step path argv s : quiet s -> g_next_pid (kern s) < 2 ^ 32 - 1 ->
  returns (k_execve enter l path_at args_at argv_at path argv s) (fun r => still s r.2).
Proof using HL.
  intros HQ Hn [rc s']. unfold k_execve. destruct (put_strings _ _ _) as [ptrs m]. set (m1 := store_bytes _ _ m).
  intros E. destruct (bt_current _ (cm_booted _ (proj1 HQ))) as [p Hp].
  destruct (execve_effect enter l wait_ticks signal_power_down path_at argv_at 0 (set_mem m1 s) rc s' p HL HQ Hn Hp E) as (Hp' & _ & HQ' & Hf).
  split; [done|]. intros fd. unfold MshKernel.view_files. cbn [snd]. rewrite Hp', Hp. cbn [mbind option_bind].
  destruct (Hf fd) as [H1 H2]. by apply files_same.
Qed.

#[local] Notation cmd_dispatch := (dispatch enter l signal_power_down mm_print_stats path_at args_at argv_at).

Lemma program_step text path argv cmd s : quiet s -> g_next_pid (kern s) < 2 ^ 32 - 1 ->
  returns (s ← tty_puts text s; '(rc, s) ← k_execve enter l path_at args_at argv_at path argv s;
           if rc <? 0 then shell_print_posix_path_error cmd path rc s else Some s) (still s).
Proof using HL.
  intros HQ Hn. apply returns_bind. intros s1 E1. pose proof (tame_puts text s HQ s1 E1) as H1.
  assert (g_next_pid (kern s1) = g_next_pid (kern s)) as Hn1.
  { unfold tty_puts, on_term, on_tty in E1. destruct (put_bytes text _); [|done]. by injection E1 as <-. }
  apply returns_bind. intros [rc s2] E2. pose proof (execve_step path argv s1 (proj1 H1) ltac:(lia) _ E2) as H2. cbn [snd] in H2.
  pose proof (still_trans _ _ _ H1 H2). tame_walk.
Qed.

Lemma dispatch_step fuel k cmd args s : quiet s -> g_next_pid (kern s) < 2 ^ 32 - 1 ->
  returns (cmd_dispatch fuel k cmd args s) (still s).
Proof using HL Hopen Hsize.
  intros HQ Hn. assert (still s s) as H0 by by split. unfold dispatch.
  destruct (is_arg "help" cmd); [unfold shell_cmd_help; tame_walk|].
  destruct (is_arg "clear" cmd); [unfold shell_cmd_clear; tame_walk|].
  destruct (is_arg "echo" cmd); [unfold shell_cmd_echo; destruct (echo_options args true); tame_walk|].
  destruct (is_arg "version" cmd); [unfold shell_version; tame_walk|].
  destruct (is_arg "reboot" cmd); [unfold shell_cmd_reboot; tame_walk|].
  destruct (is_arg "shutdown" cmd); [unfold shell_cmd_shutdown; tame_walk|].
  destruct (is_arg "shell" cmd); [by apply program_step|].
  destruct (is_arg "pwd" cmd); [unfold shell_cmd_pwd; tame_walk|].
  destruct (is_arg "ls" cmd); [unfold shell_cmd_ls; tame_walk|].
  destruct (is_arg "cat" cmd); [unfold shell_cmd_cat; tame_walk|].
  destruct (is_arg "stat" cmd); [unfold shell_cmd_stat; tame_walk|].
  destruct (is_arg "mkdir" cmd); [unfold shell_cmd_mkdir; tame_walk|].
  destruct (is_arg "touch" cmd); [unfold shell_cmd_touch; tame_walk|].
  destruct (is_arg "write" cmd); [by apply tame_cmd_write|].
  destruct (is_arg "rm" cmd); [unfold shell_cmd_rm; tame_walk|].
  destruct (is_arg "sync" cmd); [unfold shell_cmd_sync, posix_sync; tame_walk|].
  destruct (is_arg "history" cmd); [unfold shell_cmd_history; tame_walk|].
  destruct (is_arg "ticks" cmd); [unfold shell_cmd_ticks, shell_put_u64_hex, shell_put_u32_dec; tame_walk|].
  destruct (is_arg "exec" cmd).
  { unfold shell_cmd_exec. destruct (after_dashes args) as [|file rest]; [tame_walk|].
    apply returns_bind. intros [rc s2] E2. pose proof (execve_step _ _ s HQ Hn _ E2) as H2. cbn [snd] in H2. tame_walk. }
  destruct (is_arg "fsstat" cmd); [unfold shell_cmd_fsstat; tame_walk|].
  destruct (is_arg "mmstat" cmd); [unfold shell_cmd_mmstat; tame_walk|]. tame_walk.
Qed.

Lemma cd_step args k s : quiet s -> returns (shell_cmd_cd args (k, s)) (fun y => still s y.2).
Proof.
  intros HQ. assert (still s s) as H0 by by split. unfold shell_cmd_cd. eapply step_with; [apply _|exact H0|]. intros cwd s1 H1. cbn beta iota zeta.
  tame_walk.
Qed.

Lemma run_line_step fuel text k s : quiet s -> g_next_pid (kern s) < 2 ^ 32 - 1 ->
  returns (run_line fuel text (k, s)) (fun y => still s y.2).
Proof using HL Hopen Hsize.
  intros HQ Hn. assert (still s s) as H0 by by split. unfold shell_run_line. apply returns_bind. intros o _.
  destruct o as [rc|[text' argv]]; [tame_walk|]. destruct (string_from text' <$> argv) as [|cmd args]; [by apply returns_some|].
  cbv zeta. destruct (is_arg "cd" cmd); [by apply cd_step|]. apply returns_bind. intros s1 E.
  apply returns_some. exact (dispatch_step _ _ _ _ s HQ Hn s1 E).
Qed.

End Open.

End Commands.
End Machine.

Section Shell.
Context {S W : Type} `{!storage S} `{!services W}.
#[local] Notation machine := (machine S W).
Variable enter : Z -> Z -> machine -> option (Z * machine).
Variable l : layout.
Variable wait_ticks : Z -> W -> option W.
Variable signal_power_down : W -> W.
Variable mm_print_stats : W -> option W.
Variables path_at args_at argv_at : Z.
#[local] Notation run_line := (shell_run_line enter l signal_power_down mm_print_stats path_at args_at argv_at).

(** C10: A command of the kernel shell leaves the descriptors of the kernel as they were. Let the shell run any
    line, where the programs it starts behave as programs do, the file-system drivers have codes for their
    failures and the process numbers are not used up. Whatever the commands are and whichever of their
    operations fail, the kernel is consistent afterwards and every descriptor of the process is open on the
    same file as before, or closed as before: nothing that a command opened stays open. *)
Theorem kernel_shell_keeps_descriptors fuel text k s k' s' :
  lawful enter l wait_ticks signal_power_down -> MshKernel.drivers_loud (S := S) -> quiet s -> g_next_pid (kern s) < 2 ^ 32 - 1 ->
  run_line fuel text (k, s) = Some (k', s') ->
  quiet s' /\ forall fd, MshKernel.view_files s' fd = MshKernel.view_files s fd.
Proof.
  intros HL HD HQ Hn E.
  exact (run_line_step enter l signal_power_down mm_print_stats path_at args_at argv_at
    (fun path fl => MshKernel.loud_open path fl HD) (fun id => MshKernel.loud_size id HD) wait_ticks HL fuel text k s HQ Hn (k', s') E).
Qed.

(** C39: The shell stays inside its arrays. Its variables are well formed at start-up (a ring of 16 lines that fit
    their buffers, positions inside the ring, a saved line and a previous directory that fit theirs), and
    from a well-formed state, with a line inside its buffer of 256 bytes: a history key returns, without a
    write outside the buffer, and leaves the variables well formed and the line inside its buffer; so does
    the completion key, if listing the directory returns; and every line that is run leaves the variables
    well formed. *)
Theorem kernel_shell_in_its_arrays k ln :
  kshell_ok k -> in_line SHELL_LINE_CAP ln ->
  kshell_ok initial_kshell /\ kshell_ok (shell_history_reset_line_state k) /\
  (forall direction, exists rc ln' k',
     shell_history_hook direction SHELL_LINE_CAP ln k = Some (rc, ln', k') /\ kshell_ok k' /\ in_line SHELL_LINE_CAP ln') /\
  (forall s : machine, (forall token, exists r, shell_find_unique_path_match token SHELL_LINE_CAP s = Some r) ->
     exists ln' s', shell_tab_hook SHELL_LINE_CAP ln s = Some (ln', s') /\ in_line SHELL_LINE_CAP ln') /\
  (forall fuel text s k' s', run_line fuel text (k, s) = Some (k', s') -> kshell_ok k').
Proof.
  intros HK HI. split_and!.
  - apply initial_ok.
  - by apply reset_ok.
  - intros dir. by apply history_hook_ok.
  - intros s. by apply tab_hook_ok.
  - intros fuel text s k' s' E. exact (run_line_ok _ _ _ _ _ _ _ fuel text (k, s) (k', s') HK E).
Qed.

End Shell.

(** ** A session *)

#[local] Notation demo_run := (shell_run_line UsermodeProps.demo_enter UsermodeProps.demo_layout demo_power Some 0x5000 0x6000 0x7000).

(** [touch /f] leaves no descriptor behind. *)
Lemma kernel_shell_keeps_descriptors_witness :
  exists k' s', demo_run 2 (cstr "touch /f" ++ [0]) (initial_kshell, UsermodeProps.demo_machine) = Some (k', s') /\
    MshKernel.view_files s' 3 = None.
Proof.
  assert (g_shell_history_count ∘ fst <$> demo_run 2 (cstr "touch /f" ++ [0]) (initial_kshell, UsermodeProps.demo_machine) = Some 1) as Hr by reflexivity.
  destruct (demo_run _ _ _) as [[k' s']|] eqn:E; [|done]. exists k', s'. split; [done|].
  destruct (kernel_shell_keeps_descriptors UsermodeProps.demo_enter UsermodeProps.demo_layout demo_wait demo_power Some 0x5000 0x6000 0x7000
    2 (cstr "touch /f" ++ [0]) initial_kshell UsermodeProps.demo_machine k' s') as [_ H].
  - apply demo_lawful.
  - apply MshKernel.diskless_loud.
  - apply demo_quiet.
  - done.
  - exact E.
  - rewrite H. reflexivity.
Defined.

(** The key up, once a line was entered, brings it back. *)
Lemma kernel_shell_in_its_arrays_witness :
  let k := shell_history_push (cstr "ls") initial_kshell in
  let ln := Line (replicate 256 0) 0 0 1 in
  kshell_ok k /\ in_line SHELL_LINE_CAP ln /\
  exists rc ln' k', shell_history_hook (-1) SHELL_LINE_CAP ln k = Some (rc, ln', k') /\ kshell_ok k' /\ in_line SHELL_LINE_CAP ln' /\
    line_text ln' = cstr "ls".
Proof.
  intros k ln. assert (kshell_ok k) as HK by apply push_ok, initial_ok.
  assert (in_line SHELL_LINE_CAP ln) as HI by (split; [reflexivity|cbn; lia|reflexivity]).
  destruct (kernel_shell_in_its_arrays UsermodeProps.demo_enter UsermodeProps.demo_layout demo_power Some 0x5000 0x6000 0x7000 k ln HK HI)
    as (_ & _ & H & _). split; [done|]. split; [done|].
  destruct (H (-1)) as (rc & ln' & k' & E & H1 & H2). exists rc, ln', k'. split; [done|]. split; [done|]. split; [done|].
  assert (line_text ∘ snd ∘ fst <$> shell_history_hook (-1) SHELL_LINE_CAP ln k = Some (cstr "ls")) as Hr by reflexivity.
  rewrite E in Hr. cbn in Hr. by injection Hr.
Defined.

End KShellProps.
