(* ===== verification/AdaText.v ===== *)
(** * AdaText

    [userland/smu/editor/adatext.c]: the line editor.  The text is the array [g_text]; its
    loops work on positions in it.  Command lines are strings, pointers into them are
    their remaining characters.  The system is the interface of the shell, with the
    [errno] of the program. *)

From S2P Require Import Prelude FsTypes FsPath LineEdit MshParse MshRun.
From stdpp Require Import base list option list_numbers strings.
From Stdlib Require Import ZArith Lia.
Import FsTypes FsPath LineEdit MshParse MshRun.
Open Scope Z_scope.

Module AdaText.

Definition ADATEXT_BUFFER_CAP : Z := 3072.
Definition ADATEXT_INPUT_CAP : Z := 256.
Definition ADATEXT_PATH_CAP : Z := 96.
Definition ENOENT : Z := 2.

(** The static variables. *)
Record editor := Editor { g_text : list Z; g_text_len : Z; g_path : list Z; g_dirty : bool }.

(** [errno] after a call that failed. *)
Class shell_errno (W : Type) := os_errno : W -> Z.

(** ** The text *)

(** [g_text[i]] inside the text. *)
Definition text_byte (e : editor) (i : Z) : Z := default 0 (g_text e !! Z.to_nat i).

Fixpoint skip_spaces (p : list Z) : list Z :=
  match p with c :: r => if (c =? 32) || (c =? 9) then skip_spaces r else p | [] => [] end.

Fixpoint digits_loop (p : list Z) (value : Z) (have_digit : bool) : list Z * Z * bool :=
  match p with
  | c :: r => if (48 <=? c) && (c <=? 57) then digits_loop r (u32 (u32 (value * 10) + (c - 48))) true else (p, value, have_digit)
  | [] => (p, value, have_digit)
  end.

Definition parse_number (text : list Z) : option (list Z * Z) :=
  let '(p, value, have_digit) := digits_loop (skip_spaces text) 0 false in
  if have_digit : bool then Some (p, value) else None.

Fixpoint count_loop (n : nat) (i count : Z) (e : editor) : Z :=
  match n with
  | O => count
  | S n => count_loop n (i + 1) (if (text_byte e i =? 10) && (i + 1 <? g_text_len e) then count + 1 else count) e
  end.

Definition line_count (e : editor) : Z :=
  if g_text_len e =? 0 then 0 else count_loop (Z.to_nat (g_text_len e)) 0 1 e.

(** [while (current < line && i < g_text_len)], with [n] characters left. *)
Fixpoint find_loop (n : nat) (line current i : Z) (e : editor) : Z * Z :=
  match n with
  | O => (current, i)
  | S n => if current <? line then find_loop n line (if text_byte e i =? 10 then current + 1 else current) (i + 1) e
           else (current, i)
  end.

Fixpoint end_loop (n : nat) (i : Z) (e : editor) : Z :=
  match n with
  | O => i
  | S n => if text_byte e i =? 10 then i else end_loop n (i + 1) e
  end.

(** The start of a line, its end, and the end of what deleting it removes. *)
Definition line_bounds (line : Z) (e : editor) : option (Z * Z * Z) :=
  if (line =? 0) || (g_text_len e =? 0) then None
  else
    let '(current, i) := find_loop (Z.to_nat (g_text_len e)) line 1 0 e in
    if negb (current =? line) || (g_text_len e <=? i) then None
    else
      let end_ := end_loop (Z.to_nat (g_text_len e - i)) i e in
      Some (i, end_, if (end_ <? g_text_len e) && (text_byte e end_ =? 10) then end_ + 1 else end_).

(** [for (i = top; i > at; --i) g_text[i + size - 1] = g_text[i - 1];] for [n] steps. *)
Fixpoint open_gap (n : nat) (i size : Z) (a : list Z) : option (list Z) :=
  match n with
  | O => Some a
  | S n => v ← aget a (i - 1); a ← aset a (i + size - 1) v; open_gap n (i - 1) size a
  end.

(** [for (i = from; i <= len; ++i) g_text[i - size] = g_text[i];] for [n] steps. *)
Fixpoint close_gap (n : nat) (i size : Z) (a : list Z) : option (list Z) :=
  match n with
  | O => Some a
  | S n => v ← aget a i; a ← aset a (i - size) v; close_gap n (i + 1) size a
  end.

Fixpoint fill_gap (data : list Z) (i : Z) (a : list Z) : option (list Z) :=
  match data with
  | [] => Some a
  | c :: data => a ← aset a i c; fill_gap data (i + 1) a
  end.

Section Editor.
Context {W : Type} `{!shell_os W} `{!shell_errno W}.

(** ** Output *)

Fixpoint put_each (digits : list Z) (w : W) : option W :=
  match digits with [] => Some w | c :: r => w ← u_puts [c] w; put_each r w end.

Fixpoint dec_digits (fuel : nat) (value : Z) (digits : list Z) : list Z :=
  match fuel with
  | O => digits
  | S fuel => if value =? 0 then digits else dec_digits fuel (value / 10) (48 + value mod 10 :: digits)
  end.

Definition put_u32 (value : Z) : W -> option W := if value =? 0 then u_puts [48] else put_each (dec_digits 10 value []).

(** [write(STDOUT_FILENO, &g_text[i], 1)] for the [n] characters from [i] on. *)
Definition put_text (e : editor) (i n : Z) : W -> option W :=
  put_each (text_byte e <$> seqZ i n).

Definition print_line (line : Z) (e : editor) (w : W) : option W :=
  match line_bounds line e with
  | None => u_err (cstr "adatext: line does not exist" ++ [10]) w
  | Some (start, end_, _) =>
      w ← put_u32 line w; w ← u_puts (cstr " | ") w; w ← put_text e start (end_ - start) w; u_puts [10] w
  end.

Fixpoint print_lines (n : nat) (i : Z) (e : editor) (w : W) : option W :=
  match n with O => Some w | S n => w ← print_line i e w; print_lines n (i + 1) e w end.

Definition print_all (e : editor) (w : W) : option W :=
  let count := line_count e in
  if count =? 0 then u_puts (cstr "[empty]" ++ [10]) w else print_lines (Z.to_nat count) 1 e w.

(** ** Editing: the code, the editor and the world after it *)

Notation st := (editor * W)%type.

Definition complain (text : list Z) (x : st) : option (Z * st) := w ← u_err text x.2; Some (-1, (x.1, w)).

Definition insert_bytes (at_ : Z) (data : list Z) (x : st) : option (Z * st) :=
  let e := x.1 in
  let size := Z.of_nat (length data) in
  if (g_text_len e <? at_) || (ADATEXT_BUFFER_CAP <=? u32 (g_text_len e + size)) then complain (cstr "adatext: buffer full" ++ [10]) x
  else
    a ← open_gap (Z.to_nat (g_text_len e + 1 - at_)) (g_text_len e + 1) size (g_text e);
    a ← fill_gap data at_ a;
    a ← aset a (g_text_len e + size) 0;
    Some (0, (Editor a (g_text_len e + size) (g_path e) true, x.2)).

Definition insert_line (line : Z) (text : list Z) (x : st) : option (Z * st) :=
  let e := x.1 in
  let count := line_count e in
  if (line =? 0) || (count + 1 <? line) then complain (cstr "adatext: invalid line number" ++ [10]) x
  else if ADATEXT_INPUT_CAP + 1 <=? Z.of_nat (length text) + 1 then complain (cstr "adatext: line too long" ++ [10]) x
  else if line <=? count then
    match line_bounds line e with
    | None => Some (-1, x)
    | Some (at_, _, _) => insert_bytes at_ (text ++ [10]) x
    end
  else insert_bytes (g_text_len e) (text ++ [10]) x.

Definition append_line (text : list Z) (x : st) : option (Z * st) := insert_line (line_count x.1 + 1) text x.

Definition delete_line (line : Z) (x : st) : option (Z * st) :=
  let e := x.1 in
  match line_bounds line e with
  | None => complain (cstr "adatext: line does not exist" ++ [10]) x
  | Some (start, _, remove_end) =>
      let size := remove_end - start in
      a ← close_gap (Z.to_nat (g_text_len e + 1 - remove_end)) remove_end size (g_text e);
      Some (0, (Editor a (g_text_len e - size) (g_path e) true, x.2))
  end.

Definition replace_line (line : Z) (text : list Z) (x : st) : option (Z * st) :=
  '(rc, x) ← delete_line line x; if negb (rc =? 0) then Some (-1, x) else insert_line line text x.

(** ** Files *)

(** [u_copy(g_path, sizeof(g_path), path)]: what is copied before the end of the buffer stays. *)
Definition copy_path (path : list Z) (e : editor) : bool * editor :=
  let n := Z.to_nat (ADATEXT_PATH_CAP - 1) in
  if (length path <=? n)%nat then (true, Editor (g_text e) (g_text_len e) path (g_dirty e))
  else (false, Editor (g_text e) (g_text_len e) (take n path ++ drop n (g_path e)) (g_dirty e)).

Definition emptied (e : editor) : option editor := a ← aset (g_text e) 0 0; Some (Editor a 0 (g_path e) (g_dirty e)).
Definition set_dirty (d : bool) (e : editor) : editor := Editor (g_text e) (g_text_len e) (g_path e) d.

(** The end of loading and saving: the path is copied. *)
Definition take_path (path : list Z) (x : st) : option (Z * st) :=
  let '(fits, e) := copy_path path x.1 in
  if fits : bool then Some (0, (set_dirty false e, x.2)) else complain (cstr "adatext: path too long" ++ [10]) (e, x.2).

Definition load_file (path : list Z) (x : st) : option (Z * st) :=
  e ← emptied x.1;
  '(fd, w) ← os_open path O_RDONLY x.2;
  if fd <? 0 then
    if os_errno w =? ENOENT then
      '(rc, x) ← take_path path (e, w);
      if negb (rc =? 0) then Some (rc, x)
      else w ← u_puts (cstr "AdaText: new file ") x.2; w ← u_puts path w; w ← u_puts [10] w; Some (0, (x.1, w))
    else complain (cstr "adatext: cannot open file" ++ [10]) (e, w)
  else
    '(n, bytes, w) ← os_read fd (ADATEXT_BUFFER_CAP - 1) w;
    if n <? 0 then
      '(_, w) ← os_close fd w; complain (cstr "adatext: read failed" ++ [10]) (e, w)
    else
      a ← fill_gap bytes 0 (g_text e);
      a ← aset a n 0;
      let e := Editor a n (g_path e) (g_dirty e) in
      '(extra, _, w) ← os_read fd 1 w;
      '(_, w) ← os_close fd w;
      if 0 <? extra then
        e ← emptied e; complain (cstr "adatext: file is larger than editor buffer" ++ [10]) (e, w)
      else take_path path (e, w).

(** The loop that writes the text; [None] when it does not end within [fuel] calls. *)
Fixpoint save_loop (fuel : nat) (fd done_ : Z) (e : editor) (w : W) : option (bool * W) :=
  if g_text_len e <=? done_ then Some (true, w)
  else
    match fuel with
    | O => None
    | S fuel =>
        '(n, w) ← os_write fd (text_byte e <$> seqZ done_ (g_text_len e - done_)) w;
        if n <=? 0 then Some (false, w) else save_loop fuel fd (done_ + n) e w
    end.

Definition save_file (fuel : nat) (path : list Z) (x : st) : option (Z * st) :=
  let '(e, w) := x in
  if (length path =? 0)%nat then complain (cstr "adatext: no file name; use w <path>" ++ [10]) x
  else
    '(fd, w) ← os_open path (Z.lor (Z.lor O_CREAT O_TRUNC) O_WRONLY) w;
    if fd <? 0 then complain (cstr "adatext: cannot save file" ++ [10]) (e, w)
    else
      '(written, w) ← save_loop fuel fd 0 e w;
      if negb written then '(_, w) ← os_close fd w; complain (cstr "adatext: write failed" ++ [10]) (e, w)
      else
        '(rc, w) ← os_close fd w;
        if rc <? 0 then complain (cstr "adatext: close failed" ++ [10]) (e, w)
        else
          '(rc, x) ← take_path path (e, w);
          if negb (rc =? 0) then Some (rc, x)
          else w ← u_puts (cstr "Saved ") x.2; w ← u_puts (g_path x.1) w; w ← u_puts [10] w; Some (0, (x.1, w)).

Definition print_status (e : editor) (w : W) : option W :=
  w ← u_puts (cstr "File: ") w;
  w ← (match g_path e with [] => u_puts (cstr "[no file]") w | p => u_puts p w end);
  w ← u_puts (cstr " | lines: ") w;
  w ← put_u32 (line_count e) w;
  w ← u_puts (cstr " | bytes: ") w;
  w ← put_u32 (g_text_len e) w;
  u_puts ((if g_dirty e then cstr " | modified" else cstr " | saved") ++ [10]) w.

Definition help_text : list (list Z) :=
  [cstr "AdaText commands:"; cstr "  p [N]        print all text or line N"; cstr "  a TEXT       append a line";
   cstr "  i N TEXT     insert before line N"; cstr "  r N TEXT     replace line N"; cstr "  d N          delete line N";
   cstr "  e PATH       open another file"; cstr "  w [PATH]     save / save as"; cstr "  wq [PATH]    save and quit";
   cstr "  s            status"; cstr "  q            quit if saved"; cstr "  q!           quit without saving"; cstr "  h            help"].

Fixpoint put_lines (ls : list (list Z)) (w : W) : option W :=
  match ls with [] => Some w | t :: r => w ← u_puts (t ++ [10]) w; put_lines r w end.
Definition print_help : W -> option W := put_lines help_text.

(** ** Commands *)

Definition ended (p : list Z) : bool := match p with [] => true | _ => false end.

(** What only writes. *)
Definition show (f : editor -> W -> option W) (x : st) : option (bool * st) := w ← f x.1 x.2; Some (false, (x.1, w)).
(** What edits, with its code dropped. *)
Definition edit (f : st -> option (Z * st)) (x : st) : option (bool * st) := '(_, x) ← f x; Some (false, x).
Definition report (text : list Z) : st -> option (bool * st) := show (fun _ => u_err (text ++ [10])).

(** Whether the editor is left, and its state. *)
Definition handle_command (fuel : nat) (line : list Z) (x : st) : option (bool * st) :=
  match skip_spaces line with
  | [] => Some (false, x)
  | command :: p =>
      let rest := skip_spaces p in
      if (command =? 104) && ended rest then show (fun _ => print_help) x
      else if (command =? 115) && ended rest then show print_status x
      else if command =? 112 then
        if ended rest then show print_all x
        else match parse_number rest with
             | Some (p, number) => if ended (skip_spaces p) then show (print_line number) x else report (cstr "adatext: usage: p [line]") x
             | None => report (cstr "adatext: usage: p [line]") x
             end
      else if command =? 97 then edit (append_line rest) x
      else if (command =? 105) || (command =? 114) then
        match parse_number p with
        | None => report (if command =? 105 then cstr "adatext: usage: i line text" else cstr "adatext: usage: r line text") x
        | Some (p, number) =>
            if command =? 105 then edit (insert_line number (skip_spaces p)) x else edit (replace_line number (skip_spaces p)) x
        end
      else if command =? 100 then
        match parse_number p with
        | Some (p, number) => if ended (skip_spaces p) then edit (delete_line number) x else report (cstr "adatext: usage: d line") x
        | None => report (cstr "adatext: usage: d line") x
        end
      else if command =? 101 then
        if ended rest then report (cstr "adatext: usage: e path") x
        else if g_dirty x.1 then report (cstr "adatext: unsaved changes; save first or use q!") x
        else edit (load_file rest) x
      else if command =? 119 then
        let quit_after := char_at p 0 =? 113 in
        let p := skip_spaces (if quit_after then drop 1 p else p) in
        '(rc, x) ← save_file fuel (if ended p then g_path x.1 else p) x;
        Some ((rc =? 0) && quit_after, x)
      else if command =? 113 then
        if (char_at rest 0 =? 33) && (char_at rest 1 =? 0) then Some (true, x)
        else if negb (ended rest) then report (cstr "adatext: usage: q or q!") x
        else if g_dirty x.1 then report (cstr "adatext: unsaved changes; use w, wq, or q!") x
        else Some (true, x)
      else report (cstr "adatext: unknown command; use h for help") x
  end.

(** The string in the input buffer. *)
Fixpoint input_string (bytes : list Z) : list Z :=
  match bytes with [] => [] | c :: r => if c =? 0 then [] else c :: input_string r end.

(** One turn of the loop of [main]: its result when it returns, else the state. *)
Definition main_turn (fuel : nat) (x : st) : option (Z + st) :=
  w ← u_puts (cstr "adatext> ") x.2;
  '(n, bytes, w) ← os_read STDIN_FILENO (ADATEXT_INPUT_CAP - 1) w;
  if n <? 0 then w ← u_err (cstr "adatext: input failed" ++ [10]) w; Some (inl 1)
  else if n =? 0 then Some (inr (x.1, w))
  else
    '(quit, x) ← handle_command fuel (input_string bytes) (x.1, w);
    Some (if quit : bool then inl 0 else inr x).

(** [main] up to its loop. *)
Definition main_start (argv : list (list Z)) (w : W) : option (Z + st) :=
  let e := Editor (replicate (Z.to_nat ADATEXT_BUFFER_CAP) 0) 0 [] false in
  if (2 <? length argv)%nat then w ← u_err (cstr "usage: adatext [file]" ++ [10]) w; Some (inl 1)
  else
    '(rc, x) ← (match argv with [_; path] => load_file path (e, w) | _ => Some (0, (e, w)) end);
    if negb (rc =? 0) then Some (inl 1)
    else
      w ← u_puts (cstr "AdaText ") x.2; w ← u_puts (cstr "0.1.0") w; w ← u_puts (cstr " - ") w;
      w ← u_puts (cstr "System Multi Utils") w; w ← u_puts [10] w;
      w ← print_status x.1 w;
      w ← u_puts (cstr "Type h for help." ++ [10]) w;
      Some (inr (x.1, w)).

End Editor.
End AdaText.
