(* ===== verification/AdaTextProps.v ===== *)
(** * AdaText is correct

    The editor against an abstract one that works on a list of lines, and what happens to
    the text when a file cannot be opened. *)

From S2P Require Import Prelude FsTypes FsPath LineEdit MshParse MshRun AdaText.
From stdpp Require Import base list option list_numbers strings.
From Stdlib Require Import ZArith Lia ZifyBool.
Import FsTypes FsPath LineEdit MshParse MshRun AdaText.
Open Scope Z_scope.

Module AdaTextProps.

(** The text of the editor is [t], inside the array. *)
Record contains (e : editor) (t : list Z) : Prop := {
  ct_array : Z.of_nat (length (g_text e)) = ADATEXT_BUFFER_CAP;
  ct_len : g_text_len e = Z.of_nat (length t);
  ct_room : Z.of_nat (length t) < ADATEXT_BUFFER_CAP;
  ct_holds : holds (g_text e) t
}.

(** ** Moving text *)

Lemma open_gap_exact size n : forall i a, (n <= i)%nat -> (i + size <= length a)%nat ->
  exists a', open_gap n (Z.of_nat i) (Z.of_nat size) a = Some a' /\ length a' = length a /\
    forall p, a' !! p = if decide (i - n + size <= p < i + size)%nat then a !! (p - size)%nat else a !! p.
Proof.
  induction n as [|n IH]; intros i a Hn Hi.
  { exists a. split_and!; [done|done|]. intros p. case_decide; [lia|done]. }
  cbn [open_gap]. replace (Z.of_nat i - 1) with (Z.of_nat (i - 1)) by lia. rewrite aget_nat.
  destruct (lookup_lt_is_Some_2 a (i - 1) ltac:(lia)) as [v Hv]. rewrite Hv. cbn [mbind option_bind].
  replace (Z.of_nat i + Z.of_nat size - 1) with (Z.of_nat (i + size - 1)) by lia. rewrite aset_nat by lia. cbn [mbind option_bind].
  destruct (IH (i - 1)%nat (<[(i + size - 1)%nat := v]> a)) as (a' & E & L & H); [lia|rewrite length_insert; lia|].
  exists a'. rewrite length_insert in L. split_and!; [done|done|]. intros p. rewrite H, !list_lookup_insert.
  repeat case_decide; try lia; try done. rewrite <- Hv. f_equal. lia.
Qed.

Lemma close_gap_exact size n : forall i a, (size <= i)%nat -> (i + n <= length a)%nat ->
  exists a', close_gap n (Z.of_nat i) (Z.of_nat size) a = Some a' /\ length a' = length a /\
    forall p, a' !! p = if decide (i - size <= p < i - size + n)%nat then a !! (p + size)%nat else a !! p.
Proof.
  induction n as [|n IH]; intros i a Hs Hi.
  { exists a. split_and!; [done|done|]. intros p. case_decide; [lia|done]. }
  cbn [close_gap]. rewrite aget_nat. destruct (lookup_lt_is_Some_2 a i ltac:(lia)) as [v Hv]. rewrite Hv. cbn [mbind option_bind].
  replace (Z.of_nat i - Z.of_nat size) with (Z.of_nat (i - size)) by lia. rewrite aset_nat by lia. cbn [mbind option_bind].
  replace (Z.of_nat i + 1) with (Z.of_nat (S i)) by lia.
  destruct (IH (S i) (<[(i - size)%nat := v]> a)) as (a' & E & L & H); [lia|rewrite length_insert; lia|].
  exists a'. rewrite length_insert in L. split_and!; [done|done|]. intros p. rewrite H, !list_lookup_insert.
  repeat case_decide; try lia; try done. rewrite <- Hv. f_equal. lia.
Qed.

Lemma fill_gap_exact data : forall i a, (i + length data <= length a)%nat -> fill_gap data (Z.of_nat i) a = Some (written a i data).
Proof.
  induction data as [|c data IH]; intros i a H; cbn [fill_gap]; [by rewrite written_nil|]. cbn in H.
  rewrite aset_nat by lia. cbn [mbind option_bind]. replace (Z.of_nat i + 1) with (Z.of_nat (S i)) by lia.
  rewrite IH by (rewrite length_insert; lia). by rewrite written_cons by lia.
Qed.

Lemma lookup_written a i w p : (i + length w <= length a)%nat ->
  written a i w !! p = if decide (i <= p < i + length w)%nat then w !! (p - i)%nat else a !! p.
Proof.
  intros H. unfold written. rewrite !lookup_app, length_take, Nat.min_l by lia.
  destruct (decide (p < i)%nat).
  - rewrite decide_False by lia. rewrite lookup_take_lt by lia. by destruct (lookup_lt_is_Some_2 a p ltac:(lia)) as [v ->].
  - rewrite lookup_take_ge by lia. destruct (decide (p < i + length w)%nat).
    + rewrite decide_True by lia. by destruct (lookup_lt_is_Some_2 w (p - i) ltac:(lia)) as [v ->].
    + rewrite decide_False by lia. rewrite (proj2 (lookup_ge_None w (p - i))) by lia. rewrite lookup_drop. f_equal. lia.
Qed.

(** ** Lines *)

(** A text: its complete lines, and what follows the last line end. *)
Notation doc := (list (list Z) * list Z)%type.

Definition flat (ls : list (list Z)) : list Z := concat ((fun l => l ++ [10]) <$> ls).
Definition doc_text (d : doc) : list Z := flat d.1 ++ d.2.
Definition no_newline (l : list Z) : Prop := Forall (fun c => c <> 10) l.
Definition doc_ok (d : doc) : Prop := Forall no_newline d.1 /\ no_newline d.2.
Definition doc_count (d : doc) : nat := length d.1 + (if decide (d.2 = []) then 0 else 1).

Lemma flat_cons l ls rest : flat (l :: ls) ++ rest = l ++ 10 :: flat ls ++ rest.
Proof. unfold flat. cbn. by rewrite <- !app_assoc. Qed.

Lemma flat_app ls1 ls2 : flat (ls1 ++ ls2) = flat ls1 ++ flat ls2.
Proof. unfold flat. by rewrite fmap_app, concat_app. Qed.

(** The loops, on the characters that are left. *)
Fixpoint newlines (s : list Z) : Z :=
  match s with [] => 0 | c :: r => (if (c =? 10) && negb (ended r) then 1 else 0) + newlines r end.
Fixpoint seek (s : list Z) (line current i : Z) : Z * Z :=
  match s with
  | [] => (current, i)
  | c :: r => if current <? line then seek r line (if c =? 10 then current + 1 else current) (i + 1) else (current, i)
  end.
Fixpoint stop (s : list Z) (i : Z) : Z :=
  match s with [] => i | c :: r => if c =? 10 then i else stop r (i + 1) end.

Section Text.
Context (e : editor) (t : list Z) (HC : contains e t).

Lemma byte_of i c s : drop i t = c :: s -> text_byte e (Z.of_nat i) = c /\ drop (S i) t = s /\ (i + S (length s) = length t)%nat.
Proof using HC.
  intros E. assert (t !! i = Some c) as Hi by (by rewrite <- (Nat.add_0_r i), <- lookup_drop, E).
  split_and!.
  - unfold text_byte. rewrite Nat2Z.id, (holds_lookup _ t); [by rewrite Hi|apply (ct_holds _ _ HC)|by apply lookup_lt_Some in Hi].
  - replace (S i) with (i + 1)%nat by lia. by rewrite <- drop_drop, E.
  - apply (f_equal length) in E. rewrite length_drop in E. cbn in E. lia.
Qed.

Lemma count_loop_list : forall s i c, drop i t = s -> count_loop (length s) (Z.of_nat i) c e = c + newlines s.
Proof using HC.
  induction s as [|x s IH]; intros i c E; cbn [length count_loop newlines]; [lia|].
  destruct (byte_of i x s E) as (-> & E' & L). replace (Z.of_nat i + 1) with (Z.of_nat (S i)) by lia. rewrite (IH (S i)) by done.
  rewrite (ct_len _ _ HC). replace (Z.of_nat (S i) <? Z.of_nat (length t)) with (negb (ended s)); [case_match; lia|].
  destruct s; cbn in L |- *; lia.
Qed.

Lemma find_loop_list line : forall s i c, drop i t = s -> find_loop (length s) line c (Z.of_nat i) e = seek s line c (Z.of_nat i).
Proof using HC.
  induction s as [|x s IH]; intros i c E; cbn [length find_loop seek]; [done|].
  destruct (byte_of i x s E) as (-> & E' & L). replace (Z.of_nat i + 1) with (Z.of_nat (S i)) by lia. by rewrite (IH (S i)).
Qed.

Lemma end_loop_list : forall s i, drop i t = s -> end_loop (length s) (Z.of_nat i) e = stop s (Z.of_nat i).
Proof using HC.
  induction s as [|x s IH]; intros i E; cbn [length end_loop stop]; [done|].
  destruct (byte_of i x s E) as (-> & E' & L). replace (Z.of_nat i + 1) with (Z.of_nat (S i)) by lia. by rewrite (IH (S i)).
Qed.

End Text.

Lemma newlines_line l s : no_newline l -> newlines (l ++ 10 :: s) = (if ended s then 0 else 1) + newlines s.
Proof.
  induction 1 as [|c l Hc _ IH]; cbn; [by destruct (ended s)|]. rewrite (proj2 (Z.eqb_neq c 10)) by done. cbn. apply IH.
Qed.
Lemma newlines_last l : no_newline l -> newlines l = 0.
Proof. induction 1 as [|c l Hc _ IH]; cbn; [done|]. by rewrite (proj2 (Z.eqb_neq c 10)). Qed.

Lemma newlines_doc ls last : Forall no_newline ls -> no_newline last -> flat ls ++ last <> [] ->
  1 + newlines (flat ls ++ last) = Z.of_nat (doc_count (ls, last)).
Proof.
  intros HL HN. unfold doc_count. cbn [fst snd]. induction HL as [|l ls Hl HL IH]; intros Hne.
  - cbn in Hne |- *. rewrite newlines_last, decide_False by done. lia.
  - rewrite flat_cons, newlines_line by done. destruct (flat ls ++ last) as [|c s] eqn:E.
    + cbn. apply app_eq_nil in E as [E1 ->]. rewrite decide_True by done.
      destruct ls as [|l' ls]; [cbn; lia|]. rewrite <- (app_nil_r (flat _)), flat_cons in E1. by destruct l'.
    + cbn [ended]. specialize (IH ltac:(done)). cbn [length]. lia.
Qed.

Lemma seek_line l s line cur i : no_newline l -> cur < line -> seek (l ++ 10 :: s) line cur i = seek s line (cur + 1) (i + Z.of_nat (length l) + 1).
Proof.
  intros H. revert cur i. induction H as [|c l Hc _ IH]; intros cur i Hl; cbn [app seek]; rewrite (proj2 (Z.ltb_lt cur line)) by done.
  - cbn. f_equal. lia.
  - rewrite (proj2 (Z.eqb_neq c 10)) by done. rewrite IH by done. f_equal. cbn [length]. lia.
Qed.
Lemma seek_last l line cur i : no_newline l -> cur < line -> seek l line cur i = (cur, i + Z.of_nat (length l)).
Proof.
  intros H. revert cur i. induction H as [|c l Hc _ IH]; intros cur i Hl; cbn [seek length]; [f_equal; lia|].
  rewrite (proj2 (Z.ltb_lt cur line)), (proj2 (Z.eqb_neq c 10)), IH by done. f_equal. lia.
Qed.
Lemma seek_here s line i : seek s line line i = (line, i).
Proof. destruct s; cbn; [done|]. by rewrite Z.ltb_irrefl. Qed.

Lemma seek_doc ls last line : Forall no_newline ls -> no_newline last -> forall cur i, cur <= line ->
  seek (flat ls ++ last) line cur i =
    if line - cur <=? Z.of_nat (length ls) then (line, i + Z.of_nat (length (flat (take (Z.to_nat (line - cur)) ls))))
    else (cur + Z.of_nat (length ls), i + Z.of_nat (length (flat ls ++ last))).
Proof.
  intros HL HN. induction HL as [|l ls Hl HL IH]; intros cur i Hc.
  - destruct (Z.leb_spec (line - cur) (Z.of_nat (length (@nil (list Z))))) as [H|H]; cbn [length] in H.
    + assert (cur = line) as -> by lia. rewrite seek_here, take_nil. cbn. f_equal. lia.
    + rewrite (seek_last last) by (done || lia). cbn. f_equal. lia.
  - destruct (decide (cur = line)) as [->|Hne].
    { rewrite seek_here, Z.sub_diag. rewrite (proj2 (Z.leb_le 0 _)) by lia. change (Z.to_nat 0) with 0%nat. cbn. f_equal. lia. }
    rewrite flat_cons, seek_line by (done || lia). rewrite IH by lia. cbn [length].
    destruct (Z.leb_spec (line - (cur + 1)) (Z.of_nat (length ls))), (Z.leb_spec (line - cur) (Z.of_nat (S (length ls)))); try lia.
    + replace (Z.to_nat (line - cur)) with (S (Z.to_nat (line - (cur + 1)))) by lia. cbn [take].
      rewrite <- (app_nil_r (flat (l :: _))), flat_cons, app_nil_r, length_app. cbn [length]. f_equal. lia.
    + rewrite (length_app l). cbn [length]. f_equal; lia.
Qed.

Lemma stop_line l s i : no_newline l -> stop (l ++ 10 :: s) i = i + Z.of_nat (length l).
Proof.
  intros H. revert i. induction H as [|c l Hc _ IH]; intros i; cbn [app stop]; [cbn; lia|].
  rewrite (proj2 (Z.eqb_neq c 10)), IH by done. cbn [length]. lia.
Qed.
Lemma stop_last l i : no_newline l -> stop l i = i + Z.of_nat (length l).
Proof.
  intros H. revert i. induction H as [|c l Hc _ IH]; intros i; cbn [stop]; [cbn; lia|].
  rewrite (proj2 (Z.eqb_neq c 10)), IH by done. cbn [length]. lia.
Qed.

(** *** Where the lines are *)

Section Doc.
Context (e : editor) (ls : list (list Z)) (last : list Z).
Hypothesis HC : contains e (doc_text (ls, last)).
Hypothesis HD : doc_ok (ls, last).
#[local] Notation t := (flat ls ++ last).

Definition pos (k : nat) : nat := length (flat (take k ls)).

Lemma line_count_doc : line_count e = Z.of_nat (doc_count (ls, last)).
Proof using HC HD.
  destruct HD as [HL HN]. cbn in HL, HN. unfold line_count. rewrite (ct_len _ _ HC). unfold doc_text. cbn [fst snd].
  destruct (Z.eqb_spec (Z.of_nat (length t)) 0) as [E|E].
  - assert (t = []) as Et by (destruct t; [done|cbn in E; lia]). apply app_eq_nil in Et as [E1 ->].
    destruct ls as [|l' ls']; [done|]. rewrite <- (app_nil_r (flat _)), flat_cons in E1. by destruct l'.
  - rewrite Nat2Z.id. change 0 with (Z.of_nat 0). rewrite (count_loop_list e t HC t 0 1) by done. apply newlines_doc; [done|done|].
    intros Et. by rewrite Et in E.
Qed.

(** The text from the start of line [k] on. *)
Lemma drop_pos k l : ls !! k = Some l -> drop (pos k) t = l ++ 10 :: flat (drop (S k) ls) ++ last.
Proof.
  intros Hk. rewrite <- (take_drop_middle ls k l Hk) at 1. rewrite flat_app, <- app_assoc. unfold pos.
  rewrite drop_app_length. apply flat_cons.
Qed.

Lemma pos_le k : (pos k <= length (flat ls))%nat.
Proof. unfold pos. rewrite <- (take_drop k ls) at 2. rewrite flat_app, length_app. lia. Qed.

Lemma line_bounds_doc n : 
  line_bounds (Z.of_nat n) e =
    match n with
    | O => None
    | S k =>
        match ls !! k with
        | Some l => Some (Z.of_nat (pos k), Z.of_nat (pos k + length l), Z.of_nat (pos k + length l + 1))
        | None => if decide (k = length ls /\ last <> []) then
                    Some (Z.of_nat (length (flat ls)), Z.of_nat (length t), Z.of_nat (length t))
                  else None
        end
    end.
Proof using HC HD.
  destruct HD as [HL HN]. cbn in HL, HN. unfold line_bounds. rewrite (ct_len _ _ HC). unfold doc_text. cbn [fst snd].
  destruct n as [|k]; [done|]. rewrite (proj2 (Z.eqb_neq (Z.of_nat (S k)) 0)) by lia. cbn [orb].
  destruct (Z.eqb_spec (Z.of_nat (length t)) 0) as [E|E].
  { assert (t = []) as Et by (destruct t; [done|cbn in E; lia]). apply app_eq_nil in Et as [E1 E2].
    destruct (ls !! k) as [l|] eqn:Hk; [pose proof (f_equal length (drop_pos k l Hk)) as X; rewrite length_drop, (length_app l) in X; cbn [length] in X; lia|].
    rewrite decide_False; [done|]. by intros [_ ?]. }
  rewrite Nat2Z.id. change (find_loop (length t) (Z.of_nat (S k)) 1 0 e) with (find_loop (length t) (Z.of_nat (S k)) 1 (Z.of_nat 0) e).
  rewrite (find_loop_list e t HC (Z.of_nat (S k)) t 0 1) by done. rewrite seek_doc by (done || lia).
  replace (Z.to_nat (Z.of_nat (S k) - 1)) with k by lia. change (Z.of_nat 0) with 0. rewrite !Z.add_0_l. fold (pos k).
  destruct (ls !! k) as [l|] eqn:Hk.
  - pose proof (lookup_lt_Some _ _ _ Hk) as Hlt. rewrite (proj2 (Z.leb_le _ _)) by lia.
    pose proof (drop_pos k l Hk) as Hd. pose proof (f_equal length Hd) as Hln. rewrite length_drop, (length_app l) in Hln. cbn [length] in Hln.
    rewrite Z.eqb_refl. cbn [negb orb]. rewrite (proj2 (Z.leb_gt _ _)) by lia.
    replace (Z.to_nat (Z.of_nat (length t) - Z.of_nat (pos k))) with (length (drop (pos k) t)) by (rewrite length_drop; lia).
    rewrite (end_loop_list e t HC _ _ eq_refl), Hd, stop_line by (eapply Forall_lookup_1 in HL; done).
    replace (Z.of_nat (pos k) + Z.of_nat (length l)) with (Z.of_nat (pos k + length l)) by lia.
    destruct (byte_of e t HC (pos k + length l) 10 (flat (drop (S k) ls) ++ last)) as (-> & _ & Hb).
    { by rewrite <- drop_drop, Hd, drop_app_length. }
    rewrite (proj2 (Z.ltb_lt _ _)) by lia. cbn. do 2 f_equal. lia.
  - apply lookup_ge_None in Hk. destruct (decide (k = length ls)) as [->|Hne].
    + rewrite (proj2 (Z.leb_le _ _)) by lia. rewrite Z.eqb_refl. cbn [negb orb]. unfold pos. rewrite (take_ge ls) by done.
      assert (length t = length (flat ls) + length last)%nat as Hlt by apply length_app.
      destruct (Z.leb_spec (Z.of_nat (length t)) (Z.of_nat (length (flat ls)))).
      * rewrite decide_False; [done|]. intros [_ Hx]. destruct last; [done|]. cbn in Hlt. lia.
      * rewrite decide_True by (split; [done|]; intros ->; cbn in Hlt; lia).
        replace (Z.to_nat (Z.of_nat (length t) - Z.of_nat (length (flat ls)))) with (length (drop (length (flat ls)) t)) by (rewrite length_drop; lia).
        rewrite (end_loop_list e t HC _ _ eq_refl), drop_app_length, stop_last by done.
        replace (Z.of_nat (length (flat ls)) + Z.of_nat (length last)) with (Z.of_nat (length t)) by lia.
        by rewrite Z.ltb_irrefl.
    + rewrite decide_False by naive_solver. rewrite (proj2 (Z.leb_gt _ _)) by lia.
      rewrite (proj2 (Z.eqb_neq _ _)) by lia. done.
Qed.

End Doc.

(** ** Inserting and removing a stretch *)

Section World.
Context {W : Type} `{!shell_os W} `{!shell_errno W}.

(** What an edit leaves: the text, the path, and the mark that the text changed. *)
Definition edited (e e' : editor) (t : list Z) : Prop := contains e' t /\ g_path e' = g_path e /\ g_dirty e' = true.

Lemma insert_bytes_exact e t at_ data (w : W) : contains e t -> (at_ <= length t)%nat ->
  Z.of_nat (length t) + Z.of_nat (length data) < ADATEXT_BUFFER_CAP ->
  exists e', insert_bytes (Z.of_nat at_) data (e, w) = Some (0, (e', w)) /\ edited e e' (take at_ t ++ data ++ drop at_ t).
Proof.
  intros [HA HL HR HT] Ha Hs. unfold insert_bytes. cbn [fst snd]. rewrite HL. rewrite u32_small by (unfold ADATEXT_BUFFER_CAP in *; lia).
  set (n := length t) in *. set (size := length data) in *. replace (_ || _) with false by lia.
  destruct (open_gap_exact size (n + 1 - at_) (n + 1) (g_text e)) as (a & E & La & Hg); [lia|lia|].
  replace (Z.to_nat (Z.of_nat n + 1 - Z.of_nat at_)) with (n + 1 - at_)%nat by lia.
  replace (Z.of_nat n + 1) with (Z.of_nat (n + 1)) by lia. rewrite E. cbn [mbind option_bind].
  rewrite fill_gap_exact by lia. cbn [mbind option_bind].
  replace (Z.of_nat n + Z.of_nat size) with (Z.of_nat (n + size)) by lia.
  assert (length (written a at_ data) = length a) as Lw by (apply written_length; lia).
  rewrite aset_nat by lia. cbn [mbind option_bind]. eexists. split; [done|]. split; [|done].
  assert (length (take at_ t ++ data ++ drop at_ t) = n + size)%nat as Ln by (rewrite !length_app, length_take, length_drop; lia).
  split; cbn [g_text g_text_len]; rewrite ?length_insert, ?Ln; [lia|lia|lia|].
  apply holds_intro; rewrite ?length_insert, ?Ln; [lia|]. intros i Hi.
  rewrite list_lookup_insert_ne by lia. rewrite lookup_written, Hg by lia. fold size.
  rewrite !lookup_app, length_take, Nat.min_l by lia. destruct (decide (i < at_)%nat).
  - rewrite !decide_False by lia. rewrite lookup_take_lt by lia. rewrite (holds_lookup _ t) by (done || lia).
    by destruct (lookup_lt_is_Some_2 t i ltac:(lia)) as [v ->].
  - rewrite lookup_take_ge by lia. destruct (decide (i < at_ + size)%nat).
    + rewrite decide_True by lia. by destruct (lookup_lt_is_Some_2 data (i - at_) ltac:(lia)) as [v ->].
    + rewrite (decide_False (P := (at_ <= i < at_ + size)%nat)) by lia. rewrite decide_True by lia.
      rewrite (proj2 (lookup_ge_None data (i - at_))) by lia. rewrite lookup_drop, (holds_lookup _ t) by (done || lia). f_equal. lia.
Qed.

(** The text without the characters from [s] up to [r]. *)
Lemma remove_bytes_exact e t s r : contains e t -> (s <= r <= length t)%nat ->
  exists a, close_gap (Z.to_nat (g_text_len e + 1 - Z.of_nat r)) (Z.of_nat r) (Z.of_nat r - Z.of_nat s) (g_text e) = Some a /\
    contains (Editor a (g_text_len e - (Z.of_nat r - Z.of_nat s)) (g_path e) true) (take s t ++ drop r t).
Proof.
  intros [HA HL HR HT] Hr. set (n := length t) in *.
  destruct (close_gap_exact (r - s) (n + 1 - r) r (g_text e)) as (a & E & La & Hg); [lia|lia|].
  replace (Z.to_nat (g_text_len e + 1 - Z.of_nat r)) with (n + 1 - r)%nat by lia.
  replace (Z.of_nat r - Z.of_nat s) with (Z.of_nat (r - s)) by lia. exists a. split; [done|].
  assert (length (take s t ++ drop r t) = n - (r - s))%nat as Ln by (rewrite length_app, length_take, length_drop; lia).
  split; cbn [g_text g_text_len]; rewrite ?Ln; [lia|lia|lia|]. apply holds_intro; rewrite ?Ln; [lia|]. intros i Hi.
  rewrite Hg, lookup_app, length_take, Nat.min_l by lia. destruct (decide (i < s)%nat).
  - rewrite decide_False by lia. rewrite lookup_take_lt by lia. rewrite (holds_lookup _ t) by (done || lia).
    by destruct (lookup_lt_is_Some_2 t i ltac:(lia)) as [v ->].
  - rewrite decide_True by lia. rewrite lookup_take_ge by lia. rewrite lookup_drop, (holds_lookup _ t) by (done || lia). f_equal. lia.
Qed.

(** ** The abstract editor *)

(** Inserting after text that is not a complete line continues it. *)
Definition doc_insert (n : nat) (x : list Z) (d : doc) : doc :=
  let '(ls, last) := d in
  if (n <=? length ls)%nat then (take (n - 1) ls ++ x :: drop (n - 1) ls, last)
  else if decide (n = length ls + 1 /\ last <> [])%nat then (ls ++ [x], last)
  else (ls ++ [last ++ x], []).

Definition doc_delete (n : nat) (d : doc) : doc :=
  let '(ls, last) := d in if (n <=? length ls)%nat then (take (n - 1) ls ++ drop n ls, last) else (ls, []).

(** The limits: of the line number, of a line and of the buffer. *)
Definition insertable (n : nat) (x : list Z) (d : doc) : bool :=
  (1 <=? n)%nat && (n <=? doc_count d + 1)%nat && (Z.of_nat (length x) <? ADATEXT_INPUT_CAP) &&
  (Z.of_nat (length (doc_text d)) + Z.of_nat (length x) + 1 <? ADATEXT_BUFFER_CAP).
Definition has_line (n : nat) (d : doc) : bool := (1 <=? n)%nat && (n <=? doc_count d)%nat.

Variant command := Append (x : list Z) | Insert (n : Z) (x : list Z) | Replace (n : Z) (x : list Z) | Delete (n : Z).

Definition insert_in (n : nat) (x : list Z) (d : doc) : doc := if insertable n x d then doc_insert n x d else d.

(** A replacement that does not fit has already deleted the line. *)
Definition apply (c : command) (d : doc) : doc :=
  match c with
  | Append x => insert_in (doc_count d + 1) x d
  | Insert n x => insert_in (Z.to_nat n) x d
  | Replace n x => if has_line (Z.to_nat n) d then insert_in (Z.to_nat n) x (doc_delete (Z.to_nat n) d) else d
  | Delete n => if has_line (Z.to_nat n) d then doc_delete (Z.to_nat n) d else d
  end.

Lemma split_pos k (ls : list (list Z)) last :
  take (pos ls k) (flat ls ++ last) = flat (take k ls) /\ drop (pos ls k) (flat ls ++ last) = flat (drop k ls) ++ last.
Proof.
  assert (flat ls ++ last = flat (take k ls) ++ flat (drop k ls) ++ last) as -> by (by rewrite app_assoc, <- flat_app, take_drop).
  unfold pos. split; [apply take_app_length|apply drop_app_length].
Qed.

Lemma flat_snoc ls x : flat (ls ++ [x]) = flat ls ++ x ++ [10].
Proof. rewrite flat_app. unfold flat at 2. cbn. by rewrite app_nil_r. Qed.

Lemma insert_ok n x d : no_newline x -> doc_ok d -> doc_ok (doc_insert n x d).
Proof.
  destruct d as [ls last]. intros Hx [HL HN]. cbn in HL, HN. unfold doc_insert. repeat case_match; (split; [|done || constructor]); cbn [fst snd].
  - apply Forall_app. split; [by apply Forall_take|]. constructor; [done|by apply Forall_drop].
  - apply Forall_app. split; [done|]. by constructor.
  - apply Forall_app. split; [done|]. constructor; [|done]. by apply Forall_app.
Qed.

Lemma delete_ok n d : doc_ok d -> doc_ok (doc_delete n d).
Proof.
  destruct d as [ls last]. intros [HL HN]. cbn in HL, HN. unfold doc_delete. case_match; (split; [|done || constructor]); cbn [fst snd]; [|done].
  apply Forall_app. split; [by apply Forall_take|by apply Forall_drop].
Qed.

(** Where [doc_insert] puts the new line. *)
Lemma doc_insert_text n x ls last : (1 <= n)%nat ->
  let at_ := if (n <=? length ls)%nat then pos ls (n - 1) else if decide (n = length ls + 1 /\ last <> [])%nat then length (flat ls) else length (flat ls ++ last) in
  doc_text (doc_insert n x (ls, last)) = take at_ (flat ls ++ last) ++ (x ++ [10]) ++ drop at_ (flat ls ++ last).
Proof.
  intros Hn at_. unfold doc_insert, doc_text, at_. destruct (n <=? length ls)%nat.
  - cbn [fst snd]. destruct (split_pos (n - 1) ls last) as [-> ->]. rewrite flat_app, <- app_assoc, flat_cons. by rewrite <- app_assoc.
  - case_decide; cbn [fst snd]; rewrite flat_snoc.
    + rewrite take_app_length, drop_app_length. by rewrite <- !app_assoc.
    + rewrite take_ge, drop_ge by lia. rewrite app_nil_r. by rewrite <- !app_assoc.
Qed.

(** And what [doc_delete] takes away. *)
Lemma doc_delete_text n ls last : (1 <= n)%nat ->
  let s := if (n <=? length ls)%nat then pos ls (n - 1) else length (flat ls) in
  let r := if (n <=? length ls)%nat then pos ls n else length (flat ls ++ last) in
  doc_text (doc_delete n (ls, last)) = take s (flat ls ++ last) ++ drop r (flat ls ++ last).
Proof.
  intros Hn s r. unfold doc_delete, doc_text, s, r. destruct (n <=? length ls)%nat; cbn [fst snd].
  - destruct (split_pos (n - 1) ls last) as [-> _]. destruct (split_pos n ls last) as [_ ->]. by rewrite flat_app, <- app_assoc.
  - by rewrite take_app_length, drop_ge, !app_nil_r by lia.
Qed.

(** ** The operations *)

(** Messages on the error stream come back. *)
Hypothesis Herr : forall text (w : W), exists w', u_err text w = Some w'.

(** The editor [e'] holds [d'] after an operation on [d]. *)
Record did (e : editor) (d d' : doc) (e' : editor) : Prop := {
  di_text : contains e' (doc_text d');
  di_ok : doc_ok d';
  di_path : g_path e' = g_path e;
  di_dirty : g_dirty e' = true \/ g_dirty e' = g_dirty e /\ d' = d
}.

Lemma complain_did text e d (w : W) : contains e (doc_text d) -> doc_ok d ->
  exists w', complain text (e, w) = Some (-1, (e, w')) /\ did e d d e.
Proof using Herr.
  intros HC HD. unfold complain. cbn [fst snd]. destruct (Herr text w) as [w' ->]. exists w'. split; [done|]. split; [done|done|done|by right].
Qed.

Lemma insert_line_did n x e d (w : W) : contains e (doc_text d) -> doc_ok d -> no_newline x ->
  exists rc e' w', insert_line (Z.of_nat n) x (e, w) = Some (rc, (e', w')) /\ did e d (insert_in n x d) e'.
Proof using Herr.
  intros HC HD Hx. destruct d as [ls last]. unfold insert_line, insert_in, insertable. cbn [fst snd].
  rewrite (line_count_doc e ls last HC HD). set (c := doc_count (ls, last)).
  destruct ((Z.of_nat n =? 0) || (Z.of_nat c + 1 <? Z.of_nat n)) eqn:E1.
  { destruct (complain_did (cstr "adatext: invalid line number" ++ [10]) e _ w HC HD) as (w' & -> & H). eexists _, _, _. split; [done|].
    by replace (_ && _ && _ && _) with false by lia. }
  destruct (Z.leb_spec (ADATEXT_INPUT_CAP + 1) (Z.of_nat (length x) + 1)) as [E2|E2].
  { destruct (complain_did (cstr "adatext: line too long" ++ [10]) e _ w HC HD) as (w' & -> & H). eexists _, _, _. split; [done|].
    by replace (_ && _ && _ && _) with false by lia. }
  set (size := Z.of_nat (length (doc_text (ls, last))) + Z.of_nat (length x) + 1).
  assert (forall at_, (at_ <= length (flat ls ++ last))%nat ->
    doc_text (doc_insert n x (ls, last)) = take at_ (flat ls ++ last) ++ (x ++ [10]) ++ drop at_ (flat ls ++ last) ->
    exists rc e' w', insert_bytes (Z.of_nat at_) (x ++ [10]) (e, w) = Some (rc, (e', w')) /\
      did e (ls, last) (if size <? ADATEXT_BUFFER_CAP then doc_insert n x (ls, last) else (ls, last)) e') as ins.
  { intros at_ Ha Et. destruct (Z.ltb_spec size ADATEXT_BUFFER_CAP) as [Hs|Hs].
    - destruct (insert_bytes_exact e _ at_ (x ++ [10]) w HC Ha) as (e' & E & H1 & H2 & H3); [rewrite length_app; cbn [length]; unfold size in Hs; lia|].
      eexists _, _, _. split; [exact E|]. split; [by rewrite Et|by apply insert_ok|done|by left].
    - unfold insert_bytes. cbn [fst]. rewrite (ct_len _ _ HC), length_app. pose proof (ct_room _ _ HC) as Hr. unfold size in Hs. unfold ADATEXT_BUFFER_CAP, ADATEXT_INPUT_CAP in *. cbn [length].
      rewrite u32_small by lia. replace (_ || _) with true by lia.
      destruct (complain_did (cstr "adatext: buffer full" ++ [10]) e _ w HC HD) as (w' & -> & H). by eexists _, _, _. }
  replace ((1 <=? n)%nat && (n <=? c + 1)%nat && (Z.of_nat (length x) <? ADATEXT_INPUT_CAP)) with true by lia. cbn [andb]. fold size.
  pose proof (doc_insert_text n x ls last ltac:(lia)) as Et. cbv zeta in Et. unfold c, doc_count in *. cbn [fst snd] in *.
  destruct (Nat.leb_spec n (length ls)) as [Hn|Hn].
  - rewrite (proj2 (Z.leb_le _ _)) by lia. rewrite (line_bounds_doc e ls last HC HD n). destruct n as [|k]; [lia|].
    replace (S k - 1)%nat with k in Et by lia. destruct (lookup_lt_is_Some_2 ls k ltac:(lia)) as [l0 ->]. apply ins; [|done].
    pose proof (pos_le ls k). rewrite length_app. lia.
  - destruct (decide (n = length ls + 1 /\ last <> [])%nat) as [Hc|Hc]; [|destruct (decide (last = [])) as [Hl|Hl]].
    + rewrite (decide_False (P := last = [])) in E1 |- * by naive_solver. rewrite (proj2 (Z.leb_le _ _)) by lia.
      rewrite (line_bounds_doc e ls last HC HD n). destruct n as [|k]; [lia|]. rewrite (proj2 (lookup_ge_None ls k)) by lia.
      rewrite decide_True by (split; [lia|naive_solver]). apply ins; [rewrite length_app; lia|done].
    + rewrite (proj2 (Z.leb_gt _ _)) by lia. rewrite (ct_len _ _ HC). apply ins; [done|done].
    + assert (n <> length ls + 1)%nat by naive_solver. rewrite (proj2 (Z.leb_gt _ _)) by lia. rewrite (ct_len _ _ HC). apply ins; [done|done].
Qed.

Lemma delete_line_did n e d (w : W) : contains e (doc_text d) -> doc_ok d ->
  exists e' w', delete_line (Z.of_nat n) (e, w) = Some (if has_line n d then 0 else -1, (e', w')) /\
    did e d (if has_line n d then doc_delete n d else d) e' /\ (has_line n d = true -> g_dirty e' = true).
Proof using Herr.
  intros HC HD. destruct d as [ls last]. unfold delete_line, has_line, doc_count. cbn [fst snd]. rewrite (line_bounds_doc e ls last HC HD n).
  assert (forall o, o = false -> exists e' w', complain (cstr "adatext: line does not exist" ++ [10]) (e, w) = Some (if o : bool then 0 else -1, (e', w')) /\
    did e (ls, last) (if o then doc_delete n (ls, last) else (ls, last)) e' /\ (o = true -> g_dirty e' = true)) as fail.
  { intros o ->. destruct (complain_did (cstr "adatext: line does not exist" ++ [10]) e _ w HC HD) as (w' & -> & H). by eexists _, _. }
  destruct n as [|k]; [by apply fail|]. pose proof (doc_delete_text (S k) ls last ltac:(lia)) as Et. cbv zeta in Et.
  assert (forall s r, (s <= r <= length (flat ls ++ last))%nat -> doc_text (doc_delete (S k) (ls, last)) = take s (flat ls ++ last) ++ drop r (flat ls ++ last) ->
    exists e' w', (a ← close_gap (Z.to_nat (g_text_len e + 1 - Z.of_nat r)) (Z.of_nat r) (Z.of_nat r - Z.of_nat s) (g_text e);
      Some (0, (Editor a (g_text_len e - (Z.of_nat r - Z.of_nat s)) (g_path e) true, w))) = Some (0, (e', w')) /\
      did e (ls, last) (doc_delete (S k) (ls, last)) e' /\ g_dirty e' = true) as del.
  { intros s0 r Hr Ed. destruct (remove_bytes_exact e _ s0 r HC Hr) as (a & -> & H). cbn [mbind option_bind]. eexists _, _. split; [done|].
    split; [|done]. split; [by rewrite Ed|by apply delete_ok|done|by left]. }
  destruct (Nat.leb_spec (S k) (length ls)) as [Hk|Hk].
  - destruct (lookup_lt_is_Some_2 ls k ltac:(lia)) as [l0 Hl0]. rewrite Hl0. replace (_ && _) with true by (case_decide; lia).
    assert (pos ls (S k) = pos ls k + length l0 + 1)%nat as Hp.
    { unfold pos. rewrite (take_S_r _ _ l0) by done. rewrite flat_snoc, !length_app. cbn. lia. }
    replace (S k - 1)%nat with k in Et by lia. rewrite Hp in Et. pose proof (pos_le ls (S k)) as Hple.
    destruct (del (pos ls k) (pos ls k + length l0 + 1)%nat) as (e' & w' & E & H); [rewrite length_app; lia|done|]. eexists _, _. split; [exact E|naive_solver].
  - rewrite (proj2 (lookup_ge_None ls k)) by lia. case_decide as Hc.
    + rewrite (decide_False (P := last = [])) by naive_solver. replace (_ && _) with true by lia.
      destruct (del (length (flat ls)) (length (flat ls ++ last))) as (e' & w' & E & H); [rewrite length_app; lia|done|]. eexists _, _. split; [exact E|naive_solver].
    + apply fail. case_decide; [lia|]. destruct (decide (k = length ls)); [naive_solver|lia].
Qed.

Lemma did_trans e1 e2 e3 d1 d2 d3 : did e1 d1 d2 e2 -> g_dirty e2 = true -> did e2 d2 d3 e3 -> did e1 d1 d3 e3.
Proof. intros H1 Hd [T O P D]. split; [done|done|by rewrite P, (di_path _ _ _ _ H1)|]. left. destruct D as [|[-> _]]; done. Qed.

Lemma replace_line_did n x e d (w : W) : contains e (doc_text d) -> doc_ok d -> no_newline x ->
  exists rc e' w', replace_line (Z.of_nat n) x (e, w) = Some (rc, (e', w')) /\
    did e d (if has_line n d then insert_in n x (doc_delete n d) else d) e'.
Proof using Herr.
  intros HC HD Hx. unfold replace_line. destruct (delete_line_did n e d w HC HD) as (e1 & w1 & -> & H1 & Hdirty). cbn [mbind option_bind].
  destruct (has_line n d); cbn [negb Z.eqb]; [|by eexists _, _, _].
  destruct (insert_line_did n x e1 (doc_delete n d) w1 (di_text _ _ _ _ H1) (di_ok _ _ _ _ H1) Hx) as (rc & e2 & w2 & E & H2).
  eexists _, _, _. split; [exact E|]. by eapply did_trans; [exact H1|apply Hdirty|].
Qed.

(** ** Command lines *)

Definition decimal (n : Z) : list Z := if n =? 0 then [48] else dec_digits 10 n [].

Definition typed (c : command) : list Z :=
  match c with
  | Append x => cstr "a " ++ x
  | Insert n x => cstr "i " ++ decimal n ++ 32 :: x
  | Replace n x => cstr "r " ++ decimal n ++ 32 :: x
  | Delete n => cstr "d " ++ decimal n
  end.

(** The text is a line that does not begin with a blank, the number is unsigned. *)
Definition text_ok (x : list Z) : Prop := no_newline x /\ skip_spaces x = x.
Definition command_ok (c : command) : Prop :=
  match c with
  | Append x => text_ok x
  | Insert n x | Replace n x => text_ok x /\ 0 <= n < 2 ^ 32
  | Delete n => 0 <= n < 2 ^ 32
  end.

Definition digit (c : Z) : Prop := 48 <= c <= 57.
Definition push_digit (value c : Z) : Z := u32 (u32 (value * 10) + (c - 48)).

Lemma digits_loop_digits ds r : Forall digit ds -> match r with c :: _ => (48 <=? c) && (c <=? 57) = false | [] => True end ->
  forall v b, digits_loop (ds ++ r) v b = (r, fold_left push_digit ds v, b || negb (ended ds)).
Proof.
  intros H Hr. induction H as [|c ds Hc _ IH]; intros v b.
  - destruct r as [|c r]; cbn; rewrite ?Hr; by rewrite orb_false_r.
  - cbn [app digits_loop]. unfold digit in Hc. replace (_ && _) with true by lia. rewrite IH. cbn. by rewrite orb_true_r.
Qed.

Lemma dec_digits_value fuel : forall n acc, 0 <= n < 10 ^ Z.of_nat fuel -> n < 2 ^ 32 ->
  fold_left push_digit (dec_digits fuel n acc) 0 = fold_left push_digit acc n.
Proof.
  induction fuel as [|fuel IH]; intros n acc Hn Hb; cbn [dec_digits].
  - assert (n = 0) as -> by (cbn in Hn; lia). done.
  - destruct (Z.eqb_spec n 0) as [->|Hne]; [done|]. rewrite Nat2Z.inj_succ, Z.pow_succ_r in Hn by lia.
    pose proof (Z.div_mod n 10 ltac:(lia)). pose proof (Z.mod_pos_bound n 10 ltac:(lia)).
    rewrite IH by lia. cbn [fold_left]. f_equal. unfold push_digit. rewrite (u32_small (n / 10 * 10)) by lia. rewrite u32_small by lia. lia.
Qed.

Lemma dec_digits_digits fuel : forall n acc, 0 <= n -> Forall digit acc -> Forall digit (dec_digits fuel n acc).
Proof.
  induction fuel as [|fuel IH]; intros n acc Hn Ha; cbn [dec_digits]; [done|]. case_match; [done|].
  apply IH; [by apply Z.div_pos|]. constructor; [|done]. pose proof (Z.mod_pos_bound n 10 ltac:(lia)). unfold digit. lia.
Qed.

Lemma dec_digits_ended fuel : forall n acc, ended (dec_digits fuel n acc) = true -> acc = [].
Proof.
  induction fuel as [|fuel IH]; intros n acc; cbn [dec_digits]; [by destruct acc|]. case_match; [by destruct acc|]. intros E. by apply IH in E.
Qed.

Lemma decimal_spec n : 0 <= n < 2 ^ 32 -> Forall digit (decimal n) /\ fold_left push_digit (decimal n) 0 = n /\ ended (decimal n) = false.
Proof.
  intros Hn. unfold decimal. destruct (Z.eqb_spec n 0) as [->|Hne]; [by split_and!; [by repeat constructor|..]|]. split_and!.
  - apply dec_digits_digits; [lia|constructor].
  - rewrite dec_digits_value; [done|lia|lia].
  - change (dec_digits 10 n []) with (if n =? 0 then [] else dec_digits 9 (n / 10) [48 + n mod 10]). rewrite (proj2 (Z.eqb_neq n 0)) by done. destruct (ended (dec_digits 9 _ _)) eqn:E; [|done]. by apply dec_digits_ended in E.
Qed.

Lemma parse_decimal n r : 0 <= n < 2 ^ 32 -> match r with c :: _ => (48 <=? c) && (c <=? 57) = false | [] => True end ->
  parse_number (32 :: decimal n ++ r) = Some (r, n).
Proof.
  intros Hn Hr. destruct (decimal_spec n Hn) as (H1 & H2 & H3). unfold parse_number.
  change (skip_spaces (32 :: decimal n ++ r)) with (skip_spaces (decimal n ++ r)).
  assert (skip_spaces (decimal n ++ r) = decimal n ++ r) as ->.
  { destruct H1 as [|c ds Hc _]; [done|]. cbn. unfold digit in Hc. by replace (_ || _) with false by lia. }
  rewrite digits_loop_digits, H2, H3 by done. done.
Qed.

(** A typed command does what the abstract editor does. *)
Lemma command_did fuel c e d (w : W) : contains e (doc_text d) -> doc_ok d -> command_ok c ->
  exists e' w', handle_command fuel (typed c) (e, w) = Some (false, (e', w')) /\ did e d (apply c d) e'.
Proof using Herr.
  intros HC HD Hc.
  assert (forall d' (f : editor * W -> option (Z * (editor * W))), (exists rc e' w', f (e, w) = Some (rc, (e', w')) /\ did e d d' e') ->
    exists e' w', edit f (e, w) = Some (false, (e', w')) /\ did e d d' e') as run.
  { intros d' f (rc & e' & w' & E & H). exists e', w'. split; [|done]. unfold edit. by rewrite E. }
  destruct c as [x|n x|n x|n].
  - destruct Hc as [Hx Hs]. change (exists e' w', edit (append_line (skip_spaces x)) (e, w) = Some (false, (e', w')) /\ did e d (apply (Append x) d) e').
    apply run. rewrite Hs. unfold append_line. cbn [fst]. destruct d as [ls last]. rewrite (line_count_doc e ls last HC HD).
    replace (Z.of_nat _ + 1) with (Z.of_nat (doc_count (ls, last) + 1)) by lia. by apply insert_line_did.
  - destruct Hc as [[Hx Hs] Hn]. change (handle_command fuel (typed (Insert n x)) (e, w)) with
      (match parse_number (32 :: decimal n ++ 32 :: x) with
       | None => report (cstr "adatext: usage: i line text") (e, w)
       | Some (p, number) => edit (insert_line number (skip_spaces p)) (e, w)
       end). rewrite parse_decimal by done. change (skip_spaces (32 :: x)) with (skip_spaces x). rewrite Hs. apply run.
    pose proof (insert_line_did (Z.to_nat n) x e d w HC HD Hx) as H. by rewrite Z2Nat.id in H by lia.
  - destruct Hc as [[Hx Hs] Hn]. change (handle_command fuel (typed (Replace n x)) (e, w)) with
      (match parse_number (32 :: decimal n ++ 32 :: x) with
       | None => report (cstr "adatext: usage: r line text") (e, w)
       | Some (p, number) => edit (replace_line number (skip_spaces p)) (e, w)
       end). rewrite parse_decimal by done. change (skip_spaces (32 :: x)) with (skip_spaces x). rewrite Hs. apply run.
    pose proof (replace_line_did (Z.to_nat n) x e d w HC HD Hx) as H. by rewrite Z2Nat.id in H by lia.
  - change (handle_command fuel (typed (Delete n)) (e, w)) with
      (match parse_number (32 :: decimal n) with
       | Some (p, number) => if ended (skip_spaces p) then edit (delete_line number) (e, w) else report (cstr "adatext: usage: d line") (e, w)
       | None => report (cstr "adatext: usage: d line") (e, w)
       end).
    rewrite <- (app_nil_r (decimal n)), parse_decimal by done. cbn [skip_spaces ended]. apply run. cbn [apply].
    destruct (delete_line_did (Z.to_nat n) e d w HC HD) as (e' & w' & E & H & _).
    rewrite Z2Nat.id in E by (cbn in Hc; lia). by eexists _, _, _.
Qed.

(** ** Sessions *)

(** The lines as they are numbered. *)
Definition doc_lines (d : doc) : list (list Z) := d.1 ++ (if decide (d.2 = []) then [] else [d.2]).

(** The characters that [p n] shows. *)
Definition shown (e : editor) (n : nat) : option (list Z) :=
  '(start, end_, _) ← line_bounds (Z.of_nat n) e; Some (text_byte e <$> seqZ start (end_ - start)).

Lemma bytes_slice e t s n : contains e t -> (s + n <= length t)%nat ->
  text_byte e <$> seqZ (Z.of_nat s) (Z.of_nat n) = take n (drop s t).
Proof.
  intros HC Hn. apply list_eq. intros i. rewrite list_lookup_fmap. destruct (decide (i < n)%nat) as [Hi|Hi].
  - rewrite lookup_seqZ_lt by lia. cbn. rewrite lookup_take_lt, lookup_drop by done. unfold text_byte.
    replace (Z.to_nat (Z.of_nat s + Z.of_nat i)) with (s + i)%nat by lia. rewrite (holds_lookup _ t) by (lia || apply HC).
    by destruct (lookup_lt_is_Some_2 t (s + i) ltac:(lia)) as [v ->].
  - rewrite lookup_seqZ_ge, lookup_take_ge by lia. done.
Qed.

Lemma shown_line e d n : contains e (doc_text d) -> doc_ok d -> (1 <= n)%nat -> shown e n = doc_lines d !! (n - 1)%nat.
Proof.
  destruct d as [ls last]. intros HC HD Hn. unfold shown, doc_lines. rewrite (line_bounds_doc e ls last HC HD n). destruct n as [|k]; [lia|].
  cbn [fst snd]. replace (S k - 1)%nat with k by lia. destruct (ls !! k) as [l|] eqn:Hk; cbn [mbind option_bind].
  - rewrite lookup_app, Hk. pose proof (drop_pos ls last k l Hk) as Hd. pose proof (f_equal length Hd) as Hl.
    rewrite length_drop, (length_app l) in Hl. cbn [length] in Hl.
    replace (Z.of_nat (pos ls k + length l) - Z.of_nat (pos ls k)) with (Z.of_nat (length l)) by lia.
    rewrite (bytes_slice e _ _ _ HC) by (unfold doc_text; cbn [fst snd]; lia). unfold doc_text. cbn [fst snd]. by rewrite Hd, take_app_length.
  - pose proof Hk as Hk'. apply lookup_ge_None in Hk'. rewrite lookup_app, Hk. case_decide as Hc.
    + destruct Hc as [-> Hl]. rewrite decide_False, Nat.sub_diag by done. cbn [lookup list_lookup mbind option_bind].
      assert (length (flat ls ++ last) = length (flat ls) + length last)%nat as Hx by apply length_app.
      replace (Z.of_nat (length (flat ls ++ last)) - Z.of_nat (length (flat ls))) with (Z.of_nat (length last)) by lia.
      rewrite (bytes_slice e _ _ _ HC) by (unfold doc_text; cbn [fst snd]; lia). unfold doc_text. cbn [fst snd].
      by rewrite drop_app_length, take_ge by lia.
    + cbn. case_decide; [done|]. destruct (k - length ls)%nat eqn:Ek; [|done]. exfalso. apply Hc. split; [lia|done].
Qed.

(** Commands that are typed one after the other, up to the one that leaves the editor. *)
Fixpoint session (fuel : nat) (lines : list (list Z)) (x : editor * W) : option (editor * W) :=
  match lines with
  | [] => Some x
  | l :: rest => '(quit, x) ← handle_command fuel l x; if quit : bool then Some x else session fuel rest x
  end.

Lemma session_did fuel cs : forall e d (w : W), contains e (doc_text d) -> doc_ok d -> Forall command_ok cs ->
  exists e' w', session fuel (typed <$> cs) (e, w) = Some (e', w') /\ did e d (fold_left (fun d c => apply c d) cs d) e'.
Proof using Herr.
  induction cs as [|c cs IH]; intros e d w HC HD Hc.
  { exists e, w. split; [done|]. split; [done|done|done|by right]. }
  inversion Hc; subst. cbn [fmap list_fmap session fold_left].
  destruct (command_did fuel c e d w HC HD ltac:(done)) as (e1 & w1 & -> & HA). cbn [mbind option_bind].
  destruct (IH e1 (apply c d) w1 (di_text _ _ _ _ HA) (di_ok _ _ _ _ HA) ltac:(done)) as (e2 & w2 & E & HB).
  exists e2, w2. split; [exact E|]. destruct HB as [T O P D]. split; [done|done|by rewrite P, (di_path _ _ _ _ HA)|].
  destruct D as [D|[D1 D2]]; [by left|]. rewrite D1, D2. destruct (di_dirty _ _ _ _ HA) as [X|[X Y]]; [by left|right; by rewrite Y].
Qed.

(** ** Saving what could not be loaded *)

Lemma emptied_contains e t : contains e t -> exists e', emptied e = Some e' /\ contains e' [] /\ g_path e' = g_path e /\ g_dirty e' = g_dirty e.
Proof.
  intros [HA _ _ _]. unfold emptied. pose proof (aset_nat (g_text e) 0 0 ltac:(unfold ADATEXT_BUFFER_CAP in HA; lia)) as E.
  change (Z.of_nat 0) with 0 in E. rewrite E. cbn [mbind option_bind].
  eexists. split; [done|]. split; [|done]. split; cbn [g_text g_text_len length]; [by rewrite length_insert|done|done|]. split; [cbn; lia|done].
Qed.

Lemma take_path_again e (w : W) : Z.of_nat (length (g_path e)) < ADATEXT_PATH_CAP -> g_dirty e = false ->
  take_path (g_path e) (e, w) = Some (0, (e, w)).
Proof.
  intros H Hd. unfold take_path, copy_path. cbn [fst snd]. rewrite (proj2 (Nat.leb_le _ _)) by (unfold ADATEXT_PATH_CAP in *; lia).
  cbn. by destruct e; cbn in Hd |- *; subst.
Qed.

End World.

Section Claims.
Context {W : Type} `{!shell_os W} `{!shell_errno W}.

(** C9: AdaText implements an editor of lines. For every text, seen as complete lines and what follows the last
    line end, and every sequence of typed commands to append, insert, replace and delete lines: the editor
    handles them all, never leaves its buffer, and afterwards its text is the one the abstract editor has,
    where a command that names no line, or whose line does not fit, changes nothing, apart from a
    replacement, which has then deleted the line, and a line appended to an incomplete last line continues
    it. What the editor then shows for a line number is that line, and the text is marked as modified if it
    changed. *)
Theorem adatext_edits_lines fuel cs e d (w : W) :
  (forall text (w : W), exists w', u_err text w = Some w') ->
  contains e (doc_text d) -> doc_ok d -> Forall command_ok cs ->
  let d' := fold_left (fun d c => apply c d) cs d in
  exists e' w', session fuel (typed <$> cs) (e, w) = Some (e', w') /\ contains e' (doc_text d') /\
    line_count e' = Z.of_nat (length (doc_lines d')) /\ (forall n, (1 <= n)%nat -> shown e' n = doc_lines d' !! (n - 1)%nat) /\
    g_path e' = g_path e /\ (g_dirty e' = true \/ g_dirty e' = g_dirty e /\ d' = d).
Proof.
  intros He HC HD Hcs d'. destruct (session_did He fuel cs e d w HC HD Hcs) as (e' & w' & E & [T O P D]). fold d' in T, O, D.
  exists e', w'. split_and!; [done|done| |intros n Hn; by apply shown_line|done|done].
  destruct d' as [ls last]. rewrite (line_count_doc e' ls last T O). unfold doc_count, doc_lines. cbn [fst snd].
  rewrite length_app. by case_decide.
Qed.

(** C40: A file that cannot be opened takes the text with it, and saving then destroys the file before it. When
    [e PATH] fails in the file system with a reason other than a missing file, the editor is left with an
    empty text that counts as saved, under the name of the file it had before; and the command [w] then opens
    that file, which truncates it, writes nothing to it and reports success. *)
Theorem failed_open_loses_text fuel path e t (w w1 : W) fd :
  (forall text (w : W), exists w', u_err text w = Some w') ->
  contains e t -> g_dirty e = false -> path <> [] -> skip_spaces path = path ->
  g_path e <> [] -> Z.of_nat (length (g_path e)) < ADATEXT_PATH_CAP ->
  os_open path O_RDONLY w = Some (fd, w1) -> fd < 0 -> os_errno w1 <> ENOENT ->
  exists e1 w2, handle_command fuel (cstr "e " ++ path) (e, w) = Some (false, (e1, w2)) /\
    contains e1 [] /\ g_dirty e1 = false /\ g_path e1 = g_path e /\
    forall w3 fd' w4 w5 rc, os_open (g_path e) (Z.lor (Z.lor O_CREAT O_TRUNC) O_WRONLY) w3 = Some (fd', w4) -> 0 <= fd' ->
      os_close fd' w4 = Some (rc, w5) -> 0 <= rc ->
      handle_command fuel (cstr "w") (e1, w3) =
        (w ← u_puts (cstr "Saved ") w5; w ← u_puts (g_path e) w; w ← u_puts [10] w; Some (false, (e1, w))).
Proof.
  intros He HC Hd Hp Hs Hg Hgl Eo Hfd Hno. destruct (emptied_contains e t HC) as (e1 & E1 & HC1 & Hp1 & Hd1).
  destruct (He (cstr "adatext: cannot open file" ++ [10]) w1) as [w2 E2]. exists e1, w2. split_and!; [|done|congruence|done|].
  - change (handle_command fuel (cstr "e " ++ path) (e, w)) with
      (if ended (skip_spaces path) then report (cstr "adatext: usage: e path") (e, w)
       else if g_dirty e then report (cstr "adatext: unsaved changes; save first or use q!") (e, w)
       else edit (load_file (skip_spaces path)) (e, w)).
    rewrite Hs, Hd. destruct path as [|c path]; [done|]. cbn [ended]. unfold edit, load_file. cbn [fst snd]. rewrite E1. cbn [mbind option_bind].
    rewrite Eo. cbn [mbind option_bind]. rewrite (proj2 (Z.ltb_lt fd 0)), (proj2 (Z.eqb_neq _ _)) by done. unfold complain. cbn [fst snd]. by rewrite E2.
  - intros w3 fd' w4 w5 rc E3 H3 E4 H4.
    change (handle_command fuel (cstr "w") (e1, w3)) with ('(rc, x) ← save_file fuel (g_path e1) (e1, w3); Some ((rc =? 0) && false, x)).
    unfold save_file. rewrite Hp1. destruct (g_path e) as [|g gs] eqn:Eg; [done|]. cbn [length Nat.eqb]. rewrite E3. cbn [mbind option_bind].
    rewrite (proj2 (Z.ltb_ge fd' 0)) by done.
    assert (save_loop fuel fd' 0 e1 w4 = Some (true, w4)) as -> by (destruct fuel; cbn; by rewrite (ct_len _ _ HC1)).
    cbn [mbind option_bind negb]. rewrite E4. cbn [mbind option_bind]. rewrite (proj2 (Z.ltb_ge rc 0)) by done.
    rewrite <- Hp1, take_path_again by (rewrite ?Hp1, ?Eg; congruence || done). cbn [mbind option_bind negb Z.eqb fst snd].
    destruct (u_puts (cstr "Saved ") w5) as [x|]; [|done]. cbn [mbind option_bind]. destruct (u_puts (g_path e1) x) as [y|]; [|done].
    cbn [mbind option_bind]. by destruct (u_puts [10] y).
Qed.

End Claims.

(** ** A session *)

(** A system that keeps what was written and the last error, and on which the directory [/d] cannot be opened. *)
Notation tape := (list (list Z) * Z)%type.

#[local] Instance tape_os : shell_os tape := {|
  os_open path _ w := if bool_decide (path = cstr "/d") then Some (-1, (w.1, 21)) else Some (3, w);
  os_close _ w := Some (0, w);
  os_dup _ w := Some (-1, w);
  os_dup2 _ _ w := Some (-1, w);
  os_read _ _ w := Some (0, [], w);
  os_write _ bytes w := Some (Z.of_nat (length bytes), (w.1 ++ [bytes], w.2));
  os_seek_end _ w := Some (0, w);
  os_chdir _ w := Some (-1, w);
  os_getcwd _ w := Some (None, w);
  os_getdents _ _ w := Some (-1, [], w);
  os_execve _ _ w := Some (-1, w);
  os_getkey w := Some (-1, w);
  os_line_begin w := Some (-1, w);
  os_line_redraw _ _ _ w := Some (-1, w)
|}.
#[local] Instance tape_errno : shell_errno tape := snd.

Lemma tape_err text (w : tape) : exists w', u_err text w = Some w'.
Proof. by eexists. Qed.

(** The text "one", a line end, and "two" without one. *)
Definition demo_doc : doc := ([cstr "one"], cstr "two").
Definition demo_editor : editor := Editor (doc_text demo_doc ++ replicate 3065 0) 7 (cstr "/f") false.

Lemma demo_contains : contains demo_editor (doc_text demo_doc).
Proof. split; [vm_compute; reflexivity|done|done|]. split; [cbn; lia|done]. Qed.

Lemma demo_ok : doc_ok demo_doc.
Proof. split; repeat (constructor; try done). Qed.

Definition demo_commands : list command := [Insert 2 (cstr "x"); Append (cstr "y"); Delete 1; Replace 9 (cstr "z")].

(** [i 2 x], [a y], [d 1] and [r 9 z]: line 2 is then "twoy". *)
Lemma adatext_edits_lines_witness :
  exists e' w', session 0 (typed <$> demo_commands) (demo_editor, ([], 0)) = Some (e', w') /\
    line_count e' = 2 /\ shown e' 1 = Some (cstr "x") /\ shown e' 2 = Some (cstr "twoy").
Proof.
  destruct (adatext_edits_lines 0 demo_commands demo_editor demo_doc ([], 0)) as (e' & w' & E & _ & H1 & H2 & _).
  - apply tape_err.
  - apply demo_contains.
  - apply demo_ok.
  - repeat (constructor; [repeat (split; try (done || lia)); repeat (constructor; try done)|]). constructor.
  - exists e', w'. split; [exact E|]. split; [exact H1|]. split; [exact (H2 1%nat ltac:(lia))|exact (H2 2%nat ltac:(lia))].
Defined.

Lemma failed_open_loses_text_witness :
  exists e1 w2, handle_command 0 (cstr "e /d") (demo_editor, ([], 0)) = Some (false, (e1, w2)) /\ g_text_len e1 = 0 /\ g_path e1 = cstr "/f" /\
    exists w, handle_command 0 (cstr "w") (e1, w2) = Some (false, (e1, w)).
Proof.
  destruct (failed_open_loses_text 0 (cstr "/d") demo_editor (doc_text demo_doc) ([], 0) ([], 21) (-1)) as (e1 & w2 & E & H1 & _ & H2 & H3).
  - apply tape_err.
  - apply demo_contains.
  - reflexivity.
  - discriminate.
  - reflexivity.
  - discriminate.
  - reflexivity.
  - reflexivity.
  - reflexivity.
  - discriminate.
  - exists e1, w2. split; [exact E|]. split; [exact (ct_len _ _ H1)|]. split; [exact H2|].
    rewrite (H3 w2 3 w2 w2 0 eq_refl ltac:(done) eq_refl ltac:(done)). by eexists.
Defined.

End AdaTextProps.
