(* ===== verification/Programs.v ===== *)
(** * The user programs

    The small programs of [userland/smu]: [fs/], [core/] and [system/], one [main] each,
    and [lib/user/errno.c].  A program gets its arguments as strings, the program name
    first; pointers into strings are their remaining characters.  The system is the
    interface of the shell, with the calls only these programs use. *)

From S2P Require Import Prelude FsTypes FsPath LineEdit Vfs MshParse MshRun AdaText.
From stdpp Require Import base list option list_numbers strings.
From Stdlib Require Import ZArith Lia ZifyBool.
Import FsTypes FsPath LineEdit Vfs MshParse MshRun AdaText.
Open Scope Z_scope.

Module Programs.


Class program_os (W : Type) := ProgramOs {
  os_stat : list Z -> W -> option ((Z + fs_stat) * W);
  os_unlink : list Z -> W -> option (Z * W);
  os_rmdir : list Z -> W -> option (Z * W);
  os_mkdir : list Z -> W -> option (Z * W);
  os_symlink : list Z -> list Z -> W -> option (Z * W);
  os_readlink : list Z -> Z -> W -> option (Z * list Z * W);
  os_sleep : Z -> W -> option W;
  os_sync : W -> option W;
  os_reboot : Z -> W -> option (Z * W);
  os_clear : W -> option (Z * W)
}.

Definition S_IFMT : Z := 0xF000.
Definition S_IFCHR : Z := 0x2000.
Definition S_IFDIR : Z := 0x4000.
Definition S_IFREG : Z := 0x8000.
Definition S_IFLNK : Z := 0xA000.
Definition is_directory (mode : Z) : bool := Z.land mode S_IFDIR =? S_IFDIR.

Definition DT_DIR : Z := 1.
Definition DT_REG : Z := 2.
Definition DT_LNK : Z := 3.

Definition DASH : Z := 45.

(** The string in an array. *)
Fixpoint c_text (a : list Z) : list Z :=
  match a with c :: a => if c =? 0 then [] else c :: c_text a | [] => [] end.

Definition line_end (c : Z) : bool := (c =? NEWLINE) || (c =? RETURN).

(** A line and what follows it, from its end on. *)
Fixpoint take_line (p : list Z) : list Z * list Z :=
  match p with
  | [] => ([], [])
  | c :: r => if line_end c then ([], p) else let '(s, rest) := take_line r in (c :: s, rest)
  end.
Fixpoint skip_ends (p : list Z) : list Z := match p with c :: r => if line_end c then skip_ends r else p | [] => [] end.

Section Programs.
Context {W : Type} `{!shell_os W} `{!shell_errno W} `{!program_os W}.

(** Several strings, one call each. *)
Fixpoint say (f : list Z -> W -> option W) (texts : list (list Z)) (w : W) : option W :=
  match texts with [] => Some w | t :: ts => w ← f t w; say f ts w end.
Definition puts_all : list (list Z) -> W -> option W := say u_puts.
Definition errs : list (list Z) -> W -> option W := say u_err.
Definition NL : list Z := [10].

Definition fails_with (code : Z) (texts : list (list Z)) (w : W) : option (Z * W) := w ← errs texts w; Some (code, w).

(** The decimal digits, one call each. *)
Definition num (n : Z) : W -> option W := put_u32 n.

(** ** [rm.c] *)

Definition RM_DEPTH : nat := 16.
Definition RM_PATH : nat := 128.
Definition RM_ENTRIES : Z := 32.

(** The loop over the entries: whether something failed. *)
Fixpoint rm_entries (rm : list Z -> W -> option (Z * W)) (path : list Z) (entries : list fs_dirent) (failed : bool) (w : W)
    : option (bool * W) :=
  match entries with
  | [] => Some (failed, w)
  | (name, _) :: rest =>
      if u_streq name dot || u_streq name dotdot then rm_entries rm path rest failed w
      else match u_join3 RM_PATH path [slash] name with
           | None => w ← u_err (cstr "rm: path too long" ++ NL) w; rm_entries rm path rest true w
           | Some child => '(rc, w) ← rm child w; rm_entries rm path rest (failed || negb (rc =? 0)) w
           end
  end.

(** [n] is [RM_DEPTH - depth]. *)
Fixpoint rm_recursive (n : nat) (path : list Z) (recursive force : bool) (w : W) : option (Z * W) :=
  '(r, w) ← os_stat path w;
  match r with
  | inl _ => if force && (os_errno w =? ENOENT) then Some (0, w) else fails_with 1 [cstr "rm: cannot access "; path; NL] w
  | inr st =>
      if is_directory (st_mode st) then
        if negb recursive then fails_with 1 [cstr "rm: is a directory: "; path; NL] w
        else match n with
        | O => fails_with 1 [cstr "rm: maximum directory depth exceeded" ++ NL] w
        | S n =>
            '(rc, entries, w) ← os_getdents path RM_ENTRIES w;
            if rc <? 0 then fails_with 1 [cstr "rm: cannot list "; path; NL] w
            else
              '(failed, w) ← rm_entries (fun child => rm_recursive n child true force) path (take (Z.to_nat rc) entries) false w;
              if failed : bool then Some (1, w)
              else
                '(rc, w) ← os_rmdir path w;
                if rc <? 0 then fails_with 1 [cstr "rm: cannot remove directory "; path; NL] w else Some (0, w)
        end
      else
        '(rc, w) ← os_unlink path w;
        if rc <? 0 then
          if force && (os_errno w =? ENOENT) then Some (0, w) else fails_with 1 [cstr "rm: cannot remove "; path; NL] w
        else Some (0, w)
  end.

(** [while (p[0] == '.' && p[1] == '/') p += 2;] *)
Fixpoint skip_dot_slash (p : list Z) : list Z :=
  match p with a :: ((b :: r) as q) => if (a =? DOT) && (b =? slash) then skip_dot_slash r else p | _ => p end.

(** The loop over the parts between slashes. *)
Fixpoint special_segment (fuel : nat) (p : list Z) : bool :=
  match fuel with
  | O => false
  | S fuel =>
      match skip_slashes p with
      | [] => false
      | q => let '(segment, rest) := span q in bool_decide (segment = dot \/ segment = dotdot) || special_segment fuel rest
      end
  end.

Definition unsafe_target (path : list Z) : bool :=
  let p := skip_dot_slash path in
  match p with
  | [] => true
  | _ => u_streq p [slash] || u_streq p dot || u_streq p dotdot || special_segment (S (length p)) p ||
         match skip_slashes p with [] => true | _ => false end
  end.

(** [while (n > 1u && path[n - 1u] == '/') path[--n] = '\0';] *)
Fixpoint strip_slashes (n : nat) (path : list Z) : list Z :=
  match n with
  | S ((S _) as n') => if char_at path n' =? slash then strip_slashes n' (take n' path) else path
  | _ => path
  end.

(** The letters of one option. *)
Fixpoint rm_letters (letters : list Z) (recursive force : bool) : option (bool * bool) :=
  match letters with
  | [] => Some (recursive, force)
  | c :: r =>
      if (c =? 114) || (c =? 82) then rm_letters r true force
      else if c =? 102 then rm_letters r recursive true else None
  end.

Definition is_option (a : list Z) : bool := (char_at a 0 =? DASH) && negb (char_at a 1 =? 0).

Fixpoint rm_options (args : list (list Z)) (recursive force : bool) : option (list (list Z) * bool * bool) :=
  match args with
  | [] => Some ([], recursive, force)
  | a :: rest =>
      if u_streq a (cstr "--") then Some (rest, recursive, force)
      else if negb (is_option a) then Some (args, recursive, force)
      else '(recursive, force) ← rm_letters (drop 1 a) recursive force; rm_options rest recursive force
  end.

Fixpoint rm_operands (operands : list (list Z)) (recursive force : bool) (rc : Z) (w : W) : option (Z * W) :=
  match operands with
  | [] => Some (rc, w)
  | a :: rest =>
      let '(path, fits) := u_copy RM_PATH a in
      if negb fits then w ← u_err (cstr "rm: path too long" ++ NL) w; rm_operands rest recursive force 1 w
      else
        let path := strip_slashes (length path) path in
        if unsafe_target path then w ← errs [cstr "rm: refusing unsafe path: "; a; NL] w; rm_operands rest recursive force 1 w
        else '(r, w) ← rm_recursive RM_DEPTH path recursive force w; rm_operands rest recursive force (if r =? 0 then rc else 1) w
  end.

Definition rm_main (argv : list (list Z)) (w : W) : option (Z * W) :=
  match rm_options (drop 1 argv) false false with
  | None => fails_with 2 [cstr "rm: usage: rm [-rRf] [--] path ..." ++ NL] w
  | Some ([], _, force) => if force : bool then Some (0, w) else fails_with 1 [cstr "rm: missing operand" ++ NL] w
  | Some (operands, recursive, force) => rm_operands operands recursive force 0 w
  end.

(** ** [ls.c] *)

Definition LS_CAP : Z := 32.

(** [g_all], [g_long] and [g_dir_only]. *)
Record ls_flags := LsFlags { g_all : bool; g_long : bool; g_dir_only : bool }.

Definition print_item (f : ls_flags) (name : list Z) (type : Z) (dir : option (list Z)) (w : W) : option W :=
  w ← (if g_long f then
         match dir ≫= (fun d => u_join3 128 d [slash] name) with
         | None => u_puts (cstr "? ") w
         | Some path =>
             '(r, w) ← os_stat path w;
             match r with
             | inl _ => u_puts (cstr "? ") w
             | inr st =>
                 w ← u_puts (if type =? DT_DIR then cstr "d " else if type =? DT_LNK then cstr "l " else cstr "- ") w;
                 w ← num (st_size st) w; u_puts (cstr " ") w
             end
         end
       else Some w);
  w ← u_puts name w;
  w ← (if type =? DT_DIR then u_puts [slash] w else if type =? DT_LNK then u_puts (cstr "@") w else Some w);
  u_puts NL w.

Fixpoint print_entries (f : ls_flags) (path : list Z) (entries : list fs_dirent) (w : W) : option W :=
  match entries with
  | [] => Some w
  | (name, type) :: rest =>
      w ← (if negb (g_all f) && (char_at name 0 =? DOT) then Some w else print_item f name type (Some path) w);
      print_entries f path rest w
  end.

Definition list_dir (f : ls_flags) (path : list Z) (w : W) : option (Z * W) :=
  '(count, entries, w) ← os_getdents path LS_CAP w;
  if count <? 0 then fails_with 1 [cstr "ls: cannot read "; path; NL] w
  else w ← print_entries f path (take (Z.to_nat count) entries) w; Some (0, w).

Definition list_path (f : ls_flags) (path : list Z) (header : bool) (w : W) : option (Z * W) :=
  '(r, w) ← os_stat path w;
  match r with
  | inl _ => fails_with 1 [cstr "ls: cannot access "; path; NL] w
  | inr st =>
      w ← (if header then puts_all [path; cstr ":" ++ NL] w else Some w);
      if is_directory (st_mode st) && negb (g_dir_only f) then list_dir f path w
      else w ← print_item f path (if is_directory (st_mode st) then DT_DIR else DT_REG) None w; Some (0, w)
  end.

Fixpoint ls_letters (letters : list Z) (f : ls_flags) : option ls_flags :=
  match letters with
  | [] => Some f
  | c :: r =>
      if (c =? 97) || (c =? 65) then ls_letters r (LsFlags true (g_long f) (g_dir_only f))
      else if c =? 108 then ls_letters r (LsFlags (g_all f) true (g_dir_only f))
      else if c =? 100 then ls_letters r (LsFlags (g_all f) (g_long f) true)
      else if (c =? 49) || (c =? 70) then ls_letters r f
      else None
  end.

Fixpoint ls_options (args : list (list Z)) (f : ls_flags) : option (list (list Z) * ls_flags) :=
  match args with
  | [] => Some ([], f)
  | a :: rest =>
      if u_streq a (cstr "--") then Some (rest, f)
      else if negb (is_option a) then Some (args, f)
      else f ← ls_letters (drop 1 a) f; ls_options rest f
  end.

Fixpoint ls_operands (f : ls_flags) (header first : bool) (operands : list (list Z)) (rc : Z) (w : W) : option (Z * W) :=
  match operands with
  | [] => Some (rc, w)
  | a :: rest =>
      w ← (if first then Some w else u_puts NL w);
      '(r, w) ← list_path f a header w;
      ls_operands f header false rest (if r =? 0 then rc else 1) w
  end.

Definition ls_main (argv : list (list Z)) (w : W) : option (Z * W) :=
  match ls_options (drop 1 argv) (LsFlags false false false) with
  | None => fails_with 2 [cstr "ls: usage: ls [-ald1F] [paths...]" ++ NL] w
  | Some ([], f) => list_dir f dot w
  | Some (operands, f) => ls_operands f (1 <? length operands)%nat true operands 0 w
  end.

(** ** [write.c] *)

Definition WRITE_BUFFER_CAP : Z := 512.

Fixpoint write_options (args : list (list Z)) (append newline : bool) : list (list Z) * bool * bool :=
  match args with
  | [] => ([], append, newline)
  | a :: rest =>
      if u_streq a (cstr "--") then (rest, append, newline)
      else if u_streq a (cstr "-a") then write_options rest true newline
      else if u_streq a (cstr "-n") then write_options rest append false
      else (args, append, newline)
  end.

(** The buffer is its first [len] bytes. *)
Definition push_byte (c : Z) (buffer : list Z) : option (list Z) :=
  if WRITE_BUFFER_CAP <=? Z.of_nat (length buffer) + 1 then None else Some (buffer ++ [c]).
Fixpoint push_word (word : list Z) (buffer : list Z) : option (list Z) :=
  match word with [] => Some buffer | c :: r => b ← push_byte c buffer; push_word r b end.
Fixpoint push_words (first : bool) (words : list (list Z)) (buffer : list Z) : option (list Z) :=
  match words with
  | [] => Some buffer
  | x :: rest => b ← (if first then Some buffer else push_byte SPACE buffer); b ← push_word x b; push_words false rest b
  end.

Definition write_main (argv : list (list Z)) (w : W) : option (Z * W) :=
  let '(args, append, newline) := write_options (drop 1 argv) false true in
  match args with
  | [] => fails_with 1 [cstr "usage: write [-a] [-n] file [text ...]" ++ NL] w
  | file :: words =>
      match b ← push_words true words []; if newline : bool then push_byte NEWLINE b else Some b with
      | None => fails_with 1 [cstr "write: text too long" ++ NL] w
      | Some buffer =>
          '(fd, w) ← os_open file (Z.lor (Z.lor O_CREAT O_WRONLY) (if append : bool then O_APPEND else O_TRUNC)) w;
          if fd <? 0 then fails_with 1 [cstr "write: cannot open "; file; NL] w
          else
            '(short, w) ← (if (length buffer =? 0)%nat then Some (false, w)
                           else '(n, w) ← os_write fd buffer w; Some (negb (n =? Z.of_nat (length buffer)), w));
            if short : bool then w ← ignore (os_close fd) w; fails_with 1 [cstr "write: write failed" ++ NL] w
            else
              '(rc, w) ← os_close fd w;
              if rc <? 0 then fails_with 1 [cstr "write: close failed" ++ NL] w else Some (0, w)
      end
  end.

(** ** [stat.c] *)

Definition type_name (mode : Z) : list Z :=
  let type := Z.land mode S_IFMT in
  if type =? S_IFDIR then cstr "directory" else if type =? S_IFREG then cstr "file"
  else if type =? S_IFLNK then cstr "symlink" else if type =? S_IFCHR then cstr "character device" else cstr "unknown".

Fixpoint stat_operands (operands : list (list Z)) (rc : Z) (w : W) : option (Z * W) :=
  match operands with
  | [] => Some (rc, w)
  | a :: rest =>
      '(r, w) ← os_stat a w;
      match r with
      | inl _ => w ← errs [cstr "stat: cannot stat "; a; NL] w; stat_operands rest 1 w
      | inr st =>
          w ← puts_all [cstr "  File: "; a; NL ++ cstr "  Type: "; type_name (st_mode st); NL ++ cstr "  Size: "] w;
          w ← put_u32 (st_size st) w; w ← u_puts (cstr " bytes" ++ NL) w;
          stat_operands rest rc w
      end
  end.

Definition stat_main (argv : list (list Z)) (w : W) : option (Z * W) :=
  match drop 1 argv with
  | [] => fails_with 1 [cstr "stat: missing operand" ++ NL] w
  | operands => stat_operands operands 0 w
  end.

(** ** [cat.c], and the copy loop it shares with [history.c] *)

Fixpoint copy_out (fuel : nat) (fd : Z) (w : W) : option W :=
  match fuel with
  | O => None
  | S fuel =>
      '(n, bytes, w) ← os_read fd 256 w;
      if n <=? 0 then Some w else w ← ignore (os_write STDOUT_FILENO bytes) w; copy_out fuel fd w
  end.

Fixpoint cat_operands (fuel : nat) (operands : list (list Z)) (w : W) : option W :=
  match operands with
  | [] => Some w
  | a :: rest =>
      '(fd, w) ← os_open a O_RDONLY w;
      w ← (if fd <? 0 then errs [cstr "cat: cannot open "; a; NL] w
           else w ← copy_out fuel fd w; ignore (os_close fd) w);
      cat_operands fuel rest w
  end.

Definition cat_main (fuel : nat) (argv : list (list Z)) (w : W) : option (Z * W) :=
  match drop 1 argv with
  | [] => fails_with 1 [cstr "cat: missing file" ++ NL] w
  | operands => w ← cat_operands fuel operands w; Some (0, w)
  end.

(** ** [history.c] *)

Definition CFG_FILE : list Z := cstr "/etc/msh.cfg".
Definition DEFAULT_HISTORY_FILE : list Z := cstr "/root/history".

(** The loop over the lines of the configuration; [out] is an array of [cap] bytes. *)
Fixpoint history_lines (fuel : nat) (cap : nat) (cfg : list Z) : option (list Z) :=
  match fuel, cfg with
  | S fuel, _ :: _ =>
      let '(line, rest) := take_line cfg in
      let rest := skip_ends rest in
      if (length line =? 0)%nat || (char_at line 0 =? HASH) then history_lines fuel cap rest
      else if starts_with line (cstr "history_file=") then Some (c_text (take (cap - 1) (drop 13 line)))
      else history_lines fuel cap rest
  | _, _ => None
  end.

Definition history_path (cap : nat) (w : W) : option (list Z * W) :=
  let out := fst (u_copy cap DEFAULT_HISTORY_FILE) in
  '(fd, w) ← os_open CFG_FILE O_RDONLY w;
  if fd <? 0 then Some (out, w)
  else
    '(n, cfg, w) ← os_read fd 255 w;
    w ← ignore (os_close fd) w;
    if n <=? 0 then Some (out, w) else Some (default out (history_lines (length cfg) cap cfg), w).

Definition show_history (fuel : nat) (path : list Z) (w : W) : option (Z * W) :=
  '(fd, w) ← os_open path O_RDONLY w;
  if fd <? 0 then Some (0, w) else w ← copy_out fuel fd w; w ← ignore (os_close fd) w; Some (0, w).

Definition clear_history (path : list Z) (w : W) : option (Z * W) :=
  '(fd, w) ← os_open path (Z.lor (Z.lor O_CREAT O_TRUNC) O_WRONLY) w;
  if fd <? 0 then fails_with 1 [cstr "history: cannot clear history" ++ NL] w
  else w ← ignore (os_close fd) w; Some (0, w).

Definition history_main (fuel : nat) (argv : list (list Z)) (w : W) : option (Z * W) :=
  '(path, w) ← history_path 96 w;
  match drop 1 argv with
  | [] => show_history fuel path w
  | [a] => if u_streq a (cstr "-c") then clear_history path w else fails_with 1 [cstr "usage: history [-c]" ++ NL] w
  | _ => fails_with 1 [cstr "usage: history [-c]" ++ NL] w
  end.

(** ** The programs of a few lines *)

Fixpoint touch_operands (operands : list (list Z)) (rc : Z) (w : W) : option (Z * W) :=
  match operands with
  | [] => Some (rc, w)
  | a :: rest =>
      '(fd, w) ← os_open a (Z.lor O_CREAT O_RDWR) w;
      if fd <? 0 then touch_operands rest 1 w else w ← ignore (os_close fd) w; touch_operands rest rc w
  end.
Definition touch_main (argv : list (list Z)) (w : W) : option (Z * W) :=
  match drop 1 argv with
  | [] => fails_with 1 [cstr "touch: missing file" ++ NL] w
  | operands => touch_operands operands 0 w
  end.

Fixpoint mkdir_operands (operands : list (list Z)) (rc : Z) (w : W) : option (Z * W) :=
  match operands with
  | [] => Some (rc, w)
  | a :: rest =>
      '(r, w) ← os_mkdir a w;
      if r <? 0 then w ← u_err (cstr "mkdir: failed" ++ NL) w; mkdir_operands rest 1 w else mkdir_operands rest rc w
  end.
Definition mkdir_main (argv : list (list Z)) (w : W) : option (Z * W) :=
  match drop 1 argv with
  | [] => fails_with 1 [cstr "mkdir: missing operand" ++ NL] w
  | operands => mkdir_operands operands 0 w
  end.

Definition ln_main (argv : list (list Z)) (w : W) : option (Z * W) :=
  match argv with
  | [_; s; target; link] =>
      if u_streq s (cstr "-s") then
        '(rc, w) ← os_symlink target link w;
        if rc <? 0 then fails_with 1 [cstr "ln: failed" ++ NL] w else Some (0, w)
      else fails_with 1 [cstr "usage: ln -s target link" ++ NL] w
  | _ => fails_with 1 [cstr "usage: ln -s target link" ++ NL] w
  end.

Definition readlink_main (argv : list (list Z)) (w : W) : option (Z * W) :=
  match argv with
  | [_; path] =>
      '(n, buf, w) ← os_readlink path 127 w;
      if n <? 0 then fails_with 1 [cstr "readlink: not a symlink" ++ NL] w
      else w ← puts_all [c_text buf; NL] w; Some (0, w)
  | _ => fails_with 1 [cstr "usage: readlink path" ++ NL] w
  end.

Definition pwd_main (w : W) : option (Z * W) :=
  '(cwd, w) ← os_getcwd 128 w;
  match cwd with None => Some (1, w) | Some cwd => w ← puts_all [cwd; NL] w; Some (0, w) end.

Fixpoint sleep_digits (s : list Z) (value : Z) : option Z :=
  match s with
  | [] => Some value
  | c :: r => if (c <? 48) || (57 <? c) then None else sleep_digits r (u32 (u32 (value * 10) + (c - 48)))
  end.
Definition parse_uint (s : list Z) : option Z := match s with [] => None | _ => sleep_digits s 0 end.
Definition sleep_main (argv : list (list Z)) (w : W) : option (Z * W) :=
  match argv with
  | [_; a] =>
      match parse_uint a with
      | Some seconds => w ← os_sleep seconds w; Some (0, w)
      | None => fails_with 1 [cstr "usage: sleep seconds" ++ NL] w
      end
  | _ => fails_with 1 [cstr "usage: sleep seconds" ++ NL] w
  end.

Definition clear_main (w : W) : option (Z * W) :=
  '(rc, w) ← os_clear w;
  if rc <? 0 then fails_with 1 [cstr "clear: stdout is not a terminal" ++ NL] w else Some (0, w).

Fixpoint echo_words (first : bool) (words : list (list Z)) (w : W) : option W :=
  match words with
  | [] => Some w
  | a :: rest => w ← (if first then Some w else u_puts [SPACE] w); w ← u_puts a w; echo_words false rest w
  end.
Definition echo_main (argv : list (list Z)) (w : W) : option (Z * W) :=
  w ← echo_words true (drop 1 argv) w; w ← u_puts NL w; Some (0, w).

Definition RB_AUTOBOOT : Z := 0.
Definition RB_POWER_OFF : Z := 1.
Definition shutdown_main (w : W) : option (Z * W) :=
  w ← u_puts (cstr "Shutting down..." ++ NL) w;
  '(rc, w) ← os_reboot RB_POWER_OFF w;
  if rc <? 0 then fails_with 1 [cstr "shutdown: failed" ++ NL] w else Some (0, w).
Definition reboot_main (w : W) : option (Z * W) :=
  w ← u_puts (cstr "Rebooting..." ++ NL) w;
  '(rc, w) ← os_reboot RB_AUTOBOOT w;
  if rc <? 0 then fails_with 1 [cstr "reboot: failed" ++ NL] w else Some (0, w).
Definition sync_main (w : W) : option (Z * W) := w ← os_sync w; Some (0, w).

Definition help_text : list (list Z) :=
  [cstr "System Multi Utils" ++ cstr " (SMU)" ++ NL;
   cstr "MultiShell (MSh) and independent System/1 utilities" ++ NL;
   cstr "Builtins: cd exit" ++ NL;
   cstr "Programs: help clear echo ls cat pwd mkdir touch write rm ln readlink stat history sleep true false adatext kconfig sync reboot shutdown" ++ NL;
   cstr "Editing: Up/Down history, Left/Right, Insert, Delete, Tab completion" ++ NL;
   cstr "Directories: TAB adds '/', ls -la, rm -rf dir/" ++ NL;
   cstr "Devices: /dev/tty, /dev/console, /dev/ttyS0, /dev/kmsg" ++ NL;
   cstr "Syntax: * ?  '...'  " ++ [DOUBLE_QUOTE] ++ cstr "..." ++ [DOUBLE_QUOTE] ++ cstr "  \  #comment  ;  &&  ||" ++ NL;
   cstr "Examples: write file.txt text | write -a file.txt more | stat file.txt | sleep 1" ++ NL;
   cstr "Each SMU command is a separate .prg executable; SMU is not a multicall binary." ++ NL].
Definition help_main (w : W) : option (Z * W) := w ← puts_all help_text w; Some (0, w).

(** ** [kconfig.c] *)

Definition CFG_CAP : Z := 320.
Definition SHELL_CAP : nat := 8.

(** The bytes read; the array ends with a zero byte behind them. *)
Definition read_file (path : list Z) (cap : Z) (w : W) : option (option (list Z) * W) :=
  if cap <? 2 then Some (None, w)
  else
    '(fd, w) ← os_open path O_RDONLY w;
    if fd <? 0 then Some (None, w)
    else
      '(n, buf, w) ← os_read fd (cap - 1) w;
      w ← ignore (os_close fd) w;
      if n <? 0 then Some (None, w) else Some (Some buf, w).

Definition show_file (path : list Z) (w : W) : option (Z * W) :=
  '(r, w) ← read_file path CFG_CAP w;
  match r with
  | None => fails_with 1 [cstr "kconfig: cannot read "; path; NL] w
  | Some buf =>
      w ← u_puts (c_text buf) w;
      w ← (if (0 <? length buf)%nat && negb (char_at buf (length buf - 1) =? NEWLINE) then u_puts NL w else Some w);
      Some (0, w)
  end.

Definition shell_exists (path : list Z) (w : W) : option (bool * W) :=
  '(fd, w) ← os_open path O_RDONLY w;
  if fd <? 0 then Some (false, w) else w ← ignore (os_close fd) w; Some (true, w).

Definition cfg_head : list Z := cstr "# System/1 kernel configuration" ++ NL ++ cstr "version=1" ++ NL ++ cstr "shell=".
Definition cfg_tail : list Z := NL ++ cstr "shells=/etc/shells" ++ NL ++ cstr "fallback=kernel" ++ NL.

(** [data], its first [p] bytes, after one of the copy loops. *)
Definition append_cut (data src : list Z) : list Z := data ++ take (Z.to_nat (CFG_CAP - 1) - length data) src.
Definition cfg_data (path : list Z) : list Z := append_cut (append_cut (append_cut [] cfg_head) path) cfg_tail.

Definition KERNEL_CFG : list Z := cstr "/etc/kernel.cfg".

Definition write_kernel_shell (path : list Z) (w : W) : option (Z * W) :=
  '(there, w) ← shell_exists path w;
  if negb there then fails_with 1 [cstr "kconfig: selected shell does not exist" ++ NL] w
  else
    '(fd, w) ← os_open KERNEL_CFG (Z.lor (Z.lor O_CREAT O_TRUNC) O_WRONLY) w;
    if fd <? 0 then fails_with 1 [cstr "kconfig: filesystem is read-only or unavailable" ++ NL] w
    else
      '(n, w) ← os_write fd (cfg_data path) w;
      w ← ignore (os_close fd) w;
      if n <? 0 then fails_with 1 [cstr "kconfig: write failed" ++ NL] w
      else w ← puts_all [cstr "Selected shell: "; path; NL ++ cstr "Takes effect on next boot." ++ NL] w; Some (0, w).

Definition blank (c : Z) : bool := (c =? NEWLINE) || (c =? RETURN) || (c =? SPACE) || (c =? TAB).
Fixpoint skip_blanks (p : list Z) : list Z := match p with c :: r => if blank c then skip_blanks r else p | [] => [] end.

(** The shells are strings of the buffer, whose line ends become their terminators. *)
Fixpoint parse_shells (fuel : nat) (p : list Z) (shells : list (list Z)) : list (list Z) :=
  match fuel, skip_blanks p with
  | S fuel, (c :: _) as q =>
      let '(start, rest) := take_line q in
      if c =? HASH then parse_shells fuel rest shells
      else parse_shells fuel (drop 1 rest) (if (length shells <? SHELL_CAP)%nat && (c =? slash) then shells ++ [start] else shells)
  | _, _ => shells
  end.

Fixpoint list_shells (i : Z) (shells : list (list Z)) (w : W) : option W :=
  match shells with [] => Some w | s :: rest => w ← puts_all [[49 + i; 41; SPACE]; s; NL] w; list_shells (i + 1) rest w end.

Definition select_shell (w : W) : option (Z * W) :=
  '(r, w) ← read_file (cstr "/etc/shells") CFG_CAP w;
  match r with
  | None => fails_with 1 [cstr "kconfig: cannot read /etc/shells" ++ NL] w
  | Some buf =>
      let text := c_text buf in
      let shells := parse_shells (S (length text)) text [] in
      let count := Z.of_nat (length shells) in
      if count <=? 0 then fails_with 1 [cstr "kconfig: /etc/shells contains no shells" ++ NL] w
      else
        w ← u_puts (cstr "Available System/1 shells:" ++ NL) w;
        w ← list_shells 0 shells w;
        w ← puts_all [cstr "Select shell [1-"; [48 + count; 93; 58]; cstr " "] w;
        '(n, answer, w) ← os_read STDIN_FILENO 15 w;
        if n <=? 0 then Some (1, w)
        else
          let index := char_at answer 0 - 49 in
          if (index <? 0) || (count <=? index) then fails_with 1 [cstr "kconfig: invalid selection" ++ NL] w
          else write_kernel_shell (default [] (shells !! Z.to_nat index)) w
  end.

Definition menu : list (list Z) :=
  [NL ++ cstr "System/1 Kernel Configurator" ++ NL; cstr "1) Show kernel configuration" ++ NL; cstr "2) Select userspace shell" ++ NL;
   cstr "3) Show valid shells" ++ NL; cstr "4) Show MultiShell configuration" ++ NL; cstr "q) Exit" ++ NL; cstr "Selection: "].

(** One pass of the loop with what was read: [true] when it returns. *)
Definition menu_turn (c : Z) (w : W) : option (bool * W) :=
  if c =? 49 then '(_, w) ← show_file KERNEL_CFG w; Some (false, w)
  else if c =? 50 then '(_, w) ← select_shell w; Some (false, w)
  else if c =? 51 then '(_, w) ← show_file (cstr "/etc/shells") w; Some (false, w)
  else if c =? 52 then '(_, w) ← show_file CFG_FILE w; Some (false, w)
  else if (c =? 113) || (c =? 81) then Some (true, w)
  else w ← u_err (cstr "Unknown selection." ++ NL) w; Some (false, w).

Fixpoint interactive_menu (fuel : nat) (w : W) : option (Z * W) :=
  match fuel with
  | O => None
  | S fuel =>
      w ← puts_all menu w;
      '(n, line, w) ← os_read STDIN_FILENO 15 w;
      if n <=? 0 then interactive_menu fuel w
      else '(stop, w) ← menu_turn (char_at line 0) w; if stop : bool then Some (0, w) else interactive_menu fuel w
  end.

Definition kconfig_main (fuel : nat) (argv : list (list Z)) (w : W) : option (Z * W) :=
  let usage := fails_with 1 [cstr "usage: kconfig [show | shell [path] | shells | msh]" ++ NL] in
  match argv with
  | [_] => interactive_menu fuel w
  | [_; a] =>
      if u_streq a (cstr "show") then show_file KERNEL_CFG w
      else if u_streq a (cstr "shell") then select_shell w
      else if u_streq a (cstr "shells") then show_file (cstr "/etc/shells") w
      else if u_streq a (cstr "msh") then show_file CFG_FILE w
      else usage w
  | [_; a; path] => if u_streq a (cstr "shell") then write_kernel_shell path w else usage w
  | _ => usage w
  end.

(** ** [errno.c] *)

Definition strerror (errnum : Z) : list Z :=
  if errnum =? 0 then cstr "Success"
  else if errnum =? 1 then cstr "Operation not permitted"
  else if errnum =? 2 then cstr "No such file or directory"
  else if errnum =? 3 then cstr "No such process"
  else if errnum =? 5 then cstr "Input/output error"
  else if errnum =? 7 then cstr "Argument list too long"
  else if errnum =? 8 then cstr "Exec format error"
  else if errnum =? 9 then cstr "Bad file descriptor"
  else if errnum =? 13 then cstr "Permission denied"
  else if errnum =? 17 then cstr "File exists"
  else if errnum =? 20 then cstr "Not a directory"
  else if errnum =? 21 then cstr "Is a directory"
  else if errnum =? 22 then cstr "Invalid argument"
  else if errnum =? 25 then cstr "Not a tty"
  else if errnum =? 28 then cstr "No space left on device"
  else if errnum =? 30 then cstr "Read-only filesystem"
  else if errnum =? 38 then cstr "Function not implemented"
  else cstr "Unknown error".

(** Without the restoration of [errno] at the end. *)
Definition perror (prefix : list Z) (w : W) : option W :=
  let message := strerror (os_errno w) in
  w ← (match prefix with [] => Some w | _ => errs [prefix; cstr ": "] w end); errs [message; NL] w.

End Programs.

End Programs.

(** * The user programs are correct

    What [rm] removes, what [write] stores and which shells [kconfig] offers. *)

Module ProgramsProps.
Import Programs.

(** A call returns, with a result that satisfies [Q]. *)
Definition yields {A} (o : option A) (Q : A -> Prop) : Prop := exists a, o = Some a /\ Q a.

Lemma yields_some {A} (a : A) (Q : A -> Prop) : Q a -> yields (Some a) Q.
Proof. intros H. by exists a. Qed.

Lemma yields_bind {A B} (o : option A) (f : A -> option B) (P : A -> Prop) (Q : B -> Prop) :
  yields o P -> (forall a, P a -> yields (f a) Q) -> yields (o ≫= f) Q.
Proof. intros (a & -> & H) Hf. by apply Hf. Qed.

Lemma yields_mono {A} (o : option A) (P Q : A -> Prop) : yields o P -> (forall a, P a -> Q a) -> yields o Q.
Proof. intros (a & E & H) HPQ. exists a. auto. Qed.

(** ** What [rm] removes *)

(** The parts of a path that are neither the directory itself nor its parent. *)
Definition proper (c : list Z) : Prop := c <> dot /\ c <> dotdot.

Lemma special_segment_exact fuel : forall p, (length p < fuel)%nat ->
  special_segment fuel p = false -> Forall proper (components p).
Proof.
  induction fuel as [|fuel IH]; intros p Hf; [lia|]. cbn [special_segment]. pose proof (skip_slashes_length p) as Hl.
  rewrite <- (components_skip p). destruct (skip_slashes p) as [|c r] eqn:E; [constructor|].
  pose proof (skip_slashes_head p c r E) as Hc. pose proof (span_nonempty c r Hc) as Hne. pose proof (span_app (c :: r)) as Ha.
  rewrite (components_span (c :: r) Hne). destruct (span (c :: r)) as [seg rest]. cbn [fst snd] in *. intros [H1 H2]%orb_false_iff.
  apply bool_decide_eq_false in H1. constructor; [split; tauto|]. apply IH; [|done].
  apply (f_equal length) in Ha. rewrite length_app in Ha. destruct seg; [done|]. cbn [length] in *. lia.
Qed.

(** What [unsafe_target] lets through. *)
Definition safe (t : list Z) : Prop := let q := skip_dot_slash t in components q <> [] /\ Forall proper (components q).

Lemma unsafe_target_exact t : unsafe_target t = false -> safe t.
Proof.
  unfold unsafe_target, safe. cbv zeta. destruct (skip_dot_slash t) as [|c q] eqn:E; [done|]. intros [[_ H1]%orb_false_iff H2]%orb_false_iff.
  split; [|by eapply special_segment_exact; [|exact H1]; lia].
  intros Hn. rewrite <- components_skip in Hn. destruct (skip_slashes (c :: q)) as [|d r] eqn:Es; [done|].
  pose proof (skip_slashes_head (c :: q) d r Es) as Hd. rewrite components_span in Hn by (by apply span_nonempty). done.
Qed.

(** The path of something below a directory. *)
Definition below (names : list (list Z)) : list Z := concat (cons slash <$> names).
Definition entry_name (c : list Z) : Prop := c <> [] /\ Forall (fun x => x <> slash) c.

(** The path [rm] works on for an operand. *)
Definition target (a : list Z) : list Z := strip_slashes (length a) a.

(** A safe operand, or with [recursive] an entry at most 16 directories below it. *)
Definition removable (operands : list (list Z)) (recursive : bool) (p : list Z) : Prop :=
  exists a names, a ∈ operands /\ safe (target a) /\ p = target a ++ below names /\ (names <> [] -> recursive = true) /\
    (length names <= RM_DEPTH)%nat /\ Forall (fun c => entry_name c /\ proper c) names.

Section Rm.
Context {W : Type} `{!shell_os W} `{!shell_errno W} `{!program_os W}.

(** What holds of the system: its calls return and change it only as [R] allows; the two
    that remove are known to do so for [allowed] paths only, and make a path [gone],
    which it then stays. *)
Record rm_frame (R : W -> W -> Prop) (gone : list Z -> W -> Prop) (allowed : list Z -> Prop) : Prop := RmFrame {
  fr_refl w : R w w;
  fr_trans w1 w2 w3 : R w1 w2 -> R w2 w3 -> R w1 w3;
  fr_write fd bytes w : yields (os_write fd bytes w) (fun r => R w r.2);
  fr_stat p w : yields (os_stat p w) (fun r => R w r.2);
  fr_getdents p n w : yields (os_getdents p n w) (fun r => R w r.2 /\ Forall (fun e => entry_name e.1) r.1.2);
  fr_unlink p w : allowed p -> yields (os_unlink p w) (fun r => R w r.2 /\ (0 <= r.1 -> gone p r.2));
  fr_rmdir p w : allowed p -> yields (os_rmdir p w) (fun r => R w r.2 /\ (0 <= r.1 -> gone p r.2));
  fr_gone p w w' : gone p w -> R w w' -> gone p w'
}.

Section Frame.
Context (R : W -> W -> Prop) (gone : list Z -> W -> Prop) (allowed : list Z -> Prop) (F : rm_frame R gone allowed).

Lemma err_frame w0 text w : R w0 w -> yields (u_err text w) (R w0).
Proof using F. intros H. unfold u_err, ignore. eapply yields_bind; [apply (fr_write _ _ _ F)|]. intros [rc w'] H'. apply yields_some. by eapply (fr_trans _ _ _ F). Qed.

Lemma errs_frame w0 texts : forall w, R w0 w -> yields (errs texts w) (R w0).
Proof using F.
  induction texts as [|t ts IH]; intros w H; [by apply yields_some|]. unfold errs. cbn [say]. eapply yields_bind; [by apply err_frame|]. exact IH.
Qed.

(** What a removal promises. *)
Definition removes (force : bool) (path : list Z) (w0 : W) (r : Z * W) : Prop := R w0 r.2 /\ (force = false -> r.1 = 0 -> gone path r.2).

Lemma fails_frame force path w0 texts w : R w0 w -> yields (fails_with 1 texts w) (removes force path w0).
Proof using F. intros H. unfold fails_with. eapply yields_bind; [by apply errs_frame|]. intros w' H'. by apply yields_some. Qed.

Lemma streq_eq a : forall b, u_streq a b = true <-> a = b.
Proof. induction a as [|x a IH]; intros [|y b]; cbn [u_streq]; [done..|]. rewrite andb_true_iff, IH, Z.eqb_eq. split; [by intros [-> ->]|by intros [= -> ->]]. Qed.

Lemma entries_frame (rm : list Z -> W -> option (Z * W)) path w0 entries : forall failed w,
  (forall name w, entry_name name -> proper name -> yields (rm (path ++ [slash] ++ name) w) (fun r => R w r.2)) ->
  Forall (fun e : fs_dirent => entry_name e.1) entries -> R w0 w ->
  yields (rm_entries rm path entries failed w) (fun r => R w0 r.2).
Proof using F.
  induction entries as [|[name type] rest IH]; intros failed w Hrm He Hw; [by apply yields_some|]. cbn [rm_entries].
  inversion He as [|?? H1 H2]; subst. cbn [fst] in H1. destruct (u_streq name dot || u_streq name dotdot) eqn:Es; [by apply IH|].
  apply orb_false_iff in Es as [E1 E2]. unfold u_join3. destruct (Nat.leb _ _).
  - eapply yields_bind; [apply Hrm; [done|]|].
    + split; intros ->; by cbn in *.
    + intros [rc w1] H. apply IH; [done|done|]. by eapply (fr_trans _ _ _ F).
  - eapply yields_bind; [by apply err_frame|]. intros w1 H. by apply IH.
Qed.

Lemma below_cons path name names : path ++ below (name :: names) = (path ++ [slash] ++ name) ++ below names.
Proof. unfold below. cbn [fmap list_fmap concat]. rewrite <- !app_assoc. done. Qed.

Lemma recursive_frame n : forall path recursive force w,
  (forall names, (names <> [] -> recursive = true) -> (length names <= n)%nat -> Forall (fun c => entry_name c /\ proper c) names ->
     allowed (path ++ below names)) ->
  yields (rm_recursive n path recursive force w) (removes force path w).
Proof using F.
  induction n as [|n IH]; intros path recursive force w Ha.
  all: assert (allowed path) as Hp by (rewrite <- (app_nil_r path); apply (Ha []); [done|cbn; lia|constructor]).
  all: cbn [rm_recursive]; eapply yields_bind; [apply (fr_stat _ _ _ F)|]; intros [[e|st] w1] H1; cbn [snd] in H1.
  all: try (destruct force; cbn [andb]; [destruct (_ =? _); [by apply yields_some|]|]; by apply fails_frame).
  all: destruct (is_directory _); [destruct recursive; cbn [negb]; [|by apply fails_frame]|].
  1: by apply fails_frame.
  2: { eapply yields_bind; [apply (fr_getdents _ _ _ F)|]. intros [[rc entries] w2] [H2 He]. cbn [fst snd] in *.
    pose proof (fr_trans _ _ _ F _ _ _ H1 H2) as H12. destruct (rc <? 0); [by apply fails_frame|].
    eapply yields_bind.
    - apply (entries_frame _ _ w); [|by apply Forall_take|done]. intros name w3 Hn Hq. eapply yields_mono; [apply IH|by intros r []].
      intros names _ Hl Hf. rewrite <- below_cons. apply Ha; [done|cbn [length]; lia|by constructor].
    - intros [failed w3] H3. cbn [snd] in H3. destruct failed; [by apply yields_some|].
      eapply yields_bind; [by apply (fr_rmdir _ _ _ F)|]. intros [rc2 w4] [H4 G4]. cbn [fst snd] in *.
      pose proof (fr_trans _ _ _ F _ _ _ H3 H4). destruct (Z.ltb_spec rc2 0); [by apply fails_frame|]. apply yields_some. split; [done|]. intros _ _. by apply G4. }
  all: eapply yields_bind; [by apply (fr_unlink _ _ _ F)|]; intros [rc2 w4] [H4 G4]; cbn [fst snd] in *.
  all: pose proof (fr_trans _ _ _ F _ _ _ H1 H4); destruct (Z.ltb_spec rc2 0).
  all: try (apply yields_some; split; [done|]; intros _ _; by apply G4).
  all: destruct force; cbn [andb]; [destruct (_ =? _); [by apply yields_some|]|]; by apply fails_frame.
Qed.

Lemma copied a path : u_copy RM_PATH a = (path, true) -> path = a.
Proof. unfold u_copy. intros [= <- [H _]%andb_true_iff]. apply Nat.leb_le in H. by apply take_ge. Qed.

Lemma operands_frame all recursive force operands : forall rc w,
  (forall p, removable all recursive p -> allowed p) -> (forall a, a ∈ operands -> a ∈ all) ->
  yields (rm_operands operands recursive force rc w) (fun r => R w r.2 /\
    (force = false -> r.1 = 0 -> rc = 0 /\ forall a, a ∈ operands -> gone (target a) r.2)).
Proof using F.
  induction operands as [|a rest IH]; intros rc w Ha Hs.
  { apply yields_some. split; [apply (fr_refl _ _ _ F)|]. intros _ H. split; [done|]. by intros a ?%elem_of_nil. }
  assert (forall b, b ∈ rest -> b ∈ all) as Hr by (intros b Hb; apply Hs; by right).
  assert (forall w1, R w w1 -> yields (rm_operands rest recursive force 1 w1) (fun r => R w r.2 /\
    (force = false -> r.1 = 0 -> rc = 0 /\ forall b, b ∈ a :: rest -> gone (target b) r.2))) as failed.
  { intros w1 H1. eapply yields_mono; [by apply IH|]. intros r [G1 G2]. split; [by eapply (fr_trans _ _ _ F)|]. intros Hf Hz. by destruct (G2 Hf Hz). }
  pose proof (fr_refl _ _ _ F w) as Hw. cbn [rm_operands]. destruct (u_copy RM_PATH a) as [path fits] eqn:Ec.
  destruct fits; cbn [negb]; [|eapply yields_bind; [by apply err_frame|exact failed]]. apply copied in Ec as ->. fold (target a).
  destruct (unsafe_target (target a)) eqn:Eu; [eapply yields_bind; [by apply errs_frame|exact failed]|].
  eapply yields_bind.
  { apply recursive_frame. intros names H1 H2 H3. apply Ha. exists a, names. split_and!; try done; [apply Hs; by left|by apply unsafe_target_exact]. }
  intros [r w1] [H1 G1]. cbn [fst snd] in *. destruct (Z.eqb_spec r 0) as [->|Hne]; [|by apply failed].
  eapply yields_mono; [by apply (IH rc w1)|]. intros [rc' w2] [G2 G3]. cbn [fst snd] in *. split; [by eapply (fr_trans _ _ _ F)|]. intros Hf Hz.
  destruct (G3 Hf Hz) as [G4 G5]. split; [done|]. intros b [->|Hb]%elem_of_cons; [|by apply G5]. eapply (fr_gone _ _ _ F); [by apply G1|done].
Qed.

End Frame.

(** The operands and whether [-r] and [-f] were given. *)
Definition rm_request (argv : list (list Z)) : option (list (list Z) * bool * bool) := rm_options (drop 1 argv) false false.

(** C12: [rm] removes what it was asked to remove, and nothing else.  On every system whose
    calls return, [rm] returns, and every path it unlinks or removes as a directory is one
    of its operands without trailing slashes or, with [-r], an entry at most 16 directories
    below one; an operand with a part that is [.] or [..] (after leading [./]), or with no
    part at all, is never touched.  So whatever relation the other calls and these removals
    keep between states of the system, [rm] keeps.  If it answers 0 without [-f], every
    operand is gone. *)
Theorem rm_removes_its_operands (R : W -> W -> Prop) (gone : list Z -> W -> Prop) argv w :
  rm_frame R gone (fun p => exists operands recursive force, rm_request argv = Some (operands, recursive, force) /\ removable operands recursive p) ->
  exists rc w', rm_main argv w = Some (rc, w') /\ R w w' /\
    forall operands recursive, rm_request argv = Some (operands, recursive, false) -> rc = 0 -> forall a, a ∈ operands -> gone (target a) w'.
Proof.
  intros F. pose proof (fr_refl _ _ _ F w) as Hw.
  assert (yields (rm_main argv w) (fun r => R w r.2 /\ forall operands recursive, rm_request argv = Some (operands, recursive, false) -> r.1 = 0 ->
    forall a, a ∈ operands -> gone (target a) r.2)) as ([rc w'] & E & H1 & H2); [|by exists rc, w'].
  unfold rm_main. fold (rm_request argv). destruct (rm_request argv) as [[[operands recursive] force]|] eqn:Er.
  2: { eapply yields_bind; [by eapply errs_frame|]. intros w1 H1. by apply yields_some. }
  destruct operands as [|a rest].
  { destruct force; [by apply yields_some|]. eapply yields_mono; [by eapply (fails_frame _ _ _ F true [])|]. intros r [H1 _]. split; [done|].
    intros operands rec [= <- _] _ a ?%elem_of_nil. done. }
  eapply yields_mono; [eapply (operands_frame _ _ _ F (a :: rest)); [|done]|].
  - intros p Hp. by exists (a :: rest), recursive, force.
  - intros r [H1 H2]. split; [done|]. intros operands rec [= <- <- ->] Hz. by apply H2.
Qed.

End Rm.

(** ** What [write] stores *)

(** The words with spaces between them. *)
Definition spaced (words : list (list Z)) : list Z :=
  match words with [] => [] | x :: rest => x ++ concat (cons SPACE <$> rest) end.

(** Into a buffer of 512 bytes whose last stays free. *)
Definition fitting (s : list Z) : option (list Z) := if (length s <? 512)%nat then Some s else None.

Lemma push_byte_exact c b : push_byte c b = fitting (b ++ [c]).
Proof.
  unfold push_byte, fitting, WRITE_BUFFER_CAP. rewrite length_app. cbn [length].
  destruct (Z.leb_spec 512 (Z.of_nat (length b) + 1)), (Nat.ltb_spec (length b + 1) 512); (done || lia).
Qed.

Lemma fits s : (length s < 512)%nat -> Some s = fitting s.
Proof. intros H. unfold fitting. by destruct (Nat.ltb_spec (length s) 512); [|lia]. Qed.

(** Once a string does not fit, no longer one does. *)
Lemma fitting_bind s t f : ((length s < 512)%nat -> f s = fitting (s ++ t)) -> (fitting s ≫= f) = fitting (s ++ t).
Proof.
  intros Hf. unfold fitting at 1. destruct (Nat.ltb_spec (length s) 512); [by apply Hf|].
  unfold fitting. rewrite length_app. by destruct (Nat.ltb_spec (length s + length t) 512); [lia|].
Qed.

Lemma push_word_exact word : forall b, (length b < 512)%nat -> push_word word b = fitting (b ++ word).
Proof.
  induction word as [|c r IH]; intros b Hb; cbn [push_word]; [rewrite app_nil_r; by apply fits|].
  rewrite push_byte_exact. change (c :: r) with ([c] ++ r). rewrite (app_assoc b). apply fitting_bind. apply IH.
Qed.

Lemma push_words_exact words : forall b, (length b < 512)%nat -> push_words false words b = fitting (b ++ concat (cons SPACE <$> words)).
Proof.
  induction words as [|x rest IH]; intros b Hb; cbn [push_words fmap list_fmap concat]; [rewrite app_nil_r; by apply fits|].
  rewrite push_byte_exact. change (SPACE :: x) with ([SPACE] ++ x). rewrite <- (app_assoc [SPACE] x), (app_assoc b [SPACE]).
  apply fitting_bind. intros H. rewrite push_word_exact by done. rewrite (app_assoc _ x). apply fitting_bind. apply IH.
Qed.

(** The text that [write] stores, or that it is too long. *)
Lemma write_text_exact words (newline : bool) :
  (b ← push_words true words []; if newline then push_byte NEWLINE b else Some b) = fitting (spaced words ++ if newline then [NEWLINE] else []).
Proof.
  assert (push_words true words [] = fitting (spaced words)) as ->.
  { destruct words as [|x rest]; [done|]. cbn [push_words spaced mbind option_bind]. rewrite push_word_exact by (cbn; lia). cbn [app].
    apply fitting_bind. apply push_words_exact. }
  apply fitting_bind. intros H. destruct newline; [apply push_byte_exact|]. rewrite app_nil_r. by apply fits.
Qed.

(** ** The shells [kconfig] offers *)

Fixpoint lines_of (p : list Z) : list (list Z) :=
  match p with
  | [] => [[]]
  | c :: r => if line_end c then [] :: lines_of r else match lines_of r with s :: ss => (c :: s) :: ss | [] => [[c]] end
  end.
Fixpoint left_trim (s : list Z) : list Z := match s with c :: r => if (c =? SPACE) || (c =? TAB) then left_trim r else s | [] => [] end.

(** The lines that name an absolute path. *)
Definition shell_lines (p : list Z) : list (list Z) := filter (fun s => char_at s 0 = slash) (left_trim <$> lines_of p).

Lemma lines_of_take p : lines_of p = (take_line p).1 :: match (take_line p).2 with [] => [] | _ :: r => lines_of r end.
Proof. induction p as [|c p IH]; [done|]. cbn [lines_of take_line]. destruct (line_end c); [done|]. rewrite IH. by destruct (take_line p). Qed.

Lemma take_line_app p : (take_line p).1 ++ (take_line p).2 = p.
Proof. induction p as [|c p IH]; [done|]. cbn [take_line]. destruct (line_end c); [done|]. destruct (take_line p). cbn [fst snd app] in *. by rewrite IH. Qed.

Lemma shell_lines_end c r : line_end c = true -> shell_lines (c :: r) = shell_lines r.
Proof. intros Hc. unfold shell_lines. cbn [lines_of]. rewrite Hc. cbn [fmap list_fmap left_trim]. by rewrite filter_cons_False. Qed.

Lemma shell_lines_blank c r : blank c = true -> shell_lines (c :: r) = shell_lines r.
Proof.
  intros Hc. destruct (line_end c) eqn:E; [by apply shell_lines_end|]. unfold shell_lines. cbn [lines_of]. rewrite E, (lines_of_take r).
  cbn [fmap list_fmap left_trim]. assert ((c =? SPACE) || (c =? TAB) = true) as ->; [|done].
  unfold blank, line_end in *. by destruct (c =? NEWLINE), (c =? RETURN).
Qed.

Lemma shell_lines_skip p : shell_lines (skip_blanks p) = shell_lines p.
Proof. induction p as [|c p IH]; [done|]. cbn [skip_blanks]. destruct (blank c) eqn:E; [|done]. by rewrite IH, shell_lines_blank. Qed.

Lemma skip_blanks_length p : (length (skip_blanks p) <= length p)%nat.
Proof. induction p as [|c p IH]; cbn [skip_blanks]; [done|]. destruct (blank c); cbn [length]; lia. Qed.

Lemma skip_blanks_head p c r : skip_blanks p = c :: r -> blank c = false.
Proof. induction p as [|d p IH]; cbn [skip_blanks]; [done|]. destruct (blank d) eqn:E; [done|]. by intros [= -> ->]. Qed.

Lemma take_line_rest p : (take_line p).2 = [] \/ exists c r, (take_line p).2 = c :: r /\ line_end c = true.
Proof. induction p as [|c p IH]; [by left|]. cbn [take_line]. destruct (line_end c) eqn:E; [right; by exists c, p|]. by destruct (take_line p). Qed.

(** The lines from the first character that is not blank. *)
Lemma shell_lines_cons c r : blank c = false ->
  let '(line, rest) := take_line (c :: r) in
  shell_lines (c :: r) = (if c =? slash then [line] else []) ++ shell_lines (drop 1 rest) /\ shell_lines rest = shell_lines (drop 1 rest) /\
  (length rest <= length r)%nat.
Proof.
  intros Hb. pose proof (take_line_rest (c :: r)) as Hr. pose proof (take_line_app (c :: r)) as Ha. unfold shell_lines at 1. rewrite lines_of_take.
  assert (line_end c = false) as He by (unfold blank, line_end in *; destruct (c =? NEWLINE), (c =? RETURN); done).
  assert ((c =? SPACE) || (c =? TAB) = false) as Hs by (unfold blank in *; destruct (c =? NEWLINE), (c =? RETURN); done).
  cbn [take_line] in *. rewrite He in *. destruct (take_line r) as [s rest]. cbn [fst snd] in *. cbn [fmap list_fmap left_trim]. rewrite Hs.
  split_and!.
  - destruct (Z.eqb_spec c slash) as [->|Hne]; [rewrite filter_cons_True by done|rewrite filter_cons_False by done]; cbn [app]; by destruct rest.
  - destruct Hr as [->|(d & q & -> & Hd)]; [done|]. cbn [drop]. by apply shell_lines_end.
  - apply (f_equal length) in Ha. rewrite length_app in Ha. cbn [length] in Ha. lia.
Qed.

(** [parse_shells] finds the first eight of them. *)
Lemma parse_shells_exact fuel : forall p shells, (length p < fuel)%nat -> (length shells <= SHELL_CAP)%nat ->
  parse_shells fuel p shells = take SHELL_CAP (shells ++ shell_lines p).
Proof.
  induction fuel as [|fuel IH]; intros p shells Hf Hs; [lia|]. cbn [parse_shells]. pose proof (skip_blanks_length p) as Hl. rewrite <- (shell_lines_skip p).
  destruct (skip_blanks p) as [|c r] eqn:E; [change (shell_lines []) with (@nil (list Z)); rewrite app_nil_r, take_ge by done; done|].
  pose proof (skip_blanks_head p c r E) as Hb. pose proof (shell_lines_cons c r Hb) as H. destruct (take_line (c :: r)) as [line rest].
  destruct H as (-> & H2 & H3). cbn [length] in Hl. destruct (Z.eqb_spec c HASH) as [->|Hh].
  { cbn [Z.eqb app]. rewrite IH by lia. by rewrite H2. }
  rewrite IH; [|rewrite length_drop; lia|].
  - destruct (Z.eqb_spec c slash); [|by rewrite andb_false_r]. rewrite andb_true_r. destruct (Nat.ltb_spec (length shells) SHELL_CAP); [by rewrite <- app_assoc|].
    rewrite !take_app_le by lia. done.
  - destruct (Nat.ltb_spec (length shells) SHELL_CAP); [|done]. destruct (c =? slash); cbn [andb]; [rewrite length_app; cbn [length]; lia|done].
Qed.

(** ** [kconfig] at the end of its input *)

Section Menu.
Context {W : Type} `{!shell_os W} `{!shell_errno W} `{!program_os W}.

(** With no more input the menu is printed again and again. *)
Lemma menu_never_ends fuel : (forall (w : W) n line w', os_read STDIN_FILENO 15 w = Some (n, line, w') -> n <= 0) ->
  forall w, interactive_menu fuel w = None.
Proof.
  intros Hr. induction fuel as [|fuel IH]; intros w; cbn [interactive_menu]; [done|].
  destruct (puts_all menu w) as [w1|]; [|done]. cbn [mbind option_bind]. destruct (os_read STDIN_FILENO 15 w1) as [[[n line] w2]|] eqn:E; [|done].
  cbn [mbind option_bind]. specialize (Hr _ _ _ _ E). destruct (Z.leb_spec n 0); [apply IH|lia].
Qed.

(** ** The file [kconfig] writes *)

(** A system that stores what is written to [/etc/kernel.cfg]: [held] is what the file holds, and
    [fresh_at w fd] says that [fd] is open on the file, which is empty.  A write stores what it
    answers it has stored, perhaps less than it was given.  Printing does not touch the file
    while the standard output is not directed to it ([apart]), and no call redirects it. *)
Class config_store := ConfigStore {
  held : W -> list Z;
  fresh_at : W -> Z -> Prop;
  apart : W -> Prop;
  law_truncate w fd w' : os_open KERNEL_CFG (Z.lor (Z.lor O_CREAT O_TRUNC) O_WRONLY) w = Some (fd, w') -> 0 <= fd -> fresh_at w' fd;
  law_stored fd bytes w n w' : fresh_at w fd -> os_write fd bytes w = Some (n, w') -> 0 <= n -> held w' = take (Z.to_nat n) bytes;
  law_closed fd w rc w' : os_close fd w = Some (rc, w') -> held w' = held w /\ (apart w -> apart w');
  law_printed bytes w n w' : apart w -> os_write STDOUT_FILENO bytes w = Some (n, w') -> held w' = held w /\ apart w';
  law_opened path flags w fd w' : apart w -> os_open path flags w = Some (fd, w') -> apart w';
  law_written fd bytes w n w' : apart w -> os_write fd bytes w = Some (n, w') -> apart w'
}.
Context `{!config_store}.

Lemma puts_apart texts : forall w w', apart w -> puts_all texts w = Some w' -> held w' = held w.
Proof.
  induction texts as [|t texts IH]; intros w w' Ha; [by intros [= ->]|]. cbn. unfold u_puts, ignore.
  destruct (os_write _ t w) as [[n w1]|] eqn:E; [|done]. cbn [mbind option_bind]. intros Hw.
  destruct (law_printed _ _ _ _ Ha E) as [<- Ha1]. by apply IH.
Qed.

(** When [kconfig shell PATH] answers 0, the file holds the configuration as far as the write
    stored it. *)
Lemma write_kernel_shell_holds path (w w' : W) : apart w -> write_kernel_shell path w = Some (0, w') ->
  exists n, held w' = take n (cfg_data path).
Proof.
  unfold write_kernel_shell, fails_with, shell_exists. intros Ha Hw.
  destruct (os_open path O_RDONLY w) as [[fd0 w0]|] eqn:E0; [|done]. cbn [mbind option_bind] in Hw.
  pose proof (law_opened _ _ _ _ _ Ha E0) as Ha0. destruct (fd0 <? 0); cbn [mbind option_bind negb] in Hw; [by destruct (errs _ w0)|].
  unfold ignore in Hw. destruct (os_close fd0 w0) as [[rc w1]|] eqn:E1; [|done]. cbn [mbind option_bind negb] in Hw.
  apply law_closed in E1 as [_ Ha1]. specialize (Ha1 Ha0).
  destruct (os_open KERNEL_CFG _ w1) as [[fd w2]|] eqn:E2; [|done]. cbn [mbind option_bind] in Hw. destruct (Z.ltb_spec fd 0); [by destruct (errs _ w2)|].
  pose proof (law_opened _ _ _ _ _ Ha1 E2) as Ha2. apply law_truncate in E2; [|done].
  destruct (os_write fd _ w2) as [[n w3]|] eqn:E3; [|done]. cbn [mbind option_bind] in Hw.
  destruct (os_close fd w3) as [[rc4 w4]|] eqn:E4; [|done]. cbn [mbind option_bind] in Hw.
  destruct (Z.ltb_spec n 0); [by destruct (errs _ w4)|]. destruct (puts_all _ w4) as [w5|] eqn:E5; [|done]. injection Hw as <-.
  pose proof (law_written _ _ _ _ _ Ha2 E3) as Ha3. apply law_stored in E3; [|done..]. apply law_closed in E4 as [E4 Ha4].
  exists (Z.to_nat n). rewrite <- E3, <- E4. apply (puts_apart _ _ _ (Ha4 Ha3) E5).
Qed.

End Menu.

(** ** A system with a directory *)

(** The paths that exist; [d] is a directory. *)
Definition tree : Type := list (list Z).
Definition d_path : list Z := cstr "d".
Definition other : list Z := cstr "keep".

#[local] Instance tree_os : shell_os tree := {|
  os_open _ _ w := Some (-1, w); os_close _ w := Some (0, w); os_dup _ w := Some (-1, w); os_dup2 _ _ w := Some (-1, w);
  os_read _ _ w := Some (0, [], w); os_write _ bytes w := Some (Z.of_nat (length bytes), w); os_seek_end _ w := Some (0, w);
  os_chdir _ w := Some (-1, w); os_getcwd _ w := Some (None, w);
  os_getdents p _ w := Some (if bool_decide (p = d_path) then (2, [(dot, DT_DIR); (cstr "x", DT_REG)]) else (0, []), w);
  os_execve _ _ w := Some (-1, w); os_getkey w := Some (-1, w); os_line_begin w := Some (-1, w); os_line_redraw _ _ _ w := Some (-1, w)
|}.
#[local] Instance tree_errno : shell_errno tree := fun _ => 0.

Definition take_out (p : list Z) (w : tree) : option (Z * tree) :=
  if bool_decide (p ∈ w) then Some (0, filter (fun q => q <> p) w) else Some (-1, w).

#[local] Instance tree_programs : program_os tree := {|
  os_stat p w := Some (if bool_decide (p ∈ w) then inr (FsStat (if bool_decide (p = d_path) then S_IFDIR else S_IFREG) 0) else inl (-1), w);
  os_unlink := take_out; os_rmdir := take_out;
  os_mkdir _ w := Some (-1, w); os_symlink _ _ w := Some (-1, w); os_readlink _ _ w := Some (-1, [], w);
  os_sleep _ w := Some w; os_sync w := Some w; os_reboot _ w := Some (-1, w); os_clear w := Some (-1, w)
|}.

(** Nothing is created, and [keep] is kept. *)
Definition only_less (w w' : tree) : Prop := (forall p, p ∈ w' -> p ∈ w) /\ (other ∈ w -> other ∈ w').

Lemma take_out_less p w : p <> other -> yields (take_out p w) (fun r => only_less w r.2 /\ (0 <= r.1 -> p ∉ r.2)).
Proof.
  intros Hp. unfold take_out. case_bool_decide as Hw; apply yields_some; [|split; [by split|cbn; lia]].
  cbn [fst snd]. split_and!; [split|].
  - intros q Hq. by apply list_elem_of_filter in Hq as [_ ?].
  - intros H. apply list_elem_of_filter. split; [|done]. by intros <-.
  - intros _ Hq. by apply list_elem_of_filter in Hq as [[] _].
Qed.

#[local] Notation demo_argv := [cstr "rm"; cstr "-r"; cstr "d/"].

Lemma rm_removes_its_operands_witness :
  rm_main demo_argv [d_path; cstr "d/x"; other] = Some (0, [other]) /\
  exists rc w', rm_main demo_argv [d_path; cstr "d/x"; other] = Some (rc, w') /\ other ∈ w' /\ (rc = 0 -> d_path ∉ w').
Proof.
  split; [reflexivity|].
  destruct (rm_removes_its_operands only_less (fun p w => p ∉ w) demo_argv [d_path; cstr "d/x"; other]) as (rc & w' & E & H1 & H2).
  - assert (forall p, (exists operands recursive force, rm_request demo_argv = Some (operands, recursive, force) /\ removable operands recursive p) -> p <> other) as Hp.
    { intros p (ops & rec & force & [= <- <- <-] & a & names & Ha & _ & -> & _) Hq. apply elem_of_cons in Ha as [->|Ha%elem_of_nil]; [|done].
      change (target (cstr "d/")) with [100] in Hq. done. }
    split; try (intros; by apply yields_some).
    + by split.
    + intros w1 w2 w3 [A1 A2] [B1 B2]. split; auto.
    + intros p n w. apply yields_some. split; [by split|]. cbn [fst snd]. case_bool_decide; repeat constructor; done.
    + intros p w H. by apply take_out_less, Hp.
    + intros p w H. by apply take_out_less, Hp.
    + intros p w w2 Hn [A1 _] Hq. by apply Hn, A1.
  - exists rc, w'. split; [exact E|]. split; [apply H1; by do 2 right; left|]. intros Hz. apply (H2 [cstr "d/"] true eq_refl Hz (cstr "d/")). by left.
Defined.

End ProgramsProps.
