(* ===== verification/Boot.v ===== *)
(** * Starting the system

    [core/bootstrap/bootstrap.c]: the initialisation of the kernel's parts, the check of the
    pseudo file systems, and the start of the configured shell.  The loader of the boot
    modules and the storage of the boot context work on the state of other files; they are
    arguments. *)

From S2P Require Import Prelude FsTypes FsPath Ramfs LineEdit Vfs Pseudo FsCore Fd Display Sprg Paging Usermode Syscall MshParse MshRun AdaText Programs KShell FsCoreProps FdProps UsermodeProps.
From stdpp Require Import base list option list_numbers strings gmap.
From Stdlib Require Import ZArith Lia ZifyBool.
Import FsTypes FsPath Vfs Pseudo FsCore Fd FdOps Usermode Syscall.
Open Scope Z_scope.
Open Scope vfs_scope.

(** ** The kernel log

    [core/klog/klog_core.c], on the terminal and the timer of the services. *)

Module Klog.

Definition TTY_YELLOW : Z := 14.

Section Klog.
Context {W : Type} `{!services W}.

Definition klog_put_u32_dec (value : Z) : W -> option W := put_bytes (KShell.u32_dec value).

Definition klog_timestamp (w : W) : option W :=
  let ticks := u32 (timer_ticks_get w) in
  let seconds := ticks / 100 in
  let centiseconds := ticks mod 100 in
  w ← tty_putc 91 w;
  w ← klog_put_u32_dec seconds w;
  w ← tty_putc 46 w;
  w ← (if centiseconds <? 10 then tty_putc 48 w else Some w);
  w ← klog_put_u32_dec centiseconds w;
  put_bytes (cstr "] ") w.

Definition klog_info_core (prefix msg : list Z) (w : W) : option W :=
  w ← tty_set_color TTY_YELLOW w;
  w ← klog_timestamp w;
  w ← put_bytes (cstr "INFO  ") w;
  w ← put_bytes prefix w;
  w ← put_bytes (cstr ": ") w;
  w ← put_bytes msg w;
  tty_putc 10 w.

(** Up to [platform_halt_forever]. *)
Definition panic_core (msg : list Z) (w : W) : option W :=
  w ← tty_set_color TTY_RED w;
  w ← klog_timestamp w;
  w ← put_bytes (cstr "PANIC kernel: ") w;
  w ← put_bytes msg w;
  tty_putc 10 w.

(** ** What a line of the log says *)

Definition stamp (ticks : Z) : list Z :=
  [91] ++ KShell.u32_dec (ticks / 100) ++ [46] ++ (if ticks mod 100 <? 10 then [48] else []) ++ KShell.u32_dec (ticks mod 100) ++ cstr "] ".

Lemma put_bytes_app a b (w : W) : put_bytes (a ++ b) w = (w ← put_bytes a w; put_bytes b w).
Proof. revert w. induction a as [|c a IH]; intros w; [done|]. cbn [app put_bytes]. destruct (tty_putc c w) as [w1|]; [apply IH|done]. Qed.

Lemma put_byte c (w : W) : tty_putc c w = put_bytes [c] w.
Proof. cbn [put_bytes]. by destruct (tty_putc c w). Qed.

Lemma timestamp_exact (w : W) : klog_timestamp w = put_bytes (stamp (u32 (timer_ticks_get w))) w.
Proof.
  unfold klog_timestamp, stamp, klog_put_u32_dec. rewrite put_byte, put_bytes_app. destruct (put_bytes [91] w) as [w1|]; [|done]. cbn [mbind option_bind].
  rewrite put_bytes_app. destruct (put_bytes _ w1) as [w2|]; [|done]. cbn [mbind option_bind].
  rewrite put_byte, put_bytes_app. destruct (put_bytes [46] w2) as [w3|]; [|done]. cbn [mbind option_bind].
  rewrite put_bytes_app. destruct (_ <? 10); [rewrite put_byte; destruct (put_bytes [48] w3) as [w4|]; [|done]|]; cbn [mbind option_bind put_bytes]; by rewrite put_bytes_app.
Qed.

Lemma klog_line prefix msg (w : W) : klog_info_core prefix msg w =
  (w ← tty_set_color TTY_YELLOW w; put_bytes (stamp (u32 (timer_ticks_get w)) ++ cstr "INFO  " ++ prefix ++ cstr ": " ++ msg ++ [10]) w).
Proof.
  unfold klog_info_core. destruct (tty_set_color TTY_YELLOW w) as [w1|]; [|done]. cbn [mbind option_bind]. rewrite timestamp_exact, put_bytes_app.
  destruct (put_bytes _ w1) as [w2|]; [|done]. cbn [mbind option_bind]. do 4 (rewrite put_bytes_app; destruct (put_bytes _ _); [|done]; cbn [mbind option_bind]).
  apply put_byte.
Qed.

End Klog.

End Klog.

Module Boot.




Section Boot.
Context {S W : Type} `{!storage S} `{!services W}.
#[local] Notation kernel := (kernel S W).
#[local] Notation machine := (machine S W).
Variable usermode_i386_enter : Z -> Z -> machine -> option (Z * machine).
Variable l : layout.
Variables path_at args_at argv_at : Z.
Variable fs_core_set_boot_context : Z -> Z -> S -> S.
Variable smod_boot_load_all : Z -> machine -> option (Z * machine).

Definition klog (prefix text : string) : machine -> option machine := KShell.on_term (klog_info (cstr prefix) (cstr text)).

(** The check of [/dev] and [/proc], up to its first failure. *)
Definition pseudo_check : M (fs S W) unit :=
  let check b := guard b FS_ERR_INVALID in
  dev <- fs_core_stat (Some (cstr "/dev")) ;;
  proc <- fs_core_stat (Some (cstr "/proc")) ;;
  check (negb (Z.land (st_mode dev) FS_MODE_DIR =? 0)) ;;;
  check (negb (Z.land (st_mode proc) FS_MODE_DIR =? 0)) ;;;
  id <- fs_core_open (Some (cstr "/dev/zero")) FS_O_RDONLY ;;
  zeros <- fs_core_read id 0 4 ;;
  check (bool_decide (zeros = [0; 0; 0; 0])) ;;;
  id <- fs_core_open (Some (cstr "/proc/version")) FS_O_RDONLY ;;
  info <- fs_core_read id 0 48 ;;
  check (0 <? length info)%nat ;;;
  id <- fs_core_open (Some (cstr "/dev/null")) FS_O_WRONLY ;;
  wrote <- fs_core_write id 0 (cstr "ok") ;;
  check (wrote =? 2) ;;;
  id <- fs_core_open (Some (cstr "/dev/tty")) FS_O_WRONLY ;;
  wrote <- fs_core_write id 0 [] ;;
  check (wrote =? 0) ;;;
  id <- fs_core_open (Some (cstr "/dev/kmsg")) FS_O_WRONLY ;;
  wrote <- fs_core_write id 0 (cstr "devfs write verified") ;;
  check (wrote =? 20).

Definition on_store_of (f : S -> S) (s : machine) : machine :=
  set_kern (set_fsys (FsCore.set_store (f (store (fsys (kern s)))) (fsys (kern s))) (kern s)) s.

Definition bootstrap_init (boot_magic boot_info_ptr : Z) (s : machine) : option (Z * machine) :=
  k ← process_core_init (kern s);
  let s := set_kern k s in
  s ← klog "system" "Copyright (c) 2026 Adam Cir (Adava), Adava Software, Adava Development." s;
  let s := on_store_of (fs_core_set_boot_context boot_magic boot_info_ptr) s in
  '(r, s) ← KShell.fs_call fs_core_init_ramfs s;
  match r with
  | inl rc => s ← klog "bootstrap" "RAMFS initialization failed" s; Some (rc, s)
  | inr _ =>
      s ← klog "bootstrap" "RAMFS mounted as root" s;
      '(r, s) ← KShell.fs_call fs_core_mount_boot_media s;
      s ← (match r with
           | inr _ => klog "bootstrap" "Physical filesystem mounted as root" s
           | inl rc => if rc =? FS_ERR_NOT_FOUND then klog "bootstrap" "No physical filesystem; RAM-only mode" s
                       else klog "bootstrap" "Boot media unavailable; RAM-only mode" s
           end);
      k ← fd_core_init (kern s);
      '(_, s) ← smod_boot_load_all boot_magic (set_kern k s);
      '(r, s) ← KShell.fs_call pseudo_check s;
      s ← (match r with inr _ => klog "vfs" "/dev and /proc live" s | inl _ => klog "vfs" "Pseudo filesystem check failed" s end);
      Some (0, s)
  end.




End Boot.

End Boot.

(** * The start of the system is correct

    The check of the pseudo file systems, and the way of the name of the shell from
    [kconfig] to the process that is started. *)

Module BootProps.
Import MshRun AdaText Programs.Programs Boot FsCoreProps.

Section Start.
Context {S W : Type} `{!storage S} `{!services W}.
#[local] Notation machine := (machine S W).

(** [/dev] and [/proc] answer whatever the root file system is, as long as the log does. *)
Lemma pseudo_check_live (f : fs S W) w : cwd f <> [] -> klog_info (cstr "kmsg") (cstr "devfs write verified") (env f) = Some w ->
  pseudo_check f = Some (inr tt, set_env w f).
Proof.
  destruct f as [r m k st e [|c cs]]; [done|]. intros _ Hw. cbn [env] in Hw.
  transitivity (match klog_info (cstr "kmsg") (cstr "devfs write verified") e with
                | Some x => Some (inr tt : Z + unit, set_env x (Fs r m k st e (c :: cs))) | None => None end); [|by rewrite Hw].
  clear Hw. vm_compute. destruct services0 as [??????????? log ????]. match goal with |- context [log ?a ?b e] => destruct (log a b e) end; reflexivity.
Qed.

(** ** The lines of the configuration *)





(** ** From [kconfig] to the process *)





Context (enter : Z -> Z -> machine -> option (Z * machine)) (l : layout) (path_at args_at argv_at : Z).


End Start.

(** ** A configured system *)

(** On the one side a system of one file, with descriptor 3. *)
#[local] Instance sink_os : shell_os (list Z) := {|
  os_open p flags w := Some (if flags =? O_RDONLY then (4, w) else (3, [])); os_close _ w := Some (0, w); os_dup _ w := Some (-1, w); os_dup2 _ _ w := Some (-1, w);
  os_read _ _ w := Some (0, [], w); os_write fd bytes w := Some (Z.of_nat (length bytes), if fd =? 3 then w ++ bytes else w); os_seek_end _ w := Some (0, w);
  os_chdir _ w := Some (-1, w); os_getcwd _ w := Some (None, w); os_getdents p _ w := Some (0, [], w);
  os_execve _ _ w := Some (-1, w); os_getkey w := Some (-1, w); os_line_begin w := Some (-1, w); os_line_redraw _ _ _ w := Some (-1, w)
|}.
#[local] Instance sink_errno : shell_errno (list Z) := fun _ => 0.
#[local] Instance sink_programs : program_os (list Z) := {|
  os_stat _ w := Some (inl (-1), w); os_unlink _ w := Some (-1, w); os_rmdir _ w := Some (-1, w); os_mkdir _ w := Some (-1, w);
  os_symlink _ _ w := Some (-1, w); os_readlink _ _ w := Some (-1, [], w); os_sleep _ w := Some w; os_sync w := Some w;
  os_reboot _ w := Some (-1, w); os_clear w := Some (-1, w)
|}.

#[local] Instance sink_store : ProgramsProps.config_store (W := list Z).
Proof.
  refine (ProgramsProps.ConfigStore (W := list Z) (fun w => w) (fun w fd => fd = 3 /\ w = []) (fun _ => True) _ _ _ _ _ _); cbn.
  - by intros w fd w' [= <- <-].
  - intros fd bytes w n w' [-> ->] [= <- <-] _. cbn. by rewrite Nat2Z.id, take_ge.
  - by intros fd w rc w' [= _ <-].
  - by intros bytes w n w' _ [= _ <-].
  - done.
  - done.
Defined.

(** On the other a root file system with one file. *)
#[local] Instance one_file : storage (list Z) := {|
  driver_ops _ := Driver None None None None None (Some (fun _ cap s => Some (inr (take (Z.to_nat cap) s), s))) None None None None None
                    (Some (fun _ s => Some (inl FS_ERR_NOT_FOUND, s))) None None None;
  ramfs_core_init s := (FS_OK, s); ramfs_core_clear_dirty s := s; fs_install_bootmedia_device := Some;
  block_core_has_root_device _ := false; fat12_core_mount := fail FS_ERR_NOT_FOUND; iso9660_core_mount := fail FS_ERR_NOT_FOUND;
  fat12_core_buffer_bytes _ := 0; ramfs_core_get_stats _ := Ramfs.Stats 0 0 0 0 0 0
|}.

#[local] Notation msh_path := (cstr "/bin/msh.prg").
#[local] Notation started := (Machine
  (FdProps.boot_kernel (Fs (Some RAMFS_DRIVER) None 0 (Programs.cfg_data msh_path) (FsCoreProps.Console [] []) [slash]))
  ∅ UsermodeProps.demo_pages zero_gdt (0, 0) (Tss 0 0 0) 0 0 0 (0, 0) 0).


End BootProps.
